(* ===== verification/_CoqProject ===== *)
-Q . S2P
Prelude.v
GoTime.v
GoText.v
GoStrings.v
GoSha256.v
GoStrconv.v
GoEncoding.v
GoFloat.v
Pg.v
OpsModel.v
Samples.v
AlertRules.v
AlertStore.v
AlertProofs.v
WebhookDelivery.v
WebhookRunner.v
AlertRunner.v
Keyset.v
AlertList.v
AuditLog.v
SettingsStore.v
LeaseStore.v
LeaseProofs.v
LeaseSafety.v
LeaseTheorems.v
LeaseProgress.v
FilesModel.v
UploadParts.v
FilesStore.v
ProcessingStore.v
FilesCleanup.v
ProcessingProofs.v
ProcessingTheorems.v
ProcessingHistory.v
FilesSettled.v
UploadService.v
UploadTheorems.v
Detect.v
Pipeline.v
Worker.v
WorkerTheorems.v
FilesWitness.v
LessonModel.v
LessonFiles.v
LessonStore.v
Publication.v
LessonService.v
FileAccess.v
AccessTheorems.v
LessonProofs.v
LessonTheorems.v
LessonWitness.v
QuestionModel.v
Notifications.v
QuestionStore.v
QuestionService.v
QuestionProofs.v
QuestionTheorems.v
QuestionWitness.v
WorkerWitness.v
AuthModel.v
AuthStore.v
AuthTheorems.v
AuthWitness.v
BackupModel.v
BackupStore.v
BackupProofs.v
BackupRetention.v
BackupRestore.v
BackupService.v
AIModel.v
AIStore.v
AIRunnerStore.v
AIService.v
AIRunner.v
AIInvariant.v
AITheorems.v
AIExecution.v
AIQuota.v
AIWitness.v
