(* ===== verification/Prelude.v ===== *)
(** * A verification of HappyLearn's server core

    HappyLearn is a self-hosted teaching platform written in Go.  Seven subsystems
    have to be right when things go wrong, and this development models them and
    proves what makes them correct: [internal/operations], which watches the
    installation, raises alerts and decides who may write; [internal/backup], which
    makes, keeps and proves backups; [internal/files] with [internal/processing],
    which take uploads, scan and convert them, hand them out and delete them again;
    [internal/teaching], whose lessons the files belong to; [internal/qanda], where
    students ask and teachers answer; [internal/aiqa], where a language model does; and
    [internal/auth] with [internal/students], which say who is who.
    The audit log they write to, [internal/audit], and the notifications they send,
    [internal/notifications], are modelled with them.

    ** The program and its parts

    Operations.  Samples of metrics are validated against a catalogue
    ([sample.go]).  Rules derived from the administrator's settings ([model.go],
    [alerts.go]) turn a batch of samples into evaluations, which the alert store
    ([postgres_alerts.go]) folds into rows: two consecutive failures open an alert,
    a worse one upgrades it, three consecutive successes resolve it.  In the same
    transaction a transition is written to an outbox with three scheduled deliveries
    ([postgres_webhook_outbox.go]).  The webhook runner claims due deliveries under
    a lease ([postgres_webhook_delivery.go]), sends them ([webhook_sender.go]) and
    completes or abandons them ([webhook_runner.go]).  The mode row
    ([postgres_store.go]) says who may write: requests take a shared session,
    maintenance takes an exclusive lease with a token, renews it, moves it and
    releases it, over connections that may break at any time.

    Backup.  Runs move through a state graph ([backup/model.go]); the store
    ([backup/postgres_store.go]) creates them idempotently, gives them to workers
    under leases with generations, applies fenced transitions, records artifacts and
    restore exercises, and selects what retention may delete; the service
    ([backup/service.go]) validates and completes the inputs of all that.

    Files.  An upload session collects parts ([upload_service.go],
    [files/postgres_store.go]); completing it checks that the parts add up to the
    declared size and hash, and creates a file version with a processing job.  The
    queue ([processing/postgres_store.go]) leases the job to a worker
    ([worker.go]), whose pipeline ([pipeline.go], [detect.go]) fetches the original,
    detects its type, scans it, and stores a preview and a text; the worker then
    completes or fails the job.  Deleted files are purged by another claim queue
    ([postgres_file_cleanup.go]) unless something still refers to them.  The file
    center ([postgres_file_center.go], [file_center.go]) renames files, replaces
    them by a new version and goes back to an old one, and binds versions to the
    drafts of lessons ([binding_service.go]).  Readers get at a version through
    [access_service.go], which asks the store for the grant, logs the attempt, takes
    a delivery slot and copies the range that was asked for.

    Teaching.  A lesson is a draft that is edited under a version number and
    published as an immutable revision ([teaching/postgres_store.go]) with a body
    ([publication_validation.go] scans it), an audience of students and groups,
    videos and files; the services ([service.go], [student_service.go]) validate the
    drafts, decide who may read what, and record how far a student has got.

    Questions.  A student's question is a thread of messages ([qanda/model.go]); a
    follow-up, a reply or a change of status moves it along [NextStatus] and raises its
    version ([qanda/service.go]).  Each call is one transaction that also writes an
    audit event and a notification to the other side ([qanda/postgres_store.go],
    [notifications/postgres_store.go]), and carries an idempotency key, so that it can be
    repeated when its answer is lost.  Files hang on messages and are read through
    [qa_access.go].

    Assistant.  A message to the assistant is admitted with a run in one transaction
    ([aiqa/service.go], [postgres_runtime.go]), which checks the student's quota
    ([quota.go]) against the ledger and reserves what the run may use at most.  A runner
    ([runner.go], [postgres_runner.go]) leases the oldest run, builds the request from
    the thread and the attachments ([postgres_attachments.go]), streams the answer while
    it stores the events and renews the lease, and ends the run: with the answer and a
    charge, or with an error and the reservation back.  A reconciler ends the runs whose
    runner is gone.

    Authentication.  A password is stored as a text in the PHC format with the salt and the
    key that Argon2 derives ([auth/password.go]).  A login compares it, creates a session
    under a random token of which the table has the hash ([token.go], [service.go],
    [auth/postgres_store.go]) and records the attempt; a request carries the token in a
    cookie and passes the gate ([auth/http.go]) as long as the session is neither expired
    nor revoked and its user is active.  The administrator creates, disables and enables
    students and resets their passwords, each in one transaction with its audit event
    ([students/service.go], [postgres_uow.go]).

    ** Files of the development

    Foundations.
    - [Prelude]: results and their notation ([reject], [let*]), reachability,
      tactics ([bool_simpl], [go_case]), shared lemmas.
    - [GoTime], [GoText], [GoStrings], [GoStrconv], [GoEncoding], [GoFloat], [GoSha256]:
      what the code uses of Go's time, UTF-8, strings, decimal numbers, base 64, [float64] (IEEE 754
      binary64) and SHA-256, all executable.
    - [Pg]: a store operation as a computation over a table state in an environment
      that decides which round trips fail, what the clocks say, which identifiers are
      generated, and whether a commit whose report was lost was applied; predicates
      on what an operation preserves, fails with and returns.  [PgTime] is what is
      assumed of time columns.
    - [Keyset]: keyset pagination, and the first row of an ordered query ([orderBy]).

    Operations.
    - [OpsModel]: settings, infrastructure status, the settings service, the write
      gate and claim admission; [SettingsStore] (module [SettingsPg]): their rows.
    - [Samples], [AlertRules]: [sample.go] and [alerts.go].
    - [AlertStore], [AlertProofs]: the alert tables and the abstract alert ([Phase],
      [specStep]) they refine; [AlertList]: the listing; [AlertRunner]: the runner
      over an interface with the store as its instance.
    - [WebhookDelivery], [WebhookRunner]: the delivery store, the sender, the runner.
    - [LeaseStore]: the mode row, leases and shared sessions as programs of atomic
      actions that any number of processes interleave; [LeaseProofs], [LeaseSafety],
      [LeaseTheorems], [LeaseProgress]: their invariants, the exclusion, progress.
    - [AuditLog] (module [Audit]): events, writer, outcomes as Go and as SQL, listing.

    Backup.
    - [BackupModel] (module [Backup]), [BackupStore], [BackupProofs],
      [BackupRetention], [BackupRestore], [BackupService] (module [Service], over the
      interface [BackupOps] with the laws [BackupLaws]).

    Files and processing.
    - [FilesModel] (module [Files]): the data and the upload policies; [FilesSettled]:
      what becomes of a commit whose report was lost;
      [UploadParts]: the arithmetic of parts.
    - [FilesStore]: the tables with their constraints and the upload store;
      [ProcessingStore] (module [Processing]): the job queue; [FilesCleanup] (module
      [Cleanup]): purging, retrying and deleting.
    - [ProcessingProofs], [ProcessingTheorems], [ProcessingHistory]: the invariant of the tables over every operation
      ([filesStep]), the order of the queue, fencing, the life of a job, purging.
    - [UploadService] (with the class [Objects.Store] for the object store),
      [UploadTheorems]: uploads call by call.
    - [Detect], [Pipeline]: type detection and the pipeline, with their theorems.
    - [Worker] (with the class [Queue]), [WorkerTheorems]: the worker's loop.
    - [FilesWitness], [WorkerWitness]: an upload followed from its first part to a
      ready version, and the theorems at the states it goes through.

    - [FileAccess] (module [Access]): the delivery service over the interfaces
      [AccessLogs], [AccessStore], [QAAccessStore] and [AIAccessStore], byte ranges
      and the copying loop; its module [LessonAccess]: the lesson store as their
      instance;
      [AccessTheorems].

    Teaching.
    - [LessonModel] (module [Lessons]): the data, the tables and the draft rules;
      [LessonFiles]: file bindings (module [Bindings]) and the file center (module
      [Center]) over those tables; [LessonStore] (module
      [Teaching]): saving, publishing, archiving, progress; [Publication]: the scanner
      of lesson bodies, the tokens and the structure it checks; [LessonService] (module [Lesson]).
    - [LessonProofs], [LessonTheorems]: the invariant of the tables over every
      operation of the upload store, the queue, the file center and the lesson store
      ([lessonStep]); [LessonWitness]: a lesson written, published, read and revised.

    Questions.
    - [QuestionModel] (module [Questions]): data, status graph, rules for inputs and
      the tables, which extend those of lessons; [Notifications]: the writer and the
      inbox; [QuestionStore], [QuestionService]; its module [QuestionAccess]: the tables
      as an instance of the interface of [FileAccess].
    - [QuestionProofs]: every transaction makes one [change];
      [QuestionTheorems]: the invariant and the history over every operation
      ([qaStep]), and what repeated calls do; [QuestionWitness]: a question asked, lost,
      repeated, answered and closed.

    Assistant.
    - [AIModel] (module [AI]): data, quotas, context, costs and the tables with their
      checks and triggers, beside those of lessons; [AIStore] (also module
      [AIAttachments]), [AIRunnerStore], [AIService], [AIRunner] (with the class [RunnerStore]): the
      operations.
    - [AIInvariant]: what the statements do, and the invariant [aiWf]; [AITheorems]: every
      transaction makes changes of four kinds ([aiChange]) and may admit one run
      ([admits]), the invariant and the history over every operation ([aiStep]);
      [AIQuota]: the ledger, the limits and the costs; [AIExecution]: an execution from
      the first event to the end; [AIWitness]: a run admitted,
      leased, streamed and charged.

    Authentication.
    - [AuthModel] (module [Auth]): data, the text form of passwords, tokens and the tables
      with their constraints; [AuthStore]: the stores (module [AuthStore]), and the two
      services with the gates (module [AuthService]).
    - [AuthTheorems]: passwords; the changes every operation makes ([authChange]), the
      invariant and what stays over any interleaving of operations ([authStep]), who gets
      in, what ends the sessions of a user, logging in; [AuthWitness]: a student is
      created, logs in and gets a new password.

    Go structs are records, string enumerations are inductive types with a
    constructor for any other text, tables are finite maps by primary key or lists,
    nil pointers are [option]s, errors are values of [result].  The nil receiver and
    nil context guards of the methods are not modelled: a model has its store.

    ** What is proved

    - Alerts: every reachable table state is well formed; [EvaluateAlert] refines a
      small abstract state machine; the outbox gets exactly one event and three
      deliveries per announced transition; deliveries of an event happen strictly in
      order and at most one is claimed or succeeds.
    - Mode and leases: in every interleaving an admitted write holds its own shared lock
      in normal mode, a live lease session holds the only lock there is, and so they
      never meet; each change of the mode row is one the code intends; what a caller is
      told about its lease is justified by the row; every connection is in exactly one
      place; an undisturbed lease is acquired, renewed, moved and released, and the row
      says so after each call.
    - Settings and audit: rows stay valid, updates are never lost, rejections are
      audited; the Go and the SQL classification of audit outcomes agree on every row
      the writer accepts; listings are complete.
    - Backups: the invariant of the tables; runs only advance; claims and transitions
      are exact even when the outcome of a commit is unknown; stale owners are fenced;
      the two layers of validation agree; retention keeps exactly what its rule keeps;
      restore evidence is trustworthy and can be read back.
    - Files: every operation keeps the tables well formed: the rows satisfy constraints
      that are spelled out beside those of the model, an active job always has a version
      that can be claimed, and at most one; an upload completed too early stays
      unfinished whatever follows; the queue takes the
      first due job; stale workers change nothing; jobs only advance; parts partition
      the file; what a completed upload stores is what was announced; nothing that is
      referred to is purged.
    - Access: the range that is served is the one HTTP semantics asks for and lies
      inside the file; what is handed out is the delivery the store resolved for the
      caller, after the log of it has been written; copying writes exactly the bytes of the range or reports an error.
    - Teaching: as long as a revision is the one students see, each of its files stays
      servable, whatever is uploaded, replaced, deleted or purged meanwhile; published
      revisions never change; publishing stores exactly the draft with the next
      version and changes nothing else; the scanner of bodies takes as many steps as there
      are characters and accepts exactly the texts that spell well-structured tokens
      ([spells], [bracesBalanced], [nested], [formulas] of [Publication]); a student's
      progress only moves forward, but a report from a clock far ahead freezes it.
    - Questions: threads, messages and attachments stay consistent, and exactly what is
      attached is kept from being purged; the history of a thread only grows, its status
      moves along the graph and its version counts the moves; a call posts its message
      once however often it is repeated, and a repetition gives that message back.
    - Assistant: the ledger, the events, the answers and the runs agree in every state;
      what is written stays; no admission takes a student over a limit that is in force;
      an executed run ends unless its runner is stopped, and when it succeeds its answer and its stored events spell
      what was streamed; costs are exact up to the largest [int64].
    - Authentication: a stored password reads back as what it was made of and no other text
      does; names, tokens and the administrator are unique; a token lets in its user only,
      for seven days without use and thirty in all, and never again once it is revoked; a
      new password or a disabled account revokes every session there is; a login without
      failures succeeds exactly with the right password of an active account.
    - Layers: what an upload policy accepts, detection takes on (with one exception,
      long names); every failure the pipeline can return is recorded by the queue;
      every result it can return completes the job.

    All theorems quantify over the environment: any round trip may fail and any
    commit may be lost, unless a statement about progress says that none does.

    ** Bounds

    Recursion that is not structural has fuel that provably suffices: UTF-8 decoding
    runs on as many steps as there are bytes, the scanner of lesson
    bodies on the number of runes, following the pages of a listing on one step more
    than there are rows, and the reads that settle a lost commit are the
    attempts the code makes.  Counters are checked against the range of their
    columns; durations saturate as Go's do; the sum of archive sizes wraps at 64 bits.

    ** What is not modelled

    Outside [LeaseStore] an operation runs from its first to its last round trip
    without interleaving, which is what row locks and advisory locks provide; rows
    locked by other transactions are a parameter of the claims.  In [LeaseStore]
    timers may fire at any time, and a lock statement that fails on a connection that
    is not broken is taken not to have been granted.  The JSON and XML decoders, the
    image and archive packages, external programs, the object store, the HTTP
    transport and the text form of UUIDs are parameters.  The reference counts of the
    upload gates, the text of joined errors and the order of preview identifiers are
    not modelled, nor is it checked that text columns hold valid UTF-8.

    Of teaching, the lists and searches of the administration and the student's
    browsing pages are not modelled; the URL parser and Unicode normalisation and
    lower-casing are parameters of the validators.  Files attached to questions to the
    assistant are read through an interface whose store is not modelled.

    Of authentication, Argon2 is a parameter, the random bytes are given with each call, and
    comparisons in constant time are equality.  The operations of the stores may interleave
    in any order with those of other calls.

    Of the assistant, the administration of providers, models and prompts, the protocols
    of the providers and the secret box are not modelled: a change of the configuration
    is any change to its tables, a stream is any sequence of events, and the address
    policy and the box are parameters.

    Not modelled, in the order of their weight: the outbox that announces published
    lessons; the sample store, the collectors and the dashboard; retention
    of expired rows; the backup executor's plan; release manifests and states; rate
    limiters, captchas and address checks.
    Command-line entry points, HTTP handlers and process supervision are glue around
    these. *)

From stdpp Require Import base tactics list gmap strings sorting.
From Stdlib Require Import ZArith Lia.

(** ** Results

    A Go function with an error result is a function into [result E A].
    A Go guard with an early return, [if cond { return err }], is written
    [reject cond with e; k]; a call whose error is passed on is [let*]. *)
Inductive result (E A : Type) : Type :=
| Ok (a : A)
| Err (e : E).
Arguments Ok {E A} a.
Arguments Err {E A} e.

Declare Scope go_scope.
Delimit Scope go_scope with go.

Notation "'reject' b 'with' e ; k" := (if b then Err e else k)
  (at level 10, b at level 99, e at level 99, k at level 200,
   format "'[v' 'reject'  b  'with'  e ; '/' k ']'") : go_scope.

Notation "'let*' x ':=' c 'in' k" :=
  (match c with Ok x => k | Err e => Err e end)
  (at level 10, x pattern, c at level 99, k at level 200,
   format "'[v' 'let*'  x  ':='  c  'in' '/' k ']'") : go_scope.

Global Instance result_eq_dec {E A} `{EqDecision E, EqDecision A} :
  EqDecision (result E A).
Proof. solve_decision. Defined.

Definition is_ok {E A} (r : result E A) : bool :=
  match r with Ok _ => true | Err _ => false end.

(** The value an option column holds, or the Go zero value it is scanned
    into when the column is NULL. *)
Definition or_zero {A} (zero : A) (o : option A) : A :=
  match o with Some a => a | None => zero end.

(** SQL [COALESCE(new, old)] on nullable columns. *)
Definition coalesce {A} (new old : option A) : option A :=
  match new with Some a => Some a | None => old end.

(** ** Sequences of steps *)
Section Sequences.
Context {S : Type} (init : S -> Prop) (step : S -> S -> Prop).

Inductive reachable : S -> Prop :=
| reach_init s : init s -> reachable s
| reach_step s s' : reachable s -> step s s' -> reachable s'.

Lemma reachable_invariant (P : S -> Prop) :
  (forall s, init s -> P s) ->
  (forall s s', P s -> step s s' -> P s') ->
  forall s, reachable s -> P s.
Proof. intros Hi Hs s; induction 1; eauto. Qed.

End Sequences.

(** ** Tactics *)

(** Turns boolean guards in the context into propositions. *)
Ltac bool_simpl :=
  repeat match goal with
  | H : _ && _ = true |- _ => apply andb_true_iff in H; destruct H
  | H : _ || _ = false |- _ => apply orb_false_iff in H; destruct H
  | H : negb _ = true |- _ => apply negb_true_iff in H
  | H : negb _ = false |- _ => apply negb_false_iff in H
  | H : bool_decide _ = true |- _ => apply bool_decide_eq_true_1 in H
  | H : bool_decide _ = false |- _ => apply bool_decide_eq_false_1 in H
  | H : (_ <? _)%Z = true |- _ => apply Z.ltb_lt in H
  | H : (_ <? _)%Z = false |- _ => apply Z.ltb_ge in H
  | H : (_ <=? _)%Z = true |- _ => apply Z.leb_le in H
  | H : (_ <=? _)%Z = false |- _ => apply Z.leb_gt in H
  | H : (_ =? _)%Z = true |- _ => apply Z.eqb_eq in H
  | H : (_ =? _)%Z = false |- _ => apply Z.eqb_neq in H
  end.

(** One case split on a guard, a match or a result of the modelled code. *)
Ltac go_case :=
  match goal with
  | H : Ok _ = Ok _ |- _ => injection H as H; try subst
  | H : Err _ = Err _ |- _ => injection H as H; try subst
  | H : Ok _ = Err _ |- _ => discriminate H
  | H : Err _ = Ok _ |- _ => discriminate H
  | H : (_, _) = (_, _) |- _ => injection H as H; try subst
  | H : Some _ = Some _ |- _ => injection H as H; try subst
  | H : Some _ = None |- _ => discriminate H
  | H : None = Some _ |- _ => discriminate H
  | H : context [if ?b then _ else _] |- _ =>
      lazymatch type of b with bool => destruct b eqn:? | _ => destruct b end
  | H : context [match ?x with _ => _ end] |- _ => destruct x eqn:?
  end.

(** Symbolic execution of a modelled operation in the hypotheses. *)
Ltac go_run := repeat (go_case; simplify_eq/=).

Create HintDb go discriminated.

(** ** Generic lemmas *)
Lemma coalesce_Some {A} (x : A) (old : option A) : coalesce (Some x) old = Some x.
Proof. done. Qed.

Lemma coalesce_is_Some {A} (new old : option A) :
  is_Some old -> is_Some (coalesce new old).
Proof. destruct new; simpl; eauto. Qed.

#[export] Hint Resolve coalesce_is_Some : go.
