(* ===== verification/GoTime.v ===== *)
(** * Go [time.Time] and [time.Duration] as the program uses them

    An instant is a number of nanoseconds since the zero [Time] (January 1,
    year 1, 00:00:00 UTC), so [IsZero] is [ns = 0].  A [Time] also carries its
    location: [None] is [time.UTC], [Some off] a zone with a fixed offset of
    [off] seconds (the offset in force at that instant).  [Duration] is an
    [int64] of nanoseconds; [Sub] saturates exactly as the library does. *)

From S2P Require Import Prelude.
From stdpp Require Import base tactics strings.
From Stdlib Require Import ZArith Lia.

Open Scope Z_scope.

Record Time := MkTime { ns : Z; loc : option Z }.

Global Instance Time_eq_dec : EqDecision Time.
Proof. solve_decision. Defined.

Definition zeroTime : Time := MkTime 0 None.

Definition microsecond : Z := 1000.
Definition millisecond : Z := 1000 * microsecond.
Definition second : Z := 1000 * millisecond.
Definition minute : Z := 60 * second.
Definition hour : Z := 60 * minute.
Definition day : Z := 24 * hour.

Definition maxDuration : Z := 2 ^ 63 - 1.
Definition minDuration : Z := - 2 ^ 63.

Definition IsZero (t : Time) : bool := ns t =? 0.
Definition UTC (t : Time) : Time := MkTime (ns t) None.
Definition Before (a b : Time) : bool := ns a <? ns b.
Definition After (a b : Time) : bool := ns b <? ns a.
Definition Equal (a b : Time) : bool := ns a =? ns b.
Definition addDuration (t : Time) (d : Z) : Time := MkTime (ns t + d) (loc t).

Definition Sub (a b : Time) : Z :=
  let d := ns a - ns b in
  if maxDuration <? d then maxDuration
  else if d <? minDuration then minDuration else d.

(** [t.Truncate(d)] and [t.Round(d)] work on the time since the zero [Time];
    [Round] rounds half up. *)
Definition Truncate (t : Time) (d : Z) : Time :=
  if d <=? 0 then t else MkTime (ns t - ns t mod d) (loc t).

Definition Round (t : Time) (d : Z) : Time :=
  if d <=? 0 then t
  else let r := ns t mod d in
       if r + r <? d then MkTime (ns t - r) (loc t)
       else MkTime (ns t + (d - r)) (loc t).

(** Days from 0001-01-01 to 10000-01-01 in the proleptic Gregorian calendar. *)
Definition daysTo10000 : Z := 3652059.

Definition offsetSeconds (t : Time) : Z := or_zero 0 (loc t).
Definition localNs (t : Time) : Z := ns t + offsetSeconds t * second.

(** [1 <= t.Year() <= 9999]: the calendar year read in the location of [t]. *)
Definition yearIn1To9999 (t : Time) : bool :=
  (0 <=? localNs t) && (localNs t <? daysTo10000 * day).

(** ** Civil dates

    [civil] is the proleptic Gregorian date of a day number counted from
    0001-01-01, by the era decomposition (146097 days per 400 years) with the
    year starting in March; [Format] below prints the layouts the code uses. *)
Definition civil (days : Z) : Z * Z * Z :=
  let z := days + 306 in
  let era := z / 146097 in
  let doe := z - era * 146097 in
  let yoe := (doe - doe / 1460 + doe / 36524 - doe / 146096) / 365 in
  let doy := doe - (365 * yoe + yoe / 4 - yoe / 100) in
  let mp := (5 * doy + 2) / 153 in
  let d := doy - (153 * mp + 2) / 5 + 1 in
  let m := if mp <? 10 then mp + 3 else mp - 9 in
  let y := yoe + era * 400 + (if m <=? 2 then 1 else 0) in
  (y, m, d).

Definition localDay (t : Time) : Z := localNs t / day.

Definition digit (n : Z) : Ascii.ascii := Ascii.ascii_of_nat (48 + Z.to_nat (n mod 10)).
Definition pad2 (n : Z) : string := String (digit (n / 10)) (String (digit n) EmptyString).
Definition pad4 (n : Z) : string := (pad2 (n / 100) +:+ pad2 n)%string.

(** [t.Format("2006-01-02")] and [t.Format("2006-01")] for years 0 to 9999. *)
Definition FormatDay (t : Time) : string :=
  let '(y, m, d) := civil (localDay t) in
  (pad4 y +:+ "-" +:+ pad2 m +:+ "-" +:+ pad2 d)%string.

Definition FormatMonth (t : Time) : string :=
  let '(y, m, d) := civil (localDay t) in
  (pad4 y +:+ "-" +:+ pad2 m)%string.

(** [t.In(location)] for a fixed-offset location. *)
Definition inLocation (t : Time) (location : option Z) : Time := MkTime (ns t) location.

Definition cloneTime (t : option Time) : option Time := UTC <$> t.

(** ** Facts *)
Lemma ns_UTC t : ns (UTC t) = ns t.
Proof. done. Qed.

Lemma UTC_idemp t : UTC (UTC t) = UTC t.
Proof. done. Qed.

Lemma After_spec a b : After a b = true <-> ns b < ns a.
Proof. apply Z.ltb_lt. Qed.

Lemma Before_spec a b : Before a b = true <-> ns a < ns b.
Proof. apply Z.ltb_lt. Qed.

Lemma Before_false a b : Before a b = false <-> ns b <= ns a.
Proof. apply Z.ltb_ge. Qed.

Lemma After_false a b : After a b = false <-> ns a <= ns b.
Proof. apply Z.ltb_ge. Qed.

(** A saturated difference below the saturation bounds is exact, and a
    difference compares with any in-range duration as the exact one does. *)
Lemma Sub_ge_iff a b d :
  minDuration < d <= maxDuration -> d <= Sub a b <-> d <= ns a - ns b.
Proof.
  unfold Sub, minDuration, maxDuration in *. cbv zeta. intros.
  repeat case_match; bool_simpl; lia.
Qed.

Lemma Sub_eq_iff a b d :
  minDuration < d < maxDuration -> Sub a b = d <-> ns a - ns b = d.
Proof.
  unfold Sub, minDuration, maxDuration in *. cbv zeta. intros.
  repeat case_match; bool_simpl; lia.
Qed.

Lemma Round_micro_grid t : exists k, ns (Round t microsecond) = k * microsecond.
Proof.
  unfold Round, microsecond; simpl.
  pose proof (Z.div_mod (ns t) 1000 ltac:(lia)).
  destruct (_ <? _); simpl; [exists (ns t / 1000)|exists (ns t / 1000 + 1)]; lia.
Qed.

Lemma Round_micro_near t :
  ns t - 500 <= ns (Round t microsecond) <= ns t + 500.
Proof.
  unfold Round, microsecond; simpl.
  pose proof (Z.mod_pos_bound (ns t) 1000 ltac:(lia)).
  destruct (_ <? _) eqn:?; bool_simpl; simpl; lia.
Qed.

Lemma Round_loc t d : loc (Round t d) = loc t.
Proof. unfold Round. repeat case_match; done. Qed.

Lemma Truncate_micro_grid t : exists k, ns (Truncate t microsecond) = k * microsecond.
Proof.
  unfold Truncate, microsecond; simpl. exists (ns t / 1000).
  pose proof (Z.div_mod (ns t) 1000 ltac:(lia)). lia.
Qed.


(** *** The calendar is injective *)

(** The day number of a date, inverting [civil]. *)
Definition civilDays (date : Z * Z * Z) : Z :=
  let '(y, m, d) := date in
  let y' := y - (if m <=? 2 then 1 else 0) in
  let yoe := y' mod 400 in
  let mp := if m <=? 2 then m + 9 else m - 3 in
  let doy := (153 * mp + 2) / 5 + d - 1 in
  y' / 400 * 146097 + (365 * yoe + yoe / 4 - yoe / 100 + doy) - 306.

Lemma yearOfEra doe :
  0 <= doe < 146097 ->
  let yoe := (doe - doe / 1460 + doe / 36524 - doe / 146096) / 365 in
  0 <= yoe <= 399 /\ 0 <= doe - (365 * yoe + yoe / 4 - yoe / 100) <= 365.
Proof.
  intros H. cbv zeta.
  assert (0 <= doe / 146096 <= 1) by (Z.to_euclidean_division_equations; lia).
  assert (0 <= doe / 36524 <= 4) by (Z.to_euclidean_division_equations; lia).
  set (y := (doe - doe / 1460 + doe / 36524 - doe / 146096) / 365).
  assert (Hy : 0 <= y <= 399) by (subst y; Z.to_euclidean_division_equations; lia).
  split; [done|]. assert (0 <= y / 100 <= 3) by (clearbody y; Z.to_euclidean_division_equations; lia).
  subst y. Z.to_euclidean_division_equations; lia.
Qed.

Lemma monthOfYear doy :
  0 <= doy <= 365 ->
  0 <= (5 * doy + 2) / 153 <= 11 /\ 1 <= doy - (153 * ((5 * doy + 2) / 153) + 2) / 5 + 1 <= 31.
Proof. intros H. split; Z.to_euclidean_division_equations; lia. Qed.

Lemma civil_spec days :
  civilDays (civil days) = days /\
  let '(y, m, d) := civil days in
  1 <= m <= 12 /\ 1 <= d <= 31 /\ (0 <= days < daysTo10000 -> 1 <= y <= 9999).
Proof.
  unfold civil. set (z := days + 306). set (era := z / 146097).
  assert (Hdoe : 0 <= z - era * 146097 < 146097)
    by (subst era; Z.to_euclidean_division_equations; lia).
  set (doe := z - era * 146097) in *. destruct (yearOfEra doe Hdoe) as [Hy Hd].
  set (yoe := (doe - doe / 1460 + doe / 36524 - doe / 146096) / 365) in *.
  set (doy := doe - (365 * yoe + yoe / 4 - yoe / 100)) in *.
  destruct (monthOfYear doy Hd) as [Hm Hday]. set (mp := (5 * doy + 2) / 153) in *.
  set (m := if mp <? 10 then mp + 3 else mp - 9).
  assert (Hmm : 1 <= m <= 12 /\ (if m <=? 2 then m + 9 else m - 3) = mp).
  { subst m. destruct (Z.ltb_spec mp 10); [destruct (Z.leb_spec (mp + 3) 2)|
      destruct (Z.leb_spec (mp - 9) 2)]; lia. }
  destruct Hmm as [Hmr Hmp]. set (b := if m <=? 2 then 1 else 0).
  assert (Hb : 0 <= b <= 1) by (subst b; case_match; lia).
  assert (Hyr : (yoe + era * 400 + b - b) / 400 = era /\ (yoe + era * 400 + b - b) mod 400 = yoe).
  { replace (yoe + era * 400 + b - b) with (yoe + era * 400) by lia.
    rewrite Z.div_add, Z.mod_add, Z.div_small, Z.mod_small by lia. lia. }
  destruct Hyr as [Hdiv Hmod]. split.
  - unfold civilDays. cbv zeta. fold b. rewrite Hdiv, Hmod, Hmp. subst doy doe z. lia.
  - split_and!; try lia. unfold daysTo10000. intros Hr.
    assert (0 <= era <= 25) by (subst era z; Z.to_euclidean_division_equations; lia).
    assert (Hdays : days = era * 146097 + (365 * yoe + yoe / 4 - yoe / 100 + doy) - 306)
      by (subst doy doe z; lia).
    assert (Hbm : doy < 306 /\ b = 0 \/ 306 <= doy /\ b = 1).
    { subst b m. destruct (Z.lt_ge_cases doy 306); [left|right]; (split; [done|]).
      - assert (mp < 10) by (subst mp; Z.to_euclidean_division_equations; lia).
        destruct (Z.ltb_spec mp 10); [|lia]. destruct (Z.leb_spec (mp + 3) 2); lia.
      - assert (10 <= mp) by (subst mp; Z.to_euclidean_division_equations; lia).
        destruct (Z.ltb_spec mp 10); [lia|]. destruct (Z.leb_spec (mp - 9) 2); lia. }
    clearbody b doy m mp yoe era. clear Hmp Hdiv Hmod Hday. clear doe Hdoe. clear z.
    assert (Hlow : era = 0 -> yoe = 0 -> b = 1) by (intros -> ->; Z.to_euclidean_division_equations; lia).
    assert (Hhigh : era = 24 -> yoe = 399 -> b = 0) by (intros -> ->; Z.to_euclidean_division_equations; lia).
    assert (era <> 25) by (intros ->; Z.to_euclidean_division_equations; lia).
    lia.
Qed.

Lemma digit_inj a b : 0 <= a < 10 -> 0 <= b < 10 -> digit a = digit b -> a = b.
Proof.
  intros Ha Hb E. apply (f_equal Ascii.nat_of_ascii) in E. unfold digit in E.
  rewrite !Z.mod_small in E by lia. rewrite !Ascii.nat_ascii_embedding in E by lia. lia.
Qed.

Lemma digit_mod a : digit a = digit (a mod 10).
Proof. unfold digit. by rewrite Z.mod_mod. Qed.

Lemma pad2_inj a b : 0 <= a < 100 -> 0 <= b < 100 -> pad2 a = pad2 b -> a = b.
Proof.
  unfold pad2. intros Ha Hb E. injection E as E1 E2. rewrite (digit_mod a), (digit_mod b) in E2.
  apply digit_inj in E1; [|Z.to_euclidean_division_equations; lia..].
  apply digit_inj in E2; [|apply Z.mod_pos_bound; lia..]. Z.to_euclidean_division_equations; lia.
Qed.

Lemma pad4_inj a b : 0 <= a < 10000 -> 0 <= b < 10000 -> pad4 a = pad4 b -> a = b.
Proof.
  unfold pad4. intros Ha Hb E. assert (E' : pad2 (a / 100) = pad2 (b / 100) /\ pad2 a = pad2 b).
  { unfold pad2 in *. simpl in E. injection E as -> -> -> ->. done. }
  destruct E' as [E1 E2]. apply pad2_inj in E1; [|Z.to_euclidean_division_equations; lia..].
  assert (E3 : pad2 (a mod 100) = pad2 (b mod 100)).
  { unfold pad2 in *. injection E2 as F1 F2.
    assert (forall x, digit (x / 10) = digit (x mod 100 / 10) /\ digit x = digit (x mod 100)) as Hx.
    { intros x. rewrite (digit_mod (x / 10)), (digit_mod (x mod 100 / 10)), (digit_mod x),
        (digit_mod (x mod 100)). split; f_equal; Z.to_euclidean_division_equations; lia. }
    destruct (Hx a) as [<- <-], (Hx b) as [<- <-]. congruence. }
  apply pad2_inj in E3; [|apply Z.mod_pos_bound; lia..]. Z.to_euclidean_division_equations; lia.
Qed.

(** In the years 1 to 9999 the printed date determines the day. *)
Lemma FormatDay_inj a b :
  yearIn1To9999 a = true -> yearIn1To9999 b = true ->
  FormatDay a = FormatDay b <-> localDay a = localDay b.
Proof.
  intros Ha Hb. split; [|intros E; unfold FormatDay; by rewrite E].
  assert (Hr : forall t, yearIn1To9999 t = true -> 0 <= localDay t < daysTo10000).
  { intros t Ht. unfold yearIn1To9999 in Ht. bool_simpl. unfold localDay.
    unfold daysTo10000, day, hour, minute, second, millisecond, microsecond in *.
    Z.to_euclidean_division_equations; lia. }
  apply Hr in Ha, Hb. unfold FormatDay.
  destruct (civil_spec (localDay a)) as [Ia Ra], (civil_spec (localDay b)) as [Ib Rb].
  destruct (civil (localDay a)) as [[ya ma] da], (civil (localDay b)) as [[yb mb] db].
  intros E. rewrite <- Ia, <- Ib. f_equal. destruct Ra as (? & ? & ?), Rb as (? & ? & ?).
  assert (E' : pad4 ya = pad4 yb /\ pad2 ma = pad2 mb /\ pad2 da = pad2 db).
  { unfold pad4, pad2 in *. simpl in E. injection E as -> -> -> -> -> -> -> ->. done. }
  destruct E' as (E1 & E2 & E3). apply pad4_inj in E1; [|lia..].
  apply pad2_inj in E2; [|lia..]. apply pad2_inj in E3; [|lia..]. congruence.
Qed.
