(* ===== verification/GoText.v ===== *)
(** * Go strings: bytes, UTF-8, and the regular expressions of the code

    A Go [string] is a byte sequence, here [string] (a list of 8-bit
    [ascii]).  [runes] decodes it as a [range] loop does: an invalid byte
    yields U+FFFD and advances by one.  The regular expressions of the program
    are anchored character-class patterns; each is the boolean function that
    checks the first byte, the remaining bytes and the length. *)

From S2P Require Import Prelude.
From stdpp Require Import base tactics list strings.
From Stdlib Require Import ZArith Lia Ascii String.

Open Scope Z_scope.

Definition byteZ (c : ascii) : Z := Z.of_N (N_of_ascii c).

Fixpoint bytes (s : string) : list Z :=
  match s with
  | EmptyString => []
  | String c s' => byteZ c :: bytes s'
  end.

(** [len(s)]. *)
Definition len (s : string) : Z := Z.of_nat (String.length s).

(** ** UTF-8 *)
Definition RuneError : Z := 65533.

Definition cont (b : Z) : bool := (128 <=? b) && (b <=? 191).

(** One decoding step: the rune, whether the encoding is valid, and how many
    bytes it takes.  The bounds on the second byte exclude overlong forms,
    surrogates and values above U+10FFFF. *)
Definition decodeRune (b : list Z) : option (Z * bool * nat) :=
  match b with
  | [] => None
  | b0 :: rest =>
    if b0 <? 128 then Some (b0, true, 1%nat)
    else if (194 <=? b0) && (b0 <=? 223) then
      match rest with
      | b1 :: _ => if cont b1 then Some ((b0 - 192) * 64 + (b1 - 128), true, 2%nat)
                   else Some (RuneError, false, 1%nat)
      | _ => Some (RuneError, false, 1%nat)
      end
    else if (224 <=? b0) && (b0 <=? 239) then
      match rest with
      | b1 :: b2 :: _ =>
        let lo := if b0 =? 224 then 160 else 128 in
        let hi := if b0 =? 237 then 159 else 191 in
        if (lo <=? b1) && (b1 <=? hi) && cont b2
        then Some ((b0 - 224) * 4096 + (b1 - 128) * 64 + (b2 - 128), true, 3%nat)
        else Some (RuneError, false, 1%nat)
      | _ => Some (RuneError, false, 1%nat)
      end
    else if (240 <=? b0) && (b0 <=? 244) then
      match rest with
      | b1 :: b2 :: b3 :: _ =>
        let lo := if b0 =? 240 then 144 else 128 in
        let hi := if b0 =? 244 then 143 else 191 in
        if (lo <=? b1) && (b1 <=? hi) && cont b2 && cont b3
        then Some ((b0 - 240) * 262144 + (b1 - 128) * 4096 + (b2 - 128) * 64 + (b3 - 128),
                   true, 4%nat)
        else Some (RuneError, false, 1%nat)
      | _ => Some (RuneError, false, 1%nat)
      end
    else Some (RuneError, false, 1%nat)
  end.

(** The runes of a byte list with their validity; the fuel is the number of
    bytes, and every step consumes at least one. *)
Fixpoint decodeAll (fuel : nat) (b : list Z) : list (Z * bool) :=
  match fuel with
  | O => []
  | S fuel' =>
    match decodeRune b with
    | None => []
    | Some (r, ok, n) => (r, ok) :: decodeAll fuel' (drop n b)
    end
  end.

Definition decoded (s : string) : list (Z * bool) :=
  decodeAll (String.length s) (bytes s).

Definition runes (s : string) : list Z := map fst (decoded s).
Definition ValidString (s : string) : bool := forallb snd (decoded s).
Definition RuneCountInString (s : string) : Z := Z.of_nat (List.length (decoded s)).

(** [unicode.IsSpace] and [unicode.IsControl]. *)
Definition IsSpace (r : Z) : bool :=
  ((9 <=? r) && (r <=? 13)) || (r =? 32) || (r =? 133) || (r =? 160) ||
  (r =? 5760) || ((8192 <=? r) && (r <=? 8202)) ||
  (r =? 8232) || (r =? 8233) || (r =? 8239) || (r =? 8287) || (r =? 12288).

Definition IsControl (r : Z) : bool :=
  ((0 <=? r) && (r <=? 31)) || ((127 <=? r) && (r <=? 159)).

(** [strings.TrimSpace(s) == ""]. *)
Definition blank (s : string) : bool := forallb IsSpace (runes s).

(** [strings.TrimSpace(s) == s], on a valid UTF-8 string. *)
Definition trimmed (s : string) : bool :=
  match runes s with
  | [] => true
  | r :: rs => negb (IsSpace r) && negb (IsSpace (List.last rs r))
  end.

(** ** Character classes *)
Definition isLower (b : Z) : bool := (97 <=? b) && (b <=? 122).
Definition isUpper (b : Z) : bool := (65 <=? b) && (b <=? 90).
Definition isDigit (b : Z) : bool := (48 <=? b) && (b <=? 57).
Definition isAlnum (b : Z) : bool := isLower b || isUpper b || isDigit b.
Definition isLowerHex (b : Z) : bool := isDigit b || ((97 <=? b) && (b <=? 102)).

(** Membership of a byte in a literal set. *)
Definition oneOf (set : string) (b : Z) : bool := existsb (Z.eqb b) (bytes set).

(** The pattern [^[class]{lo,hi}$]. *)
Definition matchClass (class : Z -> bool) (lo hi : Z) (s : string) : bool :=
  (lo <=? len s) && (len s <=? hi) && forallb class (bytes s).

(** The pattern [^[first][class]{lo,hi}$]. *)
Definition matchHead (first class : Z -> bool) (lo hi : Z) (s : string) : bool :=
  match bytes s with
  | [] => false
  | b :: bs =>
    first b && (lo <=? Z.of_nat (List.length bs)) && (Z.of_nat (List.length bs) <=? hi) &&
    forallb class bs
  end.

(** Membership in a Go [map[string]struct{}] used as a set. *)
Definition member (set : list string) (s : string) : bool := bool_decide (s ∈ set).

(** ** Facts *)
Lemma length_bytes s : List.length (bytes s) = String.length s.
Proof. induction s; simpl; congruence. Qed.

Lemma bytes_app s t : bytes (s +:+ t) = bytes s ++ bytes t.
Proof. induction s as [|c s IH]; simpl; [done|]. f_equal. exact IH. Qed.

Lemma len_nonneg s : 0 <= len s.
Proof. unfold len. lia. Qed.

Lemma len_app s t : len (s +:+ t) = len s + len t.
Proof.
  unfold len. rewrite <- !length_bytes, bytes_app, List.length_app. lia.
Qed.

Lemma matchHead_len first class lo hi s :
  matchHead first class lo hi s = true -> lo + 1 <= len s <= hi + 1.
Proof.
  unfold matchHead, len. rewrite <- length_bytes.
  destruct (bytes s); [done|]. intros; bool_simpl; simpl List.length; lia.
Qed.

Lemma matchHead_app first class lo hi hi' s t :
  matchHead first class lo hi s = true ->
  forallb class (bytes t) = true ->
  hi + len t <= hi' ->
  matchHead first class lo hi' (s +:+ t) = true.
Proof.
  unfold matchHead, len. rewrite bytes_app, <- length_bytes.
  destruct (bytes s) as [|b bs]; [done|]. simpl. intros H Ht Hlen.
  bool_simpl. rewrite forallb_app, length_app.
  repeat (apply andb_true_iff; split); try done; apply Z.leb_le; lia.
Qed.

Lemma matchClass_len class lo hi s :
  matchClass class lo hi s = true -> lo <= len s <= hi.
Proof. unfold matchClass. intros; bool_simpl; lia. Qed.

Lemma matchClass_nonempty class lo hi s :
  0 < lo -> matchClass class lo hi s = true -> s <> EmptyString.
Proof. intros Hlo H%matchClass_len ->. unfold len in H. simpl in H. lia. Qed.

Lemma member_In set s : member set s = true <-> s ∈ set.
Proof. apply bool_decide_eq_true. Qed.

Lemma length_decodeAll fuel b : (List.length (decodeAll fuel b) <= fuel)%nat.
Proof.
  revert b. induction fuel as [|fuel IH]; intros b; simpl; [lia|].
  destruct (decodeRune b) as [[[r ok] n]|]; simpl; [|lia]. specialize (IH (drop n b)). lia.
Qed.

Lemma RuneCount_le_len s : RuneCountInString s <= len s.
Proof. unfold RuneCountInString, len, decoded. pose proof (length_decodeAll (String.length s) (bytes s)). lia. Qed.

Lemma RuneCount_pos s : s <> EmptyString -> 1 <= RuneCountInString s.
Proof.
  destruct s as [|c s]; [done|intros _]. unfold RuneCountInString, decoded.
  change (bytes (String c s)) with (byteZ c :: bytes s). simpl String.length. cbn [decodeAll].
  destruct (decodeRune (byteZ c :: bytes s)) as [[[r ok] n]|] eqn:E; [simpl; lia|].
  exfalso. revert E. unfold decodeRune.
  repeat (case_match; try discriminate).
Qed.

Lemma RuneCount_between lo hi s : 1 <= len s <= hi -> lo <= 1 -> lo <= RuneCountInString s <= hi.
Proof.
  intros Hs Hlo. pose proof (RuneCount_le_len s).
  assert (s <> EmptyString) as Hne by (intros ->; unfold len in Hs; simpl in Hs; lia).
  pose proof (RuneCount_pos s Hne). lia.
Qed.
