(* ===== verification/GoStrings.v ===== *)
(** * Byte-level helpers of Go's strings, bytes and path/filepath

    What the upload and processing code uses of them: prefixes, suffixes and
    substrings, [strings.TrimSpace], [filepath.Ext] and [filepath.Base] on Unix, [strings.ToLower] as
    far as an ASCII result goes, and hexadecimal digests. *)

From S2P Require Import Prelude GoText.
From stdpp Require Import base tactics list strings.
From Stdlib Require Import ZArith Lia.

Open Scope Z_scope.

(** A string from its bytes. *)
Fixpoint fromBytes (b : list Z) : string :=
  match b with
  | [] => EmptyString
  | x :: rest => String (Ascii.ascii_of_nat (Z.to_nat x)) (fromBytes rest)
  end.

(** ** Prefixes and substrings of bytes *)
Fixpoint hasPrefix (b prefix : list Z) : bool :=
  match prefix, b with
  | [], _ => true
  | p :: prefix', x :: b' => (x =? p) && hasPrefix b' prefix'
  | _ :: _, [] => false
  end.

Fixpoint containsBytes (b sub : list Z) : bool :=
  hasPrefix b sub || match b with [] => false | _ :: b' => containsBytes b' sub end.

Definition hasSuffix (b suffix : list Z) : bool := hasPrefix (rev b) (rev suffix).

(** [bytes.Equal(b[from:from+len(want)], want)], after a length check. *)
Definition at_ (b : list Z) (from : nat) (want : list Z) : bool := hasPrefix (skipn from b) want.

(** ** Paths

    [filepath.Ext] looks for the last dot after the last separator. *)
Fixpoint extFrom (rest : list Z) (acc : list Z) : list Z :=
  match rest with
  | [] => []
  | 47 :: _ => []
  | 46 :: _ => 46 :: acc
  | x :: rest' => extFrom rest' (x :: acc)
  end.

Definition Ext (path : list Z) : list Z := extFrom (rev path) [].

(** [filepath.Base] of a path with no trailing separator is what follows the
    last separator. *)
Fixpoint afterSlash (path acc : list Z) : list Z :=
  match path with
  | [] => acc
  | 47 :: rest => afterSlash rest rest
  | _ :: rest => afterSlash rest acc
  end.

Fixpoint dropSlashes (reversed : list Z) : list Z :=
  match reversed with 47 :: rest => dropSlashes rest | _ => reversed end.

Definition Base (path : list Z) : list Z :=
  match path with
  | [] => [46]
  | _ => match rev (dropSlashes (rev path)) with
         | [] => [47]
         | p => afterSlash p p
         end
  end.

(** ** Lower case

    [unicode.ToLower] on the runes whose image is ASCII: the capital letters,
    U+0130 and the Kelvin sign U+212A.  Every other rune beyond ASCII has an
    image beyond ASCII; it is kept, as the results are compared with ASCII
    strings only. *)
Definition lowerRune (r : Z) : Z :=
  if isUpper r then r + 32
  else if r =? 304 then 105
  else if r =? 8490 then 107
  else r.

Definition runesOf (b : list Z) : list Z := fst <$> decodeAll (length b) b.

Definition ToLower (b : list Z) : list Z := lowerRune <$> runesOf b.

(** ** [strings.TrimSpace]

    Spaces are taken off rune by rune; the bytes of a rune that is not a space stay
    as they are, valid or not.  The fuel is the number of bytes. *)
Fixpoint trimLeft (fuel : nat) (b : list Z) : list Z :=
  match fuel, decodeRune b with
  | S k, Some (r, _, n) => if IsSpace r then trimLeft k (drop n b) else b
  | _, _ => b
  end.

Fixpoint trimRight (fuel : nat) (b : list Z) : list Z :=
  match fuel, decodeRune b with
  | S k, Some (r, _, n) =>
      let rest := trimRight k (drop n b) in
      if IsSpace r && bool_decide (rest = []) then [] else take n b ++ rest
  | _, _ => []
  end.

Definition TrimSpace (s : string) : string :=
  let b := trimLeft (String.length s) (bytes s) in fromBytes (trimRight (length b) b).

Example TrimSpace_example : TrimSpace (fromBytes [32; 194; 160; 97; 32; 98; 227; 128; 128; 10]) = "a b".
Proof. reflexivity. Qed.

(** [strings.ToLower(filepath.Ext(name))]. *)
Definition lowerExt (name : string) : list Z := ToLower (Ext (bytes name)).

Definition sameText (r : list Z) (s : string) : bool := bool_decide (r = bytes s).

(** ** Digests *)

(** [len(value) == 64], lower case, and [hex.DecodeString] succeeds. *)
Definition validHash (value : string) : bool := matchClass isLowerHex 64 64 value.

Definition hexDigit (d : Z) : Ascii.ascii :=
  Ascii.ascii_of_nat (Z.to_nat (if d <? 10 then 48 + d else 87 + d)).

(** [hex.EncodeToString]. *)
Fixpoint EncodeToString (b : list Z) : string :=
  match b with
  | [] => EmptyString
  | x :: rest => String (hexDigit (x / 16)) (String (hexDigit (x mod 16)) (EncodeToString rest))
  end.

(** ** Lemmas *)
Lemma hasPrefix_app b prefix : hasPrefix b prefix = true <-> exists rest, b = prefix ++ rest.
Proof.
  revert b. induction prefix as [|p prefix IH]; intros b; [by destruct b; split; eauto|].
  destruct b as [|x b]; [split; [done|by intros [? [=]]]|]. simpl.
  rewrite andb_true_iff, IH, Z.eqb_eq. split.
  - intros [-> [rest ->]]. eauto.
  - intros [rest [= -> ->]]. eauto.
Qed.

Lemma lowerRune_ascii r : 0 <= r < 128 -> lowerRune r = if isUpper r then r + 32 else r.
Proof.
  intros Hr. unfold lowerRune. destruct (isUpper r); [done|].
  destruct (Z.eqb_spec r 304); [lia|]. by destruct (Z.eqb_spec r 8490); [lia|].
Qed.

Example Ext_pdf : Ext (bytes "notes.v2.pdf") = bytes ".pdf".
Proof. reflexivity. Qed.

Example Ext_none : Ext (bytes "a.b/c") = [].
Proof. reflexivity. Qed.

Example lowerExt_kelvin : lowerExt (fromBytes [46; 109; 226; 132; 170; 86]) = bytes ".mkv".
Proof. reflexivity. Qed.
