(* ===== verification/GoSha256.v ===== *)
(** * SHA-256

    [crypto/sha256] as FIPS 180-4 defines it: bytes are integers below 256, words
    integers below 2^32. *)

From S2P Require Import Prelude GoText GoStrings.
From stdpp Require Import base tactics list numbers strings.
From Stdlib Require Import ZArith Lia.

Open Scope Z_scope.

Definition word (x : Z) : Z := x mod 2 ^ 32.
Definition rotr (n x : Z) : Z := Z.lor (Z.shiftr x n) (word (Z.shiftl x (32 - n))).

Definition bigSigma0 (x : Z) : Z := Z.lxor (rotr 2 x) (Z.lxor (rotr 13 x) (rotr 22 x)).
Definition bigSigma1 (x : Z) : Z := Z.lxor (rotr 6 x) (Z.lxor (rotr 11 x) (rotr 25 x)).
Definition smallSigma0 (x : Z) : Z := Z.lxor (rotr 7 x) (Z.lxor (rotr 18 x) (Z.shiftr x 3)).
Definition smallSigma1 (x : Z) : Z := Z.lxor (rotr 17 x) (Z.lxor (rotr 19 x) (Z.shiftr x 10)).
Definition choose (x y z : Z) : Z := Z.lxor (Z.land x y) (Z.land (Z.lxor x (2 ^ 32 - 1)) z).
Definition majority (x y z : Z) : Z := Z.lxor (Z.land x y) (Z.lxor (Z.land x z) (Z.land y z)).

(** The constants are the first 32 bits of the fractional parts of roots of primes:
    cube roots for the rounds, square roots for the first state. *)
Definition primesBelow (n : nat) : list Z :=
  List.filter (fun p => forallb (fun d => negb (p mod d =? 0)) (map Z.of_nat (seq 2 (Z.to_nat (Z.sqrt p) - 1))))
    (map Z.of_nat (seq 2 (n - 2))).

(** The cube root of [n], one bit after another. *)
Fixpoint cubeRoot (bits : nat) (root n : Z) : Z :=
  match bits with
  | O => root
  | S k => let next := root + 2 ^ Z.of_nat k in cubeRoot k (if next ^ 3 <=? n then next else root) n
  end.

Definition roundConstants : list Z :=
  Eval vm_compute in map (fun p => word (cubeRoot 40 0 (p * 2 ^ 96))) (primesBelow 312).

Definition initialState : list Z :=
  Eval vm_compute in map (fun p => word (Z.sqrt (p * 2 ^ 64))) (primesBelow 20).

(** The bytes of [x], most significant first. *)
Fixpoint bigEndian (n : nat) (x : Z) : list Z :=
  match n with
  | O => []
  | S k => Z.shiftr x (8 * Z.of_nat k) mod 256 :: bigEndian k x
  end.

(** The message, a one bit, zeros, and its length in bits. *)
Definition padded (m : list Z) : list Z :=
  let l := Z.of_nat (length m) in
  m ++ [128] ++ repeat 0 (Z.to_nat ((55 - l) mod 64)) ++ bigEndian 8 (8 * l).

Fixpoint words (b : list Z) : list Z :=
  match b with
  | b0 :: b1 :: b2 :: b3 :: rest => (b0 * 2 ^ 24 + b1 * 2 ^ 16 + b2 * 2 ^ 8 + b3) :: words rest
  | _ => []
  end.

(** The schedule, latest word first. *)
Fixpoint schedule (n : nat) (w : list Z) : list Z :=
  match n with
  | O => w
  | S k =>
      let next := word (smallSigma1 (nth 1 w 0) + nth 6 w 0 + smallSigma0 (nth 14 w 0) + nth 15 w 0) in
      schedule k (next :: w)
  end.

Definition round (s : list Z) (kw : Z * Z) : list Z :=
  match s with
  | [a; b; c; d; e; f; g; h] =>
      let t1 := h + bigSigma1 e + choose e f g + fst kw + snd kw in
      let t2 := bigSigma0 a + majority a b c in
      [word (t1 + t2); a; b; c; word (d + t1); e; f; g]
  | _ => s
  end.

Definition compress (s : list Z) (block : list Z) : list Z :=
  let w := rev (schedule 48 (rev block)) in
  zip_with (fun a b => word (a + b)) s (fold_left round (zip_with pair roundConstants w) s).

(** Blocks of sixteen words; the fuel is the number of words. *)
Fixpoint blocks (fuel : nat) (w : list Z) : list (list Z) :=
  match fuel, w with
  | _, [] => []
  | O, _ => []
  | S k, _ => take 16 w :: blocks k (drop 16 w)
  end.

Definition Sum256 (m : list Z) : list Z :=
  let w := words (padded m) in
  fold_left compress (blocks (length w) w) initialState ≫= bigEndian 4.

Definition hexSum256 (m : list Z) : string := EncodeToString (Sum256 m).

Example Sum256_empty :
  hexSum256 [] = "e3b0c44298fc1c149afbf4c8996fb92427ae41e4649b934ca495991b7852b855"%string.
Proof. vm_compute. reflexivity. Qed.

Example Sum256_abc :
  hexSum256 (bytes "abc") = "ba7816bf8f01cfea414140de5dae2223b00361a396177a9cb410ff61f20015ad"%string.
Proof. vm_compute. reflexivity. Qed.

Example Sum256_two_blocks :
  hexSum256 (bytes "abcdbcdecdefdefgefghfghighijhijkijkljklmklmnlmnomnopnopq") =
  "248d6a61d20638b8e5c026930c3e6039a33ce45964ff2167f6ecedd419db06c1"%string.
Proof. vm_compute. reflexivity. Qed.
