(* ===== verification/GoStrconv.v ===== *)
(** * Decimal integers as [strconv] prints and parses them

    [strconv.FormatInt(v, 10)] and [strconv.Itoa] print the canonical decimal
    form; [strconv.ParseInt(s, 10, 64)] and [strconv.Atoi] accept an optional
    sign, at least one digit and nothing else (no underscores in base ten), and
    report a value that does not fit in 64 bits as an error. *)

From S2P Require Import Prelude.
From stdpp Require Import base tactics strings.
From Stdlib Require Import Ascii.
From Stdlib Require Import ZArith Lia Decimal DecimalString DecimalZ DecimalFacts.

Open Scope Z_scope.

Definition minInt64 : Z := - 2 ^ 63.
Definition maxInt64 : Z := 2 ^ 63 - 1.

Definition FormatInt (v : Z) : string := NilZero.string_of_int (Z.to_int v).

Definition inInt64 (v : Z) : bool := (minInt64 <=? v) && (v <=? maxInt64).

Definition ParseInt (s : string) : option Z :=
  let parsed := match s with
                | String "+"%char rest => Decimal.Pos <$> NilZero.uint_of_string rest
                | _ => NilZero.int_of_string s
                end in
  match parsed with
  | Some d => let v := Z.of_int d in if inInt64 v then Some v else None
  | None => None
  end.

Lemma inInt64_spec v : inInt64 v = true <-> minInt64 <= v <= maxInt64.
Proof. unfold inInt64. rewrite andb_true_iff, !Z.leb_le. done. Qed.

Lemma to_int_normal v : Z.to_int v <> Decimal.Pos Decimal.Nil /\ Z.to_int v <> Decimal.Neg Decimal.Nil.
Proof.
  assert (H : forall d, Z.to_int v = d -> Z.to_int (Z.of_int d) = d).
  { intros d <-. by rewrite DecimalZ.of_to. }
  split; intros E; apply H in E; vm_compute in E; discriminate.
Qed.

(** Nothing canonical starts with a plus sign. *)
Lemma FormatInt_sign v rest : FormatInt v <> String "+"%char rest.
Proof.
  unfold FormatInt. destruct (Z.to_int v) as [u|u]; simpl; [|done].
  destruct u; simpl; done.
Qed.

(** Printing and parsing is the identity on the 64-bit integers. *)
Lemma ParseInt_FormatInt v : inInt64 v = true -> ParseInt (FormatInt v) = Some v.
Proof.
  intros Hv. unfold ParseInt. destruct (to_int_normal v) as [Hp Hn].
  assert (Hi : NilZero.int_of_string (FormatInt v) = Some (Z.to_int v)) by (by apply NilZero.isi).
  destruct (FormatInt v) as [|[[] [] [] [] [] [] [] []] rest] eqn:E;
    try (rewrite Hi; rewrite DecimalZ.of_to, Hv; done).
  by apply FormatInt_sign in E.
Qed.

(** Two integers with the same canonical form are equal. *)
Lemma FormatInt_inj a b : FormatInt a = FormatInt b -> a = b.
Proof.
  intros E. destruct (to_int_normal a), (to_int_normal b). apply (DecimalZ.to_int_inj a b).
  apply (f_equal NilZero.int_of_string) in E.
  unfold FormatInt in E. rewrite !NilZero.isi in E by done. by injection E.
Qed.
