(* ===== verification/GoEncoding.v ===== *)
(** * Text encodings of Go's standard library

    [base64.RawStdEncoding] and [base64.RawURLEncoding], [strings.Split] at one byte,
    and unsigned decimal numbers, as the password and session code uses them. *)

From S2P Require Import Prelude GoText GoStrings GoStrconv.
From stdpp Require Import base tactics list strings.
From Stdlib Require Import ZArith Lia DecimalString DecimalZ.

Open Scope Z_scope.

(** ** Base 64 without padding *)

(** The character for a value of six bits; the two encodings differ in the last two. *)
Definition symbol (c62 c63 v : Z) : Z :=
  if v <? 26 then 65 + v
  else if v <? 52 then 97 + (v - 26)
  else if v <? 62 then 48 + (v - 52)
  else if v =? 62 then c62 else c63.

Definition sextet (c62 c63 c : Z) : option Z :=
  if isUpper c then Some (c - 65)
  else if isLower c then Some (c - 97 + 26)
  else if isDigit c then Some (c - 48 + 52)
  else if c =? c62 then Some 62
  else if c =? c63 then Some 63
  else None.

(** Three bytes are four values; what is left over is filled with zero bits. *)
Fixpoint toSextets (b : list Z) : list Z :=
  match b with
  | x :: y :: z :: rest => (x / 4) :: (x mod 4 * 16 + y / 16) :: (y mod 16 * 4 + z / 64) :: (z mod 64) :: toSextets rest
  | [x; y] => [x / 4; x mod 4 * 16 + y / 16; y mod 16 * 4]
  | [x] => [x / 4; x mod 4 * 16]
  | [] => []
  end.

(** The other direction does not look at the bits that are left over. *)
Fixpoint fromSextets (l : list Z) : option (list Z) :=
  match l with
  | a :: b :: c :: d :: rest =>
      (fun r => (a * 4 + b / 16) :: (b mod 16 * 16 + c / 4) :: (c mod 4 * 64 + d) :: r) <$> fromSextets rest
  | [a; b; c] => Some [a * 4 + b / 16; b mod 16 * 16 + c / 4]
  | [a; b] => Some [a * 4 + b / 16]
  | [_] => None
  | [] => Some []
  end.

Definition encode64 (c62 c63 : Z) (b : list Z) : string := fromBytes (symbol c62 c63 <$> toSextets b).

(** [DecodeString] skips line ends. *)
Definition decode64 (c62 c63 : Z) (s : string) : option (list Z) :=
  match mapM (sextet c62 c63) (List.filter (fun c => negb ((c =? 10) || (c =? 13))) (bytes s)) with
  | Some l => fromSextets l
  | None => None
  end.

(** [base64.RawStdEncoding]: "+" and "/"; [base64.RawURLEncoding]: "-" and "_". *)
Definition RawStdEncode : list Z -> string := encode64 43 47.
Definition RawStdDecode : string -> option (list Z) := decode64 43 47.
Definition RawURLEncode : list Z -> string := encode64 45 95.

Definition isByte (b : Z) : Prop := 0 <= b < 256.

Lemma bytes_fromBytes b : Forall isByte b -> bytes (fromBytes b) = b.
Proof.
  induction 1 as [|x b Hx _ IH]; [done|]. cbn [fromBytes bytes]. rewrite IH. f_equal. unfold byteZ. unfold isByte in Hx.
  pose proof (Ascii.nat_ascii_embedding (Z.to_nat x) ltac:(lia)) as He. unfold Ascii.nat_of_ascii in He. lia.
Qed.

Definition isSextet (v : Z) : Prop := 0 <= v < 64.

Lemma sextet_symbol c62 c63 v : isSextet v -> (c62, c63) = (43, 47) \/ (c62, c63) = (45, 95) ->
  sextet c62 c63 (symbol c62 c63 v) = Some v /\ 32 < symbol c62 c63 v < 128.
Proof.
  intros Hv Hc. assert (Hall : forallb (fun v => bool_decide (sextet c62 c63 (symbol c62 c63 v) = Some v) && (32 <? symbol c62 c63 v) && (symbol c62 c63 v <? 128))
    (seqZ 0 64) = true) by (destruct Hc as [[= -> ->]|[= -> ->]]; vm_compute; reflexivity).
  rewrite forallb_forall in Hall. specialize (Hall v). rewrite <- list_elem_of_In, elem_of_seqZ in Hall. unfold isSextet in Hv.
  specialize (Hall ltac:(lia)). bool_simpl. by split.
Qed.

(** Induction in steps of three. *)
Lemma three_ind {A} (P : list A -> Prop) : P [] -> (forall x, P [x]) -> (forall x y, P [x; y]) ->
  (forall x y z l, P l -> P (x :: y :: z :: l)) -> forall l, P l.
Proof.
  intros H0 H1 H2 H3. assert (Hn : forall n l, (length l <= n)%nat -> P l).
  { induction n as [|n IH]; intros l Hl; [destruct l; [done|cbn in Hl; lia]|].
    destruct l as [|x [|y [|z l]]]; [done|done|done|]. apply H3, IH. cbn in Hl. lia. }
  intros l. by apply (Hn (length l)).
Qed.

Lemma toSextets_range b : Forall isByte b -> Forall isSextet (toSextets b).
Proof.
  induction b as [|x|x y|x y z b IH] using three_ind; intros Hb; cbn [toSextets].
  - done.
  - rewrite !Forall_cons in *. unfold isByte, isSextet in *. destruct Hb as [Hx _]. split_and!; try done; Z.div_mod_to_equations; lia.
  - rewrite !Forall_cons in *. unfold isByte, isSextet in *. destruct Hb as (Hx & Hy & _). split_and!; try done; Z.div_mod_to_equations; lia.
  - rewrite !Forall_cons in *. destruct Hb as (Hx & Hy & Hz & Hb). specialize (IH Hb). unfold isByte, isSextet in *.
    split_and!; try done; Z.div_mod_to_equations; lia.
Qed.

Lemma fromSextets_toSextets b : Forall isByte b -> fromSextets (toSextets b) = Some b.
Proof.
  induction b as [|x|x y|x y z b IH] using three_ind; intros Hb; cbn [toSextets fromSextets].
  - done.
  - rewrite !Forall_cons in *. unfold isByte in *. destruct Hb as [Hx _]. do 2 f_equal. Z.div_mod_to_equations; lia.
  - rewrite !Forall_cons in *. unfold isByte in *. destruct Hb as (Hx & Hy & _). do 2 f_equal; [|f_equal]; Z.div_mod_to_equations; lia.
  - rewrite !Forall_cons in *. destruct Hb as (Hx & Hy & Hz & Hb). rewrite (IH Hb). cbn. unfold isByte in *.
    do 2 f_equal; [|f_equal; [|f_equal]]; Z.div_mod_to_equations; lia.
Qed.

Lemma decode64_encode64 c62 c63 b : (c62, c63) = (43, 47) \/ (c62, c63) = (45, 95) -> Forall isByte b ->
  decode64 c62 c63 (encode64 c62 c63 b) = Some b.
Proof.
  intros Hc Hb. unfold decode64, encode64. pose proof (toSextets_range b Hb) as Hr.
  rewrite bytes_fromBytes.
  2: { apply Forall_fmap. eapply Forall_impl; [exact Hr|]. intros v Hv. destruct (sextet_symbol c62 c63 v Hv Hc) as [_ Hs]. unfold compose, isByte. lia. }
  assert (Hf : List.filter (fun c => negb ((c =? 10) || (c =? 13))) (symbol c62 c63 <$> toSextets b) = symbol c62 c63 <$> toSextets b).
  { induction Hr as [|v l Hv _ IH]; [done|]. cbn. destruct (sextet_symbol c62 c63 v Hv Hc) as [_ Hs].
    rewrite (proj2 (Z.eqb_neq _ 10)), (proj2 (Z.eqb_neq _ 13)) by lia. cbn. by rewrite IH. }
  rewrite Hf. assert (Hm : mapM (sextet c62 c63) (symbol c62 c63 <$> toSextets b) = Some (toSextets b)).
  { clear Hf. induction Hr as [|v l Hv _ IH]; [done|]. cbn. destruct (sextet_symbol c62 c63 v Hv Hc) as [-> _]. cbn. by rewrite IH. }
  rewrite Hm. by apply fromSextets_toSextets.
Qed.

(** ** [strings.Split] at one byte *)
Fixpoint splitFrom (sep : Z) (acc b : list Z) : list (list Z) :=
  match b with
  | [] => [rev acc]
  | x :: rest => if x =? sep then rev acc :: splitFrom sep [] rest else splitFrom sep (x :: acc) rest
  end.

Definition Split (s : string) (sep : Z) : list string := fromBytes <$> splitFrom sep [] (bytes s).

Lemma splitFrom_part sep part : sep ∉ part -> forall acc rest,
  splitFrom sep acc (part ++ rest) = splitFrom sep (rev part ++ acc) rest.
Proof.
  induction part as [|x part IH]; intros Hno acc rest; [done|]. cbn [app splitFrom]. apply not_elem_of_cons in Hno as [Hx Hno].
  rewrite (proj2 (Z.eqb_neq x sep)) by done. rewrite IH by done. cbn [rev]. by rewrite <- app_assoc.
Qed.

Lemma splitFrom_parts sep parts final : Forall (fun p => sep ∉ p) parts -> sep ∉ final ->
  splitFrom sep [] (concat ((fun p => p ++ [sep]) <$> parts) ++ final) = parts ++ [final].
Proof.
  intros Hp Hl. induction Hp as [|p parts Hp _ IH].
  - cbn. rewrite <- (app_nil_r final) at 1. rewrite splitFrom_part by done. cbn. by rewrite app_nil_r, rev_involutive.
  - cbn. rewrite <- !app_assoc, splitFrom_part by done. cbn. rewrite Z.eqb_refl, app_nil_r, rev_involutive. by rewrite IH.
Qed.

(** ** Unsigned decimal numbers *)
Definition ParseUint (bits : Z) (s : string) : option Z :=
  match NilZero.uint_of_string s with
  | Some d => let v := Z.of_uint d in if v <? 2 ^ bits then Some v else None
  | None => None
  end.

Lemma FormatInt_natural v : 0 <= v -> exists d, FormatInt v = NilZero.string_of_uint d /\ Z.to_int v = Decimal.Pos d.
Proof. intros Hv. unfold FormatInt. destruct v as [|p|p]; [by eexists|by eexists|lia]. Qed.

Lemma ParseUint_FormatInt bits v : 0 <= v < 2 ^ bits -> ParseUint bits (FormatInt v) = Some v.
Proof.
  intros Hv. destruct (FormatInt_natural v ltac:(lia)) as (d & -> & Hd). unfold ParseUint.
  assert (Hne : d <> Decimal.Nil) by (pose proof (to_int_normal v) as [Hn _]; rewrite Hd in Hn; congruence).
  rewrite NilZero.usu by done. assert (Hz : Z.of_uint d = v) by (rewrite <- (DecimalZ.of_to v), Hd; done).
  rewrite Hz. by rewrite (proj2 (Z.ltb_lt _ _)) by lia.
Qed.

(** ** Canonical forms *)
Lemma fromBytes_bytes s : fromBytes (bytes s) = s.
Proof.
  induction s as [|c s IH]; [done|]. cbn [bytes fromBytes]. rewrite IH. f_equal. unfold byteZ.
  rewrite <- N_nat_Z, Nat2Z.id. by apply Ascii.ascii_nat_embedding.
Qed.

Lemma bytes_range s : Forall isByte (bytes s).
Proof.
  induction s as [|c s IH]; [done|]. cbn [bytes]. constructor; [|done]. unfold isByte, byteZ.
  pose proof (Ascii.N_ascii_bounded c). lia.
Qed.

Lemma fromBytes_app a b : fromBytes (a ++ b) = (fromBytes a +:+ fromBytes b)%string.
Proof. induction a as [|x a IH]; [done|]. cbn. by rewrite IH. Qed.

(** What [strings.joinText] gives. *)
Fixpoint joinText (sep : string) (parts : list string) : string :=
  match parts with
  | [] => EmptyString
  | [p] => p
  | p :: rest => (p +:+ sep +:+ joinText sep rest)%string
  end.

Lemma splitFrom_cons sep b acc : exists p rest, splitFrom sep acc b = p :: rest.
Proof. revert acc. induction b as [|x b IH]; intros acc; [by eexists _, _|]. cbn. destruct (x =? sep); [by eexists _, _|apply IH]. Qed.

Lemma Join_splitFrom sep b : forall acc,
  joinText (fromBytes [sep]) (fromBytes <$> splitFrom sep acc b) = fromBytes (rev acc ++ b).
Proof.
  induction b as [|x b IH]; intros acc; cbn [splitFrom]; [by rewrite app_nil_r|].
  destruct (x =? sep) eqn:E.
  - apply Z.eqb_eq in E as ->. specialize (IH []). destruct (splitFrom_cons sep b []) as (p & rest & Hs).
    rewrite Hs in *. cbn [fmap list_fmap joinText] in *. rewrite IH. cbn [rev app]. by rewrite !fromBytes_app.
  - rewrite IH. cbn [rev]. by rewrite <- app_assoc.
Qed.

Lemma Join_Split sep s : joinText (fromBytes [sep]) (Split s sep) = s.
Proof. unfold Split. rewrite Join_splitFrom. apply fromBytes_bytes. Qed.

(** Splitting what was put together from parts without the separator. *)
Lemma bytes_sep sep : isByte sep -> bytes (fromBytes [sep]) = [sep].
Proof. intros Hs. apply (bytes_fromBytes [sep]). by constructor. Qed.

Lemma splitFrom_Join sep parts p : isByte sep -> Forall (fun s => sep ∉ bytes s) (p :: parts) ->
  splitFrom sep [] (bytes (joinText (fromBytes [sep]) (p :: parts))) = bytes <$> p :: parts.
Proof.
  intros Hs. revert p. induction parts as [|q parts IH]; intros p Hall; apply Forall_cons in Hall as [Hp Hall].
  - cbn [joinText fmap list_fmap]. rewrite <- (app_nil_r (bytes p)) at 1. rewrite splitFrom_part by done. cbn. by rewrite app_nil_r, rev_involutive.
  - change (joinText (fromBytes [sep]) (p :: q :: parts)) with (p +:+ fromBytes [sep] +:+ joinText (fromBytes [sep]) (q :: parts))%string.
    rewrite !bytes_app, (bytes_sep sep Hs), splitFrom_part by done. cbn [app splitFrom]. rewrite Z.eqb_refl, app_nil_r, rev_involutive.
    change (bytes <$> p :: q :: parts) with (bytes p :: (bytes <$> q :: parts)). f_equal. by apply IH.
Qed.

Lemma Split_Join sep parts p : isByte sep -> Forall (fun s => sep ∉ bytes s) (p :: parts) ->
  Split (joinText (fromBytes [sep]) (p :: parts)) sep = p :: parts.
Proof.
  intros Hs Hall. unfold Split. rewrite splitFrom_Join by done. rewrite <- list_fmap_compose.
  induction (p :: parts) as [|q l IH]; [done|]. apply Forall_cons in Hall as [_ Hall]. cbn. by rewrite fromBytes_bytes, (IH Hall).
Qed.

(** The characters of base 64, and how many there are. *)
Lemma encode64_class c62 c63 b : (c62, c63) = (43, 47) \/ (c62, c63) = (45, 95) -> Forall isByte b ->
  Forall (fun c => isAlnum c || (c =? c62) || (c =? c63) = true) (bytes (encode64 c62 c63 b)).
Proof.
  intros Hc Hb. unfold encode64. pose proof (toSextets_range b Hb) as Hr. rewrite bytes_fromBytes.
  - apply Forall_fmap. eapply Forall_impl; [exact Hr|]. intros v Hv. unfold compose, symbol.
    unfold isSextet in Hv. unfold isAlnum, isLower, isUpper, isDigit. repeat case_match; bool_simpl; lia.
  - apply Forall_fmap. eapply Forall_impl; [exact Hr|]. intros v Hv. destruct (sextet_symbol c62 c63 v Hv Hc) as [_ Hs].
    unfold compose, isByte. lia.
Qed.

Lemma toSextets_length b : 3 * Z.of_nat (length (toSextets b)) <= 4 * Z.of_nat (length b) + 4.
Proof. induction b as [| | |x y z b IH] using three_ind; cbn [toSextets length]; lia. Qed.

Lemma length_fromBytes b : String.length (fromBytes b) = length b.
Proof. induction b as [|x b IH]; [done|]. cbn. by rewrite IH. Qed.

Lemma encode64_length c62 c63 b : 3 * len (encode64 c62 c63 b) <= 4 * Z.of_nat (length b) + 4.
Proof. unfold len, encode64. rewrite length_fromBytes, length_fmap. apply toSextets_length. Qed.

Lemma encode64_nonempty c62 c63 x b : encode64 c62 c63 (x :: b) <> EmptyString.
Proof. unfold encode64. by destruct b as [|y [|z b]]. Qed.

(** The digits of a number, how many there are, and the first. *)
Lemma uint_digits d : Forall (fun c => isDigit c = true) (bytes (NilEmpty.string_of_uint d)).
Proof. induction d; cbn; [done|..]; by constructor. Qed.

Lemma of_uint_acc_bound d acc : (Z.pos acc * 10 ^ len (NilEmpty.string_of_uint d) <= Z.pos (Pos.of_uint_acc d acc)).
Proof.
  revert acc. induction d as [|d IH|d IH|d IH|d IH|d IH|d IH|d IH|d IH|d IH|d IH]; intros acc; [unfold len; cbn; lia|..];
    cbn [NilEmpty.string_of_uint Pos.of_uint_acc]; (etrans; [|apply IH]); unfold len; cbn [String.length];
    rewrite Nat2Z.inj_succ, Z.pow_succ_r by lia;
    pose proof (Z.pow_nonneg 10 (Z.of_nat (String.length (NilEmpty.string_of_uint d))) ltac:(lia)); nia.
Qed.

Lemma FormatInt_digits v : 0 <= v -> Forall (fun c => isDigit c = true) (bytes (FormatInt v)).
Proof.
  intros Hv. destruct (FormatInt_natural v Hv) as (d & -> & _). destruct d; cbn [NilZero.string_of_uint]; try apply uint_digits.
  by constructor.
Qed.

(** A number of more than one digit does not begin with a zero. *)
Lemma FormatInt_head v : 0 <= v -> len (FormatInt v) <= 1 \/ (head (bytes (FormatInt v)) <> Some 48 /\ 10 ^ (len (FormatInt v) - 1) <= v).
Proof.
  intros Hv. destruct (FormatInt_natural v Hv) as (d & -> & Hd).
  assert (Hn : Decimal.unorm d = d).
  { pose proof (DecimalZ.to_of (Decimal.Pos d)) as E. rewrite <- Hd, DecimalZ.of_to, Hd in E. cbn in E. congruence. }
  assert (Hz : Z.of_N (Pos.of_uint d) = v).
  { pose proof (DecimalZ.of_to v) as E. rewrite Hd in E. exact E. }
  assert (Hb : forall c e a, Pos.of_uint_acc e a = Pos.of_uint_acc e a -> Z.pos (Pos.of_uint_acc e a) = v ->
    10 ^ (len (String c (NilEmpty.string_of_uint e)) - 1) <= v).
  { intros c e a _ <-. etrans; [|apply of_uint_acc_bound]. unfold len. cbn [String.length]. rewrite Nat2Z.inj_succ, <- Z.add_1_r, Z.add_simpl_r.
    pose proof (Z.pow_nonneg 10 (Z.of_nat (String.length (NilEmpty.string_of_uint e))) ltac:(lia)). nia. }
  destruct d as [|d|d|d|d|d|d|d|d|d|d]; [left; by vm_compute| |
    right; split; [done|exact (Hb _ d _ eq_refl Hz)] ..].
  left. rewrite DecimalFacts.unorm_D0 in Hn. unfold Decimal.unorm in Hn. destruct (Decimal.nzhead d) eqn:E; try done.
  - injection Hn as <-. by vm_compute.
  - by apply DecimalFacts.nzhead_nonzero in E.
Qed.
