(* ===== verification/GoFloat.v ===== *)
(** * Go [float64]: IEEE 754 binary64 with the operations the code uses

    A [float64] is a [spec_float] of the Standard Library's executable IEEE
    specification at precision 53 and exponent range 1024.  Besides the
    operations, the file shows that integers below 2^53 convert exactly and in
    order ([of_Z_ltb]), and that the products by 60 the alert rules compute
    are exact ([fmul_of_Z]). *)

From S2P Require Import Prelude.
From stdpp Require Import base tactics.
From Stdlib Require Import ZArith Lia SpecFloat.

Open Scope Z_scope.

Definition float64 := spec_float.

Global Instance float64_eq_dec : EqDecision float64.
Proof. intros x y; unfold Decision, float64 in *. repeat decide equality. Defined.

Definition prec : Z := 53.
Definition emax : Z := 1024.

(** [float64(n)] for an integer [n]. *)
Definition of_Z (n : Z) : float64 := binary_normalize prec emax n 0 false.

Definition fadd : float64 -> float64 -> float64 := SFadd prec emax.
Definition fmul : float64 -> float64 -> float64 := SFmul prec emax.
Definition fdiv : float64 -> float64 -> float64 := SFdiv prec emax.

Definition flt (a b : float64) : bool := SFltb a b.
Definition fle (a b : float64) : bool := SFleb a b.
Definition feq (a b : float64) : bool := SFeqb a b.

Definition IsNaN (x : float64) : bool := match x with S754_nan => true | _ => false end.
Definition IsInf (x : float64) : bool := match x with S754_infinity _ => true | _ => false end.

Definition Signbit (x : float64) : bool :=
  match x with
  | S754_zero s | S754_infinity s | S754_finite s _ _ => s
  | S754_nan => false
  end.

(** The integer part of a finite value (towards zero). *)
Definition to_Z (x : float64) : Z :=
  match x with
  | S754_finite s m e =>
      cond_Zopp s (if 0 <=? e then Z.pos m * 2 ^ e else Z.pos m / 2 ^ (- e))
  | _ => 0
  end.

(** [math.Trunc]. *)
Definition Trunc (x : float64) : float64 :=
  match x with
  | S754_finite s m e =>
      if 0 <=? e then x
      else binary_normalize prec emax (to_Z x) 0 s
  | _ => x
  end.

(** ** Order *)

(** Comparison is a strict order that is total on numbers. *)
Lemma flt_fle_negb a b :
  IsNaN a = false -> IsNaN b = false -> flt a b = negb (fle b a).
Proof.
  unfold flt, fle, SFltb, SFleb, SFcompare.
  destruct a as [[]|[]| |[] ma ea], b as [[]|[]| |[] mb eb]; simpl; try done;
  intros _ _; rewrite (Z.compare_antisym ea eb); destruct (ea ?= eb); simpl; try done;
  change (Pos.compare_cont Eq ma mb) with (Pos.compare ma mb);
  change (Pos.compare_cont Eq mb ma) with (Pos.compare mb ma);
  rewrite (Pos.compare_antisym ma mb); destruct (Pos.compare ma mb); done.
Qed.

(** Every number has a rank in a linear order on integers triples; comparing
    floats is comparing ranks. *)
Definition frank (x : float64) : Z * Z * Z :=
  match x with
  | S754_infinity true => (0, 0, 0)
  | S754_finite true m e => (1, - e, - Z.pos m)
  | S754_zero _ | S754_nan => (2, 0, 0)
  | S754_finite false m e => (3, e, Z.pos m)
  | S754_infinity false => (4, 0, 0)
  end.

Definition rank_lt (p q : Z * Z * Z) : Prop :=
  let '(a, b, c) := p in
  let '(a', b', c') := q in
  a < a' \/ (a = a' /\ (b < b' \/ (b = b' /\ c < c'))).

Lemma flt_rank a b :
  IsNaN a = false -> IsNaN b = false -> flt a b = true <-> rank_lt (frank a) (frank b).
Proof.
  unfold flt, SFltb, SFcompare.
  destruct a as [[]|[]| |[] ma ea], b as [[]|[]| |[] mb eb]; simpl;
    try (intros; split; intros; try done; lia); intros _ _;
  change (Pos.compare_cont Eq ma mb) with (Pos.compare ma mb);
  destruct (Z.compare_spec ea eb); simpl; try (split; intros; try done; lia);
  destruct (Pos.compare_spec ma mb); simpl; split; intros; try done; lia.
Qed.

Lemma flt_trans a b c : flt a b = true -> flt b c = true -> flt a c = true.
Proof.
  assert (Hn : forall x y, flt x y = true -> IsNaN x = false /\ IsNaN y = false).
  { intros [] []; unfold flt, SFltb; simpl; try done. }
  intros Hab Hbc. destruct (Hn _ _ Hab), (Hn _ _ Hbc).
  rewrite flt_rank in * by done.
  destruct (frank a) as [[??]?], (frank b) as [[??]?], (frank c) as [[??]?].
  unfold rank_lt in *. lia.
Qed.

Lemma flt_irrefl a : flt a a = false.
Proof.
  destruct (IsNaN a) eqn:E; [by destruct a|].
  destruct (flt a a) eqn:F; [|done].
  apply flt_rank in F; try done. destruct (frank a) as [[??]?]. unfold rank_lt in F. lia.
Qed.

Lemma fle_lt_trans a b c : fle a b = true -> flt b c = true -> flt a c = true.
Proof.
  intros Hab Hbc.
  assert (IsNaN a = false /\ IsNaN b = false /\ IsNaN c = false) as (Ha & Hb & Hc).
  { destruct a, b, c; try done. }
  assert (~ flt b a = true).
  { rewrite flt_fle_negb by done. by rewrite Hab. }
  rewrite !flt_rank in * by done.
  destruct (frank a) as [[??]?], (frank b) as [[??]?], (frank c) as [[??]?].
  unfold rank_lt in *. lia.
Qed.

(** ** Exact integers *)
Lemma digits2_log2 m : Z.pos (digits2_pos m) = Z.log2 (Z.pos m) + 1.
Proof.
  induction m as [m IH|m IH|]; simpl digits2_pos; [| |done]; rewrite Pos2Z.inj_succ, IH.
  - rewrite Pos2Z.inj_xI, Z.log2_succ_double by lia. lia.
  - rewrite Pos2Z.inj_xO, Z.log2_double by lia. lia.
Qed.

Lemma iter_pos_nat {A} (f : A -> A) p x : iter_pos f p x = Nat.iter (Pos.to_nat p) f x.
Proof.
  revert x. induction p as [p IH|p IH|]; intros x; [| |done].
  - change (iter_pos f p~1 x) with (iter_pos f p (iter_pos f p (f x))).
    rewrite !IH, <- Nat.iter_succ_r. change (f (Nat.iter (Pos.to_nat p) f x))
      with (Nat.iter 1 f (Nat.iter (Pos.to_nat p) f x)).
    rewrite <- !Nat.iter_add. f_equal. lia.
  - change (iter_pos f p~0 x) with (iter_pos f p (iter_pos f p x)).
    rewrite !IH, <- Nat.iter_add. f_equal. lia.
Qed.

Lemma shr_1_even q : shr_1 (Build_shr_record (2 * Z.pos q) false false)
                     = Build_shr_record (Z.pos q) false false.
Proof. done. Qed.

Lemma shr_exact n q :
  Nat.iter n shr_1 (Build_shr_record (Z.pos q * 2 ^ Z.of_nat n) false false)
  = Build_shr_record (Z.pos q) false false.
Proof.
  induction n as [|n IH]; [by rewrite Z.mul_1_r|].
  rewrite Nat.iter_succ_r, Nat2Z.inj_succ, Z.pow_succ_r by lia.
  replace (Z.pos q * (2 * 2 ^ Z.of_nat n)) with (2 * (Z.pos q * 2 ^ Z.of_nat n)) by lia.
  destruct (Z.pos q * 2 ^ Z.of_nat n) as [|r|r] eqn:E; [lia| |lia].
  rewrite shr_1_even. exact IH.
Qed.

(** Rounding a mantissa whose low bits are zero is exact. *)
Lemma round_aux_exact s q k e :
  0 <= k -> Z.log2 (Z.pos q) = 52 -> -1074 <= e + k <= 971 ->
  forall m, Z.pos m = Z.pos q * 2 ^ k ->
  binary_round_aux prec emax s (Z.pos m) e loc_Exact = S754_finite s q (e + k).
Proof.
  intros Hk Hq He m Hm.
  assert (Hlog : Z.log2 (Z.pos m) = 52 + k).
  { rewrite Hm, Z.log2_mul_pow2 by lia. lia. }
  assert (Hd : forall p, Zdigits2 (Z.pos p) = Z.log2 (Z.pos p) + 1) by apply digits2_log2.
  assert (H1 : shr_fexp prec emax (Z.pos m) e loc_Exact
               = (Build_shr_record (Z.pos q) false false, e + k)).
  { unfold shr_fexp. rewrite Hd, Hlog. unfold fexp, emin, prec, emax. simpl shr_record_of_loc.
    replace (Z.max (52 + k + 1 + e - 53) (3 - 1024 - 53) - e) with k by lia.
    unfold shr. destruct k as [|p|p]; [| |lia].
    - rewrite Hm, Z.mul_1_r, Z.add_0_r. done.
    - pose proof (shr_exact (Pos.to_nat p) q) as Hshr. rewrite positive_nat_Z in Hshr.
      by rewrite iter_pos_nat, Hm, Hshr. }
  assert (H2 : shr_fexp prec emax (Z.pos q) (e + k) loc_Exact
               = (Build_shr_record (Z.pos q) false false, e + k)).
  { unfold shr_fexp. rewrite Hd, Hq. unfold fexp, emin, prec, emax. simpl shr_record_of_loc.
    replace (Z.max (52 + 1 + (e + k) - 53) (3 - 1024 - 53) - (e + k)) with 0 by lia. done. }
  unfold binary_round_aux. rewrite H1. simpl. rewrite H2. simpl shr_m.
  unfold emax, prec. replace (e + k <=? 1024 - 53) with true by (symmetry; apply Z.leb_le; lia). done.
Qed.

(** The canonical float of an integer between 1 and 2^53 - 1. *)
Definition canon (z : Z) : float64 :=
  S754_finite false (Z.to_pos (z * 2 ^ (52 - Z.log2 z))) (Z.log2 z - 52).

Lemma log2_bound z : 0 < z < 2 ^ 53 -> 0 <= Z.log2 z <= 52.
Proof.
  intros. split; [apply Z.log2_nonneg|].
  assert (Z.log2 z < 53) by (apply Z.log2_lt_pow2; lia). lia.
Qed.

Lemma canon_mantissa z : 0 < z < 2 ^ 53 ->
  Z.pos (Z.to_pos (z * 2 ^ (52 - Z.log2 z))) = z * 2 ^ (52 - Z.log2 z) /\
  Z.log2 (z * 2 ^ (52 - Z.log2 z)) = 52.
Proof.
  intros Hz. pose proof (log2_bound z Hz).
  split; [apply Z2Pos.id; nia|]. rewrite Z.log2_mul_pow2 by lia. lia.
Qed.

Lemma iter_xO m k : Z.pos (Pos.iter xO m k) = Z.pos m * 2 ^ Z.pos k.
Proof.
  rewrite Pos2Nat.inj_iter, <- (positive_nat_Z k).
  generalize (Pos.to_nat k) as n. induction n as [|n IH]; [simpl; lia|].
  rewrite Nat2Z.inj_succ, Z.pow_succ_r by lia. simpl. rewrite Pos2Z.inj_xO.
  unfold Nat.iter in IH. rewrite IH. lia.
Qed.

Lemma of_Z_canon z : 0 < z < 2 ^ 53 -> of_Z z = canon z.
Proof.
  intros Hz. pose proof (log2_bound z Hz) as Hl. destruct (canon_mantissa z Hz) as [Hm Hm'].
  destruct z as [|m|m]; [lia| |lia].
  unfold of_Z, binary_normalize, binary_round. rewrite digits2_log2.
  replace (fexp prec emax (Z.log2 (Z.pos m) + 1 + 0)) with (Z.log2 (Z.pos m) - 52)
    by (unfold fexp, emin, prec, emax; lia).
  unfold canon, shl_align. rewrite Z.sub_0_r.
  rewrite <- Hm in Hm'.
  destruct (Z.log2 (Z.pos m) - 52) as [|p|p] eqn:E; [|lia|].
  - replace (52 - Z.log2 (Z.pos m)) with 0 in * by lia. rewrite Z.mul_1_r in *. simpl Z.to_pos.
    apply (round_aux_exact _ _ 0); try lia.
  - apply (round_aux_exact _ _ 0); try lia.
    rewrite Hm, iter_xO. replace (52 - Z.log2 (Z.pos m)) with (Z.pos p) by lia. lia.
Qed.

Lemma canon_ltb a b : 0 < a -> a < b -> b < 2 ^ 53 -> flt (canon a) (canon b) = true.
Proof.
  intros Ha Hab Hb.
  destruct (canon_mantissa a) as [Hma _]; [lia|]. destruct (canon_mantissa b) as [Hmb _]; [lia|].
  apply flt_rank; [done..|]. unfold canon. simpl frank. unfold rank_lt. rewrite Hma, Hmb.
  assert (Z.log2 a <= Z.log2 b) by (apply Z.log2_le_mono; lia).
  pose proof (log2_bound b ltac:(lia)).
  destruct (decide (Z.log2 a = Z.log2 b)) as [E|E]; [|lia].
  right. split; [done|]. right. split; [lia|]. rewrite E.
  apply Z.mul_lt_mono_pos_r; lia.
Qed.

(** Integers below 2^53 convert to floats in order. *)
Lemma of_Z_ltb a b : 0 <= a -> a < b -> b < 2 ^ 53 -> flt (of_Z a) (of_Z b) = true.
Proof.
  intros Ha Hab Hb. rewrite (of_Z_canon b) by lia.
  destruct (decide (a = 0)) as [->|]; [done|].
  rewrite of_Z_canon by lia. apply canon_ltb; lia.
Qed.

(** A product of integers that stays below 2^53 is exact. *)
Lemma fmul_of_Z a b : 0 < a -> 0 < b -> a * b < 2 ^ 53 -> fmul (of_Z a) (of_Z b) = of_Z (a * b).
Proof.
  intros Ha Hb Hab. assert (0 < a < 2 ^ 53 /\ 0 < b < 2 ^ 53) as [Ha' Hb'] by nia.
  assert (Hc : 0 < a * b < 2 ^ 53) by nia.
  rewrite (of_Z_canon a), (of_Z_canon b), (of_Z_canon (a * b)) by done.
  destruct (canon_mantissa a Ha') as [Hma _], (canon_mantissa b Hb') as [Hmb _].
  destruct (canon_mantissa _ Hc) as [Hmc Hlc].
  pose proof (log2_bound _ Ha'). pose proof (log2_bound _ Hb'). pose proof (log2_bound _ Hc).
  pose proof (Z.log2_mul_below a b Ha Hb).
  pose proof (Z.log2_mul_above a b ltac:(lia) ltac:(lia)).
  unfold fmul, SFmul, canon. simpl xorb.
  set (k := 52 + Z.log2 (a * b) - Z.log2 a - Z.log2 b).
  replace (Z.log2 (a * b) - 52) with (Z.log2 a - 52 + (Z.log2 b - 52) + k) by lia.
  apply round_aux_exact; [lia|by rewrite Hmc|lia|].
  rewrite Pos2Z.inj_mul, Hma, Hmb, Hmc.
  replace (a * b * 2 ^ (52 - Z.log2 (a * b)) * 2 ^ k)
    with (a * b * (2 ^ (52 - Z.log2 (a * b)) * 2 ^ k)) by lia.
  rewrite <- Z.pow_add_r by lia.
  replace (52 - Z.log2 (a * b) + k) with ((52 - Z.log2 a) + (52 - Z.log2 b)) by lia.
  rewrite Z.pow_add_r by lia. lia.
Qed.

Lemma of_Z_finite z : 0 <= z < 2 ^ 53 -> IsNaN (of_Z z) = false /\ IsInf (of_Z z) = false.
Proof.
  intros. destruct (decide (z = 0)) as [->|]; [done|].
  rewrite of_Z_canon by lia. done.
Qed.
