(* ===== verification/Pg.v ===== *)
(** * PostgreSQL transactions as the stores use them

    A store operation is a computation over a table state [S] in an
    environment [Env] that fixes, for the n-th interaction of the operation
    with the outside, whether it fails and what it returns: database round
    trips, the database clock ([clock_timestamp()]), the process clock and
    generated UUIDs.  [transact] is the [Begin]/[defer Rollback]/[Commit]
    bracket of the Go code: an error rolls the state back, and a failing
    [Commit] is ambiguous, the server may or may not have applied it.

    The driver and the server are not part of the repository.  What the code
    relies on of their time columns is the class [PgTime]: timestamps are kept
    to the microsecond. *)

From S2P Require Import Prelude GoTime.
From stdpp Require Import base tactics list gmap.
From Stdlib Require Import ZArith Lia.

Open Scope Z_scope.

(** A 128-bit UUID, ordered as its bytes (and so as its canonical text). *)
Notation UUID := N (only parsing).
Definition NilUUID : UUID := 0%N.

(** [id.Version()] and [id.Variant() == uuid.RFC4122]. *)
Definition uuidVersion (id : UUID) : N := N.land (N.shiftr id 76) 15.
Definition uuidRFC4122 (id : UUID) : bool := (N.land (N.shiftr id 62) 3 =? 2)%N.

(** ** Time columns *)
Class PgTime := {
  stored : Z -> Z;
  stored_grid : forall t, exists k, stored t = k * microsecond;
  stored_exact : forall k, stored (k * microsecond) = k * microsecond;
  stored_mono : forall a b, a <= b -> stored a <= stored b;
  stored_seconds : forall t k, stored (t + k * second) = stored t + k * second
}.

(** The instance used for evaluation: sub-microsecond digits are dropped. *)
Definition truncated (t : Z) : Z := t - t mod microsecond.

Program Definition PgTruncate : PgTime := {| stored := truncated |}.
Next Obligation.
  intros t. exists (t / microsecond). unfold truncated, microsecond.
  pose proof (Z.div_mod t 1000 ltac:(lia)). lia.
Qed.
Next Obligation.
  intros k. unfold truncated. rewrite Z.mod_mul by (unfold microsecond; lia). lia.
Qed.
Next Obligation.
  intros a b Hab. unfold truncated, microsecond.
  pose proof (Z.div_mod a 1000 ltac:(lia)). pose proof (Z.div_mod b 1000 ltac:(lia)).
  pose proof (Z.div_le_mono a b 1000 ltac:(lia) Hab). lia.
Qed.
Next Obligation.
  intros t k. unfold truncated. change second with (1000000 * microsecond).
  rewrite Z.mul_assoc, Z.mod_add by (unfold microsecond; lia). lia.
Qed.

Section StoredTime.
Context `{PgTime}.

(** A time written to a column and scanned back in UTC. *)
Definition pg (t : Time) : Time := MkTime (stored (ns t)) None.

Lemma stored_idemp t : stored (stored t) = stored t.
Proof. destruct (stored_grid t) as [k ->]. apply stored_exact. Qed.

Lemma stored_near t : t - microsecond < stored t < t + microsecond.
Proof.
  unfold microsecond.
  pose proof (Z.div_mod t 1000 ltac:(lia)). pose proof (Z.mod_pos_bound t 1000 ltac:(lia)).
  destruct (decide (t mod 1000 = 0)) as [E|E].
  - assert (stored t = t) as ->; [|lia].
    replace t with (t / 1000 * microsecond) by (unfold microsecond; lia). apply stored_exact.
  - pose proof (stored_mono (t / 1000 * microsecond) t ltac:(unfold microsecond; lia)).
    pose proof (stored_mono t ((t / 1000 + 1) * microsecond) ltac:(unfold microsecond; lia)).
    rewrite !stored_exact in *. unfold microsecond in *. lia.
Qed.

(** Adding whole microseconds to a stored value stays exact. *)
Lemma stored_add t k : stored (stored t + k * microsecond) = stored t + k * microsecond.
Proof.
  destruct (stored_grid t) as [j ->]. rewrite <- Z.mul_add_distr_r. apply stored_exact.
Qed.

End StoredTime.

(** ** Operations over a table state *)
Record Env := MkEnv {
  fault : nat -> bool;
  dbclock : nat -> Z;
  wall : nat -> Time;
  uuids : nat -> UUID
}.

Definition DB (S E A : Type) : Type := Env -> nat * S -> (nat * S) * result E A.

Section Combinators.
Context {S E : Type}.

Definition dret {A} (a : A) : DB S E A := fun _ st => (st, Ok a).
Definition dfail {A} (e : E) : DB S E A := fun _ st => (st, Err e).

Definition dbind {A B} (m : DB S E A) (k : A -> DB S E B) : DB S E B :=
  fun env st =>
    match m env st with
    | (st', Ok a) => k a env st'
    | (st', Err e) => (st', Err e)
    end.

(** One round trip that may fail with [e]. *)
Definition roundtrip (e : E) : DB S E unit :=
  fun env '(n, s) => if fault env n then ((Datatypes.S n, s), Err e)
                     else ((Datatypes.S n, s), Ok tt).

(** [SELECT clock_timestamp()], scanned into a Go time. *)
Definition databaseNow (e : E) : DB S E Time :=
  fun env '(n, s) => if fault env n then ((Datatypes.S n, s), Err e)
                     else ((Datatypes.S n, s), Ok (MkTime (dbclock env n) None)).

Definition wallNow : DB S E Time :=
  fun env '(n, s) => ((Datatypes.S n, s), Ok (wall env n)).

Definition newUUID : DB S E UUID :=
  fun env '(n, s) => ((Datatypes.S n, s), Ok (uuids env n)).

Definition dget : DB S E S := fun _ '(n, s) => ((n, s), Ok s).
Definition dput (s' : S) : DB S E unit := fun _ '(n, _) => ((n, s'), Ok tt).

(** How a transaction ended, seen by the caller and by the server. *)
Inductive Ending (A : Type) : Type :=
| Committed (a : A)
| CommitLost (a : A)
| RolledBack (e : E).

(** [Begin], the body, and [Commit] on success.  When [Commit] reports an
    error the next element of [fault] tells whether it was applied. *)
Definition transaction {A} (eBegin : E) (body : DB S E A) (env : Env) (st : nat * S) :
  (nat * S) * Ending A :=
  let '(n, s) := st in
  if fault env n then ((Datatypes.S n, s), RolledBack _ eBegin)
  else match body env (Datatypes.S n, s) with
       | ((n', s'), Ok a) =>
           if fault env n' then
             ((Datatypes.S (Datatypes.S n'), if fault env (Datatypes.S n') then s' else s),
              CommitLost _ a)
           else ((Datatypes.S n', s'), Committed _ a)
       | ((n', _), Err e) => ((n', s), RolledBack _ e)
       end.

(** The plain bracket: a lost commit is reported as [eCommit]. *)
Definition transact {A} (eBegin eCommit : E) (body : DB S E A) : DB S E A :=
  fun env st =>
    match transaction eBegin body env st with
    | (st', Committed _ a) => (st', Ok a)
    | (st', CommitLost _ _) => (st', Err eCommit)
    | (st', RolledBack _ e) => (st', Err e)
    end.

(** The state after an operation. *)
Definition exec {A} (m : DB S E A) (env : Env) (s : S) : S := snd (fst (m env (0%nat, s))).
Definition value {A} (m : DB S E A) (env : Env) (s : S) : result E A := snd (m env (0%nat, s)).

(** *** Inversion of successful runs *)
Lemma dbind_Ok {A B} (m : DB S E A) (k : A -> DB S E B) env st st' b :
  dbind m k env st = (st', Ok b) ->
  exists st1 a, m env st = (st1, Ok a) /\ k a env st1 = (st', Ok b).
Proof. unfold dbind. destruct (m env st) as [? [a|e]] eqn:?; intros; simplify_eq; eauto. Qed.

(** The forward form: a part that succeeds is stepped over. *)
Lemma dbind_run {A B} (m : DB S E A) (k : A -> DB S E B) env st st' a :
  m env st = (st', Ok a) -> dbind m k env st = k a env st'.
Proof. unfold dbind. by intros ->. Qed.

Lemma call_run {B} e (k : unit -> DB S E B) env n s :
  fault env n = false -> dbind (roundtrip e) k env (n, s) = k tt env (Datatypes.S n, s).
Proof. intros Hf. unfold dbind, roundtrip. by rewrite Hf. Qed.

Lemma dget_run {B} (k : S -> DB S E B) env n s : dbind dget k env (n, s) = k s env (n, s).
Proof. done. Qed.

Lemma dret_Ok {A} (a b : A) env st st' :
  dret a env st = (st', Ok b) -> st' = st /\ b = a.
Proof. unfold dret. intros; simplify_eq; done. Qed.

Lemma roundtrip_Ok e env n s st' u :
  roundtrip e env (n, s) = (st', Ok u) -> st' = (Datatypes.S n, s) /\ fault env n = false.
Proof. unfold roundtrip. destruct (fault env n); intros; simplify_eq; done. Qed.

Lemma databaseNow_Ok e env n s st' t :
  databaseNow e env (n, s) = (st', Ok t) ->
  st' = (Datatypes.S n, s) /\ t = MkTime (dbclock env n) None /\ fault env n = false.
Proof. unfold databaseNow. destruct (fault env n); intros; simplify_eq; done. Qed.

(** *** Preservation of a predicate on the table state *)
Definition preserves {A} (I : S -> Prop) (m : DB S E A) : Prop :=
  forall env n s st r, I s -> m env (n, s) = (st, r) -> I (snd st).

(** Only a successful body can change the state of a transaction. *)
Definition keeps {A} (I : S -> Prop) (m : DB S E A) : Prop :=
  forall env n s st a, I s -> m env (n, s) = (st, Ok a) -> I (snd st).

Lemma transaction_keeps {A} (I : S -> Prop) eBegin (body : DB S E A) env n s st r :
  keeps I body -> I s -> transaction eBegin body env (n, s) = (st, r) -> I (snd st).
Proof.
  intros Hb Hs. unfold transaction.
  destruct (fault env n); [intros; simplify_eq; done|].
  destruct (body env (Datatypes.S n, s)) as [[n' s'] [a|e]] eqn:Eb; [|intros; simplify_eq; done].
  pose proof (Hb _ _ _ _ _ Hs Eb).
  repeat case_match; intros; simplify_eq; done.
Qed.

Lemma transact_preserves {A} (I : S -> Prop) eBegin eCommit (body : DB S E A) :
  keeps I body -> preserves I (transact eBegin eCommit body).
Proof.
  intros Hb env n s st r Hs. unfold transact.
  destruct (transaction eBegin body env (n, s)) as [st1 r1] eqn:Et.
  pose proof (transaction_keeps _ _ _ _ _ _ _ _ Hb Hs Et).
  destruct r1; intros; simplify_eq; done.
Qed.

(** A transaction that reports success ran its body and kept its effect. *)
Lemma transact_Ok {A} eBegin eCommit (body : DB S E A) env n s st a :
  transact eBegin eCommit body env (n, s) = (st, Ok a) ->
  exists n', body env (Datatypes.S n, s) = ((n', snd st), Ok a).
Proof.
  unfold transact, transaction. destruct (fault env n); [done|].
  destruct (body env (Datatypes.S n, s)) as [[n' s'] [b|e]]; [|done].
  destruct (fault env n'); intros; simplify_eq/=; eauto.
Qed.

(** A transaction whose body fails changes nothing and fails. *)
Lemma transact_stuck {A} eBegin eCommit (body : DB S E A) env n s st r :
  is_ok (snd (body env (Datatypes.S n, s))) = false ->
  transact eBegin eCommit body env (n, s) = (st, r) -> snd st = s /\ is_ok r = false.
Proof.
  intros Hbody. unfold transact, transaction. destruct (fault env n); [by intros [= <- <-]|].
  destruct (body env (Datatypes.S n, s)) as [[n' s'] [b|e]]; [done|]. by intros [= <- <-].
Qed.

(** The errors of a transaction are those of its begin, its commit and its body. *)
Lemma transact_error {A} (P : E -> Prop) (e1 e2 : E) (m : DB S E A) env n s st' e :
  transact e1 e2 m env (n, s) = (st', Err e) -> P e1 -> P e2 ->
  (forall st' e, m env (Datatypes.S n, s) = (st', Err e) -> P e) -> P e.
Proof.
  unfold transact, transaction. intros Hrun He1 He2 Hm.
  destruct (fault env n); [by injection Hrun as _ <-|].
  destruct (m env (Datatypes.S n, s)) as [[n' s'] [a|e']] eqn:Eb; [|injection Hrun as _ <-; by eapply Hm].
  destruct (fault env n'); [by injection Hrun as _ <-|done].
Qed.

(** However a transaction ends, the state is the one before it or the one of
    its successful body. *)
Lemma transaction_outcome {A} eBegin (body : DB S E A) env n s st r :
  transaction eBegin body env (n, s) = (st, r) ->
  snd st = s \/ exists n1 a, body env (Datatypes.S n, s) = ((n1, snd st), Ok a).
Proof.
  unfold transaction. destruct (fault env n); [intros; simplify_eq; by left|].
  destruct (body env (Datatypes.S n, s)) as [[n' s'] [b|e]]; [|intros; simplify_eq; by left].
  repeat case_match; intros; simplify_eq/=; eauto.
Qed.

Lemma transact_outcome {A} eBegin eCommit (body : DB S E A) env n s st r :
  transact eBegin eCommit body env (n, s) = (st, r) ->
  snd st = s \/ exists n1 a, body env (Datatypes.S n, s) = ((n1, snd st), Ok a).
Proof.
  unfold transact. destruct (transaction eBegin body env (n, s)) as [st1 r1] eqn:Ht.
  apply transaction_outcome in Ht. destruct r1; intros; simplify_eq; done.
Qed.

(** With no failing round trip a transaction is its body. *)
Definition quiet (env : Env) : Prop := forall n, fault env n = false.

Lemma transact_quiet {A} eBegin eCommit (body : DB S E A) env n s :
  quiet env ->
  transact eBegin eCommit body env (n, s) =
  match body env (Datatypes.S n, s) with
  | ((n', s'), Ok a) => ((Datatypes.S n', s'), Ok a)
  | ((n', s'), Err e) => ((n', s), Err e)
  end.
Proof.
  intros Hq. unfold transact, transaction. rewrite Hq.
  destruct (body env (Datatypes.S n, s)) as [[n' s'] [b|e]]; [|done]. by rewrite Hq.
Qed.

End Combinators.

Arguments Ending : clear implicits.
Arguments Committed {E A} a.
Arguments CommitLost {E A} a.
Arguments RolledBack {E A} e.

Declare Scope db_scope.
Delimit Scope db_scope with db.

Notation "'do' x <- m ; k" := (dbind m (fun x => k))
  (at level 10, x pattern, m at level 99, k at level 200,
   format "'[v' 'do'  x  <-  m ; '/' k ']'") : db_scope.
Notation "'call' e ; k" := (dbind (roundtrip e) (fun _ => k))
  (at level 10, e at level 9, k at level 200,
   format "'[v' 'call'  e ; '/' k ']'") : db_scope.
Notation "'guard' b 'else' e ; k" := (if b then k else dfail e)
  (at level 10, b at level 99, e at level 99, k at level 200,
   format "'[v' 'guard'  b  'else'  e ; '/' k ']'") : db_scope.
Notation "'fail' 'if' b 'with' e ; k" := (if b then dfail e else k)
  (at level 10, b at level 99, e at level 99, k at level 200,
   format "'[v' 'fail'  'if'  b  'with'  e ; '/' k ']'") : db_scope.

(** Inversion of a successful monadic run in the context. *)
Ltac db_inv :=
  repeat match goal with
  | H : dbind _ _ _ _ = (_, Ok _) |- _ =>
      let st := fresh "st" in let a := fresh "a" in
      let H1 := fresh "Hrun" in let H2 := fresh "Hrun" in
      apply dbind_Ok in H; destruct H as (st & a & H1 & H2)
  | H : roundtrip _ _ (_, _) = (_, Ok _) |- _ =>
      apply roundtrip_Ok in H; destruct H as [? ?]; subst
  | H : databaseNow _ _ (_, _) = (_, Ok _) |- _ =>
      apply databaseNow_Ok in H; destruct H as (? & ? & ?); subst
  | H : dret _ _ _ = (_, Ok _) |- _ => apply dret_Ok in H; destruct H as [? ?]; subst
  | H : dget _ (_, _) = (_, _) |- _ => unfold dget in H; simplify_eq
  | H : dput _ _ (_, _) = (_, _) |- _ => unfold dput in H; simplify_eq
  | H : wallNow _ (_, _) = (_, _) |- _ => unfold wallNow in H; simplify_eq
  | H : newUUID _ (_, _) = (_, _) |- _ => unfold newUUID in H; simplify_eq
  | H : dfail _ _ _ = (_, Ok _) |- _ => discriminate H
  | H : (_, _) = (_, _) |- _ => injection H as ? ?; subst
  | st : (nat * _)%type |- _ => destruct st
  end.

(** An operation whose error the caller looks at. *)
Definition attempt {S E E' A} (m : DB S E A) : DB S E' (result E A) :=
  fun env st => let '(st', r) := m env st in (st', Ok r).

(** ** What an operation can fail with, and what it can return *)
Section Outcomes.
Context {S E : Type}.

Definition fails {A} (R : E -> Prop) (m : DB S E A) : Prop :=
  forall env st st' e, m env st = (st', Err e) -> R e.
Definition yields {A} (R : A -> Prop) (m : DB S E A) : Prop :=
  forall env st st' a, m env st = (st', Ok a) -> R a.

Lemma fails_bind {A B} R (m : DB S E A) (k : A -> DB S E B) :
  fails R m -> (forall a, fails R (k a)) -> fails R (dbind m k).
Proof.
  intros Hm Hk env st st' e. unfold dbind. destruct (m env st) as [st1 [a|e1]] eqn:E1; [apply Hk|].
  intros [= <- <-]. by eapply Hm.
Qed.

Lemma fails_ret {A} R (a : A) : fails R (dret a).
Proof. by intros env st st' e. Qed.
Lemma fails_put R s : fails R (dput s).
Proof. by intros env [n s'] st' e. Qed.
Lemma fails_get R : fails R dget.
Proof. by intros env [n s] st' e. Qed.
Lemma fails_wall R : fails R wallNow.
Proof. by intros env [n s] st' e. Qed.
Lemma fails_uuid R : fails R newUUID.
Proof. by intros env [n s] st' e. Qed.
Lemma fails_fail {A} (R : E -> Prop) (e : E) : R e -> fails (A := A) R (dfail e).
Proof. intros He env st st' e'. by intros [= _ <-]. Qed.
Lemma fails_call (R : E -> Prop) e : R e -> fails R (roundtrip e).
Proof. intros He env [n s] st' e'. unfold roundtrip. destruct (fault env n); [by intros [= _ <-]|done]. Qed.
Lemma fails_now (R : E -> Prop) e : R e -> fails R (databaseNow e).
Proof. intros He env [n s] st' e'. unfold databaseNow. destruct (fault env n); [by intros [= _ <-]|done]. Qed.

Lemma fails_attempt {E' A} R (m : DB S E' A) : fails R (attempt m).
Proof. intros env st st' e. unfold attempt. by destruct (m env st). Qed.

Lemma yields_bind {A B} (R : B -> Prop) (m : DB S E A) (k : A -> DB S E B) :
  (forall a, yields R (k a)) -> yields R (dbind m k).
Proof. intros Hk env st st' b Hrun. apply dbind_Ok in Hrun as (st1 & a & _ & Hrun). by eapply Hk. Qed.
Lemma yields_fail {A} (R : A -> Prop) (e : E) : yields R (dfail e).
Proof. by intros env st st' a. Qed.
Lemma yields_ret {A} (R : A -> Prop) a : R a -> yields R (dret a).
Proof. intros Ha env st st' b. by intros [= _ <-]. Qed.

Lemma transact_fails {A} (R : E -> Prop) e1 e2 (m : DB S E A) : R e1 -> R e2 -> fails R m -> fails R (transact e1 e2 m).
Proof. intros H1 H2 Hm env [n s] st' e Hrun. eapply transact_error; eauto. Qed.

End Outcomes.

#[export] Hint Resolve fails_ret fails_put fails_get fails_wall fails_uuid fails_attempt : go.

(** Walks through an operation whose failures are to be bounded: binds, guards and
    matches are decomposed, the errors themselves are left to [tac]. *)
Ltac fails_step tac :=
  lazymatch goal with
  | |- forall _, _ => intros ?
  | |- fails _ (dbind _ _) => apply fails_bind
  | |- fails _ (dfail _) => apply fails_fail; tac
  | |- fails _ (roundtrip _) => apply fails_call; tac
  | |- fails _ (databaseNow _) => apply fails_now; tac
  | |- fails _ (if ?b then _ else _) => destruct b
  | |- fails _ (match ?x with _ => _ end) => destruct x
  | |- fails _ (let '(_, _) := ?x in _) => destruct x
  | |- fails _ _ => solve [eauto 3 with go]
  end.

(** The environment of an operation that meets no failure. *)
Definition calm (clk : Z) (now : Time) (ids : nat -> UUID) : Env :=
  MkEnv (fun _ => false) (fun _ => clk) (fun _ => now) ids.
