(* ===== verification/OpsModel.v ===== *)
(** * Operations: errors, principals, settings, infrastructure status

    Models [internal/operations/model.go], the authorization and settings part
    of [internal/operations/service.go], the write gate
    ([internal/operations/write_gate.go]) and claim admission
    ([internal/operations/claim_admission.go]). *)

From S2P Require Import Prelude GoTime GoText Pg.
From stdpp Require Import base tactics list gmap strings.
From Stdlib Require Import ZArith Lia.

Open Scope Z_scope.

(** The error values of the package; [ErrDatabase] is any error of the driver
    that the code passes on, [ErrContext] a context error. *)
Inductive OpsError : Type :=
| ErrForbidden | ErrInvalid | ErrConflict | ErrLeaseHeld | ErrStaleLease
| ErrAlertNotFound | ErrAlertAlreadyResolved | ErrAlertCollectorUnavailable
| ErrWebhookNotConfigured | ErrWebhookDeliveryFailed
| ErrDatabase | ErrContext.

Global Instance OpsError_eq_dec : EqDecision OpsError.
Proof. solve_decision. Defined.

(** ** Principals ([store.go], [auth/model.go]) *)

(** A [net.IP]: [None] is the nil slice. *)
Definition IP := option (list Z).

(** [ip == nil || ip.To16() == nil] negated. *)
Definition validIP (ip : IP) : bool :=
  match ip with
  | None => false
  | Some b => (List.length b =? 4)%nat || (List.length b =? 16)%nat
  end.

Inductive Role := RoleAdmin | RoleStudent | OtherRole (s : string).
Inductive Status := StatusActive | StatusDisabled | OtherStatus (s : string).

Global Instance Role_eq_dec : EqDecision Role.
Proof. solve_decision. Defined.
Global Instance Status_eq_dec : EqDecision Status.
Proof. solve_decision. Defined.

Record Principal := MkPrincipal {
  User_ID : UUID;
  User_Role : Role;
  User_Status : Status;
  RequestID : string;
  PrincipalIP : IP
}.

Definition authorizeSettings (p : Principal) : result OpsError unit :=
  (reject (User_ID p =? NilUUID)%N
      || negb (bool_decide (User_Role p = RoleAdmin))
      || negb (bool_decide (User_Status p = StatusActive))
      || blank (RequestID p)
      || (64 <? len (RequestID p))
      || negb (validIP (PrincipalIP p)) with ErrForbidden;
   Ok tt)%go.

(** ** Infrastructure status *)
Definition InfrastructureKey := Z.

Definition InfrastructureApplicationDatabase : InfrastructureKey := 1.
Definition InfrastructureRedisSecurity : InfrastructureKey := 2.
Definition InfrastructureObjectStore : InfrastructureKey := 3.
Definition InfrastructureAIEncryption : InfrastructureKey := 4.
Definition InfrastructureInternalMetrics : InfrastructureKey := 5.
Definition InfrastructureHostMetricsIngestion : InfrastructureKey := 6.
Definition InfrastructureAlertWebhook : InfrastructureKey := 7.
Definition InfrastructureLocalBackup : InfrastructureKey := 8.
Definition InfrastructureRemoteBackup : InfrastructureKey := 9.

Definition infrastructureKeyOrder : list InfrastructureKey :=
  [InfrastructureApplicationDatabase; InfrastructureRedisSecurity;
   InfrastructureObjectStore; InfrastructureAIEncryption;
   InfrastructureInternalMetrics; InfrastructureHostMetricsIngestion;
   InfrastructureAlertWebhook; InfrastructureLocalBackup;
   InfrastructureRemoteBackup].

Record InfrastructureStatus := MkInfra {
  Key : InfrastructureKey;
  Configured : bool;
  LastValidatedAt : option Time
}.

Definition infrastructureStorageKey (key : InfrastructureKey) : string :=
  match key with
  | 1 => "application_database"
  | 2 => "redis_security"
  | 3 => "object_store"
  | 4 => "ai_encryption"
  | 5 => "internal_metrics"
  | 6 => "host_metrics_ingestion"
  | 7 => "alert_webhook"
  | 8 => "local_backup"
  | 9 => "remote_backup"
  | _ => ""
  end.

Definition infrastructureKeyFromStorage (value : string) : option InfrastructureKey :=
  List.find (fun key => bool_decide (infrastructureStorageKey key = value))
    infrastructureKeyOrder.

(** The body of the first loop of [NormalizeInfrastructureStatuses]. *)
Definition normalizeStatus (byKey : gmap Z InfrastructureStatus) (status : InfrastructureStatus) :
  gmap Z InfrastructureStatus :=
  if bool_decide (infrastructureStorageKey (Key status) = "") then byKey
  else
    let at' := match LastValidatedAt status with
               | Some t => if IsZero t then None else Some (UTC t)
               | None => None
               end in
    <[Key status := MkInfra (Key status) (Configured status) at']> byKey.

Definition NormalizeInfrastructureStatuses (input : list InfrastructureStatus) :
  list InfrastructureStatus :=
  let byKey := fold_left normalizeStatus input ∅ in
  map (fun key => or_zero (MkInfra key false None) (byKey !! key)) infrastructureKeyOrder.

(** ** Settings *)
Record Settings := MkSettings {
  SettingsVersion : Z;
  SiteName : string;
  SiteAnnouncement : string;
  SoftDeleteRetentionDays : Z;
  AuditRetentionDays : Z;
  OperationalSampleRetentionDays : Z;
  BackupHour : Z;
  BackupMinute : Z;
  BackupTimezone : string;
  DiskWarningPercent : Z;
  DiskCriticalPercent : Z;
  BackupFilesystemWarningPercent : Z;
  BackupFilesystemCriticalPercent : Z;
  LocalBackupAgeWarningHours : Z;
  LocalBackupAgeCriticalHours : Z;
  AIErrorWarningPercent : Z;
  AIErrorCriticalPercent : Z;
  ProcessingQueueWarning : Z;
  ProcessingQueueCritical : Z;
  ProcessingFailureWarningCount : Z;
  ProcessingFailureCriticalCount : Z;
  LoginFailureWarningCount : Z;
  LoginFailureCriticalCount : Z;
  AuthorizationDenialWarningCount : Z;
  AuthorizationDenialCriticalCount : Z;
  SettingsInfrastructure : list InfrastructureStatus;
  SettingsUpdatedBy : UUID;
  SettingsUpdatedAt : Time
}.

Definition validPercentThresholdPair (warning critical : Z) : bool :=
  (1 <=? warning) && (warning <=? 99) && (warning <? critical) && (critical <=? 100).

Definition validCountThresholdPair (warning critical : Z) : bool :=
  (1 <=? warning) && (warning <=? 2147483646) &&
  (warning <? critical) && (critical <=? 2147483647).

(** The three groups of bounds [ValidateSettings] and
    [highRiskSettingsReason] both test. *)
Definition badRetention (s : Settings) : bool :=
  (SoftDeleteRetentionDays s <? 30) || (365 <? SoftDeleteRetentionDays s) ||
  (AuditRetentionDays s <? 365) || (2555 <? AuditRetentionDays s) ||
  (OperationalSampleRetentionDays s <? 1) || (30 <? OperationalSampleRetentionDays s).

Definition badBackupSchedule (s : Settings) : bool :=
  (BackupHour s <? 0) || (23 <? BackupHour s) ||
  (BackupMinute s <? 0) || (59 <? BackupMinute s) ||
  negb (bool_decide (BackupTimezone s = "Asia/Shanghai")).

Definition badThresholds (s : Settings) : bool :=
  negb (validPercentThresholdPair (DiskWarningPercent s) (DiskCriticalPercent s)) ||
  negb (validPercentThresholdPair (BackupFilesystemWarningPercent s)
          (BackupFilesystemCriticalPercent s)) ||
  negb (validCountThresholdPair (LocalBackupAgeWarningHours s) (LocalBackupAgeCriticalHours s)) ||
  negb (validPercentThresholdPair (AIErrorWarningPercent s) (AIErrorCriticalPercent s)) ||
  negb (validCountThresholdPair (ProcessingQueueWarning s) (ProcessingQueueCritical s)) ||
  negb (validCountThresholdPair (ProcessingFailureWarningCount s)
          (ProcessingFailureCriticalCount s)) ||
  negb (validCountThresholdPair (LoginFailureWarningCount s) (LoginFailureCriticalCount s)) ||
  negb (validCountThresholdPair (AuthorizationDenialWarningCount s)
          (AuthorizationDenialCriticalCount s)).

(** Version and site texts, which only [ValidateSettings] tests. *)
Definition badSiteText (s : Settings) : bool :=
  (SettingsVersion s <? 1) ||
  negb (ValidString (SiteName s)) || (RuneCountInString (SiteName s) <? 1) ||
  (80 <? RuneCountInString (SiteName s)) ||
  negb (ValidString (SiteAnnouncement s)) || (1000 <? RuneCountInString (SiteAnnouncement s)).

Definition ValidateSettings (s : Settings) : result OpsError unit :=
  (reject badSiteText s || badRetention s || badBackupSchedule s || badThresholds s
   with ErrInvalid;
   Ok tt)%go.

Definition highRiskSettingsReason (s : Settings) : string :=
  if badRetention s then "retention"
  else if badBackupSchedule s then "backup_schedule"
  else if badThresholds s then "threshold"
  else "".

(** ** The settings service ([service.go])

    [ServiceStore] is the interface the service calls; its methods act on an
    arbitrary store state. *)
Record ServiceStore (S : Type) := MkServiceStore {
  ss_GetSettings : S -> result OpsError Settings;
  ss_UpdateSettings : Principal -> Settings -> S -> S * result OpsError Settings;
  ss_AuditSettingsRejection : Principal -> string -> S -> S * result OpsError unit
}.
Arguments ss_GetSettings {S}.
Arguments ss_UpdateSettings {S}.
Arguments ss_AuditSettingsRejection {S}.

Section SettingsService.
Context {S : Type} (store : ServiceStore S).

Definition GetSettings (p : Principal) (s : S) : result OpsError Settings :=
  (let* _ := authorizeSettings p in
   ss_GetSettings store s)%go.

Definition UpdateSettings (p : Principal) (settings : Settings) (s : S) :
  S * result OpsError Settings :=
  match authorizeSettings p with
  | Err e => (s, Err e)
  | Ok _ =>
    match ValidateSettings settings with
    | Err e =>
      let reason := highRiskSettingsReason settings in
      if bool_decide (reason = "") then (s, Err e)
      else match ss_AuditSettingsRejection store p reason s with
           | (s', Err auditErr) => (s', Err auditErr)
           | (s', Ok _) => (s', Err e)
           end
    | Ok _ => ss_UpdateSettings store p settings s
    end
  end.

End SettingsService.

(** ** The write gate ([write_gate.go]) *)
Definition logoutPath : string := "/api/v1/auth/logout".

Definition safeMethod (method : string) : bool :=
  member ["GET"; "HEAD"; "OPTIONS"] method.

(** What a request observes: the handler runs, the shared gate is released,
    or the maintenance response is written. *)
Inductive GateEvent := Served | Released | Maintenance503.

(** [gate] is [None] for a nil gate; otherwise the result of [AcquireShared],
    where [Ok false] is a nil release function without error. *)
Definition UnsafeWriteGate (gate : option (result OpsError bool)) (method path : string) :
  list GateEvent :=
  if safeMethod method || bool_decide (path = logoutPath) then [Served]
  else match gate with
       | None => [Maintenance503]
       | Some (Err _) | Some (Ok false) => [Maintenance503]
       | Some (Ok true) => [Served; Released]
       end.

(** ** Claim admission ([claim_admission.go])

    The state is the singleton row of [operational_modes] ([None] when it is
    missing).  The advisory lock either is taken, times out with SQLSTATE
    55P03, or fails otherwise. *)
Inductive LockOutcome := Locked | LockTimedOut | LockFailed.

Definition AdmitClaim (lock : LockOutcome) : DB (option string) OpsError unit :=
  (call ErrDatabase;
   match lock with
   | LockTimedOut => dfail ErrLeaseHeld
   | LockFailed => dfail ErrDatabase
   | Locked =>
     call ErrDatabase;
     call ErrDatabase;
     do mode <- dget;
     match mode with
     | None => dfail ErrConflict
     | Some m => fail if negb (bool_decide (m = "normal")) with ErrLeaseHeld; dret tt
     end
   end)%db.

(** ** Lemmas *)
Lemma ValidateSettings_Ok s :
  ValidateSettings s = Ok tt ->
  badSiteText s = false /\ badRetention s = false /\
  badBackupSchedule s = false /\ badThresholds s = false.
Proof. unfold ValidateSettings. intros H. go_run. bool_simpl. done. Qed.

Lemma validPercentThresholdPair_spec w c :
  validPercentThresholdPair w c = true -> 1 <= w < c /\ c <= 100.
Proof. unfold validPercentThresholdPair. intros; bool_simpl; lia. Qed.

Lemma validCountThresholdPair_spec w c :
  validCountThresholdPair w c = true -> 1 <= w < c /\ c <= 2147483647.
Proof. unfold validCountThresholdPair. intros; bool_simpl; lia. Qed.

Lemma normalize_length input : List.length (NormalizeInfrastructureStatuses input) = 9%nat.
Proof. done. Qed.

Lemma normalize_byKey_wf input m :
  map_Forall (fun k st => Key st = k /\ infrastructureStorageKey k <> "" /\
                from_option (fun t => IsZero t = false /\ UTC t = t) True (LastValidatedAt st)) m ->
  map_Forall (fun k st => Key st = k /\ infrastructureStorageKey k <> "" /\
                from_option (fun t => IsZero t = false /\ UTC t = t) True (LastValidatedAt st))
    (fold_left normalizeStatus input m).
Proof.
  revert m. induction input as [|st input IH]; intros m Hm; simpl; [done|].
  apply IH. unfold normalizeStatus. case_bool_decide as E; [done|].
  apply map_Forall_insert_2; [|done]. split_and!; [done..|].
  simpl. destruct (LastValidatedAt st) as [t|]; [|done].
  destruct (IsZero t) eqn:Hz; done.
Qed.

Lemma authorizeSettings_Ok p :
  authorizeSettings p = Ok tt ->
  User_ID p <> NilUUID /\ User_Role p = RoleAdmin /\ User_Status p = StatusActive.
Proof.
  unfold authorizeSettings. intros H. go_run. bool_simpl. split_and!; try done.
  by apply N.eqb_neq.
Qed.

Lemma infrastructureStorageKey_known k :
  infrastructureStorageKey k <> "" <-> k ∈ infrastructureKeyOrder.
Proof.
  split.
  - intros Hk. destruct k as [|p|p]; [done| |done].
    do 4 (destruct p as [p|p|]; try done; try (simpl; set_solver)).
  - unfold infrastructureKeyOrder. rewrite !elem_of_cons, elem_of_nil.
    intros H; repeat destruct H as [->|H]; done.
Qed.

(** The storage form of an infrastructure key is a bijection between the nine
    keys and their nine names. *)
Lemma infrastructureKeyFromStorage_iff v k :
  infrastructureKeyFromStorage v = Some k <-> infrastructureStorageKey k = v /\ v <> "".
Proof.
  unfold infrastructureKeyFromStorage. split.
  - intros H. apply find_some in H as [Hin Hv]. bool_simpl. subst v. split; [done|].
    apply infrastructureStorageKey_known, list_elem_of_In, Hin.
  - intros [<- Hk]. apply infrastructureStorageKey_known in Hk.
    unfold infrastructureKeyOrder in Hk. rewrite !elem_of_cons, elem_of_nil in Hk.
    repeat destruct Hk as [->|Hk]; done.
Qed.

Definition normalizedStatus (st : InfrastructureStatus) : Prop :=
  infrastructureStorageKey (Key st) <> "" /\
  from_option (fun t => IsZero t = false /\ UTC t = t) True (LastValidatedAt st).

Lemma normalizeStatus_fixed m st :
  normalizedStatus st -> normalizeStatus m st = <[Key st := st]> m.
Proof.
  intros [Hk Ht]. unfold normalizeStatus. rewrite bool_decide_eq_false_2 by done.
  destruct st as [k c [t|]]; simpl in *; [|done].
  destruct Ht as [-> ->]. done.
Qed.

Lemma normalize_outputs input :
  Forall normalizedStatus (NormalizeInfrastructureStatuses input) /\
  map Key (NormalizeInfrastructureStatuses input) = infrastructureKeyOrder.
Proof.
  pose proof (normalize_byKey_wf input ∅ ltac:(apply map_Forall_empty)) as Hwf.
  unfold NormalizeInfrastructureStatuses.
  set (m := fold_left normalizeStatus input ∅) in *.
  assert (Hk : forall k, k ∈ infrastructureKeyOrder ->
    let st := or_zero (MkInfra k false None) (m !! k) in
    Key st = k /\ normalizedStatus st).
  { intros k Hk. destruct (m !! k) as [st|] eqn:E; simpl.
    - destruct (Hwf k st E) as (Hkey & Hs & Ht). unfold normalizedStatus.
      rewrite Hkey. done.
    - split; [done|]. split; [|done]. by apply infrastructureStorageKey_known. }
  split.
  - apply Forall_map, Forall_forall. intros k Hin. by apply Hk.
  - rewrite map_map. rewrite <- (map_id infrastructureKeyOrder) at 2. apply map_ext_in.
    intros k Hin. apply (Hk k). by apply list_elem_of_In.
Qed.

Lemma fold_normalized l m :
  Forall normalizedStatus l ->
  fold_left normalizeStatus l m =
  fold_left (fun (m : gmap Z InfrastructureStatus) st => <[Key st := st]> m) l m.
Proof.
  revert m. induction l as [|st l IH]; intros m Hl; simpl; [done|].
  inversion_clear Hl. rewrite normalizeStatus_fixed by done. by apply IH.
Qed.

Lemma fold_insert_lookup l (m : gmap Z InfrastructureStatus) st :
  NoDup (map Key l) -> st ∈ l ->
  fold_left (fun (m : gmap Z InfrastructureStatus) st => <[Key st := st]> m) l m !! Key st
  = Some st.
Proof.
  revert m. induction l as [|s l IH] using rev_ind; intros m Hnd Hin; [set_solver|].
  rewrite map_app in Hnd. apply NoDup_app in Hnd as (Hnd & Hdis & _).
  rewrite fold_left_app. simpl.
  destruct (decide (Key st = Key s)) as [E|E].
  - apply elem_of_app in Hin as [Hin|Hin%list_elem_of_singleton].
    + exfalso. apply (Hdis (Key s)); [|set_solver]. rewrite <- E. by apply list_elem_of_fmap_2.
    + subst. by rewrite lookup_insert_eq.
  - rewrite lookup_insert_ne by done. apply IH; [done|].
    apply elem_of_app in Hin as [Hin|Hin%list_elem_of_singleton]; congruence.
Qed.

Lemma keyOrder_NoDup : NoDup infrastructureKeyOrder.
Proof. apply (bool_decide_unpack _). vm_compute. exact I. Qed.

(** ** Properties *)

(** NormalizeInfrastructureStatuses returns one status per known key, in
    the canonical order, with timestamps in UTC and never zero, and
    normalizing a second time changes nothing. *)
Theorem normalize_canonical_idempotent (input : list InfrastructureStatus) :
  let out := NormalizeInfrastructureStatuses input in
  map Key out = infrastructureKeyOrder /\
  Forall normalizedStatus out /\
  NormalizeInfrastructureStatuses out = out.
Proof.
  intros out. destruct (normalize_outputs input) as [Hn Hk]. split_and!; [done..|].
  unfold NormalizeInfrastructureStatuses at 1. rewrite fold_normalized by done.
  fold out in Hk, Hn. rewrite <- Hk at 1. rewrite map_map.
  transitivity (map (fun st => st) out); [|apply map_id]. apply map_ext_in. intros st Hin.
  rewrite fold_insert_lookup; [done| |by apply list_elem_of_In].
  rewrite Hk. exact keyOrder_NoDup.
Qed.

(** Settings updates are guarded: the store's update runs exactly for an
    authorized principal and settings within every bound, with the settings
    as given; otherwise the caller gets an error and the store is untouched,
    except that an authorized request with retention, schedule or threshold
    values out of bounds is recorded through the rejection audit, with the
    reason of the first group that is violated. *)
Theorem UpdateSettings_guarded {S} (store : ServiceStore S) p settings s :
  match authorizeSettings p, ValidateSettings settings with
  | Ok _, Ok _ =>
      UpdateSettings store p settings s = ss_UpdateSettings store p settings s
  | Ok _, Err _ =>
      (exists e, snd (UpdateSettings store p settings s) = Err e) /\
      fst (UpdateSettings store p settings s) =
        (if badRetention settings
         then fst (ss_AuditSettingsRejection store p "retention" s)
         else if badBackupSchedule settings
         then fst (ss_AuditSettingsRejection store p "backup_schedule" s)
         else if badThresholds settings
         then fst (ss_AuditSettingsRejection store p "threshold" s)
         else s)
  | Err _, _ => UpdateSettings store p settings s = (s, Err ErrForbidden)
  end.
Proof.
  unfold UpdateSettings, highRiskSettingsReason.
  destruct (authorizeSettings p) as [[]|e] eqn:Ha.
  - destruct (ValidateSettings settings) as [[]|e]; [done|].
    destruct (badRetention settings), (badBackupSchedule settings), (badThresholds settings);
      simpl; try (repeat case_match; simpl; eauto; fail); eauto.
  - unfold authorizeSettings in Ha. go_run. done.
Qed.

(** The rejection reason reported for invalid settings is complete:
    settings are valid exactly when no high-risk reason applies and the
    version and site texts are in bounds. *)
Theorem highRiskSettingsReason_complete settings :
  ValidateSettings settings = Ok tt <->
  highRiskSettingsReason settings = "" /\ badSiteText settings = false.
Proof.
  unfold ValidateSettings, highRiskSettingsReason.
  destruct (badSiteText settings), (badRetention settings), (badBackupSchedule settings),
    (badThresholds settings); simpl; split; intros; destruct_and?; done.
Qed.
