(* ===== verification/Samples.v ===== *)
(** * Operational samples ([internal/operations/sample.go])

    The closed catalogue of sample series, [ValidateSample], and the window
    and value rules.  Sources, metrics, scopes and units are Go string types
    and stay strings; the catalogue [sampleRules] is the map that
    [buildSampleRules] fills, insertion by insertion. *)

From S2P Require Import Prelude GoTime GoText GoFloat Pg OpsModel.
From stdpp Require Import base tactics list gmap strings.
From Stdlib Require Import ZArith Lia.

Open Scope Z_scope.

Definition MaxSampleFreshFor : Z := 24 * hour.
Definition maxSampleFutureSkew : Z := 2 * minute.
Definition maxSampleWindow : Z := 24 * hour.
Definition maxExactFloatInteger : float64 := of_Z (2 ^ 53 - 1).

Definition SampleSource := string.
Definition SampleSourceApp : SampleSource := "app".
Definition SampleSourcePostgres : SampleSource := "postgres".
Definition SampleSourceRedis : SampleSource := "redis".
Definition SampleSourceObjectStore : SampleSource := "object_store".
Definition SampleSourceWorker : SampleSource := "worker".
Definition SampleSourceHost : SampleSource := "host".

Definition SampleMetric := string.
Definition SampleMetricServiceUp : SampleMetric := "service_up".
Definition SampleMetricServiceReady : SampleMetric := "service_ready".
Definition SampleMetricServiceLatencyMilliseconds : SampleMetric := "service_latency_milliseconds".
Definition SampleMetricPostgresPoolInUse : SampleMetric := "postgres_pool_in_use".
Definition SampleMetricPostgresFailuresTotal : SampleMetric := "postgres_transaction_failures_total".
Definition SampleMetricPostgresMigrationVersion : SampleMetric := "postgres_migration_version".
Definition SampleMetricRedisLimiterUp : SampleMetric := "redis_limiter_up".
Definition SampleMetricObjectCapacityBytes : SampleMetric := "object_capacity_bytes".
Definition SampleMetricObjectUsedBytes : SampleMetric := "object_used_bytes".
Definition SampleMetricObjectFailuresTotal : SampleMetric := "object_operation_failures_total".
Definition SampleMetricQueueItems : SampleMetric := "queue_items".
Definition SampleMetricQueueFailuresTotal : SampleMetric := "queue_failures_total".
Definition SampleMetricBackupAgeSeconds : SampleMetric := "backup_age_seconds".
Definition SampleMetricBackupRemoteUp : SampleMetric := "backup_remote_up".
Definition SampleMetricRestoreAgeSeconds : SampleMetric := "restore_age_seconds".
Definition SampleMetricAIRuns : SampleMetric := "ai_runs".
Definition SampleMetricAIRequestsTotal : SampleMetric := "ai_requests_total".
Definition SampleMetricAILatencyMilliseconds : SampleMetric := "ai_latency_milliseconds".
Definition SampleMetricAITokensTotal : SampleMetric := "ai_tokens_total".
Definition SampleMetricAICostMicroUSD : SampleMetric := "ai_cost_micro_usd".
Definition SampleMetricSecurityEventsTotal : SampleMetric := "security_events_total".
Definition SampleMetricFilesystemUsedPercent : SampleMetric := "filesystem_used_percent".
Definition SampleMetricHostServiceCPUPercent : SampleMetric := "host_service_cpu_percent".
Definition SampleMetricHostServiceMemoryBytes : SampleMetric := "host_service_memory_bytes".
Definition SampleMetricHostServiceMemoryLimitBytes : SampleMetric := "host_service_memory_limit_bytes".
Definition SampleMetricHostServiceRestarts : SampleMetric := "host_service_restarts".

Definition SampleScope := string.
Definition SampleScopeApp : SampleScope := "app".
Definition SampleScopeCaddy : SampleScope := "caddy".
Definition SampleScopePostgres : SampleScope := "postgres".
Definition SampleScopeRedis : SampleScope := "redis".
Definition SampleScopeObjectStore : SampleScope := "object_store".
Definition SampleScopeWorker : SampleScope := "worker".
Definition SampleScopeProcessing : SampleScope := "processing".
Definition SampleScopeOutbox : SampleScope := "outbox".
Definition SampleScopeLocal : SampleScope := "local".
Definition SampleScopeRemote : SampleScope := "remote".
Definition SampleScopeRoot : SampleScope := "root".
Definition SampleScopeBackup : SampleScope := "backup".
Definition SampleScopeSucceeded : SampleScope := "succeeded".
Definition SampleScopeFailed : SampleScope := "failed".
Definition SampleScopeQueued : SampleScope := "queued".
Definition SampleScopeStreaming : SampleScope := "streaming".
Definition SampleScopeExpired : SampleScope := "expired".
Definition SampleScopeFirstByte : SampleScope := "first_byte".
Definition SampleScopeTotal : SampleScope := "total".
Definition SampleScopeInput : SampleScope := "input".
Definition SampleScopeOutput : SampleScope := "output".
Definition SampleScopeLoginFailure : SampleScope := "login_failure".
Definition SampleScopeAuthorizationDenial : SampleScope := "authorization_denial".
Definition SampleScopeFileAccessDenial : SampleScope := "file_access_denial".

Definition SampleUnit := string.
Definition SampleUnitBoolean : SampleUnit := "boolean".
Definition SampleUnitCount : SampleUnit := "count".
Definition SampleUnitMilliseconds : SampleUnit := "milliseconds".
Definition SampleUnitVersion : SampleUnit := "version".
Definition SampleUnitBytes : SampleUnit := "bytes".
Definition SampleUnitSeconds : SampleUnit := "seconds".
Definition SampleUnitPercent : SampleUnit := "percent".
Definition SampleUnitMicroUSD : SampleUnit := "micro_usd".

Record Sample := MkSample {
  Source : SampleSource;
  Metric : SampleMetric;
  Scope : SampleScope;
  Value : float64;
  Unit : SampleUnit;
  ObservedAt : Time;
  WindowStartedAt : option Time
}.

Inductive sampleWindowPolicy := sampleWindowForbidden | sampleWindowRequired.

(** [sampleSeries]: source, metric and scope. *)
Definition sampleSeries : Type := SampleSource * SampleMetric * SampleScope.

Definition seriesOf (s : Sample) : sampleSeries := (Source s, Metric s, Scope s).

Record sampleRule := MkSampleRule { unit_ : SampleUnit; windowPolicy : sampleWindowPolicy }.

(** The argument lists of the [add] calls of [buildSampleRules], in order. *)
Definition sampleRuleCalls : list (sampleSeries * sampleRule) :=
  let add source metric scope u p := (((source, metric, scope) : sampleSeries), MkSampleRule u p) in
  let F := sampleWindowForbidden in
  let R := sampleWindowRequired in
  [ add SampleSourceApp SampleMetricServiceUp SampleScopeApp SampleUnitBoolean F;
    add SampleSourceApp SampleMetricServiceReady SampleScopeApp SampleUnitBoolean F;
    add SampleSourcePostgres SampleMetricServiceUp SampleScopePostgres SampleUnitBoolean F;
    add SampleSourceRedis SampleMetricServiceUp SampleScopeRedis SampleUnitBoolean F;
    add SampleSourceObjectStore SampleMetricServiceUp SampleScopeObjectStore SampleUnitBoolean F;
    add SampleSourceWorker SampleMetricServiceUp SampleScopeWorker SampleUnitBoolean F ]
  ++ flat_map (fun scope =>
       [ add SampleSourceHost SampleMetricServiceUp scope SampleUnitBoolean F;
         add SampleSourceHost SampleMetricHostServiceCPUPercent scope SampleUnitPercent F;
         add SampleSourceHost SampleMetricHostServiceMemoryBytes scope SampleUnitBytes F;
         add SampleSourceHost SampleMetricHostServiceMemoryLimitBytes scope SampleUnitBytes F;
         add SampleSourceHost SampleMetricHostServiceRestarts scope SampleUnitCount F ])
       [SampleScopeApp; SampleScopeCaddy; SampleScopePostgres; SampleScopeRedis;
        SampleScopeObjectStore; SampleScopeWorker]
  ++ map (fun '(source, scope) =>
       add source SampleMetricServiceLatencyMilliseconds scope SampleUnitMilliseconds F)
       [(SampleSourcePostgres, SampleScopePostgres); (SampleSourceRedis, SampleScopeRedis);
        (SampleSourceObjectStore, SampleScopeObjectStore)]
  ++ [ add SampleSourcePostgres SampleMetricPostgresPoolInUse SampleScopePostgres SampleUnitCount F;
       add SampleSourcePostgres SampleMetricPostgresFailuresTotal SampleScopePostgres SampleUnitCount R;
       add SampleSourcePostgres SampleMetricPostgresMigrationVersion SampleScopePostgres SampleUnitVersion F;
       add SampleSourceRedis SampleMetricRedisLimiterUp SampleScopeRedis SampleUnitBoolean F;
       add SampleSourceObjectStore SampleMetricObjectCapacityBytes SampleScopeObjectStore SampleUnitBytes F;
       add SampleSourceObjectStore SampleMetricObjectUsedBytes SampleScopeObjectStore SampleUnitBytes F;
       add SampleSourceObjectStore SampleMetricObjectFailuresTotal SampleScopeObjectStore SampleUnitCount R ]
  ++ flat_map (fun scope =>
       [ add SampleSourceWorker SampleMetricQueueItems scope SampleUnitCount F;
         add SampleSourceWorker SampleMetricQueueFailuresTotal scope SampleUnitCount R ])
       [SampleScopeProcessing; SampleScopeOutbox]
  ++ map (fun scope => add SampleSourceApp SampleMetricBackupAgeSeconds scope SampleUnitSeconds F)
       [SampleScopeLocal; SampleScopeRemote]
  ++ [ add SampleSourceApp SampleMetricBackupRemoteUp SampleScopeRemote SampleUnitBoolean F;
       add SampleSourceApp SampleMetricRestoreAgeSeconds SampleScopeLocal SampleUnitSeconds F ]
  ++ map (fun scope => add SampleSourceApp SampleMetricAIRuns scope SampleUnitCount F)
       [SampleScopeQueued; SampleScopeStreaming; SampleScopeExpired]
  ++ map (fun scope => add SampleSourceApp SampleMetricAIRequestsTotal scope SampleUnitCount R)
       [SampleScopeSucceeded; SampleScopeFailed]
  ++ map (fun scope => add SampleSourceApp SampleMetricAILatencyMilliseconds scope SampleUnitMilliseconds R)
       [SampleScopeFirstByte; SampleScopeTotal]
  ++ map (fun scope => add SampleSourceApp SampleMetricAITokensTotal scope SampleUnitCount R)
       [SampleScopeInput; SampleScopeOutput]
  ++ [ add SampleSourceApp SampleMetricAICostMicroUSD SampleScopeTotal SampleUnitMicroUSD R ]
  ++ map (fun scope => add SampleSourceApp SampleMetricSecurityEventsTotal scope SampleUnitCount R)
       [SampleScopeLoginFailure; SampleScopeAuthorizationDenial; SampleScopeFileAccessDenial]
  ++ map (fun scope => add SampleSourceHost SampleMetricFilesystemUsedPercent scope SampleUnitPercent F)
       [SampleScopeRoot; SampleScopeBackup].

Definition buildSampleRules : gmap (string * string * string) sampleRule :=
  fold_left (fun rules '(key, rule) => <[key := rule]> rules) sampleRuleCalls ∅.

Definition sampleRuleFor (source : SampleSource) (metric : SampleMetric) (scope : SampleScope) :
  option sampleRule :=
  buildSampleRules !! (source, metric, scope).

Arguments buildSampleRules : simpl never.
Arguments sampleRuleFor : simpl never.
Arguments maxExactFloatInteger : simpl never.
Arguments of_Z : simpl never.

Definition validSampleTime (value : Time) : bool :=
  negb (IsZero value) && yearIn1To9999 value.

Definition validSampleValue (value : float64) (u : SampleUnit) : bool :=
  if IsNaN value || IsInf value || flt value (of_Z 0)
     || (feq value (of_Z 0) && Signbit value)
     || flt maxExactFloatInteger value
  then false
  else if bool_decide (u = SampleUnitBoolean) then feq value (of_Z 0) || feq value (of_Z 1)
  else if bool_decide (u = SampleUnitPercent) then fle value (of_Z 100)
  else if bool_decide (u = SampleUnitCount) || bool_decide (u = SampleUnitVersion)
          || bool_decide (u = SampleUnitBytes) || bool_decide (u = SampleUnitMicroUSD)
  then feq (Trunc value) value
  else bool_decide (u = SampleUnitMilliseconds) || bool_decide (u = SampleUnitSeconds).

(** The window rule of a series: forbidden, or required, valid, before the
    observation and at most a day long. *)
Definition validSampleWindow (policy : sampleWindowPolicy) (s : Sample) : bool :=
  match policy, WindowStartedAt s with
  | sampleWindowForbidden, None => true
  | sampleWindowForbidden, Some _ => false
  | sampleWindowRequired, None => false
  | sampleWindowRequired, Some w =>
      validSampleTime w && Before w (ObservedAt s)
      && (Sub (ObservedAt s) w <=? maxSampleWindow)
  end.

Definition ValidateSample (s : Sample) (now : Time) : result OpsError unit :=
  (reject negb (validSampleTime now) || negb (validSampleTime (ObservedAt s))
      || After (ObservedAt s) (addDuration now maxSampleFutureSkew) with ErrInvalid;
   match sampleRuleFor (Source s) (Metric s) (Scope s) with
   | None => Err ErrInvalid
   | Some rule =>
     reject negb (bool_decide (Unit s = unit_ rule))
       || negb (validSampleValue (Value s) (Unit s)) with ErrInvalid;
     reject negb (validSampleWindow (windowPolicy rule) s) with ErrInvalid;
     Ok tt
   end)%go.

Definition NormalizeHostServiceScope (service : string) : result OpsError SampleScope :=
  if bool_decide (service = "app") then Ok SampleScopeApp
  else if bool_decide (service = "caddy") then Ok SampleScopeCaddy
  else if bool_decide (service = "postgres") then Ok SampleScopePostgres
  else if bool_decide (service = "redis") then Ok SampleScopeRedis
  else if bool_decide (service = "minio") then Ok SampleScopeObjectStore
  else if bool_decide (service = "worker") then Ok SampleScopeWorker
  else Err ErrInvalid.

(** ** Lemmas *)
Lemma list_lookup_fmap_2 {A B} (f : A -> B) (l : list A) i x :
  l !! i = Some x -> map f l !! i = Some (f x).
Proof. intros H. change (map f l) with (f <$> l). by rewrite list_lookup_fmap, H. Qed.

Lemma fold_insert_rules_lookup (l : list (sampleSeries * sampleRule))
    (m : gmap (string * string * string) sampleRule) (k : sampleSeries) :
  NoDup (map fst l) ->
  fold_left (fun rules '(key, rule) => <[key := rule]> rules) l m !! k =
  match List.find (fun p => bool_decide (fst p = k)) l with
  | Some p => Some (snd p)
  | None => m !! k
  end.
Proof.
  revert m. induction l as [|[k' r] l IH]; intros m Hnd; simpl; [done|].
  apply NoDup_cons in Hnd as [Hni Hnd]. rewrite IH by done.
  destruct (decide (k' = k)) as [->|Hne].
  - rewrite bool_decide_eq_true_2 by done. simpl.
    destruct (List.find _ l) as [p|] eqn:E.
    + apply find_some in E as [Hin Hp]. bool_simpl. exfalso. apply Hni. simpl. rewrite <- Hp.
      apply list_elem_of_In. exact (in_map fst _ _ Hin).
    + by rewrite lookup_insert_eq.
  - rewrite bool_decide_eq_false_2 by done.
    destruct (List.find _ l); [done|]. by rewrite lookup_insert_ne.
Qed.

Lemma sampleRuleCalls_NoDup : NoDup (map fst sampleRuleCalls).
Proof. apply (bool_decide_unpack _). vm_compute. exact I. Qed.

Lemma ValidateSample_Ok s now :
  ValidateSample s now = Ok tt ->
  validSampleTime now = true /\ validSampleTime (ObservedAt s) = true /\
  ns (ObservedAt s) <= ns now + maxSampleFutureSkew /\
  exists rule, sampleRuleFor (Source s) (Metric s) (Scope s) = Some rule /\
    Unit s = unit_ rule /\ validSampleValue (Value s) (Unit s) = true /\
    validSampleWindow (windowPolicy rule) s = true.
Proof.
  unfold ValidateSample.
  destruct (_ || _ || _) eqn:G1; [discriminate|].
  generalize (sampleRuleFor (Source s) (Metric s) (Scope s)) as o.
  intros [rule|]; [|discriminate].
  destruct (_ || _) eqn:G2 in |- *; [discriminate|].
  destruct (negb _) eqn:G3 in |- *; [discriminate|]. intros _.
  bool_simpl. split_and!; [done|done| |eauto].
  match goal with H : After _ _ = false |- _ => apply After_false in H; exact H end.
Qed.

(** The values a validated sample can carry are finite, non-negative and at
    most 2^53 - 1. *)
Lemma validSampleValue_bounds v u :
  validSampleValue v u = true ->
  IsNaN v = false /\ IsInf v = false /\ flt v (of_Z 0) = false /\
  flt maxExactFloatInteger v = false.
Proof.
  unfold validSampleValue. destruct (IsNaN v), (IsInf v), (flt v (of_Z 0)); simpl; try done.
  destruct (flt maxExactFloatInteger v); [|done]. by rewrite orb_true_r.
Qed.

(** ** Properties *)

(** The sample catalogue is unambiguous: no two [add] calls of
    buildSampleRules write the same series, so a series has the unit and the
    window policy of the one call that names it, and every other series is
    unknown. *)
Theorem sampleRuleFor_exact (source metric scope : string) (rule : sampleRule) :
  sampleRuleFor source metric scope = Some rule <->
  ((source, metric, scope), rule) ∈ sampleRuleCalls.
Proof.
  unfold sampleRuleFor, buildSampleRules.
  rewrite fold_insert_rules_lookup by apply sampleRuleCalls_NoDup.
  destruct (List.find _ _) as [[k r]|] eqn:E.
  - apply find_some in E as [Hin Hk]. simpl in Hk. bool_simpl. subst k. simpl. split.
    + intros; simplify_eq. by apply list_elem_of_In.
    + intros Hin'. f_equal. apply list_elem_of_In in Hin.
      pose proof sampleRuleCalls_NoDup as Hnd.
      destruct (list_elem_of_lookup_1 _ _ Hin) as [i Hi].
      destruct (list_elem_of_lookup_1 _ _ Hin') as [j Hj].
      assert (i = j) as ->.
      { apply (NoDup_lookup _ i j (source, metric, scope) Hnd).
        - exact (list_lookup_fmap_2 fst _ _ _ Hi).
        - exact (list_lookup_fmap_2 fst _ _ _ Hj). }
      pose proof (eq_trans (eq_sym Hi) Hj) as Hr. injection Hr as Hr. exact Hr.
  - rewrite lookup_empty. split; [done|]. intros Hin%list_elem_of_In.
    eapply find_none in E; [|exact Hin]. simpl in E. bool_simpl. done.
Qed.

(** Host services are fully observable: a service name accepted by
    NormalizeHostServiceScope is mapped to a scope for which the catalogue has
    the up, CPU, memory, memory-limit and restart series of the host source,
    none of them windowed; distinct service names get distinct scopes. *)
Theorem NormalizeHostServiceScope_catalogued (service : string) (scope : SampleScope) :
  NormalizeHostServiceScope service = Ok scope ->
  Forall (fun '(metric, u) =>
            sampleRuleFor SampleSourceHost metric scope
            = Some (MkSampleRule u sampleWindowForbidden))
    [(SampleMetricServiceUp, SampleUnitBoolean);
     (SampleMetricHostServiceCPUPercent, SampleUnitPercent);
     (SampleMetricHostServiceMemoryBytes, SampleUnitBytes);
     (SampleMetricHostServiceMemoryLimitBytes, SampleUnitBytes);
     (SampleMetricHostServiceRestarts, SampleUnitCount)] /\
  forall service', NormalizeHostServiceScope service' = Ok scope -> service' = service.
Proof.
  unfold NormalizeHostServiceScope. intros H.
  repeat case_bool_decide; simplify_eq;
    (split; [repeat constructor; vm_compute; reflexivity|]);
    intros s' H'; repeat case_bool_decide; simplify_eq; done.
Qed.

Lemma NormalizeHostServiceScope_catalogued_witness :
  NormalizeHostServiceScope "minio" = Ok SampleScopeObjectStore /\
  forall service', NormalizeHostServiceScope service' = Ok SampleScopeObjectStore ->
    service' = "minio".
Proof.
  split; [reflexivity|].
  exact (proj2 (NormalizeHostServiceScope_catalogued "minio" SampleScopeObjectStore eq_refl)).
Defined.
