(* ===== verification/AlertRules.v ===== *)
(** * Alert rules and evaluations ([internal/operations/alerts.go])

    The alert data model, the default rule set derived from the settings, the
    construction of evaluations from a batch of samples, and the
    classification of an evaluation against its thresholds. *)

From S2P Require Import Prelude GoTime GoText GoFloat Pg OpsModel Samples.
From stdpp Require Import base tactics list gmap strings.
From Stdlib Require Import ZArith Lia.

Open Scope Z_scope.

Inductive Direction := DirectionAbove | DirectionBelow | OtherDirection (s : string).

Inductive RemoteReplicationState :=
| RemoteReplicationUnknown | RemoteReplicationDisabled | RemoteReplicationEnabled
| OtherReplication (n : Z).

Record Rule := MkRule {
  DedupeKey : string;
  Category : string;
  Summary : string;
  Warning : float64;
  Critical : float64;
  RuleDirection : Direction;
  MinimumSamples : Z
}.

Record Evaluation := MkEvaluation {
  EvalRule : Rule;
  EvalValue : float64;
  EvalObservedAt : Time;
  Available : bool;
  SampleCount : Z
}.

Inductive AlertSeverity :=
| AlertSeverityWarning | AlertSeverityCritical | OtherSeverity (s : string).

Inductive AlertState :=
| AlertStateOpen | AlertStateAcknowledged | AlertStateResolved | OtherAlertState (s : string).

Inductive AlertTransitionKind :=
| AlertTransitionNone | AlertTransitionOpened | AlertTransitionUpdated
| AlertTransitionUpgraded | AlertTransitionResolved | OtherTransition (s : string).

Inductive alertCondition :=
| alertConditionHealthy | alertConditionWarning | alertConditionCritical | alertConditionNeutral.

Global Instance Direction_eq_dec : EqDecision Direction.
Proof. solve_decision. Defined.
Global Instance AlertSeverity_eq_dec : EqDecision AlertSeverity.
Proof. solve_decision. Defined.
Global Instance AlertState_eq_dec : EqDecision AlertState.
Proof. solve_decision. Defined.
Global Instance AlertTransitionKind_eq_dec : EqDecision AlertTransitionKind.
Proof. solve_decision. Defined.
Global Instance alertCondition_eq_dec : EqDecision alertCondition.
Proof. solve_decision. Defined.
Global Instance RemoteReplicationState_eq_dec : EqDecision RemoteReplicationState.
Proof. solve_decision. Defined.

Definition AlertKeyBackupRemoteSync : string := "backup_remote_sync".
Definition alertDependencyUnavailableSuffix : string := "_dependency_unavailable".
Definition AlertKeyBackupRemoteSyncDependencyUnavailable : string :=
  (AlertKeyBackupRemoteSync +:+ alertDependencyUnavailableSuffix)%string.

(** The pattern [^[a-z][a-z0-9_]{0,127}$]. *)
Definition alertIdentifier (s : string) : bool :=
  matchHead isLower (fun b => isLower b || isDigit b || oneOf "_" b) 0 127 s.

Definition alertCategories : list string :=
  ["storage"; "backup"; "ai"; "processing"; "security"].

Definition alertDependencySummaries : list (string * string) :=
  [("filesystem_root_usage", "Root filesystem metrics are unavailable");
   ("filesystem_backup_usage", "Backup filesystem metrics are unavailable");
   ("backup_local_age", "Local backup status is unavailable");
   (AlertKeyBackupRemoteSync, "Remote backup status is unavailable");
   ("ai_error_rate", "AI request metrics are unavailable");
   ("processing_queue_depth", "Processing queue metrics are unavailable");
   ("processing_failures", "Processing failure metrics are unavailable");
   ("login_failures", "Login failure metrics are unavailable");
   ("authorization_denials", "Authorization denial metrics are unavailable")].

(** Lookup in a Go [map[string]V] literal. *)
Definition lookupString {V} (m : list (string * V)) (k : string) : option V :=
  snd <$> List.find (fun p => bool_decide (fst p = k)) m.

Definition validAlertFloat (value : float64) : bool := negb (IsNaN value) && negb (IsInf value).

Definition safeAlertSummary (summary : string) : bool :=
  ValidString summary && trimmed summary && negb (bool_decide (summary = ""))
  && (RuneCountInString summary <=? 240)
  && forallb (fun r => negb (IsControl r)) (runes summary).

Definition validateAlertRule (rule : Rule) : result OpsError unit :=
  (reject negb (alertIdentifier (DedupeKey rule)) || (128 <? len (DedupeKey rule))
      || negb (alertIdentifier (Category rule)) with ErrInvalid;
   reject negb (member alertCategories (Category rule)) with ErrInvalid;
   reject negb (safeAlertSummary (Summary rule)) || negb (validAlertFloat (Warning rule))
      || negb (validAlertFloat (Critical rule)) || (MinimumSamples rule <? 1) with ErrInvalid;
   match RuleDirection rule with
   | DirectionAbove => reject fle (Critical rule) (Warning rule) with ErrInvalid; Ok tt
   | DirectionBelow => reject fle (Warning rule) (Critical rule) with ErrInvalid; Ok tt
   | OtherDirection _ => Err ErrInvalid
   end)%go.

Definition validateAlertEvaluation (e : Evaluation) : result OpsError unit :=
  (let* _ := validateAlertRule (EvalRule e) in
   reject negb (validAlertFloat (EvalValue e)) || flt (EvalValue e) (of_Z 0)
      || negb (validSampleTime (EvalObservedAt e)) || (SampleCount e <? 0) with ErrInvalid;
   Ok tt)%go.

Definition classifyAlertEvaluation (e : Evaluation) : result OpsError alertCondition :=
  (let* _ := validateAlertEvaluation e in
   if negb (Available e) then Ok alertConditionNeutral
   else if SampleCount e <? MinimumSamples (EvalRule e) then Ok alertConditionNeutral
   else match RuleDirection (EvalRule e) with
        | DirectionAbove =>
            if fle (Critical (EvalRule e)) (EvalValue e) then Ok alertConditionCritical
            else if fle (Warning (EvalRule e)) (EvalValue e) then Ok alertConditionWarning
            else Ok alertConditionHealthy
        | DirectionBelow =>
            if flt (EvalValue e) (Critical (EvalRule e)) then Ok alertConditionCritical
            else if flt (EvalValue e) (Warning (EvalRule e)) then Ok alertConditionWarning
            else Ok alertConditionHealthy
        | OtherDirection _ => Err ErrInvalid
        end)%go.

(** ** The default rules *)
Fixpoint validateAll (rules : list Rule) : result OpsError unit :=
  match rules with
  | [] => Ok tt
  | rule :: rest => (let* _ := validateAlertRule rule in validateAll rest)%go
  end.

(** [float64(h) * 60 * 60]. *)
Definition hoursAsSeconds (h : Z) : float64 := fmul (fmul (of_Z h) (of_Z 60)) (of_Z 60).

Definition defaultRules (s : Settings) : list Rule :=
  [ MkRule "filesystem_root_usage" "storage" "Root filesystem usage is high"
      (of_Z (DiskWarningPercent s)) (of_Z (DiskCriticalPercent s)) DirectionAbove 1;
    MkRule "filesystem_backup_usage" "storage" "Backup filesystem usage is high"
      (of_Z (BackupFilesystemWarningPercent s)) (of_Z (BackupFilesystemCriticalPercent s))
      DirectionAbove 1;
    MkRule "backup_local_age" "backup" "Verified local backup is overdue"
      (hoursAsSeconds (LocalBackupAgeWarningHours s))
      (hoursAsSeconds (LocalBackupAgeCriticalHours s)) DirectionAbove 1;
    MkRule AlertKeyBackupRemoteSync "backup" "Remote backup replication is unavailable"
      (of_Z 1) (of_Z (-1)) DirectionBelow 1;
    MkRule "ai_error_rate" "ai" "AI error rate is high"
      (of_Z (AIErrorWarningPercent s)) (of_Z (AIErrorCriticalPercent s)) DirectionAbove 20;
    MkRule "processing_queue_depth" "processing" "Processing queue depth is high"
      (of_Z (ProcessingQueueWarning s)) (of_Z (ProcessingQueueCritical s)) DirectionAbove 1;
    MkRule "processing_failures" "processing" "Processing failures are high"
      (of_Z (ProcessingFailureWarningCount s)) (of_Z (ProcessingFailureCriticalCount s))
      DirectionAbove 1;
    MkRule "login_failures" "security" "Login failures are high"
      (of_Z (LoginFailureWarningCount s)) (of_Z (LoginFailureCriticalCount s)) DirectionAbove 1;
    MkRule "authorization_denials" "security" "Authorization denials are high"
      (of_Z (AuthorizationDenialWarningCount s)) (of_Z (AuthorizationDenialCriticalCount s))
      DirectionAbove 1 ].

Definition DefaultAlertRules (s : Settings) : result OpsError (list Rule) :=
  (let* _ := ValidateSettings s in
   let* _ := validateAll (defaultRules s) in
   Ok (defaultRules s))%go.

(** ** Evaluations from samples *)
Definition DashboardSampleFreshFor : Z := 2 * minute.

Notation SampleIndex := (gmap (string * string * string) Sample).

Definition alertSampleHasExactWindow (s : Sample) (duration : Z) : bool :=
  match WindowStartedAt s with
  | None => false
  | Some w => Sub (ObservedAt s) w =? duration
  end.

Definition alertSampleFresh (s : Sample) (now : Time) : bool :=
  negb (Before (ObservedAt s) (addDuration now (- DashboardSampleFreshFor))).

Definition alertSeriesForRule (dedupeKey : string) : option sampleSeries :=
  lookupString
    [("filesystem_root_usage",
      (SampleSourceHost, SampleMetricFilesystemUsedPercent, SampleScopeRoot));
     ("filesystem_backup_usage",
      (SampleSourceHost, SampleMetricFilesystemUsedPercent, SampleScopeBackup));
     ("backup_local_age",
      (SampleSourceApp, SampleMetricBackupAgeSeconds, SampleScopeLocal));
     (AlertKeyBackupRemoteSync,
      (SampleSourceApp, SampleMetricBackupRemoteUp, SampleScopeRemote));
     ("processing_queue_depth",
      (SampleSourceWorker, SampleMetricQueueItems, SampleScopeProcessing));
     ("processing_failures",
      (SampleSourceWorker, SampleMetricQueueFailuresTotal, SampleScopeProcessing));
     ("login_failures",
      (SampleSourceApp, SampleMetricSecurityEventsTotal, SampleScopeLoginFailure));
     ("authorization_denials",
      (SampleSourceApp, SampleMetricSecurityEventsTotal, SampleScopeAuthorizationDenial))]
    dedupeKey.

Definition unavailable (rule : Rule) (now : Time) : Evaluation :=
  MkEvaluation rule (of_Z 0) now false 0.

Definition aiErrorRateEvaluation (rule : Rule) (samples : SampleIndex) (now : Time) :
  result OpsError Evaluation :=
  match samples !! (SampleSourceApp, SampleMetricAIRequestsTotal, SampleScopeSucceeded),
        samples !! (SampleSourceApp, SampleMetricAIRequestsTotal, SampleScopeFailed) with
  | Some succeeded, Some failed =>
    if negb (alertSampleFresh succeeded now) || negb (alertSampleFresh failed now)
    then Ok (unavailable rule now)
    else
      match WindowStartedAt succeeded, WindowStartedAt failed with
      | Some ws, Some wf =>
        (reject negb (Equal (ObservedAt succeeded) (ObservedAt failed))
            || negb (Equal ws wf)
            || negb (alertSampleHasExactWindow succeeded (15 * minute))
            || negb (alertSampleHasExactWindow failed (15 * minute)) with ErrInvalid;
         let total := fadd (Value succeeded) (Value failed) in
         reject negb (validAlertFloat total) || flt total (of_Z 0)
            || flt maxExactFloatInteger total || negb (feq (Trunc total) total) with ErrInvalid;
         let observedAt := if After (ObservedAt failed) (UTC (ObservedAt succeeded))
                           then UTC (ObservedAt failed) else UTC (ObservedAt succeeded) in
         let value := if flt (of_Z 0) total
                      then fmul (fdiv (Value failed) total) (of_Z 100) else of_Z 0 in
         reject negb (validAlertFloat value) with ErrInvalid;
         Ok (MkEvaluation rule value observedAt true (to_Z total)))%go
      | _, _ => Err ErrInvalid
      end
  | _, _ => Ok (unavailable rule now)
  end.

Definition alertEvaluationForRule (rule : Rule) (samples : SampleIndex) (now : Time) :
  result OpsError Evaluation :=
  if bool_decide (DedupeKey rule = "ai_error_rate") then aiErrorRateEvaluation rule samples now
  else match alertSeriesForRule (DedupeKey rule) with
       | None => Err ErrInvalid
       | Some series =>
         match samples !! series with
         | None => Ok (unavailable rule now)
         | Some sample =>
           if negb (alertSampleFresh sample now) then Ok (unavailable rule now)
           else
             (reject member ["processing_failures"; "login_failures"; "authorization_denials"]
                 (DedupeKey rule)
                 && negb (alertSampleHasExactWindow sample (15 * minute)) with ErrInvalid;
              Ok (MkEvaluation rule (Value sample) (UTC (ObservedAt sample)) true 1))%go
         end
       end.

Definition alertDependencyEvaluation (e : Evaluation) (now : Time) : result OpsError Evaluation :=
  match lookupString alertDependencySummaries (DedupeKey (EvalRule e)) with
  | None => Err ErrInvalid
  | Some summary =>
    let rule := MkRule (DedupeKey (EvalRule e) +:+ alertDependencyUnavailableSuffix)%string
                  (Category (EvalRule e)) summary (of_Z 1) (of_Z 2) DirectionAbove 1 in
    (let* _ := validateAlertRule rule in
     Ok (MkEvaluation rule (if Available e then of_Z 0 else of_Z 1) (UTC now) true 1))%go
  end.

Definition validRemoteReplicationState (state : RemoteReplicationState) : bool :=
  match state with OtherReplication _ => false | _ => true end.

(** The sample loop: every sample is validated and series are distinct. *)
Fixpoint indexSamples (samples : list Sample) (now : Time) (indexed : SampleIndex) :
  result OpsError SampleIndex :=
  match samples with
  | [] => Ok indexed
  | sample :: rest =>
    (let* _ := ValidateSample sample now in
     reject bool_decide (is_Some (indexed !! seriesOf sample)) with ErrInvalid;
     indexSamples rest now (<[seriesOf sample := sample]> indexed))%go
  end.

(** One iteration of the rule loop: the evaluations it appends. *)
Definition evaluationsForRule (rule : Rule) (indexed : SampleIndex) (now : Time)
    (state : RemoteReplicationState) : result OpsError (list Evaluation) :=
  (let* _ := validateAlertRule rule in
   if bool_decide (DedupeKey rule = AlertKeyBackupRemoteSync)
      && bool_decide (state = RemoteReplicationUnknown)
   then Ok [unavailable rule now]
   else if bool_decide (DedupeKey rule = AlertKeyBackupRemoteSync)
      && bool_decide (state = RemoteReplicationDisabled)
   then let evaluation := MkEvaluation rule (of_Z 1) now true 1 in
        let* dependency := alertDependencyEvaluation evaluation now in
        Ok [evaluation; dependency]
   else let* evaluation := alertEvaluationForRule rule indexed now in
        let* dependency := alertDependencyEvaluation evaluation now in
        Ok [evaluation; dependency])%go.

Fixpoint evaluateRules (rules : list Rule) (indexed : SampleIndex) (now : Time)
    (state : RemoteReplicationState) : result OpsError (list Evaluation) :=
  match rules with
  | [] => Ok []
  | rule :: rest =>
    (let* evaluations := evaluationsForRule rule indexed now state in
     let* others := evaluateRules rest indexed now state in
     Ok (evaluations ++ others))%go
  end.

Definition BuildAlertEvaluations (rules : list Rule) (samples : list Sample) (now : Time)
    (state : RemoteReplicationState) : result OpsError (list Evaluation) :=
  (reject negb (validSampleTime now) || (List.length rules =? 0)%nat
      || negb (validRemoteReplicationState state) with ErrInvalid;
   let now' := UTC now in
   let* indexed := indexSamples samples now' ∅ in
   evaluateRules rules indexed now' state)%go.

(** ** Lemmas: thresholds *)
Arguments fle : simpl never.
Arguments flt : simpl never.
Arguments feq : simpl never.
Arguments fmul : simpl never.
Arguments fdiv : simpl never.
Arguments fadd : simpl never.
Arguments hoursAsSeconds : simpl never.
Arguments alertIdentifier : simpl never.
Arguments safeAlertSummary : simpl never.
Arguments Trunc : simpl never.
Arguments minute : simpl never.

Lemma validAlertFloat_not_NaN v : validAlertFloat v = true -> IsNaN v = false.
Proof. unfold validAlertFloat. intros; bool_simpl; done. Qed.

Lemma of_Z_valid z : 0 <= z < 2 ^ 53 -> validAlertFloat (of_Z z) = true.
Proof. intros Hz. destruct (of_Z_finite z Hz) as [H1 H2]. unfold validAlertFloat. by rewrite H1, H2. Qed.

Lemma of_Z_not_le w c : 0 <= w < c -> c < 2 ^ 53 -> fle (of_Z c) (of_Z w) = false.
Proof.
  intros. pose proof (of_Z_ltb w c ltac:(lia) ltac:(lia) ltac:(lia)) as Hlt.
  rewrite flt_fle_negb in Hlt by (apply validAlertFloat_not_NaN, of_Z_valid; lia).
  by apply negb_true_iff.
Qed.

Lemma hoursAsSeconds_exact h : 1 <= h <= 2147483647 -> hoursAsSeconds h = of_Z (h * 3600).
Proof.
  intros. unfold hoursAsSeconds. rewrite fmul_of_Z by lia. rewrite fmul_of_Z by lia.
  f_equal. lia.
Qed.

(** What a rule literal needs besides its thresholds. *)
Definition ruleTextOk (key category summary : string) : bool :=
  alertIdentifier key && (len key <=? 128) && alertIdentifier category
  && member alertCategories category && safeAlertSummary summary.

Lemma validateAlertRule_above key category summary w c n :
  ruleTextOk key category summary = true ->
  validAlertFloat w = true -> validAlertFloat c = true -> fle c w = false -> 1 <= n ->
  validateAlertRule (MkRule key category summary w c DirectionAbove n) = Ok tt.
Proof.
  intros Ht Hw Hc Hle Hn. unfold ruleTextOk in Ht. bool_simpl. unfold validateAlertRule; simpl.
  repeat match goal with H : _ = true |- _ => rewrite H; clear H end.
  rewrite Hle. simpl.
  replace (128 <? len key) with false by (symmetry; apply Z.ltb_ge; lia).
  replace (n <? 1) with false by (symmetry; apply Z.ltb_ge; lia). done.
Qed.

Lemma validateAlertRule_Ok rule :
  validateAlertRule rule = Ok tt ->
  ruleTextOk (DedupeKey rule) (Category rule) (Summary rule) = true /\
  validAlertFloat (Warning rule) = true /\ validAlertFloat (Critical rule) = true /\
  1 <= MinimumSamples rule /\
  ((RuleDirection rule = DirectionAbove /\ flt (Warning rule) (Critical rule) = true) \/
   (RuleDirection rule = DirectionBelow /\ flt (Critical rule) (Warning rule) = true)).
Proof.
  unfold validateAlertRule, ruleTextOk. intros H.
  destruct (_ || _ || _) eqn:G1 in H; [done|].
  destruct (negb (member _ _)) eqn:G2 in H; [done|].
  destruct (_ || _ || _ || _) eqn:G3 in H; [done|]. bool_simpl.
  assert (Hw : validAlertFloat (Warning rule) = true) by done.
  assert (Hc : validAlertFloat (Critical rule) = true) by done.
  repeat match goal with H : ?x = true |- context [?x] => rewrite H end.
  replace (len (DedupeKey rule) <=? 128) with true by (symmetry; apply Z.leb_le; lia).
  split_and!; try done.
  destruct (RuleDirection rule); [left|right|done];
    (split; [done|]); destruct (fle _ _) eqn:G4 in H; try done;
    (rewrite flt_fle_negb; [by rewrite G4| |]); by apply validAlertFloat_not_NaN.
Qed.

Lemma count_rule_ok key category summary w c n :
  ruleTextOk key category summary = true -> 1 <= w < c -> c < 2 ^ 53 -> 1 <= n ->
  validateAlertRule (MkRule key category summary (of_Z w) (of_Z c) DirectionAbove n) = Ok tt.
Proof.
  intros Ht Hw Hc Hn. apply validateAlertRule_above; [done| | | |lia].
  - apply of_Z_valid; lia.
  - apply of_Z_valid; lia.
  - apply of_Z_not_le; lia.
Qed.

Lemma badThresholds_spec s :
  badThresholds s = false ->
  (1 <= DiskWarningPercent s < DiskCriticalPercent s /\ DiskCriticalPercent s <= 100) /\
  (1 <= BackupFilesystemWarningPercent s < BackupFilesystemCriticalPercent s /\
     BackupFilesystemCriticalPercent s <= 100) /\
  (1 <= LocalBackupAgeWarningHours s < LocalBackupAgeCriticalHours s /\
     LocalBackupAgeCriticalHours s <= 2147483647) /\
  (1 <= AIErrorWarningPercent s < AIErrorCriticalPercent s /\ AIErrorCriticalPercent s <= 100) /\
  (1 <= ProcessingQueueWarning s < ProcessingQueueCritical s /\
     ProcessingQueueCritical s <= 2147483647) /\
  (1 <= ProcessingFailureWarningCount s < ProcessingFailureCriticalCount s /\
     ProcessingFailureCriticalCount s <= 2147483647) /\
  (1 <= LoginFailureWarningCount s < LoginFailureCriticalCount s /\
     LoginFailureCriticalCount s <= 2147483647) /\
  (1 <= AuthorizationDenialWarningCount s < AuthorizationDenialCriticalCount s /\
     AuthorizationDenialCriticalCount s <= 2147483647).
Proof.
  unfold badThresholds. intros H. bool_simpl.
  repeat match goal with
  | H : validPercentThresholdPair _ _ = true |- _ => apply validPercentThresholdPair_spec in H
  | H : validCountThresholdPair _ _ = true |- _ => apply validCountThresholdPair_spec in H
  end.
  split_and!; lia.
Qed.

Lemma validateAll_Forall rules :
  Forall (fun r => validateAlertRule r = Ok tt) rules -> validateAll rules = Ok tt.
Proof. induction 1 as [|r l Hr _ IH]; simpl; [done|]. by rewrite Hr. Qed.

Lemma defaultRules_valid s :
  badThresholds s = false -> Forall (fun r => validateAlertRule r = Ok tt) (defaultRules s).
Proof.
  intros Hb%badThresholds_spec. destruct_and!. unfold defaultRules.
  rewrite !hoursAsSeconds_exact by lia.
  rewrite !Forall_cons, Forall_nil.
  split_and!; try (apply count_rule_ok; [vm_compute; reflexivity|lia..]); [|done].
  vm_compute. reflexivity.
Qed.

(** ** Lemmas: classification *)
Definition severityRank (c : alertCondition) : Z :=
  match c with
  | alertConditionCritical => 2
  | alertConditionWarning => 1
  | _ => 0
  end.

Lemma validateAlertEvaluation_Ok e :
  validateAlertEvaluation e = Ok tt ->
  validateAlertRule (EvalRule e) = Ok tt /\ validAlertFloat (EvalValue e) = true /\
  flt (EvalValue e) (of_Z 0) = false /\ validSampleTime (EvalObservedAt e) = true /\
  0 <= SampleCount e.
Proof.
  unfold validateAlertEvaluation. intros H.
  destruct (validateAlertRule (EvalRule e)) as [[]|]; [|done].
  destruct (_ || _ || _ || _) eqn:G in H; [done|]. bool_simpl. done.
Qed.

Lemma classify_Ok e c :
  classifyAlertEvaluation e = Ok c -> validateAlertEvaluation e = Ok tt.
Proof.
  unfold classifyAlertEvaluation.
  destruct (validateAlertEvaluation e) as [[]|]; [done|discriminate].
Qed.

Lemma flt_not_fle a b :
  validAlertFloat a = true -> validAlertFloat b = true -> fle a b = false <-> flt b a = true.
Proof.
  intros Ha Hb. rewrite flt_fle_negb by (by apply validAlertFloat_not_NaN).
  by rewrite negb_true_iff.
Qed.

(** The condition of an evaluation, as intervals of its value. *)
Definition conditionSpec (e : Evaluation) : alertCondition :=
  let r := EvalRule e in
  if negb (Available e) || (SampleCount e <? MinimumSamples r) then alertConditionNeutral
  else match RuleDirection r with
       | DirectionBelow =>
           if flt (EvalValue e) (Critical r) then alertConditionCritical
           else if flt (EvalValue e) (Warning r) then alertConditionWarning
           else alertConditionHealthy
       | _ =>
           if flt (EvalValue e) (Warning r) then alertConditionHealthy
           else if flt (EvalValue e) (Critical r) then alertConditionWarning
           else alertConditionCritical
       end.

Lemma classify_valid e :
  validateAlertEvaluation e = Ok tt -> classifyAlertEvaluation e = Ok (conditionSpec e).
Proof.
  intros Hv. pose proof (validateAlertEvaluation_Ok e Hv) as (Hr & Hval & _).
  apply validateAlertRule_Ok in Hr as (_ & Hw & Hc & _ & Hdir).
  unfold classifyAlertEvaluation, conditionSpec. rewrite Hv.
  destruct (Available e); [|done]. simpl. destruct (_ <? _); [done|].
  destruct Hdir as [[-> Hlt]|[-> Hlt]]; [|by repeat case_match].
  destruct (flt (EvalValue e) (Warning (EvalRule e))) eqn:E1.
  - assert (flt (EvalValue e) (Critical (EvalRule e)) = true) as E2
      by (eapply flt_trans; eassumption).
    apply flt_not_fle in E1, E2; try done. by rewrite E1, E2.
  - assert (fle (Warning (EvalRule e)) (EvalValue e) = true) as ->.
    { destruct (fle _ _) eqn:F; [done|]. apply flt_not_fle in F; try done. congruence. }
    destruct (flt (EvalValue e) (Critical (EvalRule e))) eqn:E2.
    + apply flt_not_fle in E2; try done. by rewrite E2.
    + destruct (fle _ _) eqn:F; [done|]. apply flt_not_fle in F; try done. congruence.
Qed.

(** ** Lemmas: evaluations from samples *)
Definition neg (x : float64) : bool :=
  match x with
  | SpecFloat.S754_finite true _ _ | SpecFloat.S754_infinity true => true
  | _ => false
  end.

Lemma flt_zero x : flt x (of_Z 0) = neg x.
Proof. by destruct x as [[]|[]| |[]]. Qed.

Lemma round_aux_neg m e l : neg (SpecFloat.binary_round_aux prec emax false m e l) = false.
Proof.
  unfold SpecFloat.binary_round_aux. repeat case_match; done.
Qed.

Lemma fmul_nonneg x y : neg x = false -> neg y = false -> neg (fmul x y) = false.
Proof.
  unfold fmul, SpecFloat.SFmul.
  destruct x as [[]|[]| |[]], y as [[]|[]| |[]]; simpl; try done; intros; apply round_aux_neg.
Qed.

Lemma fdiv_nonneg x y : neg x = false -> flt (of_Z 0) y = true -> neg (fdiv x y) = false.
Proof.
  unfold fdiv, SpecFloat.SFdiv.
  destruct x as [[]|[]| |[]], y as [[]|[]| |[]]; try done; intros _ _; simpl;
    repeat case_match; try done; apply round_aux_neg.
Qed.

Lemma to_Z_nonneg x : neg x = false -> 0 <= to_Z x.
Proof.
  destruct x as [| | |[] m e]; simpl; try done; intros _.
  destruct (0 <=? e) eqn:He; bool_simpl; simpl.
  - apply Z.mul_nonneg_nonneg; [lia|]. apply Z.pow_nonneg; lia.
  - apply Z.div_pos; [lia|]. apply Z.pow_pos_nonneg; lia.
Qed.

(** What the evaluation code may assume of an indexed sample. *)
Definition usableSample (now : Time) (s : Sample) : Prop :=
  ValidateSample s now = Ok tt /\ UTC (ObservedAt s) = ObservedAt s.

Lemma usableSample_value now s :
  usableSample now s -> validAlertFloat (Value s) = true /\ neg (Value s) = false /\
    validSampleTime (UTC (ObservedAt s)) = true.
Proof.
  intros [Hv Hutc]. apply ValidateSample_Ok in Hv as (_ & Hobs & _ & rule & _ & _ & Hval & _).
  apply validSampleValue_bounds in Hval as (Hn & Hi & Hlt & _).
  rewrite flt_zero in Hlt. unfold validAlertFloat. rewrite Hn, Hi, Hutc. done.
Qed.

Lemma mkValid rule v t av n :
  validateAlertRule rule = Ok tt -> validAlertFloat v = true -> neg v = false ->
  validSampleTime t = true -> 0 <= n ->
  validateAlertEvaluation (MkEvaluation rule v t av n) = Ok tt.
Proof.
  intros Hr Hv Hn Ht Hc. unfold validateAlertEvaluation. simpl.
  rewrite Hr, Hv, Ht, flt_zero, Hn.
  replace (n <? 0) with false by (symmetry; apply Z.ltb_ge; lia). done.
Qed.

Lemma unavailable_valid rule now :
  validateAlertRule rule = Ok tt -> validSampleTime now = true ->
  validateAlertEvaluation (unavailable rule now) = Ok tt.
Proof. intros. by apply mkValid. Qed.

Section IndexedSamples.
Context (now : Time) (indexed : SampleIndex).
Hypothesis Hnow : validSampleTime now = true.
Hypothesis Hindex : forall k s, indexed !! k = Some s -> usableSample now s.

Lemma aiErrorRate_valid rule e :
  validateAlertRule rule = Ok tt -> aiErrorRateEvaluation rule indexed now = Ok e ->
  EvalRule e = rule /\ validateAlertEvaluation e = Ok tt.
Proof using Hnow Hindex.
  intros Hr. unfold aiErrorRateEvaluation.
  destruct (indexed !! _) as [su|] eqn:Hs;
    [|intros; simplify_eq; split; [done|by apply unavailable_valid]].
  destruct (indexed !! (SampleSourceApp, SampleMetricAIRequestsTotal, SampleScopeFailed))
    as [fa|] eqn:Hf; [|intros; simplify_eq; split; [done|by apply unavailable_valid]].
  destruct (_ || _) in |- *; [intros; simplify_eq; split; [done|by apply unavailable_valid]|].
  destruct (WindowStartedAt su); [|done]. destruct (WindowStartedAt fa); [|done].
  destruct (_ || _ || _ || _) in |- *; [done|].
  set (total := fadd (Value su) (Value fa)).
  destruct (_ || _ || _ || _) eqn:G in |- *; [done|].
  destruct (negb (validAlertFloat _)) eqn:G2 in |- *; [done|]. intros; simplify_eq. bool_simpl.
  apply Hindex, usableSample_value in Hs as (_ & _ & Hst).
  apply Hindex, usableSample_value in Hf as (_ & Hfn & Hft).
  split; [done|]. apply mkValid; try done.
  - destruct (flt (of_Z 0) total) eqn:Ht; [|done].
    apply fmul_nonneg; [by apply fdiv_nonneg|done].
  - by destruct (After _ _).
  - apply to_Z_nonneg. by rewrite <- flt_zero.
Qed.

Lemma evaluationForRule_valid rule e :
  validateAlertRule rule = Ok tt -> alertEvaluationForRule rule indexed now = Ok e ->
  EvalRule e = rule /\ validateAlertEvaluation e = Ok tt.
Proof using Hnow Hindex.
  intros Hr. unfold alertEvaluationForRule.
  destruct (bool_decide _); [by apply aiErrorRate_valid|].
  destruct (alertSeriesForRule _) as [series|]; [|done].
  destruct (indexed !! series) as [s|] eqn:Hs;
    [|intros; simplify_eq; split; [done|by apply unavailable_valid]].
  destruct (negb _) in |- *; [intros; simplify_eq; split; [done|by apply unavailable_valid]|].
  destruct (_ && _) in |- *; [done|]. intros; simplify_eq.
  apply Hindex, usableSample_value in Hs as (Hv & Hn & Ht).
  split; [done|]. by apply mkValid.
Qed.

(** The dependency evaluation that follows an evaluation: same category,
    suffixed key, and value 1 exactly when the evaluation is unavailable. *)
Definition isDependencyOf (e d : Evaluation) : Prop :=
  DedupeKey (EvalRule d) = (DedupeKey (EvalRule e) +:+ alertDependencyUnavailableSuffix)%string /\
  Category (EvalRule d) = Category (EvalRule e) /\
  Available d = true /\ EvalValue d = (if Available e then of_Z 0 else of_Z 1) /\
  conditionSpec d = (if Available e then alertConditionHealthy else alertConditionWarning).

Lemma dependency_valid e d :
  UTC now = now -> alertDependencyEvaluation e now = Ok d ->
  isDependencyOf e d /\ validateAlertEvaluation d = Ok tt.
Proof using Hnow.
  intros Hutc. unfold alertDependencyEvaluation.
  destruct (lookupString _ _) as [summary|]; [|done].
  destruct (validateAlertRule _) as [[]|] eqn:Hr; [|done]. intros; simplify_eq.
  split; [|by apply mkValid; [done|destruct (Available e)..|rewrite Hutc|]].
  unfold isDependencyOf. simpl. split_and!; try done. by destruct (Available e).
Qed.

Lemma evaluationsForRule_valid rule state evs :
  UTC now = now ->
  evaluationsForRule rule indexed now state = Ok evs ->
  validateAlertRule rule = Ok tt /\
  exists e, EvalRule e = rule /\ validateAlertEvaluation e = Ok tt /\
    ((evs = [e] /\ DedupeKey rule = AlertKeyBackupRemoteSync /\ Available e = false /\
      state = RemoteReplicationUnknown) \/
     (exists d, evs = [e; d] /\ isDependencyOf e d /\ validateAlertEvaluation d = Ok tt)).
Proof using Hnow Hindex.
  intros Hutc. unfold evaluationsForRule.
  destruct (validateAlertRule rule) as [[]|] eqn:Hr; [|done].
  destruct (bool_decide (DedupeKey rule = _) && bool_decide (state = RemoteReplicationUnknown))
    eqn:G1.
  { intros; simplify_eq. bool_simpl. split; [done|]. exists (unavailable rule now).
    split_and!; [done|by apply unavailable_valid|]. left. done. }
  destruct (_ && _) in |- *.
  - destruct (alertDependencyEvaluation _ _) as [d|] eqn:Hd; [|done]. intros; simplify_eq.
    apply dependency_valid in Hd as [Hd Hdv]; [|done]. split; [done|].
    eexists; split_and!; [| |right; eauto]; [done|]. by apply mkValid.
  - destruct (alertEvaluationForRule _ _ _) as [e|] eqn:He; [|done].
    destruct (alertDependencyEvaluation _ _) as [d|] eqn:Hd; [|done]. intros; simplify_eq.
    apply dependency_valid in Hd as [Hd Hdv]; [|done].
    apply evaluationForRule_valid in He as [He Hev]; [|done].
    split; [done|]. exists e. split_and!; [done..|]. right. eauto.
Qed.

End IndexedSamples.

Lemma indexSamples_Ok samples now m m' :
  indexSamples samples now m = Ok m' ->
  forall k s, m' !! k = Some s ->
    m !! k = Some s \/ (s ∈ samples /\ seriesOf s = k /\ ValidateSample s now = Ok tt).
Proof.
  revert m. induction samples as [|x l IH]; intros m; simpl; [intros; simplify_eq; auto|].
  destruct (ValidateSample x now) as [[]|] eqn:Hx; [|done].
  case_bool_decide; [done|]. intros Hrun k s Hs.
  destruct (IH _ Hrun k s Hs) as [Hk|(Hin & ? & ?)]; [|right; split_and!; [set_solver|done..]].
  destruct (decide (seriesOf x = k)) as [<-|Hne].
  - rewrite lookup_insert_eq in Hk. simplify_eq. right. split_and!; [set_solver|done..].
  - rewrite lookup_insert_ne in Hk by done. auto.
Qed.

Lemma evaluateRules_Ok rules indexed now state evs :
  evaluateRules rules indexed now state = Ok evs ->
  exists chunks, evs = concat chunks /\
    Forall2 (fun rule chunk => evaluationsForRule rule indexed now state = Ok chunk) rules chunks.
Proof.
  revert evs. induction rules as [|r l IH]; intros evs; simpl.
  - intros; simplify_eq. exists []. done.
  - destruct (evaluationsForRule _ _ _ _) as [c|] eqn:Hc; [|done].
    destruct (evaluateRules l _ _ _) as [others|]; [|done]. intros; simplify_eq.
    destruct (IH _ eq_refl) as (chunks & -> & Hall). exists (c :: chunks).
    split; [done|]. by constructor.
Qed.

(** The chunk of evaluations a rule contributes, with what the alert store
    relies on: each one passes validation. *)
Definition ruleChunk (state : RemoteReplicationState) (rule : Rule) (chunk : list Evaluation) : Prop :=
  Forall (fun e => validateAlertEvaluation e = Ok tt) chunk /\
  exists e, EvalRule e = rule /\
    (chunk = [e] /\ state = RemoteReplicationUnknown /\
       DedupeKey rule = AlertKeyBackupRemoteSync /\ Available e = false
     \/ exists d, chunk = [e; d] /\ isDependencyOf e d).

(** ** Properties *)

(** Valid settings always yield alert rules: for settings accepted by
    ValidateSettings, DefaultAlertRules succeeds, and its nine rules have
    distinct keys and all pass validateAlertRule.  In particular the float64
    thresholds keep the strict order of the integer settings, the hour
    thresholds through two exact multiplications by 60. *)
Theorem DefaultAlertRules_total (s : Settings) :
  ValidateSettings s = Ok tt ->
  DefaultAlertRules s = Ok (defaultRules s) /\
  NoDup (map DedupeKey (defaultRules s)) /\
  Forall (fun r => validateAlertRule r = Ok tt) (defaultRules s).
Proof.
  intros Hs. pose proof (ValidateSettings_Ok s Hs) as (_ & _ & _ & Hb).
  pose proof (defaultRules_valid s Hb) as Hv.
  split_and!; [|apply (bool_decide_unpack _); vm_compute; exact I|done].
  unfold DefaultAlertRules. rewrite Hs, validateAll_Forall by done. done.
Qed.

(** Classification is total on valid evaluations and reads the value
    against the two thresholds as disjoint intervals: neutral when the
    dependency is unavailable or has too few samples, otherwise healthy,
    warning or critical by the interval the value falls in. *)
Theorem classify_total_intervals (e : Evaluation) :
  match validateAlertEvaluation e with
  | Ok _ => classifyAlertEvaluation e = Ok (conditionSpec e)
  | Err err => classifyAlertEvaluation e = Err err
  end.
Proof.
  destruct (validateAlertEvaluation e) as [[]|err] eqn:Hv; [by apply classify_valid|].
  unfold classifyAlertEvaluation. by rewrite Hv.
Qed.

(** Classification is monotone: for the same rule and sample count,
    moving the value in the rule's direction never lowers the severity. *)
Theorem classify_monotone (rule : Rule) (v v' : float64) (t t' : Time) (n : Z) c c' :
  classifyAlertEvaluation (MkEvaluation rule v t true n) = Ok c ->
  classifyAlertEvaluation (MkEvaluation rule v' t' true n) = Ok c' ->
  (RuleDirection rule = DirectionAbove -> fle v v' = true) ->
  (RuleDirection rule = DirectionBelow -> fle v' v = true) ->
  severityRank c <= severityRank c'.
Proof.
  intros H H' Habove Hbelow.
  pose proof (classify_Ok _ _ H) as Hv. pose proof (classify_Ok _ _ H') as Hv'.
  rewrite classify_valid in H, H' by done. injection H as <-. injection H' as <-.
  apply validateAlertEvaluation_Ok in Hv as (Hr & _). simpl in Hr.
  apply validateAlertRule_Ok in Hr as (_ & _ & _ & _ & Hdir).
  unfold conditionSpec; simpl. destruct (n <? _); [done|].
  destruct Hdir as [[E _]|[E _]]; rewrite E in *.
  - specialize (Habove eq_refl).
    destruct (flt v' (Warning rule)) eqn:E1; [rewrite (fle_lt_trans _ _ _ Habove E1); done|].
    destruct (flt v' (Critical rule)) eqn:E2; [rewrite (fle_lt_trans _ _ _ Habove E2)|];
      repeat case_match; simpl; lia.
  - specialize (Hbelow eq_refl).
    destruct (flt v (Critical rule)) eqn:E1; [rewrite (fle_lt_trans _ _ _ Hbelow E1); done|].
    destruct (flt v (Warning rule)) eqn:E2; [rewrite (fle_lt_trans _ _ _ Hbelow E2)|];
      repeat case_match; simpl; lia.
Qed.

(** Evaluations built from a batch of samples are complete and accepted:
    when BuildAlertEvaluations succeeds, every rule contributes, in order, its
    own evaluation followed by the evaluation of its dependency (only the
    remote-sync rule with unknown replication state has none), the dependency
    warns exactly when the rule's data is unavailable, and every evaluation
    passes the validation that the alert store applies. *)
Theorem BuildAlertEvaluations_complete rules samples now state evs :
  loc now = None ->
  Forall (fun s => loc (ObservedAt s) = None) samples ->
  BuildAlertEvaluations rules samples now state = Ok evs ->
  exists chunks, evs = concat chunks /\ Forall2 (ruleChunk state) rules chunks.
Proof.
  intros Hloc Hsamples. unfold BuildAlertEvaluations.
  destruct (_ || _ || _) eqn:G in |- *; [done|]. bool_simpl.
  assert (UTC now = now) as Hutc by (destruct now; simpl in *; by subst). rewrite Hutc.
  destruct (indexSamples samples now ∅) as [indexed|] eqn:Hi; [|done]. intros Hrun.
  apply evaluateRules_Ok in Hrun as (chunks & -> & Hall). exists chunks. split; [done|].
  assert (forall k s, indexed !! k = Some s -> usableSample now s) as Hindex.
  { intros k s Hk. destruct (indexSamples_Ok _ _ _ _ Hi k s Hk) as [He|(Hin & _ & Hv)].
    - by rewrite lookup_empty in He.
    - split; [done|]. rewrite Forall_forall in Hsamples. specialize (Hsamples s Hin).
      destruct (ObservedAt s); simpl in *; by subst. }
  eapply Forall2_impl; [exact Hall|]. intros rule chunk Hc.
  eapply evaluationsForRule_valid in Hc as (_ & e & He & Hev & Hcase); [|done..].
  unfold ruleChunk. destruct Hcase as [(-> & ? & ? & ?)|(d & -> & Hd & Hdv)].
  - split; [by repeat constructor|]. exists e. split; [done|]. left. done.
  - split; [by repeat constructor|]. exists e. split; [done|]. right. eauto.
Qed.

(** Remote replication problems never page as critical: the default
    remote-sync rule has a critical threshold below every value a valid
    evaluation can carry, so its evaluations classify at most as warning. *)
Theorem remote_sync_never_critical (s : Settings) (e : Evaluation) (c : alertCondition) :
  EvalRule e ∈ defaultRules s ->
  DedupeKey (EvalRule e) = AlertKeyBackupRemoteSync ->
  classifyAlertEvaluation e = Ok c -> c <> alertConditionCritical.
Proof.
  intros Hin Hkey H. pose proof (classify_Ok _ _ H) as Hv.
  rewrite classify_valid in H by done. injection H as <-.
  apply validateAlertEvaluation_Ok in Hv as (_ & _ & Hnn & _). rewrite flt_zero in Hnn.
  assert (RuleDirection (EvalRule e) = DirectionBelow /\ Critical (EvalRule e) = of_Z (-1))
    as [Hd Hc].
  { unfold defaultRules in Hin. rewrite !elem_of_cons, elem_of_nil in Hin.
    repeat destruct Hin as [Hin|Hin]; try done; rewrite Hin in *; done. }
  unfold conditionSpec. rewrite Hd, Hc.
  assert (flt (EvalValue e) (of_Z (-1)) = false) as ->.
  { destruct (EvalValue e) as [[]|[]| |[]]; done. }
  by repeat case_match.
Qed.

(** ** Witnesses *)
Definition exampleSettings : Settings :=
  MkSettings 1 "HappyLearn" "" 30 365 30 3 15 "Asia/Shanghai"
    80 90 80 90 26 48 10 25 50 100 5 20 20 100 20 100 [] 0%N zeroTime.

(** 2026-07-28 00:00 UTC. *)
Definition exampleNow : Time := MkTime (739824 * day) None.

Definition rootRule : Rule :=
  MkRule "filesystem_root_usage" "storage" "Root filesystem usage is high"
    (of_Z 80) (of_Z 90) DirectionAbove 1.

Definition remoteRule : Rule :=
  MkRule AlertKeyBackupRemoteSync "backup" "Remote backup replication is unavailable"
    (of_Z 1) (of_Z (-1)) DirectionBelow 1.

Definition rootSample : Sample :=
  MkSample SampleSourceHost SampleMetricFilesystemUsedPercent SampleScopeRoot
    (of_Z 93) SampleUnitPercent exampleNow None.

Lemma DefaultAlertRules_total_witness :
  ValidateSettings exampleSettings = Ok tt /\
  DefaultAlertRules exampleSettings = Ok (defaultRules exampleSettings).
Proof.
  assert (H : ValidateSettings exampleSettings = Ok tt) by (vm_compute; reflexivity).
  split; [exact H|]. exact (proj1 (DefaultAlertRules_total exampleSettings H)).
Defined.

Lemma classify_monotone_witness :
  severityRank alertConditionWarning <= severityRank alertConditionCritical.
Proof.
  apply (classify_monotone rootRule (of_Z 85) (of_Z 95) exampleNow exampleNow 1);
    [vm_compute; reflexivity|vm_compute; reflexivity|intros _; vm_compute; reflexivity|discriminate].
Defined.

Lemma BuildAlertEvaluations_complete_witness :
  exists evs chunks,
    BuildAlertEvaluations (defaultRules exampleSettings) [rootSample] exampleNow
      RemoteReplicationUnknown = Ok evs /\
    evs = concat chunks /\
    Forall2 (ruleChunk RemoteReplicationUnknown) (defaultRules exampleSettings) chunks.
Proof.
  destruct (BuildAlertEvaluations (defaultRules exampleSettings) [rootSample] exampleNow
              RemoteReplicationUnknown) as [evs|err] eqn:E.
  - destruct (BuildAlertEvaluations_complete (defaultRules exampleSettings) [rootSample]
                exampleNow RemoteReplicationUnknown evs eq_refl
                ltac:(repeat constructor) E) as (chunks & H1 & H2).
    exists evs, chunks. split; [reflexivity|]. split; assumption.
  - exfalso. vm_compute in E. discriminate.
Defined.

Lemma remote_sync_never_critical_witness :
  alertConditionWarning <> alertConditionCritical.
Proof.
  apply (remote_sync_never_critical exampleSettings
           (MkEvaluation remoteRule (of_Z 0) exampleNow true 1)).
  - unfold defaultRules. set_solver.
  - reflexivity.
  - vm_compute. reflexivity.
Defined.
