(* ===== verification/AlertStore.v ===== *)
(** * The alert store ([internal/operations/postgres_alerts.go] and
      [internal/operations/postgres_webhook_outbox.go])

    The tables [operational_alerts], [alert_webhook_events] and
    [alert_deliveries] with the constraints of migrations 00021, 00024 and
    00025, the evaluation transaction, acknowledgement, delivery records, and
    the transactional webhook outbox. *)

From S2P Require Import Prelude GoTime GoText GoFloat Pg OpsModel Samples AlertRules.
From stdpp Require Import base tactics list gmap strings.
From Stdlib Require Import ZArith Lia.

Open Scope Z_scope.

(** ** Rows

    A nullable column is an option; [AcknowledgedBy = None] is both the NULL
    column and the nil UUID it is scanned into. *)
Record Alert := MkAlert {
  AlertID : UUID;
  AlertDedupeKey : string;
  AlertCategory : string;
  Severity : AlertSeverity;
  State : AlertState;
  FirstObservedAt : Time;
  LastObservedAt : Time;
  AcknowledgedBy : option UUID;
  AcknowledgedAt : option Time;
  ResolvedAt : option Time;
  CurrentValue : float64;
  ThresholdValue : float64;
  AlertSummary : string;
  TraceID : string;
  ConsecutiveFailures : Z;
  ConsecutiveSuccesses : Z;
  Version : Z
}.

Record AlertTransition := MkTransition {
  Kind : AlertTransitionKind;
  TransitionAlert : option Alert
}.

(** A row of [alert_webhook_events]. *)
Record WebhookEvent := MkEvent {
  EventID : UUID;
  EventAlertID : UUID;
  TransitionKind : AlertTransitionKind;
  EventAlertVersion : Z;
  EventCategory : string;
  EventSeverity : AlertSeverity;
  EventState : AlertState;
  EventSummary : string;
  EventCurrentValue : float64;
  EventThresholdValue : float64;
  EventFirstObservedAt : Time;
  EventLastObservedAt : Time;
  EnqueuedAt : Time
}.

Inductive DeliveryState :=
| DeliveryPending | DeliveryClaimed | DeliverySucceeded | DeliveryFailed | DeliveryCancelled
| OtherDeliveryState (s : string).

Global Instance DeliveryState_eq_dec : EqDecision DeliveryState.
Proof. solve_decision. Defined.

(** A row of [alert_deliveries]; [DeliveryEventID = None] is a record written by
    [RecordAlertDelivery]. *)
Record Delivery := MkDelivery {
  DeliveryID : UUID;
  DeliveryAlertID : UUID;
  DeliveryEventID : option UUID;
  Attempt : Z;
  Destination : string;
  DState : DeliveryState;
  Outcome : option string;
  HTTPStatusClass : option Z;
  ErrorCategory : string;
  ScheduledAt : option Time;
  StartedAt : option Time;
  FinishedAt : option Time;
  ClaimOwner : option string;
  ClaimToken : option UUID;
  ClaimExpiresAt : option Time
}.

Record AuditEvent := MkAudit {
  ActorUserID : UUID;
  Action : string;
  TargetType : string;
  TargetID : UUID;
  AuditStatus : string;
  AuditRequestID : string;
  AuditIP : IP
}.

Record OpsDB := MkOpsDB {
  alerts : gmap N Alert;
  events : gmap N WebhookEvent;
  deliveries : gmap N Delivery;
  audits : list AuditEvent
}.

(** ** Schema constraints *)
Definition int4Max : Z := 2147483647.
Definition int8Max : Z := 2 ^ 63 - 1.

Definition between (lo hi v : Z) : bool := (lo <=? v) && (v <=? hi).

(** The CHECK constraints of [operational_alerts] and the ranges of its
    integer columns. *)
Definition alertRowCheck (a : Alert) : bool :=
  between 1 128 (RuneCountInString (AlertDedupeKey a))
  && between 1 64 (RuneCountInString (AlertCategory a))
  && between 1 240 (RuneCountInString (AlertSummary a))
  && (RuneCountInString (TraceID a) <=? 128)
  && match Severity a with OtherSeverity _ => false | _ => true end
  && match State a with OtherAlertState _ => false | _ => true end
  && validAlertFloat (CurrentValue a) && validAlertFloat (ThresholdValue a)
  && Bool.eqb (bool_decide (AcknowledgedBy a = None)) (bool_decide (AcknowledgedAt a = None))
  && (negb (bool_decide (State a = AlertStateOpen)) || bool_decide (AcknowledgedAt a = None))
  && (negb (bool_decide (State a = AlertStateAcknowledged))
      || negb (bool_decide (AcknowledgedAt a = None)))
  && Bool.eqb (bool_decide (State a = AlertStateResolved))
       (negb (bool_decide (ResolvedAt a = None)))
  && negb (Before (LastObservedAt a) (FirstObservedAt a))
  && match AcknowledgedAt a with Some t => negb (Before t (FirstObservedAt a)) | None => true end
  && match ResolvedAt a with Some t => negb (Before t (FirstObservedAt a)) | None => true end
  && between 0 int4Max (ConsecutiveFailures a) && between 0 int4Max (ConsecutiveSuccesses a)
  && between 1 int8Max (Version a).

(** The partial unique index [operational_alerts_open_dedupe_key]. *)
Definition unresolvedFor (key : string) (a : Alert) : bool :=
  bool_decide (AlertDedupeKey a = key) && negb (bool_decide (State a = AlertStateResolved)).

Definition openKeyTaken (db : OpsDB) (a : Alert) : bool :=
  negb (bool_decide (State a = AlertStateResolved)) &&
  existsb (fun '(k, b) => negb (bool_decide (k = AlertID a)) && unresolvedFor (AlertDedupeKey a) b)
    (map_to_list (alerts db)).

Definition setAlerts (m : gmap N Alert) (db : OpsDB) : OpsDB :=
  MkOpsDB m (events db) (deliveries db) (audits db).

(** Writing a row: it fails when a constraint rejects it. *)
Definition putAlert (a : Alert) : DB OpsDB OpsError Alert :=
  (do db <- dget;
   fail if negb (alertRowCheck a) || openKeyTaken db a with ErrDatabase;
   do _ <- dput (setAlerts (<[AlertID a := a]> (alerts db)) db);
   dret a)%db.

(** [DELETE FROM operational_alerts WHERE id=$1], with the cascades of the
    foreign keys of events and deliveries. *)
Definition deleteAlert (id : UUID) (db : OpsDB) : OpsDB :=
  MkOpsDB (delete id (alerts db))
    (filter (fun '(_, e) => EventAlertID e <> id) (events db))
    (filter (fun '(_, d) => DeliveryAlertID d <> id) (deliveries db))
    (audits db).

(** ** Pure parts *)
Definition postgresAlertTime (t : Time) : Time := Round (UTC t) microsecond.

Definition alertVisible (a : Alert) : bool :=
  (2 <=? ConsecutiveFailures a) || (2 <=? Version a).

Definition failingSeverityAndThreshold (rule : Rule) (condition : alertCondition) :
  AlertSeverity * float64 :=
  if bool_decide (condition = alertConditionCritical)
  then (AlertSeverityCritical, Critical rule)
  else (AlertSeverityWarning, Warning rule).

Definition validWebhookTransition (kind : AlertTransitionKind) (a : Alert) : bool :=
  if (AlertID a =? NilUUID)%N || (Version a <? 1) || negb (alertIdentifier (AlertCategory a))
     || negb (safeAlertSummary (AlertSummary a)) || negb (validAlertFloat (CurrentValue a))
     || negb (validAlertFloat (ThresholdValue a)) || negb (validSampleTime (FirstObservedAt a))
     || negb (validSampleTime (LastObservedAt a)) || Before (LastObservedAt a) (FirstObservedAt a)
  then false
  else if negb (member alertCategories (AlertCategory a)) then false
  else match Severity a with
       | OtherSeverity _ => false
       | _ =>
         match State a with
         | OtherAlertState _ => false
         | _ =>
           match kind with
           | AlertTransitionOpened => bool_decide (State a = AlertStateOpen)
           | AlertTransitionUpgraded =>
               bool_decide (Severity a = AlertSeverityCritical)
               && (bool_decide (State a = AlertStateOpen)
                   || bool_decide (State a = AlertStateAcknowledged))
           | AlertTransitionResolved => bool_decide (State a = AlertStateResolved)
           | _ => false
           end
         end
       end.

Definition webhookAttemptDelays : list Z := [minute; 5 * minute; 30 * minute].

Section Store.
Context `{PgTime}.

(** ** The webhook outbox *)
Definition eventOf (id : UUID) (kind : AlertTransitionKind) (a : Alert) (enqueuedAt : Time) :
  WebhookEvent :=
  MkEvent id (AlertID a) kind (Version a) (AlertCategory a) (Severity a) (State a)
    (AlertSummary a) (CurrentValue a) (ThresholdValue a)
    (pg (UTC (FirstObservedAt a))) (pg (UTC (LastObservedAt a))) (pg enqueuedAt).

(** The CHECK constraints of [alert_webhook_events] that are not the shape
    already required by [validWebhookTransition]. *)
Definition eventRowCheck (e : WebhookEvent) : bool :=
  between 1 64 (RuneCountInString (EventCategory e))
  && between 1 240 (RuneCountInString (EventSummary e))
  && negb (Before (EventLastObservedAt e) (EventFirstObservedAt e))
  && negb (Before (EnqueuedAt e) (EventFirstObservedAt e)).

Definition setEvents (m : gmap N WebhookEvent) (db : OpsDB) : OpsDB :=
  MkOpsDB (alerts db) m (deliveries db) (audits db).
Definition setDeliveries (m : gmap N Delivery) (db : OpsDB) : OpsDB :=
  MkOpsDB (alerts db) (events db) m (audits db).

(** The row an [ON CONFLICT(alert_id,transition_kind,alert_version)] meets. *)
Definition sameTransition (alertID : UUID) (kind : AlertTransitionKind) (version : Z)
    (e : WebhookEvent) : bool :=
  (EventAlertID e =? alertID)%N && bool_decide (TransitionKind e = kind)
  && (EventAlertVersion e =? version).

Definition findEvent (db : OpsDB) (alertID : UUID) (kind : AlertTransitionKind) (version : Z) :
  option WebhookEvent :=
  snd <$> List.find (fun '(_, e) => sameTransition alertID kind version e)
            (map_to_list (events db)).

Definition sameEventContent (e : WebhookEvent) (kind : AlertTransitionKind) (a : Alert) : bool :=
  bool_decide (TransitionKind e = kind)
  && bool_decide (EventCategory e = AlertCategory a)
  && bool_decide (EventSeverity e = Severity a)
  && bool_decide (EventState e = State a)
  && bool_decide (EventSummary e = AlertSummary a)
  && feq (EventCurrentValue e) (CurrentValue a)
  && feq (EventThresholdValue e) (ThresholdValue a)
  && Equal (EventFirstObservedAt e) (FirstObservedAt a)
  && Equal (EventLastObservedAt e) (LastObservedAt a).

(** The event insert: the stored event's id and enqueue time. *)
Definition insertEvent (eventID : UUID) (kind : AlertTransitionKind) (a : Alert)
    (enqueuedAt : Time) : DB OpsDB OpsError (UUID * Time) :=
  (call ErrDatabase;
   do db <- dget;
   match findEvent db (AlertID a) kind (Version a) with
   | Some existing =>
     call ErrDatabase;
     guard sameEventContent existing kind a else ErrConflict;
     dret (EventID existing, EnqueuedAt existing)
   | None =>
     let e := eventOf eventID kind a enqueuedAt in
     fail if bool_decide (is_Some (events db !! eventID)) || negb (eventRowCheck e)
       with ErrDatabase;
     do _ <- dput (setEvents (<[eventID := e]> (events db)) db);
     dret (eventID, EnqueuedAt e)
   end)%db.

Definition pendingDelivery (id alertID eventID : UUID) (attempt : Z) (scheduledAt : Time) : Delivery :=
  MkDelivery id alertID (Some eventID) attempt "webhook" DeliveryPending None None ""
    (Some (pg scheduledAt)) None None None None None.

Definition attemptTaken (db : OpsDB) (eventID : UUID) (attempt : Z) : bool :=
  existsb (fun '(_, d) => bool_decide (DeliveryEventID d = Some eventID)
                         && (Attempt d =? attempt) && bool_decide (Destination d = "webhook"))
    (map_to_list (deliveries db)).

(** One [INSERT INTO alert_deliveries ... ON CONFLICT DO NOTHING]. *)
Definition insertDelivery (alertID eventID : UUID) (attempt : Z) (scheduledAt : Time) :
  DB OpsDB OpsError unit :=
  (do id <- newUUID;
   fail if (id =? NilUUID)%N with ErrInvalid;
   call ErrDatabase;
   do db <- dget;
   if attemptTaken db eventID attempt then dret tt
   else
     fail if bool_decide (is_Some (deliveries db !! id)) with ErrDatabase;
     dput (setDeliveries
             (<[id := pendingDelivery id alertID eventID attempt scheduledAt]> (deliveries db)) db))%db.

Fixpoint insertDeliveries (alertID eventID : UUID) (enqueuedAt : Time) (attempt : Z)
    (delays : list Z) : DB OpsDB OpsError unit :=
  match delays with
  | [] => dret tt
  | delay :: rest =>
    (do _ <- insertDelivery alertID eventID attempt (addDuration enqueuedAt delay);
     insertDeliveries alertID eventID enqueuedAt (attempt + 1) rest)%db
  end.

Definition enqueueWebhookTransition (webhookEnabled : bool) (kind : AlertTransitionKind)
    (a : Alert) : DB OpsDB OpsError unit :=
  (if negb webhookEnabled || bool_decide (kind = AlertTransitionNone)
      || bool_decide (kind = AlertTransitionUpdated) then dret tt
   else
     guard validWebhookTransition kind a else ErrInvalid;
     do now <- wallNow;
     let enqueuedAt := postgresAlertTime now in
     fail if negb (validSampleTime enqueuedAt) || Before enqueuedAt (FirstObservedAt a)
       with ErrInvalid;
     do eventID <- newUUID;
     fail if (eventID =? NilUUID)%N with ErrInvalid;
     do stored <- insertEvent eventID kind a enqueuedAt;
     insertDeliveries (AlertID a) (fst stored) (postgresAlertTime (snd stored)) 1
       webhookAttemptDelays)%db.

(** ** The evaluation transaction *)
Definition selectUnresolvedAlert (db : OpsDB) (key : string) : option Alert :=
  snd <$> List.find (fun '(_, a) => unresolvedFor key a) (map_to_list (alerts db)).

Definition insertAlertCandidate (e : Evaluation) (condition : alertCondition) :
  DB OpsDB OpsError Alert :=
  (call ErrDatabase;
   do id <- newUUID;
   do db <- dget;
   fail if bool_decide (is_Some (alerts db !! id)) with ErrDatabase;
   let '(severity, threshold) := failingSeverityAndThreshold (EvalRule e) condition in
   let at_ := pg (UTC (EvalObservedAt e)) in
   putAlert (MkAlert id (DedupeKey (EvalRule e)) (Category (EvalRule e)) severity
               AlertStateOpen at_ at_ None None None (EvalValue e) threshold
               (Summary (EvalRule e)) "" 1 0 1))%db.

(** [UPDATE operational_alerts ... WHERE id=$1 AND state<>'resolved'
    RETURNING ...]: no row is an error of the query. *)
Definition updateUnresolved (id : UUID) (f : Alert -> Alert) : DB OpsDB OpsError Alert :=
  (call ErrDatabase;
   do db <- dget;
   match alerts db !! id with
   | None => dfail ErrDatabase
   | Some row =>
     fail if bool_decide (State row = AlertStateResolved) with ErrDatabase;
     putAlert (f row)
   end)%db.

(** The SET clause of the failing update. *)
Definition failingUpdate (e : Evaluation) (severity : AlertSeverity) (threshold : float64)
    (failures : Z) (row : Alert) : Alert :=
  MkAlert (AlertID row) (AlertDedupeKey row) (Category (EvalRule e)) severity (State row)
    (FirstObservedAt row) (pg (UTC (EvalObservedAt e)))
    (AcknowledgedBy row) (AcknowledgedAt row) (ResolvedAt row)
    (EvalValue e) threshold (Summary (EvalRule e)) (TraceID row)
    failures 0 (Version row + 1).

(** The SET clauses of the two healthy updates: resolving from the third
    success on. *)
Definition healthyUpdate (e : Evaluation) (successes : Z) (row : Alert) : Alert :=
  let at_ := pg (UTC (EvalObservedAt e)) in
  MkAlert (AlertID row) (AlertDedupeKey row) (AlertCategory row) (Severity row)
    (if 3 <=? successes then AlertStateResolved else State row)
    (FirstObservedAt row) at_ (AcknowledgedBy row) (AcknowledgedAt row)
    (if 3 <=? successes then Some at_ else ResolvedAt row)
    (EvalValue e) (Warning (EvalRule e)) (AlertSummary row) (TraceID row)
    0 successes (Version row + 1).

Definition recordFailingEvaluation (webhookEnabled : bool) (current : Alert) (e : Evaluation)
    (condition : alertCondition) : DB OpsDB OpsError AlertTransition :=
  let observedSeverity := fst (failingSeverityAndThreshold (EvalRule e) condition) in
  let wasVisible := alertVisible current in
  let raise := bool_decide (observedSeverity = AlertSeverityCritical)
               && negb (bool_decide (Severity current = AlertSeverityCritical)) in
  let severity := if raise then AlertSeverityCritical else Severity current in
  let threshold := if bool_decide (severity = AlertSeverityCritical)
                   then Critical (EvalRule e) else Warning (EvalRule e) in
  let failures := ConsecutiveFailures current + 1 in
  let kind := if negb wasVisible && (2 <=? failures) then AlertTransitionOpened
              else if raise && wasVisible then AlertTransitionUpgraded
              else AlertTransitionUpdated in
  (do updated <- updateUnresolved (AlertID current) (failingUpdate e severity threshold failures);
   let hidden := negb wasVisible && (failures <? 2) in
   do _ <- enqueueWebhookTransition webhookEnabled
             (if hidden then AlertTransitionNone else kind) updated;
   if hidden then dret (MkTransition AlertTransitionNone None)
   else dret (MkTransition kind (Some updated)))%db.

Definition recordHealthyEvaluation (webhookEnabled : bool) (current : Alert) (e : Evaluation) :
  DB OpsDB OpsError AlertTransition :=
  let successes := ConsecutiveSuccesses current + 1 in
  let resolve := 3 <=? successes in
  (do updated <- updateUnresolved (AlertID current) (healthyUpdate e successes);
   let kind := if resolve then AlertTransitionResolved else AlertTransitionUpdated in
   do _ <- enqueueWebhookTransition webhookEnabled kind updated;
   dret (MkTransition kind (Some updated)))%db.

(** Not newer than the last observation, or less than a minute after it. *)
Definition tooSoon (e : Evaluation) (current : Alert) : bool :=
  negb (After (EvalObservedAt e) (LastObservedAt current))
  || (Sub (EvalObservedAt e) (LastObservedAt current) <? minute).

Definition evaluateBody (webhookEnabled : bool) (e : Evaluation) (condition : alertCondition) :
  DB OpsDB OpsError AlertTransition :=
  (call ErrDatabase;
   call ErrDatabase;
   do db <- dget;
   match selectUnresolvedAlert db (DedupeKey (EvalRule e)) with
   | None =>
     if bool_decide (condition = alertConditionHealthy)
     then dret (MkTransition AlertTransitionNone None)
     else do _ <- insertAlertCandidate e condition;
          dret (MkTransition AlertTransitionNone None)
   | Some current =>
     if tooSoon e current
     then dret (MkTransition AlertTransitionNone
                  (if alertVisible current then Some current else None))
     else if bool_decide (condition = alertConditionHealthy)
     then if negb (alertVisible current)
          then call ErrDatabase;
               do db <- dget;
               do _ <- dput (deleteAlert (AlertID current) db);
               dret (MkTransition AlertTransitionNone None)
          else recordHealthyEvaluation webhookEnabled current e
     else recordFailingEvaluation webhookEnabled current e condition
   end)%db.

Definition EvaluateAlert (webhookEnabled : bool) (e : Evaluation) :
  DB OpsDB OpsError AlertTransition :=
  match classifyAlertEvaluation e with
  | Err err => dfail err
  | Ok alertConditionNeutral => dret (MkTransition AlertTransitionNone None)
  | Ok condition => transact ErrDatabase ErrDatabase (evaluateBody webhookEnabled e condition)
  end.

(** ** Acknowledgement *)
Definition addAudit (ev : AuditEvent) (db : OpsDB) : OpsDB :=
  MkOpsDB (alerts db) (events db) (deliveries db) (audits db ++ [ev]).

Definition acknowledgeBody (p : Principal) (id : UUID) : DB OpsDB OpsError Alert :=
  (call ErrDatabase;
   do db <- dget;
   match alerts db !! id with
   | None => dfail ErrAlertNotFound
   | Some current =>
     guard alertVisible current else ErrAlertNotFound;
     fail if bool_decide (State current = AlertStateResolved) with ErrAlertAlreadyResolved;
     if bool_decide (State current = AlertStateAcknowledged) then dret current
     else
       do now <- databaseNow ErrDatabase;
       fail if negb (bool_decide (State current = AlertStateOpen)) with ErrDatabase;
       do acknowledged <- putAlert
         (MkAlert (AlertID current) (AlertDedupeKey current) (AlertCategory current)
            (Severity current) AlertStateAcknowledged (FirstObservedAt current)
            (LastObservedAt current) (Some (User_ID p)) (Some (pg now)) (ResolvedAt current)
            (CurrentValue current) (ThresholdValue current) (AlertSummary current)
            (TraceID current) (ConsecutiveFailures current) (ConsecutiveSuccesses current)
            (Version current + 1));
       call ErrDatabase;
       do db' <- dget;
       do _ <- dput (addAudit (MkAudit (User_ID p) "operations.alert_acknowledged"
                       "operational_alert" id "acknowledged" (RequestID p) (PrincipalIP p)) db');
       dret acknowledged
   end)%db.

Definition AcknowledgeAlert (p : Principal) (id : UUID) : DB OpsDB OpsError Alert :=
  (fail if (id =? NilUUID)%N with ErrInvalid;
   match authorizeSettings p with
   | Err e => dfail e
   | Ok _ => transact ErrDatabase ErrDatabase (acknowledgeBody p id)
   end)%db.

End Store.

(** ** Delivery records *)
Record AlertDelivery := MkAlertDelivery {
  AD_ID : UUID;
  AD_AlertID : UUID;
  AD_Attempt : Z;
  AD_Destination : string;
  AD_Outcome : string;
  AD_HTTPStatusClass : Z;
  AD_ErrorCategory : string;
  AD_StartedAt : Time;
  AD_FinishedAt : Time
}.

(** The pattern [^[a-z][a-z0-9_]{0,63}$]. *)
Definition alertDeliveryErrorCategory (s : string) : bool :=
  matchHead isLower (fun b => isLower b || isDigit b || oneOf "_" b) 0 63 s.

Definition validAlertDelivery (d : AlertDelivery) : bool :=
  negb ((AD_ID d =? NilUUID)%N || (AD_AlertID d =? NilUUID)%N
        || (AD_Attempt d <? 1) || (4 <? AD_Attempt d)
        || negb (bool_decide (AD_Destination d = "webhook"))
        || (negb (bool_decide (AD_Outcome d = "succeeded"))
            && negb (bool_decide (AD_Outcome d = "failed"))
            && negb (bool_decide (AD_Outcome d = "cancelled")))
        || (AD_HTTPStatusClass d <? 0) || (5 <? AD_HTTPStatusClass d)
        || (negb (bool_decide (AD_ErrorCategory d = ""))
            && negb (alertDeliveryErrorCategory (AD_ErrorCategory d)))
        || negb (validSampleTime (AD_StartedAt d)) || negb (validSampleTime (AD_FinishedAt d))
        || Before (AD_FinishedAt d) (AD_StartedAt d)).

Definition nullableStatusClass (statusClass : Z) : option Z :=
  if statusClass =? 0 then None else Some statusClass.

Definition deliveryStateOf (s : string) : DeliveryState :=
  if bool_decide (s = "succeeded") then DeliverySucceeded
  else if bool_decide (s = "failed") then DeliveryFailed
  else if bool_decide (s = "cancelled") then DeliveryCancelled
  else OtherDeliveryState s.

(** A stored record against the one to be written. *)
Definition sameAlertDelivery (left : Delivery) (right : AlertDelivery) : bool :=
  (DeliveryAlertID left =? AD_AlertID right)%N
  && (Attempt left =? AD_Attempt right)
  && bool_decide (Destination left = AD_Destination right)
  && bool_decide (Outcome left = Some (AD_Outcome right))
  && (or_zero 0 (HTTPStatusClass left) =? AD_HTTPStatusClass right)
  && bool_decide (ErrorCategory left = AD_ErrorCategory right)
  && match StartedAt left with Some t => Equal t (AD_StartedAt right) | None => false end
  && match FinishedAt left with Some t => Equal t (AD_FinishedAt right) | None => false end.

Section DeliveryRecords.
Context `{PgTime}.

Definition recordedDelivery (d : AlertDelivery) : Delivery :=
  MkDelivery (AD_ID d) (AD_AlertID d) None (AD_Attempt d) (AD_Destination d)
    (deliveryStateOf (AD_Outcome d)) (Some (AD_Outcome d))
    (nullableStatusClass (AD_HTTPStatusClass d)) (AD_ErrorCategory d) None
    (Some (pg (UTC (AD_StartedAt d)))) (Some (pg (UTC (AD_FinishedAt d)))) None None None.

(** The row of the partial unique index on records without an event. *)
Definition findRecord (db : OpsDB) (d : AlertDelivery) : option Delivery :=
  snd <$> List.find (fun '(_, r) => bool_decide (DeliveryEventID r = None)
                                   && (DeliveryAlertID r =? AD_AlertID d)%N
                                   && (Attempt r =? AD_Attempt d)
                                   && bool_decide (Destination r = AD_Destination d))
            (map_to_list (deliveries db)).

Definition recordDeliveryBody (d : AlertDelivery) : DB OpsDB OpsError unit :=
  (call ErrDatabase;
   do db <- dget;
   match findRecord db d with
   | None =>
     fail if bool_decide (is_Some (deliveries db !! AD_ID d))
             || bool_decide (alerts db !! AD_AlertID d = None) with ErrDatabase;
     dput (setDeliveries (<[AD_ID d := recordedDelivery d]> (deliveries db)) db)
   | Some existing =>
     call ErrDatabase;
     guard sameAlertDelivery existing d else ErrConflict;
     dret tt
   end)%db.

Definition RecordAlertDelivery (d : AlertDelivery) : DB OpsDB OpsError unit :=
  (guard validAlertDelivery d else ErrInvalid;
   let d := MkAlertDelivery (AD_ID d) (AD_AlertID d) (AD_Attempt d) (AD_Destination d)
              (AD_Outcome d) (AD_HTTPStatusClass d) (AD_ErrorCategory d)
              (postgresAlertTime (AD_StartedAt d)) (postgresAlertTime (AD_FinishedAt d)) in
   fail if Before (AD_FinishedAt d) (AD_StartedAt d) with ErrInvalid;
   transact ErrDatabase ErrDatabase (recordDeliveryBody d))%db.

End DeliveryRecords.

(** ** The abstract alert of a dedupe key

    What the store promises for one key: a suspected problem is not an alert
    yet, two failing observations open it, a critical observation raises a
    warning, three healthy observations in a row resolve it. *)
Inductive Phase := Quiet | Suspect (s : AlertSeverity) | Firing (s : AlertSeverity) (healthy : Z).

Definition worst (s observed : AlertSeverity) : AlertSeverity :=
  if bool_decide (observed = AlertSeverityCritical) then AlertSeverityCritical else s.

Definition observedSeverity (c : alertCondition) : AlertSeverity :=
  if bool_decide (c = alertConditionCritical) then AlertSeverityCritical else AlertSeverityWarning.

Definition specStep (p : Phase) (c : alertCondition) : Phase * AlertTransitionKind :=
  match p, bool_decide (c = alertConditionHealthy) with
  | Quiet, true => (Quiet, AlertTransitionNone)
  | Quiet, false => (Suspect (observedSeverity c), AlertTransitionNone)
  | Suspect s, true => (Quiet, AlertTransitionNone)
  | Suspect s, false => (Firing (worst s (observedSeverity c)) 0, AlertTransitionOpened)
  | Firing s k, true =>
      if 3 <=? k + 1 then (Quiet, AlertTransitionResolved)
      else (Firing s (k + 1), AlertTransitionUpdated)
  | Firing s k, false =>
      (Firing (worst s (observedSeverity c)) 0,
       if bool_decide (worst s (observedSeverity c) = s) then AlertTransitionUpdated
       else AlertTransitionUpgraded)
  end.

Definition phaseOf (o : option Alert) : Phase :=
  match o with
  | None => Quiet
  | Some a => if alertVisible a then Firing (Severity a) (ConsecutiveSuccesses a)
              else Suspect (Severity a)
  end.

Definition phase (db : OpsDB) (key : string) : Phase := phaseOf (selectUnresolvedAlert db key).
