(* ===== verification/AlertProofs.v ===== *)
(** * The alert store keeps its promises

    Invariants of the alert tables, the refinement of the abstract alert of a
    dedupe key, the transactional outbox, progress, and acknowledgement. *)

From stdpp Require Import base tactics list gmap strings.
From Stdlib Require Import ZArith Lia.
From S2P Require Import Prelude GoTime GoText GoFloat Pg OpsModel Samples AlertRules AlertStore.

Open Scope Z_scope.

Section StoreProofs.
Context `{PgTime}.

(** ** Well-formed tables *)
Record alertWf (a : Alert) : Prop := {
  wf_check : alertRowCheck a = true;
  wf_text : ruleTextOk (AlertDedupeKey a) (AlertCategory a) (AlertSummary a) = true;
  wf_first : pg (FirstObservedAt a) = FirstObservedAt a;
  wf_last : pg (LastObservedAt a) = LastObservedAt a;
  wf_hidden : alertVisible a = false ->
    State a = AlertStateOpen /\ ConsecutiveFailures a = 1 /\
    ConsecutiveSuccesses a = 0 /\ Version a = 1;
  wf_unresolved : State a <> AlertStateResolved -> ConsecutiveSuccesses a < 3
}.

Record dbWf (db : OpsDB) : Prop := {
  wf_rows : forall k a, alerts db !! k = Some a -> AlertID a = k /\ alertWf a;
  wf_unique : forall k k' a a' key,
    alerts db !! k = Some a -> alerts db !! k' = Some a' ->
    unresolvedFor key a = true -> unresolvedFor key a' = true -> k = k'
}.

Lemma select_Some db key a :
  selectUnresolvedAlert db key = Some a ->
  exists k, alerts db !! k = Some a /\ unresolvedFor key a = true.
Proof.
  unfold selectUnresolvedAlert. destruct (List.find _ _) as [[k b]|] eqn:E; [|done].
  intros; simplify_eq/=. apply find_some in E as [Hin Hu]. exists k. split; [|done].
  by apply elem_of_map_to_list, list_elem_of_In.
Qed.

Lemma select_None db key :
  selectUnresolvedAlert db key = None ->
  forall k a, alerts db !! k = Some a -> unresolvedFor key a = false.
Proof.
  unfold selectUnresolvedAlert. destruct (List.find _ _) as [[k b]|] eqn:E; [done|].
  intros _ k a Hk. apply elem_of_map_to_list, list_elem_of_In in Hk.
  exact (find_none _ _ E _ Hk).
Qed.

Lemma select_unique db key k a :
  dbWf db -> alerts db !! k = Some a -> unresolvedFor key a = true ->
  selectUnresolvedAlert db key = Some a.
Proof.
  intros Hwf Hk Hu. destruct (selectUnresolvedAlert db key) as [b|] eqn:E.
  - apply select_Some in E as (k' & Hk' & Hu').
    assert (k = k') as -> by (eapply (wf_unique db Hwf); eassumption). congruence.
  - pose proof (select_None _ _ E k a Hk). congruence.
Qed.

Lemma select_None_intro db key :
  (forall k a, alerts db !! k = Some a -> unresolvedFor key a = false) ->
  selectUnresolvedAlert db key = None.
Proof.
  intros Hall. destruct (selectUnresolvedAlert db key) as [a|] eqn:E; [|done].
  apply select_Some in E as (k & Hk & Hu). rewrite (Hall k a Hk) in Hu. done.
Qed.

Lemma unresolvedFor_spec key a :
  unresolvedFor key a = true <-> AlertDedupeKey a = key /\ State a <> AlertStateResolved.
Proof.
  unfold unresolvedFor. rewrite andb_true_iff, negb_true_iff, bool_decide_eq_true,
    bool_decide_eq_false. done.
Qed.

Lemma openKeyTaken_false db a k b :
  openKeyTaken db a = false -> State a <> AlertStateResolved ->
  alerts db !! k = Some b -> k <> AlertID a -> unresolvedFor (AlertDedupeKey a) b = false.
Proof.
  unfold openKeyTaken. intros Ht Hs Hk Hne.
  rewrite bool_decide_eq_false_2 in Ht by done. simpl in Ht.
  destruct (unresolvedFor (AlertDedupeKey a) b) eqn:E; [|done].
  exfalso. apply not_true_iff_false in Ht. apply Ht, existsb_exists. exists (k, b).
  split; [by apply list_elem_of_In, elem_of_map_to_list|].
  rewrite bool_decide_eq_false_2 by done. by rewrite E.
Qed.

Lemma putAlert_Ok a env n db st b :
  putAlert a env (n, db) = (st, Ok b) ->
  b = a /\ st = (n, setAlerts (<[AlertID a := a]> (alerts db)) db) /\
  alertRowCheck a = true /\ openKeyTaken db a = false.
Proof.
  unfold putAlert. intros Hrun. db_inv.
  destruct (_ || _) eqn:G in *; db_inv. bool_simpl. done.
Qed.

Lemma putAlert_wf a db :
  dbWf db -> alertWf a -> openKeyTaken db a = false ->
  dbWf (setAlerts (<[AlertID a := a]> (alerts db)) db).
Proof.
  intros Hwf Ha Ht. constructor; simpl.
  - intros k b. rewrite lookup_insert. case_decide; [intros; simplify_eq; done|].
    apply (wf_rows db Hwf).
  - intros k k' b b' key. rewrite !lookup_insert. intros Hk Hk' Hu Hu'.
    assert (Hclash : forall j c, alerts db !! j = Some c -> j <> AlertID a ->
      unresolvedFor key a = true -> unresolvedFor key c = true -> False).
    { intros j c Hj Hne [Hkey Hs]%unresolvedFor_spec Hc.
      pose proof (openKeyTaken_false _ _ _ _ Ht Hs Hj Hne) as Hf.
      rewrite Hkey in Hf. congruence. }
    repeat case_decide; simplify_eq; try done; try (by eapply (wf_unique db Hwf));
      exfalso; (eapply Hclash; [eassumption| |eassumption|eassumption]); congruence.
Qed.

Lemma updateUnresolved_Ok id f env n db st b :
  updateUnresolved id f env (n, db) = (st, Ok b) ->
  exists row, alerts db !! id = Some row /\ State row <> AlertStateResolved /\ b = f row /\
    snd st = setAlerts (<[AlertID (f row) := f row]> (alerts db)) db /\
    alertRowCheck (f row) = true /\ openKeyTaken db (f row) = false.
Proof.
  unfold updateUnresolved. intros Hrun. db_inv.
  destruct (alerts _ !! id) as [row|] eqn:Hrow; db_inv.
  case_bool_decide; db_inv.
  match goal with Hp : putAlert _ _ _ = _ |- _ => apply putAlert_Ok in Hp as (-> & ? & ? & ?) end.
  simplify_eq. exists row. split_and!; done.
Qed.

(** ** Frames of the outbox *)
Lemma insertDelivery_frame alertID eventID attempt at_ env n db st u :
  insertDelivery alertID eventID attempt at_ env (n, db) = (st, Ok u) ->
  alerts (snd st) = alerts db /\ audits (snd st) = audits db /\ events (snd st) = events db.
Proof.
  unfold insertDelivery. intros Hrun. db_inv.
  destruct (_ =? NilUUID)%N in *; db_inv.
  destruct (attemptTaken _ _ _); db_inv; [done|].
  case_bool_decide; db_inv. done.
Qed.

Lemma insertDeliveries_frame alertID eventID at_ attempt delays env n db st u :
  insertDeliveries alertID eventID at_ attempt delays env (n, db) = (st, Ok u) ->
  alerts (snd st) = alerts db /\ audits (snd st) = audits db /\ events (snd st) = events db.
Proof.
  revert attempt n db. induction delays as [|d l IH]; intros attempt n db Hrun; simpl in Hrun.
  - db_inv. done.
  - db_inv.
    match goal with Hd : insertDelivery _ _ _ _ _ _ = _ |- _ =>
      apply insertDelivery_frame in Hd as (<- & <- & <-) end.
    eapply IH; eassumption.
Qed.

Lemma enqueue_frame w kind a env n db st u :
  enqueueWebhookTransition w kind a env (n, db) = (st, Ok u) ->
  alerts (snd st) = alerts db /\ audits (snd st) = audits db.
Proof.
  unfold enqueueWebhookTransition. intros Hrun.
  destruct (_ || _ || _) in Hrun; [db_inv; done|].
  destruct (validWebhookTransition kind a) in Hrun; [|db_inv].
  db_inv. destruct (_ || _) in *; db_inv. destruct (_ =? NilUUID)%N in *; db_inv.
  match goal with Hd : insertDeliveries _ _ _ _ _ _ _ = _ |- _ =>
    apply insertDeliveries_frame in Hd as (-> & -> & _) end.
  match goal with Hd : insertEvent _ _ _ _ _ _ = _ |- _ => rename Hd into Hev end.
  unfold insertEvent in Hev. db_inv.
  destruct (findEvent _ _ _ _); db_inv.
  - destruct (sameEventContent _ _ _); db_inv. done.
  - destruct (_ || _) in *; db_inv. done.
Qed.

(** ** Rows written by an evaluation *)
Lemma failingUpdate_wf e severity threshold failures row :
  alertWf row -> validateAlertRule (EvalRule e) = Ok tt ->
  AlertDedupeKey row = DedupeKey (EvalRule e) ->
  alertRowCheck (failingUpdate e severity threshold failures row) = true ->
  alertWf (failingUpdate e severity threshold failures row).
Proof.
  intros Hrow Hrule Hkey Hcheck. apply validateAlertRule_Ok in Hrule as (Htext & _).
  constructor; simpl; try done.
  - by rewrite Hkey.
  - apply Hrow.
  - unfold pg. simpl. by rewrite stored_idemp.
  - intros Hv. exfalso. unfold alertVisible in Hv. simpl in Hv. bool_simpl.
    assert (1 <= Version row); [|lia].
    pose proof (wf_check row Hrow) as Hc. unfold alertRowCheck, between in Hc. bool_simpl. lia.
Qed.

Lemma healthyUpdate_wf e successes row :
  alertWf row -> alertRowCheck (healthyUpdate e successes row) = true ->
  alertWf (healthyUpdate e successes row).
Proof.
  intros Hrow Hcheck. constructor; simpl; try done.
  - apply Hrow.
  - apply Hrow.
  - unfold pg. simpl. by rewrite stored_idemp.
  - intros Hv. exfalso. unfold alertVisible in Hv. simpl in Hv. bool_simpl.
    assert (1 <= Version row); [|lia].
    pose proof (wf_check row Hrow) as Hc. unfold alertRowCheck, between in Hc. bool_simpl. lia.
  - destruct (3 <=? successes) eqn:E; bool_simpl; [done|lia].
Qed.

Lemma select_lookup db key a :
  dbWf db -> selectUnresolvedAlert db key = Some a ->
  alerts db !! AlertID a = Some a /\ AlertDedupeKey a = key /\
  State a <> AlertStateResolved /\ alertWf a.
Proof.
  intros Hwf (k & Hk & [Hkey Hs]%unresolvedFor_spec)%select_Some.
  destruct (wf_rows db Hwf k a Hk) as [<- ?]. done.
Qed.

Lemma recordHealthy_Ok w cur e env n db st r :
  alerts db !! AlertID cur = Some cur ->
  recordHealthyEvaluation w cur e env (n, db) = (st, Ok r) ->
  let row' := healthyUpdate e (ConsecutiveSuccesses cur + 1) cur in
  let kind := if 3 <=? ConsecutiveSuccesses cur + 1 then AlertTransitionResolved
              else AlertTransitionUpdated in
  r = MkTransition kind (Some row') /\
  alertRowCheck row' = true /\ openKeyTaken db row' = false /\
  exists n1 n2 u, enqueueWebhookTransition w kind row' env
    (n1, setAlerts (<[AlertID cur := row']> (alerts db)) db) = ((n2, snd st), Ok u).
Proof.
  intros Hcur Hrun. unfold recordHealthyEvaluation in Hrun. db_inv.
  match goal with Hu : updateUnresolved _ _ _ _ = _ |- _ =>
    apply updateUnresolved_Ok in Hu as (row & Hrow & _ & -> & Hst & Hc & Ht) end.
  simplify_eq/=. split_and!; eauto.
Qed.

Lemma recordFailing_Ok w cur e c env n db st r :
  alerts db !! AlertID cur = Some cur ->
  1 <= ConsecutiveFailures cur \/ alertVisible cur = true ->
  recordFailingEvaluation w cur e c env (n, db) = (st, Ok r) ->
  let severity := worst (Severity cur) (observedSeverity c) in
  let row' := failingUpdate e severity
                (if bool_decide (severity = AlertSeverityCritical) then Critical (EvalRule e)
                 else Warning (EvalRule e)) (ConsecutiveFailures cur + 1) cur in
  let kind := if negb (alertVisible cur) then AlertTransitionOpened
              else if bool_decide (worst (Severity cur) (observedSeverity c) = Severity cur)
              then AlertTransitionUpdated else AlertTransitionUpgraded in
  r = MkTransition kind (Some row') /\
  alertRowCheck row' = true /\ openKeyTaken db row' = false /\
  exists n1 n2 u, enqueueWebhookTransition w kind row' env
    (n1, setAlerts (<[AlertID cur := row']> (alerts db)) db) = ((n2, snd st), Ok u).
Proof.
  intros Hcur Hfail Hrun. unfold recordFailingEvaluation in Hrun.
  assert (Hsev : fst (failingSeverityAndThreshold (EvalRule e) c) = observedSeverity c).
  { unfold failingSeverityAndThreshold, observedSeverity.
    by destruct (bool_decide (c = alertConditionCritical)). }
  rewrite Hsev in Hrun.
  set (raise := bool_decide (observedSeverity c = AlertSeverityCritical)
               && negb (bool_decide (Severity cur = AlertSeverityCritical))) in Hrun.
  assert (Hw : (if raise then AlertSeverityCritical else Severity cur)
               = worst (Severity cur) (observedSeverity c)).
  { unfold raise, worst. repeat case_bool_decide; simpl; congruence. }
  assert (Hr : raise = negb (bool_decide (worst (Severity cur) (observedSeverity c) = Severity cur))).
  { unfold raise, worst. repeat case_bool_decide; simpl; congruence. }
  rewrite Hw in Hrun. clearbody raise. db_inv.
  match goal with Hu : updateUnresolved _ _ _ _ = _ |- _ =>
    apply updateUnresolved_Ok in Hu as (row & Hrow & _ & -> & Hst & Hc & Ht) end.
  assert (negb (alertVisible cur) && (ConsecutiveFailures cur + 1 <? 2) = false) as Hh.
  { destruct (alertVisible cur) eqn:Hv; simpl; [done|].
    apply Z.ltb_ge. destruct Hfail; [lia|congruence]. }
  rewrite Hh in *. db_inv. simplify_eq/=.
  assert (forall b, (if negb (alertVisible cur) && (2 <=? ConsecutiveFailures cur + 1)
      then AlertTransitionOpened
      else if negb b && alertVisible cur then AlertTransitionUpgraded
      else AlertTransitionUpdated) =
      (if negb (alertVisible cur) then AlertTransitionOpened
       else if b then AlertTransitionUpdated else AlertTransitionUpgraded)) as Hk.
  { intros b. destruct (alertVisible cur); simpl in *; [by destruct b|].
    apply Z.ltb_ge in Hh. by rewrite (proj2 (Z.leb_le _ _)) by lia. }
  rewrite Hk in *. simpl in *. split_and!; eauto.
Qed.

Definition candidateRow (id : UUID) (e : Evaluation) (c : alertCondition) : Alert :=
  let at_ := pg (UTC (EvalObservedAt e)) in
  MkAlert id (DedupeKey (EvalRule e)) (Category (EvalRule e))
    (fst (failingSeverityAndThreshold (EvalRule e) c)) AlertStateOpen at_ at_ None None None
    (EvalValue e) (snd (failingSeverityAndThreshold (EvalRule e) c))
    (Summary (EvalRule e)) "" 1 0 1.

(** The row a visible alert, or a second failure, is updated to, and the
    transition it reports. *)
Definition updatedRow (e : Evaluation) (c : alertCondition) (cur : Alert) : Alert :=
  if bool_decide (c = alertConditionHealthy)
  then healthyUpdate e (ConsecutiveSuccesses cur + 1) cur
  else let severity := worst (Severity cur) (observedSeverity c) in
       failingUpdate e severity
         (if bool_decide (severity = AlertSeverityCritical) then Critical (EvalRule e)
          else Warning (EvalRule e)) (ConsecutiveFailures cur + 1) cur.

Definition updateKind (c : alertCondition) (cur : Alert) : AlertTransitionKind :=
  if bool_decide (c = alertConditionHealthy)
  then (if 3 <=? ConsecutiveSuccesses cur + 1 then AlertTransitionResolved
        else AlertTransitionUpdated)
  else if negb (alertVisible cur) then AlertTransitionOpened
  else if bool_decide (worst (Severity cur) (observedSeverity c) = Severity cur)
  then AlertTransitionUpdated else AlertTransitionUpgraded.

(** What one evaluation that reports success did. *)
Inductive AlertEffect (w : bool) (env : Env) (db : OpsDB) (e : Evaluation) (c : alertCondition) :
  OpsDB -> AlertTransition -> Prop :=
| EffIdle :
    selectUnresolvedAlert db (DedupeKey (EvalRule e)) = None -> c = alertConditionHealthy ->
    AlertEffect w env db e c db (MkTransition AlertTransitionNone None)
| EffSoon cur :
    selectUnresolvedAlert db (DedupeKey (EvalRule e)) = Some cur -> tooSoon e cur = true ->
    AlertEffect w env db e c db
      (MkTransition AlertTransitionNone (if alertVisible cur then Some cur else None))
| EffCandidate id :
    selectUnresolvedAlert db (DedupeKey (EvalRule e)) = None -> c <> alertConditionHealthy ->
    alerts db !! id = None -> alertRowCheck (candidateRow id e c) = true ->
    openKeyTaken db (candidateRow id e c) = false ->
    AlertEffect w env db e c (setAlerts (<[id := candidateRow id e c]> (alerts db)) db)
      (MkTransition AlertTransitionNone None)
| EffDrop cur :
    selectUnresolvedAlert db (DedupeKey (EvalRule e)) = Some cur -> tooSoon e cur = false ->
    c = alertConditionHealthy -> alertVisible cur = false ->
    AlertEffect w env db e c (deleteAlert (AlertID cur) db) (MkTransition AlertTransitionNone None)
| EffUpdate cur n1 n2 u db' :
    selectUnresolvedAlert db (DedupeKey (EvalRule e)) = Some cur -> tooSoon e cur = false ->
    (c = alertConditionHealthy -> alertVisible cur = true) ->
    alertRowCheck (updatedRow e c cur) = true -> openKeyTaken db (updatedRow e c cur) = false ->
    enqueueWebhookTransition w (updateKind c cur) (updatedRow e c cur) env
      (n1, setAlerts (<[AlertID cur := updatedRow e c cur]> (alerts db)) db) = ((n2, db'), Ok u) ->
    AlertEffect w env db e c db' (MkTransition (updateKind c cur) (Some (updatedRow e c cur))).

Lemma insertAlertCandidate_Ok e c env n db st a :
  insertAlertCandidate e c env (n, db) = (st, Ok a) ->
  exists id, alerts db !! id = None /\ alertRowCheck (candidateRow id e c) = true /\
    openKeyTaken db (candidateRow id e c) = false /\
    snd st = setAlerts (<[id := candidateRow id e c]> (alerts db)) db.
Proof.
  unfold insertAlertCandidate. intros Hrun. db_inv. case_bool_decide as Hid; db_inv.
  destruct (failingSeverityAndThreshold _ _) as [sv th] eqn:Hst.
  match goal with Hp : putAlert _ _ _ = _ |- _ =>
    apply putAlert_Ok in Hp as (-> & ? & Hcheck & Htaken) end.
  eexists; unfold candidateRow; rewrite Hst; split_and!; simplify_eq/=; try done.
  destruct (alerts _ !! _); [|done]. exfalso; eauto.
Qed.

Lemma evaluateBody_Ok w e c env n db st r :
  dbWf db -> evaluateBody w e c env (n, db) = (st, Ok r) ->
  AlertEffect w env db e c (snd st) r.
Proof.
  intros Hwf Hrun. unfold evaluateBody in Hrun. db_inv.
  destruct (selectUnresolvedAlert _ _) as [cur|] eqn:Hsel.
  2: { case_bool_decide as Hc; db_inv; [by constructor|].
       match goal with Hi : insertAlertCandidate _ _ _ _ = _ |- _ =>
         apply insertAlertCandidate_Ok in Hi as (id & Hid & Hcheck & Htaken & ->) end.
       by constructor. }
  destruct (select_lookup _ _ _ Hwf Hsel) as (Hlook & Hkey & Hopen & Hcur).
  destruct (tooSoon e cur) eqn:Hsoon; [db_inv; by constructor|].
  case_bool_decide as Hc.
  - destruct (alertVisible cur) eqn:Hv.
    + simpl in *. match goal with Hh : recordHealthyEvaluation _ _ _ _ _ = _ |- _ =>
        apply recordHealthy_Ok in Hh as (-> & Hcheck & Htaken & n1 & n2 & u & Henq) end; [|done].
      assert (updatedRow e c cur = healthyUpdate e (ConsecutiveSuccesses cur + 1) cur) as Hrow
        by (unfold updatedRow; by rewrite bool_decide_eq_true_2).
      assert (updateKind c cur = (if 3 <=? ConsecutiveSuccesses cur + 1
        then AlertTransitionResolved else AlertTransitionUpdated)) as Hkind
        by (unfold updateKind; by rewrite bool_decide_eq_true_2).
      rewrite <- Hrow, <- Hkind in *. by eapply EffUpdate.
    + simpl in *. db_inv. by apply EffDrop.
  - match goal with Hf : recordFailingEvaluation _ _ _ _ _ _ = _ |- _ =>
      apply recordFailing_Ok in Hf as (-> & Hcheck & Htaken & n1 & n2 & u & Henq) end; [|done|].
    2: { destruct (alertVisible cur) eqn:Hv; [by right|left].
         destruct (wf_hidden cur Hcur Hv) as (_ & -> & _). lia. }
    pose proof (EffUpdate w env _ e c cur n1 n2 u o Hsel Hsoon) as Hu.
    unfold updatedRow, updateKind in Hu. rewrite (bool_decide_eq_false_2 _ Hc) in Hu.
    apply Hu; done.
Qed.

Lemma candidateRow_wf id e c :
  validateAlertRule (EvalRule e) = Ok tt -> alertRowCheck (candidateRow id e c) = true ->
  alertWf (candidateRow id e c).
Proof.
  intros (Htext & _)%validateAlertRule_Ok Hcheck. constructor; simpl; try done;
    unfold pg; simpl; by rewrite stored_idemp.
Qed.

Lemma updatedRow_wf e c cur :
  alertWf cur -> validateAlertRule (EvalRule e) = Ok tt ->
  AlertDedupeKey cur = DedupeKey (EvalRule e) ->
  alertRowCheck (updatedRow e c cur) = true -> alertWf (updatedRow e c cur).
Proof.
  unfold updatedRow. intros. case_bool_decide; [by apply healthyUpdate_wf|by apply failingUpdate_wf].
Qed.

Lemma updatedRow_id e c cur :
  AlertID (updatedRow e c cur) = AlertID cur /\
  AlertDedupeKey (updatedRow e c cur) = AlertDedupeKey cur.
Proof. unfold updatedRow. by case_bool_decide. Qed.

Lemma dbWf_alerts db db' : alerts db' = alerts db -> dbWf db -> dbWf db'.
Proof. intros E [Hr Hu]. constructor; rewrite E; done. Qed.

Lemma deleteAlert_wf id db : dbWf db -> dbWf (deleteAlert id db).
Proof.
  intros Hwf. constructor; simpl.
  - intros k a [_ Hk]%lookup_delete_Some. by apply (wf_rows db Hwf).
  - intros k k' a a' key [_ Hk]%lookup_delete_Some [_ Hk']%lookup_delete_Some.
    by eapply (wf_unique db Hwf).
Qed.

Lemma effect_wf w env db e c db' r :
  dbWf db -> validateAlertRule (EvalRule e) = Ok tt ->
  AlertEffect w env db e c db' r -> dbWf db'.
Proof.
  intros Hwf Hrule Heff. destruct Heff; try done.
  - apply (putAlert_wf (candidateRow id e c)); [done| |done]. by apply candidateRow_wf.
  - by apply deleteAlert_wf.
  - destruct (select_lookup _ _ _ Hwf ltac:(eassumption)) as (Hlook & Hkey & _ & Hcur).
    match goal with Hq : enqueueWebhookTransition _ _ _ _ _ = _ |- _ =>
      apply enqueue_frame in Hq as [Hal _] end.
    eapply dbWf_alerts; [exact Hal|]. simpl.
    rewrite <- (proj1 (updatedRow_id e c cur)).
    apply putAlert_wf; [done| |done]. by apply updatedRow_wf.
Qed.

Lemma classify_rule e c : classifyAlertEvaluation e = Ok c -> validateAlertRule (EvalRule e) = Ok tt.
Proof. intros Hv%classify_Ok. by apply validateAlertEvaluation_Ok in Hv as (? & _). Qed.

Lemma EvaluateAlert_wf w e : preserves dbWf (EvaluateAlert w e).
Proof.
  intros env n db st r Hwf. unfold EvaluateAlert.
  destruct (classifyAlertEvaluation e) as [c|err] eqn:Hc;
    [|unfold dfail; intros; simplify_eq; done].
  assert (Hb : preserves dbWf (transact ErrDatabase ErrDatabase (evaluateBody w e c))).
  { apply transact_preserves. intros env' n' db1 st' a Hwf' Hrun.
    eapply effect_wf; [exact Hwf'|eapply classify_rule; eassumption|].
    by eapply evaluateBody_Ok. }
  destruct c; try (apply Hb; done). unfold dret. intros; simplify_eq; done.
Qed.

Definition acknowledgedRow (p : Principal) (now : Time) (a : Alert) : Alert :=
  MkAlert (AlertID a) (AlertDedupeKey a) (AlertCategory a) (Severity a) AlertStateAcknowledged
    (FirstObservedAt a) (LastObservedAt a) (Some (User_ID p)) (Some (pg now)) (ResolvedAt a)
    (CurrentValue a) (ThresholdValue a) (AlertSummary a) (TraceID a)
    (ConsecutiveFailures a) (ConsecutiveSuccesses a) (Version a + 1).

Definition acknowledgeAudit (p : Principal) (id : UUID) : AuditEvent :=
  MkAudit (User_ID p) "operations.alert_acknowledged" "operational_alert" id "acknowledged"
    (RequestID p) (PrincipalIP p).

(** What a successful acknowledgement did. *)
Lemma acknowledgeBody_Ok p id env n db st a :
  acknowledgeBody p id env (n, db) = (st, Ok a) ->
  exists cur, alerts db !! id = Some cur /\ alertVisible cur = true /\
    (State cur = AlertStateAcknowledged /\ a = cur /\ snd st = db \/
     State cur = AlertStateOpen /\
     exists now, a = acknowledgedRow p now cur /\
       alertRowCheck a = true /\ openKeyTaken db a = false /\
       snd st = addAudit (acknowledgeAudit p id)
                  (setAlerts (<[AlertID cur := a]> (alerts db)) db)).
Proof.
  unfold acknowledgeBody. intros Hrun. db_inv.
  destruct (alerts _ !! id) as [cur|] eqn:Hcur; db_inv.
  destruct (alertVisible cur) eqn:Hv; db_inv.
  case_bool_decide; db_inv. case_bool_decide; db_inv; [eauto 10|].
  destruct (negb _) eqn:Ho in *; db_inv. bool_simpl.
  match goal with Hp : putAlert _ _ _ = _ |- _ =>
    apply putAlert_Ok in Hp as (-> & ? & Hcheck & Htaken) end. simplify_eq/=.
  exists cur. split_and!; try done. right. split; [done|].
  exists (MkTime (dbclock env (S n)) None). done.
Qed.

Lemma acknowledgedRow_wf p now a :
  alertWf a -> alertRowCheck (acknowledgedRow p now a) = true ->
  State a <> AlertStateResolved -> alertWf (acknowledgedRow p now a).
Proof.
  intros Ha Hc Hs. constructor; simpl; [done|apply Ha..| |intros _; by apply Ha].
  intros Hv. exfalso. unfold alertVisible in Hv. simpl in Hv. bool_simpl.
  assert (1 <= Version a); [|lia].
  pose proof (wf_check a Ha) as Hca. unfold alertRowCheck, between in Hca. bool_simpl. lia.
Qed.

Lemma AcknowledgeAlert_wf p id : preserves dbWf (AcknowledgeAlert p id).
Proof.
  intros env n db st r Hwf. unfold AcknowledgeAlert.
  destruct (id =? NilUUID)%N; [unfold dfail; intros; simplify_eq; done|].
  destruct (authorizeSettings p); [|unfold dfail; intros; simplify_eq; done].
  apply (transact_preserves dbWf); [|done].
  intros env' n' db1 st' b Hwf' Hrun.
  apply acknowledgeBody_Ok in Hrun as (cur & Hcur & Hv & [(? & ? & ->)|(Ho & now & -> & Hc & Ht & ->)]);
    [done|].
  destruct (wf_rows db1 Hwf' id cur Hcur) as [Hid Hwa].
  apply (dbWf_alerts (setAlerts (<[AlertID cur := acknowledgedRow p now cur]> (alerts db1)) db1));
    [done|]. apply (putAlert_wf (acknowledgedRow p now cur)); try done.
  apply acknowledgedRow_wf; [done|done|congruence].
Qed.

(** ** Refinement of the abstract alert *)
Lemma select_ext db db' key :
  dbWf db -> dbWf db' ->
  (forall k a, AlertDedupeKey a = key -> alerts db' !! k = Some a <-> alerts db !! k = Some a) ->
  selectUnresolvedAlert db' key = selectUnresolvedAlert db key.
Proof.
  intros Hwf Hwf' Hext. destruct (selectUnresolvedAlert db key) as [a|] eqn:E.
  - apply select_Some in E as (k & Hk & Hu). eapply select_unique; [done| |done].
    apply Hext; [|done]. by apply unresolvedFor_spec in Hu as [? _].
  - apply select_None_intro. intros k a Hk. destruct (unresolvedFor key a) eqn:Hu; [|done].
    pose proof (proj1 (unresolvedFor_spec _ _) Hu) as [Hkey _].
    rewrite (select_None _ _ E k a) in Hu; [done|]. by apply Hext.
Qed.

Lemma insert_other_key db (row : Alert) k key (old : option Alert) :
  alerts db !! k = old -> AlertDedupeKey row <> key ->
  (forall o, old = Some o -> AlertDedupeKey o <> key) ->
  forall j a, AlertDedupeKey a = key ->
    <[k := row]> (alerts db) !! j = Some a <-> alerts db !! j = Some a.
Proof.
  intros Hold Hrow Ho j a Ha. rewrite lookup_insert. case_decide; [|done]. subst.
  split; [intros; simplify_eq; done|]. intros Hj. exfalso. by eapply Ho.
Qed.

Lemma effect_frame w env db e c db' r key :
  dbWf db -> dbWf db' -> AlertEffect w env db e c db' r -> key <> DedupeKey (EvalRule e) ->
  selectUnresolvedAlert db' key = selectUnresolvedAlert db key.
Proof.
  intros Hwf Hwf' Heff Hne. apply select_ext; [done..|]. destruct Heff; try done.
  - simpl. eapply insert_other_key; [eassumption|simpl; congruence|done].
  - destruct (select_lookup _ _ _ Hwf ltac:(eassumption)) as (Hlook & Hkey & _).
    intros k a Ha. simpl. rewrite lookup_delete_Some. split; [by intros [_ ?]|].
    intros Hk. split; [|done]. intros <-.
    pose proof (eq_trans (eq_sym Hlook) Hk) as [= ->]. congruence.
  - destruct (select_lookup _ _ _ Hwf ltac:(eassumption)) as (Hlook & Hkey & _).
    match goal with Hq : enqueueWebhookTransition _ _ _ _ _ = _ |- _ =>
      apply enqueue_frame in Hq as [Hal _] end. simpl in Hal. rewrite Hal.
    eapply insert_other_key; [eassumption| |].
    + rewrite (proj2 (updatedRow_id e c cur)). congruence.
    + intros o [= <-]. congruence.
Qed.

Lemma updated_visible e c cur : alertWf cur -> alertVisible (updatedRow e c cur) = true.
Proof.
  intros Hcur. unfold alertVisible. apply orb_true_iff. right. apply Z.leb_le.
  pose proof (wf_check cur Hcur) as Hca. unfold alertRowCheck, between in Hca. bool_simpl.
  assert (Version (updatedRow e c cur) = Version cur + 1); [|lia].
  unfold updatedRow. by destruct (bool_decide (c = alertConditionHealthy)).
Qed.

Lemma failing_condition_severity rule c :
  fst (failingSeverityAndThreshold rule c) = observedSeverity c.
Proof.
  unfold failingSeverityAndThreshold, observedSeverity.
  by destruct (bool_decide (c = alertConditionCritical)).
Qed.

(** The unresolved row of the key after an update. *)
Lemma update_select db db' e c cur :
  dbWf db' -> selectUnresolvedAlert db (DedupeKey (EvalRule e)) = Some cur -> dbWf db ->
  alerts db' = <[AlertID cur := updatedRow e c cur]> (alerts db) ->
  selectUnresolvedAlert db' (DedupeKey (EvalRule e)) =
    if bool_decide (State (updatedRow e c cur) = AlertStateResolved) then None
    else Some (updatedRow e c cur).
Proof.
  intros Hwf' Hsel Hwf Hal. destruct (select_lookup _ _ _ Hwf Hsel) as (Hlook & Hkey & Hopen & Hcur).
  case_bool_decide as Hs.
  - apply select_None_intro. intros k a. rewrite Hal, lookup_insert.
    case_decide; [intros; simplify_eq|].
    + apply not_true_iff_false. rewrite unresolvedFor_spec. by intros [_ ?].
    + intros Hk. destruct (unresolvedFor _ a) eqn:Hu; [|done]. exfalso.
      assert (Hu' : unresolvedFor (DedupeKey (EvalRule e)) cur = true)
        by (by apply unresolvedFor_spec).
      pose proof (wf_unique db Hwf k (AlertID cur) a cur _ Hk Hlook Hu Hu'). congruence.
  - eapply (select_unique db' _ (AlertID cur)); [done| |].
    + by rewrite Hal, lookup_insert_eq.
    + apply unresolvedFor_spec. by rewrite (proj2 (updatedRow_id e c cur)).
Qed.

Lemma update_phase db db' e c cur :
  dbWf db -> dbWf db' -> selectUnresolvedAlert db (DedupeKey (EvalRule e)) = Some cur ->
  (c = alertConditionHealthy -> alertVisible cur = true) ->
  alerts db' = <[AlertID cur := updatedRow e c cur]> (alerts db) ->
  (phase db' (DedupeKey (EvalRule e)), updateKind c cur) =
    specStep (phase db (DedupeKey (EvalRule e))) c.
Proof.
  intros Hwf Hwf' Hsel Hvis Hal. unfold phase.
  destruct (select_lookup _ _ _ Hwf Hsel) as (Hlook & Hkey & Hopen & Hcur).
  rewrite (update_select db db' e c cur Hwf' Hsel Hwf Hal), Hsel.
  pose proof (updated_visible e c cur Hcur) as Hv'.
  unfold specStep, phaseOf, updateKind, updatedRow in *.
  destruct (bool_decide (c = alertConditionHealthy)) eqn:Hc.
  - apply bool_decide_eq_true_1 in Hc. rewrite (Hvis Hc). simpl.
    destruct (3 <=? ConsecutiveSuccesses cur + 1) eqn:E3; simpl.
    + done.
    + rewrite bool_decide_eq_false_2 by done. by rewrite Hv'.
  - rewrite bool_decide_eq_false_2 by done. rewrite Hv'. simpl.
    by destruct (alertVisible cur).
Qed.

Lemma candidate_phase db e c id :
  dbWf db -> dbWf (setAlerts (<[id := candidateRow id e c]> (alerts db)) db) ->
  selectUnresolvedAlert db (DedupeKey (EvalRule e)) = None -> c <> alertConditionHealthy ->
  (phase (setAlerts (<[id := candidateRow id e c]> (alerts db)) db) (DedupeKey (EvalRule e)),
   AlertTransitionNone) = specStep (phase db (DedupeKey (EvalRule e))) c.
Proof.
  intros Hwf Hwf' Hsel Hc. unfold phase at 1.
  erewrite (select_unique _ _ id (candidateRow id e c)); [|done| |].
  - unfold phase. rewrite Hsel. simpl. rewrite (bool_decide_eq_false_2 _ Hc).
    by rewrite failing_condition_severity.
  - simpl. by rewrite lookup_insert_eq.
  - by apply unresolvedFor_spec.
Qed.

Lemma drop_phase db e cur :
  dbWf db -> selectUnresolvedAlert db (DedupeKey (EvalRule e)) = Some cur ->
  alertVisible cur = false ->
  (phase (deleteAlert (AlertID cur) db) (DedupeKey (EvalRule e)), AlertTransitionNone) =
    specStep (phase db (DedupeKey (EvalRule e))) alertConditionHealthy.
Proof.
  intros Hwf Hsel Hv. destruct (select_lookup _ _ _ Hwf Hsel) as (Hlook & Hkey & Hopen & Hcur).
  unfold phase. rewrite (select_None_intro (deleteAlert _ _)), Hsel; simpl; [by rewrite Hv|].
  intros k a [Hne Hk]%lookup_delete_Some. destruct (unresolvedFor _ a) eqn:Hu; [|done].
  exfalso. apply Hne. eapply (wf_unique db Hwf); [exact Hlook|exact Hk| |exact Hu].
  by apply unresolvedFor_spec.
Qed.

Lemma effect_refines w env db e c db' r :
  dbWf db -> dbWf db' -> AlertEffect w env db e c db' r ->
  (forall cur, selectUnresolvedAlert db (DedupeKey (EvalRule e)) = Some cur ->
     tooSoon e cur = false) ->
  (phase db' (DedupeKey (EvalRule e)), Kind r) = specStep (phase db (DedupeKey (EvalRule e))) c.
Proof.
  intros Hwf Hwf' Heff Hsoon. destruct Heff; simpl; subst.
  - unfold phase. by rewrite H0.
  - rewrite Hsoon in *; done.
  - by apply candidate_phase.
  - by apply drop_phase.
  - eapply update_phase; try eassumption.
    match goal with Hq : enqueueWebhookTransition _ _ _ _ _ = _ |- _ =>
      by apply enqueue_frame in Hq as [Hal _] end.
Qed.

(** ** The outbox *)
Record outboxWf (db : OpsDB) : Prop := {
  wf_event : forall k ev, events db !! k = Some ev ->
    EventID ev = k /\ 2 <= EventAlertVersion ev /\
    exists a, alerts db !! EventAlertID ev = Some a /\ EventAlertVersion ev <= Version a;
  wf_delivery : forall k d eid, deliveries db !! k = Some d -> DeliveryEventID d = Some eid ->
    exists ev, events db !! eid = Some ev /\ EventAlertID ev = DeliveryAlertID d
}.

Definition announced (kind : AlertTransitionKind) : bool :=
  match kind with
  | AlertTransitionOpened | AlertTransitionUpgraded | AlertTransitionResolved => true
  | _ => false
  end.

Definition scheduled (alertID eventID i1 i2 i3 : UUID) (at_ : Time) (m : gmap N Delivery) :
  gmap N Delivery :=
  <[i3 := pendingDelivery i3 alertID eventID 3 (addDuration at_ (30 * minute))]>
    (<[i2 := pendingDelivery i2 alertID eventID 2 (addDuration at_ (5 * minute))]>
      (<[i1 := pendingDelivery i1 alertID eventID 1 (addDuration at_ minute)]> m)).

Lemma attemptTaken_false db eventID attempt :
  (forall k d, deliveries db !! k = Some d -> DeliveryEventID d = Some eventID ->
     Attempt d < attempt) -> attemptTaken db eventID attempt = false.
Proof.
  intros Hall. apply not_true_iff_false. unfold attemptTaken. rewrite existsb_exists.
  intros ([k d] & Hin & Hd). bool_simpl.
  apply list_elem_of_In, elem_of_map_to_list in Hin.
  specialize (Hall k d Hin ltac:(done)). lia.
Qed.

Lemma insertDelivery_fresh alertID eventID attempt at_ env n db st u :
  (forall k d, deliveries db !! k = Some d -> DeliveryEventID d = Some eventID ->
     Attempt d < attempt) ->
  insertDelivery alertID eventID attempt at_ env (n, db) = (st, Ok u) ->
  exists id, deliveries db !! id = None /\
    snd st = setDeliveries
      (<[id := pendingDelivery id alertID eventID attempt at_]> (deliveries db)) db.
Proof.
  intros Hall Hrun. unfold insertDelivery in Hrun. db_inv.
  destruct (_ =? NilUUID)%N in *; db_inv. rewrite attemptTaken_false in * by done.
  case_bool_decide as Hid; db_inv. eexists. split; [|reflexivity].
  destruct (deliveries _ !! _); [|done]. exfalso; eauto.
Qed.

Lemma schedule_step eventID attempt (m : gmap N Delivery) id alertID at_ :
  (forall k d, m !! k = Some d -> DeliveryEventID d = Some eventID -> Attempt d < attempt) ->
  forall k d, <[id := pendingDelivery id alertID eventID attempt at_]> m !! k = Some d ->
    DeliveryEventID d = Some eventID -> Attempt d < attempt + 1.
Proof.
  intros Hall k d. rewrite lookup_insert. case_decide; intros; simplify_eq/=; [lia|].
  pose proof (Hall k d ltac:(done) ltac:(done)). lia.
Qed.

Lemma insertDeliveries_fresh alertID eventID at_ env n db st u :
  (forall k d, deliveries db !! k = Some d -> DeliveryEventID d <> Some eventID) ->
  insertDeliveries alertID eventID at_ 1 webhookAttemptDelays env (n, db) = (st, Ok u) ->
  exists i1 i2 i3, NoDup [i1; i2; i3] /\
    (forall i, i ∈ [i1; i2; i3] -> deliveries db !! i = None) /\
    snd st = setDeliveries (scheduled alertID eventID i1 i2 i3 at_ (deliveries db)) db.
Proof.
  intros Hfresh Hrun. simpl in Hrun. change (1 + 1 + 1) with 3 in Hrun.
  change (1 + 1) with 2 in Hrun. db_inv.
  match goal with Hd : insertDelivery _ _ 1 _ _ _ = _ |- _ =>
    apply insertDelivery_fresh in Hd as (i1 & N1 & E1) end;
    [|intros k d Hk He; exfalso; by eapply Hfresh].
  simpl in E1. subst.
  match goal with Hd : insertDelivery _ _ 2 _ _ _ = _ |- _ =>
    apply insertDelivery_fresh in Hd as (i2 & N2 & E2) end;
    [|apply (schedule_step _ 1); intros k d Hk He; exfalso; by eapply Hfresh].
  simpl in E2, N2. subst.
  match goal with Hd : insertDelivery _ _ 3 _ _ _ = _ |- _ =>
    apply insertDelivery_fresh in Hd as (i3 & N3 & E3) end;
    [|apply (schedule_step _ 2), (schedule_step _ 1); intros k d Hk He; exfalso; by eapply Hfresh].
  simpl in E3, N3. subst. rewrite !lookup_insert_None in N3. rewrite lookup_insert_None in N2.
  exists i1, i2, i3. split_and!; [| |done].
  - rewrite !NoDup_cons, !not_elem_of_cons. repeat split; try apply not_elem_of_nil;
      try apply NoDup_nil_2; naive_solver.
  - intros i. rewrite !elem_of_cons, elem_of_nil. naive_solver.
Qed.

Lemma findEvent_None db alertID kind version :
  (forall k ev, events db !! k = Some ev -> EventAlertID ev = alertID ->
     EventAlertVersion ev < version) -> findEvent db alertID kind version = None.
Proof.
  intros Hall. unfold findEvent. destruct (List.find _ _) as [[k ev]|] eqn:E; [|done].
  exfalso. apply find_some in E as [Hin Hs]. apply list_elem_of_In, elem_of_map_to_list in Hin.
  unfold sameTransition in Hs. bool_simpl. apply N.eqb_eq in H0.
  pose proof (Hall k ev Hin ltac:(done)). lia.
Qed.

Lemma insertEvent_fresh eventID kind a at_ env n db st r :
  (forall k ev, events db !! k = Some ev -> EventAlertID ev = AlertID a ->
     EventAlertVersion ev < Version a) ->
  insertEvent eventID kind a at_ env (n, db) = (st, Ok r) ->
  events db !! eventID = None /\ r = (eventID, pg at_) /\
  snd st = setEvents (<[eventID := eventOf eventID kind a at_]> (events db)) db.
Proof.
  intros Hall Hrun. unfold insertEvent in Hrun. db_inv.
  rewrite findEvent_None in * by done.
  destruct (_ || _) eqn:G in *; db_inv. bool_simpl. split_and!; try done.
  destruct (events _ !! _); [|done]. exfalso; eauto.
Qed.

Lemma postgresAlertTime_pg t : postgresAlertTime (pg t) = pg t.
Proof.
  unfold postgresAlertTime, pg, UTC, Round. simpl.
  destruct (stored_grid (ns t)) as [k ->].
  rewrite Z.mod_mul by (unfold microsecond; lia). simpl. by rewrite Z.sub_0_r.
Qed.

(** A successful enqueue of an announced transition of a row whose version is
    newer than any of its events. *)
Lemma enqueue_fresh w kind a env n db st u :
  (forall k ev, events db !! k = Some ev -> EventAlertID ev = AlertID a ->
     EventAlertVersion ev < Version a) ->
  (forall k d eid, deliveries db !! k = Some d -> DeliveryEventID d = Some eid ->
     is_Some (events db !! eid)) ->
  enqueueWebhookTransition w kind a env (n, db) = (st, Ok u) ->
  if w && announced kind then
    exists eid at_ i1 i2 i3,
      events db !! eid = None /\ NoDup [i1; i2; i3] /\
      (forall i, i ∈ [i1; i2; i3] -> deliveries db !! i = None) /\
      events (snd st) = <[eid := eventOf eid kind a at_]> (events db) /\
      deliveries (snd st) = scheduled (AlertID a) eid i1 i2 i3 (pg at_) (deliveries db)
  else snd st = db.
Proof.
  intros Hev Hdel Hrun. unfold enqueueWebhookTransition in Hrun.
  destruct (negb w || _ || _) eqn:G in Hrun.
  { db_inv. destruct w, kind; done. }
  bool_simpl. subst w. destruct (validWebhookTransition kind a) eqn:V in Hrun; [|db_inv].
  assert (announced kind = true) as ->.
  { unfold validWebhookTransition in V. destruct kind; try done;
    repeat (case_match; try done). }
  db_inv. destruct (_ || _) in *; db_inv. destruct (_ =? NilUUID)%N in *; db_inv.
  match goal with Hd : insertEvent _ _ _ _ _ _ = _ |- _ =>
    apply insertEvent_fresh in Hd as (Hn & -> & Hst); [|done] end.
  cbn [fst snd andb] in *. subst. rewrite postgresAlertTime_pg in *.
  match goal with Hd : insertDeliveries _ _ _ _ _ _ _ = _ |- _ =>
    apply insertDeliveries_fresh in Hd as (i1 & i2 & i3 & ? & ? & Hst) end.
  2: { simpl. intros k d Hk He. destruct (Hdel k d _ Hk He) as [ev Hs]. by rewrite Hn in Hs. }
  simpl in Hst. subst. eexists _, _, i1, i2, i3. split_and!; done.
Qed.

Lemma outbox_put db k row :
  outboxWf db -> (forall old, alerts db !! k = Some old -> Version old <= Version row) ->
  outboxWf (setAlerts (<[k := row]> (alerts db)) db).
Proof.
  intros Hwf Hver. constructor; simpl; [|apply (wf_delivery db Hwf)].
  intros j ev Hev. destruct (wf_event db Hwf j ev Hev) as (? & ? & a & Ha & Hle).
  split_and!; [done..|]. destruct (decide (k = EventAlertID ev)) as [->|Hne].
  - exists row. rewrite lookup_insert_eq. split; [done|]. specialize (Hver a Ha). lia.
  - exists a. by rewrite lookup_insert_ne.
Qed.

Lemma outbox_enqueue w kind a env n db st u :
  outboxWf db -> alerts db !! AlertID a = Some a -> 2 <= Version a ->
  (forall k ev, events db !! k = Some ev -> EventAlertID ev = AlertID a ->
     EventAlertVersion ev < Version a) ->
  enqueueWebhookTransition w kind a env (n, db) = (st, Ok u) -> outboxWf (snd st).
Proof.
  intros Hwf Ha Hv Hlt Hrun. pose proof (enqueue_frame _ _ _ _ _ _ _ _ Hrun) as [Hal _].
  apply enqueue_fresh in Hrun; [|done|].
  2: { intros k d eid Hk He. destruct (wf_delivery db Hwf k d eid Hk He) as (ev & ? & _). eauto. }
  destruct (w && announced kind); [|by rewrite Hrun].
  destruct Hrun as (eid & at_ & i1 & i2 & i3 & Hn & _ & _ & Hev & Hdel).
  constructor; rewrite Hev, ?Hdel, ?Hal.
  - intros k ev. rewrite lookup_insert. case_decide; [|apply (wf_event db Hwf)].
    intros; simplify_eq/=. split_and!; [done..|]. exists a. split; [done|lia].
  - intros k d e'. unfold scheduled. rewrite !lookup_insert.
    repeat case_decide; intros Hk He; simplify_eq/=; eauto;
      destruct (wf_delivery db Hwf k d e' Hk He) as (ev & Hs & Heq); [congruence|eauto].
Qed.

Lemma updated_version e c cur : Version (updatedRow e c cur) = Version cur + 1.
Proof. unfold updatedRow. by destruct (bool_decide (c = alertConditionHealthy)). Qed.

Lemma wf_version a : alertWf a -> 1 <= Version a.
Proof. intros Hc%wf_check. unfold alertRowCheck, between in Hc. bool_simpl. lia. Qed.

(** Before an update every event of the row is older than the new version. *)
Lemma events_older db e c cur :
  outboxWf db -> alerts db !! AlertID cur = Some cur ->
  forall k ev, events db !! k = Some ev -> EventAlertID ev = AlertID (updatedRow e c cur) ->
    EventAlertVersion ev < Version (updatedRow e c cur).
Proof.
  intros Ho Hcur k ev Hev Hid. rewrite (proj1 (updatedRow_id e c cur)) in Hid.
  destruct (wf_event db Ho k ev Hev) as (_ & _ & a & Ha & Hle).
  rewrite Hid in Ha. pose proof (eq_trans (eq_sym Ha) Hcur) as [= ->].
  rewrite updated_version. lia.
Qed.

Lemma deleteHidden_events db cur :
  outboxWf db -> alerts db !! AlertID cur = Some cur -> Version cur = 1 ->
  events (deleteAlert (AlertID cur) db) = events db.
Proof.
  intros Ho Hcur Hv. simpl. apply map_filter_id. intros k ev Hev Hid.
  destruct (wf_event db Ho k ev Hev) as (_ & H2 & a & Ha & Hle).
  rewrite Hid in Ha. pose proof (eq_trans (eq_sym Ha) Hcur) as [= ->]. lia.
Qed.

Lemma effect_outbox w env db e c db' r :
  dbWf db -> outboxWf db -> AlertEffect w env db e c db' r -> outboxWf db'.
Proof.
  intros Hwf Ho Heff. destruct Heff; try done.
  - apply outbox_put; [done|]. intros old Hold. congruence.
  - destruct (select_lookup _ _ _ Hwf ltac:(eassumption)) as (Hlook & _ & _ & Hcur).
    destruct (wf_hidden cur Hcur ltac:(done)) as (_ & _ & _ & Hv1).
    pose proof (deleteHidden_events db cur Ho Hlook Hv1) as Hsame.
    constructor; rewrite Hsame.
    + intros k ev Hev. destruct (wf_event db Ho k ev Hev) as (? & ? & a & Ha & Hle).
      split_and!; [done..|]. exists a. split; [|done]. simpl. rewrite lookup_delete_ne; [done|].
      intros Hid. rewrite <- Hid in Ha. pose proof (eq_trans (eq_sym Ha) Hlook) as [= ->]. lia.
    + simpl. intros k d eid [Hk _]%map_lookup_filter_Some. by apply (wf_delivery db Ho k).
  - destruct (select_lookup _ _ _ Hwf ltac:(eassumption)) as (Hlook & _ & _ & Hcur).
    match goal with Hq : enqueueWebhookTransition _ _ _ _ _ = _ |- _ =>
      apply outbox_enqueue in Hq end; [done| | | |].
    + apply outbox_put; [done|]. intros old Hold.
      pose proof (eq_trans (eq_sym Hold) Hlook) as [= ->]. rewrite updated_version. lia.
    + simpl. by rewrite (proj1 (updatedRow_id e c cur)), lookup_insert_eq.
    + rewrite updated_version. pose proof (wf_version cur Hcur). lia.
    + simpl. by apply events_older.
Qed.

(** ** Progress *)

(** Identifiers the store draws are new, and not the nil UUID. *)
Record freshIds (env : Env) (db : OpsDB) : Prop := {
  ids_inj : forall m n, uuids env m = uuids env n -> m = n;
  ids_nonnil : forall n, uuids env n <> NilUUID;
  ids_alerts : forall n, alerts db !! uuids env n = None;
  ids_events : forall n, events db !! uuids env n = None;
  ids_deliveries : forall n, deliveries db !! uuids env n = None
}.

Lemma putAlert_succeeds a env n db :
  alertRowCheck a = true -> openKeyTaken db a = false ->
  putAlert a env (n, db) = ((n, setAlerts (<[AlertID a := a]> (alerts db)) db), Ok a).
Proof. intros Hc Ht. unfold putAlert, dbind, dget. rewrite Hc, Ht. done. Qed.

Lemma insertDelivery_succeeds alertID eventID attempt at_ env n db :
  quiet env -> (forall m, uuids env m <> NilUUID) ->
  (forall m, (n <= m)%nat -> deliveries db !! uuids env m = None) ->
  (forall m m', uuids env m = uuids env m' -> m = m') ->
  exists n' db', insertDelivery alertID eventID attempt at_ env (n, db) = ((n', db'), Ok tt) /\
    (n <= n')%nat /\ forall m, (n' <= m)%nat -> deliveries db' !! uuids env m = None.
Proof.
  intros Hq Hnil Hfresh Hinj. unfold insertDelivery, dbind, newUUID, roundtrip, dget, dput, dret.
  rewrite (proj2 (N.eqb_neq _ _) (Hnil n)), Hq.
  destruct (attemptTaken db eventID attempt).
  - eexists _, _. split; [done|]. split; [lia|]. intros; apply Hfresh; lia.
  - rewrite bool_decide_eq_false_2 by (rewrite Hfresh by lia; by intros [? ?]).
    eexists _, _. split; [done|]. split; [lia|]. intros m Hm. simpl.
    rewrite lookup_insert_ne; [apply Hfresh; lia|]. intros Heq%Hinj. lia.
Qed.

Lemma insertDeliveries_succeeds alertID eventID at_ delays env :
  quiet env -> (forall m, uuids env m <> NilUUID) ->
  (forall m m', uuids env m = uuids env m' -> m = m') ->
  forall attempt n db,
  (forall m, (n <= m)%nat -> deliveries db !! uuids env m = None) ->
  exists st, insertDeliveries alertID eventID at_ attempt delays env (n, db) = (st, Ok tt).
Proof.
  intros Hq Hnil Hinj. induction delays as [|d l IH]; intros attempt n db Hfresh; simpl.
  - eexists. done.
  - destruct (insertDelivery_succeeds alertID eventID attempt (addDuration at_ d) env n db
                Hq Hnil Hfresh Hinj) as (n' & db' & Hrun & Hle & Hf').
    unfold dbind. rewrite Hrun. apply IH. done.
Qed.

Lemma category_runes category :
  member alertCategories category = true -> between 1 64 (RuneCountInString category) = true.
Proof.
  rewrite member_In. unfold alertCategories. rewrite !elem_of_cons, elem_of_nil.
  intros [-> | [-> | [-> | [-> | [-> | []]]]]]; done.
Qed.

Lemma summary_runes summary :
  safeAlertSummary summary = true -> between 1 240 (RuneCountInString summary) = true.
Proof.
  unfold safeAlertSummary, between. intros. bool_simpl.
  apply andb_true_iff; split; apply Z.leb_le; [by apply RuneCount_pos|lia].
Qed.

Lemma key_runes key :
  alertIdentifier key = true -> between 1 128 (RuneCountInString key) = true.
Proof.
  intros Hl%matchHead_len. unfold between.
  pose proof (RuneCount_between 1 128 key ltac:(lia) ltac:(lia)).
  apply andb_true_iff; split; apply Z.leb_le; lia.
Qed.

Lemma pg_not_Before a b : pg b = b -> Before a b = false -> Before (pg a) b = false.
Proof.
  intros Hb Hab. apply Before_false in Hab. apply Before_false. rewrite <- Hb. simpl.
  by apply stored_mono.
Qed.

Lemma eventOf_check id kind a at_ :
  validWebhookTransition kind a = true ->
  pg (FirstObservedAt a) = FirstObservedAt a -> Before at_ (FirstObservedAt a) = false ->
  eventRowCheck (eventOf id kind a at_) = true.
Proof.
  unfold validWebhookTransition. intros Hval Hpf Hb.
  destruct (_ || _ || Before _ _) eqn:G in Hval; [done|].
  destruct (negb (member _ _)) eqn:Hm in Hval; [done|]. clear Hval. bool_simpl.
  unfold eventRowCheck. simpl. rewrite category_runes, summary_runes by done.
  assert (pg (UTC (FirstObservedAt a)) = FirstObservedAt a) as -> by (rewrite <- Hpf at 2; done).
  rewrite !(pg_not_Before _ _ Hpf); done.
Qed.

Lemma insertEvent_succeeds id kind a at_ env n db :
  quiet env -> events db !! id = None ->
  (forall k ev, events db !! k = Some ev -> EventAlertID ev = AlertID a ->
     EventAlertVersion ev < Version a) ->
  eventRowCheck (eventOf id kind a at_) = true ->
  insertEvent id kind a at_ env (n, db) =
    ((S n, setEvents (<[id := eventOf id kind a at_]> (events db)) db), Ok (id, pg at_)).
Proof.
  intros Hq Hid Hold Hcheck. unfold insertEvent. rewrite call_run, dget_run by apply Hq.
  rewrite findEvent_None, Hcheck by done.
  by rewrite bool_decide_eq_false_2 by (rewrite Hid; by intros [? ?]).
Qed.

Lemma enqueue_succeeds w kind a env n db :
  quiet env -> freshIds env db ->
  (announced kind = true -> validWebhookTransition kind a = true) ->
  (announced kind = false -> kind = AlertTransitionUpdated) ->
  pg (FirstObservedAt a) = FirstObservedAt a ->
  (forall k ev, events db !! k = Some ev -> EventAlertID ev = AlertID a ->
     EventAlertVersion ev < Version a) ->
  (forall m, validSampleTime (postgresAlertTime (wall env m)) = true /\
     Before (postgresAlertTime (wall env m)) (FirstObservedAt a) = false) ->
  exists st, enqueueWebhookTransition w kind a env (n, db) = (st, Ok tt).
Proof.
  intros Hq Hf Hval Hother Hpf Hold Hwall. unfold enqueueWebhookTransition.
  destruct (announced kind) eqn:Hk.
  2: { rewrite Hother by done. simpl. rewrite orb_true_r. eexists; done. }
  destruct (negb w || _ || _); [eexists; done|]. rewrite Hval by done.
  unfold dbind at 1, wallNow. destruct (Hwall n) as [Hv Hb]. rewrite Hv, Hb. cbn [negb orb].
  unfold dbind at 1, newUUID. rewrite (proj2 (N.eqb_neq _ _) (ids_nonnil _ _ Hf _)).
  erewrite dbind_run; [|apply insertEvent_succeeds; first [done|apply Hf|by apply eventOf_check; auto]].
  apply insertDeliveries_succeeds; [done|apply Hf..|]. intros m _. apply Hf.
Qed.

(** The counters of a row leave room for one more evaluation, and its times are
    in the range the outbox accepts. *)
Record roomy (e : Evaluation) (cur : Alert) : Prop := {
  room_id : AlertID cur <> NilUUID;
  room_failures : ConsecutiveFailures cur < int4Max;
  room_version : Version cur < int8Max;
  room_first : validSampleTime (FirstObservedAt cur) = true;
  room_last : validSampleTime (pg (UTC (EvalObservedAt e))) = true
}.

Lemma notSoon_after e cur : tooSoon e cur = false -> ns (LastObservedAt cur) < ns (EvalObservedAt e).
Proof. unfold tooSoon. intros. bool_simpl. by apply After_spec. Qed.

Lemma updated_last e c cur : LastObservedAt (updatedRow e c cur) = pg (UTC (EvalObservedAt e)).
Proof. unfold updatedRow. by destruct (bool_decide (c = alertConditionHealthy)). Qed.

Lemma updated_first e c cur : FirstObservedAt (updatedRow e c cur) = FirstObservedAt cur.
Proof. unfold updatedRow. by destruct (bool_decide (c = alertConditionHealthy)). Qed.

Lemma updated_order e cur :
  alertWf cur -> tooSoon e cur = false ->
  Before (pg (UTC (EvalObservedAt e))) (FirstObservedAt cur) = false.
Proof.
  intros Hcur Hs%notSoon_after. apply pg_not_Before; [apply Hcur|].
  pose proof (wf_check cur Hcur) as Hc. unfold alertRowCheck in Hc. bool_simpl.
  repeat match goal with Hb : Before _ _ = false |- _ => apply Before_false in Hb end.
  apply Before_false. simpl. lia.
Qed.

Lemma worst_known s c :
  match s with OtherSeverity _ => false | _ => true end = true ->
  match worst s (observedSeverity c) with OtherSeverity _ => false | _ => true end = true.
Proof. unfold worst. by case_bool_decide. Qed.

(** Reduction of the columns of an updated row, and of nothing else. *)
Ltac row_cbn :=
  unfold healthyUpdate, failingUpdate;
  cbn [AlertID AlertDedupeKey AlertCategory Severity State FirstObservedAt LastObservedAt
       AcknowledgedBy AcknowledgedAt ResolvedAt CurrentValue ThresholdValue AlertSummary TraceID
       ConsecutiveFailures ConsecutiveSuccesses Version].

Lemma updated_check e c cur :
  alertWf cur -> State cur <> AlertStateResolved -> validateAlertEvaluation e = Ok tt ->
  tooSoon e cur = false -> roomy e cur -> alertRowCheck (updatedRow e c cur) = true.
Proof.
  intros Hcur Hopen Hev Hsoon Hroom.
  apply validateAlertEvaluation_Ok in Hev as (Hrule & Hval & _).
  apply validateAlertRule_Ok in Hrule as (Htext & Hw & Hcr & _).
  pose proof (updated_order e cur Hcur Hsoon) as Hord.
  pose proof (wf_check cur Hcur) as Hc. pose proof (wf_unresolved cur Hcur Hopen) as Hsucc.
  destruct Hroom as [_ Hf Hv _ _]. unfold ruleTextOk in Htext.
  unfold alertRowCheck in *. bool_simpl.
  unfold updatedRow. destruct (bool_decide (c = alertConditionHealthy)); row_cbn.
  - repeat match goal with Hx : ?x = true |- context [?x] => rewrite Hx end.
    rewrite Hord. unfold between in *. bool_simpl.
    assert (bool_decide (ResolvedAt cur = None) = true) as Hres.
    { rewrite (bool_decide_eq_false_2 (State cur = AlertStateResolved)) in * by done.
      by destruct (bool_decide (ResolvedAt cur = None)). }
    destruct (3 <=? ConsecutiveSuccesses cur + 1) eqn:E3; row_cbn.
    + rewrite Hord. cbn [andb orb negb]. repeat (apply andb_true_iff; split); try done; apply Z.leb_le;
        unfold int4Max in *; lia.
    + apply bool_decide_eq_true in Hres. rewrite Hres in *.
      repeat match goal with Hx : ?x = true |- context [?x] => rewrite Hx end.
      repeat (apply andb_true_iff; split); try done; apply Z.leb_le; unfold int4Max in *; lia.
  - rewrite category_runes, summary_runes by done.
    rewrite worst_known by done. rewrite Hord, Hval.
    repeat match goal with Hx : ?x = true |- context [?x] => rewrite Hx end.
    unfold between in *. bool_simpl.
    assert (validAlertFloat (if bool_decide (worst (Severity cur) (observedSeverity c)
              = AlertSeverityCritical) then Critical (EvalRule e) else Warning (EvalRule e))
            = true) as -> by (by destruct (bool_decide (worst _ _ = _))).
    repeat (apply andb_true_iff; split); try done; apply Z.leb_le; unfold int4Max, int8Max in *; lia.
Qed.

Lemma validWebhookTransition_intro kind a :
  AlertID a <> NilUUID -> 1 <= Version a ->
  ruleTextOk (AlertDedupeKey a) (AlertCategory a) (AlertSummary a) = true ->
  alertRowCheck a = true ->
  validSampleTime (FirstObservedAt a) = true -> validSampleTime (LastObservedAt a) = true ->
  match kind with
  | AlertTransitionOpened => State a = AlertStateOpen
  | AlertTransitionUpgraded => Severity a = AlertSeverityCritical /\ State a <> AlertStateResolved
  | AlertTransitionResolved => State a = AlertStateResolved
  | _ => False
  end -> validWebhookTransition kind a = true.
Proof.
  intros Hid Hver Htext Hcheck Hf Hl Hk. unfold ruleTextOk in Htext.
  unfold alertRowCheck in Hcheck. bool_simpl. unfold validWebhookTransition.
  rewrite (proj2 (N.eqb_neq _ _) Hid), (proj2 (Z.ltb_ge _ _) Hver).
  repeat match goal with Hx : ?x = true |- context [negb ?x] => rewrite Hx end.
  repeat match goal with Hx : Before _ _ = false |- _ => rewrite Hx end. cbn [negb orb].
  destruct (Severity a); try done; destruct (State a), kind; naive_solver.
Qed.

Lemma updated_transition e c cur :
  alertWf cur -> State cur <> AlertStateResolved -> validateAlertEvaluation e = Ok tt ->
  AlertDedupeKey cur = DedupeKey (EvalRule e) ->
  tooSoon e cur = false -> roomy e cur -> announced (updateKind c cur) = true ->
  (c = alertConditionHealthy -> alertVisible cur = true) ->
  validWebhookTransition (updateKind c cur) (updatedRow e c cur) = true.
Proof.
  intros Hcur Hopen Hev Hkey Hsoon Hroom Hann Hvis.
  pose proof (updated_check e c cur Hcur Hopen Hev Hsoon Hroom) as Hcheck.
  pose proof (updated_version e c cur) as Hver. pose proof (wf_version cur Hcur).
  apply validateAlertEvaluation_Ok in Hev as (Hrule & _).
  pose proof (updatedRow_wf e c cur Hcur Hrule Hkey Hcheck) as Hwf.
  apply validWebhookTransition_intro; try done.
  - rewrite (proj1 (updatedRow_id e c cur)). apply Hroom.
  - lia.
  - apply Hwf.
  - rewrite updated_first. apply Hroom.
  - rewrite updated_last. apply Hroom.
  - unfold updateKind, updatedRow in *.
    destruct (bool_decide (c = alertConditionHealthy)) eqn:Hc.
    + destruct (3 <=? _) eqn:E3; [|done]. row_cbn. by rewrite E3.
    + destruct (alertVisible cur) eqn:Hv; cbn [negb] in *.
      * destruct (bool_decide (worst (Severity cur) (observedSeverity c) = Severity cur)) eqn:Hw;
          [done|]. bool_simpl. row_cbn. split; [|done]. unfold worst in *. by case_bool_decide.
      * row_cbn. by destruct (wf_hidden cur Hcur Hv).
Qed.

Lemma openKeyFree db a :
  (State a <> AlertStateResolved -> forall k b, alerts db !! k = Some b ->
     unresolvedFor (AlertDedupeKey a) b = true -> k = AlertID a) ->
  openKeyTaken db a = false.
Proof.
  intros Hfree. unfold openKeyTaken. case_bool_decide as Hs; [done|]. simpl.
  apply not_true_iff_false. rewrite existsb_exists. intros ([k b] & Hin & Hb). bool_simpl.
  apply list_elem_of_In, elem_of_map_to_list in Hin. by eapply Hfree in Hin.
Qed.

Lemma updateUnresolved_succeeds id f env n db row :
  quiet env -> alerts db !! id = Some row -> State row <> AlertStateResolved ->
  alertRowCheck (f row) = true -> openKeyTaken db (f row) = false ->
  updateUnresolved id f env (n, db) =
    ((S n, setAlerts (<[AlertID (f row) := f row]> (alerts db)) db), Ok (f row)).
Proof.
  intros Hq Hrow Hs Hc Ht. unfold updateUnresolved. rewrite call_run, dget_run by apply Hq.
  rewrite Hrow, bool_decide_eq_false_2 by done. by apply putAlert_succeeds.
Qed.

(** Both updates run as the abstract update of the row, then the outbox. *)
Lemma record_run w e c cur env n db :
  quiet env -> alerts db !! AlertID cur = Some cur -> State cur <> AlertStateResolved ->
  alertWf cur -> alertRowCheck (updatedRow e c cur) = true ->
  openKeyTaken db (updatedRow e c cur) = false ->
  (if bool_decide (c = alertConditionHealthy) then recordHealthyEvaluation w cur e
   else recordFailingEvaluation w cur e c) env (n, db) =
  (do _ <- enqueueWebhookTransition w (updateKind c cur) (updatedRow e c cur);
   dret (MkTransition (updateKind c cur) (Some (updatedRow e c cur))))%db env
    (S n, setAlerts (<[AlertID cur := updatedRow e c cur]> (alerts db)) db).
Proof.
  intros Hq Hlook Hs Hcur Hc Ht.
  pose proof (proj1 (updatedRow_id e c cur)) as Hid.
  unfold updateKind, updatedRow in *. destruct (bool_decide (c = alertConditionHealthy)).
  - unfold recordHealthyEvaluation. erewrite dbind_run; [|by apply updateUnresolved_succeeds].
    by rewrite Hid.
  - unfold recordFailingEvaluation. rewrite failing_condition_severity.
    set (raise := bool_decide (observedSeverity c = AlertSeverityCritical)
               && negb (bool_decide (Severity cur = AlertSeverityCritical))).
    assert (Hw : (if raise then AlertSeverityCritical else Severity cur)
                 = worst (Severity cur) (observedSeverity c)).
    { unfold raise, worst. repeat case_bool_decide; simpl; congruence. }
    assert (Hr : raise = negb (bool_decide (worst (Severity cur) (observedSeverity c) = Severity cur))).
    { unfold raise, worst. repeat case_bool_decide; simpl; congruence. }
    rewrite Hw. clearbody raise. subst raise.
    erewrite dbind_run; [|by apply updateUnresolved_succeeds].
    rewrite Hid. destruct (alertVisible cur) eqn:Hv; cbn [negb andb].
    + by destruct (bool_decide (worst (Severity cur) (observedSeverity c) = Severity cur)).
    + destruct (wf_hidden cur Hcur Hv) as (_ & -> & _). done.
Qed.

(** What an evaluation needs of its surroundings to go through: no failing
    round trip, new identifiers, and a process clock not behind the alert. *)
Record serviceable (env : Env) (db : OpsDB) (e : Evaluation) : Prop := {
  srv_quiet : quiet env;
  srv_ids : freshIds env db;
  srv_row : forall cur, selectUnresolvedAlert db (DedupeKey (EvalRule e)) = Some cur ->
    roomy e cur /\
    forall m, validSampleTime (postgresAlertTime (wall env m)) = true /\
      Before (postgresAlertTime (wall env m)) (FirstObservedAt cur) = false
}.

Lemma candidate_succeeds e c env n db :
  quiet env -> freshIds env db -> validateAlertEvaluation e = Ok tt ->
  selectUnresolvedAlert db (DedupeKey (EvalRule e)) = None ->
  exists st a, insertAlertCandidate e c env (n, db) = (st, Ok a).
Proof.
  intros Hq Hf Hev Hsel. unfold insertAlertCandidate. rewrite call_run by apply Hq.
  unfold dbind at 1, newUUID. rewrite dget_run.
  rewrite bool_decide_eq_false_2 by (rewrite (ids_alerts _ _ Hf); by intros [? ?]).
  destruct (failingSeverityAndThreshold (EvalRule e) c) as [sv th] eqn:Hst.
  apply validateAlertEvaluation_Ok in Hev as (Hrule & Hval & _).
  apply validateAlertRule_Ok in Hrule as (Htext & Hw & Hc & _).
  unfold ruleTextOk in Htext. bool_simpl.
  eexists _, _. apply putAlert_succeeds.
  - unfold alertRowCheck. row_cbn.
    assert (validAlertFloat th = true /\ match sv with OtherSeverity _ => false | _ => true end = true)
      as [-> ->] by (unfold failingSeverityAndThreshold in Hst;
                     case_bool_decide; simplify_eq; done).
    rewrite key_runes, category_runes, summary_runes, Hval by done.
    assert (forall t, Before t t = false) as Hirr by (intros t; apply Before_false; lia).
    by rewrite Hirr.
  - apply openKeyFree. intros _ k b Hk Hb. simpl in Hb.
    rewrite (select_None _ _ Hsel k b Hk) in Hb. done.
Qed.

Lemma update_key_free db e c cur :
  dbWf db -> selectUnresolvedAlert db (DedupeKey (EvalRule e)) = Some cur ->
  openKeyTaken db (updatedRow e c cur) = false.
Proof.
  intros Hwf Hsel. destruct (select_lookup _ _ _ Hwf Hsel) as (Hlook & Hkey & Hopen & _).
  destruct (updatedRow_id e c cur) as [Hid Hk]. apply openKeyFree. rewrite Hid, Hk.
  intros _ k b Hb Hu. eapply (wf_unique db Hwf); [exact Hb|exact Hlook|exact Hu|].
  by apply unresolvedFor_spec.
Qed.

Lemma record_succeeds w e c cur env n db :
  dbWf db -> outboxWf db -> validateAlertEvaluation e = Ok tt -> serviceable env db e ->
  selectUnresolvedAlert db (DedupeKey (EvalRule e)) = Some cur -> tooSoon e cur = false ->
  (c = alertConditionHealthy -> alertVisible cur = true) ->
  exists st r,
  (if bool_decide (c = alertConditionHealthy) then recordHealthyEvaluation w cur e
   else recordFailingEvaluation w cur e c) env (n, db) = (st, Ok r).
Proof.
  intros Hwf Ho Hev [Hq Hf Hrow] Hsel Hsoon Hvis.
  destruct (select_lookup _ _ _ Hwf Hsel) as (Hlook & Hkey & Hopen & Hcur).
  destruct (Hrow cur Hsel) as [Hroom Hwall].
  pose proof (updated_check e c cur Hcur Hopen Hev Hsoon Hroom) as Hcheck.
  rewrite record_run; [|try done..|by apply update_key_free].
  destruct (enqueue_succeeds w (updateKind c cur) (updatedRow e c cur) env (S n)
    (setAlerts (<[AlertID cur := updatedRow e c cur]> (alerts db)) db)) as [st Hst].
  - done.
  - destruct Hf as [Hi Hn Ha He Hd]. constructor; simpl; try done.
    intros m. rewrite lookup_insert_ne; [apply Ha|]. intros Heq. specialize (Ha m). congruence.
  - intros Hann. by apply updated_transition.
  - unfold updateKind. by repeat case_match.
  - rewrite updated_first. apply Hcur.
  - simpl. by apply events_older.
  - rewrite updated_first. exact Hwall.
  - erewrite dbind_run by exact Hst. eexists _, _. done.
Qed.

Lemma evaluateBody_succeeds w e c env n db :
  dbWf db -> outboxWf db -> validateAlertEvaluation e = Ok tt -> serviceable env db e ->
  exists st r, evaluateBody w e c env (n, db) = (st, Ok r).
Proof.
  intros Hwf Ho Hev Hs. pose proof (srv_quiet _ _ _ Hs) as Hq. unfold evaluateBody.
  rewrite !call_run, dget_run by apply Hq.
  destruct (selectUnresolvedAlert db (DedupeKey (EvalRule e))) as [cur|] eqn:Hsel.
  - destruct (tooSoon e cur) eqn:Hsoon; [eexists _, _; done|].
    pose proof (record_succeeds w e c cur env (S (S n)) db Hwf Ho Hev Hs Hsel Hsoon) as Hrec.
    case_bool_decide as Hc; [|by apply Hrec].
    destruct (alertVisible cur); [by apply Hrec|]. cbn [negb]. rewrite call_run by apply Hq.
    eexists _, _; done.
  - case_bool_decide; [eexists _, _; done|].
    destruct (candidate_succeeds e c env (S (S n)) db Hq (srv_ids _ _ _ Hs) Hev Hsel)
      as (st & a & Hrun).
    erewrite dbind_run by exact Hrun. eexists _, _; done.
Qed.

(** *** Runs of the whole operation *)
Lemma EvaluateAlert_Ok w e env n db st r :
  dbWf db -> EvaluateAlert w e env (n, db) = (st, Ok r) ->
  exists c, classifyAlertEvaluation e = Ok c /\
    if bool_decide (c = alertConditionNeutral)
    then snd st = db /\ r = MkTransition AlertTransitionNone None
    else AlertEffect w env db e c (snd st) r.
Proof.
  intros Hwf. unfold EvaluateAlert.
  destruct (classifyAlertEvaluation e) as [c|]; [|done]. intros Hrun. exists c. split; [done|].
  destruct c; simpl;
    try (apply transact_Ok in Hrun as [n' Hrun]; by apply evaluateBody_Ok in Hrun).
  apply dret_Ok in Hrun as [-> ->]. done.
Qed.

Lemma EvaluateAlert_outbox w e :
  preserves (fun db => dbWf db /\ outboxWf db) (EvaluateAlert w e).
Proof.
  intros env n db st r Hpre. unfold EvaluateAlert.
  destruct (classifyAlertEvaluation e) as [c|] eqn:Hc;
    [|unfold dfail; intros; simplify_eq; done].
  assert (Hb : keeps (fun db => dbWf db /\ outboxWf db) (evaluateBody w e c)).
  { intros env' n' db' st' a [Hwf Ho] Hrun%evaluateBody_Ok; [|done]. split.
    - eapply effect_wf; [done|by eapply classify_rule|done].
    - by eapply effect_outbox. }
  destruct c; try exact (transact_preserves _ _ _ _ Hb env n db st r Hpre).
  unfold dret. intros; simplify_eq; done.
Qed.

Lemma AcknowledgeAlert_outbox p id :
  preserves (fun db => dbWf db /\ outboxWf db) (AcknowledgeAlert p id).
Proof.
  intros env n db st r [Hwf Ho] Hrun. split; [by eapply AcknowledgeAlert_wf|].
  revert Hrun. unfold AcknowledgeAlert.
  destruct (id =? NilUUID)%N; [unfold dfail; intros; simplify_eq; done|].
  destruct (authorizeSettings p); [|unfold dfail; intros; simplify_eq; done].
  intros Hrun. refine (proj2 (transact_preserves (fun db => dbWf db /\ outboxWf db) _ _ _ _ _ _ _ _
    _ (conj Hwf Ho) Hrun)).
  intros env' n' db1 st' b [Hwf' Ho'] Hb.
  apply acknowledgeBody_Ok in Hb as (cur & Hcur & Hv & [(? & ? & ->)|(Hop & now & -> & Hc & Ht & ->)]);
    [done|].
  destruct (wf_rows db1 Hwf' id cur Hcur) as [Hid Hwa]. split.
  - apply (dbWf_alerts (setAlerts (<[AlertID cur := acknowledgedRow p now cur]> (alerts db1)) db1));
      [done|]. apply (putAlert_wf (acknowledgedRow p now cur)); try done.
    apply acknowledgedRow_wf; [done|done|congruence].
  - destruct (outbox_put db1 (AlertID cur) (acknowledgedRow p now cur) Ho') as [H1 H2].
    + intros old Hold. rewrite Hid in Hold. simplify_eq. simpl. lia.
    + by constructor.
Qed.

Lemma RecordAlertDelivery_outbox d :
  preserves (fun db => dbWf db /\ outboxWf db) (RecordAlertDelivery d).
Proof.
  intros env n db st r Hpre. unfold RecordAlertDelivery.
  destruct (validAlertDelivery d); [|unfold dfail; intros; simplify_eq; done].
  cbv zeta. set (d' := MkAlertDelivery _ _ _ _ _ _ _ _ _).
  destruct (Before _ _); [unfold dfail; intros; simplify_eq; done|].
  refine (transact_preserves (fun db => dbWf db /\ outboxWf db) _ _ _ _ env n db st r Hpre).
  intros env' n' db1 st' u [Hwf Ho] Hrun. unfold recordDeliveryBody in Hrun. db_inv.
  destruct (findRecord _ _); db_inv; [destruct (sameAlertDelivery _ _); db_inv; done|].
  destruct (_ || _) eqn:G in *; db_inv. cbn [snd]. split.
  - by eapply dbWf_alerts; [|exact Hwf].
  - constructor; simpl; [apply Ho|]. intros k x eid. rewrite lookup_insert.
    case_decide; [intros; simplify_eq/=|apply (wf_delivery _ Ho)].
Qed.

(** *** Reachable tables *)
Inductive alertStep (db db' : OpsDB) : Prop :=
| StepEvaluate w e env n n' r :
    EvaluateAlert w e env (n, db) = ((n', db'), r) -> alertStep db db'
| StepAcknowledge p id env n n' r :
    AcknowledgeAlert p id env (n, db) = ((n', db'), r) -> alertStep db db'
| StepRecord d env n n' r :
    RecordAlertDelivery d env (n, db) = ((n', db'), r) -> alertStep db db'.

Definition emptyOps : OpsDB := MkOpsDB ∅ ∅ ∅ [].

Lemma emptyOps_wf : dbWf emptyOps /\ outboxWf emptyOps.
Proof. split; constructor; simpl; intros *; rewrite lookup_empty; done. Qed.

Lemma alertStep_wf db db' :
  dbWf db /\ outboxWf db -> alertStep db db' -> dbWf db' /\ outboxWf db'.
Proof.
  intros Hpre [w e env n n' r Hs|p id env n n' r Hs|d env n n' r Hs].
  - exact (EvaluateAlert_outbox w e env n db _ r Hpre Hs).
  - exact (AcknowledgeAlert_outbox p id env n db _ r Hpre Hs).
  - exact (RecordAlertDelivery_outbox d env n db _ r Hpre Hs).
Qed.

(** C2. In every table state the alert store can reach, whatever round trips
    fail and whatever commits are lost, every row satisfies the schema checks
    and the store's own row invariant, a dedupe key has at most one unresolved
    alert, every outbox event refers to an alert at least as new as itself and
    every scheduled delivery to an event of its own alert. *)
Theorem alert_store_invariant (db : OpsDB) :
  reachable (fun db0 => db0 = emptyOps) alertStep db -> dbWf db /\ outboxWf db.
Proof.
  apply (reachable_invariant _ _ (fun db => dbWf db /\ outboxWf db)).
  - intros s ->. apply emptyOps_wf.
  - apply alertStep_wf.
Qed.

(** C1. A successful [EvaluateAlert] refines the abstract alert of its dedupe
    key: a neutral or premature observation changes nothing and reports no
    transition; any other takes the key from one abstract phase to the next and
    reports exactly the transition the specification gives; and no other key's
    unresolved alert is touched. *)
Theorem EvaluateAlert_refines w e env n db st r :
  dbWf db -> EvaluateAlert w e env (n, db) = (st, Ok r) ->
  let key := DedupeKey (EvalRule e) in
  let ignored c := c = alertConditionNeutral \/
    exists cur, selectUnresolvedAlert db key = Some cur /\ tooSoon e cur = true in
  exists c, classifyAlertEvaluation e = Ok c /\
    (ignored c -> snd st = db /\ Kind r = AlertTransitionNone) /\
    (~ ignored c -> (phase (snd st) key, Kind r) = specStep (phase db key) c) /\
    forall other, other <> key ->
      selectUnresolvedAlert (snd st) other = selectUnresolvedAlert db other.
Proof.
  intros Hwf Hrun key ignored. pose proof (EvaluateAlert_wf w e env n db st _ Hwf Hrun) as Hwf'.
  destruct (EvaluateAlert_Ok _ _ _ _ _ _ _ Hwf Hrun) as (c & Hc & Heff).
  exists c. split; [done|]. case_bool_decide as Hn.
  - destruct Heff as [-> ->]. split_and!; try done. intros Hi. exfalso. apply Hi. by left.
  - split_and!.
    + intros [?|(cur & Hsel & Hsoon)]; [done|].
      subst key. destruct Heff; try done; congruence.
    + intros Hi. eapply effect_refines; try done. intros cur Hsel.
      destruct (tooSoon e cur) eqn:Hs; [|done]. exfalso. apply Hi. right. eauto.
    + intros other Hne. by eapply effect_frame.
Qed.

(** What an effect does to the outbox. *)
Lemma effect_announces w env db e c db' r :
  dbWf db -> outboxWf db -> AlertEffect w env db e c db' r ->
  if w && announced (Kind r) then
    exists a eid at_ i1 i2 i3, TransitionAlert r = Some a /\
      events db !! eid = None /\ NoDup [i1; i2; i3] /\
      (forall i, i ∈ [i1; i2; i3] -> deliveries db !! i = None) /\
      events db' = <[eid := eventOf eid (Kind r) a at_]> (events db) /\
      deliveries db' = scheduled (AlertID a) eid i1 i2 i3 (pg at_) (deliveries db)
  else events db' = events db /\
    forall k d, deliveries db' !! k = Some d -> deliveries db !! k = Some d.
Proof.
  intros Hwf Ho Heff.
  destruct Heff as [| | |cur Hsel _ _ Hv|cur n1 n2 u db' Hsel Hsoon Hvis Hch Htk Henq];
    simpl; rewrite ?andb_false_r; try done.
  - destruct (select_lookup _ _ _ Hwf Hsel) as (Hlook & _ & _ & Hcur).
    destruct (wf_hidden cur Hcur Hv) as (_ & _ & _ & Hv1).
    split; [by apply deleteHidden_events|]. by intros k d [Hk _]%map_lookup_filter_Some.
  - destruct (select_lookup _ _ _ Hwf Hsel) as (Hlook & _ & _ & Hcur).
    apply enqueue_fresh in Henq; simpl in *.
    + destruct (w && announced (updateKind c cur)).
      * destruct Henq as (eid & at_ & i1 & i2 & i3 & Hq).
        by exists (updatedRow e c cur), eid, at_, i1, i2, i3.
      * rewrite Henq. done.
    + by apply events_older.
    + intros k d eid Hk He. destruct (wf_delivery db Ho k d eid Hk He) as (ev & ? & _). eauto.
Qed.

(** C35. The outbox is transactional and exact: when alerts are announced, a
    successful evaluation that opens, upgrades or resolves an alert adds exactly
    one new event carrying the alert as returned, and exactly three new pending
    deliveries for it, one, five and thirty minutes after its enqueue time; any
    other successful evaluation leaves the events as they were and adds no
    delivery of an event. *)
Theorem outbox_exact w e env n db st r :
  dbWf db -> outboxWf db -> EvaluateAlert w e env (n, db) = (st, Ok r) ->
  if w && announced (Kind r) then
    exists a eid at_ i1 i2 i3, TransitionAlert r = Some a /\
      events db !! eid = None /\ NoDup [i1; i2; i3] /\
      (forall i, i ∈ [i1; i2; i3] -> deliveries db !! i = None) /\
      events (snd st) = <[eid := eventOf eid (Kind r) a at_]> (events db) /\
      deliveries (snd st) = scheduled (AlertID a) eid i1 i2 i3 (pg at_) (deliveries db)
  else events (snd st) = events db /\
    forall k d, deliveries (snd st) !! k = Some d -> deliveries db !! k = Some d.
Proof.
  intros Hwf Ho Hrun. destruct (EvaluateAlert_Ok _ _ _ _ _ _ _ Hwf Hrun) as (c & _ & Heff).
  case_bool_decide; [destruct Heff as [-> ->]; simpl; by rewrite andb_false_r|].
  by eapply effect_announces.
Qed.

(** Progress: on well-formed tables a valid evaluation succeeds when no
    round trip fails, generated identifiers are new, the counters of the row are
    below the range of their columns and the process clock is not behind the
    alert's first observation. *)
Theorem EvaluateAlert_succeeds w e env n db :
  dbWf db -> outboxWf db -> validateAlertEvaluation e = Ok tt -> serviceable env db e ->
  exists st r, EvaluateAlert w e env (n, db) = (st, Ok r).
Proof.
  intros Hwf Ho Hev Hs. unfold EvaluateAlert.
  pose proof (classify_valid e Hev) as Hc.
  destruct (evaluateBody_succeeds w e (conditionSpec e) env (S n) db Hwf Ho Hev Hs) as ([n' db'] & r & Hb).
  rewrite Hc. pose proof (transact_quiet ErrDatabase ErrDatabase
    (evaluateBody w e (conditionSpec e)) env n db (srv_quiet _ _ _ Hs)) as Ht.
  rewrite Hb in Ht. destruct (conditionSpec e); eauto.
Qed.

(** A successful acknowledgement returns a visible, unresolved alert and is
    exactly one of two things: the first one, which stamps the alert with the
    principal and the database clock, bumps its version and appends one audit
    event in the same transaction; or a repeat, which returns the row unchanged
    and writes nothing.  It only happens for an authorised principal. *)
Theorem AcknowledgeAlert_effect p id env n db st a :
  AcknowledgeAlert p id env (n, db) = (st, Ok a) ->
  authorizeSettings p = Ok tt /\
  exists cur, alerts db !! id = Some cur /\ alertVisible cur = true /\
    (State cur = AlertStateAcknowledged /\ a = cur /\ snd st = db \/
     State cur = AlertStateOpen /\ exists now, a = acknowledgedRow p now cur /\
       alertRowCheck a = true /\
       snd st = addAudit (acknowledgeAudit p id)
                  (setAlerts (<[AlertID cur := a]> (alerts db)) db)).
Proof.
  unfold AcknowledgeAlert. destruct (id =? NilUUID)%N; [done|].
  destruct (authorizeSettings p) as [[]|]; [|done].
  intros [n' Hrun]%transact_Ok. split; [done|].
  apply acknowledgeBody_Ok in Hrun as (cur & ? & ? & [?|(? & now & ? & ? & _ & ?)]); naive_solver.
Qed.

End StoreProofs.

(** ** Evaluated instances *)
Section Examples.
#[local] Existing Instance PgTruncate.

Definition rootEvaluation (minutes percent : Z) : Evaluation :=
  MkEvaluation rootRule (of_Z percent) (addDuration exampleNow (minutes * minute)) true 1.

Definition exampleEnv (k : N) : Env :=
  calm (ns exampleNow) (addDuration exampleNow hour) (fun n => (k + N.of_nat n)%N).

(** A first critical observation, and a second one a minute later. *)
Definition suspected : OpsDB := exec (EvaluateAlert true (rootEvaluation 0 95)) (exampleEnv 1) emptyOps.
Definition opened : OpsDB := exec (EvaluateAlert true (rootEvaluation 1 95)) (exampleEnv 100) suspected.

Lemma suspected_step : alertStep emptyOps suspected.
Proof.
  unfold suspected, exec.
  destruct (EvaluateAlert true (rootEvaluation 0 95) (exampleEnv 1) (0%nat, emptyOps))
    as [[n db] r] eqn:E. by eapply StepEvaluate.
Qed.

Lemma opened_step : alertStep suspected opened.
Proof.
  unfold opened, exec.
  destruct (EvaluateAlert true (rootEvaluation 1 95) (exampleEnv 100) (0%nat, suspected))
    as [[n db] r] eqn:E. by eapply StepEvaluate.
Qed.

Lemma suspected_wf : dbWf suspected /\ outboxWf suspected.
Proof. exact (alertStep_wf _ _ emptyOps_wf suspected_step). Qed.

Lemma alert_store_invariant_witness :
  size (alerts suspected) = 1%nat /\ dbWf suspected /\ outboxWf suspected.
Proof.
  split; [vm_compute; reflexivity|]. apply (alert_store_invariant suspected).
  eapply reach_step; [apply reach_init; reflexivity|exact suspected_step].
Defined.

Lemma EvaluateAlert_refines_witness :
  exists c, classifyAlertEvaluation (rootEvaluation 1 95) = Ok c /\
    (phase opened "filesystem_root_usage", AlertTransitionOpened) =
      specStep (phase suspected "filesystem_root_usage") c.
Proof.
  destruct (EvaluateAlert true (rootEvaluation 1 95) (exampleEnv 100) (0%nat, suspected))
    as [st r] eqn:E.
  destruct r as [r|err]; [|vm_compute in E; discriminate E].
  assert (Hst : snd st = opened) by (unfold opened, exec; rewrite E; reflexivity).
  assert (Hk : Kind r = AlertTransitionOpened).
  { assert (Hv : value (EvaluateAlert true (rootEvaluation 1 95)) (exampleEnv 100) suspected = Ok r)
      by (unfold value; rewrite E; reflexivity).
    destruct r as [k o]. vm_compute in Hv. by injection Hv. }
  destruct (EvaluateAlert_refines true (rootEvaluation 1 95) (exampleEnv 100) 0 suspected st r
              (proj1 suspected_wf) E) as (c & Hc & _ & Hstep & _).
  exists c. split; [exact Hc|]. rewrite Hst, Hk in Hstep. apply Hstep.
  intros [->|(cur & Hs & Ht)].
  - vm_compute in Hc. discriminate Hc.
  - assert (Hsel : (tooSoon (rootEvaluation 1 95) <$>
      selectUnresolvedAlert suspected "filesystem_root_usage") = Some false)
      by (vm_compute; reflexivity).
    change "filesystem_root_usage" with (DedupeKey (EvalRule (rootEvaluation 1 95))) in Hsel.
    rewrite Hs in Hsel. simpl in Hsel. congruence.
Defined.

Lemma outbox_exact_witness :
  exists st r, EvaluateAlert true (rootEvaluation 1 95) (exampleEnv 100) (0%nat, suspected) = (st, Ok r) /\
    exists eid, events suspected !! eid = None /\ is_Some (events (snd st) !! eid).
Proof.
  destruct (EvaluateAlert true (rootEvaluation 1 95) (exampleEnv 100) (0%nat, suspected))
    as [st r] eqn:E.
  destruct r as [r|err]; [|vm_compute in E; discriminate E].
  exists st, r. split; [reflexivity|].
  pose proof (outbox_exact true (rootEvaluation 1 95) (exampleEnv 100) 0 suspected st r
              (proj1 suspected_wf) (proj2 suspected_wf) E) as Hx.
  assert (Hk : Kind r = AlertTransitionOpened).
  { assert (Hv : value (EvaluateAlert true (rootEvaluation 1 95)) (exampleEnv 100) suspected = Ok r)
      by (unfold value; rewrite E; reflexivity).
    destruct r as [k o]. vm_compute in Hv. by injection Hv. }
  rewrite Hk in Hx. destruct Hx as (a & eid & at_ & i1 & i2 & i3 & _ & Hn & _ & _ & -> & _).
  exists eid. split; [exact Hn|]. rewrite lookup_insert_eq. eauto.
Defined.

Lemma exampleEnv_fresh k db :
  (0 < k)%N -> (forall i a, alerts db !! i = Some a -> (i < k)%N) ->
  events db = ∅ -> deliveries db = ∅ -> freshIds (exampleEnv k) db.
Proof.
  intros Hk Ha He Hd. constructor; simpl; unfold NilUUID.
  - intros; lia.
  - intros; lia.
  - intros n. destruct (alerts db !! _) eqn:E; [|done]. apply Ha in E. lia.
  - intros n. by rewrite He.
  - intros n. by rewrite Hd.
Qed.

Lemma EvaluateAlert_succeeds_witness :
  exists st r, EvaluateAlert true (rootEvaluation 1 95) (exampleEnv 100) (0%nat, emptyOps) = (st, Ok r).
Proof.
  apply (EvaluateAlert_succeeds true (rootEvaluation 1 95) (exampleEnv 100) 0 emptyOps).
  - exact (proj1 emptyOps_wf).
  - exact (proj2 emptyOps_wf).
  - vm_compute; reflexivity.
  - constructor.
    + intros n. reflexivity.
    + apply exampleEnv_fresh; [lia| |done|done]. intros i a. simpl. by rewrite lookup_empty.
    + intros cur Hs. vm_compute in Hs. discriminate Hs.
Defined.

Definition exampleAdmin : Principal :=
  MkPrincipal 7%N RoleAdmin StatusActive "request-1" (Some [127; 0; 0; 1]).

Definition acknowledgeEnv : Env :=
  calm (ns exampleNow + hour) exampleNow (fun n => N.of_nat n).

Lemma AcknowledgeAlert_effect_witness :
  exists st a, AcknowledgeAlert exampleAdmin 5%N acknowledgeEnv (0%nat, opened) = (st, Ok a) /\
    State a = AlertStateAcknowledged /\ authorizeSettings exampleAdmin = Ok tt.
Proof.
  destruct (AcknowledgeAlert exampleAdmin 5%N acknowledgeEnv (0%nat, opened)) as [st r] eqn:E.
  destruct r as [a|err]; [|vm_compute in E; discriminate E].
  exists st, a. split; [reflexivity|].
  destruct (AcknowledgeAlert_effect exampleAdmin 5%N acknowledgeEnv 0 opened st a E)
    as (Hauth & cur & _ & _ & [(Hs & -> & _)|(_ & now & -> & _)]); split; auto.
Defined.

End Examples.
