(* ===== verification/WebhookDelivery.v ===== *)
(** * Webhook deliveries ([internal/operations/postgres_webhook_delivery.go],
      [webhook_delivery.go], [webhook_sender.go] and [webhook_runner.go])

    The delivery store claims a due attempt of an event, and completes or
    abandons it under its claim; the sender turns the transport's answer into a
    delivery result; the runner joins them.  The HTTP transport, the JSON
    encoder and the UUID text format are parameters. *)

From stdpp Require Import base tactics list gmap strings.
From Stdlib Require Import ZArith Lia.
From S2P Require Import Prelude GoTime GoText GoFloat Pg OpsModel Samples AlertRules AlertStore AlertProofs.

Open Scope Z_scope.

Definition DefaultWebhookLeaseDuration : Z := 30 * second.
Definition maxWebhookLeaseDuration : Z := 5 * minute.
Definition DefaultWebhookPollInterval : Z := 5 * second.
Definition defaultWebhookSendTimeout : Z := 15 * second.
Definition maxWebhookNetworkTimeout : Z := 30 * second.

(** ** Data *)

(** The event of a job is its outbox row; the enqueue time is not read. *)
Record WebhookDeliveryJob := MkJob {
  JobID : UUID;
  JobEventID : UUID;
  JobAlertID : UUID;
  JobAttempt : Z;
  JobScheduledAt : Time;
  JobStartedAt : Time;
  JobClaimOwner : string;
  JobClaimToken : UUID;
  JobClaimExpiresAt : Time;
  JobEvent : WebhookEvent
}.

Record WebhookDeliveryResult := MkResult {
  Succeeded : bool;
  Retryable : bool;
  ResultStatusClass : Z;
  ResultErrorCategory : string
}.

(** The pattern [^[A-Za-z0-9][A-Za-z0-9._:-]{0,127}$]. *)
Definition webhookClaimOwner (s : string) : bool :=
  matchHead isAlnum (fun b => isAlnum b || oneOf "._:-" b) 0 127 s.

Definition webhookDeliveryErrorCategories : list string :=
  ["client_error"; "network"; "protocol_error"; "rate_limited"; "redirect_rejected";
   "request_too_large"; "response_read"; "response_too_large"; "server_error"; "timeout"].

Definition validWebhookDeliveryResult (r : WebhookDeliveryResult) : bool :=
  if (ResultStatusClass r <? 0) || (5 <? ResultStatusClass r) then false
  else if Succeeded r
  then negb (Retryable r) && (ResultStatusClass r =? 2)
       && bool_decide (ResultErrorCategory r = "")
  else if bool_decide (ResultErrorCategory r = "") then false
  else member webhookDeliveryErrorCategories (ResultErrorCategory r).

Definition validWebhookDeliveryJobClaim (job : WebhookDeliveryJob) : bool :=
  negb (JobID job =? NilUUID)%N && negb (JobEventID job =? NilUUID)%N
  && negb (JobAlertID job =? NilUUID)%N
  && (1 <=? JobAttempt job) && (JobAttempt job <=? Z.of_nat (length webhookAttemptDelays))
  && webhookClaimOwner (JobClaimOwner job) && negb (JobClaimToken job =? NilUUID)%N
  && validSampleTime (JobScheduledAt job) && validSampleTime (JobStartedAt job)
  && validSampleTime (JobClaimExpiresAt job)
  && negb (Before (JobClaimExpiresAt job) (JobStartedAt job)).

(** The alert literal built from an event for [validWebhookTransition]. *)
Definition eventAlert (ev : WebhookEvent) : Alert :=
  MkAlert (EventAlertID ev) "" (EventCategory ev) (EventSeverity ev) (EventState ev)
    (EventFirstObservedAt ev) (EventLastObservedAt ev) None None None
    (EventCurrentValue ev) (EventThresholdValue ev) (EventSummary ev) "" 0 0
    (EventAlertVersion ev).

(** ** Claiming *)

(** The CASE of the query: when a pending attempt is due, or a claim expires. *)
Definition effectiveDue (d : Delivery) : option Time :=
  match DState d with
  | DeliveryPending => ScheduledAt d
  | DeliveryClaimed => ClaimExpiresAt d
  | _ => None
  end.

Definition sameEvent (d d' : Delivery) : bool :=
  match DeliveryEventID d, DeliveryEventID d' with
  | Some e, Some e' => (e =? e')%N
  | _, _ => false
  end.

Definition rows (db : OpsDB) : list Delivery := snd <$> map_to_list (deliveries db).

Definition previousFailed (all : list Delivery) (d : Delivery) : bool :=
  existsb (fun p => sameEvent p d && (Attempt p =? Attempt d - 1)
                    && bool_decide (Destination p = Destination d)
                    && bool_decide (DState p = DeliveryFailed)) all.

Definition liveClaim (now : Time) (d : Delivery) : bool :=
  bool_decide (DState d = DeliveryClaimed)
  && match ClaimExpiresAt d with Some t => After t now | None => false end.

Definition otherActive (all : list Delivery) (now : Time) (d : Delivery) : bool :=
  existsb (fun a => sameEvent a d && negb (DeliveryID a =? DeliveryID d)%N && liveClaim now a) all.

Definition eventSucceeded (all : list Delivery) (d : Delivery) : bool :=
  existsb (fun s => sameEvent s d && bool_decide (DState s = DeliverySucceeded)) all.

(** The WHERE clause of the candidate. *)
Definition claimable (all : list Delivery) (now : Time) (d : Delivery) : bool :=
  negb (bool_decide (DeliveryEventID d = None))
  && (bool_decide (DState d = DeliveryPending) || bool_decide (DState d = DeliveryClaimed))
  && match effectiveDue d with Some t => negb (After t now) | None => false end
  && ((Attempt d =? 1) || previousFailed all d)
  && negb (otherActive all now d) && negb (eventSucceeded all d).

(** The ORDER BY of the candidate: due time, event, attempt, id. *)
Definition claimKey (d : Delivery) : Z * (Z * (Z * Z)) :=
  (or_zero 0 (ns <$> effectiveDue d),
   (Z.of_N (or_zero 0%N (DeliveryEventID d)), (Attempt d, Z.of_N (DeliveryID d)))).

Definition lexLe (p q : Z * (Z * (Z * Z))) : bool :=
  let '(a1, (b1, (c1, d1))) := p in
  let '(a2, (b2, (c2, d2))) := q in
  (a1 <? a2) || ((a1 =? a2) && ((b1 <? b2) || ((b1 =? b2) &&
    ((c1 <? c2) || ((c1 =? c2) && (d1 <=? d2)))))).

(** [ORDER BY ... LIMIT 1]. *)
Fixpoint firstByKey (l : list Delivery) : option Delivery :=
  match l with
  | [] => None
  | d :: l' =>
    match firstByKey l' with
    | None => Some d
    | Some b => if lexLe (claimKey d) (claimKey b) then Some d else Some b
    end
  end.

(** The claimable row the query picks; rows locked by other transactions are
    skipped. *)
Definition candidate (db : OpsDB) (now : Time) (locked : UUID -> bool) : option Delivery :=
  firstByKey (List.filter (fun d => claimable (rows db) now d && negb (locked (DeliveryID d)))
                (rows db)).

Section DeliveryStore.
Context `{PgTime}.

(** The SET clause of the claim. *)
Definition claimedRow (owner : string) (token : UUID) (now expiresAt : Time) (d : Delivery) :
  Delivery :=
  MkDelivery (DeliveryID d) (DeliveryAlertID d) (DeliveryEventID d) (Attempt d) (Destination d)
    DeliveryClaimed None None "" (ScheduledAt d) (Some (pg now)) None
    (Some owner) (Some token) (Some (pg expiresAt)).

Definition putDelivery (d : Delivery) (db : OpsDB) : OpsDB :=
  setDeliveries (<[DeliveryID d := d]> (deliveries db)) db.

Definition claimBody (owner : string) (token : UUID) (now expiresAt : Time)
    (locked : UUID -> bool) : DB OpsDB OpsError (option WebhookDeliveryJob) :=
  (do db <- dget;
   match candidate db now locked with
   | None => dret None
   | Some d =>
     let d' := claimedRow owner token now expiresAt d in
     do _ <- dput (putDelivery d' db);
     match DeliveryEventID d' with
     | None => dret None
     | Some eid =>
       match events db !! eid with
       | None => dret None
       | Some ev =>
         dret (Some (MkJob (DeliveryID d') eid (DeliveryAlertID d') (Attempt d')
                (or_zero zeroTime (ScheduledAt d')) (pg now) owner token (pg expiresAt) ev))
       end
     end
   end)%db.

Definition Claim (owner : string) (token : UUID) (now : Time) (leaseDuration : Z)
    (locked : UUID -> bool) : DB OpsDB OpsError (option WebhookDeliveryJob) :=
  (fail if negb (webhookClaimOwner owner) || (token =? NilUUID)%N || negb (validSampleTime now)
           || (leaseDuration <=? 0) || (maxWebhookLeaseDuration <? leaseDuration)
     with ErrInvalid;
   let now := postgresAlertTime now in
   let expiresAt := postgresAlertTime (addDuration now leaseDuration) in
   do claimed <- transact ErrDatabase ErrDatabase (claimBody owner token now expiresAt locked);
   match claimed with
   | None => dret None
   | Some job =>
     fail if negb (JobEventID job =? EventID (JobEvent job))%N
             || negb (JobAlertID job =? EventAlertID (JobEvent job))%N
             || negb (validWebhookTransition (TransitionKind (JobEvent job))
                        (eventAlert (JobEvent job))) with ErrInvalid;
     dret (Some job)
   end)%db.

(** ** Completing and abandoning *)

(** The row conditions both updates share. *)
Definition heldBy (job : WebhookDeliveryJob) (d : Delivery) : bool :=
  bool_decide (DeliveryEventID d = Some (JobEventID job))
  && (DeliveryAlertID d =? JobAlertID job)%N
  && bool_decide (DState d = DeliveryClaimed)
  && bool_decide (ClaimOwner d = Some (JobClaimOwner job))
  && bool_decide (ClaimToken d = Some (JobClaimToken job)).

Definition unexpiredAt (t : Time) (d : Delivery) : bool :=
  match ClaimExpiresAt d with Some e => After e t | None => false end.

Definition finishedRow (r : WebhookDeliveryResult) (finishedAt : Time) (d : Delivery) : Delivery :=
  MkDelivery (DeliveryID d) (DeliveryAlertID d) (DeliveryEventID d) (Attempt d) (Destination d)
    (if Succeeded r then DeliverySucceeded else DeliveryFailed)
    (Some (if Succeeded r then "succeeded" else "failed"))
    (nullableStatusClass (ResultStatusClass r)) (ResultErrorCategory r)
    (ScheduledAt d) (StartedAt d) (Some (pg finishedAt)) None None None.

Definition cancelledRow (finishedAt : Time) (d : Delivery) : Delivery :=
  MkDelivery (DeliveryID d) (DeliveryAlertID d) (DeliveryEventID d) (Attempt d) (Destination d)
    DeliveryCancelled (Some "cancelled") None "" (ScheduledAt d) (StartedAt d)
    (Some (pg finishedAt)) None None None.

Definition cancelLater (eventID : UUID) (attempt : Z) (finishedAt : Time) (db : OpsDB) : OpsDB :=
  setDeliveries
    ((fun d => if bool_decide (DeliveryEventID d = Some eventID) && (attempt <? Attempt d)
                  && bool_decide (DState d = DeliveryPending)
               then cancelledRow finishedAt d else d) <$> deliveries db) db.

(** The CHECK that a finished row does not end before it started. *)
Definition finishedInOrder (d : Delivery) : bool :=
  match StartedAt d, FinishedAt d with
  | Some s, Some f => negb (Before f s)
  | _, _ => false
  end.

Definition completeBody (job : WebhookDeliveryJob) (r : WebhookDeliveryResult)
    (finishedAt : Time) : DB OpsDB OpsError unit :=
  (call ErrDatabase;
   do db <- dget;
   match deliveries db !! JobID job with
   | None => dfail ErrConflict
   | Some d =>
     guard heldBy job d && unexpiredAt finishedAt d else ErrConflict;
     let d' := finishedRow r finishedAt d in
     guard finishedInOrder d' else ErrDatabase;
     do _ <- dput (putDelivery d' db);
     if Succeeded r || negb (Retryable r)
     then call ErrDatabase;
          do db' <- dget;
          dput (cancelLater (JobEventID job) (JobAttempt job) finishedAt db')
     else dret tt
   end)%db.

Definition Complete (job : WebhookDeliveryJob) (r : WebhookDeliveryResult) (finishedAt : Time) :
  DB OpsDB OpsError unit :=
  (fail if negb (validWebhookDeliveryJobClaim job) || negb (validWebhookDeliveryResult r)
           || negb (validSampleTime finishedAt) with ErrInvalid;
   let finishedAt := postgresAlertTime finishedAt in
   fail if Before finishedAt (JobStartedAt job) with ErrInvalid;
   transact ErrDatabase ErrDatabase (completeBody job r finishedAt))%db.

Definition abandonedRow (d : Delivery) : Delivery :=
  MkDelivery (DeliveryID d) (DeliveryAlertID d) (DeliveryEventID d) (Attempt d) (Destination d)
    DeliveryPending None None "" (ScheduledAt d) None None None None None.

Definition abandonBody (job : WebhookDeliveryJob) : DB OpsDB OpsError unit :=
  (do db <- dget;
   match deliveries db !! JobID job with
   | None => dfail ErrConflict
   | Some d =>
     guard heldBy job d else ErrConflict;
     dput (putDelivery (abandonedRow d) db)
   end)%db.

Definition Abandon (job : WebhookDeliveryJob) : DB OpsDB OpsError unit :=
  (guard validWebhookDeliveryJobClaim job else ErrInvalid;
   transact ErrDatabase ErrDatabase (abandonBody job))%db.

End DeliveryStore.

Section DeliveryProofs.
Context `{PgTime}.

(** ** The order of attempts

    An attempt is begun once it has been claimed and not abandoned. *)
Definition begun (d : Delivery) : Prop :=
  DState d = DeliveryClaimed \/ DState d = DeliverySucceeded \/ DState d = DeliveryFailed.

(** Every earlier attempt of the event has failed. *)
Definition predecessorsFailed (m : gmap N Delivery) (d : Delivery) : Prop :=
  forall k d' eid, m !! k = Some d' -> DeliveryEventID d' = Some eid ->
    DeliveryEventID d = Some eid -> Attempt d' < Attempt d -> DState d' = DeliveryFailed.

Record attemptsWf (m : gmap N Delivery) : Prop := {
  aw_id : forall k d, m !! k = Some d -> DeliveryID d = k;
  aw_row : forall k d eid, m !! k = Some d -> DeliveryEventID d = Some eid ->
    1 <= Attempt d <= 3 /\ Destination d = "webhook" /\
    (DState d <> DeliveryClaimed -> ClaimToken d = None);
  aw_unique : forall k k' d d' eid, m !! k = Some d -> m !! k' = Some d' ->
    DeliveryEventID d = Some eid -> DeliveryEventID d' = Some eid ->
    Attempt d = Attempt d' -> k = k';
  aw_order : forall k d, m !! k = Some d -> begun d -> predecessorsFailed m d
}.

Lemma attemptsWf_subset m m' :
  attemptsWf m -> (forall k d, m' !! k = Some d -> m !! k = Some d) -> attemptsWf m'.
Proof.
  intros Hm Hsub. constructor.
  - intros k d Hk%Hsub. by apply Hm.
  - intros k d eid Hk%Hsub. by apply (aw_row m Hm k).
  - intros k k' d d' eid Hk%Hsub Hk'%Hsub. by apply (aw_unique m Hm).
  - intros k d Hk%Hsub Hb k' d' eid Hk'%Hsub. by eapply (aw_order m Hm).
Qed.

(** Replacing a row by a later state of the same attempt. *)
Lemma attemptsWf_put m d d' :
  attemptsWf m -> m !! DeliveryID d = Some d ->
  DeliveryID d' = DeliveryID d -> DeliveryEventID d' = DeliveryEventID d ->
  Attempt d' = Attempt d -> Destination d' = Destination d ->
  (DState d' <> DeliveryClaimed -> ClaimToken d' = None) ->
  (DState d = DeliveryFailed -> DState d' = DeliveryFailed) ->
  (begun d' -> predecessorsFailed m d) ->
  attemptsWf (<[DeliveryID d' := d']> m).
Proof.
  intros Hm Hd Hid Hev Hat Hdest Htok Hfail Hpred. constructor.
  - intros k x. rewrite lookup_insert. case_decide; [by intros; simplify_eq|apply Hm].
  - intros k x eid. rewrite lookup_insert. case_decide; [|apply (aw_row m Hm)].
    intros Hx He. simplify_eq. rewrite Hat, Hdest, Hev in *.
    destruct (aw_row m Hm _ _ _ Hd He) as (? & ? & _). done.
  - intros k k' x x' eid. rewrite !lookup_insert, Hid.
    repeat case_decide; intros Hx Hx' He He' Ha; simplify_eq; try done.
    + rewrite Hev in He. rewrite Hat in Ha. by eapply (aw_unique m Hm).
    + rewrite Hev in He'. rewrite Hat in Ha. by eapply (aw_unique m Hm).
    + by eapply (aw_unique m Hm).
  - intros k x Hx Hb k' y eid Hy Hey Hex Hlt. rewrite lookup_insert, Hid in Hx, Hy.
    assert (Hx' : exists x0, m !! k = Some x0 /\ DeliveryEventID x0 = Some eid /\
      Attempt x0 = Attempt x /\ predecessorsFailed m x0).
    { clear Hy Hey Hlt. destruct (decide (DeliveryID d = k)) as [<-|Hk]; simplify_eq.
      - exists d. rewrite <- Hev, <- Hat. split_and!; auto.
      - exists x. split_and!; try done. by eapply (aw_order m Hm). }
    destruct Hx' as (x0 & _ & He0 & Ha0 & Hp0). clear Hx.
    destruct (decide (DeliveryID d = k')) as [<-|Hk]; simplify_eq.
    + apply Hfail. eapply (Hp0 _ d eid Hd); [congruence|done|lia].
    + eapply (Hp0 _ y eid Hy); [done..|lia].
Qed.

(** Three new attempts of a new event. *)
Lemma attemptsWf_insert m d :
  attemptsWf m -> m !! DeliveryID d = None ->
  (forall eid, DeliveryEventID d = Some eid -> 1 <= Attempt d <= 3 /\ Destination d = "webhook" /\
     forall k d', m !! k = Some d' -> DeliveryEventID d' = Some eid -> Attempt d' < Attempt d) ->
  ClaimToken d = None -> (DeliveryEventID d = None \/ DState d = DeliveryPending) ->
  (forall k d' eid, m !! k = Some d' -> DeliveryEventID d' = Some eid ->
     DeliveryEventID d = Some eid -> DState d' = DeliveryPending) ->
  attemptsWf (<[DeliveryID d := d]> m).
Proof.
  intros Hm Hnew Hrow Htok Hpend Hold. constructor.
  - intros k x. rewrite lookup_insert. case_decide; [by intros; simplify_eq|apply Hm].
  - intros k x eid. rewrite lookup_insert. case_decide; [|apply (aw_row m Hm)].
    intros Hx He. simplify_eq. destruct (Hrow eid He) as (? & ? & _). done.
  - intros k k' x x' eid. rewrite !lookup_insert.
    repeat case_decide; intros Hx Hx' He He' Ha; simplify_eq; try done.
    + destruct (Hrow eid He) as (_ & _ & Hlt). specialize (Hlt _ _ Hx' He'). lia.
    + destruct (Hrow eid He') as (_ & _ & Hlt). specialize (Hlt _ _ Hx He). lia.
    + by eapply (aw_unique m Hm).
  - intros k x Hx Hb k' y eid Hy Hey Hex Hlt. rewrite lookup_insert in Hx, Hy.
    repeat case_decide; simplify_eq; try lia.
    + exfalso. pose proof (Hold _ _ _ Hx Hex Hey). destruct Hb as [E|[E|E]]; congruence.
    + exfalso. destruct Hpend, Hb as [E|[E|E]]; congruence.
    + by eapply (aw_order m Hm k x Hx Hb).
Qed.

Lemma attemptsWf_scheduled m alertID eid i1 i2 i3 at_ :
  attemptsWf m -> NoDup [i1; i2; i3] -> (forall i, i ∈ [i1; i2; i3] -> m !! i = None) ->
  (forall k d, m !! k = Some d -> DeliveryEventID d <> Some eid) ->
  attemptsWf (scheduled alertID eid i1 i2 i3 at_ m).
Proof.
  intros Hm Hnd Hnew Hev. rewrite !NoDup_cons, !not_elem_of_cons in Hnd.
  unfold scheduled.
  assert (N1 : m !! i1 = None) by (apply Hnew; set_solver).
  assert (N2 : m !! i2 = None) by (apply Hnew; set_solver).
  assert (N3 : m !! i3 = None) by (apply Hnew; set_solver).
  assert (Hchain : forall m' k i (t : Time), attemptsWf m' -> m' !! i = None -> 1 <= k <= 3 ->
    (forall j d, m' !! j = Some d -> DeliveryEventID d = Some eid ->
       Attempt d < k /\ DState d = DeliveryPending) ->
    attemptsWf (<[i := pendingDelivery i alertID eid k t]> m') /\
    (forall j d, <[i := pendingDelivery i alertID eid k t]> m' !! j = Some d ->
       DeliveryEventID d = Some eid -> Attempt d < k + 1 /\ DState d = DeliveryPending)).
  { intros m' k i t Hm' Hi Hk Hall. split.
    - apply (attemptsWf_insert m' (pendingDelivery i alertID eid k t)); simpl; try done.
      + intros e [= <-]. split_and!; try done; try lia. intros j d Hj He.
        by apply (Hall j d).
      + by right.
      + intros j d e Hj He [= <-]. by apply (Hall j d).
    - intros j d. rewrite lookup_insert. case_decide; intros; simplify_eq/=; [split; [lia|done]|].
      destruct (Hall j d ltac:(done) ltac:(done)). split; [lia|done]. }
  destruct (Hchain m 1 i1 (addDuration at_ minute) Hm N1 ltac:(lia)) as [W1 F1].
  { intros j d Hj He. exfalso. by eapply Hev. }
  destruct (Hchain _ 2 i2 (addDuration at_ (5 * minute)) W1) as [W2 F2]; [|lia|done|].
  { rewrite lookup_insert_ne; [done|naive_solver]. }
  eapply (Hchain _ 3 i3 (addDuration at_ (30 * minute)) W2); [|lia|done].
  rewrite !lookup_insert_ne; [done|naive_solver..].
Qed.

(** ** The candidate *)
Lemma rows_spec db d : d ∈ rows db <-> exists k, deliveries db !! k = Some d.
Proof.
  unfold rows. rewrite list_elem_of_fmap. split.
  - intros ([k x] & -> & Hx). exists k. by apply elem_of_map_to_list in Hx.
  - intros [k Hk]. exists (k, d). split; [done|]. by apply elem_of_map_to_list.
Qed.

Lemma sameEvent_spec d d' :
  sameEvent d d' = true <-> exists eid, DeliveryEventID d = Some eid /\ DeliveryEventID d' = Some eid.
Proof.
  unfold sameEvent. destruct (DeliveryEventID d) as [e|], (DeliveryEventID d') as [e'|];
    try (split; [done|naive_solver]). rewrite N.eqb_eq. naive_solver.
Qed.

Lemma lexLe_spec a1 b1 c1 d1 a2 b2 c2 d2 :
  lexLe (a1, (b1, (c1, d1))) (a2, (b2, (c2, d2))) = true <->
  a1 < a2 \/ a1 = a2 /\ (b1 < b2 \/ b1 = b2 /\ (c1 < c2 \/ c1 = c2 /\ d1 <= d2)).
Proof.
  simpl. rewrite orb_true_iff, andb_true_iff, orb_true_iff, andb_true_iff, orb_true_iff,
    andb_true_iff, !Z.ltb_lt, !Z.eqb_eq, Z.leb_le. done.
Qed.

Lemma lexLe_total p q : lexLe p q = false -> lexLe q p = true.
Proof.
  destruct p as [a1 [b1 [c1 d1]]], q as [a2 [b2 [c2 d2]]].
  rewrite <- not_true_iff_false, !lexLe_spec. lia.
Qed.

Lemma lexLe_trans p q r : lexLe p q = true -> lexLe q r = true -> lexLe p r = true.
Proof.
  destruct p as [a1 [b1 [c1 d1]]], q as [a2 [b2 [c2 d2]]], r as [a3 [b3 [c3 d3]]].
  rewrite !lexLe_spec. lia.
Qed.

Lemma firstByKey_spec l :
  match firstByKey l with
  | None => l = []
  | Some d => d ∈ l /\ forall d', d' ∈ l -> lexLe (claimKey d) (claimKey d') = true
  end.
Proof.
  induction l as [|x l IH]; cbn [firstByKey]; [done|].
  assert (Hrefl : forall k, lexLe k k = true)
    by (intros k; destruct (lexLe k k) eqn:E; [done|by rewrite (lexLe_total _ _ E) in E]).
  destruct (firstByKey l) as [b|].
  - destruct IH as [Hb Hmin]. destruct (lexLe (claimKey x) (claimKey b)) eqn:E; cbv iota.
    + split; [apply elem_of_cons; by left|]. intros d' [->|Hd']%elem_of_cons; [apply Hrefl|].
      eapply lexLe_trans; [exact E|by apply Hmin].
    + split; [apply elem_of_cons; by right|].
      intros d' [->|Hd']%elem_of_cons; [by apply lexLe_total|by apply Hmin].
  - subst. split; [apply elem_of_cons; by left|].
    intros d' [->|Hd']%elem_of_cons; [apply Hrefl|by apply elem_of_nil in Hd'].
Qed.

Lemma candidate_Some db now locked d :
  candidate db now locked = Some d ->
  (exists k, deliveries db !! k = Some d) /\ claimable (rows db) now d = true /\
  locked (DeliveryID d) = false /\
  forall k d', deliveries db !! k = Some d' -> claimable (rows db) now d' = true ->
    locked (DeliveryID d') = false -> lexLe (claimKey d) (claimKey d') = true.
Proof.
  unfold candidate. intros Hc. pose proof (firstByKey_spec (List.filter
    (fun d => claimable (rows db) now d && negb (locked (DeliveryID d))) (rows db))) as Hs.
  rewrite Hc in Hs. destruct Hs as [Hin Hmin].
  apply list_elem_of_In, filter_In in Hin as [Hin Hp]. bool_simpl.
  apply list_elem_of_In, rows_spec in Hin. split_and!; try done.
  intros k d' Hk Hcl Hl. apply Hmin, list_elem_of_In, filter_In. split.
  - apply list_elem_of_In, rows_spec. eauto.
  - by rewrite Hcl, Hl.
Qed.

Lemma candidate_None db now locked :
  candidate db now locked = None ->
  forall k d, deliveries db !! k = Some d -> claimable (rows db) now d = true ->
    locked (DeliveryID d) = true.
Proof.
  unfold candidate. intros Hc k d Hk Hcl.
  pose proof (firstByKey_spec (List.filter
    (fun d => claimable (rows db) now d && negb (locked (DeliveryID d))) (rows db))) as Hs.
  rewrite Hc in Hs. destruct (locked (DeliveryID d)) eqn:Hl; [done|]. exfalso.
  assert (Hin : In d (List.filter
    (fun d => claimable (rows db) now d && negb (locked (DeliveryID d))) (rows db))).
  { apply filter_In. split; [apply list_elem_of_In, rows_spec; eauto|]. by rewrite Hcl, Hl. }
  by rewrite Hs in Hin.
Qed.

(** What the WHERE clause says of a row of a well-formed table. *)
Lemma claimable_spec db now d k :
  attemptsWf (deliveries db) -> deliveries db !! k = Some d -> claimable (rows db) now d = true ->
  (exists eid, DeliveryEventID d = Some eid) /\
  (DState d = DeliveryPending \/ DState d = DeliveryClaimed) /\
  (exists t, effectiveDue d = Some t /\ ns t <= ns now) /\
  predecessorsFailed (deliveries db) d.
Proof.
  intros Hwf Hk Hc. unfold claimable in Hc. bool_simpl.
  destruct (DeliveryEventID d) as [eid|] eqn:He; [|done].
  split_and!; [eauto| | |].
  - match goal with Hs : bool_decide _ || _ = true |- _ =>
      apply orb_true_iff in Hs as [Hs|Hs]; bool_simpl; auto end.
  - destruct (effectiveDue d) as [t|]; [|done]. bool_simpl. exists t. split; [done|].
    by apply After_false.
  - intros j d' e' Hj He' Hde Hlt. rewrite He in Hde. injection Hde as <-.
    match goal with Hs : (Attempt d =? 1) || _ = true |- _ =>
      apply orb_true_iff in Hs as [Hs|Hs] end; bool_simpl.
    + destruct (aw_row _ Hwf _ _ _ Hj He') as [? _]. lia.
    + match goal with Hs : previousFailed _ _ = true |- _ =>
        apply existsb_exists in Hs as (p & Hp & Hq) end.
      apply list_elem_of_In, rows_spec in Hp as [kp Hp].
      apply andb_true_iff in Hq as [[[Hse Hpa]%andb_true_iff _]%andb_true_iff Hpf]. bool_simpl.
      apply sameEvent_spec in Hse as (e2 & Hpe & Hde). rewrite He in Hde. injection Hde as <-.
      destruct (decide (Attempt d' = Attempt p)) as [Heq|Hne].
      * assert (j = kp) as -> by (by eapply (aw_unique _ Hwf)). congruence.
      * eapply (aw_order _ Hwf kp p Hp); [by right; right|exact Hj|exact He'|exact Hpe|lia].
Qed.

(** ** What the operations do *)
Definition opsWf (db : OpsDB) : Prop :=
  dbWf db /\ outboxWf db /\ attemptsWf (deliveries db).

Lemma opsWf_deliveries db m :
  opsWf db -> attemptsWf m ->
  (forall k d, m !! k = Some d -> exists d0, deliveries db !! k = Some d0 /\
     DeliveryEventID d = DeliveryEventID d0 /\ DeliveryAlertID d = DeliveryAlertID d0) ->
  opsWf (setDeliveries m db).
Proof.
  intros (Hd & Ho & _) Hm Hsame. split_and!; [by eapply dbWf_alerts; [|exact Hd]| |done].
  constructor; [apply Ho|]. simpl. intros k d eid Hk He.
  destruct (Hsame k d Hk) as (d0 & H0 & Hev & Hal). rewrite Hal.
  eapply (wf_delivery db Ho k); [exact H0|congruence].
Qed.

Lemma opsWf_put db d d' :
  opsWf db -> deliveries db !! DeliveryID d = Some d ->
  DeliveryID d' = DeliveryID d -> DeliveryEventID d' = DeliveryEventID d ->
  DeliveryAlertID d' = DeliveryAlertID d ->
  Attempt d' = Attempt d -> Destination d' = Destination d ->
  (DState d' <> DeliveryClaimed -> ClaimToken d' = None) ->
  (DState d = DeliveryFailed -> DState d' = DeliveryFailed) ->
  (begun d' -> predecessorsFailed (deliveries db) d) ->
  opsWf (putDelivery d' db).
Proof.
  intros Hwf Hd Hid Hev Hal Hat Hdest Htok Hfail Hpred. apply opsWf_deliveries; [done| |].
  - by apply (attemptsWf_put _ d); [apply Hwf|..].
  - intros k x. rewrite lookup_insert, Hid. case_decide; intros; simplify_eq; eauto.
Qed.

Lemma claimBody_Ok owner token now expiresAt locked env n db st r :
  opsWf db -> claimBody owner token now expiresAt locked env (n, db) = (st, Ok r) ->
  match r with
  | None => candidate db now locked = None /\ snd st = db
  | Some job => exists d eid ev, candidate db now locked = Some d /\
      deliveries db !! DeliveryID d = Some d /\ DeliveryEventID d = Some eid /\
      events db !! eid = Some ev /\ EventID ev = eid /\ EventAlertID ev = DeliveryAlertID d /\
      snd st = putDelivery (claimedRow owner token now expiresAt d) db /\
      job = MkJob (DeliveryID d) eid (DeliveryAlertID d) (Attempt d)
              (or_zero zeroTime (ScheduledAt d)) (pg now) owner token (pg expiresAt) ev
  end.
Proof.
  intros (_ & Ho & Ha) Hrun. unfold claimBody in Hrun. db_inv.
  destruct (candidate _ _ _) as [d|] eqn:Hc; [|db_inv; done].
  destruct (candidate_Some _ _ _ _ Hc) as ([k Hk] & Hcl & _).
  pose proof (aw_id _ Ha _ _ Hk) as Hid. subst k.
  destruct (claimable_spec _ _ _ _ Ha Hk Hcl) as ([eid Heid] & _).
  destruct (wf_delivery _ Ho _ _ _ Hk Heid) as (ev & Hev & Hal).
  destruct (wf_event _ Ho _ _ Hev) as (Hevid & _).
  db_inv. simpl in *. rewrite Heid in *. simpl in *. rewrite Hev in *. db_inv.
  eexists d, _, ev. split_and!; done.
Qed.

Lemma claimedRow_wf owner token now expiresAt db d :
  opsWf db -> deliveries db !! DeliveryID d = Some d -> claimable (rows db) now d = true ->
  opsWf (putDelivery (claimedRow owner token now expiresAt d) db).
Proof.
  intros Hwf Hd Hcl. pose proof Hwf as (_ & _ & Ha).
  destruct (claimable_spec _ _ _ _ Ha Hd Hcl) as (_ & Hs & _ & Hpred).
  eapply opsWf_put; try done. simpl. intros Hf. rewrite Hf in Hs. by destruct Hs.
Qed.

Lemma completeBody_Ok job r finishedAt env n db st u :
  completeBody job r finishedAt env (n, db) = (st, Ok u) ->
  exists d, deliveries db !! JobID job = Some d /\ heldBy job d = true /\
    unexpiredAt finishedAt d = true /\ finishedInOrder (finishedRow r finishedAt d) = true /\
    snd st = (if Succeeded r || negb (Retryable r)
              then cancelLater (JobEventID job) (JobAttempt job) finishedAt
              else fun x => x) (putDelivery (finishedRow r finishedAt d) db).
Proof.
  unfold completeBody. intros Hrun. db_inv.
  destruct (deliveries _ !! JobID job) as [d|] eqn:Hd; db_inv.
  destruct (heldBy job d && _) eqn:Hh; db_inv. bool_simpl.
  destruct (finishedInOrder _) eqn:Hf; db_inv.
  exists d. destruct (_ || _) eqn:Hr in *; db_inv; rewrite ?Hr; split_and!; done.
Qed.

Lemma abandonBody_Ok job env n db st u :
  abandonBody job env (n, db) = (st, Ok u) ->
  exists d, deliveries db !! JobID job = Some d /\ heldBy job d = true /\
    snd st = putDelivery (abandonedRow d) db.
Proof.
  unfold abandonBody. intros Hrun. db_inv.
  destruct (deliveries _ !! JobID job) as [d|] eqn:Hd; db_inv.
  destruct (heldBy job d) eqn:Hh; db_inv. by exists d.
Qed.

Lemma heldBy_spec job d :
  heldBy job d = true <->
  DeliveryEventID d = Some (JobEventID job) /\ DeliveryAlertID d = JobAlertID job /\
  DState d = DeliveryClaimed /\ ClaimOwner d = Some (JobClaimOwner job) /\
  ClaimToken d = Some (JobClaimToken job).
Proof.
  unfold heldBy. rewrite !andb_true_iff, !bool_decide_eq_true, N.eqb_eq. naive_solver.
Qed.

Lemma cancelLater_wf eventID attempt finishedAt db :
  opsWf db -> opsWf (cancelLater eventID attempt finishedAt db).
Proof.
  intros Hwf. pose proof Hwf as (_ & _ & Ha). unfold cancelLater.
  set (f := fun d => if _ : bool then cancelledRow finishedAt d else d).
  assert (Hf : forall d, DeliveryID (f d) = DeliveryID d /\ DeliveryEventID (f d) = DeliveryEventID d /\
    DeliveryAlertID (f d) = DeliveryAlertID d /\ Attempt (f d) = Attempt d /\
    Destination (f d) = Destination d /\
    (f d = d \/ DState d = DeliveryPending /\ f d = cancelledRow finishedAt d)).
  { intros d. unfold f. destruct (_ && _) eqn:E; [|naive_solver]. bool_simpl.
    split_and!; try done. by right. }
  apply opsWf_deliveries; [done| |].
  - constructor.
    + intros k x (d & <- & Hd)%lookup_fmap_Some. destruct (Hf d) as [-> _]. by apply Ha.
    + intros k x eid (d & <- & Hd)%lookup_fmap_Some He.
      destruct (Hf d) as (_ & Hev & _ & -> & -> & Hcase). rewrite Hev in He.
      destruct (aw_row _ Ha _ _ _ Hd He) as (? & ? & ?).
      split_and!; try done; try lia. destruct Hcase as [->|[_ ->]]; done.
    + intros k k' x x' eid (d & <- & Hd)%lookup_fmap_Some (d' & <- & Hd')%lookup_fmap_Some.
      destruct (Hf d) as (_ & -> & _ & -> & _), (Hf d') as (_ & -> & _ & -> & _).
      by eapply (aw_unique _ Ha).
    + intros k x (d & <- & Hd)%lookup_fmap_Some Hb k' x' eid (d' & <- & Hd')%lookup_fmap_Some.
      destruct (Hf d) as (_ & -> & _ & -> & _ & Hc), (Hf d') as (_ & -> & _ & -> & _ & Hc').
      intros He' He Hlt.
      assert (begun d) as Hbd.
      { destruct Hc as [Hc|[_ Hc]]; rewrite Hc in Hb; [done|].
        destruct Hb as [E|[E|E]]; discriminate E. }
      pose proof (aw_order _ Ha k d Hd Hbd k' d' eid Hd' He' He Hlt) as Hfail.
      destruct Hc' as [->|[Hp _]]; congruence.
  - intros k x (d & <- & Hd)%lookup_fmap_Some. destruct (Hf d) as (_ & ? & ? & _). eauto.
Qed.

Lemma Claim_wf owner token now lease locked : preserves opsWf (Claim owner token now lease locked).
Proof.
  intros env n db st r Hwf. unfold Claim.
  destruct (_ || _); [unfold dfail; intros; simplify_eq; done|]. cbv zeta. unfold dbind.
  destruct (transact _ _ _ _ _) as [st1 r1] eqn:Ht.
  assert (opsWf (snd st1)).
  { eapply transact_preserves; [|exact Hwf|exact Ht].
    intros env' n' db' st' job Hwf' Hb. apply claimBody_Ok in Hb; [|done].
    destruct job as [job|]; [|by destruct Hb as [_ ->]].
    destruct Hb as (d & eid & ev & Hc & Hd & _ & _ & _ & _ & -> & _).
    destruct (candidate_Some _ _ _ _ Hc) as (_ & Hcl & _). by apply claimedRow_wf. }
  destruct r1 as [[job|]|]; [|unfold dret|]; try (intros; simplify_eq; done).
  destruct (_ || _); unfold dfail, dret; intros; simplify_eq; done.
Qed.

Lemma Complete_wf job r finishedAt : preserves opsWf (Complete job r finishedAt).
Proof.
  intros env n db st x Hwf. unfold Complete.
  destruct (_ || _); [unfold dfail; intros; simplify_eq; done|]. cbv zeta.
  destruct (Before _ _); [unfold dfail; intros; simplify_eq; done|].
  refine (transact_preserves opsWf _ _ _ _ env n db st x Hwf).
  intros env' n' db' st' u Hwf' Hb. apply completeBody_Ok in Hb as (d & Hd & Hh & _ & _ & ->).
  pose proof Hwf' as (_ & _ & Ha). pose proof (aw_id _ Ha _ _ Hd) as Hid.
  apply heldBy_spec in Hh as (_ & _ & Hs & _).
  assert (opsWf (putDelivery (finishedRow r (postgresAlertTime finishedAt) d) db')).
  { apply (opsWf_put _ d); try done.
    - by rewrite Hid.
    - rewrite Hs. done.
    - intros _. eapply (aw_order _ Ha); [exact Hd|by left]. }
  destruct (_ || _); [by apply cancelLater_wf|done].
Qed.

Lemma Abandon_wf job : preserves opsWf (Abandon job).
Proof.
  intros env n db st x Hwf. unfold Abandon.
  destruct (validWebhookDeliveryJobClaim job); [|unfold dfail; intros; simplify_eq; done].
  refine (transact_preserves opsWf _ _ _ _ env n db st x Hwf).
  intros env' n' db' st' u Hwf' Hb. apply abandonBody_Ok in Hb as (d & Hd & Hh & ->).
  pose proof Hwf' as (_ & _ & Ha). pose proof (aw_id _ Ha _ _ Hd) as Hid.
  apply heldBy_spec in Hh as (_ & _ & Hs & _).
  apply (opsWf_put _ d); try done.
  - by rewrite Hid.
  - rewrite Hs. done.
  - intros [E|[E|E]]; discriminate E.
Qed.

(** ** Reachable tables *)
Lemma evaluate_opsWf w e : preserves opsWf (EvaluateAlert w e).
Proof.
  intros env n db st r Hwf. unfold EvaluateAlert.
  destruct (classifyAlertEvaluation e) as [c|] eqn:Hc; [|unfold dfail; intros; simplify_eq; done].
  assert (Hb : keeps opsWf (evaluateBody w e c)).
  { intros env' n' db' st' a (Hd & Ho & Ha) Hrun%evaluateBody_Ok; [|done].
    split_and!; [|by eapply effect_outbox|].
    - eapply effect_wf; [done|by eapply classify_rule|done].
    - pose proof (effect_announces _ _ _ _ _ _ _ Hd Ho Hrun) as Hx.
      destruct (w && announced (Kind a)); [|destruct Hx as [_ Hx]; by eapply attemptsWf_subset].
      destruct Hx as (row & eid & at_ & i1 & i2 & i3 & _ & Hn & Hnd & Hnew & _ & ->).
      apply attemptsWf_scheduled; try done. intros k d Hk He.
      destruct (wf_delivery _ Ho _ _ _ Hk He) as (ev & Hev & _). congruence. }
  destruct c; try exact (transact_preserves _ _ _ _ Hb env n db st r Hwf).
  unfold dret. intros; simplify_eq; done.
Qed.

Lemma acknowledge_opsWf p id : preserves opsWf (AcknowledgeAlert p id).
Proof.
  intros env n db st r (Hd & Ho & Ha) Hrun.
  destruct (AcknowledgeAlert_outbox p id env n db st r (conj Hd Ho) Hrun) as [Hd' Ho'].
  split_and!; [done..|]. revert Hrun. unfold AcknowledgeAlert.
  destruct (id =? NilUUID)%N; [unfold dfail; intros; simplify_eq; done|].
  destruct (authorizeSettings p); [|unfold dfail; intros; simplify_eq; done].
  intros Hrun. refine (transact_preserves (fun db => attemptsWf (deliveries db)) _ _ _ _ _ _ _ _
    _ Ha Hrun).
  intros env' n' db1 st' b Ha' Hb.
  apply acknowledgeBody_Ok in Hb as (cur & _ & _ & [(_ & _ & ->)|(_ & now & _ & _ & _ & ->)]); done.
Qed.

Lemma record_opsWf d : preserves opsWf (RecordAlertDelivery d).
Proof.
  intros env n db st r (Hd & Ho & Ha) Hrun.
  destruct (RecordAlertDelivery_outbox d env n db st r (conj Hd Ho) Hrun) as [Hd' Ho'].
  split_and!; [done..|]. revert Hrun. unfold RecordAlertDelivery.
  destruct (validAlertDelivery d); [|unfold dfail; intros; simplify_eq; done].
  cbv zeta. set (d' := MkAlertDelivery _ _ _ _ _ _ _ _ _).
  destruct (Before _ _); [unfold dfail; intros; simplify_eq; done|].
  intros Hrun. refine (transact_preserves (fun db => attemptsWf (deliveries db)) _ _ _ _ _ _ _ _
    _ Ha Hrun).
  intros env' n' db1 st' u Ha' Hb. unfold recordDeliveryBody in Hb. db_inv.
  destruct (findRecord _ _); db_inv; [destruct (sameAlertDelivery _ _); db_inv; done|].
  destruct (_ || _) eqn:G in *; db_inv. bool_simpl.
  apply (attemptsWf_insert _ (recordedDelivery d')); try done; [|by left].
  destruct (deliveries _ !! _) eqn:E; [exfalso; eauto|done].
Qed.

Inductive opsStep (db db' : OpsDB) : Prop :=
| OpsAlert : alertStep db db' -> opsStep db db'
| OpsClaim owner token now lease locked env n n' r :
    Claim owner token now lease locked env (n, db) = ((n', db'), r) -> opsStep db db'
| OpsComplete job res finishedAt env n n' r :
    Complete job res finishedAt env (n, db) = ((n', db'), r) -> opsStep db db'
| OpsAbandon job env n n' r :
    Abandon job env (n, db) = ((n', db'), r) -> opsStep db db'.

Lemma opsStep_wf db db' : opsWf db -> opsStep db db' -> opsWf db'.
Proof.
  intros Hwf [[w e env n n' r Hs|p id env n n' r Hs|d env n n' r Hs]| | |].
  - exact (evaluate_opsWf w e env n db _ r Hwf Hs).
  - exact (acknowledge_opsWf p id env n db _ r Hwf Hs).
  - exact (record_opsWf d env n db _ r Hwf Hs).
  - exact (Claim_wf _ _ _ _ _ _ _ _ _ _ Hwf ltac:(eassumption)).
  - exact (Complete_wf _ _ _ _ _ _ _ _ Hwf ltac:(eassumption)).
  - exact (Abandon_wf _ _ _ _ _ _ Hwf ltac:(eassumption)).
Qed.

Lemma emptyOps_opsWf : opsWf emptyOps.
Proof.
  destruct emptyOps_wf. split_and!; [done..|]. constructor; simpl; intros *; by rewrite lookup_empty.
Qed.

Lemma reachable_opsWf db : reachable (fun db0 => db0 = emptyOps) opsStep db -> opsWf db.
Proof.
  apply reachable_invariant; [|by apply opsStep_wf]. intros s ->. apply emptyOps_opsWf.
Qed.

(** C36. Deliveries of an event happen strictly in order, in every reachable
    state and whatever fails: an attempt is claimed, succeeded or failed only
    when every earlier attempt of the event has failed; so an event never has
    two claimed attempts, two successes, or a claim next to a success; and an
    event has at most three attempts, numbered one to three. *)
Theorem deliveries_in_order (db : OpsDB) (k k' : UUID) (d d' : Delivery) (eid : UUID) :
  reachable (fun db0 => db0 = emptyOps) opsStep db ->
  deliveries db !! k = Some d -> deliveries db !! k' = Some d' ->
  DeliveryEventID d = Some eid -> DeliveryEventID d' = Some eid ->
  1 <= Attempt d <= 3 /\
  (Attempt d = Attempt d' -> k = k') /\
  (begun d -> Attempt d' < Attempt d -> DState d' = DeliveryFailed) /\
  (DState d = DeliveryClaimed \/ DState d = DeliverySucceeded ->
   DState d' = DeliveryClaimed \/ DState d' = DeliverySucceeded -> k = k').
Proof.
  intros Hr%reachable_opsWf Hd Hd' He He'. destruct Hr as (_ & _ & Ha).
  assert (Hord : begun d -> Attempt d' < Attempt d -> DState d' = DeliveryFailed)
    by (intros; by eapply (aw_order _ Ha k d)).
  assert (Hord' : begun d' -> Attempt d < Attempt d' -> DState d = DeliveryFailed)
    by (intros; by eapply (aw_order _ Ha k' d')).
  split_and!; try done.
  - apply (aw_row _ Ha k d eid Hd He).
  - apply (aw_row _ Ha k d eid Hd He).
  - intros. by eapply (aw_unique _ Ha).
  - intros Hs Hs'. destruct (Z.lt_total (Attempt d) (Attempt d')) as [Hlt|[Heq|Hgt]].
    + rewrite Hord' in Hs; [by destruct Hs| |done]. unfold begun. tauto.
    + by eapply (aw_unique _ Ha).
    + rewrite Hord in Hs'; [by destruct Hs'| |done]. unfold begun. tauto.
Qed.

(** The run of a successful claim. *)
Lemma Claim_run owner token now lease locked env n db st r :
  opsWf db -> Claim owner token now lease locked env (n, db) = (st, Ok r) ->
  let now' := postgresAlertTime now in
  match r with
  | None => snd st = db /\
      forall k d, deliveries db !! k = Some d -> claimable (rows db) now' d = true ->
        locked (DeliveryID d) = true
  | Some job => exists d,
      deliveries db !! JobID job = Some d /\ DeliveryEventID d = Some (JobEventID job) /\
      claimable (rows db) now' d = true /\ predecessorsFailed (deliveries db) d /\
      (forall k d', deliveries db !! k = Some d' -> claimable (rows db) now' d' = true ->
         locked (DeliveryID d') = false -> lexLe (claimKey d) (claimKey d') = true) /\
      deliveries (snd st) = <[JobID job := claimedRow owner token now'
        (postgresAlertTime (addDuration now' lease)) d]> (deliveries db) /\
      JobClaimToken job = token /\ JobClaimOwner job = owner /\
      validWebhookTransition (TransitionKind (JobEvent job)) (eventAlert (JobEvent job)) = true
  end.
Proof.
  intros Hwf Hrun now'. unfold Claim in Hrun. destruct (_ || _) in Hrun; [db_inv|].
  apply dbind_Ok in Hrun as (st1 & job & Ht & Hrun).
  apply transact_Ok in Ht as [n' Hb]. apply claimBody_Ok in Hb; [|done].
  destruct job as [job|].
  - destruct (_ || _) eqn:G in Hrun; [db_inv|]. apply dret_Ok in Hrun as [-> ->]. bool_simpl.
    destruct Hb as (d & eid & ev & Hc & Hd & He & Hev & _ & _ & Hst & Hjob). simpl in Hst.
    destruct (candidate_Some _ _ _ _ Hc) as (_ & Hcl & _ & Hmin).
    pose proof Hwf as (_ & _ & Ha).
    destruct (claimable_spec _ _ _ _ Ha Hd Hcl) as (_ & _ & _ & Hpred).
    subst job. exists d. rewrite Hst. split_and!; done.
  - apply dret_Ok in Hrun as [-> ->]. destruct Hb as [Hc Hst]. split; [done|].
    by apply candidate_None.
Qed.

(** What a successful [Claim] does on well-formed tables.  A returned job
    is the claimable, unlocked attempt that is first by due time, event, attempt
    and id: it was due, not under another live claim, its event had not
    succeeded and all its earlier attempts had failed; the only change is that
    row, which now carries the caller's owner, token and lease.  No job means that nothing changed and that every claimable
    attempt is locked by another transaction. *)
Theorem Claim_spec owner token now lease locked env n db st r :
  opsWf db -> Claim owner token now lease locked env (n, db) = (st, Ok r) ->
  let now' := postgresAlertTime now in
  match r with
  | None => snd st = db /\
      forall k d, deliveries db !! k = Some d -> claimable (rows db) now' d = true ->
        locked (DeliveryID d) = true
  | Some job => exists d,
      deliveries db !! JobID job = Some d /\ DeliveryEventID d = Some (JobEventID job) /\
      claimable (rows db) now' d = true /\ predecessorsFailed (deliveries db) d /\
      (forall k d', deliveries db !! k = Some d' -> claimable (rows db) now' d' = true ->
         locked (DeliveryID d') = false -> lexLe (claimKey d) (claimKey d') = true) /\
      deliveries (snd st) = <[JobID job := claimedRow owner token now'
        (postgresAlertTime (addDuration now' lease)) d]> (deliveries db) /\
      JobClaimToken job = token /\ JobClaimOwner job = owner /\
      validWebhookTransition (TransitionKind (JobEvent job)) (eventAlert (JobEvent job)) = true
  end.
Proof. apply Claim_run. Qed.

(** A transaction whose body fails from a state leaves it as it is. *)
Lemma completeBody_stale job r finishedAt env n db :
  (forall d, deliveries db !! JobID job = Some d ->
     heldBy job d && unexpiredAt finishedAt d = false) ->
  is_ok (snd (completeBody job r finishedAt env (n, db))) = false.
Proof.
  intros Hst. unfold completeBody, dbind at 1, roundtrip at 1. destruct (fault env n); [done|].
  rewrite dget_run. destruct (deliveries db !! JobID job) as [d|] eqn:Hd; [|done].
  by rewrite (Hst d eq_refl).
Qed.

Lemma abandonBody_stale job env n db :
  (forall d, deliveries db !! JobID job = Some d -> heldBy job d = false) ->
  is_ok (snd (abandonBody job env (n, db))) = false.
Proof.
  intros Hst. unfold abandonBody. rewrite dget_run.
  destruct (deliveries db !! JobID job) as [d|] eqn:Hd; [|done]. by rewrite (Hst d eq_refl).
Qed.

(** [Complete] and [Abandon] are fenced by the claim.  A successful
    [Complete] found its row claimed by the job's owner and token with an
    unexpired lease, made it terminal, and cancelled the later pending attempts
    exactly when it succeeded or may not be retried; a successful [Abandon] found
    the claim and made the row pending again.  A job that does not hold the claim
    changes nothing and gets an error, whatever happens to its round trips. *)
Theorem claim_fences job r finishedAt env n db :
  let fin := postgresAlertTime finishedAt in
  (forall st, Complete job r finishedAt env (n, db) = (st, Ok tt) ->
     exists d, deliveries db !! JobID job = Some d /\ heldBy job d = true /\
       unexpiredAt fin d = true /\
       snd st = (if Succeeded r || negb (Retryable r)
                 then cancelLater (JobEventID job) (JobAttempt job) fin
                 else fun x => x) (putDelivery (finishedRow r fin d) db)) /\
  (forall st, Abandon job env (n, db) = (st, Ok tt) ->
     exists d, deliveries db !! JobID job = Some d /\ heldBy job d = true /\
       snd st = putDelivery (abandonedRow d) db) /\
  ((forall d, deliveries db !! JobID job = Some d -> heldBy job d && unexpiredAt fin d = false) ->
   forall st x, Complete job r finishedAt env (n, db) = (st, x) ->
     snd st = db /\ is_ok x = false) /\
  ((forall d, deliveries db !! JobID job = Some d -> heldBy job d = false) ->
   forall st x, Abandon job env (n, db) = (st, x) -> snd st = db /\ is_ok x = false).
Proof.
  cbv zeta. unfold Complete, Abandon. split_and!.
  - intros st. destruct (_ || _); [done|]. cbv zeta. destruct (Before _ _); [done|].
    intros [n' Hb]%transact_Ok. apply completeBody_Ok in Hb as (d & ? & ? & ? & _ & Hs). eauto.
  - intros st. destruct (validWebhookDeliveryJobClaim job); [|done].
    intros [n' Hb]%transact_Ok. by apply abandonBody_Ok in Hb.
  - intros Hst st x. destruct (_ || _); [unfold dfail; intros; simplify_eq; done|].
    cbv zeta. destruct (Before _ _); [unfold dfail; intros; simplify_eq; done|].
    by apply transact_stuck, completeBody_stale.
  - intros Hst st x. destruct (validWebhookDeliveryJobClaim job);
      [|unfold dfail; intros; simplify_eq; done].
    by apply transact_stuck, abandonBody_stale.
Qed.

End DeliveryProofs.

(** ** Evaluated instances *)
Section DeliveryExamples.
#[local] Existing Instance PgTruncate.

Lemma opened_reachable : reachable (fun db0 => db0 = emptyOps) opsStep opened.
Proof.
  eapply reach_step; [|exact (OpsAlert _ _ opened_step)].
  eapply reach_step; [|exact (OpsAlert _ _ suspected_step)]. by apply reach_init.
Qed.

Definition claimTime : Time := addDuration exampleNow (2 * hour).

Lemma deliveries_in_order_witness :
  exists k k' d d' eid, deliveries opened !! k = Some d /\ deliveries opened !! k' = Some d' /\
    DeliveryEventID d = Some eid /\ DeliveryEventID d' = Some eid /\
    (Attempt d = Attempt d' -> k = k') /\ k <> k'.
Proof.
  set (first := List.find (fun '(_, d) => Attempt d =? 1) (map_to_list (deliveries opened))).
  set (third := List.find (fun '(_, d) => Attempt d =? 3) (map_to_list (deliveries opened))).
  destruct first as [[k d]|] eqn:E1; [|vm_compute in E1; discriminate E1].
  destruct third as [[k' d']|] eqn:E3; [|vm_compute in E3; discriminate E3].
  assert (Hk : deliveries opened !! k = Some d).
  { apply elem_of_map_to_list, list_elem_of_In. exact (proj1 (find_some _ _ E1)). }
  assert (Hk' : deliveries opened !! k' = Some d').
  { apply elem_of_map_to_list, list_elem_of_In. exact (proj1 (find_some _ _ E3)). }
  assert (He : exists eid, DeliveryEventID d = Some eid /\ DeliveryEventID d' = Some eid /\ k <> k').
  { vm_compute in E1, E3. injection E1 as <- <-. injection E3 as <- <-.
    eexists. split; [reflexivity|]. split; [reflexivity|discriminate]. }
  destruct He as (eid & He & He' & Hne).
  exists k, k', d, d', eid. split_and!; try assumption.
  exact (proj1 (proj2 (deliveries_in_order opened k k' d d' eid opened_reachable Hk Hk' He He'))).
Defined.

Lemma Claim_spec_witness :
  exists st job, Claim "worker-1" 77%N claimTime DefaultWebhookLeaseDuration (fun _ => false)
      (exampleEnv 1000) (0%nat, opened) = (st, Ok (Some job)) /\
    exists d, deliveries opened !! JobID job = Some d /\
      predecessorsFailed (deliveries opened) d /\ JobClaimToken job = 77%N.
Proof.
  destruct (Claim "worker-1" 77%N claimTime DefaultWebhookLeaseDuration (fun _ => false)
      (exampleEnv 1000) (0%nat, opened)) as [st r] eqn:E.
  destruct r as [[job|]|err]; [|vm_compute in E; discriminate E..].
  exists st, job. split; [reflexivity|].
  destruct (Claim_spec "worker-1" 77%N claimTime DefaultWebhookLeaseDuration (fun _ => false)
      (exampleEnv 1000) 0 opened st (Some job) (reachable_opsWf _ opened_reachable) E)
    as (d & Hd & _ & _ & Hp & _ & _ & Ht & _).
  exists d. split_and!; assumption.
Defined.

End DeliveryExamples.
