(* ===== verification/WebhookRunner.v ===== *)
(** * The webhook sender and runner ([internal/operations/webhook_sender.go] and
      [webhook_runner.go])

    The payload of an event, the classification of the transport's answer, the
    sender that joins them, and one pass of the runner: claim, send, and complete
    or abandon. *)

From stdpp Require Import base tactics list gmap strings.
From Stdlib Require Import ZArith Lia Ascii.
From S2P Require Import Prelude GoTime GoText GoFloat Pg OpsModel Samples AlertRules AlertStore AlertProofs WebhookDelivery.

Open Scope Z_scope.

Definition WebhookSchemaVersion : Z := 1.
Definition WebhookDashboardPath : string := "/admin/alerts".
Definition MaxWebhookRequestBytes : Z := Z.shiftl 8 10.
Definition MaxWebhookResponseBytes : Z := Z.shiftl 16 10.
Definition maxWebhookAuthorization : Z := Z.shiftl 4 10.

Record WebhookPayload := MkPayload {
  P_SchemaVersion : Z;
  P_AlertID : string;
  P_Category : string;
  P_Severity : AlertSeverity;
  P_State : AlertState;
  P_Summary : string;
  P_FirstObservedAt : Time;
  P_LastObservedAt : Time;
  P_CurrentValue : float64;
  P_Threshold : float64;
  P_DashboardPath : string
}.

(** ** Classification *)
Definition webhookProtocolFailure : WebhookDeliveryResult :=
  MkResult false false 0 "protocol_error".

(** Go's integer division truncates toward zero. *)
Definition webhookStatusClass (status : Z) : Z :=
  let statusClass := Z.quot status 100 in
  if (statusClass <? 0) || (5 <? statusClass) then 0 else statusClass.

Definition classifyWebhookStatus (status : Z) : WebhookDeliveryResult :=
  let statusClass := webhookStatusClass status in
  if between 200 299 status then MkResult true false statusClass ""
  else if (status =? 408) || (status =? 425) || (status =? 429)
  then MkResult false true statusClass "rate_limited"
  else if between 500 599 status then MkResult false true statusClass "server_error"
  else if between 400 499 status then MkResult false false statusClass "client_error"
  else if between 300 399 status then MkResult false false statusClass "redirect_rejected"
  else MkResult false false statusClass "protocol_error".

(** The error of a failed request, as the tests of the classifier see it. *)
Record TransportError := MkTransportError {
  isRedirectRejected : bool;
  isDeadlineExceeded : bool;
  isNetTimeout : bool
}.

Definition classifyWebhookTransportError (ctxDeadline : bool) (err : TransportError) :
  WebhookDeliveryResult :=
  if isRedirectRejected err then MkResult false false 0 "redirect_rejected"
  else if isDeadlineExceeded err || ctxDeadline || isNetTimeout err
  then MkResult false true 0 "timeout"
  else MkResult false true 0 "network".

(** A response body: how many bytes it has, and the error met after them
    ([Some true] is [safehttp.ErrResponseTooLarge]). *)
Record ResponseBody := MkBody { bodyLength : Z; bodyError : option bool }.

Inductive ResponseError := ResponseTooLarge | ResponseRead.

(** Reads at most one byte more than the limit. *)
Definition consumeWebhookResponse (b : ResponseBody) : option ResponseError :=
  if MaxWebhookResponseBytes + 1 <=? bodyLength b then Some ResponseTooLarge
  else match bodyError b with
       | Some true => Some ResponseTooLarge
       | Some false => Some ResponseRead
       | None => if MaxWebhookResponseBytes <? bodyLength b then Some ResponseTooLarge else None
       end.

(** What [doer.Do] returns. *)
Inductive Reply :=
| ReplyError (err : TransportError)
| ReplyNil
| ReplyResponse (status : Z) (b : ResponseBody).

Definition safeWebhookAuthorization (v : string) : bool :=
  negb ((maxWebhookAuthorization <? len v) || negb (ValidString v) || negb (trimmed v))
  && forallb (fun r => negb (IsControl r)) (runes v).

(** The five timeouts in the order of the code, with their defaults. *)
Definition webhookTimeoutDefaults : list Z :=
  [5 * second; 10 * second; 5 * second; 10 * second; 15 * second].

Fixpoint webhookTimeouts (value defaults : list Z) : result OpsError (list Z) :=
  match value, defaults with
  | duration :: value', default :: defaults' =>
    (reject (duration <? 0) || (maxWebhookNetworkTimeout <? duration) with ErrInvalid;
     let* rest := webhookTimeouts value' defaults' in
     Ok ((if duration =? 0 then default else duration) :: rest))%go
  | _, _ => Ok []
  end.

Section Sender.
(** [uuid.UUID.String] and [uuid.Parse], [json.Marshal], [http.NewRequest]'s
    acceptance of the endpoint, and the HTTP client. *)
Context (uuidString : UUID -> string) (uuidParse : string -> option UUID).
Context (marshal : WebhookPayload -> option string).
Context (requestBuilds : string -> bool) (transport : string -> Reply).

Definition BuildWebhookPayload (ev : WebhookEvent) : result OpsError WebhookPayload :=
  (reject (EventID ev =? NilUUID)%N
      || negb (validWebhookTransition (TransitionKind ev) (eventAlert ev)) with ErrInvalid;
   Ok (MkPayload WebhookSchemaVersion (uuidString (EventAlertID ev)) (EventCategory ev)
         (EventSeverity ev) (EventState ev) (EventSummary ev)
         (UTC (EventFirstObservedAt ev)) (UTC (EventLastObservedAt ev))
         (EventCurrentValue ev) (EventThresholdValue ev) WebhookDashboardPath))%go.

Definition validWebhookPayload (p : WebhookPayload) : bool :=
  match uuidParse (P_AlertID p) with
  | None => false
  | Some alertID =>
    if (alertID =? NilUUID)%N || negb (P_SchemaVersion p =? WebhookSchemaVersion)
       || negb (alertIdentifier (P_Category p)) || negb (safeAlertSummary (P_Summary p))
       || negb (validAlertFloat (P_CurrentValue p)) || negb (validAlertFloat (P_Threshold p))
       || negb (validSampleTime (P_FirstObservedAt p)) || negb (validSampleTime (P_LastObservedAt p))
       || Before (P_LastObservedAt p) (P_FirstObservedAt p)
       || negb (bool_decide (P_DashboardPath p = WebhookDashboardPath))
    then false
    else if negb (member alertCategories (P_Category p)) then false
    else match P_Severity p with OtherSeverity _ => false | _ =>
         match P_State p with OtherAlertState _ => false | _ => true end end
  end.

(** [enabled] stands for the sender's own non-nil checks. *)
Definition Send (enabled ctxDeadline : bool) (p : WebhookPayload) : WebhookDeliveryResult :=
  if negb enabled then webhookProtocolFailure
  else match marshal p with
  | None => webhookProtocolFailure
  | Some body =>
    if MaxWebhookRequestBytes <? len body then MkResult false false 0 "request_too_large"
    else if negb (validWebhookPayload p) then webhookProtocolFailure
    else if negb (requestBuilds body) then webhookProtocolFailure
    else match transport body with
    | ReplyError err => classifyWebhookTransportError ctxDeadline err
    | ReplyNil => webhookProtocolFailure
    | ReplyResponse status b =>
      match consumeWebhookResponse b with
      | Some ResponseTooLarge => MkResult false false (webhookStatusClass status) "response_too_large"
      | Some ResponseRead => MkResult false true (webhookStatusClass status) "response_read"
      | None => classifyWebhookStatus status
      end
    end
  end.

(** ** The runner *)
Record WebhookDeliveryRunner := MkRunner {
  RunnerComplete : bool;
  RunnerOwner : string;
  PollInterval : Z;
  LeaseDuration : Z;
  DeliveryTimeout : Z
}.

Definition orDefault (d default : Z) : Z := if d <=? 0 then default else d.

(** [RunnerComplete] stands for the non-nil store, sender, clock and UUID
    source. *)
Definition normalized (r : WebhookDeliveryRunner) : result OpsError WebhookDeliveryRunner :=
  (reject negb (RunnerComplete r) || negb (webhookClaimOwner (RunnerOwner r)) with ErrInvalid;
   let poll := orDefault (PollInterval r) DefaultWebhookPollInterval in
   let lease := orDefault (LeaseDuration r) DefaultWebhookLeaseDuration in
   let timeout := orDefault (DeliveryTimeout r) defaultWebhookSendTimeout in
   reject (poll <=? 0) || (lease <=? 0) || (maxWebhookLeaseDuration <? lease)
      || (timeout <=? 0) || (lease <=? timeout) || (maxWebhookNetworkTimeout <? timeout)
     with ErrInvalid;
   Ok (MkRunner true (RunnerOwner r) poll lease timeout))%go.

Section Run.
Context `{PgTime}.

(** Runs an operation and hands its outcome to the caller. *)
Definition attempt {A} (m : DB OpsDB OpsError A) :
  DB OpsDB (list OpsError) (result OpsError A) :=
  fun env st => let '(st', r) := m env st in (st', Ok r).

(** The joined error of a cause and the abandonment. *)
Definition abandon (cause : OpsError) (job : WebhookDeliveryJob) :
  DB OpsDB (list OpsError) unit :=
  (do r <- attempt (Abandon job);
   match r with
   | Ok _ => dfail [cause]
   | Err e => dfail [cause; e]
   end)%db.

Definition complete (job : WebhookDeliveryJob) (r : WebhookDeliveryResult) :
  DB OpsDB (list OpsError) unit :=
  (do now <- wallNow;
   let finishedAt := UTC now in
   if negb (validSampleTime finishedAt) || Before finishedAt (JobStartedAt job)
   then abandon ErrInvalid job
   else do x <- attempt (Complete job r finishedAt);
        match x with Ok _ => dret tt | Err e => dfail [e] end)%db.

(** One pass; [cancelled1] and [cancelled2] say whether the context has ended
    when it is looked at after the claim and after the send. *)
Definition RunOnce (runner : WebhookDeliveryRunner) (send : WebhookPayload -> WebhookDeliveryResult)
    (locked : UUID -> bool) (cancelled1 cancelled2 : bool) : DB OpsDB (list OpsError) unit :=
  match normalized runner with
  | Err _ => dfail [ErrInvalid]
  | Ok runner =>
    (do clock <- wallNow;
     let now := UTC clock in
     do token <- newUUID;
     fail if negb (validSampleTime now) || (token =? NilUUID)%N with [ErrInvalid];
     do claimed <- attempt (Claim (RunnerOwner runner) token now (LeaseDuration runner) locked);
     match claimed with
     | Err e => dfail [e]
     | Ok None => dret tt
     | Ok (Some job) =>
       if cancelled1 then abandon ErrContext job
       else match BuildWebhookPayload (JobEvent job) with
       | Err _ => complete job webhookProtocolFailure
       | Ok payload =>
         let result := send payload in
         if cancelled2 then abandon ErrContext job
         else complete job
                (if negb (validWebhookDeliveryResult result) then webhookProtocolFailure
                 else result)
       end
     end)%db
  end.

End Run.
End Sender.

(** ** The sender's results *)
Definition retryableCategories : list string :=
  ["rate_limited"; "server_error"; "timeout"; "network"; "response_read"].

Lemma statusClass_range status : 0 <= webhookStatusClass status <= 5.
Proof. unfold webhookStatusClass. destruct (_ || _) eqn:E; [lia|]. bool_simpl. lia. Qed.

Lemma statusClass_hundreds status c :
  0 <= c <= 5 -> 100 * c <= status <= 100 * c + 99 -> webhookStatusClass status = c.
Proof.
  intros Hc Hs. unfold webhookStatusClass.
  assert (Z.quot status 100 = c) as ->.
  { rewrite Z.quot_div_nonneg by lia. symmetry. apply Z.div_unique with (status - 100 * c); lia. }
  by rewrite (proj2 (Z.ltb_ge _ _)), (proj2 (Z.ltb_ge _ _)) by lia.
Qed.

Lemma between_spec lo hi v : between lo hi v = true <-> lo <= v <= hi.
Proof. unfold between. rewrite andb_true_iff, !Z.leb_le. done. Qed.

(** The result invariant of the sender. *)
Definition resultOk (r : WebhookDeliveryResult) : Prop :=
  validWebhookDeliveryResult r = true /\
  (Retryable r = true <-> ResultErrorCategory r ∈ retryableCategories).

Lemma failure_ok retry class category :
  0 <= class <= 5 -> member webhookDeliveryErrorCategories category = true ->
  (retry = true <-> category ∈ retryableCategories) ->
  resultOk (MkResult false retry class category).
Proof.
  intros Hc Hm Hr. split; [|done]. unfold validWebhookDeliveryResult.
  cbn [ResultStatusClass Succeeded ResultErrorCategory].
  rewrite (proj2 (Z.ltb_ge _ _)), (proj2 (Z.ltb_ge _ _)) by lia. simpl.
  case_bool_decide as He; [subst; vm_compute in Hm; discriminate Hm|done].
Qed.

Ltac solve_failure :=
  apply failure_ok; [apply statusClass_range || lia|reflexivity|];
  split; [try discriminate; intros _; by apply (bool_decide_eq_true _); vm_compute
         |let Hx := fresh in intros Hx; (reflexivity ||
            (apply (bool_decide_eq_true_2 _) in Hx; vm_compute in Hx; discriminate Hx))].

Lemma classifyWebhookStatus_ok status : resultOk (classifyWebhookStatus status).
Proof.
  unfold classifyWebhookStatus.
  destruct (between 200 299 status) eqn:E2.
  { apply between_spec in E2. rewrite (statusClass_hundreds status 2) by lia. split; [done|].
    split; [discriminate|]. intros Hx.
    apply (bool_decide_eq_true_2 _) in Hx. vm_compute in Hx. discriminate Hx. }
  destruct (_ || _ || _); [solve_failure|].
  destruct (between 500 599 status); [solve_failure|].
  destruct (between 400 499 status); [solve_failure|].
  destruct (between 300 399 status); solve_failure.
Qed.

Lemma classifyWebhookTransportError_ok ctxDeadline err :
  resultOk (classifyWebhookTransportError ctxDeadline err).
Proof.
  unfold classifyWebhookTransportError.
  destruct (isRedirectRejected err); [solve_failure|]. destruct (_ || _ || _); solve_failure.
Qed.

Lemma protocolFailure_ok : resultOk webhookProtocolFailure.
Proof. solve_failure. Qed.

Lemma consume_None b : consumeWebhookResponse b = None -> bodyLength b <= MaxWebhookResponseBytes.
Proof.
  unfold consumeWebhookResponse. destruct (_ <=? _) eqn:E; [done|]. bool_simpl.
  intros _. lia.
Qed.

(** Whatever the encoder, the endpoint and the transport do, the sender
    returns a result the store accepts; it reports success only for a complete
    response with a 2xx status whose body is within the limit, and marks exactly
    the transient categories as retryable. *)
Theorem Send_sound uuidParse marshal requestBuilds transport enabled ctxDeadline p :
  let r := Send uuidParse marshal requestBuilds transport enabled ctxDeadline p in
  validWebhookDeliveryResult r = true /\
  (Retryable r = true <-> ResultErrorCategory r ∈ retryableCategories) /\
  (Succeeded r = true -> exists body status b, marshal p = Some body /\
     transport body = ReplyResponse status b /\ 200 <= status <= 299 /\
     bodyLength b <= MaxWebhookResponseBytes /\ bodyError b = None).
Proof.
  intros r.
  assert (Hok : resultOk r).
  { unfold r, Send. repeat case_match; try (exact protocolFailure_ok);
      try apply classifyWebhookStatus_ok; try apply classifyWebhookTransportError_ok; solve_failure. }
  destruct Hok as [Hv Hr]. split_and!; [done..|].
  unfold r, Send. destruct (negb enabled); [done|]. destruct (marshal p) as [body|]; [|done].
  destruct (_ <? _); [done|]. destruct (negb (validWebhookPayload _ _)); [done|].
  destruct (negb (requestBuilds body)); [done|].
  destruct (transport body) as [err| |status b] eqn:Ht; [|done|].
  - unfold classifyWebhookTransportError. by repeat case_match.
  - destruct (consumeWebhookResponse b) as [[]|] eqn:Hc; [done..|].
    unfold classifyWebhookStatus. destruct (between 200 299 status) eqn:E2;
      [|by repeat case_match].
    apply between_spec in E2. intros _. exists body, status, b. split_and!; try done; try lia.
    + by apply consume_None.
    + unfold consumeWebhookResponse in Hc. destruct (_ <=? _); [done|].
      destruct (bodyError b) as [[]|]; done.
Qed.

(** The payload the runner builds from an event, whose times a claim scans
    in UTC, is one the sender accepts: with a UUID text format that parses back,
    [Send] never rejects it as a protocol failure before the request is made. *)
Theorem payload_valid uuidString uuidParse (ev : WebhookEvent) (p : WebhookPayload) :
  (forall u, uuidParse (uuidString u) = Some u) ->
  UTC (EventFirstObservedAt ev) = EventFirstObservedAt ev ->
  UTC (EventLastObservedAt ev) = EventLastObservedAt ev ->
  BuildWebhookPayload uuidString ev = Ok p -> validWebhookPayload uuidParse p = true.
Proof.
  intros Hround Hf Hl. unfold BuildWebhookPayload. rewrite Hf, Hl.
  destruct (_ || _) eqn:G; [done|]. bool_simpl. intros [= <-].
  unfold validWebhookPayload. cbn [P_AlertID P_SchemaVersion P_Category P_Severity P_State
    P_Summary P_FirstObservedAt P_LastObservedAt P_CurrentValue P_Threshold P_DashboardPath].
  rewrite Hround.
  match goal with Hv : validWebhookTransition _ _ = true |- _ =>
    unfold validWebhookTransition in Hv; destruct (_ || _ || _) eqn:Gv in Hv; [done|];
    destruct (negb (member _ _)) eqn:Gm in Hv; [done|]; rename Hv into Hval end.
  cbn [eventAlert AlertID Version AlertCategory AlertSummary CurrentValue ThresholdValue
    FirstObservedAt LastObservedAt Severity State] in *. bool_simpl.
  repeat match goal with Hx : ?x = _ |- context [?x] => rewrite Hx end.
  rewrite bool_decide_eq_true_2 by done. simpl.
  by destruct (EventSeverity ev), (EventState ev).
Qed.

(** ** The runner *)
Section RunnerProofs.
Context `{PgTime}.

Definition noToken (token : UUID) (db : OpsDB) : Prop :=
  forall k d, deliveries db !! k = Some d -> ClaimToken d <> Some token.

Lemma attempt_run {A} (m : DB OpsDB OpsError A) env st st' x :
  attempt m env st = (st', x) -> exists r, x = Ok r /\ m env st = (st', r).
Proof. unfold attempt. destruct (m env st) as [s r]. intros; simplify_eq. eauto. Qed.

Lemma abandon_fails cause job env st st' : abandon cause job env st = (st', Ok tt) -> False.
Proof.
  unfold abandon. intros (s1 & x & _ & Hx)%dbind_Ok. by destruct x.
Qed.

(** A finished claim leaves no row with its token. *)
Lemma complete_noToken job r env n db st token :
  JobClaimToken job = token ->
  (forall k d, deliveries db !! k = Some d -> k <> JobID job -> ClaimToken d <> Some token) ->
  attemptsWf (deliveries db) ->
  complete job r env (n, db) = (st, Ok tt) -> noToken token (snd st).
Proof.
  intros Htok Hothers Ha Hrun. unfold complete in Hrun. db_inv.
  destruct (_ || _) in *;
    [exfalso; eapply abandon_fails; eassumption|]. db_inv.
  match goal with Hx : attempt _ _ _ = _ |- _ => apply attempt_run in Hx as (x & [= ->] & Hc) end.
  destruct x as [[]|]; db_inv. unfold Complete in Hc.
  destruct (_ || _) in Hc; [db_inv|]. cbv zeta in Hc. destruct (Before _ _) in Hc; [db_inv|].
  apply transact_Ok in Hc as [n' Hb]. apply completeBody_Ok in Hb as (d & Hd & _ & _ & _ & Hst).
  pose proof (aw_id _ Ha _ _ Hd) as Hid.
  set (fin := postgresAlertTime _) in Hst.
  assert (Hput : noToken (JobClaimToken job) (putDelivery (finishedRow r fin d) db)).
  { intros k x. simpl. rewrite lookup_insert, Hid. case_decide; [intros; simplify_eq/=; done|].
    intros Hk. by eapply Hothers. }
  simpl in Hst. intros k x. rewrite Hst. destruct (_ || _); [|apply Hput].
  simpl. rewrite lookup_fmap_Some. intros (y & <- & Hy).
  destruct (_ && _ && _); [done|]. by apply (Hput k).
Qed.

(** A pass of the runner that reports success holds no claim when it
    returns: with a token no row carries yet, every row it claimed has been
    completed under that claim. *)
Theorem RunOnce_releases uuidString runner send locked c1 c2 env n db st :
  opsWf db -> noToken (uuids env (S n)) db ->
  RunOnce uuidString runner send locked c1 c2 env (n, db) = (st, Ok tt) ->
  noToken (uuids env (S n)) (snd st).
Proof.
  intros Hwf Hfresh Hrun. unfold RunOnce in Hrun.
  destruct (normalized runner) as [rn|]; [|db_inv]. db_inv. destruct (_ || _) in *; db_inv.
  match goal with Hx : attempt _ _ _ = _ |- _ => apply attempt_run in Hx as (x & [= ->] & Hc) end.
  pose proof (Claim_wf _ _ _ _ _ _ _ _ _ _ Hwf Hc) as (_ & _ & Ha').
  destruct x as [[job|]|]; db_inv; apply Claim_run in Hc; try done; cbn [snd] in *.
  - destruct Hc as (d & _ & _ & _ & _ & _ & Hst & Htok & _ & _).
    assert (Hothers : forall k x, deliveries o0 !! k = Some x -> k <> JobID job ->
      ClaimToken x <> Some (uuids env (S n))).
    { intros k x. rewrite Hst, lookup_insert. case_decide; [done|]. intros Hx _. by apply (Hfresh k). }
    destruct c1; [exfalso; eapply abandon_fails; eassumption|].
    destruct (BuildWebhookPayload _ _);
      [|exact (complete_noToken _ _ _ _ _ (n0, o) _ Htok Hothers Ha' ltac:(eassumption))].
    destruct c2; [exfalso; eapply abandon_fails; eassumption|].
    exact (complete_noToken _ _ _ _ _ (n0, o) _ Htok Hothers Ha' ltac:(eassumption)).
  - destruct Hc as [-> _]. done.
Qed.

End RunnerProofs.

(** ** Evaluated instances *)
Section RunnerExamples.
#[local] Existing Instance PgTruncate.

(** A UUID text format that parses back: the binary digits. *)
Fixpoint positiveText (p : positive) : string :=
  match p with
  | xH => ""
  | xO q => String "0"%char (positiveText q)
  | xI q => String "1"%char (positiveText q)
  end.

Fixpoint positiveParse (s : string) : option positive :=
  match s with
  | EmptyString => Some xH
  | String "0"%char s' => xO <$> positiveParse s'
  | String "1"%char s' => xI <$> positiveParse s'
  | _ => None
  end.

Definition binaryText (u : UUID) : string :=
  match u with N0 => "-" | Npos p => positiveText p end.

Definition binaryParse (s : string) : option UUID :=
  if bool_decide (s = "-") then Some N0 else Npos <$> positiveParse s.

Lemma binary_round u : binaryParse (binaryText u) = Some u.
Proof.
  destruct u as [|p]; [reflexivity|]. unfold binaryParse, binaryText.
  rewrite bool_decide_eq_false_2 by (destruct p; discriminate).
  assert (positiveParse (positiveText p) = Some p) as ->; [|reflexivity].
  induction p as [p IH|p IH|]; simpl; [by rewrite IH..|reflexivity].
Qed.

Definition exampleEvent : WebhookEvent :=
  MkEvent 3%N 5%N AlertTransitionOpened 2 "storage" AlertSeverityCritical AlertStateOpen
    "Root filesystem usage is high" (of_Z 95) (of_Z 90) exampleNow exampleNow exampleNow.

Lemma payload_valid_witness :
  exists p, BuildWebhookPayload binaryText exampleEvent = Ok p /\
    validWebhookPayload binaryParse p = true.
Proof.
  destruct (BuildWebhookPayload binaryText exampleEvent) as [p|] eqn:E;
    [|vm_compute in E; discriminate E].
  exists p. split; [reflexivity|].
  exact (payload_valid binaryText binaryParse exampleEvent p binary_round eq_refl eq_refl E).
Defined.

Definition exampleRunner : WebhookDeliveryRunner := MkRunner true "worker-1" 0 0 0.

Definition runnerEnv : Env := calm 0 claimTime (fun n => (1000 + N.of_nat n)%N).

Lemma RunOnce_releases_witness :
  exists st, RunOnce binaryText exampleRunner (fun _ => classifyWebhookStatus 204) (fun _ => false)
      false false runnerEnv (0%nat, opened) = (st, Ok tt) /\
    noToken 1001%N (snd st).
Proof.
  destruct (RunOnce binaryText exampleRunner (fun _ => classifyWebhookStatus 204) (fun _ => false)
      false false runnerEnv (0%nat, opened)) as [st r] eqn:E.
  destruct r as [[]|]; [|vm_compute in E; discriminate E].
  exists st. split; [reflexivity|].
  refine (RunOnce_releases binaryText exampleRunner (fun _ => classifyWebhookStatus 204)
    (fun _ => false) false false runnerEnv 0 opened st (reachable_opsWf _ opened_reachable) _ E).
  intros k d Hk. assert (Hall : forallb (fun '(_, d) => bool_decide (ClaimToken d = None))
    (map_to_list (deliveries opened)) = true) by (vm_compute; reflexivity).
  rewrite forallb_forall in Hall. specialize (Hall (k, d)).
  rewrite (proj1 (bool_decide_eq_true _) (Hall (proj1 (list_elem_of_In _ _)
    (proj2 (elem_of_map_to_list _ _ _) Hk)))). discriminate.
Defined.

End RunnerExamples.
