(* ===== verification/AlertRunner.v ===== *)
(** * The alert runner ([internal/operations/alert_runner.go])

    One pass of the runner against the interface it is written to,
    [AlertRunnerStore]: a lease that excludes other runners, the evaluations of
    the moment, and the evaluation transaction.  The laws of the interface are
    what the runner relies on; the PostgreSQL store implements them with a
    session-level advisory lock. *)

From stdpp Require Import base tactics list gmap strings.
From Stdlib Require Import ZArith Lia.
From S2P Require Import Prelude GoTime GoText GoFloat Pg OpsModel Samples AlertRules AlertStore AlertProofs WebhookDelivery.

Open Scope Z_scope.

Definition DefaultAlertRunnerInterval : Z := minute.
Definition defaultAlertRunTimeout : Z := 30 * second.

(** ** The interface *)
Class AlertRunnerStore (S : Type) := {
  TryAcquireAlertRunnerLease : S -> S * result OpsError bool;
  ReleaseLease : S -> S * result OpsError unit;
  LoadAlertEvaluations : Time -> S -> S * (list Evaluation * option OpsError);
  evaluateAlert : Evaluation -> S -> S * result OpsError AlertTransition
}.

(** What a store promises to the runner. *)
Class AlertRunnerLaws (S : Type) `{AlertRunnerStore S} := {
  leased : S -> bool;
  acquire_leased : forall s, leased s = false ->
    let '(s', r) := TryAcquireAlertRunnerLease s in
    leased s' = match r with Ok b => b | Err _ => false end;
  release_unleased : forall s, leased (fst (ReleaseLease s)) = false;
  load_leased : forall now s, leased (fst (LoadAlertEvaluations now s)) = leased s;
  evaluate_leased : forall e s, leased (fst (evaluateAlert e s)) = leased s
}.

Section Runner.
Context {S : Type} `{AlertRunnerStore S}.

(** The evaluation loop: [expired i] says whether the pass's context has ended
    before the i-th evaluation. *)
Fixpoint evaluateLoop (expired : nat -> bool) (i : nat) (es : list Evaluation) (s : S) :
  S * list OpsError :=
  match es with
  | [] => (s, [])
  | e :: rest =>
    if expired i then (s, [ErrContext])
    else let '(s1, r) := evaluateAlert e s in
         let '(s2, errs) := evaluateLoop expired (Datatypes.S i) rest s1 in
         (s2, match r with Ok _ => errs | Err err => err :: errs end)
  end.

(** The body of a pass that holds the lease. *)
Definition evaluatePass (clock : Time) (expired : nat -> bool) (s : S) : S * list OpsError :=
  let now := UTC clock in
  if negb (validSampleTime now) then (s, [ErrInvalid])
  else
    let '(s1, (es, err)) := LoadAlertEvaluations now s in
    match err, es with
    | Some e, [] => (s1, [e])
    | _, _ =>
      let '(s2, errs) := evaluateLoop expired 0 es s1 in
      (s2, match err with Some e => e :: errs | None => errs end)
    end.

(** [errors.Join] of a list is nil exactly for the empty list.  The deferred
    release runs on every path after the lease was acquired. *)
Definition RunOnce (clock : Time) (expired : nat -> bool) (s : S) : S * list OpsError :=
  let '(s1, acquired) := TryAcquireAlertRunnerLease s in
  match acquired with
  | Err e => (s1, [e])
  | Ok false => (s1, [])
  | Ok true =>
    let '(s2, errs) := evaluatePass clock expired s1 in
    let '(s3, r) := ReleaseLease s2 in
    (s3, match r with Ok _ => errs | Err e => errs ++ [e] end)
  end.

(** The reference: every evaluation is applied in order, and the errors are
    collected. *)
Fixpoint applyAll (es : list Evaluation) (s : S) : S * list OpsError :=
  match es with
  | [] => (s, [])
  | e :: rest =>
    let '(s1, r) := evaluateAlert e s in
    let '(s2, errs) := applyAll rest s1 in
    (s2, (match r with Ok _ => [] | Err err => [err] end) ++ errs)
  end.

(** A loop cut short has applied a prefix, and says so. *)
Lemma evaluateLoop_prefix expired es :
  forall i s, exists k, (k <= length es)%nat /\ ((forall j, expired j = false) -> k = length es) /\
    let '(s', errs) := applyAll (take k es) s in
    evaluateLoop expired i es s =
      (s', if (k =? length es)%nat then errs else errs ++ [ErrContext]).
Proof.
  induction es as [|e es IH]; intros i s; simpl.
  - exists 0%nat. simpl. split_and!; [lia|done|done].
  - destruct (expired i) eqn:Hx.
    { exists 0%nat. simpl. split_and!; [lia| |done]. intros Hall. by rewrite Hall in Hx. }
    destruct (evaluateAlert e s) as [s1 r] eqn:He. destruct (IH (Datatypes.S i) s1) as (k & Hk & Hfull & Hrun).
    exists (Datatypes.S k). split_and!; [lia|intros Hall; f_equal; auto|]. simpl. rewrite He.
    destruct (applyAll (take k es) s1) as [s' errs]. rewrite Hrun.
    destruct r, (k =? length es)%nat; done.
Qed.

Context `{!AlertRunnerLaws S}.

Lemma evaluateLoop_leased expired es :
  forall i s, leased (fst (evaluateLoop expired i es s)) = leased s.
Proof.
  induction es as [|e es IH]; intros i s; simpl; [done|].
  destruct (expired i); [done|]. pose proof (evaluate_leased e s) as He.
  destruct (evaluateAlert e s) as [s1 r]. specialize (IH (Datatypes.S i) s1).
  destruct (evaluateLoop expired (Datatypes.S i) es s1). simpl in *. congruence.
Qed.

(** The lease never outlives a pass: whatever the clock, the store and the
    context do, [RunOnce] from a state without the lease ends without it. *)
Theorem RunOnce_releases_lease clock expired (s : S) :
  leased s = false -> leased (fst (RunOnce clock expired s)) = false.
Proof.
  intros Hs. unfold RunOnce. pose proof (acquire_leased s Hs) as Ha.
  destruct (TryAcquireAlertRunnerLease s) as [s1 [[|]|e]]; simpl; try done.
  destruct (evaluatePass clock expired s1) as [s2 errs].
  pose proof (release_unleased s2) as Hr. by destruct (ReleaseLease s2) as [s3 [u|e]].
Qed.

End Runner.

(** ** The PostgreSQL store as an instance

    The advisory lock is held by a session: the runner's own ([Mine]), or
    another one's.  The evaluations and the fate of each call are those of the
    surroundings. *)
Inductive LockHolder := Unlocked | Mine | Theirs.

Record Deployment := MkDeployment {
  tables : OpsDB;
  lock : LockHolder;
  step : nat
}.

Record Surroundings := MkSurroundings {
  callEnv : nat -> Env;
  lockFault : nat -> bool;
  loaded : nat -> list Evaluation * option OpsError;
  webhookOn : bool
}.

Section Postgres.
Context `{PgTime} (w : Surroundings).

Definition tick (d : Deployment) (t : OpsDB) (l : LockHolder) : Deployment :=
  MkDeployment t l (Datatypes.S (step d)).

(** [pg_try_advisory_lock] on an acquired connection. *)
Definition pgTryAcquire (d : Deployment) : Deployment * result OpsError bool :=
  if lockFault w (step d) then (tick d (tables d) (lock d), Err ErrDatabase)
  else match lock d with
       | Unlocked => (tick d (tables d) Mine, Ok true)
       | Mine => (tick d (tables d) Mine, Ok true)
       | Theirs => (tick d (tables d) Theirs, Ok false)
       end.

(** [pg_advisory_unlock]; when it fails or reports that nothing was unlocked the
    session is closed, which frees its locks. *)
Definition pgRelease (d : Deployment) : Deployment * result OpsError unit :=
  let freed := match lock d with Mine => Unlocked | l => l end in
  if lockFault w (step d) then (tick d (tables d) freed, Err ErrDatabase)
  else (tick d (tables d) freed, Ok tt).

Definition pgEvaluate (e : Evaluation) (d : Deployment) :
  Deployment * result OpsError AlertTransition :=
  let '((_, t), r) := EvaluateAlert (webhookOn w) e (callEnv w (step d)) (0%nat, tables d) in
  (tick d t (lock d), r).

#[export] Instance PgAlertRunnerStore : AlertRunnerStore Deployment := {|
  TryAcquireAlertRunnerLease := pgTryAcquire;
  ReleaseLease := pgRelease;
  LoadAlertEvaluations := fun _ d => (tick d (tables d) (lock d), loaded w (step d));
  evaluateAlert := pgEvaluate
|}.

#[export] Instance PgAlertRunnerLaws : AlertRunnerLaws Deployment.
Proof.
  refine {| leased := fun d => match lock d with Mine => true | _ => false end |}.
  - intros d Hd. simpl. unfold pgTryAcquire. destruct (lockFault w (step d)); [done|].
    destruct (lock d); done.
  - intros d. simpl. unfold pgRelease. destruct (lockFault w (step d)), (lock d); done.
  - done.
  - intros e d. simpl. unfold pgEvaluate. by destruct (EvaluateAlert _ _ _ _) as [[n t] r].
Defined.

Lemma applyAll_wf es : forall d, opsWf (tables d) -> opsWf (tables (fst (applyAll es d))).
Proof.
  induction es as [|e es IH]; intros d Hd; simpl; [done|]. unfold pgEvaluate.
  destruct (EvaluateAlert _ _ _ _) as [[n t] r] eqn:E.
  pose proof (evaluate_opsWf _ _ _ _ _ _ _ Hd E) as Ht. simpl in Ht.
  specialize (IH (tick d t (lock d)) Ht). by destruct (applyAll es _).
Qed.

(** What a pass that holds the lease does. *)
Lemma evaluatePass_applies clock expired (d : Deployment) :
  validSampleTime (UTC clock) = true ->
  let '(d', errs) := evaluatePass clock expired d in
  let '(es, err) := loaded w (step d) in
  exists k, (k <= length es)%nat /\ ((forall j, expired j = false) -> k = length es) /\
    let '(d1, evalErrs) := applyAll (take k es) (tick d (tables d) (lock d)) in
    d' = d1 /\
    errs = match err with Some e => [e] | None => [] end ++ evalErrs
           ++ (if (k =? length es)%nat then [] else [ErrContext]).
Proof.
  intros Hc. unfold evaluatePass. rewrite Hc. simpl. destruct (loaded w (step d)) as [es err].
  destruct (evaluateLoop_prefix expired es 0 (tick d (tables d) (lock d))) as (k & Hk & Hfull & Hrun).
  destruct (applyAll (take k es) (tick d (tables d) (lock d))) as [d1 evalErrs] eqn:Ha.
  destruct err as [e|], es as [|x es].
  - exists 0%nat. simpl. split_and!; done.
  - rewrite Hrun. exists k. rewrite Ha. split_and!; try done.
    destruct (_ =? _)%nat; simpl; by rewrite ?app_nil_r.
  - rewrite Hrun. exists k. rewrite Ha. split_and!; try done.
    destruct (_ =? _)%nat; simpl; by rewrite ?app_nil_r.
  - rewrite Hrun. exists k. rewrite Ha. split_and!; try done.
    destruct (_ =? _)%nat; simpl; by rewrite ?app_nil_r.
Qed.

Lemma evaluatePass_wf clock expired (d : Deployment) :
  opsWf (tables d) -> opsWf (tables (fst (evaluatePass clock expired d))).
Proof.
  intros Hd. pose proof (evaluatePass_applies clock expired d) as Hp.
  destruct (validSampleTime (UTC clock)) eqn:Hc.
  - specialize (Hp eq_refl). destruct (evaluatePass clock expired d) as [d' errs].
    destruct (loaded w (step d)) as [es err]. destruct Hp as (k & _ & _ & Hp).
    pose proof (applyAll_wf (take k es) (tick d (tables d) (lock d)) Hd) as Hw.
    destruct (applyAll (take k es) _) as [d1 e1]. destruct Hp as [-> _]. done.
  - unfold evaluatePass. by rewrite Hc.
Qed.

(** A pass of the runner over the PostgreSQL store: when it gets the lease
    it applies the loaded evaluations in order, up to the point where its context
    ends, failed evaluations never stopping later ones; the errors it joins are
    exactly those met; the tables stay well formed, and while another runner holds
    the lease a pass changes nothing. *)
Theorem alert_RunOnce_applies clock expired (d : Deployment) :
  opsWf (tables d) ->
  let '(d', errs) := RunOnce clock expired d in
  opsWf (tables d') /\
  (lock d = Theirs -> tables d' = tables d /\ lock d' = Theirs) /\
  (lock d = Unlocked -> validSampleTime (UTC clock) = true -> (forall n, lockFault w n = false) ->
   let '(es, err) := loaded w (Datatypes.S (step d)) in
   exists k, (k <= length es)%nat /\ ((forall j, expired j = false) -> k = length es) /\
     let '(d1, evalErrs) := applyAll (take k es) (MkDeployment (tables d) Mine (2 + step d)) in
     tables d' = tables d1 /\
     errs = match err with Some e => [e] | None => [] end ++ evalErrs
            ++ (if (k =? length es)%nat then [] else [ErrContext])).
Proof.
  intros Hd. unfold RunOnce. simpl. unfold pgTryAcquire.
  destruct (lockFault w (step d)) eqn:Hf.
  { simpl. split_and!; [done..|]. intros _ _ Hall. by rewrite Hall in Hf. }
  destruct (lock d) eqn:Hl; [| |simpl; split_and!; done].
  all: set (d0 := tick d (tables d) Mine);
    pose proof (evaluatePass_wf clock expired d0 Hd) as Hw;
    pose proof (evaluatePass_applies clock expired d0) as Hp;
    destruct (evaluatePass clock expired d0) as [d2 errs]; unfold pgRelease;
    destruct (lockFault w (step d2)) eqn:Hf2; simpl; split_and!; try done.
  - intros _ _ Hall. by rewrite Hall in Hf2.
  - intros _ Hc _. specialize (Hp Hc). simpl in Hp.
    destruct (loaded w (Datatypes.S (step d))) as [es err]. destruct Hp as (k & ? & ? & Hp).
    exists k. split_and!; try done. unfold tick in Hp. simpl in Hp.
    destruct (applyAll (take k es) _) as [d1 e1]. destruct Hp as [-> ?]. done.
Qed.

End Postgres.

(** ** Evaluated instances *)
Section RunnerExamples.
#[local] Existing Instance PgTruncate.

Definition exampleWorld : Surroundings :=
  MkSurroundings (fun n => exampleEnv (100 * N.of_nat n)) (fun _ => false)
    (fun _ => ([rootEvaluation 0 95], None)) true.

Definition idle : Deployment := MkDeployment emptyOps Unlocked 1.

Lemma RunOnce_releases_lease_witness :
  @leased _ _ (PgAlertRunnerLaws exampleWorld)
    (fst (@RunOnce _ (PgAlertRunnerStore exampleWorld) exampleNow (fun _ => false) idle)) = false.
Proof.
  exact (@RunOnce_releases_lease _ (PgAlertRunnerStore exampleWorld) (PgAlertRunnerLaws exampleWorld)
    exampleNow (fun _ => false) idle eq_refl).
Defined.

Lemma alert_RunOnce_applies_witness :
  opsWf (tables (fst (@RunOnce _ (PgAlertRunnerStore exampleWorld) exampleNow (fun _ => false) idle))).
Proof.
  pose proof (alert_RunOnce_applies exampleWorld exampleNow (fun _ => false) idle emptyOps_opsWf) as Hx.
  destruct (@RunOnce _ (PgAlertRunnerStore exampleWorld) exampleNow (fun _ => false) idle) as [d errs].
  exact (proj1 Hx).
Defined.

End RunnerExamples.
