(* ===== verification/Keyset.v ===== *)
(** * Keyset pagination

    The listings of the stores read one page at a time: rows ordered by a pair
    of columns, newest first, those strictly before a cursor, one more than the
    limit to learn whether a next page exists.  Walking the pages from the start
    gives every row exactly once, in order.  [orderBy] is the order of other queries. *)

From stdpp Require Import base tactics list sorting.
From Stdlib Require Import ZArith Lia.
From S2P Require Import Prelude.

Open Scope Z_scope.

(** The row comparison [(a,b) < (c,d)] of SQL. *)
Definition pairLt (p q : Z * Z) : bool :=
  (fst p <? fst q) || ((fst p =? fst q) && (snd p <? snd q)).

Lemma pairLt_spec p q :
  pairLt p q = true <-> fst p < fst q \/ fst p = fst q /\ snd p < snd q.
Proof.
  unfold pairLt. by rewrite orb_true_iff, andb_true_iff, !Z.ltb_lt, Z.eqb_eq.
Qed.

Lemma pairLt_false p q :
  pairLt p q = false <-> fst q < fst p \/ fst p = fst q /\ snd q <= snd p.
Proof. rewrite <- not_true_iff_false, pairLt_spec. lia. Qed.

Section Keyset.
Context {A : Type} (key : A -> Z * Z).

(** [ORDER BY key DESC]. *)
Definition newerFirst (a b : A) : Prop := pairLt (key a) (key b) = false.

#[export] Instance newerFirst_dec a b : Decision (newerFirst a b).
Proof. unfold newerFirst. apply _. Defined.

#[export] Instance newerFirst_total : Total newerFirst.
Proof. intros a b. unfold newerFirst. rewrite !pairLt_false. lia. Qed.

#[export] Instance newerFirst_trans : Transitive newerFirst.
Proof. intros a b c. unfold newerFirst. rewrite !pairLt_false. lia. Qed.

Definition orderDesc (l : list A) : list A := merge_sort newerFirst l.

(** [WHERE key < cursor], with no condition on the first page. *)
Definition beforeCursor (cursor : option (Z * Z)) (a : A) : bool :=
  match cursor with None => true | Some c => pairLt (key a) c end.

(** The rows of one page, and the cursor of the next if one more row was read. *)
Definition page (limit : nat) (cursor : option (Z * Z)) (sorted : list A) :
  list A * option (Z * Z) :=
  let items := take (S limit) (List.filter (beforeCursor cursor) sorted) in
  if (limit <? length items)%nat
  then (take limit items, key <$> last (take limit items))
  else (items, None).

(** Following the cursors. *)
Fixpoint walk (fuel limit : nat) (cursor : option (Z * Z)) (sorted : list A) : list A :=
  match fuel with
  | O => []
  | S fuel' =>
    let '(items, next) := page limit cursor sorted in
    match next with
    | None => items
    | Some c => items ++ walk fuel' limit (Some c) sorted
    end
  end.

Definition strictlyDescending (l : list A) : Prop :=
  StronglySorted (fun a b => pairLt (key b) (key a) = true) l.

Lemma filter_suffix l1 x l2 :
  strictlyDescending (l1 ++ x :: l2) ->
  List.filter (beforeCursor (Some (key x))) (l1 ++ x :: l2) = l2.
Proof.
  intros Hs. unfold strictlyDescending in Hs. rewrite List.filter_app.
  assert (Hno : List.filter (beforeCursor (Some (key x))) l1 = []).
  { induction l1 as [|y l1 IH]; [done|]. simpl in *. apply StronglySorted_inv in Hs as [Hs Hy].
    rewrite IH by done. rewrite List.Forall_forall in Hy.
    specialize (Hy x ltac:(apply in_or_app; right; by left)).
    apply pairLt_spec in Hy.
    assert (pairLt (key y) (key x) = false) as -> by (apply pairLt_false; lia). done. }
  rewrite Hno. simpl. clear Hno.
  assert (pairLt (key x) (key x) = false) as -> by (apply pairLt_false; lia).
  induction l1 as [|y l1 IH]; [|apply StronglySorted_inv in Hs as [Hs _]; by apply IH].
  simpl in Hs. apply StronglySorted_inv in Hs as [_ Hx].
  induction l2 as [|z l2 IH2]; [done|]. apply List.Forall_cons_iff in Hx as [Hz Hx].
  simpl. rewrite Hz. f_equal. by apply IH2.
Qed.

(** A page of the rows after a prefix, and the prefix it leads to. *)
Lemma walk_suffix fuel limit cursor l done_ rest :
  strictlyDescending l -> (0 < limit)%nat -> l = done_ ++ rest ->
  List.filter (beforeCursor cursor) l = rest -> (length rest < fuel)%nat ->
  walk fuel limit cursor l = rest.
Proof.
  revert cursor done_ rest. induction fuel as [|fuel IH];
    intros cursor done_ rest Hs Hlim Hl Hrest Hfuel; [lia|].
  simpl. unfold page. rewrite Hrest. rewrite length_take.
  destruct (Nat.ltb_spec limit (Nat.min (S limit) (length rest))) as [Hlt|Hge].
  2: { rewrite take_ge by lia. done. }
  rewrite take_take. rewrite Nat.min_l by lia.
  destruct (last (take limit rest)) as [x|] eqn:Hlast.
  2: { apply last_None in Hlast. assert (length (take limit rest) = 0%nat) as Hz by (by rewrite Hlast).
       rewrite length_take in Hz. lia. }
  simpl. apply last_Some in Hlast as [pre Hpre].
  assert (Hl' : l = (done_ ++ pre) ++ x :: drop limit rest).
  { rewrite Hl. rewrite <- (take_drop limit rest) at 1. rewrite Hpre, <- !app_assoc. done. }
  rewrite (IH (Some (key x)) ((done_ ++ pre) ++ [x]) (drop limit rest)); try done.
  - by rewrite take_drop.
  - rewrite Hl' at 1. by rewrite <- !app_assoc.
  - rewrite Hl' at 1. apply filter_suffix. by rewrite <- Hl'.
  - rewrite length_drop. lia.
Qed.

Lemma filter_true (l : list A) : List.filter (beforeCursor None) l = l.
Proof. induction l as [|a l IH]; simpl; [done|by rewrite IH]. Qed.

Lemma orderDesc_strict l :
  NoDup (key <$> l) -> strictlyDescending (orderDesc l).
Proof.
  intros Hnd. unfold strictlyDescending, orderDesc.
  assert (Hs : StronglySorted newerFirst (merge_sort newerFirst l)).
  { apply StronglySorted_merge_sort; apply _. }
  assert (Hn : NoDup (key <$> merge_sort newerFirst l)).
  { by rewrite merge_sort_Permutation. }
  revert Hs Hn. generalize (merge_sort newerFirst l) as l'. clear.
  induction l' as [|a l' IH]; intros Hs Hn; [constructor|].
  apply StronglySorted_inv in Hs as [Hs Ha]. simpl in Hn. apply NoDup_cons in Hn as [Hnot Hn].
  constructor; [by apply IH|]. rewrite List.Forall_forall in *. intros b Hb.
  specialize (Ha b Hb). unfold newerFirst in Ha. apply pairLt_false in Ha.
  apply pairLt_spec. destruct Ha as [Ha|[E1 Ha]]; [by left|right]. split; [done|].
  assert (snd (key b) <> snd (key a)); [|lia]. intros E2. apply Hnot, list_elem_of_fmap.
  exists b. split; [|by apply list_elem_of_In]. destruct (key a), (key b). simpl in *. congruence.
Qed.

(** Walking the pages of distinct keys lists every row once, newest first. *)
Lemma walk_complete limit (l : list A) :
  (0 < limit)%nat -> NoDup (key <$> l) ->
  walk (S (length l)) limit None (orderDesc l) = orderDesc l.
Proof.
  intros Hlim Hnd. apply walk_suffix with (done_ := []); try done.
  - by apply orderDesc_strict.
  - apply filter_true.
  - unfold orderDesc. rewrite (Permutation_length (merge_sort_Permutation newerFirst l)). lia.
Qed.

Lemma orderDesc_perm l : orderDesc l ≡ₚ l.
Proof. apply merge_sort_Permutation. Qed.

Lemma page_length limit cursor l : (length (fst (page limit cursor l)) <= limit)%nat.
Proof.
  unfold page. destruct (Nat.ltb_spec limit (length (take (S limit) (List.filter (beforeCursor cursor) l))));
    simpl; rewrite ?length_take in *; lia.
Qed.

End Keyset.

(** * ORDER BY with several ascending columns

    Rows ordered by a list of integer columns (times, numbers, identifiers), the
    first row, and the first rows. *)

Fixpoint keyLe (p q : list Z) : bool :=
  match p, q with
  | [], _ => true
  | _ :: _, [] => false
  | a :: p', b :: q' => (a <? b) || ((a =? b) && keyLe p' q')
  end.

Lemma keyLe_total p q : keyLe p q = true \/ keyLe q p = true.
Proof.
  revert q. induction p as [|a p IH]; intros [|b q]; simpl; auto.
  rewrite !orb_true_iff, !andb_true_iff, !Z.ltb_lt, !Z.eqb_eq.
  destruct (Z.lt_trichotomy a b) as [?|[->|?]]; [left; by left| |right; by left].
  destruct (IH q); [left|right]; by right.
Qed.

Lemma keyLe_trans p q r : keyLe p q = true -> keyLe q r = true -> keyLe p r = true.
Proof.
  revert q r. induction p as [|a p IH]; intros [|b q] [|c r]; simpl; try done.
  rewrite !orb_true_iff, !andb_true_iff, !Z.ltb_lt, !Z.eqb_eq. intros [?|[-> ?]] [?|[-> ?]]; try lia.
  right. split; [done|]. by eapply IH.
Qed.

Section OrderBy.
Context {A : Type} (key : A -> list Z).

Definition byKey (a b : A) : Prop := keyLe (key a) (key b) = true.

#[export] Instance byKey_dec a b : Decision (byKey a b).
Proof. unfold byKey. apply _. Defined.

#[export] Instance byKey_total : Total byKey.
Proof. intros a b. apply keyLe_total. Qed.

#[export] Instance byKey_trans : Transitive byKey.
Proof. intros a b c. apply keyLe_trans. Qed.

Definition orderBy (l : list A) : list A := merge_sort byKey l.

(** [ORDER BY ... LIMIT 1]. *)
Definition firstBy (l : list A) : option A := head (orderBy l).

Lemma orderBy_elem x l : x ∈ orderBy l <-> x ∈ l.
Proof. unfold orderBy. by rewrite merge_sort_Permutation. Qed.

Lemma firstBy_Some x l :
  firstBy l = Some x -> x ∈ l /\ forall y, y ∈ l -> keyLe (key x) (key y) = true.
Proof.
  unfold firstBy. destruct (orderBy l) as [|z rest] eqn:E; [done|]. intros [= ->].
  split; [apply orderBy_elem; rewrite E; left|]. intros y Hy. apply orderBy_elem in Hy.
  pose proof (StronglySorted_merge_sort byKey l) as Hs. fold (orderBy l) in Hs. rewrite E in Hs, Hy.
  apply elem_of_cons in Hy as [->|Hy].
  - destruct (keyLe_total (key x) (key x)); done.
  - inversion Hs as [|? ? _ Hall]; subst. rewrite Forall_forall in Hall. by apply Hall.
Qed.

Lemma firstBy_None l : firstBy l = None <-> l = [].
Proof.
  unfold firstBy. split; [|by intros ->]. destruct (orderBy l) eqn:E; [|done]. intros _.
  symmetry. apply Permutation_nil_l. rewrite <- (merge_sort_Permutation byKey l). fold (orderBy l). by rewrite E.
Qed.

End OrderBy.
