(* ===== verification/AlertList.v ===== *)
(** * Listing alerts ([ListAlerts] of [internal/operations/postgres_alerts.go])

    A filtered, keyset-paginated listing of the visible alerts, and that walking
    its pages lists every matching alert once, newest first. *)

From stdpp Require Import base tactics list gmap strings sorting.
From Stdlib Require Import ZArith Lia.
From S2P Require Import Prelude GoTime GoText GoFloat Pg OpsModel Samples AlertRules AlertStore AlertProofs Keyset.

Open Scope Z_scope.

Record AlertCursor := MkCursor { CursorLastObservedAt : Time; CursorID : UUID }.

(** An empty state, severity or category selects all of them. *)
Record AlertFilter := MkFilter {
  FilterState : AlertState;
  FilterSeverity : AlertSeverity;
  FilterCategory : string;
  FilterBefore : option AlertCursor;
  FilterLimit : Z
}.

Record AlertPage := MkPage { PageItems : list Alert; PageNext : option AlertCursor }.

Definition anyState : AlertState := OtherAlertState "".
Definition anySeverity : AlertSeverity := OtherSeverity "".

Definition validateAlertFilter (f : AlertFilter) : result OpsError unit :=
  (reject (FilterLimit f <? 1) || (100 <? FilterLimit f) with ErrInvalid;
   reject match FilterState f with
          | OtherAlertState s => negb (bool_decide (s = ""))
          | _ => false
          end with ErrInvalid;
   reject match FilterSeverity f with
          | OtherSeverity s => negb (bool_decide (s = ""))
          | _ => false
          end with ErrInvalid;
   reject negb (bool_decide (FilterCategory f = ""))
          && negb (member alertCategories (FilterCategory f)) with ErrInvalid;
   reject match FilterBefore f with
          | Some c => negb (validSampleTime (CursorLastObservedAt c)) || (CursorID c =? NilUUID)%N
          | None => false
          end with ErrInvalid;
   Ok tt)%go.

Definition matches (f : AlertFilter) (a : Alert) : bool :=
  alertVisible a
  && (bool_decide (FilterState f = anyState) || bool_decide (State a = FilterState f))
  && (bool_decide (FilterSeverity f = anySeverity) || bool_decide (Severity a = FilterSeverity f))
  && (bool_decide (FilterCategory f = "") || bool_decide (AlertCategory a = FilterCategory f)).

Definition alertKey (a : Alert) : Z * Z := (ns (LastObservedAt a), Z.of_N (AlertID a)).

(** The rows the listing ranges over. *)
Definition matching (f : AlertFilter) (db : OpsDB) : list Alert :=
  List.filter (matches f) (snd <$> map_to_list (alerts db)).

Section Listing.
Context `{PgTime}.

(** The cursor as the query's parameters. *)
Definition cursorKey (c : AlertCursor) : Z * Z :=
  (stored (ns (CursorLastObservedAt c)), Z.of_N (CursorID c)).

Definition ListAlerts (f : AlertFilter) : DB OpsDB OpsError AlertPage :=
  (match validateAlertFilter f with
   | Err _ => dfail ErrInvalid
   | Ok _ =>
     call ErrDatabase;
     do db <- dget;
     let limit := Z.to_nat (FilterLimit f) in
     let items := take (S limit)
       (List.filter (beforeCursor alertKey (cursorKey <$> FilterBefore f))
          (orderDesc alertKey (matching f db))) in
     if (limit <? length items)%nat
     then let items := take limit items in
          dret (MkPage items ((fun a => MkCursor (LastObservedAt a) (AlertID a)) <$> last items))
     else dret (MkPage items None)
   end)%db.

(** A client that follows the cursors. *)
Fixpoint followPages (fuel : nat) (f : AlertFilter) (env : Env) (db : OpsDB) :
  result OpsError (list Alert) :=
  match fuel with
  | O => Ok []
  | S fuel' =>
    (let* page := value (ListAlerts f) env db in
     match PageNext page with
     | None => Ok (PageItems page)
     | Some c =>
       let* rest := followPages fuel' (MkFilter (FilterState f) (FilterSeverity f)
                      (FilterCategory f) (Some c) (FilterLimit f)) env db in
       Ok (PageItems page ++ rest)
     end)%go
  end.

Lemma matches_before f c a :
  matches (MkFilter (FilterState f) (FilterSeverity f) (FilterCategory f) c (FilterLimit f)) a
  = matches f a.
Proof. done. Qed.

Lemma ListAlerts_page f env db :
  validateAlertFilter f = Ok tt -> quiet env ->
  exists page, value (ListAlerts f) env db = Ok page /\
    PageItems page = fst (Keyset.page alertKey (Z.to_nat (FilterLimit f))
                       (cursorKey <$> FilterBefore f) (orderDesc alertKey (matching f db))) /\
    (exists lst, PageNext page = (fun a => MkCursor (LastObservedAt a) (AlertID a)) <$> lst /\
       snd (Keyset.page alertKey (Z.to_nat (FilterLimit f))
         (cursorKey <$> FilterBefore f) (orderDesc alertKey (matching f db))) = alertKey <$> lst /\
       forall a, lst = Some a -> a ∈ PageItems page).
Proof.
  intros Hv Hq. unfold value, ListAlerts. rewrite Hv, call_run, dget_run by apply Hq.
  unfold Keyset.page. destruct (_ <? _)%nat; simpl; eexists; split; try done; simpl.
  - split; [done|]. eexists. split_and!; [done..|]. intros a Ha.
    by apply last_Some_elem_of in Ha.
  - split; [done|]. exists None. done.
Qed.

Lemma validate_next f c :
  validateAlertFilter f = Ok tt -> validSampleTime (CursorLastObservedAt c) = true ->
  CursorID c <> NilUUID ->
  validateAlertFilter (MkFilter (FilterState f) (FilterSeverity f) (FilterCategory f) (Some c)
    (FilterLimit f)) = Ok tt.
Proof.
  unfold validateAlertFilter.
  cbn [FilterState FilterSeverity FilterCategory FilterBefore FilterLimit]. intros Hv Ht Hid.
  rewrite Ht, (proj2 (N.eqb_neq _ _) Hid). cbn [negb orb]. revert Hv.
  destruct (_ || _); [done|].
  destruct (match FilterState f with OtherAlertState s => _ | _ => _ end); [done|].
  destruct (match FilterSeverity f with OtherSeverity s => _ | _ => _ end); [done|].
  by destruct (_ && _).
Qed.

Lemma page_items_in limit cursor (l : list Alert) a :
  a ∈ fst (Keyset.page alertKey limit cursor l) -> a ∈ l.
Proof.
  assert (Hsub : forall n, a ∈ take n (List.filter (beforeCursor alertKey cursor) l) -> a ∈ l).
  { intros n Hin. apply list_elem_of_In. apply elem_of_take in Hin as (i & Hi & _).
    apply list_elem_of_lookup_2, list_elem_of_In, filter_In in Hi. by destruct Hi. }
  unfold Keyset.page. destruct (_ <? _)%nat; simpl; [|apply Hsub].
  rewrite take_take. apply Hsub.
Qed.

(** Following the pages is walking the ordered rows. *)
Lemma followPages_walk fuel f env db :
  validateAlertFilter f = Ok tt -> quiet env -> dbWf db ->
  (forall k a, alerts db !! k = Some a ->
     validSampleTime (LastObservedAt a) = true /\ AlertID a <> NilUUID) ->
  followPages fuel f env db =
    Ok (walk alertKey fuel (Z.to_nat (FilterLimit f)) (cursorKey <$> FilterBefore f)
          (orderDesc alertKey (matching f db))).
Proof.
  revert f. induction fuel as [|fuel IH]; intros f Hv Hq Hwf Hrows; [done|]. simpl.
  destruct (ListAlerts_page f env db Hv Hq) as (page & -> & Hitems & lst & Hnext & Hc & Hin).
  assert (Hlst : forall a, lst = Some a -> validSampleTime (LastObservedAt a) = true /\
    AlertID a <> NilUUID /\ stored (ns (LastObservedAt a)) = ns (LastObservedAt a)).
  { intros a Ha. specialize (Hin a Ha). rewrite Hitems in Hin. apply page_items_in in Hin.
    rewrite orderDesc_perm in Hin. unfold matching in Hin.
    apply list_elem_of_In, filter_In in Hin as [Hin _].
    apply list_elem_of_In, list_elem_of_fmap in Hin as ([k b] & -> & Hk%elem_of_map_to_list).
    destruct (Hrows k b Hk), (wf_rows db Hwf k b Hk) as [_ Hwa]. simpl. split_and!; try done.
    pose proof (wf_last b Hwa) as Hp. unfold pg in Hp. by rewrite <- Hp at 2. }
  destruct (Keyset.page _ _ _ _) as [items next] eqn:Hpage. simpl in *. subst items next.
  rewrite Hnext. destruct lst as [a|]; simpl; [|done].
  destruct (Hlst a eq_refl) as (Ht & Hid & Hst).
  rewrite IH; [|by apply validate_next|done..]. simpl.
  unfold cursorKey at 1. simpl. rewrite Hst. done.
Qed.

(** Following the cursors of [ListAlerts] from the first page lists exactly
    the visible alerts that match the filter, each once, ordered by last
    observation and id, newest first; every page respects the limit.  The number
    of pages is at most one more than the number of alerts. *)
Theorem ListAlerts_complete f env db :
  validateAlertFilter f = Ok tt -> FilterBefore f = None -> quiet env -> dbWf db ->
  (forall k a, alerts db !! k = Some a ->
     validSampleTime (LastObservedAt a) = true /\ AlertID a <> NilUUID) ->
  exists all, followPages (S (length (matching f db))) f env db = Ok all /\
    all ≡ₚ matching f db /\ NoDup (AlertID <$> all) /\ strictlyDescending alertKey all /\
    (forall c page, value (ListAlerts (MkFilter (FilterState f) (FilterSeverity f)
        (FilterCategory f) c (FilterLimit f))) env db = Ok page ->
       Z.of_nat (length (PageItems page)) <= FilterLimit f).
Proof.
  intros Hv Hb Hq Hwf Hrows.
  assert (Hids : NoDup (AlertID <$> matching f db)).
  { unfold matching.
    assert (Hall : NoDup (AlertID <$> (snd <$> map_to_list (alerts db)))).
    { rewrite <- list_fmap_compose.
      rewrite (list_fmap_ext _ fst (map_to_list (alerts db))); [apply NoDup_fst_map_to_list|].
      intros i [k a] Hi. simpl. apply list_elem_of_lookup_2, elem_of_map_to_list in Hi.
      by destruct (wf_rows db Hwf k a Hi). }
    revert Hall. generalize (snd <$> map_to_list (alerts db)) as l.
    induction l as [|a l IH]; simpl; [done|]. rewrite NoDup_cons. intros [Hn Hl].
    destruct (matches f a); [|by apply IH]. simpl. apply NoDup_cons. split; [|by apply IH].
    intros Hin. apply Hn. apply list_elem_of_fmap in Hin as (b & -> & Hin).
    apply list_elem_of_fmap. exists b. split; [done|].
    apply list_elem_of_In in Hin. apply filter_In in Hin as [Hin _]. by apply list_elem_of_In. }
  assert (Hkeys : NoDup (alertKey <$> matching f db)).
  { apply (NoDup_fmap_1 snd). rewrite <- list_fmap_compose.
    apply (NoDup_fmap_1 Z.to_N). rewrite <- list_fmap_compose.
    erewrite list_fmap_ext; [exact Hids|]. intros i a _. simpl. by rewrite N2Z.id. }
  assert (Hlim : 1 <= FilterLimit f).
  { unfold validateAlertFilter in Hv. destruct (_ || _) eqn:G in Hv; [done|]. bool_simpl. lia. }
  eexists. rewrite followPages_walk, Hb by done. simpl fmap.
  rewrite walk_complete; [|lia|done]. split; [done|]. split_and!.
  - apply orderDesc_perm.
  - by rewrite orderDesc_perm.
  - by apply orderDesc_strict.
  - intros c page Hpage. destruct (validateAlertFilter (MkFilter (FilterState f)
      (FilterSeverity f) (FilterCategory f) c (FilterLimit f))) as [[]|] eqn:Hvc.
    + destruct (ListAlerts_page _ env db Hvc Hq) as (page' & Hp & Hitems & _).
      rewrite Hp in Hpage. injection Hpage as <-. rewrite Hitems.
      etransitivity; [apply Nat2Z.inj_le, page_length|]. simpl. lia.
    + unfold value, ListAlerts in Hpage. by rewrite Hvc in Hpage.
Qed.

End Listing.

Section ListExamples.
#[local] Existing Instance PgTruncate.

Definition firstPage : AlertFilter := MkFilter anyState anySeverity "" None 1.

Lemma ListAlerts_complete_witness :
  exists all, followPages (S (length (matching firstPage opened))) firstPage (exampleEnv 1) opened = Ok all /\
    all ≡ₚ matching firstPage opened /\ length (matching firstPage opened) = 1%nat.
Proof.
  destruct (ListAlerts_complete firstPage (exampleEnv 1) opened) as (all & Hall & Hperm & _).
  - vm_compute; reflexivity.
  - reflexivity.
  - intros n. reflexivity.
  - exact (proj1 (alertStep_wf _ _ suspected_wf opened_step)).
  - intros k a Hk.
    assert (Hall : forallb (fun '(_, a) => validSampleTime (LastObservedAt a)
      && negb (AlertID a =? NilUUID)%N) (map_to_list (alerts opened)) = true)
      by (vm_compute; reflexivity).
    rewrite forallb_forall in Hall. specialize (Hall (k, a) (proj1 (list_elem_of_In _ _)
      (proj2 (elem_of_map_to_list _ _ _) Hk))).
    apply andb_true_iff in Hall as [H1 H2]. split; [exact H1|].
    apply negb_true_iff, N.eqb_neq in H2. exact H2.
  - exists all. split_and!; [exact Hall|exact Hperm|vm_compute; reflexivity].
Defined.

End ListExamples.
