(* ===== verification/AuditLog.v ===== *)
(** * The audit log

    Models [internal/audit]: events and their validation, the closed catalogue
    of actions with their target types, metadata keys and outcomes, the writer
    over the table [audit_logs], and the filtered listing.  The listing's
    outcome filter is a CASE expression the code generates from the same
    catalogue ([auditOutcomeSQL]); it is modelled as the clauses and the argument
    list that are generated, with the evaluation PostgreSQL gives them.

    [uuid.Parse] and [UUID.String] are not part of the repository: they are the
    class [UUIDText].  Metadata is text, [json.Marshal] and the jsonb column keep
    it as it is. *)

From S2P Require Import Prelude GoTime GoText GoStrconv Pg Keyset.
From stdpp Require Import base tactics list gmap strings sorting.
From Stdlib Require Import ZArith Lia DecimalString DecimalZ.

Open Scope Z_scope.

(** [id.String()] and [uuid.Parse]: parsing accepts the text of every id. *)
Class UUIDText := {
  uuidString : UUID -> string;
  uuidParse : string -> option UUID;
  uuidParse_String : forall id, uuidParse (uuidString id) = Some id
}.

(** An instance for evaluation: decimal text. *)
Definition decimalParse (s : string) : option UUID :=
  (fun d => Z.to_N (Z.of_int d)) <$> NilZero.int_of_string s.

Lemma decimalParse_String id : decimalParse (FormatInt (Z.of_N id)) = Some id.
Proof.
  unfold decimalParse, FormatInt. destruct (to_int_normal (Z.of_N id)).
  rewrite NilZero.isi by done. simpl. by rewrite DecimalZ.of_to, N2Z.id.
Qed.

Definition DecimalUUID : UUIDText :=
  {| uuidString id := FormatInt (Z.of_N id); uuidParse := decimalParse;
     uuidParse_String := decimalParse_String |}.

(** [a.Equal(b)] of [net.IP]: an IPv4 address equals its 16-byte form. *)
Definition v4InV6Prefix : list Z := [0; 0; 0; 0; 0; 0; 0; 0; 0; 0; 255; 255].
Definition ipEqual (a b : list Z) : bool :=
  bool_decide (a = b) ||
  ((length a =? 4)%nat && bool_decide (v4InV6Prefix ++ a = b)) ||
  ((length b =? 4)%nat && bool_decide (v4InV6Prefix ++ b = a)).

(** [net.ParseIP("127.0.0.1")]. *)
Definition loopback : list Z := v4InV6Prefix ++ [127; 0; 0; 1].

Module Audit.

Inductive Error := ErrInvalidEvent | ErrInvalidFilter | ErrWrite | ErrList.

(** A metadata value is an [any]; only strings are accepted. *)
Inductive any := AnyString (s : string) | AnyOther.

Record Event := MkEvent {
  ActorUserID : UUID;
  Action : string;
  TargetType : string;
  TargetID : string;
  Metadata : gmap string any;
  RequestID : string;
  EventIP : option (list Z)
}.

Record Record_ := MkRecord {
  RecordID : Z;
  RecordActor : option UUID;
  RecordAction : string;
  RecordTargetType : string;
  RecordTargetID : string;
  RecordMetadata : gmap string string;
  RecordRequestID : string;
  RecordIP : list Z;
  OccurredAt : Time
}.

Record AuditFilter := MkAuditFilter {
  FilterAction : string;
  FilterTargetType : string;
  FilterOutcome : string;
  FilterActorID : UUID;
  From_ : Time;
  To_ : Time;
  BeforeID : Z;
  Limit : Z
}.

Record AuditPage := MkAuditPage { Items : list Record_; NextBeforeID : Z }.

(** The regular expression [^[a-z][a-z0-9._-]{0,63}$]. *)
Definition identifier (s : string) : bool :=
  matchHead isLower (fun b => isLower b || isDigit b || oneOf "._-" b) 0 63 s.

(** ** The catalogue of actions *)
Record auditOutcomeRule := MkRule {
  outcome : string;
  metadataKey : string;
  metadataOutcomes : list (string * string)
}.

Definition always (o : string) : auditOutcomeRule := MkRule o "" [].

(** A Go map literal with string keys: at most one entry per key. *)
Fixpoint assoc {A} (table : list (string * A)) (key : string) : option A :=
  match table with
  | [] => None
  | (k, v) :: rest => if bool_decide (k = key) then Some v else assoc rest key
  end.

Definition allowedMetadata : list (string * list string) := [
  ("student.created", ["username"; "display_name"]);
  ("student.disabled", ["status"]);
  ("student.enabled", ["status"]);
  ("student.password_reset", []);
  ("catalog.created", ["kind"]);
  ("catalog.renamed", ["kind"]);
  ("catalog.reordered", ["kind"]);
  ("catalog.archived", ["kind"]);
  ("catalog.restored", ["kind"]);
  ("lesson.draft_saved", []);
  ("lesson.published", ["revision_id"]);
  ("lesson.withdrawn", []);
  ("lesson.archived", []);
  ("file.uploaded", []);
  ("file.policy_changed", []);
  ("file.processing_retried", []);
  ("file.replaced", []);
  ("file.draft_rolled_back", []);
  ("file.delete_requested", []);
  ("file.cleanup_scheduled", ["previewCount"]);
  ("file.cleanup_completed", []);
  ("file.processing_artifact_cleanup_scheduled", []);
  ("file.processing_artifact_cleanup_completed", []);
  ("qa.thread_created", ["messageCount"; "attachmentCount"]);
  ("qa.student_followed_up", ["messageCount"; "attachmentCount"]);
  ("qa.admin_replied", ["messageCount"; "attachmentCount"; "oldStatus"; "newStatus"]);
  ("qa.status_changed", ["oldStatus"; "newStatus"]);
  ("qa.teacher_note_added", ["noteCount"]);
  ("ai.provider_created", []);
  ("ai.provider_updated", ["keyChanged"]);
  ("ai.provider_activated", []);
  ("ai.provider_tested", ["providerId"; "protocol"; "ok"; "errorCategory"; "latencyMs"]);
  ("ai.model_put", ["providerId"; "modality"]);
  ("ai.prompt_put", ["subject"; "version"]);
  ("ai.limits_global_put", []);
  ("ai.limits_student_put", ["studentId"]);
  ("ai.file_access_rejected", ["reason"]);
  ("operations.settings_updated", []);
  ("operations.settings_rejected", ["category"; "reason"]);
  ("operations.lease_taken_over", []);
  ("operations.retention_completed", ["samples"; "alertDeliveries"; "alerts"; "restoreVerifications"; "backupRuns"]);
  ("operations.backup_requested", []);
  ("operations.alert_acknowledged", ["status"]);
  ("operations.update_requested", ["status"]);
  ("operations.rollback_requested", ["status"])].

Definition allowedTargetTypes : list (string * string) := [
  ("student.created", "student");
  ("student.disabled", "student");
  ("student.enabled", "student");
  ("student.password_reset", "student");
  ("catalog.created", "catalog");
  ("catalog.renamed", "catalog");
  ("catalog.reordered", "catalog");
  ("catalog.archived", "catalog");
  ("catalog.restored", "catalog");
  ("lesson.draft_saved", "lesson");
  ("lesson.published", "lesson");
  ("lesson.withdrawn", "lesson");
  ("lesson.archived", "lesson");
  ("file.uploaded", "file_version");
  ("file.policy_changed", "lesson");
  ("file.processing_retried", "file_version");
  ("file.replaced", "file");
  ("file.draft_rolled_back", "file_version");
  ("file.delete_requested", "file");
  ("file.cleanup_scheduled", "file_version");
  ("file.cleanup_completed", "file_version");
  ("file.processing_artifact_cleanup_scheduled", "file_version");
  ("file.processing_artifact_cleanup_completed", "file_version");
  ("qa.thread_created", "qa_thread");
  ("qa.student_followed_up", "qa_thread");
  ("qa.admin_replied", "qa_thread");
  ("qa.status_changed", "qa_thread");
  ("qa.teacher_note_added", "qa_thread");
  ("ai.provider_created", "ai_provider");
  ("ai.provider_updated", "ai_provider");
  ("ai.provider_activated", "ai_provider");
  ("ai.provider_tested", "ai_provider");
  ("ai.model_put", "ai_model");
  ("ai.prompt_put", "ai_prompt");
  ("ai.limits_global_put", "ai_limits");
  ("ai.limits_student_put", "ai_limits");
  ("ai.file_access_rejected", "ai_file_request");
  ("operations.settings_updated", "system_settings");
  ("operations.settings_rejected", "system_settings");
  ("operations.lease_taken_over", "operational_mode");
  ("operations.retention_completed", "metadata_retention");
  ("operations.backup_requested", "backup_run");
  ("operations.alert_acknowledged", "operational_alert");
  ("operations.update_requested", "application_update");
  ("operations.rollback_requested", "application_update")].

Definition auditOutcomeRules : list (string * auditOutcomeRule) := [
  ("student.created", always "succeeded");
  ("student.disabled", always "succeeded");
  ("student.enabled", always "succeeded");
  ("student.password_reset", always "succeeded");
  ("catalog.created", always "succeeded");
  ("catalog.renamed", always "succeeded");
  ("catalog.reordered", always "succeeded");
  ("catalog.archived", always "succeeded");
  ("catalog.restored", always "succeeded");
  ("lesson.draft_saved", always "succeeded");
  ("lesson.published", always "succeeded");
  ("lesson.withdrawn", always "succeeded");
  ("lesson.archived", always "succeeded");
  ("file.uploaded", always "succeeded");
  ("file.policy_changed", always "succeeded");
  ("file.processing_retried", always "succeeded");
  ("file.replaced", always "succeeded");
  ("file.draft_rolled_back", always "succeeded");
  ("file.delete_requested", always "succeeded");
  ("file.cleanup_scheduled", always "succeeded");
  ("file.cleanup_completed", always "succeeded");
  ("file.processing_artifact_cleanup_scheduled", always "succeeded");
  ("file.processing_artifact_cleanup_completed", always "succeeded");
  ("qa.thread_created", always "succeeded");
  ("qa.student_followed_up", always "succeeded");
  ("qa.admin_replied", always "succeeded");
  ("qa.status_changed", always "succeeded");
  ("qa.teacher_note_added", always "succeeded");
  ("ai.provider_created", always "succeeded");
  ("ai.provider_updated", always "succeeded");
  ("ai.provider_activated", always "succeeded");
  ("ai.model_put", always "succeeded");
  ("ai.prompt_put", always "succeeded");
  ("ai.limits_global_put", always "succeeded");
  ("ai.limits_student_put", always "succeeded");
  ("ai.file_access_rejected", always "rejected");
  ("operations.settings_updated", always "succeeded");
  ("operations.settings_rejected", always "rejected");
  ("operations.lease_taken_over", always "succeeded");
  ("operations.retention_completed", always "succeeded");
  ("operations.backup_requested", always "succeeded");
  ("operations.alert_acknowledged", always "succeeded");
  ("operations.update_requested", always "attempted");
  ("operations.rollback_requested", always "attempted");
  ("ai.provider_tested", MkRule "" "ok" [("true", "succeeded"); ("false", "failed")])].

(** [event.Metadata[key].(string)]. *)
Definition text (m : gmap string any) (key : string) : option string :=
  match m !! key with Some (AnyString s) => Some s | _ => None end.

Definition classifyAuditOutcome (action : string) (metadata : gmap string any) : option string :=
  match assoc auditOutcomeRules action with
  | None => None
  | Some rule =>
      if negb (bool_decide (outcome rule = "")) then Some (outcome rule)
      else match text metadata (metadataKey rule) with
           | None => None
           | Some value => assoc (metadataOutcomes rule) value
           end
  end.

Definition IsValidOutcome (o : string) : bool :=
  if bool_decide (o = "") then false
  else existsb (fun '(_, rule) =>
         bool_decide (outcome rule = o) ||
         existsb (fun '(_, classified) => bool_decide (classified = o)) (metadataOutcomes rule))
       auditOutcomeRules.

Definition safeQAStatus (status : string) : bool :=
  member ["pending"; "in_progress"; "waiting_student"; "completed"] status.

(** ** Validation *)
Section Validation.
Context `{UUIDText}.

Definition systemActorAllowed (e : Event) : bool :=
  let fromLoopback := match EventIP e with Some ip => ipEqual ip loopback | None => false end in
  if bool_decide (Action e = "operations.lease_taken_over") then
    bool_decide (TargetType e = "operational_mode") && bool_decide (TargetID e = "global")
    && (size (Metadata e) =? 0)%nat
    && bool_decide (RequestID e = "operations-lease-takeover") && fromLoopback
  else if bool_decide (Action e = "operations.retention_completed") then
    bool_decide (TargetType e = "metadata_retention") && bool_decide (TargetID e = "global")
    && bool_decide (RequestID e = "operations-retention") && fromLoopback
  else false.

Definition isText (m : gmap string any) (key value : string) : bool :=
  bool_decide (text m key = Some value).

Definition textIn (m : gmap string any) (key : string) (ok : string -> bool) : bool :=
  match text m key with Some s => ok s | None => false end.

(** [strconv.Atoi] of a count between 0 and 20. *)
Definition attachmentCountOk (s : string) : bool :=
  match ParseInt s with Some n => (0 <=? n) && (n <=? 20) | None => false end.

Definition validQAEvent (e : Event) : bool :=
  let m := Metadata e in
  if member ["qa.thread_created"; "qa.student_followed_up"] (Action e) then
    (size m =? 2)%nat && isText m "messageCount" "1" && textIn m "attachmentCount" attachmentCountOk
  else if bool_decide (Action e = "qa.admin_replied") then
    (size m =? 4)%nat && isText m "messageCount" "1" && textIn m "attachmentCount" attachmentCountOk
    && textIn m "oldStatus" safeQAStatus && textIn m "newStatus" safeQAStatus
  else if bool_decide (Action e = "qa.status_changed") then
    (size m =? 2)%nat && textIn m "oldStatus" safeQAStatus && textIn m "newStatus" safeQAStatus
  else if bool_decide (Action e = "qa.teacher_note_added") then
    (size m =? 1)%nat && isText m "noteCount" "1"
  else true.

(** [strconv.ParseInt] of a count in canonical form. *)
Definition canonicalCount (s : string) : bool :=
  match ParseInt s with Some n => (0 <=? n) && bool_decide (FormatInt n = s) | None => false end.

Definition canonicalID (s : string) : bool :=
  match uuidParse s with
  | Some id => negb (id =? NilUUID)%N && bool_decide (uuidString id = s)
  | None => false
  end.

Definition retentionCounts : list string :=
  ["samples"; "alertDeliveries"; "alerts"; "restoreVerifications"; "backupRuns"].

Definition validOperationsEvent (e : Event) : bool :=
  let m := Metadata e in
  if member ["operations.settings_updated"; "operations.lease_taken_over"] (Action e) then
    (size m =? 0)%nat
  else if bool_decide (Action e = "operations.retention_completed") then
    (ActorUserID e =? NilUUID)%N && (size m =? 5)%nat
    && forallb (fun key => textIn m key canonicalCount) retentionCounts
  else if bool_decide (Action e = "operations.backup_requested") then
    (size m =? 0)%nat && canonicalID (TargetID e)
  else if bool_decide (Action e = "operations.alert_acknowledged") then
    (size m =? 1)%nat && canonicalID (TargetID e) && isText m "status" "acknowledged"
  else if member ["operations.update_requested"; "operations.rollback_requested"] (Action e) then
    bool_decide (TargetID e = "global") && (size m =? 1)%nat && isText m "status" "requested"
  else if bool_decide (Action e = "operations.settings_rejected") then
    (size m =? 2)%nat && isText m "category" "high_risk"
    && textIn m "reason" (member ["retention"; "backup_schedule"; "threshold"])
  else false.

(** [x, _ := e.Metadata[k].(string)]. *)
Definition v (e : Event) (k : string) : string := or_zero "" (text (Metadata e) k).

Definition parses (s : string) : bool := bool_decide (is_Some (uuidParse s)).

Definition aiErrorCategories : list string :=
  ["auth"; "rate_limited"; "upstream_4xx"; "upstream_5xx"; "timeout"; "stream_interrupted";
   "malformed_stream"; "response_too_large"; "cancelled"; "unavailable"; "busy"].

Definition validAIEvent (e : Event) : bool :=
  let n := size (Metadata e) in
  if member ["ai.provider_created"; "ai.provider_activated"; "ai.limits_global_put"] (Action e)
  then (n =? 0)%nat
  else if bool_decide (Action e = "ai.provider_updated") then
    (n =? 1)%nat && member ["true"; "false"] (v e "keyChanged")
  else if bool_decide (Action e = "ai.provider_tested") then
    if negb (parses (v e "providerId"))
       || negb (match ParseInt (v e "latencyMs") with Some l => 0 <=? l | None => false end)
       || negb (member ["chat_completions"; "responses"] (v e "protocol"))
       || negb (member ["true"; "false"] (v e "ok")) then false
    else if bool_decide (v e "ok" = "true") then
      (n =? 5)%nat && bool_decide (v e "errorCategory" = "")
    else member aiErrorCategories (v e "errorCategory") && (n =? 5)%nat
  else if bool_decide (Action e = "ai.model_put") then
    (n =? 2)%nat && parses (v e "providerId") && member ["text"; "vision"] (v e "modality")
  else if bool_decide (Action e = "ai.prompt_put") then
    (n =? 2)%nat && (match ParseInt (v e "version") with Some k => 0 <? k | None => false end)
    && member ["math"; "physics"] (v e "subject")
  else if bool_decide (Action e = "ai.limits_student_put") then
    (n =? 1)%nat && parses (v e "studentId")
  else if bool_decide (Action e = "ai.file_access_rejected") then
    bool_decide (TargetID e = "unresolved") && (n =? 1)%nat
    && member ["malformed_id"; "unexpected_query"; "invalid_actor"; "invalid_ip"] (v e "reason")
  else false.

(** [storedMetadata]: the texts, with the outcome added. *)
Definition storedMetadata (m : gmap string any) (o : string) : gmap string string :=
  <["outcome" := o]> (omap (fun x => match x with AnyString s => Some s | AnyOther => None end) m).

Definition validateAndMarshal (e : Event) : result Error (gmap string string) :=
  (reject ((ActorUserID e =? NilUUID)%N && negb (systemActorAllowed e))
       || negb (identifier (Action e)) || negb (identifier (TargetType e))
       || blank (TargetID e) || (128 <? len (TargetID e))
       || blank (RequestID e) || (64 <? len (RequestID e))
       || bool_decide (EventIP e = None) with ErrInvalidEvent;
   match assoc allowedMetadata (Action e) with
   | None => Err ErrInvalidEvent
   | Some allowed =>
     reject negb (bool_decide (or_zero "" (assoc allowedTargetTypes (Action e)) = TargetType e))
       with ErrInvalidEvent;
     reject negb (forallb (fun '(key, value) => member allowed key &&
                     match value with AnyString _ => true | AnyOther => false end)
                   (map_to_list (Metadata e))) with ErrInvalidEvent;
     reject negb (validQAEvent e) with ErrInvalidEvent;
     reject String.prefix "ai." (Action e) && negb (validAIEvent e) with ErrInvalidEvent;
     reject String.prefix "operations." (Action e) && negb (validOperationsEvent e)
       with ErrInvalidEvent;
     match classifyAuditOutcome (Action e) (Metadata e) with
     | None => Err ErrInvalidEvent
     | Some o => Ok (storedMetadata (Metadata e) o)
     end
   end)%go.

End Validation.

(** ** The table and the writer

    A store whose database has the table gives access to it through [HasAudit].
    Identity values grow with every insert. *)
Record Table := MkTable { rows : list Record_; nextID : Z }.

Class HasAudit (S : Type) := { auditOf : S -> Table; setAudit : Table -> S -> S }.

#[export] Instance Table_audit : HasAudit Table := {| auditOf := id; setAudit t _ := t |}.

Section Writer.
Context `{UUIDText} {S E : Type} `{HasAudit S} (failed : Error -> E).

Definition record (e : Event) (metadata : gmap string string) (id : Z) (now : Time) : Record_ :=
  MkRecord id (if (ActorUserID e =? NilUUID)%N then None else Some (ActorUserID e))
    (Action e) (TargetType e) (TargetID e) metadata (RequestID e) (or_zero [] (EventIP e)) now.

Definition append (e : Event) (metadata : gmap string string) (now : Time) (t : Table) : Table :=
  MkTable (rows t ++ [record e metadata (nextID t) now]) (nextID t + 1).

Definition Write (e : Event) : DB S E unit :=
  (match validateAndMarshal e with
   | Err err => dfail (failed err)
   | Ok metadata =>
     do now <- databaseNow (failed ErrWrite);
     do s <- dget;
     dput (setAudit (append e metadata now (auditOf s)) s)
   end)%db.

End Writer.

(** ** The outcome expression

    A clause of the generated CASE refers to its arguments by their parameter
    numbers. *)
Inductive Arg := ArgText (s : string) | ArgTexts (l : list string).

Inductive Clause :=
| WhenMetadata (action key value result : nat)   (* WHEN action=$ AND metadata->>$=$ THEN $ *)
| WhenAny (actions result : nat).                (* WHEN action = ANY($) THEN $ *)

(** [sort.Strings] orders by bytes. *)
Definition stringLe (a b : string) : Prop := String.leb a b = true.
#[export] Instance stringLe_dec a b : Decision (stringLe a b).
Proof. unfold stringLe. apply _. Defined.
Definition sortStrings (l : list string) : list string := merge_sort stringLe l.

(** [staticActions]: the actions of each fixed outcome. *)
Definition staticActions (o : string) : list string :=
  sortStrings (fst <$> List.filter (fun '(_, rule) => bool_decide (outcome rule = o)
                         && negb (bool_decide (outcome rule = ""))) auditOutcomeRules).

Definition dynamicActions : list string :=
  sortStrings (fst <$> List.filter (fun '(_, rule) => bool_decide (outcome rule = "")) auditOutcomeRules).

(** The keys of [staticActions]. *)
Definition staticOutcomes : list string :=
  sortStrings (remove_dups (List.filter (fun o => negb (bool_decide (o = "")))
    ((fun '(_, rule) => outcome rule) <$> auditOutcomeRules))).

(** [bind] numbers a value with the next parameter and appends it. *)
Definition Binder : Type := nat * list Arg.
Definition bind (value : Arg) (b : Binder) : nat * Binder :=
  let '(parameter, args) := b in (parameter, (S parameter, args ++ [value])).

Fixpoint bindValues (action : string) (rule : auditOutcomeRule) (values : list string) (b : Binder) :
  list Clause * Binder :=
  match values with
  | [] => ([], b)
  | value :: rest =>
    let '(pa, b) := bind (ArgText action) b in
    let '(pk, b) := bind (ArgText (metadataKey rule)) b in
    let '(pv, b) := bind (ArgText value) b in
    let '(po, b) := bind (ArgText (or_zero "" (assoc (metadataOutcomes rule) value))) b in
    let '(clauses, b) := bindValues action rule rest b in
    (WhenMetadata pa pk pv po :: clauses, b)
  end.

Fixpoint bindDynamic (actions : list string) (b : Binder) : list Clause * Binder :=
  match actions with
  | [] => ([], b)
  | action :: rest =>
    let rule := or_zero (always "") (assoc auditOutcomeRules action) in
    let '(c1, b) := bindValues action rule (sortStrings (fst <$> metadataOutcomes rule)) b in
    let '(c2, b) := bindDynamic rest b in
    (c1 ++ c2, b)
  end.

Fixpoint bindStatic (outcomes : list string) (b : Binder) : list Clause * Binder :=
  match outcomes with
  | [] => ([], b)
  | o :: rest =>
    let '(pa, b) := bind (ArgTexts (staticActions o)) b in
    let '(po, b) := bind (ArgText o) b in
    let '(clauses, b) := bindStatic rest b in
    (WhenAny pa po :: clauses, b)
  end.

Definition auditOutcomeSQL (firstParameter : nat) : list Clause * list Arg :=
  let b := (firstParameter, []) in
  let '(c1, b) := bindDynamic dynamicActions b in
  let '(c2, b) := bindStatic staticOutcomes b in
  (c1 ++ c2, snd b).

(** The server's evaluation: [$n] is the n-th argument, a clause applies when
    its comparison is true, and no clause leaves NULL. *)
Definition argText (args : list Arg) (n : nat) : option string :=
  match args !! (n - 1)%nat with Some (ArgText s) => Some s | _ => None end.
Definition argTexts (args : list Arg) (n : nat) : list string :=
  match args !! (n - 1)%nat with Some (ArgTexts l) => l | _ => [] end.

Definition applies (args : list Arg) (action : string) (metadata : gmap string string) (c : Clause) : bool :=
  match c with
  | WhenMetadata pa pk pv _ =>
      bool_decide (argText args pa = Some action) &&
      match argText args pk with
      | Some key => match metadata !! key with
                    | Some value => bool_decide (argText args pv = Some value)
                    | None => false
                    end
      | None => false
      end
  | WhenAny pa _ => member (argTexts args pa) action
  end.

Definition clauseResult (args : list Arg) (c : Clause) : option string :=
  match c with WhenMetadata _ _ _ po | WhenAny _ po => argText args po end.

Definition evalCase (clauses : list Clause) (args : list Arg) (action : string)
    (metadata : gmap string string) : option string :=
  match List.find (applies args action metadata) clauses with
  | Some c => clauseResult args c
  | None => None
  end.

(** ** Listing *)
Definition validateAuditFilter (f : AuditFilter) : result Error unit :=
  (reject (Limit f <? 1) || (100 <? Limit f) || (BeforeID f <? 0)
       || (negb (bool_decide (FilterAction f = "")) && negb (identifier (FilterAction f)))
       || (negb (bool_decide (FilterTargetType f = "")) && negb (identifier (FilterTargetType f)))
       || (negb (bool_decide (FilterOutcome f = "")) &&
           (negb (identifier (FilterOutcome f)) || negb (IsValidOutcome (FilterOutcome f))))
       || (negb (IsZero (From_ f)) && negb (IsZero (To_ f)) && After (From_ f) (To_ f))
     with ErrInvalidFilter;
   Ok tt)%go.

(** The eight fixed arguments come first, so the generated ones start at 9. *)
Definition outcomeArgs (f : AuditFilter) : list Arg :=
  replicate 8 (ArgText "") ++ snd (auditOutcomeSQL 9).

Section Listing.
Context `{PgTime}.

(** The WHERE clause without the cursor. *)
Definition matches (f : AuditFilter) (r : Record_) : bool :=
  (bool_decide (FilterAction f = "") || bool_decide (RecordAction r = FilterAction f))
  && (bool_decide (FilterTargetType f = "") || bool_decide (RecordTargetType r = FilterTargetType f))
  && (bool_decide (FilterOutcome f = "")
      || bool_decide (evalCase (fst (auditOutcomeSQL 9)) (outcomeArgs f) (RecordAction r)
                        (RecordMetadata r) = Some (FilterOutcome f)))
  && ((FilterActorID f =? NilUUID)%N || bool_decide (RecordActor r = Some (FilterActorID f)))
  && (IsZero (From_ f) || (stored (ns (From_ f)) <=? ns (OccurredAt r)))
  && (IsZero (To_ f) || (ns (OccurredAt r) <=? stored (ns (To_ f)))).

Definition beforeID (f : AuditFilter) (r : Record_) : bool :=
  (BeforeID f =? 0) || (RecordID r <? BeforeID f).

(** [ORDER BY id DESC]. *)
Definition recordKey (r : Record_) : Z * Z := (RecordID r, 0).

Definition utcRecord (r : Record_) : Record_ :=
  MkRecord (RecordID r) (RecordActor r) (RecordAction r) (RecordTargetType r) (RecordTargetID r)
    (RecordMetadata r) (RecordRequestID r) (RecordIP r) (UTC (OccurredAt r)).

Section Reader.
Context {S : Type} `{HasAudit S}.

Definition ListFiltered (f : AuditFilter) : DB S Error AuditPage :=
  (match validateAuditFilter f with
   | Err e => dfail e
   | Ok _ =>
     call ErrList;
     do s <- dget;
     let limit := Z.to_nat (Limit f) in
     let result := utcRecord <$> take (Datatypes.S limit)
       (List.filter (fun r => matches f r && beforeID f r) (orderDesc recordKey (rows (auditOf s)))) in
     dret (if (limit <? length result)%nat
           then let items := take limit result in
                MkAuditPage items (match last items with Some r => RecordID r | None => 0 end)
           else MkAuditPage result 0)
   end)%db.

(** [List]: the limit is clamped to 1..100, a negative cursor lists nothing. *)
Definition List_ (limit beforeID : Z) : DB S Error (list Record_) :=
  (let limit := if limit <? 1 then 1 else limit in
   let limit := if 100 <? limit then 100 else limit in
   if beforeID <? 0 then dret []
   else
     do page <- ListFiltered (MkAuditFilter "" "" "" NilUUID zeroTime zeroTime beforeID limit);
     dret (Items page))%db.

End Reader.
End Listing.

(** ** The outcome expression is the classification *)

(** The arguments and clauses that are generated, for parameters from 9. *)
Lemma auditOutcomeSQL_eq :
  auditOutcomeSQL 9 = ltac:(let r := eval vm_compute in (auditOutcomeSQL 9) in exact r).
Proof. vm_compute. reflexivity. Qed.

Lemma text_fmap (m : gmap string string) k : text (AnyString <$> m) k = m !! k.
Proof. unfold text. rewrite lookup_fmap. by destruct (m !! k). Qed.

(** Case analysis over the keys of the catalogue. *)
Lemma assoc_not_in {A} (t : list (string * A)) k : k ∉ fst <$> t -> assoc t k = None.
Proof.
  induction t as [|[k' a] t IH]; simpl; [done|]. rewrite not_elem_of_cons. intros [Hne Hn].
  rewrite bool_decide_eq_false_2 by congruence. by apply IH.
Qed.

Lemma member_false l s : s ∉ l -> member l s = false.
Proof. intros H. unfold member. by apply bool_decide_eq_false_2. Qed.

Definition generated : list Clause := fst (auditOutcomeSQL 9).

(** A clause with a known list of actions. *)
Lemma find_none {A} (f : A -> bool) l : Forall (fun x => f x = false) l -> List.find f l = None.
Proof. induction 1 as [|x l Hx _ IH]; simpl; [done|]. by rewrite Hx. Qed.

(** The actions a clause can apply to. *)
Definition clauseActions (args : list Arg) (c : Clause) : list string :=
  match c with
  | WhenMetadata pa _ _ _ => match argText args pa with Some a => [a] | None => [] end
  | WhenAny pa _ => argTexts args pa
  end.

Lemma applies_actions args action md c :
  applies args action md c = true -> action ∈ clauseActions args c.
Proof.
  destruct c as [pa pk pv po|pa po]; simpl; intros H.
  - apply andb_true_iff in H as [H _]. apply bool_decide_eq_true_1 in H. rewrite H. set_solver.
  - by apply bool_decide_eq_true_1 in H.
Qed.

Lemma generated_actions f :
  Forall (fun c => Forall (fun a => a ∈ fst <$> auditOutcomeRules) (clauseActions (outcomeArgs f) c))
    generated.
Proof.
  apply (bool_decide_unpack _). vm_compute. exact I.
Qed.

Lemma evalCase_unknown f action md :
  action ∉ fst <$> auditOutcomeRules -> evalCase generated (outcomeArgs f) action md = None.
Proof.
  intros Hout. unfold evalCase. rewrite find_none; [done|].
  eapply Forall_impl; [exact (generated_actions f)|]. intros c Hc.
  destruct (applies _ _ _ c) eqn:E; [|done]. apply applies_actions in E.
  rewrite Forall_forall in Hc. by destruct Hout; apply Hc.
Qed.

(** The only action whose outcome depends on its metadata. *)
Lemma evalCase_tested f (md : gmap string string) :
  evalCase generated (outcomeArgs f) "ai.provider_tested" md =
  match md !! "ok" with
  | Some value => assoc [("true", "succeeded"); ("false", "failed")] value
  | None => None
  end.
Proof.
  unfold evalCase, generated, outcomeArgs. rewrite auditOutcomeSQL_eq.
  cbn [fst snd List.find applies].
  change (argText _ 9) with (Some "ai.provider_tested").
  change (argText _ 10) with (Some "ok"). change (argText _ 11) with (Some "false").
  change (argText _ 13) with (Some "ai.provider_tested").
  change (argText _ 14) with (Some "ok"). change (argText _ 15) with (Some "true").
  rewrite bool_decide_eq_true_2 by done. cbn [andb].
  destruct (md !! "ok") as [value|].
  - cbn [assoc]. destruct (decide (value = "false")) as [->|Hf]; [reflexivity|].
    rewrite (bool_decide_eq_false_2 (Some "false" = _)) by congruence.
    destruct (decide (value = "true")) as [->|Ht]; [reflexivity|].
    rewrite !(bool_decide_eq_false_2 (Some "true" = _)) by congruence.
    rewrite !bool_decide_eq_false_2 by congruence. reflexivity.
  - reflexivity.
Qed.

Lemma evalCase_classify f action (md : gmap string string) :
  evalCase generated (outcomeArgs f) action md = classifyAuditOutcome action (AnyString <$> md).
Proof.
  destruct (decide (action ∈ fst <$> auditOutcomeRules)) as [Hin|Hout].
  2: { rewrite evalCase_unknown by done. unfold classifyAuditOutcome. by rewrite assoc_not_in. }
  destruct (decide (action = "ai.provider_tested")) as [->|Hne].
  { rewrite evalCase_tested. unfold classifyAuditOutcome.
    change (assoc auditOutcomeRules _) with
      (Some (MkRule "" "ok" [("true", "succeeded"); ("false", "failed")])).
    cbn [outcome metadataKey metadataOutcomes]. by rewrite text_fmap. }
  unfold evalCase, generated, outcomeArgs. rewrite auditOutcomeSQL_eq.
  vm_compute in Hin.
  repeat (apply elem_of_cons in Hin as [->|Hin]; [first [lazy; reflexivity | done]|]).
  by apply elem_of_nil in Hin.
Qed.

(** ** Validation *)
Section ValidationFacts.
Context `{UUIDText}.

Record accepted (e : Event) (md : gmap string string) : Prop := {
  acc_actor : ActorUserID e = NilUUID -> systemActorAllowed e = true;
  acc_ip : is_Some (EventIP e);
  acc_target : assoc allowedTargetTypes (Action e) = Some (TargetType e);
  acc_keys : exists allowed, assoc allowedMetadata (Action e) = Some allowed /\
    forall k x, Metadata e !! k = Some x -> k ∈ allowed /\ exists s, x = AnyString s;
  acc_outcome : exists o, classifyAuditOutcome (Action e) (Metadata e) = Some o /\
    md = storedMetadata (Metadata e) o
}.

Lemma blank_empty : blank "" = true.
Proof. reflexivity. Qed.

Lemma validateAndMarshal_accepted e md : validateAndMarshal e = Ok md -> accepted e md.
Proof.
  unfold validateAndMarshal. intros Hv.
  destruct (_ || _) eqn:G1 in Hv; [done|]. bool_simpl.
  destruct (assoc allowedMetadata (Action e)) as [allowed|] eqn:Ha; [|done].
  destruct (negb (bool_decide _)) eqn:G2 in Hv; [done|]. bool_simpl.
  destruct (negb (forallb _ _)) eqn:G3 in Hv; [done|]. bool_simpl.
  repeat (destruct (negb (validQAEvent e)) in Hv; [done|]).
  destruct (_ && _) in Hv; [done|]. destruct (_ && _) in Hv; [done|].
  destruct (classifyAuditOutcome _ _) as [o|] eqn:Ho in Hv; [|done]. injection Hv as <-.
  split.
  - intros Hn. rewrite Hn in *. rewrite N.eqb_refl in *. cbn [andb] in *. bool_simpl.
    by destruct (systemActorAllowed e).
  - destruct (EventIP e); [by eexists|done].
  - destruct (assoc allowedTargetTypes (Action e)) as [t|] eqn:Ht; cbn [or_zero] in *; [congruence|].
    match goal with H : "" = TargetType e |- _ => rename H into Hempty end.
    match goal with H : identifier (TargetType e) = true |- _ => rewrite <- Hempty in H; discriminate H end.
  - exists allowed. split; [done|]. intros k x Hk. rewrite forallb_forall in G3.
    specialize (G3 (k, x) ltac:(by apply list_elem_of_In, elem_of_map_to_list)). simpl in G3.
    bool_simpl. unfold member in *. bool_simpl. destruct x; [eauto|done].
  - by exists o.
Qed.

(** Nothing of the metadata is lost or added but the outcome. *)
Lemma storedMetadata_lookup e md k :
  accepted e md -> k <> "outcome" -> md !! k = text (Metadata e) k.
Proof.
  intros [_ _ _ _ (o & _ & ->)] Hk. unfold storedMetadata, text.
  rewrite lookup_insert_ne, lookup_omap by done. by destruct (Metadata e !! k) as [[]|].
Qed.

(** Every outcome the classification gives is one the filter accepts. *)
Lemma auditClassify_valid action m o : classifyAuditOutcome action m = Some o -> IsValidOutcome o = true.
Proof.
  assert (Hall : Forall (fun '(_, r) => (outcome r <> "" -> IsValidOutcome (outcome r) = true) /\
      Forall (fun '(_, c) => IsValidOutcome c = true) (metadataOutcomes r)) auditOutcomeRules)
    by (apply (bool_decide_unpack _); vm_compute; exact I).
  unfold classifyAuditOutcome. revert Hall. generalize auditOutcomeRules as t.
  induction t as [|[k r] t IH]; [done|]. intros [[Hs Hd] Hall]%Forall_cons_1. cbn [assoc].
  case_bool_decide; [|by apply IH]. destruct (negb _) eqn:E; bool_simpl.
  - intros [= <-]. by apply Hs.
  - destruct (text m _) as [x|]; [|done]. clear -Hd. revert Hd.
    generalize (metadataOutcomes r) as l. induction l as [|[k c] l IH]; [done|].
    intros [Hc Hl]%Forall_cons_1. cbn [assoc]. case_bool_decide; [by intros [= <-]|by apply IH].
Qed.

(** No catalogued key is called outcome. *)
Lemma outcome_not_allowed action allowed :
  assoc allowedMetadata action = Some allowed -> "outcome" ∉ allowed.
Proof.
  assert (Hall : Forall (fun '(_, l) => "outcome" ∉ l) allowedMetadata)
    by (apply (bool_decide_unpack _); vm_compute; exact I).
  induction Hall as [|[k l] t Hl _ IH]; simpl; [done|].
  case_bool_decide; intros; simplify_eq; auto.
Qed.

(** Without the outcome the stored metadata is the event's. *)
Lemma storedMetadata_exact e md :
  accepted e md -> delete "outcome" (AnyString <$> md) = Metadata e.
Proof.
  intros Hacc. apply map_eq. intros k.
  pose proof Hacc as [_ _ _ (allowed & Ha & Hkeys) _].
  destruct (decide (k = "outcome")) as [->|Hk].
  - rewrite lookup_delete_eq. destruct (Metadata e !! "outcome") as [x|] eqn:E; [|done].
    apply Hkeys in E as [E _]. by apply outcome_not_allowed in Ha.
  - rewrite lookup_delete_ne, lookup_fmap, (storedMetadata_lookup e) by done. unfold text.
    destruct (Metadata e !! k) as [x|] eqn:E; [|done]. apply Hkeys in E as (_ & x' & ->). done.
Qed.

Lemma accepted_classify e md :
  accepted e md -> classifyAuditOutcome (Action e) (AnyString <$> md) = md !! "outcome" /\
    md !! "outcome" = classifyAuditOutcome (Action e) (Metadata e).
Proof.
  intros Hacc. pose proof Hacc as [_ _ _ _ (o & Ho & ->)].
  assert (Hmd : storedMetadata (Metadata e) o !! "outcome" = Some o)
    by apply lookup_insert_eq.
  rewrite Hmd, Ho. split; [|done]. revert Ho. unfold classifyAuditOutcome.
  destruct (assoc auditOutcomeRules (Action e)) as [rule|] eqn:Hr; [|done].
  destruct (negb _) eqn:Hs; [done|]. rewrite text_fmap.
  assert (Hkey : metadataKey rule <> "outcome").
  { clear -Hr. assert (Hall : Forall (fun '(_, r) => metadataKey r <> "outcome") auditOutcomeRules)
      by (apply (bool_decide_unpack _); vm_compute; exact I).
    revert Hr. induction Hall as [|[k r] t Hl _ IH]; simpl; [done|].
    case_bool_decide; intros; simplify_eq; auto. }
  rewrite (storedMetadata_lookup e) by done. done.
Qed.

End ValidationFacts.

(** ** The table *)
Section Invariant.
Context `{UUIDText}.

Definition recorded (r : Record_) : Prop :=
  exists e, accepted e (RecordMetadata r) /\ RecordAction r = Action e.

Record tableWf (t : Table) : Prop := {
  wf_recorded : forall r, r ∈ rows t -> recorded r;
  wf_ids : NoDup (RecordID <$> rows t);
  wf_range : forall r, r ∈ rows t -> 1 <= RecordID r < nextID t;
  wf_next : 1 <= nextID t
}.

(** Any attempt to write an event, with any outcome. *)
Definition writes (t t' : Table) : Prop :=
  exists e env n st r, Write (E := Error) id e env (n, t) = (st, r) /\ snd st = t'.

Lemma exec_writes e env t : writes t (exec (Write (E := Error) id e) env t).
Proof.
  unfold exec. destruct (Write id e env (0%nat, t)) as [st r] eqn:E. by exists e, env, 0%nat, st, r.
Qed.

Definition emptyTable (t : Table) : Prop := t = MkTable [] 1.

Lemma append_wf e md now t :
  accepted e md -> tableWf t -> tableWf (append e md now t).
Proof.
  intros Hacc [Hrec Hids Hrange Hnext]. unfold append. split; simpl.
  - intros r [Hr| ->%list_elem_of_singleton]%elem_of_app; [by apply Hrec|]. by exists e.
  - rewrite fmap_app. apply NoDup_app. split_and!; [done| |apply NoDup_singleton].
    intros i (r & -> & Hr)%list_elem_of_fmap Hi%list_elem_of_singleton.
    specialize (Hrange r Hr). simpl in Hi. lia.
  - intros r [Hr| ->%list_elem_of_singleton]%elem_of_app; [specialize (Hrange r Hr); lia|simpl; lia].
  - lia.
Qed.

Lemma writes_wf t t' : tableWf t -> writes t t' -> tableWf t'.
Proof.
  intros Hwf (e & env & n & st & r & Hw & <-). unfold Write in Hw.
  destruct (validateAndMarshal e) as [md|err] eqn:Hv; [|by injection Hw as <- _].
  unfold dbind, databaseNow, dget, dput in Hw. destruct (fault env n); injection Hw as <- _; [done|].
  simpl. apply append_wf; [by apply validateAndMarshal_accepted|done].
Qed.

Lemma reachable_wf t : reachable emptyTable writes t -> tableWf t.
Proof.
  apply reachable_invariant; [|intros; by eapply writes_wf].
  intros s ->. split; simpl; [set_solver|constructor|set_solver|lia].
Qed.

(** The generated filter compares the outcome that was recorded. *)
Lemma recorded_outcome f r :
  recorded r -> evalCase generated (outcomeArgs f) (RecordAction r) (RecordMetadata r)
    = RecordMetadata r !! "outcome".
Proof.
  intros (e & Hacc & Ha). rewrite evalCase_classify, Ha. by apply accepted_classify.
Qed.

End Invariant.

(** ** Paging *)
Section Paging.
Context `{PgTime} `{UUIDText}.

(** The rows a filter asks for, by their recorded outcome. *)
Definition listed (f : AuditFilter) (r : Record_) : bool :=
  (bool_decide (FilterAction f = "") || bool_decide (RecordAction r = FilterAction f))
  && (bool_decide (FilterTargetType f = "") || bool_decide (RecordTargetType r = FilterTargetType f))
  && (bool_decide (FilterOutcome f = "")
      || bool_decide (RecordMetadata r !! "outcome" = Some (FilterOutcome f)))
  && ((FilterActorID f =? NilUUID)%N || bool_decide (RecordActor r = Some (FilterActorID f)))
  && (IsZero (From_ f) || (stored (ns (From_ f)) <=? ns (OccurredAt r)))
  && (IsZero (To_ f) || (ns (OccurredAt r) <=? stored (ns (To_ f)))).

Lemma matches_listed f r : recorded r -> matches f r = listed f r.
Proof. intros Hr. unfold matches, listed. fold generated. by rewrite recorded_outcome. Qed.

Definition withBefore (f : AuditFilter) (b : Z) : AuditFilter :=
  MkAuditFilter (FilterAction f) (FilterTargetType f) (FilterOutcome f) (FilterActorID f)
    (From_ f) (To_ f) b (Limit f).

(** A client that follows [NextBeforeID] until it is zero. *)
Fixpoint followPages (fuel : nat) (f : AuditFilter) (env : Env) (t : Table) :
  result Error (list Record_) :=
  match fuel with
  | O => Ok []
  | S fuel' =>
    (let* page := value (ListFiltered f) env t in
     if NextBeforeID page =? 0 then Ok (Items page)
     else let* rest := followPages fuel' (withBefore f (NextBeforeID page)) env t in
          Ok (Items page ++ rest))%go
  end.

Definition cursorOf (f : AuditFilter) : option (Z * Z) :=
  if BeforeID f =? 0 then None else Some (BeforeID f, 0).

Lemma beforeID_cursor f r : beforeID f r = beforeCursor recordKey (cursorOf f) r.
Proof.
  unfold beforeID, cursorOf. destruct (BeforeID f =? 0); [done|].
  simpl. unfold pairLt. simpl. rewrite andb_false_r, orb_false_r. done.
Qed.

Definition sortedRows (f : AuditFilter) (t : Table) : list Record_ :=
  List.filter (matches f) (orderDesc recordKey (rows t)).

Lemma filter_filter {A} (p q : A -> bool) l :
  List.filter (fun a => p a && q a) l = List.filter q (List.filter p l).
Proof.
  induction l as [|a l IH]; simpl; [done|]. destruct (p a); simpl; [|done].
  destruct (q a); by rewrite IH.
Qed.

Lemma ListFiltered_page f env t :
  validateAuditFilter f = Ok tt -> quiet env ->
  let '(items, next) := Keyset.page recordKey (Z.to_nat (Limit f)) (cursorOf f) (sortedRows f t) in
  value (ListFiltered f) env t =
    Ok (MkAuditPage (utcRecord <$> items) (match next with Some c => fst c | None => 0 end)).
Proof.
  intros Hv Hq. unfold value, ListFiltered, sortedRows, Keyset.page.
  rewrite Hv, call_run, dget_run by apply Hq. unfold dret. cbn [fst snd auditOf Table_audit id].
  rewrite length_fmap.
  assert (Hfil : List.filter (fun r => matches f r && beforeID f r) (orderDesc recordKey (rows t)) =
    List.filter (beforeCursor recordKey (cursorOf f)) (List.filter (matches f) (orderDesc recordKey (rows t)))).
  { rewrite filter_filter. apply List.filter_ext. intros r. apply beforeID_cursor. }
  rewrite Hfil. set (l := take _ (List.filter _ _)).
  destruct (Z.to_nat (Limit f) <? length l)%nat; [|done].
  rewrite <- fmap_take. do 2 f_equal. rewrite fmap_last.
  by destruct (last (take _ l)).
Qed.

Lemma page_next_in limit cursor (l : list Record_) c :
  snd (Keyset.page recordKey limit cursor l) = Some c -> exists r, r ∈ l /\ c = recordKey r.
Proof.
  unfold Keyset.page. destruct (_ <? _)%nat; simpl; [|done]. intros Hc.
  apply fmap_Some in Hc as (r & Hr & ->). exists r. split; [|done].
  apply last_Some_elem_of, elem_of_take in Hr as (i & Hi & _).
  apply list_elem_of_lookup_2, elem_of_take in Hi as (j & Hj & _).
  apply list_elem_of_lookup_2, list_elem_of_In, filter_In in Hj as [Hj _].
  by apply list_elem_of_In.
Qed.

Lemma sortedRows_in f t r : r ∈ sortedRows f t -> r ∈ rows t.
Proof.
  unfold sortedRows. intros [Hr _]%list_elem_of_In%filter_In.
  apply list_elem_of_In in Hr. by rewrite orderDesc_perm in Hr.
Qed.

Lemma validate_before f b :
  0 <= b -> validateAuditFilter f = Ok tt -> validateAuditFilter (withBefore f b) = Ok tt.
Proof.
  intros Hb. unfold validateAuditFilter, withBefore. cbn.
  destruct (BeforeID f <? 0) eqn:E; rewrite ?orb_true_r; [done|].
  assert (b <? 0 = false) as -> by (apply Z.ltb_ge; lia). done.
Qed.

Lemma validate_limit f : validateAuditFilter f = Ok tt -> 1 <= Limit f <= 100.
Proof.
  unfold validateAuditFilter. destruct (_ || _) eqn:G; [done|]. intros _. bool_simpl. lia.
Qed.

Lemma sortedRows_before f b t : sortedRows (withBefore f b) t = sortedRows f t.
Proof. reflexivity. Qed.

Lemma cursorOf_before f r : RecordID r <> 0 -> cursorOf (withBefore f (RecordID r)) = Some (recordKey r).
Proof. intros Hr. unfold cursorOf. cbn [BeforeID withBefore]. by rewrite (proj2 (Z.eqb_neq _ _) Hr). Qed.

Lemma recordKey_NoDup t : tableWf t -> NoDup (recordKey <$> rows t).
Proof.
  intros Hwf. apply (NoDup_fmap_1 fst). rewrite <- list_fmap_compose. exact (wf_ids t Hwf).
Qed.

Lemma filter_strict (p : Record_ -> bool) l :
  strictlyDescending recordKey l -> strictlyDescending recordKey (List.filter p l).
Proof.
  unfold strictlyDescending. induction 1 as [|a l Hs IH Ha]; simpl; [constructor|].
  destruct (p a); [|done]. constructor; [done|]. rewrite List.Forall_forall in *.
  intros b [Hb _]%filter_In. by apply Ha.
Qed.

Lemma sortedRows_desc f t : tableWf t -> strictlyDescending recordKey (sortedRows f t).
Proof. intros Hwf. by apply filter_strict, orderDesc_strict, recordKey_NoDup. Qed.

Lemma filter_perm {A} (p : A -> bool) l1 l2 : l1 ≡ₚ l2 -> List.filter p l1 ≡ₚ List.filter p l2.
Proof.
  induction 1 as [|a l1 l2 _ IH|a b l|l1 l2 l3 _ IH1 _ IH2]; simpl; try done.
  - destruct (p a); by rewrite IH.
  - destruct (p a), (p b); try done. constructor.
  - by rewrite IH1.
Qed.

Lemma sortedRows_perm f t : tableWf t -> sortedRows f t ≡ₚ List.filter (listed f) (rows t).
Proof.
  intros Hwf. unfold sortedRows. rewrite (filter_perm _ _ _ (orderDesc_perm recordKey (rows t))).
  erewrite filter_ext_in; [reflexivity|]. intros r Hr. cbv beta.
  apply matches_listed, (wf_recorded t Hwf), list_elem_of_In, Hr.
Qed.

Lemma sortedRows_length f t : (length (sortedRows f t) <= length (rows t))%nat.
Proof.
  unfold sortedRows. etransitivity; [apply filter_length_le|].
  by rewrite (Permutation_length (orderDesc_perm recordKey (rows t))).
Qed.

Lemma strictly_NoDup l : strictlyDescending recordKey l -> NoDup (RecordID <$> l).
Proof.
  unfold strictlyDescending. induction 1 as [|a l Hs IH Ha]; simpl; constructor; [|done].
  intros (b & E & Hb)%list_elem_of_fmap. rewrite List.Forall_forall in Ha.
  specialize (Ha b ltac:(by apply list_elem_of_In)). apply pairLt_spec in Ha. simpl in Ha. lia.
Qed.

Lemma followAudit_walk fuel f env t :
  validateAuditFilter f = Ok tt -> quiet env -> tableWf t ->
  followPages fuel f env t =
    Ok (utcRecord <$> walk recordKey fuel (Z.to_nat (Limit f)) (cursorOf f) (sortedRows f t)).
Proof.
  intros Hv Hq Hwf. revert f Hv. induction fuel as [|fuel IH]; intros f Hv; [done|]. simpl.
  pose proof (ListFiltered_page f env t Hv Hq) as Hp.
  destruct (Keyset.page _ _ _ _) as [items next] eqn:E. rewrite Hp. cbn [Items NextBeforeID].
  destruct next as [c|]; [|done].
  destruct (page_next_in _ _ _ c ltac:(by rewrite E)) as (r & Hr & ->). cbn [recordKey fst].
  apply sortedRows_in, (wf_range t Hwf) in Hr.
  destruct (Z.eqb_spec (RecordID r) 0); [lia|].
  rewrite IH by (apply validate_before; [lia|done]).
  rewrite sortedRows_before, cursorOf_before by done. by rewrite fmap_app.
Qed.

(** Following the cursors of the filtered listing from the first page, in any
    log the writer can have produced, lists exactly the rows with the wanted
    action, target, actor and time whose recorded outcome is the wanted one, each
    once, newest first. *)
Theorem audit_listing_complete f env t :
  reachable emptyTable writes t -> validateAuditFilter f = Ok tt -> BeforeID f = 0 -> quiet env ->
  exists all, followPages (S (length (rows t))) f env t = Ok (utcRecord <$> all) /\
    all ≡ₚ List.filter (listed f) (rows t) /\ NoDup (RecordID <$> all) /\
    strictlyDescending recordKey all.
Proof.
  intros Ht Hv Hb Hq. pose proof (reachable_wf t Ht) as Hwf.
  pose proof (sortedRows_desc f t Hwf) as Hdesc.
  exists (sortedRows f t). split.
  - rewrite followAudit_walk by done. do 2 f_equal. unfold cursorOf. rewrite Hb. simpl Z.eqb. cbn iota.
    eapply (walk_suffix recordKey _ _ None (sortedRows f t) [] (sortedRows f t)); try done.
    + apply validate_limit in Hv. lia.
    + apply filter_true.
    + pose proof (sortedRows_length f t). lia.
  - split_and!; [by apply sortedRows_perm| |done].
    eapply strictly_NoDup. exact Hdesc.
Qed.

End Paging.

(** The outcome filter of the audit listing agrees with the writer: on the
    row of any event the writer accepts, the CASE expression generated from the
    catalogue, evaluated with the arguments it was generated with, is the outcome
    [classifyAuditOutcome] gave the event, which is the one stored in the row;
    and the other stored metadata is the event's, unchanged. *)
Theorem audit_outcome_agrees `{UUIDText} f e md :
  validateAndMarshal e = Ok md ->
  evalCase (fst (auditOutcomeSQL 9)) (outcomeArgs f) (Action e) md
    = classifyAuditOutcome (Action e) (Metadata e) /\
  md !! "outcome" = classifyAuditOutcome (Action e) (Metadata e) /\
  (exists o, md !! "outcome" = Some o /\ IsValidOutcome o = true) /\
  delete "outcome" (AnyString <$> md) = Metadata e.
Proof.
  intros Hacc%validateAndMarshal_accepted. destruct (accepted_classify e md Hacc) as [H1 H2].
  split_and!; [|done| |by apply storedMetadata_exact].
  - fold generated. by rewrite evalCase_classify, H1.
  - pose proof Hacc as [_ _ _ _ (o & Ho & _)]. exists o. rewrite H2. split; [done|].
    by eapply auditClassify_valid.
Qed.

Section AuditExamples.
#[local] Existing Instance DecimalUUID.
#[local] Existing Instance PgTruncate.

Definition exampleEvent : Event :=
  MkEvent 7 "ai.provider_tested" "ai_provider" "p1"
    {["providerId" := AnyString "9"; "latencyMs" := AnyString "12"; "protocol" := AnyString "responses";
      "ok" := AnyString "false"; "errorCategory" := AnyString "timeout"]} "req" (Some [10; 0; 0; 1]).

Definition takeoverEvent : Event :=
  MkEvent NilUUID "operations.lease_taken_over" "operational_mode" "global" ∅
    "operations-lease-takeover" (Some [127; 0; 0; 1]).

Definition anyFilter : AuditFilter :=
  MkAuditFilter "" "" "failed" NilUUID zeroTime zeroTime 0 1.

Lemma audit_outcome_agrees_witness :
  exists md, validateAndMarshal exampleEvent = Ok md /\ md !! "outcome" = Some "failed".
Proof.
  assert (E : validateAndMarshal exampleEvent = Ok (storedMetadata (Metadata exampleEvent) "failed"))
    by (vm_cast_no_check (eq_refl (validateAndMarshal exampleEvent))).
  exists (storedMetadata (Metadata exampleEvent) "failed"). split; [exact E|].
  rewrite (proj1 (proj2 (audit_outcome_agrees anyFilter exampleEvent _ E))). reflexivity.
Defined.

Definition exampleEnv : Env := calm 1000000 zeroTime (fun n => N.of_nat n).

Definition table1 : Table := exec (Write (E := Error) id exampleEvent) exampleEnv (MkTable [] 1).
Definition table2 : Table := exec (Write (E := Error) id takeoverEvent) exampleEnv table1.

Lemma audit_listing_complete_witness :
  exists all, followPages 3 anyFilter exampleEnv table2 = Ok (utcRecord <$> all) /\
    RecordAction <$> all = ["ai.provider_tested"].
Proof.
  destruct (audit_listing_complete anyFilter exampleEnv table2) as (all & Hall & Hperm & _).
  - apply (reach_step _ _ table1); [apply (reach_step _ _ (MkTable [] 1)); [by constructor|]|].
    + apply exec_writes.
    + apply exec_writes.
  - vm_compute; reflexivity.
  - reflexivity.
  - intros n. reflexivity.
  - exists all. split; [exact Hall|].
    assert (Hf : List.filter (listed anyFilter) (rows table2) =
      [record exampleEvent (storedMetadata (Metadata exampleEvent) "failed") 1 (MkTime 1000000 None)])
      by (vm_compute; reflexivity).
    rewrite Hf in Hperm. apply Permutation_singleton_r in Hperm. rewrite Hperm. reflexivity.
Defined.

End AuditExamples.

End Audit.
