(* ===== verification/SettingsStore.v ===== *)
(** * The settings store

    Models the settings part of [internal/operations/postgres_store.go]: the
    singleton row of [system_settings], the table
    [infrastructure_configuration_status], and the audit events of updates and
    rejections.  The store is an instance of the interface the settings service
    of [OpsModel] is written against. *)

From S2P Require Import Prelude GoTime GoText Pg OpsModel AlertStore AuditLog.
From stdpp Require Import base tactics list gmap strings.
From Stdlib Require Import ZArith Lia.

Open Scope Z_scope.

(** The tables.  [knownUsers] are the keys of [users], which [updated_by]
    references; a NULL [updated_by] is the nil id it is scanned into. *)
Record SettingsDB := MkSettingsDB {
  system_settings : option Settings;
  infrastructure : gmap string (bool * Time);
  settingsAudit : Audit.Table;
  knownUsers : gset N
}.

#[export] Instance SettingsDB_audit : Audit.HasAudit SettingsDB :=
  {| Audit.auditOf := settingsAudit;
     Audit.setAudit t db := MkSettingsDB (system_settings db) (infrastructure db) t (knownUsers db) |}.

Definition setSettings (s : Settings) (db : SettingsDB) : SettingsDB :=
  MkSettingsDB (Some s) (infrastructure db) (settingsAudit db) (knownUsers db).

Definition setInfrastructure (m : gmap string (bool * Time)) (db : SettingsDB) : SettingsDB :=
  MkSettingsDB (system_settings db) m (settingsAudit db) (knownUsers db).

(** ** Schema constraints

    [char_length] counts characters; a text column holds no NUL byte. *)
Definition hasNul (s : string) : bool := existsb (Z.eqb 0) (bytes s).

Definition settingsRowCheck (s : Settings) : bool :=
  (1 <=? SettingsVersion s)
  && AlertStore.between 1 80 (RuneCountInString (SiteName s))
  && (RuneCountInString (SiteAnnouncement s) <=? 1000)
  && bool_decide (BackupTimezone s = "Asia/Shanghai")
  && AlertStore.between 30 365 (SoftDeleteRetentionDays s)
  && AlertStore.between 365 2555 (AuditRetentionDays s)
  && AlertStore.between 1 30 (OperationalSampleRetentionDays s)
  && AlertStore.between 0 23 (BackupHour s) && AlertStore.between 0 59 (BackupMinute s)
  && AlertStore.between 1 99 (DiskWarningPercent s)
  && (DiskWarningPercent s <? DiskCriticalPercent s) && (DiskCriticalPercent s <=? 100)
  && AlertStore.between 1 99 (BackupFilesystemWarningPercent s)
  && (BackupFilesystemWarningPercent s <? BackupFilesystemCriticalPercent s)
  && (BackupFilesystemCriticalPercent s <=? 100)
  && AlertStore.between 1 2147483646 (LocalBackupAgeWarningHours s)
  && (LocalBackupAgeWarningHours s <? LocalBackupAgeCriticalHours s)
  && (LocalBackupAgeCriticalHours s <=? 2147483647)
  && AlertStore.between 1 99 (AIErrorWarningPercent s)
  && (AIErrorWarningPercent s <? AIErrorCriticalPercent s) && (AIErrorCriticalPercent s <=? 100)
  && AlertStore.between 1 2147483646 (ProcessingQueueWarning s)
  && (ProcessingQueueWarning s <? ProcessingQueueCritical s)
  && (ProcessingQueueCritical s <=? 2147483647)
  && AlertStore.between 1 2147483646 (ProcessingFailureWarningCount s)
  && (ProcessingFailureWarningCount s <? ProcessingFailureCriticalCount s)
  && (ProcessingFailureCriticalCount s <=? 2147483647)
  && AlertStore.between 1 2147483646 (LoginFailureWarningCount s)
  && (LoginFailureWarningCount s <? LoginFailureCriticalCount s)
  && (LoginFailureCriticalCount s <=? 2147483647)
  && AlertStore.between 1 2147483646 (AuthorizationDenialWarningCount s)
  && (AuthorizationDenialWarningCount s <? AuthorizationDenialCriticalCount s)
  && (AuthorizationDenialCriticalCount s <=? 2147483647).

(** Errors of the server by SQLSTATE, as [mapSettingsError] maps them. *)
Definition mapSettingsError (code : string) : OpsError :=
  if bool_decide (code = "23503") then ErrForbidden
  else if bool_decide (code = "23505") then ErrConflict
  else if member ["22021"; "23514"] code then ErrInvalid
  else ErrDatabase.

(** What the server says to a new row: an encoding error, a bigint out of
    range, a violated check or a missing user. *)
Definition settingsRowError (db : SettingsDB) (s : Settings) : option string :=
  if hasNul (SiteName s) || hasNul (SiteAnnouncement s) then Some "22021"
  else if int8Max <? SettingsVersion s then Some "22003"
  else if negb (settingsRowCheck s) then Some "23514"
  else if bool_decide (SettingsUpdatedBy s ∈ knownUsers db) then None else Some "23503".

Module SettingsPg.
Section Store.
Context `{PgTime} `{UUIDText}.

(** The loop of [readInfrastructureStatuses]. *)
Fixpoint scanStatuses (rows : list (string * (bool * Time))) :
  result OpsError (list InfrastructureStatus) :=
  match rows with
  | [] => Ok []
  | (rawKey, (configured, validatedAt)) :: rest =>
    match infrastructureKeyFromStorage rawKey with
    | None => Err ErrInvalid
    | Some key =>
      (let* statuses := scanStatuses rest in
       Ok (MkInfra key configured (Some (UTC validatedAt)) :: statuses))%go
    end
  end.

Definition readInfrastructureStatuses : DB SettingsDB OpsError (list InfrastructureStatus) :=
  (call ErrDatabase;
   do db <- dget;
   match scanStatuses (map_to_list (infrastructure db)) with
   | Err e => dfail e
   | Ok statuses => dret (NormalizeInfrastructureStatuses statuses)
   end)%db.

Definition withInfrastructure (s : Settings) (i : list InfrastructureStatus) : Settings :=
  MkSettings (SettingsVersion s) (SiteName s) (SiteAnnouncement s) (SoftDeleteRetentionDays s)
    (AuditRetentionDays s) (OperationalSampleRetentionDays s) (BackupHour s) (BackupMinute s)
    (BackupTimezone s) (DiskWarningPercent s) (DiskCriticalPercent s)
    (BackupFilesystemWarningPercent s) (BackupFilesystemCriticalPercent s)
    (LocalBackupAgeWarningHours s) (LocalBackupAgeCriticalHours s) (AIErrorWarningPercent s)
    (AIErrorCriticalPercent s) (ProcessingQueueWarning s) (ProcessingQueueCritical s)
    (ProcessingFailureWarningCount s) (ProcessingFailureCriticalCount s)
    (LoginFailureWarningCount s) (LoginFailureCriticalCount s)
    (AuthorizationDenialWarningCount s) (AuthorizationDenialCriticalCount s)
    i (SettingsUpdatedBy s) (UTC (SettingsUpdatedAt s)).

Definition GetSettings : DB SettingsDB OpsError Settings :=
  (call ErrDatabase;
   do db <- dget;
   match system_settings db with
   | None => dfail ErrConflict
   | Some row =>
     do infra <- readInfrastructureStatuses;
     dret (withInfrastructure row infra)
   end)%db.

Definition RecordInfrastructureStatus (key : InfrastructureKey) (configured : bool)
    (validatedAt : Time) : DB SettingsDB OpsError unit :=
  (let storageKey := infrastructureStorageKey key in
   fail if bool_decide (storageKey = "") || IsZero validatedAt with ErrInvalid;
   call ErrDatabase;
   do db <- dget;
   dput (setInfrastructure
     (<[storageKey := (configured, pg (UTC validatedAt))]> (infrastructure db)) db))%db.

(** The row the UPDATE writes. *)
Definition updatedRow (p : Principal) (s : Settings) (version : Z) (now : Time) : Settings :=
  MkSettings (version + 1) (SiteName s) (SiteAnnouncement s) (SoftDeleteRetentionDays s)
    (AuditRetentionDays s) (OperationalSampleRetentionDays s) (BackupHour s) (BackupMinute s)
    (BackupTimezone s) (DiskWarningPercent s) (DiskCriticalPercent s)
    (BackupFilesystemWarningPercent s) (BackupFilesystemCriticalPercent s)
    (LocalBackupAgeWarningHours s) (LocalBackupAgeCriticalHours s) (AIErrorWarningPercent s)
    (AIErrorCriticalPercent s) (ProcessingQueueWarning s) (ProcessingQueueCritical s)
    (ProcessingFailureWarningCount s) (ProcessingFailureCriticalCount s)
    (LoginFailureWarningCount s) (LoginFailureCriticalCount s)
    (AuthorizationDenialWarningCount s) (AuthorizationDenialCriticalCount s)
    [] (User_ID p) (pg now).

Definition settingsUpdated (p : Principal) : Audit.Event :=
  Audit.MkEvent (User_ID p) "operations.settings_updated" "system_settings" "global" ∅
    (RequestID p) (PrincipalIP p).

Definition settingsRejected (p : Principal) (reason : string) : Audit.Event :=
  Audit.MkEvent (User_ID p) "operations.settings_rejected" "system_settings" "global"
    {["category" := Audit.AnyString "high_risk"; "reason" := Audit.AnyString reason]}
    (RequestID p) (PrincipalIP p).

(** An error of the audit writer is passed on as it is. *)
Definition auditFailed (e : Audit.Error) : OpsError := ErrDatabase.

Definition updateSettingsBody (p : Principal) (settings : Settings) :
  DB SettingsDB OpsError Settings :=
  (call ErrDatabase;
   do db <- dget;
   match system_settings db with
   | None => dfail ErrConflict
   | Some current =>
     fail if negb (SettingsVersion current =? SettingsVersion settings) with ErrConflict;
     do now <- databaseNow ErrDatabase;
     let updated := updatedRow p settings (SettingsVersion current) now in
     match settingsRowError db updated with
     | Some code => dfail (mapSettingsError code)
     | None =>
       do _ <- dput (setSettings updated db);
       do _ <- Audit.Write auditFailed (settingsUpdated p);
       do infra <- readInfrastructureStatuses;
       dret (withInfrastructure updated infra)
     end
   end)%db.

Definition UpdateSettings (p : Principal) (settings : Settings) : DB SettingsDB OpsError Settings :=
  match authorizeSettings p with
  | Err e => dfail e
  | Ok _ =>
    match ValidateSettings settings with
    | Err e => dfail e
    | Ok _ => transact ErrDatabase ErrDatabase (updateSettingsBody p settings)
    end
  end.

Definition AuditSettingsRejection (p : Principal) (reason : string) : DB SettingsDB OpsError unit :=
  match authorizeSettings p with
  | Err e => dfail e
  | Ok _ =>
    (fail if negb (member ["retention"; "backup_schedule"; "threshold"] reason) with ErrInvalid;
     transact ErrDatabase ErrDatabase (Audit.Write auditFailed (settingsRejected p reason)))%db
  end.

(** The store as the service's [ServiceStore], in one environment. *)
Definition PgServiceStore (env : Env) : ServiceStore SettingsDB :=
  {| ss_GetSettings db := value GetSettings env db;
     ss_UpdateSettings p s db := (exec (UpdateSettings p s) env db, value (UpdateSettings p s) env db);
     ss_AuditSettingsRejection p r db :=
       (exec (AuditSettingsRejection p r) env db, value (AuditSettingsRejection p r) env db) |}.

(** ** The audit events are acceptable *)
Lemma authorized_parts p :
  authorizeSettings p = Ok tt ->
  (User_ID p =? NilUUID)%N = false /\ blank (RequestID p) = false /\
  (64 <? len (RequestID p)) = false /\ exists ip, PrincipalIP p = Some ip.
Proof.
  unfold authorizeSettings. destruct (_ || _) eqn:G; [done|]. intros _. bool_simpl.
  split_and!; try done; [by apply Z.ltb_ge|]. destruct (PrincipalIP p) as [ip|]; [by eexists|done].
Qed.

Lemma settingsUpdated_valid p :
  authorizeSettings p = Ok tt ->
  Audit.validateAndMarshal (settingsUpdated p) = Ok {["outcome" := "succeeded"]}.
Proof.
  intros (Hu & Hb & Hl & ip & Hip)%authorized_parts. unfold Audit.validateAndMarshal.
  cbn [settingsUpdated Audit.ActorUserID Audit.Action Audit.TargetType Audit.TargetID
    Audit.Metadata Audit.RequestID Audit.EventIP].
  rewrite Hu, Hb, Hl, Hip. reflexivity.
Qed.

Definition rejectedMetadata (reason : string) : gmap string string :=
  {["outcome" := "rejected"; "category" := "high_risk"; "reason" := reason]}.

Lemma settingsRejected_valid p reason :
  authorizeSettings p = Ok tt -> reason ∈ ["retention"; "backup_schedule"; "threshold"] ->
  Audit.validateAndMarshal (settingsRejected p reason) = Ok (rejectedMetadata reason).
Proof.
  intros (Hu & Hb & Hl & ip & Hip)%authorized_parts Hr. unfold Audit.validateAndMarshal.
  cbn [settingsRejected Audit.ActorUserID Audit.Action Audit.TargetType Audit.TargetID
    Audit.Metadata Audit.RequestID Audit.EventIP].
  rewrite Hu, Hb, Hl, Hip.
  repeat (apply elem_of_cons in Hr as [->|Hr]; [reflexivity|]). by apply elem_of_nil in Hr.
Qed.

(** ** The schema admits every validated update *)
Lemma validated_row_check p s now :
  ValidateSettings s = Ok tt -> settingsRowCheck (updatedRow p s (SettingsVersion s) now) = true.
Proof.
  intros (Ht & Hr & Hb & Hth)%ValidateSettings_Ok.
  unfold badSiteText, badRetention, badBackupSchedule, badThresholds in *. bool_simpl.
  repeat match goal with
  | H : validPercentThresholdPair _ _ = true |- _ => apply validPercentThresholdPair_spec in H
  | H : validCountThresholdPair _ _ = true |- _ => apply validCountThresholdPair_spec in H
  end.
  unfold settingsRowCheck, AlertStore.between, updatedRow.
  cbn [SettingsVersion SiteName SiteAnnouncement SoftDeleteRetentionDays AuditRetentionDays
    OperationalSampleRetentionDays BackupHour BackupMinute BackupTimezone DiskWarningPercent
    DiskCriticalPercent BackupFilesystemWarningPercent BackupFilesystemCriticalPercent
    LocalBackupAgeWarningHours LocalBackupAgeCriticalHours AIErrorWarningPercent
    AIErrorCriticalPercent ProcessingQueueWarning ProcessingQueueCritical
    ProcessingFailureWarningCount ProcessingFailureCriticalCount LoginFailureWarningCount
    LoginFailureCriticalCount AuthorizationDenialWarningCount AuthorizationDenialCriticalCount].
  repeat (apply andb_true_iff; split);
    first [apply Z.leb_le | apply Z.ltb_lt | apply bool_decide_eq_true_2]; first [lia | done].
Qed.

(** ** Effects *)
Lemma Write_Ok {E} (failed : Audit.Error -> E) e md env n (db : SettingsDB) st :
  Audit.validateAndMarshal e = Ok md ->
  Audit.Write failed e env (n, db) = (st, Ok tt) ->
  exists now, snd st = MkSettingsDB (system_settings db) (infrastructure db)
    (Audit.append e md now (settingsAudit db)) (knownUsers db).
Proof.
  intros Hv. unfold Audit.Write. rewrite Hv. unfold dbind, databaseNow, dget, dput.
  destruct (fault env n); [done|]. intros [= <-]. simpl. eauto.
Qed.

Lemma readInfrastructure_Ok env n db st l :
  readInfrastructureStatuses env (n, db) = (st, Ok l) ->
  snd st = db /\ exists statuses, scanStatuses (map_to_list (infrastructure db)) = Ok statuses /\
    l = NormalizeInfrastructureStatuses statuses.
Proof.
  unfold readInfrastructureStatuses. intros Hr. db_inv.
  destruct (scanStatuses _) as [statuses|e] eqn:E; [|done]. db_inv. eauto.
Qed.

Definition outcomeMetadata : gmap string string := {["outcome" := "succeeded"]}.

Lemma updateBody_Ok p s env n db st u :
  authorizeSettings p = Ok tt -> updateSettingsBody p s env (n, db) = (st, Ok u) ->
  exists current now at_ statuses,
    system_settings db = Some current /\ SettingsVersion current = SettingsVersion s /\
    settingsRowError db (updatedRow p s (SettingsVersion current) now) = None /\
    snd st = MkSettingsDB (Some (updatedRow p s (SettingsVersion current) now)) (infrastructure db)
      (Audit.append (settingsUpdated p) outcomeMetadata at_ (settingsAudit db)) (knownUsers db) /\
    scanStatuses (map_to_list (infrastructure db)) = Ok statuses /\
    u = withInfrastructure (updatedRow p s (SettingsVersion current) now)
          (NormalizeInfrastructureStatuses statuses).
Proof.
  intros Hp Hb. unfold updateSettingsBody in Hb. db_inv.
  destruct (system_settings a0) as [current|] eqn:Hc; [|done].
  destruct (negb _) eqn:Hver in Hrun2; [done|]. bool_simpl. db_inv.
  destruct (settingsRowError a0 _) as [code|] eqn:He; [done|]. db_inv.
  match goal with H : Audit.Write _ _ _ _ = (_, Ok ?x) |- _ =>
    destruct x; destruct (Write_Ok _ _ _ _ _ _ _ (settingsUpdated_valid p Hp) H) as (at_ & Hst) end.
  match goal with H : readInfrastructureStatuses _ _ = _ |- _ =>
    apply readInfrastructure_Ok in H as (Hs & statuses & Hscan & ->) end.
  simpl in *. subst. simpl in *. eexists current, _, at_, statuses. split_and!; try done.
Qed.

Lemma UpdateSettings_Ok p s env n db st u :
  UpdateSettings p s env (n, db) = (st, Ok u) ->
  authorizeSettings p = Ok tt /\ ValidateSettings s = Ok tt /\
  exists m, updateSettingsBody p s env (S n, db) = ((m, snd st), Ok u).
Proof.
  unfold UpdateSettings. destruct (authorizeSettings p) as [[]|]; [|done].
  destruct (ValidateSettings s) as [[]|]; [|done]. intros Ht.
  apply transact_Ok in Ht as [m Hm]. eauto.
Qed.

(** Whatever happens, an update leaves the tables or installs the new row. *)
Lemma UpdateSettings_outcome p s env n db st r :
  UpdateSettings p s env (n, db) = (st, r) ->
  snd st = db \/ (authorizeSettings p = Ok tt /\ ValidateSettings s = Ok tt /\
    exists m u, updateSettingsBody p s env (S n, db) = ((m, snd st), Ok u)).
Proof.
  unfold UpdateSettings. destruct (authorizeSettings p) as [[]|] eqn:Hp; [|intros [= <- _]; by left].
  destruct (ValidateSettings s) as [[]|]; [|intros [= <- _]; by left]. intros Ht.
  apply transact_outcome in Ht as [->|(m & u & Hm)]; eauto 10.
Qed.

Lemma AuditSettingsRejection_outcome p reason env n db st r :
  AuditSettingsRejection p reason env (n, db) = (st, r) ->
  snd st = db \/ exists now, snd st = MkSettingsDB (system_settings db) (infrastructure db)
    (Audit.append (settingsRejected p reason) (rejectedMetadata reason) now (settingsAudit db))
    (knownUsers db) /\ authorizeSettings p = Ok tt /\
    reason ∈ ["retention"; "backup_schedule"; "threshold"].
Proof.
  unfold AuditSettingsRejection.
  destruct (authorizeSettings p) as [[]|] eqn:Hp; [|intros [= <- _]; by left].
  destruct (negb _) eqn:Hr; [intros [= <- _]; by left|]. unfold member in Hr. bool_simpl.
  intros Ht. apply transact_outcome in Ht as [->|(m & u & Hm)]; [by left|]. destruct u. right.
  apply (Write_Ok _ _ _ _ _ _ _ (settingsRejected_valid p reason Hp Hr)) in Hm as [now Hm].
  eauto.
Qed.

(** ** The invariant *)
Definition isUpdate (r : Audit.Record_) : bool :=
  bool_decide (Audit.RecordAction r = "operations.settings_updated").

Definition updates (db : SettingsDB) : Z :=
  Z.of_nat (length (List.filter isUpdate (Audit.rows (settingsAudit db)))).

Definition initialSettings (db : SettingsDB) : Prop :=
  (exists row, system_settings db = Some row /\ settingsRowCheck row = true /\
     SettingsVersion row = 1) /\
  infrastructure db = ∅ /\ settingsAudit db = Audit.MkTable [] 1.

(** The operations, in any environment, and other writers of the audit log. *)
Inductive settingsStep (db : SettingsDB) : SettingsDB -> Prop :=
| step_get env n st r : GetSettings env (n, db) = (st, r) -> settingsStep db (snd st)
| step_update p s env n st r :
    UpdateSettings p s env (n, db) = (st, r) -> settingsStep db (snd st)
| step_reject p reason env n st r :
    AuditSettingsRejection p reason env (n, db) = (st, r) -> settingsStep db (snd st)
| step_infrastructure key configured t env n st r :
    RecordInfrastructureStatus key configured t env (n, db) = (st, r) -> settingsStep db (snd st)
| step_other e env n st r :
    Audit.Action e <> "operations.settings_updated" ->
    Audit.Write auditFailed e env (n, db) = (st, r) -> settingsStep db (snd st).

Record settingsWf (db : SettingsDB) : Prop := {
  swf_row : exists row, system_settings db = Some row /\ settingsRowCheck row = true /\
    SettingsVersion row = 1 + updates db;
  swf_infra : forall k x, infrastructure db !! k = Some x -> is_Some (infrastructureKeyFromStorage k);
  swf_audit : Audit.tableWf (settingsAudit db)
}.

Lemma updates_append row infra e md now t users :
  updates (MkSettingsDB row infra (Audit.append e md now t) users) =
  updates (MkSettingsDB row infra t users) +
    (if bool_decide (Audit.Action e = "operations.settings_updated") then 1 else 0).
Proof.
  unfold updates. simpl. rewrite List.filter_app, length_app. simpl. unfold isUpdate at 2. simpl.
  case_bool_decide; simpl; lia.
Qed.

Lemma GetSettings_db env n db st r : GetSettings env (n, db) = (st, r) -> snd st = db.
Proof.
  unfold GetSettings, readInfrastructureStatuses, dbind, roundtrip, dget, dret, dfail.
  intros Hg. repeat case_match; simplify_eq/=; done.
Qed.

Lemma settingsStep_wf db db' : settingsWf db -> settingsStep db db' -> settingsWf db'.
Proof.
  intros Hwf Hstep. pose proof Hwf as [(row & Hrow & Hck & Hver) Hinf Haud].
  destruct Hstep as [env n st r Hg|p s env n st r Hu|p reason env n st r Hr
    |key c t env n st r Hi|e env n st r Hne Hw].
  - by rewrite (GetSettings_db _ _ _ _ _ Hg).
  - apply UpdateSettings_outcome in Hu as [->|(Hp & Hv & m & u & Hb)]; [done|].
    destruct (updateBody_Ok _ _ _ _ _ _ _ Hp Hb)
      as (cur & now & at_ & sts & Hc & Hvs & _ & Hst & _ & _). simpl in Hst. rewrite Hst.
    rewrite Hrow in Hc. injection Hc as <-. split; simpl.
    + eexists. split_and!; [done| |].
      * rewrite Hvs. by apply validated_row_check.
      * rewrite updates_append. rewrite bool_decide_eq_true_2 by done. simpl. unfold updates in *.
        simpl in *. lia.
    + done.
    + apply Audit.append_wf; [|done]. by apply Audit.validateAndMarshal_accepted, settingsUpdated_valid.
  - apply AuditSettingsRejection_outcome in Hr as [->|(now & -> & Hp & Hin)]; [done|].
    split; simpl; [|done|].
    + eexists. split_and!; [done..|]. rewrite updates_append. simpl. unfold updates in *. simpl in *. lia.
    + apply Audit.append_wf; [|done]. by apply Audit.validateAndMarshal_accepted, settingsRejected_valid.
  - unfold RecordInfrastructureStatus in Hi.
    destruct (_ || _) eqn:G in Hi; [by injection Hi as <- _|]. bool_simpl.
    unfold dbind, roundtrip, dget, dput in Hi.
    destruct (fault env n); injection Hi as <- _; [done|]. simpl. split; simpl.
    + eauto.
    + intros k x. destruct (decide (k = infrastructureStorageKey key)) as [->|Hk].
      * intros _. exists key. by apply infrastructureKeyFromStorage_iff.
      * rewrite lookup_insert_ne by done. apply Hinf.
    + done.
  - destruct (Audit.validateAndMarshal e) as [md|] eqn:Hv.
    2: { unfold Audit.Write in Hw. rewrite Hv in Hw. by injection Hw as <- _. }
    destruct r as [[]|]; [destruct (Write_Ok _ _ _ _ _ _ _ Hv Hw) as [now ->]|].
    + split; simpl; [|done|].
      * eexists. split_and!; [done..|]. rewrite updates_append, bool_decide_eq_false_2 by done.
        unfold updates in *. simpl in *. lia.
      * apply Audit.append_wf; [|done]. by apply Audit.validateAndMarshal_accepted.
    + unfold Audit.Write in Hw. rewrite Hv in Hw. unfold dbind, databaseNow, dget, dput in Hw.
      destruct (fault env n); [|done]. by injection Hw as <- _.
Qed.

Lemma initialSettings_wf db : initialSettings db -> settingsWf db.
Proof.
  intros ((row & Hr & Hc & Hv) & Hi & Ha). split.
  - exists row. split_and!; [done..|]. unfold updates. rewrite Ha. done.
  - rewrite Hi. intros k x Hk. by rewrite lookup_empty in Hk.
  - rewrite Ha. split; simpl; [set_solver|constructor|set_solver|lia].
Qed.

(** ** Properties *)

(** However the settings operations are interleaved and fail, the settings row
    exists and satisfies the schema's bounds, its version is one more than the
    number of settings_updated events in the audit log (so every change is
    audited exactly once and nothing else is), every infrastructure status has a
    known key, and the audit log is well formed. *)
Theorem settings_invariant db :
  reachable initialSettings settingsStep db ->
  (exists row, system_settings db = Some row /\ settingsRowCheck row = true /\
     SettingsVersion row = 1 + updates db) /\
  (forall k x, infrastructure db !! k = Some x -> is_Some (infrastructureKeyFromStorage k)) /\
  Audit.tableWf (settingsAudit db).
Proof.
  intros Hr. destruct (reachable_invariant _ _ _ initialSettings_wf settingsStep_wf _ Hr). done.
Qed.

(** Updates are not lost: once an update succeeded, it has raised the version
    by one, every other update based on the old version fails and changes
    nothing, and reading the settings returns exactly what the update returned. *)
Theorem settings_no_lost_update p1 s1 env1 n1 db st1 u p2 s2 env2 n2 st2 r2 env3 :
  settingsWf db ->
  UpdateSettings p1 s1 env1 (n1, db) = (st1, Ok u) ->
  SettingsVersion s2 = SettingsVersion s1 ->
  UpdateSettings p2 s2 env2 (n2, snd st1) = (st2, r2) ->
  quiet env3 ->
  SettingsVersion u = SettingsVersion s1 + 1 /\ SiteName u = SiteName s1 /\
  SettingsUpdatedBy u = User_ID p1 /\
  snd st2 = snd st1 /\ is_ok r2 = false /\
  value GetSettings env3 (snd st1) = Ok u.
Proof.
  intros Hwf (Hp & _ & m & Hb)%UpdateSettings_Ok Hver Hu2 Hq.
  destruct (updateBody_Ok _ _ _ _ _ _ _ Hp Hb)
    as (cur & now & at_ & sts & Hc & Hvs & _ & Hst & Hscan & ->). simpl in Hst.
  assert (Hrow : system_settings (snd st1) = Some (updatedRow p1 s1 (SettingsVersion cur) now))
    by (by rewrite Hst).
  split_and!; try done; [simpl; lia| | |].
  - apply UpdateSettings_outcome in Hu2 as [->|(Hp2 & _ & m2 & u2 & Hb2)]; [done|].
    destruct (updateBody_Ok _ _ _ _ _ _ _ Hp2 Hb2) as (cur2 & ? & ? & ? & Hc2 & Hv2 & _).
    rewrite Hrow in Hc2. injection Hc2 as <-. simpl in Hv2. lia.
  - destruct r2 as [u2|]; [|done].
    apply UpdateSettings_Ok in Hu2 as (Hp2 & _ & m2 & Hb2).
    destruct (updateBody_Ok _ _ _ _ _ _ _ Hp2 Hb2) as (cur2 & ? & ? & ? & Hc2 & Hv2 & _).
    rewrite Hrow in Hc2. injection Hc2 as <-. simpl in Hv2. lia.
  - unfold value, GetSettings. rewrite call_run, dget_run, Hrow by apply Hq.
    unfold readInfrastructureStatuses. unfold dbind at 1. rewrite call_run, dget_run by apply Hq.
    rewrite Hst. simpl. rewrite Hscan. done.
Qed.

(** The service over this store audits what it rejects: an authorized request
    whose values break a bound of a high-risk group leaves the settings as they
    are, returns the invalid-settings error, and appends exactly one
    settings_rejected event with the reason of that group. *)
Theorem service_rejection_audited p s env db :
  authorizeSettings p = Ok tt -> ValidateSettings s = Err ErrInvalid ->
  highRiskSettingsReason s <> "" -> quiet env ->
  let '(db', r) := OpsModel.UpdateSettings (PgServiceStore env) p s db in
  r = Err ErrInvalid /\ system_settings db' = system_settings db /\
  infrastructure db' = infrastructure db /\
  exists now, settingsAudit db' = Audit.append (settingsRejected p (highRiskSettingsReason s))
    (rejectedMetadata (highRiskSettingsReason s)) now (settingsAudit db).
Proof.
  intros Hp Hv Hr Hq. unfold OpsModel.UpdateSettings. rewrite Hp, Hv.
  rewrite bool_decide_eq_false_2 by done. simpl.
  assert (Hin : highRiskSettingsReason s ∈ ["retention"; "backup_schedule"; "threshold"]).
  { revert Hr. unfold highRiskSettingsReason. repeat case_match; set_solver. }
  unfold value, exec, AuditSettingsRejection. rewrite Hp. unfold member.
  rewrite bool_decide_eq_true_2 by done. cbn [negb].
  rewrite transact_quiet by done. unfold Audit.Write.
  rewrite (settingsRejected_valid p _ Hp Hin). unfold dbind, databaseNow, dget, dput.
  rewrite Hq. simpl. split_and!; try done. eauto.
Qed.

End Store.

Section SettingsExamples.
#[local] Existing Instance PgTruncate.
#[local] Existing Instance DecimalUUID.

Definition admin : Principal := MkPrincipal 5 RoleAdmin StatusActive "req-1" (Some [10; 0; 0; 1]).

Definition defaults : Settings :=
  MkSettings 1 "HappyLearn" "" 30 365 7 3 0 "Asia/Shanghai" 75 90 75 90 25 30 10 25 20 100 5 20
    20 100 50 200 [] NilUUID zeroTime.

Definition renamed : Settings :=
  MkSettings 1 "School" "" 30 365 7 3 0 "Asia/Shanghai" 75 90 75 90 25 30 10 25 20 100 5 20
    20 100 50 200 [] NilUUID zeroTime.

Definition shortRetention : Settings :=
  MkSettings 1 "School" "" 3 365 7 3 0 "Asia/Shanghai" 75 90 75 90 25 30 10 25 20 100 5 20
    20 100 50 200 [] NilUUID zeroTime.

Definition freshDB : SettingsDB := MkSettingsDB (Some defaults) ∅ (Audit.MkTable [] 1) {[5%N]}.
Definition calmEnv : Env := calm 1000000 zeroTime (fun n => N.of_nat n).
Definition updatedDB : SettingsDB := exec (UpdateSettings admin renamed) calmEnv freshDB.

Lemma freshDB_initial : initialSettings freshDB.
Proof. split_and!; [|done..]. eexists. split_and!; [done|vm_compute; reflexivity|done]. Qed.

Lemma exec_update p s env db : settingsStep db (exec (UpdateSettings p s) env db).
Proof.
  unfold exec. destruct (UpdateSettings p s env (0%nat, db)) as [st r] eqn:E.
  by apply (step_update _ p s env 0%nat st r).
Qed.

Lemma settings_invariant_witness :
  exists row, system_settings updatedDB = Some row /\ SettingsVersion row = 2 /\
    updates updatedDB = 1.
Proof.
  destruct (settings_invariant updatedDB) as [(row & Hrow & _ & Hv) _].
  - apply (reach_step _ _ freshDB); [apply reach_init, freshDB_initial|apply exec_update].
  - exists row. assert (Hu : updates updatedDB = 1) by (vm_compute; reflexivity).
    rewrite Hu in Hv. split_and!; [exact Hrow|rewrite Hv; reflexivity|exact Hu].
Defined.

Lemma settings_no_lost_update_witness :
  exists st1 u st2 r2, UpdateSettings admin renamed calmEnv (0%nat, freshDB) = (st1, Ok u) /\
    UpdateSettings admin defaults calmEnv (0%nat, snd st1) = (st2, r2) /\
    SettingsVersion u = 2 /\ snd st2 = snd st1 /\ is_ok r2 = false.
Proof.
  destruct (UpdateSettings admin renamed calmEnv (0%nat, freshDB)) as [st1 r1] eqn:E1.
  assert (H1 : is_ok r1 = true).
  { change r1 with (snd (st1, r1)). rewrite <- E1. vm_compute. reflexivity. }
  destruct r1 as [u|]; [|discriminate].
  destruct (UpdateSettings admin defaults calmEnv (0%nat, snd st1)) as [st2 r2] eqn:E2.
  destruct (settings_no_lost_update admin renamed calmEnv 0 freshDB st1 u admin defaults calmEnv 0
    st2 r2 calmEnv) as (Hv & _ & _ & Hs & Hr & _).
  - apply initialSettings_wf, freshDB_initial.
  - exact E1.
  - reflexivity.
  - exact E2.
  - intros n. reflexivity.
  - exists st1, u, st2, r2. split_and!; [reflexivity|exact E2|rewrite Hv; reflexivity|exact Hs|exact Hr].
Defined.

Lemma service_rejection_audited_witness :
  snd (OpsModel.UpdateSettings (PgServiceStore calmEnv) admin shortRetention freshDB) = Err ErrInvalid.
Proof.
  pose proof (service_rejection_audited admin shortRetention calmEnv freshDB) as Hw.
  destruct (OpsModel.UpdateSettings (PgServiceStore calmEnv) admin shortRetention freshDB) as [db' r] eqn:E.
  destruct Hw as [Hr _]; [vm_compute; reflexivity..| | |exact Hr].
  - vm_compute. discriminate.
  - intros n. reflexivity.
Defined.

End SettingsExamples.

End SettingsPg.
