(* ===== verification/LeaseStore.v ===== *)
(** * Maintenance leases, the write gate and their sessions

    Models the mode and lease part of [internal/operations/postgres_store.go].
    A maintenance operation (draining, backup, release) holds the exclusive
    session-level advisory lock on one database connection and owns the singleton
    row of [operational_modes]; an admitted write holds the shared lock on another
    connection.  Several processes, each with a [PostgresStore], and several
    goroutines in each, run at the same time.

    An operation is therefore a program ([Prog]): a tree of atomic actions on the
    world, the next of which may depend on what the last returned.  One action is
    one critical section of a mutex, one statement, or one transaction; a
    transaction is atomic because it begins by locking the only row it touches
    ([FOR UPDATE]).  Between any two actions of a goroutine other goroutines and
    processes run.  A scheduler choice decides how an action ends: statements
    fail, connections break, the outcome of a commit can be lost, contexts end.

    The world has the row and its history, the advisory locks by connection,
    the connections whose server session ended ([w_dead]) and those the client
    closed ([w_shut]; the server may notice later), the pool, and the objects of
    the stores ([leaseSession], [sharedSession]).  [sha256.Sum256] is a parameter. *)

From S2P Require Import Prelude GoTime GoText Pg OpsModel AlertStore AuditLog.
From stdpp Require Import base tactics list gmap strings.
From Stdlib Require Import ZArith Lia.

Open Scope Z_scope.

(** ** Errors *)
Inductive StoreErr :=
| EOps (e : OpsError)
| EClosed                            (* errStoreClosed *)
| ENoRows                            (* pgx.ErrNoRows *)
| EPg (code : string) (fatal : bool) (* a *pgconn.PgError *)
| EConn                              (* the connection broke *)
| ECtx                               (* context.Canceled, context.DeadlineExceeded *)
| EJoin (a b : StoreErr)             (* errors.Join *)
| ENilDereference.                   (* the run-time panic of a nil pointer *)

Global Instance StoreErr_eq_dec : EqDecision StoreErr.
Proof. solve_decision. Defined.

(** What the driver reports for a failed round trip. *)
Definition driverError (e : StoreErr) : bool :=
  match e with EPg _ _ | EConn | ECtx => true | _ => false end.

Definition mapLeaseError (e : StoreErr) : StoreErr :=
  match e with
  | ENoRows => EOps ErrStaleLease
  | EPg code _ =>
      if member ["22021"; "23502"; "23503"; "23514"] code then EOps ErrInvalid
      else if bool_decide (code = "23505") then EOps ErrConflict else e
  | _ => e
  end.

Definition admissionLockTimedOut (e : StoreErr) : bool :=
  match e with EPg code _ => bool_decide (code = "55P03") | _ => false end.

(** [leaseConnectionInterrupted], given whether the connection is closed. *)
Definition leaseConnectionInterrupted (closed : bool) (e : StoreErr) : bool :=
  match e with
  | ECtx => false
  | EPg _ fatal => closed || fatal
  | _ => closed
  end.

(** ** Modes, leases and the row *)
Definition maintenanceMode (mode : string) : bool := member ["draining"; "backup"; "release"] mode.

Record LeaseRequest := MkLeaseRequest {
  RequestMode : string; RequestOwnerID : UUID; RequestExpiresAt : Time
}.

Record Lease := MkLease {
  LeaseMode : string; LeaseOwnerID : UUID; LeaseToken : list Z;
  LeaseExpiresAt : Time; LeaseVersion : Z
}.

Record ModeSnapshot := MkModeSnapshot {
  SnapshotMode : string; SnapshotOwnerID : UUID; SnapshotExpiresAt : Time; SnapshotVersion : Z
}.

Record ModeRow := MkModeRow {
  row_mode : string;
  row_owner : option UUID;
  row_hash : option (list Z);
  row_expires : option Time;
  row_entered : option Time;
  row_version : Z
}.

Global Instance ModeRow_eq_dec : EqDecision ModeRow.
Proof. solve_decision. Defined.

(** The CHECK constraints of [operational_modes]. *)
Definition modeRowCheck (r : ModeRow) : bool :=
  AlertStore.between 1 int8Max (row_version r) &&
  member ["normal"; "draining"; "backup"; "release"] (row_mode r) &&
  (if bool_decide (row_mode r = "normal") then
     bool_decide (row_owner r = None) && bool_decide (row_hash r = None)
     && bool_decide (row_expires r = None) && bool_decide (row_entered r = None)
   else
     negb (bool_decide (row_owner r = None))
     && (match row_hash r with Some h => (length h =? 32)%nat | None => false end)
     && negb (bool_decide (row_expires r = None)) && negb (bool_decide (row_entered r = None))).

Record ModeDB := MkModeDB { modes : option ModeRow; modeAudit : Audit.Table }.

#[export] Instance ModeDB_audit : Audit.HasAudit ModeDB :=
  {| Audit.auditOf := modeAudit; Audit.setAudit t db := MkModeDB (modes db) t |}.

(** [leaseDBState]: what [queryLeaseDBState] reads. *)
Record leaseDBState := MkLeaseDBState {
  st_mode : string; st_owner : option UUID; st_hash : option (list Z);
  st_expires : option Time; st_version : Z; st_remaining : Z
}.

Definition owns (owner : option UUID) (hash : option (list Z)) (id : UUID) (h : list Z) : bool :=
  bool_decide (owner = Some id) && bool_decide (hash = Some h).

Definition ownedBy (state : leaseDBState) (id : UUID) (h : list Z) : bool :=
  owns (st_owner state) (st_hash state) id h.

Definition isNormal (r : ModeRow) : bool := bool_decide (row_mode r = "normal").

(** [expiry != nil && expiry.After(now)]. *)
Definition unexpired (expires : option Time) (now : Time) : bool :=
  match expires with Some t => After t now | None => false end.

(** ** Connections, sessions, stores *)
Notation Conn := nat (only parsing).
Notation Sid := nat (only parsing).
Notation Pid := nat (only parsing).
Notation Tid := nat (only parsing).

Inductive LockMode := LockExclusive | LockShared.
Global Instance LockMode_eq_dec : EqDecision LockMode.
Proof. solve_decision. Defined.

(** [leaseSession]; [s_mu] is the goroutine that holds [mu], [s_timer] the
    generation an armed timer was armed with. *)
Record Session := MkSession {
  s_mu : option Tid; s_conn : option Conn; s_owner : UUID;
  s_timer : option N; s_generation : N; s_released : bool
}.

(** [sharedSession]; [sh_done] is its [once]. *)
Record Shared := MkShared { sh_done : bool; sh_conn : Conn }.

Record PostgresStore := MkStore {
  sessions : gmap (list Z) Sid;
  sharedSessions : gmap N Sid;
  nextSharedID : N;
  closed : bool;      (* also: lifecycleCtx is cancelled *)
  admitted : nat
}.

Definition NewPostgresStore : PostgresStore := MkStore ∅ ∅ 0 false 0.

Record World := MkWorld {
  w_db : ModeDB;
  w_history : list ModeRow;
  w_clock : Z;
  w_locks : list (Conn * LockMode);
  w_dead : gset Conn;
  w_shut : gset Conn;
  w_idle : gmap Conn Pid;
  w_next : Conn;
  w_stores : gmap Pid PostgresStore;
  w_sessions : gmap Sid Session;
  w_shared : gmap Sid Shared;
  w_object : Sid
}.

(** *** Updates of the world *)
Definition setDB (db : ModeDB) (w : World) : World :=
  MkWorld db (if bool_decide (modes db = modes (w_db w)) then w_history w
              else match modes db with Some r => w_history w ++ [r] | None => w_history w end)
    (w_clock w) (w_locks w) (w_dead w) (w_shut w) (w_idle w) (w_next w)
    (w_stores w) (w_sessions w) (w_shared w) (w_object w).
Definition setClock (t : Z) (w : World) : World :=
  MkWorld (w_db w) (w_history w) t (w_locks w) (w_dead w) (w_shut w) (w_idle w) (w_next w)
    (w_stores w) (w_sessions w) (w_shared w) (w_object w).
Definition setLocks (l : list (Conn * LockMode)) (w : World) : World :=
  MkWorld (w_db w) (w_history w) (w_clock w) l (w_dead w) (w_shut w) (w_idle w) (w_next w)
    (w_stores w) (w_sessions w) (w_shared w) (w_object w).
Definition setDead (d : gset Conn) (w : World) : World :=
  MkWorld (w_db w) (w_history w) (w_clock w) (w_locks w) d (w_shut w) (w_idle w) (w_next w)
    (w_stores w) (w_sessions w) (w_shared w) (w_object w).
Definition setShut (d : gset Conn) (w : World) : World :=
  MkWorld (w_db w) (w_history w) (w_clock w) (w_locks w) (w_dead w) d (w_idle w) (w_next w)
    (w_stores w) (w_sessions w) (w_shared w) (w_object w).
Definition setIdle (i : gmap Conn Pid) (w : World) : World :=
  MkWorld (w_db w) (w_history w) (w_clock w) (w_locks w) (w_dead w) (w_shut w) i (w_next w)
    (w_stores w) (w_sessions w) (w_shared w) (w_object w).
Definition setNext (n : Conn) (w : World) : World :=
  MkWorld (w_db w) (w_history w) (w_clock w) (w_locks w) (w_dead w) (w_shut w) (w_idle w) n
    (w_stores w) (w_sessions w) (w_shared w) (w_object w).
Definition setStores (s : gmap Pid PostgresStore) (w : World) : World :=
  MkWorld (w_db w) (w_history w) (w_clock w) (w_locks w) (w_dead w) (w_shut w) (w_idle w) (w_next w)
    s (w_sessions w) (w_shared w) (w_object w).
Definition setSessions (s : gmap Sid Session) (w : World) : World :=
  MkWorld (w_db w) (w_history w) (w_clock w) (w_locks w) (w_dead w) (w_shut w) (w_idle w) (w_next w)
    (w_stores w) s (w_shared w) (w_object w).
Definition setShared (s : gmap Sid Shared) (w : World) : World :=
  MkWorld (w_db w) (w_history w) (w_clock w) (w_locks w) (w_dead w) (w_shut w) (w_idle w) (w_next w)
    (w_stores w) (w_sessions w) s (w_object w).
Definition setObject (n : Sid) (w : World) : World :=
  MkWorld (w_db w) (w_history w) (w_clock w) (w_locks w) (w_dead w) (w_shut w) (w_idle w) (w_next w)
    (w_stores w) (w_sessions w) (w_shared w) n.

Definition storeOf (pid : Pid) (w : World) : PostgresStore :=
  or_zero NewPostgresStore (w_stores w !! pid).
Definition setStore (pid : Pid) (s : PostgresStore) (w : World) : World :=
  setStores (<[pid := s]> (w_stores w)) w.

Definition usable (c : Conn) (w : World) : bool :=
  negb (bool_decide (c ∈ w_dead w)) && negb (bool_decide (c ∈ w_shut w)).

Definition shutIf (b : bool) (c : Conn) (w : World) : World :=
  if b then setShut ({[c]} ∪ w_shut w) w else w.

(** The server session of a connection ends: its locks are released.  (Its
    transaction, if any, was rolled back.) *)
Definition dropConn (c : Conn) (w : World) : World :=
  setLocks (List.filter (fun '(c', _) => negb (c' =? c)%nat) (w_locks w))
    (setDead ({[c]} ∪ w_dead w) w).

Definition compatible (m m' : LockMode) : bool :=
  match m, m' with LockShared, LockShared => true | _, _ => false end.

(** Whether the server grants [c] the advisory lock now. *)
Definition grantable (c : Conn) (m : LockMode) (w : World) : bool :=
  forallb (fun '(c', m') => (c' =? c)%nat || compatible m m') (w_locks w).

Fixpoint removeLock (c : Conn) (m : LockMode) (l : list (Conn * LockMode)) : list (Conn * LockMode) :=
  match l with
  | [] => []
  | (c', m') :: rest =>
      if (c' =? c)%nat && bool_decide (m' = m) then rest else (c', m') :: removeLock c m rest
  end.

Definition holds (c : Conn) (m : LockMode) (w : World) : bool := bool_decide ((c, m) ∈ w_locks w).

(** ** Actions *)
Inductive Act : Type -> Type :=
(* contexts and entropy *)
| CtxErr : Act bool
| RandRead : Act (result StoreErr (list Z))
(* the fields of the store, under [s.mu] *)
| Admit : Act (result StoreErr unit)
| Done_ : Act unit
| LifecycleErr : Act bool
| LookupSession (h : list Z) : Act (option Sid)
| RegisterSession (h : list Z) (owner : UUID) (c : Conn) : Act (result StoreErr unit)
| RegisterShared (c : Conn) : Act (result StoreErr (N * Sid))
| ReleaseOnce (id : N) (sh : Sid) : Act (option Conn)
| CloseStore : Act (result StoreErr (list (N * Sid)))
| WaitAdmissions : Act (result StoreErr unit)
| ListSessions : Act (result StoreErr (list (list Z * Sid)))
| ForgetSession (h : list Z) (sid : Sid) : Act (result StoreErr unit)
(* the fields of a session, under its [mu] *)
| LockSession (sid : Sid) : Act (result StoreErr unit)
| LockSessionWait (sid : Sid) : Act unit
| UnlockSession (sid : Sid) : Act unit
| ReadSession (sid : Sid) : Act Session
| SetConn (sid : Sid) (c : option Conn) : Act unit
| RemoveSession (h : list Z) (sid : Sid) : Act unit
| MarkReleased (sid : Sid) : Act unit
| ScheduleExpiry (sid : Sid) : Act unit
(* the pool and connections *)
| PoolAcquire : Act (result StoreErr Conn)
| ConnRelease (c : Conn) : Act unit
| ConnClose (c : Conn) : Act unit
| ConnIsClosed (c : Conn) : Act bool
| RoundTrip (c : Conn) : Act (result StoreErr unit)
| AdvisoryLock (c : Conn) (m : LockMode) : Act (result StoreErr unit)
| AdvisoryUnlock (c : Conn) (m : LockMode) : Act (result StoreErr bool)
| Query {A : Type} (c : Conn) (q : DB ModeDB StoreErr A) : Act (result StoreErr A)
| PoolQuery {A : Type} (q : DB ModeDB StoreErr A) : Act (result StoreErr A)
| Transaction {E A : Type} (c : Conn) (begin : StoreErr -> E) (body : StoreErr -> DB ModeDB E A) :
    Act (Ending E A * StoreErr).

(** How the scheduler lets an action end. *)
Record Choice := MkChoice {
  ch_fail : option StoreErr;   (* the error of a failing call *)
  ch_broken : bool;            (* the client finds the connection closed *)
  ch_applied : bool;           (* the server did it although the call failed *)
  ch_env : Env;                (* failures inside a transaction *)
  ch_token : list Z;           (* random bytes *)
  ch_reuse : option Conn       (* the pooled connection that is handed out *)
}.

(** The error of a failing round trip. *)
Definition raw (ch : Choice) : StoreErr :=
  match ch_fail ch with Some e => if driverError e then e else EConn | None => EConn end.

(** A context error or nothing. *)
Definition ctxOutcome {A} (ch : Choice) (a : A) : result StoreErr A :=
  match ch_fail ch with Some _ => Err ECtx | None => Ok a end.

(** The server's clock is the world's. *)
Definition envAt (ch : Choice) (w : World) : Env :=
  MkEnv (fault (ch_env ch)) (fun _ => w_clock w) (wall (ch_env ch)) (uuids (ch_env ch)).

Definition wrap64 (n : N) : N := (n mod 2 ^ 64)%N.

Definition armed (s : Session) : Session :=
  let g := wrap64 (s_generation s + 1) in
  MkSession (s_mu s) (s_conn s) (s_owner s) (Some g) g (s_released s).

Definition released (s : Session) : Session :=
  MkSession (s_mu s) (s_conn s) (s_owner s) None (s_generation s) true.

Definition withMu (mu : option Tid) (s : Session) : Session :=
  MkSession mu (s_conn s) (s_owner s) (s_timer s) (s_generation s) (s_released s).

Definition withConn (c : option Conn) (s : Session) : Session :=
  MkSession (s_mu s) c (s_owner s) (s_timer s) (s_generation s) (s_released s).

Definition putSession (sid : Sid) (s : Session) (w : World) : World :=
  setSessions (<[sid := s]> (w_sessions w)) w.

(** An update of the fields of a session. *)
Definition onSession {R} (sid : Sid) (w : World) (f : Session -> option (R * Session)) : option (R * World) :=
  match w_sessions w !! sid with
  | None => None
  | Some s => match f s with Some (r, s') => Some (r, putSession sid s' w) | None => None end
  end.

Definition withSessions (m : gmap (list Z) Sid) (s : PostgresStore) : PostgresStore :=
  MkStore m (sharedSessions s) (nextSharedID s) (closed s) (admitted s).

(** [registerLeaseSession]: a new session with an armed timer. *)
Definition registerLeaseSession (pid : Pid) (h : list Z) (owner : UUID) (c : Conn) (w : World) :
  result StoreErr unit * World :=
  let st := storeOf pid w in
  if closed st then (Err EClosed, w)
  else let sid := w_object w in
       (Ok tt,
         setObject (S sid)
           (putSession sid (armed (MkSession None (Some c) owner None 0 false))
             (setStore pid (withSessions (<[h := sid]> (sessions st)) st) w))).

(** [lockMutexContext] on the mutex of a session; [ctxEnds] when its context
    ends before the mutex is free. *)
Definition lockMutexContext (t : Tid) (ctxEnds : bool) (s : Session) :
  option (result StoreErr unit * Session) :=
  match s_mu s with
  | None => Some (Ok tt, withMu (Some t) s)
  | Some _ => if ctxEnds then Some (Err ECtx, s) else None
  end.

(** One action of goroutine [t] of process [pid]; [None] when it has to wait. *)
Definition perform (pid : Pid) (t : Tid) (ch : Choice) {R} (a : Act R) (w : World) : option (R * World) :=
  let st := storeOf pid w in
  match a in Act R return option (R * World) with
  | CtxErr => Some (match ch_fail ch with Some _ => true | None => false end, w)
  | RandRead =>
      match ch_fail ch with
      | Some e => Some (Err (raw ch), w)
      | None => if (length (ch_token ch) =? 32)%nat then Some (Ok (ch_token ch), w) else None
      end
  | Admit =>
      if closed st then Some (Err EClosed, w)
      else Some (Ok tt, setStore pid (MkStore (sessions st) (sharedSessions st) (nextSharedID st)
                          (closed st) (S (admitted st))) w)
  | Done_ => Some (tt, setStore pid (MkStore (sessions st) (sharedSessions st) (nextSharedID st)
                         (closed st) (pred (admitted st))) w)
  | LifecycleErr => Some (closed st, w)
  | LookupSession h => Some (sessions st !! h, w)
  | RegisterSession h owner c =>
      Some (registerLeaseSession pid h owner c w)
  | RegisterShared c =>
      if closed st then Some (Err EClosed, w)
      else let sh := w_object w in
           let id := wrap64 (nextSharedID st + 1) in
           Some (Ok (id, sh),
             setObject (S sh)
               (setShared (<[sh := MkShared false c]> (w_shared w))
                 (setStore pid (MkStore (sessions st) (<[id := sh]> (sharedSessions st)) id
                                  (closed st) (admitted st)) w)))
  | ReleaseOnce id sh =>
      match w_shared w !! sh with
      | None => None
      | Some o =>
          if sh_done o then Some (None, w)
          else Some (Some (sh_conn o),
                 setShared (<[sh := MkShared true (sh_conn o)]> (w_shared w))
                   (setStore pid (MkStore (sessions st)
                      (if bool_decide (sharedSessions st !! id = Some sh)
                       then delete id (sharedSessions st) else sharedSessions st)
                      (nextSharedID st) (closed st) (admitted st)) w))
      end
  | CloseStore =>
      match ch_fail ch with
      | Some _ => Some (Err ECtx, w)
      | None => Some (Ok (map_to_list (sharedSessions st)),
                  setStore pid (MkStore (sessions st) (sharedSessions st) (nextSharedID st)
                                  true (admitted st)) w)
      end
  | WaitAdmissions =>
      match ch_fail ch with
      | Some _ => Some (Err ECtx, w)
      | None => if (admitted st =? 0)%nat then Some (Ok tt, w) else None
      end
  | ListSessions => Some (ctxOutcome ch (map_to_list (sessions st)), w)
  | ForgetSession h sid =>
      match ch_fail ch with
      | Some _ => Some (Err ECtx, w)
      | None => Some (Ok tt, if bool_decide (sessions st !! h = Some sid)
                             then setStore pid (withSessions (delete h (sessions st)) st) w else w)
      end
  | LockSession sid =>
      onSession sid w (lockMutexContext t (match ch_fail ch with Some _ => true | None => false end))
  | LockSessionWait sid =>
      onSession sid w (fun s => match s_mu s with
                                | None => Some (tt, withMu (Some t) s) | Some _ => None end)
  | UnlockSession sid => onSession sid w (fun s => Some (tt, withMu None s))
  | ReadSession sid => onSession sid w (fun s => Some (s, s))
  | SetConn sid c => onSession sid w (fun s => Some (tt, withConn c s))
  | RemoveSession h sid =>
      match w_sessions w !! sid with
      | None => None
      | Some s =>
          if s_released s then Some (tt, w)
          else Some (tt, putSession sid (released s)
                           (setStore pid (withSessions (delete h (sessions st)) st) w))
      end
  | MarkReleased sid => onSession sid w (fun s => Some (tt, released s))
  | ScheduleExpiry sid => onSession sid w (fun s => Some (tt, armed s))
  | PoolAcquire =>
      match ch_fail ch with
      | Some _ => Some (Err (raw ch), w)
      | None =>
          match ch_reuse ch with
          | Some c => if bool_decide (w_idle w !! c = Some pid)
                      then Some (Ok c, setIdle (delete c (w_idle w)) w) else None
          | None => Some (Ok (w_next w), setNext (S (w_next w)) w)
          end
      end
  | ConnRelease c =>
      Some (tt, if bool_decide (c ∈ w_shut w) then w else setIdle (<[c := pid]> (w_idle w)) w)
  | ConnClose c => Some (tt, setShut ({[c]} ∪ w_shut w) w)
  | ConnIsClosed c => Some (bool_decide (c ∈ w_shut w), w)
  | RoundTrip c =>
      match ch_fail ch with
      | Some _ => Some (Err (raw ch), shutIf (ch_broken ch) c w)
      | None => if usable c w then Some (Ok tt, w) else None
      end
  | AdvisoryLock c m =>
      match ch_fail ch with
      | Some _ =>
          let granted := ch_broken ch && ch_applied ch && usable c w && grantable c m w in
          Some (Err (raw ch),
            shutIf (ch_broken ch) c (if granted then setLocks (w_locks w ++ [(c, m)]) w else w))
      | None =>
          if usable c w && grantable c m w
          then Some (Ok tt, setLocks (w_locks w ++ [(c, m)]) w) else None
      end
  | AdvisoryUnlock c m =>
      match ch_fail ch with
      | Some _ =>
          let done_ := ch_broken ch && ch_applied ch && usable c w in
          Some (Err (raw ch),
            shutIf (ch_broken ch) c (if done_ then setLocks (removeLock c m (w_locks w)) w else w))
      | None =>
          if usable c w
          then Some (Ok (holds c m w), setLocks (removeLock c m (w_locks w)) w) else None
      end
  | Query c q =>
      match ch_fail ch with
      | Some _ => Some (Err (raw ch), shutIf (ch_broken ch) c w)
      | None => if usable c w then Some (value q (envAt ch w) (w_db w), w) else None
      end
  | PoolQuery q =>
      match ch_fail ch with
      | Some _ => Some (Err (raw ch), w)
      | None => Some (value q (envAt ch w) (w_db w), w)
      end
  | Transaction c begin body =>
      if usable c w then
        let '((_, db), e) := transaction (begin (raw ch)) (body (raw ch)) (envAt ch w) (0%nat, w_db w) in
        Some ((e, raw ch), shutIf (ch_broken ch) c (setDB db w))
      else Some ((RolledBack (begin (raw ch)), raw ch), shutIf (ch_broken ch) c w)
  end.

(** ** Programs *)
Inductive Prog (A : Type) : Type :=
| Ret (a : A)
| Vis {R : Type} (a : Act R) (k : R -> Prog A).
Arguments Ret {A} a.
Arguments Vis {A R} a k.

Fixpoint pbind {A B} (p : Prog A) (f : A -> Prog B) : Prog B :=
  match p with
  | Ret a => f a
  | Vis a k => Vis a (fun r => pbind (k r) f)
  end.

Declare Scope prog_scope.
Delimit Scope prog_scope with prog.
Notation "'act' x <- a ; k" := (Vis a (fun x => k))
  (at level 10, x pattern, a at level 99, k at level 200,
   format "'[v' 'act'  x  <-  a ; '/' k ']'") : prog_scope.
Notation "'run' x <- p ; k" := (pbind p (fun x => k))
  (at level 10, x pattern, p at level 99, k at level 200,
   format "'[v' 'run'  x  <-  p ; '/' k ']'") : prog_scope.
Open Scope prog_scope.

(** [clock_timestamp()] as a column of a query. *)
Definition serverNow {S E} : DB S E Time := fun env st => (st, Ok (MkTime (dbclock env 0) None)).

(** [s.mapLifecycleError(err)] as the returned error. *)
Definition failWith {A} (e : StoreErr) : Prog (result StoreErr A) :=
  act stopped <- LifecycleErr;
  Ret (Err (if stopped then EClosed else e)).

(** [s.admit] with the deferred [done]. *)
Definition whileAdmitted {A} (body : Prog (result StoreErr A)) : Prog (result StoreErr A) :=
  act admission <- Admit;
  match admission with
  | Err e => Ret (Err e)
  | Ok _ =>
    run r <- body;
    act _ <- Done_;
    Ret r
  end.

(** A returned value computed before a deferred [closeHijackedConnection]. *)
Definition thenClose {A} (c : Conn) (p : Prog A) : Prog A :=
  run r <- p;
  act _ <- ConnClose c;
  Ret r.

Definition releaseConnection (m : LockMode) (c : Conn) : Prog unit :=
  act unlocked <- AdvisoryUnlock c m;
  match unlocked with
  | Ok true => act _ <- ConnRelease c; Ret tt
  | _ => act _ <- ConnClose c; Ret tt
  end.

Definition releaseSharedConnection : Conn -> Prog unit := releaseConnection LockShared.
Definition releaseExclusiveConnection : Conn -> Prog unit := releaseConnection LockExclusive.

Section Operations.
Context `{PgTime} `{UUIDText} (sha256 : list Z -> list Z).

(** *** Reading the mode *)
Definition modeQuery : DB ModeDB StoreErr ModeSnapshot :=
  (do db <- dget;
   match modes db with
   | None => dfail ENoRows
   | Some r => dret (MkModeSnapshot (row_mode r) (or_zero NilUUID (row_owner r))
                       (UTC (or_zero zeroTime (row_expires r))) (row_version r))
   end)%db.

Definition GetMode : Prog (result StoreErr ModeSnapshot) :=
  act r <- PoolQuery modeQuery;
  match r with
  | Err ENoRows => Ret (Err (EOps ErrConflict))
  | _ => Ret r
  end.

Definition ClaimsAllowed : Prog (result StoreErr bool) :=
  run r <- GetMode;
  match r with
  | Err e => Ret (Err e)
  | Ok mode => Ret (Ok (bool_decide (SnapshotMode mode = "normal")))
  end.

(** *** The write gate *)
Definition modeTextQuery : DB ModeDB StoreErr string :=
  (do db <- dget;
   match modes db with None => dfail ENoRows | Some r => dret (row_mode r) end)%db.

Definition AcquireShared : Prog (result StoreErr (N * Sid)) :=
  whileAdmitted (
    act acquired <- PoolAcquire;
    match acquired with
    | Err e => failWith e
    | Ok conn =>
      act begun <- RoundTrip conn;
      match begun with
      | Err e => act _ <- ConnRelease conn; failWith e
      | Ok _ =>
        act timeout <- RoundTrip conn;
        match timeout with
        | Err e => act _ <- RoundTrip conn; act _ <- ConnRelease conn; failWith e
        | Ok _ =>
          act locked <- AdvisoryLock conn LockShared;
          match locked with
          | Err e =>
            act _ <- RoundTrip conn;
            act _ <- ConnRelease conn;
            if admissionLockTimedOut e then Ret (Err (EOps ErrLeaseHeld)) else failWith e
          | Ok _ =>
            act mode <- Query conn modeTextQuery;
            match mode with
            | Err e =>
              act _ <- RoundTrip conn;
              run _ <- releaseSharedConnection conn;
              if bool_decide (e = ENoRows) then Ret (Err (EOps ErrConflict)) else failWith e
            | Ok m =>
              if negb (bool_decide (m = "normal")) then
                act _ <- RoundTrip conn;
                run _ <- releaseSharedConnection conn;
                Ret (Err (EOps ErrLeaseHeld))
              else
                act committed <- RoundTrip conn;
                match committed with
                | Err e => act _ <- ConnClose conn; failWith e
                | Ok _ =>
                  act registered <- RegisterShared conn;
                  match registered with
                  | Err e => run _ <- releaseSharedConnection conn; Ret (Err e)
                  | Ok entry => Ret (Ok entry)
                  end
                end
            end
          end
        end
      end
    end).

Definition releaseSharedSession (id : N) (session : Sid) : Prog unit :=
  act conn <- ReleaseOnce id session;
  match conn with
  | None => Ret tt
  | Some c => releaseSharedConnection c
  end.

(** *** The state of the lease in the database *)
Definition leaseStateQuery : DB ModeDB StoreErr leaseDBState :=
  (do db <- dget;
   do now <- serverNow;
   match modes db with
   | None => dfail ENoRows
   | Some r =>
     dret (MkLeaseDBState (row_mode r) (row_owner r) (row_hash r) (row_expires r) (row_version r)
             (match row_expires r with Some t => Sub t now | None => 0 end))
   end)%db.

Definition queryLeaseDBState (c : Conn) : Prog (result StoreErr leaseDBState) :=
  act r <- Query c leaseStateQuery;
  Ret r.

Definition authoritativeLeaseState (conn : Conn) : Prog (option Conn * result StoreErr leaseDBState) :=
  run first <- queryLeaseDBState conn;
  match first with
  | Ok state => Ret (Some conn, Ok state)
  | Err _ =>
    act _ <- ConnClose conn;
    act acquired <- PoolAcquire;
    match acquired with
    | Err e => Ret (None, Err e)
    | Ok fresh =>
      act locked <- AdvisoryLock fresh LockExclusive;
      match locked with
      | Err e => act _ <- ConnClose fresh; Ret (None, Err e)
      | Ok _ =>
        run second <- queryLeaseDBState fresh;
        match second with
        | Ok state => Ret (Some fresh, Ok state)
        | Err e => run _ <- releaseExclusiveConnection fresh; Ret (None, Err e)
        end
      end
    end
  end.

Definition preflightQuery : DB ModeDB StoreErr unit :=
  (do db <- dget;
   do now <- serverNow;
   match modes db with
   | None => dfail ENoRows
   | Some r =>
     fail if negb (isNormal r) && unexpired (row_expires r) now with EOps ErrLeaseHeld;
     dret tt
   end)%db.

Definition preflightLeaseAvailability : Prog (result StoreErr unit) :=
  act r <- PoolQuery preflightQuery;
  match r with
  | Err e => Ret (Err (mapLeaseError e))
  | Ok _ => Ret (Ok tt)
  end.

(** *** Transactions on the row *)
Definition putRow (r : ModeRow) (db : ModeDB) : ModeDB := MkModeDB (Some r) (modeAudit db).

(** An error of a transaction of [AcquireLease], and whether
    [mapLifecycleError] is applied to it. *)
Inductive AcquireErr := APlain (e : StoreErr) | AMapped (e : StoreErr).

Definition leaseTakenOver : Audit.Event :=
  Audit.MkEvent NilUUID "operations.lease_taken_over" "operational_mode" "global" ∅
    "operations-lease-takeover" (Some [127; 0; 0; 1]).

Definition acquireRow (request : LeaseRequest) (h : list Z) (now : Time) (r : ModeRow) : ModeRow :=
  MkModeRow (RequestMode request) (Some (RequestOwnerID request)) (Some h)
    (Some (pg (RequestExpiresAt request))) (Some now) (row_version r + 1).

Definition acquireBody (request : LeaseRequest) (token h : list Z) (err : StoreErr) :
  DB ModeDB AcquireErr Lease :=
  (call (AMapped (mapLeaseError err));
   do db <- dget;
   match modes db with
   | None => dfail (AMapped (EOps ErrStaleLease))
   | Some current =>
     do now <- databaseNow (AMapped (mapLeaseError err));
     fail if negb (After (RequestExpiresAt request) now) with APlain (EOps ErrInvalid);
     let takeover := negb (isNormal current) in
     fail if takeover && unexpired (row_expires current) now with APlain (EOps ErrLeaseHeld);
     call (AMapped (mapLeaseError err));
     let row := acquireRow request h now current in
     fail if negb (modeRowCheck row) with AMapped (EOps ErrInvalid);
     do _ <- dput (putRow row db);
     do _ <- (if takeover then Audit.Write (fun _ => AMapped err) leaseTakenOver else dret tt);
     dret (MkLease (RequestMode request) (RequestOwnerID request) token
             (pg (RequestExpiresAt request)) (row_version row))
   end)%db.

Inductive MutateErr := MStale | MInvalid | MFailed (e : StoreErr).

Definition mutateRow (transition : bool) (mode : string) (expiresAt : Time) (r : ModeRow) : ModeRow :=
  MkModeRow (if transition then mode else row_mode r) (row_owner r) (row_hash r)
    (Some (pg expiresAt)) (row_entered r) (row_version r + 1).

Definition mutateBody (h : list Z) (lease : Lease) (mode : string) (expiresAt : Time)
    (transition : bool) (err : StoreErr) : DB ModeDB MutateErr Lease :=
  (call (MFailed err);
   do db <- dget;
   match modes db with
   | None => dfail MStale
   | Some r =>
     do now <- databaseNow (MFailed err);
     fail if negb (owns (row_owner r) (row_hash r) (LeaseOwnerID lease) h) with MStale;
     fail if negb (unexpired (row_expires r) now) with MStale;
     fail if negb (After expiresAt now) with MInvalid;
     call (MFailed err);
     let row := mutateRow transition mode expiresAt r in
     fail if negb (modeRowCheck row) with MFailed (EPg "23514" false);
     do _ <- dput (putRow row db);
     dret (MkLease (row_mode row) (LeaseOwnerID lease) (LeaseToken lease) (pg expiresAt)
             (row_version row))
   end)%db.

Definition normalRow (r : ModeRow) : ModeRow :=
  MkModeRow "normal" None None None None (row_version r + 1).

(** The row returns to normal if the lease still owns it.  [ClearGone] ends the
    transaction without a change. *)
Inductive ClearErr := ClearGone | ClearFailed (e : StoreErr).

Definition clearBody (owner : UUID) (h : list Z) (lockTimeout : bool) (err : StoreErr) :
  DB ModeDB ClearErr unit :=
  (do _ <- (if lockTimeout then roundtrip (ClearFailed err) else dret tt);
   call (ClearFailed err);
   do db <- dget;
   match modes db with
   | None => dfail ClearGone
   | Some r =>
     fail if negb (owns (row_owner r) (row_hash r) owner h) with ClearGone;
     call (ClearFailed err);
     let row := normalRow r in
     fail if negb (modeRowCheck row) with ClearFailed (EPg "23514" false);
     dput (putRow row db)
   end)%db.

Definition normalizeOwnedLease (c : Conn) (owner : UUID) (h : list Z) : Prog (result StoreErr unit) :=
  act (ending, err) <- Transaction c ClearFailed (clearBody owner h false);
  match ending with
  | Committed _ => Ret (Ok tt)
  | CommitLost _ => Ret (Err err)
  | RolledBack ClearGone => Ret (Ok tt)
  | RolledBack (ClearFailed e) => Ret (Err e)
  end.

(** [commitErr] of an ending. *)
Definition commitErr {E A} (ending : Ending E A) (err : StoreErr) : option StoreErr :=
  match ending with CommitLost _ => Some err | _ => None end.

(** *** Acquiring *)
Definition matchesLease (state : leaseDBState) (lease : Lease) : bool :=
  bool_decide (st_mode state = LeaseMode lease) && (st_version state =? LeaseVersion lease)
  && match st_expires state with Some t => Equal t (LeaseExpiresAt lease) | None => false end.

Definition stateLease (lease : Lease) (state : leaseDBState) : Lease :=
  MkLease (st_mode state) (LeaseOwnerID lease) (LeaseToken lease)
    (UTC (or_zero zeroTime (st_expires state))) (st_version state).

(** The part after the transaction: read back, compare, register. *)
Definition settleAcquire (conn : Conn) (h : list Z) (lease : Lease) (lost : option StoreErr) :
  Prog (result StoreErr Lease) :=
  run (reconciled, read) <- authoritativeLeaseState conn;
  match reconciled, read with
  | Some c, Ok state =>
    if negb (ownedBy state (LeaseOwnerID lease) h) || negb (matchesLease state lease) then
      thenClose c (match lost with
                   | Some e => failWith (mapLeaseError e)
                   | None => Ret (Err (EOps ErrStaleLease))
                   end)
    else
      act registered <- RegisterSession h (LeaseOwnerID lease) c;
      match registered with
      | Ok _ => Ret (Ok (stateLease lease state))
      | Err e =>
        run _ <- normalizeOwnedLease c (LeaseOwnerID lease) h;
        act _ <- ConnClose c;
        Ret (Err e)
      end
  | _, Err reconcileErr => failWith (mapLeaseError (or_zero reconcileErr lost))
  | None, Ok _ => Ret (Err ENilDereference)
  end.

Definition AcquireLease (request : LeaseRequest) : Prog (result StoreErr Lease) :=
  if negb (maintenanceMode (RequestMode request)) || (RequestOwnerID request =? NilUUID)%N
  then Ret (Err (EOps ErrInvalid))
  else whileAdmitted (
    run available <- preflightLeaseAvailability;
    match available with
    | Err e => failWith e
    | Ok _ =>
      act random <- RandRead;
      match random with
      | Err e => Ret (Err e)
      | Ok token =>
        let h := sha256 token in
        act acquired <- PoolAcquire;
        match acquired with
        | Err e => failWith e
        | Ok conn =>
          act locked <- AdvisoryLock conn LockExclusive;
          match locked with
          | Err e => thenClose conn (failWith e)
          | Ok _ =>
            act cancelled <- CtxErr;
            if cancelled : bool then thenClose conn (failWith ECtx)
            else
              act (ending, err) <- Transaction conn AMapped (acquireBody request token h);
              match ending with
              | RolledBack (APlain e) => thenClose conn (Ret (Err e))
              | RolledBack (AMapped e) => thenClose conn (failWith e)
              | Committed lease | CommitLost lease =>
                  settleAcquire conn h lease (commitErr ending err)
              end
          end
        end
      end
    end).

(** *** Sessions *)
Definition sessionFor (lease : Lease) : Prog (option (list Z * Sid)) :=
  if (LeaseOwnerID lease =? NilUUID)%N || negb (length (LeaseToken lease) =? 32)%nat
  then Ret None
  else
    let h := sha256 (LeaseToken lease) in
    act found <- LookupSession h;
    Ret ((fun sid => (h, sid)) <$> found).

Definition releaseSessionLocked (h : list Z) (sid : Sid) : Prog unit :=
  act s <- ReadSession sid;
  if s_released s then Ret tt
  else
    act _ <- SetConn sid None;
    act _ <- RemoveSession h sid;
    match s_conn s with
    | Some c => releaseExclusiveConnection c
    | None => Ret tt
    end.

Definition authoritativeLeaseSessionStateLocked (sid : Sid) : Prog (result StoreErr leaseDBState) :=
  act s <- ReadSession sid;
  match s_conn s with
  | None => Ret (Err ENilDereference)
  | Some owned =>
    act _ <- SetConn sid None;
    run (recovered, r) <- authoritativeLeaseState owned;
    act _ <- SetConn sid recovered;
    Ret r
  end.

Definition recoverLeaseSessionLocked (h : list Z) (sid : Sid) (lease : Lease) (original : StoreErr) :
  Prog (result StoreErr unit) :=
  run read <- authoritativeLeaseSessionStateLocked sid;
  act s <- ReadSession sid;
  match s_conn s, read with
  | None, _ => act _ <- RemoveSession h sid; Ret (Err original)
  | Some _, Err _ => run _ <- releaseSessionLocked h sid; Ret (Err original)
  | Some _, Ok state =>
    if negb (ownedBy state (LeaseOwnerID lease) h) || bool_decide (st_expires state = None)
       || (st_remaining state <=? 0)
    then run _ <- releaseSessionLocked h sid; Ret (Err (EOps ErrStaleLease))
    else act _ <- ScheduleExpiry sid; Ret (Ok tt)
  end.

(** *** Renewing and changing the mode of a lease *)

(** [Ok (updated, commitErr)], or [Err (interrupted, attemptErr)]. *)
Definition mutateLeaseTransaction (h : list Z) (sid : Sid) (lease : Lease) (mode : string)
    (expiresAt : Time) (transition : bool) :
  Prog (result (bool * StoreErr) (Lease * option StoreErr)) :=
  act s <- ReadSession sid;
  match s_conn s with
  | None => Ret (Err (false, ENilDereference))
  | Some conn =>
    act (ending, err) <- Transaction conn MFailed (mutateBody h lease mode expiresAt transition);
    match ending with
    | Committed updated | CommitLost updated => Ret (Ok (updated, commitErr ending err))
    | RolledBack MStale =>
      run _ <- releaseSessionLocked h sid;
      Ret (Err (false, EOps ErrStaleLease))
    | RolledBack MInvalid => Ret (Err (false, EOps ErrInvalid))
    | RolledBack (MFailed e) =>
      act isClosed <- ConnIsClosed conn;
      Ret (Err (leaseConnectionInterrupted isClosed e, mapLeaseError e))
    end
  end.

(** The loop, with [left] more attempts after this one. *)
Fixpoint mutateAttempts (left : nat) (h : list Z) (sid : Sid) (lease : Lease) (mode : string)
    (expiresAt : Time) (transition : bool) : Prog (result StoreErr (Lease * option StoreErr)) :=
  run r <- mutateLeaseTransaction h sid lease mode expiresAt transition;
  match r with
  | Ok done_ => Ret (Ok done_)
  | Err (interrupted, attemptErr) =>
    act stopped <- LifecycleErr;
    if stopped : bool then failWith attemptErr
    else match left, interrupted with
    | S left', true =>
      run recovered <- recoverLeaseSessionLocked h sid lease attemptErr;
      match recovered with
      | Err e => failWith e
      | Ok _ => mutateAttempts left' h sid lease mode expiresAt transition
      end
    | O, true => run _ <- releaseSessionLocked h sid; failWith attemptErr
    | _, false => failWith attemptErr
    end
  end.

Definition settleMutation (h : list Z) (sid : Sid) (lease updated : Lease) (lost : option StoreErr) :
  Prog (result StoreErr Lease) :=
  run read <- authoritativeLeaseSessionStateLocked sid;
  act s <- ReadSession sid;
  match s_conn s, read with
  | None, Ok _ => act _ <- RemoveSession h sid; Ret (Err ENilDereference)
  | None, Err reconcileErr =>
    act _ <- RemoveSession h sid;
    match lost with
    | Some e => failWith (mapLeaseError e)
    | None => Ret (Err (mapLeaseError reconcileErr))
    end
  | Some _, Err reconcileErr =>
    run _ <- releaseSessionLocked h sid;
    match lost with
    | Some e => failWith (mapLeaseError e)
    | None => Ret (Err (mapLeaseError reconcileErr))
    end
  | Some _, Ok state =>
    if negb (ownedBy state (LeaseOwnerID lease) h) then
      run _ <- releaseSessionLocked h sid; Ret (Err (EOps ErrStaleLease))
    else
      act _ <- ScheduleExpiry sid;
      if negb (matchesLease state updated) then
        match lost with
        | Some e => failWith (mapLeaseError e)
        | None => Ret (Err (EOps ErrConflict))
        end
      else Ret (Ok (stateLease updated state))
  end.

(** [defer session.mu.Unlock()] around the body, with the checks on entry. *)
Definition withSession {A} (lease : Lease) (body : list Z -> Sid -> Prog (result StoreErr A)) :
  Prog (result StoreErr A) :=
  whileAdmitted (
    run found <- sessionFor lease;
    match found with
    | None => Ret (Err (EOps ErrStaleLease))
    | Some (h, sid) =>
      act locked <- LockSession sid;
      match locked with
      | Err e => failWith e
      | Ok _ =>
        run r <- (act s <- ReadSession sid;
                  if s_released s then Ret (Err (EOps ErrStaleLease))
                  else
                    act cancelled <- CtxErr;
                    if cancelled : bool then failWith ECtx else body h sid);
        act _ <- UnlockSession sid;
        Ret r
      end
    end).

Definition mutateLease (lease : Lease) (mode : string) (expiresAt : Time) (transition : bool) :
  Prog (result StoreErr Lease) :=
  withSession lease (fun h sid =>
    run r <- mutateAttempts 1 h sid lease mode expiresAt transition;
    match r with
    | Err e => Ret (Err e)
    | Ok (updated, lost) => settleMutation h sid lease updated lost
    end).

Definition RenewLease (lease : Lease) (expiresAt : Time) : Prog (result StoreErr Lease) :=
  mutateLease lease "" expiresAt false.

Definition TransitionLease (lease : Lease) (mode : string) (expiresAt : Time) :
  Prog (result StoreErr Lease) :=
  if negb (maintenanceMode mode) then Ret (Err (EOps ErrInvalid))
  else mutateLease lease mode expiresAt true.

(** *** Releasing *)

(** [(matched, interrupted, err)]. *)
Definition clearLeaseAndReleaseLocked (h : list Z) (sid : Sid) (lease : Lease) :
  Prog (bool * bool * option StoreErr) :=
  act s <- ReadSession sid;
  match s_conn s with
  | None => Ret (false, false, Some ENilDereference)
  | Some conn =>
    act (ending, err) <- Transaction conn ClearFailed (clearBody (LeaseOwnerID lease) h true);
    match ending with
    | Committed _ | CommitLost _ => Ret (true, false, commitErr ending err)
    | RolledBack ClearGone =>
      run _ <- releaseSessionLocked h sid;
      Ret (false, false, None)
    | RolledBack (ClearFailed e) =>
      act isClosed <- ConnIsClosed conn;
      Ret (false, leaseConnectionInterrupted isClosed e, Some e)
    end
  end.

(** The loop: [Ok (matched, commitErr)] when it is left by [break]. *)
Fixpoint clearAttempts (left : nat) (h : list Z) (sid : Sid) (lease : Lease) :
  Prog (result StoreErr (bool * option StoreErr)) :=
  run (matched, interrupted, err) <- clearLeaseAndReleaseLocked h sid lease;
  match err with
  | None => Ret (Ok (matched, None))
  | Some e =>
    if matched : bool then Ret (Ok (matched, Some e))
    else
      act stopped <- LifecycleErr;
      if stopped : bool then failWith (mapLeaseError e)
      else match left, interrupted with
      | S left', true =>
        run recovered <- recoverLeaseSessionLocked h sid lease (mapLeaseError e);
        match recovered with
        | Err e' => failWith e'
        | Ok _ => clearAttempts left' h sid lease
        end
      | O, true => run _ <- releaseSessionLocked h sid; failWith (mapLeaseError e)
      | _, false => failWith (mapLeaseError e)
      end
  end.

Definition settleRelease (h : list Z) (sid : Sid) (lease : Lease) (lost : option StoreErr) :
  Prog (result StoreErr unit) :=
  run read <- authoritativeLeaseSessionStateLocked sid;
  act s <- ReadSession sid;
  match s_conn s, read with
  | None, Ok _ => act _ <- RemoveSession h sid; Ret (Err ENilDereference)
  | None, Err reconcileErr =>
    act _ <- RemoveSession h sid;
    match lost with
    | Some e => failWith (mapLeaseError e)
    | None => Ret (Err (mapLeaseError reconcileErr))
    end
  | Some _, Err reconcileErr =>
    run _ <- releaseSessionLocked h sid;
    match lost with
    | Some e => failWith (mapLeaseError e)
    | None => Ret (Err (mapLeaseError reconcileErr))
    end
  | Some _, Ok state =>
    if bool_decide (st_mode state = "normal") && bool_decide (st_owner state = None)
       && bool_decide (st_expires state = None)
    then run _ <- releaseSessionLocked h sid; Ret (Ok tt)
    else if ownedBy state (LeaseOwnerID lease) h then
      act _ <- ScheduleExpiry sid;
      match lost with
      | Some e => failWith (mapLeaseError e)
      | None => Ret (Err (EOps ErrConflict))
      end
    else run _ <- releaseSessionLocked h sid; Ret (Err (EOps ErrStaleLease))
  end.

Definition ReleaseLease (lease : Lease) : Prog (result StoreErr unit) :=
  withSession lease (fun h sid =>
    run r <- clearAttempts 1 h sid lease;
    match r with
    | Err e => Ret (Err e)
    | Ok (false, _) => Ret (Err (EOps ErrStaleLease))
    | Ok (true, lost) => settleRelease h sid lease lost
    end).

(** *** Expiry and closing *)
Definition expireLeaseSession (h : list Z) (sid : Sid) (generation : N) : Prog unit :=
  act _ <- LockSessionWait sid;
  act s <- ReadSession sid;
  run _ <- (if s_released s || negb (s_generation s =? generation)%N then Ret tt
            else releaseSessionLocked h sid);
  act _ <- UnlockSession sid;
  Ret tt.

Definition normalizeLeaseSessionLocked (h : list Z) (sid : Sid) : Prog (result StoreErr unit) :=
  act s <- ReadSession sid;
  match s_conn s with
  | None => Ret (Err ENilDereference)
  | Some conn =>
    run r <- normalizeOwnedLease conn (s_owner s) h;
    match r with
    | Ok _ => Ret (Ok tt)
    | Err e =>
      act isClosed <- ConnIsClosed conn;
      if negb (leaseConnectionInterrupted isClosed e) then Ret (Err e)
      else
        run read <- authoritativeLeaseSessionStateLocked sid;
        act s' <- ReadSession sid;
        match s_conn s', read with
        | _, Err recoverErr => Ret (Err recoverErr)
        | None, Ok _ => Ret (Err ENilDereference)
        | Some conn', Ok state =>
          if negb (ownedBy state (s_owner s') h) || bool_decide (st_expires state = None)
             || (st_remaining state <=? 0)
          then Ret (Ok tt)
          else normalizeOwnedLease conn' (s_owner s') h
        end
    end
  end.

Definition closeIfAny (c : option Conn) : Prog unit :=
  match c with Some c => act _ <- ConnClose c; Ret tt | None => Ret tt end.

Definition joinErr (first : option StoreErr) (e : StoreErr) : StoreErr :=
  match first with Some f => EJoin f e | None => e end.

(** The loop over the sessions; [firstErr] is the first error so far. *)
Fixpoint closeSessions (entries : list (list Z * Sid)) (firstErr : option StoreErr) :
  Prog (option StoreErr) :=
  match entries with
  | [] => Ret firstErr
  | (h, sid) :: rest =>
    act locked <- LockSession sid;
    match locked with
    | Err e => Ret (Some (joinErr firstErr e))
    | Ok _ =>
      act s <- ReadSession sid;
      if s_released s then
        act _ <- UnlockSession sid;
        closeSessions rest firstErr
      else
        run r <- normalizeLeaseSessionLocked h sid;
        let firstErr := match firstErr, r with
                        | None, Err e => Some e
                        | _, _ => firstErr
                        end in
        act _ <- MarkReleased sid;
        act forgotten <- ForgetSession h sid;
        act s' <- ReadSession sid;
        act _ <- SetConn sid None;
        run _ <- closeIfAny (s_conn s');
        act _ <- UnlockSession sid;
        match forgotten with
        | Err e => Ret (Some (joinErr firstErr e))
        | Ok _ => closeSessions rest firstErr
        end
    end
  end.

Fixpoint releaseAll (entries : list (N * Sid)) : Prog unit :=
  match entries with
  | [] => Ret tt
  | (id, sh) :: rest => run _ <- releaseSharedSession id sh; releaseAll rest
  end.

Definition Close : Prog (option StoreErr) :=
  act shared <- CloseStore;
  match shared with
  | Err e => Ret (Some e)
  | Ok entries =>
    run _ <- releaseAll entries;
    act drained <- WaitAdmissions;
    match drained with
    | Err e => Ret (Some e)
    | Ok _ =>
      act listed <- ListSessions;
      match listed with
      | Err e => Ret (Some e)
      | Ok entries => closeSessions entries None
      end
    end
  end.

(** ** The system *)
Inductive Call :=
| CallAcquire (request : LeaseRequest)
| CallRenew (lease : Lease) (expiresAt : Time)
| CallTransition (lease : Lease) (mode : string) (expiresAt : Time)
| CallRelease (lease : Lease)
| CallAcquireShared
| CallReleaseShared (id : N) (session : Sid)
| CallGetMode
| CallClaimsAllowed
| CallClose
| TimerFires (h : list Z) (session : Sid) (generation : N).

Inductive Outcome :=
| OutLease (r : result StoreErr Lease)
| OutReleased (r : result StoreErr unit)
| OutShared (r : result StoreErr (N * Sid))
| OutMode (r : result StoreErr ModeSnapshot)
| OutAllowed (r : result StoreErr bool)
| OutClosed (e : option StoreErr)
| OutUnit.

Definition pmap {A B} (f : A -> B) (p : Prog A) : Prog B := pbind p (fun a => Ret (f a)).

Definition operation (c : Call) : Prog Outcome :=
  match c with
  | CallAcquire request => pmap OutLease (AcquireLease request)
  | CallRenew lease t => pmap OutLease (RenewLease lease t)
  | CallTransition lease mode t => pmap OutLease (TransitionLease lease mode t)
  | CallRelease lease => pmap OutReleased (ReleaseLease lease)
  | CallAcquireShared => pmap OutShared AcquireShared
  | CallReleaseShared id sh => pmap (fun _ => OutUnit) (releaseSharedSession id sh)
  | CallGetMode => pmap OutMode GetMode
  | CallClaimsAllowed => pmap OutAllowed ClaimsAllowed
  | CallClose => pmap OutClosed Close
  | TimerFires h sid g => pmap (fun _ => OutUnit) (expireLeaseSession h sid g)
  end.

Record Thread := MkThread { th_pid : Pid; th_call : Call; th_prog : Prog Outcome }.

Record System := MkSystem { sys_world : World; sys_threads : gmap Tid Thread }.

(** The row after the migrations, no connection, no store. *)
Definition initialWorld (clock : Z) : World :=
  let row := MkModeRow "normal" None None None None 1 in
  MkWorld (MkModeDB (Some row) (Audit.MkTable [] 1)) [row] clock [] ∅ ∅ ∅ 0 ∅ ∅ ∅ 0.

Definition initialSystem (s : System) : Prop :=
  exists clock, s = MkSystem (initialWorld clock) ∅.

(** A goroutine performs its next action, a call starts, a connection of the
    server ends, time passes. *)
Inductive systemStep : System -> System -> Prop :=
| step_perform w T t pid cl R (a : Act R) k ch r w' :
    T !! t = Some (MkThread pid cl (Vis a k)) ->
    perform pid t ch a w = Some (r, w') ->
    systemStep (MkSystem w T) (MkSystem w' (<[t := MkThread pid cl (k r)]> T))
| step_call w T t pid cl :
    T !! t = None ->
    systemStep (MkSystem w T) (MkSystem w (<[t := MkThread pid cl (operation cl)]> T))
| step_drop w T c : systemStep (MkSystem w T) (MkSystem (dropConn c w) T)
| step_clock w T t :
    w_clock w <= t -> systemStep (MkSystem w T) (MkSystem (setClock t w) T).

End Operations.
