(* ===== verification/LeaseProofs.v ===== *)
(** * Maintenance leases: who owns what

    The proof technique is ownership.  Every open connection has one owner (the
    pool, a goroutine, a lease session or a shared session) and a [Kind], what its
    owner knows of the locks the server session holds.  A goroutine also owns
    the sessions whose mutex it holds.  [aspec] says what an action needs and
    gives in these terms, [safe] that a program respects it to the end;
    [perform_sound] shows that an action that respects it keeps the invariant of
    the whole system, whatever the other goroutines own. *)

From S2P Require Import Prelude GoTime GoText Pg OpsModel AlertStore AuditLog LeaseStore.
From stdpp Require Import base tactics list gmap strings.
From Stdlib Require Import ZArith Lia.

Open Scope Z_scope.

(** ** Ownership *)
Inductive Owner := OPool | OThread (t : nat) | OSession (sid : nat) | OShared (sh : nat).

Inductive Kind :=
| KFree      (* holds no advisory lock *)
| KMaybe     (* closed by the client, or holds no lock *)
| KExclusive (* holds exactly the exclusive lock, unless its session ended *)
| KShared    (* holds exactly the shared lock, unless its session ended *)
| KAdmitted  (* as [KShared], and the mode is normal as long as it does *)
| KAny.

Definition locksOf (c : nat) (w : World) : list LockMode :=
  snd <$> List.filter (fun '(c', _) => (c' =? c)%nat) (w_locks w).

Definition normalDB (db : ModeDB) : bool :=
  match modes db with Some r => isNormal r | None => false end.

Definition kindOk (k : Kind) (c : nat) (w : World) : Prop :=
  match k with
  | KFree => locksOf c w = []
  | KMaybe => c ∈ w_shut w \/ locksOf c w = []
  | KExclusive => c ∈ w_dead w \/ locksOf c w = [LockExclusive]
  | KShared => c ∈ w_dead w \/ locksOf c w = [LockShared]
  | KAdmitted => c ∈ w_dead w \/ (locksOf c w = [LockShared] /\ normalDB (w_db w) = true)
  | KAny => True
  end.

(** What a goroutine owns: connections, locked sessions with their fields, and
    the rows it has seen. *)
Record Local := MkLocal {
  lc : gmap nat Kind;
  ls : gmap nat (option nat * bool);
  seen : list ModeRow
}.

Definition nothing : Local := MkLocal ∅ ∅ [].

(** No session the goroutine has locked is on the connection [c]. *)
Definition unbound (c : nat) (L : Local) : Prop := forall sid rel, ls L !! sid <> Some (Some c, rel).

(** The connection [c] is not the goroutine's. *)
Definition absent (c : nat) (L : Local) : Prop := lc L !! c = None /\ unbound c L.

(** A locked session that has a connection has its own, and the goroutine owns
    it with the exclusive lock. *)
Definition bound (L : Local) : Prop :=
  (forall sid c rel, ls L !! sid = Some (Some c, rel) -> lc L !! c = Some KExclusive) /\
  (forall sid sid' c rel rel', ls L !! sid = Some (Some c, rel) -> ls L !! sid' = Some (Some c, rel') ->
     sid = sid').

Lemma bound_nothing : bound nothing.
Proof. by split. Qed.

Lemma bound_absent c L : bound L -> lc L !! c = None -> absent c L.
Proof. intros [Hb _] Hc. split; [done|]. intros sid rel Hs. apply Hb in Hs. congruence. Qed.

Lemma bound_unbound c k L : bound L -> lc L !! c = Some k -> k <> KExclusive -> unbound c L.
Proof. intros [Hb _] Hc Hk sid rel Hs. apply Hb in Hs. congruence. Qed.

Definition setC (c : nat) (k : Kind) (L : Local) : Local := MkLocal (<[c := k]> (lc L)) (ls L) (seen L).
Definition delC (c : nat) (L : Local) : Local := MkLocal (delete c (lc L)) (ls L) (seen L).
Definition addC (oc : option nat) (k : Kind) (L : Local) : Local :=
  match oc with Some c => setC c k L | None => L end.
Definition dropC (oc : option nat) (L : Local) : Local :=
  match oc with Some c => delC c L | None => L end.
Definition setS (sid : nat) (v : option nat * bool) (L : Local) : Local :=
  MkLocal (lc L) (<[sid := v]> (ls L)) (seen L).
Definition delS (sid : nat) (L : Local) : Local := MkLocal (lc L) (delete sid (ls L)) (seen L).
Definition saw (db : ModeDB) (L : Local) : Local :=
  match modes db with Some r => MkLocal (lc L) (ls L) (r :: seen L) | None => L end.

(** ** How the row may change

    [t] is the server's clock. *)
Inductive rowStep (t : Z) : option ModeRow -> option ModeRow -> Prop :=
| row_same r : rowStep t r r
| row_taken r r' :
    isNormal r = true \/ unexpired (row_expires r) (MkTime t None) = false ->
    isNormal r' = false -> modeRowCheck r' = true -> row_version r' = row_version r + 1 ->
    row_entered r' = Some (MkTime t None) ->
    rowStep t (Some r) (Some r')
| row_kept r r' :
    isNormal r = false -> isNormal r' = false -> modeRowCheck r' = true ->
    unexpired (row_expires r) (MkTime t None) = true ->
    row_owner r' = row_owner r -> row_hash r' = row_hash r ->
    row_version r' = row_version r + 1 ->
    rowStep t (Some r) (Some r')
| row_cleared r r' :
    isNormal r = false -> isNormal r' = true -> modeRowCheck r' = true ->
    row_version r' = row_version r + 1 ->
    rowStep t (Some r) (Some r').

(** The row satisfies the constraints of its table. *)
Definition dbOk (db : ModeDB) : Prop :=
  match modes db with Some r => modeRowCheck r = true | None => True end.

Lemma rowStep_ok t db db' : rowStep t (modes db) (modes db') -> dbOk db -> dbOk db'.
Proof.
  unfold dbOk. intros Hs. inversion Hs as [r E1 E2|r r' ? ? ? ? ? E1 E2|r r' ? ? ? ? ? ? ? E1 E2
    |r r' ? ? ? ? E1 E2]; done.
Qed.

(** ** Specifications of actions *)
Definition lockKind (m : LockMode) : Kind :=
  match m with LockExclusive => KExclusive | LockShared => KShared end.

Definition holdsKind (m : LockMode) (k : Kind) : bool :=
  match m, k with
  | LockExclusive, KExclusive | LockShared, KShared | LockShared, KAdmitted => true
  | _, _ => false
  end.

(** A session outside its mutex: unreleased exactly when it has a connection. *)
Definition sessionShape (oc : option nat) (rel : bool) : Prop := rel = false <-> is_Some oc.

(** Reading that the mode is normal under the shared lock is the admission. *)
Definition admitRead (c : nat) (k : Kind) (db : ModeDB) (L : Local) : Local :=
  match k with
  | KShared => if normalDB db then setC c KAdmitted L else L
  | _ => L
  end.

Definition aspec {R} (L : Local) (a : Act R) (Q : R -> Local -> Prop) : Prop :=
  match a in Act R return (R -> Local -> Prop) -> Prop with
  | CtxErr => fun Q => forall b, Q b L
  | RandRead => fun Q => (forall e, driverError e = true -> Q (Err e) L) /\
                         (forall token, length token = 32%nat -> Q (Ok token) L)
  | Admit => fun Q => Q (Err EClosed) L /\ Q (Ok tt) L
  | Done_ => fun Q => Q tt L
  | LifecycleErr => fun Q => forall b, Q b L
  | LookupSession _ => fun Q => forall o, Q o L
  | RegisterSession _ _ c => fun Q =>
      lc L !! c = Some KExclusive /\ unbound c L /\ Q (Err EClosed) L /\ Q (Ok tt) (delC c L)
  | RegisterShared c => fun Q =>
      lc L !! c = Some KAdmitted /\ Q (Err EClosed) L /\ (forall x, Q (Ok x) (delC c L))
  | ReleaseOnce _ _ => fun Q =>
      Q None L /\ (forall c, absent c L -> Q (Some c) (setC c KAdmitted L))
  | CloseStore => fun Q => Q (Err ECtx) L /\ (forall l, Q (Ok l) L)
  | WaitAdmissions => fun Q => Q (Err ECtx) L /\ Q (Ok tt) L
  | ListSessions => fun Q => Q (Err ECtx) L /\ (forall l, Q (Ok l) L)
  | ForgetSession _ _ => fun Q => Q (Err ECtx) L /\ Q (Ok tt) L
  | LockSession sid => fun Q =>
      Q (Err ECtx) L /\
      (forall oc rel, ls L !! sid = None -> sessionShape oc rel ->
         (forall c, oc = Some c -> absent c L) ->
         Q (Ok tt) (setS sid (oc, rel) (addC oc KExclusive L)))
  | LockSessionWait sid => fun Q =>
      (forall oc rel, ls L !! sid = None -> sessionShape oc rel ->
         (forall c, oc = Some c -> absent c L) ->
         Q tt (setS sid (oc, rel) (addC oc KExclusive L)))
  | UnlockSession sid => fun Q => exists oc rel,
      ls L !! sid = Some (oc, rel) /\ sessionShape oc rel /\
      (forall c, oc = Some c -> lc L !! c = Some KExclusive) /\
      Q tt (delS sid (dropC oc L))
  | ReadSession sid => fun Q => exists oc rel,
      ls L !! sid = Some (oc, rel) /\
      (forall s, s_conn s = oc -> s_released s = rel -> Q s L)
  | SetConn sid oc' => fun Q => exists oc rel,
      ls L !! sid = Some (oc, rel) /\
      (forall c, oc' = Some c -> lc L !! c = Some KExclusive /\ unbound c L) /\
      Q tt (setS sid (oc', rel) L)
  | RemoveSession _ sid => fun Q => exists oc rel,
      ls L !! sid = Some (oc, rel) /\ Q tt (setS sid (oc, true) L)
  | MarkReleased sid => fun Q => exists oc rel,
      ls L !! sid = Some (oc, rel) /\ Q tt (setS sid (oc, true) L)
  | ScheduleExpiry sid => fun Q => exists oc rel, ls L !! sid = Some (oc, rel) /\ Q tt L
  | PoolAcquire => fun Q =>
      (forall e, driverError e = true -> Q (Err e) L) /\
      (forall c, absent c L -> Q (Ok c) (setC c KFree L))
  | ConnRelease c => fun Q =>
      (lc L !! c = Some KFree \/ lc L !! c = Some KMaybe) /\ Q tt (delC c L)
  | ConnClose c => fun Q => is_Some (lc L !! c) /\ unbound c L /\ Q tt (delC c L)
  | ConnIsClosed c => fun Q => forall b, Q b L
  | RoundTrip c => fun Q => is_Some (lc L !! c) /\ Q (Ok tt) L /\
      (forall e, driverError e = true -> Q (Err e) L)
  | AdvisoryLock c m => fun Q =>
      lc L !! c = Some KFree /\ Q (Ok tt) (setC c (lockKind m) L) /\
      (forall e, driverError e = true -> Q (Err e) (setC c KMaybe L))
  | AdvisoryUnlock c m => fun Q => exists k,
      lc L !! c = Some k /\ holdsKind m k = true /\ unbound c L /\
      Q (Ok true) (setC c KFree L) /\ Q (Ok false) (setC c KAny L) /\
      (forall e, driverError e = true -> Q (Err e) (setC c KAny L))
  | Query c q => fun Q => exists k,
      lc L !! c = Some k /\ (forall e, driverError e = true -> Q (Err e) L) /\
      (forall env db, Q (value q env db) (saw db (admitRead c k db L)))
  | PoolQuery q => fun Q =>
      (forall e, driverError e = true -> Q (Err e) L) /\
      (forall env db, Q (value q env db) (saw db L))
  | Transaction c begin body => fun Q =>
      lc L !! c = Some KExclusive /\
      (forall e, driverError e = true -> Q (RolledBack (begin e), e) L) /\
      (forall e env t db n db' ending, driverError e = true -> (forall n, dbclock env n = t) -> dbOk db ->
         transaction (begin e) (body e) env (0%nat, db) = ((n, db'), ending) ->
         rowStep t (modes db) (modes db') /\
         Q (ending, e) (saw db' (saw db L)))
  end Q.

(** A program that respects the specifications and ends in [Post]. *)
Fixpoint safe {A} (p : Prog A) (L : Local) (Post : A -> Local -> Prop) : Prop :=
  match p with
  | Ret a => Post a L
  | Vis a k => aspec L a (fun r L' => safe (k r) L' Post)
  end.

Lemma aspec_mono {R} L (a : Act R) (Q Q' : R -> Local -> Prop) :
  aspec L a Q -> (forall r L', Q r L' -> Q' r L') -> aspec L a Q'.
Proof.
  intros Ha HQ. destruct a; simpl in *; naive_solver.
Qed.

Lemma safe_mono {A} (p : Prog A) L (Post Post' : A -> Local -> Prop) :
  safe p L Post -> (forall a L', Post a L' -> Post' a L') -> safe p L Post'.
Proof.
  intros Hp HP. revert L Hp. induction p as [a|R a k IH]; simpl; intros L Hp; [auto|].
  eapply aspec_mono; [exact Hp|]. simpl. auto.
Qed.

Lemma safe_bind {A B} (p : Prog A) (f : A -> Prog B) L Post :
  safe p L (fun a L' => safe (f a) L' Post) -> safe (pbind p f) L Post.
Proof.
  revert L. induction p as [a|R a k IH]; simpl; intros L Hp; [done|].
  eapply aspec_mono; [exact Hp|]. simpl. auto.
Qed.

(** ** The invariant of the world *)
Record winv (w : World) (G : gmap nat (Owner * Kind)) (Ls : nat -> Local) : Prop := {
  i_locks : forall c m c' m', (c, m) ∈ w_locks w -> (c', m') ∈ w_locks w ->
    c = c' \/ (m = LockShared /\ m' = LockShared);
  i_dead : forall c, c ∈ w_dead w -> locksOf c w = [];
  i_kind : forall c o k, G !! c = Some (o, k) -> kindOk k c w;
  i_fresh : forall c, (w_next w <= c)%nat -> G !! c = None /\ locksOf c w = [];
  i_idle : forall c p, w_idle w !! c = Some p -> G !! c = Some (OPool, KFree);
  i_session : forall sid s, w_sessions w !! sid = Some s -> s_mu s = None ->
    sessionShape (s_conn s) (s_released s) /\
    (forall c, s_conn s = Some c -> G !! c = Some (OSession sid, KExclusive));
  i_mutex : forall t sid oc rel, ls (Ls t) !! sid = Some (oc, rel) <->
    exists s, w_sessions w !! sid = Some s /\ s_mu s = Some t /\ s_conn s = oc /\ s_released s = rel;
  i_thread : forall t c k, lc (Ls t) !! c = Some k <-> G !! c = Some (OThread t, k);
  i_shared : forall sh o, w_shared w !! sh = Some o -> sh_done o = false ->
    G !! sh_conn o = Some (OShared sh, KAdmitted);
  i_pooled : forall c k, G !! c = Some (OPool, k) -> is_Some (w_idle w !! c);
  i_sessionOf : forall c sid k, G !! c = Some (OSession sid, k) ->
    exists s, w_sessions w !! sid = Some s /\ s_mu s = None /\ s_conn s = Some c;
  i_sharedOf : forall c sh k, G !! c = Some (OShared sh, k) ->
    exists o, w_shared w !! sh = Some o /\ sh_done o = false /\ sh_conn o = c;
  i_accounted : forall c, (c < w_next w)%nat -> c ∈ w_shut w \/ is_Some (G !! c);
  i_check : dbOk (w_db w);
  i_row : forall r, modes (w_db w) = Some r -> r ∈ w_history w;
  i_seen : forall t r, r ∈ seen (Ls t) -> r ∈ w_history w;
  i_object : forall i, (w_object w <= i)%nat -> w_sessions w !! i = None /\ w_shared w !! i = None
}.

Definition upd (t : nat) (L : Local) (Ls : nat -> Local) : nat -> Local :=
  fun t' => if (t' =? t)%nat then L else Ls t'.

Lemma upd_eq t L Ls : upd t L Ls t = L.
Proof. unfold upd. by rewrite Nat.eqb_refl. Qed.

Lemma upd_ne t t' L Ls : t' <> t -> upd t L Ls t' = Ls t'.
Proof. intros H. unfold upd. by rewrite (proj2 (Nat.eqb_neq _ _) H). Qed.

Ltac upd_case t' t :=
  destruct (decide (t' = t)) as [->|]; [rewrite ?upd_eq in *|rewrite ?upd_ne in * by done].

(** Case analysis on a connection, for maps updated at [c]. *)
Ltac conn_case c' c :=
  destruct (decide (c' = c)) as [->|];
  rewrite ?lookup_insert_eq, ?lookup_delete_eq in *;
  try (rewrite ?lookup_insert_ne, ?lookup_delete_ne in * by done).

(** Only parts the invariant does not look at change. *)
Record sameCore (w w' : World) : Prop := {
  same_db : w_db w' = w_db w;
  same_history : w_history w' = w_history w;
  same_locks : w_locks w' = w_locks w;
  same_dead : w_dead w' = w_dead w;
  same_shut : w_shut w ⊆ w_shut w';
  same_idle : w_idle w' = w_idle w;
  same_next : w_next w' = w_next w;
  same_sessions : w_sessions w' = w_sessions w;
  same_shared : w_shared w' = w_shared w;
  same_object : w_object w' = w_object w
}.

Lemma sameCore_refl w : sameCore w w.
Proof. by split. Qed.

Lemma sameCore_store pid st w : sameCore w (setStore pid st w).
Proof. by split. Qed.

Lemma sameCore_shutIf b c w : sameCore w (shutIf b c w).
Proof. unfold shutIf. destruct b; split; simpl; try done. set_solver. Qed.

Lemma sameCore_shut c w : sameCore w (setShut ({[c]} ∪ w_shut w) w).
Proof. split; simpl; try done. set_solver. Qed.

Lemma sameCore_clock t w : sameCore w (setClock t w).
Proof. by split. Qed.

Create HintDb core_same discriminated.
#[local] Hint Resolve sameCore_refl sameCore_store sameCore_shutIf sameCore_shut sameCore_clock : core_same.

Lemma kindOk_same w w' k c : sameCore w w' -> kindOk k c w -> kindOk k c w'.
Proof.
  intros [Hdb _ Hl Hd Hs _ _ _ _ _]. unfold kindOk, locksOf. rewrite Hl, Hd, Hdb.
  destruct k; naive_solver.
Qed.

Lemma winv_same w w' G Ls : sameCore w w' -> winv w G Ls -> winv w' G Ls.
Proof.
  intros Hs Hw. destruct Hw. pose proof Hs as [Hdb Hh Hl Hd Hsh Hi Hn Hse Hshd Ho].
  split; unfold locksOf in *; rewrite ?Hdb, ?Hh, ?Hl, ?Hd, ?Hi, ?Hn, ?Hse, ?Hshd, ?Ho in *; try done.
  - intros c o k Hc. eapply kindOk_same; eauto.
  - intros c Hc. destruct (i_accounted0 c Hc); [left; by apply Hsh|by right].
Qed.

(** The same goroutine, with the same possessions. *)
Lemma winv_ext w G Ls Ls' : (forall t, Ls' t = Ls t) -> winv w G Ls -> winv w G Ls'.
Proof. intros He Hw. destruct Hw. split; intros; rewrite ?He in *; eauto. Qed.

Lemma winv_self w G Ls t : winv w G Ls -> winv w G (upd t (Ls t) Ls).
Proof. apply winv_ext. intros t'. by upd_case t' t. Qed.

(** A goroutine remembers rows of the history. *)
Lemma winv_saw w G Ls t L db :
  winv w G (upd t L Ls) -> (forall r, modes db = Some r -> r ∈ w_history w) ->
  winv w G (upd t (saw db L) Ls).
Proof.
  intros Hw Hdb. unfold saw. destruct (modes db) as [r|]; [|done].
  specialize (Hdb r eq_refl). destruct Hw. split; try done.
  - intros t' sid oc rel. specialize (i_mutex0 t' sid oc rel). by upd_case t' t.
  - intros t' c k. specialize (i_thread0 t' c k). by upd_case t' t.
  - intros t' r'. specialize (i_seen0 t' r'). upd_case t' t; [|done]. simpl.
    intros [->|Hr]%elem_of_cons; [done|by apply i_seen0].
Qed.

(** A change of what is known of one connection of a goroutine. *)
Lemma winv_kind w G Ls t c k k' :
  winv w G Ls -> lc (Ls t) !! c = Some k -> kindOk k' c w ->
  winv w (<[c := (OThread t, k')]> G) (upd t (setC c k' (Ls t)) Ls).
Proof.
  intros Hw Hc Hk'. pose proof (proj1 (i_thread _ _ _ Hw t c k) Hc) as HG. destruct Hw. split; try done.
  - intros c' o k0. destruct (decide (c' = c)) as [->|Hne].
    + rewrite lookup_insert_eq. by intros [= <- <-].
    + rewrite lookup_insert_ne by done. apply i_kind0.
  - intros c' Hn. destruct (i_fresh0 c' Hn) as [Hf ?]. split; [|done].
    rewrite lookup_insert_ne; [done|]. intros ->. congruence.
  - intros c' p Hp. specialize (i_idle0 c' p Hp). rewrite lookup_insert_ne; [done|]. intros ->. congruence.
  - intros sid s Hs Hmu. destruct (i_session0 sid s Hs Hmu) as [Hsh Hcs]. split; [done|].
    intros c' Hc'. specialize (Hcs c' Hc'). rewrite lookup_insert_ne; [done|]. intros ->. congruence.
  - intros t' sid oc rel. specialize (i_mutex0 t' sid oc rel). by upd_case t' t.
  - intros t' c' k0. specialize (i_thread0 t' c' k0). upd_case t' t; simpl.
    + destruct (decide (c' = c)) as [->|Hne].
      * rewrite !lookup_insert_eq. naive_solver.
      * by rewrite !lookup_insert_ne by done.
    + destruct (decide (c' = c)) as [->|Hne].
      * rewrite lookup_insert_eq. rewrite i_thread0, HG. naive_solver.
      * by rewrite lookup_insert_ne by done.
  - intros sh o Hsh Hd. specialize (i_shared0 sh o Hsh Hd). rewrite lookup_insert_ne; [done|].
    intros ->. congruence.
  - intros c' k0. conn_case c' c; [done|]. apply i_pooled0.
  - intros c' sid k0. conn_case c' c; [done|]. apply i_sessionOf0.
  - intros c' sh k0. conn_case c' c; [done|]. apply i_sharedOf0.
  - intros c' Hn. conn_case c' c; [right; by eexists|]. by apply i_accounted0.
  - intros t' r. specialize (i_seen0 t' r). by upd_case t' t.
Qed.

(** An owner other than [c]'s is not affected by a change at [c]. *)
Ltac other_conn := intros ->; simplify_eq/=; congruence.

Lemma kindOk_core w w' k c :
  w_locks w' = w_locks w -> w_dead w' = w_dead w -> w_shut w' = w_shut w -> w_db w' = w_db w ->
  kindOk k c w -> kindOk k c w'.
Proof. intros H1 H2 H3 H4. unfold kindOk, locksOf. by rewrite H1, H2, H3, H4. Qed.

(** A connection is given up for good. *)
Lemma winv_drop w G Ls t c k :
  winv w G Ls -> lc (Ls t) !! c = Some k -> c ∈ w_shut w -> winv w (delete c G) (upd t (delC c (Ls t)) Ls).
Proof.
  intros Hw Hc Hshut. pose proof (proj1 (i_thread _ _ _ Hw t c k) Hc) as HG. destruct Hw. split; try done.
  - intros c' o k0. conn_case c' c; [done|]. apply i_kind0.
  - intros c' Hn. destruct (i_fresh0 c' Hn). conn_case c' c; done.
  - intros c' p Hp. specialize (i_idle0 c' p Hp). rewrite lookup_delete_ne; [done|]. other_conn.
  - intros sid s Hs Hmu. destruct (i_session0 sid s Hs Hmu) as [Hsh Hcs]. split; [done|].
    intros c' Hc'. specialize (Hcs c' Hc'). rewrite lookup_delete_ne; [done|]. other_conn.
  - intros t' sid oc rel. specialize (i_mutex0 t' sid oc rel). by upd_case t' t.
  - intros t' c' k0. specialize (i_thread0 t' c' k0). upd_case t' t; simpl.
    + conn_case c' c; [naive_solver|done].
    + conn_case c' c; [rewrite i_thread0, HG; naive_solver|done].
  - intros sh o Hsh Hd. specialize (i_shared0 sh o Hsh Hd). rewrite lookup_delete_ne; [done|]. other_conn.
  - intros c' k0. conn_case c' c; [done|]. apply i_pooled0.
  - intros c' sid k0. conn_case c' c; [done|]. apply i_sessionOf0.
  - intros c' sh k0. conn_case c' c; [done|]. apply i_sharedOf0.
  - intros c' Hn. conn_case c' c; [by left|]. by apply i_accounted0.
  - intros t' r. specialize (i_seen0 t' r). by upd_case t' t.
Qed.

(** A connection without locks goes back to the pool. *)
Lemma winv_release pid w G Ls t c k :
  winv w G Ls -> lc (Ls t) !! c = Some k -> locksOf c w = [] ->
  winv (setIdle (<[c := pid]> (w_idle w)) w) (<[c := (OPool, KFree)]> G) (upd t (delC c (Ls t)) Ls).
Proof.
  intros Hw Hc Hfree. pose proof (proj1 (i_thread _ _ _ Hw t c k) Hc) as HG. destruct Hw.
  split; simpl; try done.
  - intros c' o k0. conn_case c' c; [by intros [= <- <-]|]. intros Hk.
    eapply kindOk_core, i_kind0, Hk; done.
  - intros c' Hn. destruct (i_fresh0 c' Hn). conn_case c' c; [congruence|done].
  - intros c' p. conn_case c' c; [done|]. apply i_idle0.
  - intros sid s Hs Hmu. destruct (i_session0 sid s Hs Hmu) as [Hsh Hcs]. split; [done|].
    intros c' Hc'. specialize (Hcs c' Hc'). rewrite lookup_insert_ne; [done|]. other_conn.
  - intros t' sid oc rel. specialize (i_mutex0 t' sid oc rel). by upd_case t' t.
  - intros t' c' k0. specialize (i_thread0 t' c' k0). upd_case t' t; simpl.
    + conn_case c' c; [naive_solver|done].
    + conn_case c' c; [rewrite i_thread0, HG; naive_solver|done].
  - intros sh o Hsh Hd. specialize (i_shared0 sh o Hsh Hd). rewrite lookup_insert_ne; [done|]. other_conn.
  - intros c' k0. conn_case c' c; [by eexists|]. apply i_pooled0.
  - intros c' sid k0. conn_case c' c; [done|]. apply i_sessionOf0.
  - intros c' sh k0. conn_case c' c; [done|]. apply i_sharedOf0.
  - intros c' Hn. conn_case c' c; [right; by eexists|]. by apply i_accounted0.
  - intros t' r. specialize (i_seen0 t' r). by upd_case t' t.
Qed.

(** A connection nobody's goroutine owns is given to one: [w'] is the world
    after the former owner forgot it. *)
Lemma winv_receive w w' G Ls t c k :
  winv w G Ls -> (forall t' k, G !! c <> Some (OThread t', k)) -> kindOk k c w' ->
  w_locks w' = w_locks w -> w_dead w' = w_dead w -> w_shut w' = w_shut w -> w_db w' = w_db w ->
  w_history w' = w_history w -> w_sessions w' = w_sessions w ->
  (w_next w <= w_next w')%nat -> (c < w_next w')%nat ->
  (forall c' p, w_idle w' !! c' = Some p -> c' <> c /\ w_idle w !! c' = Some p) ->
  (forall sid s, w_sessions w !! sid = Some s -> s_mu s = None -> s_conn s <> Some c) ->
  (forall sh o, w_shared w' !! sh = Some o -> sh_done o = false ->
     sh_conn o <> c /\ w_shared w !! sh = Some o) ->
  (forall i, (w_object w' <= i)%nat -> w_sessions w' !! i = None /\ w_shared w' !! i = None) ->
  (forall c', c' <> c -> is_Some (w_idle w !! c') -> is_Some (w_idle w' !! c')) ->
  (forall sh o, w_shared w !! sh = Some o -> sh_done o = false -> sh_conn o <> c ->
     w_shared w' !! sh = Some o) ->
  (forall c', (c' < w_next w')%nat -> c' = c \/ (c' < w_next w)%nat) ->
  winv w' (<[c := (OThread t, k)]> G) (upd t (setC c k (Ls t)) Ls).
Proof.
  intros Hw Hno Hk Hl Hd Hs Hdb Hh Hse Hn Hcn Hidle Hsess Hshd Hobj Hidle' Hshd' Hnext.
  destruct Hw. split; try done; unfold locksOf in *; rewrite ?Hl, ?Hd, ?Hdb, ?Hh, ?Hse; try done.
  - intros c' o k0. conn_case c' c; [by intros [= <- <-]|]. intros Hk0.
    eapply kindOk_core, i_kind0, Hk0; done.
  - intros c' Hc'. destruct (i_fresh0 c' ltac:(lia)). conn_case c' c; [lia|done].
  - intros c' p [Hne Hp]%Hidle. rewrite lookup_insert_ne by done. by eapply i_idle0.
  - intros sid s Hsid Hmu. destruct (i_session0 sid s Hsid Hmu) as [? Hcs]. split; [done|].
    intros c' Hc'. rewrite lookup_insert_ne; [by apply Hcs|]. intros ->. by eapply Hsess.
  - intros t' sid oc rel. specialize (i_mutex0 t' sid oc rel). by upd_case t' t.
  - intros t' c' k0. specialize (i_thread0 t' c' k0). upd_case t' t; simpl.
    + conn_case c' c; [naive_solver|done].
    + conn_case c' c; [|done]. split; [|naive_solver]. intros Hx%i_thread0. by apply Hno in Hx.
  - intros sh o Hsh Hdn. destruct (Hshd sh o Hsh Hdn) as [Hne Hsh'].
    rewrite lookup_insert_ne by done. by apply i_shared0.
  - intros c' k0. conn_case c' c; [done|]. intros Hp%i_pooled0. by apply Hidle'.
  - intros c' sid k0. conn_case c' c; [done|]. apply i_sessionOf0.
  - intros c' sh k0. conn_case c' c; [done|]. intros (o & Ho & Hdo & Hco)%i_sharedOf0.
    exists o. split_and!; try done. apply Hshd'; [done..|congruence].
  - intros c' Hc'. conn_case c' c; [right; by eexists|]. rewrite Hs.
    destruct (Hnext c' Hc'); [done|]. by apply i_accounted0.
  - intros t' r. specialize (i_seen0 t' r). by upd_case t' t.
Qed.

Lemma winv_fresh w G Ls t :
  winv w G Ls ->
  winv (setNext (S (w_next w)) w) (<[w_next w := (OThread t, KFree)]> G)
    (upd t (setC (w_next w) KFree (Ls t)) Ls) /\ lc (Ls t) !! w_next w = None.
Proof.
  intros Hw. destruct (i_fresh _ _ _ Hw (w_next w) ltac:(lia)) as [HG Hl]. split.
  - eapply winv_receive; simpl; try done; try lia.
    + intros t' k. by rewrite HG.
    + intros c p Hp. split; [|done]. intros ->. apply (i_idle _ _ _ Hw) in Hp. congruence.
    + intros sid s Hs Hmu Hc. destruct (i_session _ _ _ Hw sid s Hs Hmu) as [_ Hcs].
      apply Hcs in Hc. congruence.
    + intros sh o Hsh Hd. split; [|done]. intros E. apply (i_shared _ _ _ Hw) in Hsh; [|done].
      congruence.
    + apply (i_object _ _ _ Hw).
  - destruct (lc (Ls t) !! w_next w) as [k|] eqn:E; [|done].
    apply (i_thread _ _ _ Hw) in E. congruence.
Qed.

Lemma winv_reuse w G Ls t c pid :
  winv w G Ls -> w_idle w !! c = Some pid ->
  winv (setIdle (delete c (w_idle w)) w) (<[c := (OThread t, KFree)]> G)
    (upd t (setC c KFree (Ls t)) Ls) /\ lc (Ls t) !! c = None.
Proof.
  intros Hw Hp. pose proof (i_idle _ _ _ Hw _ _ Hp) as HG. split.
  - eapply winv_receive; simpl; try done.
    + intros t' k. rewrite HG. naive_solver.
    + exact (i_kind _ _ _ Hw _ _ _ HG).
    + destruct (decide (w_next w <= c)%nat) as [Hle|]; [|lia].
      apply (i_fresh _ _ _ Hw) in Hle as [Hle _]. congruence.
    + intros c' p. rewrite lookup_delete_Some. intros [? ?]. split; [by apply not_eq_sym|done].
    + intros sid s Hs Hmu Hc. destruct (i_session _ _ _ Hw sid s Hs Hmu) as [_ Hcs].
      apply Hcs in Hc. congruence.
    + intros sh o Hsh Hd. split; [|done]. intros E. apply (i_shared _ _ _ Hw) in Hsh; [|done].
      congruence.
    + apply (i_object _ _ _ Hw).
    + intros c' Hne. by rewrite lookup_delete_ne by done.
    + auto.
  - destruct (lc (Ls t) !! c) as [k|] eqn:E; [|done].
    apply (i_thread _ _ _ Hw) in E. congruence.
Qed.

(** *** Advisory locks *)
Lemma locksOf_app c w c' m :
  locksOf c (setLocks (w_locks w ++ [(c', m)]) w) =
  locksOf c w ++ (if decide (c' = c) then [m] else []).
Proof.
  unfold locksOf. simpl. rewrite List.filter_app, fmap_app. simpl.
  destruct (decide (c' = c)) as [->|Hne]; [by rewrite Nat.eqb_refl|].
  by rewrite (proj2 (Nat.eqb_neq _ _) Hne).
Qed.

Lemma locksOf_elem c m w : m ∈ locksOf c w <-> (c, m) ∈ w_locks w.
Proof.
  unfold locksOf. rewrite list_elem_of_fmap. split.
  - intros ([c' m'] & -> & [Hin Hc]%list_elem_of_In%filter_In).
    apply Nat.eqb_eq in Hc as ->. by apply list_elem_of_In.
  - intros Hin. exists (c, m). split; [done|]. apply list_elem_of_In, filter_In.
    split; [by apply list_elem_of_In|apply Nat.eqb_refl].
Qed.

Lemma removeLock_other c c' m l :
  c' <> c -> List.filter (fun '(x, _) => (x =? c')%nat) (removeLock c m l) =
             List.filter (fun '(x, _) => (x =? c')%nat) l.
Proof.
  intros Hne. induction l as [|[x m'] l IH]; simpl; [done|].
  destruct ((x =? c)%nat && bool_decide (m' = m)) eqn:E.
  - apply andb_true_iff in E as [E%Nat.eqb_eq _]. subst.
    by rewrite (proj2 (Nat.eqb_neq c c')) by congruence.
  - simpl. by rewrite IH.
Qed.

Lemma removeLock_self c m l m0 :
  snd <$> List.filter (fun '(x, _) => (x =? c)%nat) l = [m0] ->
  snd <$> List.filter (fun '(x, _) => (x =? c)%nat) (removeLock c m l) =
    if decide (m0 = m) then [] else [m0].
Proof.
  induction l as [|[x m'] l IH]; simpl; [done|]. destruct (x =? c)%nat eqn:E; simpl.
  - intros [= -> Hl]. apply Nat.eqb_eq in E as ->. case_bool_decide as Hm; simpl.
    + rewrite decide_True by done. exact Hl.
    + rewrite Nat.eqb_refl, decide_False by done. simpl. f_equal. clear IH.
      assert (Hnone : List.filter (fun '(x, _) => (x =? c)%nat) l = [])
        by (by destruct (List.filter _ l)).
      clear Hl. revert Hnone. induction l as [|[y m''] l IH]; simpl; [done|].
      destruct (y =? c)%nat eqn:Ey; [done|]. intros Hn. simpl. rewrite Ey. by apply IH.
  - intros Hl. rewrite E. by apply IH.
Qed.

Lemma removeLock_subset c m l x : x ∈ removeLock c m l -> x ∈ l.
Proof.
  induction l as [|[c' m'] l IH]; simpl; [done|].
  destruct (_ && _); rewrite ?elem_of_cons; naive_solver.
Qed.

(** The locks of one connection of a goroutine change. *)
Lemma winv_locks w G Ls t c k k' l :
  winv w G Ls -> lc (Ls t) !! c = Some k ->
  (forall c', c' <> c -> locksOf c' (setLocks l w) = locksOf c' w) ->
  (c ∈ w_dead w -> locksOf c (setLocks l w) = []) ->
  (forall c1 m1 c2 m2, (c1, m1) ∈ l -> (c2, m2) ∈ l -> c1 = c2 \/ (m1 = LockShared /\ m2 = LockShared)) ->
  kindOk k' c (setLocks l w) ->
  winv (setLocks l w) (<[c := (OThread t, k')]> G) (upd t (setC c k' (Ls t)) Ls).
Proof.
  intros Hw Hc Hother Hdead Hcompat Hk'. pose proof (proj1 (i_thread _ _ _ Hw t c k) Hc) as HG.
  pose proof (winv_kind w G Ls t c k KAny Hw Hc I) as Hw'. destruct Hw'. split; try done.
  - intros c' Hc'. destruct (decide (c' = c)) as [->|Hne]; [by apply Hdead|].
    rewrite Hother by done. by apply i_dead0.
  - intros c' o k0. conn_case c' c; [by intros [= <- <-]|].
    intros Hk0. pose proof (i_kind _ _ _ Hw c' o k0 Hk0) as Hold.
    unfold kindOk in *. rewrite Hother by done. exact Hold.
  - intros c' Hn. destruct (i_fresh _ _ _ Hw c' Hn) as [Hnone Hl].
    assert (c' <> c) by congruence. rewrite Hother, lookup_insert_ne by done. done.
  - intros c' p Hp. pose proof (i_idle _ _ _ Hw c' p Hp). rewrite lookup_insert_ne; [done|]. other_conn.
  - intros sid s Hs Hmu. destruct (i_session _ _ _ Hw sid s Hs Hmu) as [? Hcs]. split; [done|].
    intros c' Hc'. specialize (Hcs c' Hc'). rewrite lookup_insert_ne; [done|]. other_conn.
  - intros t' sid oc rel. specialize (i_mutex0 t' sid oc rel). by upd_case t' t.
  - intros t' c' k0. pose proof (i_thread _ _ _ Hw t' c' k0) as Hth. upd_case t' t; simpl.
    + conn_case c' c; [naive_solver|done].
    + conn_case c' c; [rewrite Hth, HG; naive_solver|done].
  - intros sh o Hsh Hd. pose proof (i_shared _ _ _ Hw sh o Hsh Hd). rewrite lookup_insert_ne; [done|].
    other_conn.
  - intros c' k0. conn_case c' c; [done|]. apply (i_pooled _ _ _ Hw).
  - intros c' sid k0. conn_case c' c; [done|]. apply (i_sessionOf _ _ _ Hw).
  - intros c' sh k0. conn_case c' c; [done|]. apply (i_sharedOf _ _ _ Hw).
  - intros c' Hn. conn_case c' c; [right; by eexists|]. by apply (i_accounted _ _ _ Hw).
  - intros t' r. specialize (i_seen0 t' r). by upd_case t' t.
Qed.

(** A granted lock. *)
Lemma winv_grant w G Ls t c m k' :
  winv w G Ls -> lc (Ls t) !! c = Some KFree -> c ∉ w_dead w -> grantable c m w = true ->
  kindOk k' c (setLocks (w_locks w ++ [(c, m)]) w) ->
  winv (setLocks (w_locks w ++ [(c, m)]) w) (<[c := (OThread t, k')]> G)
    (upd t (setC c k' (Ls t)) Ls).
Proof.
  intros Hw Hc Hd Hg Hk. pose proof (i_kind _ _ _ Hw c _ _ (proj1 (i_thread _ _ _ Hw t c _) Hc)) as Hfree.
  simpl in Hfree. eapply winv_locks; try done.
  - intros c' Hne. rewrite locksOf_app, decide_False, app_nil_r by congruence. done.
  - unfold grantable in Hg. rewrite forallb_forall in Hg.
    assert (Hc1 : forall c1 m1, (c1, m1) ∈ w_locks w -> m1 = LockShared /\ m = LockShared).
    { intros c1 m1 Hin. pose proof (Hg (c1, m1) ltac:(by apply list_elem_of_In)) as Hx. simpl in Hx.
      apply orb_true_iff in Hx as [Hx|Hx].
      - apply Nat.eqb_eq in Hx as ->. apply locksOf_elem in Hin. rewrite Hfree in Hin.
        by apply elem_of_nil in Hin.
      - by destruct m, m1. }
    intros c1 m1 c2 m2. rewrite !elem_of_app, !list_elem_of_singleton.
    intros [H1|[= -> ->]] [H2|[= -> ->]].
    + by eapply (i_locks _ _ _ Hw).
    + right. by apply Hc1 in H1.
    + right. apply Hc1 in H2. naive_solver.
    + by left.
Qed.

Lemma locksOf_grant w c m :
  locksOf c w = [] -> locksOf c (setLocks (w_locks w ++ [(c, m)]) w) = [m].
Proof. intros H. rewrite locksOf_app, decide_True, H by done. done. Qed.

(** A lock given back. *)
Lemma winv_unlock w G Ls t c m k k' :
  winv w G Ls -> lc (Ls t) !! c = Some k ->
  kindOk k' c (setLocks (removeLock c m (w_locks w)) w) ->
  winv (setLocks (removeLock c m (w_locks w)) w) (<[c := (OThread t, k')]> G)
    (upd t (setC c k' (Ls t)) Ls).
Proof.
  intros Hw Hc Hk. eapply winv_locks; try done.
  - intros c' Hne. unfold locksOf. simpl. by rewrite removeLock_other.
  - intros Hd. apply (i_dead _ _ _ Hw) in Hd. unfold locksOf in *. simpl.
    assert (Hn : forall m', (c, m') ∉ w_locks w).
    { intros m' Hin. apply locksOf_elem in Hin. unfold locksOf in Hin. rewrite Hd in Hin.
      by apply elem_of_nil in Hin. }
    destruct (snd <$> List.filter _ (removeLock c m (w_locks w))) as [|m' l] eqn:E; [done|].
    assert (Hin : m' ∈ snd <$> List.filter (fun '(x, _) => (x =? c)%nat) (removeLock c m (w_locks w)))
      by (rewrite E; set_solver).
    apply list_elem_of_fmap in Hin as ([c' m''] & -> & [Hx Hy]%list_elem_of_In%filter_In).
    apply Nat.eqb_eq in Hy as ->. apply list_elem_of_In, removeLock_subset in Hx. by apply Hn in Hx.
  - intros c1 m1 c2 m2 H1%removeLock_subset H2%removeLock_subset. by eapply (i_locks _ _ _ Hw).
Qed.

Lemma locksOf_unlock w c m :
  locksOf c w = [m] -> locksOf c (setLocks (removeLock c m (w_locks w)) w) = [].
Proof. intros Hl. unfold locksOf. simpl. rewrite (removeLock_self _ _ _ m); [|done]. by rewrite decide_True. Qed.

Lemma holdsKind_locks m k c w :
  holdsKind m k = true -> kindOk k c w -> c ∉ w_dead w -> locksOf c w = [m].
Proof. destruct m, k; simpl; naive_solver. Qed.

(** *** The row *)
Lemma setDB_history db w : exists l, w_history (setDB db w) = w_history w ++ l.
Proof.
  unfold setDB. simpl. case_bool_decide; [exists []; by rewrite app_nil_r|].
  destruct (modes db) as [r|]; [by exists [r]|exists []; by rewrite app_nil_r].
Qed.

Lemma setDB_current db w r :
  (forall r, modes (w_db w) = Some r -> r ∈ w_history w) -> modes db = Some r ->
  r ∈ w_history (setDB db w).
Proof.
  intros Hw Hr. unfold setDB. simpl. case_bool_decide as E; [apply Hw; congruence|].
  rewrite Hr. set_solver.
Qed.

(** Leaving the normal mode needs a live holder of the exclusive lock. *)
Lemma winv_db db w G Ls :
  winv w G Ls -> dbOk db ->
  (normalDB (w_db w) = true -> normalDB db = true \/
     exists c, c ∉ w_dead w /\ locksOf c w = [LockExclusive]) ->
  winv (setDB db w) G Ls.
Proof.
  intros Hw Hcheck Hn. destruct (setDB_history db w) as [l Hh]. destruct Hw. split; try done.
  - intros c o k Hk. pose proof (i_kind0 c o k Hk) as Hok. destruct k; try done.
    destruct Hok as [Hd|[Hl Hnorm]]; [by left|]. destruct (Hn Hnorm) as [Hdb|(x & Hx & Hxl)].
    { right. by split. }
    assert (Hin : (c, LockShared) ∈ w_locks w) by (apply locksOf_elem; rewrite Hl; set_solver).
    assert (Hin' : (x, LockExclusive) ∈ w_locks w) by (apply locksOf_elem; rewrite Hxl; set_solver).
    destruct (i_locks0 _ _ _ _ Hin Hin') as [->|[_ Hbad]]; [|done]. rewrite Hl in Hxl. done.
  - intros r Hr. by apply setDB_current.
  - intros t r Hr. rewrite Hh. apply elem_of_app. left. by eapply i_seen0.
Qed.

(** *** Sessions and shared sessions *)
Lemma winv_putSession w G Ls t sid s s' :
  winv w G Ls -> w_sessions w !! sid = Some s -> s_mu s = Some t -> s_mu s' = Some t ->
  winv (putSession sid s' w) G (upd t (setS sid (s_conn s', s_released s') (Ls t)) Ls).
Proof.
  intros Hw Hs Hmu Hmu'. destruct Hw. split; simpl; try done.
  - intros sid' x. conn_case sid' sid; [intros [= <-]; congruence|]. apply i_session0.
  - intros t' sid' oc rel. pose proof (i_mutex0 t' sid' oc rel) as Hm. upd_case t' t; simpl.
    + conn_case sid' sid; [naive_solver|done].
    + conn_case sid' sid; [|done]. rewrite Hm. naive_solver.
  - intros t' c k. specialize (i_thread0 t' c k). by upd_case t' t.
  - intros c sid' k (x & Hx & Hxmu & Hxc)%i_sessionOf0. conn_case sid' sid; [congruence|by exists x].
  - intros t' r. specialize (i_seen0 t' r). by upd_case t' t.
  - intros i Hi. destruct (i_object0 i Hi) as [Hnone ?]. split; [|done].
    rewrite lookup_insert_ne; [done|]. intros ->. congruence.
Qed.

(** The owned fields of a session do not change. *)
Lemma winv_touchSession w G Ls t sid s s' :
  winv w G Ls -> w_sessions w !! sid = Some s -> s_mu s = Some t -> s_mu s' = Some t ->
  s_conn s' = s_conn s -> s_released s' = s_released s ->
  winv (putSession sid s' w) G (upd t (Ls t) Ls).
Proof.
  intros Hw Hs Hmu Hmu' Hc Hr. eapply winv_ext; [|by eapply winv_putSession]. intros t'.
  upd_case t' t; [|done]. rewrite Hc, Hr. unfold setS. rewrite insert_id; [by destruct (Ls t)|].
  apply (i_mutex _ _ _ Hw). eauto.
Qed.

Lemma mutex_free w G Ls t sid s :
  winv w G Ls -> w_sessions w !! sid = Some s -> s_mu s = None -> ls (Ls t) !! sid = None.
Proof.
  intros Hw Hs Hmu. destruct (ls (Ls t) !! sid) as [[oc rel]|] eqn:E; [|done].
  apply (i_mutex _ _ _ Hw) in E as (s' & Hs' & Hmu' & _). congruence.
Qed.

Lemma not_mine w G Ls t c o k :
  winv w G Ls -> G !! c = Some (o, k) -> o <> OThread t -> lc (Ls t) !! c = None.
Proof.
  intros Hw HG Ho. destruct (lc (Ls t) !! c) as [k'|] eqn:E; [|done].
  apply (i_thread _ _ _ Hw) in E. congruence.
Qed.

Lemma winv_lockSession w G Ls t sid s :
  winv w G Ls -> w_sessions w !! sid = Some s -> s_mu s = None ->
  exists G', winv (putSession sid (withMu (Some t) s) w) G'
    (upd t (setS sid (s_conn s, s_released s) (addC (s_conn s) KExclusive (Ls t))) Ls).
Proof.
  intros Hw Hs Hmu. destruct (i_session _ _ _ Hw sid s Hs Hmu) as [Hshape Hconn].
  exists (match s_conn s with Some c => <[c := (OThread t, KExclusive)]> G | None => G end).
  pose proof Hw as Hw0. destruct Hw. split; simpl; try done.
  - intros c o k. destruct (s_conn s) as [c0|]; [|apply i_kind0].
    conn_case c c0; [|apply i_kind0]. intros [= <- <-]. exact (i_kind0 _ _ _ (Hconn c0 eq_refl)).
  - intros c Hn. destruct (i_fresh0 c Hn) as [Hnone Hl]. split; [|done].
    destruct (s_conn s) as [c0|]; [|done]. conn_case c c0; [|done].
    specialize (Hconn c0 eq_refl). congruence.
  - intros c p Hp. specialize (i_idle0 c p Hp). destruct (s_conn s) as [c0|]; [|done].
    conn_case c c0; [|done]. specialize (Hconn c0 eq_refl). congruence.
  - intros sid' x. conn_case sid' sid; [by intros [= <-]|]. intros Hx Hxmu.
    destruct (i_session0 sid' x Hx Hxmu) as [? Hxc]. split; [done|]. intros c Hc. specialize (Hxc c Hc).
    destruct (s_conn s) as [c0|]; [|done]. conn_case c c0; [|done].
    specialize (Hconn c0 eq_refl). congruence.
  - intros t' sid' oc rel. pose proof (i_mutex0 t' sid' oc rel) as Hm. upd_case t' t; simpl.
    + assert (ls (addC (s_conn s) KExclusive (Ls t)) = ls (Ls t)) as -> by (by destruct (s_conn s)).
      conn_case sid' sid; [|done]. split; [intros [= <- <-]; eauto 10|naive_solver].
    + conn_case sid' sid; [|done]. rewrite Hm. naive_solver.
  - intros t' c k. pose proof (i_thread0 t' c k) as Hth. upd_case t' t; simpl.
    + destruct (s_conn s) as [c0|]; [|done]. simpl. conn_case c c0; [naive_solver|done].
    + destruct (s_conn s) as [c0|]; [|done]. conn_case c c0; [|done].
      rewrite Hth, (Hconn c0 eq_refl). naive_solver.
  - intros sh o Hsh Hd. specialize (i_shared0 sh o Hsh Hd). destruct (s_conn s) as [c0|]; [|done].
    rewrite lookup_insert_ne; [done|]. intros ->. specialize (Hconn _ eq_refl). congruence.
  - intros c k. destruct (s_conn s) as [c0|]; [|apply i_pooled0]. conn_case c c0; [done|apply i_pooled0].
  - intros c sid' k HG. assert (HG' : G !! c = Some (OSession sid', k) /\ s_conn s <> Some c).
    { destruct (s_conn s) as [c0|]; [|done]. conn_case c c0; [done|]. split; [done|congruence]. }
    destruct HG' as [HG' Hne]. apply i_sessionOf0 in HG' as (x & Hx & Hxmu & Hxc).
    conn_case sid' sid; [congruence|by exists x].
  - intros c sh k. destruct (s_conn s) as [c0|]; [|apply i_sharedOf0]. conn_case c c0; [done|apply i_sharedOf0].
  - intros c Hc. destruct (s_conn s) as [c0|]; [|by apply i_accounted0].
    conn_case c c0; [right; by eexists|by apply i_accounted0].
  - intros t' r. specialize (i_seen0 t' r). upd_case t' t; [|done].
    assert (seen (setS sid (s_conn s, s_released s) (addC (s_conn s) KExclusive (Ls t))) = seen (Ls t))
      as -> by (by destruct (s_conn s)). done.
  - intros i Hi. destruct (i_object0 i Hi) as [Hnone ?]. split; [|done].
    rewrite lookup_insert_ne; [done|]. intros ->. congruence.
Qed.

Lemma winv_unlockSession w G Ls t sid s :
  winv w G Ls -> w_sessions w !! sid = Some s -> s_mu s = Some t ->
  sessionShape (s_conn s) (s_released s) ->
  (forall c, s_conn s = Some c -> lc (Ls t) !! c = Some KExclusive) ->
  exists G', winv (putSession sid (withMu None s) w) G'
    (upd t (delS sid (dropC (s_conn s) (Ls t))) Ls).
Proof.
  intros Hw Hs Hmu Hshape Hmine.
  assert (Hconn : forall c, s_conn s = Some c -> G !! c = Some (OThread t, KExclusive)).
  { intros c Hc. by apply (i_thread _ _ _ Hw), Hmine. }
  exists (match s_conn s with Some c => <[c := (OSession sid, KExclusive)]> G | None => G end).
  pose proof Hw as Hw0. destruct Hw. split; simpl; try done.
  - intros c o k. destruct (s_conn s) as [c0|]; [|apply i_kind0].
    conn_case c c0; [|apply i_kind0]. intros [= <- <-]. exact (i_kind0 _ _ _ (Hconn c0 eq_refl)).
  - intros c Hn. destruct (i_fresh0 c Hn) as [Hnone Hl]. split; [|done].
    destruct (s_conn s) as [c0|]; [|done]. conn_case c c0; [|done].
    specialize (Hconn c0 eq_refl). congruence.
  - intros c p Hp. specialize (i_idle0 c p Hp). destruct (s_conn s) as [c0|]; [|done].
    conn_case c c0; [|done]. specialize (Hconn c0 eq_refl). congruence.
  - intros sid' x. conn_case sid' sid.
    + intros [= <-] _. simpl. split; [done|]. intros c Hc. rewrite Hc. by rewrite lookup_insert_eq.
    + intros Hx Hxmu. destruct (i_session0 sid' x Hx Hxmu) as [? Hxc]. split; [done|].
      intros c Hc. specialize (Hxc c Hc). destruct (s_conn s) as [c0|]; [|done].
      conn_case c c0; [|done]. specialize (Hconn c0 eq_refl). congruence.
  - intros t' sid' oc rel. pose proof (i_mutex0 t' sid' oc rel) as Hm. upd_case t' t; simpl.
    + assert (ls (dropC (s_conn s) (Ls t)) = ls (Ls t)) as -> by (by destruct (s_conn s)).
      conn_case sid' sid; [naive_solver|done].
    + conn_case sid' sid; [|done]. rewrite Hm. naive_solver.
  - intros t' c k. pose proof (i_thread0 t' c k) as Hth. upd_case t' t; simpl.
    + destruct (s_conn s) as [c0|]; [|done]. simpl. conn_case c c0; [naive_solver|done].
    + destruct (s_conn s) as [c0|]; [|done]. conn_case c c0; [|done].
      rewrite Hth, (Hconn c0 eq_refl). naive_solver.
  - intros sh o Hsh Hd. specialize (i_shared0 sh o Hsh Hd). destruct (s_conn s) as [c0|]; [|done].
    rewrite lookup_insert_ne; [done|]. intros ->. specialize (Hconn _ eq_refl). congruence.
  - intros c k. destruct (s_conn s) as [c0|]; [|apply i_pooled0]. conn_case c c0; [done|apply i_pooled0].
  - intros c sid' k HG. destruct (decide (s_conn s = Some c)) as [Hsc|Hne].
    { rewrite Hsc, lookup_insert_eq in HG. injection HG as <- <-. rewrite lookup_insert_eq. eauto. }
    assert (HG' : G !! c = Some (OSession sid', k)).
    { destruct (s_conn s) as [c0|]; [|done]. by rewrite lookup_insert_ne in HG by congruence. }
    apply i_sessionOf0 in HG' as (x & Hx & Hxmu & Hxc).
    conn_case sid' sid; [congruence|by exists x].
  - intros c sh k. destruct (s_conn s) as [c0|]; [|apply i_sharedOf0]. conn_case c c0; [done|apply i_sharedOf0].
  - intros c Hc. destruct (s_conn s) as [c0|]; [|by apply i_accounted0].
    conn_case c c0; [right; by eexists|by apply i_accounted0].
  - intros t' r. specialize (i_seen0 t' r). upd_case t' t; [|done].
    assert (seen (delS sid (dropC (s_conn s) (Ls t))) = seen (Ls t)) as -> by (by destruct (s_conn s)).
    done.
  - intros i Hi. destruct (i_object0 i Hi) as [Hnone ?]. split; [|done].
    rewrite lookup_insert_ne; [done|]. intros ->. congruence.
Qed.

(** A connection becomes the connection of a new session object. *)
Lemma winv_newSession w G Ls t c s :
  winv w G Ls -> lc (Ls t) !! c = Some KExclusive ->
  s_mu s = None -> s_conn s = Some c -> s_released s = false ->
  winv (setObject (S (w_object w)) (putSession (w_object w) s w))
    (<[c := (OSession (w_object w), KExclusive)]> G) (upd t (delC c (Ls t)) Ls).
Proof.
  intros Hw Hc Hmu Hsc Hrel. pose proof (proj1 (i_thread _ _ _ Hw t c _) Hc) as HG.
  destruct (i_object _ _ _ Hw (w_object w) ltac:(lia)) as [Hnew _].
  destruct Hw. split; simpl; try done.
  - intros c' o k0. conn_case c' c; [|apply i_kind0]. intros [= <- <-]. exact (i_kind0 _ _ _ HG).
  - intros c' Hn. destruct (i_fresh0 c' Hn). conn_case c' c; [congruence|done].
  - intros c' p Hp. specialize (i_idle0 c' p Hp). rewrite lookup_insert_ne; [done|]. other_conn.
  - intros sid' x. conn_case sid' (w_object w).
    + intros [= <-] _. rewrite Hsc. split; [by rewrite Hrel|]. intros c' [= <-]. by rewrite lookup_insert_eq.
    + intros Hx Hxmu. destruct (i_session0 sid' x Hx Hxmu) as [? Hxc]. split; [done|].
      intros c' Hc'. specialize (Hxc c' Hc'). rewrite lookup_insert_ne; [done|]. other_conn.
  - intros t' sid' oc rel. pose proof (i_mutex0 t' sid' oc rel) as Hm.
    assert (Hx : ls (upd t (delC c (Ls t)) Ls t') = ls (Ls t')) by (by upd_case t' t).
    rewrite Hx. conn_case sid' (w_object w); [|done]. rewrite Hm. naive_solver.
  - intros t' c' k0. specialize (i_thread0 t' c' k0). upd_case t' t; simpl.
    + conn_case c' c; [naive_solver|done].
    + conn_case c' c; [rewrite i_thread0, HG; naive_solver|done].
  - intros sh o Hsh Hd. specialize (i_shared0 sh o Hsh Hd). rewrite lookup_insert_ne; [done|]. other_conn.
  - intros c' k0. conn_case c' c; [done|]. apply i_pooled0.
  - intros c' sid' k0. conn_case c' c.
    + intros [= <- <-]. rewrite lookup_insert_eq. eauto.
    + intros (x & Hx & Hxmu & Hxc)%i_sessionOf0. conn_case sid' (w_object w); [congruence|by exists x].
  - intros c' sh k0. conn_case c' c; [done|]. apply i_sharedOf0.
  - intros c' Hn. conn_case c' c; [right; by eexists|]. by apply i_accounted0.
  - intros t' r. specialize (i_seen0 t' r). by upd_case t' t.
  - intros i Hi. destruct (i_object0 i ltac:(lia)). split; [|done]. rewrite lookup_insert_ne; [done|lia].
Qed.

Lemma winv_newShared w G Ls t c :
  winv w G Ls -> lc (Ls t) !! c = Some KAdmitted ->
  winv (setObject (S (w_object w)) (setShared (<[w_object w := MkShared false c]> (w_shared w)) w))
    (<[c := (OShared (w_object w), KAdmitted)]> G) (upd t (delC c (Ls t)) Ls).
Proof.
  intros Hw Hc. pose proof (proj1 (i_thread _ _ _ Hw t c _) Hc) as HG. destruct Hw. split; simpl; try done.
  - intros c' o k0. conn_case c' c; [|apply i_kind0]. intros [= <- <-]. exact (i_kind0 _ _ _ HG).
  - intros c' Hn. destruct (i_fresh0 c' Hn). conn_case c' c; [congruence|done].
  - intros c' p Hp. specialize (i_idle0 c' p Hp). rewrite lookup_insert_ne; [done|]. other_conn.
  - intros sid s Hs Hmu. destruct (i_session0 sid s Hs Hmu) as [? Hcs]. split; [done|].
    intros c' Hc'. specialize (Hcs c' Hc'). rewrite lookup_insert_ne; [done|]. other_conn.
  - intros t' sid' oc rel. specialize (i_mutex0 t' sid' oc rel). by upd_case t' t.
  - intros t' c' k0. specialize (i_thread0 t' c' k0). upd_case t' t; simpl.
    + conn_case c' c; [naive_solver|done].
    + conn_case c' c; [rewrite i_thread0, HG; naive_solver|done].
  - intros sh o. conn_case sh (w_object w).
    + intros [= <-] _. simpl. by rewrite lookup_insert_eq.
    + intros Hsh Hd. specialize (i_shared0 sh o Hsh Hd). rewrite lookup_insert_ne; [done|]. other_conn.
  - intros c' k0. conn_case c' c; [done|]. apply i_pooled0.
  - intros c' sid' k0. conn_case c' c; [done|]. apply i_sessionOf0.
  - intros c' sh k0. conn_case c' c.
    + intros [= <- <-]. rewrite lookup_insert_eq. eauto.
    + intros (o & Ho & Hdo & Hco)%i_sharedOf0. exists o. split_and!; try done.
      rewrite lookup_insert_ne; [done|]. intros <-.
      destruct (i_object0 (w_object w) ltac:(lia)) as [_ Hx]. congruence.
  - intros c' Hn. conn_case c' c; [right; by eexists|]. by apply i_accounted0.
  - intros t' r. specialize (i_seen0 t' r). by upd_case t' t.
  - intros i Hi. destruct (i_object0 i ltac:(lia)). split; [done|]. rewrite lookup_insert_ne; [done|lia].
Qed.

Lemma winv_takeShared w G Ls t sh o :
  winv w G Ls -> w_shared w !! sh = Some o -> sh_done o = false ->
  winv (setShared (<[sh := MkShared true (sh_conn o)]> (w_shared w)) w)
    (<[sh_conn o := (OThread t, KAdmitted)]> G) (upd t (setC (sh_conn o) KAdmitted (Ls t)) Ls) /\
  lc (Ls t) !! sh_conn o = None.
Proof.
  intros Hw Ho Hd. pose proof (i_shared _ _ _ Hw sh o Ho Hd) as HG. split.
  2: by eapply not_mine.
  eapply winv_receive; simpl; try done.
  - intros t' k. rewrite HG. naive_solver.
  - exact (i_kind _ _ _ Hw _ _ _ HG).
  - destruct (decide (w_next w <= sh_conn o)%nat) as [Hle|]; [|lia].
    apply (i_fresh _ _ _ Hw) in Hle as [Hle _]. congruence.
  - intros c p Hp. split; [|done]. intros ->. apply (i_idle _ _ _ Hw) in Hp. congruence.
  - intros sid s Hs Hmu Hc. destruct (i_session _ _ _ Hw sid s Hs Hmu) as [_ Hcs].
    apply Hcs in Hc. congruence.
  - intros sh' o'. conn_case sh' sh; [by intros [= <-]|]. intros Ho' Hd'. split; [|done].
    intros E. apply (i_shared _ _ _ Hw) in Ho'; [|done]. rewrite E in Ho'. congruence.
  - intros i Hi. destruct (i_object _ _ _ Hw i Hi) as [? Hn]. split; [done|].
    rewrite lookup_insert_ne; [done|]. intros ->. congruence.
  - intros sh' o' Ho' Hd' Hne. conn_case sh' sh; [congruence|done].
  - auto.
Qed.

(** *** A connection ends on the server *)
Lemma locksOf_drop c c' w : locksOf c' (dropConn c w) = if decide (c' = c) then [] else locksOf c' w.
Proof.
  unfold locksOf, dropConn. simpl. induction (w_locks w) as [|[x m] l IH]; simpl.
  { by destruct (decide (c' = c)). }
  destruct (x =? c)%nat eqn:E; simpl.
  - apply Nat.eqb_eq in E as ->. rewrite IH. destruct (decide (c' = c)) as [->|Hne]; [done|].
    by rewrite (proj2 (Nat.eqb_neq c c')) by congruence.
  - destruct (x =? c')%nat eqn:E'; [|exact IH].
    rewrite !fmap_cons, IH. destruct (decide (c' = c)) as [->|Hne]; [congruence|done].
Qed.

Lemma winv_dropConn c w G Ls : winv w G Ls -> winv (dropConn c w) G Ls.
Proof.
  intros Hw.
  assert (Hself : c ∈ w_dead (dropConn c w)) by (apply elem_of_union_l, elem_of_singleton; done).
  assert (Hmono : forall x, x ∈ w_dead w -> x ∈ w_dead (dropConn c w))
    by (intros x Hx; by apply elem_of_union_r).
  destruct Hw. split; try done.
  - intros c1 m1 c2 m2. unfold dropConn. simpl.
    intros [H1 _]%list_elem_of_In%filter_In [H2 _]%list_elem_of_In%filter_In.
    apply (i_locks0 c1 m1 c2 m2); by apply list_elem_of_In.
  - intros c'. rewrite locksOf_drop. destruct (decide (c' = c)); [done|].
    intros [Hc'%elem_of_singleton|Hc']%elem_of_union; [done|]. by apply i_dead0.
  - intros c' o k Hk. pose proof (i_kind0 c' o k Hk) as Hok. unfold kindOk in *. rewrite locksOf_drop.
    destruct (decide (c' = c)) as [->|Hne]; [destruct k; auto|].
    destruct k; [done|done|destruct Hok; auto..|done].
  - intros c' Hn. destruct (i_fresh0 c' Hn) as [? Hl]. split; [done|]. rewrite locksOf_drop.
    by destruct (decide (c' = c)).
Qed.

(** ** Soundness of the specifications *)
Lemma raw_driver ch : driverError (raw ch) = true.
Proof. unfold raw. destruct (ch_fail ch) as [e|]; [|done]. by destruct (driverError e) eqn:E. Qed.

Lemma usable_alive c w : usable c w = true -> c ∉ w_dead w.
Proof. unfold usable. intros H. bool_simpl. done. Qed.

(** *** The connections of locked sessions *)
Lemma bound_setC c k L : bound L -> unbound c L -> bound (setC c k L).
Proof.
  intros [Hb Hi] Hc. split; [|exact Hi]. simpl. intros sid c' rel Hs. conn_case c' c; [|by eapply Hb].
  by apply Hc in Hs.
Qed.

Lemma bound_delC c L : bound L -> unbound c L -> bound (delC c L).
Proof.
  intros [Hb Hi] Hc. split; [|exact Hi]. simpl. intros sid c' rel Hs. conn_case c' c; [|by eapply Hb].
  by apply Hc in Hs.
Qed.

Lemma bound_saw db L : bound L -> bound (saw db L).
Proof. unfold saw. by destruct (modes db). Qed.

Lemma bound_setS sid oc rel L :
  bound L -> (forall c, oc = Some c -> lc L !! c = Some KExclusive) ->
  (forall c sid' rel', oc = Some c -> ls L !! sid' = Some (Some c, rel') -> sid' = sid) ->
  bound (setS sid (oc, rel) L).
Proof.
  intros [Hb Hi] Hc Hu. split; simpl.
  - intros sid' c rel'. conn_case sid' sid; [|by apply Hb]. intros [= -> <-]. by apply Hc.
  - intros s1 s2 c r1 r2. conn_case s1 sid; conn_case s2 sid; try done; [| |by apply Hi].
    + intros [= -> <-] H2. by apply Hu in H2.
    + intros H1 [= -> <-]. by apply Hu in H1.
Qed.

(** A session keeps its connection. *)
Lemma bound_touch sid oc rel rel' L :
  bound L -> ls L !! sid = Some (oc, rel) -> bound (setS sid (oc, rel') L).
Proof.
  intros Hb Hs. apply bound_setS; [done|..]; intros; subst; [by eapply Hb|by eapply Hb].
Qed.

Lemma bound_lock sid oc rel L :
  bound L -> (forall c, oc = Some c -> absent c L) -> bound (setS sid (oc, rel) (addC oc KExclusive L)).
Proof.
  intros Hb Hno. apply bound_setS; destruct oc as [c|]; simpl; try done.
  - apply bound_setC; [done|by apply Hno].
  - intros c' [= <-]. by rewrite lookup_insert_eq.
  - intros c' sid' rel' [= <-] Hs. by apply (Hno c eq_refl) in Hs.
Qed.

Lemma bound_unlock sid oc rel L :
  bound L -> ls L !! sid = Some (oc, rel) -> bound (delS sid (dropC oc L)).
Proof.
  intros [Hb Hi] Hs. assert (Hls : ls (dropC oc L) = ls L) by (by destruct oc). split; simpl; rewrite Hls.
  - intros sid' c rel'. conn_case sid' sid; [done|]. intros Hs'. destruct oc as [c0|]; [|by eapply Hb].
    simpl. conn_case c c0; [|by eapply Hb]. by rewrite (Hi _ _ _ _ _ Hs Hs') in *.
  - intros s1 s2 c r1 r2. conn_case s1 sid; conn_case s2 sid; try done. apply Hi.
Qed.

#[local] Hint Resolve bound_setC bound_delC bound_saw bound_touch bound_lock bound_unlock : go.

(** Every action keeps it. *)
Lemma admitRead_bound c k db L : bound L -> lc L !! c = Some k -> bound (admitRead c k db L).
Proof.
  intros Hb Hc. unfold admitRead. destruct k; try done. destruct (normalDB db); [|done].
  apply bound_setC; [done|by eapply bound_unbound].
Qed.

Lemma aspec_bound {R} L (a : Act R) (Q : R -> Local -> Prop) :
  bound L -> aspec L a Q -> aspec L a (fun r L' => bound L' /\ Q r L').
Proof.
  intros Hb Ha.
  assert (Hfree : forall c k, lc L !! c = Some k -> k <> KExclusive -> unbound c L)
    by (intros c k; by apply bound_unbound).
  destruct a; simpl in Ha |- *; try (destruct_and?; split_and?; eauto 10 with go; fail).
  - destruct Ha as [? Hs]. split; [by split|]. intros c Hc. split; [by apply bound_setC, Hc|by apply Hs].
  - destruct Ha as (oc & rel & Hl & ? & ? & ?). exists oc, rel. eauto 10 with go.
  - destruct Ha as (oc & rel & Hl & ?). exists oc, rel. eauto.
  - destruct Ha as (oc & rel & Hl & Hc & ?). exists oc, rel. split_and!; try done.
    apply bound_setS; [done|by intros; eapply Hc|]. intros c0 sid' rel' -> Hs.
    by destruct (proj2 (Hc c0 eq_refl) _ _ Hs).
  - destruct Ha as (oc & rel & Hl & ?). exists oc, rel. eauto 10 with go.
  - destruct Ha as (oc & rel & Hl & ?). exists oc, rel. eauto 10 with go.
  - destruct Ha as (oc & rel & Hl & ?). exists oc, rel. eauto 10 with go.
  - destruct Ha as [? Hs]. split; [eauto|]. intros c Hc. split; [by apply bound_setC, Hc|by apply Hs].
  - destruct Ha as [Hc ?]. split; [done|]. split; [|done]. apply bound_delC; [done|].
    destruct Hc as [Hc|Hc]; by eapply Hfree.
  - destruct Ha as (k & Hc & Hk & Hu & ? & ? & ?). exists k. split_and!; auto with go.
  - destruct Ha as (k & Hc & ? & ?). exists k. split_and!; eauto using bound_saw, admitRead_bound.
  - destruct Ha as (Hc & ? & Hbody). split_and!; eauto. intros e env t db n db' ending He Ht Hdb Htx.
    destruct (Hbody e env t db n db' ending He Ht Hdb Htx). eauto using bound_saw.
Qed.

(** The claim of soundness for one action. *)
Definition sound {R} (pid t : nat) (ch : Choice) (a : Act R) (w : World)
    (G : gmap nat (Owner * Kind)) (Ls : nat -> Local) (Q : R -> Local -> Prop) : Prop :=
  forall r w', perform pid t ch a w = Some (r, w') ->
    exists G' L', winv w' G' (upd t L' Ls) /\ Q r L'.

(** Actions that touch nothing the invariant looks at. *)
Lemma sound_same w w' G Ls t {R} (r : R) (Q : R -> Local -> Prop) :
  winv w G Ls -> sameCore w w' -> Q r (Ls t) -> exists G' L', winv w' G' (upd t L' Ls) /\ Q r L'.
Proof. intros Hw Hs HQ. exists G, (Ls t). split; [|done]. by apply winv_self, (winv_same w). Qed.

Lemma sound_lock pid t ch c m w G Ls Q :
  winv w G Ls -> aspec (Ls t) (AdvisoryLock c m) Q -> sound pid t ch (AdvisoryLock c m) w G Ls Q.
Proof.
  intros Hw (Hc & Hok & Herr) r w' Hp. simpl in Hp.
  pose proof (i_kind _ _ _ Hw c _ _ (proj1 (i_thread _ _ _ Hw t c _) Hc)) as Hfree. simpl in Hfree.
  destruct (ch_fail ch) eqn:Hf.
  - injection Hp as <- <-.
    pose proof (winv_same _ _ _ _ (sameCore_shutIf (ch_broken ch) c w) Hw) as Hw1.
    eexists _, _. split; [|apply Herr, raw_driver].
    destruct (ch_broken ch && ch_applied ch && usable c w && grantable c m w) eqn:Hg.
    + bool_simpl. rewrite H in *. eapply (winv_grant (shutIf true c w)); try done.
      * change (c ∉ w_dead w). by apply usable_alive.
      * left. apply elem_of_union_l, elem_of_singleton. done.
    + eapply winv_kind; [done..|]. right. by destruct (ch_broken ch).
  - destruct (usable c w && grantable c m w) eqn:Hg; [|done]. bool_simpl. injection Hp as <- <-.
    eexists _, _. split; [|exact Hok]. eapply winv_grant; try done; [by apply usable_alive|].
    pose proof (locksOf_grant w c m Hfree). destruct m; by right.
Qed.

Lemma sound_unlock pid t ch c m w G Ls Q :
  winv w G Ls -> aspec (Ls t) (AdvisoryUnlock c m) Q -> sound pid t ch (AdvisoryUnlock c m) w G Ls Q.
Proof.
  intros Hw (k & Hc & Hk & _ & Htrue & Hfalse & Herr) r w' Hp. simpl in Hp.
  pose proof (i_kind _ _ _ Hw c _ _ (proj1 (i_thread _ _ _ Hw t c _) Hc)) as Hkind.
  destruct (ch_fail ch) eqn:Hf.
  - injection Hp as <- <-. eexists _, _. split; [|apply Herr, raw_driver].
    pose proof (winv_same _ _ _ _ (sameCore_shutIf (ch_broken ch) c w) Hw) as Hw1.
    destruct (ch_broken ch && ch_applied ch && usable c w) eqn:Hg.
    + bool_simpl. rewrite H in *. by eapply (winv_unlock (shutIf true c w)).
    + by eapply winv_kind.
  - destruct (usable c w) eqn:Hu; [|done]. injection Hp as <- <-.
    apply usable_alive in Hu. pose proof (holdsKind_locks m k c w Hk Hkind Hu) as Hl.
    assert (holds c m w = true) as ->.
    { unfold holds. apply bool_decide_eq_true_2, locksOf_elem. rewrite Hl. by apply list_elem_of_singleton. }
    eexists _, _. split; [|exact Htrue]. eapply winv_unlock; try done. by apply locksOf_unlock.
Qed.

Lemma history_current w G Ls r : winv w G Ls -> modes (w_db w) = Some r -> r ∈ w_history w.
Proof. intros Hw. apply (i_row _ _ _ Hw). Qed.

Lemma sound_query {A} pid t ch c (q : DB ModeDB StoreErr A) w G Ls Q :
  winv w G Ls -> aspec (Ls t) (Query c q) Q -> sound pid t ch (Query c q) w G Ls Q.
Proof.
  intros Hw (k & Hc & Herr & Hok) r w' Hp. simpl in Hp. destruct (ch_fail ch) eqn:Hf.
  - injection Hp as <- <-. eapply sound_same; [done|apply sameCore_shutIf|]. apply Herr, raw_driver.
  - destruct (usable c w) eqn:Hu; [|done]. injection Hp as <- <-. apply usable_alive in Hu.
    assert (Hadm : exists G', winv w G' (upd t (admitRead c k (w_db w) (Ls t)) Ls)).
    { unfold admitRead. destruct k; try (exists G; by apply winv_self).
      destruct (normalDB (w_db w)) eqn:Hn; [|exists G; by apply winv_self].
      eexists. eapply winv_kind; try done.
      pose proof (i_kind _ _ _ Hw c _ _ (proj1 (i_thread _ _ _ Hw t c _) Hc)) as Hk.
      destruct Hk as [?|Hk]; [done|]. by right. }
    destruct Hadm as [G' Hadm]. eexists G', _. split; [|apply Hok].
    apply winv_saw; [done|]. intros r Hr. by eapply history_current.
Qed.

Lemma sound_transaction {E A} pid t ch c (begin : StoreErr -> E) (body : StoreErr -> DB ModeDB E A) w G Ls Q :
  winv w G Ls -> aspec (Ls t) (Transaction c begin body) Q ->
  sound pid t ch (Transaction c begin body) w G Ls Q.
Proof.
  intros Hw (Hc & Herr & Hok) r w' Hp. unfold perform in Hp. cbv beta iota zeta in Hp.
  destruct (usable c w) eqn:Hu.
  - destruct (transaction _ _ _ _) as [[n db'] ending] eqn:Ht. injection Hp as <- <-.
    destruct (Hok (raw ch) (envAt ch w) (w_clock w) (w_db w) n db' ending (raw_driver ch)
      (fun _ => eq_refl) (i_check _ _ _ Hw) Ht) as (Hrow & HQ).
    eexists G, _. split; [|exact HQ]. eapply winv_same; [apply sameCore_shutIf|].
    apply usable_alive in Hu.
    assert (Hw1 : winv (setDB db' w) G Ls).
    { apply winv_db; [done|by eapply rowStep_ok, i_check|]. intros Hn. right.
      exists c. split; [done|].
      pose proof (i_kind _ _ _ Hw c _ _ (proj1 (i_thread _ _ _ Hw t c _) Hc)) as Hk.
      destruct Hk as [?|?]; done. }
    destruct (setDB_history db' w) as [l Hh].
    apply winv_saw; [apply winv_saw; [by apply winv_self|]|].
    + intros r Hr. rewrite Hh. apply elem_of_app. left. by eapply history_current.
    + intros r Hr. apply setDB_current; [|done]. intros. by eapply history_current.
  - injection Hp as <- <-. eapply sound_same; [done|apply sameCore_shutIf|]. apply Herr, raw_driver.
Qed.

Lemma sound_lockSession {R} (t sid : nat) w G Ls (r0 : R) (Q : R -> Local -> Prop) s :
  winv w G Ls -> bound (Ls t) -> w_sessions w !! sid = Some s -> s_mu s = None ->
  (forall oc rel, ls (Ls t) !! sid = None -> sessionShape oc rel ->
     (forall c, oc = Some c -> absent c (Ls t)) ->
     Q r0 (setS sid (oc, rel) (addC oc KExclusive (Ls t)))) ->
  exists G' L', winv (putSession sid (withMu (Some t) s) w) G' (upd t L' Ls) /\ Q r0 L'.
Proof.
  intros Hw Hb Hs Hmu HQ. destruct (i_session _ _ _ Hw sid s Hs Hmu) as [Hshape Hconn].
  destruct (winv_lockSession w G Ls t sid s Hw Hs Hmu) as [G' Hw'].
  exists G'. eexists. split; [exact Hw'|]. apply HQ.
  - by eapply mutex_free.
  - done.
  - intros c Hc. apply bound_absent; [done|]. eapply not_mine; [done|by apply Hconn|done].
Qed.

Lemma mutex_owner w G Ls t sid oc rel :
  winv w G Ls -> ls (Ls t) !! sid = Some (oc, rel) ->
  exists s, w_sessions w !! sid = Some s /\ s_mu s = Some t /\ s_conn s = oc /\ s_released s = rel.
Proof. intros Hw. apply (i_mutex _ _ _ Hw). Qed.

(** An update of a session whose mutex the goroutine holds. *)
Lemma sound_onSession {R} (t sid : nat) w G Ls (f : Session -> option (R * Session)) (Q : R -> Local -> Prop) oc rel r w' :
  winv w G Ls -> ls (Ls t) !! sid = Some (oc, rel) ->
  (forall s r s', s_mu s = Some t -> s_conn s = oc -> s_released s = rel -> f s = Some (r, s') ->
     s_mu s' = Some t /\ Q r (setS sid (s_conn s', s_released s') (Ls t))) ->
  onSession sid w f = Some (r, w') -> exists G' L', winv w' G' (upd t L' Ls) /\ Q r L'.
Proof.
  intros Hw Hl Hf Hp. destruct (mutex_owner _ _ _ _ _ _ _ Hw Hl) as (s & Hs & Hmu & Hc & Hr).
  unfold onSession in Hp. rewrite Hs in Hp. destruct (f s) as [[r' s']|] eqn:Hfs; [|done].
  injection Hp as <- <-. destruct (Hf s r' s' Hmu Hc Hr Hfs) as [Hmu' HQ].
  eexists G, _. split; [by eapply winv_putSession|done].
Qed.

Lemma setS_same sid oc rel L : ls L !! sid = Some (oc, rel) -> setS sid (oc, rel) L = L.
Proof. intros H. unfold setS. rewrite insert_id by done. by destruct L. Qed.

Ltac same_world := eapply sound_same; [eassumption|solve [auto with core_same]|naive_solver].

(** The actions on parts of the world the invariant does not look at. *)
Definition plain {R} (a : Act R) : bool :=
  match a with
  | CtxErr | Admit | Done_ | LifecycleErr | LookupSession _ | CloseStore | WaitAdmissions
  | ListSessions | ForgetSession _ _ | ConnIsClosed _ | RoundTrip _ => true
  | _ => false
  end.

Lemma sound_plain {R} pid t ch (a : Act R) w G Ls Q :
  plain a = true -> winv w G Ls -> aspec (Ls t) a Q -> sound pid t ch a w G Ls Q.
Proof.
  intros Hplain Hw Ha r w' Hp. pose proof (raw_driver ch). destruct a; try discriminate Hplain; simpl in *; unfold ctxOutcome in *;
    repeat case_match; simplify_eq/=; try done; same_world.
Qed.

Lemma perform_sound {R} pid t ch (a : Act R) w G Ls Q :
  winv w G Ls -> bound (Ls t) -> aspec (Ls t) a Q -> sound pid t ch a w G Ls Q.
Proof.
  intros Hw Hb Ha. pose proof (fun c => bound_absent c _ Hb) as Habsent. destruct a; try (by apply sound_plain).
  - intros r w' Hp. simpl in Hp, Ha. pose proof (raw_driver ch) as Hd.
    repeat (case_match; simplify_eq/=); try done; [same_world|].
    match goal with H : (_ =? 32)%nat = true |- _ => apply Nat.eqb_eq in H end. same_world.
  - destruct Ha as (Hc & _ & Herr & Hok). intros r w' Hp. simpl in Hp. unfold registerLeaseSession in Hp.
    destruct (closed (storeOf pid w)); injection Hp as <- <-; [same_world|].
    eexists _, _. split; [|exact Hok].
    eapply (winv_newSession (setStore pid _ w)); [by eapply winv_same, Hw; apply sameCore_store|done..].
  - destruct Ha as (Hc & Herr & Hok). intros r w' Hp. simpl in Hp.
    destruct (closed (storeOf pid w)); injection Hp as <- <-; [same_world|].
    eexists _, _. split; [|apply Hok].
    eapply (winv_newShared (setStore pid _ w)); [by eapply winv_same, Hw; apply sameCore_store|done].
  - destruct Ha as (Hnone & Hsome). intros r w' Hp. simpl in Hp.
    destruct (w_shared w !! sh) as [o|] eqn:Ho; [|done].
    destruct (sh_done o) eqn:Hd; injection Hp as <- <-; [same_world|].
    pose proof (winv_same _ (setStore pid (MkStore (sessions (storeOf pid w))
      (if bool_decide (sharedSessions (storeOf pid w) !! id = Some sh)
       then delete id (sharedSessions (storeOf pid w)) else sharedSessions (storeOf pid w))
      (nextSharedID (storeOf pid w)) (closed (storeOf pid w)) (admitted (storeOf pid w))) w)
      _ _ (sameCore_store _ _ _) Hw) as Hw1.
    destruct (winv_takeShared _ _ _ t sh o Hw1 Ho Hd) as [Hw2 Hn].
    eexists _, _. split; [exact Hw2|by apply Hsome, Habsent].
  - destruct Ha as (Herr & Hok). intros r w' Hp. simpl in Hp. unfold onSession, lockMutexContext in Hp.
    destruct (w_sessions w !! sid) as [s|] eqn:Hs; [|done].
    destruct (s_mu s) as [t'|] eqn:Hmu.
    + destruct (ch_fail ch); [|done]. injection Hp as <- <-.
      eapply (sound_same w); [done| |exact Herr]. split; simpl; try done. by rewrite insert_id.
    + injection Hp as <- <-. by eapply sound_lockSession.
  - intros r w' Hp. simpl in Hp, Ha. unfold onSession in Hp.
    destruct (w_sessions w !! sid) as [s|] eqn:Hs; [|done].
    destruct (s_mu s) as [t'|] eqn:Hmu; [done|]. injection Hp as <- <-. by eapply sound_lockSession.
  - destruct Ha as (oc & rel & Hl & Hshape & Hmine & HQ). intros r w' Hp. simpl in Hp.
    destruct (mutex_owner _ _ _ _ _ _ _ Hw Hl) as (s & Hs & Hmu & <- & <-).
    unfold onSession in Hp. rewrite Hs in Hp. injection Hp as <- <-.
    destruct (winv_unlockSession w G Ls t sid s Hw Hs Hmu Hshape Hmine) as [G' Hw'].
    exists G'. eexists. by split.
  - destruct Ha as (oc & rel & Hl & HQ). intros r w' Hp. eapply sound_onSession; [done..| |exact Hp].
    intros s r' s' Hmu Hc Hr [= <- <-]. split; [done|]. rewrite Hc, Hr, setS_same by done. by apply HQ.
  - destruct Ha as (oc & rel & Hl & _ & HQ). intros r w' Hp. eapply sound_onSession; [done..| |exact Hp].
    intros s r' s' Hmu Hc Hr [= <- <-]. simpl. by rewrite Hr.
  - destruct Ha as (oc & rel & Hl & HQ). intros r w' Hp. simpl in Hp.
    destruct (mutex_owner _ _ _ _ _ _ _ Hw Hl) as (s & Hs & Hmu & Hc & Hr). rewrite Hs in Hp.
    destruct (s_released s) eqn:Hrel; injection Hp as <- <-.
    + exists G, (Ls t). split; [by apply winv_self|]. subst rel. by rewrite setS_same in HQ.
    + eexists G, _. split; [|exact HQ]. rewrite <- Hc.
      eapply (winv_putSession _ _ _ _ _ s (released s)); try done.
      eapply winv_same, Hw. apply sameCore_store.
  - destruct Ha as (oc & rel & Hl & HQ). intros r w' Hp. eapply sound_onSession; [done..| |exact Hp].
    intros s r' s' Hmu Hc Hr [= <- <-]. simpl. by rewrite Hc.
  - destruct Ha as (oc & rel & Hl & HQ). intros r w' Hp. eapply sound_onSession; [done..| |exact Hp].
    intros s r' s' Hmu Hc Hr [= <- <-]. simpl. by rewrite Hc, Hr, setS_same.
  - destruct Ha as (Herr & Hok). intros r w' Hp. simpl in Hp. pose proof (raw_driver ch).
    destruct (ch_fail ch); [injection Hp as <- <-; same_world|]. destruct (ch_reuse ch) as [c|].
    + case_bool_decide as Hi; [|done]. injection Hp as <- <-.
      destruct (winv_reuse _ _ _ t c pid Hw Hi) as [Hw1 Hn]. eexists _, _. split; [exact Hw1|by apply Hok, Habsent].
    + injection Hp as <- <-. destruct (winv_fresh _ _ _ t Hw) as [Hw1 Hn].
      eexists _, _. split; [exact Hw1|by apply Hok, Habsent].
  - destruct Ha as (Hc & HQ). intros r w' Hp. simpl in Hp. injection Hp as <- <-.
    assert (Hx : exists k, lc (Ls t) !! c = Some k /\ (c ∈ w_shut w \/ locksOf c w = [])).
    { destruct Hc as [Hc|Hc]; eexists; (split; [exact Hc|]);
        pose proof (i_kind _ _ _ Hw c _ _ (proj1 (i_thread _ _ _ Hw t c _) Hc)) as Hk; simpl in Hk;
        [by right|done]. }
    destruct Hx as (k & Hck & Hk). case_bool_decide as Hs.
    + eexists _, _. split; [|exact HQ]. by eapply winv_drop.
    + destruct Hk as [?|Hk]; [done|]. eexists _, _. split; [|exact HQ]. by eapply winv_release.
  - destruct Ha as ([k Hc] & _ & HQ). intros r w' Hp. simpl in Hp. injection Hp as <- <-.
    eexists _, _. split; [|exact HQ]. eapply winv_drop; [|done|].
    + eapply winv_same; [apply sameCore_shut|done].
    + apply elem_of_union_l. by apply elem_of_singleton.
  - by apply sound_lock.
  - by apply sound_unlock.
  - by apply sound_query.
  - destruct Ha as (Herr & Hok). intros r w' Hp. simpl in Hp. pose proof (raw_driver ch).
    destruct (ch_fail ch); injection Hp as <- <-; [same_world|].
    exists G. eexists. split; [|apply Hok]. apply winv_saw; [by apply winv_self|].
    intros r Hr. by eapply history_current.
  - by apply sound_transaction.
Qed.
