(* ===== verification/LeaseSafety.v ===== *)
(** * Maintenance leases: every operation respects ownership

    Each program of [LeaseStore] is [safe] from a goroutine that owns nothing: it
    uses only connections and sessions it owns, and ends owning nothing.  The
    postconditions also say what a successful result means in terms of the rows
    that were read. *)

From S2P Require Import Prelude GoTime GoText Pg OpsModel AlertStore AuditLog LeaseStore LeaseProofs.
From stdpp Require Import base tactics list gmap strings.
From Stdlib Require Import ZArith Lia.

Open Scope Z_scope.

(** ** Possessions while a session is locked *)
Definition moreSeen (l : list ModeRow) (L : Local) : Local := MkLocal (lc L) (ls L) (l ++ seen L).

Definition holding (sid : nat) (oc : option nat) (rel : bool) (l : list ModeRow) (L0 : Local) : Local :=
  moreSeen l (setS sid (oc, rel) (addC oc KExclusive L0)).

(** The connection is neither the goroutine's nor that of a session it has
    locked, apart from [sid]. *)
Definition apart (sid c : nat) (L0 : Local) : Prop :=
  lc L0 !! c = None /\ forall sid' rel, sid' <> sid -> ls L0 !! sid' <> Some (Some c, rel).

(** The connection of the session was not the goroutine's before. *)
Definition notOwned (sid : nat) (oc : option nat) (L0 : Local) : Prop :=
  forall c, oc = Some c -> apart sid c L0.

Lemma absent_lc c L : absent c L -> lc L !! c = None.
Proof. by intros []. Qed.

Lemma apart_lc sid c L : apart sid c L -> lc L !! c = None.
Proof. by intros []. Qed.

#[local] Hint Extern 0 (lc _ !! _ = None) => (eapply absent_lc; eassumption) : core.
#[local] Hint Extern 0 (lc _ !! _ = None) => (eapply apart_lc; eassumption) : core.

Lemma absent_notOwned sid oc L : (forall c, oc = Some c -> absent c L) -> notOwned sid oc L.
Proof. intros Hno c Hc. destruct (Hno c Hc) as [? Hu]. split; [done|]. intros sid' rel _. apply Hu. Qed.

Lemma moreSeen_nil L : moreSeen [] L = L.
Proof. by destruct L. Qed.

Lemma moreSeen_app l l' L : moreSeen l (moreSeen l' L) = moreSeen (l ++ l') L.
Proof. unfold moreSeen. simpl. by rewrite app_assoc. Qed.

Lemma saw_more db L : saw db L = moreSeen (match modes db with Some r => [r] | None => [] end) L.
Proof. unfold saw. destruct (modes db); [done|by destruct L]. Qed.

Lemma lookup_holding sid oc rel l L0 : ls (holding sid oc rel l L0) !! sid = Some (oc, rel).
Proof. unfold holding. simpl. by rewrite lookup_insert_eq. Qed.

Lemma owns_holding sid c rel l L0 : lc (holding sid (Some c) rel l L0) !! c = Some KExclusive.
Proof. unfold holding. simpl. by rewrite lookup_insert_eq. Qed.

Lemma setS_holding sid oc rel l L0 v :
  setS sid v (holding sid oc rel l L0) = moreSeen l (setS sid v (addC oc KExclusive L0)).
Proof.
  unfold holding, setS, moreSeen. simpl. f_equal. by rewrite insert_insert_eq.
Qed.

Lemma delC_added c k L : lc L !! c = None -> delC c (setC c k L) = L.
Proof. intros Hn. unfold delC, setC. simpl. rewrite delete_insert_id by done. by destruct L. Qed.

Lemma delC_setC c k L : delC c (setC c k L) = delC c L.
Proof. unfold delC, setC. simpl. by rewrite delete_insert_eq. Qed.

Lemma delC_none c L : lc L !! c = None -> delC c L = L.
Proof. intros Hn. unfold delC. rewrite delete_id by done. by destruct L. Qed.

Lemma setC_delC c k L : lc L !! c = Some k -> setC c k (delC c L) = L.
Proof. intros Hn. unfold delC, setC. simpl. rewrite insert_delete_eq, insert_id by done. by destruct L. Qed.

Lemma lookup_delC c L : lc (delC c L) !! c = None.
Proof. simpl. by rewrite lookup_delete_eq. Qed.

(** Sessions and connections are kept apart. *)
Lemma unbound_holding c sid rel l L0 k :
  apart sid c L0 -> unbound c (moreSeen l (setS sid (None, rel) (setC c k L0))).
Proof. intros [_ Hu] sid' rel'. simpl. conn_case sid' sid; [done|by apply Hu]. Qed.

Lemma holding_apart c sid rel l L0 : absent c (holding sid None rel l L0) -> apart sid c L0.
Proof.
  intros [Hc Hu]. split; [done|]. intros sid' rel' Hne Hs. apply (Hu sid' rel'). simpl.
  by rewrite lookup_insert_ne.
Qed.

Lemma unbound_moreC c l k L0 : absent c L0 -> unbound c (moreSeen l (setC c k L0)).
Proof. by intros [_ Hu]. Qed.

Lemma absent_delC c L : unbound c L -> absent c (delC c L).
Proof. intros Hu. split; [apply lookup_delete_eq|done]. Qed.

Lemma lookup_setC c k L : lc (setC c k L) !! c = Some k.
Proof. simpl. by rewrite lookup_insert_eq. Qed.

Lemma setC_setC c k k' L : setC c k (setC c k' L) = setC c k L.
Proof. unfold setC. simpl. by rewrite insert_insert_eq. Qed.

(** One action of a program, or its end. *)
Lemma safe_vis {A R} (a : Act R) (k : R -> Prog A) L Post :
  aspec L a (fun r L' => safe (k r) L' Post) -> safe (Vis a k) L Post.
Proof. done. Qed.

Lemma safe_ret {A} (a : A) L (Post : A -> Local -> Prop) : Post a L -> safe (Ret a) L Post.
Proof. done. Qed.

Ltac vis := first [apply safe_vis; cbn [aspec] | apply safe_ret].

(** ** Small programs *)
Section Small.
Context {A : Type}.

Lemma safe_failWith e L (Post : result StoreErr A -> Local -> Prop) :
  Post (Err e) L -> Post (Err EClosed) L -> safe (failWith e) L Post.
Proof. intros H1 H2. simpl. intros []; done. Qed.

Lemma safe_whileAdmitted (body : Prog (result StoreErr A)) L (Post : result StoreErr A -> Local -> Prop) :
  Post (Err EClosed) L -> safe body L Post -> safe (whileAdmitted body) L Post.
Proof. intros H1 H2. simpl. split; [done|]. apply safe_bind. simpl. eapply safe_mono; [exact H2|done]. Qed.

Lemma safe_thenClose c (p : Prog A) L (Post : A -> Local -> Prop) :
  safe p L (fun r L' => is_Some (lc L' !! c) /\ unbound c L' /\ Post r (delC c L')) -> safe (thenClose c p) L Post.
Proof. intros Hp. apply safe_bind. eapply safe_mono; [exact Hp|]. simpl. done. Qed.

End Small.

Lemma safe_releaseConnection m c k L (Post : unit -> Local -> Prop) :
  lc L !! c = Some k -> holdsKind m k = true -> unbound c L -> Post tt (delC c L) ->
  safe (releaseConnection m c) L Post.
Proof.
  intros Hc Hk Hu HP. simpl. exists k. simpl.
  rewrite !lookup_insert_eq, !delC_setC. split_and!; try done; eauto.
Qed.

(** ** The state of the lease *)
Definition stateOf (st : leaseDBState) (r : ModeRow) : Prop :=
  st_mode st = row_mode r /\ st_owner st = row_owner r /\ st_hash st = row_hash r /\
  st_expires st = row_expires r /\ st_version st = row_version r.

Lemma leaseStateQuery_value env db :
  match modes db with
  | None => value leaseStateQuery env db = Err ENoRows
  | Some r => exists st, value leaseStateQuery env db = Ok st /\ stateOf st r
  end.
Proof.
  unfold value, leaseStateQuery, dbind, dget, serverNow, dret, dfail. simpl.
  destruct (modes db) as [r|]; simpl; [|done]. eexists. split; [done|]. by split_and!.
Qed.

Definition fine (e : StoreErr) : Prop := e <> ENilDereference.

Lemma driver_fine e : driverError e = true -> fine e.
Proof. by intros H ->. Qed.

Lemma mapLeaseError_fine e : fine e -> fine (mapLeaseError e).
Proof. unfold fine. destruct e; simpl; repeat case_match; congruence. Qed.

#[local] Hint Resolve driver_fine mapLeaseError_fine : go.

Lemma admit_exclusive c db L : admitRead c KExclusive db L = L.
Proof. done. Qed.

Lemma safe_queryState c L (Post : result StoreErr leaseDBState -> Local -> Prop) :
  lc L !! c = Some KExclusive ->
  (forall r st, stateOf st r -> Post (Ok st) (moreSeen [r] L)) ->
  (forall e, fine e -> Post (Err e) L) ->
  safe (queryLeaseDBState c) L Post.
Proof.
  intros Hc Hok Herr. simpl. exists KExclusive. split_and!; [done|eauto with go|].
  intros env db. rewrite admit_exclusive, saw_more. pose proof (leaseStateQuery_value env db) as Hv.
  destruct (modes db) as [r|].
  - destruct Hv as (st & -> & Hst). by apply Hok.
  - rewrite Hv, moreSeen_nil. by apply Herr.
Qed.

Lemma safe_authoritative conn L (Post : option nat * result StoreErr leaseDBState -> Local -> Prop) :
  lc L !! conn = Some KExclusive -> unbound conn L ->
  (forall c r st, absent c (delC conn L) -> stateOf st r ->
     Post (Some c, Ok st) (moreSeen [r] (setC c KExclusive (delC conn L)))) ->
  (forall e, fine e -> Post (None, Err e) (delC conn L)) ->
  safe (authoritativeLeaseState conn) L Post.
Proof.
  intros Hc Hu Hok Herr. apply safe_bind. apply safe_queryState; [done| |].
  - intros r st Hst. simpl. rewrite <- (setC_delC conn KExclusive L) by done.
    apply Hok; [by apply absent_delC|done].
  - intros e He. vis. split; [by eexists|]. split; [done|]. vis. split; [intros e' He'; vis; eauto with go|].
    intros c Hn. vis. split_and!; [by rewrite lookup_setC| |].
    + apply safe_bind. apply safe_queryState; [apply lookup_setC| |].
      * intros r st Hst. vis. rewrite setC_setC. by apply Hok.
      * intros e' He'. apply safe_bind.
        eapply safe_releaseConnection; [apply lookup_setC|done|exact (proj2 Hn)|]. vis.
        rewrite !delC_setC, delC_none by done. by apply Herr.
    + intros e' He'. vis. rewrite lookup_setC. split; [by eexists|]. split; [exact (proj2 Hn)|].
      rewrite !delC_setC, delC_none by done. vis. eauto with go.
Qed.

(** A result without a nil dereference. *)
Definition fineResult {A} (r : result StoreErr A) : Prop :=
  match r with Err e => fine e | Ok _ => True end.

Lemma fine_closed : fine EClosed. Proof. done. Qed.
Lemma fine_ctx : fine ECtx. Proof. done. Qed.
Lemma fine_ops e : fine (EOps e). Proof. done. Qed.
#[local] Hint Resolve fine_closed fine_ctx fine_ops : go.

(** Error exits that leave the possessions as they were on entry. *)
Lemma safe_fail {A} e L (Post : result StoreErr A -> Local -> Prop) :
  fine e -> (forall r, fineResult r -> is_ok r = false -> Post r L) -> safe (failWith e) L Post.
Proof. intros He HP. apply safe_failWith; apply HP; done. Qed.

(** ** The write gate *)
Lemma admit_shared c db L :
  admitRead c KShared db L = if normalDB db then setC c KAdmitted L else L.
Proof. done. Qed.

Lemma modeTextQuery_value env db :
  value modeTextQuery env db = match modes db with Some r => Ok (row_mode r) | None => Err ENoRows end.
Proof. unfold value, modeTextQuery, dbind, dget. simpl. by destruct (modes db). Qed.

Lemma saw_setC db c k L : saw db (setC c k L) = setC c k (saw db L).
Proof. unfold saw. by destruct (modes db). Qed.

(** Giving back the shared lock leaves what was owned without the connection. *)
Lemma safe_giveBack c k L0 (Post : unit -> Local -> Prop) l :
  absent c L0 -> (k = KShared \/ k = KAdmitted) -> Post tt (moreSeen l L0) ->
  safe (releaseSharedConnection c) (moreSeen l (setC c k L0)) Post.
Proof.
  intros Hn Hk HP. eapply safe_releaseConnection with (k := k); [apply lookup_setC| |by apply unbound_moreC|].
  - by destruct Hk as [->| ->].
  - change (delC c (moreSeen l (setC c k L0))) with (moreSeen l (delC c (setC c k L0))).
    by rewrite delC_added.
Qed.

(** A round trip whose result does not matter. *)
Lemma safe_roundTrip {A} c (k : Prog A) L Post :
  is_Some (lc L !! c) -> safe k L Post -> safe (act _ <- RoundTrip c; k) L Post.
Proof. intros Hc Hk. vis. split_and!; auto. Qed.

Lemma safe_connRelease {A} c kd (k : Prog A) L0 l Post :
  absent c L0 -> (kd = KFree \/ kd = KMaybe) -> safe k (moreSeen l L0) Post ->
  safe (act _ <- ConnRelease c; k) (moreSeen l (setC c kd L0)) Post.
Proof.
  intros Hn Hkd Hk. vis. split.
  - change (lc (moreSeen l (setC c kd L0))) with (lc (setC c kd L0)). rewrite lookup_setC.
    destruct Hkd as [->| ->]; auto.
  - change (delC c (moreSeen l (setC c kd L0))) with (moreSeen l (delC c (setC c kd L0))).
    by rewrite delC_added.
Qed.

Lemma safe_connClose {A} c kd (k : Prog A) L0 l Post :
  absent c L0 -> safe k (moreSeen l L0) Post ->
  safe (act _ <- ConnClose c; k) (moreSeen l (setC c kd L0)) Post.
Proof.
  intros Hn Hk. vis. split.
  - change (lc (moreSeen l (setC c kd L0))) with (lc (setC c kd L0)). rewrite lookup_setC. by eexists.
  - split; [by apply unbound_moreC|].
    change (delC c (moreSeen l (setC c kd L0))) with (moreSeen l (delC c (setC c kd L0))).
    by rewrite delC_added.
Qed.

Lemma lookup_moreC c k l L0 : lc (moreSeen l (setC c k L0)) !! c = Some k.
Proof. apply lookup_setC. Qed.

Lemma owned_setC c k l L0 : is_Some (lc (moreSeen l (setC c k L0)) !! c).
Proof. change (is_Some (lc (setC c k L0) !! c)). rewrite lookup_setC. by eexists. Qed.
#[local] Hint Resolve owned_setC : go.

Lemma safe_AcquireShared L (Post : result StoreErr (N * nat) -> Local -> Prop) :
  (forall r l, fineResult r -> Post r (moreSeen l L)) -> safe AcquireShared L Post.
Proof.
  intros HP. rewrite <- (moreSeen_nil L).
  apply safe_whileAdmitted; [by apply HP|]. vis. split.
  { intros e He. apply safe_fail; auto with go. }
  intros c Hn. change (setC c KFree (moreSeen [] L)) with (moreSeen [] (setC c KFree L)).
  change (absent c L) in Hn. vis. split; [auto with go|]. split.
  2: { intros e He. eapply safe_connRelease; auto with go. apply safe_fail; auto with go. }
  vis. split; [auto with go|]. split.
  2: { intros e He. apply safe_roundTrip; [auto with go|]. eapply safe_connRelease; auto with go.
       apply safe_fail; auto with go. }
  vis. split; [apply lookup_moreC|]. split.
  2: { intros e He. change (setC c KMaybe (moreSeen [] (setC c KFree L)))
         with (moreSeen [] (setC c KMaybe (setC c KFree L))). rewrite setC_setC.
       apply safe_roundTrip; [auto with go|]. eapply safe_connRelease; auto with go.
       destruct (admissionLockTimedOut e); [vis; by apply HP|apply safe_fail; auto with go]. }
  change (setC c (lockKind LockShared) (moreSeen [] (setC c KFree L)))
    with (moreSeen [] (setC c KShared (setC c KFree L))). rewrite setC_setC.
  vis. exists KShared. split_and!; [apply lookup_moreC| |].
  { intros e He. apply safe_roundTrip; [auto with go|]. apply safe_bind.
    apply safe_giveBack; auto. destruct (bool_decide (e = ENoRows)); [vis; by apply HP|].
    apply safe_fail; auto with go. }
  intros env db. rewrite modeTextQuery_value, admit_shared, saw_more. unfold normalDB.
  destruct (modes db) as [r|].
  2: { rewrite moreSeen_app. apply safe_roundTrip; [auto with go|]. apply safe_bind.
       apply safe_giveBack; auto. vis. by apply HP. }
  unfold isNormal. case_bool_decide as Hm.
  - cbn [negb].
    change (setC c KAdmitted (moreSeen [] (setC c KShared L)))
      with (moreSeen [] (setC c KAdmitted (setC c KShared L))). rewrite setC_setC, moreSeen_app. vis.
    split; [auto with go|]. split.
    2: { intros e He. eapply safe_connClose; auto. apply safe_fail; auto with go. }
    vis. split; [apply lookup_moreC|]. split.
    + apply safe_bind. apply safe_giveBack; auto. vis. by apply HP.
    + intros x. change (delC c (moreSeen ([r] ++ []) (setC c KAdmitted L)))
        with (moreSeen ([r] ++ []) (delC c (setC c KAdmitted L))). rewrite delC_added by done. vis. by apply HP.
  - cbn [negb]. rewrite moreSeen_app.
    apply safe_roundTrip; [auto with go|]. apply safe_bind. apply safe_giveBack; auto. vis. by apply HP.
Qed.

Lemma safe_releaseShared id sh L (Post : unit -> Local -> Prop) :
  Post tt L -> safe (releaseSharedSession id sh) L Post.
Proof.
  intros HP. vis. split; [done|]. intros c Hn.
  rewrite <- (moreSeen_nil (setC c KAdmitted L)). apply safe_giveBack; auto.
  by rewrite moreSeen_nil.
Qed.

(** ** Sessions *)
Lemma safe_readSession {A} sid oc rel (k : Session -> Prog A) L Post :
  ls L !! sid = Some (oc, rel) ->
  (forall s, s_conn s = oc -> s_released s = rel -> safe (k s) L Post) ->
  safe (act s <- ReadSession sid; k s) L Post.
Proof. intros Hl Hk. vis. eauto. Qed.

Lemma holding_set sid oc rel oc' rel' l L0 :
  setS sid (oc', rel') (holding sid oc rel l L0) = moreSeen l (setS sid (oc', rel') (addC oc KExclusive L0)).
Proof. apply setS_holding. Qed.

(** Releasing the session leaves it released and without a connection. *)
Lemma safe_releaseSession h sid oc l L0 (Post : unit -> Local -> Prop) :
  notOwned sid oc L0 -> Post tt (holding sid None true l L0) ->
  safe (releaseSessionLocked h sid) (holding sid oc false l L0) Post.
Proof.
  intros Hno HP. eapply safe_readSession; [apply lookup_holding|]. intros s Hc Hr. rewrite Hr, Hc.
  vis. exists oc, false. split; [apply lookup_holding|]. split; [done|]. rewrite holding_set.
  vis. exists None, false. split; [simpl; by rewrite lookup_insert_eq|].
  change (setS sid (None, true) (moreSeen l (setS sid (None, false) (addC oc KExclusive L0))))
    with (moreSeen l (setS sid (None, true) (setS sid (None, false) (addC oc KExclusive L0)))).
  assert (Hss : forall v v' L, setS sid v (setS sid v' L) = setS sid v L).
  { intros v v' L. unfold setS. simpl. by rewrite insert_insert_eq. }
  rewrite Hss. destruct oc as [c|]; [|by vis].
  eapply safe_releaseConnection with (k := KExclusive);
    [simpl; by rewrite lookup_insert_eq|done|by apply unbound_holding, Hno|].
  change (delC c (moreSeen l (setS sid (None, true) (addC (Some c) KExclusive L0))))
    with (moreSeen l (setS sid (None, true) (delC c (setC c KExclusive L0)))).
  rewrite delC_added by (by apply Hno). exact HP.
Qed.

(** Reading the authoritative state of a session: its connection may have
    changed, or be gone. *)
Lemma safe_authoritativeSession sid c l L0 (Post : result StoreErr leaseDBState -> Local -> Prop) :
  apart sid c L0 ->
  (forall c' r st, apart sid c' L0 -> stateOf st r ->
     Post (Ok st) (holding sid (Some c') false (r :: l) L0)) ->
  (forall e, fine e -> Post (Err e) (holding sid None false l L0)) ->
  safe (authoritativeLeaseSessionStateLocked sid) (holding sid (Some c) false l L0) Post.
Proof.
  intros Hn Hok Herr. eapply safe_readSession; [apply lookup_holding|]. intros s Hc Hr. rewrite Hc.
  vis. exists (Some c), false. split; [apply lookup_holding|]. split; [done|]. rewrite holding_set. apply safe_bind.
  assert (Hdel : delC c (moreSeen l (setS sid (None, false) (addC (Some c) KExclusive L0)))
    = holding sid None false l L0).
  { change (moreSeen l (setS sid (None, false) (delC c (setC c KExclusive L0)))
      = holding sid None false l L0). by rewrite delC_added. }
  apply safe_authoritative; [simpl; by rewrite lookup_insert_eq|by apply unbound_holding| |]; rewrite Hdel.
  - intros c' r st Hc' Hst. vis. exists None, false.
    split; [simpl; by rewrite lookup_insert_eq|].
    split; [intros x [= <-]; split; [apply lookup_moreC|exact (proj2 Hc')]|].
    apply holding_apart in Hc'. vis.
    replace (setS sid (Some c', false) (moreSeen [r] (setC c' KExclusive (holding sid None false l L0))))
      with (holding sid (Some c') false (r :: l) L0); [by apply Hok|].
    unfold holding, setS, setC, moreSeen. simpl. by rewrite insert_insert_eq.
  - intros e He. vis. exists None, false. split; [apply lookup_holding|]. split; [done|]. vis.
    replace (setS sid (None, false) (holding sid None false l L0)) with (holding sid None false l L0);
      [by apply Herr|]. by rewrite holding_set.
Qed.

Lemma removed_holding sid oc rel l L0 : setS sid (oc, true) (holding sid oc rel l L0) = holding sid oc true l L0.
Proof. by rewrite holding_set. Qed.

Lemma safe_removeSession {A} h sid oc rel (k : Prog A) l L0 Post :
  safe k (holding sid oc true l L0) Post ->
  safe (act _ <- RemoveSession h sid; k) (holding sid oc rel l L0) Post.
Proof.
  intros Hk. vis. exists oc, rel. split; [apply lookup_holding|]. by rewrite removed_holding.
Qed.

Lemma safe_schedule {A} sid oc rel (k : Prog A) l L0 Post :
  safe k (holding sid oc rel l L0) Post ->
  safe (act _ <- ScheduleExpiry sid; k) (holding sid oc rel l L0) Post.
Proof. intros Hk. vis. exists oc, rel. split; [apply lookup_holding|done]. Qed.

(** The form of a goroutine's possessions at the end of a critical section. *)
Definition settled (sid : nat) (L0 L : Local) : Prop :=
  exists oc rel l, L = holding sid oc rel l L0 /\ sessionShape oc rel /\ notOwned sid oc L0.

Lemma settled_released sid l L0 : settled sid L0 (holding sid None true l L0).
Proof. exists None, true, l. by split_and!. Qed.

Lemma settled_live sid c l L0 : apart sid c L0 -> settled sid L0 (holding sid (Some c) false l L0).
Proof. exists (Some c), false, l. split_and!; [done|by eexists|]. by intros c' [= <-]. Qed.

#[local] Hint Resolve settled_released settled_live : go.

(** Recovery: the session is live again, or settled with an error. *)
Lemma safe_recover h sid lease original c l L0 (Post : result StoreErr unit -> Local -> Prop) :
  apart sid c L0 -> fine original ->
  (forall c' l', apart sid c' L0 -> Post (Ok tt) (holding sid (Some c') false l' L0)) ->
  (forall e L, fine e -> settled sid L0 L -> Post (Err e) L) ->
  safe (recoverLeaseSessionLocked h sid lease original) (holding sid (Some c) false l L0) Post.
Proof.
  intros Hn Ho Hok Herr. apply safe_bind. apply safe_authoritativeSession; [done| |].
  - intros c' r st Hc' Hst. eapply safe_readSession; [apply lookup_holding|]. intros s Hs _. rewrite Hs.
    assert (notOwned sid (Some c') L0) by (intros x [= <-]; done).
    destruct (_ || _); [apply safe_bind, safe_releaseSession; [done|vis; auto with go]|].
    apply safe_schedule. vis. auto.
  - intros e He. eapply safe_readSession; [apply lookup_holding|]. intros s Hs _. rewrite Hs.
    apply safe_removeSession. vis. auto with go.
Qed.

(** ** Transactions *)
Lemma transaction_cases {S E A} (eBegin : E) (body : DB S E A) env db n db' ending :
  transaction eBegin body env (0%nat, db) = ((n, db'), ending) ->
  match ending with
  | RolledBack e => db' = db /\ (e = eBegin \/ exists st, body env (1%nat, db) = (st, Err e))
  | Committed a => exists m, body env (1%nat, db) = ((m, db'), Ok a)
  | CommitLost a => exists m db1, body env (1%nat, db) = ((m, db1), Ok a) /\ (db' = db1 \/ db' = db)
  end.
Proof.
  unfold transaction. destruct (fault env 0); [intros [= _ <- <-]; auto|].
  destruct (body env (1%nat, db)) as [[m s] [a|e]]; [|intros [= _ <- <-]; eauto].
  destruct (fault env m); intros [= _ <- <-]; [|eauto].
  exists m, s. split; [done|]. destruct (fault env _); auto.
Qed.

Lemma databaseNow_run {S E B} (e : E) (k : Time -> DB S E B) env n (s : S) :
  dbind (databaseNow e) k env (n, s) =
  if fault env n then ((Datatypes.S n, s), Err e) else k (MkTime (dbclock env n) None) env (Datatypes.S n, s).
Proof. unfold dbind, databaseNow. by destruct (fault env n). Qed.

Lemma call_cases {S E B} (e : E) (k : unit -> DB S E B) env n (s : S) :
  dbind (roundtrip e) k env (n, s) =
  if fault env n then ((Datatypes.S n, s), Err e) else k tt env (Datatypes.S n, s).
Proof. unfold dbind, roundtrip. by destruct (fault env n). Qed.

Section Bodies.
Context `{PgTime} `{UUIDText}.

Lemma Write_modes {E} (failed : Audit.Error -> E) ev env n (db : ModeDB) st r :
  Audit.Write failed ev env (n, db) = (st, r) -> modes (snd st) = modes db.
Proof.
  unfold Audit.Write. destruct (Audit.validateAndMarshal ev); [|by intros [= <- _]].
  unfold dbind, databaseNow, dget, dput. destruct (fault env n); by intros [= <- _].
Qed.

(** The row before and after, when the acquiring transaction goes through. *)
Definition acquired (request : LeaseRequest) (token h : list Z) (t : Z) (r : ModeRow) (db' : ModeDB)
    (lease : Lease) : Prop :=
  (isNormal r = true \/ unexpired (row_expires r) (MkTime t None) = false) /\
  modes db' = Some (acquireRow request h (MkTime t None) r) /\
  modeRowCheck (acquireRow request h (MkTime t None) r) = true /\
  t < ns (RequestExpiresAt request) /\
  lease = MkLease (RequestMode request) (RequestOwnerID request) token
            (pg (RequestExpiresAt request)) (row_version r + 1).

Lemma acquireBody_Ok request token h e env t n db st lease :
  (forall n, dbclock env n = t) ->
  acquireBody request token h e env (n, db) = (st, Ok lease) ->
  exists r, modes db = Some r /\ acquired request token h t r (snd st) lease.
Proof.
  intros Ht. unfold acquireBody. rewrite call_cases. destruct (fault env n); [done|].
  rewrite dget_run. destruct (modes db) as [r|] eqn:Hr; [|done]. rewrite databaseNow_run, Ht.
  destruct (fault env (S n)); [done|].
  destruct (negb (After _ _)) eqn:Ha; [done|]. destruct (_ && _) eqn:Hheld; [done|].
  rewrite call_cases. destruct (fault env _); [done|].
  destruct (negb (modeRowCheck _)) eqn:Hck; [done|]. bool_simpl. intros Hb.
  exists r. split; [done|]. unfold dbind at 1 in Hb. unfold dput in Hb. cbv beta iota in Hb.
  apply dbind_Ok in Hb as (st1 & u & Haud & Hret). apply dret_Ok in Hret as [-> ->].
  assert (Hm : modes (snd st1) = Some (acquireRow request h (MkTime t None) r)).
  { destruct (negb (isNormal r)); [by apply Write_modes in Haud|]. by apply dret_Ok in Haud as [-> _]. }
  split_and!; try done; [|by apply After_spec in Ha].
  destruct (isNormal r); [by left|right]. exact Hheld.
Qed.

Lemma acquireBody_Err request token h e env n db st err :
  fine e -> acquireBody request token h e env (n, db) = (st, Err err) ->
  exists e', fine e' /\ (err = APlain e' \/ err = AMapped e').
Proof.
  intros He. unfold acquireBody. rewrite call_cases.
  destruct (fault env n); [intros [= _ <-]; eauto with go|].
  rewrite dget_run. destruct (modes db) as [r|]; [|intros [= _ <-]; eauto with go].
  rewrite databaseNow_run. destruct (fault env (S n)); [intros [= _ <-]; eauto with go|].
  destruct (negb (After _ _)); [intros [= _ <-]; eauto with go|].
  destruct (_ && _); [intros [= _ <-]; eauto with go|].
  rewrite call_cases. destruct (fault env _); [intros [= _ <-]; eauto with go|].
  destruct (negb (modeRowCheck _)); [intros [= _ <-]; eauto with go|].
  unfold dbind at 1, dput. cbv beta iota. unfold dbind.
  destruct (negb (isNormal r)); [|done]. unfold Audit.Write.
  destruct (Audit.validateAndMarshal _); [|intros [= _ <-]; eauto with go].
  unfold dbind, databaseNow, dget, dput, dret. destruct (fault env _); [intros [= _ <-]; eauto with go|done].
Qed.

Lemma normalDB_some db r : modes db = Some r -> normalDB db = isNormal r.
Proof. unfold normalDB. by intros ->. Qed.

Lemma maintenance_not_normal m : maintenanceMode m = true -> bool_decide (m = "normal") = false.
Proof.
  unfold maintenanceMode, member. intros Hm. bool_simpl. apply bool_decide_eq_false_2. intros ->.
  repeat (apply elem_of_cons in Hm as [?|Hm]; [done|]). by apply elem_of_nil in Hm.
Qed.

Lemma acquired_rowStep request token h t r db db' lease :
  maintenanceMode (RequestMode request) = true -> modes db = Some r ->
  acquired request token h t r db' lease -> rowStep t (modes db) (modes db').
Proof.
  intros Hm Hr (Hwas & -> & Hck & _ & _). rewrite Hr. apply row_taken; try done.
  unfold isNormal. simpl. by apply maintenance_not_normal.
Qed.

(** Renewal and transition. *)
Definition mutated (h : list Z) (lease : Lease) (mode : string) (expiresAt : Time) (transition : bool)
    (t : Z) (r : ModeRow) (db' : ModeDB) (updated : Lease) : Prop :=
  row_owner r = Some (LeaseOwnerID lease) /\ row_hash r = Some h /\
  unexpired (row_expires r) (MkTime t None) = true /\ t < ns expiresAt /\
  modes db' = Some (mutateRow transition mode expiresAt r) /\
  modeRowCheck (mutateRow transition mode expiresAt r) = true /\
  updated = MkLease (row_mode (mutateRow transition mode expiresAt r)) (LeaseOwnerID lease)
              (LeaseToken lease) (pg expiresAt) (row_version r + 1).

Lemma owns_spec o x id h : owns o x id h = true <-> o = Some id /\ x = Some h.
Proof. unfold owns. rewrite andb_true_iff, !bool_decide_eq_true. done. Qed.

Lemma mutateBody_Ok h lease mode expiresAt transition e env t n db st updated :
  (forall n, dbclock env n = t) ->
  mutateBody h lease mode expiresAt transition e env (n, db) = (st, Ok updated) ->
  exists r, modes db = Some r /\ mutated h lease mode expiresAt transition t r (snd st) updated.
Proof.
  intros Ht. unfold mutateBody. rewrite call_cases. destruct (fault env n); [done|].
  rewrite dget_run. destruct (modes db) as [r|] eqn:Hr; [|done]. rewrite databaseNow_run, Ht.
  destruct (fault env (S n)); [done|].
  destruct (negb (owns _ _ _ _)) eqn:Ho; [done|]. destruct (negb (unexpired _ _)) eqn:Hu; [done|].
  destruct (negb (After _ _)) eqn:Ha; [done|]. rewrite call_cases. destruct (fault env _); [done|].
  destruct (negb (modeRowCheck _)) eqn:Hck; [done|]. bool_simpl. apply owns_spec in Ho as [Ho Hh].
  unfold dbind, dput, dret. intros [= <- <-]. exists r. split; [done|].
  split_and!; try done. by apply After_spec in Ha.
Qed.

Lemma mutateBody_Err h lease mode expiresAt transition e env n db st err :
  fine e -> mutateBody h lease mode expiresAt transition e env (n, db) = (st, Err err) ->
  match err with MFailed e' => fine e' | _ => True end.
Proof.
  intros He. unfold mutateBody. rewrite call_cases.
  destruct (fault env n); [by intros [= _ <-]|].
  rewrite dget_run. destruct (modes db) as [r|]; [|by intros [= _ <-]].
  rewrite databaseNow_run. destruct (fault env (S n)); [by intros [= _ <-]|].
  destruct (negb (owns _ _ _ _)); [by intros [= _ <-]|].
  destruct (negb (unexpired _ _)); [by intros [= _ <-]|].
  destruct (negb (After _ _)); [by intros [= _ <-]|].
  rewrite call_cases. destruct (fault env _); [by intros [= _ <-]|].
  destruct (negb (modeRowCheck _)); by intros [= _ <-].
Qed.

(** A row with an owner is not normal. *)
Lemma check_owner r : modeRowCheck r = true -> (row_owner r = None <-> isNormal r = true).
Proof.
  unfold modeRowCheck, isNormal. intros Hc. bool_simpl. case_bool_decide; bool_simpl; [done|].
  split; [|done]. intros Hx. congruence.
Qed.

Definition cleared (owner : UUID) (h : list Z) (r : ModeRow) (db' : ModeDB) : Prop :=
  row_owner r = Some owner /\ row_hash r = Some h /\ modes db' = Some (normalRow r) /\
  modeRowCheck (normalRow r) = true.

Lemma clearBody_Ok owner h lt e env n db st u :
  clearBody owner h lt e env (n, db) = (st, Ok u) ->
  exists r, modes db = Some r /\ cleared owner h r (snd st).
Proof.
  unfold clearBody. unfold dbind at 1.
  assert (Hpre : forall m, (if lt then roundtrip (ClearFailed e) else dret tt) env (m, db) =
    if lt then (if fault env m then ((S m, db), Err (ClearFailed e)) else ((S m, db), Ok tt))
    else ((m, db), Ok tt)) by (by destruct lt).
  rewrite Hpre. set (m := if lt then S n else n).
  destruct lt; [destruct (fault env n); [done|]|]; rewrite call_cases;
    destruct (fault env _); try done; rewrite dget_run;
    (destruct (modes db) as [r|] eqn:Hr; [|done]);
    (destruct (negb (owns _ _ _ _)) eqn:Ho; [done|]); rewrite call_cases;
    destruct (fault env _); try done;
    (destruct (negb (modeRowCheck _)) eqn:Hck; [done|]); bool_simpl;
    apply owns_spec in Ho as [Ho Hh]; unfold dput; intros [= <- _]; exists r; by split_and!.
Qed.

Lemma clearBody_Err owner h lt e env n db st err :
  fine e -> clearBody owner h lt e env (n, db) = (st, Err err) ->
  match err with ClearFailed e' => fine e' | _ => True end.
Proof.
  intros He. unfold clearBody, dbind, roundtrip, dget, dput, dret, dfail. intros Hb.
  destruct lt; repeat case_match; simplify_eq/=; done.
Qed.

End Bodies.

(** A transaction, by what its body does. *)
Lemma safe_tx {E A B} c (begin : StoreErr -> E) (body : StoreErr -> DB ModeDB E A)
    (kont : Ending E A * StoreErr -> Prog B) L Post :
  lc L !! c = Some KExclusive ->
  (forall e l, driverError e = true -> safe (kont (RolledBack (begin e), e)) (moreSeen l L) Post) ->
  (forall e env n db st err l, driverError e = true -> body e env (n, db) = (st, Err err) ->
     safe (kont (RolledBack err, e)) (moreSeen l L) Post) ->
  (forall e env t n db st a, driverError e = true -> (forall n, dbclock env n = t) -> dbOk db ->
     body e env (n, db) = (st, Ok a) ->
     rowStep t (modes db) (modes (snd st)) /\
     (forall ending l, ending = Committed a \/ ending = CommitLost a ->
        (forall r, modes db = Some r -> r ∈ l) -> safe (kont (ending, e)) (moreSeen l L) Post)) ->
  safe (Vis (Transaction c begin body) kont) L Post.
Proof.
  intros Hc Hbegin Herr Hok. vis. split_and!; [done| |].
  { intros e He. rewrite <- (moreSeen_nil L). by apply Hbegin. }
  intros e env t db n db' ending He Ht Hdb Htx. apply transaction_cases in Htx.
  rewrite !saw_more, moreSeen_app.
  assert (Hin : forall x r, modes db = Some r -> r ∈ x ++ match modes db with Some r => [r] | None => [] end).
  { intros x r ->. apply elem_of_app. right. by apply list_elem_of_singleton. }
  destruct ending as [a|a|err].
  - destruct Htx as (m & Hb). destruct (Hok _ _ _ _ _ _ _ He Ht Hdb Hb) as (Hrow & Hk).
    split_and!; try done. apply Hk; auto.
  - destruct Htx as (m & db1 & Hb & Hor). destruct (Hok _ _ _ _ _ _ _ He Ht Hdb Hb) as (Hrow & Hk).
    destruct Hor as [->| ->]; (split_and!; [done || constructor|apply Hk; auto]).
  - destruct Htx as [-> Hor]. split_and!; [constructor|].
    destruct Hor as [->|[st Hb]]; [by apply Hbegin|by eapply Herr].
Qed.

Section Programs.
Context `{PgTime} `{UUIDText} (sha256 : list Z -> list Z).

Lemma cleared_step owner h t db db' r :
  dbOk db -> modes db = Some r -> cleared owner h r db' ->
  rowStep t (modes db) (modes db') /\ normalDB db' = true.
Proof.
  unfold dbOk. intros Hdb Hr (Ho & Hh & Hm & Hck). rewrite Hr in *. rewrite Hm. split; [|by unfold normalDB; rewrite Hm].
  apply row_cleared; try done. destruct (isNormal r) eqn:Hn; [|done].
  apply (check_owner r Hdb) in Hn. congruence.
Qed.

Lemma safe_normalize c owner h L (Post : result StoreErr unit -> Local -> Prop) :
  lc L !! c = Some KExclusive -> (forall r l, fineResult r -> Post r (moreSeen l L)) ->
  safe (normalizeOwnedLease c owner h) L Post.
Proof.
  intros Hc HP. eapply safe_tx; [exact Hc|..].
  - intros e l He. vis. apply HP. by apply driver_fine.
  - intros e env n db st err l He Hb. apply clearBody_Err in Hb; [|by apply driver_fine].
    destruct err; vis; by apply HP.
  - intros e env t n db st a He Ht Hdb Hb. apply clearBody_Ok in Hb as (r & Hr & Hcl).
    destruct (cleared_step _ _ t _ _ _ Hdb Hr Hcl) as [Hrow Hn]. split; [done|].
    intros ending l [->| ->] _; vis; apply HP; [done|by apply driver_fine].
Qed.

(** *** Acquiring *)

(** What a successful lease says of a row of the history. *)
Definition leaseRow (lease : Lease) (r : ModeRow) : Prop :=
  row_mode r = LeaseMode lease /\ row_owner r = Some (LeaseOwnerID lease) /\
  row_hash r = Some (sha256 (LeaseToken lease)) /\
  (exists t, row_expires r = Some t /\ ns t = ns (LeaseExpiresAt lease)) /\
  row_version r = LeaseVersion lease.

Lemma settled_state_lease st r lease h :
  stateOf st r -> ownedBy st (LeaseOwnerID lease) h = true -> matchesLease st lease = true ->
  h = sha256 (LeaseToken lease) -> leaseRow (stateLease lease st) r /\
  LeaseMode (stateLease lease st) = LeaseMode lease /\
  LeaseVersion (stateLease lease st) = LeaseVersion lease /\
  ns (LeaseExpiresAt (stateLease lease st)) = ns (LeaseExpiresAt lease).
Proof.
  intros (Hm & Ho & Hh & He & Hv) Hown Hmatch ->. apply owns_spec in Hown as [Hown Hhash].
  unfold matchesLease in Hmatch. bool_simpl. unfold leaseRow, stateLease. simpl.
  destruct (st_expires st) as [t|] eqn:Hst; [|done]. unfold Equal in *. bool_simpl. simpl.
  split_and!; try congruence. exists t. split; [congruence|done].
Qed.

Lemma safe_settleAcquire conn h lease lost L (Post : result StoreErr Lease -> Local -> Prop) l :
  absent conn L -> h = sha256 (LeaseToken lease) ->
  (forall e, lost = Some e -> fine e) ->
  (forall e l, fine e -> Post (Err e) (moreSeen l L)) ->
  (forall lease' r l, leaseRow lease' r -> LeaseOwnerID lease' = LeaseOwnerID lease ->
     LeaseToken lease' = LeaseToken lease -> LeaseMode lease' = LeaseMode lease ->
     ns (LeaseExpiresAt lease') = ns (LeaseExpiresAt lease) ->
     r ∈ l -> Post (Ok lease') (moreSeen l L)) ->
  safe (settleAcquire conn h lease lost) (moreSeen l (setC conn KExclusive L)) Post.
Proof.
  intros Hn Hh Hlost Herr Hok. apply safe_bind.
  assert (Hdel : delC conn (moreSeen l (setC conn KExclusive L)) = moreSeen l L).
  { change (moreSeen l (delC conn (setC conn KExclusive L)) = moreSeen l L). by rewrite delC_added. }
  apply safe_authoritative; [apply lookup_moreC|by apply unbound_moreC| |]; rewrite Hdel.
  - intros c r st Hc Hst.
    change (moreSeen [r] (setC c KExclusive (moreSeen l L)))
      with (moreSeen ([r] ++ l) (setC c KExclusive L)).
    change (absent c L) in Hc.
    destruct (negb (ownedBy _ _ _) || _) eqn:Hmis.
    + apply safe_thenClose.
      assert (HPe : forall e, fine e -> safe (Ret (Err e)) (moreSeen ([r] ++ l) (setC c KExclusive L))
        (fun r0 L' => is_Some (lc L' !! c) /\ unbound c L' /\ Post r0 (delC c L'))).
      { intros e He. vis. split; [auto with go|]. split; [by apply unbound_moreC|].
        change (Post (Err e) (moreSeen ([r] ++ l) (delC c (setC c KExclusive L)))).
        rewrite delC_added by done. by apply Herr. }
      destruct lost as [e|]; [|by apply HPe].
      specialize (Hlost e eq_refl). apply safe_failWith; apply HPe; auto with go.
    + bool_simpl. destruct (settled_state_lease st r lease h) as (Hrow & Hm & Hv & He); try done.
      vis. split; [apply lookup_moreC|]. split; [by apply unbound_moreC|]. split.
      * apply safe_bind. eapply safe_normalize; [apply lookup_moreC|]. intros r0 l0 _.
        change (moreSeen l0 (moreSeen ([r] ++ l) (setC c KExclusive L))) with
          (MkLocal (lc (setC c KExclusive L)) (ls L) (l0 ++ ([r] ++ l) ++ seen L)).
        rewrite app_assoc. change (MkLocal (lc (setC c KExclusive L)) (ls L) ((l0 ++ [r] ++ l) ++ seen L))
          with (moreSeen (l0 ++ [r] ++ l) (setC c KExclusive L)).
        apply safe_connClose; [done|]. vis. by apply Herr.
      * change (delC c (moreSeen ([r] ++ l) (setC c KExclusive L)))
          with (moreSeen ([r] ++ l) (delC c (setC c KExclusive L))).
        rewrite delC_added by done. vis. eapply Hok; try done. set_solver.
  - intros e He. apply safe_failWith; [|by apply Herr]. apply Herr.
    destruct lost as [e'|]; simpl; auto with go.
Qed.

Definition acquirePost (request : LeaseRequest) (r : result StoreErr Lease) (rows : list ModeRow) : Prop :=
  match r with
  | Err e => fine e
  | Ok lease => (exists row, row ∈ rows /\ leaseRow lease row) /\
      LeaseMode lease = RequestMode request /\ LeaseOwnerID lease = RequestOwnerID request /\
      length (LeaseToken lease) = 32%nat /\
      ns (LeaseExpiresAt lease) = stored (ns (RequestExpiresAt request))
  end.

Lemma preflightQuery_value env db :
  match value preflightQuery env db with Err e => fine e | Ok _ => True end.
Proof.
  unfold value, preflightQuery, dbind, dget, serverNow, dret, dfail. simpl.
  destruct (modes db) as [r|]; [|done]. by destruct (_ && _).
Qed.

Lemma safe_AcquireLease request L (Post : result StoreErr Lease -> Local -> Prop) :
  (forall r l, acquirePost request r l -> Post r (moreSeen l L)) ->
  safe (AcquireLease sha256 request) L Post.
Proof.
  intros HP. unfold AcquireLease. rewrite <- (moreSeen_nil L).
  assert (Herr : forall e l, fine e -> Post (Err e) (moreSeen l L)) by (intros; by apply HP).
  destruct (_ || _) eqn:Hreq; [vis; by apply Herr|]. bool_simpl.
  apply safe_whileAdmitted; [by apply Herr|]. apply safe_bind. vis. split.
  { intros e He. vis. apply safe_failWith; apply Herr; auto with go. }
  intros env db. pose proof (preflightQuery_value env db) as Hpre.
  rewrite saw_more, moreSeen_app. set (l := _ ++ []).
  destruct (value preflightQuery env db) as [[]|e]; vis; [|apply safe_failWith; apply Herr; auto with go].
  split; [intros e He; vis; auto with go|]. intros token Htoken. cbv zeta.
  vis. split; [intros e He; apply safe_failWith; apply Herr; auto with go|].
  intros c Hn. change (absent c L) in Hn.
  change (setC c KFree (moreSeen l L)) with (moreSeen l (setC c KFree L)).
  vis. split; [apply lookup_moreC|]. split.
  2: { intros e He. change (setC c KMaybe (moreSeen l (setC c KFree L)))
         with (moreSeen l (setC c KMaybe (setC c KFree L))). rewrite setC_setC.
       apply safe_thenClose, safe_failWith; (split; [auto with go|]); (split; [by apply unbound_moreC|]);
       change (delC c (moreSeen l (setC c KMaybe L))) with (moreSeen l (delC c (setC c KMaybe L)));
       rewrite delC_added by done; auto with go. }
  change (setC c (lockKind LockExclusive) (moreSeen l (setC c KFree L)))
    with (moreSeen l (setC c KExclusive (setC c KFree L))). rewrite setC_setC.
  assert (Hclose : forall e l', fine e -> is_Some (lc (moreSeen l' (setC c KExclusive L)) !! c) /\
    unbound c (moreSeen l' (setC c KExclusive L)) /\ Post (Err e) (delC c (moreSeen l' (setC c KExclusive L)))).
  { intros e l' He. split; [auto with go|]. split; [by apply unbound_moreC|].
    change (delC c (moreSeen l' (setC c KExclusive L))) with (moreSeen l' (delC c (setC c KExclusive L))).
    rewrite delC_added by done. by apply Herr. }
  vis. intros []; [apply safe_thenClose, safe_failWith; apply Hclose; auto with go|].
  eapply safe_tx; [apply lookup_moreC|..].
  - intros e l' He. rewrite moreSeen_app. apply safe_thenClose, safe_failWith; apply Hclose; auto with go.
  - intros e env' n db' st err l' He Hb. rewrite moreSeen_app.
    apply acquireBody_Err in Hb as (e' & He' & [->| ->]); [| |by apply driver_fine].
    + apply safe_thenClose. vis. by apply Hclose.
    + apply safe_thenClose, safe_failWith; apply Hclose; auto with go.
  - intros e env' t n db' st lease He Ht Hdb Hb. apply (acquireBody_Ok _ _ _ _ _ t) in Hb as (r & Hr & Hacq); [|done].
    split; [by eapply acquired_rowStep|]. intros ending l' Hend _.
    destruct Hacq as (_ & _ & _ & _ & ->). rewrite moreSeen_app.
    assert (Hsettle : safe (settleAcquire c (sha256 token) (MkLease (RequestMode request)
      (RequestOwnerID request) token (pg (RequestExpiresAt request)) (row_version r + 1)) (commitErr ending e))
      (moreSeen (l' ++ l) (setC c KExclusive L)) Post).
    { apply safe_settleAcquire; try done.
      - intros e' He'. destruct Hend as [->| ->]; [done|]. injection He' as <-. by apply driver_fine.
      - intros lease' row l0 Hrow Ho Htk Hmode Hexp Hin. apply HP. simpl in *.
        rewrite Ho, Htk, Hmode, Hexp. split_and!; eauto. }
    by destruct Hend as [->| ->].
Qed.

(** *** Sessions *)
Lemma safe_sessionFor lease L (Post : option (list Z * nat) -> Local -> Prop) :
  Post None L ->
  (forall sid, LeaseOwnerID lease <> NilUUID -> Post (Some (sha256 (LeaseToken lease), sid)) L) ->
  safe (sessionFor sha256 lease) L Post.
Proof.
  intros Hnone Hsome. unfold sessionFor. destruct (_ || _) eqn:E; [by vis|]. bool_simpl.
  apply N.eqb_neq in H1. vis. intros [sid|]; vis; [by apply Hsome|done].
Qed.

(** A body of a critical section ends settled. *)
Definition bodyPost {A} (Q : result StoreErr A -> list ModeRow -> Prop) (sid : nat) (L0 : Local)
    (r : result StoreErr A) (L : Local) : Prop :=
  exists oc rel l, L = holding sid oc rel l L0 /\ sessionShape oc rel /\ notOwned sid oc L0 /\ Q r l.

Lemma bodyPost_settled {A} (Q : result StoreErr A -> list ModeRow -> Prop) sid L0 r L :
  settled sid L0 L -> (forall l, Q r l) -> bodyPost Q sid L0 r L.
Proof. intros (oc & rel & l & -> & ? & ?) HQ. exists oc, rel, l. auto. Qed.

Lemma dropC_holding sid oc rel l L0 :
  notOwned sid oc L0 -> ls L0 !! sid = None ->
  delS sid (dropC oc (holding sid oc rel l L0)) = moreSeen l L0.
Proof.
  intros Hno Hs. unfold holding, dropC, addC. destruct oc as [c|].
  - unfold delS, delC, setS, setC, moreSeen. simpl.
    rewrite delete_insert_id by (by apply Hno). by rewrite delete_insert_id by done.
  - unfold delS, setS, moreSeen. simpl. by rewrite delete_insert_id by done.
Qed.

Lemma safe_unlock {A} sid oc rel (k : Prog A) l L0 Post :
  sessionShape oc rel -> notOwned sid oc L0 -> ls L0 !! sid = None -> safe k (moreSeen l L0) Post ->
  safe (act _ <- UnlockSession sid; k) (holding sid oc rel l L0) Post.
Proof.
  intros Hshape Hno Hs Hk. vis. exists oc, rel. split_and!; [apply lookup_holding|done| |].
  - intros c ->. apply owns_holding.
  - by rewrite dropC_holding.
Qed.

Lemma safe_withSession {A} lease (body : list Z -> nat -> Prog (result StoreErr A)) L
    (Q : result StoreErr A -> list ModeRow -> Prop) (Post : result StoreErr A -> Local -> Prop) :
  (forall e l, fine e -> Q (Err e) l) ->
  (forall r l, Q r l -> Post r (moreSeen l L)) ->
  (forall sid c, LeaseOwnerID lease <> NilUUID -> ls L !! sid = None -> apart sid c L ->
     safe (body (sha256 (LeaseToken lease)) sid) (holding sid (Some c) false [] L) (bodyPost Q sid L)) ->
  safe (withSession sha256 lease body) L Post.
Proof.
  intros Herr HP Hbody.
  assert (HPe : forall e, fine e -> Post (Err e) L).
  { intros e He. rewrite <- (moreSeen_nil L). by apply HP, Herr. }
  apply safe_whileAdmitted; [by apply HPe|]. apply safe_bind. apply safe_sessionFor; [vis; by apply HPe|].
  intros sid Howner. vis. split; [apply safe_failWith; apply HPe; auto with go|].
  intros oc rel Hs Hshape Hno%(absent_notOwned sid).
  change (setS sid (oc, rel) (addC oc KExclusive L)) with (MkLocal (lc (addC oc KExclusive L))
    (<[sid := (oc, rel)]> (ls (addC oc KExclusive L))) (seen (addC oc KExclusive L))).
  change (MkLocal (lc (addC oc KExclusive L)) (<[sid := (oc, rel)]> (ls (addC oc KExclusive L)))
    (seen (addC oc KExclusive L))) with (holding sid oc rel [] L).
  apply safe_bind. apply safe_mono with (Post := bodyPost Q sid L).
  - eapply safe_readSession; [apply lookup_holding|]. intros s Hc Hr. rewrite Hr. destruct rel.
    + vis. exists oc, true, []. split_and!; try done. by apply Herr.
    + vis. intros [].
      * apply safe_failWith; exists oc, false, []; (split_and!; [done..|apply Herr; auto with go]).
      * destruct (proj1 Hshape eq_refl) as [c ->]. apply Hbody; [done..|]. by apply Hno.
  - intros r L' (oc' & rel' & l & -> & Hshape' & Hno' & HQ). apply safe_unlock; try done. vis. by apply HP.
Qed.

(** *** Renewal and transition *)
Definition mutatePost (lease : Lease) (transition : bool) (mode : string) (expiresAt : Time)
    (r : result StoreErr Lease) (rows : list ModeRow) : Prop :=
  match r with
  | Err e => fine e
  | Ok lease' => (exists row, row ∈ rows /\ leaseRow lease' row) /\
      LeaseOwnerID lease' = LeaseOwnerID lease /\ LeaseToken lease' = LeaseToken lease /\
      (transition = true -> LeaseMode lease' = mode) /\
      ns (LeaseExpiresAt lease') = stored (ns expiresAt)
  end.

(** The lease a transaction intends. *)
Definition intended (lease : Lease) (transition : bool) (mode : string) (expiresAt : Time)
    (updated : Lease) : Prop :=
  LeaseOwnerID updated = LeaseOwnerID lease /\ LeaseToken updated = LeaseToken lease /\
  (transition = true -> LeaseMode updated = mode) /\ LeaseExpiresAt updated = pg expiresAt.

Lemma mutated_step h lease mode expiresAt transition t db r db' updated :
  (transition = true -> maintenanceMode mode = true) -> dbOk db -> modes db = Some r ->
  mutated h lease mode expiresAt transition t r db' updated ->
  rowStep t (modes db) (modes db') /\ normalDB db = false /\
  intended lease transition mode expiresAt updated.
Proof.
  unfold dbOk. intros Hmode Hdb Hr (Ho & Hh & Hu & Ht & Hm & Hck & ->). rewrite Hr in Hdb.
  assert (Hn : isNormal r = false).
  { destruct (isNormal r) eqn:Hn; [|done]. apply (check_owner r Hdb) in Hn. congruence. }
  rewrite (normalDB_some db r Hr). split_and!; [|done|].
  - rewrite Hr, Hm. apply row_kept; try done.
    destruct (isNormal (mutateRow transition mode expiresAt r)) eqn:Hn'; [|done].
    apply (check_owner _ Hck) in Hn'. simpl in Hn'. congruence.
  - split_and!; try done. simpl. by intros ->.
Qed.

(** Errors of an attempt: the session is live with the same connection, or
    settled. *)
Lemma safe_mutateTx h sid lease mode expiresAt transition c l L0 Post :
  apart sid c L0 -> (transition = true -> maintenanceMode mode = true) ->
  (forall updated lost l', intended lease transition mode expiresAt updated ->
     (forall e, lost = Some e -> fine e) ->
     Post (Ok (updated, lost)) (holding sid (Some c) false l' L0)) ->
  (forall interrupted e l', fine e ->
     Post (Err (interrupted, e)) (holding sid (Some c) false l' L0)) ->
  (forall e l', fine e -> Post (Err (false, e)) (holding sid None true l' L0)) ->
  safe (mutateLeaseTransaction h sid lease mode expiresAt transition)
    (holding sid (Some c) false l L0) Post.
Proof.
  intros Hn Hmode Hok Hlive Hgone. eapply safe_readSession; [apply lookup_holding|]. intros s Hc Hr. rewrite Hc.
  assert (Hno : notOwned sid (Some c) L0) by (intros x [= <-]; done).
  assert (Hmore : forall l', moreSeen l' (holding sid (Some c) false l L0) =
    holding sid (Some c) false (l' ++ l) L0).
  { intros l'. unfold holding. by rewrite moreSeen_app. }
  eapply safe_tx; [apply owns_holding|..].
  - intros e l' He. rewrite Hmore. vis. intros b. vis. apply Hlive. auto with go.
  - intros e env n db st err l' He Hb. rewrite Hmore.
    apply mutateBody_Err in Hb; [|by apply driver_fine]. destruct err as [| |e'].
    + apply safe_bind, safe_releaseSession; [done|]. vis. auto with go.
    + vis. auto with go.
    + vis. intros b. vis. auto with go.
  - intros e env t n db st updated He Ht Hdb Hb.
    apply (mutateBody_Ok _ _ _ _ _ _ _ t) in Hb as (r & Hrow & Hmut); [|done].
    destruct (mutated_step _ _ _ _ _ _ _ _ _ _ Hmode Hdb Hrow Hmut) as (Hstep & Hnn & Hint).
    split; [done|]. intros ending l' Hend _. rewrite Hmore.
    assert (Hfin : Post (Ok (updated, commitErr ending e)) (holding sid (Some c) false (l' ++ l) L0)).
    { apply Hok; [done|]. intros e' He'. destruct Hend as [->| ->]; [done|]. injection He' as <-.
      by apply driver_fine. }
    destruct Hend as [->| ->]; vis; exact Hfin.
Qed.

Lemma safe_mutateAttempts left h sid lease mode expiresAt transition c l L0
    (Post : result StoreErr (Lease * option StoreErr) -> Local -> Prop) :
  apart sid c L0 -> (transition = true -> maintenanceMode mode = true) ->
  (forall updated lost c' l', apart sid c' L0 -> intended lease transition mode expiresAt updated ->
     (forall e, lost = Some e -> fine e) ->
     Post (Ok (updated, lost)) (holding sid (Some c') false l' L0)) ->
  (forall e L, fine e -> settled sid L0 L -> Post (Err e) L) ->
  safe (mutateAttempts left h sid lease mode expiresAt transition) (holding sid (Some c) false l L0) Post.
Proof.
  revert c l. induction left as [|left IH]; intros c l Hn Hmode Hok Herr; cbn [mutateAttempts];
    apply safe_bind; (apply safe_mutateTx; [done|done|intros; vis; by apply Hok| |]).
  - intros interrupted e l' He. vis. intros []; [apply safe_failWith; auto with go|].
    destruct interrupted; [|apply safe_failWith; auto with go].
    apply safe_bind, safe_releaseSession; [by intros x [= <-]|]. apply safe_failWith; auto with go.
  - intros e l' He. vis. intros []; apply safe_failWith; auto with go.
  - intros interrupted e l' He. vis. intros []; [apply safe_failWith; auto with go|].
    destruct interrupted; [|apply safe_failWith; auto with go].
    apply safe_bind. apply safe_recover; [done|done| |].
    + intros c' l0 Hc'. by apply IH.
    + intros e' L He' HL. apply safe_failWith; auto with go.
  - intros e l' He. vis. intros []; apply safe_failWith; auto with go.
Qed.

Lemma safe_settleMutation h sid lease updated lost transition mode expiresAt c l L0 :
  apart sid c L0 -> h = sha256 (LeaseToken lease) ->
  intended lease transition mode expiresAt updated -> (forall e, lost = Some e -> fine e) ->
  safe (settleMutation h sid lease updated lost) (holding sid (Some c) false l L0)
    (bodyPost (mutatePost lease transition mode expiresAt) sid L0).
Proof.
  intros Hn -> (Ho & Htk & Hmode & Hexp) Hlost.
  assert (Herr : forall e L, fine e -> settled sid L0 L ->
    bodyPost (mutatePost lease transition mode expiresAt) sid L0 (Err e) L).
  { intros e L He HL. by apply bodyPost_settled. }
  assert (Hlost' : forall e L, lost = Some e -> settled sid L0 L ->
    safe (failWith (mapLeaseError e)) L (bodyPost (mutatePost lease transition mode expiresAt) sid L0)).
  { intros e L He HL. apply safe_failWith; apply Herr; auto with go. }
  apply safe_bind. apply safe_authoritativeSession; [done| |].
  - intros c' r st Hc' Hst. eapply safe_readSession; [apply lookup_holding|]. intros s Hs _. rewrite Hs.
    assert (Hno : notOwned sid (Some c') L0) by (intros x [= <-]; done).
    destruct (negb (ownedBy _ _ _)) eqn:Hown.
    { apply safe_bind, safe_releaseSession; [done|]. vis. auto with go. }
    apply safe_schedule. bool_simpl. destruct (negb (matchesLease _ _)) eqn:Hm.
    { destruct lost as [e|]; [apply Hlost'; auto with go|vis; auto with go]. }
    bool_simpl. vis. exists (Some c'), false, (r :: l).
    split_and!; [done|by eexists|done|]. unfold mutatePost.
    destruct (settled_state_lease st r updated (sha256 (LeaseToken lease))) as (Hrow & Hm' & Hv & He);
      [done|by rewrite Ho|done|by rewrite Htk|].
    split_and!.
    + exists r. split; [set_solver|done].
    + simpl. congruence.
    + simpl. congruence.
    + intros Htr. rewrite Hm'. by apply Hmode.
    + by rewrite He, Hexp.
  - intros e He. eapply safe_readSession; [apply lookup_holding|]. intros s Hs _. rewrite Hs.
    apply safe_removeSession. destruct lost as [e'|]; [apply Hlost'; auto with go|vis; auto with go].
Qed.

Lemma safe_mutateLease lease mode expiresAt transition L (Post : result StoreErr Lease -> Local -> Prop) :
  (transition = true -> maintenanceMode mode = true) ->
  (forall r l, mutatePost lease transition mode expiresAt r l -> Post r (moreSeen l L)) ->
  safe (mutateLease sha256 lease mode expiresAt transition) L Post.
Proof.
  intros Hmode HP. eapply safe_withSession; [|exact HP|]; [by intros|].
  intros sid c Howner Hs Hn. apply safe_bind. apply safe_mutateAttempts; [done|done| |].
  - intros updated lost c' l' Hc' Hint Hlost. by apply safe_settleMutation.
  - intros e L' He HL. vis. by apply bodyPost_settled.
Qed.

(** *** Releasing *)
Definition ownedRow (lease : Lease) (r : ModeRow) : Prop :=
  row_owner r = Some (LeaseOwnerID lease) /\ row_hash r = Some (sha256 (LeaseToken lease)).

Definition releasePost (lease : Lease) (r : result StoreErr unit) (rows : list ModeRow) : Prop :=
  match r with
  | Err e => fine e
  | Ok _ => (exists row, row ∈ rows /\ ownedRow lease row) /\
            (exists row, row ∈ rows /\ row_mode row = "normal" /\ row_owner row = None)
  end.

Lemma safe_clear h sid lease c l L0 (Post : bool * bool * option StoreErr -> Local -> Prop) :
  apart sid c L0 -> h = sha256 (LeaseToken lease) ->
  (forall lost row l', row ∈ l' -> ownedRow lease row -> (forall e, lost = Some e -> fine e) ->
     Post (true, false, lost) (holding sid (Some c) false l' L0)) ->
  (forall interrupted e l', fine e ->
     Post (false, interrupted, Some e) (holding sid (Some c) false l' L0)) ->
  (forall l', Post (false, false, None) (holding sid None true l' L0)) ->
  safe (clearLeaseAndReleaseLocked h sid lease) (holding sid (Some c) false l L0) Post.
Proof.
  intros Hn -> Hok Hlive Hgone. eapply safe_readSession; [apply lookup_holding|].
  intros s Hc Hr. rewrite Hc.
  assert (Hno : notOwned sid (Some c) L0) by (intros x [= <-]; done).
  assert (Hmore : forall l', moreSeen l' (holding sid (Some c) false l L0) =
    holding sid (Some c) false (l' ++ l) L0).
  { intros l'. unfold holding. by rewrite moreSeen_app. }
  eapply safe_tx; [apply owns_holding|..].
  - intros e l' He. rewrite Hmore. vis. intros b. vis. apply Hlive. auto with go.
  - intros e env n db st err l' He Hb. rewrite Hmore.
    apply clearBody_Err in Hb; [|by apply driver_fine]. destruct err as [|e'].
    + apply safe_bind, safe_releaseSession; [done|]. vis. auto.
    + vis. intros b. vis. auto with go.
  - intros e env t n db st u He Ht Hdb Hb. apply clearBody_Ok in Hb as (r & Hrow & Hcl).
    destruct (cleared_step _ _ t _ _ _ Hdb Hrow Hcl) as [Hstep Hnn]. split; [done|].
    intros ending l' Hend Hin. rewrite Hmore. destruct Hcl as (Ho & Hh & _).
    assert (Hfin : Post (true, false, commitErr ending e) (holding sid (Some c) false (l' ++ l) L0)).
    { apply (Hok _ r); [apply elem_of_app; left; by apply Hin|done|].
      intros e' He'. destruct Hend as [->| ->]; [done|]. injection He' as <-. by apply driver_fine. }
    destruct Hend as [->| ->]; vis; exact Hfin.
Qed.

Lemma safe_clearAttempts left h sid lease c l L0
    (Post : result StoreErr (bool * option StoreErr) -> Local -> Prop) :
  apart sid c L0 -> h = sha256 (LeaseToken lease) ->
  (forall lost row c' l', apart sid c' L0 -> row ∈ l' -> ownedRow lease row ->
     (forall e, lost = Some e -> fine e) -> Post (Ok (true, lost)) (holding sid (Some c') false l' L0)) ->
  (forall L lost, settled sid L0 L -> Post (Ok (false, lost)) L) ->
  (forall e L, fine e -> settled sid L0 L -> Post (Err e) L) ->
  safe (clearAttempts left h sid lease) (holding sid (Some c) false l L0) Post.
Proof.
  intros Hn Hh. revert c l Hn. induction left as [|left IH]; intros c l Hn Hok Hfalse Herr;
    cbn [clearAttempts]; apply safe_bind;
    (apply safe_clear; [done|done| | |intros; vis; auto with go]).
  1,3: intros lost row l' Hin Hrow Hlost; destruct lost; vis; by eapply Hok.
  - intros interrupted e l' He. vis. intros []; [apply safe_failWith; auto with go|].
    destruct interrupted; [|apply safe_failWith; auto with go].
    apply safe_bind, safe_releaseSession; [by intros x [= <-]|]. apply safe_failWith; auto with go.
  - intros interrupted e l' He. vis. intros []; [apply safe_failWith; auto with go|].
    destruct interrupted; [|apply safe_failWith; auto with go].
    apply safe_bind. apply safe_recover; [done|auto with go| |].
    + intros c' l0 Hc'. by apply IH.
    + intros e' L He' HL. apply safe_failWith; auto with go.
Qed.

Lemma safe_settleRelease h sid lease lost c l L0 row :
  apart sid c L0 -> row ∈ l -> ownedRow lease row -> (forall e, lost = Some e -> fine e) ->
  safe (settleRelease h sid lease lost) (holding sid (Some c) false l L0)
    (bodyPost (releasePost lease) sid L0).
Proof.
  intros Hn Hin Hrow Hlost.
  assert (Herr : forall e L, fine e -> settled sid L0 L -> bodyPost (releasePost lease) sid L0 (Err e) L).
  { intros e L He HL. by apply bodyPost_settled. }
  assert (Hlost' : forall e L, lost = Some e -> settled sid L0 L ->
    safe (failWith (mapLeaseError e)) L (bodyPost (releasePost lease) sid L0)).
  { intros e L He HL. apply safe_failWith; apply Herr; auto with go. }
  apply safe_bind. apply safe_authoritativeSession; [done| |].
  - intros c' r st Hc' Hst. eapply safe_readSession; [apply lookup_holding|]. intros s Hs _. rewrite Hs.
    assert (Hno : notOwned sid (Some c') L0) by (intros x [= <-]; done).
    destruct (_ && _) eqn:Hnorm.
    + apply safe_bind, safe_releaseSession; [done|]. vis. exists None, true, (r :: l).
      split_and!; try done. bool_simpl. destruct Hst as (Hm & Ho & _). split.
      * exists row. split; [set_solver|done].
      * exists r. split; [set_solver|]. split; congruence.
    + destruct (ownedBy _ _ _).
      * apply safe_schedule. destruct lost as [e|]; [apply Hlost'; auto with go|vis; auto with go].
      * apply safe_bind, safe_releaseSession; [done|]. vis. auto with go.
  - intros e He. eapply safe_readSession; [apply lookup_holding|]. intros s Hs _. rewrite Hs.
    apply safe_removeSession. destruct lost as [e'|]; [apply Hlost'; auto with go|vis; auto with go].
Qed.

Lemma safe_ReleaseLease lease L (Post : result StoreErr unit -> Local -> Prop) :
  (forall r l, releasePost lease r l -> Post r (moreSeen l L)) ->
  safe (ReleaseLease sha256 lease) L Post.
Proof.
  intros HP. eapply safe_withSession; [|exact HP|]; [by intros|].
  intros sid c Howner Hs Hn. apply safe_bind. apply safe_clearAttempts; [done|done| | |].
  - intros lost row c' l' Hc' Hin Hrow Hlost. by eapply safe_settleRelease.
  - intros L' lost HL. vis. apply bodyPost_settled; [done|]. intros l. done.
  - intros e L' He HL. vis. by apply bodyPost_settled.
Qed.

(** *** Expiry and closing *)
Lemma safe_expire h sid generation L (Post : unit -> Local -> Prop) :
  Post tt L -> safe (expireLeaseSession h sid generation) L Post.
Proof.
  intros HP. vis. intros oc rel Hs Hshape Hno%(absent_notOwned sid).
  change (setS sid (oc, rel) (addC oc KExclusive L)) with (MkLocal (lc (addC oc KExclusive L))
    (<[sid := (oc, rel)]> (ls (addC oc KExclusive L))) (seen (addC oc KExclusive L))).
  change (MkLocal (lc (addC oc KExclusive L)) (<[sid := (oc, rel)]> (ls (addC oc KExclusive L)))
    (seen (addC oc KExclusive L))) with (holding sid oc rel [] L).
  assert (Hend : forall oc' rel', sessionShape oc' rel' -> notOwned sid oc' L ->
    safe (act _ <- UnlockSession sid; Ret tt) (holding sid oc' rel' [] L) Post).
  { intros oc' rel' Hsh' Hno'. apply safe_unlock; try done. vis. by rewrite moreSeen_nil. }
  eapply safe_readSession; [apply lookup_holding|]. intros s Hc Hr. rewrite Hr. apply safe_bind.
  destruct rel; [vis; by apply Hend|]. destruct (_ || _); [vis; by apply Hend|].
  apply safe_releaseSession; [done|]. by apply Hend.
Qed.

Lemma safe_normalizeSession h sid c l L0 (Post : result StoreErr unit -> Local -> Prop) :
  apart sid c L0 ->
  (forall r oc l', fineResult r -> notOwned sid oc L0 -> Post r (holding sid oc false l' L0)) ->
  safe (normalizeLeaseSessionLocked h sid) (holding sid (Some c) false l L0) Post.
Proof.
  intros Hn HP. eapply safe_readSession; [apply lookup_holding|]. intros s Hc Hr. rewrite Hc.
  assert (Hno : forall c', apart sid c' L0 -> notOwned sid (Some c') L0) by (intros x Hx y [= <-]; done).
  assert (Hmore : forall c' l' l0, moreSeen l' (holding sid (Some c') false l0 L0) =
    holding sid (Some c') false (l' ++ l0) L0).
  { intros c' l' l0. unfold holding. by rewrite moreSeen_app. }
  apply safe_bind. eapply safe_normalize; [apply owns_holding|]. intros r l' Hfine. rewrite Hmore.
  destruct r as [[]|e]; [vis; apply HP; [done|auto]|]. vis. intros b.
  destruct (negb _); [vis; apply HP; [done|auto]|]. apply safe_bind. apply safe_authoritativeSession; [done| |].
  - intros c' row st Hc' Hst. eapply safe_readSession; [apply lookup_holding|]. intros s' Hs' _. rewrite Hs'.
    destruct (_ || _); [vis; apply HP; [done|auto]|]. eapply safe_normalize; [apply owns_holding|].
    intros r' l'' Hr'. rewrite Hmore. apply HP; [done|auto].
  - intros e' He'. eapply safe_readSession; [apply lookup_holding|]. intros s' Hs' _. rewrite Hs'. vis.
    apply HP; [done|]. by intros x.
Qed.

Definition fineOption (o : option StoreErr) : Prop := forall e, o = Some e -> fine e.

Lemma fine_join first e : fine (joinErr first e) \/ first = None.
Proof. destruct first; [by left|by right]. Qed.

Lemma safe_closeSessions entries firstErr L (Post : option StoreErr -> Local -> Prop) :
  fineOption firstErr -> (forall o l, fineOption o -> Post o (moreSeen l L)) ->
  forall l0, safe (closeSessions entries firstErr) (moreSeen l0 L) Post.
Proof.
  revert firstErr. induction entries as [|[h sid] rest IH]; intros firstErr Hf HP l0.
  { vis. by apply HP. }
  assert (Hjoin : forall first, fineOption first -> fineOption (Some (joinErr first ECtx))).
  { intros first _ e [= <-]. by destruct first. }
  cbn [closeSessions]. vis. split; [vis; auto|]. intros oc rel Hs Hshape Hno.
  change (ls L !! sid = None) in Hs. apply (absent_notOwned sid) in Hno. change (notOwned sid oc L) in Hno.
  replace (setS sid (oc, rel) (addC oc KExclusive (moreSeen l0 L))) with (holding sid oc rel l0 L)
    by (by destruct oc).
  eapply safe_readSession; [apply lookup_holding|]. intros s Hc Hr. rewrite Hr. destruct rel.
  { apply safe_unlock; try done. by apply IH. }
  destruct (proj1 Hshape eq_refl) as [c ->]. apply safe_bind. apply safe_normalizeSession; [by apply Hno|].
  intros r oc' l' Hfine Hno'. cbv zeta.
  set (first := match firstErr, r with None, Err e => Some e | _, _ => firstErr end).
  assert (Hfirst : fineOption first).
  { intros e He. subst first. destruct firstErr as [x|]; [by apply Hf|]. destruct r; [done|]. by injection He as <-. }
  vis. exists oc', false. split; [apply lookup_holding|]. rewrite holding_set.
  change (moreSeen l' (setS sid (oc', true) (addC oc' KExclusive L))) with (holding sid oc' true l' L).
  assert (Hrest : forall k, safe k (moreSeen l' L) Post ->
    safe (act s' <- ReadSession sid; act _ <- SetConn sid None; run _ <- closeIfAny (s_conn s');
          act _ <- UnlockSession sid; k) (holding sid oc' true l' L) Post).
  { intros k Hk. eapply safe_readSession; [apply lookup_holding|]. intros s' Hc' Hr'. rewrite Hc'.
    vis. exists oc', true. split; [apply lookup_holding|]. split; [done|]. rewrite holding_set. apply safe_bind.
    assert (Hunlock : safe (act _ <- UnlockSession sid; k) (holding sid None true l' L) Post).
    { by apply safe_unlock. }
    destruct oc' as [c'|]; [|vis; exact Hunlock]. unfold closeIfAny. vis.
    split; [simpl; rewrite lookup_insert_eq; by eexists|]. split; [by apply unbound_holding, Hno'|].
    change (delC c' (moreSeen l' (setS sid (None, true) (addC (Some c') KExclusive L))))
      with (moreSeen l' (setS sid (None, true) (delC c' (setC c' KExclusive L)))).
    rewrite delC_added by (by apply Hno'). vis. exact Hunlock. }
  vis. split; apply Hrest; [vis; auto|by apply IH].
Qed.

Lemma safe_releaseAll entries L (Post : unit -> Local -> Prop) :
  Post tt L -> safe (releaseAll entries) L Post.
Proof.
  intros HP. induction entries as [|[id sh] rest IH]; cbn [releaseAll]; [by vis|].
  apply safe_bind. by apply safe_releaseShared.
Qed.

Lemma safe_Close L (Post : option StoreErr -> Local -> Prop) :
  (forall o l, fineOption o -> Post o (moreSeen l L)) -> safe Close L Post.
Proof.
  intros HP. assert (HPe : Post (Some ECtx) L).
  { rewrite <- (moreSeen_nil L). apply HP. by intros e [= <-]. }
  vis. split; [by vis|]. intros l. apply safe_bind, safe_releaseAll. vis. split; [by vis|].
  vis. split; [by vis|]. intros entries. rewrite <- (moreSeen_nil L). by apply safe_closeSessions.
Qed.

Lemma safe_GetMode L (Post : result StoreErr ModeSnapshot -> Local -> Prop) :
  (forall r l, fineResult r -> Post r (moreSeen l L)) -> safe GetMode L Post.
Proof.
  intros HP. vis. split.
  - intros e He. rewrite <- (moreSeen_nil L). destruct e; try discriminate He; vis; by apply HP.
  - intros env db. rewrite saw_more. unfold value, modeQuery, dbind, dget, dfail, dret. cbv beta iota.
    destruct (modes db) as [r|]; vis; by apply HP.
Qed.

(** ** The operations *)
Definition post (c : Call) (o : Outcome) (L : Local) : Prop :=
  lc L = ∅ /\ ls L = ∅ /\
  match c, o with
  | CallAcquire request, OutLease r => acquirePost request r (seen L)
  | CallRenew lease t, OutLease r => mutatePost lease false "" t r (seen L)
  | CallTransition lease mode t, OutLease r => mutatePost lease true mode t r (seen L)
  | CallRelease lease, OutReleased r => releasePost lease r (seen L)
  | CallAcquireShared, OutShared r => fineResult r
  | CallReleaseShared _ _, OutUnit => True
  | CallGetMode, OutMode r => fineResult r
  | CallClaimsAllowed, OutAllowed r => fineResult r
  | CallClose, OutClosed e => fineOption e
  | TimerFires _ _ _, OutUnit => True
  | _, _ => False
  end.

Lemma safe_operation c : safe (operation sha256 c) nothing (post c).
Proof.
  destruct c; apply safe_bind.
  - apply safe_AcquireLease. intros r l Hr. vis. split_and!; [done..|]. simpl. by rewrite app_nil_r.
  - apply safe_mutateLease; [done|]. intros r l Hr. vis. split_and!; [done..|]. simpl. by rewrite app_nil_r.
  - unfold TransitionLease. destruct (negb _) eqn:Hm; [by vis; split_and!|]. bool_simpl.
    apply safe_mutateLease; [done|]. intros r l Hr. vis. split_and!; [done..|]. simpl. by rewrite app_nil_r.
  - apply safe_ReleaseLease. intros r l Hr. vis. split_and!; [done..|]. simpl. by rewrite app_nil_r.
  - apply safe_AcquireShared. intros r l Hr. vis. by split_and!.
  - apply safe_releaseShared. vis. by split_and!.
  - apply safe_GetMode. intros r l Hr. vis. by split_and!.
  - apply safe_bind. apply safe_GetMode. intros r l Hr. destruct r as [m|e]; vis; vis; by split_and!.
  - apply safe_Close. intros o l Ho. vis. by split_and!.
  - apply safe_expire. vis. by split_and!.
Qed.

End Programs.
