(* ===== verification/LeaseTheorems.v ===== *)
(** * Maintenance leases: what holds of every run

    The composition of [perform_sound] and [safe_operation]: any number of
    processes and goroutines, any calls with any arguments, any interleaving of
    their actions, any failures.  The theorems speak of [reachable] states only:
    who holds which lock, how the row changes, what a finished call may report
    and where every connection is. *)

From S2P Require Import Prelude GoTime GoText Pg OpsModel AlertStore AuditLog LeaseStore LeaseProofs LeaseSafety.
From stdpp Require Import base tactics list gmap strings relations.
From Stdlib Require Import ZArith Lia.

Open Scope Z_scope.

Section System.
Context `{PgTime} `{UUIDText} (sha256 : list Z -> list Z).

Definition reachable (s : System) : Prop :=
  exists s0, initialSystem s0 /\ rtc (systemStep sha256) s0 s.

(** ** The invariant *)
Definition sinv (s : System) : Prop :=
  exists G Ls, winv (sys_world s) G Ls /\ (forall t, bound (Ls t)) /\
    (forall t th, sys_threads s !! t = Some th -> safe (th_prog th) (Ls t) (post sha256 (th_call th))) /\
    (forall t, sys_threads s !! t = None -> Ls t = nothing).

Lemma sinv_initial s : initialSystem s -> sinv s.
Proof.
  intros [clock ->]. exists ∅, (fun _ => nothing). split_and!; [|intros; apply bound_nothing|done..].
  split; simpl; try (intros *; rewrite ?lookup_empty; done); try set_solver.
  intros c Hc. lia.
Qed.

Lemma sinv_step s s' : systemStep sha256 s s' -> sinv s -> sinv s'.
Proof.
  intros Hstep (G & Ls & Hw & Hb & Hth & Hno).
  destruct Hstep as [w T t pid cl R a k ch r w' Ht Hp|w T t pid cl Ht|w T c|w T t Hle]; simpl in *.
  - destruct (perform_sound pid t ch a w G Ls _ Hw (Hb t) (aspec_bound _ _ _ (Hb t) (Hth t _ Ht)) r w' Hp)
      as (G' & L' & Hw' & Hb' & HQ).
    exists G', (upd t L' Ls). split_and!; simpl; [done| | |].
    + intros t'. by upd_case t' t.
    + intros t' th'. rewrite lookup_insert_Some. intros [[<- <-]|[Hne Ht']]; [by rewrite upd_eq|].
      rewrite upd_ne by done. by apply Hth.
    + intros t'. rewrite lookup_insert_None. intros [Ht' Hne]. rewrite upd_ne by done. by apply Hno.
  - exists G, Ls. split_and!; simpl; [done|done| |].
    + intros t' th'. rewrite lookup_insert_Some. intros [[<- <-]|[Hne Ht']]; [|by apply Hth].
      rewrite (Hno t Ht). apply safe_operation.
    + intros t'. rewrite lookup_insert_None. intros [Ht' Hne]. by apply Hno.
  - exists G, Ls. split_and!; simpl; [by apply winv_dropConn|done..].
  - exists G, Ls. split_and!; simpl; [|done..]. eapply winv_same, Hw. by split.
Qed.

Lemma sinv_rtc s s' : rtc (systemStep sha256) s s' -> sinv s -> sinv s'.
Proof. induction 1; eauto using sinv_step. Qed.

Lemma reachable_sinv s : reachable s -> sinv s.
Proof. intros (s0 & Hi & Hr). eapply sinv_rtc; [exact Hr|]. by apply sinv_initial. Qed.

(** ** Locks *)

(** An admitted write, on a connection [c] the server still has. *)
Definition admittedWrite (sh c : nat) (w : World) : Prop :=
  exists o, w_shared w !! sh = Some o /\ sh_done o = false /\ sh_conn o = c /\ c ∉ w_dead w.

(** A lease session on a connection [c] the server still has, whether or not a
    goroutine is working on it. *)
Definition leaseSession (sid c : nat) (w : World) : Prop :=
  exists s, w_sessions w !! sid = Some s /\ s_conn s = Some c /\ c ∉ w_dead w.

Lemma locksOf_holds c m w : locksOf c w = [m] -> (c, m) ∈ w_locks w.
Proof. intros Hl. apply locksOf_elem. rewrite Hl. by apply list_elem_of_singleton. Qed.

(** The owner of the connection of a session: the goroutine that works on it, or
    the session itself. *)
Definition sessionOwner (sid : nat) (s : Session) : Owner :=
  match s_mu s with Some t => OThread t | None => OSession sid end.

Lemma session_owner w G Ls sid s c :
  winv w G Ls -> (forall t, bound (Ls t)) -> w_sessions w !! sid = Some s -> s_conn s = Some c ->
  G !! c = Some (sessionOwner sid s, KExclusive).
Proof.
  intros Hw Hb Hs Hc. unfold sessionOwner. destruct (s_mu s) as [t|] eqn:Hmu.
  - apply (i_thread _ _ _ Hw). eapply (proj1 (Hb t) sid c (s_released s)).
    apply (i_mutex _ _ _ Hw). exists s. by split_and!.
  - by apply (i_session _ _ _ Hw sid s Hs Hmu).
Qed.

(** A connection belongs to one session at most. *)
Lemma session_unique w G Ls sid s sid' s' c :
  winv w G Ls -> (forall t, bound (Ls t)) ->
  w_sessions w !! sid = Some s -> s_conn s = Some c ->
  w_sessions w !! sid' = Some s' -> s_conn s' = Some c -> sid = sid'.
Proof.
  intros Hw Hb Hs Hc Hs' Hc'. pose proof (session_owner _ _ _ _ _ _ Hw Hb Hs Hc) as H1.
  pose proof (session_owner _ _ _ _ _ _ Hw Hb Hs' Hc') as H2. rewrite H1 in H2. injection H2 as H2.
  unfold sessionOwner in H2. destruct (s_mu s) as [t|] eqn:Hm, (s_mu s') as [t'|] eqn:Hm'; simplify_eq; [|done].
  eapply (proj2 (Hb t') sid sid' c (s_released s) (s_released s'));
    apply (i_mutex _ _ _ Hw); [exists s|exists s']; by split_and!.
Qed.

Lemma kind_lock w G Ls c o : winv w G Ls -> G !! c = Some (o, KExclusive) -> c ∉ w_dead w ->
  (c, LockExclusive) ∈ w_locks w.
Proof. intros Hw HG Hc. destruct (i_kind _ _ _ Hw _ _ _ HG) as [?|Hl]; [done|]. by apply locksOf_holds. Qed.

Lemma admitted_lock w G Ls sh c :
  winv w G Ls -> admittedWrite sh c w ->
  (c, LockShared) ∈ w_locks w /\ normalDB (w_db w) = true /\ forall c', (c', LockExclusive) ∉ w_locks w.
Proof.
  intros Hw (o & Ho & Hd & <- & Hl). pose proof (i_shared _ _ _ Hw sh o Ho Hd) as HG.
  destruct (i_kind _ _ _ Hw _ _ _ HG) as [?|[Hlock Hn]]; [done|]. pose proof (locksOf_holds _ _ _ Hlock) as Hs.
  split_and!; [done..|]. intros c' Hx. destruct (i_locks _ _ _ Hw _ _ _ _ Hs Hx) as [<-|[_ ?]]; [|done].
  apply locksOf_elem in Hx. rewrite Hlock in Hx. by apply list_elem_of_singleton in Hx.
Qed.

Lemma exclusive_alone w G Ls c c' m :
  winv w G Ls -> (c, LockExclusive) ∈ w_locks w -> (c', m) ∈ w_locks w -> c' = c.
Proof. intros Hw Hx Hl. by destruct (i_locks _ _ _ Hw _ _ _ _ Hx Hl) as [|[? _]]. Qed.

Lemma idle_unlocked w G Ls c pid m : winv w G Ls -> w_idle w !! c = Some pid -> (c, m) ∉ w_locks w.
Proof.
  intros Hw Hp Hin. apply (i_idle _ _ _ Hw), (i_kind _ _ _ Hw) in Hp. simpl in Hp.
  apply locksOf_elem in Hin. rewrite Hp in Hin. by apply elem_of_nil in Hin.
Qed.

(** Only a transaction on a connection with the exclusive lock changes the row. *)
Lemma row_change_locked s s' :
  sinv s -> systemStep sha256 s s' -> modes (w_db (sys_world s')) <> modes (w_db (sys_world s)) ->
  exists c, (c, LockExclusive) ∈ w_locks (sys_world s).
Proof.
  intros (G & Ls & Hw & Hb & Hth & _) Hstep.
  destruct Hstep as [w T t pid cl R a k ch r w' Ht Hp| | |]; simpl in *; [|done..].
  pose proof (Hth t _ Ht) as Ha. simpl in Ha. destruct a;
    try (simpl in Hp; unfold onSession, shutIf, registerLeaseSession, lockMutexContext in Hp;
         repeat case_match; simplify_eq/=; done).
  intros Hne. destruct Ha as (Hc & _). exists c.
  apply (i_thread _ _ _ Hw) in Hc. eapply kind_lock; [done..|]. apply usable_alive.
  unfold perform in Hp. destruct (usable c w); [done|]. injection Hp as _ <-.
  by destruct (ch_broken ch).
Qed.

(** C3. Mutual exclusion of maintenance and writes, in every state any number of
    processes and goroutines can reach: an admitted write whose connection the
    server still has holds the shared advisory lock on that connection, the mode
    is normal and nobody holds the exclusive lock; a lease session whose
    connection the server still has, whether or not a goroutine is working on it,
    holds the exclusive lock on that connection and nobody else holds any lock;
    so the two never exist together and there is at most one such lease session;
    a step changes the row only while a connection holds the exclusive lock; and
    a connection in the pool holds no lock. *)
Theorem maintenance_excludes_writes s (Hr : reachable s) :
  let w := sys_world s in
  (forall sh c, admittedWrite sh c w ->
     (c, LockShared) ∈ w_locks w /\ normalDB (w_db w) = true /\ forall c', (c', LockExclusive) ∉ w_locks w) /\
  (forall sid c, leaseSession sid c w ->
     (c, LockExclusive) ∈ w_locks w /\ forall c' m, (c', m) ∈ w_locks w -> c' = c) /\
  (forall sh c sid c', admittedWrite sh c w -> ~ leaseSession sid c' w) /\
  (forall sid c sid' c', leaseSession sid c w -> leaseSession sid' c' w -> sid = sid' /\ c = c') /\
  (forall s', systemStep sha256 s s' -> modes (w_db (sys_world s')) <> modes (w_db w) ->
     exists c, (c, LockExclusive) ∈ w_locks w) /\
  (forall c pid m, w_idle w !! c = Some pid -> (c, m) ∉ w_locks w).
Proof.
  apply reachable_sinv in Hr as Hi. pose proof Hi as (G & Ls & Hw & Hb & _). cbv zeta.
  assert (Hlease : forall sid c, leaseSession sid c (sys_world s) -> (c, LockExclusive) ∈ w_locks (sys_world s)).
  { intros sid c (se & Hs & Hc & Hl). eapply kind_lock; [done| |done]. by eapply session_owner. }
  split_and!.
  - intros sh c. by apply (admitted_lock _ _ _ _ _ Hw).
  - intros sid c H1. split; [by eapply Hlease|]. intros c' m. by eapply exclusive_alone; [|eapply Hlease].
  - intros sh c sid c' H1 H2%Hlease. by eapply (admitted_lock _ _ _ _ _ Hw H1).
  - intros sid c sid' c' H1 H2. pose proof (Hlease _ _ H1) as L1. pose proof (Hlease _ _ H2) as L2.
    rewrite (exclusive_alone _ _ _ _ _ _ Hw L1 L2) in *. split; [|done].
    destruct H1 as (s1 & Hs1 & Hc1 & _), H2 as (s2 & Hs2 & Hc2 & _). by eapply (session_unique _ _ _ sid s1 sid' s2).
  - intros s'. by apply row_change_locked.
  - intros c pid m. by apply (idle_unlocked _ _ _ _ _ _ Hw).
Qed.

(** ** The row *)
Lemma perform_row {R} pid t ch (a : Act R) w L Q r w' :
  aspec L a Q -> dbOk (w_db w) -> perform pid t ch a w = Some (r, w') ->
  rowStep (w_clock w) (modes (w_db w)) (modes (w_db w')).
Proof.
  intros Ha Hok Hp. destruct a;
    try (simpl in Hp; unfold onSession, shutIf, registerLeaseSession, lockMutexContext in Hp; repeat case_match; simplify_eq/=; by apply row_same).
  unfold perform in Hp.
  destruct Ha as (Hc & _ & Hbody). destruct (usable c w).
  - destruct (transaction _ _ _ _) as [[n db'] ending] eqn:Htx. injection Hp as <- <-.
    destruct (Hbody (raw ch) (envAt ch w) (w_clock w) (w_db w) n db' ending (raw_driver ch)
      (fun _ => eq_refl) Hok Htx) as (Hs & _). by destruct (ch_broken ch).
  - injection Hp as <- <-. destruct (ch_broken ch); apply row_same.
Qed.

Lemma sinv_row s s' : sinv s -> systemStep sha256 s s' ->
  rowStep (w_clock (sys_world s)) (modes (w_db (sys_world s))) (modes (w_db (sys_world s'))).
Proof.
  intros (G & Ls & Hw & _ & Hth & _) Hstep. destruct Hstep as [w T t pid cl R a k ch r w' Ht Hp| | |]; simpl in *;
    [|apply row_same..].
  eapply perform_row; [exact (Hth t _ Ht)|apply (i_check _ _ _ Hw)|exact Hp].
Qed.

Lemma rowStep_version t r r' :
  rowStep t (Some r) (Some r') -> r' = r \/ row_version r' = row_version r + 1.
Proof. inversion 1; auto. Qed.

Lemma rowStep_some t r o : rowStep t (Some r) o -> is_Some o.
Proof. inversion 1; eauto. Qed.

Lemma rowStep_check t r r' : modeRowCheck r = true -> rowStep t (Some r) (Some r') -> modeRowCheck r' = true.
Proof. intros Hc Hs. inversion Hs; by subst. Qed.

Definition rowOf (s : System) : option ModeRow := modes (w_db (sys_world s)).

Lemma rows_along s s' r :
  rtc (systemStep sha256) s s' -> sinv s -> rowOf s = Some r -> modeRowCheck r = true ->
  exists r', rowOf s' = Some r' /\ modeRowCheck r' = true /\ row_version r <= row_version r' /\
    (row_version r = row_version r' -> r = r').
Proof.
  intros Hrun. revert r. induction Hrun as [s|s s1 s2 Hstep Hrun IH]; intros r Hi Hr Hck.
  - exists r. split_and!; auto with lia.
  - pose proof (sinv_row s s1 Hi Hstep) as Hrow. unfold rowOf in Hr. rewrite Hr in Hrow.
    destruct (rowStep_some _ _ _ Hrow) as [r1 Hr1]. rewrite Hr1 in Hrow.
    pose proof (rowStep_version _ _ _ Hrow) as Hv. pose proof (rowStep_check _ _ _ Hck Hrow) as Hck1.
    destruct (IH r1 (sinv_step _ _ Hstep Hi) Hr1 Hck1) as (r' & Hr' & Hck' & Hle & Heq).
    exists r'. split_and!; [done|done|destruct Hv as [->|]; lia|]. intros E.
    destruct Hv as [->|Hv]; [by apply Heq|lia].
Qed.

Lemma reachable_row s : reachable s -> exists r, rowOf s = Some r /\ modeRowCheck r = true.
Proof.
  intros (s0 & Hi & Hr). pose proof (sinv_initial _ Hi) as Hs. destruct Hi as [clock ->].
  destruct (rows_along _ _ _ Hr Hs eq_refl eq_refl) as (r' & ? & ? & _). eauto.
Qed.

(** C4. The mode row under any interleaving: it always exists and satisfies the
    constraints of its table; along a run its version never decreases, and two
    states with the same version have the same row (so the version identifies
    the row); and every single step keeps the row, takes a normal or expired one,
    renews an unexpired one for the same owner and token, or returns it to
    normal. *)
Theorem lease_row_discipline s s' (Hr : reachable s) (Hrun : rtc (systemStep sha256) s s') :
  exists r r', rowOf s = Some r /\ rowOf s' = Some r' /\
    modeRowCheck r = true /\ modeRowCheck r' = true /\ row_version r <= row_version r' /\
    (row_version r = row_version r' -> r = r') /\
    (forall s1, systemStep sha256 s s1 -> rowStep (w_clock (sys_world s)) (rowOf s) (rowOf s1)).
Proof.
  destruct (reachable_row s Hr) as (r & Hrow & Hck). apply reachable_sinv in Hr.
  destruct (rows_along s s' r Hrun Hr Hrow Hck) as (r' & Hrow' & Hck' & Hle & Heq).
  exists r, r'. split_and!; try done. intros s1. by apply sinv_row.
Qed.

(** ** Fencing *)

(** A transaction of renewal, transition or release that does not present
    the owner and the token hash of the current row, or a renewal of an expired
    lease, changes nothing and does not commit, however the database fails. *)
Theorem lease_transactions_fenced h lease mode expiresAt transition lockTimeout err env db r :
  forall (Hrow : modes db = Some r) (Hclock : forall n, dbclock env n = dbclock env 0),
  (owns (row_owner r) (row_hash r) (LeaseOwnerID lease) h = false \/
   unexpired (row_expires r) (MkTime (dbclock env 0) None) = false ->
   let '((_, db'), ending) :=
     transaction (MFailed err) (mutateBody h lease mode expiresAt transition err) env (0%nat, db) in
   db' = db /\ (exists e, ending = RolledBack e)) /\
  (owns (row_owner r) (row_hash r) (LeaseOwnerID lease) h = false ->
   let '((_, db'), ending) :=
     transaction (ClearFailed err) (clearBody (LeaseOwnerID lease) h lockTimeout err) env (0%nat, db) in
   db' = db /\ (exists e, ending = RolledBack e)).
Proof.
  intros Hrow Hclock. split; intros Hno; destruct (transaction _ _ _ _) as [[n db'] ending] eqn:Htx;
    apply transaction_cases in Htx; destruct ending as [a|a|e];
    [destruct Htx as (m & Hb)|destruct Htx as (m & db1 & Hb & _)|by destruct Htx; eauto
    |destruct Htx as (m & Hb)|destruct Htx as (m & db1 & Hb & _)|by destruct Htx; eauto]; exfalso.
  1,2: eapply mutateBody_Ok in Hb as (r' & Hr' & Ho & Hh & Hu & _); [|exact Hclock];
    rewrite Hrow in Hr'; injection Hr' as <-; destruct Hno as [Hno|Hno]; [|congruence];
    pose proof (proj2 (owns_spec _ _ _ _) (conj Ho Hh)); congruence.
  all: apply clearBody_Ok in Hb as (r' & Hr' & Ho & Hh & _); rewrite Hrow in Hr'; injection Hr' as <-;
    pose proof (proj2 (owns_spec _ _ _ _) (conj Ho Hh)); congruence.
Qed.

(** ** Results *)
Definition subset (l l' : list ModeRow) : Prop := forall r, r ∈ l -> r ∈ l'.

Lemma acquirePost_mono request r l l' : subset l l' -> acquirePost sha256 request r l -> acquirePost sha256 request r l'.
Proof. intros Hs. destruct r; [|done]. intros ((row & Hin & Hrow) & Hrest). split; [exists row; auto|done]. Qed.

Lemma mutatePost_mono lease tr mode t r l l' :
  subset l l' -> mutatePost sha256 lease tr mode t r l -> mutatePost sha256 lease tr mode t r l'.
Proof. intros Hs. destruct r; [|done]. intros ((row & Hin & Hrow) & Hrest). split; [exists row; auto|done]. Qed.

Lemma releasePost_mono lease r l l' : subset l l' -> releasePost sha256 lease r l -> releasePost sha256 lease r l'.
Proof.
  intros Hs. destruct r; [|done]. intros ((row & Hin & Hrow) & (row' & Hin' & Hrow')).
  split; [exists row; auto|exists row'; auto].
Qed.

(** C5. What a finished call may report, under any interleaving and any
    failures: a lease returned by AcquireLease has the requested mode, owner and
    expiry and a 32 byte token, and the row once had exactly this mode, owner,
    token hash, expiry and version; a renewed or transitioned lease likewise,
    with the same owner and token; a successful ReleaseLease saw the row owned
    by the lease and a normal row; and no call fails by dereferencing a nil
    connection. *)
Theorem lease_results_justified s t pid c o (Hr : reachable s)
    (Ht : sys_threads s !! t = Some (MkThread pid c (Ret o))) :
  let rows := w_history (sys_world s) in
  match c, o with
  | CallAcquire request, OutLease r => acquirePost sha256 request r rows
  | CallRenew lease e, OutLease r => mutatePost sha256 lease false "" e r rows
  | CallTransition lease mode e, OutLease r => mutatePost sha256 lease true mode e r rows
  | CallRelease lease, OutReleased r => releasePost sha256 lease r rows
  | CallAcquireShared, OutShared r => fineResult r
  | CallReleaseShared _ _, OutUnit => True
  | CallGetMode, OutMode r => fineResult r
  | CallClaimsAllowed, OutAllowed r => fineResult r
  | CallClose, OutClosed e => fineOption e
  | TimerFires _ _ _, OutUnit => True
  | _, _ => False
  end.
Proof.
  apply reachable_sinv in Hr as (G & Ls & Hw & _ & Hth & _). specialize (Hth t _ Ht).
  destruct Hth as (_ & _ & Hpost). assert (Hs : subset (seen (Ls t)) (w_history (sys_world s))).
  { intros r. apply (i_seen _ _ _ Hw). }
  cbv zeta. simpl in Hpost.
  destruct c, o; try done; eauto using acquirePost_mono, mutatePost_mono, releasePost_mono.
Qed.

(** ** Connections *)
Definition finished (s : System) : Prop :=
  forall t th, sys_threads s !! t = Some th -> exists o, th_prog th = Ret o.

(** Who has a connection when no call is running. *)
Inductive Place :=
| Closed            (* closed by the client *)
| Pooled            (* idle in the pool, without a lock *)
| LeaseOf (sid : nat)  (* of an unreleased lease session *)
| WriteOf (sh : nat).  (* of an open shared session *)

Definition placed (w : World) (c : nat) (p : Place) : Prop :=
  match p with
  | Closed => c ∈ w_shut w
  | Pooled => is_Some (w_idle w !! c) /\ locksOf c w = []
  | LeaseOf sid => exists se, w_sessions w !! sid = Some se /\ s_released se = false /\ s_conn se = Some c
  | WriteOf sh => exists o, w_shared w !! sh = Some o /\ sh_done o = false /\ sh_conn o = c
  end.

Definition placeOwner (p : Place) : option Owner :=
  match p with
  | Closed => None
  | Pooled => Some OPool
  | LeaseOf sid => Some (OSession sid)
  | WriteOf sh => Some (OShared sh)
  end.

Lemma placeOwner_inj p q o : placeOwner p = Some o -> placeOwner q = Some o -> p = q.
Proof. destruct p, q; simpl; congruence. Qed.

(** Between calls a goroutine owns nothing. *)
Lemma finished_owns s Ls :
  finished s ->
  (forall t th, sys_threads s !! t = Some th -> safe (th_prog th) (Ls t) (post sha256 (th_call th))) ->
  (forall t, sys_threads s !! t = None -> Ls t = nothing) -> forall t, lc (Ls t) = ∅ /\ ls (Ls t) = ∅.
Proof.
  intros Hf Hth Hno t. destruct (sys_threads s !! t) as [th|] eqn:Et; [|by rewrite (Hno t Et)].
  destruct (Hf t th Et) as [o Ho]. specialize (Hth t th Et). rewrite Ho in Hth. by destruct Hth as (? & ? & _).
Qed.

Section Accounted.
Context (w : World) (G : gmap nat (Owner * Kind)) (Ls : nat -> Local) (Hw : winv w G Ls)
  (Hown : forall t, lc (Ls t) = ∅ /\ ls (Ls t) = ∅).

Lemma unlocked_all sid se : w_sessions w !! sid = Some se -> s_mu se = None.
Proof.
  intros Hs. destruct (s_mu se) as [t|] eqn:Et; [|done].
  pose proof (proj2 (i_mutex _ _ _ Hw t sid (s_conn se) (s_released se))
    (ex_intro _ se (conj Hs (conj Et (conj eq_refl eq_refl))))) as Hx.
  by rewrite (proj2 (Hown t)) in Hx.
Qed.

Lemma session_settled sid se :
  w_sessions w !! sid = Some se -> s_mu se = None /\ (s_released se = false <-> is_Some (s_conn se)).
Proof.
  intros Hs. pose proof (unlocked_all _ _ Hs) as Hm. split; [done|]. apply (i_session _ _ _ Hw sid se Hs Hm).
Qed.

Lemma placed_somewhere c : (c < w_next w)%nat -> exists p, placed w c p.
Proof.
  intros Hc. destruct (i_accounted _ _ _ Hw c Hc) as [?|[[o k] HG]]; [by exists Closed|].
  destruct o as [|t|sid|sh].
  - exists Pooled. destruct (i_pooled _ _ _ Hw c k HG) as [p Hp]. split; [by eexists|].
    apply (i_idle _ _ _ Hw) in Hp. exact (i_kind _ _ _ Hw _ _ _ Hp).
  - apply (i_thread _ _ _ Hw) in HG. by rewrite (proj1 (Hown t)) in HG.
  - destruct (i_sessionOf _ _ _ Hw c sid k HG) as (se & Hs & Hm & Hsc). exists (LeaseOf sid), se.
    split_and!; try done. apply (session_settled sid se Hs). by rewrite Hsc.
  - destruct (i_sharedOf _ _ _ Hw c sh k HG) as (o & Ho & Hd & Hsc). exists (WriteOf sh). by exists o.
Qed.

Lemma placed_owner c p : placed w c p -> p <> Closed -> exists o k, placeOwner p = Some o /\ G !! c = Some (o, k).
Proof.
  destruct p as [| |sid|sh]; simpl; [done|..].
  - intros [[pid Hp] _] _. exists OPool, KFree. split; [done|]. by eapply i_idle.
  - intros (se & Hs & _ & Hc) _. exists (OSession sid), KExclusive. split; [done|].
    by apply (i_session _ _ _ Hw sid se Hs (unlocked_all _ _ Hs)).
  - intros (o & Ho & Hd & <-) _. exists (OShared sh), KAdmitted. split; [done|]. by apply (i_shared _ _ _ Hw).
Qed.

Lemma placed_unique c p q : placed w c p -> placed w c q -> p <> Closed -> q <> Closed -> p = q.
Proof.
  intros Hp Hq Np Nq. destruct (placed_owner c p Hp Np) as (o & k & Ho & HG).
  destruct (placed_owner c q Hq Nq) as (o' & k' & Ho' & HG'). eapply placeOwner_inj; [done|congruence].
Qed.
End Accounted.

(** C6. No connection and no mutex leaks: when all calls have ended, every
    connection that was ever opened is closed, or idle in the pool without a
    lock, or the connection of an unreleased lease session or of an open shared
    session; the last three exclude each other, and no two sessions of either
    kind have the same connection; no session is left locked, and a lease
    session is unreleased exactly when it has a connection. *)
Theorem lease_connections_accounted s (Hr : reachable s) (Hf : finished s) :
  let w := sys_world s in
  (forall c, (c < w_next w)%nat -> exists p, placed w c p) /\
  (forall c p q, placed w c p -> placed w c q -> p <> Closed -> q <> Closed -> p = q) /\
  (forall sid se, w_sessions w !! sid = Some se -> s_mu se = None /\
     (s_released se = false <-> is_Some (s_conn se))).
Proof.
  apply reachable_sinv in Hr as (G & Ls & Hw & _ & Hth & Hno). cbv zeta.
  pose proof (finished_owns s Ls Hf Hth Hno) as Hown.
  split_and!; [by eapply placed_somewhere|by eapply placed_unique|by eapply session_settled].
Qed.

(** ** Undisturbed runs *)

(** A goroutine that runs alone, with the same scheduler choice for every
    action. *)
Fixpoint alone {A} (pid t : nat) (ch : Choice) (p : Prog A) (w : World) : option (A * World) :=
  match p with
  | Ret a => Some (a, w)
  | Vis a k => match perform pid t ch a w with
               | Some (r, w') => alone pid t ch (k r) w'
               | None => None
               end
  end.

Lemma alone_run pid t ch cl (p : Prog Outcome) w T o w' :
  T !! t = Some (MkThread pid cl p) -> alone pid t ch p w = Some (o, w') ->
  rtc (systemStep sha256) (MkSystem w T) (MkSystem w' (<[t := MkThread pid cl (Ret o)]> T)).
Proof.
  revert w T. induction p as [a|R a k IH]; intros w T Ht Hrun; simpl in Hrun.
  - injection Hrun as -> ->. by rewrite insert_id.
  - destruct (perform pid t ch a w) as [[r w1]|] eqn:Hp; [|done].
    eapply rtc_l; [by eapply step_perform|].
    specialize (IH r w1 (<[t := MkThread pid cl (k r)]> T)).
    rewrite lookup_insert_eq, insert_insert_eq in IH. by apply IH.
Qed.

(** One call after the other, each by a new goroutine of process [pid]. *)
Fixpoint inTurn (pid t : nat) (ch : Choice) (calls : list Call) (s : System) : option System :=
  match calls with
  | [] => Some s
  | c :: rest =>
      match sys_threads s !! t, alone pid t ch (operation sha256 c) (sys_world s) with
      | None, Some (o, w') =>
          inTurn pid (S t) ch rest (MkSystem w' (<[t := MkThread pid c (Ret o)]> (sys_threads s)))
      | _, _ => None
      end
  end.

Lemma inTurn_run pid ch calls : forall t s s',
  inTurn pid t ch calls s = Some s' -> rtc (systemStep sha256) s s'.
Proof.
  induction calls as [|c rest IH]; intros t [w T] s' Hrun; simpl in Hrun; [by injection Hrun as ->|].
  destruct (T !! t) eqn:Ht; [done|]. destruct (alone _ _ _ _ _) as [[o w1]|] eqn:Ho; [|done].
  eapply rtc_l; [by apply (step_call _ w T t pid c)|].
  etrans; [eapply (alone_run pid t ch c); [by rewrite lookup_insert_eq|exact Ho]|].
  rewrite insert_insert_eq. by eapply IH.
Qed.

Lemma inTurn_reachable pid t ch calls clock s :
  inTurn pid t ch calls (MkSystem (initialWorld clock) ∅) = Some s -> reachable s.
Proof. intros Hs. eexists. split; [by exists clock|]. by eapply inTurn_run. Qed.

End System.

(** ** Witnesses *)
Module LeaseWitness.
#[local] Existing Instance PgTruncate.
#[local] Existing Instance DecimalUUID.

Definition quietChoice : Choice :=
  MkChoice None false false (calm 0 zeroTime (fun _ => 0%N)) (repeat 7 32) None.

(** Any function to 32 values serves. *)
Definition digest (l : list Z) : list Z := (fun x => x + 1) <$> l.

Definition request : LeaseRequest := MkLeaseRequest "backup" 9 (MkTime 5000000 None).
Definition granted : Lease := MkLease "backup" 9 (repeat 7 32) (MkTime 5000000 None) 2.

Definition after (calls : list Call) : System :=
  or_zero (MkSystem (initialWorld 0) ∅)
    (inTurn digest 0 0 quietChoice calls (MkSystem (initialWorld 1000) ∅)).

Lemma after_reachable calls :
  is_Some (inTurn digest 0 0 quietChoice calls (MkSystem (initialWorld 1000) ∅)) ->
  reachable digest (after calls).
Proof.
  unfold after. intros [s Hs]. rewrite Hs. simpl. by eapply inTurn_reachable.
Qed.

Lemma maintenance_excludes_writes_witness :
  (admittedWrite 0 0 (sys_world (after [CallAcquireShared])) /\
   (0%nat, LockShared) ∈ w_locks (sys_world (after [CallAcquireShared])) /\
   normalDB (w_db (sys_world (after [CallAcquireShared]))) = true) /\
  (leaseSession 0 0 (sys_world (after [CallAcquire request])) /\
   (0%nat, LockExclusive) ∈ w_locks (sys_world (after [CallAcquire request]))).
Proof.
  assert (Hr : reachable digest (after [CallAcquireShared])).
  { apply after_reachable. vm_compute. by eexists. }
  assert (Hr' : reachable digest (after [CallAcquire request])).
  { apply after_reachable. vm_compute. by eexists. }
  assert (Ha : admittedWrite 0 0 (sys_world (after [CallAcquireShared]))).
  { exists (MkShared false 0). split_and!; [by vm_compute|done|done|by vm_compute]. }
  assert (Hl : leaseSession 0 0 (sys_world (after [CallAcquire request]))).
  { exists (MkSession None (Some 0%nat) 9 (Some 1%N) 1 false). split_and!; [by vm_compute|done|by vm_compute]. }
  split; (split; [done|]).
  - apply (maintenance_excludes_writes digest _ Hr) in Ha as (H1 & H2 & _). by split.
  - apply (maintenance_excludes_writes digest _ Hr') in Hl as (H1 & _). exact H1.
Defined.

Lemma lease_row_discipline_witness :
  exists r r', rowOf (after []) = Some r /\ rowOf (after [CallAcquire request]) = Some r' /\
    row_version r <= row_version r'.
Proof.
  assert (Hr : reachable digest (after [])) by (apply after_reachable; vm_compute; by eexists).
  assert (Hrun : rtc (systemStep digest) (after []) (after [CallAcquire request])).
  { eapply (inTurn_run digest 0 quietChoice [CallAcquire request] 0). vm_compute. reflexivity. }
  destruct (lease_row_discipline digest _ _ Hr Hrun) as (r & r' & H1 & H2 & _ & _ & H3 & _). eauto.
Defined.

Lemma lease_transactions_fenced_witness :
  exists e n, transaction (MFailed EConn)
    (mutateBody (repeat 0 32) granted "release" (MkTime 9000000 None) true EConn)
    (calm 1000 zeroTime (fun _ => 0%N)) (0%nat, w_db (sys_world (after [CallAcquire request]))) =
    ((n, w_db (sys_world (after [CallAcquire request]))), RolledBack e).
Proof.
  set (db := w_db (sys_world (after [CallAcquire request]))).
  set (r := or_zero (MkModeRow "" None None None None 0) (modes db)).
  assert (Hrow : modes db = Some r) by (vm_compute; reflexivity).
  assert (Hno : owns (row_owner r) (row_hash r) (LeaseOwnerID granted) (repeat 0 32) = false)
    by (vm_compute; reflexivity).
  pose proof (proj1 (lease_transactions_fenced (repeat 0 32) granted "release" (MkTime 9000000 None)
    true false EConn (calm 1000 zeroTime (fun _ => 0%N)) db r Hrow (fun _ => eq_refl)) (or_introl Hno)) as Hf.
  destruct (transaction _ _ _ _) as [[n db'] ending]. destruct Hf as [-> [e ->]]. eauto.
Defined.

Lemma lease_results_justified_witness :
  exists row, row ∈ w_history (sys_world (after [CallAcquire request])) /\ leaseRow digest granted row.
Proof.
  assert (Hr : reachable digest (after [CallAcquire request])) by (apply after_reachable; vm_compute; by eexists).
  assert (Ht : sys_threads (after [CallAcquire request]) !! 0%nat =
    Some (MkThread 0 (CallAcquire request) (Ret (OutLease (Ok granted))))) by (vm_compute; reflexivity).
  exact (proj1 (lease_results_justified digest _ _ _ _ _ Hr Ht)).
Defined.

Lemma lease_connections_accounted_witness :
  let w := sys_world (after [CallAcquire request; CallRelease granted]) in
  (0 < w_next w)%nat /\ exists p, placed w 0 p.
Proof.
  set (s := after [CallAcquire request; CallRelease granted]).
  assert (Hr : reachable digest s) by (apply after_reachable; vm_compute; by eexists).
  assert (Hf : finished s).
  { intros t th. change (sys_threads s) with
      ({[ 1%nat := MkThread 0 (CallRelease granted) (Ret (OutReleased (Ok tt)));
          0%nat := MkThread 0 (CallAcquire request) (Ret (OutLease (Ok granted)))]} : gmap nat Thread).
    rewrite lookup_insert_Some, lookup_singleton_Some. intros [[_ <-]|[_ [_ <-]]]; eauto. }
  assert (Hn : (0 < w_next (sys_world s))%nat) by (vm_compute; repeat constructor).
  split; [exact Hn|]. exact (proj1 (lease_connections_accounted digest s Hr Hf) 0%nat Hn).
Defined.

End LeaseWitness.
