(* ===== verification/LeaseProgress.v ===== *)
(** * Maintenance leases: progress

    A goroutine that nothing disturbs runs its call to the end with the result it
    was called for.  [alone] evaluates a program; the lemmas run the steps of
    acquiring, changing and releasing a lease symbolically. *)

From S2P Require Import Prelude GoTime GoText Pg OpsModel AlertStore AuditLog LeaseStore LeaseProofs LeaseSafety LeaseTheorems.
From stdpp Require Import base tactics list gmap strings relations.
From Stdlib Require Import ZArith Lia.
Open Scope Z_scope.
Section System.
Context `{PgTime} `{UUIDText} (sha256 : list Z -> list Z).
Record undisturbed (ch : Choice) : Prop := {
  u_fail : ch_fail ch = None; u_broken : ch_broken ch = false; u_reuse : ch_reuse ch = None;
  u_token : length (ch_token ch) = 32%nat; u_env : forall n, fault (ch_env ch) n = false
}.

Lemma alone_bind {A B} pid t ch (p : Prog A) (f : A -> Prog B) w :
  alone pid t ch (pbind p f) w =
  match alone pid t ch p w with Some (a, w') => alone pid t ch (f a) w' | None => None end.
Proof.
  revert w. induction p as [a|R a k IH]; intros w; simpl; [done|].
  destruct (perform _ _ _ _ _) as [[r w']|]; [apply IH|done].
Qed.

Lemma acquire_commits request token h e env db r :
  (forall n, fault env n = false) -> modes db = Some r -> isNormal r = true ->
  (forall n, dbclock env n = dbclock env 0) ->
  After (RequestExpiresAt request) (MkTime (dbclock env 0) None) = true ->
  let row := acquireRow request h (MkTime (dbclock env 0) None) r in
  modeRowCheck row = true ->
  exists n, transaction (AMapped e) (acquireBody request token h e) env (0%nat, db) =
    ((n, putRow row db), Committed (MkLease (RequestMode request) (RequestOwnerID request) token
            (pg (RequestExpiresAt request)) (row_version row))).
Proof.
  intros Hf Hr Hn Ht Ha row Hck. eexists. unfold transaction. rewrite Hf. unfold acquireBody.
  unfold dbind, roundtrip, databaseNow, dget, dput, dret, dfail.
  rewrite !Hf, Hr. rewrite !Hf, Ht, Ha, Hn. cbv [negb andb]. rewrite !Hf. fold row. rewrite Hck.
  rewrite Hf. reflexivity.
Qed.

Lemma clear_commits owner h lt e env db r :
  (forall n, fault env n = false) -> modes db = Some r -> owns (row_owner r) (row_hash r) owner h = true ->
  modeRowCheck (normalRow r) = true ->
  exists n, transaction (ClearFailed e) (clearBody owner h lt e) env (0%nat, db) =
    ((n, putRow (normalRow r) db), Committed tt).
Proof.
  intros Hf Hr Ho Hck. unfold transaction. rewrite Hf. unfold clearBody.
  unfold dbind, roundtrip, dget, dput, dret, dfail. destruct lt; rewrite ?Hf, Hr, Ho, ?Hf, Hck, ?Hf; simpl; rewrite ?Hf; eexists; reflexivity.
Qed.

(** A store that is open, on a connection the server has. *)
Definition idleWorld (pid : nat) (w : World) : Prop :=
  closed (storeOf pid w) = false /\ w_locks w = [] /\ usable (w_next w) w = true.

(** The state a granted lease leaves. *)
Record leased (pid : nat) (h : list Z) (owner : UUID) (w : World) (sid c : nat) : Prop := {
  l_open : closed (storeOf pid w) = false;
  l_found : sessions (storeOf pid w) !! h = Some sid;
  l_session : exists g, w_sessions w !! sid = Some (MkSession None (Some c) owner (Some g) g false);
  l_locks : w_locks w = [(c, LockExclusive)];
  l_usable : usable c w = true
}.

Lemma storeOf_set pid st w : storeOf pid (setStore pid st w) = st.
Proof. unfold storeOf. simpl. by rewrite lookup_insert_eq. Qed.

Lemma acquire_alone pid t ch w request r :
  undisturbed ch -> idleWorld pid w -> modes (w_db w) = Some r -> isNormal r = true ->
  maintenanceMode (RequestMode request) = true -> RequestOwnerID request <> NilUUID ->
  w_clock w < ns (RequestExpiresAt request) ->
  let h := sha256 (ch_token ch) in
  let row := acquireRow request h (MkTime (w_clock w) None) r in
  let lease := MkLease (RequestMode request) (RequestOwnerID request) (ch_token ch)
            (UTC (pg (RequestExpiresAt request))) (row_version r + 1) in
  modeRowCheck row = true ->
  exists w', alone pid t ch (AcquireLease sha256 request) w = Some (Ok lease, w') /\
    leased pid h (RequestOwnerID request) w' (w_object w) (w_next w) /\
    w_db w' = putRow row (w_db w) /\ w_clock w' = w_clock w.
Proof.
  intros Hu (Hopen & Hlocks & Huse) Hr Hn Hm Ho Ht h row lease Hck. destruct Hu as [Hfail Hbroken Hreuse Htoken Henv].
  unfold AcquireLease. rewrite Hm, (proj2 (N.eqb_neq _ _) Ho). cbv [negb orb].
  unfold whileAdmitted. cbn [alone perform]. rewrite Hopen. cbn [alone]. rewrite alone_bind.
  set (w1 := setStore pid _ w). unfold preflightLeaseAvailability. rewrite alone_bind. cbn [alone].
  unfold perform at 1. rewrite Hfail. unfold value, preflightQuery, dbind, dget, serverNow, dret, dfail.
  cbn [snd]. change (w_db w1) with (w_db w). rewrite Hr, Hn. cbv [negb andb]. cbn [snd alone].
  unfold perform at 1. rewrite Hfail, Htoken. cbn [Nat.eqb alone]. unfold perform at 1. rewrite Hfail, Hreuse. cbn [alone].
  unfold perform at 1. rewrite Hfail. change (w_next w1) with (w_next w).
  set (w2 := setNext _ w1). change (usable (w_next w) w2) with (usable (w_next w) w). rewrite Huse.
  unfold grantable. change (w_locks w2) with (w_locks w). rewrite Hlocks. cbn [forallb andb app]. set (w3 := setLocks _ w2).
  cbn [alone]. unfold perform at 1. rewrite Hfail. cbn [alone].
  unfold perform at 1. change (usable (w_next w) w3) with (usable (w_next w) w). rewrite Huse.
  destruct (acquire_commits request (ch_token ch) h (raw ch) (envAt ch w3) (w_db w3) r Henv Hr Hn
    (fun _ => eq_refl)) as [n Htx]; [by apply After_spec|exact Hck|].
  fold h. rewrite Htx, Hbroken. cbn [shutIf]. change (acquireRow _ _ _ r) with row.
  change (w_db w3) with (w_db w). set (w4 := setDB _ w3).
  cbn [alone]. unfold settleAcquire. rewrite alone_bind. unfold authoritativeLeaseState. rewrite alone_bind.
  unfold queryLeaseDBState. cbn [alone]. unfold perform at 1. rewrite Hfail.
  change (usable (w_next w) w4) with (usable (w_next w) w). rewrite Huse.
  unfold value, leaseStateQuery, dbind, dget, serverNow, dret, dfail. cbn [snd alone w_db w4 setDB modes putRow].
  unfold ownedBy, matchesLease. cbn [st_owner st_hash st_mode st_version st_expires row row_mode row_owner row_hash row_expires row_version acquireRow LeaseOwnerID LeaseMode LeaseVersion LeaseExpiresAt].
  unfold owns, Equal. rewrite !bool_decide_true by done. rewrite !Z.eqb_refl. cbn [negb andb orb alone].
  unfold perform at 1, registerLeaseSession. 
  assert (Hs4 : storeOf pid w4 = MkStore (sessions (storeOf pid w)) (sharedSessions (storeOf pid w))
    (nextSharedID (storeOf pid w)) false (S (admitted (storeOf pid w)))) by apply storeOf_set.
  rewrite Hs4. cbn [closed alone]. unfold perform. 
  eexists. split; [reflexivity|]. split; [|done].
  split; try done.
  - unfold storeOf. simpl. by rewrite !lookup_insert_eq.
  - unfold storeOf. simpl. rewrite !lookup_insert_eq. apply lookup_insert_eq.
  - exists (wrap64 (0 + 1)). apply lookup_insert_eq.
Qed.

Lemma putSession_id sid s w : w_sessions w !! sid = Some s -> putSession sid s w = w.
Proof. intros Hs. unfold putSession. rewrite insert_id by done. by destruct w. Qed.

Lemma putSession_put sid s s' w : putSession sid s (putSession sid s' w) = putSession sid s w.
Proof. unfold putSession, setSessions. simpl. by rewrite insert_insert_eq. Qed.

Lemma alone_read {A} pid t ch sid s (k : Session -> Prog A) w :
  w_sessions w !! sid = Some s -> alone pid t ch (Vis (ReadSession sid) k) w = alone pid t ch (k s) w.
Proof. intros Hs. cbn [alone perform]. unfold onSession. by rewrite Hs, putSession_id. Qed.

Lemma alone_update {A R} pid t ch (a : Act R) sid s s' r (k : R -> Prog A) w :
  w_sessions w !! sid = Some s ->
  (perform pid t ch a w = onSession sid w (fun _ => Some (r, s'))) ->
  alone pid t ch (Vis a k) w = alone pid t ch (k r) (putSession sid s' w).
Proof. intros Hs Hp. cbn [alone]. rewrite Hp. unfold onSession. by rewrite Hs. Qed.

Lemma alone_query {A B} pid t ch c (q : DB ModeDB StoreErr B) (k : result StoreErr B -> Prog A) w :
  ch_fail ch = None -> usable c w = true ->
  alone pid t ch (Vis (Query c q) k) w = alone pid t ch (k (value q (envAt ch w) (w_db w))) w.
Proof. intros Hf Hu. cbn [alone perform]. by rewrite Hf, Hu. Qed.

(** What [queryLeaseDBState] reads of a row. *)
Definition stateFrom (now : Z) (r : ModeRow) : leaseDBState :=
  MkLeaseDBState (row_mode r) (row_owner r) (row_hash r) (row_expires r) (row_version r)
    (match row_expires r with Some t => Sub t (MkTime now None) | None => 0 end).

Lemma alone_sessionState pid t ch sid s c r w :
  ch_fail ch = None -> usable c w = true -> w_sessions w !! sid = Some s -> s_conn s = Some c ->
  modes (w_db w) = Some r ->
  alone pid t ch (authoritativeLeaseSessionStateLocked sid) w = Some (Ok (stateFrom (w_clock w) r), w).
Proof.
  intros Hfail Huse Hs Hc Hr. unfold authoritativeLeaseSessionStateLocked.
  rewrite (alone_read _ _ _ _ s), Hc by done.
  erewrite (alone_update _ _ _ _ sid _ (withConn None s)); [|exact Hs|cbn [perform]; unfold onSession; by rewrite Hs].
  set (w1 := putSession sid _ w). rewrite alone_bind. unfold authoritativeLeaseState. rewrite alone_bind.
  unfold queryLeaseDBState. rewrite alone_query by done. cbn [alone].
  unfold value, leaseStateQuery, dbind, dget, serverNow, dret, dfail. cbn [snd]. change (w_db w1) with (w_db w).
  rewrite Hr. cbn [snd alone]. unfold perform, onSession, w1, putSession. simpl. rewrite lookup_insert_eq.
  f_equal. f_equal. unfold setSessions. simpl. rewrite insert_insert_eq. destruct s; simpl in *. subst.
  unfold withConn. simpl. rewrite insert_id by done. by destruct w.
Qed.

Lemma alone_releaseSession pid t ch h sid s c w :
  ch_fail ch = None -> usable c w = true -> w_sessions w !! sid = Some s -> s_conn s = Some c ->
  s_released s = false -> w_locks w = [(c, LockExclusive)] ->
  exists w' s', alone pid t ch (releaseSessionLocked h sid) w = Some (tt, w') /\
    w_db w' = w_db w /\ w_locks w' = [] /\ w_idle w' !! c = Some pid /\
    storeOf pid w' = withSessions (delete h (sessions (storeOf pid w))) (storeOf pid w) /\
    w_sessions w' !! sid = Some s'.
Proof.
  intros Hfail Huse Hs Hc Hrel Hl. unfold releaseSessionLocked. rewrite (alone_read _ _ _ _ s), Hrel, Hc by done.
  erewrite (alone_update _ _ _ _ sid _ (withConn None s)); [|exact Hs|cbn [perform]; unfold onSession; by rewrite Hs].
  set (w1 := putSession sid _ w). cbn [alone]. unfold perform at 1.
  assert (H1 : w_sessions w1 !! sid = Some (withConn None s)) by apply lookup_insert_eq.
  rewrite H1. cbn [withConn s_released]. rewrite Hrel. cbn [alone releaseExclusiveConnection releaseConnection].
  unfold releaseExclusiveConnection, releaseConnection. cbn [alone]. unfold perform at 1. rewrite Hfail.
  set (w2 := putSession sid _ _). change (usable c w2) with (usable c w). rewrite Huse.
  unfold holds. change (w_locks w2) with (w_locks w). rewrite Hl.
  rewrite bool_decide_true by by apply list_elem_of_singleton. cbn [alone removeLock].
  rewrite Nat.eqb_refl, bool_decide_true by done. cbn [andb]. unfold perform.
  unfold usable in Huse. apply andb_true_iff in Huse as [_ Huse]. apply negb_true_iff in Huse.
  change (w_shut (setLocks [] w2)) with (w_shut w). rewrite Huse.
  do 2 eexists. split; [reflexivity|]. split_and!; try done; simpl.
  - apply lookup_insert_eq.
  - apply storeOf_set.
  - apply lookup_insert_eq.
Qed.

(** The world inside the body of [withSession]: admitted, the session locked. *)
Definition entered (pid t sid : nat) (s : Session) (w : World) : World :=
  let st := storeOf pid w in
  putSession sid (withMu (Some t) s)
    (setStore pid (MkStore (sessions st) (sharedSessions st) (nextSharedID st) false (S (admitted st))) w).

Lemma alone_withSession {A} pid t ch w lease (body : list Z -> nat -> Prog (result StoreErr A)) sid c g :
  ch_fail ch = None -> leased pid (sha256 (LeaseToken lease)) (LeaseOwnerID lease) w sid c ->
  LeaseOwnerID lease <> NilUUID -> length (LeaseToken lease) = 32%nat ->
  w_sessions w !! sid = Some (MkSession None (Some c) (LeaseOwnerID lease) (Some g) g false) ->
  alone pid t ch (withSession sha256 lease body) w =
  match alone pid t ch (body (sha256 (LeaseToken lease)) sid)
          (entered pid t sid (MkSession None (Some c) (LeaseOwnerID lease) (Some g) g false) w) with
  | Some (r, w') => alone pid t ch (act _ <- UnlockSession sid; act _ <- Done_; Ret r) w'
  | None => None
  end.
Proof.
  intros Hfail [Hopen Hfound _ Hlocks Huse] Ho Hlen Hsess.
  unfold withSession, whileAdmitted. cbn [alone perform]. rewrite Hopen. cbn [alone]. rewrite alone_bind.
  set (w1 := setStore pid _ w). rewrite alone_bind. unfold sessionFor.
  rewrite (proj2 (N.eqb_neq _ _) Ho), Hlen. cbn [Nat.eqb negb orb alone perform].
  assert (Hs1 : sessions (storeOf pid w1) !! sha256 (LeaseToken lease) = Some sid) by (unfold w1; by rewrite storeOf_set).
  rewrite Hs1. cbn [fmap option_fmap option_map].
  set (h := sha256 (LeaseToken lease)) in *.
  set (s2 := MkSession (Some t) (Some c) (LeaseOwnerID lease) (Some g) g false).
  change (alone pid t ch (Ret (Some (h, sid))) w1) with (Some (Some (h, sid), w1)). cbv beta iota.
  erewrite (alone_update _ _ _ _ sid _ s2); [|exact Hsess|cbn [perform]; unfold onSession; change (w_sessions w1) with (w_sessions w); by rewrite Hsess].
  set (w2 := putSession sid s2 w1). cbv beta iota. rewrite alone_bind.
  assert (H2 : w_sessions w2 !! sid = Some s2) by apply lookup_insert_eq.
  rewrite (alone_read _ _ _ _ s2) by done. cbn [s2 s_released]. cbn [alone perform]. rewrite Hfail. cbn [alone].
  change (entered pid t sid _ w) with w2. destruct (alone pid t ch (body h sid) w2) as [[r w']|]; [|done].
  cbn [alone perform]. destruct (onSession _ _ _) as [[[] w'']|]; done.
Qed.

Lemma release_alone pid t ch w lease r sid c :
  undisturbed ch -> leased pid (sha256 (LeaseToken lease)) (LeaseOwnerID lease) w sid c ->
  LeaseOwnerID lease <> NilUUID -> length (LeaseToken lease) = 32%nat ->
  modes (w_db w) = Some r ->
  owns (row_owner r) (row_hash r) (LeaseOwnerID lease) (sha256 (LeaseToken lease)) = true ->
  modeRowCheck (normalRow r) = true ->
  exists w', alone pid t ch (ReleaseLease sha256 lease) w = Some (Ok tt, w') /\
    w_db w' = putRow (normalRow r) (w_db w) /\ w_locks w' = [] /\
    sessions (storeOf pid w') !! sha256 (LeaseToken lease) = None /\ w_idle w' !! c = Some pid.
Proof.
  intros [Hfail Hbroken Hreuse Htoken Henv] Hl Ho Hlen Hr Hown Hck.
  destruct (l_session _ _ _ _ _ _ Hl) as [g Hsess].
  unfold ReleaseLease. rewrite (alone_withSession _ _ _ _ _ _ sid c g Hfail Hl) by done. destruct Hl as [Hopen Hfound _ Hlocks Huse].
  set (h := sha256 (LeaseToken lease)) in *.
  set (s2 := MkSession (Some t) (Some c) (LeaseOwnerID lease) (Some g) g false).
  set (w2 := entered _ _ _ _ _). assert (H2 : w_sessions w2 !! sid = Some s2) by apply lookup_insert_eq.
  rewrite !alone_bind. cbn [clearAttempts]. rewrite alone_bind. unfold clearLeaseAndReleaseLocked.
  rewrite (alone_read _ _ _ _ s2) by done. cbn [s2 s_conn]. cbn [alone]. unfold perform at 1.
  change (usable c w2) with (usable c w). rewrite Huse.
  destruct (clear_commits (LeaseOwnerID lease) h true (raw ch) (envAt ch w2) (w_db w2) r Henv Hr Hown Hck) as [n Htx].
  rewrite Htx, Hbroken. cbn [shutIf]. set (w3 := setDB _ w2). cbn [alone commitErr].
  assert (H3 : w_sessions w3 !! sid = Some s2) by apply lookup_insert_eq.
  unfold settleRelease. rewrite alone_bind.
  rewrite (alone_sessionState _ _ _ _ s2 c (normalRow r)) by done. rewrite (alone_read _ _ _ _ s2) by done.
  cbn [s2 s_conn stateFrom st_mode st_owner st_expires normalRow row_mode row_owner row_expires].
  rewrite !bool_decide_true by done. cbn [andb]. rewrite alone_bind.
  destruct (alone_releaseSession pid t ch h sid s2 c w3) as (w4 & s4 & Hrun & Hdb & Hl4 & Hi4 & Hst4 & Hs4); try done.
  rewrite Hrun. cbn [alone]. unfold perform, onSession. rewrite Hs4. eexists. split; [reflexivity|].
  split_and!; try done. rewrite storeOf_set. cbn [sessions].
  change (storeOf pid (putSession sid (withMu None s4) w4)) with (storeOf pid w4). rewrite Hst4.
  apply lookup_delete_eq.
Qed.

Lemma mutate_commits h lease mode expiresAt transition e env db r :
  (forall n, fault env n = false) -> (forall n, dbclock env n = dbclock env 0) -> modes db = Some r ->
  owns (row_owner r) (row_hash r) (LeaseOwnerID lease) h = true ->
  unexpired (row_expires r) (MkTime (dbclock env 0) None) = true ->
  After expiresAt (MkTime (dbclock env 0) None) = true ->
  let row := mutateRow transition mode expiresAt r in
  modeRowCheck row = true ->
  exists n, transaction (MFailed e) (mutateBody h lease mode expiresAt transition e) env (0%nat, db) =
    ((n, putRow row db), Committed (MkLease (row_mode row) (LeaseOwnerID lease) (LeaseToken lease)
       (pg expiresAt) (row_version row))).
Proof.
  intros Hf Ht Hr Ho Hu Ha row Hck. eexists. unfold transaction. rewrite Hf. unfold mutateBody.
  unfold dbind, roundtrip, databaseNow, dget, dput, dret, dfail.
  rewrite !Hf, Hr. rewrite !Hf, Ht, Ho, Hu, Ha. cbv [negb]. rewrite !Hf. fold row. rewrite Hck, Hf. reflexivity.
Qed.

Lemma mutate_alone pid t ch w lease mode expiresAt transition r sid c :
  undisturbed ch -> leased pid (sha256 (LeaseToken lease)) (LeaseOwnerID lease) w sid c ->
  LeaseOwnerID lease <> NilUUID -> length (LeaseToken lease) = 32%nat ->
  modes (w_db w) = Some r ->
  owns (row_owner r) (row_hash r) (LeaseOwnerID lease) (sha256 (LeaseToken lease)) = true ->
  unexpired (row_expires r) (MkTime (w_clock w) None) = true -> w_clock w < ns expiresAt ->
  let row := mutateRow transition mode expiresAt r in
  modeRowCheck row = true ->
  exists w', alone pid t ch (mutateLease sha256 lease mode expiresAt transition) w =
      Some (Ok (MkLease (row_mode row) (LeaseOwnerID lease) (LeaseToken lease) (UTC (pg expiresAt)) (row_version row)), w') /\
    leased pid (sha256 (LeaseToken lease)) (LeaseOwnerID lease) w' sid c /\
    w_db w' = putRow row (w_db w) /\ w_clock w' = w_clock w.
Proof.
  intros [Hfail Hbroken Hreuse Htoken Henv] Hl Ho Hlen Hr Hown Hun Hexp row Hck.
  destruct (l_session _ _ _ _ _ _ Hl) as [g Hsess].
  unfold mutateLease. rewrite (alone_withSession _ _ _ _ _ _ sid c g Hfail Hl) by done. destruct Hl as [Hopen Hfound _ Hlocks Huse].
  set (h := sha256 (LeaseToken lease)) in *.
  set (s2 := MkSession (Some t) (Some c) (LeaseOwnerID lease) (Some g) g false).
  set (w2 := entered _ _ _ _ _). assert (H2 : w_sessions w2 !! sid = Some s2) by apply lookup_insert_eq.
  rewrite !alone_bind. cbn [mutateAttempts]. rewrite alone_bind. unfold mutateLeaseTransaction.
  rewrite (alone_read _ _ _ _ s2) by done. cbn [s2 s_conn]. cbn [alone]. unfold perform at 1.
  change (usable c w2) with (usable c w). rewrite Huse.
  destruct (mutate_commits h lease mode expiresAt transition (raw ch) (envAt ch w2) (w_db w2) r Henv (fun _ => eq_refl) Hr Hown Hun) as [n Htx];
    [by apply After_spec|done|].
  rewrite Htx, Hbroken. cbn [shutIf]. fold row. set (w3 := setDB _ w2). cbn [alone commitErr].
  assert (H3 : w_sessions w3 !! sid = Some s2) by apply lookup_insert_eq.
  unfold settleMutation. rewrite alone_bind.
  rewrite (alone_sessionState _ _ _ _ s2 c row) by done. rewrite (alone_read _ _ _ _ s2) by done.
  cbn [s2 s_conn]. unfold ownedBy. cbn [stateFrom st_owner st_hash]. change (row_owner row) with (row_owner r).
  change (row_hash row) with (row_hash r). rewrite Hown. cbn [negb].
  erewrite (alone_update _ _ _ _ sid _ (armed s2)); [|exact H3|cbn [perform]; unfold onSession; by rewrite H3].
  unfold matchesLease. cbn [stateFrom st_mode st_version st_expires row mutateRow row_mode row_expires row_version LeaseMode LeaseVersion LeaseExpiresAt].
  unfold Equal. rewrite bool_decide_true, !Z.eqb_refl by done. cbn [negb andb alone].
  assert (H4 : w_sessions (putSession sid (armed s2) w3) !! sid = Some (armed s2)) by apply lookup_insert_eq.
  unfold perform, onSession. rewrite H4. eexists. split; [reflexivity|]. split; [|done]. split; try done.
  - unfold storeOf. simpl. by rewrite !lookup_insert_eq.
  - unfold storeOf. simpl. rewrite !lookup_insert_eq. exact Hfound.
  - exists (wrap64 (g + 1)). simpl. rewrite lookup_insert_eq. done.
Qed.

(** The row while [request]'s lease is held. *)
Definition heldRow (request : LeaseRequest) (token : list Z) (since : Z) (mode : string) (expiresAt : Time)
    (version : Z) : ModeRow :=
  MkModeRow mode (Some (RequestOwnerID request)) (Some (sha256 token)) (Some (pg expiresAt))
    (Some (MkTime since None)) version.

(** The lease that says so. *)
Definition heldLease (request : LeaseRequest) (token : list Z) (mode : string) (expiresAt : Time)
    (version : Z) : Lease :=
  MkLease mode (RequestOwnerID request) token (UTC (pg expiresAt)) version.

Lemma heldRow_check request token since mode expiresAt version :
  length (sha256 token) = 32%nat -> maintenanceMode mode = true -> 1 <= version <= int8Max ->
  modeRowCheck (heldRow request token since mode expiresAt version) = true.
Proof.
  intros Hsha Hm Hb. unfold modeRowCheck, heldRow. simpl. rewrite (maintenance_not_normal mode Hm), Hsha, Nat.eqb_refl.
  unfold maintenanceMode, member in *. bool_simpl. unfold AlertStore.between.
  rewrite (proj2 (Z.leb_le _ _)), (proj2 (Z.leb_le _ _)) by lia. rewrite bool_decide_true by set_solver. done.
Qed.

(** Changing a held lease: with [transition], to [mode']. *)
Lemma change_alone pid t ch w request mode expiresAt version (transition : bool) mode' expiresAt' sid c since :
  undisturbed ch -> leased pid (sha256 (ch_token ch)) (RequestOwnerID request) w sid c ->
  RequestOwnerID request <> NilUUID -> length (sha256 (ch_token ch)) = 32%nat ->
  modes (w_db w) = Some (heldRow request (ch_token ch) since mode expiresAt version) ->
  w_clock w < stored (ns expiresAt) -> w_clock w < ns expiresAt' ->
  1 <= version -> version + 1 <= int8Max ->
  maintenanceMode (if transition then mode' else mode) = true ->
  let mode1 := if transition then mode' else mode in
  exists w', alone pid t ch (mutateLease sha256 (heldLease request (ch_token ch) mode expiresAt version)
      mode' expiresAt' transition) w =
      Some (Ok (heldLease request (ch_token ch) mode1 expiresAt' (version + 1)), w') /\
    leased pid (sha256 (ch_token ch)) (RequestOwnerID request) w' sid c /\
    modes (w_db w') = Some (heldRow request (ch_token ch) since mode1 expiresAt' (version + 1)) /\
    w_clock w' = w_clock w.
Proof.
  intros Hch Hl Ho Hsha Hrow Hun Hexp Hv Hroom Hmode mode1.
  destruct (mutate_alone pid t ch w (heldLease request (ch_token ch) mode expiresAt version) mode' expiresAt'
    transition _ sid c Hch Hl Ho (u_token _ Hch) Hrow) as (w' & Hrun & Hl' & Hdb & Hc);
    [by apply owns_spec|by apply After_spec|done
    |apply (heldRow_check request (ch_token ch) since mode1 expiresAt' (version + 1)); [done|done|lia]|].
  exists w'. by rewrite Hdb.
Qed.

(** C7. Progress and round trip of a lease when nothing disturbs it: on an open
    store with a normal row and no lock held, AcquireLease returns a lease and
    leaves its session holding the exclusive lock; then RenewLease, TransitionLease
    and ReleaseLease each succeed.  After every call the row is stated in full:
    the mode, owner, token hash, expiry and time of entry the calls asked for, one
    version later each time, and normal again at the end, when no lock is held,
    the connection is back in the pool and the session is forgotten. *)
Theorem lease_round_trip pid t ch w request renewed expiresAt mode r
    (Hch : undisturbed ch) (Hw : idleWorld pid w)
    (Hrow : modes (w_db w) = Some r) (Hok : modeRowCheck r = true) (Hnormal : isNormal r = true)
    (Hroom : row_version r + 4 <= int8Max)
    (Hmode : maintenanceMode (RequestMode request) = true) (Hmode' : maintenanceMode mode = true)
    (Howner : RequestOwnerID request <> NilUUID) (Hsha : length (sha256 (ch_token ch)) = 32%nat)
    (Hlive : w_clock w < stored (ns (RequestExpiresAt request)))
    (Hfuture : w_clock w < ns (RequestExpiresAt request))
    (Hlive' : w_clock w < stored (ns renewed)) (Hrenewed : w_clock w < ns renewed)
    (Hlater : w_clock w < ns expiresAt) :
  let token := ch_token ch in
  let lease := heldLease request token in
  let row := heldRow request token (w_clock w) in
  let v := row_version r in
  exists w1 w2 w3 w4,
    alone pid t ch (AcquireLease sha256 request) w =
      Some (Ok (lease (RequestMode request) (RequestExpiresAt request) (v + 1)), w1) /\
    modes (w_db w1) = Some (row (RequestMode request) (RequestExpiresAt request) (v + 1)) /\
    w_locks w1 = [(w_next w, LockExclusive)] /\
    alone pid t ch (RenewLease sha256 (lease (RequestMode request) (RequestExpiresAt request) (v + 1)) renewed) w1 =
      Some (Ok (lease (RequestMode request) renewed (v + 2)), w2) /\
    modes (w_db w2) = Some (row (RequestMode request) renewed (v + 2)) /\
    w_locks w2 = [(w_next w, LockExclusive)] /\
    alone pid t ch (TransitionLease sha256 (lease (RequestMode request) renewed (v + 2)) mode expiresAt) w2 =
      Some (Ok (lease mode expiresAt (v + 3)), w3) /\
    modes (w_db w3) = Some (row mode expiresAt (v + 3)) /\
    w_locks w3 = [(w_next w, LockExclusive)] /\
    alone pid t ch (ReleaseLease sha256 (lease mode expiresAt (v + 3))) w3 = Some (Ok tt, w4) /\
    modes (w_db w4) = Some (MkModeRow "normal" None None None None (v + 4)) /\
    w_locks w4 = [] /\ w_idle w4 !! w_next w = Some pid /\
    sessions (storeOf pid w4) !! sha256 token = None.
Proof.
  cbv zeta. set (v := row_version r) in *.
  assert (Hv : 1 <= v) by (unfold modeRowCheck, AlertStore.between in Hok; bool_simpl; lia).
  destruct (acquire_alone pid t ch w request r Hch Hw Hrow Hnormal Hmode Howner Hfuture)
    as (w1 & Hrun1 & Hl1 & Hdb1 & Hc1).
  { apply (heldRow_check request (ch_token ch) (w_clock w) (RequestMode request) (RequestExpiresAt request) (v + 1));
      [done|done|lia]. }
  destruct (change_alone pid t ch w1 request (RequestMode request) (RequestExpiresAt request) (v + 1) false ""
    renewed _ _ (w_clock w) Hch Hl1 Howner Hsha) as (w2 & Hrun2 & Hl2 & Hdb2 & Hc2);
    [by rewrite Hdb1|rewrite Hc1; done..|lia|lia|done|].
  destruct (change_alone pid t ch w2 request (RequestMode request) renewed (v + 1 + 1) true mode
    expiresAt _ _ (w_clock w) Hch Hl2 Howner Hsha) as (w3 & Hrun3 & Hl3 & Hdb3 & Hc3);
    [by rewrite Hdb2|rewrite Hc2, Hc1; done..|lia|lia|done|].
  destruct (release_alone pid t ch w3 (heldLease request (ch_token ch) mode expiresAt (v + 1 + 1 + 1)) _ _ _ Hch Hl3
    Howner (u_token _ Hch) Hdb3) as (w4 & Hrun4 & Hdb4 & Hlk4 & Hs4 & Hi4); [by apply owns_spec| |].
  { unfold modeRowCheck, AlertStore.between, heldRow. simpl.
    rewrite (proj2 (Z.leb_le _ _)), (proj2 (Z.leb_le _ _)) by lia. done. }
  replace (v + 1 + 1 + 1) with (v + 3) in * by lia. replace (v + 1 + 1) with (v + 2) in * by lia.
  exists w1, w2, w3, w4. unfold TransitionLease, RenewLease. rewrite Hmode'. cbn [negb].
  split_and!; try done; [by rewrite Hdb1|apply (l_locks _ _ _ _ _ _ Hl1)|apply (l_locks _ _ _ _ _ _ Hl2)
    |apply (l_locks _ _ _ _ _ _ Hl3)|].
  rewrite Hdb4. unfold normalRow. simpl. do 2 f_equal. lia.
Qed.

End System.

#[local] Existing Instance PgTruncate.
#[local] Existing Instance DecimalUUID.

Lemma lease_round_trip_witness :
  exists lease w1, alone 0 0 LeaseWitness.quietChoice
    (AcquireLease LeaseWitness.digest LeaseWitness.request) (initialWorld 1000) = Some (Ok lease, w1).
Proof.
  destruct (lease_round_trip LeaseWitness.digest 0 0 LeaseWitness.quietChoice (initialWorld 1000)
    LeaseWitness.request (MkTime 7000000 None) (MkTime 9000000 None) "release"
    (MkModeRow "normal" None None None None 1))
    as (w1 & _ & _ & _ & Hrun & _); try reflexivity; try done.
  eexists _, w1. exact Hrun.
Defined.
