(* ===== verification/FilesModel.v ===== *)
(** * Uploads: data, policies and the arithmetic of parts

    Models [internal/files/model.go], [upload_policy.go] and the pure functions of
    [upload_service.go].  Sizes and part numbers are 64-bit integers: the product
    in [expectedPartSize] is written with its wrap-around. *)

From S2P Require Import Prelude GoTime GoText GoStrings Pg OpsModel.
From stdpp Require Import base tactics list gmap strings sorting.
From Stdlib Require Import ZArith Lia.

Open Scope Z_scope.

Module Files.

(** ** Constants and errors *)
Definition MaxUploadSize : Z := 524288000.
Definition UploadPartSize : Z := 8 * 1024 * 1024.
Definition FileRetentionPeriod : Z := 30 * day.
Definition attachmentOrphanRetentionPeriod : Z := 24 * hour.
Definition uploadTTL : Z := 24 * hour.
Definition cleanupGrace : Z := hour.

Inductive Error :=
| ErrInvalid | ErrForbidden | ErrNotFound | ErrUploadExpired | ErrUploadConflict
| ErrUploadPartConflict | ErrTooManyPartRequests | ErrUploadIncomplete | ErrPartHashMismatch
| ErrFinalHashMismatch | ErrAccessUnavailable | ErrFileInUse | ErrFileVersionExpired
| ErrFileNotRetryable | ErrFileTooLarge | ErrFileTypeRejected | ErrDraftConflict
| ErrRange (size : Z)         (* *RangeError *)
| ErrDatabase                 (* what the database driver reports *)
| ErrNoRows                   (* pgx.ErrNoRows, where the code does not map it *)
| ErrArguments                (* a placeholder of the statement has no argument *)
| ErrObject                   (* an error of the object store other than ErrNotFound *)
| ErrText (text : string).    (* errors.New(text) *)

Global Instance Error_eq_dec : EqDecision Error.
Proof. solve_decision. Defined.

(** ** Data *)
Inductive UploadState := UploadOpen | UploadCompleting | UploadCompleted | UploadCancelled | UploadExpired.
Inductive UploadPurpose := UploadPurposeTeaching | UploadPurposeQA | UploadPurposeAI.

Global Instance UploadState_eq_dec : EqDecision UploadState.
Proof. solve_decision. Defined.
Global Instance UploadPurpose_eq_dec : EqDecision UploadPurpose.
Proof. solve_decision. Defined.

Record CreateUploadInput := MkCreateUpload {
  InDisplayName : string; InDeclaredMIME : string; InExpectedSize : Z; InExpectedSHA256 : string
}.

Record UploadSession := MkUploadSession {
  SessionID_ : UUID;
  ActorUserID : UUID;
  Purpose : UploadPurpose;
  ObjectKey : string;
  MinIOUploadID : string;
  DisplayName : string;
  DeclaredMIME : string;
  ExpectedSize : Z;
  ExpectedSHA256 : string;
  State : UploadState;
  ExpiresAt : Time;
  CreatedAt : Time
}.

Record UploadPart := MkUploadPart {
  PartSession : UUID; Number : Z; Size : Z; SHA256 : string; ETag : string; PartCreatedAt : Time
}.

Record PartView := MkPartView { ViewNumber : Z; ViewSize : Z; ViewSHA256 : string }.

Record UploadView := MkUploadView {
  ViewID : UUID; ViewName : string; ViewMIME : string; ViewExpectedSize : Z; ViewExpectedSHA256 : string;
  ViewState : UploadState; ViewExpiresAt : Time; ViewParts : list PartView
}.

Record CompletedUpload := MkCompleted {
  FileID : UUID; FileVersionID : UUID; ProcessingState : string
}.

(** [objectstore.Part]. *)
Record ObjectPart := MkObjectPart { ObjectPartNumber : Z; ObjectETag : string; ObjectPartSize : Z }.

Global Instance UploadPart_eq_dec : EqDecision UploadPart.
Proof. solve_decision. Defined.
Global Instance UploadSession_eq_dec : EqDecision UploadSession.
Proof. solve_decision. Defined.
Global Instance CompletedUpload_eq_dec : EqDecision CompletedUpload.
Proof. solve_decision. Defined.

Definition withState (s : UploadState) (u : UploadSession) : UploadSession :=
  MkUploadSession (SessionID_ u) (ActorUserID u) (Purpose u) (ObjectKey u) (MinIOUploadID u) (DisplayName u)
    (DeclaredMIME u) (ExpectedSize u) (ExpectedSHA256 u) s (ExpiresAt u) (CreatedAt u).

(** ** Names and types *)
Definition validDisplayName (name : string) : bool :=
  negb (bool_decide (name = EmptyString)) && ValidString name
  && (RuneCountInString name <=? 255) && trimmed name
  && negb (bool_decide (name = ".")) && negb (bool_decide (name = ".."))
  && negb (existsb (fun b => existsb (Z.eqb b) [47; 92; 0; 13; 10]) (bytes name))
  && forallb (fun r => negb (r <? 32) && negb (r =? 127)) (runes name)
  && negb (bool_decide (Ext (bytes name) = [])).

Definition wordMIME : string := "application/vnd.openxmlformats-officedocument.wordprocessingml.document".
Definition sheetMIME : string := "application/vnd.openxmlformats-officedocument.spreadsheetml.sheet".
Definition slidesMIME : string := "application/vnd.openxmlformats-officedocument.presentationml.presentation".

Definition allowedUploadTypes : list (string * list string) :=
  [(".pdf", ["application/pdf"]); (".docx", [wordMIME]); (".xlsx", [sheetMIME]); (".pptx", [slidesMIME]);
   (".txt", ["text/plain"]); (".md", ["text/markdown"]);
   (".jpg", ["image/jpeg"]); (".jpeg", ["image/jpeg"]); (".png", ["image/png"]); (".webp", ["image/webp"]);
   (".gif", ["image/gif"]); (".mp4", ["video/mp4"]); (".webm", ["video/webm"]); (".ogg", ["video/ogg"]);
   (".ogv", ["video/ogg"]); (".mov", ["video/quicktime"]); (".avi", ["video/x-msvideo"]);
   (".mkv", ["video/x-matroska"])].

Definition mib (n : Z) : Z := Z.shiftl n 20.

Definition qaUploadLimits : list (string * list (string * Z)) :=
  [(".jpg", [("image/jpeg", mib 20)]); (".jpeg", [("image/jpeg", mib 20)]); (".png", [("image/png", mib 20)]);
   (".webp", [("image/webp", mib 20)]); (".gif", [("image/gif", mib 20)]); (".pdf", [("application/pdf", mib 50)]);
   (".docx", [(wordMIME, mib 30)]); (".xlsx", [(sheetMIME, mib 30)]); (".pptx", [(slidesMIME, mib 30)]);
   (".txt", [("text/plain", mib 10)]); (".md", [("text/markdown", mib 10)])].

Definition aiUploadLimits : list (string * list (string * Z)) :=
  [(".jpg", [("image/jpeg", mib 20)]); (".jpeg", [("image/jpeg", mib 20)]); (".png", [("image/png", mib 20)]);
   (".webp", [("image/webp", mib 20)]); (".gif", [("image/gif", mib 20)]); (".pdf", [("application/pdf", mib 50)]);
   (".docx", [(wordMIME, mib 30)]); (".txt", [("text/plain", mib 10)]); (".md", [("text/markdown", mib 10)])].

(** A map indexed by a computed extension, and by a string. *)
Definition byExt {A} (m : list (string * A)) (ext : list Z) : option A :=
  snd <$> List.find (fun '(k, _) => sameText ext k) m.
Definition byName {A} (m : list (string * A)) (name : string) : option A :=
  snd <$> List.find (fun '(k, _) => bool_decide (k = name)) m.

Definition validCreateInput (i : CreateUploadInput) : bool :=
  if (InExpectedSize i <? 1) || (MaxUploadSize <? InExpectedSize i) || negb (validHash (InExpectedSHA256 i))
     || negb (validDisplayName (InDisplayName i)) then false
  else existsb (fun allowed => bool_decide (InDeclaredMIME i = allowed))
         (or_zero [] (byExt allowedUploadTypes (lowerExt (InDisplayName i)))).

Definition validateLimitedUpload (i : CreateUploadInput) (limits : list (string * list (string * Z))) :
  result Error unit :=
  (reject (InExpectedSize i <? 1) || negb (validHash (InExpectedSHA256 i)) || negb (validDisplayName (InDisplayName i))
     with ErrInvalid;
   match byName (or_zero [] (byExt limits (lowerExt (InDisplayName i)))) (InDeclaredMIME i) with
   | None => Err ErrFileTypeRejected
   | Some limit =>
     reject (limit <? InExpectedSize i) with ErrFileTooLarge;
     Ok tt
   end)%go.

(** ** Policies *)
Definition policyAuthorize (purpose : UploadPurpose) (p : Principal) : result Error unit :=
  let active := negb (User_ID p =? NilUUID)%N && bool_decide (User_Status p = StatusActive) in
  let allowed :=
    match purpose with
    | UploadPurposeTeaching => bool_decide (User_Role p = RoleAdmin)
    | UploadPurposeQA => bool_decide (User_Role p = RoleStudent) || bool_decide (User_Role p = RoleAdmin)
    | UploadPurposeAI => bool_decide (User_Role p = RoleStudent)
    end in
  if active && allowed then Ok tt else Err ErrForbidden.

Definition policyValidate (purpose : UploadPurpose) (i : CreateUploadInput) : result Error unit :=
  match purpose with
  | UploadPurposeTeaching => if validCreateInput i then Ok tt else Err ErrInvalid
  | UploadPurposeQA => validateLimitedUpload i qaUploadLimits
  | UploadPurposeAI => validateLimitedUpload i aiUploadLimits
  end.

Definition validatePrincipal (p : Principal) : result Error unit :=
  if (User_ID p =? NilUUID)%N || negb (bool_decide (User_Status p = StatusActive)) || blank (RequestID p)
     || bool_decide (PrincipalIP p = None) then Err ErrForbidden else Ok tt.

(** ** Parts *)

(** A product of signed 64-bit integers. *)
Definition wrapInt64 (x : Z) : Z := (x + 2 ^ 63) mod 2 ^ 64 - 2 ^ 63.

Definition expectedPartSize (total number : Z) : option Z :=
  if (total <? 1) || (number <? 1) then None
  else
    let start := wrapInt64 (wrapInt64 (number - 1) * UploadPartSize) in
    if total <=? start then None
    else
      let remaining := wrapInt64 (total - start) in
      if UploadPartSize <? remaining then Some UploadPartSize else Some remaining.

Definition partNumberLe (a b : UploadPart) : Prop := Number a <= Number b.
#[export] Instance partNumberLe_dec a b : Decision (partNumberLe a b).
Proof. unfold partNumberLe. apply _. Defined.

Definition sortParts (parts : list UploadPart) : list UploadPart := merge_sort partNumberLe parts.

(** The loop over the sorted parts, from index [i] with the sizes so far. *)
Fixpoint checkParts (session : UploadSession) (i : Z) (total : Z) (parts : list UploadPart) :
  option (Z * list ObjectPart) :=
  match parts with
  | [] => Some (total, [])
  | part :: rest =>
      match expectedPartSize (ExpectedSize session) (i + 1) with
      | None => None
      | Some wantSize =>
          if negb (Number part =? i + 1) || negb (Size part =? wantSize) || negb (validHash (SHA256 part))
             || bool_decide (ETag part = EmptyString) then None
          else match checkParts session (i + 1) (wrapInt64 (total + Size part)) rest with
               | Some (t, l) => Some (t, MkObjectPart (Number part) (ETag part) (Size part) :: l)
               | None => None
               end
      end
  end.

Definition wantCount (session : UploadSession) : Z :=
  Z.quot (wrapInt64 (ExpectedSize session + UploadPartSize - 1)) UploadPartSize.

Definition validateCompletionParts (session : UploadSession) (parts : list UploadPart) :
  result Error (list ObjectPart) :=
  let sorted := sortParts parts in
  if negb (Z.of_nat (length sorted) =? wantCount session) then Err ErrUploadIncomplete
  else match checkParts session 0 0 sorted with
       | None => Err ErrUploadIncomplete
       | Some (total, result) =>
           if negb (total =? ExpectedSize session) then Err ErrUploadIncomplete else Ok result
       end.

(** ** Views *)
Definition partView (p : UploadPart) : PartView := MkPartView (Number p) (Size p) (SHA256 p).

Definition uploadView (u : UploadSession) (parts : list UploadPart) : UploadView :=
  MkUploadView (SessionID_ u) (DisplayName u) (DeclaredMIME u) (ExpectedSize u) (ExpectedSHA256 u) (State u)
    (ExpiresAt u) (partView <$> sortParts parts).

(** ** Retrying *)
Definition retryableFailure (category : string) : bool :=
  member ["scanner_unavailable"; "scanner_definitions_stale"; "parser_unavailable"; "conversion_failed";
          "probe_failed"; "storage_unavailable"; "database_unavailable"; "workspace_unavailable";
          "preview_unavailable"; "lease_expired"] category.

End Files.
