(* ===== verification/UploadParts.v ===== *)
(** * The arithmetic of upload parts

    The expected sizes cut a file into parts without gap, overlap or overflow, and a
    completion accepts exactly the parts that make up the file. *)

From S2P Require Import Prelude GoTime GoText GoStrings Pg OpsModel FilesModel.
From stdpp Require Import base tactics list list_numbers numbers strings sorting.
From Stdlib Require Import ZArith Lia.
Import Files.

Open Scope Z_scope.

(** The reference: part [number] of a file of [total] bytes. *)
Definition partStart (number : Z) : Z := (number - 1) * UploadPartSize.
Definition partSize (total number : Z) : Z := Z.min UploadPartSize (total - partStart number).
Definition partCount (total : Z) : Z := (total + UploadPartSize - 1) / UploadPartSize.

(** A size column, so that no sum overflows. *)
Definition uploadSize (total : Z) : Prop := 1 <= total <= MaxUploadSize.

Ltac part_lia := unfold uploadSize, MaxUploadSize, partSize, partStart, UploadPartSize in *; lia.

Lemma wrapInt64_id x : - 2 ^ 63 <= x < 2 ^ 63 -> wrapInt64 x = x.
Proof. intros Hx. unfold wrapInt64. rewrite Z.mod_small by lia. lia. Qed.

Lemma expectedPartSize_spec total number :
  1 <= total < 2 ^ 63 -> number < 2 ^ 40 ->
  expectedPartSize total number =
  if (1 <=? number) && (partStart number <? total) then Some (partSize total number) else None.
Proof.
  intros Ht Hn. unfold expectedPartSize. rewrite (proj2 (Z.ltb_ge total 1)) by lia. cbn [orb].
  destruct (number <? 1) eqn:Hn1; bool_simpl; [by rewrite (proj2 (Z.leb_gt 1 number)) by lia|].
  rewrite (proj2 (Z.leb_le 1 number)) by lia. cbn [andb].
  assert (E : wrapInt64 (wrapInt64 (number - 1) * UploadPartSize) = partStart number).
  { rewrite (wrapInt64_id (number - 1)) by lia. apply wrapInt64_id. part_lia. }
  rewrite E. destruct (total <=? partStart number) eqn:Hs; bool_simpl.
  { by rewrite (proj2 (Z.ltb_ge _ _)) by lia. }
  rewrite (proj2 (Z.ltb_lt (partStart number) total)) by lia.
  rewrite wrapInt64_id by part_lia.
  destruct (UploadPartSize <? total - partStart number) eqn:Hr; bool_simpl; f_equal; part_lia.
Qed.

Lemma wantCount_spec session : uploadSize (ExpectedSize session) -> wantCount session = partCount (ExpectedSize session).
Proof.
  intros Hs. unfold wantCount, partCount. rewrite wrapInt64_id by part_lia.
  apply Z.quot_div_nonneg; part_lia.
Qed.

(** The parts of a file end where it ends. *)
Lemma partCount_bounds total :
  1 <= total -> (partCount total - 1) * UploadPartSize < total <= partCount total * UploadPartSize.
Proof.
  intros Ht. unfold partCount, UploadPartSize.
  pose proof (Z.div_mod (total + 8 * 1024 * 1024 - 1) (8 * 1024 * 1024) ltac:(lia)).
  pose proof (Z.mod_pos_bound (total + 8 * 1024 * 1024 - 1) (8 * 1024 * 1024) ltac:(lia)). lia.
Qed.

Lemma partCount_in total number :
  1 <= total -> partStart number < total <-> number <= partCount total.
Proof.
  intros Ht. pose proof (partCount_bounds total Ht). unfold partStart, UploadPartSize in *. split; intros; nia.
Qed.

Definition sizes (ps : list UploadPart) : Z := foldr (fun p t => Size p + t) 0 ps.

(** What the loop accepts at index [i]. *)
Definition goodPart (session : UploadSession) (i : Z) (p : UploadPart) : Prop :=
  Number p = i + 1 /\ Size p = partSize (ExpectedSize session) (i + 1) /\
  validHash (SHA256 p) = true /\ ETag p <> EmptyString.

Definition objectPart (p : UploadPart) : ObjectPart := MkObjectPart (Number p) (ETag p) (Size p).

Definition goodFrom (session : UploadSession) (i : Z) (ps : list UploadPart) : Prop :=
  forall k p, ps !! k = Some p ->
  goodPart session (i + Z.of_nat k) p /\ i + Z.of_nat k + 1 <= partCount (ExpectedSize session).

Lemma goodFrom_cons session i p ps :
  goodFrom session i (p :: ps) <->
  (goodPart session i p /\ i + 1 <= partCount (ExpectedSize session)) /\ goodFrom session (i + 1) ps.
Proof.
  unfold goodFrom. split.
  - intros Hg. split; [specialize (Hg 0%nat p eq_refl); by rewrite Z.add_0_r in Hg|].
    intros k q Hq. specialize (Hg (S k) q Hq). by replace (i + 1 + Z.of_nat k) with (i + Z.of_nat (S k)) by lia.
  - intros [Hp Hps] [|k] q Hq; [injection Hq as <-; by rewrite Z.add_0_r|].
    specialize (Hps k q Hq). by replace (i + Z.of_nat (S k)) with (i + 1 + Z.of_nat k) by lia.
Qed.

Lemma goodPart_size session i p :
  goodPart session i p -> i + 1 <= partCount (ExpectedSize session) -> uploadSize (ExpectedSize session) ->
  1 <= Size p <= UploadPartSize.
Proof.
  intros (_ & -> & _) Hi Hs. rewrite <- partCount_in in Hi by (by destruct Hs). part_lia.
Qed.

Lemma checkParts_Some session ps i acc t l :
  uploadSize (ExpectedSize session) -> 0 <= i -> i + Z.of_nat (length ps) < 2 ^ 32 ->
  0 <= acc -> acc + Z.of_nat (length ps) * UploadPartSize < 2 ^ 63 ->
  checkParts session i acc ps = Some (t, l) <->
  goodFrom session i ps /\ t = acc + sizes ps /\ l = objectPart <$> ps.
Proof.
  intros Hs. revert i acc t l. induction ps as [|p ps IH]; intros i acc t l Hi Hlen Hacc Hsum.
  { unfold sizes. simpl. rewrite Z.add_0_r. split; [intros [= <- <-]|by intros (_ & -> & ->)].
    split_and!; done. }
  rewrite goodFrom_cons. cbn [checkParts length] in *.
  rewrite expectedPartSize_spec by part_lia.
  rewrite (proj2 (Z.leb_le 1 (i + 1))) by lia. cbn [andb].
  destruct (partStart (i + 1) <? ExpectedSize session) eqn:Hin; bool_simpl.
  2: { split; [done|]. intros [[[_ Hc] _] _]. rewrite <- partCount_in in Hc by (by destruct Hs). lia. }
  rewrite partCount_in in Hin by (by destruct Hs).
  destruct (_ || _) eqn:Hbad.
  { split; [done|]. intros [[[(E1 & E2 & E3 & E4) _] _] _]. exfalso.
    rewrite !orb_true_iff, !negb_true_iff, bool_decide_eq_true, !Z.eqb_neq, E3 in Hbad. naive_solver. }
  bool_simpl.
  assert (Hgood : goodPart session i p) by (by split_and!).
  pose proof (goodPart_size _ _ _ Hgood Hin Hs).
  rewrite wrapInt64_id by (unfold UploadPartSize in *; lia).
  assert (Hrec : forall t l, checkParts session (i + 1) (acc + Size p) ps = Some (t, l) <->
    goodFrom session (i + 1) ps /\ t = acc + Size p + sizes ps /\ l = objectPart <$> ps)
    by (intros; apply IH; unfold UploadPartSize in *; lia).
  replace (acc + sizes (p :: ps)) with (acc + Size p + sizes ps) by (unfold sizes; simpl; lia).
  destruct (checkParts session (i + 1) (acc + Size p) ps) as [[t' l']|].
  - destruct (proj1 (Hrec t' l') eq_refl) as (Hg & -> & ->). split.
    + by intros [= <- <-].
    + by intros (_ & -> & ->).
  - split; [done|]. intros ((_ & Hg) & _).
    by discriminate (proj2 (Hrec _ _) (conj Hg (conj eq_refl eq_refl))).
Qed.

(** Good parts from index [i] on hold the rest of the file. *)
Lemma sizes_rest session ps i :
  uploadSize (ExpectedSize session) -> goodFrom session i ps ->
  i + Z.of_nat (length ps) = partCount (ExpectedSize session) ->
  sizes ps = Z.max 0 (ExpectedSize session - i * UploadPartSize).
Proof.
  intros Hs. revert i. pose proof (partCount_bounds (ExpectedSize session) (proj1 Hs)).
  induction ps as [|p ps IH]; intros i Hg Hc; unfold sizes; cbn [foldr length] in *.
  { replace i with (partCount (ExpectedSize session)) by lia. lia. }
  apply goodFrom_cons in Hg as [[(_ & Esz & _) Hin] Hg]. fold (sizes ps). rewrite (IH (i + 1)) by (done || lia).
  rewrite <- partCount_in in Hin by (by destruct Hs). rewrite Esz. part_lia.
Qed.

(** ** Sorting *)
#[export] Instance partNumberLe_total : Total partNumberLe.
Proof. intros a b. unfold partNumberLe. lia. Qed.
#[export] Instance partNumberLe_trans : Transitive partNumberLe.
Proof. intros a b c. unfold partNumberLe. lia. Qed.

Lemma sortParts_perm ps : sortParts ps ≡ₚ ps.
Proof. apply merge_sort_Permutation. Qed.

(** Parts in ascending, distinct order of numbers are what sorting gives. *)
Lemma sorted_unique l k :
  StronglySorted partNumberLe l -> StronglySorted partNumberLe k -> l ≡ₚ k -> NoDup (Number <$> k) -> l = k.
Proof.
  revert k. induction l as [|a l IH]; intros k Hl Hk Hp Hnd; [symmetry; by apply Permutation_nil_l in Hp|].
  destruct k as [|b k]; [by apply Permutation_nil_r in Hp|].
  inversion Hl as [|? ? Hl' Hal]; subst. inversion Hk as [|? ? Hk' Hbk]; subst.
  assert (E : a = b).
  { assert (Hb : b ∈ a :: l) by (rewrite Hp; left). assert (Ha : a ∈ b :: k) by (rewrite <- Hp; left).
    apply elem_of_cons in Hb as [?|Hb]; [done|]. apply elem_of_cons in Ha as [?|Ha]; [done|].
    rewrite Forall_forall in Hal, Hbk. pose proof (Hal _ Hb). pose proof (Hbk _ Ha). unfold partNumberLe in *.
    exfalso. rewrite fmap_cons in Hnd. apply NoDup_cons in Hnd as [Hnb _]. apply Hnb.
    replace (Number b) with (Number a) by lia. by apply list_elem_of_fmap_2. }
  subst b. f_equal. apply IH; [done..| |].
  - by apply Permutation_cons_inv in Hp.
  - rewrite fmap_cons in Hnd. by apply NoDup_cons in Hnd as [_ ?].
Qed.

Lemma goodFrom_numbers session ps i :
  goodFrom session i ps -> Number <$> ps = seqZ (i + 1) (Z.of_nat (length ps)).
Proof.
  revert i. induction ps as [|p ps IH]; intros i Hg; [done|].
  apply goodFrom_cons in Hg as [[(E & _) _] Hg]. rewrite fmap_cons, E, (IH _ Hg). cbn [length].
  rewrite (seqZ_cons (i + 1)) by lia. f_equal. f_equal; lia.
Qed.

Lemma goodFrom_sorted session ps i : goodFrom session i ps -> StronglySorted partNumberLe ps /\ NoDup (Number <$> ps).
Proof.
  intros Hg. split; [|rewrite (goodFrom_numbers _ _ _ Hg); apply NoDup_seqZ].
  revert i Hg. induction ps as [|p ps IH]; intros i Hg; [constructor|].
  apply goodFrom_cons in Hg as [[(E & _) _] Hg]. constructor; [by eapply IH|].
  rewrite Forall_forall. intros q Hq. apply list_elem_of_lookup in Hq as [k Hk].
  destruct (Hg k q Hk) as [(E' & _) _]. unfold partNumberLe. lia.
Qed.

Lemma sortParts_good session ps qs : ps ≡ₚ qs -> goodFrom session 0 qs -> sortParts ps = qs.
Proof.
  intros Hp Hg. apply goodFrom_sorted in Hg as [Hs Hn].
  apply sorted_unique; [apply (StronglySorted_merge_sort _)|done| |done]. by rewrite sortParts_perm.
Qed.

(** The expected sizes cut a file into parts: for every size an upload may have
    and every part number a request may carry, the size is defined exactly for the
    numbers up to the number of parts, at most 63; a part starts where the one
    before ends, every part but the last is full, and the last is not empty and ends
    with the file.  No intermediate value leaves the range of 64-bit integers. *)
Theorem parts_partition_file total number :
  uploadSize total -> 1 <= number <= 10000 ->
  expectedPartSize total number = (if number <=? partCount total then Some (partSize total number) else None) /\
  partStart (number + 1) = partStart number + UploadPartSize /\
  1 <= partCount total <= 63 /\
  (number < partCount total -> partSize total number = UploadPartSize) /\
  (number = partCount total -> 1 <= partSize total number <= UploadPartSize /\
                               partStart number + partSize total number = total).
Proof.
  intros Ht Hn. pose proof (partCount_bounds total (proj1 Ht)). pose proof (partCount_in total number (proj1 Ht)) as Hin.
  rewrite expectedPartSize_spec by part_lia. rewrite (proj2 (Z.leb_le 1 number)) by lia. cbn [andb]. split_and!.
  - destruct (number <=? partCount total) eqn:E; bool_simpl.
    + by rewrite (proj2 (Z.ltb_lt _ _)) by (by apply Hin).
    + rewrite (proj2 (Z.ltb_ge _ _)); [done|]. apply Z.nlt_ge. rewrite Hin. lia.
  - part_lia.
  - part_lia.
  - part_lia.
  - intros Hc. part_lia.
  - intros ->. part_lia.
Qed.

(** A completion accepts exactly the parts that make up the file: it succeeds
    when, in some order, the recorded parts carry the numbers from one to the number
    of parts with the expected sizes, well-formed hashes and ETags, and then hands
    them to the object store in ascending order; it reports [ErrUploadIncomplete] in
    every other case.  The order in which the parts were read does not matter. *)
Theorem completion_parts_exact session ps :
  uploadSize (ExpectedSize session) ->
  (forall l, validateCompletionParts session ps = Ok l <->
     exists qs, ps ≡ₚ qs /\ Z.of_nat (length qs) = partCount (ExpectedSize session) /\
       (forall k p, qs !! k = Some p -> goodPart session (Z.of_nat k) p) /\ l = objectPart <$> qs) /\
  (forall e, validateCompletionParts session ps = Err e -> e = ErrUploadIncomplete).
Proof.
  intros Hs. pose proof (partCount_bounds _ (proj1 Hs)) as Hb. split; [|unfold validateCompletionParts; intros e; by repeat case_match; intros; simplify_eq].
  assert (Hfrom : forall qs, Z.of_nat (length qs) = partCount (ExpectedSize session) ->
    goodFrom session 0 qs <-> forall k p, qs !! k = Some p -> goodPart session (Z.of_nat k) p).
  { intros qs Hl. unfold goodFrom. split; intros Hg k p Hk; [by apply Hg|]. split; [by apply Hg|].
    apply lookup_lt_Some in Hk. lia. }
  intros l. unfold validateCompletionParts. rewrite wantCount_spec by done. split.
  - destruct (Z.of_nat (length (sortParts ps)) =? partCount _) eqn:Hc; [|done]. cbn [negb]. bool_simpl.
    destruct (checkParts session 0 0 (sortParts ps)) as [[t r]|] eqn:Hck; [|done].
    apply checkParts_Some in Hck as (Hg & _ & Er); [|done| | | |]; try part_lia.
    destruct (_ =? _); [|done]. intros [= <-]. exists (sortParts ps). rewrite sortParts_perm at 1.
    split_and!; try done. exact (proj1 (Hfrom _ Hc) Hg).
  - intros (qs & Hp & Hl & Hg & ->). apply Hfrom in Hg; [|done]. rewrite (sortParts_good _ _ _ Hp Hg), Hl, Z.eqb_refl.
    cbn [negb]. rewrite (proj2 (checkParts_Some session qs 0 0 (ExpectedSize session) (objectPart <$> qs) Hs
      ltac:(lia) ltac:(part_lia) ltac:(lia) ltac:(part_lia))); [by rewrite Z.eqb_refl|].
    split_and!; try done. rewrite (sizes_rest _ _ _ Hs Hg) by lia. destruct Hs. lia.
Qed.

(** ** Concrete files *)
Definition threeParts : UploadSession :=
  MkUploadSession 7 5 UploadPurposeTeaching "originals/a" "m" "film.mp4" "video/mp4" 20000000 (fromBytes (repeat 97 64))
    UploadOpen zeroTime zeroTime.
Definition part (n size : Z) : UploadPart := MkUploadPart 7 n size (fromBytes (repeat 98 64)) "etag" zeroTime.

Lemma parts_partition_file_witness :
  map (expectedPartSize 20000000) [1; 2; 3; 4] = [Some 8388608; Some 8388608; Some 3222784; None] /\
  partSize 20000000 3 = 3222784.
Proof.
  split; [vm_compute; reflexivity|].
  destruct (parts_partition_file 20000000 3) as (_ & _ & _ & _ & Hlast).
  - split; vm_compute; discriminate.
  - split; vm_compute; discriminate.
  - destruct Hlast as [_ E]; vm_compute; reflexivity.
Defined.

Lemma completion_parts_exact_witness :
  validateCompletionParts threeParts [part 3 3222784; part 1 8388608; part 2 8388608] =
    Ok [MkObjectPart 1 "etag" 8388608; MkObjectPart 2 "etag" 8388608; MkObjectPart 3 "etag" 3222784].
Proof.
  apply (completion_parts_exact threeParts).
  - split; vm_compute; discriminate.
  - exists [part 1 8388608; part 2 8388608; part 3 3222784]. split_and!.
    + apply (Permutation_app_comm [part 3 3222784] [part 1 8388608; part 2 8388608]).
    + vm_compute. reflexivity.
    + intros [|[|[|k]]] p [= <-]; (split_and!; [vm_compute; reflexivity..|discriminate]).
    + reflexivity.
Defined.
