(* ===== verification/FilesStore.v ===== *)
(** * The file tables and the upload store

    Models the upload part of [internal/files/postgres_store.go] over the tables of
    migrations 00005 to 00008, 00011, 00016 and 00017.  Rows that other parts of the
    program insert (users, references from lessons and messages, the mode) are
    columns of the state that these operations only read.  [LIMIT], [ORDER BY] and
    rows locked by other transactions ([SKIP LOCKED], parameter [locked]) are as in
    the statements. *)

From S2P Require Import Prelude GoTime GoText GoStrings Pg OpsModel Keyset AuditLog FilesModel.
From stdpp Require Import base tactics list gmap strings sorting.
From Stdlib Require Import ZArith Lia.
Import Files.

Open Scope Z_scope.

(** ** Tables *)
Record FileRow := MkFileRow { file_createdBy : UUID; file_createdAt : Time; file_deletedAt : option Time }.

Record VersionRow := MkVersionRow {
  v_file : UUID; v_version : Z; v_purpose : UploadPurpose;
  v_key : string; v_name : string; v_mime : string; v_size : Z; v_sha : string;
  v_state : string; v_createdBy : UUID; v_createdAt : Time; v_retention : option Time;
  v_detected : option string; v_scan : option string; v_playable : bool;
  v_container : option string; v_codec : option string; v_duration : option Z;
  v_width : option Z; v_height : option Z; v_failure : option string;
  v_purged : option Time; v_cleanup : option string; v_cleanupOwner : option string;
  v_cleanupUntil : option Time; v_cleanupAttempts : Z
}.

Record PreviewRow := MkPreviewRow { p_key : string; p_type : string; p_size : Z; p_sha : string }.

Record JobRow := MkJobRow {
  j_version : UUID; j_kind : string; j_state : string; j_attempts : Z; j_available : Time;
  j_owner : option string; j_until : option Time; j_failure : option string;
  j_created : Time; j_updated : Time
}.

Record ArtifactRow := MkArtifactRow {
  a_version : UUID; a_job : UUID; a_attempt : Z; a_kind : string; a_key : string;
  a_type : string; a_size : Z; a_sha : string; a_state : string;
  a_owner : option string; a_until : option Time; a_cleanupAttempts : Z; a_updated : Time
}.

(** An outbox event of kind [file.cleanup]. *)
Record CleanupEvent := MkCleanupEvent { c_file : UUID; c_version : UUID; c_published : option Time }.

Record FilesDB := MkFilesDB {
  files : gmap N FileRow;
  versions : gmap N VersionRow;
  previews : gmap (N * string) PreviewRow;
  sessions : gmap N UploadSession;
  parts : gmap (N * Z) UploadPart;
  jobs : gmap N JobRow;
  artifacts : gmap N ArtifactRow;
  outbox : list CleanupEvent;
  filesAudit : Audit.Table;
  users : gset N;
  lessonRefs : gset N;   (* versions in lesson_draft_files or lesson_revision_files *)
  qaRefs : gset N;       (* versions in qa_message_files *)
  aiRefs : gset N;       (* versions in ai_message_files *)
  mode : option string   (* the row of operational_modes *)
}.

Definition setFiles m db := MkFilesDB m (versions db) (previews db) (sessions db) (parts db) (jobs db)
  (artifacts db) (outbox db) (filesAudit db) (users db) (lessonRefs db) (qaRefs db) (aiRefs db) (mode db).
Definition setVersions m db := MkFilesDB (files db) m (previews db) (sessions db) (parts db) (jobs db)
  (artifacts db) (outbox db) (filesAudit db) (users db) (lessonRefs db) (qaRefs db) (aiRefs db) (mode db).
Definition setPreviews m db := MkFilesDB (files db) (versions db) m (sessions db) (parts db) (jobs db)
  (artifacts db) (outbox db) (filesAudit db) (users db) (lessonRefs db) (qaRefs db) (aiRefs db) (mode db).
Definition setSessions m db := MkFilesDB (files db) (versions db) (previews db) m (parts db) (jobs db)
  (artifacts db) (outbox db) (filesAudit db) (users db) (lessonRefs db) (qaRefs db) (aiRefs db) (mode db).
Definition setParts m db := MkFilesDB (files db) (versions db) (previews db) (sessions db) m (jobs db)
  (artifacts db) (outbox db) (filesAudit db) (users db) (lessonRefs db) (qaRefs db) (aiRefs db) (mode db).
Definition setJobs m db := MkFilesDB (files db) (versions db) (previews db) (sessions db) (parts db) m
  (artifacts db) (outbox db) (filesAudit db) (users db) (lessonRefs db) (qaRefs db) (aiRefs db) (mode db).
Definition setArtifacts m db := MkFilesDB (files db) (versions db) (previews db) (sessions db) (parts db) (jobs db)
  m (outbox db) (filesAudit db) (users db) (lessonRefs db) (qaRefs db) (aiRefs db) (mode db).
Definition setOutbox m db := MkFilesDB (files db) (versions db) (previews db) (sessions db) (parts db) (jobs db)
  (artifacts db) m (filesAudit db) (users db) (lessonRefs db) (qaRefs db) (aiRefs db) (mode db).

#[export] Instance FilesDB_audit : Audit.HasAudit FilesDB :=
  {| Audit.auditOf := filesAudit;
     Audit.setAudit t db := MkFilesDB (files db) (versions db) (previews db) (sessions db) (parts db) (jobs db)
       (artifacts db) (outbox db) t (users db) (lessonRefs db) (qaRefs db) (aiRefs db) (mode db) |}.

(** ** Constraints *)
Definition charLength (lo hi : Z) (s : string) : bool :=
  (lo <=? RuneCountInString s) && (RuneCountInString s <=? hi).
Definition stableText (s : string) : bool :=
  matchHead isLower (fun b => isLower b || isDigit b || (b =? 95)) 0 63 s.
Definition nullOr {A} (check : A -> bool) (o : option A) : bool :=
  match o with Some a => check a | None => true end.
Definition within (lo hi v : Z) : bool := (lo <=? v) && (v <=? hi).

Definition versionStates : list string := ["pending_scan"; "processing"; "ready"; "rejected"; "failed"].

Definition versionCheck (v : VersionRow) : bool :=
  (0 <? v_version v) && charLength 1 512 (v_key v) && charLength 1 255 (v_name v) && charLength 1 160 (v_mime v)
  && within 1 524288000 (v_size v) && validHash (v_sha v) && member versionStates (v_state v)
  && nullOr (charLength 1 160) (v_detected v) && nullOr (member ["clean"; "rejected"]) (v_scan v)
  && nullOr (charLength 1 80) (v_container v) && nullOr (charLength 1 80) (v_codec v)
  && nullOr (within 0 43200000) (v_duration v) && nullOr (within 1 7680) (v_width v) && nullOr (within 1 4320) (v_height v)
  && nullOr stableText (v_failure v) && nullOr (member ["pending"; "deleting"; "purged"]) (v_cleanup v)
  && nullOr (charLength 1 128) (v_cleanupOwner v) && within 0 1000 (v_cleanupAttempts v)
  && (if bool_decide (v_cleanup v = Some "deleting")
      then bool_decide (is_Some (v_cleanupOwner v)) && bool_decide (is_Some (v_cleanupUntil v))
      else bool_decide (v_cleanupOwner v = None) && bool_decide (v_cleanupUntil v = None)).

Definition sessionCheck (u : UploadSession) : bool :=
  charLength 1 255 (DisplayName u) && charLength 1 160 (DeclaredMIME u)
  && within 1 524288000 (ExpectedSize u) && validHash (ExpectedSHA256 u).

Definition partCheck (p : UploadPart) : bool :=
  within 1 10000 (Number p) && within 1 524288000 (Size p) && validHash (SHA256 p) && charLength 1 200 (ETag p).

Definition jobCheck (j : JobRow) : bool :=
  bool_decide (j_kind j = "process_file") && member ["queued"; "running"; "completed"; "failed"] (j_state j)
  && within 0 4 (j_attempts j) && nullOr (charLength 1 128) (j_owner j) && nullOr stableText (j_failure j)
  && Bool.eqb (bool_decide (j_state j = "running"))
       (bool_decide (is_Some (j_owner j)) && bool_decide (is_Some (j_until j))).

(** The unique index on active jobs. *)
Definition activeJob (j : JobRow) : bool := member ["queued"; "running"] (j_state j).
Definition hasActiveJob (db : FilesDB) (version : UUID) : bool :=
  existsb (fun '(_, j) => (j_version j =? version)%N && activeJob j) (map_to_list (jobs db)).

Definition keyTaken (db : FilesDB) (key : string) : bool :=
  existsb (fun '(_, v) => bool_decide (v_key v = key)) (map_to_list (versions db)).

Definition versionByKey (db : FilesDB) (key : string) : option (N * VersionRow) :=
  List.find (fun '(_, v) => bool_decide (v_key v = key)) (map_to_list (versions db)).

(** A statement outside a transaction commits by itself: it is a transaction of
    its own, and its outcome can be lost in the same way. *)
Definition statement {S E A} (e : E) (body : DB S E A) : DB S E A := transact e e body.

(** A statement with a placeholder that has no argument fails: the driver sends a
    statement without arguments as it is, and the server knows no parameter [$1]. *)
Definition bindable (placeholders arguments : nat) : bool := (placeholders =? arguments)%nat.

(** A claim admission on the row of [operational_modes]. *)
Definition admitted {A} (lock : LockOutcome) (held : DB FilesDB Error A) (k : DB FilesDB Error A) :
  DB FilesDB Error A :=
  fun env '(n, db) =>
    match AdmitClaim lock env (n, mode db) with
    | ((n', _), Ok _) => k env (n', db)
    | ((n', _), Err ErrLeaseHeld) => held env (n', db)
    | ((n', _), Err _) => ((n', db), Err ErrDatabase)
    end.

Section UploadStore.
Context `{PgTime} `{UUIDText}.

Definition auditFailed (e : Audit.Error) : Error :=
  match e with Audit.ErrWrite => ErrDatabase | _ => ErrText "invalid audit event" end.

(** ** Sessions *)
Definition storedSession (u : UploadSession) : UploadSession :=
  MkUploadSession (SessionID_ u) (ActorUserID u) (Purpose u) (ObjectKey u) (MinIOUploadID u) (DisplayName u)
    (DeclaredMIME u) (ExpectedSize u) (ExpectedSHA256 u) (State u) (pg (ExpiresAt u)) (pg (CreatedAt u)).

Definition sessionConflict (db : FilesDB) (u : UploadSession) : bool :=
  bool_decide (is_Some (sessions db !! SessionID_ u))
  || existsb (fun '(_, s) => bool_decide (ObjectKey s = ObjectKey u)
                             || bool_decide (MinIOUploadID s = MinIOUploadID u)) (map_to_list (sessions db))
  || negb (bool_decide (ActorUserID u ∈ users db)).

Definition createBody (u : UploadSession) : DB FilesDB Error unit :=
  (do db <- dget;
   let row := storedSession u in
   fail if sessionConflict db row || negb (sessionCheck row) with ErrDatabase;
   dput (setSessions (<[SessionID_ u := row]> (sessions db)) db))%db.

Definition CreateSession (u : UploadSession) : DB FilesDB Error unit := statement ErrDatabase (createBody u).

(** A row as [scanSession] reads it: its identifier is the key it is stored under. *)
Definition scanSession (id : UUID) (u : UploadSession) : UploadSession :=
  MkUploadSession id (ActorUserID u) (Purpose u) (ObjectKey u) (MinIOUploadID u) (DisplayName u)
    (DeclaredMIME u) (ExpectedSize u) (ExpectedSHA256 u) (State u) (ExpiresAt u) (CreatedAt u).

Definition sessionOf (db : FilesDB) (id actor : UUID) (purpose : UploadPurpose) : option UploadSession :=
  match sessions db !! id with
  | Some u => if (ActorUserID u =? actor)%N && bool_decide (Purpose u = purpose) then Some (scanSession id u) else None
  | None => None
  end.

Definition partsOf (db : FilesDB) (id : UUID) : list UploadPart :=
  orderBy (fun p => [Number p])
    (snd <$> List.filter (fun '((s, _), _) => (s =? id)%N) (map_to_list (parts db))).

Definition listParts (id : UUID) : DB FilesDB Error (list UploadPart) :=
  (call ErrDatabase;
   do db <- dget;
   dret (partsOf db id))%db.

Definition GetSession (id actor : UUID) (purpose : UploadPurpose) :
  DB FilesDB Error (UploadSession * list UploadPart) :=
  (call ErrDatabase;
   do db <- dget;
   match sessionOf db id actor purpose with
   | None => dfail ErrNotFound
   | Some u => do ps <- listParts id; dret (u, ps)
   end)%db.

(** ** Parts *)
Definition admitPartBody (id actor : UUID) (purpose : UploadPurpose) (number size : Z) (hash : string) (now : Time) :
  DB FilesDB Error (UploadSession * option UploadPart) :=
  (call ErrDatabase;
   do db <- dget;
   match sessionOf db id actor purpose with
   | None => dfail ErrNotFound
   | Some u =>
     fail if After now (ExpiresAt u) with ErrUploadExpired;
     fail if negb (bool_decide (State u = UploadOpen)) with ErrUploadConflict;
     call ErrDatabase;
     match parts db !! (id, number) with
     | Some part =>
       fail if negb (Size part =? size) || negb (bool_decide (SHA256 part = hash)) with ErrUploadPartConflict;
       dret (u, Some part)
     | None => dret (u, None)
     end
   end)%db.

Definition AdmitPart (id actor : UUID) (purpose : UploadPurpose) (number size : Z) (hash : string) (now : Time) :
  DB FilesDB Error (UploadSession * option UploadPart) :=
  transact ErrDatabase ErrDatabase (admitPartBody id actor purpose number size hash now).

Definition storedPart (id : UUID) (p : UploadPart) : UploadPart :=
  MkUploadPart id (Number p) (Size p) (SHA256 p) (ETag p) (pg (PartCreatedAt p)).

Definition recordPartBody (id : UUID) (p : UploadPart) : DB FilesDB Error UploadPart :=
  (call ErrDatabase;
   do db <- dget;
   match sessions db !! id with
   | None => dfail ErrNotFound
   | Some u =>
     fail if negb (bool_decide (State u = UploadOpen)) with ErrUploadConflict;
     call ErrDatabase;
     let row := storedPart id p in
     fail if negb (partCheck row) with ErrDatabase;
     let db' := match parts db !! (id, Number p) with
                | Some _ => db
                | None => setParts (<[(id, Number p) := row]> (parts db)) db
                end in
     do _ <- dput db';
     call ErrDatabase;
     match parts db' !! (id, Number p) with
     | None => dfail ErrNoRows
     | Some stored =>
       fail if negb (Size stored =? Size p) || negb (bool_decide (SHA256 stored = SHA256 p)) with ErrUploadPartConflict;
       dret stored
     end
   end)%db.

Definition RecordPart (id : UUID) (p : UploadPart) : DB FilesDB Error UploadPart :=
  transact ErrDatabase ErrDatabase (recordPartBody id p).

(** ** Completion *)
Definition putSession (id : UUID) (u : UploadSession) (db : FilesDB) : FilesDB :=
  setSessions (<[id := u]> (sessions db)) db.

Definition completedOf (db : FilesDB) (key : string) : option CompletedUpload :=
  match versionByKey db key with
  | Some (id, v) => match files db !! v_file v with
                    | Some _ => Some (MkCompleted (v_file v) id (v_state v))
                    | None => None
                    end
  | None => None
  end.

Definition beginCompletionBody (id actor : UUID) (purpose : UploadPurpose) (now : Time) :
  DB FilesDB Error (UploadSession * list UploadPart * option CompletedUpload) :=
  (call ErrDatabase;
   do db <- dget;
   match sessionOf db id actor purpose with
   | None => dfail ErrNotFound
   | Some u =>
     if bool_decide (State u = UploadCompleted) then
       call ErrDatabase;
       match completedOf db (ObjectKey u) with
       | None => dfail ErrNoRows
       | Some c => dret (u, [], Some c)
       end
     else
       fail if After now (ExpiresAt u) with ErrUploadExpired;
       fail if negb (bool_decide (State u = UploadOpen)) && negb (bool_decide (State u = UploadCompleting))
         with ErrUploadConflict;
       do _ <- (if bool_decide (State u = UploadOpen)
                then call ErrDatabase; dput (putSession id (withState UploadCompleting u) db)
                else dret tt);
       do ps <- listParts id;
       dret (withState UploadCompleting u, ps, None)
   end)%db.

Definition BeginCompletion (id actor : UUID) (purpose : UploadPurpose) (now : Time) :
  DB FilesDB Error (UploadSession * list UploadPart * option CompletedUpload) :=
  transact ErrDatabase ErrDatabase (beginCompletionBody id actor purpose now).

(** The statement has the placeholder [$1]; the call passes no argument. *)
Definition ReopenCompletion (id : UUID) : DB FilesDB Error unit :=
  (call ErrDatabase;
   fail if negb (bindable 1 0) with ErrArguments;
   do db <- dget;
   match sessions db !! id with
   | Some u => if bool_decide (State u = UploadCompleting)
               then dput (putSession id (withState UploadOpen u) db) else dret tt
   | None => dret tt
   end)%db.

(** The version of a completed upload. *)
Definition uploadedVersion (u : UploadSession) (file : UUID) (now : Time) : VersionRow :=
  MkVersionRow file 1 (Purpose u) (ObjectKey u) (DisplayName u) (DeclaredMIME u) (ExpectedSize u) (ExpectedSHA256 u)
    "pending_scan" (ActorUserID u) now
    (match Purpose u with
     | UploadPurposeQA | UploadPurposeAI => Some (pg (addDuration now attachmentOrphanRetentionPeriod))
     | UploadPurposeTeaching => None
     end)
    None None false None None None None None None None None None None 0.

Definition newJob (version : UUID) (now : Time) : JobRow :=
  MkJobRow version "process_file" "queued" 0 now None None None now now.

Definition fileUploaded (actor : Principal) (version : UUID) : Audit.Event :=
  Audit.MkEvent (User_ID actor) "file.uploaded" "file_version" (uuidString version) ∅
    (RequestID actor) (PrincipalIP actor).

(** An insert of a job, with its constraints. *)
Definition insertJob (job version : UUID) (now : Time) (db : FilesDB) : option FilesDB :=
  if bool_decide (is_Some (jobs db !! job)) || hasActiveJob db version then None
  else Some (setJobs (<[job := newJob version now]> (jobs db)) db).

Definition finishCompletionBody (u : UploadSession) (actor : Principal) : DB FilesDB Error CompletedUpload :=
  (do now <- databaseNow ErrDatabase;
   do db <- dget;
   match sessions db !! SessionID_ u with
   | None => dfail ErrNotFound
   | Some locked =>
     if bool_decide (State locked = UploadCompleted) then
       call ErrDatabase;
       match completedOf db (ObjectKey locked) with
       | None => dfail ErrNoRows
       | Some c => dret c
       end
     else
       fail if negb (bool_decide (State locked = UploadCompleting)) with ErrUploadConflict;
       call ErrDatabase;
       do file <- newUUID;
       fail if bool_decide (is_Some (files db !! file)) || negb (bool_decide (ActorUserID locked ∈ users db))
         with ErrDatabase;
       let db1 := setFiles (<[file := MkFileRow (ActorUserID locked) now None]> (files db)) db in
       fail if negb (bool_decide (Purpose locked = Purpose u)) with ErrNotFound;
       call ErrDatabase;
       do version <- newUUID;
       let row := uploadedVersion locked file now in
       fail if bool_decide (is_Some (versions db !! version)) || keyTaken db (ObjectKey locked)
               || negb (versionCheck row) with ErrDatabase;
       let db2 := setVersions (<[version := row]> (versions db)) db1 in
       call ErrDatabase;
       do job <- newUUID;
       match insertJob job version now db2 with
       | None => dfail ErrDatabase
       | Some db3 =>
         call ErrDatabase;
         do _ <- dput (putSession (SessionID_ u) (withState UploadCompleted locked) db3);
         do _ <- Audit.Write auditFailed (fileUploaded actor version);
         dret (MkCompleted file version "pending_scan")
       end
   end)%db.

Definition FinishCompletion (u : UploadSession) (actor : Principal) : DB FilesDB Error CompletedUpload :=
  transact ErrDatabase ErrDatabase (finishCompletionBody u actor).

(** ** Cancelling *)
Definition cancelBody (id actor : UUID) (purpose : UploadPurpose) : DB FilesDB Error UploadSession :=
  (call ErrDatabase;
   do db <- dget;
   match sessionOf db id actor purpose with
   | None => dfail ErrNotFound
   | Some u =>
     fail if bool_decide (State u = UploadCompleted) || bool_decide (State u = UploadExpired) with ErrUploadConflict;
     do _ <- (if negb (bool_decide (State u = UploadCancelled))
              then call ErrDatabase; dput (putSession id (withState UploadCancelled u) db)
              else dret tt);
     dret (withState UploadCancelled u)
   end)%db.

Definition CancelSession (id actor : UUID) (purpose : UploadPurpose) (state : UploadState) :
  DB FilesDB Error UploadSession :=
  if negb (bool_decide (state = UploadCancelled)) then dfail ErrInvalid
  else transact ErrDatabase ErrDatabase (cancelBody id actor purpose).

(** ** Cleaning up *)
Definition cleanable (s : UploadState) : bool :=
  match s with UploadCompleted => false | _ => true end.

Definition cleanupDue (db : FilesDB) (cutoff : Time) (u : UploadSession) : bool :=
  negb (After (ExpiresAt u) (pg cutoff)) && cleanable (State u) && negb (keyTaken db (ObjectKey u)).

Definition claimCleanupBody (admission : option LockOutcome) (locked : UUID -> bool) (cutoff : Time) (limit : Z) :
  DB FilesDB Error (list UploadSession) :=
  let read :=
    (call ErrDatabase;
     do db <- dget;
     dret (take (Z.to_nat limit)
       (orderBy (fun u => [ns (ExpiresAt u); Z.of_N (SessionID_ u)])
         (List.filter (fun u => cleanupDue db cutoff u && negb (locked (SessionID_ u)))
           ((fun '(id, u) => scanSession id u) <$> map_to_list (sessions db))))))%db in
  match admission with
  | None => read
  | Some lock => admitted lock (dret []) read
  end.

(** [admission] is [None] when the context carries the cleanup admission. *)
Definition ClaimCleanup (admission : option LockOutcome) (locked : UUID -> bool) (cutoff : Time) (limit : Z) :
  DB FilesDB Error (list UploadSession) :=
  transact ErrDatabase ErrDatabase (claimCleanupBody admission locked cutoff limit).

Definition confirmCleanupBody (id : UUID) : DB FilesDB Error UploadSession :=
  (call ErrDatabase;
   do db <- dget;
   match sessions db !! id with
   | None => dfail ErrNotFound
   | Some u =>
     call ErrDatabase;
     fail if keyTaken db (ObjectKey u) || negb (cleanable (State u)) with ErrUploadConflict;
     if bool_decide (State u = UploadOpen) || bool_decide (State u = UploadCompleting) then
       call ErrDatabase;
       do _ <- dput (putSession id (withState UploadExpired u) db);
       dret (withState UploadExpired (scanSession id u))
     else dret (scanSession id u)
   end)%db.

Definition ConfirmCleanup (id : UUID) : DB FilesDB Error UploadSession :=
  transact ErrDatabase ErrDatabase (confirmCleanupBody id).

Definition finishCleanupBody (id : UUID) : DB FilesDB Error unit :=
  (call ErrDatabase;
   do db <- dget;
   match sessions db !! id with
   | None => dfail ErrNotFound
   | Some u =>
     fail if keyTaken db (ObjectKey u)
             || (negb (bool_decide (State u = UploadExpired)) && negb (bool_decide (State u = UploadCancelled)))
       with ErrUploadConflict;
     call ErrDatabase;
     call ErrDatabase;
     dput (setSessions (delete id (sessions db))
       (setParts (filter (fun '((s, _), _) => s <> id) (parts db)) db))
   end)%db.

Definition FinishCleanup (id : UUID) : DB FilesDB Error unit :=
  transact ErrDatabase ErrDatabase (finishCleanupBody id).

End UploadStore.
