(* ===== verification/ProcessingStore.v ===== *)
(** * The processing queue

    Models [internal/processing/model.go] and [postgres_store.go] over the tables of
    [FilesStore]: a job per file version, leased by a worker, renewed by
    heartbeats, completed, failed or retried; and the registry of derived objects. *)

From S2P Require Import Prelude GoTime GoText GoStrings Pg OpsModel Keyset FilesModel FilesStore.
From stdpp Require Import base tactics list gmap strings sorting.
From Stdlib Require Import ZArith Lia.
Import Files.

Open Scope Z_scope.

Module Processing.

Definition KindProcessFile : string := "process_file".
Definition StateQueued : string := "queued".
Definition StateRunning : string := "running".
Definition StateCompleted : string := "completed".
Definition StateFailed : string := "failed".
Definition MaxAttempts : Z := 4.
Definition MaxAITextBytes : Z := Z.shiftl 2 20.

Inductive Error := ErrNoJob | ErrLeaseLost | ErrDatabase | ErrText (text : string).

Global Instance Error_eq_dec : EqDecision Error.
Proof. solve_decision. Defined.

(** ** Data *)
Record Job := MkJob {
  ID : UUID; JobFileVersionID : UUID; JobKind : string; JobState : string;
  Attempts : Z; LeaseOwner : string; LeaseUntil : Time
}.

Record PreviewResult := MkPreview {
  PreviewKind : string; PreviewKey : string; PreviewType : string; PreviewSize : Z; PreviewSHA256 : string
}.

Record Result := MkResult {
  DetectedMIME : string; ScanResult : string; BrowserPlayable : bool;
  VideoContainer : string; VideoCodec : string; VideoDurationMS : option Z;
  VideoWidth : option Z; VideoHeight : option Z;
  Preview : option PreviewResult; AIText : option PreviewResult
}.

Inductive ArtifactState := ArtifactReserved | ArtifactStored | ArtifactDeletePending.

Definition artifactStateText (s : ArtifactState) : string :=
  match s with ArtifactReserved => "reserved" | ArtifactStored => "stored" | ArtifactDeletePending => "delete_pending" end.

Record ProcessingArtifact := MkArtifact {
  ArtVersion : UUID; ArtJob : UUID; AttemptNo : Z; ArtKind : string; ArtKey : string;
  ArtType : string; ArtSize : Z; ArtSHA256 : string
}.

Record SourceFile := MkSource {
  VersionID : UUID; SourceKey : string; SourceName : string; SourceMIME : string;
  SourceSize : Z; SourceSHA256 : string; SourcePurpose : UploadPurpose
}.

Record Failure := MkFailure { Category : string; Permanent : bool; Rejected : bool; RetryAt : Time }.

(** A [*ProcessingError]. *)
Record ProcessingError := MkProcessingError { ErrCategory : string; ErrPermanent : bool; ErrRejected : bool }.

Definition stableCategory (s : string) : bool := stableText s.

(** ** Row updates *)
Definition setVersion (id : UUID) (v : VersionRow) (db : FilesDB) : FilesDB :=
  setVersions (<[id := v]> (versions db)) db.
Definition setJob (id : UUID) (j : JobRow) (db : FilesDB) : FilesDB :=
  setJobs (<[id := j]> (jobs db)) db.

(** [SET processing_state, failure_category]. *)
Definition withProcessing (state : string) (failure : option string) (v : VersionRow) : VersionRow :=
  MkVersionRow (v_file v) (v_version v) (v_purpose v) (v_key v) (v_name v) (v_mime v) (v_size v) (v_sha v)
    state (v_createdBy v) (v_createdAt v) (v_retention v) (v_detected v) (v_scan v) (v_playable v)
    (v_container v) (v_codec v) (v_duration v) (v_width v) (v_height v) failure
    (v_purged v) (v_cleanup v) (v_cleanupOwner v) (v_cleanupUntil v) (v_cleanupAttempts v).

Definition withScan (scan : option string) (v : VersionRow) : VersionRow :=
  MkVersionRow (v_file v) (v_version v) (v_purpose v) (v_key v) (v_name v) (v_mime v) (v_size v) (v_sha v)
    (v_state v) (v_createdBy v) (v_createdAt v) (v_retention v) (v_detected v) (coalesce scan (v_scan v))
    (v_playable v) (v_container v) (v_codec v) (v_duration v) (v_width v) (v_height v) (v_failure v)
    (v_purged v) (v_cleanup v) (v_cleanupOwner v) (v_cleanupUntil v) (v_cleanupAttempts v).

Definition nullIfEmpty (s : string) : option string := if bool_decide (s = EmptyString) then None else Some s.

Definition readyVersion (r : Result) (v : VersionRow) : VersionRow :=
  MkVersionRow (v_file v) (v_version v) (v_purpose v) (v_key v) (v_name v) (v_mime v) (v_size v) (v_sha v)
    "ready" (v_createdBy v) (v_createdAt v) (v_retention v) (Some (DetectedMIME r)) (Some (ScanResult r))
    (BrowserPlayable r) (nullIfEmpty (VideoContainer r)) (nullIfEmpty (VideoCodec r)) (VideoDurationMS r)
    (VideoWidth r) (VideoHeight r) None
    (v_purged v) (v_cleanup v) (v_cleanupOwner v) (v_cleanupUntil v) (v_cleanupAttempts v).

(** A job that leaves the state running. *)
Definition endedJob (state : string) (failure : option string) (updated : Time) (j : JobRow) : JobRow :=
  MkJobRow (j_version j) (j_kind j) state (j_attempts j) (j_available j) None None failure (j_created j) updated.

Definition requeuedJob (available : Time) (failure : string) (updated : Time) (j : JobRow) : JobRow :=
  MkJobRow (j_version j) (j_kind j) "queued" (j_attempts j) available None None (Some failure) (j_created j) updated.

Definition leasedJob (owner : string) (until now : Time) (j : JobRow) : JobRow :=
  MkJobRow (j_version j) (j_kind j) "running" (j_attempts j + 1) (j_available j) (Some owner) (Some until)
    (j_failure j) (j_created j) now.

(** A running job of [owner] whose lease has not expired at [now]. *)
Definition heldBy (owner : string) (now : Time) (j : JobRow) : bool :=
  bool_decide (j_state j = "running") && bool_decide (j_owner j = Some owner)
  && match j_until j with Some t => After t now | None => false end.

Section Store.
Context `{PgTime}.

(** ** Reading the source *)
Definition LoadSource (id : UUID) : DB FilesDB Error SourceFile :=
  (call ErrDatabase;
   do db <- dget;
   match versions db !! id with
   | None => dfail ErrDatabase
   | Some v => dret (MkSource id (v_key v) (v_name v) (v_mime v) (v_size v) (v_sha v) (v_purpose v))
   end)%db.

(** ** Leasing *)
Definition expiredAt (now : Time) (j : JobRow) : bool :=
  bool_decide (j_state j = "running") && match j_until j with Some t => Before t now | None => false end.

Definition exhausted (now : Time) (j : JobRow) : bool := expiredAt now j && (4 <=? j_attempts j).

Definition claimable (now : Time) (j : JobRow) : bool :=
  (j_attempts j <? 4) && negb (After (j_available j) now)
  && (bool_decide (j_state j = "queued") || expiredAt now j).

(** The first statement: exhausted jobs fail with their versions. *)
Definition failExhausted (now : Time) (locked : UUID -> bool) (db : FilesDB) : FilesDB :=
  let hit id j := exhausted now j && negb (locked id) in
  let versions' := list_to_set (C := gset N)
    (j_version ∘ snd <$> List.filter (fun '(id, j) => hit id j) (map_to_list (jobs db))) in
  setVersions (map_imap (fun id v => Some (if bool_decide (id ∈ versions')
                                           then withProcessing "failed" (Some "lease_expired") v else v)) (versions db))
    (setJobs (map_imap (fun id j => Some (if hit id j then endedJob "failed" (Some "lease_expired") now j else j)) (jobs db)) db).

Definition candidate (now : Time) (locked : UUID -> bool) (db : FilesDB) : option (N * JobRow) :=
  firstBy (fun '(id, j) => [ns (j_available j); ns (j_created j); Z.of_N id])
    (List.filter (fun '(id, j) => claimable now j && negb (locked id)) (map_to_list (jobs db))).

Definition jobOf (id : UUID) (j : JobRow) : Job :=
  MkJob id (j_version j) (j_kind j) (j_state j) (j_attempts j) (or_zero EmptyString (j_owner j)) (or_zero zeroTime (j_until j)).

Definition leaseBody (locked : UUID -> bool) (owner : string) (now until : Time) : DB FilesDB Error Job :=
  (call ErrDatabase;
   do db <- dget;
   let db1 := failExhausted now locked db in
   call ErrDatabase;
   match candidate now locked db1 with
   | None => dfail ErrNoJob
   | Some (id, j) =>
     let j' := leasedJob owner until now j in
     fail if negb (jobCheck j') with ErrDatabase;
     call ErrDatabase;
     match versions db1 !! j_version j with
     | Some v =>
       fail if negb (member ["pending_scan"; "processing"; "failed"] (v_state v))
         with ErrText "processing file version is not claimable";
       do _ <- dput (setVersion (j_version j) (withProcessing "processing" None v) (setJob id j' db1));
       dret (jobOf id j')
     | None => dfail (ErrText "processing file version is not claimable")
     end
   end)%db.

Definition admittedClaim {A} (lock : LockOutcome) (k : DB FilesDB Error A) : DB FilesDB Error A :=
  fun env '(n, db) =>
    match AdmitClaim lock env (n, mode db) with
    | ((n', _), Ok _) => k env (n', db)
    | ((n', _), Err ErrLeaseHeld) => ((n', db), Err ErrNoJob)
    | ((n', _), Err _) => ((n', db), Err ErrDatabase)
    end.

(** [lock] is how the admission lock ends, [locked] the rows other
    transactions hold. *)
Definition LeaseNext (lock : LockOutcome) (locked : UUID -> bool) (owner : string) (now : Time) (duration : Z) :
  DB FilesDB Error Job :=
  if bool_decide (owner = EmptyString) || (128 <? len owner) || (duration <=? 0)
  then dfail (ErrText "invalid lease request")
  else transact ErrDatabase ErrDatabase
         (admittedClaim lock (leaseBody locked owner (pg now) (pg (addDuration now duration)))).

Definition renewedJob (until now : Time) (j : JobRow) : JobRow :=
  MkJobRow (j_version j) (j_kind j) (j_state j) (j_attempts j) (j_available j)
    (j_owner j) (Some until) (j_failure j) (j_created j) now.

Definition heartbeatBody (id : UUID) (owner : string) (leaseUntil : Time) : DB FilesDB Error unit :=
  (do now <- databaseNow ErrDatabase;
   do db <- dget;
   match jobs db !! id with
   | Some j =>
     if heldBy owner now j && After (pg leaseUntil) now
     then dput (setJob id (renewedJob (pg leaseUntil) now j) db)
     else dfail ErrLeaseLost
   | None => dfail ErrLeaseLost
   end)%db.

Definition Heartbeat (id : UUID) (owner : string) (leaseUntil : Time) : DB FilesDB Error unit :=
  if (id =? NilUUID)%N || bool_decide (owner = EmptyString) || IsZero leaseUntil
  then dfail (ErrText "invalid heartbeat")
  else statement ErrDatabase (heartbeatBody id owner leaseUntil).

(** ** Completing *)
Definition imageMIME (m : string) : bool := member ["image/jpeg"; "image/png"; "image/webp"; "image/gif"] m.
Definition aiTextMIME (m : string) : bool :=
  member ["application/pdf"; wordMIME; "text/plain"; "text/markdown"] m.

Definition previewCheck (kind : string) (p : PreviewRow) : bool :=
  member ["pdf"; "page"; "thumbnail"; "poster"; "ai_text"] kind && charLength 1 512 (p_key p)
  && charLength 1 160 (p_type p) && within 1 524288000 (p_size p) && validHash (p_sha p).

(** The upsert of a preview; the object key is unique. *)
Definition upsertPreview (version : UUID) (p : PreviewResult) (db : FilesDB) : option FilesDB :=
  let row := MkPreviewRow (PreviewKey p) (PreviewType p) (PreviewSize p) (PreviewSHA256 p) in
  let taken := existsb (fun '((v, k), q) => bool_decide (p_key q = PreviewKey p)
                          && negb ((v =? version)%N && bool_decide (k = PreviewKind p))) (map_to_list (previews db)) in
  if taken || negb (previewCheck (PreviewKind p) row) then None
  else Some (setPreviews (<[(version, PreviewKind p) := row]> (previews db)) db).

Definition optionally {A} (o : option A) (m : A -> DB FilesDB Error unit) : DB FilesDB Error unit :=
  match o with Some a => m a | None => dret tt end.

Definition storePreviewRow (version : UUID) (p : PreviewResult) : DB FilesDB Error unit :=
  (call ErrDatabase;
   do db <- dget;
   match upsertPreview version p db with
   | None => dfail ErrDatabase
   | Some db' => dput db'
   end)%db.

(** The stored artifact of an attempt that a published result names. *)
Definition published (job : Job) (p : PreviewResult) (a : ArtifactRow) : bool :=
  (a_job a =? ID job)%N && (a_version a =? JobFileVersionID job)%N && (a_attempt a =? Attempts job)
  && bool_decide (a_state a = "stored") && bool_decide (a_kind a = PreviewKind p) && bool_decide (a_key a = PreviewKey p)
  && bool_decide (a_type a = PreviewType p) && (a_size a =? PreviewSize p) && bool_decide (a_sha a = PreviewSHA256 p).

Definition publishArtifact (job : Job) (p : PreviewResult) : DB FilesDB Error unit :=
  (call ErrDatabase;
   do db <- dget;
   match List.filter (fun '(_, a) => published job p a) (map_to_list (artifacts db)) with
   | [(id, _)] => dput (setArtifacts (delete id (artifacts db)) db)
   | _ => dfail (ErrText "processing artifact publication conflict")
   end)%db.

Definition badAICompletion (purpose : UploadPurpose) (r : Result) : option string :=
  let isImage := imageMIME (DetectedMIME r) in
  let isAIText := aiTextMIME (DetectedMIME r) in
  let hasText := bool_decide (is_Some (AIText r)) in
  if bool_decide (purpose = UploadPurposeAI) then
    if (negb isImage && negb isAIText) || (isAIText && negb hasText) || (isImage && hasText)
    then Some "invalid ai attachment completion" else None
  else if hasText then Some "unexpected ai text completion" else None.

Definition completeBody (job : Job) (r : Result) : DB FilesDB Error unit :=
  (do now <- databaseNow ErrDatabase;
   do db <- dget;
   match jobs db !! ID job with
   | Some j =>
     match versions db !! j_version j with
     | Some v =>
       fail if negb (heldBy (LeaseOwner job) now j) with ErrLeaseLost;
       fail if negb (j_version j =? JobFileVersionID job)%N with ErrLeaseLost;
       match badAICompletion (v_purpose v) r with
       | Some text => dfail (ErrText text)
       | None =>
         call ErrDatabase;
         fail if negb (versionCheck (readyVersion r v)) with ErrDatabase;
         do _ <- dput (setVersion (JobFileVersionID job) (readyVersion r v) db);
         do _ <- optionally (Preview r) (fun p =>
           fail if bool_decide (PreviewKind p = EmptyString) || bool_decide (PreviewKey p = EmptyString)
                   || bool_decide (PreviewType p = EmptyString) || (PreviewSize p <? 1)
                   || bool_decide (PreviewSHA256 p = EmptyString) with ErrText "invalid preview completion";
           storePreviewRow (JobFileVersionID job) p);
         do _ <- optionally (AIText r) (fun p =>
           fail if negb (bool_decide (PreviewKind p = "ai_text")) || bool_decide (PreviewKey p = EmptyString)
                   || negb (bool_decide (PreviewType p = "text/plain; charset=utf-8"))
                   || (PreviewSize p <? 1) || (MaxAITextBytes <? PreviewSize p)
                   || bool_decide (PreviewSHA256 p = EmptyString) with ErrText "invalid ai text completion";
           storePreviewRow (JobFileVersionID job) p);
         do _ <- (if bool_decide (v_purpose v = UploadPurposeAI) then
                    do _ <- optionally (AIText r) (publishArtifact job);
                    optionally (Preview r) (publishArtifact job)
                  else dret tt);
         call ErrDatabase;
         do db' <- dget;
         dput (setJob (ID job) (endedJob "completed" None now j) db')
       end
     | None => dfail ErrLeaseLost
     end
   | None => dfail ErrLeaseLost
   end)%db.

Definition Complete (job : Job) (r : Result) : DB FilesDB Error unit :=
  if (ID job =? NilUUID)%N || (JobFileVersionID job =? NilUUID)%N || bool_decide (LeaseOwner job = EmptyString)
     || bool_decide (DetectedMIME r = EmptyString) || negb (bool_decide (ScanResult r = "clean"))
  then dfail (ErrText "invalid completion")
  else transact ErrDatabase ErrDatabase (completeBody job r).

(** ** Failing *)
Definition failBody (job : Job) (f : Failure) : DB FilesDB Error unit :=
  (do now <- databaseNow ErrDatabase;
   do db <- dget;
   match jobs db !! ID job with
   | Some j =>
     fail if negb (heldBy (LeaseOwner job) now j) with ErrLeaseLost;
     fail if negb (j_version j =? JobFileVersionID job)%N with ErrLeaseLost;
     let terminal := Permanent f || (MaxAttempts <=? Attempts job) in
     let j' := if terminal then endedJob "failed" (Some (Category f)) now j
               else requeuedJob (pg (RetryAt f)) (Category f) now j in
     let change v :=
       if terminal then
         withScan (if Rejected f then Some "rejected" else None)
           (withProcessing (if Rejected f then "rejected" else "failed") (Some (Category f)) v)
       else withProcessing "pending_scan" (Some (Category f)) v in
     call ErrDatabase;
     call ErrDatabase;
     dput (setVersions (alter change (JobFileVersionID job) (versions db)) (setJob (ID job) j' db))
   | None => dfail ErrLeaseLost
   end)%db.

Definition Fail (job : Job) (f : Failure) : DB FilesDB Error unit :=
  if (ID job =? NilUUID)%N || (JobFileVersionID job =? NilUUID)%N || bool_decide (LeaseOwner job = EmptyString)
     || negb (stableCategory (Category f)) || (negb (Permanent f) && IsZero (RetryAt f))
  then dfail (ErrText "invalid failure")
  else transact ErrDatabase ErrDatabase (failBody job f).

(** ** Derived objects *)
Definition artifactCheck (a : ArtifactRow) : bool :=
  within 1 4 (a_attempt a) && member ["pdf"; "page"; "thumbnail"; "poster"; "ai_text"] (a_kind a)
  && charLength 1 512 (a_key a) && charLength 1 160 (a_type a) && within 1 524288000 (a_size a) && validHash (a_sha a).

Definition reservedArtifact (a : ProcessingArtifact) (now : Time) : ArtifactRow :=
  MkArtifactRow (ArtVersion a) (ArtJob a) (AttemptNo a) (ArtKind a) (ArtKey a) (ArtType a) (ArtSize a) (ArtSHA256 a)
    "reserved" None None 0 now.

Definition artifactTaken (a : ArtifactRow) (db : FilesDB) : bool :=
  existsb (fun '(_, b) => bool_decide (a_key b = a_key a)
             || ((a_job b =? a_job a)%N && (a_attempt b =? a_attempt a) && bool_decide (a_kind b = a_kind a)))
    (map_to_list (artifacts db)).

Definition reserveBody (a : ProcessingArtifact) : DB FilesDB Error unit :=
  (do now <- databaseNow ErrDatabase;
   do id <- newUUID;
   do db <- dget;
   match jobs db !! ArtJob a with
   | Some j =>
     if (j_version j =? ArtVersion a)%N && bool_decide (j_state j = "running") && (j_attempts j =? AttemptNo a) then
       let row := reservedArtifact a now in
       fail if bool_decide (is_Some (artifacts db !! id)) || artifactTaken row db || negb (artifactCheck row)
         with ErrDatabase;
       dput (setArtifacts (<[id := row]> (artifacts db)) db)
     else dfail ErrLeaseLost
   | None => dfail ErrLeaseLost
   end)%db.

Definition ReserveArtifact (a : ProcessingArtifact) : DB FilesDB Error unit :=
  (if (ArtVersion a =? NilUUID)%N || (ArtJob a =? NilUUID)%N || (AttemptNo a <? 1) || (MaxAttempts <? AttemptNo a)
      || bool_decide (ArtKind a = EmptyString) || bool_decide (ArtKey a = EmptyString)
      || bool_decide (ArtType a = EmptyString) || (ArtSize a <? 1) || negb (len (ArtSHA256 a) =? 64)
   then dfail (ErrText "invalid processing artifact")
   else statement ErrDatabase (reserveBody a))%db.

Definition artifactByKey (key : string) (db : FilesDB) : option (N * ArtifactRow) :=
  List.find (fun '(_, a) => bool_decide (a_key a = key)) (map_to_list (artifacts db)).

Definition artifactIn (state : string) (owner : option string) (until : option Time) (now : Time) (a : ArtifactRow) :
  ArtifactRow :=
  MkArtifactRow (a_version a) (a_job a) (a_attempt a) (a_kind a) (a_key a) (a_type a) (a_size a) (a_sha a)
    state owner until (a_cleanupAttempts a) now.

Definition transitionBody (key : string) (target : ArtifactState) : DB FilesDB Error unit :=
  (do now <- databaseNow ErrDatabase;
   do db <- dget;
   match artifactByKey key db with
   | None => dfail (ErrText "processing artifact transition conflict")
   | Some (id, a) =>
     match target with
     | ArtifactStored =>
       guard bool_decide (a_state a = "reserved") && bool_decide (a_owner a = None)
         else ErrText "processing artifact transition conflict";
       dput (setArtifacts (<[id := artifactIn "stored" (a_owner a) (a_until a) now a]> (artifacts db)) db)
     | _ =>
       guard member ["reserved"; "stored"; "delete_pending"] (a_state a)
         else ErrText "processing artifact transition conflict";
       dput (setArtifacts (<[id := artifactIn "delete_pending" None None now a]> (artifacts db)) db)
     end
   end)%db.

Definition transitionArtifact (key : string) (target : ArtifactState) : DB FilesDB Error unit :=
  if bool_decide (key = EmptyString) || match target with ArtifactReserved => true | _ => false end
  then dfail (ErrText "invalid processing artifact transition")
  else statement ErrDatabase (transitionBody key target).

Definition MarkArtifactStored (key : string) : DB FilesDB Error unit := transitionArtifact key ArtifactStored.
Definition MarkArtifactDeletePending (key : string) : DB FilesDB Error unit := transitionArtifact key ArtifactDeletePending.

Definition forgetBody (key : string) : DB FilesDB Error unit :=
  (do db <- dget;
   match artifactByKey key db with
   | Some (id, a) =>
     guard bool_decide (a_state a = "delete_pending") && bool_decide (a_owner a = None)
       else ErrText "processing artifact forget conflict";
     dput (setArtifacts (delete id (artifacts db)) db)
   | None => dfail (ErrText "processing artifact forget conflict")
   end)%db.

Definition ForgetArtifact (key : string) : DB FilesDB Error unit :=
  if bool_decide (key = EmptyString) then dfail (ErrText "invalid processing artifact forget")
  else statement ErrDatabase (forgetBody key).

End Store.
End Processing.
