(* ===== verification/FilesCleanup.v ===== *)
(** * Retrying, deleting and purging files

    Models the state-changing operations of [internal/files/postgres_file_center.go]
    on versions ([RetryFile], [DeleteFile]) and all of
    [postgres_file_cleanup.go]: the claims of file versions and of derived objects
    for deletion, with their leases, and the tombstones that completion leaves. *)

From S2P Require Import Prelude GoTime GoText GoStrings GoStrconv Pg OpsModel Keyset AuditLog FilesModel FilesStore ProcessingStore.
From stdpp Require Import base tactics list gmap strings sorting.
From Stdlib Require Import ZArith Lia.
Import Files.

Open Scope Z_scope.

Module Cleanup.

Record FileCleanupCandidate := MkCandidate {
  CandFile : UUID; CandVersion : UUID; OriginalKey : string; PreviewKeys : list string
}.

Record ArtifactCandidate := MkArtifactCandidate { CandID : UUID; CandKey : string }.

(** ** Row updates *)
Definition withCleanup (state owner : option string) (until : option Time) (attempts : Z) (v : VersionRow) : VersionRow :=
  MkVersionRow (v_file v) (v_version v) (v_purpose v) (v_key v) (v_name v) (v_mime v) (v_size v) (v_sha v)
    (v_state v) (v_createdBy v) (v_createdAt v) (v_retention v) (v_detected v) (v_scan v) (v_playable v)
    (v_container v) (v_codec v) (v_duration v) (v_width v) (v_height v) (v_failure v)
    (v_purged v) state owner until attempts.

Definition withRetention (until : option Time) (v : VersionRow) : VersionRow :=
  MkVersionRow (v_file v) (v_version v) (v_purpose v) (v_key v) (v_name v) (v_mime v) (v_size v) (v_sha v)
    (v_state v) (v_createdBy v) (v_createdAt v) until (v_detected v) (v_scan v) (v_playable v)
    (v_container v) (v_codec v) (v_duration v) (v_width v) (v_height v) (v_failure v)
    (v_purged v) (v_cleanup v) (v_cleanupOwner v) (v_cleanupUntil v) (v_cleanupAttempts v).

Definition zeroHash : string := fromBytes (repeat 48 64).

(** The row of a purged version. *)
Definition tombstone (key : string) (now : Time) (v : VersionRow) : VersionRow :=
  MkVersionRow (v_file v) (v_version v) (v_purpose v) key "deleted" "application/octet-stream" 1 zeroHash
    "failed" (v_createdBy v) (v_createdAt v) (v_retention v) None None false None None None None None
    (Some "retention_purged") (Some now) (Some "purged") None None (v_cleanupAttempts v).

Section Store.
Context `{PgTime} `{UUIDText}.

Definition fileAudit (actor : Principal) (action target : string) (id : UUID) : Audit.Event :=
  Audit.MkEvent (User_ID actor) action target (uuidString id) ∅ (RequestID actor) (PrincipalIP actor).

Definition maintenanceAudit (actor : UUID) (action : string) (version : UUID) (metadata : gmap string Audit.any) :
  Audit.Event :=
  Audit.MkEvent actor action "file_version" (uuidString version) metadata "maintenance-cleanup" (Some loopback).

(** ** Retrying *)
Definition retryBody (actor : Principal) (version : UUID) : DB FilesDB Error unit :=
  (do now <- databaseNow ErrDatabase;
   do db <- dget;
   match versions db !! version with
   | Some v =>
     fail if negb (bool_decide (v_purpose v = UploadPurposeTeaching)) with ErrNotFound;
     fail if negb (bool_decide (v_state v = "failed")) || negb (retryableFailure (or_zero EmptyString (v_failure v)))
       with ErrFileNotRetryable;
     call ErrDatabase;
     do job <- newUUID;
     match insertJob job version now db with
     | None => dfail ErrDatabase
     | Some db' =>
       call ErrDatabase;
       do _ <- dput (setVersions (<[version := Processing.withProcessing "pending_scan" None v]> (versions db')) db');
       Audit.Write auditFailed (fileAudit actor "file.processing_retried" "file_version" version)
     end
   | None => dfail ErrNotFound
   end)%db.

Definition RetryFile (actor : Principal) (version : UUID) : DB FilesDB Error unit :=
  transact ErrDatabase ErrDatabase (retryBody actor version).

(** ** Deleting *)
Definition teachingVersion (file : UUID) (v : VersionRow) : bool :=
  (v_file v =? file)%N && bool_decide (v_purpose v = UploadPurposeTeaching).

Definition versionIDs (p : VersionRow -> bool) (db : FilesDB) : list UUID :=
  fst <$> List.filter (fun '(_, v) => p v) (map_to_list (versions db)).

Definition anyIn (ids : list UUID) (refs : gset N) : bool := existsb (fun id => bool_decide (id ∈ refs)) ids.

Definition deletedVersion (retention : Time) (v : VersionRow) : VersionRow :=
  withRetention (Some retention)
    (withCleanup (if bool_decide (v_purged v = None) then Some "pending" else v_cleanup v) None None
       (v_cleanupAttempts v) v).

Definition deleteBody (actor : Principal) (file : UUID) (retentionUntil : Time) : DB FilesDB Error unit :=
  (call ErrDatabase;
   do db <- dget;
   let mine := versionIDs (teachingVersion file) db in
   match files db !! file with
   | Some f =>
     fail if bool_decide (mine = []) with ErrNotFound;
     call ErrDatabase;
     call ErrDatabase;
     fail if anyIn mine (lessonRefs db) with ErrFileInUse;
     match file_deletedAt f with
     | Some _ => dret tt
     | None =>
       call ErrDatabase;
       call ErrDatabase;
       let deleted := addDuration retentionUntil (- FileRetentionPeriod) in
       let mark v := if teachingVersion file v then deletedVersion (pg retentionUntil) v else v in
       fail if negb (forallb (fun '(_, v) => versionCheck (mark v)) (map_to_list (versions db))) with ErrDatabase;
       do _ <- dput (setVersions (mark <$> versions db)
                       (setFiles (<[file := MkFileRow (file_createdBy f) (file_createdAt f) (Some (pg deleted))]> (files db)) db));
       Audit.Write auditFailed (fileAudit actor "file.delete_requested" "file" file)
     end
   | None => dfail ErrNotFound
   end)%db.

Definition DeleteFile (actor : Principal) (file : UUID) (retentionUntil : Time) : DB FilesDB Error unit :=
  transact ErrDatabase ErrDatabase (deleteBody actor file retentionUntil).

(** ** Purging file versions *)
Definition versionsOf (file : UUID) (db : FilesDB) : list UUID := versionIDs (fun v => (v_file v =? file)%N) db.

Definition fileReferenced (db : FilesDB) (file : UUID) : bool :=
  anyIn (versionsOf file db) (lessonRefs db) || anyIn (versionsOf file db) (qaRefs db)
  || anyIn (versionsOf file db) (aiRefs db).

Definition leaseOver (until : option Time) (now : Time) : bool :=
  match until with Some t => Before t now | None => false end.

Definition purgeable (db : FilesDB) (now : Time) (id : UUID) (v : VersionRow) : bool :=
  match files db !! v_file v with
  | None => false
  | Some f =>
      (bool_decide (is_Some (file_deletedAt f))
       || (bool_decide (v_purpose v = UploadPurposeQA) && negb (bool_decide (id ∈ qaRefs db)))
       || (bool_decide (v_purpose v = UploadPurposeAI) && negb (bool_decide (id ∈ aiRefs db))))
      && bool_decide (v_purged v = None)
      && match v_retention v with Some t => negb (After t now) | None => false end
      && (bool_decide (v_cleanup v = None) || bool_decide (v_cleanup v = Some "pending")
          || (bool_decide (v_cleanup v = Some "deleting") && leaseOver (v_cleanupUntil v) now))
      && negb (hasActiveJob db id)
      && negb (anyIn (versionsOf (v_file v) db) (lessonRefs db))
  end.

Definition purgeCandidate (db : FilesDB) (now : Time) (locked : UUID -> bool) : option (N * VersionRow) :=
  firstBy (fun '(id, v) => [ns (or_zero zeroTime (v_retention v)); Z.of_N id])
    (List.filter (fun '(id, v) => purgeable db now id v && negb (locked id)) (map_to_list (versions db))).

Definition previewKeysOf (db : FilesDB) (version : UUID) : list string :=
  (fun '(_, p) => p_key p) <$> List.filter (fun '((v, _), _) => (v =? version)%N) (map_to_list (previews db)).

Definition announce (file version : UUID) (db : FilesDB) : FilesDB :=
  if existsb (fun e => (c_version e =? version)%N && bool_decide (c_published e = None)) (outbox db) then db
  else setOutbox (outbox db ++ [MkCleanupEvent file version None]) db.

Definition claimPurgeBody (locked : UUID -> bool) (now : Time) (owner : string) (until : Time) :
  DB FilesDB Error (option FileCleanupCandidate) :=
  (call ErrDatabase;
   do db <- dget;
   match purgeCandidate db now locked with
   | None => dret None
   | Some (id, v) =>
     call ErrDatabase;
     call ErrDatabase;
     fail if fileReferenced db (v_file v) with ErrFileInUse;
     call ErrDatabase;
     let keys := previewKeysOf db id in
     call ErrDatabase;
     let v' := withCleanup (Some "deleting") (Some owner) (Some until) (v_cleanupAttempts v + 1) v in
     fail if negb (versionCheck v') with ErrDatabase;
     do _ <- dput (setVersions (<[id := v']> (versions db)) db);
     do _ <- Audit.Write auditFailed (maintenanceAudit (v_createdBy v) "file.cleanup_scheduled" id
               {["previewCount" := Audit.AnyString (FormatInt (Z.of_nat (length keys)))]});
     call ErrDatabase;
     do db' <- dget;
     do _ <- dput (announce (v_file v) id db');
     dret (Some (MkCandidate (v_file v) id (v_key v) keys))
   end)%db.

Definition ClaimFileCleanup (locked : UUID -> bool) (now : Time) (owner : string) (lease : Z) :
  DB FilesDB Error (option FileCleanupCandidate) :=
  if IsZero now || bool_decide (owner = EmptyString) || (128 <? len owner) || (lease <=? 0) then dfail ErrInvalid
  else transact ErrDatabase ErrDatabase (claimPurgeBody locked (pg now) owner (pg (addDuration now lease))).

Definition publishCleanup (version : UUID) (now : Time) (e : CleanupEvent) : CleanupEvent :=
  if (c_version e =? version)%N && bool_decide (c_published e = None)
  then MkCleanupEvent (c_file e) (c_version e) (Some now) else e.

Definition completePurgeBody (c : FileCleanupCandidate) (owner : string) (now : Time) : DB FilesDB Error unit :=
  (call ErrDatabase;
   do db <- dget;
   match versions db !! CandVersion c with
   | None => dfail ErrUploadConflict
   | Some v =>
     fail if negb (bool_decide (v_cleanup v = Some "deleting")) || negb (bool_decide (v_cleanupOwner v = Some owner))
             || negb (match v_cleanupUntil v with Some t => After t now | None => false end) with ErrUploadConflict;
     fail if negb (v_file v =? CandFile c)%N || negb (bool_decide (v_key v = OriginalKey c)) with ErrUploadConflict;
     call ErrDatabase;
     call ErrDatabase;
     fail if fileReferenced db (CandFile c) with ErrFileInUse;
     call ErrDatabase;
     call ErrDatabase;
     let key := ("purged/" +:+ uuidString (CandVersion c))%string in
     let v' := tombstone key now v in
     fail if existsb (fun '(id, w) => bool_decide (v_key w = key) && negb (id =? CandVersion c)%N) (map_to_list (versions db))
             || negb (versionCheck v') with ErrDatabase;
     call ErrDatabase;
     call ErrDatabase;
     let db1 := setPreviews (filter (fun '((w, _), _) => w <> CandVersion c) (previews db))
                  (setVersions (<[CandVersion c := v']> (versions db)) db) in
     let close f := MkFileRow (file_createdBy f) (file_createdAt f) (coalesce (file_deletedAt f) (Some now)) in
     do _ <- dput (setOutbox (publishCleanup (CandVersion c) now <$> outbox db1)
                     (setFiles (alter close (CandFile c) (files db1)) db1));
     Audit.Write auditFailed (maintenanceAudit (v_createdBy v) "file.cleanup_completed" (CandVersion c) ∅)
   end)%db.

Definition CompleteFileCleanup (c : FileCleanupCandidate) (owner : string) (now : Time) : DB FilesDB Error unit :=
  if (CandFile c =? NilUUID)%N || (CandVersion c =? NilUUID)%N || bool_decide (owner = EmptyString) || IsZero now
  then dfail ErrInvalid
  else transact ErrDatabase ErrDatabase (completePurgeBody c owner (pg now)).

(** ** Purging derived objects *)
Definition abandoned (db : FilesDB) (now : Time) (a : ArtifactRow) : bool :=
  match jobs db !! a_job a with
  | None => false
  | Some j =>
      bool_decide (a_state a = "delete_pending")
      || (member ["reserved"; "stored"] (a_state a)
          && (member ["queued"; "completed"; "failed"] (j_state j)
              || (bool_decide (j_state j = "running")
                  && ((a_attempt a <? j_attempts j) || leaseOver (j_until j) now))))
  end.

Definition artifactDue (db : FilesDB) (now : Time) (a : ArtifactRow) : bool :=
  (a_cleanupAttempts a <? 1000)
  && match a_until a with None => true | Some t => Before t now end
  && bool_decide (is_Some (versions db !! a_version a))
  && abandoned db now a.

Definition artifactCandidate (db : FilesDB) (now : Time) (locked : UUID -> bool) : option (N * ArtifactRow) :=
  firstBy (fun '(id, a) => [ns (a_updated a); Z.of_N id])
    (List.filter (fun '(id, a) => artifactDue db now a && negb (locked id)) (map_to_list (artifacts db))).

Definition claimedArtifact (owner : string) (until now : Time) (a : ArtifactRow) : ArtifactRow :=
  MkArtifactRow (a_version a) (a_job a) (a_attempt a) (a_kind a) (a_key a) (a_type a) (a_size a) (a_sha a)
    "delete_pending" (Some owner) (Some until) (a_cleanupAttempts a + 1) now.

Definition createdByOf (db : FilesDB) (version : UUID) : UUID :=
  match versions db !! version with Some v => v_createdBy v | None => NilUUID end.

Definition claimArtifactBody (locked : UUID -> bool) (now : Time) (owner : string) (until : Time) :
  DB FilesDB Error (option ArtifactCandidate) :=
  (call ErrDatabase;
   do db <- dget;
   match artifactCandidate db now locked with
   | None => dret None
   | Some (id, a) =>
     call ErrDatabase;
     do _ <- dput (setArtifacts (<[id := claimedArtifact owner until now a]> (artifacts db)) db);
     do _ <- Audit.Write auditFailed (maintenanceAudit (createdByOf db (a_version a))
               "file.processing_artifact_cleanup_scheduled" (a_version a) ∅);
     dret (Some (MkArtifactCandidate id (a_key a)))
   end)%db.

Definition ClaimProcessingArtifactCleanup (locked : UUID -> bool) (now : Time) (owner : string) (lease : Z) :
  DB FilesDB Error (option ArtifactCandidate) :=
  if IsZero now || bool_decide (owner = EmptyString) || (128 <? len owner) || (lease <=? 0) then dfail ErrInvalid
  else transact ErrDatabase ErrDatabase (claimArtifactBody locked (pg now) owner (pg (addDuration now lease))).

Definition completeArtifactBody (c : ArtifactCandidate) (owner : string) (now : Time) : DB FilesDB Error unit :=
  (call ErrDatabase;
   do db <- dget;
   match artifacts db !! CandID c with
   | None => dfail ErrUploadConflict
   | Some a =>
     fail if negb (bool_decide (a_state a = "delete_pending")) || negb (bool_decide (a_owner a = Some owner))
             || negb (match a_until a with Some t => After t now | None => false end)
             || negb (bool_decide (is_Some (versions db !! a_version a))) with ErrUploadConflict;
     fail if negb (bool_decide (a_key a = CandKey c)) with ErrUploadConflict;
     call ErrDatabase;
     do _ <- dput (setArtifacts (delete (CandID c) (artifacts db)) db);
     Audit.Write auditFailed (maintenanceAudit (createdByOf db (a_version a))
       "file.processing_artifact_cleanup_completed" (a_version a) ∅)
   end)%db.

Definition CompleteProcessingArtifactCleanup (c : ArtifactCandidate) (owner : string) (now : Time) :
  DB FilesDB Error unit :=
  if (CandID c =? NilUUID)%N || bool_decide (CandKey c = EmptyString) || bool_decide (owner = EmptyString) || IsZero now
  then dfail ErrInvalid
  else transact ErrDatabase ErrDatabase (completeArtifactBody c owner (pg now)).

End Store.
End Cleanup.

(** An identifier list that meets no reference. *)
Lemma anyIn_false ids refs : Cleanup.anyIn ids refs = false -> forall id, id ∈ ids -> id ∉ refs.
Proof.
  unfold Cleanup.anyIn. intros Hno id Hid Hin. apply not_true_iff_false in Hno. apply Hno, existsb_exists.
  exists id. split; [by apply list_elem_of_In|by apply bool_decide_eq_true_2].
Qed.
