(* ===== verification/ProcessingProofs.v ===== *)
(** * The processing queue: invariants and progress

    [queueWf] relates jobs and versions: rows satisfy the constraints of their
    tables, a version has at most one active job, and the version of an active job
    is in a state [LeaseNext] accepts.  Every operation of the upload store, the
    processing store and the cleanup store keeps it, so the queue never blocks on
    a version that cannot be claimed. *)

From S2P Require Import Prelude GoTime GoText GoStrings Pg OpsModel Keyset AuditLog FilesModel FilesStore ProcessingStore FilesCleanup.
From stdpp Require Import base tactics list gmap strings sorting.
From Stdlib Require Import ZArith Lia.
Import Files Processing.

Open Scope Z_scope.

Definition claimableStates : list string := ["pending_scan"; "processing"; "failed"].

Record queueWf (vs : gmap N VersionRow) (js : gmap N JobRow) : Prop := {
  q_row : forall id v, vs !! id = Some v -> versionCheck v = true;
  q_job : forall id j, js !! id = Some j -> jobCheck j = true;
  q_version : forall id j, js !! id = Some j -> is_Some (vs !! j_version j);
  q_unique : forall a b j k, js !! a = Some j -> js !! b = Some k ->
    activeJob j = true -> activeJob k = true -> j_version j = j_version k -> a = b;
  q_active : forall id j v, js !! id = Some j -> activeJob j = true ->
    vs !! j_version j = Some v -> member claimableStates (v_state v) = true
}.

(** An update of versions that keeps them claimable. *)
Lemma queueWf_versions vs vs' js :
  queueWf vs js ->
  (forall id v', vs' !! id = Some v' -> exists v, vs !! id = Some v /\ versionCheck v' = true /\
     (v_state v' = v_state v \/ member claimableStates (v_state v') = true)) ->
  (forall id, is_Some (vs !! id) -> is_Some (vs' !! id)) ->
  queueWf vs' js.
Proof.
  intros [Hrow Hjob Hver Huniq Hact] Hold Hdom. split; try done.
  - intros id v' Hv'. by destruct (Hold id v' Hv') as (v & _ & ? & _).
  - intros id j Hj. apply Hdom. by eapply Hver.
  - intros id j v' Hj Ha Hv'. destruct (Hold _ v' Hv') as (v & Hv & _ & [E|E]); [rewrite E; by eapply Hact|done].
Qed.

(** The same for one row. *)
Lemma queueWf_version vs js id v v' :
  queueWf vs js -> vs !! id = Some v -> versionCheck v' = true ->
  v_state v' = v_state v \/ member claimableStates (v_state v') = true -> queueWf (<[id := v']> vs) js.
Proof.
  intros Hs Hv Hck Hst. eapply queueWf_versions; [exact Hs| |].
  - intros i w. rewrite lookup_insert_Some. intros [[<- <-]|[_ Hw]]; [by exists v|].
    exists w. split_and!; [done|by eapply (q_row _ _ Hs)|by left].
  - intros i. rewrite lookup_insert_is_Some. destruct (decide (id = i)); [by left|by right].
Qed.

(** One active job moves on, with its version. *)
Lemma queueWf_step vs js id j j' f :
  queueWf vs js -> js !! id = Some j -> activeJob j = true -> j_version j' = j_version j -> jobCheck j' = true ->
  (forall v, vs !! j_version j = Some v -> versionCheck v = true -> member claimableStates (v_state v) = true ->
     versionCheck (f v) = true /\ (activeJob j' = true -> member claimableStates (v_state (f v)) = true)) ->
  queueWf (alter f (j_version j) vs) (<[id := j']> js).
Proof.
  intros [Hrow Hjob Hver Huniq Hact] Hj Ha Hv Hck Hf.
  assert (Hfv : forall v, vs !! j_version j = Some v -> versionCheck (f v) = true /\
    (activeJob j' = true -> member claimableStates (v_state (f v)) = true)).
  { intros v Hx. apply Hf; [done|by eapply Hrow|by eapply Hact]. }
  split.
  - intros vid v. rewrite lookup_alter_Some. intros [(<- & v0 & Hv0 & ->)|[_ ?]]; [by apply Hfv|by eapply Hrow].
  - intros jid k. rewrite lookup_insert_Some. intros [[_ <-]|[_ ?]]; [done|by eapply Hjob].
  - intros jid k. rewrite lookup_insert_Some. intros Hk. rewrite lookup_alter_is_Some.
    destruct Hk as [[_ <-]|[_ Hk]]; [rewrite Hv; by eapply Hver|by eapply Hver].
  - intros a b k l. rewrite !lookup_insert_Some.
    intros [[-> <-]|[Hne Hk]] [[-> <-]|[Hne' Hl]] Hka Hla E; try done.
    + rewrite Hv in E. exfalso. apply Hne'. by eapply Huniq.
    + rewrite Hv in E. exfalso. apply Hne. symmetry. by eapply Huniq.
    + by eapply Huniq.
  - intros jid k v. rewrite lookup_insert_Some. intros [[_ <-]|[Hne Hk]] Hka; rewrite lookup_alter_Some.
    + rewrite Hv. intros [(_ & v0 & Hv0 & ->)|[? _]]; [by apply Hfv|done].
    + intros [(E & v0 & Hv0 & ->)|[_ Hv0]]; [|by eapply Hact].
      exfalso. apply Hne. by eapply Huniq.
Qed.

(** A new job on a version without an active one. *)
Lemma queueWf_insert vs js id j :
  queueWf vs js -> js !! id = None -> jobCheck j = true ->
  (forall b k, js !! b = Some k -> activeJob k = true -> j_version k <> j_version j) ->
  (exists v, vs !! j_version j = Some v /\ member claimableStates (v_state v) = true) ->
  queueWf vs (<[id := j]> js).
Proof.
  intros [Hrow Hjob Hver Huniq Hact] Hid Hck Hno (v & Hv & Hst). split; try done.
  - intros jid k. rewrite lookup_insert_Some. intros [[_ <-]|[_ ?]]; [done|by eapply Hjob].
  - intros jid k. rewrite lookup_insert_Some. intros [[_ <-]|[_ ?]]; [by eexists|by eapply Hver].
  - intros a b k l. rewrite !lookup_insert_Some.
    intros [[-> <-]|[Hne Hk]] [[-> <-]|[Hne' Hl]] Hka Hla E; try done.
    + by destruct (Hno _ _ Hl Hla).
    + by destruct (Hno _ _ Hk Hka).
    + by eapply Huniq.
  - intros jid k w. rewrite lookup_insert_Some. intros [[_ <-]|[Hne Hk]] Hka Hw; [congruence|by eapply Hact].
Qed.

Lemma queueWf_newVersion vs js id v :
  queueWf vs js -> vs !! id = None -> versionCheck v = true -> queueWf (<[id := v]> vs) js.
Proof.
  intros [Hrow Hjob Hver Huniq Hact] Hid Hck. split; try done.
  - intros vid w. rewrite lookup_insert_Some. intros [[_ <-]|[_ ?]]; [done|by eapply Hrow].
  - intros jid k Hk. destruct (Hver jid k Hk) as [w Hw]. rewrite lookup_insert_ne by congruence. by eexists.
  - intros jid k w Hk Hka. rewrite lookup_insert_Some. intros [[E <-]|[_ ?]]; [|by eapply Hact].
    destruct (Hver jid k Hk) as [w Hw]. congruence.
Qed.

Definition filesWf (db : FilesDB) : Prop := queueWf (versions db) (jobs db).

(** ** Checks of updated rows *)
Ltac check_row :=
  unfold versionCheck in *;
  cbn [v_file v_version v_purpose v_key v_name v_mime v_size v_sha v_state v_createdBy v_createdAt v_retention
       v_detected v_scan v_playable v_container v_codec v_duration v_width v_height v_failure
       v_purged v_cleanup v_cleanupOwner v_cleanupUntil v_cleanupAttempts
       withProcessing withScan Cleanup.withCleanup Cleanup.withRetention Cleanup.tombstone uploadedVersion nullOr] in *;
  rewrite !andb_true_iff in *; intuition.

Lemma withProcessing_check state failure v :
  versionCheck v = true -> member versionStates state = true -> nullOr stableText failure = true ->
  versionCheck (withProcessing state failure v) = true.
Proof. intros. check_row. Qed.

Lemma withScan_check scan v :
  versionCheck v = true -> nullOr (member ["clean"; "rejected"]) scan = true -> versionCheck (withScan scan v) = true.
Proof. intros. destruct scan; check_row. Qed.

(** ** Preservation *)
Lemma filesWf_same db db' : versions db' = versions db -> jobs db' = jobs db -> filesWf db -> filesWf db'.
Proof. unfold filesWf. by intros -> ->. Qed.

(** Runs a body symbolically; what is left is what it wrote. *)
Ltac db_run := repeat (db_inv; try go_case; simplify_eq/=); db_inv; simplify_eq/=.

(** The same without simplification of the equations. *)
Ltac db_case :=
  match goal with
  | H : (if ?b then _ else _) _ _ = (_, Ok _) |- _ => destruct b eqn:?
  | H : (match ?x with _ => _ end) _ _ = (_, Ok _) |- _ => destruct x eqn:?
  end.
Ltac db_go := repeat (db_inv; try db_case); db_inv.
Ltac frame_op := intros env n s st res Hs Hrun; db_run; try done; by eapply filesWf_same, Hs.

Section Preservation.
Context `{PgTime} `{UUIDText}.

Lemma createBody_keeps u : keeps filesWf (createBody u).
Proof. unfold createBody. frame_op. Qed.

Lemma admitPart_keeps id actor p num size h now : keeps filesWf (admitPartBody id actor p num size h now).
Proof. unfold admitPartBody. frame_op. Qed.

Lemma recordPart_keeps id p : keeps filesWf (recordPartBody id p).
Proof. unfold recordPartBody. frame_op. Qed.

Lemma beginCompletion_keeps id actor p now : keeps filesWf (beginCompletionBody id actor p now).
Proof. unfold beginCompletionBody, listParts. frame_op. Qed.

Lemma cancel_keeps id actor p : keeps filesWf (cancelBody id actor p).
Proof. unfold cancelBody. frame_op. Qed.

Lemma confirmCleanup_keeps id : keeps filesWf (confirmCleanupBody id).
Proof. unfold confirmCleanupBody. frame_op. Qed.

Lemma finishCleanup_keeps id : keeps filesWf (finishCleanupBody id).
Proof. unfold finishCleanupBody. frame_op. Qed.

Lemma reserve_keeps a : keeps filesWf (reserveBody a).
Proof. unfold reserveBody. frame_op. Qed.

Lemma transition_keeps key target : keeps filesWf (transitionBody key target).
Proof. unfold transitionBody. frame_op. Qed.

Lemma forget_keeps key : keeps filesWf (forgetBody key).
Proof. unfold forgetBody. frame_op. Qed.

Lemma Write_audit {E} (failed : Audit.Error -> E) ev env n (db : FilesDB) st r :
  Audit.Write failed ev env (n, db) = (st, r) -> exists t, snd st = Audit.setAudit t db.
Proof.
  assert (Hid : exists t, db = Audit.setAudit t db) by (exists (filesAudit db); by destruct db).
  unfold Audit.Write. destruct (Audit.validateAndMarshal ev); [|by intros [= <- _]].
  unfold dbind, databaseNow, dget, dput. destruct (fault env n); intros [= <- _]; [done|]. by eexists.
Qed.

Lemma Write_wf {E} (failed : Audit.Error -> E) ev env n (db : FilesDB) st r :
  Audit.Write failed ev env (n, db) = (st, r) -> filesWf db -> filesWf (snd st).
Proof. intros Hw Hs. destruct (Write_audit _ _ _ _ _ _ _ Hw) as [t ->]. by eapply filesWf_same, Hs. Qed.

Lemma hasActiveJob_false db version :
  hasActiveJob db version = false <->
  forall id j, jobs db !! id = Some j -> activeJob j = true -> j_version j <> version.
Proof.
  unfold hasActiveJob. rewrite <- not_true_iff_false, existsb_exists. split.
  - intros Hno id j Hj Ha E. apply Hno. exists (id, j). split; [by apply list_elem_of_In, elem_of_map_to_list|].
    apply andb_true_iff. split; [by apply N.eqb_eq|done].
  - intros Hno ([id j] & Hin & Hb). apply list_elem_of_In, elem_of_map_to_list in Hin.
    apply andb_true_iff in Hb as [Hv%N.eqb_eq Ha]. by eapply Hno.
Qed.

Lemma insertJob_shape job version now db db' :
  insertJob job version now db = Some db' ->
  versions db' = versions db /\ jobs db' = <[job := newJob version now]> (jobs db) /\ jobs db !! job = None.
Proof.
  unfold insertJob. destruct (_ || _) eqn:E; [done|]. intros [= <-]. bool_simpl.
  split_and!; [done..|by apply eq_None_not_Some].
Qed.

Lemma insertJob_wf job version now db db' v :
  filesWf db -> insertJob job version now db = Some db' -> versions db !! version = Some v ->
  member claimableStates (v_state v) = true -> filesWf db' /\ versions db' = versions db /\
  jobs db' = <[job := newJob version now]> (jobs db).
Proof.
  unfold insertJob. intros Hs Hi Hv Hst. destruct (_ || _) eqn:Hc; [done|]. injection Hi as <-.
  apply orb_false_iff in Hc as [Hnew Hno]. bool_simpl. rewrite hasActiveJob_false in Hno.
  split; [|done]. apply eq_None_not_Some in Hnew.
  apply queueWf_insert; try done. by exists v.
Qed.

Lemma finishCompletion_keeps u actor : keeps filesWf (finishCompletionBody u actor).
Proof.
  unfold finishCompletionBody. intros env n s st res Hs Hrun. db_go.
  all: try exact Hs.
  repeat match goal with H : _ || _ = false |- _ => apply orb_false_iff in H as [? ?] end. bool_simpl.
  eapply Write_wf; [exact Hrun0|].
  match goal with H : insertJob _ _ _ ?db = Some _ |- _ =>
    eapply (insertJob_wf _ _ _ db) in H as (Hwf & _);
      [by eapply filesWf_same, Hwf| |apply lookup_insert_eq|done] end.
  apply queueWf_newVersion; [exact Hs|by apply eq_None_not_Some|done].
Qed.

(** ** The processing store *)
Ltac check_job :=
  unfold jobCheck, within in *;
  cbn [j_kind j_state j_attempts j_owner j_failure j_until leasedJob endedJob requeuedJob renewedJob nullOr] in *;
  rewrite ?andb_true_iff, ?Z.leb_le in *; intuition (try lia; try done).

Lemma jobCheck_leased owner until now j :
  jobCheck j = true -> j_attempts j < 4 -> charLength 1 128 owner = true ->
  jobCheck (leasedJob owner until now j) = true.
Proof. intros. check_job. Qed.

Lemma endedJob_check state failure now j :
  jobCheck j = true -> member ["queued"; "completed"; "failed"] state = true -> nullOr stableText failure = true ->
  jobCheck (endedJob state failure now j) = true.
Proof.
  intros Hj Hst Hf. apply member_In in Hst.
  repeat (apply elem_of_cons in Hst as [->|Hst]; [destruct failure; check_job|]). by apply elem_of_nil in Hst.
Qed.

Lemma requeuedJob_check available failure now j :
  jobCheck j = true -> stableText failure = true -> jobCheck (requeuedJob available failure now j) = true.
Proof. intros. check_job. Qed.

Lemma renewedJob_check until now j owner :
  jobCheck j = true -> heldBy owner now j = true -> jobCheck (renewedJob until now j) = true.
Proof.
  intros Hj Hh. unfold heldBy in Hh. apply andb_true_iff in Hh as [Hh Hu]. bool_simpl.
  destruct (j_until j) eqn:E; [|done].
  unfold jobCheck in *. cbn [j_kind j_state j_attempts j_owner j_failure j_until renewedJob nullOr] in *.
  rewrite E in Hj. exact Hj.
Qed.

Lemma heldBy_active owner now j : heldBy owner now j = true -> activeJob j = true.
Proof.
  unfold heldBy, activeJob. intros Hh. apply andb_true_iff in Hh as [Hh _]. bool_simpl.
  match goal with H : j_state j = _ |- _ => rewrite H end. done.
Qed.

Lemma insert_alter {K A} `{Countable K} (f : A -> A) (m : gmap K A) k v :
  m !! k = Some v -> <[k := f v]> m = alter f k m.
Proof.
  intros Hm. apply map_eq. intros i. destruct (decide (k = i)) as [<-|Hne].
  - by rewrite lookup_insert_eq, lookup_alter_eq, Hm.
  - by rewrite lookup_insert_ne, lookup_alter_ne by done.
Qed.

Lemma queueWf_job vs js id j j' :
  queueWf vs js -> js !! id = Some j -> activeJob j = true -> j_version j' = j_version j -> jobCheck j' = true ->
  queueWf vs (<[id := j']> js).
Proof.
  intros Hs Hj Ha Hv Hck. rewrite <- (alter_id (fun v => v) vs (j_version j)) by done.
  eapply queueWf_step; eauto.
Qed.

Lemma heartbeat_keeps id owner until : keeps filesWf (heartbeatBody id owner until).
Proof.
  unfold heartbeatBody. intros env n s st res Hs Hrun. db_go.
  match goal with H : _ && _ = true |- _ => apply andb_true_iff in H as [Hh _] end.
  eapply queueWf_job; [exact Hs|done|by eapply heldBy_active|done|].
  eapply renewedJob_check; [by eapply (q_job _ _ Hs)|exact Hh].
Qed.

Lemma fail_keeps job f :
  stableCategory (Category f) = true -> keeps filesWf (failBody job f).
Proof.
  intros Hc. unfold failBody. intros env n s st res Hs Hrun. db_go. bool_simpl.
  match goal with H : heldBy _ _ _ = true |- _ => pose proof (heldBy_active _ _ _ H) as Ha end.
  match goal with H : (_ =? _)%N = true |- _ => apply N.eqb_eq in H; rewrite <- H end.
  match goal with H : jobs _ !! _ = Some ?j |- _ => pose proof (q_job _ _ Hs _ _ H) as Hck end.
  eapply queueWf_step; [exact Hs|done|done|by destruct (_ || _)| |].
  - destruct (_ || _); [by apply endedJob_check|by apply requeuedJob_check].
  - intros v Hv Hvc Hst. destruct (_ || _).
    + split; [|done]. apply withScan_check; [|by destruct (Rejected f)].
      by apply withProcessing_check; [|destruct (Rejected f)|].
    + split; [by apply withProcessing_check|done].
Qed.

(** The versions of exhausted jobs, and the claimable rest. *)
Lemma failExhausted_wf now locked db : filesWf db -> filesWf (failExhausted now locked db).
Proof.
  intros [Hrow Hjob Hver Huniq Hact]. unfold filesWf, failExhausted.
  assert (Hj : forall id k, jobs (failExhausted now locked db) !! id = Some k ->
    exists j, jobs db !! id = Some j /\ j_version k = j_version j /\ jobCheck k = true /\
      (activeJob k = true -> k = j)).
  { intros id k. unfold failExhausted, setVersions, setJobs. cbn [jobs]. rewrite map_lookup_imap.
    destruct (jobs db !! id) as [j|] eqn:E; [|done]. simpl. intros [= <-]. exists j.
    pose proof (Hjob _ _ E). destruct (_ && _); split_and!; try done. by apply endedJob_check. }
  unfold failExhausted, setVersions, setJobs in Hj. cbn [jobs] in Hj.
  split; cbn [versions jobs setVersions setJobs].
  - intros id v. rewrite map_lookup_imap. destruct (versions db !! id) as [w|] eqn:E; [|done].
    simpl. intros [= <-]. pose proof (Hrow _ _ E). case_bool_decide; [by apply withProcessing_check|done].
  - intros id k Hk. by destruct (Hj id k Hk) as (j & _ & _ & ? & _).
  - intros id k Hk. destruct (Hj id k Hk) as (j & E & -> & _). rewrite map_lookup_imap.
    destruct (Hver _ _ E) as [v ->]. by eexists.
  - intros a b j k Hja Hkb Haj Hak Hv. destruct (Hj a j Hja) as (j0 & E & Hvj & _ & Hj0).
    destruct (Hj b k Hkb) as (k0 & E' & Hvk & _ & Hk0). pose proof (Hj0 Haj) as ->. pose proof (Hk0 Hak) as ->.
    by eapply Huniq.
  - intros id k v Hk Hka. destruct (Hj id k Hk) as (j & E & _ & _ & Hsame). pose proof (Hsame Hka) as ->.
    rewrite map_lookup_imap. destruct (versions db !! j_version j) as [w|] eqn:Ew; [|done].
    simpl. intros [= <-]. case_bool_decide; [done|]. by eapply Hact.
Qed.

Lemma leaseBody_keeps locked owner now until :
  charLength 1 128 owner = true -> keeps filesWf (leaseBody locked owner now until).
Proof.
  intros Ho. unfold leaseBody. intros env n s st res Hs Hrun. db_go. bool_simpl.
  match goal with |- context [failExhausted now locked ?db] =>
    pose proof (failExhausted_wf now locked db Hs) as Hs1; set (db1 := failExhausted now locked db) in * end.
  match goal with H : candidate _ _ _ = Some (?id, ?j) |- _ =>
    apply firstBy_Some in H as [Hin _]; apply list_elem_of_In, filter_In in Hin as [Hin Hcl];
    apply list_elem_of_In, elem_of_map_to_list in Hin end.
  apply andb_true_iff in Hcl as [Hcl _]. unfold claimable in Hcl. bool_simpl.
  match goal with H : versions db1 !! _ = Some ?v |- _ => rename H into Hv end.
  unfold setVersion, setJob, filesWf. cbn [versions jobs setVersions setJobs].
  rewrite (insert_alter (withProcessing "processing" None)) by exact Hv.
  eapply queueWf_step; [exact Hs1|exact Hin| |done|done|].
  - match goal with H : _ || _ = true |- _ => apply orb_true_iff in H as [Hq|Hq] end; unfold activeJob.
    + apply bool_decide_eq_true_1 in Hq. rewrite Hq. done.
    + unfold expiredAt in Hq. apply andb_true_iff in Hq as [Hq _]. apply bool_decide_eq_true_1 in Hq. rewrite Hq. done.
  - intros w Hw Hck Hst. split; [by apply withProcessing_check|done].
Qed.

(** Writes to other tables. *)
Definition sameQueue (db0 db : FilesDB) : Prop := versions db = versions db0 /\ jobs db = jobs db0.

Lemma optionally_keeps {A} (I : FilesDB -> Prop) (o : option A) m :
  (forall a, keeps I (m a)) -> keeps I (optionally o m).
Proof. intros Hm. destruct o as [a|]; [apply Hm|]. intros env n s st [] Hs [= <-]. exact Hs. Qed.

Lemma fail_if_keeps {E A} (I : FilesDB -> Prop) (b : bool) (e : E) (m : DB FilesDB E A) :
  keeps I m -> keeps I (if b then dfail e else m).
Proof. intros Hm. destruct b; [|done]. by intros env n s st a _ [=]. Qed.

Lemma storePreview_keeps db0 version p : keeps (sameQueue db0) (storePreviewRow version p).
Proof.
  unfold storePreviewRow, upsertPreview. intros env n s st res Hs Hrun. db_go.
  match goal with H : (if _ then _ else _) = Some _ |- _ => destruct (_ || _); [done|injection H as <-] end. done.
Qed.

Lemma publish_keeps db0 job p : keeps (sameQueue db0) (publishArtifact job p).
Proof. unfold publishArtifact. intros env n s st res Hs Hrun. db_go. done. Qed.

Lemma publications_keeps db0 job r (b : bool) :
  keeps (sameQueue db0) (if b then dbind (optionally (AIText r) (publishArtifact job))
                                (fun _ => optionally (Preview r) (publishArtifact job)) else dret tt).
Proof.
  destruct b; [|by intros env n s st [] Hs [= <-]]. intros env n s st res Hs Hrun. db_inv.
  eapply optionally_keeps; [intros; apply publish_keeps| |eassumption].
  eapply (optionally_keeps (sameQueue db0)) in Hrun0; [exact Hrun0|intros; apply publish_keeps|exact Hs].
Qed.

Lemma complete_wf job r db j v now f :
  filesWf db -> jobs db !! ID job = Some j -> activeJob j = true -> versions db !! j_version j = Some v ->
  versionCheck (readyVersion r v) = true -> sameQueue (setVersion (j_version j) (readyVersion r v) db) f ->
  filesWf (setJob (ID job) (endedJob "completed" None now j) f).
Proof.
  intros Hs Hj Ha Hv Hck [Ef Ej]. unfold setJob, filesWf. cbn [versions jobs setJobs]. rewrite Ef, Ej.
  unfold setVersion. cbn [versions jobs setVersions]. rewrite (insert_alter (readyVersion r)) by exact Hv.
  pose proof (q_job _ _ Hs _ _ Hj).
  eapply queueWf_step; [exact Hs|exact Hj|exact Ha|done|by apply endedJob_check|].
  intros w Hw _ _. rewrite Hv in Hw. injection Hw as <-. by split.
Qed.

(** A run of [optionally] moves [sameQueue] from its first state to its last. *)
Ltac same_queue :=
  match goal with
  | S : sameQueue ?d0 ?a, H : optionally ?o ?m ?env (?n, ?a) = (?st, Ok ?u) |- _ =>
      pose proof (optionally_keeps (sameQueue d0) o m
        ltac:(intros; repeat apply fail_if_keeps; first [apply storePreview_keeps|apply publish_keeps])
        env n a st u S H); clear H; cbn [snd] in *
  end.

(** What a successful completion found and wrote. *)
Lemma complete_run job r env n db st u :
  completeBody job r env (n, db) = (st, Ok u) ->
  exists j v now f, jobs db !! ID job = Some j /\ versions db !! j_version j = Some v /\
    heldBy (LeaseOwner job) now j = true /\ j_version j = JobFileVersionID job /\
    badAICompletion (v_purpose v) r = None /\ versionCheck (readyVersion r v) = true /\
    sameQueue (setVersion (j_version j) (readyVersion r v) db) f /\
    snd st = setJob (ID job) (endedJob "completed" None now j) f.
Proof.
  unfold completeBody. intros Hrun. db_go; bool_simpl;
    (match goal with H : (_ =? _)%N = true |- _ => apply N.eqb_eq in H; rewrite <- H in * end);
    (match goal with Hj : jobs ?d !! ID job = Some ?j, Hv : versions ?d !! j_version ?j = Some ?v |- _ =>
       assert (sameQueue (setVersion (j_version j) (readyVersion r v) d) (setVersion (j_version j) (readyVersion r v) d))
         by (by split);
       exists j, v, (MkTime (dbclock env n) None) end).
  all: repeat same_queue; eexists; split_and!; [..|cbn [snd]; reflexivity]; eassumption || done.
Qed.

Lemma complete_keeps job r : keeps filesWf (completeBody job r).
Proof.
  intros env n s st res Hs Hrun.
  apply complete_run in Hrun as (j & v & now & f & Hj & Hv & Hh & _ & _ & Hck & Hq & ->).
  eapply complete_wf; try eassumption. by eapply heldBy_active.
Qed.

(** ** The cleanup store *)
Ltac write_audit := match goal with H : Audit.Write _ _ _ _ = _ |- _ => eapply Write_wf; [exact H|] end.

Lemma retry_keeps actor version : keeps filesWf (Cleanup.retryBody actor version).
Proof.
  unfold Cleanup.retryBody. intros env n s st res Hs Hrun. db_go; bool_simpl. write_audit.
  match goal with H : versions ?db !! version = Some ?v, Hi : insertJob _ _ _ ?db = Some _ |- _ =>
    pose proof (q_row _ _ Hs _ _ H) as Hck;
    eapply (insertJob_wf _ _ _ db _ v) in Hi as (Hwf & Ev & _); [|exact Hs|exact H|]; rename H into Hv end.
  - unfold filesWf. cbn [versions jobs setVersions]. rewrite Ev in *.
    eapply queueWf_version; [by rewrite <- Ev|exact Hv|by apply withProcessing_check|by right].
  - match goal with H : v_state _ = _ |- _ => rewrite H end. done.
Qed.

Lemma delete_keeps actor file until : keeps filesWf (Cleanup.deleteBody actor file until).
Proof.
  unfold Cleanup.deleteBody. intros env n s st res Hs Hrun. db_go; bool_simpl; try exact Hs. write_audit.
  match goal with H : forallb _ _ = true |- _ => rewrite forallb_forall in H; rename H into Hck end.
  unfold filesWf. cbn [versions jobs setVersions setFiles]. eapply queueWf_versions; [exact Hs| |].
  - intros id v'. rewrite lookup_fmap_Some. intros (v & <- & Hv). exists v. split; [done|]. split.
    + apply (Hck (id, v)). by apply list_elem_of_In, elem_of_map_to_list.
    + left. by destruct (Cleanup.teachingVersion file v).
  - intros id. by rewrite fmap_is_Some, lookup_fmap || (rewrite lookup_fmap, fmap_is_Some).
Qed.

Lemma claimPurge_keeps locked now owner until : keeps filesWf (Cleanup.claimPurgeBody locked now owner until).
Proof.
  unfold Cleanup.claimPurgeBody. intros env n s st res Hs Hrun. db_go; bool_simpl; try exact Hs.
  match goal with H : Cleanup.purgeCandidate _ _ _ = Some _ |- _ =>
    apply firstBy_Some in H as [Hin _]; apply list_elem_of_In, filter_In in Hin as [Hin _];
    apply list_elem_of_In, elem_of_map_to_list in Hin end.
  eapply filesWf_same; [..|eapply (Write_wf _ _ _ _ (setVersions _ _)); [eassumption|]];
    [by unfold Cleanup.announce; destruct (existsb _ _)..|].
  unfold filesWf. cbn [versions jobs setVersions]. eapply queueWf_version; [exact Hs|exact Hin|done|by left].
Qed.

Lemma completePurge_keeps c owner now : keeps filesWf (Cleanup.completePurgeBody c owner now).
Proof.
  unfold Cleanup.completePurgeBody. intros env n s st res Hs Hrun. db_go; bool_simpl. write_audit.
  unfold filesWf. cbn [versions jobs setVersions setFiles setPreviews setOutbox].
  eapply queueWf_version; [exact Hs|eassumption|done|by right].
Qed.

Lemma claimArtifact_keeps locked now owner until : keeps filesWf (Cleanup.claimArtifactBody locked now owner until).
Proof.
  unfold Cleanup.claimArtifactBody. intros env n s st res Hs Hrun. db_go; try exact Hs. write_audit.
  by eapply filesWf_same, Hs.
Qed.

Lemma completeArtifact_keeps c owner now : keeps filesWf (Cleanup.completeArtifactBody c owner now).
Proof.
  unfold Cleanup.completeArtifactBody. intros env n s st res Hs Hrun. db_go; try exact Hs. write_audit.
  by eapply filesWf_same, Hs.
Qed.

(** ** All operations *)

(** What other parts of the program change in these tables: users, references,
    the mode, cleanup events, audit rows.  [deferred] versions are those whose
    retention another component sets. *)
Inductive elsewhere (db : FilesDB) : FilesDB -> Prop :=
| Elsewhere db' : versions db' = versions db -> jobs db' = jobs db -> elsewhere db db'.

(** One operation of the upload store, the processing store or the cleanup store,
    in any environment. *)
Inductive storeStep (db : FilesDB) : FilesDB -> Prop :=
| StepCreate env u : storeStep db (exec (CreateSession u) env db)
| StepAdmit env id actor p n size h now : storeStep db (exec (AdmitPart id actor p n size h now) env db)
| StepRecord env id p : storeStep db (exec (RecordPart id p) env db)
| StepBegin env id actor p now : storeStep db (exec (BeginCompletion id actor p now) env db)
| StepReopen env id : storeStep db (exec (ReopenCompletion id) env db)
| StepFinish env u actor : storeStep db (exec (FinishCompletion u actor) env db)
| StepCancel env id actor p state : storeStep db (exec (CancelSession id actor p state) env db)
| StepClaimCleanup env adm locked cutoff limit : storeStep db (exec (ClaimCleanup adm locked cutoff limit) env db)
| StepConfirm env id : storeStep db (exec (ConfirmCleanup id) env db)
| StepFinishCleanup env id : storeStep db (exec (FinishCleanup id) env db)
| StepLease env lock locked owner now d : storeStep db (exec (LeaseNext lock locked owner now d) env db)
| StepHeartbeat env id owner until : storeStep db (exec (Heartbeat id owner until) env db)
| StepComplete env job r : storeStep db (exec (Complete job r) env db)
| StepFail env job f : storeStep db (exec (Fail job f) env db)
| StepReserve env a : storeStep db (exec (ReserveArtifact a) env db)
| StepTransition env key target : storeStep db (exec (transitionArtifact key target) env db)
| StepForget env key : storeStep db (exec (ForgetArtifact key) env db)
| StepRetry env actor v : storeStep db (exec (Cleanup.RetryFile actor v) env db)
| StepDelete env actor f until : storeStep db (exec (Cleanup.DeleteFile actor f until) env db)
| StepClaimFile env locked now owner lease : storeStep db (exec (Cleanup.ClaimFileCleanup locked now owner lease) env db)
| StepCompleteFile env c owner now : storeStep db (exec (Cleanup.CompleteFileCleanup c owner now) env db)
| StepClaimArtifact env locked now owner lease :
    storeStep db (exec (Cleanup.ClaimProcessingArtifactCleanup locked now owner lease) env db)
| StepCompleteArtifact env c owner now : storeStep db (exec (Cleanup.CompleteProcessingArtifactCleanup c owner now) env db).

Inductive filesStep (db : FilesDB) : FilesDB -> Prop :=
| StepStore db' : storeStep db db' -> filesStep db db'
| StepElsewhere db' : elsewhere db db' -> filesStep db db'.

Lemma exec_transact {E A} (I : FilesDB -> Prop) (e e' : E) (m : DB FilesDB E A) env db :
  keeps I m -> I db -> I (exec (transact e e' m) env db).
Proof.
  intros Hm Hdb. unfold exec. destruct (transact e e' m env (0%nat, db)) as [st r] eqn:Ht.
  by eapply (transact_preserves I e e' m Hm).
Qed.

(** The length check of [LeaseNext] is the one of the column. *)
Lemma owner_charLength owner :
  bool_decide (owner = EmptyString) || (128 <? len owner) = false -> charLength 1 128 owner = true.
Proof.
  intros Ho. bool_simpl. unfold charLength. rewrite andb_true_iff, !Z.leb_le.
  apply RuneCount_between; [|lia]. split; [|done]. destruct owner; [done|]. unfold len. simpl. lia.
Qed.

Lemma claimCleanup_keeps adm locked cutoff limit : keeps filesWf (claimCleanupBody adm locked cutoff limit).
Proof.
  unfold claimCleanupBody, admitted. intros env n s st res Hs Hrun.
  destruct adm as [lock|]; [|by db_go].
  destruct (AdmitClaim lock env (n, mode s)) as [[n' m'] [a|[]]]; db_go; done.
Qed.

Lemma admittedClaim_keeps {A} lock (k : DB FilesDB Processing.Error A) :
  keeps filesWf k -> keeps filesWf (admittedClaim lock k).
Proof.
  unfold admittedClaim. intros Hk env n s st res Hs Hrun.
  destruct (AdmitClaim lock env (n, mode s)) as [[n' m'] [a|[]]]; try done. by eapply Hk.
Qed.

Create HintDb files_keeps discriminated.
#[local] Hint Resolve createBody_keeps admitPart_keeps recordPart_keeps beginCompletion_keeps cancel_keeps
  confirmCleanup_keeps finishCleanup_keeps reserve_keeps transition_keeps forget_keeps finishCompletion_keeps
  heartbeat_keeps fail_keeps leaseBody_keeps complete_keeps retry_keeps delete_keeps claimPurge_keeps
  completePurge_keeps claimArtifact_keeps completeArtifact_keeps claimCleanup_keeps admittedClaim_keeps
  owner_charLength : files_keeps.

Lemma reopen_keeps env id db : filesWf db -> filesWf (exec (ReopenCompletion id) env db).
Proof. intros Hs. unfold exec, ReopenCompletion, dbind, roundtrip. by destruct (fault env 0). Qed.

Lemma stableCategory_neg b c d : b || negb (stableCategory c) || d = false -> stableCategory c = true.
Proof. intros Hb. by bool_simpl. Qed.
#[local] Hint Resolve stableCategory_neg reopen_keeps : files_keeps.

Lemma filesStep_keeps db db' : filesWf db -> filesStep db db' -> filesWf db'.
Proof.
  intros Hs [? Hstep|? Hstep]; [|destruct Hstep; by eapply filesWf_same, Hs]. destruct Hstep.
  all: try solve [auto with files_keeps].
  all: unfold exec, CreateSession, AdmitPart, RecordPart, BeginCompletion, FinishCompletion, CancelSession, ClaimCleanup,
    ConfirmCleanup, FinishCleanup, LeaseNext, Heartbeat, Complete, Fail, ReserveArtifact, transitionArtifact, ForgetArtifact,
    Cleanup.RetryFile, Cleanup.DeleteFile, Cleanup.ClaimFileCleanup, Cleanup.CompleteFileCleanup,
    Cleanup.ClaimProcessingArtifactCleanup, Cleanup.CompleteProcessingArtifactCleanup, statement.
  all: repeat match goal with |- context [if ?b then dfail _ else _] => destruct b eqn:?; [exact Hs|] end.
  all: refine (exec_transact _ _ _ _ _ _ _ Hs); eauto with files_keeps.
  - apply admittedClaim_keeps, leaseBody_keeps, owner_charLength.
    match goal with H : _ || (_ <=? 0) = false |- _ => by apply orb_false_iff in H as [? _] end.
Qed.

End Preservation.
