(* ===== verification/ProcessingTheorems.v ===== *)
(** * The processing queue: theorems

    What the invariant of [ProcessingProofs] means for the queue: claims succeed and
    take the first job in line, a worker without a lease changes nothing, jobs only
    move forward, and what happens to jobs whose last attempt was lost. *)

From S2P Require Import Prelude GoTime GoText GoStrings GoStrconv Pg OpsModel Keyset AuditLog FilesModel FilesStore ProcessingStore FilesCleanup ProcessingProofs.
From stdpp Require Import base tactics list gmap strings sorting.
From Stdlib Require Import ZArith Lia.
Import Files Processing.

Open Scope Z_scope.

(** No files yet. *)
Definition initFiles (db : FilesDB) : Prop := versions db = ∅ /\ jobs db = ∅.

(** The order of the queue. *)
Definition queueKey (id : UUID) (j : JobRow) : list Z := [ns (j_available j); ns (j_created j); Z.of_N id].

(** A job that [LeaseNext] may take at [now]. *)
Definition takes (now : Time) (locked : UUID -> bool) (db : FilesDB) (id : UUID) (j : JobRow) : Prop :=
  jobs db !! id = Some j /\ claimable now j = true /\ locked id = false.

Section Theorems.
Context `{PgTime} `{UUIDText}.

Lemma initFiles_wf db : initFiles db -> filesWf db.
Proof. intros [Ev Ej]. unfold filesWf. rewrite Ev, Ej. split; intros *; rewrite lookup_empty; done. Qed.

Lemma files_reachable_wf db : reachable initFiles filesStep db -> filesWf db.
Proof. apply reachable_invariant; [apply initFiles_wf|]. intros s s' Hs Hstep. by eapply filesStep_keeps. Qed.

(** *** What the tables demand of a row *)
Definition ifAny {A} (P : A -> Prop) (o : option A) : Prop := forall a, o = Some a -> P a.

Definition textWithin (lo hi : Z) (s : string) : Prop := lo <= RuneCountInString s <= hi.

(** [^[a-z][a-z0-9_]{0,63}$]. *)
Definition failureCode (s : string) : Prop :=
  exists b bs, bytes s = b :: bs /\ 97 <= b <= 122 /\ (length bs <= 63)%nat /\
    Forall (fun x => 97 <= x <= 122 \/ 48 <= x <= 57 \/ x = 95) bs.

Record jobConstraints (j : JobRow) : Prop := {
  job_kind : j_kind j = "process_file";
  job_state : j_state j = "queued" \/ j_state j = "running" \/ j_state j = "completed" \/ j_state j = "failed";
  job_attempts : 0 <= j_attempts j <= 4;
  job_owner : ifAny (textWithin 1 128) (j_owner j);
  job_failure : ifAny failureCode (j_failure j);
  job_lease : j_state j = "running" <-> is_Some (j_owner j) /\ is_Some (j_until j)
}.

Record versionConstraints (v : VersionRow) : Prop := {
  version_number : 0 < v_version v;
  version_key : textWithin 1 512 (v_key v);
  version_name : textWithin 1 255 (v_name v);
  version_mime : textWithin 1 160 (v_mime v);
  version_size : 1 <= v_size v <= 524288000;
  version_sha : validHash (v_sha v) = true;
  version_state : v_state v = "pending_scan" \/ v_state v = "processing" \/ v_state v = "ready" \/
    v_state v = "rejected" \/ v_state v = "failed";
  version_detected : ifAny (textWithin 1 160) (v_detected v);
  version_scan : ifAny (fun r => r = "clean" \/ r = "rejected") (v_scan v);
  version_container : ifAny (textWithin 1 80) (v_container v);
  version_codec : ifAny (textWithin 1 80) (v_codec v);
  version_duration : ifAny (fun d => 0 <= d <= 43200000) (v_duration v);
  version_width : ifAny (fun w => 1 <= w <= 7680) (v_width v);
  version_height : ifAny (fun h => 1 <= h <= 4320) (v_height v);
  version_failure : ifAny failureCode (v_failure v);
  version_cleanup : ifAny (fun c => c = "pending" \/ c = "deleting" \/ c = "purged") (v_cleanup v);
  version_cleanupOwner : ifAny (textWithin 1 128) (v_cleanupOwner v);
  version_cleanupAttempts : 0 <= v_cleanupAttempts v <= 1000;
  version_cleanupLease : v_cleanup v = Some "deleting" ->
    is_Some (v_cleanupOwner v) /\ is_Some (v_cleanupUntil v);
  version_noLease : v_cleanup v <> Some "deleting" -> v_cleanupOwner v = None /\ v_cleanupUntil v = None
}.

Lemma nullOr_ifAny {A} (check : A -> bool) (P : A -> Prop) o :
  (forall a, check a = true -> P a) -> nullOr check o = true -> ifAny P o.
Proof. intros HP Ho a ->. by apply HP. Qed.

Lemma charLength_textWithin lo hi s : charLength lo hi s = true -> textWithin lo hi s.
Proof. unfold charLength, textWithin. intros H1. bool_simpl. lia. Qed.

Lemma within_spec lo hi v : within lo hi v = true -> lo <= v <= hi.
Proof. unfold within. intros H1. bool_simpl. lia. Qed.

Lemma member_cases l s : member l s = true -> s ∈ l.
Proof. apply bool_decide_eq_true. Qed.

Lemma member_pair a b s : member [a; b] s = true -> s = a \/ s = b.
Proof. intros H1%member_cases. set_solver. Qed.

Lemma member_triple a b c s : member [a; b; c] s = true -> s = a \/ s = b \/ s = c.
Proof. intros H1%member_cases. set_solver. Qed.

Lemma stableText_failureCode s : stableText s = true -> failureCode s.
Proof.
  unfold stableText, matchHead. destruct (bytes s) as [|b bs] eqn:E; [done|]. intros H1. bool_simpl.
  unfold isLower in *. bool_simpl. exists b, bs. split_and!; try done; try lia.
  apply Forall_forall. intros x Hx. rewrite forallb_forall in *.
  match goal with H : forall y, In y bs -> _ |- _ => specialize (H x ltac:(by apply list_elem_of_In)) end.
  unfold isDigit in *. bool_simpl. lia.
Qed.

Lemma jobCheck_constraints j : jobCheck j = true -> jobConstraints j.
Proof.
  unfold jobCheck. intros Hck. bool_simpl.
  repeat match goal with
  | H : member _ _ = true |- _ => apply member_cases in H
  | H : within _ _ _ = true |- _ => apply within_spec in H
  | H : Bool.eqb _ _ = true |- _ => apply Bool.eqb_prop in H; rename H into Hlease
  end.
  split; [done|set_solver|done| | |].
  - eapply nullOr_ifAny; [apply charLength_textWithin|done].
  - eapply nullOr_ifAny; [apply stableText_failureCode|done].
  - rewrite <- (bool_decide_eq_true (j_state j = "running")), Hlease, andb_true_iff, !bool_decide_eq_true. done.
Qed.

Lemma versionCheck_constraints v : versionCheck v = true -> versionConstraints v.
Proof.
  unfold versionCheck, versionStates. intros Hck. bool_simpl.
  repeat match goal with
  | H : member _ (v_state v) = true |- _ => apply member_cases in H; rename H into Hstate
  | H : within _ _ _ = true |- _ => apply within_spec in H
  | H : charLength _ _ _ = true |- _ => apply charLength_textWithin in H
  end.
  case_bool_decide as Hd; bool_simpl; split; try assumption; try lia;
    try (eapply nullOr_ifAny; [|eassumption];
         solve [apply charLength_textWithin | apply within_spec | apply stableText_failureCode | apply member_pair | apply member_triple]);
    try (intros; congruence); try (intros; by split); clear -Hstate; set_solver.
Qed.

(** C8. In every state that the upload store, the processing store and the cleanup
    store can reach, however their operations fail and whatever commits are lost:
    the rows of jobs and versions satisfy every constraint of their tables, spelled
    out here (kinds, states, lengths, ranges, failure codes; a job has at most four
    attempts and an owner with a lease exactly while it runs, a version a cleanup
    owner with a lease exactly while it is being deleted), a version has at most
    one active job, and the version of an active job exists and is in a state from
    which [LeaseNext] accepts it. *)
Theorem files_invariant db :
  reachable initFiles filesStep db ->
  (forall id v, versions db !! id = Some v -> versionConstraints v) /\
  (forall id j, jobs db !! id = Some j -> jobConstraints j) /\
  (forall a b j k, jobs db !! a = Some j -> jobs db !! b = Some k -> activeJob j = true -> activeJob k = true ->
     j_version j = j_version k -> a = b) /\
  (forall id j, jobs db !! id = Some j -> activeJob j = true ->
     exists v, versions db !! j_version j = Some v /\ member ["pending_scan"; "processing"; "failed"] (v_state v) = true).
Proof.
  intros Hr. destruct (files_reachable_wf db Hr) as [Hrow Hjob Hver Huniq Hact]. split_and!; [| |done|].
  - intros id v Hv. by eapply versionCheck_constraints, Hrow.
  - intros id j Hj. by eapply jobCheck_constraints, Hjob.
  - intros id j Hj Ha. destruct (Hver id j Hj) as [v Hv]. exists v. split; [done|]. by eapply Hact.
Qed.

(** ** Leasing *)
Lemma failExhausted_job now locked db id :
  jobs (failExhausted now locked db) !! id =
  (fun j => if exhausted now j && negb (locked id) then endedJob "failed" (Some "lease_expired") now j else j)
    <$> jobs db !! id.
Proof.
  unfold failExhausted, setVersions, setJobs. cbn [jobs]. rewrite map_lookup_imap. by destruct (jobs db !! id).
Qed.

Lemma exhausted_not_claimable now j : exhausted now j = true -> claimable now j = false.
Proof.
  unfold exhausted, claimable. intros He. bool_simpl.
  destruct (j_attempts j <? 4) eqn:E; [|done]. bool_simpl. lia.
Qed.

Lemma takes_after now locked db id j :
  takes now locked (failExhausted now locked db) id j <-> takes now locked db id j.
Proof.
  unfold takes. rewrite failExhausted_job. split; intros (Hj & Hc & Hl); split_and!; try done.
  - destruct (jobs db !! id) as [k|]; [|done]. simpl in Hj. injection Hj as <-. rewrite Hl in *.
    destruct (exhausted now k) eqn:E; [|done]. simpl in Hc. unfold claimable in Hc. cbn in Hc.
    by rewrite !andb_false_r in Hc.
  - rewrite Hj. simpl. destruct (exhausted now j) eqn:E; [|done].
    apply exhausted_not_claimable in E. congruence.
Qed.

Lemma candidate_elem now locked db id j :
  (id, j) ∈ List.filter (fun '(id, j) => claimable now j && negb (locked id)) (map_to_list (jobs db)) <->
  takes now locked db id j.
Proof.
  unfold takes. rewrite list_elem_of_In, filter_In, <- list_elem_of_In, elem_of_map_to_list, andb_true_iff, negb_true_iff.
  done.
Qed.

Lemma queue_candidate_Some now locked db id j :
  candidate now locked db = Some (id, j) ->
  takes now locked db id j /\
  forall id' j', takes now locked db id' j' -> keyLe (queueKey id j) (queueKey id' j') = true.
Proof.
  intros Hc. apply firstBy_Some in Hc as [Hin Hmin]. split; [by apply candidate_elem|].
  intros id' j' Ht. apply candidate_elem in Ht. exact (Hmin _ Ht).
Qed.

Lemma queue_candidate_None now locked db :
  candidate now locked db = None <-> forall id j, ~ takes now locked db id j.
Proof.
  unfold candidate. rewrite firstBy_None. split.
  - intros E id j Ht. apply candidate_elem in Ht. rewrite E in Ht. by apply elem_of_nil in Ht.
  - intros Hno. apply elem_of_nil_inv. intros [id j] Hin. apply candidate_elem in Hin. by eapply Hno.
Qed.

(** Arguments that pass the guard of [LeaseNext]. *)
Definition leaseArguments (owner : string) (d : Z) : Prop :=
  owner <> EmptyString /\ len owner <= 128 /\ 0 < d.

Lemma LeaseNext_body lock locked owner now d :
  leaseArguments owner d ->
  LeaseNext lock locked owner now d =
  transact ErrDatabase ErrDatabase (admittedClaim lock (leaseBody locked owner (pg now) (pg (addDuration now d)))).
Proof.
  intros (Ho & Hl & Hd). unfold LeaseNext. rewrite bool_decide_false by done.
  rewrite (proj2 (Z.ltb_ge _ _)) by lia. rewrite (proj2 (Z.leb_gt _ _)) by lia. done.
Qed.

Lemma leaseArguments_owner owner d : leaseArguments owner d -> charLength 1 128 owner = true.
Proof.
  intros (Ho & Hl & _). apply owner_charLength. rewrite bool_decide_false by done. apply Z.ltb_ge. lia.
Qed.

Lemma admittedClaim_quiet {A} (k : DB FilesDB Processing.Error A) env n db :
  quiet env -> mode db = Some "normal"%string -> exists n', admittedClaim Locked k env (n, db) = k env (n', db).
Proof.
  intros Hq Hm. unfold admittedClaim, AdmitClaim, dbind, roundtrip, dget. rewrite !Hq, Hm. simpl. by eexists.
Qed.

Lemma leaseBody_idle locked owner now until env n db :
  (forall id j, ~ takes now locked db id j) -> is_ok (snd (leaseBody locked owner now until env (n, db))) = false.
Proof.
  intros Hno. unfold leaseBody, dbind, roundtrip, dget. destruct (fault env n); [done|].
  destruct (fault env (S n)); [done|].
  rewrite (proj2 (queue_candidate_None _ _ _)); [done|]. intros id j. rewrite takes_after. apply Hno.
Qed.

(** The version of a taken job, after exhausted jobs have failed theirs. *)
Lemma failExhausted_version now locked db id v :
  versions (failExhausted now locked db) !! id = Some v ->
  exists w, versions db !! id = Some w /\ withProcessing "processing" None v = withProcessing "processing" None w.
Proof.
  unfold failExhausted, setVersions, setJobs. cbn [versions jobs]. rewrite map_lookup_imap.
  destruct (versions db !! id) as [w|]; [|done]. simpl. intros [= <-]. exists w. by case_bool_decide.
Qed.

Lemma leaseBody_taken locked owner now until env n db id j :
  quiet env -> filesWf db -> charLength 1 128 owner = true ->
  candidate now locked (failExhausted now locked db) = Some (id, j) ->
  exists v, versions db !! j_version j = Some v /\
    leaseBody locked owner now until env (n, db) =
    ((S (S (S n)), setVersion (j_version j) (withProcessing "processing" None v)
                     (setJob id (leasedJob owner until now j) (failExhausted now locked db))),
     Ok (jobOf id (leasedJob owner until now j))).
Proof.
  intros Hq Hwf Ho Hc. pose proof (failExhausted_wf now locked db Hwf) as Hwf1.
  pose proof (queue_candidate_Some _ _ _ _ _ Hc) as [(Hj & Hcl & Hl) _].
  assert (Ha : activeJob j = true).
  { unfold claimable in Hcl. apply andb_true_iff in Hcl as [_ Hcl]. unfold activeJob.
    apply orb_true_iff in Hcl as [Hcl|Hcl]; [|unfold expiredAt in Hcl; apply andb_true_iff in Hcl as [Hcl _]];
      apply bool_decide_eq_true_1 in Hcl; by rewrite Hcl. }
  destruct (q_version _ _ Hwf1 _ _ Hj) as [v1 Hv1].
  destruct (failExhausted_version _ _ _ _ _ Hv1) as (v & Hv & Ev).
  exists v. split; [done|].
  unfold leaseBody, dbind, roundtrip, dget, dput, dret. rewrite !Hq, Hc.
  rewrite jobCheck_leased; [|by eapply (q_job _ _ Hwf1)| |done].
  - pose proof (q_active _ _ Hwf1 _ _ _ Hj Ha Hv1) as Hst. unfold claimableStates in Hst.
    cbn [negb]. rewrite Hq, Hv1, Hst. cbn [negb]. by rewrite Ev.
  - unfold claimable in Hcl. bool_simpl. lia.
Qed.

(** C9. Claims make progress and are fair: in every reachable state in normal mode,
    when no round trip fails and the arguments are valid, [LeaseNext] takes the job
    that is first by availability, creation and identifier among those it may take.
    It never answers that the version of the job cannot be claimed: the job runs
    with one attempt more under the caller's lease, its version is processing, and
    jobs whose last attempt expired have failed.  When it may take none it answers
    [ErrNoJob] and writes nothing. *)
Theorem LeaseNext_takes_first db locked owner now d env :
  reachable initFiles filesStep db -> quiet env -> mode db = Some "normal"%string -> leaseArguments owner d ->
  (exists id j v,
     takes (pg now) locked db id j /\
     (forall id' j', takes (pg now) locked db id' j' -> keyLe (queueKey id j) (queueKey id' j') = true) /\
     versions db !! j_version j = Some v /\
     value (LeaseNext Locked locked owner now d) env db =
       Ok (MkJob id (j_version j) (j_kind j) "running" (j_attempts j + 1) owner (pg (addDuration now d))) /\
     exec (LeaseNext Locked locked owner now d) env db =
       setVersion (j_version j) (withProcessing "processing" None v)
         (setJob id (leasedJob owner (pg (addDuration now d)) (pg now) j) (failExhausted (pg now) locked db)))
  \/ ((forall id j, ~ takes (pg now) locked db id j) /\
      value (LeaseNext Locked locked owner now d) env db = Err ErrNoJob /\
      exec (LeaseNext Locked locked owner now d) env db = db).
Proof.
  intros Hr Hq Hm Harg. pose proof (files_reachable_wf db Hr) as Hwf. unfold value, exec.
  rewrite (LeaseNext_body _ _ _ _ _ Harg), (transact_quiet _ _ _ _ _ _ Hq).
  destruct (admittedClaim_quiet (leaseBody locked owner (pg now) (pg (addDuration now d))) env 1 db Hq Hm) as [n' ->].
  destruct (candidate (pg now) locked (failExhausted (pg now) locked db)) as [[id j]|] eqn:Hc.
  - left. destruct (leaseBody_taken locked owner (pg now) (pg (addDuration now d)) env n' db id j Hq Hwf
      (leaseArguments_owner _ _ Harg) Hc) as (v & Hv & ->).
    exists id, j, v. apply queue_candidate_Some in Hc as [Ht Hmin]. rewrite takes_after in Ht.
    split_and!; try done. intros id' j' Ht'. apply Hmin. by apply takes_after.
  - right. split.
    + intros id j. rewrite <- takes_after. by apply queue_candidate_None.
    + unfold leaseBody, dbind, roundtrip, dget. rewrite !Hq, Hc. done.
Qed.

(** A pass over an idle queue writes nothing, in any state and environment: when
    there is no job to take, [LeaseNext] fails and every row stays as it was.  The
    statement that fails exhausted jobs is rolled back with the rest: a job whose
    fourth attempt was lost keeps running, and its version processing, until some
    other job can be taken. *)
Theorem idle_pass_keeps_exhausted lock locked owner now d env db :
  (forall id j, ~ takes (pg now) locked db id j) ->
  exec (LeaseNext lock locked owner now d) env db = db /\
  is_ok (value (LeaseNext lock locked owner now d) env db) = false.
Proof.
  intros Hno. unfold exec, value, LeaseNext. destruct (_ || _); [done|].
  destruct (transact _ _ _ env (0%nat, db)) as [st r] eqn:Ht. apply transact_stuck in Ht; [done|].
  unfold admittedClaim. destruct (AdmitClaim _ _ _) as [[n' m'] [a|[]]]; try done. by apply leaseBody_idle.
Qed.

(** ** Fencing *)

(** At no instant the database clock shows does the job run for this owner. *)
Definition notHeld (env : Env) (owner : string) (id : UUID) (db : FilesDB) : Prop :=
  forall j n, jobs db !! id = Some j -> heldBy owner (MkTime (dbclock env n) None) j = false.

(** C10. A worker that has lost its lease changes nothing: when the job does not run
    for the worker under an unexpired lease, its heartbeats, its completion and its
    failure are refused and every row stays as it was, whatever they report. *)
Theorem stale_worker_fenced env db job until r f :
  notHeld env (LeaseOwner job) (ID job) db ->
  (exec (Heartbeat (ID job) (LeaseOwner job) until) env db = db /\
   is_ok (value (Heartbeat (ID job) (LeaseOwner job) until) env db) = false) /\
  (exec (Complete job r) env db = db /\ is_ok (value (Complete job r) env db) = false) /\
  (exec (Fail job f) env db = db /\ is_ok (value (Fail job f) env db) = false).
Proof.
  intros Hno. unfold value, exec. refine (conj _ (conj _ _)).
  - unfold Heartbeat, statement. destruct (_ || _); [done|].
    destruct (transact _ _ _ env (0%nat, db)) as [st res] eqn:Ht. apply transact_stuck in Ht; [done|].
    unfold heartbeatBody, dbind, databaseNow, dget. destruct (fault env 1); [done|].
    destruct (jobs db !! ID job) as [j|] eqn:Hj; [|done]. by rewrite Hno.
  - unfold Complete. destruct (_ || _); [done|].
    destruct (transact _ _ _ env (0%nat, db)) as [st res] eqn:Ht. apply transact_stuck in Ht; [done|].
    unfold completeBody, dbind, databaseNow, dget. destruct (fault env 1); [done|].
    destruct (jobs db !! ID job) as [j|] eqn:Hj; [|done]. rewrite Hno by done. by destruct (versions db !! _).
  - unfold Fail. destruct (_ || _); [done|].
    destruct (transact _ _ _ env (0%nat, db)) as [st res] eqn:Ht. apply transact_stuck in Ht; [done|].
    unfold failBody, dbind, databaseNow, dget. destruct (fault env 1); [done|].
    destruct (jobs db !! ID job) as [j|] eqn:Hj; [|done]. by rewrite Hno.
Qed.

End Theorems.

(** * Purging files: theorems

    A purge is claimed and completed only for versions that nothing refers to any
    more, under a lease, and leaves a tombstone; and when a claim cannot succeed. *)

Import Files Cleanup.

(** No lesson, question or conversation uses a version of the file. *)
Definition unreferenced (db : FilesDB) (file : UUID) : Prop :=
  forall id v, versions db !! id = Some v -> v_file v = file ->
  id ∉ lessonRefs db /\ id ∉ qaRefs db /\ id ∉ aiRefs db.

Lemma fileReferenced_false db file : fileReferenced db file = false -> unreferenced db file.
Proof.
  unfold fileReferenced. intros Hno id v Hv Hf. apply orb_false_iff in Hno as [Hno Hai].
  apply orb_false_iff in Hno as [Hl Hq].
  assert (Hin : id ∈ versionsOf file db).
  { unfold versionsOf, versionIDs. apply list_elem_of_fmap. exists (id, v). split; [done|].
    apply list_elem_of_In, filter_In. split; [by apply list_elem_of_In, elem_of_map_to_list|by apply N.eqb_eq]. }
  split_and!; by eapply anyIn_false.
Qed.

Section Theorems.
Context `{PgTime} `{UUIDText}.

Lemma purgeCandidate_Some db now locked id v :
  purgeCandidate db now locked = Some (id, v) ->
  versions db !! id = Some v /\ purgeable db now id v = true /\ locked id = false.
Proof.
  intros Hc. apply firstBy_Some in Hc as [Hin _]. apply list_elem_of_In, filter_In in Hin as [Hin Hp].
  apply list_elem_of_In, elem_of_map_to_list in Hin. apply andb_true_iff in Hp as [Hp Hl]. apply negb_true_iff in Hl. done.
Qed.

Lemma purgeable_facts db now id v :
  purgeable db now id v = true ->
  v_purged v = None /\ (exists t, v_retention v = Some t /\ After t now = false) /\ hasActiveJob db id = false.
Proof.
  unfold purgeable. destruct (files db !! v_file v); [|done]. intros Hp. bool_simpl.
  destruct (v_retention v) as [t|]; [|done]. bool_simpl. split_and!; try done. eauto.
Qed.

Lemma Write_versions {E} (failed : Audit.Error -> E) ev env n (db : FilesDB) st r :
  Audit.Write failed ev env (n, db) = (st, r) ->
  versions (snd st) = versions db /\ previews (snd st) = previews db.
Proof. intros Hw. destruct (Write_audit _ _ _ _ _ _ _ Hw) as [t ->]. done. Qed.

(** Purging is guarded at both ends. A claim of [ClaimFileCleanup] names a
    version whose retention is over, that is not purged, has no active processing
    job, and whose file no lesson, question or conversation refers to; it leases
    exactly that version to the caller.  [CompleteFileCleanup] succeeds only for the
    owner of an unexpired lease on the version the claim named, after checking the
    references again; it then replaces the row by a tombstone without content, name
    or previews, and changes no other version. *)
Theorem purge_guarded :
  (forall locked now owner lease env n db st c,
     ClaimFileCleanup locked now owner lease env (n, db) = (st, Ok (Some c)) ->
     exists v, versions db !! CandVersion c = Some v /\ v_file v = CandFile c /\ v_key v = OriginalKey c /\
       PreviewKeys c = previewKeysOf db (CandVersion c) /\
       v_purged v = None /\ (exists t, v_retention v = Some t /\ After t (pg now) = false) /\
       hasActiveJob db (CandVersion c) = false /\ unreferenced db (CandFile c) /\
       versions (snd st) = <[CandVersion c := withCleanup (Some "deleting"%string) (Some owner)
         (Some (pg (addDuration now lease))) (v_cleanupAttempts v + 1) v]> (versions db)) /\
  (forall c owner now env n db st,
     CompleteFileCleanup c owner now env (n, db) = (st, Ok tt) ->
     exists v t key, versions db !! CandVersion c = Some v /\ v_file v = CandFile c /\ v_key v = OriginalKey c /\
       v_cleanup v = Some "deleting"%string /\ v_cleanupOwner v = Some owner /\ v_cleanupUntil v = Some t /\
       After t (pg now) = true /\ unreferenced db (CandFile c) /\
       versions (snd st) = <[CandVersion c := tombstone key (pg now) v]> (versions db) /\
       (forall kind, previews (snd st) !! (CandVersion c, kind) = None)).
Proof.
  split.
  - intros locked now owner lease env n db st c Hrun. unfold ClaimFileCleanup in Hrun.
    destruct (_ || _); [done|]. apply transact_Ok in Hrun as (n' & Hrun). unfold claimPurgeBody in Hrun.
    db_go; simplify_eq. cbn [CandVersion CandFile OriginalKey PreviewKeys].
    match goal with H : purgeCandidate _ _ _ = Some _ |- _ =>
      apply purgeCandidate_Some in H as (Hv & Hp & _); apply purgeable_facts in Hp as (? & ? & ?) end.
    match goal with H : Audit.Write _ _ _ _ = _ |- _ => apply Write_versions in H as [Ev _]; cbn [snd versions setVersions] in Ev end.
    eexists. split_and!; try done; [by apply fileReferenced_false|].
    match goal with H : announce _ _ _ = _ |- _ => rewrite <- H; unfold announce end. by destruct (existsb _ _).
  - intros c owner now env n db st Hrun. unfold CompleteFileCleanup in Hrun.
    destruct (_ || _); [done|]. apply transact_Ok in Hrun as (n' & Hrun). unfold completePurgeBody in Hrun.
    db_go; simplify_eq. bool_simpl.
    match goal with H : Audit.Write _ _ _ _ = _ |- _ => apply Write_versions in H as [Ev Ep] end.
    cbn [snd versions previews setVersions setPreviews setFiles setOutbox] in Ev, Ep.
    match goal with H : match v_cleanupUntil ?v with _ => _ end = true |- _ => destruct (v_cleanupUntil v) as [t|] eqn:Et; [|done] end.
    match goal with H : (v_file _ =? _)%N = true |- _ => apply N.eqb_eq in H end.
    do 3 eexists. split_and!; try done; [by apply fileReferenced_false|].
    intros kind. cbn [snd]. rewrite Ep. by rewrite map_lookup_filter_None; right; intros x _ [].
Qed.

(** A claim takes the version whose retention ended first; when that version has used
    up its attempts the constraint on the counter makes every claim fail, so no file
    is purged any more. *)
Lemma spent_candidate_blocks_purging locked now owner lease env n db id v st r :
  purgeCandidate db (pg now) locked = Some (id, v) -> 1000 <= v_cleanupAttempts v ->
  ClaimFileCleanup locked now owner lease env (n, db) = (st, r) -> snd st = db /\ is_ok r = false.
Proof.
  intros Hc Ha. unfold ClaimFileCleanup. destruct (_ || _); [by intros [= <- <-]|].
  intros Hrun. eapply transact_stuck; [|exact Hrun].
  unfold claimPurgeBody, dbind, roundtrip, dget. repeat (destruct (fault env _); [done|]). rewrite Hc.
  repeat (destruct (fault env _); [done|]). destruct (fileReferenced _ _); [done|].
  repeat (destruct (fault env _); [done|]).
  assert (Hck : versionCheck (withCleanup (Some "deleting"%string) (Some owner) (Some (pg (addDuration now lease)))
            (v_cleanupAttempts v + 1) v) = false); [|by rewrite Hck].
  unfold versionCheck. cbn [v_cleanupAttempts withCleanup]. unfold within.
  rewrite (proj2 (Z.leb_gt (v_cleanupAttempts v + 1) 1000)) by lia. by rewrite !andb_false_r.
Qed.

End Theorems.
