(* ===== verification/ProcessingHistory.v ===== *)
(** * The history of processing jobs

    Every operation on the file tables keeps every job, and a job only moves
    forward: its identity is fixed, each attempt is a lease, and a job that has
    ended never changes again. *)

From S2P Require Import Prelude GoTime GoText GoStrings Pg OpsModel Keyset AuditLog FilesModel FilesStore ProcessingStore FilesCleanup ProcessingProofs ProcessingTheorems.
From stdpp Require Import base tactics list gmap strings sorting.
From Stdlib Require Import ZArith Lia.
Import Files Processing.

Open Scope Z_scope.

(** What one operation may do to a job. *)
Record advance (j j' : JobRow) : Prop := {
  adv_version : j_version j' = j_version j;
  adv_kind : j_kind j' = j_kind j;
  adv_created : j_created j' = j_created j;
  adv_ended : activeJob j = false -> j' = j;
  adv_attempts : j_attempts j' = j_attempts j \/ (j_attempts j' = j_attempts j + 1 /\ j_state j' = "running"%string)
}.

Lemma advance_refl j : advance j j.
Proof. split; try done. by left. Qed.

Definition jobsFrom (js : gmap N JobRow) (db : FilesDB) : Prop :=
  forall id j, js !! id = Some j -> exists j', jobs db !! id = Some j' /\ advance j j'.

Lemma jobsFrom_same db db' js : jobs db' = jobs db -> jobsFrom js db -> jobsFrom js db'.
Proof. unfold jobsFrom. by intros ->. Qed.

Lemma jobsFrom_refl db : jobsFrom (jobs db) db.
Proof. intros id j Hj. exists j. split; [done|apply advance_refl]. Qed.

(** One row of [db] changes. *)
Lemma jobsFrom_step db db' id j j' :
  jobs db !! id = Some j -> advance j j' -> jobs db' = <[id := j']> (jobs db) -> jobsFrom (jobs db) db'.
Proof.
  intros Hj Ha E i k Hk. rewrite E. destruct (decide (id = i)) as [<-|Hne].
  - rewrite lookup_insert_eq. exists j'. split; [done|]. congruence.
  - rewrite lookup_insert_ne by done. exists k. split; [done|apply advance_refl].
Qed.

Lemma jobsFrom_insert db db' id j : jobs db !! id = None -> jobs db' = <[id := j]> (jobs db) -> jobsFrom (jobs db) db'.
Proof.
  intros Hid E i k Hk. rewrite E, lookup_insert_ne by congruence. exists k. split; [done|apply advance_refl].
Qed.

(** Operations that leave the table of jobs alone. *)
Definition sameJobs (js : gmap N JobRow) (db : FilesDB) : Prop := jobs db = js.

(** Bodies whose successful run relates the table of jobs before and after. *)
Definition advances {E A} (m : DB FilesDB E A) : Prop :=
  forall env n s st a, m env (n, s) = (st, Ok a) -> jobsFrom (jobs s) (snd st).

Lemma frame_advances {E A} (m : DB FilesDB E A) : (forall js, keeps (sameJobs js) m) -> advances m.
Proof. intros Hm env n s st a Hrun. eapply jobsFrom_same; [|apply jobsFrom_refl]. by eapply Hm in Hrun. Qed.

Lemma exec_advances {E A} (e e' : E) (m : DB FilesDB E A) env db :
  advances m -> jobsFrom (jobs db) (exec (transact e e' m) env db).
Proof.
  intros Hm. unfold exec. destruct (transact e e' m env (0%nat, db)) as [st r] eqn:Ht.
  apply transact_outcome in Ht as [E1|(n1 & a & Hb)]; simpl.
  - rewrite E1. apply jobsFrom_refl.
  - exact (Hm _ _ _ _ _ Hb).
Qed.

Section History.
Context `{PgTime} `{UUIDText}.

Lemma Write_jobs {E} (failed : Audit.Error -> E) ev env n (db : FilesDB) st r :
  Audit.Write failed ev env (n, db) = (st, r) -> jobs (snd st) = jobs db.
Proof. intros Hw. destruct (Write_audit _ _ _ _ _ _ _ Hw) as [t ->]. done. Qed.

Ltac audit_jobs :=
  repeat match goal with H : Audit.Write _ _ _ _ = _ |- _ => apply Write_jobs in H; cbn [snd] in H end;
  cbn [snd jobs setFiles setVersions setPreviews setSessions setParts setJobs setArtifacts setOutbox putSession
       setVersion setJob] in *.
Ltac frame_jobs :=
  apply frame_advances; intros js env n s st res Hs Hrun; unfold sameJobs in *; db_go; audit_jobs;
  repeat match goal with H : jobs _ = jobs _ |- _ => rewrite H; clear H end; try assumption; try reflexivity.

Lemma createBody_advances u : advances (createBody u).
Proof. unfold createBody. frame_jobs. Qed.
Lemma admitPart_advances id actor p num size h now : advances (admitPartBody id actor p num size h now).
Proof. unfold admitPartBody. frame_jobs. Qed.
Lemma recordPart_advances id p : advances (recordPartBody id p).
Proof. unfold recordPartBody. frame_jobs. by repeat case_match. Qed.
Lemma beginCompletion_advances id actor p now : advances (beginCompletionBody id actor p now).
Proof. unfold beginCompletionBody, listParts. frame_jobs. Qed.
Lemma cancel_advances id actor p : advances (cancelBody id actor p).
Proof. unfold cancelBody. frame_jobs. Qed.
Lemma confirmCleanup_advances id : advances (confirmCleanupBody id).
Proof. unfold confirmCleanupBody. frame_jobs. Qed.
Lemma finishCleanup_advances id : advances (finishCleanupBody id).
Proof. unfold finishCleanupBody. frame_jobs. Qed.
Lemma reserve_advances a : advances (reserveBody a).
Proof. unfold reserveBody. frame_jobs. Qed.
Lemma transition_advances key target : advances (transitionBody key target).
Proof. unfold transitionBody. frame_jobs. Qed.
Lemma forget_advances key : advances (forgetBody key).
Proof. unfold forgetBody. frame_jobs. Qed.
Lemma delete_advances actor file until : advances (Cleanup.deleteBody actor file until).
Proof. unfold Cleanup.deleteBody. frame_jobs. Qed.
Lemma claimPurge_advances locked now owner until : advances (Cleanup.claimPurgeBody locked now owner until).
Proof. unfold Cleanup.claimPurgeBody. frame_jobs. unfold Cleanup.announce. by destruct (existsb _ _). Qed.
Lemma completePurge_advances c owner now : advances (Cleanup.completePurgeBody c owner now).
Proof. unfold Cleanup.completePurgeBody. frame_jobs. Qed.
Lemma claimArtifact_advances locked now owner until : advances (Cleanup.claimArtifactBody locked now owner until).
Proof. unfold Cleanup.claimArtifactBody. frame_jobs. Qed.
Lemma completeArtifact_advances c owner now : advances (Cleanup.completeArtifactBody c owner now).
Proof. unfold Cleanup.completeArtifactBody. frame_jobs. Qed.

Ltac insert_jobs :=
  intros env n s st res Hrun; db_go; audit_jobs; try simple apply jobsFrom_refl;
  match goal with H : insertJob _ _ _ _ = Some _ |- _ => apply insertJob_shape in H; destruct H as (_ & ? & ?) end;
  cbn [snd jobs setFiles setVersions setJobs setSessions putSession] in *;
  eapply jobsFrom_insert; [eassumption|]; cbn [snd]; etransitivity; eassumption.

Lemma finishCompletion_advances u actor : advances (finishCompletionBody u actor).
Proof. unfold finishCompletionBody. insert_jobs. Qed.
Lemma retry_advances actor version : advances (Cleanup.retryBody actor version).
Proof. unfold Cleanup.retryBody. insert_jobs. Qed.

(** Changes of an active job. *)
Lemma advance_leased owner until now j : activeJob j = true -> advance j (leasedJob owner until now j).
Proof. intros Ha. split; try done; [congruence|by right]. Qed.
Lemma advance_ended state failure now j : activeJob j = true -> advance j (endedJob state failure now j).
Proof. intros Ha. split; try done; [congruence|by left]. Qed.
Lemma advance_requeued available failure now j : activeJob j = true -> advance j (requeuedJob available failure now j).
Proof. intros Ha. split; try done; [congruence|by left]. Qed.
Lemma advance_renewed until now j : activeJob j = true -> advance j (renewedJob until now j).
Proof. intros Ha. split; try done; [congruence|by left]. Qed.

Lemma heartbeat_advances id owner until : advances (heartbeatBody id owner until).
Proof.
  unfold heartbeatBody. intros env n s st res Hrun. db_go.
  match goal with H : _ && _ = true |- _ => apply andb_true_iff in H as [Hh%heldBy_active _] end.
  eapply jobsFrom_step; [eassumption|by apply advance_renewed|done].
Qed.

Lemma fail_advances job f : advances (failBody job f).
Proof.
  unfold failBody. intros env n s st res Hrun. db_go. bool_simpl.
  match goal with H : heldBy _ _ _ = true |- _ => apply heldBy_active in H; rename H into Ha end.
  eapply jobsFrom_step; [eassumption| |done]. destruct (_ || _); [by apply advance_ended|by apply advance_requeued].
Qed.

Lemma complete_advances job r : advances (completeBody job r).
Proof.
  intros env n s st res Hrun.
  apply complete_run in Hrun as (j & v & now & f & Hj & Hv & Hh%heldBy_active & _ & _ & Hck & [_ Ej] & ->).
  eapply jobsFrom_step; [exact Hj|by apply (advance_ended "completed" None)|]. cbn [jobs setJob setJobs]. by rewrite Ej.
Qed.

Lemma claimable_active now j : claimable now j = true -> activeJob j = true.
Proof.
  unfold claimable, activeJob, expiredAt. intros Hcl. apply andb_true_iff in Hcl as [_ Hcl].
  apply orb_true_iff in Hcl as [Hcl|Hcl]; [|apply andb_true_iff in Hcl as [Hcl _]];
    apply bool_decide_eq_true_1 in Hcl; by rewrite Hcl.
Qed.

Lemma exhausted_active now j : exhausted now j = true -> activeJob j = true.
Proof.
  unfold exhausted, expiredAt, activeJob. intros Hx. bool_simpl.
  match goal with H : j_state j = _ |- _ => rewrite H end. done.
Qed.

Lemma leaseBody_advances locked owner now until : advances (leaseBody locked owner now until).
Proof.
  unfold leaseBody. intros env n s st res Hrun. db_go. bool_simpl.
  match goal with H : candidate _ _ _ = Some (?id, ?j) |- _ =>
    apply queue_candidate_Some in H as [Ht _]; rewrite takes_after in Ht; destruct Ht as (Hj & Hcl & _);
    rename id into cid; rename j into cj end.
  intros id j Hid. cbn [snd jobs setVersion setVersions setJob setJobs].
  destruct (decide (cid = id)) as [<-|Hne].
  - rewrite lookup_insert_eq. eexists. split; [done|]. rewrite Hj in Hid. injection Hid as <-.
    apply advance_leased. by eapply claimable_active.
  - rewrite lookup_insert_ne, failExhausted_job, Hid by done. simpl. eexists. split; [done|].
    destruct (_ && _) eqn:Hx; [|apply advance_refl]. apply advance_ended, (exhausted_active now).
    by apply andb_true_iff in Hx as [? _].
Qed.

Lemma claimCleanup_advances adm locked cutoff limit : advances (claimCleanupBody adm locked cutoff limit).
Proof.
  unfold claimCleanupBody, admitted. intros env n s st res Hrun.
  destruct adm as [lock|]; [|db_go; apply jobsFrom_refl].
  destruct (AdmitClaim lock env (n, mode s)) as [[n' m'] [a|[]]]; db_go; try done; apply jobsFrom_refl.
Qed.

Lemma admittedClaim_advances {A} lock (k : DB FilesDB Processing.Error A) : advances k -> advances (admittedClaim lock k).
Proof.
  unfold admittedClaim. intros Hk env n s st res Hrun.
  destruct (AdmitClaim lock env (n, mode s)) as [[n' m'] [a|[]]]; try done. by eapply Hk.
Qed.

Create HintDb advances discriminated.
#[local] Hint Resolve createBody_advances admitPart_advances recordPart_advances beginCompletion_advances cancel_advances
  confirmCleanup_advances finishCleanup_advances reserve_advances transition_advances forget_advances
  finishCompletion_advances heartbeat_advances fail_advances leaseBody_advances complete_advances retry_advances
  delete_advances claimPurge_advances completePurge_advances claimArtifact_advances completeArtifact_advances
  claimCleanup_advances admittedClaim_advances : advances.

Lemma filesStep_jobs db db' : filesStep db db' -> jobsFrom (jobs db) db'.
Proof.
  intros [? Hstep|? Hstep]; [|destruct Hstep as [? _ E]; eapply jobsFrom_same; [exact E|apply jobsFrom_refl]]. destruct Hstep.
  all: unfold CreateSession, AdmitPart, RecordPart, BeginCompletion, FinishCompletion, CancelSession, ClaimCleanup,
    ConfirmCleanup, FinishCleanup, LeaseNext, Heartbeat, Complete, Fail, ReserveArtifact, transitionArtifact, ForgetArtifact,
    Cleanup.RetryFile, Cleanup.DeleteFile, Cleanup.ClaimFileCleanup, Cleanup.CompleteFileCleanup,
    Cleanup.ClaimProcessingArtifactCleanup, Cleanup.CompleteProcessingArtifactCleanup, statement.
  all: repeat match goal with |- context [if ?b then dfail _ else _] => destruct b; [apply jobsFrom_refl|] end.
  all: try solve [apply exec_advances; auto with advances].
  unfold exec, ReopenCompletion, dbind, roundtrip. destruct (fault env 0); apply jobsFrom_refl.
Qed.

Lemma advance_trans_ended a b c : advance a b -> (activeJob b = false -> c = b) -> activeJob a = false -> c = a.
Proof. intros Hab Hbc Ha. pose proof (adv_ended _ _ Hab Ha) as ->. by apply Hbc. Qed.

(** C11. Jobs only move forward, over any sequence of operations of the three stores
    and whatever fails: no job disappears or changes its version, kind or creation
    time, attempts are never taken back, and a job that completed or failed stays as
    it is forever.  One operation raises the attempts by at most one, and only by
    making the job run. *)
Theorem jobs_only_advance db db' :
  rtc filesStep db db' ->
  forall id j, jobs db !! id = Some j ->
  exists j', jobs db' !! id = Some j' /\ j_version j' = j_version j /\ j_kind j' = j_kind j /\
    j_created j' = j_created j /\ j_attempts j <= j_attempts j' /\ (activeJob j = false -> j' = j) /\
    (filesStep db db' -> j_attempts j' = j_attempts j \/
                         j_attempts j' = j_attempts j + 1 /\ j_state j' = "running"%string).
Proof.
  assert (Hmany : rtc filesStep db db' -> forall id j, jobs db !! id = Some j ->
    exists j', jobs db' !! id = Some j' /\ j_version j' = j_version j /\ j_kind j' = j_kind j /\
      j_created j' = j_created j /\ j_attempts j <= j_attempts j' /\ (activeJob j = false -> j' = j)).
  { induction 1 as [d|d e f Hde _ IH]; intros id j Hj; [exists j; split_and!; done|].
    destruct (filesStep_jobs _ _ Hde id j Hj) as (k & Hk & Hadv).
    destruct (IH id k Hk) as (l & Hl & Hv & Hkd & Hc & Ha & He). exists l.
    pose proof (advance_trans_ended _ _ _ Hadv He). destruct Hadv as [Av Ak Ac _ Aa].
    split_and!; try done; try congruence. lia. }
  intros Hr id j Hj. destruct (Hmany Hr id j Hj) as (j' & Hj' & ?). destruct_and!. exists j'. split_and!; try done.
  intros Hstep. destruct (filesStep_jobs _ _ Hstep id j Hj) as (k & Hk & Hadv).
  assert (k = j') as -> by congruence. apply (adv_attempts _ _ Hadv).
Qed.

End History.
