(* ===== verification/FilesSettled.v ===== *)
(** * Versions that lessons refer to

    A version is settled when it is a ready teaching version of a file that is not
    deleted.  No operation of the three file stores changes the content of a settled
    version that a lesson refers to, its file or its previews; every version keeps a
    file; and no version disappears. *)

From S2P Require Import Prelude GoTime GoText GoStrings Pg OpsModel Keyset AuditLog FilesModel FilesStore ProcessingStore FilesCleanup ProcessingProofs ProcessingTheorems ProcessingHistory.
From stdpp Require Import base tactics list gmap strings sorting.
From Stdlib Require Import ZArith Lia.
Import Files Processing.

Open Scope Z_scope.

Definition ready (v : VersionRow) : Prop := v_purpose v = UploadPurposeTeaching /\ v_state v = "ready"%string.

Definition live (db : FilesDB) (file : UUID) : Prop := exists f, files db !! file = Some f /\ file_deletedAt f = None.

Definition settled (db : FilesDB) (id : UUID) : Prop := exists v, versions db !! id = Some v /\ ready v /\ live db (v_file v).

(** What is handed out for a version. *)
Record sameContent (v v' : VersionRow) : Prop := {
  same_file : v_file v' = v_file v; same_purpose : v_purpose v' = v_purpose v; same_state : v_state v' = v_state v;
  same_key : v_key v' = v_key v; same_size : v_size v' = v_size v; same_sha : v_sha v' = v_sha v;
  same_mime : v_mime v' = v_mime v; same_detected : v_detected v' = v_detected v; same_playable : v_playable v' = v_playable v
}.

Lemma sameContent_refl v : sameContent v v.
Proof. by split. Qed.

Lemma sameContent_ready v v' : sameContent v v' -> ready v -> ready v'.
Proof. intros Hs [Hp Hr]. split; [by rewrite (same_purpose _ _ Hs)|by rewrite (same_state _ _ Hs)]. Qed.

(** Every version has a file. *)
Definition haveFiles (db : FilesDB) : Prop := forall id v, versions db !! id = Some v -> is_Some (files db !! v_file v).

Record keepsRefs (db db' : FilesDB) : Prop := {
  kept_refs : lessonRefs db' = lessonRefs db;
  kept_versions : forall id, is_Some (versions db !! id) -> is_Some (versions db' !! id);
  kept_files : haveFiles db -> haveFiles db';
  kept_settled : forall id v, id ∈ lessonRefs db -> versions db !! id = Some v -> settled db id ->
    exists v', versions db' !! id = Some v' /\ sameContent v v' /\ live db' (v_file v) /\
      forall kind, previews db' !! (id, kind) = previews db !! (id, kind)
}.

Lemma keepsRefs_refl db : keepsRefs db db.
Proof. split; try done. intros id v _ Hv (w & Hw & _ & Hl). exists v. split_and!; [done|by split|by simplify_eq|done]. Qed.

(** Changes of versions alone, of those that are not settled or of what is not content. *)
Lemma keepsRefs_versions db db' :
  lessonRefs db' = lessonRefs db -> files db' = files db ->
  (forall id v, versions db !! id = Some v -> exists v', versions db' !! id = Some v' /\ v_file v' = v_file v /\
     (ready v -> sameContent v v')) ->
  (forall id, is_Some (versions db' !! id) -> is_Some (versions db !! id)) ->
  (forall id v kind, versions db !! id = Some v -> ready v -> previews db' !! (id, kind) = previews db !! (id, kind)) ->
  keepsRefs db db'.
Proof.
  intros Hr Hf Hv Hdom Hp. split; [done| | |].
  - intros id [v Hid]. destruct (Hv id v Hid) as (v' & -> & _). by eexists.
  - intros Hall id v' Hid. destruct (Hdom id ltac:(by eexists)) as [v Hw]. destruct (Hv id v Hw) as (v1 & Hv1 & E & _).
    rewrite Hid in Hv1. injection Hv1 as <-. rewrite Hf, E. by eapply Hall.
  - intros id v _ Hid (w & Hw & Hrd & f & Hlf). rewrite Hid in Hw. injection Hw as <-.
    destruct (Hv id v Hid) as (v' & Hv' & _ & Hsame). exists v'. split_and!; [done|by apply Hsame| |].
    + exists f. by rewrite Hf.
    + intros kind. by eapply Hp.
Qed.

Lemma keepsRefs_frame db db' :
  lessonRefs db' = lessonRefs db -> files db' = files db -> versions db' = versions db -> previews db' = previews db ->
  keepsRefs db db'.
Proof.
  intros Hr Hf Hv Hp. apply keepsRefs_versions; [done|done|..].
  - intros id v Hid. exists v. rewrite Hv. by split_and!.
  - by rewrite Hv.
  - by rewrite Hp.
Qed.

(** A new file, a new version of it. *)
Lemma keepsRefs_upload db db' file f version v :
  lessonRefs db' = lessonRefs db -> files db !! file = None -> files db' = <[file := f]> (files db) ->
  versions db !! version = None -> versions db' = <[version := v]> (versions db) -> v_file v = file ->
  previews db' = previews db -> keepsRefs db db'.
Proof.
  intros Hr Hnf Hf Hnv Hv Hvf Hp. split; [done| | |].
  - intros id [w Hid]. rewrite Hv, lookup_insert_ne by congruence. by eexists.
  - intros Hall id w. rewrite Hv, Hf, lookup_insert_Some. intros [[<- <-]|[Hne Hid]].
    + rewrite Hvf, lookup_insert_eq. by eexists.
    + destruct (Hall id w Hid) as [g Hg]. rewrite lookup_insert_ne by congruence. by eexists.
  - intros id w _ Hid (w' & Hw & _ & g & Hg & Hdel). rewrite Hid in Hw. injection Hw as <-.
    exists w. rewrite Hv, Hp, lookup_insert_ne by congruence. split_and!; [done|by split| |done].
    exists g. by rewrite Hf, lookup_insert_ne by congruence.
Qed.

(** Bodies whose successful run keeps the references. *)
Definition settles {E A} (m : DB FilesDB E A) : Prop :=
  forall env n s st a, filesWf s -> m env (n, s) = (st, Ok a) -> keepsRefs s (snd st).

Lemma exec_settles {E A} (e e' : E) (m : DB FilesDB E A) env db :
  settles m -> filesWf db -> keepsRefs db (exec (transact e e' m) env db).
Proof.
  intros Hm Hw. unfold exec. destruct (transact e e' m env (0%nat, db)) as [st r] eqn:Ht.
  apply transact_outcome in Ht as [E1|(n1 & a & Hb)]; simpl.
  - rewrite E1. apply keepsRefs_refl.
  - exact (Hm _ _ _ _ _ Hw Hb).
Qed.

(** The tables a frame operation leaves alone. *)
Definition sameFiles (db0 db : FilesDB) : Prop :=
  lessonRefs db = lessonRefs db0 /\ files db = files db0 /\ versions db = versions db0 /\ previews db = previews db0.

Lemma frame_settles {E A} (m : DB FilesDB E A) : (forall db0, keeps (sameFiles db0) m) -> settles m.
Proof.
  intros Hm env n s st a _ Hrun. destruct (Hm s env n s st a ltac:(done) Hrun) as (? & ? & ? & ?). by apply keepsRefs_frame.
Qed.

(** The version of an active job is not ready. *)
Lemma active_not_ready db id j v :
  filesWf db -> jobs db !! id = Some j -> activeJob j = true -> versions db !! j_version j = Some v -> ~ ready v.
Proof.
  intros Hw Hj Ha Hv [_ Hr]. pose proof (q_active _ _ Hw _ _ _ Hj Ha Hv) as Hm. by rewrite Hr in Hm.
Qed.

Section Settled.
Context `{PgTime} `{UUIDText}.

Lemma Write_same {E} (failed : Audit.Error -> E) ev env n (db : FilesDB) st r :
  Audit.Write failed ev env (n, db) = (st, r) -> sameFiles db (snd st).
Proof. intros Hw. destruct (Write_audit _ _ _ _ _ _ _ Hw) as [t ->]. by destruct db. Qed.

Ltac audit_same :=
  repeat match goal with H : Audit.Write _ _ _ _ = _ |- _ => apply Write_same in H; cbn [snd] in H end.
Ltac same_unfold :=
  unfold sameFiles in *; cbn [snd lessonRefs files versions previews setFiles setVersions setPreviews setSessions setParts
    setJobs setArtifacts setOutbox putSession setVersion setJob] in *.
Ltac frame_same :=
  apply frame_settles; intros db0 env n s st res Hs Hrun; db_go; audit_same; same_unfold; repeat case_match; intuition congruence.

Lemma createBody_settles u : settles (createBody u).
Proof. unfold createBody. frame_same. Qed.
Lemma admitPart_settles id actor p num size h now : settles (admitPartBody id actor p num size h now).
Proof. unfold admitPartBody. frame_same. Qed.
Lemma recordPart_settles id p : settles (recordPartBody id p).
Proof. unfold recordPartBody. frame_same. Qed.
Lemma beginCompletion_settles id actor p now : settles (beginCompletionBody id actor p now).
Proof. unfold beginCompletionBody, listParts. frame_same. Qed.
Lemma cancel_settles id actor p : settles (cancelBody id actor p).
Proof. unfold cancelBody. frame_same. Qed.
Lemma confirmCleanup_settles id : settles (confirmCleanupBody id).
Proof. unfold confirmCleanupBody. frame_same. Qed.
Lemma finishCleanup_settles id : settles (finishCleanupBody id).
Proof. unfold finishCleanupBody. frame_same. Qed.
Lemma reserve_settles a : settles (reserveBody a).
Proof. unfold reserveBody. frame_same. Qed.
Lemma transition_settles key target : settles (transitionBody key target).
Proof. unfold transitionBody. frame_same. Qed.
Lemma forget_settles key : settles (forgetBody key).
Proof. unfold forgetBody. frame_same. Qed.
Lemma claimArtifact_settles locked now owner until : settles (Cleanup.claimArtifactBody locked now owner until).
Proof. unfold Cleanup.claimArtifactBody. frame_same. Qed.
Lemma completeArtifact_settles c owner now : settles (Cleanup.completeArtifactBody c owner now).
Proof. unfold Cleanup.completeArtifactBody. frame_same. Qed.
Lemma heartbeat_settles id owner until : settles (heartbeatBody id owner until).
Proof. unfold heartbeatBody. frame_same. Qed.

Lemma finishCompletion_settles u actor : settles (finishCompletionBody u actor).
Proof.
  unfold finishCompletionBody. intros env n s st res Hs Hrun. db_go; try apply keepsRefs_refl.
  audit_same. bool_simpl. repeat match goal with H : _ || _ = false |- _ => apply orb_false_iff in H as [? ?] end. bool_simpl.
  match goal with H : insertJob _ _ _ _ = Some ?d |- _ => pose proof H as Hv; apply insertJob_shape in Hv as (Hv & _ & _);
    unfold insertJob in H; destruct (_ || _); [done|]; injection H as <- end.
  repeat match goal with H : ~ is_Some _ |- _ => rewrite <- eq_None_not_Some in H end.
  same_unfold. destruct_and!. eapply keepsRefs_upload; try eassumption; done.
Qed.

Lemma retry_settles actor version : settles (Cleanup.retryBody actor version).
Proof.
  unfold Cleanup.retryBody. intros env n s st res Hs Hrun. db_go; bool_simpl. audit_same.
  match goal with H : insertJob _ _ _ _ = Some ?d |- _ => unfold insertJob in H; destruct (_ || _); [done|]; injection H as <- end.
  match goal with H : versions _ !! version = Some ?v |- _ => rename v into v0; rename H into Hv0 end.
  same_unfold. destruct_and!. apply keepsRefs_versions; [done|done|..].
  - intros id v Hid. match goal with H : versions _ = _ |- _ => rewrite H end.
    destruct (decide (version = id)) as [<-|Hne].
    + rewrite lookup_insert_eq. eexists. split_and!; [done|by simplify_eq|]. intros [_ Hr]. simplify_eq. congruence.
    + rewrite lookup_insert_ne by done. exists v. split_and!; [done..|intros _; apply sameContent_refl].
  - intros id. match goal with H : versions _ = _ |- _ => rewrite H end. rewrite lookup_insert_is_Some. intros [<-|[_ ?]]; [by eexists|done].
  - congruence.
Qed.

Lemma versionIDs_elem p db id v : versions db !! id = Some v -> p v = true -> id ∈ Cleanup.versionIDs p db.
Proof.
  intros Hv Hp. unfold Cleanup.versionIDs. apply list_elem_of_fmap. exists (id, v). split; [done|].
  apply list_elem_of_In, filter_In. split; [by apply list_elem_of_In, elem_of_map_to_list|done].
Qed.

Lemma delete_settles actor file until : settles (Cleanup.deleteBody actor file until).
Proof.
  unfold Cleanup.deleteBody. intros env n s st res Hs Hrun. db_go; bool_simpl; try apply keepsRefs_refl. audit_same.
  match goal with H : Cleanup.anyIn _ _ = false |- _ => rename H into Hno end.
  match goal with H : files _ !! file = Some ?x |- _ => rename x into f0; rename H into Hf0 end.
  same_unfold. destruct_and!.
  match goal with H : versions (snd _) = _ |- _ => rename H into Hv' | H : versions _ = _ <$> _ |- _ => rename H into Hv' end.
  match goal with H : files _ = <[_ := _]> _ |- _ => rename H into Hf' end.
  match goal with |- keepsRefs ?a ?b => set (db := a) in *; set (db' := b) in * end.
  split.
  - done.
  - intros id Hid. rewrite Hv', lookup_fmap. by rewrite fmap_is_Some.
  - intros Hall id v. rewrite Hv', lookup_fmap, fmap_Some. intros (w & Hw & ->).
    assert (v_file (if Cleanup.teachingVersion file w then Cleanup.deletedVersion (pg until) w else w) = v_file w) as ->
      by (by destruct (Cleanup.teachingVersion file w)).
    destruct (Hall id w Hw) as [g Hg]. rewrite Hf', lookup_insert_is_Some. destruct (decide (file = v_file w)); [by left|right]. by split.
  - intros id v Hin Hid (w & Hw & Hrd & g & Hg & Hdel). rewrite Hid in Hw. injection Hw as <-.
    assert (Hne : Cleanup.teachingVersion file v = false).
    { apply not_true_iff_false. intros Ht. by eapply anyIn_false; [exact Hno|by eapply versionIDs_elem|]. }
    exists v. rewrite Hv', lookup_fmap, Hid. simpl. rewrite Hne. split_and!; [done|apply sameContent_refl| |intros; congruence].
    exists g. rewrite Hf', lookup_insert_ne; [done|]. intros ->. unfold Cleanup.teachingVersion in Hne.
    rewrite N.eqb_refl, bool_decide_eq_true_2 in Hne; [done|]. by destruct Hrd.
Qed.

Lemma claimPurge_settles locked now owner until : settles (Cleanup.claimPurgeBody locked now owner until).
Proof.
  unfold Cleanup.claimPurgeBody. intros env n s st res Hs Hrun. db_go; bool_simpl; try apply keepsRefs_refl. audit_same.
  match goal with H : Cleanup.purgeCandidate _ _ _ = Some (?c, ?v) |- _ =>
    rename c into cid; rename v into cv; apply firstBy_Some in H as [Hin _]; apply list_elem_of_In, filter_In in Hin as [Hin _];
    apply list_elem_of_In, elem_of_map_to_list in Hin end.
  cbn [snd]. match goal with |- keepsRefs _ (Cleanup.announce ?f ?v ?d) =>
    assert (sameFiles d (Cleanup.announce f v d)) as Ha by (unfold Cleanup.announce; by destruct (existsb _ _)) end.
  same_unfold. destruct_and!. apply keepsRefs_versions; [congruence|congruence|..].
  - intros id v Hid. repeat match goal with H : versions _ = _ |- _ => rewrite H; clear H end.
    destruct (decide (cid = id)) as [<-|Hne].
    + rewrite lookup_insert_eq. eexists. split_and!; [done|by simplify_eq|]. intros _. simplify_eq. by split.
    + rewrite lookup_insert_ne by done. exists v. split_and!; [done..|intros _; apply sameContent_refl].
  - intros id. repeat match goal with H : versions _ = _ |- _ => rewrite H; clear H end.
    rewrite lookup_insert_is_Some. intros [<-|[_ ?]]; [by eexists|done].
  - intros id v kind _ _. congruence.
Qed.

Lemma completePurge_settles c owner now : settles (Cleanup.completePurgeBody c owner now).
Proof.
  unfold Cleanup.completePurgeBody. intros env n s st res Hs Hrun. db_go; bool_simpl. audit_same.
  match goal with H : Cleanup.fileReferenced _ _ = false |- _ => unfold Cleanup.fileReferenced in H;
    apply orb_false_iff in H as [H _]; apply orb_false_iff in H as [Hno _] end.
  match goal with H : (_ =? _)%N = true |- _ => apply N.eqb_eq in H; rename H into Hcf end.
  match goal with H : versions _ !! Cleanup.CandVersion c = Some ?v |- _ => rename v into cv; rename H into Hcv end.
  match goal with |- keepsRefs ?d _ => rename d into db0 end.
  assert (Hother : forall id v, versions db0 !! id = Some v -> id ∈ lessonRefs db0 -> v_file v <> Cleanup.CandFile c).
  { intros id v Hid Hin E. eapply anyIn_false; [exact Hno| |exact Hin]. eapply versionIDs_elem; [exact Hid|]. by apply N.eqb_eq. }
  same_unfold. destruct_and!.
  match goal with H : versions (snd _) = _ |- _ => rename H into Hv' | H : versions _ = <[_ := _]> _ |- _ => rename H into Hv' end.
  match goal with H : files _ = alter _ _ _ |- _ => rename H into Hf' end.
  match goal with H : previews _ = filter _ _ |- _ => rename H into Hp' end.
  split.
  - done.
  - intros id Hid. rewrite Hv', lookup_insert_is_Some. destruct (decide (Cleanup.CandVersion c = id)); [by left|by right].
  - intros Hall id v. rewrite Hv', Hf', lookup_alter_is_Some, lookup_insert_Some.
    intros [[_ <-]|[_ Hid]]; [exact (Hall _ _ Hcv)|exact (Hall _ _ Hid)].
  - intros id v Hin Hid (w & Hw & Hrd & g & Hg & Hdel). rewrite Hid in Hw. injection Hw as <-.
    pose proof (Hother id v Hid Hin) as Hne.
    assert (Hidne : Cleanup.CandVersion c <> id) by (intros <-; congruence).
    exists v. rewrite Hv', lookup_insert_ne by done. split_and!; [done|apply sameContent_refl| |].
    + exists g. by rewrite Hf', lookup_alter_ne by congruence.
    + intros kind. rewrite Hp'. destruct (previews db0 !! (id, kind)) as [q|] eqn:Eq.
      * apply map_lookup_filter_Some. split; [done|]. cbn. congruence.
      * apply map_lookup_filter_None. by left.
Qed.

(** A change of the version of an active job. *)
Lemma keepsRefs_alter db db' j id f :
  filesWf db -> jobs db !! id = Some j -> activeJob j = true -> (forall v, v_file (f v) = v_file v) ->
  lessonRefs db' = lessonRefs db -> files db' = files db -> versions db' = alter f (j_version j) (versions db) ->
  (forall i kind, i <> j_version j -> previews db' !! (i, kind) = previews db !! (i, kind)) -> keepsRefs db db'.
Proof.
  intros Hw Hj Ha Hf Hr Hfs Hv Hp.
  assert (Hne : forall i v, versions db !! i = Some v -> ready v -> i <> j_version j).
  { intros i v Hi Hrd ->. by eapply active_not_ready. }
  apply keepsRefs_versions; [done|done|..].
  - intros i v Hi. rewrite Hv. destruct (decide (j_version j = i)) as [<-|Hn].
    + rewrite lookup_alter_eq, Hi. eexists. split_and!; [done|apply Hf|]. intros Hrd. by destruct (Hne _ _ Hi Hrd).
    + rewrite lookup_alter_ne by done. exists v. split_and!; [done..|intros _; apply sameContent_refl].
  - intros i. by rewrite Hv, lookup_alter_is_Some.
  - intros i v kind Hi Hrd. apply Hp. by eapply Hne.
Qed.

Lemma fail_settles job f : settles (failBody job f).
Proof.
  unfold failBody. intros env n s st res Hs Hrun. db_go. bool_simpl.
  match goal with H : heldBy _ _ _ = true |- _ => apply heldBy_active in H; rename H into Ha end.
  match goal with H : (_ =? _)%N = true |- _ => apply N.eqb_eq in H; rewrite <- H end.
  eapply keepsRefs_alter; [exact Hs|eassumption|exact Ha| |done..]. intros v. by destruct (_ || _).
Qed.

(** What a completion writes beside the version: previews of that version. *)
Definition ownPreviews (version : UUID) (db0 db : FilesDB) : Prop :=
  lessonRefs db = lessonRefs db0 /\ files db = files db0 /\ versions db = versions db0 /\
  forall i kind, i <> version -> previews db !! (i, kind) = previews db0 !! (i, kind).

Lemma storePreview_own db0 version p : keeps (ownPreviews version db0) (storePreviewRow version p).
Proof.
  unfold storePreviewRow, upsertPreview. intros env n s st res (Hr & Hf & Hv & Hp) Hrun. db_go.
  match goal with H : (if _ then _ else _) = Some _ |- _ => destruct (_ || _); [done|injection H as <-] end.
  split_and!; [done..|]. intros i kind Hne. cbn. rewrite lookup_insert_ne by congruence. by apply Hp.
Qed.

Lemma publish_own db0 version job p : keeps (ownPreviews version db0) (publishArtifact job p).
Proof. unfold publishArtifact. intros env n s st res Hs Hrun. db_go. exact Hs. Qed.

Ltac own_previews :=
  match goal with
  | O : ownPreviews ?v ?d0 ?a, H : optionally ?o ?m ?env (?n, ?a) = (?st, Ok ?u) |- _ =>
      pose proof (optionally_keeps (ownPreviews v d0) o m
        ltac:(intros; repeat apply fail_if_keeps; first [apply storePreview_own|apply publish_own])
        env n a st u O H); clear H; cbn [snd] in *
  end.

Lemma complete_settles job r : settles (completeBody job r).
Proof.
  unfold completeBody. intros env n s st res Hs Hrun. db_go; bool_simpl;
    (match goal with H : (_ =? _)%N = true |- _ => apply N.eqb_eq in H; rewrite <- H in * end);
    (match goal with H : heldBy _ _ _ = true |- _ => apply heldBy_active in H; rename H into Ha end);
    (match goal with Hj : jobs ?d !! ID job = Some ?j |- _ => rename j into cj; rename Hj into Hcj;
       assert (ownPreviews (j_version cj) (setVersion (j_version cj) (readyVersion r v) d)
                 (setVersion (j_version cj) (readyVersion r v) d)) by (by split_and!) end);
    repeat own_previews;
    (match goal with H : ownPreviews _ _ ?f |- keepsRefs _ _ => destruct H as (Hr & Hf & Hv & Hp) end);
    (eapply (keepsRefs_alter _ _ cj (ID job) (readyVersion r)); [exact Hs|eassumption|exact Ha|done|exact Hr|exact Hf| |exact Hp]);
    cbn [snd setJob setJobs versions]; rewrite Hv; cbn [setVersion setVersions versions]; by apply ProcessingProofs.insert_alter.
Qed.

Lemma lease_settles locked owner now until : settles (leaseBody locked owner now until).
Proof.
  unfold leaseBody. intros env n s st res Hs Hrun. db_go. cbn [snd].
  match goal with H : candidate _ _ (failExhausted _ _ ?d) = Some (?c, ?k) |- _ =>
    rename d into db0; rename c into cid; rename k into cj;
    apply queue_candidate_Some in H as [Ht _]; rewrite takes_after in Ht; destruct Ht as (Hcj & Hcl & _) end.
  assert (Hex : forall id w, versions db0 !! id = Some w -> ready w ->
    versions (failExhausted now locked db0) !! id = Some w /\ id <> j_version cj).
  { intros id w Hid Hrd. split.
    - unfold failExhausted. cbn [versions setVersions setJobs]. rewrite map_lookup_imap, Hid. simpl. case_bool_decide as Hin; [|done].
      apply elem_of_list_to_set, list_elem_of_fmap in Hin as ([jid k] & -> & Hk).
      apply list_elem_of_In, filter_In in Hk as [Hk Hx]. apply list_elem_of_In, elem_of_map_to_list in Hk.
      apply andb_true_iff in Hx as [Hx _]. by destruct (active_not_ready _ _ _ _ Hs Hk (exhausted_active _ _ Hx) Hid).
    - intros ->. by destruct (active_not_ready _ _ _ _ Hs Hcj (claimable_active _ _ Hcl) Hid). }
  match goal with H : versions (failExhausted now locked db0) !! j_version cj = Some ?x |- _ => rename x into cv; rename H into Hcv end.
  destruct (failExhausted_version _ _ _ _ _ Hcv) as (w0 & Hw0 & E0).
  apply keepsRefs_versions; [done|done|..]; cbn [versions setVersion setVersions setJob setJobs previews].
  - intros id w Hid. destruct (decide (j_version cj = id)) as [<-|Hne].
    + rewrite lookup_insert_eq. eexists. split_and!; [done| |].
      * simplify_eq. by cbn in *; congruence.
      * intros Hrd. by destruct (Hex _ _ Hid Hrd).
    + rewrite lookup_insert_ne by done. unfold failExhausted. cbn [versions setVersions setJobs].
      rewrite map_lookup_imap, Hid. simpl. eexists. split_and!; [done|by case_bool_decide|].
      intros Hrd. destruct (Hex _ _ Hid Hrd) as [Hx _]. unfold failExhausted in Hx. cbn [versions setVersions setJobs] in Hx.
      rewrite map_lookup_imap, Hid in Hx. simpl in Hx. injection Hx as ->. apply sameContent_refl.
  - intros id. rewrite lookup_insert_is_Some. intros [<-|[_ [w Hx]]]; [by eexists|].
    destruct (failExhausted_version _ _ _ _ _ Hx) as (w' & Hw' & _). by eexists.
  - done.
Qed.

Lemma claimCleanup_settles adm locked cutoff limit : settles (claimCleanupBody adm locked cutoff limit).
Proof.
  unfold claimCleanupBody, admitted. intros env n s st res Hs Hrun.
  destruct adm as [lock|]; [|db_go; by apply keepsRefs_frame].
  destruct (AdmitClaim lock env (n, mode s)) as [[n' m'] [a|[]]]; db_go; try done; by apply keepsRefs_frame.
Qed.

Lemma admittedClaim_settles {A} lock (k : DB FilesDB Processing.Error A) : settles k -> settles (admittedClaim lock k).
Proof.
  unfold admittedClaim. intros Hk env n s st res Hs Hrun.
  destruct (AdmitClaim lock env (n, mode s)) as [[n' m'] [a|[]]]; try done. by eapply Hk.
Qed.

Create HintDb settles discriminated.
#[local] Hint Resolve createBody_settles admitPart_settles recordPart_settles beginCompletion_settles cancel_settles
  confirmCleanup_settles finishCleanup_settles reserve_settles transition_settles forget_settles
  finishCompletion_settles heartbeat_settles fail_settles lease_settles complete_settles retry_settles
  delete_settles claimPurge_settles completePurge_settles claimArtifact_settles completeArtifact_settles
  claimCleanup_settles admittedClaim_settles : settles.

Lemma storeStep_settles db db' : filesWf db -> storeStep db db' -> keepsRefs db db'.
Proof.
  intros Hw Hstep. destruct Hstep.
  all: unfold CreateSession, AdmitPart, RecordPart, BeginCompletion, FinishCompletion, CancelSession, ClaimCleanup,
    ConfirmCleanup, FinishCleanup, LeaseNext, Heartbeat, Complete, Fail, ReserveArtifact, transitionArtifact, ForgetArtifact,
    Cleanup.RetryFile, Cleanup.DeleteFile, Cleanup.ClaimFileCleanup, Cleanup.CompleteFileCleanup,
    Cleanup.ClaimProcessingArtifactCleanup, Cleanup.CompleteProcessingArtifactCleanup, statement.
  all: repeat match goal with |- context [if ?b then dfail _ else _] => destruct b; [apply keepsRefs_refl|] end.
  all: try solve [apply exec_settles; auto with settles].
  unfold exec, ReopenCompletion, dbind, roundtrip. destruct (fault env 0); [apply keepsRefs_refl|by apply keepsRefs_frame].
Qed.

End Settled.
