(* ===== verification/UploadService.v ===== *)
(** * The upload service

    Models [internal/files/upload_service.go], [file_cleanup.go] and
    [cleanup_runner.go] over the stores of [FilesStore] and [FilesCleanup] and an
    object store that satisfies the interface of
    [internal/platform/objectstore/store.go].  A request body is the bytes it yields
    and whether it then fails; the gate of a session shows as whether one of its two
    slots is free. *)

From S2P Require Import Prelude GoTime GoText GoStrings GoSha256 Pg OpsModel Keyset AuditLog FilesModel FilesStore FilesCleanup.
From stdpp Require Import base tactics list gmap strings sorting.
From Stdlib Require Import ZArith Lia.
Import Files.

Open Scope Z_scope.

(** ** The object store *)
Module Objects.

Inductive Error := ErrNotFound | ErrConflict | ErrUnavailable | ErrOther (text : string).

Record ObjectMeta := MkMeta { ContentType : string; MetaSHA256 : string }.
Record ObjectInfo := MkInfo { InfoSize : Z }.

(** What a reader yields, and whether it ends in an error other than [io.EOF]. *)
Record Reader := MkReader { content : list Z; broken : bool }.

Global Instance Error_eq_dec : EqDecision Error.
Proof. solve_decision. Defined.

(** The interface [Store], over a state [O] of buckets.  [PutPart] also says how many
    bytes it took from its reader. *)
Class Store (O : Type) := {
  CreateMultipart : string -> ObjectMeta -> O -> O * result Error string;
  PutPart : string -> string -> Z -> Reader -> Z -> string -> O -> O * nat * result Error ObjectPart;
  CompleteMultipart : string -> string -> list ObjectPart -> O -> O * result Error ObjectInfo;
  AbortMultipart : string -> string -> O -> O * result Error unit;
  Stat : string -> O -> O * result Error ObjectInfo;
  Get : string -> O -> O * result Error (Reader * ObjectInfo);
  Put : string -> list Z -> Z -> ObjectMeta -> O -> O * result Error ObjectInfo;
  Delete : string -> O -> O * result Error unit
}.

(** [io.LimitReader]: past the limit the end is a plain end. *)
Definition limitReader (n : Z) (r : Reader) : Reader :=
  MkReader (take (Z.to_nat n) (content r)) (broken r && (Z.of_nat (length (content r)) <? n)).

End Objects.

(** ** Data *)
Record PutPartInput := MkPutPart {
  InSession : UUID; InNumber : Z; InSize : Z; InSHA256 : string; InBody : option Objects.Reader
}.

(** A store operation inside a service call. *)
Definition onDB {O A} (m : DB FilesDB Error A) : DB (FilesDB * O) Error A :=
  fun env '(n, (db, o)) => let '((n', db'), r) := m env (n, db) in ((n', (db', o)), r).

Section Service.
Context `{PgTime} `{UUIDText} {O : Type} `{Objects.Store O}.

Notation State_ := (FilesDB * O)%type.

(** An object operation inside a service call. *)
Definition onObjects {A} (m : O -> O * A) : DB State_ Error A :=
  fun _ '(n, (db, o)) => let '(o', a) := m o in ((n, (db, o')), Ok a).

(** The whole of a result, as the outcome of the call. *)
Definition outcome {A} (r : result Error A) : DB State_ Error A :=
  match r with Ok a => dret a | Err e => dfail e end.

Section Calls.
Variables (purpose : UploadPurpose).

(** The checks every call starts with. *)
Definition authorized {A} (actor : Principal) (k : DB State_ Error A) : DB State_ Error A :=
  (do _ <- outcome (validatePrincipal actor);
   do _ <- outcome (policyAuthorize purpose actor);
   k)%db.

(** [random] is what [crypto/rand] yields, [None] when it fails. *)
Definition randomObjectKey (random : option (list Z)) : option string :=
  (fun b => ("originals/" +:+ EncodeToString (take 24 b))%string) <$> random.

Definition CreateUpload (random : option (list Z)) (actor : Principal) (i : CreateUploadInput) :
  DB State_ Error UploadView :=
  authorized actor
    (do _ <- outcome (policyValidate purpose i);
     match randomObjectKey random with
     | None => dfail (ErrText "generate upload object key")
     | Some key =>
       do opened <- onObjects (Objects.CreateMultipart key (Objects.MkMeta (InDeclaredMIME i) (InExpectedSHA256 i)));
       match opened with
       | Err _ => dfail (ErrText "create upload storage")
       | Ok uploadID =>
         do now <- wallNow;
         do id <- newUUID;
         let session := MkUploadSession id (User_ID actor) purpose key uploadID (InDisplayName i) (InDeclaredMIME i)
           (InExpectedSize i) (InExpectedSHA256 i) UploadOpen (addDuration now uploadTTL) now in
         do stored <- attempt (onDB (CreateSession session));
         match stored with
         | Err _ =>
           do _ <- onObjects (Objects.AbortMultipart key uploadID);
           dfail (ErrText "persist upload session")
         | Ok _ => dret (uploadView session [])
         end
       end
     end)%db.

Definition Status (actor : Principal) (id : UUID) : DB State_ Error UploadView :=
  authorized actor
    (fail if (id =? NilUUID)%N with ErrInvalid;
     do found <- onDB (GetSession id (User_ID actor) purpose);
     let '(session, ps) := found in
     if bool_decide (State session = UploadOpen) then
       do now <- wallNow;
       fail if After now (ExpiresAt session) with ErrUploadExpired;
       dret (uploadView session ps)
     else dret (uploadView session ps))%db.

Definition badPart (i : PutPartInput) : bool :=
  (InSession i =? NilUUID)%N || (InNumber i <? 1) || (10000 <? InNumber i) || (InSize i <? 1)
  || negb (validHash (InSHA256 i)) || bool_decide (InBody i = None).

(** The body is read through a limit of one byte more than the size: a byte beyond
    it, or an error in place of the end, is refused after the part was sent. *)
Definition trailing (body : Objects.Reader) (size : Z) : bool :=
  let source := Objects.limitReader (size + 1) body in
  (size <? Z.of_nat (length (Objects.content source))) || Objects.broken source.

Definition PutPart (slot : bool) (actor : Principal) (i : PutPartInput) : DB State_ Error PartView :=
  authorized actor
    (match InBody i with
     | None => dfail ErrInvalid
     | Some body =>
       fail if badPart i with ErrInvalid;
       fail if negb slot with ErrTooManyPartRequests;
       do now <- wallNow;
       do found <- onDB (AdmitPart (InSession i) (User_ID actor) purpose (InNumber i) (InSize i) (InSHA256 i) now);
       let '(session, existing) := found in
       match existing with
       | Some part => dret (partView part)
       | None =>
         match expectedPartSize (ExpectedSize session) (InNumber i) with
         | None => dfail ErrInvalid
         | Some wantSize =>
           fail if negb (InSize i =? wantSize) with ErrInvalid;
           let exact := Objects.limitReader (InSize i) body in
           do sent <- onObjects (fun o =>
             let '(o', n, r) := Objects.PutPart (ObjectKey session) (MinIOUploadID session) (InNumber i) exact (InSize i)
                                  (InSHA256 i) o in (o', (n, r)));
           let '(n, remote) := sent in
           match remote with
           | Err _ => dfail (ErrText "store upload part")
           | Ok remotePart =>
             let read := take n (Objects.content exact) in
             fail if negb (Z.of_nat (length read) =? InSize i) with ErrInvalid;
             fail if trailing body (InSize i) with ErrInvalid;
             let actualHash := hexSum256 read in
             fail if negb (bool_decide (actualHash = InSHA256 i)) with ErrPartHashMismatch;
             do at_ <- wallNow;
             do part <- onDB (RecordPart (SessionID_ session)
               (MkUploadPart (InSession i) (InNumber i) (InSize i) actualHash (ObjectETag remotePart) at_));
             dret (partView part)
           end
         end
       end
     end)%db.

(** A completed object that is not the declared one is withdrawn. *)
Definition rejectCompletedObject {A} (actor : Principal) (session : UploadSession) : DB State_ Error A :=
  (do cancelled <- attempt (onDB (CancelSession (SessionID_ session) (User_ID actor) purpose UploadCancelled));
   match cancelled with
   | Err _ => dfail (ErrText "cancel invalid completed upload")
   | Ok _ =>
     do removed <- onObjects (Objects.Delete (ObjectKey session));
     match removed with
     | Err Objects.ErrNotFound | Ok _ => dfail ErrFinalHashMismatch
     | Err _ => dfail (ErrText "remove invalid completed upload")
     end
   end)%db.

(** The reader stops one byte after the expected size. *)
Definition verified (session : UploadSession) (r : Objects.Reader) (info : Objects.ObjectInfo) : bool :=
  let read := Objects.content (Objects.limitReader (ExpectedSize session + 1) r) in
  (Z.of_nat (length read) =? ExpectedSize session) && (Objects.InfoSize info =? ExpectedSize session)
  && bool_decide (hexSum256 read = ExpectedSHA256 session).

Definition completeObject (session : UploadSession) (objectParts : list ObjectPart) :
  DB State_ Error (result Objects.Error Objects.ObjectInfo) :=
  (do info <- onObjects (Objects.CompleteMultipart (ObjectKey session) (MinIOUploadID session) objectParts);
   match info with
   | Err Objects.ErrNotFound => onObjects (Objects.Stat (ObjectKey session))
   | _ => dret info
   end)%db.

(** Completion from the validated parts on; [closed] is what [reader.Close] reports. *)
Definition completeStorage (closed : bool) (actor : Principal) (session : UploadSession) (objectParts : list ObjectPart) :
  DB State_ Error CompletedUpload :=
  (do info <- completeObject session objectParts;
   match info with
   | Err _ =>
     do _ <- attempt (onDB (ReopenCompletion (SessionID_ session)));
     dfail (ErrText "complete upload storage")
   | Ok info =>
     if negb (Objects.InfoSize info =? ExpectedSize session) then rejectCompletedObject actor session
     else
       do got <- onObjects (Objects.Get (ObjectKey session));
       match got with
       | Err _ => dfail (ErrText "verify completed upload")
       | Ok (reader, objectInfo) =>
         fail if Objects.broken (Objects.limitReader (ExpectedSize session + 1) reader) || negb closed
           with ErrText "verify completed upload";
         if negb (verified session reader objectInfo) then rejectCompletedObject actor session
         else
           do finished <- attempt (onDB (FinishCompletion session actor));
           match finished with
           | Err _ => dfail (ErrText "persist completed upload")
           | Ok c => dret c
           end
       end
   end)%db.

Definition CompleteUpload (closed : bool) (actor : Principal) (id : UUID) : DB State_ Error CompletedUpload :=
  authorized actor
    (fail if (id =? NilUUID)%N with ErrInvalid;
     do now <- wallNow;
     do begun <- onDB (BeginCompletion id (User_ID actor) purpose now);
     let '(session, ps, completed) := begun in
     match completed with
     | Some c => dret c
     | None =>
       match validateCompletionParts session ps with
       | Err e =>
         do _ <- attempt (onDB (ReopenCompletion (SessionID_ session)));
         dfail e
       | Ok objectParts => completeStorage closed actor session objectParts
       end
     end)%db.

Definition CancelUpload (actor : Principal) (id : UUID) : DB State_ Error unit :=
  authorized actor
    (fail if (id =? NilUUID)%N with ErrInvalid;
     do session <- onDB (CancelSession id (User_ID actor) purpose UploadCancelled);
     do aborted <- onObjects (Objects.AbortMultipart (ObjectKey session) (MinIOUploadID session));
     match aborted with
     | Ok _ | Err Objects.ErrNotFound => dret tt
     | Err _ => dfail (ErrText "cancel upload storage")
     end)%db.

End Calls.

(** ** Expired uploads *)
Definition gone (r : result Objects.Error unit) : bool :=
  match r with Ok _ | Err Objects.ErrNotFound => true | Err _ => false end.

(** The cleanup of one session; it reports whether it failed. *)
Definition cleanupCandidate (session : UploadSession) : DB State_ Error bool :=
  (do confirmed <- attempt (onDB (ConfirmCleanup (SessionID_ session)));
   match confirmed with
   | Err _ => dret true
   | Ok u =>
     do aborted <- onObjects (Objects.AbortMultipart (ObjectKey u) (MinIOUploadID u));
     if negb (gone aborted) then dret true
     else
       do deleted <- onObjects (Objects.Delete (ObjectKey u));
       if negb (gone deleted) then dret true
       else
         do finished <- attempt (onDB (FinishCleanup (SessionID_ u)));
         dret (negb (is_ok finished))
   end)%db.

Fixpoint cleanupAll (sessions : list UploadSession) (failed : bool) : DB State_ Error bool :=
  (match sessions with
   | [] => dret failed
   | session :: rest =>
     do f <- cleanupCandidate session;
     cleanupAll rest (failed || f)
   end)%db.

Definition CleanupExpired (admission : option LockOutcome) (locked : UUID -> bool) (limit : Z) : DB State_ Error unit :=
  (fail if (limit <? 1) || (1000 <? limit) with ErrInvalid;
   do now <- wallNow;
   do claimed <- attempt (onDB (ClaimCleanup admission locked (addDuration now (- cleanupGrace)) limit));
   match claimed with
   | Err _ => dfail (ErrText "claim expired uploads")
   | Ok sessions =>
     do failed <- cleanupAll sessions false;
     fail if failed with ErrText "cleanup expired uploads";
     dret tt
   end)%db.

(** ** The cleanup runner *)

(** How [AcquireShared] answers: a release function, and whether it failed. *)
Inductive SharedGate := GateMissing | GateAnswer (release failed : bool).

Definition cleanupBatchLimit : Z := 100.

(** One tick: the log category, if any, and whether the release was called. *)
Definition runOnce (gate : SharedGate) (locked : UUID -> bool) :
  DB State_ Error (option string * bool) :=
  (match gate with
   | GateMissing => dret (Some "operational_gate_failed"%string, false)
   | GateAnswer release failed =>
     if failed || negb release then dret (Some "operational_gate_failed"%string, release)
     else
       do _ <- attempt (CleanupExpired None locked cleanupBatchLimit);
       dret (None, true)
   end)%db.

End Service.

(** ** Purging files

    The originals and the previews are two object stores. *)
Section FileCleanup.
Context `{PgTime} `{UUIDText} {O P : Type} `{Objects.Store O} `{Objects.Store P}.

Notation Stores := (FilesDB * (O * P))%type.

Definition fileCleanupLease : Z := 15 * minute.

Definition deleteOriginal (key : string) : DB Stores Error (result Objects.Error unit) :=
  fun _ '(n, (db, (o, p))) => let '(o', r) := Objects.Delete key o in ((n, (db, (o', p))), Ok r).
Definition deletePreview (key : string) : DB Stores Error (result Objects.Error unit) :=
  fun _ '(n, (db, (o, p))) => let '(p', r) := Objects.Delete key p in ((n, (db, (o, p'))), Ok r).

Definition deleteCleanupObject (m : DB Stores Error (result Objects.Error unit)) : DB Stores Error unit :=
  (do r <- m;
   match r with
   | Ok _ | Err Objects.ErrNotFound => dret tt
   | Err _ => dfail ErrObject
   end)%db.

(** At most [n] artifacts; what is left of [n].  [locked] are the rows other
    transactions hold when so many are left. *)
Fixpoint purgeArtifacts (locked : nat -> UUID -> bool) (owner : string) (n : nat) : DB Stores Error nat :=
  (match n with
   | 0%nat => dret 0%nat
   | S k =>
     do now <- wallNow;
     do claimed <- onDB (Cleanup.ClaimProcessingArtifactCleanup (locked n) now owner fileCleanupLease);
     match claimed with
     | None => dret n
     | Some c =>
       fail if (Cleanup.CandID c =? NilUUID)%N || bool_decide (Cleanup.CandKey c = EmptyString) with ErrInvalid;
       do _ <- deleteCleanupObject (deletePreview (Cleanup.CandKey c));
       do done_ <- wallNow;
       do _ <- onDB (Cleanup.CompleteProcessingArtifactCleanup c owner done_);
       purgeArtifacts locked owner k
     end
   end)%db.

Fixpoint deletePreviews (keys : list string) : DB Stores Error unit :=
  (match keys with
   | [] => dret tt
   | key :: rest =>
     fail if bool_decide (key = EmptyString) with ErrInvalid;
     do _ <- deleteCleanupObject (deletePreview key);
     deletePreviews rest
   end)%db.

Fixpoint purgeFiles (locked : nat -> UUID -> bool) (owner : string) (n : nat) : DB Stores Error unit :=
  (match n with
   | 0%nat => dret tt
   | S k =>
     do now <- wallNow;
     do claimed <- onDB (Cleanup.ClaimFileCleanup (locked n) now owner fileCleanupLease);
     match claimed with
     | None => dret tt
     | Some c =>
       fail if (Cleanup.CandFile c =? NilUUID)%N || (Cleanup.CandVersion c =? NilUUID)%N
               || bool_decide (Cleanup.OriginalKey c = EmptyString) with ErrInvalid;
       do _ <- deleteCleanupObject (deleteOriginal (Cleanup.OriginalKey c));
       do _ <- deletePreviews (Cleanup.PreviewKeys c);
       do done_ <- wallNow;
       do _ <- onDB (Cleanup.CompleteFileCleanup c owner done_);
       purgeFiles locked owner k
     end
   end)%db.

Definition CleanupFiles (locked : nat -> UUID -> bool) (limit : Z) : DB Stores Error unit :=
  (fail if (limit <? 1) || (1000 <? limit) with ErrInvalid;
   do id <- newUUID;
   let owner := ("cleanup:" +:+ uuidString id)%string in
   do remaining <- purgeArtifacts locked owner (Z.to_nat limit);
   purgeFiles locked owner remaining)%db.

End FileCleanup.
