(* ===== verification/UploadTheorems.v ===== *)
(** * The upload service: theorems

    What a successful part and a successful completion guarantee about the content,
    and what an incomplete completion does to its session. *)

From S2P Require Import Prelude GoTime GoText GoStrings GoSha256 Pg OpsModel Keyset AuditLog FilesModel FilesStore ProcessingStore FilesCleanup ProcessingProofs UploadParts UploadService.
From stdpp Require Import base tactics list gmap strings sorting.
From Stdlib Require Import ZArith Lia.
Import Files.

Open Scope Z_scope.

(** ** Running service calls *)
Lemma onDB_run {O A} (m : DB FilesDB Error A) env n (db : FilesDB) (o : O) st r :
  onDB m env (n, (db, o)) = (st, r) ->
  exists n' db', m env (n, db) = ((n', db'), r) /\ st = (n', (db', o)).
Proof. unfold onDB. destruct (m env (n, db)) as [[n' db'] r'] eqn:E. intros [= <- <-]. eauto. Qed.

Lemma outcome_Ok {O A} `{Objects.Store O} (r : result Error A) env (st st' : nat * (FilesDB * O)) a :
  outcome r env st = (st', Ok a) -> r = Ok a /\ st' = st.
Proof. destruct r; [|done]. by intros [= -> ->]. Qed.

(** [authorized] adds errors of its own and changes nothing. *)
Lemma authorized_run {O A} `{Objects.Store O} purpose actor (k : DB (FilesDB * O) Error A) env st st' r :
  authorized purpose actor k env st = (st', r) -> k env st = (st', r) \/ (st' = st /\ r = Err ErrForbidden).
Proof.
  unfold authorized, dbind, outcome, validatePrincipal, policyAuthorize. destruct (_ || _ || _ || _); [intros [= <- <-]; by right|].
  simpl. destruct (_ && _); simpl; [by left|intros [= <- <-]; by right].
Qed.

Section Theorems.
Context `{PgTime} `{UUIDText} {O : Type} `{Objects.Store O}.

(** ** Reopening *)
Lemma ReopenCompletion_stuck id env n db :
  exists n' e, ReopenCompletion id env (n, db) = ((n', db), Err e).
Proof. unfold ReopenCompletion, dbind, roundtrip. destruct (fault env n); simpl; eauto. Qed.

Lemma begin_row id actor p now env n db st u ps :
  BeginCompletion id actor p now env (n, db) = (st, Ok (u, ps, None)) ->
  exists w, sessionOf db id actor p = Some w /\ u = withState UploadCompleting w /\ State w <> UploadCompleted /\
    exists w', sessions (snd st) !! id = Some w' /\ State w' = UploadCompleting /\ ObjectKey w' = ObjectKey w /\
      ExpectedSize w' = ExpectedSize w /\ ExpectedSHA256 w' = ExpectedSHA256 w /\ DisplayName w' = DisplayName w.
Proof.
  unfold BeginCompletion. intros Hrun. apply transact_Ok in Hrun as (n' & Hrun).
  unfold beginCompletionBody, listParts in Hrun. db_go; simplify_eq; bool_simpl.
  all: exists u0; split_and!; [done..|]; cbn [snd sessions setSessions putSession].
  - rewrite lookup_insert_eq. eexists. by split_and!.
  - unfold sessionOf in Heqo. destruct (sessions a0 !! id) as [w|]; [|done]. exists w.
    destruct (_ && _); [|done]. injection Heqo as <-. cbn [State scanSession] in *. split_and!; try done.
    match goal with H : _ && _ = false |- _ => apply andb_false_iff in H as [H|H] end; bool_simpl; done.
Qed.

Lemma sessionOf_row db id actor p u :
  sessionOf db id actor p = Some u ->
  exists w, sessions db !! id = Some w /\ State u = State w /\ ExpectedSize u = ExpectedSize w.
Proof. unfold sessionOf. destruct (sessions db !! id) as [w|]; [|done]. destruct (_ && _); [|done]. intros [= <-]. by exists w. Qed.

Lemma BeginCompletion_completed id actor p now env n db st u ps c :
  BeginCompletion id actor p now env (n, db) = (st, Ok (u, ps, Some c)) ->
  sessionOf db id actor p = Some u /\ State u = UploadCompleted /\ snd st = db.
Proof.
  intros Hrun. apply transact_Ok in Hrun as (n' & Hrun). unfold beginCompletionBody, listParts in Hrun.
  by db_go; simplify_eq; bool_simpl.
Qed.

(** The parts a completion starts from. *)
Lemma begin_parts id actor p now env n db st u ps :
  BeginCompletion id actor p now env (n, db) = (st, Ok (u, ps, None)) ->
  exists w, sessions (snd st) !! id = Some w /\ ExpectedSize w = ExpectedSize u /\ ps = partsOf (snd st) id.
Proof.
  unfold BeginCompletion. intros Hrun. apply transact_Ok in Hrun as (n' & Hrun).
  unfold beginCompletionBody, listParts in Hrun. db_go; simplify_eq; bool_simpl.
  - eexists. cbn [snd sessions putSession setSessions]. rewrite lookup_insert_eq. by split_and!.
  - match goal with H : sessionOf _ _ _ _ = Some _ |- _ => apply sessionOf_row in H as (w & Hw & _ & He) end.
    exists w. by split_and!.
Qed.

Lemma AdmitPart_gone id actor p number size h now env n db :
  sessions db !! id = None ->
  exists n' e, AdmitPart id actor p number size h now env (n, db) = ((n', db), Err e).
Proof.
  intros Hw. destruct (AdmitPart id actor p number size h now env (n, db)) as [[n' db'] r] eqn:E.
  assert (snd (n', db') = db /\ is_ok r = false) as [Hdb Hr].
  { eapply transact_stuck; [|exact E]. unfold admitPartBody, dbind, roundtrip, dget, sessionOf.
    destruct (fault env (S n)); [done|]. by rewrite Hw. }
  cbn [snd] in Hdb. subst db'. destruct r as [?|e]; [done|]. eauto.
Qed.

(** A part of a session that is not open is refused, and nothing changes. *)
Lemma AdmitPart_closed id actor p number size h now env n db w :
  sessions db !! id = Some w -> State w <> UploadOpen ->
  exists n' e, AdmitPart id actor p number size h now env (n, db) = ((n', db), Err e).
Proof.
  intros Hw Hst. destruct (AdmitPart id actor p number size h now env (n, db)) as [[n' db'] r] eqn:E.
  assert (snd (n', db') = db /\ is_ok r = false) as [Hdb Hr].
  { eapply transact_stuck; [|exact E]. unfold admitPartBody, dbind, roundtrip, dget, sessionOf.
    destruct (fault env (S n)); [done|]. rewrite Hw. destruct (_ && _); [|done]. destruct (After _ _); [done|].
    rewrite bool_decide_false by done. done. }
  cbn [snd] in Hdb. subst db'. destruct r as [?|e]; [done|]. eauto.
Qed.

Lemma PutPart_closed purpose slot actor i env n db (o : O) w st r :
  sessions db !! InSession i = Some w -> State w <> UploadOpen ->
  PutPart purpose slot actor i env (n, (db, o)) = (st, r) -> snd st = (db, o) /\ is_ok r = false.
Proof.
  intros Hw Hst Hrun. apply authorized_run in Hrun as [Hrun|[-> ->]]; [|done].
  destruct (InBody i) as [body|]; [|by injection Hrun as <- <-].
  destruct (badPart i); [by injection Hrun as <- <-|]. destruct slot; [|by injection Hrun as <- <-].
  cbn [negb] in Hrun. unfold dbind at 1, wallNow at 1 in Hrun. unfold dbind at 1, onDB at 1 in Hrun.
  destruct (AdmitPart_closed (InSession i) (User_ID actor) purpose (InNumber i) (InSize i) (InSHA256 i) (wall env n) env
    (S n) db w Hw Hst) as (n' & e & E). rewrite E in Hrun. by injection Hrun as <- <-.
Qed.

Lemma rejectCompletedObject_errors {A} purpose actor session env (st st' : nat * (FilesDB * O)) (r : result Error A) :
  rejectCompletedObject purpose actor session env st = (st', r) -> r <> Err ErrUploadIncomplete /\ is_ok r = false.
Proof.
  unfold rejectCompletedObject, dbind, attempt. destruct (onDB _ env st) as [st1 [u|e]]; [|by intros [= _ <-]].
  unfold onObjects. destruct st1 as [n1 [db1 o1]]. destruct (Objects.Delete _ o1) as [o2 [?|[]]]; by intros [= _ <-].
Qed.

Lemma BeginCompletion_errors id actor p now env st st' e :
  BeginCompletion id actor p now env st = (st', Err e) -> e <> ErrUploadIncomplete.
Proof.
  destruct st as [n s]. intros Hrun. eapply (transact_error (fun e => e <> ErrUploadIncomplete)) in Hrun; [exact Hrun|done|done|].
  clear. intros st' e.
  unfold beginCompletionBody, listParts, dbind, roundtrip, dget, dret, dput, dfail.
  repeat case_match; intros; simplify_eq; done.
Qed.

Lemma completeStorage_errors purpose closed actor session ps env st (st' : nat * (FilesDB * O)) e :
  completeStorage purpose closed actor session ps env st = (st', Err e) -> e <> ErrUploadIncomplete.
Proof.
  unfold completeStorage. intros Hrun. unfold dbind at 1 in Hrun.
  destruct (completeObject session ps env st) as [st1 [info|e1]] eqn:Eo.
  2: { exfalso. revert Eo. unfold completeObject, dbind, onObjects, dret. destruct st as [n [db o]].
       destruct (Objects.CompleteMultipart _ _ _ o) as [o1 [?|[]]]; try done. by destruct (Objects.Stat _ o1). }
  destruct info as [info|e1].
  2: { unfold dbind, attempt in Hrun. destruct (onDB _ env st1) as [? ?]. by injection Hrun as _ <-. }
  destruct (negb _). { intros E. rewrite E in Hrun. by apply rejectCompletedObject_errors in Hrun as [? _]. }
  unfold dbind at 1, onObjects at 1 in Hrun. destruct st1 as [n1 [db1 o1]].
  destruct (Objects.Get _ o1) as [o2 [[reader objectInfo]|e2]]; [|by injection Hrun as _ <-].
  destruct (_ || _); [by injection Hrun as _ <-|].
  destruct (negb _). { intros E. rewrite E in Hrun. by apply rejectCompletedObject_errors in Hrun as [? _]. }
  unfold dbind, attempt in Hrun. destruct (onDB _ env _) as [st3 [c|e3]]; [done|by injection Hrun as _ <-].
Qed.

(** ** After an incomplete completion *)

(** One operation of the processing store or of the cleanup store. *)
Inductive queueStep (db : FilesDB) : FilesDB -> Prop :=
| QueueLease env lock locked owner now d : queueStep db (exec (Processing.LeaseNext lock locked owner now d) env db)
| QueueHeartbeat env id owner until : queueStep db (exec (Processing.Heartbeat id owner until) env db)
| QueueComplete env job r : queueStep db (exec (Processing.Complete job r) env db)
| QueueFail env job f : queueStep db (exec (Processing.Fail job f) env db)
| QueueReserve env a : queueStep db (exec (Processing.ReserveArtifact a) env db)
| QueueTransition env key target : queueStep db (exec (Processing.transitionArtifact key target) env db)
| QueueForget env key : queueStep db (exec (Processing.ForgetArtifact key) env db)
| QueueRetry env actor v : queueStep db (exec (Cleanup.RetryFile actor v) env db)
| QueueDelete env actor f until : queueStep db (exec (Cleanup.DeleteFile actor f until) env db)
| QueueClaimFile env locked now owner lease : queueStep db (exec (Cleanup.ClaimFileCleanup locked now owner lease) env db)
| QueueCompleteFile env c owner now : queueStep db (exec (Cleanup.CompleteFileCleanup c owner now) env db)
| QueueClaimArtifact env locked now owner lease :
    queueStep db (exec (Cleanup.ClaimProcessingArtifactCleanup locked now owner lease) env db)
| QueueCompleteArtifact env c owner now : queueStep db (exec (Cleanup.CompleteProcessingArtifactCleanup c owner now) env db).

(** What may happen after a call for the upload [id]: any operation of the upload
    store, with any arguments and in any environment, further calls that complete
    [id], any operation of the other stores on these tables, and anything at all
    elsewhere and in the object store.  [FinishCompletion] of [id] itself only runs
    inside a call of [CompleteUpload], and no new session takes the identifier. *)
Inductive later (id : UUID) : FilesDB * O -> FilesDB * O -> Prop :=
| LaterCreate env u db o o' : SessionID_ u <> id -> later id (db, o) (exec (CreateSession u) env db, o')
| LaterAdmit env id' actor p n size h now db o o' : later id (db, o) (exec (AdmitPart id' actor p n size h now) env db, o')
| LaterRecord env id' p db o o' : later id (db, o) (exec (RecordPart id' p) env db, o')
| LaterBegin env id' actor p now db o o' : later id (db, o) (exec (BeginCompletion id' actor p now) env db, o')
| LaterReopen env id' db o o' : later id (db, o) (exec (ReopenCompletion id') env db, o')
| LaterFinish env u actor db o o' : SessionID_ u <> id -> later id (db, o) (exec (FinishCompletion u actor) env db, o')
| LaterComplete purpose closed actor env n db o st r :
    CompleteUpload purpose closed actor id env (n, (db, o)) = (st, r) -> later id (db, o) (snd st)
| LaterCancel env id' actor p state db o o' : later id (db, o) (exec (CancelSession id' actor p state) env db, o')
| LaterClaim env adm locked cutoff limit db o o' : later id (db, o) (exec (ClaimCleanup adm locked cutoff limit) env db, o')
| LaterConfirm env id' db o o' : later id (db, o) (exec (ConfirmCleanup id') env db, o')
| LaterFinishCleanup env id' db o o' : later id (db, o) (exec (FinishCleanup id') env db, o')
| LaterQueue db db' o o' : queueStep db db' -> later id (db, o) (db', o')
| LaterElsewhere db db' o o' : sessions db' = sessions db -> parts db' = parts db -> later id (db, o) (db', o').

(** The session is neither open nor completed, and its parts are those of [ps]. *)
Definition stalled (s : UploadState) : Prop := s = UploadCompleting \/ s = UploadCancelled \/ s = UploadExpired.

Definition stuck (id : UUID) (size : Z) (ps : gmap (N * Z) UploadPart) (db : FilesDB) : Prop :=
  forall u, sessions db !! id = Some u ->
    stalled (State u) /\ ExpectedSize u = size /\ forall k, parts db !! (id, k) = ps !! (id, k).

Lemma stuck_same id size ps db db' :
  sessions db' = sessions db -> parts db' = parts db -> stuck id size ps db -> stuck id size ps db'.
Proof. unfold stuck. intros -> ->. done. Qed.

Lemma stuck_putOther id size ps id' u db : id' <> id -> stuck id size ps db -> stuck id size ps (putSession id' u db).
Proof. unfold stuck. cbn [sessions parts putSession setSessions]. intros Hne Hs w. rewrite lookup_insert_ne by done. apply Hs. Qed.

(** A row whose new state is stalled too. *)
Lemma stuck_put id size ps id' u u' db :
  sessions db !! id' = Some u -> ExpectedSize u' = ExpectedSize u -> stalled (State u') ->
  stuck id size ps db -> stuck id size ps (putSession id' u' db).
Proof.
  intros Hu He Hst Hs. destruct (decide (id' = id)) as [->|Hne]; [|by apply stuck_putOther].
  unfold stuck. cbn [sessions parts putSession setSessions]. intros w. rewrite lookup_insert_eq. intros [= <-].
  destruct (Hs u Hu) as (_ & Hsz & Hp). split_and!; [done|by rewrite He|done].
Qed.

Lemma stalled_not s : stalled s -> s <> UploadOpen /\ s <> UploadCompleted.
Proof. by intros [->|[->| ->]]. Qed.

Section Stuck.
Context (id : UUID) (size : Z) (ps : gmap (N * Z) UploadPart).
Notation I := (stuck id size ps).

Ltac stuck_op := intros env n s st res Hs Hrun; db_run; try done; try (by eapply stuck_same, Hs).

Lemma create_stuck u : SessionID_ u <> id -> keeps I (createBody u).
Proof. intros Hne. unfold createBody. stuck_op. by apply (stuck_putOther id size ps (SessionID_ u)). Qed.

Lemma admit_stuck id' actor p num sz h now : keeps I (admitPartBody id' actor p num sz h now).
Proof. unfold admitPartBody. stuck_op. Qed.

Lemma record_stuck id' p : keeps I (recordPartBody id' p).
Proof.
  unfold recordPartBody. intros env n s st res Hs Hrun. db_go; bool_simpl.
  assert (Hx : id' = id -> False).
  { intros ->. match goal with H : sessions _ !! id = Some _ |- _ => apply Hs in H as (Hst & _) end.
    apply stalled_not in Hst as [? _]. congruence. }
  cbn [snd]. case_match; [done|].
  unfold stuck. cbn [sessions parts setParts]. intros w Hw. destruct (Hs w Hw) as (? & ? & Hk). split_and!; try done.
  intros k. rewrite lookup_insert_ne; [done|]. intros [= E _]. by apply Hx.
Qed.

Lemma begin_stuck id' actor p now : keeps I (beginCompletionBody id' actor p now).
Proof.
  unfold beginCompletionBody, listParts. intros env n s st res Hs Hrun. db_go; try done.
  match goal with H : sessionOf _ id' _ _ = Some _ |- _ => apply sessionOf_row in H as (w & Hw & _ & He) end.
  eapply stuck_put; [exact Hw|exact He|by left|exact Hs].
Qed.

Lemma cancel_stuck id' actor p : keeps I (cancelBody id' actor p).
Proof.
  unfold cancelBody. intros env n s st res Hs Hrun. db_go; try done.
  match goal with H : sessionOf _ id' _ _ = Some _ |- _ => apply sessionOf_row in H as (w & Hw & _ & He) end.
  eapply stuck_put; [exact Hw|exact He|by right; left|exact Hs].
Qed.

Lemma confirm_stuck id' : keeps I (confirmCleanupBody id').
Proof.
  unfold confirmCleanupBody. intros env n s st res Hs Hrun. db_go; try done.
  eapply stuck_put; [eassumption|done|by right; right|exact Hs].
Qed.

Lemma finishCleanup_stuck id' : keeps I (finishCleanupBody id').
Proof.
  unfold finishCleanupBody. intros env n s st res Hs Hrun. db_go; try done.
  unfold stuck. cbn [snd sessions parts setSessions setParts]. intros w [Hne Hw]%lookup_delete_Some.
  destruct (Hs w Hw) as (? & ? & Hk). split_and!; try done. intros k. rewrite <- Hk.
  rewrite map_lookup_filter. destruct (parts _ !! (id, k)); [|done]. simpl. by rewrite option_guard_True by done.
Qed.

Lemma claim_stuck adm locked cutoff limit : keeps I (claimCleanupBody adm locked cutoff limit).
Proof.
  unfold claimCleanupBody, admitted. intros env n s st res Hs Hrun.
  destruct adm as [lock|]; [|by db_go].
  destruct (AdmitClaim lock env (n, mode s)) as [[n' m'] [a|[]]]; db_go; done.
Qed.

Lemma finish_stuck u actor : SessionID_ u <> id -> keeps I (finishCompletionBody u actor).
Proof.
  intros Hne. unfold finishCompletionBody. intros env n s st res Hs Hrun. db_go; try done; bool_simpl.
  match goal with H : insertJob _ _ _ _ = Some _ |- _ => unfold insertJob in H; destruct (_ || _) in H; [done|]; injection H as <- end.
  match goal with H : Audit.Write _ _ _ _ = _ |- _ => apply Write_audit in H as [t Ht]; cbn [snd] in Ht end.
  cbn [snd]. subst. by apply (stuck_putOther id size ps (SessionID_ u)).
Qed.

End Stuck.
(** The operations of the other stores leave the upload tables alone. *)
Definition sameUploads (db0 db : FilesDB) : Prop := sessions db = sessions db0 /\ parts db = parts db0.

Lemma Write_uploads {E} (failed : Audit.Error -> E) ev env n (db : FilesDB) st r :
  Audit.Write failed ev env (n, db) = (st, r) -> sameUploads db (snd st).
Proof. intros Hw. destruct (Write_audit _ _ _ _ _ _ _ Hw) as [t ->]. by split. Qed.

Ltac uploads_unfold :=
  repeat match goal with H : Audit.Write _ _ _ _ = _ |- _ => apply Write_uploads in H; cbn [snd] in H end;
  repeat match goal with H : insertJob _ _ _ _ = Some _ |- _ =>
    unfold insertJob in H; destruct (_ || _) in H; [discriminate H|]; injection H as <- end;
  unfold sameUploads in *;
  cbn [snd sessions parts setFiles setVersions setPreviews setJobs setArtifacts setOutbox
       Processing.setVersion Processing.setJob] in *.
Ltac uploads_frame := intros env n s st res Hs Hrun; db_go; uploads_unfold; repeat case_match; intuition congruence.

Section Frame.
Context (db0 : FilesDB).
Notation I := (sameUploads db0).

Lemma lease_uploads locked owner now until : keeps I (Processing.leaseBody locked owner now until).
Proof. unfold Processing.leaseBody. uploads_frame. Qed.
Lemma heartbeat_uploads id owner until : keeps I (Processing.heartbeatBody id owner until).
Proof. unfold Processing.heartbeatBody. uploads_frame. Qed.
Lemma fail_uploads job f : keeps I (Processing.failBody job f).
Proof. unfold Processing.failBody. uploads_frame. Qed.
Lemma reserve_uploads a : keeps I (Processing.reserveBody a).
Proof. unfold Processing.reserveBody. uploads_frame. Qed.
Lemma transition_uploads key target : keeps I (Processing.transitionBody key target).
Proof. unfold Processing.transitionBody. uploads_frame. Qed.
Lemma forget_uploads key : keeps I (Processing.forgetBody key).
Proof. unfold Processing.forgetBody. uploads_frame. Qed.
Lemma retry_uploads actor version : keeps I (Cleanup.retryBody actor version).
Proof. unfold Cleanup.retryBody. uploads_frame. Qed.
Lemma delete_uploads actor file until : keeps I (Cleanup.deleteBody actor file until).
Proof. unfold Cleanup.deleteBody. uploads_frame. Qed.
Lemma claimPurge_uploads locked now owner until : keeps I (Cleanup.claimPurgeBody locked now owner until).
Proof.
  unfold Cleanup.claimPurgeBody. intros env n s st res Hs Hrun; db_go; uploads_unfold; try done.
  unfold Cleanup.announce in *. destruct (existsb _ _); uploads_unfold; intuition congruence.
Qed.
Lemma completePurge_uploads c owner now : keeps I (Cleanup.completePurgeBody c owner now).
Proof. unfold Cleanup.completePurgeBody. uploads_frame. Qed.
Lemma claimArtifact_uploads locked now owner until : keeps I (Cleanup.claimArtifactBody locked now owner until).
Proof. unfold Cleanup.claimArtifactBody. uploads_frame. Qed.
Lemma completeArtifact_uploads c owner now : keeps I (Cleanup.completeArtifactBody c owner now).
Proof. unfold Cleanup.completeArtifactBody. uploads_frame. Qed.

Lemma storePreview_uploads version p : keeps I (Processing.storePreviewRow version p).
Proof.
  unfold Processing.storePreviewRow, Processing.upsertPreview. intros env n s st res Hs Hrun. db_go.
  match goal with H : (if _ then _ else _) = Some _ |- _ => destruct (_ || _); [done|injection H as <-] end. done.
Qed.
Lemma publish_uploads job p : keeps I (Processing.publishArtifact job p).
Proof. unfold Processing.publishArtifact. uploads_frame. Qed.

(** A run of [optionally] moves [sameUploads] from its first state to its last. *)
Ltac uploads_optionally :=
  match goal with
  | S : sameUploads ?d0 ?a, H : Processing.optionally ?o ?m ?env (?n, ?a) = (?st, Ok ?u) |- _ =>
      pose proof (optionally_keeps (sameUploads d0) o m
        ltac:(intros; repeat apply fail_if_keeps; first [apply storePreview_uploads|apply publish_uploads])
        env n a st u S H); clear H; cbn [snd] in *
  end.

Lemma complete_uploads job r : keeps I (Processing.completeBody job r).
Proof.
  unfold Processing.completeBody. intros env n s st res Hs Hrun. db_go;
    (match goal with S : sameUploads db0 ?d, Hv : versions ?d !! _ = Some ?v |- _ =>
       assert (sameUploads db0 (Processing.setVersion (Processing.JobFileVersionID job) (Processing.readyVersion r v) d))
         by exact S end);
    repeat uploads_optionally; assumption.
Qed.
End Frame.

(** The body of [LeaseNext] runs under the admission. *)
Lemma admittedClaim_uploads {A} db0 lock (k : DB FilesDB Processing.Error A) :
  keeps (sameUploads db0) k -> keeps (sameUploads db0) (Processing.admittedClaim lock k).
Proof.
  unfold Processing.admittedClaim. intros Hk env n s st res Hs Hrun.
  destruct (AdmitClaim lock env (n, mode s)) as [[n' m'] [a|[]]]; try done. by eapply Hk.
Qed.

Create HintDb uploads discriminated.
#[local] Hint Resolve lease_uploads heartbeat_uploads fail_uploads reserve_uploads transition_uploads forget_uploads
  retry_uploads delete_uploads claimPurge_uploads completePurge_uploads claimArtifact_uploads completeArtifact_uploads
  complete_uploads admittedClaim_uploads : uploads.

Lemma queueStep_uploads db db' : queueStep db db' -> sameUploads db db'.
Proof.
  intros Hstep. assert (Hs : sameUploads db db) by done. destruct Hstep.
  all: unfold exec, Processing.LeaseNext, Processing.Heartbeat, Processing.Complete, Processing.Fail, Processing.ReserveArtifact,
    Processing.transitionArtifact, Processing.ForgetArtifact, Cleanup.RetryFile, Cleanup.DeleteFile, Cleanup.ClaimFileCleanup,
    Cleanup.CompleteFileCleanup, Cleanup.ClaimProcessingArtifactCleanup, Cleanup.CompleteProcessingArtifactCleanup, statement.
  all: repeat match goal with |- context [if ?b then dfail _ else _] => destruct b; [exact Hs|] end.
  all: refine (exec_transact (sameUploads db) _ _ _ _ _ _ Hs); auto with uploads.
Qed.

(** *** What a stuck upload answers *)

(** The parts of a session, whatever else is in the table. *)
Definition theParts (id : UUID) (m : gmap (N * Z) UploadPart) : list UploadPart :=
  snd <$> map_to_list (filter (fun kv => kv.1.1 = id) m).

Lemma partsOf_perm db id m :
  (forall k, parts db !! (id, k) = m !! (id, k)) -> partsOf db id ≡ₚ theParts id m.
Proof.
  intros Hm. unfold partsOf, orderBy, theParts. rewrite merge_sort_Permutation.
  apply fmap_Permutation. apply NoDup_Permutation.
  - apply NoDup_ListNoDup, List.NoDup_filter, NoDup_ListNoDup, NoDup_map_to_list.
  - apply NoDup_map_to_list.
  - intros [[s k] p]. rewrite elem_of_map_to_list, map_lookup_filter_Some, list_elem_of_In, filter_In,
      <- list_elem_of_In, elem_of_map_to_list, N.eqb_eq. simpl.
    split; intros [Hk ->]; by rewrite ?Hm in *.
Qed.

(** Parts are checked in ascending order, so their order does not matter. *)
Lemma checkParts_numbers session ps i acc r :
  checkParts session i acc ps = Some r -> Number <$> ps = seqZ (i + 1) (Z.of_nat (length ps)).
Proof.
  revert i acc r. induction ps as [|p ps IH]; intros i acc r Hc; [done|]. cbn [checkParts] in Hc.
  destruct (expectedPartSize _ _); [|done]. destruct (_ || _) eqn:Hb; [done|].
  destruct (checkParts session (i + 1) _ ps) as [r'|] eqn:Hrec; [|done]. apply IH in Hrec. bool_simpl.
  cbn [length]. rewrite fmap_cons, Hrec. rewrite (seqZ_cons (i + 1)) by lia.
  f_equal; [done|]. f_equal; lia.
Qed.

Lemma validate_perm session session' ps ps' :
  ExpectedSize session' = ExpectedSize session -> ps ≡ₚ ps' ->
  is_ok (validateCompletionParts session ps) = true -> is_ok (validateCompletionParts session' ps') = true.
Proof.
  intros He Hp Hv.
  assert (Hcheck : forall q i t, checkParts session' i t q = checkParts session i t q).
  { intros q. induction q as [|x q IH]; intros i t; [done|]. cbn [checkParts]. by rewrite He, IH. }
  assert (Hsort : sortParts ps' = sortParts ps).
  { unfold validateCompletionParts in Hv. destruct (negb _); [done|].
    destruct (checkParts session 0 0 (sortParts ps)) as [r|] eqn:Hc; [|done]. apply checkParts_numbers in Hc.
    apply sorted_unique; [apply (StronglySorted_merge_sort _)..| |rewrite Hc; apply NoDup_seqZ].
    by rewrite !sortParts_perm. }
  unfold validateCompletionParts, wantCount in *. by rewrite Hsort, He, Hcheck.
Qed.

(** No completion succeeds with the parts [ps]. *)
Definition missing (id : UUID) (size : Z) (ps : gmap (N * Z) UploadPart) : Prop :=
  forall session qs, ExpectedSize session = size -> qs ≡ₚ theParts id ps ->
  is_ok (validateCompletionParts session qs) = false.

Lemma CompleteUpload_stuck purpose closed actor id size ps env n db (o : O) st r :
  stuck id size ps db -> missing id size ps ->
  CompleteUpload purpose closed actor id env (n, (db, o)) = (st, r) ->
  stuck id size ps (fst (snd st)) /\ is_ok r = false.
Proof.
  intros Hs Hbad Hrun. apply authorized_run in Hrun as [Hrun|[-> ->]]; [|done].
  destruct (id =? NilUUID)%N; [by injection Hrun as <- <-|].
  unfold dbind at 1, wallNow at 1 in Hrun. unfold dbind at 1 in Hrun.
  destruct (onDB _ env (S n, (db, o))) as [st1 r1] eqn:Eb. apply onDB_run in Eb as (n1 & db1 & Eb & ->).
  pose proof (transact_preserves _ _ _ _ (begin_stuck id size ps id (User_ID actor) purpose (wall env n)) _ _ _ _ _ Hs Eb) as Hs1.
  cbn [snd] in Hs1. destruct r1 as [[[session qs] completed]|e]; [|by injection Hrun as <- <-].
  destruct completed as [c|].
  { exfalso. apply BeginCompletion_completed in Eb as (Hof & Hst & _).
    apply sessionOf_row in Hof as (w & Hw & Hst' & _). apply Hs in Hw as (Hst'' & _).
    apply stalled_not in Hst'' as [_ ?]. congruence. }
  pose proof (begin_parts _ _ _ _ _ _ _ _ _ _ Eb) as (w & Hw & Hsz & ->). cbn [snd] in *.
  destruct (Hs1 w Hw) as (_ & Hsize & Hparts).
  pose proof (Hbad session (partsOf db1 id) ltac:(congruence) (partsOf_perm _ _ _ Hparts)) as Hno.
  destruct (validateCompletionParts session _); [done|].
  unfold dbind, attempt in Hrun.
  destruct (onDB _ env (n1, (db1, o))) as [st2 r2] eqn:Er. apply onDB_run in Er as (n2 & db2 & Er & ->).
  destruct (ReopenCompletion_stuck (SessionID_ session) env n1 db1) as (n3 & e3 & E3).
  rewrite E3 in Er. injection Er as <- <- <-. by injection Hrun as <- <-.
Qed.

(** A completion that reports missing parts leaves the upload stuck. *)
Lemma incomplete_stuck purpose closed actor id env n db (o : O) st :
  CompleteUpload purpose closed actor id env (n, (db, o)) = (st, Err ErrUploadIncomplete) ->
  exists u, sessions (fst (snd st)) !! id = Some u /\ State u = UploadCompleting /\ snd (snd st) = o /\
    stuck id (ExpectedSize u) (parts (fst (snd st))) (fst (snd st)) /\
    missing id (ExpectedSize u) (parts (fst (snd st))).
Proof.
  intros Hrun. apply authorized_run in Hrun as [Hrun|[_ [=]]]. destruct (id =? NilUUID)%N; [done|].
  unfold dbind at 1, wallNow at 1 in Hrun. unfold dbind at 1 in Hrun.
  destruct (onDB _ env (S n, (db, o))) as [st1 r1] eqn:Eb. apply onDB_run in Eb as (n1 & db1 & Eb & ->).
  destruct r1 as [[[session qs] completed]|e]; [|injection Hrun as _ ->; by apply BeginCompletion_errors in Eb].
  destruct completed as [c|]; [done|].
  pose proof (begin_parts _ _ _ _ _ _ _ _ _ _ Eb) as (x & Hx & Hsz & ->).
  apply begin_row in Eb as (w & _ & -> & _ & w' & Hw' & Hst & _). cbn [snd] in *.
  rewrite Hx in Hw'. injection Hw' as <-.
  destruct (validateCompletionParts _ (partsOf db1 id)) as [objectParts|e] eqn:Ev;
    [by apply completeStorage_errors in Hrun|].
  unfold dbind, attempt in Hrun.
  destruct (onDB _ env (n1, (db1, o))) as [st2 r2] eqn:Er. apply onDB_run in Er as (n2 & db2 & Er & ->).
  destruct (ReopenCompletion_stuck (SessionID_ (withState UploadCompleting w)) env n1 db1) as (n3 & e3 & E3).
  rewrite E3 in Er. injection Er as <- <- <-. injection Hrun as <- _. cbn [fst snd].
  exists x. split_and!; [done..| |].
  - intros y Hy. rewrite Hx in Hy. injection Hy as <-. split_and!; [by left|done..].
  - intros s' qs He Hp. apply not_true_iff_false. intros Hok.
    apply (validate_perm s' (withState UploadCompleting w) qs (partsOf db1 id)) in Hok; [by rewrite Ev in Hok|congruence|].
    by rewrite Hp, partsOf_perm.
Qed.

Lemma later_stuck id size ps s s' :
  missing id size ps -> later id s s' -> stuck id size ps (fst s) -> stuck id size ps (fst s').
Proof.
  intros Hbad Hstep Hs. destruct Hstep; cbn [fst] in *.
  all: unfold exec, CreateSession, AdmitPart, RecordPart, BeginCompletion, FinishCompletion, CancelSession, ClaimCleanup,
    ConfirmCleanup, FinishCleanup, statement.
  - refine (exec_transact _ _ _ _ _ _ _ Hs). by apply create_stuck.
  - refine (exec_transact _ _ _ _ _ _ _ Hs). apply admit_stuck.
  - refine (exec_transact _ _ _ _ _ _ _ Hs). apply record_stuck.
  - refine (exec_transact _ _ _ _ _ _ _ Hs). apply begin_stuck.
  - destruct (ReopenCompletion_stuck id' env 0%nat db) as (n & e & E). by rewrite E.
  - refine (exec_transact _ _ _ _ _ _ _ Hs). by apply finish_stuck.
  - by eapply CompleteUpload_stuck.
  - destruct (negb _); [exact Hs|]. refine (exec_transact _ _ _ _ _ _ _ Hs). apply cancel_stuck.
  - refine (exec_transact _ _ _ _ _ _ _ Hs). apply claim_stuck.
  - refine (exec_transact _ _ _ _ _ _ _ Hs). apply confirm_stuck.
  - refine (exec_transact _ _ _ _ _ _ _ Hs). apply finishCleanup_stuck.
  - destruct (queueStep_uploads _ _ H2) as [? ?]. by eapply stuck_same.
  - by eapply stuck_same.
Qed.

Lemma later_stuck_rtc id size ps s s' :
  missing id size ps -> rtc (later id) s s' -> stuck id size ps (fst s) -> stuck id size ps (fst s').
Proof. intros Hbad. induction 1; eauto using later_stuck. Qed.

(** A part of a session that is not open, or is gone, is refused. *)
Lemma PutPart_stuck purpose slot actor i env n db (o : O) st r size ps :
  stuck (InSession i) size ps db -> PutPart purpose slot actor i env (n, (db, o)) = (st, r) ->
  snd st = (db, o) /\ is_ok r = false.
Proof.
  intros Hs. destruct (sessions db !! InSession i) as [w|] eqn:Hw.
  - apply (PutPart_closed _ _ _ _ _ _ _ _ w); [done|]. apply Hs in Hw as (Hst & _). by apply stalled_not in Hst as [? _].
  - intros Hrun. apply authorized_run in Hrun as [Hrun|[-> ->]]; [|done].
    destruct (InBody i) as [body|]; [|by injection Hrun as <- <-].
    destruct (badPart i); [by injection Hrun as <- <-|]. destruct slot; [|by injection Hrun as <- <-].
    cbn [negb] in Hrun. unfold dbind at 1, wallNow at 1 in Hrun. unfold dbind at 1, onDB at 1 in Hrun.
    destruct (AdmitPart_gone (InSession i) (User_ID actor) purpose (InNumber i) (InSize i) (InSHA256 i) (wall env n) env
      (S n) db Hw) as (n' & e & E). rewrite E in Hrun. by injection Hrun as <- <-.
Qed.

(** C15. An upload that was completed too early can never be finished.  When a
    completion reports missing parts, the session is left [completing], because
    [ReopenCompletion] always fails.  From then on, after any operations whatever of
    the upload, processing and cleanup stores, in any environment and order, among
    them further completions of this upload and its cancellation or cleanup, with
    any changes elsewhere and in the object store, as long as no new session is given
    the same identifier: the session, while it exists, is [completing], [cancelled]
    or [expired]; every further completion of it fails, by whomever; and every part
    sent to it is refused and changes nothing. *)
Theorem incomplete_completion_is_final purpose closed actor id env n db (o : O) st :
  CompleteUpload purpose closed actor id env (n, (db, o)) = (st, Err ErrUploadIncomplete) ->
  (exists u, sessions (fst (snd st)) !! id = Some u /\ State u = UploadCompleting /\ snd (snd st) = o) /\
  forall db' o', rtc (later id) (snd st) (db', o') ->
    (forall u, sessions db' !! id = Some u ->
       State u = UploadCompleting \/ State u = UploadCancelled \/ State u = UploadExpired) /\
    (forall purpose' closed' actor' env' n' st' r,
       CompleteUpload purpose' closed' actor' id env' (n', (db', o')) = (st', r) -> is_ok r = false) /\
    (forall purpose' slot actor' i env' n' st' r,
       InSession i = id -> PutPart purpose' slot actor' i env' (n', (db', o')) = (st', r) ->
       snd st' = (db', o') /\ is_ok r = false).
Proof.
  intros Hrun. destruct (incomplete_stuck _ _ _ _ _ _ _ _ _ Hrun) as (u & Hu & Hst & Ho & Hs & Hbad).
  split; [by exists u|]. intros db' o' Hlater.
  pose proof (later_stuck_rtc _ _ _ _ _ Hbad Hlater Hs) as Hs'. cbn [fst] in Hs'. split_and!.
  - intros w Hw. by apply Hs' in Hw as (? & _).
  - intros purpose' closed' actor' env' n' st' r Hc. by eapply CompleteUpload_stuck in Hc as [_ ?].
  - intros purpose' slot actor' i env' n' st' r <- Hput. by eapply PutPart_stuck.
Qed.

(** ** Parts *)
Lemma AdmitPart_existing id actor p number size h now env n db st u part :
  AdmitPart id actor p number size h now env (n, db) = (st, Ok (u, Some part)) ->
  parts (snd st) !! (id, number) = Some part /\ Size part = size /\ SHA256 part = h /\ snd st = db.
Proof.
  intros Hrun. apply transact_Ok in Hrun as (n' & Hrun). unfold admitPartBody in Hrun. db_go; simplify_eq; bool_simpl.
  split_and!; done.
Qed.

Lemma RecordPart_Ok id p env n db st q :
  RecordPart id p env (n, db) = (st, Ok q) ->
  parts (snd st) !! (id, Number p) = Some q /\ Size q = Size p /\ SHA256 q = SHA256 p.
Proof.
  intros Hrun. apply transact_Ok in Hrun as (n' & Hrun). unfold recordPartBody in Hrun. db_go; simplify_eq; bool_simpl. done.
Qed.

(** The bytes of a body that ends after exactly [size] of them. *)
Definition exactly (size : Z) (body : Objects.Reader) : Prop :=
  Z.of_nat (length (Objects.content body)) = size /\ Objects.broken body = false.

Lemma whole_body body size k :
  trailing body size = false -> 0 <= size ->
  Z.of_nat (length (take k (Objects.content (Objects.limitReader size body)))) = size ->
  exactly size body /\ take k (Objects.content (Objects.limitReader size body)) = Objects.content body.
Proof.
  unfold trailing, Objects.limitReader. cbn [Objects.content Objects.broken]. intros Ht Hs Hl.
  rewrite take_take in *. apply orb_false_iff in Ht as [Hlen Hb]. rewrite length_take in *. bool_simpl.
  assert (E : Z.of_nat (length (Objects.content body)) = size) by lia.
  split; [split; [done|]|].
  - rewrite (proj2 (Z.ltb_lt _ _)) in Hb by lia. by rewrite andb_true_r in Hb.
  - apply take_ge. lia.
Qed.

Lemma sessionOf_id db id actor p u : sessionOf db id actor p = Some u -> SessionID_ u = id.
Proof. unfold sessionOf. destruct (sessions db !! id); [|done]. destruct (_ && _); [|done]. by intros [= <-]. Qed.

Lemma AdmitPart_session id actor p number size h now env n db st u e :
  AdmitPart id actor p number size h now env (n, db) = (st, Ok (u, e)) -> SessionID_ u = id.
Proof.
  intros Hrun. apply transact_Ok in Hrun as (n' & Hrun). unfold admitPartBody in Hrun.
  db_go; simplify_eq; by eapply sessionOf_id.
Qed.

(** What an accepted part guarantees: when [PutPart] answers with a part, the row
    of that number is recorded with the declared size and hash, and either it was
    recorded before, or the request's body consisted of exactly that many bytes, not
    one more or fewer and without a read error, and its SHA-256 is the declared one. *)
Theorem part_content_verified purpose slot actor i env n db (o : O) st v :
  PutPart purpose slot actor i env (n, (db, o)) = (st, Ok v) ->
  exists p, parts (fst (snd st)) !! (InSession i, InNumber i) = Some p /\
    v = partView p /\ Size p = InSize i /\ SHA256 p = InSHA256 i /\
    ((snd (snd st) = o /\ parts (fst (snd st)) = parts db) \/
     exists body, InBody i = Some body /\ exactly (InSize i) body /\ hexSum256 (Objects.content body) = InSHA256 i).
Proof.
  intros Hrun. apply authorized_run in Hrun as [Hrun|[_ [=]]].
  destruct (InBody i) as [body|] eqn:Eb; [|done]. destruct (badPart i) eqn:Hbad; [done|]. destruct (negb slot); [done|].
  unfold dbind at 1, wallNow at 1 in Hrun. unfold dbind at 1 in Hrun.
  destruct (onDB _ env (S n, (db, o))) as [st1 r1] eqn:Ea. apply onDB_run in Ea as (n1 & db1 & Ea & ->).
  destruct r1 as [[session [part|]]|e]; [| |done].
  - injection Hrun as <- <-. apply AdmitPart_existing in Ea as (Hp & Hs & Hh & Hdb). cbn [fst snd] in *. subst db1.
    exists part. split_and!; try done. by left.
  - destruct (expectedPartSize _ _) as [want|]; [|done]. destruct (negb (InSize i =? want)); [done|].
    unfold dbind at 1, onObjects at 1 in Hrun.
    destruct (Objects.PutPart _ _ _ _ _ _ o) as [[o2 k] [remote|]] eqn:Ep; [|done].
    destruct (negb (Z.of_nat _ =? _)) eqn:Hk; [done|]. destruct (trailing body (InSize i)) eqn:Ht; [done|].
    destruct (negb (bool_decide _)) eqn:Hh; [done|]. bool_simpl.
    unfold dbind at 1, wallNow at 1 in Hrun. unfold dbind at 1 in Hrun.
    destruct (onDB _ env _) as [st2 r2] eqn:Er. apply onDB_run in Er as (n3 & db3 & Er & ->).
    destruct r2 as [p|e]; [|done]. injection Hrun as <- <-.
    apply RecordPart_Ok in Er as (Hp & Hs & Hsh). cbn [fst snd Number Size SHA256] in *.
    rewrite (AdmitPart_session _ _ _ _ _ _ _ _ _ _ _ _ _ Ea) in Hp.
    pose proof (whole_body body (InSize i) k Ht) as Hwhole.
    destruct Hwhole as [Hex Hall]; [lia|done|]. rewrite Hall in *.
    exists p. split_and!; [done..|congruence|]. right. by exists body.
Qed.

(** ** Completion *)
Lemma FinishCompletion_new u actor env n db st c locked :
  FinishCompletion u actor env (n, db) = (st, Ok c) ->
  sessions db !! SessionID_ u = Some locked -> State locked = UploadCompleting ->
  exists v job j, versions (snd st) !! FileVersionID c = Some v /\ v_file v = FileID c /\ v_key v = ObjectKey locked /\
    v_size v = ExpectedSize locked /\ v_sha v = ExpectedSHA256 locked /\ v_name v = DisplayName locked /\
    v_state v = "pending_scan"%string /\
    jobs (snd st) !! job = Some j /\ j_version j = FileVersionID c /\ j_state j = "queued"%string.
Proof.
  intros Hrun Hl Hst. apply transact_Ok in Hrun as (n' & Hrun). unfold finishCompletionBody in Hrun.
  db_go; simplify_eq; bool_simpl; try congruence.
  match goal with H : insertJob _ _ _ _ = Some ?d |- _ => apply insertJob_shape in H as (Ev & Ej & _) end.
  match goal with H : Audit.Write _ _ _ _ = _ |- _ => apply Write_audit in H as [t Ht]; cbn [snd] in Ht end.
  subst f. cbn [snd versions jobs FileID FileVersionID Audit.setAudit FilesDB_audit putSession setSessions].
  rewrite Ev, Ej. cbn [versions setVersions]. do 3 eexists. rewrite lookup_insert_eq. split; [done|].
  do 6 (split; [done|]). rewrite lookup_insert_eq. done.
Qed.

Lemma verified_exactly session reader info :
  Objects.broken (Objects.limitReader (ExpectedSize session + 1) reader) = false ->
  verified session reader info = true ->
  exactly (ExpectedSize session) reader /\ hexSum256 (Objects.content reader) = ExpectedSHA256 session.
Proof.
  unfold verified, Objects.limitReader. cbn [Objects.content Objects.broken]. intros Hb Hv. bool_simpl.
  match goal with H : Z.of_nat (length (take _ _)) = _ |- _ => rewrite length_take in H; rename H into Hl end.
  assert (E : Z.of_nat (length (Objects.content reader)) = ExpectedSize session) by lia.
  rewrite take_ge in * by lia. split; [split; [done|]|done].
  rewrite (proj2 (Z.ltb_lt _ _)) in Hb by lia. by rewrite andb_true_r in Hb.
Qed.

Lemma completeStorage_Ok purpose closed actor session ps env n db (o : O) st c locked :
  completeStorage purpose closed actor session ps env (n, (db, o)) = (st, Ok c) ->
  sessions db !! SessionID_ session = Some locked -> State locked = UploadCompleting ->
  ObjectKey locked = ObjectKey session -> ExpectedSize locked = ExpectedSize session ->
  ExpectedSHA256 locked = ExpectedSHA256 session -> DisplayName locked = DisplayName session ->
  exists reader info o1 o2 v job j, Objects.Get (ObjectKey session) o1 = (o2, Ok (reader, info)) /\
    exactly (ExpectedSize session) reader /\ hexSum256 (Objects.content reader) = ExpectedSHA256 session /\
    versions (fst (snd st)) !! FileVersionID c = Some v /\ v_file v = FileID c /\ v_key v = ObjectKey session /\
    v_size v = ExpectedSize session /\ v_sha v = ExpectedSHA256 session /\ v_name v = DisplayName session /\
    v_state v = "pending_scan"%string /\
    jobs (fst (snd st)) !! job = Some j /\ j_version j = FileVersionID c /\ j_state j = "queued"%string.
Proof.
  unfold completeStorage. intros Hrun Hl Hst Ek Es Eh En. unfold dbind at 1 in Hrun.
  destruct (completeObject session ps env (n, (db, o))) as [st1 [info|e1]] eqn:Eo; [|done].
  assert (exists o1, st1 = (n, (db, o1))) as [o1 ->].
  { revert Eo. unfold completeObject, dbind, onObjects, dret.
    destruct (Objects.CompleteMultipart _ _ _ o) as [o1 [?|[]]]; try (intros [= <- _]; by eexists).
    destruct (Objects.Stat _ o1) as [o2 ?]. intros [= <- _]. by eexists. }
  destruct info as [info|e1].
  2: { unfold dbind, attempt in Hrun. by destruct (onDB _ env _) as [? ?]. }
  destruct (negb _); [by apply rejectCompletedObject_errors in Hrun as [_ ?]|].
  unfold dbind at 1, onObjects at 1 in Hrun.
  destruct (Objects.Get _ o1) as [o2 [[reader objectInfo]|e2]] eqn:Eg; [|done].
  destruct (_ || _) eqn:Hb; [done|]. apply orb_false_iff in Hb as [Hb _].
  destruct (negb _) eqn:Hv; [by apply rejectCompletedObject_errors in Hrun as [_ ?]|]. bool_simpl.
  unfold dbind, attempt in Hrun. destruct (onDB _ env _) as [st3 [d|e3]] eqn:Ef; [|done].
  injection Hrun as <- <-. apply onDB_run in Ef as (n3 & db3 & Ef & ->).
  destruct (FinishCompletion_new _ _ _ _ _ _ _ _ Ef Hl Hst) as (v & job & j & Hver). cbn [fst snd] in *.
  rewrite Ek, Es, Eh, En in Hver. destruct (verified_exactly _ _ _ Hb Hv) as [Hex Hsum].
  exists reader, objectInfo, o1, o2, v, job, j. split_and!; try done; apply Hver.
Qed.

(** C14. What a successful completion guarantees: either the upload had been completed
    before, and nothing changes, or the object store returned, for the key of the
    session, exactly as many bytes as were declared, with the declared SHA-256, and
    the new version carries the key, name, size and hash of the session, waits for
    its scan, and has a queued job. *)
Theorem completed_content_verified purpose closed actor id env n db (o : O) st c :
  CompleteUpload purpose closed actor id env (n, (db, o)) = (st, Ok c) ->
  exists u, sessionOf db id (User_ID actor) purpose = Some u /\
  ((State u = UploadCompleted /\ snd st = (db, o)) \/
   (State u <> UploadCompleted /\
    exists reader info o1 o2 v job j, Objects.Get (ObjectKey u) o1 = (o2, Ok (reader, info)) /\
    exactly (ExpectedSize u) reader /\ hexSum256 (Objects.content reader) = ExpectedSHA256 u /\
    versions (fst (snd st)) !! FileVersionID c = Some v /\ v_file v = FileID c /\ v_key v = ObjectKey u /\
    v_size v = ExpectedSize u /\ v_sha v = ExpectedSHA256 u /\ v_name v = DisplayName u /\
    v_state v = "pending_scan"%string /\
    jobs (fst (snd st)) !! job = Some j /\ j_version j = FileVersionID c /\ j_state j = "queued"%string)).
Proof.
  intros Hrun. apply authorized_run in Hrun as [Hrun|[_ [=]]]. destruct (id =? NilUUID)%N; [done|].
  unfold dbind at 1, wallNow at 1 in Hrun. unfold dbind at 1 in Hrun.
  destruct (onDB _ env (S n, (db, o))) as [st1 r1] eqn:Eb. apply onDB_run in Eb as (n1 & db1 & Eb & ->).
  destruct r1 as [[[session ps] completed]|e]; [|done]. destruct completed as [c'|].
  - apply BeginCompletion_completed in Eb as (Hof & Hst & Hdb). injection Hrun as <- <-. cbn [snd] in *. subst db1.
    exists session. split; [done|]. by left.
  - pose proof (begin_row _ _ _ _ _ _ _ _ _ _ Eb) as (w & Hof & -> & Hne & Hrow).
    destruct (validateCompletionParts _ ps); [|unfold dbind, attempt in Hrun; by destruct (onDB _ env _)].
    exists w. split; [done|]. right. split; [done|].
    destruct Hrow as (row & Hrow & Hst & Ek & Es & Eh & En).
    eapply completeStorage_Ok in Hrun; [exact Hrun| |exact Hst|done..].
    pose proof (sessionOf_id _ _ _ _ _ Hof) as Hid. by cbn [SessionID_ withState]; rewrite Hid.
Qed.

End Theorems.
