(* ===== verification/Detect.v ===== *)
(** * Detecting file types

    Models [internal/processing/detect.go] and the pure functions of [video.go] and
    [text_extract.go].  A file on disk is its bytes and which of the system calls on
    it succeed.  The decoders of the standard library's image and archive packages
    are parameters: the dimensions of a JPEG, PNG or GIF, the number of images of a
    GIF, and the entries of a ZIP archive with the start elements of their XML. *)

From S2P Require Import Prelude GoText GoStrings Pg FilesModel FilesStore ProcessingStore.
From stdpp Require Import base tactics list strings.
From Stdlib Require Import ZArith Lia.
Import Files.

Open Scope Z_scope.

Module Detect.

Notation ProcessingError := Processing.ProcessingError.
Definition rejection (category : string) : ProcessingError := Processing.MkProcessingError category true true.
Definition transient (category : string) : ProcessingError := Processing.MkProcessingError category false false.

Definition MaxProcessFileSize : Z := 500 * 1024 * 1024.
Definition MaxImageWidth : Z := 7680.
Definition MaxImageHeight : Z := 4320.
Definition MaxImagePixels : Z := MaxImageWidth * MaxImageHeight.

Inductive Kind := KindDocument | KindImage | KindOffice | KindVideo | KindText.
Global Instance Kind_eq_dec : EqDecision Kind.
Proof. solve_decision. Defined.

Record Detection := MkDetection { MIME : string; DetectedKind : Kind; Extension : list Z }.

Definition allowedTypes : list (string * (string * Kind)) :=
  [(".pdf", ("application/pdf", KindDocument));
   (".jpg", ("image/jpeg", KindImage)); (".jpeg", ("image/jpeg", KindImage)); (".png", ("image/png", KindImage));
   (".webp", ("image/webp", KindImage)); (".gif", ("image/gif", KindImage));
   (".docx", (wordMIME, KindOffice)); (".xlsx", (sheetMIME, KindOffice)); (".pptx", (slidesMIME, KindOffice));
   (".mp4", ("video/mp4", KindVideo)); (".webm", ("video/webm", KindVideo)); (".ogv", ("video/ogg", KindVideo));
   (".ogg", ("video/ogg", KindVideo)); (".mov", ("video/quicktime", KindVideo)); (".avi", ("video/x-msvideo", KindVideo));
   (".mkv", ("video/x-matroska", KindVideo));
   (".txt", ("text/plain", KindText)); (".md", ("text/markdown", KindText))].

Definition rejectedExtensions : list string :=
  [".zip"; ".rar"; ".7z"; ".exe"; ".dll"; ".svg"; ".html"; ".htm"; ".docm"; ".xlsm"; ".pptm"].

(** ** Names and headers *)
Definition validDisplayName (name : string) : bool :=
  negb (bool_decide (name = EmptyString)) && (len name <=? 255) && trimmed name
  && bool_decide (Base (bytes name) = bytes name)
  && negb (existsb (fun b => existsb (Z.eqb b) [47; 92; 0; 13; 10]) (bytes name)).

(** [bytes.TrimSpace] as the runes that are left. *)
Fixpoint dropSpace (r : list Z) : list Z :=
  match r with
  | x :: rest => if IsSpace x then dropSpace rest else r
  | [] => []
  end.
Definition TrimSpace (b : list Z) : list Z := rev (dropSpace (rev (dropSpace (runesOf b)))).

Definition Valid (b : list Z) : bool := forallb snd (decodeAll (length b) b).

Definition textMagic (b : list Z) : bool :=
  let lower := lowerRune <$> TrimSpace b in
  Valid b && negb (containsBytes b [0]) && negb (hasPrefix lower (bytes "<html")) && negb (hasPrefix lower (bytes "<svg")).

Definition longer (n : nat) (b : list Z) : bool := (n <=? length b)%nat.

Definition magics : list (list string * (list Z -> bool)) :=
  [([".pdf"], fun b => hasPrefix b (bytes "%PDF-"));
   ([".jpg"; ".jpeg"], fun b => hasPrefix b [255; 216; 255]);
   ([".png"], fun b => hasPrefix b [137; 80; 78; 71; 13; 10; 26; 10]);
   ([".gif"], fun b => hasPrefix b (bytes "GIF87a") || hasPrefix b (bytes "GIF89a"));
   ([".webp"], fun b => longer 12 b && at_ b 0 (bytes "RIFF") && at_ b 8 (bytes "WEBP"));
   ([".docx"; ".xlsx"; ".pptx"], fun b => hasPrefix b [80; 75; 3; 4]);
   ([".mp4"; ".mov"], fun b => longer 12 b && at_ b 4 (bytes "ftyp"));
   ([".webm"; ".mkv"], fun b => hasPrefix b [26; 69; 223; 163]);
   ([".ogg"; ".ogv"], fun b => hasPrefix b (bytes "OggS"));
   ([".avi"], fun b => longer 12 b && at_ b 0 (bytes "RIFF") && at_ b 8 (bytes "AVI "));
   ([".txt"; ".md"], textMagic)].

Definition magicMatches (ext : list Z) (b : list Z) : bool :=
  match List.find (fun '(exts, _) => existsb (sameText ext) exts) magics with
  | Some (_, test) => test b
  | None => false
  end.

(** ** WebP *)
Definition byteAt (b : list Z) (i : nat) : Z := nth i b 0.
Definition Uint16 (b : list Z) (i : nat) : Z := Z.lor (byteAt b i) (Z.shiftl (byteAt b (i + 1)) 8).
Definition Uint32 (b : list Z) (i : nat) : Z := Z.lor (Uint16 b i) (Z.shiftl (Uint16 b (i + 2)) 16).

Definition webPDimensions (header : list Z) : option (Z * Z) :=
  if negb (longer 16 header) || negb (at_ header 0 (bytes "RIFF")) || negb (at_ header 8 (bytes "WEBP")) then None
  else if at_ header 12 (bytes "VP8X") then
    if negb (longer 30 header) then None
    else
      let width := Z.lor (Uint16 header 24) (Z.shiftl (byteAt header 26) 16) in
      let height := Z.lor (Uint16 header 27) (Z.shiftl (byteAt header 29) 16) in
      Some (width + 1, height + 1)
  else if at_ header 12 (bytes "VP8 ") then
    if negb (longer 30 header) || negb (at_ header 23 [157; 1; 42]) then None
    else Some (Z.land (Uint16 header 26) 16383, Z.land (Uint16 header 28) 16383)
  else if at_ header 12 (bytes "VP8L") then
    if negb (longer 25 header) || negb (byteAt header 20 =? 47) then None
    else
      let bits := Uint32 header 21 in
      Some (Z.land bits 16383 + 1, Z.land (Z.shiftr bits 14) 16383 + 1)
  else None.

(** ** Files on disk *)
Record Disk := MkDisk {
  data : list Z;
  opens : bool;        (* the first [os.Open] *)
  reads : bool;        (* reads meet no I/O error *)
  stats : bool;
  reopens : bool;      (* the second [os.Open] *)
  seeks : bool
}.

(** ** Archives *)
Record StartElement := MkStart { Local : list Z; Attrs : list (list Z * list Z) }.
Record ZipFile := MkZipFile {
  ZipName : string; UncompressedSize64 : Z; ZipOpens : bool;
  Elements : list StartElement;   (* the start elements of its XML *)
  CleanEnd : bool                 (* the XML ends without an error *)
}.

(** [strings.EqualFold] with an ASCII word: simple case folding maps U+017F to s and
    the Kelvin sign to k. *)
Definition foldRune (r : Z) : Z :=
  if isUpper r then r + 32 else if r =? 383 then 115 else if r =? 8490 then 107 else r.
Definition EqualFold (text : list Z) (word : string) : bool :=
  bool_decide (foldRune <$> runesOf text = foldRune <$> bytes word).

Definition hexValue (b : Z) : option Z :=
  if isDigit b then Some (b - 48)
  else if (97 <=? b) && (b <=? 102) then Some (b - 87)
  else if (65 <=? b) && (b <=? 70) then Some (b - 55)
  else None.

(** [url.PathUnescape]. *)
Fixpoint PathUnescape (b : list Z) : option (list Z) :=
  match b with
  | [] => Some []
  | 37 :: rest =>
      match rest with
      | x :: y :: rest' =>
          match hexValue x, hexValue y, PathUnescape rest' with
          | Some h, Some l, Some t => Some (16 * h + l :: t)
          | _, _, _ => None
          end
      | _ => None
      end
  | x :: rest => cons x <$> PathUnescape rest
  end.

Fixpoint cutAt (c : Z) (b : list Z) : list Z * list Z :=
  match b with
  | [] => ([], [])
  | x :: rest => if x =? c then ([], rest) else let '(h, t) := cutAt c rest in (x :: h, t)
  end.

(** What [url.Parse] finds at the start of a reference: an error, a scheme, or none. *)
Inductive SchemeResult := SchemeError | HasScheme | NoScheme.
Definition isLetter (b : Z) : bool := isLower b || isUpper b.
Fixpoint getScheme (first : bool) (b : list Z) : SchemeResult :=
  match b with
  | [] => NoScheme
  | x :: rest =>
      if isLetter x then getScheme false rest
      else if isDigit x || (x =? 43) || (x =? 45) || (x =? 46) then if first then NoScheme else getScheme false rest
      else if x =? 58 then if first then SchemeError else HasScheme
      else NoScheme
  end.

(** [url.Parse] succeeds with neither scheme nor host, for a reference that does not
    start with a slash. *)
Definition plainReference (target : list Z) : bool :=
  let '(u, fragment) := cutAt 35 target in
  let rest := fst (cutAt 63 u) in
  negb (existsb (fun b => (b <? 32) || (b =? 127)) u)
  && (bool_decide (u = [42]) ||
      (match getScheme true u with NoScheme => true | _ => false end
       && negb (containsBytes (fst (cutAt 47 rest)) [58])
       && bool_decide (is_Some (PathUnescape rest))))
  && bool_decide (is_Some (PathUnescape fragment)).

Definition startsSlash (b : list Z) : bool := hasPrefix b [47].

(** An attribute of the element; of several the last one counts. *)
Definition attribute (name : string) (e : StartElement) : list Z :=
  match List.find (fun '(n, _) => EqualFold n name) (rev (Attrs e)) with
  | Some (_, v) => TrimSpace v
  | None => []
  end.

Definition externalRelationship (e : StartElement) : bool :=
  let target := attribute "Target" e in
  EqualFold (attribute "TargetMode" e) "External"
  || match PathUnescape target with
     | None => true
     | Some decoded => startsSlash decoded || containsBytes decoded [92] || negb (plainReference decoded)
     end.

Definition rejectExternalOfficeRelationships (f : ZipFile) : option ProcessingError :=
  if 1024 * 1024 <? UncompressedSize64 f then Some (rejection "malformed_office")
  else if negb (ZipOpens f) then Some (rejection "malformed_office")
  else if existsb (fun e => EqualFold (Local e) "Relationship" && externalRelationship e) (Elements f)
       then Some (rejection "office_external_relationship")
  else if negb (CleanEnd f) then Some (rejection "malformed_office")
  else None.

Definition wantPart (ext : list Z) : string :=
  if sameText ext ".docx" then "word/document.xml"
  else if sameText ext ".xlsx" then "xl/workbook.xml"
  else if sameText ext ".pptx" then "ppt/presentation.xml"
  else EmptyString.

(** The loop over the entries, with the flags and the total so far. *)
Fixpoint checkEntries (want : string) (files : list ZipFile) (expanded : Z) (contentTypes mainPart : bool) :
  option ProcessingError :=
  match files with
  | [] => if negb contentTypes || negb mainPart then Some (rejection "malformed_office") else None
  | f :: rest =>
      let name := ToLower (bytes (ZipName f)) in
      if containsBytes name (bytes "../") || startsSlash name || containsBytes name (bytes "vbaproject.bin")
      then Some (rejection "type_rejected")
      else
        let expanded' := (expanded + UncompressedSize64 f) mod 2 ^ 64 in
        if 100 * 1024 * 1024 <? expanded' then Some (rejection "malformed_office")
        else
          let next := checkEntries want rest expanded' (contentTypes || sameText name "[content_types].xml")
                        (mainPart || sameText name want) in
          if hasSuffix name (bytes ".rels") then
            match rejectExternalOfficeRelationships f with
            | Some e => Some e
            | None => next
            end
          else next
  end.

(** What [io.LimitReader] lets through. *)
Definition atMost (n : Z) (b : list Z) : list Z := if Z.of_nat (length b) <=? n then b else firstn (Z.to_nat n) b.

Section Decoders.
Variables (DecodeConfig : list Z -> option (Z * Z)) (DecodeAllGIF : list Z -> option nat)
          (OpenZip : list Z -> option (list ZipFile)).

Definition validateOffice (ext : list Z) (d : Disk) : option ProcessingError :=
  match (if reopens d then OpenZip (data d) else None) with
  | None => Some (rejection "malformed_office")
  | Some files =>
      if bool_decide (files = []) || (2048 <? Z.of_nat (length files)) then Some (rejection "malformed_office")
      else checkEntries (wantPart ext) files 0 false false
  end.

Definition imageDimensions (ext : list Z) (d : Disk) : option (Z * Z) :=
  if sameText ext ".webp" then
    if negb (reads d) || bool_decide (data d = []) then None else webPDimensions (firstn 30 (data d))
  else if reads d then DecodeConfig (data d) else None.

Definition validateImage (ext : list Z) (d : Disk) : option ProcessingError :=
  if negb (reopens d) then Some (transient "storage_unavailable")
  else match imageDimensions ext d with
  | None => Some (rejection "malformed_image")
  | Some (width, height) =>
      if (width <? 1) || (height <? 1) then Some (rejection "malformed_image")
      else if (MaxImageWidth <? width) || (MaxImageHeight <? height) || (MaxImagePixels <? width * height)
      then Some (rejection "image_dimensions_exceeded")
      else if sameText ext ".gif" then
        if negb (seeks d) then Some (transient "storage_unavailable")
        else match (if reads d then DecodeAllGIF (atMost (MaxProcessFileSize + 1) (data d)) else None) with
             | None => Some (rejection "malformed_image")
             | Some images => if negb (images =? 1)%nat then Some (rejection "animated_image_rejected") else None
             end
      else None
  end.

Definition lastBytes (n : nat) (b : list Z) : list Z := skipn (length b - n) b.

Definition validatePDF (d : Disk) : option ProcessingError :=
  if negb (stats d) then Some (transient "storage_unavailable")
  else if negb (reads d) then Some (transient "storage_unavailable")
  else if negb (containsBytes (lastBytes 1024 (data d)) (bytes "%%EOF")) then Some (rejection "malformed_pdf")
  else None.

(** [DetectFile] from the point where the file is opened. *)
Definition detectContent (ext : list Z) (mime : string) (kind : Kind) (d : Disk) : result ProcessingError Detection :=
  (reject negb (opens d) with transient "storage_unavailable";
   reject negb (reads d) || bool_decide (data d = []) with rejection "type_rejected";
   reject negb (magicMatches ext (firstn 512 (data d))) with rejection "type_rejected";
   let failed :=
     match kind with
     | KindOffice => validateOffice ext d
     | KindImage => validateImage ext d
     | KindDocument => validatePDF d
     | _ => None
     end in
   match failed with
   | Some e => Err e
   | None => Ok (MkDetection mime kind ext)
   end)%go.

Definition DetectFile (displayName declaredMIME : string) (size : Z) (d : Disk) : result ProcessingError Detection :=
  (reject negb (validDisplayName displayName) with rejection "invalid_name";
   reject (size <? 1) || (MaxProcessFileSize <? size) with rejection "file_too_large";
   let ext := lowerExt displayName in
   reject existsb (sameText ext) rejectedExtensions with rejection "type_rejected";
   match byExt allowedTypes ext with
   | None => Err (rejection "type_rejected")
   | Some (mime, kind) =>
     reject negb (bool_decide (declaredMIME = mime)) with rejection "type_rejected";
     detectContent ext mime kind d
   end)%go.

End Decoders.

(** ** Video *)
Definition browserPlayable (container codec : string) : bool :=
  if bool_decide (container = "mp4") then member ["h264"; "av1"] codec
  else if bool_decide (container = "webm") then member ["vp8"; "vp9"; "av1"] codec
  else if bool_decide (container = "ogg") then member ["theora"] codec
  else false.

Definition normalizeContainer (value codec : string) : string :=
  let v := ToLower (bytes value) in
  if containsBytes v (bytes "mp4") || containsBytes v (bytes "mov,") then "mp4"
  else if containsBytes v (bytes "webm") && browserPlayable "webm" codec then "webm"
  else if containsBytes v (bytes "matroska") then "mkv"
  else if containsBytes v (bytes "ogg") then "ogg"
  else if containsBytes v (bytes "avi") then "avi"
  else fromBytes (fst (cutAt 44 v)).

(** ** Text for the assistant *)
Fixpoint replaceCRLF (b : list Z) : list Z :=
  match b with
  | 13 :: (10 :: rest) => 10 :: replaceCRLF rest
  | x :: rest => x :: replaceCRLF rest
  | [] => []
  end.
Definition replaceCR (b : list Z) : list Z := (fun x => if x =? 13 then 10 else x) <$> b.

Definition NormalizeAIText (body : list Z) : result ProcessingError (list Z) :=
  if (Processing.MaxAITextBytes <? Z.of_nat (length body)) || negb (Valid body) || existsb (Z.eqb 0) body
  then Err (rejection "text_extraction_failed")
  else Ok (replaceCR (replaceCRLF body)).

End Detect.
