(* ===== verification/Pipeline.v ===== *)
(** * The processing pipeline

    Models [internal/processing/pipeline.go], [scan.go], [pdf.go], [office.go],
    [video.go] and [text_extract.go]: a source file is fetched and verified,
    detected, scanned, converted or probed, and its preview and extracted text are
    stored.  The external programs are parameters: what they exit with and write for
    a given input.  The theorems at the end say what the pipeline hands on, and when an
    accepted upload is detected. *)

From S2P Require Import Prelude GoTime GoText GoStrings GoSha256 GoStrconv GoFloat Pg OpsModel AuditLog FilesModel FilesStore ProcessingStore UploadService Detect.
From stdpp Require Import base tactics list gmap strings numbers.
From Stdlib Require Import ZArith Lia SpecFloat.
Import Files Processing.

Open Scope Z_scope.

Module Pipeline.

Notation rejection := Detect.rejection.
Notation transient := Detect.transient.

(** ** External programs *)

(** The parts of [ffprobe]'s output that are used; [None] when it is not the expected
    JSON.  The duration is what [strconv.ParseFloat] makes of its text. *)
Record Stream := MkStream { CodecType : string; CodecName : string; StreamWidth : Z; StreamHeight : Z }.
Record ProbeOutput := MkProbe { FormatName : string; ProbeDuration : option float64; Streams : list Stream }.

(** A command that ran has an exit status; [None] when it could not be run, wrote too
    much or was cancelled. *)
Record Programs := MkPrograms {
  clamscan : list Z -> option Z;
  pdfinfo : list Z -> option Z;
  soffice : list Z -> option Z * Detect.Disk;
  ffprobe : list Z -> option (Z * option ProbeOutput);
  pdftotext : list Z -> option Z * option Detect.Disk
}.

Definition Scan (programs : Programs) (input : list Z) : option ProcessingError :=
  match clamscan programs input with
  | None => Some (transient "scanner_unavailable")
  | Some 0 => None
  | Some 1 => Some (rejection "malware")
  | Some _ => Some (transient "scanner_unavailable")
  end.

Definition ValidatePDFInfo (programs : Programs) (input : list Z) : option ProcessingError :=
  match pdfinfo programs input with
  | None => Some (transient "parser_unavailable")
  | Some 0 => None
  | Some _ => Some (rejection "malformed_pdf")
  end.

(** The converted document, when it looks like one. *)
Definition Convert (programs : Programs) (input : list Z) : result ProcessingError (list Z) :=
  match soffice programs input with
  | (Some 0, d) =>
      if negb (Detect.opens d) || negb (Detect.reads d) || negb (hasPrefix (Detect.data d) (bytes "%PDF-"))
         || bool_decide (is_Some (Detect.validatePDF d))
      then Err (transient "conversion_failed") else Ok (Detect.data d)
  | _ => Err (transient "conversion_failed")
  end.

(** [int64(math.Round(x))] of a finite, non-negative value. *)
Definition roundToZ (x : float64) : Z :=
  match x with
  | S754_finite _ m e =>
      if 0 <=? e then Z.pos m * 2 ^ e else (2 * Z.pos m + 2 ^ (- e)) / 2 ^ (1 - e)
  | _ => 0
  end.

Record VideoProbe := MkVideoProbe {
  Container : string; Codec : string; DurationMS : Z; Width : Z; Height : Z; ProbePlayable : bool
}.

Definition maxVideoDurationSeconds : Z := 12 * 60 * 60.

Definition badDuration (d : float64) : bool :=
  IsNaN d || IsInf d || flt d (of_Z 0) || flt (of_Z maxVideoDurationSeconds) d.

Definition Probe (programs : Programs) (input : list Z) : result ProcessingError VideoProbe :=
  match ffprobe programs input with
  | None => Err (transient "probe_failed")
  | Some (exit, output) =>
      if negb (exit =? 0) then Err (transient "probe_failed")
      else match output with
      | None => Err (rejection "video_rejected")
      | Some p =>
          match ProbeDuration p with
          | None => Err (rejection "video_rejected")
          | Some duration =>
              if badDuration duration then Err (rejection "video_rejected")
              else match List.filter (fun s => bool_decide (CodecType s = "video"%string)) (Streams p) with
              | [video] =>
                  if (StreamWidth video <? 1) || (7680 <? StreamWidth video)
                     || (StreamHeight video <? 1) || (4320 <? StreamHeight video)
                  then Err (rejection "video_rejected")
                  else
                    let container := Detect.normalizeContainer (FormatName p) (CodecName video) in
                    Ok (MkVideoProbe container (CodecName video) (roundToZ (fmul duration (of_Z 1000)))
                          (StreamWidth video) (StreamHeight video)
                          (Detect.browserPlayable container (CodecName video)))
              | _ => Err (rejection "video_rejected")
              end
          end
      end
  end.

Definition readAITextFile (d : Detect.Disk) : result ProcessingError (list Z) :=
  if negb (Detect.reopens d) || negb (Detect.reads d) then Err (transient "workspace_unavailable")
  else Detect.NormalizeAIText (Detect.atMost (MaxAITextBytes + 1) (Detect.data d)).

Definition ExtractPDFText (programs : Programs) (pdf : list Z) : result ProcessingError (list Z) :=
  match pdftotext programs pdf with
  | (Some 0, Some d) =>
      if negb (Detect.opens d) then Err (rejection "text_extraction_failed")
      else if negb (Detect.reads d) then Err (transient "workspace_unavailable")
      else match Detect.NormalizeAIText (Detect.atMost (MaxAITextBytes + 1) (Detect.data d)) with
           | Ok (x :: text) => Ok (x :: text)
           | _ => Err (rejection "text_extraction_failed")
           end
  | _ => Err (rejection "text_extraction_failed")
  end.

(** ** Definitions of the virus scanner *)
Record DirEntry := MkDirEntry { EntryName : string; IsDir : bool; ModTime : option Time }.

Definition definitionFile (e : DirEntry) : bool :=
  let name := ToLower (bytes (EntryName e)) in
  negb (IsDir e) && hasPrefix name (bytes "daily.") && (sameText (Ext name) ".cvd" || sameText (Ext name) ".cld").

Fixpoint newestOf (entries : list DirEntry) (newest : Time) : option Time :=
  match entries with
  | [] => Some newest
  | e :: rest =>
      if negb (definitionFile e) then newestOf rest newest
      else match ModTime e with
           | None => None
           | Some t => newestOf rest (if After t newest then t else newest)
           end
  end.

Definition MaxClamDefinitionAge : Z := 7 * 24 * hour.

Definition ClamDefinitionsFresh (entries : option (list DirEntry)) (maxAge : Z) (now : Time) : bool :=
  if (maxAge <=? 0) || IsZero now then false
  else match entries with
  | None => false
  | Some l =>
      match newestOf l zeroTime with
      | None => false
      | Some newest =>
          negb (IsZero newest) && negb (After newest (addDuration now (5 * minute))) && (Sub now newest <=? maxAge)
      end
  end.

(** ** Storing results *)
Section Process.
Context `{PgTime} `{UUIDText} {O P : Type} `{Objects.Store O} `{Objects.Store P}.

Notation Stores := (FilesDB * (O * P))%type.

Definition onStore {A} (m : DB FilesDB Processing.Error A) : DB Stores ProcessingError (result Processing.Error A) :=
  fun env '(n, (db, o)) => let '((n', db'), r) := m env (n, db) in ((n', (db', o)), Ok r).

Definition getOriginal (key : string) : DB Stores ProcessingError (result Objects.Error (Objects.Reader * Objects.ObjectInfo)) :=
  fun _ '(n, (db, (o, p))) => let '(o', r) := Objects.Get key o in ((n, (db, (o', p))), Ok r).

Definition onPreviews {A} (m : P -> P * A) : DB Stores ProcessingError A :=
  fun _ '(n, (db, (o, p))) => let '(p', a) := m p in ((n, (db, (o, p'))), Ok a).

Definition raise {A} (r : result ProcessingError A) : DB Stores ProcessingError A :=
  match r with Ok a => dret a | Err e => dfail e end.

Definition abandonArtifact (key : string) : DB Stores ProcessingError unit :=
  (if bool_decide (key = EmptyString) then dret tt
   else
     do marked <- onStore (MarkArtifactDeletePending key);
     match marked with
     | Err _ => dret tt
     | Ok _ =>
       do deleted <- onPreviews (Objects.Delete key);
       match deleted with
       | Ok _ | Err Objects.ErrNotFound => do _ <- onStore (ForgetArtifact key); dret tt
       | Err _ => dret tt
       end
     end)%db.

Definition previewExt (ext : list Z) (kind : string) : string :=
  match ext with
  | [] => or_zero EmptyString (byName [("pdf", ".pdf"); ("page", ".bin"); ("poster", ".bin"); ("ai_text", ".txt")]%string kind)
  | _ => fromBytes ext
  end.

Definition previewName (job : Job) (kind : string) (ext : list Z) (tracked : bool) : string :=
  let dir := ("previews/" +:+ uuidString (JobFileVersionID job) +:+ "/")%string in
  let file := (kind +:+ previewExt ext kind)%string in
  if tracked then (dir +:+ uuidString (ID job) +:+ "/" +:+ FormatInt (Attempts job) +:+ "/" +:+ file)%string
  else (dir +:+ file)%string.

(** [readable]: the file can be opened, measured and read twice. *)
Definition storePreview (job : Job) (content : list Z) (readable : bool) (ext : list Z) (kind contentType : string)
  (tracked : bool) : DB Stores ProcessingError PreviewResult :=
  let size := Z.of_nat (length content) in
  (fail if negb readable || (size <? 1) || (Detect.MaxProcessFileSize <? size) with transient "preview_unavailable";
   let sum := hexSum256 content in
   let key := previewName job kind ext tracked in
   do reserved <- (if tracked
     then onStore (ReserveArtifact (MkArtifact (JobFileVersionID job) (ID job) (Attempts job) kind key contentType size sum))
     else dret (Ok tt));
   match reserved with
   | Err _ => dfail (transient "database_unavailable")
   | Ok _ =>
     do put <- onPreviews (Objects.Put key content size (Objects.MkMeta contentType sum));
     let accepted :=
       match put with
       | Ok info => (Objects.InfoSize info =? 0) || (Objects.InfoSize info =? size)
       | Err _ => false
       end in
     if negb accepted then
       do _ <- (if tracked then abandonArtifact key else dret tt);
       dfail (transient "storage_unavailable")
     else
       do marked <- (if tracked then onStore (MarkArtifactStored key) else dret (Ok tt));
       match marked with
       | Err _ =>
         do _ <- abandonArtifact key;
         dfail (transient "database_unavailable")
       | Ok _ => dret (MkPreview kind key contentType size sum)
       end
   end)%db.

(** ** A job *)

(** What the job finds around it: its directory, the file it writes, the programs and
    decoders, the scanner's definitions ([None] when no directory is configured). *)
Record Workspace := MkWorkspace {
  directory : bool;
  disk : list Z -> Detect.Disk;
  bodyCloses : bool;
  fileWrites : bool;
  previewReadable : bool;
  textWritable : bool;
  programs : Programs;
  definitions : option (option (list DirEntry));
  now_ : Time;
  DecodeConfig : list Z -> option (Z * Z);
  DecodeAllGIF : list Z -> option nat;
  OpenZip : list Z -> option (list Detect.ZipFile)
}.

(** The source file, written to disk while it is hashed. *)
Definition fetch (w : Workspace) (source : SourceFile) : DB Stores ProcessingError (list Z) :=
  (do got <- getOriginal (SourceKey source);
   match got with
   | Err _ => dfail (transient "storage_unavailable")
   | Ok (body, info) =>
     let read := Objects.limitReader (SourceSize source + 1) body in
     fail if Objects.broken read || negb (bodyCloses w) || negb (fileWrites w) with transient "storage_unavailable";
     let content := Objects.content read in
     fail if negb (Z.of_nat (length content) =? SourceSize source)
             || ((0 <? Objects.InfoSize info) && negb (Objects.InfoSize info =? SourceSize source))
             || negb (bool_decide (hexSum256 content = SourceSHA256 source)) with rejection "object_mismatch";
     dret content
   end)%db.

(** Definitions that are fresh enough, a clean scan, and a parser that accepts PDF. *)
Definition screen (w : Workspace) (kind : Detect.Kind) (input : list Z) : result ProcessingError unit :=
  (reject match definitions w with
          | Some entries => negb (ClamDefinitionsFresh entries MaxClamDefinitionAge (now_ w))
          | None => false
          end with transient "scanner_definitions_stale";
   match Scan (programs w) input with
   | Some e => Err e
   | None =>
     match (if bool_decide (kind = Detect.KindDocument) then ValidatePDFInfo (programs w) input else None) with
     | Some e => Err e
     | None => Ok tt
     end
   end)%go.

Definition resultOf (mime : string) : Result := MkResult mime "clean" false "" "" None None None None None.
Definition videoResult (mime : string) (v : VideoProbe) : Result :=
  MkResult mime "clean" (ProbePlayable v) (Container v) (Codec v) (Some (DurationMS v)) (Some (Width v)) (Some (Height v))
    None None.

(** The preview to store: its bytes, extension, kind and type. *)
Record PreviewPlan := MkPlan { PlanBytes : list Z; PlanExt : list Z; PlanKind : string; PlanType : string }.

Definition plan (w : Workspace) (d : Detect.Detection) (input : list Z) :
  result ProcessingError (Result * option PreviewPlan) :=
  let mime := Detect.MIME d in
  let own kind := Some (MkPlan input (Detect.Extension d) kind mime) in
  match Detect.DetectedKind d with
  | Detect.KindOffice =>
      match Convert (programs w) input with
      | Ok pdf => Ok (resultOf mime, Some (MkPlan pdf (bytes ".pdf") "pdf" "application/pdf"))
      | Err e => Err e
      end
  | Detect.KindDocument => Ok (resultOf mime, own "pdf"%string)
  | Detect.KindImage | Detect.KindText => Ok (resultOf mime, own "page"%string)
  | Detect.KindVideo =>
      match Probe (programs w) input with
      | Ok v => Ok (videoResult mime v, if ProbePlayable v then own "poster"%string else None)
      | Err e => Err e
      end
  end.

(** The text of an attachment for the assistant; [None] for an image. *)
Definition aiText (w : Workspace) (d : Detect.Detection) (p : option PreviewPlan) (input : list Z) :
  result ProcessingError (option (list Z)) :=
  let nonEmpty r :=
    match r with
    | Err e => Err e
    | Ok [] => Err (rejection "text_extraction_failed")
    | Ok text => Ok (Some text)
    end in
  match Detect.DetectedKind d with
  | Detect.KindImage => Ok None
  | Detect.KindText => nonEmpty (readAITextFile (disk w input))
  | Detect.KindDocument => nonEmpty (ExtractPDFText (programs w) input)
  | Detect.KindOffice =>
      nonEmpty (ExtractPDFText (programs w) (match p with Some q => PlanBytes q | None => [] end))
  | Detect.KindVideo => Err (rejection "type_rejected")
  end.

Definition withAIText (a : option PreviewResult) (r : Result) : Result :=
  MkResult (DetectedMIME r) (ScanResult r) (BrowserPlayable r) (VideoContainer r) (VideoCodec r) (VideoDurationMS r)
    (VideoWidth r) (VideoHeight r) (Preview r) a.
Definition withPreview (p : option PreviewResult) (r : Result) : Result :=
  MkResult (DetectedMIME r) (ScanResult r) (BrowserPlayable r) (VideoContainer r) (VideoCodec r) (VideoDurationMS r)
    (VideoWidth r) (VideoHeight r) p (AIText r).

Definition storeAIText (w : Workspace) (job : Job) (purpose : UploadPurpose) (d : Detect.Detection)
  (p : option PreviewPlan) (input : list Z) : DB Stores ProcessingError (option PreviewResult) :=
  (if negb (bool_decide (purpose = UploadPurposeAI)) then dret None
   else
     do text <- raise (aiText w d p input);
     match text with
     | None => dret None
     | Some text =>
       fail if negb (textWritable w) with transient "workspace_unavailable";
       do stored <- storePreview job text (previewReadable w) (bytes ".txt") "ai_text" "text/plain; charset=utf-8" true;
       dret (Some stored)
     end)%db.

(** A failing preview takes the stored text with it. *)
Definition storeMainPreview (w : Workspace) (job : Job) (tracked : bool) (text : option PreviewResult) (p : PreviewPlan) :
  DB Stores ProcessingError PreviewResult :=
  fun env st =>
    match storePreview job (PlanBytes p) (previewReadable w) (PlanExt p) (PlanKind p) (PlanType p) tracked env st with
    | (st', Ok r) => (st', Ok r)
    | (st', Err e) =>
        match text with
        | Some t => (do _ <- abandonArtifact (PreviewKey t); dfail e)%db env st'
        | None => (st', Err e)
        end
    end.

Definition storeResults (w : Workspace) (job : Job) (purpose : UploadPurpose) (d : Detect.Detection)
  (r : Result) (p : option PreviewPlan) (input : list Z) : DB Stores ProcessingError Result :=
  (do text <- storeAIText w job purpose d p input;
   let r' := withAIText text r in
   match p with
   | None => dret r'
   | Some q =>
     do preview <- storeMainPreview w job (bool_decide (purpose = UploadPurposeAI)) text q;
     dret (withPreview (Some preview) r')
   end)%db.

Definition Process (w : Workspace) (job : Job) : DB Stores ProcessingError Result :=
  (fail if negb (bool_decide (JobKind job = KindProcessFile)) || (JobFileVersionID job =? NilUUID)%N
     with transient "pipeline_unavailable";
   do loaded <- onStore (LoadSource (JobFileVersionID job));
   match loaded with
   | Err _ => dfail (transient "database_unavailable")
   | Ok source =>
     fail if negb (VersionID source =? JobFileVersionID job)%N with transient "database_unavailable";
     fail if (SourceSize source <? 1) || (Detect.MaxProcessFileSize <? SourceSize source)
             || negb (len (SourceSHA256 source) =? 64) with rejection "object_mismatch";
     fail if bool_decide (SourcePurpose source = UploadPurposeAI)
             && ((ID job =? NilUUID)%N || (Attempts job <? 1) || (MaxAttempts <? Attempts job))
       with transient "pipeline_unavailable";
     fail if negb (directory w) with transient "workspace_unavailable";
     do input <- fetch w source;
     do detected <- raise (Detect.DetectFile (DecodeConfig w) (DecodeAllGIF w) (OpenZip w)
       (SourceName source) (SourceMIME source) (SourceSize source) (disk w input));
     do _ <- raise (screen w (Detect.DetectedKind detected) input);
     do planned <- raise (plan w detected input);
     let '(r, p) := planned in
     storeResults w job (SourcePurpose source) detected r p input
   end)%db.

End Process.
End Pipeline.

(** * Upload, detection, pipeline and completion agree

    The layers that check a file repeat each other's rules.  These theorems relate
    them: what an upload policy accepts is what detection expects, and what the
    pipeline returns for such a file is what [Complete] accepts. *)

Import Files.

(** ** Digests are 64 lower-case hexadecimal digits *)
Lemma length_round s kw : length (round s kw) = length s.
Proof. unfold round. repeat case_match; done. Qed.

Lemma length_rounds l s : length (fold_left round l s) = length s.
Proof. revert s. induction l as [|x l IH]; intros s; [done|]. simpl. by rewrite IH, length_round. Qed.

Lemma length_compress s b : length (compress s b) = length s.
Proof. unfold compress. rewrite length_zip_with, length_rounds. lia. Qed.

Lemma length_digest bs s : length (fold_left compress bs s) = length s.
Proof. revert s. induction bs as [|x bs IH]; intros s; [done|]. simpl. by rewrite IH, length_compress. Qed.

Lemma bigEndian_bytes n x : length (bigEndian n x) = n /\ Forall (fun b => 0 <= b < 256) (bigEndian n x).
Proof.
  induction n as [|n [IHl IHb]]; [by split|]. simpl. rewrite IHl. split; [done|].
  constructor; [apply Z.mod_pos_bound; lia|done].
Qed.

Lemma Sum256_bytes m : length (Sum256 m) = 32%nat /\ Forall (fun b => 0 <= b < 256) (Sum256 m).
Proof.
  unfold Sum256. set (s := fold_left compress _ _).
  assert (Hs : length s = 8%nat) by (unfold s; by rewrite length_digest).
  assert (Hgen : length (s ≫= bigEndian 4) = (length s * 4)%nat /\ Forall (fun b => 0 <= b < 256) (s ≫= bigEndian 4)).
  { clear Hs. induction s as [|x s [IHl IHb]]; [by split|]. rewrite bind_cons, length_app, IHl.
    destruct (bigEndian_bytes 4 x) as [Hl Hb]. rewrite Hl. split; [done|]. by apply Forall_app. }
  by rewrite Hs in Hgen.
Qed.

Lemma hexDigit_lower d : 0 <= d < 16 -> isLowerHex (byteZ (hexDigit d)) = true.
Proof.
  intros Hd. assert (E : In d [0;1;2;3;4;5;6;7;8;9;10;11;12;13;14;15]) by (simpl; lia).
  repeat (destruct E as [<-|E]; [vm_compute; reflexivity|]). destruct E.
Qed.

Lemma EncodeToString_hex b :
  Forall (fun x => 0 <= x < 256) b ->
  len (EncodeToString b) = 2 * Z.of_nat (length b) /\ forallb isLowerHex (bytes (EncodeToString b)) = true.
Proof.
  induction 1 as [|x b Hx Hb [IHl IHh]]; [done|]. cbn [EncodeToString length bytes forallb]. unfold len in *.
  cbn [String.length]. split; [lia|]. rewrite IHh, !hexDigit_lower; [done| |].
  - apply Z.mod_pos_bound. lia.
  - split; [apply Z.div_pos; lia|apply Z.div_lt_upper_bound; lia].
Qed.

Lemma hexSum256_valid m : validHash (hexSum256 m) = true.
Proof.
  destruct (Sum256_bytes m) as [Hl Hb]. destruct (EncodeToString_hex _ Hb) as [El Eh].
  unfold validHash, matchClass, hexSum256. rewrite El, Hl, Eh. done.
Qed.

Lemma validHash_nonempty s : validHash s = true -> s <> EmptyString.
Proof. by intros Hv ->. Qed.

(** ** Upload policies and detection *)
Lemma sameText_eq ext s : sameText ext s = true -> ext = bytes s.
Proof. apply bool_decide_eq_true_1. Qed.

Lemma byExt_Some {A} (m : list (string * A)) ext a :
  byExt m ext = Some a -> exists k, (k, a) ∈ m /\ ext = bytes k.
Proof.
  unfold byExt. destruct (List.find _ m) as [[k b]|] eqn:E; [|done]. intros [= ->].
  apply List.find_some in E as [Hin Hs]. exists k. split; [by apply list_elem_of_In|by apply sameText_eq].
Qed.

(** The rule of detection for each extension of an upload table. *)
Definition ruleAgrees (k : string) (mime : string) : bool :=
  match byExt Detect.allowedTypes (bytes k) with
  | Some (m, _) => bool_decide (m = mime) && negb (existsb (sameText (bytes k)) Detect.rejectedExtensions)
  | None => false
  end.

Definition limitedRule (k : string) (r : string * Z) : bool :=
  ruleAgrees k (fst r) && (snd r <=? MaxUploadSize).

Lemma teaching_rules : forallb (fun '(k, ms) => forallb (ruleAgrees k) ms) allowedUploadTypes = true.
Proof. vm_compute. reflexivity. Qed.
Lemma qa_rules : forallb (fun '(k, ms) => forallb (limitedRule k) ms) qaUploadLimits = true.
Proof. vm_compute. reflexivity. Qed.
Lemma ai_rules : forallb (fun '(k, ms) => forallb (limitedRule k) ms) aiUploadLimits = true.
Proof. vm_compute. reflexivity. Qed.

Lemma ruleAgrees_spec k mime : ruleAgrees k mime = true ->
  exists kind, byExt Detect.allowedTypes (bytes k) = Some (mime, kind) /\
    existsb (sameText (bytes k)) Detect.rejectedExtensions = false.
Proof.
  unfold ruleAgrees. destruct (byExt _ _) as [[m kind]|]; [|done]. intros Hr. bool_simpl. subst m. by exists kind.
Qed.

Lemma byName_Some {A} (m : list (string * A)) name a : byName m name = Some a -> (name, a) ∈ m.
Proof.
  unfold byName. destruct (List.find _ m) as [[k b]|] eqn:E; [|done]. intros [= ->].
  apply List.find_some in E as [Hin Hs]. apply bool_decide_eq_true_1 in Hs as ->. by apply list_elem_of_In.
Qed.

(** The limits of a policy are entries of its table. *)
Lemma limited_rule i limits :
  forallb (fun '(k, ms) => forallb (limitedRule k) ms) limits = true ->
  validateLimitedUpload i limits = Ok tt ->
  exists k, lowerExt (InDisplayName i) = bytes k /\ ruleAgrees k (InDeclaredMIME i) = true /\
    1 <= InExpectedSize i <= MaxUploadSize /\ Files.validDisplayName (InDisplayName i) = true /\
    exists ms limit, (k, ms) ∈ limits /\ (InDeclaredMIME i, limit) ∈ ms.
Proof.
  intros Hall. unfold validateLimitedUpload. destruct (_ || _ || _) eqn:Hg; [done|].
  destruct (byName _ _) as [limit|] eqn:En; [|done]. destruct (limit <? _) eqn:Hl; [done|]. intros _. bool_simpl.
  destruct (byExt limits _) as [ms|] eqn:Ee; [|done]. apply byExt_Some in Ee as (k & Hin & Ek).
  apply byName_Some in En. cbn [or_zero] in En. exists k.
  assert (Hr : limitedRule k (InDeclaredMIME i, limit) = true).
  { rewrite forallb_forall in Hall. pose proof (proj1 (list_elem_of_In _ _) Hin) as Hin'. specialize (Hall _ Hin').
    cbn in Hall. rewrite forallb_forall in Hall. apply Hall. by apply list_elem_of_In. }
  unfold limitedRule in Hr. cbn [fst snd] in Hr. bool_simpl. split_and!; try done; try lia. by exists ms, limit.
Qed.

Lemma policy_rule purpose i :
  policyValidate purpose i = Ok tt ->
  exists k, lowerExt (InDisplayName i) = bytes k /\ ruleAgrees k (InDeclaredMIME i) = true /\
    1 <= InExpectedSize i <= MaxUploadSize /\ Files.validDisplayName (InDisplayName i) = true.
Proof.
  destruct purpose; cbn [policyValidate].
  - destruct (validCreateInput i) eqn:Hv; [|done]. intros _. unfold validCreateInput in Hv.
    destruct (_ || _) eqn:Hg; [done|]. bool_simpl.
    destruct (byExt allowedUploadTypes _) as [ms|] eqn:Ee; [|done]. cbn [or_zero] in Hv.
    apply byExt_Some in Ee as (k & Hin & Ek). exists k. split_and!; try done; try lia.
    pose proof teaching_rules as Hall. rewrite forallb_forall in Hall. apply list_elem_of_In in Hin.
    specialize (Hall _ Hin). cbn in Hall. rewrite forallb_forall in Hall.
    apply existsb_exists in Hv as (m & Hm & Em). bool_simpl. subst m. exact (Hall _ Hm).
  - intros Hv. apply (limited_rule _ _ qa_rules) in Hv as (k & ? & ? & ? & ? & _). eauto.
  - intros Hv. apply (limited_rule _ _ ai_rules) in Hv as (k & ? & ? & ? & ? & _). eauto.
Qed.

(** A name without a separator is its own base. *)
Lemma afterSlash_none b acc : ~ In 47 b -> afterSlash b acc = acc.
Proof.
  revert acc. induction b as [|x b IH]; intros acc Hno; [done|]. cbn [afterSlash].
  destruct x as [|p|p]; try (apply IH; intros Hin; apply Hno; by right).
  repeat (destruct p as [p|p|]; try (apply IH; intros Hin; apply Hno; by right)).
  exfalso. apply Hno. by left.
Qed.

Lemma dropSlashes_none b : ~ In 47 b -> dropSlashes b = b.
Proof.
  destruct b as [|x b]; [done|]. intros Hno. cbn [dropSlashes]. destruct x as [|p|p]; try done.
  repeat (destruct p as [p|p|]; try done). exfalso. apply Hno. by left.
Qed.

Lemma Base_plain b : b <> [] -> ~ In 47 b -> Base b = b.
Proof.
  intros Hb Hno. unfold Base. rewrite dropSlashes_none by (by rewrite <- in_rev). rewrite rev_involutive.
  destruct b as [|x b]; [done|]. by apply afterSlash_none.
Qed.

Lemma displayName_detected name :
  Files.validDisplayName name = true -> Detect.validDisplayName name = (len name <=? 255).
Proof.
  intros Hv. unfold Files.validDisplayName in Hv. bool_simpl.
  match goal with H : existsb _ (bytes name) = false |- _ => rename H into Hsep end.
  unfold Detect.validDisplayName. rewrite Hsep.
  match goal with H : trimmed name = true |- _ => rewrite H end.
  rewrite (bool_decide_false (name = EmptyString)) by done. rewrite bool_decide_true; [by rewrite !andb_true_r|].
  apply Base_plain; [by destruct name|]. intros Hin. rewrite <- not_true_iff_false, existsb_exists in Hsep.
  apply Hsep. exists 47. by split.
Qed.

(** C40. What an upload policy accepts, detection takes on, with one exception.  For
    every input that the teaching, question or assistant policy validates, the
    checks of [DetectFile] on name, size, extension and declared type all pass, so
    that its answer depends on the content alone, provided the display name has at
    most 255 bytes.  The policy counts 255 characters: a name with more bytes is
    accepted, uploaded, and then rejected as [invalid_name], whatever the content. *)
Theorem accepted_upload_detected config gif zip purpose i d :
  policyValidate purpose i = Ok tt ->
  exists kind, byExt Detect.allowedTypes (lowerExt (InDisplayName i)) = Some (InDeclaredMIME i, kind) /\
    Detect.DetectFile config gif zip (InDisplayName i) (InDeclaredMIME i) (InExpectedSize i) d =
    if len (InDisplayName i) <=? 255
    then Detect.detectContent config gif zip (lowerExt (InDisplayName i)) (InDeclaredMIME i) kind d
    else Err (Processing.MkProcessingError "invalid_name" true true).
Proof.
  intros Hv. apply policy_rule in Hv as (k & Ek & Hr & Hs & Hn). apply ruleAgrees_spec in Hr as (kind & Hb & Hx).
  exists kind. rewrite Ek. split; [done|]. unfold Detect.DetectFile. rewrite (displayName_detected _ Hn).
  destruct (len (InDisplayName i) <=? 255); [|done]. cbn [negb].
  unfold Detect.MaxProcessFileSize, MaxUploadSize in *. rewrite (proj2 (Z.ltb_ge _ 1)) by lia.
  rewrite (proj2 (Z.ltb_ge _ (InExpectedSize i))) by lia. cbn [orb]. rewrite Ek, Hx, Hb, bool_decide_true by done. done.
Qed.

(** A text is judged by its first 512 bytes alone: when a character crosses that
    boundary the header is not valid UTF-8, and the file is rejected. *)
Lemma split_character_rejected config gif zip size d tail :
  Detect.opens d = true -> Detect.reads d = true -> 1 <= size <= Detect.MaxProcessFileSize ->
  Detect.data d = repeat 97 511 ++ [195; 169] ++ tail ->
  Detect.DetectFile config gif zip "notes.txt" "text/plain" size d = Err (Detect.rejection "type_rejected").
Proof.
  intros Ho Hrd Hs Ed. unfold Detect.DetectFile. rewrite (proj2 (Z.ltb_ge _ 1)), (proj2 (Z.ltb_ge _ size)) by lia.
  unfold Detect.detectContent. rewrite Ho, Hrd.
  assert (Hm : Detect.magicMatches (lowerExt "notes.txt") (firstn 512 (Detect.data d)) = false);
    [rewrite Ed; vm_compute; reflexivity|].
  set (ext := lowerExt "notes.txt") in *. vm_compute in ext. subst ext.
  assert (Hd : bool_decide (Detect.data d = []) = false) by (rewrite Ed; reflexivity).
  simpl. rewrite Hd. cbn [orb]. by rewrite Hm.
Qed.
