(* ===== verification/Worker.v ===== *)
(** * The processing worker

    Models [internal/processing/worker.go] over an interface to the queue, and the
    output buffers of [runner.go].  The goroutine that processes a job, the ticker
    and the context show as the sequence of events the loop receives; what other
    transactions do to the tables between two events is an event of its own. *)

From S2P Require Import Prelude GoTime GoText GoStrings Pg OpsModel FilesModel FilesStore ProcessingStore.
From stdpp Require Import base tactics list gmap strings.
From Stdlib Require Import ZArith Lia.
Import Files.

Open Scope Z_scope.

Module Worker.
Import Processing.

Definition DefaultIdleWait : Z := 2 * second.
Definition DefaultLeaseDuration : Z := 30 * second.
Definition DefaultHeartbeatInterval : Z := 10 * second.
Definition DefaultProcessDeadline : Z := 15 * minute.
Definition retryDelays : list Z := [minute; 5 * minute; 30 * minute].

(** [Deadlines] answers 0 for a kind it does not have. *)
Record Worker := MkWorker {
  configured : bool;          (* [Store] and [Processor] are set *)
  Owner : string;
  IdleWait : Z;
  LeaseDuration : Z;
  HeartbeatInterval : Z;
  Deadlines : string -> Z
}.

Definition validate (w : Worker) : bool := configured w && negb (bool_decide (Owner w = EmptyString)).

Definition idleWait (w : Worker) : Z :=
  if (0 <? IdleWait w) && (IdleWait w <=? DefaultIdleWait) then IdleWait w else DefaultIdleWait.
Definition leaseDuration (w : Worker) : Z := if 0 <? LeaseDuration w then LeaseDuration w else DefaultLeaseDuration.
Definition heartbeatInterval (w : Worker) : Z :=
  if 0 <? HeartbeatInterval w then HeartbeatInterval w else DefaultHeartbeatInterval.
Definition deadlineFor (w : Worker) (job : Job) : Z :=
  if 0 <? Deadlines w (JobKind job) then Deadlines w (JobKind job) else DefaultProcessDeadline.

(** What a processor reports: a [*ProcessingError] somewhere in the chain of the
    error, or any other error. *)
Notation Outcome := (result (option ProcessingError) Result).

Definition classifyFailure (err : option ProcessingError) (attempts : Z) (now : Time) : Failure :=
  let last := MaxAttempts <=? attempts in
  let '(category, permanent, rejected) :=
    match err with
    | Some e => (ErrCategory e, ErrPermanent e || last, ErrRejected e)
    | None => ("processing_error"%string, last, false)
    end in
  let retryAt :=
    if negb permanent && (0 <? attempts) && (attempts <=? Z.of_nat (length retryDelays))
    then addDuration now (nth (Z.to_nat (attempts - 1)) retryDelays 0) else zeroTime in
  MkFailure category permanent rejected retryAt.

(** ** The queue as the worker sees it *)
Class Queue (S : Type) := {
  queueLeaseNext : string -> Time -> Z -> DB S Error Job;
  queueHeartbeat : UUID -> string -> Time -> DB S Error unit;
  queueComplete : Job -> Result -> DB S Error unit;
  queueFail : Job -> Failure -> DB S Error unit
}.

Inductive RunError := InvalidWorker | NoJob | LeaseLost | RunText (text : string).

(** The events of the loop: [cancelled] is whether the context has ended when the
    loop gets to look at it. *)
Inductive Event (S : Type) :=
| CtxDone
| Tick (cancelled : bool)
| Finished (cancelled : bool) (outcome : Outcome)
| Others (change : S -> S).
Arguments CtxDone {S}.
Arguments Tick {S} cancelled.
Arguments Finished {S} cancelled outcome.
Arguments Others {S} change.

(** What [RunOne] returns; [None] while it waits for its next event. *)
Notation Returned := (option (bool * option RunError)).
Notation Silent := Empty_set.

Section Loop.
Context {S : Type} `{Queue S}.

Definition returns (worked : bool) (err : option RunError) : DB S Silent Returned := dret (Some (worked, err)).

Definition settleComplete (w : Worker) (job : Job) (r : Result) : DB S Silent Returned :=
  (do done <- attempt (queueComplete job r);
   match done with
   | Ok _ => returns true None
   | Err ErrLeaseLost => returns true (Some LeaseLost)
   | Err _ => returns true (Some (RunText "complete processing job"))
   end)%db.

Definition settleFailure (w : Worker) (job : Job) (err : option ProcessingError) : DB S Silent Returned :=
  (do now <- wallNow;
   do recorded <- attempt (queueFail job (classifyFailure err (Attempts job) (UTC now)));
   match recorded with
   | Ok _ => returns true None
   | Err ErrLeaseLost => returns true (Some LeaseLost)
   | Err _ => returns true (Some (RunText "fail processing job"))
   end)%db.

Fixpoint watch (w : Worker) (job : Job) (events : list (Event S)) : DB S Silent Returned :=
  match events with
  | [] => dret None
  | CtxDone :: _ => returns true None
  | Tick cancelled :: rest =>
      if cancelled then returns true None
      else
        (do now <- wallNow;
         do beat <- attempt (queueHeartbeat (ID job) (Owner w) (addDuration (UTC now) (leaseDuration w)));
         match beat with
         | Ok _ => watch w job rest
         | Err _ => returns true (Some LeaseLost)
         end)%db
  | Finished cancelled outcome :: _ =>
      if cancelled then returns true None
      else match outcome with
           | Ok r => settleComplete w job r
           | Err e => settleFailure w job e
           end
  | Others change :: rest =>
      (do s <- dget;
       do _ <- dput (change s);
       watch w job rest)%db
  end.

(** [gate]: the answer of the claim gate, when there is one; [cancelled]: whether the
    context has ended by the time the lease fails. *)
Definition RunOne (w : Worker) (gate : option (option bool)) (cancelled : bool) (events : list (Event S)) :
  DB S Silent Returned :=
  if negb (validate w) then returns false (Some InvalidWorker)
  else match gate with
  | Some None | Some (Some false) => returns false None
  | _ =>
    (do now <- wallNow;
     do leased <- attempt (queueLeaseNext (Owner w) (UTC now) (leaseDuration w));
     match leased with
     | Err ErrNoJob => returns false (Some NoJob)
     | Err _ => if cancelled then returns false None else returns false (Some (RunText "lease processing job"))
     | Ok job => watch w job events
     end)%db
  end.

(** A round of [Run]: what [RunOne] meets, and whether the context ends while the
    worker waits for more work. *)
Record Round := MkRound { Gate : option (option bool); Cancelled : bool; Events : list (Event S); Stops : bool }.

Fixpoint Run (w : Worker) (rounds : list Round) : DB S Silent (option (option RunError)) :=
  if negb (validate w) then dret (Some (Some InvalidWorker))
  else match rounds with
  | [] => dret None
  | r :: rest =>
    (do result <- RunOne w (Gate r) (Cancelled r) (Events r);
     match result with
     | None => dret None
     | Some (_, Some InvalidWorker) => dret (Some (Some InvalidWorker))
     | Some (_, Some (RunText text)) => dret (Some (Some (RunText text)))
     | Some (worked, _) => if worked then Run w rest else if Stops r then dret (Some None) else Run w rest
     end)%db
  end.

End Loop.

(** ** The PostgreSQL queue *)
Section Postgres.
Context `{PgTime}.

#[local] Instance pgQueue (lock : LockOutcome) (locked : UUID -> bool) : Queue FilesDB := {|
  queueLeaseNext := LeaseNext lock locked;
  queueHeartbeat := Heartbeat;
  queueComplete := Complete;
  queueFail := Fail
|}.

End Postgres.

(** ** Bounded output *)
Record boundedBuffer := MkBuffer { buffer : list Z; limit : Z; exceeded : bool }.

Definition Write (w : boundedBuffer) (p : list Z) : boundedBuffer * Z :=
  let remaining := limit w - Z.of_nat (length (buffer w)) in
  let n := Z.of_nat (length p) in
  if remaining <=? 0 then (MkBuffer (buffer w) (limit w) true, n)
  else if remaining <? n then (MkBuffer (buffer w ++ firstn (Z.to_nat remaining) p) (limit w) true, n)
  else (MkBuffer (buffer w ++ p) (limit w) (exceeded w), n).

(** How a command ends: with an exit status, or some other error. *)
Inductive Exit := Exited (code : Z) | OtherError.
Inductive CommandError := ErrCommandOutputLimit | ErrCommandFailed | ErrContext.

(** [Run] once the command is over: what it wrote, how it ended, and whether the
    context has. *)
Definition runResult (out err : boundedBuffer) (ended : Exit) (cancelled : bool) :
  list Z * list Z * Z * option CommandError :=
  let code := match ended with Exited c => if c =? 0 then -1 else c | OtherError => -1 end in
  if exceeded out || exceeded err then (buffer out, buffer err, code, Some ErrCommandOutputLimit)
  else if cancelled then (buffer out, buffer err, code, Some ErrContext)
  else match ended with
       | Exited c => (buffer out, buffer err, c, None)
       | OtherError => (buffer out, buffer err, -1, Some ErrCommandFailed)
       end.

Definition RunCommand (executable : string) (stdoutLimit stderrLimit : Z) (out err : list (list Z)) (ended : Exit)
  (cancelled : bool) : list Z * list Z * Z * option CommandError :=
  if bool_decide (executable = EmptyString) || (stdoutLimit <? 1) || (stderrLimit <? 1)
  then ([], [], -1, Some ErrCommandFailed)
  else
    runResult (fold_left (fun w p => fst (Write w p)) out (MkBuffer [] stdoutLimit false))
      (fold_left (fun w p => fst (Write w p)) err (MkBuffer [] stderrLimit false)) ended cancelled.

End Worker.
