(* ===== verification/WorkerTheorems.v ===== *)
(** * What the worker does with the outcomes of the pipeline

    The pipeline reports failures by category and results by value; the queue accepts
    only categories of a stable form and results of the right shape.  These theorems
    show that the two fit: no outcome of the pipeline is refused by the queue for its
    form, and each is recorded as it should be. *)

From S2P Require Import Prelude GoTime GoText GoStrings GoSha256 GoStrconv Pg OpsModel AuditLog FilesModel FilesStore ProcessingStore UploadService Detect Pipeline Worker.
From stdpp Require Import base tactics list numbers gmap strings.
From Stdlib Require Import ZArith Lia.
Import Files Processing Pipeline.

Open Scope Z_scope.

(** ** Every category of a failure is stable *)
Definition stableError (e : ProcessingError) : Prop := stableCategory (ErrCategory e) = true.
Definition stableFailure {A} (r : result ProcessingError A) : Prop := forall e, r = Err e -> stableError e.
Definition stableOption (o : option ProcessingError) : Prop := forall e, o = Some e -> stableError e.
Notation failsStably := (fails stableError).

Create HintDb stable discriminated.

(** All the branches of a function of the pipeline; its errors are literals. *)
Ltac stable_cases := repeat case_match; intros; simplify_eq; try done; eauto with stable.

Lemma entries_stable want files expanded a b : stableOption (Detect.checkEntries want files expanded a b).
Proof.
  revert expanded a b. induction files as [|f files IH]; intros expanded a b e; cbn [Detect.checkEntries]; [stable_cases|].
  unfold Detect.rejectExternalOfficeRelationships. stable_cases; by eapply IH.
Qed.

Lemma office_stable zip ext d : stableOption (Detect.validateOffice zip ext d).
Proof. intros e. unfold Detect.validateOffice. stable_cases. by eapply entries_stable. Qed.

Lemma image_stable config gif ext d : stableOption (Detect.validateImage config gif ext d).
Proof. intros e. unfold Detect.validateImage. stable_cases. Qed.

Lemma pdf_stable d : stableOption (Detect.validatePDF d).
Proof. intros e. unfold Detect.validatePDF. stable_cases. Qed.

#[export] Hint Resolve office_stable image_stable pdf_stable : stable.

Lemma detect_stable config gif zip name mime size d : stableFailure (Detect.DetectFile config gif zip name mime size d).
Proof.
  intros e. unfold Detect.DetectFile, Detect.detectContent. stable_cases;
    match goal with H : Detect.validateOffice _ _ _ = Some ?e |- _ => by eapply office_stable
    | H : Detect.validateImage _ _ _ _ = Some ?e |- _ => by eapply image_stable
    | H : Detect.validatePDF _ = Some ?e |- _ => by eapply pdf_stable end.
Qed.

Lemma screen_stable w kind input : stableFailure (screen w kind input).
Proof. intros e. unfold screen, Scan, ValidatePDFInfo. stable_cases. Qed.

Lemma plan_stable w d input : stableFailure (plan w d input).
Proof. intros e. unfold plan, Convert, Probe. stable_cases. Qed.

Lemma aiText_stable w d p input : stableFailure (aiText w d p input).
Proof. intros e. unfold aiText, readAITextFile, ExtractPDFText, Detect.NormalizeAIText. stable_cases. Qed.

#[export] Hint Resolve detect_stable screen_stable plan_stable aiText_stable : go.

Section Stable.
Context `{PgTime} `{UUIDText} {O P : Type} `{Objects.Store O} `{Objects.Store P}.

Lemma raise_stable {A} (r : result ProcessingError A) : stableFailure r -> failsStably (@raise O P A r).
Proof.
  intros Hr env st st' e. destruct r as [a|e']; cbn; [done|]. unfold dfail. intros [= <- <-]. by apply Hr.
Qed.

Lemma onStore_stable {A} (m : DB FilesDB Processing.Error A) : failsStably (@onStore O P A m).
Proof. intros env [n [db o]] st' e. unfold onStore. by destruct (m env (n, db)) as [[]]. Qed.

Lemma onPreviews_stable {A} (m : P -> P * A) : failsStably (@onPreviews O P A m).
Proof. intros env [n [db [o p]]] st' e. unfold onPreviews. by destruct (m p). Qed.

Lemma getOriginal_stable key : failsStably (getOriginal (O := O) (P := P) key).
Proof. intros env [n [db [o p]]] st' e. unfold getOriginal. by destruct (Objects.Get key o). Qed.

#[local] Hint Resolve raise_stable onStore_stable onPreviews_stable getOriginal_stable : go.

Ltac stable_steps := repeat (fails_step ltac:(vm_compute; reflexivity)).

Lemma abandon_stable key : failsStably (abandonArtifact (O := O) (P := P) key).
Proof. unfold abandonArtifact. stable_steps. Qed.
#[local] Hint Resolve abandon_stable : go.

Lemma storePreview_stable job content readable ext kind ct tracked :
  failsStably (storePreview (O := O) (P := P) job content readable ext kind ct tracked).
Proof. unfold storePreview. stable_steps. Qed.
#[local] Hint Resolve storePreview_stable : go.

Lemma storeMain_stable w job tracked text p : failsStably (storeMainPreview (O := O) (P := P) w job tracked text p).
Proof.
  intros env st st' e. unfold storeMainPreview.
  destruct (storePreview _ _ _ _ _ _ _ env st) as [st1 [r|e1]] eqn:E; [done|].
  apply storePreview_stable in E. destruct text as [t|]; [|by intros [= <- <-]].
  apply fails_bind; [apply abandon_stable|]. intros _. by apply fails_fail.
Qed.

Lemma storeResults_stable w job purpose d r p input :
  failsStably (storeResults (O := O) (P := P) w job purpose d r p input).
Proof.
  unfold storeResults, storeAIText. stable_steps. apply storeMain_stable.
Qed.

Lemma fetch_stable w source : failsStably (fetch (O := O) (P := P) w source).
Proof. unfold fetch. stable_steps. Qed.
#[local] Hint Resolve fetch_stable storeResults_stable : go.

Lemma Process_stable w job : failsStably (Process (O := O) (P := P) w job).
Proof. unfold Process. stable_steps. Qed.

End Stable.

(** ** Failures are recorded *)
Import Worker.

(** What comes of a failure: whether it is the last one, its category, and whether
    the file itself is to blame. *)
Definition lastFailure (err : option ProcessingError) (attempts : Z) : bool :=
  (attempts =? 4) || match err with Some e => ErrPermanent e | None => false end.
Definition categoryOf (err : option ProcessingError) : string :=
  match err with Some e => ErrCategory e | None => "processing_error" end.
Definition blamed (err : option ProcessingError) : bool :=
  match err with Some e => ErrRejected e | None => false end.
Definition delayAfter (attempts : Z) : Z :=
  if attempts =? 1 then minute else if attempts =? 2 then 5 * minute else 30 * minute.

Lemma classify_last err attempts now : 1 <= attempts <= 4 ->
  Permanent (classifyFailure err attempts now) = lastFailure err attempts.
Proof.
  intros Ha. unfold classifyFailure, lastFailure, MaxAttempts.
  assert (El : (4 <=? attempts) = (attempts =? 4)).
  { destruct (Z.eqb_spec attempts 4); [by apply Z.leb_le; lia|apply Z.leb_gt; lia]. }
  rewrite El. destruct err as [e|]; cbn [Permanent]; [apply orb_comm|by rewrite orb_false_r].
Qed.

Lemma classify_category err attempts now : Category (classifyFailure err attempts now) = categoryOf err.
Proof. by destruct err. Qed.

Lemma classify_rejected err attempts now : Rejected (classifyFailure err attempts now) = blamed err.
Proof. by destruct err. Qed.

Lemma classify_retry err attempts now : 1 <= attempts <= 4 -> lastFailure err attempts = false ->
  RetryAt (classifyFailure err attempts now) = addDuration now (delayAfter attempts).
Proof.
  intros Ha Hl. pose proof (classify_last err attempts now Ha) as Hp. rewrite Hl in Hp.
  unfold lastFailure in Hl. bool_simpl. assert (E : attempts = 1 \/ attempts = 2 \/ attempts = 3) by lia.
  unfold classifyFailure in *. destruct E as [ -> | [ -> | -> ] ]; destruct err as [e|]; cbn [Permanent RetryAt] in *;
    rewrite ?Hp; reflexivity.
Qed.

Section Failures.
Context `{PgTime}.

Definition failedJob (err : option ProcessingError) (attempts : Z) (reported recorded : Time) (j : JobRow) : JobRow :=
  if lastFailure err attempts then endedJob "failed" (Some (categoryOf err)) recorded j
  else requeuedJob (pg (addDuration reported (delayAfter attempts))) (categoryOf err) recorded j.

Definition failedVersion (err : option ProcessingError) (attempts : Z) (v : VersionRow) : VersionRow :=
  if lastFailure err attempts then
    if blamed err then withScan (Some "rejected"%string) (withProcessing "rejected" (Some (categoryOf err)) v)
    else withProcessing "failed" (Some (categoryOf err)) v
  else withProcessing "pending_scan" (Some (categoryOf err)) v.

Lemma fail_body_run job f env n db j :
  quiet env -> jobs db !! ID job = Some j ->
  heldBy (LeaseOwner job) (MkTime (dbclock env n) None) j = true -> j_version j = JobFileVersionID job ->
  let terminal := Permanent f || (MaxAttempts <=? Attempts job) in
  let now := MkTime (dbclock env n) None in
  failBody job f env (n, db) =
  ((n + 3)%nat, setVersions (alter (fun v =>
       if terminal then withScan (if Rejected f then Some "rejected" else None)%string
                          (withProcessing (if Rejected f then "rejected" else "failed") (Some (Category f)) v)
       else withProcessing "pending_scan" (Some (Category f)) v) (JobFileVersionID job) (versions db))
     (setJob (ID job) (if terminal then endedJob "failed" (Some (Category f)) now j
                       else requeuedJob (pg (RetryAt f)) (Category f) now j) db), Ok tt).
Proof.
  intros Hq Ej Hh Hv. unfold failBody. unfold dbind at 1. unfold databaseNow. rewrite (Hq n), dget_run, Ej, Hh, Hv.
  cbn [negb]. rewrite N.eqb_refl. cbn [negb]. rewrite !call_run by done. unfold dput.
  by replace (n + 3)%nat with (S (S (S n))) by lia.
Qed.

Lemma fail_body_lost job f env n db :
  quiet env ->
  (forall j, jobs db !! ID job = Some j ->
     heldBy (LeaseOwner job) (MkTime (dbclock env n) None) j && (j_version j =? JobFileVersionID job)%N = false) ->
  failBody job f env (n, db) = ((S n, db), Err ErrLeaseLost).
Proof.
  intros Hq Hn. unfold failBody. unfold dbind at 1. unfold databaseNow. rewrite (Hq n), dget_run.
  destruct (jobs db !! ID job) as [j|] eqn:Ej; [|done]. specialize (Hn _ eq_refl).
  destruct (heldBy _ _ _); [|done]. cbn [andb negb] in *. by rewrite Hn.
Qed.

End Failures.

Section Reports.
Context `{PgTime} `{UUIDText} {O P : Type} `{Objects.Store O} `{Objects.Store P}.

(** An error a job can end with: any error that is not classified, or one that the
    pipeline returns on some stores. *)
Definition pipelineError (w : Pipeline.Workspace) (job : Job) (err : option ProcessingError) : Prop :=
  match err with
  | None => True
  | Some e => exists env (st st' : nat * (FilesDB * (O * P))), Process w job env st = (st', Err e)
  end.

Lemma pipelineError_stable w job err : pipelineError w job err -> stableCategory (categoryOf err) = true.
Proof.
  destruct err as [e|]; [|by intros _; vm_compute]. intros (env & st & st' & Hrun). exact (Process_stable w job env st st' e Hrun).
Qed.

(** The form of the failure is one the queue takes. *)
Lemma failure_accepted w job err now :
  pipelineError w job err -> ID job <> 0%N -> JobFileVersionID job <> 0%N -> LeaseOwner job <> EmptyString ->
  1 <= Attempts job <= 4 -> 0 <= ns now ->
  let f := classifyFailure err (Attempts job) now in
  Fail job f = transact ErrDatabase ErrDatabase (failBody job f).
Proof.
  intros He Hid Hver Hown Ha Hnow f. unfold Fail.
  rewrite (proj2 (N.eqb_neq (ID job) NilUUID) Hid), (proj2 (N.eqb_neq (JobFileVersionID job) NilUUID) Hver).
  rewrite bool_decide_false by done. unfold f at 1. rewrite classify_category, (pipelineError_stable w job err He).
  cbn [orb negb]. destruct (lastFailure err (Attempts job)) eqn:El.
  - unfold f at 1. by rewrite classify_last, El.
  - unfold f at 2. rewrite classify_retry by done. unfold IsZero, addDuration. cbn [ns].
    rewrite (proj2 (Z.eqb_neq _ 0)); [by rewrite andb_false_r|].
    unfold delayAfter, minute, second, millisecond, microsecond. repeat case_match; lia.
Qed.

(** C12. Every failure of a job is recorded, and as what it is.  Let the worker report
    any error the pipeline can return, or one it does not classify, for a job on its
    first to fourth attempt, while no statement fails.  The queue never refuses the
    report for its form.  If the worker still holds the lease, the job is queued again
    one, five or thirty minutes later after its first, second and third attempt and the
    version waits for the next one; after the fourth attempt, or at once when the error
    is permanent, the job has failed, and the version is rejected if the file is to
    blame and failed otherwise.  Nothing else changes.  If it does not, the tables stay
    as they are and the worker learns that the lease is lost. *)
Theorem worker_records_failure work (w : Pipeline.Workspace) job err env n db :
  pipelineError w job err -> quiet env -> 0 <= ns (wall env n) ->
  ID job <> 0%N -> JobFileVersionID job <> 0%N -> LeaseOwner job <> EmptyString -> 1 <= Attempts job <= 4 ->
  let reported := UTC (wall env n) in
  let recorded := MkTime (dbclock env (n + 2)) None in
  let held j := heldBy (LeaseOwner job) recorded j && (j_version j =? JobFileVersionID job)%N in
  exists k, @settleFailure FilesDB (pgQueue Locked (fun _ => false)) work job err env (n, db) =
    match jobs db !! ID job with
    | Some j =>
        if held j then
          ((k, setVersions (alter (failedVersion err (Attempts job)) (JobFileVersionID job) (versions db))
                 (setJobs (<[ID job := failedJob err (Attempts job) reported recorded j]> (jobs db)) db)),
           Ok (Some (true, None)))
        else ((k, db), Ok (Some (true, Some LeaseLost)))
    | None => ((k, db), Ok (Some (true, Some LeaseLost)))
    end.
Proof.
  intros He Hq Hwall Hid Hver Hown Ha reported recorded held. unfold settleFailure, dbind, wallNow, attempt.
  fold reported. cbn [queueFail pgQueue]. rewrite (failure_accepted w) by done.
  rewrite transact_quiet by done.
  assert (Er : MkTime (dbclock env (S (S n))) None = recorded) by (unfold recorded; by rewrite Nat.add_comm).
  destruct (jobs db !! ID job) as [j|] eqn:Ej; [destruct (held j) eqn:Hh|].
  - apply andb_prop in Hh as [Hh Hv]. apply N.eqb_eq in Hv. rewrite (fail_body_run _ _ _ _ _ j), Er by (rewrite ?Er; done). cbn zeta.
    rewrite classify_last, classify_category, classify_rejected by done. unfold returns, dret, failedJob, failedVersion.
    assert (Et : lastFailure err (Attempts job) || (MaxAttempts <=? Attempts job) = lastFailure err (Attempts job)).
    { unfold lastFailure, MaxAttempts. destruct (Z.leb_spec 4 (Attempts job)); [|by rewrite orb_false_r].
      by rewrite (proj2 (Z.eqb_eq _ 4)) by lia. }
    rewrite Et. eexists. destruct (lastFailure err (Attempts job)) eqn:El; [destruct (blamed err)|]; try reflexivity.
    rewrite classify_retry by done. reflexivity.
  - rewrite fail_body_lost by (try done; intros j' Ej'; rewrite Er; rewrite Ej in Ej'; injection Ej' as <-; exact Hh). eexists. reflexivity.
  - rewrite fail_body_lost by (try done; intros j' Ej'; rewrite Ej in Ej'; discriminate Ej'). eexists. reflexivity.
Qed.

End Reports.

(** ** Results are complete *)
(** A stored object: its fields are those asked for, and it is not empty. *)
Definition storedPreview (kind contentType : string) (content : list Z) (p : PreviewResult) : Prop :=
  PreviewKind p = kind /\ PreviewType p = contentType /\ PreviewSize p = Z.of_nat (length content) /\
  1 <= PreviewSize p /\ PreviewSHA256 p <> EmptyString /\ PreviewKey p <> EmptyString.

Lemma previewName_nonempty `{UUIDText} job kind ext tracked : previewName job kind ext tracked <> EmptyString.
Proof. unfold previewName. by destruct tracked. Qed.

Section Results.
Context `{PgTime} `{UUIDText} {O P : Type} `{Objects.Store O} `{Objects.Store P}.

Lemma storePreview_gives job content readable ext kind ct tracked :
  yields (storedPreview kind ct content) (storePreview (O := O) (P := P) job content readable ext kind ct tracked).
Proof.
  unfold storePreview. destruct (_ || _ || _) eqn:Hg; [apply yields_fail|]. bool_simpl.
  apply yields_bind. intros [u|e]; [|apply yields_fail]. apply yields_bind. intros put.
  destruct (match put with Ok _ => _ | Err _ => _ end).
  - cbn [negb]. apply yields_bind. intros [v|e]; [|apply yields_bind; intros; apply yields_fail].
    apply yields_ret. unfold storedPreview. cbn. split_and!; try done; try lia.
    + apply validHash_nonempty, hexSum256_valid.
    + apply previewName_nonempty.
  - cbn [negb]. apply yields_bind. intros. apply yields_fail.
Qed.

Lemma storeMain_gives w job tracked text q :
  yields (storedPreview (PlanKind q) (PlanType q) (PlanBytes q)) (storeMainPreview (O := O) (P := P) w job tracked text q).
Proof.
  intros env st st' p. unfold storeMainPreview. destruct (storePreview _ _ _ _ _ _ _ env st) as [st1 [r|e]] eqn:E.
  - intros [= _ <-]. by eapply storePreview_gives.
  - destruct text as [t|]; [|done]. intros Hrun. apply dbind_Ok in Hrun as (? & ? & _ & Hrun). done.
Qed.

End Results.

Lemma normalized_length body text :
  Detect.NormalizeAIText body = Ok text -> Z.of_nat (length text) <= MaxAITextBytes.
Proof.
  unfold Detect.NormalizeAIText. destruct (_ || _ || _) eqn:Hg; [done|]. bool_simpl. intros [= <-].
  unfold Detect.replaceCR. rewrite length_fmap.
  assert (Hl : forall k b, (length b <= k)%nat -> (length (Detect.replaceCRLF b) <= length b)%nat); [|
    specialize (Hl _ body (le_n _)); lia].
  clear. induction k as [|k IH]; intros b Hb; [by destruct b; [|cbn in Hb; lia]|].
  destruct b as [|x b]; [cbn; lia|]. cbn [Detect.replaceCRLF length] in *.
  assert (Hr : (length (Detect.replaceCRLF b) <= length b)%nat) by (apply IH; lia).
  assert (Hc : forall c, b = 10 :: c -> (length (Detect.replaceCRLF c) <= length c)%nat).
  { intros c ->. apply IH. cbn in Hb. lia. }
  repeat case_match; cbn [length]; try lia; subst; try (specialize (Hc _ eq_refl); cbn [length] in *; lia); cbn [length] in *; lia.
Qed.

(** What [Complete] asks of a result for a version of this purpose. *)
Record completable (purpose : UploadPurpose) (r : Result) : Prop := {
  mime_named : DetectedMIME r <> EmptyString;
  scan_clean : ScanResult r = "clean"%string;
  shape_fits : badAICompletion purpose r = None;
  preview_fits : forall p, Preview r = Some p ->
    exists kind ct content, storedPreview kind ct content p /\ kind <> EmptyString /\ ct <> EmptyString;
  text_fits : forall p, AIText r = Some p ->
    exists content, storedPreview "ai_text" "text/plain; charset=utf-8" content p /\ Z.of_nat (length content) <= MaxAITextBytes
}.

(** A detected type is one the assistant takes as an image or as text. *)
Definition kindAgrees (mime : string) (kind : Detect.Kind) : bool :=
  match kind with
  | Detect.KindImage => imageMIME mime && negb (aiTextMIME mime)
  | Detect.KindVideo => false
  | _ => aiTextMIME mime && negb (imageMIME mime)
  end.

Lemma ai_kinds :
  forallb (fun '(k, ms) => match byExt Detect.allowedTypes (bytes k) with
                           | Some (m, kind) => kindAgrees m kind | None => false end) aiUploadLimits = true.
Proof. vm_compute. reflexivity. Qed.

Lemma allowed_named : forallb (fun '(_, (m, _)) => negb (bool_decide (m = EmptyString))) Detect.allowedTypes = true.
Proof. vm_compute. reflexivity. Qed.

Lemma allowed_nonempty ext m kind : byExt Detect.allowedTypes ext = Some (m, kind) -> m <> EmptyString.
Proof.
  intros Hb. apply byExt_Some in Hb as (k & Hin & _).
  pose proof allowed_named as Hall. rewrite forallb_forall in Hall. apply list_elem_of_In in Hin.
  specialize (Hall _ Hin). cbn in Hall. by bool_simpl.
Qed.

Lemma detected config gif zip name mime size d det :
  Detect.DetectFile config gif zip name mime size d = Ok det ->
  byExt Detect.allowedTypes (lowerExt name) = Some (Detect.MIME det, Detect.DetectedKind det) /\ Detect.MIME det <> EmptyString.
Proof.
  unfold Detect.DetectFile, Detect.detectContent. intros Hd. go_run; split; try done; by eapply allowed_nonempty.
Qed.

(** For the assistant the policy and the detector agree on what is text. *)
Lemma ai_detected i config gif zip d det :
  policyValidate UploadPurposeAI i = Ok tt ->
  Detect.DetectFile config gif zip (InDisplayName i) (InDeclaredMIME i) (InExpectedSize i) d = Ok det ->
  kindAgrees (Detect.MIME det) (Detect.DetectedKind det) = true.
Proof.
  intros Hp Hd. apply (limited_rule _ _ ai_rules) in Hp as (k & Ek & _ & _ & _ & ms & limit & Hin & _).
  apply detected in Hd as [Hd _]. rewrite Ek in Hd.
  pose proof ai_kinds as Hall. rewrite forallb_forall in Hall. apply list_elem_of_In in Hin.
  specialize (Hall _ Hin). cbv beta iota in Hall. by rewrite Hd in Hall.
Qed.

(** A plan names the detected type, and its preview has a kind and a type. *)
Lemma planned w d input r p :
  plan w d input = Ok (r, p) -> Detect.MIME d <> EmptyString ->
  DetectedMIME r = Detect.MIME d /\ ScanResult r = "clean"%string /\ AIText r = None /\ Preview r = None /\
  (forall q, p = Some q -> PlanKind q <> EmptyString /\ PlanType q <> EmptyString).
Proof.
  intros Hp Hm. unfold plan in Hp. repeat case_match; simplify_eq; cbn; split_and!; try done; intros q Hq; simplify_eq; try done.
Qed.

(** The text of an attachment is not empty and not too long; only an image has none. *)
Lemma aiText_gives w d p input text :
  aiText w d p input = Ok text ->
  match text with
  | Some t => Z.of_nat (length t) <= MaxAITextBytes /\ Detect.DetectedKind d <> Detect.KindImage
  | None => Detect.DetectedKind d = Detect.KindImage
  end /\ Detect.DetectedKind d <> Detect.KindVideo.
Proof.
  unfold aiText, readAITextFile, ExtractPDFText. intros Ht.
  assert (Hb : forall b t, Detect.NormalizeAIText b = Ok t -> Z.of_nat (length t) <= MaxAITextBytes)
    by exact normalized_length.
  repeat (case_match; simplify_eq; try done); split_and?; try done;
    match goal with H : Detect.NormalizeAIText _ = Ok _ |- _ => by apply Hb in H end.
Qed.

Section Contract.
Context `{PgTime} `{UUIDText} {O P : Type} `{Objects.Store O} `{Objects.Store P}.

(** The stored text of a job is what [Complete] expects for the purpose. *)
Lemma storeAIText_gives w job purpose d p input :
  (purpose = UploadPurposeAI -> kindAgrees (Detect.MIME d) (Detect.DetectedKind d) = true) ->
  yields (fun text =>
      (forall t, text = Some t -> exists content,
        storedPreview "ai_text" "text/plain; charset=utf-8" content t /\ Z.of_nat (length content) <= MaxAITextBytes) /\
      forall r, DetectedMIME r = Detect.MIME d -> badAICompletion purpose (withAIText text r) = None)
    (storeAIText (O := O) (P := P) w job purpose d p input).
Proof.
  intros Hk. unfold storeAIText. destruct (decide (purpose = UploadPurposeAI)) as [->|Hne].
  - rewrite bool_decide_true by done. cbn [negb]. specialize (Hk eq_refl). intros env st st' text Hrun.
    apply dbind_Ok in Hrun as (st1 & found & Hf & Hrun). unfold raise in Hf.
    destruct (aiText w d p input) as [a|e] eqn:Ea; [|done]. apply dret_Ok in Hf as [-> ->].
    apply aiText_gives in Ea as [Ea Hv]. destruct a as [t|].
    + destruct (negb _); [done|]. apply dbind_Ok in Hrun as (st2 & stored & Hs & Hrun).
      apply dret_Ok in Hrun as [-> ->]. apply storePreview_gives in Hs. destruct Ea as [Hl Hi]. split.
      * intros t' [= <-]. by exists t.
      * intros r Er. unfold badAICompletion. rewrite bool_decide_true by done. cbn. rewrite Er.
        destruct (Detect.DetectedKind d); try done; unfold kindAgrees in Hk; bool_simpl;
          repeat match goal with H : _ = true |- _ => rewrite H | H : _ = false |- _ => rewrite H end; done.
    + apply dret_Ok in Hrun as [-> ->]. split; [done|]. intros r Er. unfold badAICompletion.
      rewrite bool_decide_true by done. cbn. rewrite Er. rewrite Ea in Hk. cbn in Hk. bool_simpl.
      repeat match goal with H : _ = true |- _ => rewrite H | H : _ = false |- _ => rewrite H end. done.
  - rewrite bool_decide_false by done. cbn [negb]. apply yields_ret. split; [done|]. intros r _.
    unfold badAICompletion. by rewrite (bool_decide_false (purpose = UploadPurposeAI)).
Qed.

Lemma storeResults_gives w job purpose d r p input :
  (purpose = UploadPurposeAI -> kindAgrees (Detect.MIME d) (Detect.DetectedKind d) = true) ->
  plan w d input = Ok (r, p) -> Detect.MIME d <> EmptyString ->
  yields (completable purpose) (storeResults (O := O) (P := P) w job purpose d r p input).
Proof.
  intros Hk Hp Hm env st st' res Hrun. apply planned in Hp as (Em & Es & Ea & Ep & Hq); [|done].
  apply dbind_Ok in Hrun as (st1 & text & Ht & Hrun). apply storeAIText_gives in Ht as [Ht Hb]; [|done].
  destruct p as [q|].
  - apply dbind_Ok in Hrun as (st2 & prev & Hs & Hrun). apply dret_Ok in Hrun as [-> ->].
    apply storeMain_gives in Hs. destruct (Hq _ eq_refl) as [Hkind Htype].
    split; cbn; try done; [congruence|by apply Hb|]. intros x [= <-]. by eexists _, _, _.
  - apply dret_Ok in Hrun as [-> ->]. split; cbn; try done; [congruence|by apply Hb|]. intros x Hx. by rewrite Ep in Hx.
Qed.

(** *** The errors of a completion *)
Lemma upsert_failsWith (R : Processing.Error -> Prop) version p : R ErrDatabase -> fails R (storePreviewRow version p).
Proof.
  intros Hr. unfold storePreviewRow. apply fails_bind; [by apply fails_call|]. intros _.
  apply fails_bind; [apply fails_get|]. intros db. destruct (upsertPreview _ _ _); [apply fails_put|by apply fails_fail].
Qed.

Lemma publish_failsWith (R : Processing.Error -> Prop) job p :
  R ErrDatabase -> R (ErrText "processing artifact publication conflict") -> fails R (publishArtifact job p).
Proof.
  intros Hr Hp. unfold publishArtifact. apply fails_bind; [by apply fails_call|]. intros _.
  apply fails_bind; [apply fails_get|]. intros db. repeat case_match; solve [apply fails_put|by apply fails_fail].
Qed.

Lemma optionally_failsWith {A} R (o : option A) m :
  (forall a, o = Some a -> fails R (m a)) -> fails R (optionally o m).
Proof. intros Hm. destruct o as [a|]; [by apply Hm|apply fails_ret]. Qed.

(** How completing with a completable result can fail. *)
Definition completionError (purpose : UploadPurpose) (e : Processing.Error) : Prop :=
  e = ErrLeaseLost \/ e = ErrDatabase \/
  purpose = UploadPurposeAI /\ e = ErrText "processing artifact publication conflict".

Lemma complete_errors job r env n db st' e v :
  versions db !! JobFileVersionID job = Some v -> completable (v_purpose v) r ->
  completeBody job r env (n, db) = (st', Err e) -> completionError (v_purpose v) e.
Proof.
  intros Ev [Hm Hscan Hshape Hprev Htext]. set (R := completionError (v_purpose v)).
  assert (Hlost : R ErrLeaseLost) by by left. assert (Hdb : R ErrDatabase) by by right; left.
  unfold completeBody. unfold dbind at 1. unfold databaseNow. destruct (fault env n); [by intros [= _ <-]|].
  rewrite dget_run. destruct (jobs db !! ID job) as [j|]; [|by intros [= _ <-]].
  destruct (versions db !! j_version j) as [v'|] eqn:Ev'; [|by intros [= _ <-]].
  destruct (heldBy _ _ _); [|by intros [= _ <-]]. cbn [negb].
  destruct (N.eqb_spec (j_version j) (JobFileVersionID job)) as [Ej|]; [|by intros [= _ <-]]. cbn [negb].
  rewrite Ej, Ev in Ev'. injection Ev' as <-. rewrite Hshape.
  match goal with |- ?m _ _ = _ -> _ => enough (Hk : fails R m) by apply Hk end.
  apply fails_bind; [by apply fails_call|intros _]. destruct (negb _); [by apply fails_fail|].
  apply fails_bind; [apply fails_put|intros _].
  apply fails_bind; [|intros _; apply fails_bind; [|intros _; apply fails_bind; [|intros _]]].
  - apply optionally_failsWith. intros p Hp. destruct (Hprev _ Hp) as (kind & ct & content & Hst & Hk & Hc).
    destruct Hst as (-> & -> & _ & Hsize & Hsha & Hkey). rewrite !bool_decide_false by done.
    rewrite (proj2 (Z.ltb_ge _ 1)) by lia. by apply upsert_failsWith.
  - apply optionally_failsWith. intros p Hp. destruct (Htext _ Hp) as (content & Hst & Hl).
    destruct Hst as (-> & -> & Esize & Hsize & Hsha & Hkey). rewrite (bool_decide_false (PreviewKey p = EmptyString)) by done.
    rewrite (bool_decide_false (PreviewSHA256 p = EmptyString)), !bool_decide_true by done.
    rewrite (proj2 (Z.ltb_ge _ 1)), (proj2 (Z.ltb_ge MaxAITextBytes _)) by lia. by apply upsert_failsWith.
  - case_bool_decide as Hai; [|apply fails_ret]. assert (Hconf : R (ErrText "processing artifact publication conflict")) by (by right; right).
    apply fails_bind; [|intros _]; apply optionally_failsWith; intros p _; by apply publish_failsWith.
  - apply fails_bind; [by apply fails_call|intros _]. apply fails_bind; [apply fails_get|intros db'].
    apply fails_put.
Qed.

(** What the pipeline returns is completable for the purpose of the version. *)
Lemma Process_completable w job env n db op st' r v i :
  versions db !! JobFileVersionID job = Some v ->
  v_name v = InDisplayName i -> v_mime v = InDeclaredMIME i -> v_size v = InExpectedSize i ->
  policyValidate (v_purpose v) i = Ok tt ->
  Process (O := O) (P := P) w job env (n, (db, op)) = (st', Ok r) -> completable (v_purpose v) r.
Proof.
  intros Ev En Em Es Hpol Hrun. unfold Process in Hrun. destruct (_ || _); [done|].
  apply dbind_Ok in Hrun as (st1 & loaded & Hl & Hrun). unfold onStore, LoadSource in Hl.
  destruct (dbind _ _ env (n, db)) as [[n1 db1] [source|e]] eqn:El; injection Hl as <- <-; [|done].
  db_inv. rewrite Ev in *. db_inv. cbn [VersionID SourceSize SourceSHA256 SourcePurpose SourceName SourceMIME] in Hrun.
  do 4 (match type of Hrun with (if ?b then _ else _) _ _ = _ => destruct b end; [done|]).
  apply dbind_Ok in Hrun as (st2 & input & _ & Hrun). apply dbind_Ok in Hrun as (st3 & det & Hd & Hrun).
  apply dbind_Ok in Hrun as (st4 & u & _ & Hrun). apply dbind_Ok in Hrun as (st5 & [r0 planned_] & Hp & Hrun).
  unfold raise in Hd, Hp. destruct (Detect.DetectFile _ _ _ _ _ _ _) as [det'|] eqn:Ed; [|done].
  apply dret_Ok in Hd as [-> ->]. destruct (plan w det' input) as [pl'|] eqn:Epl; [|done]. apply dret_Ok in Hp as [-> <-].
  rewrite En, Em, Es in Ed. eapply storeResults_gives; [| exact Epl | by eapply detected | exact Hrun].
  intros Hai. rewrite Hai in Hpol. by eapply ai_detected.
Qed.

(** C13. Whatever the pipeline returns, the queue can complete the job with.  Take a
    version whose name, type and size its upload policy validated, and any result the
    pipeline returns for it.  Completing a job of that version with that result, on
    whatever the tables have become, never fails for the shape of the result: when it
    fails, the lease is lost, the database failed or refused a row, or, for the
    assistant's attachments, the stored artifacts are no longer registered.  The
    detected type is named, the scan is clean, previews and text have their kinds,
    types and hashes, only attachments for the assistant carry text, those that are not
    images always do, and the text is neither empty nor over two mebibytes. *)
Theorem pipeline_result_completes w job r env n db op st' v i env2 n2 db2 v2 st2 e :
  versions db !! JobFileVersionID job = Some v ->
  v_name v = InDisplayName i -> v_mime v = InDeclaredMIME i -> v_size v = InExpectedSize i ->
  policyValidate (v_purpose v) i = Ok tt ->
  Process (O := O) (P := P) w job env (n, (db, op)) = (st', Ok r) ->
  ID job <> 0%N -> JobFileVersionID job <> 0%N -> LeaseOwner job <> EmptyString ->
  versions db2 !! JobFileVersionID job = Some v2 -> v_purpose v2 = v_purpose v ->
  Complete job r env2 (n2, db2) = (st2, Err e) ->
  e = ErrLeaseLost \/ e = ErrDatabase \/
  v_purpose v = UploadPurposeAI /\ e = ErrText "processing artifact publication conflict".
Proof.
  intros Ev En Em Es Hpol Hrun Hid Hver Hown Ev2 Ep Hc.
  pose proof (Process_completable _ _ _ _ _ _ _ _ _ _ Ev En Em Es Hpol Hrun) as Hr.
  pose proof (mime_named _ _ Hr) as Hm. pose proof (scan_clean _ _ Hr) as Hscan.
  unfold Complete in Hc. rewrite (proj2 (N.eqb_neq (ID job) NilUUID) Hid) in Hc.
  rewrite (proj2 (N.eqb_neq (JobFileVersionID job) NilUUID) Hver) in Hc.
  rewrite !bool_decide_false in Hc by done. rewrite bool_decide_true in Hc by done. cbn [orb negb] in Hc.
  change (completionError (v_purpose v) e). eapply transact_error; [exact Hc|by right; left..|]. intros st e' Hb.
  rewrite <- Ep in *. by eapply complete_errors in Hb.
Qed.

End Contract.
