(* ===== verification/FilesWitness.v ===== *)
(** * Uploads and processing: concrete runs

    An upload of a small text file, and the claims of the theorems at the states it
    goes through. *)

From S2P Require Import Prelude GoTime GoText GoStrings GoSha256 Pg OpsModel Keyset AuditLog FilesModel FilesStore ProcessingStore FilesCleanup ProcessingProofs ProcessingTheorems ProcessingHistory UploadService UploadTheorems Detect Pipeline.
From stdpp Require Import base tactics list gmap strings sorting relations.
From Stdlib Require Import ZArith Lia.
Import Files Processing.

Open Scope Z_scope.

#[local] Existing Instance PgTruncate.
#[local] Existing Instance DecimalUUID.

Definition noFiles : FilesDB :=
  MkFilesDB ∅ ∅ ∅ ∅ ∅ ∅ ∅ [] (Audit.MkTable [] 1) {[5%N]} ∅ ∅ ∅ (Some "normal").

Definition someHash : string := fromBytes (repeat 97 64).
Definition student : Principal := MkPrincipal 5 RoleStudent StatusActive "request" (Some [10; 0; 0; 1]).
Definition upload : UploadSession :=
  MkUploadSession 7 5 UploadPurposeAI "originals/a" "m" "notes.txt" "text/plain" 10 someHash UploadOpen
    (MkTime (2 * day) None) (MkTime 0 None).

Definition at_ (t : Z) : Env := calm t (MkTime t None) (fun n => N.of_nat (100 + n)).
Definition created : FilesDB := exec (CreateSession upload) (at_ 0) noFiles.
Definition completing : FilesDB := exec (BeginCompletion 7 5 UploadPurposeAI (MkTime hour None)) (at_ hour) created.
Definition uploaded : FilesDB := exec (FinishCompletion upload student) (at_ hour) completing.
Definition leased : FilesDB :=
  exec (LeaseNext Locked (fun _ => false) "worker" (MkTime (2 * hour) None) minute) (at_ (2 * hour)) uploaded.

Definition theJob : N := 107.

Example uploaded_ok : (fst <$> map_to_list (jobs uploaded), j_state <$> jobs uploaded !! theJob,
  j_attempts <$> jobs leased !! theJob) = ([theJob], Some "queued"%string, Some 1).
Proof. vm_compute. reflexivity. Qed.

Lemma uploaded_reachable : reachable initFiles filesStep uploaded.
Proof.
  eapply reach_step; [|apply StepStore, StepFinish]. eapply reach_step; [|apply StepStore, StepBegin].
  eapply reach_step; [|apply StepStore, StepCreate]. by apply reach_init.
Qed.

Lemma calm_quiet t now ids : quiet (calm t now ids).
Proof. intros n. reflexivity. Qed.

Lemma files_invariant_witness :
  exists j, jobs uploaded !! theJob = Some j /\ activeJob j = true /\
    exists v, versions uploaded !! j_version j = Some v /\
      member ["pending_scan"; "processing"; "failed"] (v_state v) = true.
Proof.
  destruct (jobs uploaded !! theJob) as [j|] eqn:E; [|vm_compute in E; discriminate].
  assert (Ha : activeJob j = true).
  { assert (activeJob <$> jobs uploaded !! theJob = Some true) as Hx by (vm_compute; reflexivity).
    rewrite E in Hx. by injection Hx. }
  destruct (files_invariant uploaded uploaded_reachable) as (_ & _ & _ & Hact).
  exists j. split_and!; [reflexivity|exact Ha|]. by apply (Hact theJob).
Defined.

Lemma LeaseNext_takes_first_witness :
  value (LeaseNext Locked (fun _ => false) "worker" (MkTime (2 * hour) None) minute) (at_ (2 * hour)) uploaded =
    Ok (MkJob theJob 105 "process_file" "running" 1 "worker" (MkTime (2 * hour + minute) None)).
Proof.
  destruct (LeaseNext_takes_first uploaded (fun _ => false) "worker" (MkTime (2 * hour) None) minute (at_ (2 * hour)))
    as [(id & j & v & Ht & Hmin & Hv & Hval & _)|(_ & Hval & _)].
  - apply uploaded_reachable.
  - apply calm_quiet.
  - vm_compute. reflexivity.
  - split_and!; [discriminate|vm_compute; discriminate|reflexivity].
  - rewrite Hval. destruct Ht as [Hj _].
    assert (Hall : map_to_list (jobs uploaded) = [(theJob, j)] -> id = theJob -> Ok (E := Processing.Error)
      (MkJob id (j_version j) (j_kind j) "running" (j_attempts j + 1) "worker"
         (pg (addDuration (MkTime (2 * hour) None) minute))) =
      Ok (MkJob theJob 105 "process_file" "running" 1 "worker" (MkTime (2 * hour + minute) None))).
    { intros Hl ->. vm_compute in Hl. injection Hl as <-. vm_compute. reflexivity. }
    apply elem_of_map_to_list in Hj. vm_compute (map_to_list (jobs uploaded)) in Hj.
    apply list_elem_of_singleton in Hj. injection Hj as -> ->. apply Hall; [|reflexivity].
    vm_compute. reflexivity.
  - vm_compute in Hval. discriminate Hval.
Defined.

(** The worker died in its fourth attempt. *)
Definition lost : FilesDB :=
  setJobs ((fun j => MkJobRow (j_version j) (j_kind j) "running" 4 (j_available j) (Some "worker") (Some (MkTime (3 * hour) None))
    None (j_created j) (j_updated j)) <$> jobs leased) leased.

Lemma idle_pass_keeps_exhausted_witness :
  option_map (exhausted (MkTime (4 * hour) None)) (jobs lost !! theJob) = Some true /\
  exec (LeaseNext Locked (fun _ => false) "worker" (MkTime (4 * hour) None) minute) (at_ (4 * hour)) lost = lost.
Proof.
  split; [vm_compute; reflexivity|].
  apply (idle_pass_keeps_exhausted Locked (fun _ => false) "worker" (MkTime (4 * hour) None) minute (at_ (4 * hour)) lost).
  intros id j Ht. apply candidate_elem in Ht.
  vm_compute (List.filter _ _) in Ht. apply elem_of_nil in Ht. exact Ht.
Defined.

Lemma stale_worker_fenced_witness :
  exec (Fail (MkJob theJob 105 "process_file" "running" 1 "intruder" (MkTime (3 * hour) None))
          (MkFailure "probe_failed" true false (MkTime (3 * hour) None))) (at_ (2 * hour)) leased = leased.
Proof.
  apply (stale_worker_fenced (at_ (2 * hour)) leased
    (MkJob theJob 105 "process_file" "running" 1 "intruder" (MkTime (3 * hour) None)) (MkTime (3 * hour) None)
    (MkResult "" "" false "" "" None None None None None)
    (MkFailure "probe_failed" true false (MkTime (3 * hour) None))).
  intros j n Hj. cbn [ID LeaseOwner] in *.
  assert (Ho : j_owner <$> jobs leased !! theJob = Some (Some "worker"%string)) by (vm_compute; reflexivity).
  rewrite Hj in Ho. injection Ho as Ho. unfold heldBy. rewrite Ho. rewrite (bool_decide_false (Some _ = Some _)).
  - by rewrite andb_false_r.
  - discriminate.
Defined.

Lemma jobs_only_advance_witness :
  exists j j', jobs uploaded !! theJob = Some j /\ jobs leased !! theJob = Some j' /\ j_attempts j <= j_attempts j'.
Proof.
  destruct (jobs uploaded !! theJob) as [j|] eqn:E; [|vm_compute in E; discriminate].
  destruct (jobs_only_advance uploaded leased) with (id := theJob) (j := j) as (j' & Hj' & _ & _ & _ & Ha & _).
  - apply rtc_once. apply StepStore, StepLease.
  - exact E.
  - exists j, j'. split_and!; [reflexivity|exact Hj'|exact Ha].
Defined.

(** ** A service call by call *)

(** An object store in memory: an upload writes to its object directly. *)
Definition Memory : Type := gmap string (list Z).
#[local] Instance MemoryObjects : Objects.Store Memory := {|
  Objects.CreateMultipart key _ m := (<[key := []]> m, Ok "m"%string);
  Objects.PutPart key _ number r _ _ m :=
    (<[key := or_zero [] (m !! key) ++ Objects.content r]> m, length (Objects.content r),
     Ok (MkObjectPart number "etag" (Z.of_nat (length (Objects.content r)))));
  Objects.CompleteMultipart key _ _ m := (m, Ok (Objects.MkInfo (Z.of_nat (length (or_zero [] (m !! key))))));
  Objects.AbortMultipart key _ m := (delete key m, Ok tt);
  Objects.Stat key m := (m, Err Objects.ErrNotFound);
  Objects.Get key m :=
    (m, match m !! key with
        | Some b => Ok (Objects.MkReader b false, Objects.MkInfo (Z.of_nat (length b)))
        | None => Err Objects.ErrNotFound
        end);
  Objects.Put key b size _ m := (<[key := b]> m, Ok (Objects.MkInfo size));
  Objects.Delete key m := (delete key m, Ok tt)
|}.

Definition abcHash : string := "ba7816bf8f01cfea414140de5dae2223b00361a396177a9cb410ff61f20015ad".
Definition abcInput : CreateUploadInput := MkCreateUpload "notes.txt" "text/plain" 3 abcHash.
Definition abcPart : PutPartInput := MkPutPart 102 1 3 abcHash (Some (Objects.MkReader (bytes "abc") false)).

Definition begun : FilesDB * Memory :=
  snd (fst (CreateUpload UploadPurposeAI (Some (repeat 1 24)) student abcInput (at_ 0) (1%nat, (noFiles, ∅)))).
Definition sent : FilesDB * Memory :=
  snd (fst (PutPart UploadPurposeAI true student abcPart (at_ minute) (1%nat, begun))).

Lemma incomplete_completion_is_final_witness :
  exists st, CompleteUpload UploadPurposeAI true student 102 (at_ minute) (1%nat, begun) = (st, Err ErrUploadIncomplete) /\
    forall env, let db := exec (RecordPart 102 (MkUploadPart 102 1 3 abcHash "etag" zeroTime)) env (fst (snd st)) in
    (forall env' st' r, PutPart UploadPurposeAI true student abcPart env' (1%nat, (db, snd (snd st))) = (st', r) -> is_ok r = false) /\
    (forall env' st' r, CompleteUpload UploadPurposeAI true student 102 env' (1%nat, (db, snd (snd st))) = (st', r) -> is_ok r = false).
Proof.
  assert (Hr : snd (CompleteUpload UploadPurposeAI true student 102 (at_ minute) (1%nat, begun)) = Err ErrUploadIncomplete)
    by (vm_compute; reflexivity).
  destruct (CompleteUpload UploadPurposeAI true student 102 (at_ minute) (1%nat, begun)) as [st r0] eqn:E.
  cbn [snd] in Hr. subst r0. exists st. split; [reflexivity|]. rewrite (surjective_pairing begun) in E.
  destruct (incomplete_completion_is_final _ _ _ _ _ _ _ _ _ E) as [_ Hno]. intros env db.
  destruct (Hno db (snd (snd st))) as (_ & Hcomplete & Hput).
  { rewrite (surjective_pairing (snd st)). apply rtc_once, LaterRecord. }
  split.
  - intros env' st' r. by apply (Hput _ _ _ abcPart).
  - intros env' st' r. apply Hcomplete.
Defined.

Lemma part_content_verified_witness :
  exists p, parts (fst sent) !! (102%N, 1) = Some p /\ Size p = 3 /\ SHA256 p = abcHash.
Proof.
  unfold sent. destruct (PutPart UploadPurposeAI true student abcPart (at_ minute) (1%nat, begun)) as [st [v|e]] eqn:E.
  - rewrite (surjective_pairing begun) in E.
    destruct (part_content_verified _ _ _ _ _ _ _ _ _ _ E) as (p & Hp & _ & Hs & Hh & _).
    exists p. split_and!; [exact Hp|exact Hs|exact Hh].
  - exfalso. assert (Hr : is_ok (snd (PutPart UploadPurposeAI true student abcPart (at_ minute) (1%nat, begun))) = true)
      by (vm_compute; reflexivity). rewrite E in Hr. discriminate Hr.
Defined.

Lemma completed_content_verified_witness :
  exists st c, CompleteUpload UploadPurposeAI true student 102 (at_ hour) (1%nat, sent) = (st, Ok c) /\
    exists u, sessionOf (fst sent) 102 5 UploadPurposeAI = Some u /\ (State u = UploadCompleted \/
      exists v, versions (fst (snd st)) !! FileVersionID c = Some v /\ v_sha v = ExpectedSHA256 u).
Proof.
  assert (Hr : is_ok (snd (CompleteUpload UploadPurposeAI true student 102 (at_ hour) (1%nat, sent))) = true)
    by (vm_compute; reflexivity).
  destruct (CompleteUpload UploadPurposeAI true student 102 (at_ hour) (1%nat, sent)) as [st [c|e]] eqn:E; [|discriminate Hr].
  exists st, c. split; [reflexivity|]. rewrite (surjective_pairing sent) in E.
  destruct (completed_content_verified _ _ _ _ _ _ _ _ _ _ E) as (u & Hu & Hcase).
  exists u. split; [exact Hu|]. destruct Hcase as [[Hc _]|[_ Hnew]]; [left; exact Hc|right].
  destruct Hnew as (reader & info & o1 & o2 & v & job & j & _ & _ & _ & Hv & _ & _ & _ & Hsha & _).
  exists v. split; [exact Hv|exact Hsha].
Defined.

(** ** A long name, and a text with a character across byte 512 *)
Definition longName : string := fromBytes (concat (repeat [228; 184; 173] 100) ++ bytes ".txt").
Definition longInput : CreateUploadInput := MkCreateUpload longName "text/plain" 3 abcHash.

Lemma accepted_upload_detected_witness :
  policyValidate UploadPurposeAI longInput = Ok tt /\ RuneCountInString longName = 104 /\
  Detect.DetectFile (fun _ => None) (fun _ => None) (fun _ => None) longName "text/plain" 3
      (Detect.MkDisk [] true true true true true) =
    Err (Processing.MkProcessingError "invalid_name" true true).
Proof.
  assert (Hp : policyValidate UploadPurposeAI longInput = Ok tt) by (vm_compute; reflexivity).
  split; [exact Hp|]. split; [vm_compute; reflexivity|].
  destruct (accepted_upload_detected (fun _ => None) (fun _ => None) (fun _ => None) UploadPurposeAI longInput
    (Detect.MkDisk [] true true true true true) Hp)
    as (kind & _ & E).
  assert (Hl : (len (InDisplayName longInput) <=? 255) = false) by (vm_compute; reflexivity).
  rewrite Hl in E. exact E.
Defined.

Example split_text_is_valid : Detect.Valid (repeat 97 511 ++ [195; 169]) = true.
Proof. vm_compute. reflexivity. Qed.
