(* ===== verification/LessonModel.v ===== *)
(** * Lessons: data and tables

    Models [internal/teaching/model.go] and the tables of migrations 00004 to 00006
    that lessons, their drafts, their published revisions and the files bound to them
    live in, together with the file tables of [FilesStore].  The columns a table
    computes or that nothing reads ([name_norm], creation times) are left out. *)

From S2P Require Import Prelude GoTime GoText GoStrings GoFloat Pg OpsModel AuditLog FilesModel FilesStore.
From stdpp Require Import base tactics list gmap strings.
From Stdlib Require Import ZArith Lia.

Open Scope Z_scope.

Module Lessons.

(** ** Data *)
Definition AudienceAll : string := "all".
Definition AudienceSelected : string := "selected".

Inductive CatalogKind := CatalogGrade | CatalogTerm | CatalogSubject | CatalogChapter | CatalogOther (text : string).

(** The errors of [model.go], and what the driver reports. *)
Inductive Error := ErrNotFound | ErrForbidden | ErrInvalid | ErrConflict | ErrNotPublishable | ErrReaderExpired | ErrDatabase.

Global Instance Error_eq_dec : EqDecision Error.
Proof. solve_decision. Defined.
Global Instance CatalogKind_eq_dec : EqDecision CatalogKind.
Proof. solve_decision. Defined.

Record Audience := MkAudience { Mode : string; UserIDs : list UUID }.
Record ExternalVideo := MkVideo { VideoID : UUID; URL : string; VideoTitle : string; VideoDescription : string; VideoSortKey : Z }.

Record CatalogNode := MkNode {
  NodeID : UUID; ParentID : UUID; NodeKind : CatalogKind; Name : string; Description : string; SortKey : Z; ArchivedAt : option Time
}.

Record Draft := MkDraft {
  LessonID : UUID; ChapterID : UUID; Title : string; Summary : string; BodyMarkdown : string; DraftSortKey : Z;
  LockVersion : Z; DraftAudience : Audience; ExternalVideos : list ExternalVideo; UpdatedAt : Time
}.

Record Revision := MkRevision {
  RevID : UUID; RevLesson : UUID; RevVersion : Z; SourceDraftVersion : Z; RevTitle : string; RevSummary : string;
  RevBody : string; RevSortKey : Z; RevAudience : Audience; RevVideos : list ExternalVideo; PublishedBy : UUID; PublishedAt : Time
}.

Record CatalogCreateInput := MkCatalogCreate {
  CreateKind : CatalogKind; CreateParent : UUID; CreateName : string; CreateDescription : string; CreateSortKey : Z
}.
Record CatalogArchiveInput := MkCatalogArchive { ArchiveKind : CatalogKind; ArchiveID : UUID; Archived : bool }.
Record CreateLessonInput := MkCreateLesson { InChapter : UUID; InTitle : string; InActor : UUID }.

Record SaveDraftInput := MkSaveDraft {
  SaveLesson : UUID; SaveExpected : Z; SaveTitle : string; SaveSummary : string; SaveBody : string; SaveSortKey : Z;
  SaveAudience : Audience; SaveVideos : list ExternalVideo; SaveActor : UUID
}.
Record PublishInput := MkPublish { PubLesson : UUID; PubExpected : Z; PubActor : UUID }.

(** Scroll ratios are [float64]s. *)
Record ProgressInput := MkProgressInput {
  InRevision : UUID; InViewed : bool; InAnchor : string; InScroll : float64; InObserved : Time
}.

Inductive AccessPolicy := PolicyPreview | PolicyDownload | PolicyOther (text : string).
Inductive AccessAction := ActionPreview | ActionDownload | ActionOther (text : string).
Inductive AccessResult := AccessAllowed | AccessDenied | AccessMalformed | AccessFailed.

Global Instance AccessPolicy_eq_dec : EqDecision AccessPolicy.
Proof. solve_decision. Defined.
Global Instance AccessAction_eq_dec : EqDecision AccessAction.
Proof. solve_decision. Defined.
Global Instance AccessResult_eq_dec : EqDecision AccessResult.
Proof. solve_decision. Defined.

(** ** Tables *)
Record NodeRow := MkNodeRow { n_parent : UUID; n_name : string; n_description : string; n_sort : Z; n_archived : option Time }.
Record LessonRow := MkLessonRow { l_chapter : UUID; l_published : option UUID; l_archived : option Time }.
Record DraftRow := MkDraftRow {
  d_title : string; d_summary : string; d_body : string; d_sort : Z; d_lock : Z; d_updatedBy : UUID; d_updatedAt : Time
}.
Record RevisionRow := MkRevisionRow {
  r_lesson : UUID; r_version : Z; r_source : Z; r_title : string; r_summary : string; r_body : string; r_sort : Z;
  r_by : UUID; r_at : Time
}.
(** A file bound to a draft, or to a revision. *)
Record BindingRow := MkBindingRow {
  b_owner : UUID; b_version : UUID; b_policy : AccessPolicy; b_position : Z; b_name : string; b_description : string
}.
Record UserRow := MkUserRow { u_role : Role; u_status : Status; u_deleted : option Time }.
Record ProgressRow := MkProgressRow {
  g_viewed : bool; g_anchor : string; g_scroll : float64; g_observed : Time; g_first : Time; g_last : Time
}.
Record AccessLog := MkAccessLog {
  LogActor : UUID; LogRequested : UUID; LogVersion : UUID; LogRevision : UUID; LogQA : UUID; LogAI : UUID;
  LogAction : AccessAction; LogResult : AccessResult; LogReason : string; LogRequest : string; LogIP : option (list Z);
  LogStart : option Z; LogEnd : option Z; LogPlayback : string
}.

(** An audience header with its users, which the database deletes with it. *)
Record AudienceRow := MkAudienceRow { m_mode : string; m_users : list UUID }.

Record CatalogTables := MkCatalog {
  grades : gmap N NodeRow; terms : gmap N NodeRow; subjects : gmap N NodeRow; chapters : gmap N NodeRow;
  lessons : gmap N LessonRow
}.
Record DraftTables := MkDrafts {
  drafts : gmap N DraftRow; draftAudiences : gmap N AudienceRow; draftVideos : gmap N (N * ExternalVideo);
  draftFiles : gmap N BindingRow
}.
Record RevisionTables := MkRevisions {
  revisions : gmap N RevisionRow; finalized : gmap N N; revAudiences : gmap N AudienceRow;
  revVideos : gmap N (N * ExternalVideo); revFiles : gmap N BindingRow
}.
Record LessonDB := MkLessonDB {
  base : FilesDB;
  catalog : CatalogTables;
  draftT : DraftTables;
  revisionT : RevisionTables;
  people : gmap N UserRow;
  progress : gmap (N * N) ProgressRow;
  accessLogs : list AccessLog;
  events : list (string * (N * N))    (* outbox: kind, lesson and revision *)
}.

Definition setBase b db := MkLessonDB b (catalog db) (draftT db) (revisionT db) (people db) (progress db) (accessLogs db) (events db).
Definition setCatalog c db := MkLessonDB (base db) c (draftT db) (revisionT db) (people db) (progress db) (accessLogs db) (events db).
Definition setDrafts d db := MkLessonDB (base db) (catalog db) d (revisionT db) (people db) (progress db) (accessLogs db) (events db).
Definition setRevisions r db := MkLessonDB (base db) (catalog db) (draftT db) r (people db) (progress db) (accessLogs db) (events db).
Definition setProgress p db := MkLessonDB (base db) (catalog db) (draftT db) (revisionT db) (people db) p (accessLogs db) (events db).
Definition setLogs l db := MkLessonDB (base db) (catalog db) (draftT db) (revisionT db) (people db) (progress db) l (events db).
Definition setEvents e db := MkLessonDB (base db) (catalog db) (draftT db) (revisionT db) (people db) (progress db) (accessLogs db) e.

Definition setLessons m c := MkCatalog (grades c) (terms c) (subjects c) (chapters c) m.
Definition setDraftRows m d := MkDrafts m (draftAudiences d) (draftVideos d) (draftFiles d).
Definition setDraftAudiences m d := MkDrafts (drafts d) m (draftVideos d) (draftFiles d).
Definition setDraftVideos m d := MkDrafts (drafts d) (draftAudiences d) m (draftFiles d).
Definition setDraftFiles m d := MkDrafts (drafts d) (draftAudiences d) (draftVideos d) m.

#[export] Instance LessonDB_audit : Audit.HasAudit LessonDB :=
  {| Audit.auditOf db := Audit.auditOf (base db); Audit.setAudit t db := setBase (Audit.setAudit t (base db)) db |}.

(** The versions that drafts and revisions refer to: what the file tables see of the
    lessons. *)
Definition boundVersions (db : LessonDB) : gset N :=
  list_to_set ((b_version ∘ snd) <$> map_to_list (draftFiles (draftT db)))
  ∪ list_to_set ((b_version ∘ snd) <$> map_to_list (revFiles (revisionT db))).

Definition setLessonRefs (refs : gset N) (db : FilesDB) : FilesDB :=
  MkFilesDB (files db) (versions db) (previews db) (sessions db) (parts db) (jobs db)
    (artifacts db) (outbox db) (filesAudit db) (users db) refs (qaRefs db) (aiRefs db) (mode db).

(** After a change of bindings the file tables see the new references. *)
Definition synced (db : LessonDB) : LessonDB := setBase (setLessonRefs (boundVersions db) (base db)) db.

(** An operation on the file tables. *)
Definition onFiles {E A} (m : DB FilesDB E A) : DB LessonDB E A :=
  fun env '(n, db) => let '((n', b), r) := m env (n, base db) in ((n', setBase b db), r).

(** ** Visibility *)

(** No ancestor of the lesson, nor the lesson itself, is archived. *)
Definition open_ (o : option Time) : bool := bool_decide (o = None).

Definition liveNode (m : gmap N NodeRow) (id : UUID) : option UUID :=
  match m !! id with Some n => if open_ (n_archived n) then Some (n_parent n) else None | None => None end.

Definition pathOpen (c : CatalogTables) (l : LessonRow) : bool :=
  open_ (l_archived l) &&
  match liveNode (chapters c) (l_chapter l) with
  | None => false
  | Some s =>
      match liveNode (subjects c) s with
      | None => false
      | Some t =>
          match liveNode (terms c) t with
          | None => false
          | Some g => bool_decide (is_Some (liveNode (grades c) g))
          end
      end
  end.

Definition activeUser (role : Role) (db : LessonDB) (id : UUID) : bool :=
  match people db !! id with
  | Some u => bool_decide (u_role u = role) && bool_decide (u_status u = StatusActive) && open_ (u_deleted u)
  | None => false
  end.

(** The published revision of a lesson, when it is finalized for that lesson. *)
Definition publishedRevision (db : LessonDB) (id : UUID) (l : LessonRow) : option (UUID * RevisionRow) :=
  match l_published l with
  | Some r =>
      match revisions (revisionT db) !! r with
      | Some row => if bool_decide (finalized (revisionT db) !! r = Some id) then Some (r, row) else None
      | None => None
      end
  | None => None
  end.

Definition inAudience (db : LessonDB) (revision user : UUID) : bool :=
  match revAudiences (revisionT db) !! revision with
  | Some a => bool_decide (m_mode a = AudienceAll) || bool_decide (user ∈ m_users a)
  | None => false
  end.

(** What the joins [authorizedRevisionJoins] and [authorizedRevisionWhere] let
    through: the revision of this lesson that this student may see. *)
Definition authorizedRevision (db : LessonDB) (student lesson : UUID) : option (UUID * RevisionRow) :=
  match lessons (catalog db) !! lesson with
  | Some l =>
      if pathOpen (catalog db) l && activeUser RoleStudent db student then
        match publishedRevision db lesson l with
        | Some (r, row) => if inAudience db r student then Some (r, row) else None
        | None => None
        end
      else None
  | None => None
  end.

End Lessons.
