(* ===== verification/LessonFiles.v ===== *)
(** * Files bound to lessons

    Models [internal/files/binding_service.go], the binding operations of
    [internal/files/postgres_store.go], and [ReplaceFile] and [RollbackFile] of
    [postgres_file_center.go]: the operations that move files between drafts. *)

From S2P Require Import Prelude GoTime GoText GoStrings Pg OpsModel Keyset AuditLog FilesModel FilesStore FilesCleanup LessonModel.
From stdpp Require Import base tactics list gmap strings.
From Stdlib Require Import ZArith Lia.
Import Files.

Open Scope Z_scope.

Module Bindings.
Import Lessons.

Notation Error := Files.Error.
Notation ErrNotFound := Files.ErrNotFound.
Notation ErrInvalid := Files.ErrInvalid.
Notation ErrForbidden := Files.ErrForbidden.
Notation ErrDatabase := Files.ErrDatabase.

Record DraftBindingInput := MkBinding {
  FileVersionID : UUID; Policy : AccessPolicy; DisplayName : string; Description : string; SortPosition : Z
}.
Record DraftBinding := MkDraftBinding { BindingID : UUID; BindingLesson : UUID; BindingInput : DraftBindingInput }.

(** ** Rules *)
Definition bindingAccessAllowed (policy : AccessPolicy) (processingState : string) (detectedMIME : list Z)
  (browserPlayable previewReady : bool) : bool :=
  if negb (bool_decide (processingState = "ready"%string)) then false
  else if bool_decide (policy = PolicyDownload) then true
  else if hasPrefix detectedMIME (bytes "video/") then browserPlayable
  else browserPlayable || previewReady.

Definition safeBindingText (v : string) (max : Z) (optional : bool) : bool :=
  ValidString v && (optional || negb (bool_decide (v = EmptyString))) && (RuneCountInString v <=? max)
  && forallb (fun x => negb (IsControl x) && negb (x =? 47) && negb (x =? 92)) (runes v).

(** The inputs with their texts trimmed. *)
Definition trimmedInput (i : DraftBindingInput) : DraftBindingInput :=
  MkBinding (FileVersionID i) (Policy i) (TrimSpace (DisplayName i)) (TrimSpace (Description i)) (SortPosition i).

(** The checks of the loop over trimmed inputs, of which each version and each position
    may occur once. *)
Definition badInput (seenVersions : list UUID) (seenPositions : list Z) (i : DraftBindingInput) : bool :=
  (FileVersionID i =? NilUUID)%N
  || (negb (bool_decide (Policy i = PolicyPreview)) && negb (bool_decide (Policy i = PolicyDownload)))
  || (SortPosition i <? 0)
  || bool_decide (FileVersionID i ∈ seenVersions) || bool_decide (SortPosition i ∈ seenPositions)
  || negb (safeBindingText (DisplayName i) 255 false) || negb (safeBindingText (Description i) 500 true).

Fixpoint validInputs (seenVersions : list UUID) (seenPositions : list Z) (inputs : list DraftBindingInput) : bool :=
  match inputs with
  | [] => true
  | i :: rest =>
      negb (badInput seenVersions seenPositions i)
      && validInputs (FileVersionID i :: seenVersions) (SortPosition i :: seenPositions) rest
  end.

Section Store.
Context `{PgTime} `{UUIDText}.

(** ** What is known of a version *)
Definition effectiveMIME (v : VersionRow) : list Z :=
  ToLower (bytes (match v_detected v with
                  | Some m => if bool_decide (m = EmptyString) then v_mime v else m
                  | None => v_mime v
                  end)).

Definition previewReady (db : FilesDB) (version : UUID) : bool :=
  existsb (fun '((v, _), _) => (v =? version)%N) (map_to_list (previews db)).

Definition allowedFor (db : FilesDB) (policy : AccessPolicy) (version : UUID) (v : VersionRow) : bool :=
  bindingAccessAllowed policy (v_state v) (effectiveMIME v) (v_playable v) (previewReady db version).

(** A file that exists, is not deleted and has a teaching version. *)
Definition liveFile (db : FilesDB) (file : UUID) : bool :=
  match files db !! file with
  | Some f => open_ (file_deletedAt f) && existsb (fun '(_, v) => Cleanup.teachingVersion file v) (map_to_list (versions db))
  | None => false
  end.

(** A teaching version of a file that is not deleted. *)
Definition bindable (db : FilesDB) (version : UUID) : option VersionRow :=
  match versions db !! version with
  | Some v =>
      if bool_decide (v_purpose v = UploadPurposeTeaching)
         && match files db !! v_file v with Some f => open_ (file_deletedAt f) | None => false end
      then Some v else None
  | None => None
  end.

(** ** Bindings of a draft *)
Definition bumpDraft (by_ : option UUID) (now : Time) (d : DraftRow) : DraftRow :=
  MkDraftRow (d_title d) (d_summary d) (d_body d) (d_sort d) (d_lock d + 1) (or_zero (d_updatedBy d) by_) now.

Definition ofLesson (lesson : UUID) (b : BindingRow) : bool := (b_owner b =? lesson)%N.

Definition bindingCheck (b : BindingRow) : bool :=
  (bool_decide (b_policy b = PolicyPreview) || bool_decide (b_policy b = PolicyDownload))
  && (0 <=? b_position b) && charLength 1 255 (b_name b) && (RuneCountInString (b_description b) <=? 500).

Definition bindingConflict (m : gmap N BindingRow) (id : UUID) (b : BindingRow) : bool :=
  bool_decide (is_Some (m !! id))
  || existsb (fun '(_, c) => (b_owner c =? b_owner b)%N
       && ((b_version c =? b_version b)%N || (b_position c =? b_position b))) (map_to_list m).

Definition insertBinding (lesson : UUID) (id : UUID) (i : DraftBindingInput) (db : LessonDB) : option LessonDB :=
  let row := MkBindingRow lesson (FileVersionID i) (Policy i) (SortPosition i) (DisplayName i) (Description i) in
  if bindingConflict (draftFiles (draftT db)) id row || negb (bindingCheck row)
     || negb (bool_decide (is_Some (versions (base db) !! FileVersionID i)))
  then None
  else Some (setDrafts (setDraftFiles (<[id := row]> (draftFiles (draftT db))) (draftT db)) db).

Fixpoint insertBindings (lesson : UUID) (inputs : list DraftBindingInput) : DB LessonDB Error (list DraftBinding) :=
  match inputs with
  | [] => dret []
  | i :: rest =>
      (do id <- newUUID;
       call ErrDatabase;
       do db <- dget;
       match insertBinding lesson id i db with
       | None => dfail ErrDatabase
       | Some db' =>
         do _ <- dput db';
         do out <- insertBindings lesson rest;
         dret (MkDraftBinding id lesson i :: out)
       end)%db
  end.

(** The policy of a version: of several inputs the last one counts. *)
Definition policyOf (inputs : list DraftBindingInput) (version : UUID) : AccessPolicy :=
  match List.find (fun i => (FileVersionID i =? version)%N) (rev inputs) with
  | Some i => Policy i
  | None => PolicyOther EmptyString
  end.

(** The rows of the versions asked for, locked; how many there are and whether all
    may be bound. *)
Definition lockedVersions (db : FilesDB) (inputs : list DraftBindingInput) : list (N * VersionRow) :=
  List.filter (fun '(id, _) => bool_decide (id ∈ FileVersionID <$> inputs) && bool_decide (is_Some (bindable db id)))
    (map_to_list (versions db)).

Definition checkVersions (inputs : list DraftBindingInput) : DB LessonDB Error unit :=
  (if bool_decide (inputs = []) then dret tt
   else
     call ErrDatabase;
     do db <- dget;
     let rows := lockedVersions (base db) inputs in
     fail if negb (forallb (fun '(id, v) => allowedFor (base db) (policyOf inputs id) id v) rows) with ErrAccessUnavailable;
     fail if negb (length rows =? length inputs)%nat with ErrNotFound;
     dret tt)%db.

Definition lessonAudit (actor : Principal) (action target : string) (id : UUID) : Audit.Event :=
  Cleanup.fileAudit actor action target id.

(** A draft whose version is raised; the column is a [bigint]. *)
Definition bumpLesson (lesson : UUID) (by_ : option UUID) : DB LessonDB Error unit :=
  (do now <- databaseNow ErrDatabase;
   do db <- dget;
   fail if existsb (fun '(id, d) => (id =? lesson)%N && (2 ^ 63 - 1 <=? d_lock d)) (map_to_list (drafts (draftT db)))
     with ErrDatabase;
   dput (setDrafts (setDraftRows (alter (bumpDraft by_ now) lesson (drafts (draftT db))) (draftT db)) db))%db.

Definition replaceBindingsBody (actor : Principal) (lesson : UUID) (expected : Z) (inputs : list DraftBindingInput) :
  DB LessonDB Error (list DraftBinding) :=
  (call ErrDatabase;
   do db <- dget;
   match drafts (draftT db) !! lesson with
   | None => dfail ErrNotFound
   | Some d =>
     fail if negb (d_lock d =? expected) with ErrDraftConflict;
     call ErrDatabase;
     do _ <- dput (setDrafts (setDraftFiles (filter (fun '(_, b) => ofLesson lesson b = false) (draftFiles (draftT db)))
                                (draftT db)) db);
     do _ <- checkVersions inputs;
     do out <- insertBindings lesson inputs;
     do _ <- bumpLesson lesson None;
     do _ <- Audit.Write auditFailed (lessonAudit actor "file.policy_changed" "lesson" lesson);
     do db' <- dget;
     do _ <- dput (synced db');
     dret out
   end)%db.

Definition ReplaceDraftBindings (actor : Principal) (lesson : UUID) (expected : Z) (inputs : list DraftBindingInput) :
  DB LessonDB Error (list DraftBinding) :=
  transact ErrDatabase ErrDatabase (replaceBindingsBody actor lesson expected inputs).

(** The service. *)
Definition activeAdmin (actor : Principal) : bool :=
  bool_decide (User_Role actor = RoleAdmin) && bool_decide (User_Status actor = StatusActive).

Definition Replace (actor : Principal) (lesson : UUID) (expected : Z) (inputs : list DraftBindingInput) :
  DB LessonDB Error (list DraftBinding) :=
  (fail if negb (activeAdmin actor) with ErrForbidden;
   fail if (lesson =? NilUUID)%N || (expected <? 1) || (100 <? Z.of_nat (length inputs)) with ErrInvalid;
   fail if negb (validInputs [] [] (trimmedInput <$> inputs)) with ErrInvalid;
   ReplaceDraftBindings actor lesson expected (trimmedInput <$> inputs))%db.

Definition ListDraftBindings (lesson : UUID) : DB LessonDB Error (list DraftBinding) :=
  (call ErrDatabase;
   do db <- dget;
   fail if negb (bool_decide (is_Some (drafts (draftT db) !! lesson))) with ErrNotFound;
   call ErrDatabase;
   dret ((fun '(id, b) => MkDraftBinding id lesson (MkBinding (b_version b) (b_policy b) (b_name b) (b_description b) (b_position b)))
     <$> orderBy (fun '(id, b) => [b_position b; Z.of_N id])
           (List.filter (fun '(_, b) => ofLesson lesson b
              && match versions (base db) !! b_version b with
                 | Some v => bool_decide (v_purpose v = UploadPurposeTeaching) | None => false end)
             (map_to_list (draftFiles (draftT db))))))%db.

Definition List_ (actor : Principal) (lesson : UUID) : DB LessonDB Error (list DraftBinding) :=
  (fail if negb (activeAdmin actor) with ErrForbidden;
   fail if (lesson =? NilUUID)%N with ErrInvalid;
   ListDraftBindings lesson)%db.

End Store.
End Bindings.

(** * The file center

    Models [internal/files/postgres_file_center.go] and [file_center_service.go] over
    the tables of lessons and files: the filtered listing, details, replacing a file
    by an uploaded one, rolling a draft back to an earlier version, and the service.
    [RetryFile] and [DeleteFile] are those of [FilesCleanup].  [strpos(lower(...))] of
    the server and lower case beyond ASCII are parameters. *)

Import Files.

Module Center.
Import Lessons Bindings.

(** ** Data *)
Record FileFilter := MkFilter {
  FilterName : string; FilterType : string; FilterState : string; FilterReference : string;
  CreatedFrom : option Time; CreatedTo : option Time
}.
Record Cursor := MkCursor { AfterCreatedAt : Time; AfterID : UUID; Limit : Z }.

Record FileReference := MkReference { RefKind : string; RefLesson : UUID; RefTitle : string; RefRevision : UUID }.

Record FileVersionDetail := MkVersionDetail {
  DetailID : UUID; DetailFile : UUID; DetailVersion : Z; DetailName : string; DetailDeclared : string; DetailDetected : string;
  DetailSize : Z; DetailState : string; DetailFailure : string; DetailPreviewState : string; DetailPlayable : bool;
  DetailCreated : Time; DetailRetention : option Time
}.
Record FileListItem := MkItem {
  ItemID : UUID; ItemCreated : Time; ItemDeleted : option Time; Latest : FileVersionDetail; References : Z
}.
Record FilePage := MkPage { Items : list FileListItem; NextCursor : option (Time * UUID) }.
Record FileDetail := MkDetail {
  FileDetailID : UUID; FileCreated : Time; FileDeleted : option Time; Versions : list FileVersionDetail; FileRefs : list FileReference
}.

(** ** The service's checks *)
Definition filterTypes : list string := [""; "document"; "image"; "office"; "video"; "text"].
Definition filterStates : list string := [""; "pending_scan"; "processing"; "ready"; "rejected"; "failed"].
Definition filterReferences : list string := [""; "referenced"; "unreferenced"; "draft"; "published"].

Definition validFileFilter (f : FileFilter) : bool :=
  ValidString (FilterName f) && (RuneCountInString (FilterName f) <=? 100)
  && member filterTypes (FilterType f) && member filterStates (FilterState f) && member filterReferences (FilterReference f)
  && match CreatedFrom f, CreatedTo f with Some a, Some b => negb (After a b) | _, _ => true end.

(** [lower] is [strings.ToLower] on all of Unicode. *)
Definition loweredName (lower : string -> string) (f : FileFilter) : FileFilter :=
  MkFilter (lower (TrimSpace (FilterName f))) (FilterType f) (FilterState f)
    (FilterReference f) (CreatedFrom f) (CreatedTo f).

Section Store.
Context `{PgTime} `{UUIDText} (nameContains : string -> string -> bool) (lower : string -> string).

(** ** Listing *)
Definition teachingVersions (db : FilesDB) (file : UUID) : list (N * VersionRow) :=
  orderBy (fun '(id, v) => [- v_version v; - Z.of_N id])
    (List.filter (fun '(_, v) => Cleanup.teachingVersion file v) (map_to_list (versions db))).

(** The state of the newest preview: previews are always stored as ready. *)
Definition previewState (db : FilesDB) (version : UUID) : string :=
  if previewReady db version then "ready" else EmptyString.

Definition versionDetail (db : FilesDB) (id : UUID) (v : VersionRow) : FileVersionDetail :=
  MkVersionDetail id (v_file v) (v_version v) (v_name v) (v_mime v) (or_zero EmptyString (v_detected v)) (v_size v)
    (v_state v) (or_zero EmptyString (v_failure v)) (previewState db id) (v_playable v) (v_createdAt v) (v_retention v).

(** The bindings of a table to teaching versions of a file. *)
Definition bindingsTo (db : FilesDB) (file : UUID) (m : gmap N BindingRow) : list (N * BindingRow) :=
  List.filter (fun '(_, b) => match versions db !! b_version b with
                              | Some v => Cleanup.teachingVersion file v | None => false end) (map_to_list m).

Definition typeMatches (type : string) (v : VersionRow) : bool :=
  let mime := bytes (match v_detected v with
                     | Some m => if bool_decide (m = EmptyString) then v_mime v else m
                     | None => v_mime v
                     end) in
  if bool_decide (type = EmptyString) then true
  else if bool_decide (type = "document"%string) then bool_decide (mime = bytes "application/pdf")
  else if bool_decide (type = "image"%string) then hasPrefix mime (bytes "image/")
  else if bool_decide (type = "office"%string) then hasPrefix mime (bytes "application/vnd.openxmlformats-officedocument.")
  else if bool_decide (type = "video"%string) then hasPrefix mime (bytes "video/")
  else if bool_decide (type = "text"%string) then bool_decide (mime = bytes "text/plain") || bool_decide (mime = bytes "text/markdown")
  else false.

Definition referenceMatches (ref : string) (inDraft inRevision : bool) : bool :=
  if bool_decide (ref = EmptyString) then true
  else if bool_decide (ref = "referenced"%string) then inDraft || inRevision
  else if bool_decide (ref = "unreferenced"%string) then negb inDraft && negb inRevision
  else if bool_decide (ref = "draft"%string) then inDraft
  else if bool_decide (ref = "published"%string) then inRevision
  else false.

Definition nonEmpty {A} (l : list A) : bool := match l with [] => false | _ => true end.

(** The item of a file, when the filter lets it through. *)
Definition listed (filter : FileFilter) (db : LessonDB) (file : UUID) (f : FileRow) : option FileListItem :=
  match teachingVersions (base db) file with
  | [] => None
  | (id, v) :: _ =>
      let inDraft := bindingsTo (base db) file (draftFiles (draftT db)) in
      let inRevision := bindingsTo (base db) file (revFiles (revisionT db)) in
      if open_ (file_deletedAt f)
         && (bool_decide (FilterName filter = EmptyString) || nameContains (v_name v) (FilterName filter))
         && typeMatches (FilterType filter) v
         && (bool_decide (FilterState filter = EmptyString) || bool_decide (v_state v = FilterState filter))
         && referenceMatches (FilterReference filter) (nonEmpty inDraft) (nonEmpty inRevision)
         && match CreatedFrom filter with Some t => negb (Before (file_createdAt f) (pg t)) | None => true end
         && match CreatedTo filter with Some t => negb (After (file_createdAt f) (pg t)) | None => true end
      then Some (MkItem file (file_createdAt f) (file_deletedAt f) (versionDetail (base db) id v)
                   (Z.of_nat (length inDraft + length inRevision)))
      else None
  end.

Definition itemKey (i : FileListItem) : Z * Z := (ns (ItemCreated i), Z.of_N (ItemID i)).

Definition listedFiles (filter : FileFilter) (db : LessonDB) : list FileListItem :=
  omap (fun '(id, f) => listed filter db id f) (map_to_list (files (base db))).

Definition cursorKey (c : Cursor) : option (Z * Z) :=
  if IsZero (AfterCreatedAt c) then None else Some (ns (pg (AfterCreatedAt c)), Z.of_N (AfterID c)).

Definition ListFiles (filter : FileFilter) (cursor : Cursor) : DB LessonDB Error FilePage :=
  (call ErrDatabase;
   do db <- dget;
   let '(items, next) := page itemKey (Z.to_nat (Limit cursor)) (cursorKey cursor) (orderDesc itemKey (listedFiles filter db)) in
   dret (MkPage items ((fun '(t, id) => (MkTime t None, Z.to_N id)) <$> next)))%db.

(** ** Details *)
Definition lessonTitle (db : LessonDB) (lesson : UUID) : option string := d_title <$> drafts (draftT db) !! lesson.

Definition draftRefs (db : LessonDB) (file : UUID) : list FileReference :=
  omap (fun '(_, b) => (fun t => MkReference "draft" (b_owner b) t NilUUID) <$> lessonTitle db (b_owner b))
    (bindingsTo (base db) file (draftFiles (draftT db))).

Definition revisionRefs (db : LessonDB) (file : UUID) : list FileReference :=
  omap (fun '(_, b) => (fun r => MkReference "published" (r_lesson r) (r_title r) (b_owner b))
                        <$> revisions (revisionT db) !! b_owner b)
    (bindingsTo (base db) file (revFiles (revisionT db))).

#[local] Instance FileReference_eq_dec : EqDecision FileReference.
Proof. solve_decision. Defined.

(** The references; the server orders them by kind, title and lesson. *)
Definition FileDetail_ (file : UUID) : DB LessonDB Error FileDetail :=
  (call ErrDatabase;
   do db <- dget;
   match files (base db) !! file with
   | None => dfail ErrNotFound
   | Some f =>
     fail if negb (liveFile (base db) file) with ErrNotFound;
     call ErrDatabase;
     call ErrDatabase;
     dret (MkDetail file (file_createdAt f) (file_deletedAt f)
       ((fun '(id, v) => versionDetail (base db) id v) <$> teachingVersions (base db) file)
       (remove_dups (draftRefs db file ++ revisionRefs db file)))
   end)%db.

Definition FileVersion (id : UUID) : DB LessonDB Error FileVersionDetail :=
  (call ErrDatabase;
   do db <- dget;
   match bindable (base db) id with
   | None => dfail ErrNotFound
   | Some v => dret (versionDetail (base db) id v)
   end)%db.

(** ** Replacing a file *)
Definition movedVersion (file : UUID) (version : Z) (v : VersionRow) : VersionRow :=
  MkVersionRow file version (v_purpose v) (v_key v) (v_name v) (v_mime v) (v_size v) (v_sha v)
    (v_state v) (v_createdBy v) (v_createdAt v) None (v_detected v) (v_scan v) (v_playable v)
    (v_container v) (v_codec v) (v_duration v) (v_width v) (v_height v) (v_failure v)
    (v_purged v) (v_cleanup v) (v_cleanupOwner v) (v_cleanupUntil v) (v_cleanupAttempts v).

Definition versionTaken (db : FilesDB) (file : UUID) (version : Z) (but : UUID) : bool :=
  existsb (fun '(id, v) => (v_file v =? file)%N && (v_version v =? version) && negb (id =? but)%N) (map_to_list (versions db)).

(** Bindings of drafts to [old] move to [new], and their drafts are raised. *)
Definition rebound (old new : UUID) (m : gmap N BindingRow) : gmap N BindingRow :=
  (fun b => if (b_version b =? old)%N
            then MkBindingRow (b_owner b) new (b_policy b) (b_position b) (b_name b) (b_description b) else b) <$> m.

Definition draftsUsing (version : UUID) (m : gmap N BindingRow) : gset N :=
  list_to_set (b_owner ∘ snd <$> List.filter (fun '(_, b) => (b_version b =? version)%N) (map_to_list m)).

Definition bumpAll (ids : gset N) (actor : UUID) (now : Time) (m : gmap N DraftRow) : gmap N DraftRow :=
  map_imap (fun id d => Some (if bool_decide (id ∈ ids) then bumpDraft (Some actor) now d else d)) m.

Definition bumpOverflows (ids : gset N) (m : gmap N DraftRow) : bool :=
  existsb (fun '(id, d) => bool_decide (id ∈ ids) && (2 ^ 63 - 1 <=? d_lock d)) (map_to_list m).

Definition rebindBody (old new actor : UUID) : DB LessonDB Error unit :=
  (do now <- databaseNow ErrDatabase;
   do db <- dget;
   let affected := draftsUsing old (draftFiles (draftT db)) in
   fail if bumpOverflows affected (drafts (draftT db)) || negb (bool_decide (actor ∈ users (base db))) && nonEmpty (elements affected)
     with ErrDatabase;
   dput (setDrafts (setDraftFiles (rebound old new (draftFiles (draftT db)))
                     (setDraftRows (bumpAll affected actor now (drafts (draftT db))) (draftT db))) db))%db.

Definition policiesAllow (db : LessonDB) (previous uploaded : UUID) (v : VersionRow) : bool :=
  forallb (fun '(_, b) => negb (b_version b =? previous)%N || allowedFor (base db) (b_policy b) uploaded v)
    (map_to_list (draftFiles (draftT db))).

Definition replaceFileBody (actor : Principal) (file uploaded : UUID) (retentionUntil : Time) : DB LessonDB Error unit :=
  (call ErrDatabase;
   do db <- dget;
   match versions (base db) !! uploaded with
   | Some v =>
     fail if negb (bool_decide (v_purpose v = UploadPurposeTeaching)) with ErrNotFound;
     let source := v_file v in
     fail if (source =? file)%N with ErrInvalid;
     call ErrDatabase;
     call ErrDatabase;
     fail if negb (liveFile (base db) file && liveFile (base db) source) with ErrNotFound;
     call ErrDatabase;
     call ErrDatabase;
     fail if negb (v_version v =? 1) with ErrInvalid;
     fail if negb (allowedFor (base db) PolicyDownload uploaded v) with ErrAccessUnavailable;
     call ErrDatabase;
     fail if negb (length (teachingVersions (base db) source) =? 1)%nat || bool_decide (uploaded ∈ boundVersions db)
       with ErrFileInUse;
     call ErrDatabase;
     match teachingVersions (base db) file with
     | [] => dfail ErrNoRows
     | (previous, p) :: _ =>
       call ErrDatabase;
       fail if negb (policiesAllow db previous uploaded v) with ErrAccessUnavailable;
       call ErrDatabase;
       call ErrDatabase;
       fail if versionTaken (base db) file (v_version p + 1) uploaded || (2 ^ 63 - 1 <=? v_version p) with ErrDatabase;
       let moved := <[uploaded := movedVersion file (v_version p + 1) v]>
                      (<[previous := Cleanup.withRetention (Some (pg retentionUntil)) p]> (versions (base db))) in
       do _ <- dput (setBase (setVersions moved (base db)) db);
       do _ <- rebindBody previous uploaded (User_ID actor);
       call ErrDatabase;
       do db' <- dget;
       fail if existsb (fun '(_, w) => (v_file w =? source)%N) (map_to_list (versions (base db'))) with ErrDatabase;
       do _ <- dput (synced (setBase (setFiles (delete source (files (base db'))) (base db')) db'));
       Audit.Write auditFailed (Cleanup.fileAudit actor "file.replaced" "file" file)
     end
   | None => dfail ErrNotFound
   end)%db.

Definition ReplaceFile (actor : Principal) (file uploaded : UUID) (retentionUntil : Time) : DB LessonDB Error unit :=
  transact ErrDatabase ErrDatabase (replaceFileBody actor file uploaded retentionUntil).

(** ** Rolling a draft back *)
Definition rebindOne (binding version : UUID) (m : gmap N BindingRow) : gmap N BindingRow :=
  alter (fun b => MkBindingRow (b_owner b) version (b_policy b) (b_position b) (b_name b) (b_description b)) binding m.

Definition draftBindsVersion (m : gmap N BindingRow) (lesson version : UUID) (but : UUID) : bool :=
  existsb (fun '(id, b) => ofLesson lesson b && (b_version b =? version)%N && negb (id =? but)%N) (map_to_list m).

(** [choice]: which of the bindings the server returns first, when the draft binds
    several versions of the file. *)
Definition rollbackBody (choice : nat) (actor : Principal) (file lesson version : UUID) : DB LessonDB Error unit :=
  (call ErrDatabase;
   do db <- dget;
   let mine := List.filter (fun '(_, b) => ofLesson lesson b) (bindingsTo (base db) file (draftFiles (draftT db))) in
   match mine !! (choice mod length mine)%nat with
   | None => dfail ErrNotFound
   | Some (binding, b) =>
     fail if negb (bool_decide (is_Some (drafts (draftT db) !! lesson))) with ErrNotFound;
     call ErrDatabase;
     fail if negb (liveFile (base db) file) with ErrNotFound;
     call ErrDatabase;
     call ErrDatabase;
     match versions (base db) !! version with
     | Some v =>
       fail if negb (Cleanup.teachingVersion file v) with ErrNotFound;
       do now <- wallNow;
       fail if match v_retention v with Some t => negb (After t now) | None => false end with ErrFileVersionExpired;
       fail if negb (bool_decide (v_state v = "ready"%string)) with ErrInvalid;
       do _ <- (if negb (b_version b =? version)%N then
                  call ErrDatabase;
                  fail if draftBindsVersion (draftFiles (draftT db)) lesson version binding with ErrDatabase;
                  do _ <- dput (setDrafts (setDraftFiles (rebindOne binding version (draftFiles (draftT db))) (draftT db)) db);
                  fail if negb (bool_decide (User_ID actor ∈ users (base db))) with ErrDatabase;
                  bumpLesson lesson (Some (User_ID actor))
                else dret tt);
       do db' <- dget;
       do _ <- dput (synced db');
       Audit.Write auditFailed (Cleanup.fileAudit actor "file.draft_rolled_back" "file_version" version)
     | None => dfail ErrNotFound
     end
   end)%db.

Definition RollbackFile (choice : nat) (actor : Principal) (file lesson version : UUID) : DB LessonDB Error unit :=
  transact ErrDatabase ErrDatabase (rollbackBody choice actor file lesson version).

(** ** The service *)
Definition asPrincipal {A} (actor : Principal) (k : DB LessonDB Error A) : DB LessonDB Error A :=
  match validatePrincipal actor with Ok _ => k | Err _ => dfail ErrForbidden end.

Definition defaultLimit (c : Cursor) : Cursor := if Limit c =? 0 then MkCursor (AfterCreatedAt c) (AfterID c) 50 else c.

Definition List_ (actor : Principal) (filter : FileFilter) (cursor : Cursor) : DB LessonDB Error FilePage :=
  asPrincipal actor
    (let filter := loweredName lower filter in
     let cursor := defaultLimit cursor in
     (fail if negb (validFileFilter filter) || (Limit cursor <? 1) || (100 <? Limit cursor)
              || negb (Bool.eqb (IsZero (AfterCreatedAt cursor)) (AfterID cursor =? NilUUID)%N) with ErrInvalid;
      ListFiles filter cursor)%db).

Definition Detail (actor : Principal) (file : UUID) : DB LessonDB Error FileDetail :=
  asPrincipal actor (fail if (file =? NilUUID)%N with ErrInvalid; FileDetail_ file)%db.

Definition Retry (actor : Principal) (version : UUID) : DB LessonDB Error unit :=
  asPrincipal actor
    (fail if (version =? NilUUID)%N with ErrInvalid;
     do v <- FileVersion version;
     fail if negb (bool_decide (DetailState v = "failed"%string)) || negb (retryableFailure (DetailFailure v)) with ErrFileNotRetryable;
     onFiles (Cleanup.RetryFile actor version))%db.

Definition Replace (actor : Principal) (file uploaded : UUID) : DB LessonDB Error unit :=
  asPrincipal actor
    (fail if (file =? NilUUID)%N || (uploaded =? NilUUID)%N with ErrInvalid;
     do now <- wallNow;
     ReplaceFile actor file uploaded (addDuration (UTC now) FileRetentionPeriod))%db.

Definition RollbackDraftBinding (choice : nat) (actor : Principal) (file lesson version : UUID) : DB LessonDB Error unit :=
  asPrincipal actor
    (fail if (file =? NilUUID)%N || (lesson =? NilUUID)%N || (version =? NilUUID)%N with ErrInvalid;
     do detail <- FileDetail_ file;
     match List.find (fun v => (DetailID v =? version)%N) (Versions detail) with
     | None => dfail ErrNotFound
     | Some v =>
       do now <- (match DetailRetention v with Some _ => wallNow | None => dret zeroTime end);
       fail if match DetailRetention v with Some t => negb (After t now) | None => false end with ErrFileVersionExpired;
       RollbackFile choice actor file lesson version
     end)%db.

Definition RequestDelete (actor : Principal) (file : UUID) : DB LessonDB Error unit :=
  asPrincipal actor
    (fail if (file =? NilUUID)%N with ErrInvalid;
     do detail <- FileDetail_ file;
     fail if nonEmpty (FileRefs detail) with ErrFileInUse;
     do now <- wallNow;
     onFiles (Cleanup.DeleteFile actor file (addDuration (UTC now) FileRetentionPeriod)))%db.

End Store.
End Center.
