(* ===== verification/LessonStore.v ===== *)
(** * The teaching store

    Models [internal/teaching/postgres_store.go] and [postgres_admin_read.go]: the
    catalog, drafts, publication and progress.  The operations run inside the
    transaction of a service call.  The normalised name that the server computes for
    a catalog node is a parameter; lists that only the administration reads (catalog,
    revisions), browsing and search are not modelled. *)

From S2P Require Import Prelude GoTime GoText GoStrings GoFloat Pg OpsModel Keyset AuditLog FilesModel FilesStore LessonModel LessonFiles.
From stdpp Require Import base tactics list gmap strings.
From Stdlib Require Import ZArith Lia.

Open Scope Z_scope.

Module Teaching.
Import Lessons.

(** [mapTeachingError] on what the server reports. *)
Inductive PgFailure := UniqueViolation | ForeignKeyViolation | CheckViolation | OtherFailure.
Definition mapTeachingError (e : PgFailure) : Error :=
  match e with
  | UniqueViolation => ErrConflict
  | ForeignKeyViolation => ErrNotFound
  | CheckViolation => ErrInvalid
  | OtherFailure => ErrDatabase
  end.

Definition auditFailed (e : Audit.Error) : Error := ErrDatabase.

(** ** Constraints *)

(** [char_length(btrim(text))]. *)
Definition btrimmed (s : string) : list Z :=
  let fix drop r := match r with 32 :: rest => drop rest | _ => r end in rev (drop (rev (drop (runes s)))).
Definition btrimLength (lo hi : Z) (s : string) : bool :=
  (lo <=? Z.of_nat (length (btrimmed s))) && (Z.of_nat (length (btrimmed s)) <=? hi).

Definition textCheck (title summary body : string) : bool :=
  btrimLength 1 160 title && (RuneCountInString summary <=? 500) && (RuneCountInString body <=? 200000).

(** [url ~ '^https://[^/?#[:space:]]+']. *)
Definition urlCheck (url : string) : bool :=
  match hasPrefix (bytes url) (bytes "https://"), drop 8 (runes url) with
  | true, x :: _ => negb (existsb (Z.eqb x) [47; 63; 35]) && negb (IsSpace x)
  | _, _ => false
  end.

Definition videoCheck (v : ExternalVideo) : bool :=
  urlCheck (URL v) && btrimLength 1 160 (VideoTitle v) && (RuneCountInString (VideoDescription v) <=? 500).

Definition modeCheck (mode : string) : bool := member [AudienceAll; AudienceSelected] mode.

Definition raise {A} (b : bool) (e : PgFailure) (k : DB LessonDB Error A) : DB LessonDB Error A :=
  if b then dfail (mapTeachingError e) else k.

Definition known (db : LessonDB) (user : UUID) : bool := bool_decide (user ∈ users (base db)).

(** ** The catalog *)
Definition tableOf (k : CatalogKind) (c : CatalogTables) : option (gmap N NodeRow) :=
  match k with
  | CatalogGrade => Some (grades c) | CatalogTerm => Some (terms c)
  | CatalogSubject => Some (subjects c) | CatalogChapter => Some (chapters c)
  | CatalogOther _ => None
  end.

Definition setTable (k : CatalogKind) (m : gmap N NodeRow) (c : CatalogTables) : CatalogTables :=
  match k with
  | CatalogGrade => MkCatalog m (terms c) (subjects c) (chapters c) (lessons c)
  | CatalogTerm => MkCatalog (grades c) m (subjects c) (chapters c) (lessons c)
  | CatalogSubject => MkCatalog (grades c) (terms c) m (chapters c) (lessons c)
  | CatalogChapter => MkCatalog (grades c) (terms c) (subjects c) m (lessons c)
  | CatalogOther _ => c
  end.

(** The parent exists and is not archived itself; its ancestors may be. *)
Definition parentLive (k : CatalogKind) (parent : UUID) (c : CatalogTables) : bool :=
  match k with
  | CatalogGrade => true
  | CatalogTerm => bool_decide (is_Some (liveNode (grades c) parent))
  | CatalogSubject => bool_decide (is_Some (liveNode (terms c) parent))
  | CatalogChapter => bool_decide (is_Some (liveNode (subjects c) parent))
  | CatalogOther _ => false
  end.

Definition isChapter (k : CatalogKind) : bool := bool_decide (k = CatalogChapter).

Section Store.
Context `{PgTime} `{UUIDText} (norm : string -> string).

Definition nameTaken (m : gmap N NodeRow) (parent : UUID) (name : string) (but : UUID) : bool :=
  existsb (fun '(id, n) => (n_parent n =? parent)%N && bool_decide (norm (n_name n) = norm name) && negb (id =? but)%N)
    (map_to_list m).

Definition nodeCheck (n : NodeRow) : bool := btrimLength 1 80 (n_name n) && (RuneCountInString (n_description n) <=? 500).

Definition CreateCatalog (i : CatalogCreateInput) : DB LessonDB Error CatalogNode :=
  (do db <- dget;
   let c := catalog db in
   match tableOf (CreateKind i) c with
   | None => dfail ErrInvalid
   | Some m =>
     call ErrDatabase;
     fail if negb (parentLive (CreateKind i) (CreateParent i) c) with ErrNotFound;
     do id <- newUUID;
     let parent := if bool_decide (CreateKind i = CatalogGrade) then NilUUID else CreateParent i in
     let description := if isChapter (CreateKind i) then CreateDescription i else EmptyString in
     let row := MkNodeRow parent (CreateName i) description (CreateSortKey i) None in
     raise (negb (nodeCheck row)) CheckViolation
       (raise (bool_decide (is_Some (m !! id)) || nameTaken m parent (CreateName i) id) UniqueViolation
         (do _ <- dput (setCatalog (setTable (CreateKind i) (<[id := row]> m) c) db);
          dret (MkNode id parent (CreateKind i) (CreateName i) description (CreateSortKey i) None))%db)
   end)%db.

Definition renamed (name : string) (n : NodeRow) : NodeRow :=
  MkNodeRow (n_parent n) name (n_description n) (n_sort n) (n_archived n).
Definition reordered (key : Z) (n : NodeRow) : NodeRow :=
  MkNodeRow (n_parent n) (n_name n) (n_description n) key (n_archived n).
Definition archivedAt (at_ : option Time) (n : NodeRow) : NodeRow :=
  MkNodeRow (n_parent n) (n_name n) (n_description n) (n_sort n) at_.

Definition RenameCatalog (k : CatalogKind) (id : UUID) (name : string) : DB LessonDB Error CatalogNode :=
  (do db <- dget;
   match tableOf k (catalog db) with
   | None => dfail ErrInvalid
   | Some m =>
     call ErrDatabase;
     match m !! id with
     | None => dfail ErrNotFound
     | Some n =>
       raise (negb (nodeCheck (renamed name n))) CheckViolation
         (raise (nameTaken m (n_parent n) name id) UniqueViolation
           (do _ <- dput (setCatalog (setTable k (<[id := renamed name n]> m) (catalog db)) db);
            dret (MkNode id (n_parent n) k name EmptyString (n_sort n) (n_archived n)))%db)
     end
   end)%db.

(** An update of one node by its identifier. *)
Definition updateNode (k : CatalogKind) (id : UUID) (f : NodeRow -> NodeRow) : DB LessonDB Error unit :=
  (do db <- dget;
   match tableOf k (catalog db) with
   | None => dfail ErrInvalid
   | Some m =>
     call ErrDatabase;
     fail if negb (bool_decide (is_Some (m !! id))) with ErrNotFound;
     dput (setCatalog (setTable k (alter f id m) (catalog db)) db)
   end)%db.

Definition ReorderCatalog (k : CatalogKind) (id : UUID) (key : Z) : DB LessonDB Error unit :=
  updateNode k id (reordered key).

Definition ArchiveCatalog (i : CatalogArchiveInput) : DB LessonDB Error unit :=
  (do now <- (if Archived i then wallNow else dret zeroTime);
   updateNode (ArchiveKind i) (ArchiveID i) (archivedAt (if Archived i then Some (pg (UTC now)) else None)))%db.

(** ** Drafts *)
Definition videosOf (owner : UUID) (m : gmap N (N * ExternalVideo)) : list ExternalVideo :=
  orderBy (fun v => [VideoSortKey v; Z.of_N (VideoID v)])
    (snd ∘ snd <$> List.filter (fun '(_, (o, _)) => (o =? owner)%N) (map_to_list m)).

Definition audienceOf (m : gmap N AudienceRow) (owner : UUID) : Audience :=
  match m !! owner with
  | Some a => MkAudience (m_mode a) (orderBy (fun id => [Z.of_N id]) (m_users a))
  | None => MkAudience EmptyString []
  end.

Definition GetDraft (lesson : UUID) : DB LessonDB Error Draft :=
  (call ErrDatabase;
   do db <- dget;
   match drafts (draftT db) !! lesson, lessons (catalog db) !! lesson with
   | Some d, Some l =>
     call ErrDatabase;
     call ErrDatabase;
     call ErrDatabase;
     dret (MkDraft lesson (l_chapter l) (d_title d) (d_summary d) (d_body d) (d_sort d) (d_lock d)
       (audienceOf (draftAudiences (draftT db)) lesson) (videosOf lesson (draftVideos (draftT db))) (d_updatedAt d))
   | _, _ => dfail ErrNotFound
   end)%db.

Definition CreateLesson (i : CreateLessonInput) : DB LessonDB Error Draft :=
  (call ErrDatabase;
   do db <- dget;
   fail if negb (bool_decide (is_Some (liveNode (chapters (catalog db)) (InChapter i)))) with ErrNotFound;
   do id <- newUUID;
   raise (bool_decide (is_Some (lessons (catalog db) !! id)) || bool_decide (is_Some (drafts (draftT db) !! id))
          || bool_decide (is_Some (draftAudiences (draftT db) !! id))) UniqueViolation
    (do now <- databaseNow ErrDatabase;
     raise (negb (textCheck (InTitle i) EmptyString EmptyString)) CheckViolation
      (raise (negb (known db (InActor i))) ForeignKeyViolation
        (call ErrDatabase;
         do _ <- dput (setCatalog (setLessons (<[id := MkLessonRow (InChapter i) None None]> (lessons (catalog db))) (catalog db))
                 (setDrafts (setDraftAudiences (<[id := MkAudienceRow AudienceAll []]> (draftAudiences (draftT db)))
                   (setDraftRows (<[id := MkDraftRow (InTitle i) EmptyString EmptyString 1024 1 (InActor i) now]> (drafts (draftT db)))
                     (draftT db))) db));
         GetDraft id)%db))%db)%db.

(** The users of an audience, inserted one by one past the trigger that asks for active
    students and the selected mode. *)
Fixpoint insertAudience (db : LessonDB) (mode : string) (ids : list UUID) (row : list UUID) :
  DB LessonDB Error (list UUID) :=
  match ids with
  | [] => dret row
  | id :: rest =>
      (call ErrDatabase;
       raise (negb (activeUser RoleStudent db id) || negb (bool_decide (mode = AudienceSelected))) CheckViolation
         (raise (bool_decide (id ∈ row)) UniqueViolation (insertAudience db mode rest (row ++ [id]))))%db
  end.

Fixpoint insertVideos (owner : UUID) (vs : list ExternalVideo) (m : gmap N (N * ExternalVideo)) :
  DB LessonDB Error (gmap N (N * ExternalVideo)) :=
  match vs with
  | [] => dret m
  | v :: rest =>
      (call ErrDatabase;
       raise (negb (videoCheck v)) CheckViolation
         (raise (bool_decide (is_Some (m !! VideoID v))) UniqueViolation
           (insertVideos owner rest (<[VideoID v := (owner, v)]> m))))%db
  end.

Definition savedDraft (i : SaveDraftInput) (now : Time) (d : DraftRow) : DraftRow :=
  MkDraftRow (SaveTitle i) (SaveSummary i) (SaveBody i) (SaveSortKey i) (d_lock d + 1) (SaveActor i) now.

Definition SaveDraft (i : SaveDraftInput) : DB LessonDB Error Draft :=
  (do now <- databaseNow ErrDatabase;
   do db <- dget;
   let t := draftT db in
   match drafts t !! SaveLesson i with
   | Some d =>
     fail if negb (d_lock d =? SaveExpected i) with ErrConflict;
     raise (negb (textCheck (SaveTitle i) (SaveSummary i) (SaveBody i))) CheckViolation
      (raise (2 ^ 63 - 1 <=? d_lock d) OtherFailure
       (raise (negb (known db (SaveActor i))) ForeignKeyViolation
        (call ErrDatabase;
         call ErrDatabase;
         raise (negb (modeCheck (Mode (SaveAudience i)))) CheckViolation
          (do members <- insertAudience db (Mode (SaveAudience i)) (UserIDs (SaveAudience i)) [];
           call ErrDatabase;
           do videos <- insertVideos (SaveLesson i) (SaveVideos i)
             (filter (fun '(_, (o, _)) => o <> SaveLesson i) (draftVideos t));
           do _ <- dput (setDrafts (MkDrafts (<[SaveLesson i := savedDraft i now d]> (drafts t))
                 (<[SaveLesson i := MkAudienceRow (Mode (SaveAudience i)) members]> (draftAudiences t)) videos (draftFiles t)) db);
           GetDraft (SaveLesson i))%db)%db))
   | None => dfail ErrConflict
   end)%db.

(** ** Publication *)
Definition LockDraftForPublication (lesson : UUID) : DB LessonDB Error Draft :=
  (call ErrDatabase;
   do db <- dget;
   match drafts (draftT db) !! lesson, lessons (catalog db) !! lesson with
   | Some _, Some l =>
     fail if negb (pathOpen (catalog db) l) with ErrNotPublishable;
     GetDraft lesson
   | _, _ => dfail ErrNotPublishable
   end)%db.

(** What keeps a bound version from being published. *)
Definition versionBlocker (db : FilesDB) (version : UUID) : option string :=
  match versions db !! version with
  | None => None
  | Some v =>
      match files db !! v_file v with
      | None => None
      | Some f =>
          if bool_decide (v_purpose v = Files.UploadPurposeTeaching) && bool_decide (v_state v = "ready"%string)
             && open_ (file_deletedAt f)
          then None
          else Some
            (if negb (bool_decide (v_purpose v = Files.UploadPurposeTeaching)) then "file_not_ready"
             else if negb (open_ (file_deletedAt f)) then "file_deleted"
             else if bool_decide (v_state v = "pending_scan"%string)
                     || bool_decide (v_state v = "processing"%string) && bool_decide (v_scan v = None) then "scan_pending"
             else if bool_decide (v_state v = "rejected"%string) then "scan_rejected"
             else if bool_decide (v_state v = "processing"%string) && bool_decide (v_scan v = Some "clean"%string) then "conversion_pending"
             else if bool_decide (v_state v = "failed"%string) then "conversion_failed"
             else "file_not_ready")%string
      end
  end.

Definition previewMissing (db : FilesDB) (b : BindingRow) : bool :=
  match versions db !! b_version b with
  | None => false
  | Some v =>
      bool_decide (v_purpose v = Files.UploadPurposeTeaching) && bool_decide (b_policy b = PolicyPreview)
      && negb (Bindings.previewReady db (b_version b))
  end.

Definition blockersOf (db : LessonDB) (lesson : UUID) (expected : Z) : list string :=
  let mine := snd <$> List.filter (fun '(_, b) => Bindings.ofLesson lesson b) (map_to_list (draftFiles (draftT db))) in
  (match drafts (draftT db) !! lesson with
   | Some d => if d_lock d =? expected then [] else ["draft_changed"%string]
   | None => ["draft_changed"%string]
   end
   ++ omap (fun b => versionBlocker (base db) (b_version b)) mine
   ++ (if existsb (previewMissing (base db)) mine then ["preview_missing"%string] else [])).

(** The blockers, each once; the server orders them by name. *)
Definition PublicationBlockers (lesson : UUID) (expected : Z) : DB LessonDB Error (list string) :=
  (call ErrDatabase; call ErrDatabase; call ErrDatabase; call ErrDatabase; call ErrDatabase;
   do db <- dget;
   dret (remove_dups (blockersOf db lesson expected)))%db.

Definition LockAudienceUsersForPublication (ids : list UUID) : DB LessonDB Error unit :=
  (fail if bool_decide (ids = []) with ErrNotPublishable;
   call ErrDatabase;
   do db <- dget;
   let locked := List.filter (fun id => bool_decide (id ∈ ids)) (List.filter (activeUser RoleStudent db) (fst <$> map_to_list (people db))) in
   fail if negb (length locked =? length ids)%nat || negb (forallb (fun id => bool_decide (id ∈ locked)) ids) with ErrNotPublishable;
   dret tt)%db.

Definition nextVersion (db : LessonDB) (lesson : UUID) : Z :=
  foldr Z.max 0 ((fun '(_, r) => if (r_lesson r =? lesson)%N then r_version r else 0) <$> map_to_list (revisions (revisionT db))) + 1.

(** Every video gets an identifier of its own. *)
Fixpoint snapshotVideos (vs : list ExternalVideo) : DB LessonDB Error (list ExternalVideo) :=
  match vs with
  | [] => dret []
  | v :: rest =>
      (do id <- newUUID;
       do out <- snapshotVideos rest;
       dret (MkVideo id (URL v) (VideoTitle v) (VideoDescription v) (VideoSortKey v) :: out))%db
  end.

(** The bindings of the draft, copied under identifiers the server generates. *)
Fixpoint copyBindings (revision : UUID) (bs : list BindingRow) (m : gmap N BindingRow) :
  DB LessonDB Error (gmap N BindingRow) :=
  match bs with
  | [] => dret m
  | b :: rest =>
      (do id <- newUUID;
       let row := MkBindingRow revision (b_version b) (b_policy b) (b_position b) (b_name b) (b_description b) in
       raise (Bindings.bindingConflict m id row) UniqueViolation (copyBindings revision rest (<[id := row]> m)))%db
  end.

Definition publishable (db : LessonDB) (lesson : UUID) : list BindingRow :=
  snd <$> orderBy (fun '(id, b) => [b_position b; Z.of_N id])
    (List.filter (fun '(_, b) => Bindings.ofLesson lesson b
       && match versions (base db) !! b_version b with
          | Some v => bool_decide (v_purpose v = Files.UploadPurposeTeaching) | None => false end)
      (map_to_list (draftFiles (draftT db)))).

Definition revisionRow (i : PublishInput) (version : Z) (d : Draft) (now : Time) : RevisionRow :=
  MkRevisionRow (PubLesson i) version (LockVersion d) (Title d) (Summary d) (BodyMarkdown d) (DraftSortKey d) (PubActor i) now.

Definition publishLesson (revision : UUID) (l : LessonRow) : LessonRow := MkLessonRow (l_chapter l) (Some revision) (l_archived l).

(** The outbox takes each revision once. *)
Definition announce (lesson revision : UUID) (es : list (string * (N * N))) : list (string * (N * N)) :=
  if existsb (fun '(kind, (_, r)) => bool_decide (kind = "lesson.published"%string) && (r =? revision)%N) es then es
  else es ++ [("lesson.published"%string, (lesson, revision))].

Definition PublishSnapshot (i : PublishInput) (d : Draft) : DB LessonDB Error Revision :=
  (fail if negb (LockVersion d =? PubExpected i) with ErrConflict;
   call ErrDatabase;
   do db <- dget;
   let t := revisionT db in
   let version := nextVersion db (PubLesson i) in
   do now <- databaseNow ErrDatabase;
   do id <- newUUID;
   let row := revisionRow i version d now in
   raise (negb (textCheck (Title d) (Summary d) (BodyMarkdown d)) || (LockVersion d <? 1)) CheckViolation
   (raise (bool_decide (is_Some (revisions t !! id)) || bool_decide (is_Some (revAudiences t !! id))) UniqueViolation
   (raise (negb (known db (PubActor i)) || negb (bool_decide (is_Some (lessons (catalog db) !! PubLesson i)))) ForeignKeyViolation
    (call ErrDatabase;
     raise (negb (modeCheck (Mode (DraftAudience d)))) CheckViolation
      (do members <- insertAudience db (Mode (DraftAudience d)) (UserIDs (DraftAudience d)) [];
       do snapshots <- snapshotVideos (ExternalVideos d);
       do videos <- insertVideos id snapshots (revVideos t);
       call ErrDatabase;
       do bindings <- copyBindings id (publishable db (PubLesson i)) (revFiles t);
       call ErrDatabase;
       raise (bool_decide (Mode (DraftAudience d) = AudienceSelected) && bool_decide (members = [])) CheckViolation
       (raise (bool_decide (is_Some (finalized t !! id))) UniqueViolation
         (call ErrDatabase;
          call ErrDatabase;
          let t' := MkRevisions (<[id := row]> (revisions t)) (<[id := PubLesson i]> (finalized t))
            (<[id := MkAudienceRow (Mode (DraftAudience d)) members]> (revAudiences t)) videos bindings in
          do _ <- dput (synced (setEvents (announce (PubLesson i) id (events db))
            (setCatalog (setLessons (alter (publishLesson id) (PubLesson i) (lessons (catalog db))) (catalog db))
              (setRevisions t' db))));
          dret (MkRevision id (PubLesson i) version (LockVersion d) (Title d) (Summary d) (BodyMarkdown d) (DraftSortKey d)
                  (DraftAudience d) snapshots (PubActor i) now))%db))%db)%db)))%db.

Definition withdrawn (l : LessonRow) : LessonRow := MkLessonRow (l_chapter l) None (l_archived l).

Definition Withdraw (lesson : UUID) : DB LessonDB Error unit :=
  (call ErrDatabase;
   do db <- dget;
   match lessons (catalog db) !! lesson with
   | Some l =>
     fail if bool_decide (l_published l = None) with ErrNotFound;
     dput (setCatalog (setLessons (<[lesson := withdrawn l]> (lessons (catalog db))) (catalog db)) db)
   | None => dfail ErrNotFound
   end)%db.

Definition ArchiveLesson (lesson : UUID) : DB LessonDB Error unit :=
  (do now <- databaseNow ErrDatabase;
   do db <- dget;
   match lessons (catalog db) !! lesson with
   | Some l =>
     fail if negb (open_ (l_archived l)) with ErrNotFound;
     dput (setCatalog (setLessons (<[lesson := MkLessonRow (l_chapter l) (l_published l) (Some now)]> (lessons (catalog db)))
             (catalog db)) db)
   | None => dfail ErrNotFound
   end)%db.

(** ** What a student sees *)
Record LessonProgress := MkProgress {
  Viewed : bool; Anchor : string; ScrollRatio : float64; ObservedAt : Time; FirstViewedAt : Time; LastViewedAt : Time
}.
Record StudentFile := MkStudentFile {
  StudentVersion : UUID; StudentPolicy : AccessPolicy; StudentName : string; StudentDescription : string; StudentPosition : Z;
  StudentMIME : string; StudentPlayable : bool; PreviewAvailable : bool
}.
Record StudentLesson := MkStudentLesson { StudentRevision : Revision; StudentProgress : option LessonProgress; StudentFiles : list StudentFile }.

Definition progressOf (p : ProgressRow) : LessonProgress :=
  MkProgress (g_viewed p) (g_anchor p) (g_scroll p) (g_observed p) (g_first p) (g_last p).

Definition studentFile (db : FilesDB) (b : BindingRow) : option StudentFile :=
  match Bindings.bindable db (b_version b) with
  | Some v =>
      if bool_decide (v_state v = "ready"%string)
      then Some (MkStudentFile (b_version b) (b_policy b) (b_name b) (b_description b) (b_position b)
                   (or_zero EmptyString (v_detected v)) (v_playable v)
                   (v_playable v || Bindings.previewReady db (b_version b)))
      else None
  | None => None
  end.

Definition studentFiles (db : LessonDB) (revision : UUID) : list StudentFile :=
  omap (studentFile (base db))
    (orderBy (fun b => [b_position b; Z.of_N (b_version b)])
      (snd <$> List.filter (fun '(_, b) => (b_owner b =? revision)%N) (map_to_list (revFiles (revisionT db))))).

(** The audience and the publisher of a revision are not shown. *)
Definition shownRevision (id : UUID) (r : RevisionRow) (videos : list ExternalVideo) : Revision :=
  MkRevision id (r_lesson r) (r_version r) 0 (r_title r) (r_summary r) (r_body r) (r_sort r) (MkAudience EmptyString [])
    videos NilUUID (r_at r).

Definition GetLesson (student lesson : UUID) : DB LessonDB Error StudentLesson :=
  (call ErrDatabase;
   do db <- dget;
   match authorizedRevision db student lesson with
   | None => dfail ErrNotFound
   | Some (id, r) =>
     call ErrDatabase;
     dret (MkStudentLesson (shownRevision id r (videosOf id (revVideos (revisionT db))))
             (progressOf <$> progress db !! (student, id)) (studentFiles db id))
   end)%db.

Definition GetPosition (student lesson : UUID) : DB LessonDB Error LessonProgress :=
  (call ErrDatabase;
   do db <- dget;
   match authorizedRevision db student lesson with
   | None => dfail ErrNotFound
   | Some (id, _) =>
     match progress db !! (student, id) with
     | None => dfail ErrNotFound
     | Some p => dret (progressOf p)
     end
   end)%db.

(** ** Progress *)
Definition progressCheck (i : ProgressInput) : bool :=
  (RuneCountInString (InAnchor i) <=? 160) && fle (of_Z 0) (InScroll i) && fle (InScroll i) (of_Z 1).

Definition upsertProgress (now : Time) (i : ProgressInput) (old : option ProgressRow) : ProgressRow :=
  let observed := pg (InObserved i) in
  match old with
  | None => MkProgressRow (InViewed i) (InAnchor i) (InScroll i) observed now now
  | Some p =>
      if Before (g_observed p) observed
      then MkProgressRow (g_viewed p || InViewed i) (InAnchor i) (InScroll i) observed (g_first p) now
      else p
  end.

(** The lessons whose visible revision this is. *)
Definition authorizedFor (db : LessonDB) (student revision : UUID) : bool :=
  existsb (fun '(lesson, _) => match authorizedRevision db student lesson with
                               | Some (r, _) => (r =? revision)%N | None => false end) (map_to_list (lessons (catalog db))).

Definition UpdateProgress (student : UUID) (i : ProgressInput) : DB LessonDB Error unit :=
  FilesStore.statement ErrDatabase
    (do now <- databaseNow ErrDatabase;
     do db <- dget;
     fail if negb (authorizedFor db student (InRevision i)) with ErrNotFound;
     raise (negb (progressCheck i)) CheckViolation
       (dput (setProgress (<[(student, InRevision i) := upsertProgress now i (progress db !! (student, InRevision i))]>
                (progress db)) db)))%db.

End Store.
End Teaching.
