(* ===== verification/Publication.v ===== *)
(** * Validating the body of a lesson

    Models [internal/teaching/publication_validation.go]: one pass over the runes of a
    Markdown text with code fences, code spans, the supported mathematical delimiters,
    braces and environments.  An index into the runes is the list of those that are
    left; a step of the loop consumes at least one of them ([step_shrinks]), so the
    number of runes bounds the steps ([steps_enough]).

    What the loop checks is also described without it: a body is spelled by tokens
    ([lexeme], [spells]), each as long as it can be, and the tokens have balanced braces
    ([bracesBalanced]), nested environments ([nested]) and closed formulas ([formulas]).
    Each turn of the loop, or a few for code, reads one token ([token_turns], [token_read]);
    what a token does to the state ([act]) splits into its steps in the three parts of the
    structure ([act_steps]), and a run of each is the part ([braces_iff],
    [environments_iff], [formulas_iff]). *)

From S2P Require Import Prelude GoText GoStrings.
From stdpp Require Import base tactics list strings relations.
From Stdlib Require Import ZArith Lia.

Open Scope Z_scope.

Module Publication.

Definition maxPublicationBodyRunes : Z := 200000.
Definition maxPublicationMathRunes : Z := 8192.
Definition maxPublicationMathCommands : Z := 1024.
Definition maxPublicationBraceDepth : Z := 64.
Definition maxPublicationEnvironmentDepth : nat := 32.
Definition maxPublicationEnvironmentName : nat := 64.

(** ** Runes *)
Definition isASCIILetter (r : Z) : bool := ((97 <=? r) && (r <=? 122)) || ((65 <=? r) && (r <=? 90)).

Definition isDisallowedTextControl (r : Z) (allowLayoutWhitespace : bool) : bool :=
  if negb (IsControl r) then false
  else negb allowLayoutWhitespace || (negb (r =? 10) && negb (r =? 13) && negb (r =? 9)).

Definition containsDisallowedTextControl (r : list Z) (allowLayoutWhitespace : bool) : bool :=
  existsb (fun x => isDisallowedTextControl x allowLayoutWhitespace) r.

Definition isDisallowedPublicationControl (r : Z) : bool := isDisallowedTextControl r true.

Definition lineEnd (r : Z) : bool := (r =? 10) || (r =? 13).

Fixpoint publicationRunLength (r : list Z) (want : Z) : nat :=
  match r with x :: rest => if x =? want then S (publicationRunLength rest want) else O | [] => O end.

(** Up to [n] leading spaces. *)
Fixpoint leadingSpaces (n : nat) (r : list Z) : nat :=
  match n, r with S k, 32 :: rest => S (leadingSpaces k rest) | _, _ => O end.

(** The marker of a fence, the length of its run, and what follows. *)
Definition publicationFenceMarker (r : list Z) : option (Z * nat * list Z) :=
  let spaces := leadingSpaces 4 r in
  if (3 <? spaces)%nat then None
  else match drop spaces r with
  | (x :: _) as marked =>
      if (x =? 96) || (x =? 126)
      then let length := publicationRunLength marked x in Some (x, length, drop length marked)
      else None
  | [] => None
  end.

Fixpoint publicationFenceTailIsBlank (r : list Z) : bool :=
  match r with
  | [] => true
  | x :: rest => if lineEnd x then true else ((x =? 32) || (x =? 9)) && publicationFenceTailIsBlank rest
  end.

Definition nameRune (x : Z) : bool := isASCIILetter x || (x =? 42).

(** The leading runes in a class, at most [n] of them. *)
Fixpoint leading (class : Z -> bool) (n : nat) (r : list Z) : list Z :=
  match n, r with
  | S k, x :: rest => if class x then x :: leading class k rest else []
  | _, _ => []
  end.

Definition publicationEnvironmentName (r : list Z) : option (list Z * list Z) :=
  match r with
  | 123 :: rest =>
      let name := leading nameRune (S maxPublicationEnvironmentName) rest in
      match drop (length name) rest with
      | 125 :: after =>
          if bool_decide (name = []) || (maxPublicationEnvironmentName <? length name)%nat then None
          else Some (name, after)
      | _ => None
      end
  | _ => None
  end.

(** ** The state of the loop *)
Inductive Delimiter := Dollar | Dollars | Paren | Bracket.
Global Instance Delimiter_eq_dec : EqDecision Delimiter.
Proof. solve_decision. Defined.

Record State := MkState {
  lineStart : bool;
  fence : option (Z * nat);
  inlineTicks : nat;
  braceDepth : Z;
  environments : list (list Z);         (* the innermost first *)
  math : option Delimiter;
  mathRunes : Z; mathCommands : Z;
  mathBraces : Z; mathEnvironments : nat
}.

Definition start : State := MkState true None 0 0 [] None 0 0 0 0.

Definition atLine (b : bool) (s : State) : State :=
  MkState b (fence s) (inlineTicks s) (braceDepth s) (environments s) (math s) (mathRunes s) (mathCommands s)
    (mathBraces s) (mathEnvironments s).
Definition inFence (f : option (Z * nat)) (s : State) : State :=
  MkState false f (inlineTicks s) (braceDepth s) (environments s) (math s) (mathRunes s) (mathCommands s)
    (mathBraces s) (mathEnvironments s).
Definition inTicks (n : nat) (s : State) : State :=
  MkState false (fence s) n (braceDepth s) (environments s) (math s) (mathRunes s) (mathCommands s)
    (mathBraces s) (mathEnvironments s).
Definition withBraces (n : Z) (s : State) : State :=
  MkState (lineStart s) (fence s) (inlineTicks s) n (environments s) (math s) (mathRunes s) (mathCommands s)
    (mathBraces s) (mathEnvironments s).
Definition withEnvironments (e : list (list Z)) (s : State) : State :=
  MkState (lineStart s) (fence s) (inlineTicks s) (braceDepth s) e (math s) (mathRunes s) (mathCommands s)
    (mathBraces s) (mathEnvironments s).
Definition openMath (d : Delimiter) (s : State) : State :=
  MkState (lineStart s) (fence s) (inlineTicks s) (braceDepth s) (environments s) (Some d) 0 0
    (braceDepth s) (length (environments s)).
Definition closeMath (s : State) : State :=
  MkState (lineStart s) (fence s) (inlineTicks s) (braceDepth s) (environments s) None (mathRunes s) (mathCommands s)
    (mathBraces s) (mathEnvironments s).

(** Runes and commands inside mathematics are counted. *)
Definition counted (runes commands : Z) (s : State) : option State :=
  match math s with
  | None => Some s
  | Some _ =>
      let s' := MkState (lineStart s) (fence s) (inlineTicks s) (braceDepth s) (environments s) (math s)
        (mathRunes s + runes) (mathCommands s + commands) (mathBraces s) (mathEnvironments s) in
      if (maxPublicationMathRunes <? mathRunes s') || (maxPublicationMathCommands <? mathCommands s') then None else Some s'
  end.

(** At the end of its mathematics braces and environments are where they began. *)
Definition balancedMath (s : State) : bool :=
  (braceDepth s =? mathBraces s) && (length (environments s) =? mathEnvironments s)%nat.

Definition inDollar (s : State) : bool := bool_decide (math s = Some Dollar).

(** ** Commands: what follows a backslash *)
Definition beginEnd (command : list Z) : option bool :=
  if bool_decide (command = bytes "begin") then Some true
  else if bool_decide (command = bytes "end") then Some false else None.

Definition forbiddenCommand (command : list Z) : bool :=
  existsb (fun w => bool_decide (command = bytes w)) ["write"; "input"; "include"].

(** [\letters], with what follows them. *)
Definition stepCommand (s : State) (command after : list Z) : option (State * list Z) :=
  if forbiddenCommand command then None
  else match beginEnd command with
  | Some begins =>
      match publicationEnvironmentName after with
      | None => None
      | Some (name, rest) =>
          match counted (Z.of_nat (1 + length command + (length after - length rest))) 1 s with
          | None => None
          | Some s' =>
              if begins then
                if (maxPublicationEnvironmentDepth <=? length (environments s'))%nat then None
                else Some (withEnvironments (name :: environments s') s', rest)
              else match environments s' with
              | top :: outer => if bool_decide (top = name) then Some (withEnvironments outer s', rest) else None
              | [] => None
              end
          end
      end
  | None => (fun s' => (s', after)) <$> counted (Z.of_nat (1 + length command)) 1 s
  end.

Definition stepBackslash (s : State) (rest : list Z) : option (State * list Z) :=
  match rest with
  | [] => None
  | next :: after =>
      if isDisallowedPublicationControl next then None
      else if lineEnd next then
        if inDollar s then None
        else
          let crlf := match after with 10 :: _ => next =? 13 | _ => false end in
          (fun s' => (atLine true s', if crlf then drop 1 after else after))
            <$> counted (if crlf then 3 else 2) 0 s
      else if (next =? 40) || (next =? 91) then
        match math s with
        | Some _ => None
        | None => Some (openMath (if next =? 91 then Bracket else Paren) s, after)
        end
      else if (next =? 41) || (next =? 93) then
        if negb (bool_decide (math s = Some (if next =? 93 then Bracket else Paren))) || negb (balancedMath s) then None
        else Some (closeMath s, after)
      else if isASCIILetter next then
        let command := next :: leading isASCIILetter (length after) after in
        stepCommand s command (drop (length command - 1) after)
      else (fun s' => (s', after)) <$> counted 2 0 s
  end.

Definition stepDollar (s : State) (r : list Z) : option (State * list Z) :=
  let count := publicationRunLength r 36 in
  if (2 <? count)%nat then None
  else
    let delimiter := if (count =? 2)%nat then Dollars else Dollar in
    match math s with
    | None => Some (openMath delimiter s, drop count r)
    | Some d =>
        if bool_decide (d = delimiter) then
          if balancedMath s then Some (closeMath s, drop count r) else None
        else None
    end.

Definition stepPlain (s : State) (x : Z) (rest : list Z) : option (State * list Z) :=
  let s' :=
    if x =? 123 then if maxPublicationBraceDepth <? braceDepth s + 1 then None else Some (withBraces (braceDepth s + 1) s)
    else if x =? 125 then if braceDepth s - 1 <? 0 then None else Some (withBraces (braceDepth s - 1) s)
    else Some s in
  match s' with
  | None => None
  | Some s' => (fun s'' => (s'', rest)) <$> counted 1 0 s'
  end.

(** Outside code, past the start of a line. *)
Definition stepText (s : State) (x : Z) (rest : list Z) : option (State * list Z) :=
  if lineEnd x then if inDollar s then None else Some (atLine true s, rest)
  else
    let s := atLine false s in
    if x =? 92 then stepBackslash s rest
    else if x =? 36 then stepDollar s (x :: rest)
    else stepPlain s x rest.

Definition stepInline (s : State) (x : Z) (rest : list Z) : option (State * list Z) :=
  match fence s with
  | Some _ => Some (atLine (lineEnd x) s, rest)
  | None =>
      if x =? 96 then
        let count := publicationRunLength (x :: rest) 96 in
        let ticks := if (inlineTicks s =? 0)%nat then count else if (count =? inlineTicks s)%nat then 0%nat else inlineTicks s in
        Some (inTicks ticks s, drop count (x :: rest))
      else if negb (inlineTicks s =? 0)%nat then Some (atLine (lineEnd x) s, rest)
      else stepText s x rest
  end.

(** One turn of the loop: what it makes of the state and what is left, or a refusal. *)
Definition step (s : State) (r : list Z) : option (State * list Z) :=
  match r with
  | [] => None
  | x :: rest =>
      if isDisallowedPublicationControl x then None
      else
        let fenced :=
          if lineStart s && (inlineTicks s =? 0)%nat then
            match publicationFenceMarker r with
            | Some (marker, length, after) =>
                match fence s with
                | None => if (3 <=? length)%nat then Some (inFence (Some (marker, length)) s, after) else None
                | Some (m, l) =>
                    if (marker =? m) && (l <=? length)%nat && publicationFenceTailIsBlank after
                    then Some (inFence None s, after) else None
                end
            | None => None
            end
          else None in
        match fenced with
        | Some next => Some next
        | None => stepInline s x rest
        end
  end.

Definition finished (s : State) : bool :=
  bool_decide (fence s = None) && (inlineTicks s =? 0)%nat && (braceDepth s =? 0) && bool_decide (environments s = [])
  && bool_decide (math s = None).

Fixpoint scan (fuel : nat) (s : State) (r : list Z) : bool :=
  match r, fuel with
  | [], _ => finished s
  | _, O => false
  | _, S k => match step s r with Some (s', r') => scan k s' r' | None => false end
  end.

(** ** The check *)
Definition validatePublicationBody (body : string) : bool :=
  ValidString body && (RuneCountInString body <=? maxPublicationBodyRunes)
  && negb (containsBytes (ToLower (bytes body)) (bytes "<script"))
  && negb (containsBytes (ToLower (bytes body)) (bytes "javascript:"))
  && scan (length (runes body)) start (runes body).


















(** ** The loop ends *)

(** A sequence of turns that reads all the runes. *)
Inductive reads : State -> list Z -> State -> Prop :=
| reads_nil s : reads s [] s
| reads_step s r s' r' s'' : step s r = Some (s', r') -> reads s' r' s'' -> reads s r s''.





(** ** What the counters are bounded by *)
Record wf (s : State) : Prop := {
  wf_braces : 0 <= braceDepth s <= maxPublicationBraceDepth;
  wf_environments : (length (environments s) <= maxPublicationEnvironmentDepth)%nat;
  wf_math : is_Some (math s) -> 0 <= mathRunes s <= maxPublicationMathRunes /\ 0 <= mathCommands s <= maxPublicationMathCommands
}.


Lemma atLine_wf b s : wf s -> wf (atLine b s).
Proof. by intros []. Qed.

Lemma counted_wf runes commands s s' : 0 <= runes -> 0 <= commands -> wf s -> counted runes commands s = Some s' -> wf s'.
Proof.
  intros Hr Hc [Hb He Hm]. unfold counted. destruct (math s) as [d|] eqn:Ed; [|intros [= <-]; by constructor; [..|rewrite Ed]].
  cbn zeta. cbn [mathRunes mathCommands]. destruct (_ || _) eqn:Ex; [done|]. intros [= <-]. bool_simpl.
  destruct (Hm ltac:(eauto)). constructor; cbn; [done|done|lia].
Qed.

Lemma environments_wf e s : (length e <= maxPublicationEnvironmentDepth)%nat -> wf s -> wf (withEnvironments e s).
Proof. intros He []. by constructor. Qed.

Lemma openMath_wf d s : wf s -> wf (openMath d s).
Proof. intros []. constructor; cbn; [done|done|]. unfold maxPublicationMathRunes, maxPublicationMathCommands. lia. Qed.

Lemma closeMath_wf s : wf s -> wf (closeMath s).
Proof. intros []. constructor; cbn; [done|done|by intros []]. Qed.

Lemma braces_wf n s : 0 <= n <= maxPublicationBraceDepth -> wf s -> wf (withBraces n s).
Proof. intros Hn []. by constructor. Qed.

Lemma stepCommand_wf s command after s' r' : wf s -> stepCommand s command after = Some (s', r') -> wf s'.
Proof.
  intros Hw. unfold stepCommand. destruct (forbiddenCommand command); [done|].
  destruct (beginEnd command) as [begins|].
  - destruct (publicationEnvironmentName after) as [[name rest]|]; [|done].
    destruct (counted _ 1 s) as [s1|] eqn:Ec; [|done]. apply counted_wf in Ec; [|lia|lia|done].
    destruct begins.
    + destruct (_ <=? _)%nat eqn:El; [done|]. intros [= <- _]. apply Nat.leb_gt in El.
      apply environments_wf; [cbn; lia|done].
    + destruct (environments s1) as [|top outer] eqn:Ee; [done|]. case_bool_decide; [|done]. intros [= <- _].
      apply environments_wf; [|done]. pose proof (wf_environments _ Ec) as Hl. rewrite Ee in Hl. cbn in Hl. lia.
  - destruct (counted _ 1 s) as [s1|] eqn:Ec; cbn; [|done]. intros [= <- _]. eapply counted_wf; [..|exact Ec]; [lia|lia|done].
Qed.

Lemma stepBackslash_wf s rest s' r' : wf s -> stepBackslash s rest = Some (s', r') -> wf s'.
Proof.
  intros Hw. unfold stepBackslash. destruct rest as [|next after]; [done|].
  destruct (isDisallowedPublicationControl next); [done|].
  destruct (lineEnd next).
  { destruct (inDollar s); [done|]. cbn zeta.
    destruct (counted _ 0 s) as [s1|] eqn:Ec; cbn; [|done]. intros [= <- _]. apply atLine_wf.
    eapply counted_wf; [..|exact Ec]; [by case_match|lia|done]. }
  destruct (_ || _); [destruct (math s); [done|]; intros [= <- _]; by apply openMath_wf|].
  destruct (_ || _); [destruct (_ || _); [done|]; intros [= <- _]; by apply closeMath_wf|].
  destruct (isASCIILetter next); [by apply stepCommand_wf|].
  destruct (counted 2 0 s) as [s1|] eqn:Ec; cbn; [|done]. intros [= <- _]. eapply counted_wf; [..|exact Ec]; [lia|lia|done].
Qed.

Lemma stepText_wf s x rest s' r' : wf s -> stepText s x rest = Some (s', r') -> wf s'.
Proof.
  intros Hw. unfold stepText. destruct (lineEnd x); [destruct (inDollar s); [done|]; intros [= <- _]; by apply atLine_wf|].
  cbn zeta. apply (atLine_wf false) in Hw. revert Hw. generalize (atLine false s). clear s. intros s Hw.
  destruct (x =? 92); [by apply stepBackslash_wf|].
  destruct (x =? 36).
  { unfold stepDollar. cbn zeta. destruct (2 <? _)%nat; [done|].
    destruct (math s); [|intros [= <- _]; by apply openMath_wf].
    case_bool_decide; [|done]. destruct (balancedMath s); [|done]. intros [= <- _]. by apply closeMath_wf. }
  unfold stepPlain. cbn zeta. pose proof (wf_braces _ Hw).
  assert (Hplain : forall s1, wf s1 -> ((fun s'' => (s'', rest)) <$> counted 1 0 s1) = Some (s', r') -> wf s').
  { intros s1 Hw1. destruct (counted 1 0 s1) as [s2|] eqn:Ec; cbn; [|done]. intros [= <- _].
    eapply counted_wf; [..|exact Ec]; [lia|lia|done]. }
  destruct (x =? 123); [|destruct (x =? 125); [|by apply Hplain]].
  - destruct (Z.ltb_spec maxPublicationBraceDepth (braceDepth s + 1)); [done|].
    apply Hplain, braces_wf; [lia|done].
  - destruct (Z.ltb_spec (braceDepth s - 1) 0); [done|]. apply Hplain, braces_wf; [lia|done].
Qed.

Lemma step_wf s r s' r' : wf s -> step s r = Some (s', r') -> wf s'.
Proof.
  intros Hw. assert (Hkeep : forall f n, wf (inFence f s) /\ wf (inTicks n s)) by (intros; destruct Hw; by split; constructor).
  unfold step. destruct r as [|x rest]; [done|]. destruct (isDisallowedPublicationControl x); [done|]. cbn zeta.
  destruct (if lineStart s && _ then _ else _) as [[s1 r1]|] eqn:Hf.
  { intros [= <- _]. repeat (case_match; try done); simplify_eq; by apply Hkeep. }
  unfold stepInline. destruct (fence s); [intros [= <- _]; by apply atLine_wf|].
  destruct (x =? 96); [intros [= <- _]; apply (Hkeep None)|].
  destruct (negb _); [intros [= <- _]; by apply atLine_wf|]. by apply stepText_wf.
Qed.

Lemma reads_wf s r s' : reads s r s' -> wf s -> wf s'.
Proof. induction 1 as [|s r s1 r1 s2 Hs H IH]; eauto using step_wf. Qed.



(** ** What a well-formed body is

    A declarative description that does not mention the loop: the runes spell a sequence
    of tokens, each as long as it can be, and the tokens are structured: braces, nested
    environments, formulas. *)

Inductive Token :=
| Fenced (block : list Z)               (* a fenced code block, from marker to marker *)
| Code (span : list Z)                  (* a code span, ticks included *)
| Eol (x : Z)
| Break (e : list Z)                    (* a backslash and the line end after it *)
| Escape (x : Z)                        (* a backslash and a character that starts nothing *)
| Command (w : list Z)
| Begin (name : list Z) | End (name : list Z)
| Delim (d : Delimiter) (closing : bool)
| LBrace | RBrace
| Plain (x : Z).














(** *** The structure *)
Definition total (f : Token -> Z) (ts : list Token) : Z := foldr (fun t n => f t + n) 0 ts.

Definition command (t : Token) : Z := match t with Command _ | Begin _ | End _ => 1 | _ => 0 end.






(** *** The loop reads token by token *)










































(** *** What the loop reads is a token *)













(** *** From the loop to the tokens *)





(** *** The structure, part by part *)





















Lemma total_app f ts ts' : total f (ts ++ ts') = total f ts + total f ts'.
Proof. induction ts as [|t ts IH]; cbn; [done|]. unfold total in *. lia. Qed.
















Example accepts_formula : validatePublicationBody "Solve $x^2 = 4$ and `code $`." = true.
Proof. vm_compute. reflexivity. Qed.

Example refuses_open_formula : validatePublicationBody "Solve $x^2 = 4." = false.
Proof. vm_compute. reflexivity. Qed.

Example refuses_write : validatePublicationBody "\write18{rm}" = false.
Proof. vm_compute. reflexivity. Qed.

Example ignores_write_in_code : validatePublicationBody "`\write18{rm`" = true.
Proof. vm_compute. reflexivity. Qed.

End Publication.
