(* ===== verification/LessonService.v ===== *)
(** * The teaching services

    Models [internal/teaching/service.go] and [student_service.go] over the store of
    [LessonStore], with [internal/files/readiness.go] as the publication check that the
    application wires in and [publication_reader.go] as the reader it is given.
    [net/url]'s parser and printer and lower case beyond ASCII are parameters. *)

From S2P Require Import Prelude GoTime GoText GoStrings GoFloat Pg OpsModel AuditLog FilesModel FilesStore LessonModel LessonFiles LessonStore Publication.
From stdpp Require Import base tactics list gmap strings.
From Stdlib Require Import ZArith Lia.

Open Scope Z_scope.

Module Lesson.
Import Lessons Teaching.

(** ** Checks *)
Definition authorize (actor : Principal) : result Error unit :=
  (reject (User_ID actor =? NilUUID)%N || negb (bool_decide (User_Role actor = RoleAdmin))
      || negb (bool_decide (User_Status actor = StatusActive)) || blank (RequestID actor)
      || bool_decide (PrincipalIP actor = None) with ErrForbidden;
   Ok tt)%go.

Definition authorizeStudent (actor : Principal) : result Error unit :=
  (reject (User_ID actor =? NilUUID)%N || negb (bool_decide (User_Role actor = RoleStudent))
      || negb (bool_decide (User_Status actor = StatusActive)) || blank (RequestID actor)
      || bool_decide (PrincipalIP actor = None) with ErrForbidden;
   Ok tt)%go.

Definition kindText (k : CatalogKind) : string :=
  match k with
  | CatalogGrade => "grade" | CatalogTerm => "term" | CatalogSubject => "subject" | CatalogChapter => "chapter"
  | CatalogOther s => s
  end.

Definition validKind (k : CatalogKind) : bool := match k with CatalogOther _ => false | _ => true end.

Definition validText (v : string) (max : Z) : bool := ValidString v && negb (blank v) && (RuneCountInString v <=? max).
Definition validSingleLineText (v : string) (max : Z) : bool :=
  validText v max && negb (Publication.containsDisallowedTextControl (runes v) false).
Definition validOptionalMultilineText (v : string) (max : Z) : bool :=
  ValidString v && (RuneCountInString v <=? max) && negb (Publication.containsDisallowedTextControl (runes v) true).

Definition validCatalogCreate (i : CatalogCreateInput) : bool :=
  validKind (CreateKind i) && validText (CreateName i) 80 && (RuneCountInString (CreateDescription i) <=? 500)
  && Bool.eqb (bool_decide (CreateKind i = CatalogGrade)) (CreateParent i =? NilUUID)%N.

(** What the code uses of a parsed URL; [Hostname] and [Port] are computed from its
    [Host], and the printer is given the scheme and the host the code writes. *)
Record ParsedURL := MkURL { Scheme : string; HasUser : bool; Hostname : string; Port : string; Rest : string }.

Section Service.
Context `{PgTime} `{UUIDText} (norm lower : string -> string)
  (Parse : string -> option ParsedURL) (print : string -> string -> ParsedURL -> string).

Definition joinedHost (host port : string) : string :=
  if negb (bool_decide (port = EmptyString)) && negb (bool_decide (port = "443"%string)) then
    if containsBytes (bytes host) [58] then ("[" ++ host ++ "]:" ++ port)%string else (host ++ ":" ++ port)%string
  else if containsBytes (bytes host) [58] then ("[" ++ host ++ "]")%string
  else host.

Definition normalizeExternalURL (raw : string) : option string :=
  if existsb (fun x => (x =? 13) || (x =? 10) || (x =? 9)) (bytes raw) then None
  else match Parse (TrimSpace raw) with
  | None => None
  | Some u =>
      if HasUser u || bool_decide (Scheme u = EmptyString) || negb (bool_decide (ToLower (bytes (Scheme u)) = bytes "https"))
         || bool_decide (Hostname u = EmptyString)
      then None
      else Some (print "https" (joinedHost (lower (Hostname u)) (Port u)) u)
  end.

Definition validExternalURL (raw : string) : bool := bool_decide (is_Some (normalizeExternalURL raw)).

Definition normalizedVideo (v : ExternalVideo) : ExternalVideo :=
  MkVideo (VideoID v) (or_zero EmptyString (normalizeExternalURL (URL v))) (TrimSpace (VideoTitle v))
    (TrimSpace (VideoDescription v)) (VideoSortKey v).

Definition normalizedDraftInput (i : SaveDraftInput) (actor : UUID) : SaveDraftInput :=
  MkSaveDraft (SaveLesson i) (SaveExpected i) (TrimSpace (SaveTitle i)) (TrimSpace (SaveSummary i)) (SaveBody i)
    (SaveSortKey i) (SaveAudience i) (normalizedVideo <$> SaveVideos i) actor.

Fixpoint distinctUsers (seen ids : list UUID) : bool :=
  match ids with
  | [] => true
  | id :: rest => negb ((id =? NilUUID)%N || bool_decide (id ∈ seen)) && distinctUsers (id :: seen) rest
  end.

Definition validAudience (a : Audience) : bool :=
  (bool_decide (Mode a = AudienceAll) || bool_decide (Mode a = AudienceSelected))
  && negb (bool_decide (Mode a = AudienceAll) && negb (bool_decide (UserIDs a = [])))
  && negb (bool_decide (Mode a = AudienceSelected) && bool_decide (UserIDs a = []))
  && distinctUsers [] (UserIDs a).

Definition validVideo (v : ExternalVideo) : bool :=
  negb (VideoID v =? NilUUID)%N && validSingleLineText (VideoTitle v) 160
  && validOptionalMultilineText (VideoDescription v) 500 && validExternalURL (URL v).

Definition validDraft (i : SaveDraftInput) : bool :=
  negb (SaveLesson i =? NilUUID)%N && (1 <=? SaveExpected i) && validSingleLineText (SaveTitle i) 160
  && validOptionalMultilineText (SaveSummary i) 500 && ValidString (SaveBody i)
  && (RuneCountInString (SaveBody i) <=? Publication.maxPublicationBodyRunes)
  && validAudience (SaveAudience i) && forallb validVideo (SaveVideos i).

Definition validPersistedDraft (i : SaveDraftInput) : bool :=
  validDraft i && Publication.validatePublicationBody (SaveBody i)
  && forallb (fun v => bool_decide (normalizeExternalURL (URL v) = Some (URL v))) (SaveVideos i).

(** ** Operations

    A change and its audit event are one transaction. *)
Definition teachingEvent (actor : Principal) (action targetType : string) (target : UUID)
  (metadata : gmap string Audit.any) : Audit.Event :=
  Audit.MkEvent (User_ID actor) action targetType (uuidString target) metadata (RequestID actor) (PrincipalIP actor).

Definition kindMetadata (k : CatalogKind) : gmap string Audit.any :=
  {["kind"%string := Audit.AnyString (kindText k)]}.

Definition withTx {A} (body : DB LessonDB Error A) : DB LessonDB Error A := transact ErrDatabase ErrDatabase body.

Definition record (e : Audit.Event) : DB LessonDB Error unit := Audit.Write auditFailed e.

Definition authorized {A} (check : Principal -> result Error unit) (actor : Principal) (k : DB LessonDB Error A) :
  DB LessonDB Error A :=
  match check actor with Ok _ => k | Err e => dfail e end.

(** A store operation followed by its audit event. *)
Definition audited {A} (m : DB LessonDB Error A) (e : A -> Audit.Event) : DB LessonDB Error A :=
  withTx (do a <- m; do _ <- record (e a); dret a)%db.

Definition CreateCatalog (actor : Principal) (i : CatalogCreateInput) : DB LessonDB Error CatalogNode :=
  (authorized authorize actor
    (let i := MkCatalogCreate (CreateKind i) (CreateParent i) (TrimSpace (CreateName i)) (TrimSpace (CreateDescription i))
       (CreateSortKey i) in
     fail if negb (validCatalogCreate i) with ErrInvalid;
     audited (Teaching.CreateCatalog norm i)
       (fun n => teachingEvent actor "catalog.created" "catalog" (NodeID n) (kindMetadata (NodeKind n)))))%db.

Definition RenameCatalog (actor : Principal) (k : CatalogKind) (id : UUID) (name : string) : DB LessonDB Error CatalogNode :=
  (authorized authorize actor
    (let name := TrimSpace name in
     fail if negb (validKind k) || (id =? NilUUID)%N || negb (validText name 80) with ErrInvalid;
     audited (Teaching.RenameCatalog norm k id name)
       (fun n => teachingEvent actor "catalog.renamed" "catalog" (NodeID n) (kindMetadata (NodeKind n)))))%db.

Definition ReorderCatalog (actor : Principal) (k : CatalogKind) (id : UUID) (key : Z) : DB LessonDB Error unit :=
  (authorized authorize actor
    (fail if negb (validKind k) || (id =? NilUUID)%N with ErrInvalid;
     audited (Teaching.ReorderCatalog k id key)
       (fun _ => teachingEvent actor "catalog.reordered" "catalog" id (kindMetadata k))))%db.

Definition ArchiveCatalog (actor : Principal) (i : CatalogArchiveInput) : DB LessonDB Error unit :=
  (authorized authorize actor
    (fail if negb (validKind (ArchiveKind i)) || (ArchiveID i =? NilUUID)%N with ErrInvalid;
     audited (Teaching.ArchiveCatalog i)
       (fun _ => teachingEvent actor (if Archived i then "catalog.archived" else "catalog.restored") "catalog" (ArchiveID i)
                   (kindMetadata (ArchiveKind i)))))%db.

Definition CreateLesson (actor : Principal) (i : CreateLessonInput) : DB LessonDB Error Draft :=
  (authorized authorize actor
    (let i := MkCreateLesson (InChapter i) (TrimSpace (InTitle i)) (User_ID actor) in
     fail if (InChapter i =? NilUUID)%N || negb (validText (InTitle i) 160) with ErrInvalid;
     audited (Teaching.CreateLesson i) (fun d => teachingEvent actor "lesson.draft_saved" "lesson" (LessonID d) ∅)))%db.

Definition SaveDraft (actor : Principal) (i : SaveDraftInput) : DB LessonDB Error Draft :=
  (authorized authorize actor
    (let i := normalizedDraftInput i (User_ID actor) in
     fail if negb (validDraft i) with ErrInvalid;
     audited (Teaching.SaveDraft i) (fun d => teachingEvent actor "lesson.draft_saved" "lesson" (LessonID d) ∅)))%db.

(** *** Publication

    A check sees the tables through a reader of the blockers. *)
Definition PublicationReader : Type := UUID -> Z -> DB LessonDB Error (list string).
Definition PublicationCheck : Type := PublicationReader -> Draft -> DB LessonDB Error unit.

(** The reader is open as long as the check runs. *)
Definition readScope (active : bool) (reader : PublicationReader) : PublicationReader :=
  fun lesson version => if active then reader lesson version else dfail ErrReaderExpired.

Definition allowPublication : PublicationCheck := fun _ _ => dret tt.

Definition ReadinessChecker : PublicationCheck := fun reader d =>
  (do blockers <- reader (LessonID d) (LockVersion d);
   fail if 0 <? Z.of_nat (length blockers) with ErrNotPublishable;
   dret tt)%db.

Definition checkPublication (check : PublicationCheck) (d : Draft) : DB LessonDB Error unit :=
  check (readScope true PublicationBlockers) d.

Definition persisted (actor : Principal) (d : Draft) : SaveDraftInput :=
  MkSaveDraft (LessonID d) (LockVersion d) (Title d) (Summary d) (BodyMarkdown d) (DraftSortKey d) (DraftAudience d)
    (ExternalVideos d) (User_ID actor).

Definition publishBody (check : PublicationCheck) (actor : Principal) (i : PublishInput) : DB LessonDB Error Revision :=
  (do d <- LockDraftForPublication (PubLesson i);
   fail if negb (LockVersion d =? PubExpected i) with ErrConflict;
   fail if negb (validPersistedDraft (persisted actor d)) with ErrNotPublishable;
   do _ <- (if bool_decide (Mode (DraftAudience d) = AudienceSelected)
            then LockAudienceUsersForPublication (UserIDs (DraftAudience d)) else dret tt);
   do _ <- checkPublication check d;
   do r <- PublishSnapshot i d;
   do _ <- record (teachingEvent actor "lesson.published" "lesson" (PubLesson i)
             {["revision_id"%string := Audit.AnyString (uuidString (RevID r))]});
   dret r)%db.

Definition Publish (check : PublicationCheck) (actor : Principal) (i : PublishInput) : DB LessonDB Error Revision :=
  (authorized authorize actor
    (let i := MkPublish (PubLesson i) (PubExpected i) (User_ID actor) in
     fail if (PubLesson i =? NilUUID)%N || (PubExpected i <? 1) with ErrInvalid;
     withTx (publishBody check actor i)))%db.

Definition ArchiveLesson (actor : Principal) (lesson : UUID) : DB LessonDB Error unit :=
  (authorized authorize actor
    (fail if (lesson =? NilUUID)%N with ErrInvalid;
     audited (Teaching.ArchiveLesson lesson) (fun _ => teachingEvent actor "lesson.archived" "lesson" lesson ∅)))%db.

Definition Withdraw (actor : Principal) (lesson : UUID) : DB LessonDB Error unit :=
  (authorized authorize actor
    (fail if (lesson =? NilUUID)%N with ErrInvalid;
     audited (Teaching.Withdraw lesson) (fun _ => teachingEvent actor "lesson.withdrawn" "lesson" lesson ∅)))%db.

(** ** Students *)
Definition GetLesson (actor : Principal) (lesson : UUID) : DB LessonDB Error StudentLesson :=
  (authorized authorizeStudent actor
    (fail if (lesson =? NilUUID)%N with ErrInvalid;
     Teaching.GetLesson (User_ID actor) lesson))%db.

Definition GetPosition (actor : Principal) (lesson : UUID) : DB LessonDB Error LessonProgress :=
  (authorized authorizeStudent actor
    (fail if (lesson =? NilUUID)%N with ErrInvalid;
     Teaching.GetPosition (User_ID actor) lesson))%db.

(** The negation of a duration wraps: that of the least one is itself. *)
Definition absDuration (d : Z) : Z := if d <? 0 then Files.wrapInt64 (- d) else d.

Definition validProgress (i : ProgressInput) (now : Time) : bool :=
  negb ((InRevision i =? NilUUID)%N || negb (ValidString (InAnchor i)) || (160 <? RuneCountInString (InAnchor i))
        || IsNaN (InScroll i) || IsInf (InScroll i) || flt (InScroll i) (of_Z 0) || flt (of_Z 1) (InScroll i)
        || IsZero (InObserved i))
  && (absDuration (Sub now (InObserved i)) <=? 10 * minute).

Definition UpdateProgress (actor : Principal) (i : ProgressInput) : DB LessonDB Error unit :=
  (authorized authorizeStudent actor
    (do now <- wallNow;
     fail if negb (validProgress i now) with ErrInvalid;
     Teaching.UpdateProgress (User_ID actor) i))%db.

End Service.
End Lesson.
