(* ===== verification/FileAccess.v ===== *)
(** * Serving files

    Models [internal/files/access_service.go], [qa_access.go], [ai_access.go] and the
    delivery part of [http_access.go]: byte ranges, opening a file on behalf of a
    student, the log that is written before a byte is handed out, and copying the body
    to the client.  The services are generic in their stores, which are classes, and in
    the object buckets, which are arguments.  Module [LessonAccess] is the instance for
    lessons, [ResolveAccess] of [internal/files/postgres_store.go]. *)

From S2P Require Import Prelude GoTime GoText GoStrings GoSha256 GoStrconv Pg OpsModel Keyset AuditLog FilesModel FilesStore UploadService LessonModel LessonFiles.
From stdpp Require Import base tactics list gmap strings.
From Stdlib Require Import Ascii ZArith Lia.
Import Files.

Open Scope Z_scope.

Module Access.
Import Lessons.

Notation Error := Files.Error.
Notation ErrNotFound := Files.ErrNotFound.
Notation ErrInvalid := Files.ErrInvalid.
Notation ErrDatabase := Files.ErrDatabase.

(** ** Byte ranges *)
Definition maxRangeLength : Z := 64 * 1024 * 1024.

Record ResponseRange := MkRange { Start : Z; End_ : Z; Total : Z }.

Fixpoint digitsValue (acc : Z) (s : string) : option Z :=
  match s with
  | EmptyString => Some acc
  | String c rest => if isDigit (byteZ c) then digitsValue (acc * 10 + (byteZ c - 48)) rest else None
  end.

(** [strconv.ParseUint(raw, 10, 63)] on digits only. *)
Definition parseASCIIDecimal (raw : string) : option Z :=
  match raw with
  | EmptyString => None
  | _ => match digitsValue 0 raw with
         | Some v => if v <=? maxInt64 then Some v else None
         | None => None
         end
  end.

Fixpoint stripPrefix (prefix s : string) : option string :=
  match prefix, s with
  | EmptyString, _ => Some s
  | String p prefix', String c s' => if Ascii.eqb p c then stripPrefix prefix' s' else None
  | _, EmptyString => None
  end.

Fixpoint countByte (c : Ascii.ascii) (s : string) : nat :=
  match s with
  | EmptyString => O
  | String x rest => if Ascii.eqb x c then S (countByte c rest) else countByte c rest
  end.

(** The text before the first dash, and after it. *)
Fixpoint cutDash (s : string) : option (string * string) :=
  match s with
  | EmptyString => None
  | String x rest =>
      if Ascii.eqb x "-"%char then Some (EmptyString, rest)
      else match cutDash rest with Some (left_, right_) => Some (String x left_, right_) | None => None end
  end.

(** What the last [n] bytes are, and what the bytes from [left_] on are. *)
Definition suffixRange (right_ : string) (size : Z) : option (Z * Z) :=
  match parseASCIIDecimal right_ with
  | Some n => if (n <? 1) || (maxRangeLength <? n) then None else Some (size - Z.min n size, size - 1)
  | None => None
  end.

Definition boundedRange (left_ right_ : string) (size : Z) : option (Z * Z) :=
  match parseASCIIDecimal left_ with
  | Some start =>
      if (start <? 0) || (size <=? start) then None
      else
        let end_ :=
          if bool_decide (right_ = EmptyString) then Some (size - 1)
          else match parseASCIIDecimal right_ with
               | Some e => if e <? start then None else Some (if size <=? e then size - 1 else e)
               | None => None
               end in
        match end_ with
        | Some e => if (maxRangeLength <? e - start + 1) && negb (e =? size - 1) then None else Some (start, e)
        | None => None
        end
  | None => None
  end.

Definition parseByteRange (raw : string) (size : Z) (playable : bool) : result Error (option ResponseRange) :=
  if bool_decide (raw = EmptyString) then Ok None
  else if negb playable || (size <? 1) then Err (ErrRange size)
  else match stripPrefix "bytes=" raw with
  | None => Err (ErrRange size)
  | Some v =>
      if (0 <? countByte ","%char raw)%nat || negb (countByte "-"%char v =? 1)%nat then Err (ErrRange size)
      else match cutDash v with
      | None => Err (ErrRange size)
      | Some (left_, right_) =>
          match (if bool_decide (left_ = EmptyString) then suffixRange right_ size else boundedRange left_ right_ size) with
          | Some (s, e) => Ok (Some (MkRange s e size))
          | None => Err (ErrRange size)
          end
      end
  end.

Definition rangeValue (r : option ResponseRange) (total : Z) : ResponseRange :=
  match r with Some r => r | None => MkRange 0 0 total end.

(** ** Deliveries and stores *)
Record Delivery := MkDelivery {
  DVersion : UUID; DRevision : UUID; DKey : string; DName : string; DContentType : string; DSize : Z;
  DPolicy : AccessPolicy; DPlayable : bool; DPreview : bool
}.
Definition noDelivery : Delivery := MkDelivery NilUUID NilUUID "" "" "" 0 (PolicyOther "") false false.

Record OpenInput := MkOpen { OpenVersion : UUID; OpenAction : AccessAction; OpenRange : string }.
Record FileStatus := MkStatus {
  StatusVersion : UUID; StatusMessage : UUID; StatusState : string; StatusFailure : string; StatusMIME : string;
  StatusSize : Z; StatusPreview : bool
}.

(** [WriteAccessLog] of all the stores. *)
Class AccessLogs (S : Type) := { WriteAccessLog : AccessLog -> DB S Error unit }.

Class AccessStore (S : Type) `{AccessLogs S} := {
  ResolveAccess : UUID -> UUID -> AccessAction -> DB S Error Delivery
}.

(** The other two stores say which message a file hangs on. *)
Class QAAccessStore (S : Type) `{AccessLogs S} := {
  ResolveQAAccess : Principal -> UUID -> AccessAction -> DB S Error (Delivery * UUID);
  ResolveQAStatus : Principal -> UUID -> DB S Error FileStatus
}.
Class AIAccessStore (S : Type) `{AccessLogs S} := {
  ResolveAIAccess : Principal -> UUID -> DB S Error (Delivery * UUID);
  ResolveAIStatus : Principal -> UUID -> DB S Error FileStatus
}.

(** A bucket, read in whole or in a range given by its offset and length. *)
Definition Bucket (O : Type) : Type :=
  string -> option (Z * Z) -> O -> O * result Objects.Error (Objects.Reader * Objects.ObjectInfo).

Definition rangeRequest (r : option ResponseRange) : option (Z * Z) :=
  (fun r => (Start r, End_ r - Start r + 1)) <$> r.

(** ** Logs *)
Definition openLog (actor : Principal) (version : UUID) (action : AccessAction) : AccessLog :=
  MkAccessLog (User_ID actor) version NilUUID NilUUID NilUUID NilUUID action AccessDenied EmptyString (RequestID actor)
    (PrincipalIP actor) None None EmptyString.

Definition logResult (r : AccessResult) (reason : string) (l : AccessLog) : AccessLog :=
  MkAccessLog (LogActor l) (LogRequested l) (LogVersion l) (LogRevision l) (LogQA l) (LogAI l) (LogAction l) r reason
    (LogRequest l) (LogIP l) (LogStart l) (LogEnd l) (LogPlayback l).

Definition logTarget (version revision qa ai : UUID) (l : AccessLog) : AccessLog :=
  MkAccessLog (LogActor l) (LogRequested l) version revision qa ai (LogAction l) (LogResult l) (LogReason l)
    (LogRequest l) (LogIP l) (LogStart l) (LogEnd l) (LogPlayback l).

Definition logRange (r : option ResponseRange) (playback : string) (l : AccessLog) : AccessLog :=
  MkAccessLog (LogActor l) (LogRequested l) (LogVersion l) (LogRevision l) (LogQA l) (LogAI l) (LogAction l) (LogResult l)
    (LogReason l) (LogRequest l) (LogIP l) (Start <$> r) (End_ <$> r) playback.

(** ** Playback samples *)

(** [x] in [n] bytes, the most significant first. *)
Fixpoint bigEndian (n : nat) (x : Z) : list Z :=
  match n with O => [] | S k => bigEndian k (x / 256) ++ [x mod 256] end.

Definition uuidBytes (id : UUID) : list Z := bigEndian 16 (Z.of_N id).

Definition actionText (a : AccessAction) : string :=
  match a with ActionPreview => "preview" | ActionDownload => "download" | ActionOther s => s end.

(** Seconds since 1970, at whole seconds, and Go's division, which rounds towards zero. *)
Definition unixEpoch : Z := 719162 * day.
Definition Unix (t : Time) : Z := (ns t - unixEpoch) / second.
Definition playbackAggregationWindow : Z := 10 * minute.

Definition playbackAggregationKey (now : Time) (actor version revision : UUID) (action : AccessAction) : string :=
  hexSum256 (uuidBytes actor ++ uuidBytes version ++ uuidBytes revision ++ bytes (actionText action)
    ++ bigEndian 8 (Z.quot (Unix now) (playbackAggregationWindow / second) mod 2 ^ 64)).

Section Service.
Context {S O : Type} `{AccessLogs S} (originals previews : Bucket O).

(** A store operation, and a read of a bucket, in a service call. *)
Definition onStore {A} (m : DB S Error A) : DB (S * O) Error A :=
  fun env '(n, (db, o)) => let '((n', db'), r) := m env (n, db) in ((n', (db', o)), r).

Definition getObject (b : Bucket O) (key : string) (r : option (Z * Z)) :
  DB (S * O) Error (result Objects.Error (Objects.Reader * Objects.ObjectInfo)) :=
  fun _ '(n, (db, o)) => let '(o', res) := b key r o in ((n, (db, o')), Ok res).

Record OpenedFile := MkOpened {
  Body : Objects.Reader; DisplayName : string; ContentType : string; Size : Z; Partial : bool; Range : ResponseRange;
  Playable : bool; ReportFailure : string -> DB (S * O) Error unit
}.

(** An attempt that is turned down is logged; a log that cannot be written hides why. *)
Definition failClosedLog {A} (l : AccessLog) (fallback : Error) : DB (S * O) Error A :=
  (do written <- attempt (onStore (WriteAccessLog l));
   match written with
   | Err _ => dfail ErrAccessUnavailable
   | Ok _ => dfail fallback
   end)%db.

(** From the range on, the three services are alike: [rangeCapable] says whether a
    range may be asked for, [playback] what an allowed range is sampled under. *)
Definition serve (l : AccessLog) (d : Delivery) (rawRange : string) (rangeCapable : bool)
  (playback : option ResponseRange -> DB (S * O) Error string) : DB (S * O) Error OpenedFile :=
  (match parseByteRange rawRange (DSize d) rangeCapable with
   | Err e => failClosedLog (logResult AccessMalformed "invalid_range" l) e
   | Ok rng =>
     let l := logRange rng EmptyString l in
     do got <- getObject (if DPreview d then previews else originals) (DKey d) (rangeRequest rng);
     match got with
     | Err _ => failClosedLog (logResult AccessFailed "storage" l) ErrAccessUnavailable
     | Ok (body, info) =>
       if negb (Objects.InfoSize info =? DSize d) then failClosedLog (logResult AccessFailed "storage" l) ErrAccessUnavailable
       else
         do key <- playback rng;
         let l := logRange rng key (logResult AccessAllowed EmptyString l) in
         do written <- attempt (onStore (WriteAccessLog l));
         match written with
         | Err _ => dfail ErrAccessUnavailable
         | Ok _ =>
           dret (MkOpened body (DName d) (DContentType d)
             (match rng with Some r => End_ r - Start r + 1 | None => DSize d end)
             (bool_decide (is_Some rng)) (rangeValue rng (DSize d)) rangeCapable
             (fun reason => onStore (WriteAccessLog (logResult AccessFailed reason l))))
         end
     end
   end)%db.

Definition knownAction (a : AccessAction) : bool :=
  bool_decide (a = ActionPreview) || bool_decide (a = ActionDownload).

(** ** Lessons *)
Definition validStudent (actor : Principal) : bool :=
  bool_decide (User_Role actor = RoleStudent) && bool_decide (User_Status actor = StatusActive).

Definition Open `{!AccessStore S} (actor : Principal) (i : OpenInput) : DB (S * O) Error OpenedFile :=
  (let l := openLog actor (OpenVersion i) (OpenAction i) in
   if negb (validStudent actor) || (OpenVersion i =? NilUUID)%N || negb (knownAction (OpenAction i))
   then failClosedLog (logResult AccessDenied "not_found" l) ErrNotFound
   else
     do resolved <- attempt (onStore (ResolveAccess (User_ID actor) (OpenVersion i) (OpenAction i)));
     match resolved with
     | Err _ => failClosedLog (logResult AccessDenied "not_found" l) ErrNotFound
     | Ok d =>
       let l := logTarget (DVersion d) (DRevision d) NilUUID NilUUID l in
       if bool_decide (OpenAction i = ActionDownload) && negb (bool_decide (DPolicy d = PolicyDownload))
       then failClosedLog (logResult AccessDenied "policy" l) ErrNotFound
       else serve l d (OpenRange i) (DPlayable d) (fun rng =>
         match rng with
         | Some _ =>
           if DPlayable d then
             do now <- wallNow;
             dret (playbackAggregationKey now (User_ID actor) (DVersion d) (DRevision d) (OpenAction i))
           else dret EmptyString
         | None => dret EmptyString
         end)
     end)%db.

(** ** Questions and answers *)
Definition validQAActor (actor : Principal) : bool :=
  negb (User_ID actor =? NilUUID)%N && bool_decide (User_Status actor = StatusActive)
  && (bool_decide (User_Role actor = RoleStudent) || bool_decide (User_Role actor = RoleAdmin)).

Definition QAStatus `{!QAAccessStore S} (actor : Principal) (version : UUID) : DB (S * O) Error FileStatus :=
  (fail if negb (validQAActor actor) || (version =? NilUUID)%N with ErrNotFound;
   do out <- attempt (onStore (ResolveQAStatus actor version));
   match out with Ok status => dret status | Err _ => dfail ErrNotFound end)%db.

Definition QAOpen `{!QAAccessStore S} (actor : Principal) (i : OpenInput) : DB (S * O) Error OpenedFile :=
  (let l := openLog actor (OpenVersion i) (OpenAction i) in
   if negb (validQAActor actor) || (OpenVersion i =? NilUUID)%N || negb (knownAction (OpenAction i))
   then failClosedLog (logResult AccessDenied "not_found" l) ErrNotFound
   else
     do resolved <- attempt (onStore (ResolveQAAccess actor (OpenVersion i) (OpenAction i)));
     match resolved with
     | Err _ => failClosedLog (logResult AccessDenied "not_found" l) ErrNotFound
     | Ok (d, message) =>
       serve (logTarget (DVersion d) NilUUID message NilUUID l) d (OpenRange i)
         (DPlayable d || bool_decide (OpenAction i = ActionDownload)) (fun _ => dret EmptyString)
     end)%db.

(** ** The assistant *)
Definition validAIActor (actor : Principal) : bool := negb (User_ID actor =? NilUUID)%N && validStudent actor.

Definition AIStatus `{!AIAccessStore S} (actor : Principal) (version : UUID) : DB (S * O) Error FileStatus :=
  (fail if negb (validAIActor actor) || (version =? NilUUID)%N with ErrNotFound;
   let l := openLog actor version ActionPreview in
   do out <- attempt (onStore (ResolveAIStatus actor version));
   match out with
   | Err e =>
     if bool_decide (e = ErrNotFound) then failClosedLog (logResult AccessDenied "not_found" l) ErrNotFound
     else failClosedLog (logResult AccessFailed "storage" l) ErrAccessUnavailable
   | Ok status =>
     do written <- attempt (onStore (WriteAccessLog
       (logResult AccessAllowed EmptyString (logTarget (StatusVersion status) NilUUID NilUUID (StatusMessage status) l))));
     match written with Err _ => dfail ErrAccessUnavailable | Ok _ => dret status end
   end)%db.

Definition AIOpen `{!AIAccessStore S} (actor : Principal) (version : UUID) (rawRange : string) :
  DB (S * O) Error OpenedFile :=
  (let l := openLog actor version ActionPreview in
   if negb (validAIActor actor) || (version =? NilUUID)%N
   then failClosedLog (logResult AccessDenied "not_found" l) ErrNotFound
   else
     do resolved <- attempt (onStore (ResolveAIAccess actor version));
     match resolved with
     | Err e =>
       if bool_decide (e = ErrNotFound) then failClosedLog (logResult AccessDenied "not_found" l) ErrNotFound
       else failClosedLog (logResult AccessFailed "storage" l) ErrAccessUnavailable
     | Ok (d, message) =>
       serve (logTarget (DVersion d) NilUUID NilUUID message l) d rawRange (DPlayable d) (fun _ => dret EmptyString)
     end)%db.

(** [net.IPv4zero], in its 16-byte form. *)
Definition IPv4zero : list Z := repeat 0 10 ++ [255; 255; 0; 0; 0; 0].

(** A request that does not name a file goes to the audit log instead. *)
Definition Reject `{UUIDText} `{Audit.HasAudit S} (actor : Principal) (version : UUID) (reason : string) : DB (S * O) Error unit :=
  (fail if (User_ID actor =? NilUUID)%N with ErrAccessUnavailable;
   let ip := match PrincipalIP actor with Some a => Some a | None => Some IPv4zero end in
   if negb (version =? NilUUID)%N then
     let res := if bool_decide (reason = "invalid_actor"%string) then AccessDenied else AccessMalformed in
     onStore (WriteAccessLog (MkAccessLog (User_ID actor) version NilUUID NilUUID NilUUID NilUUID ActionPreview res "policy"
       (RequestID actor) ip None None EmptyString))
   else
     onStore (FilesStore.statement ErrDatabase (Audit.Write (fun _ => ErrDatabase)
       (Audit.MkEvent (User_ID actor) "ai.file_access_rejected" "ai_file_request" "unresolved"
          {["reason"%string := Audit.AnyString reason]} (RequestID actor) ip))))%db.

End Service.
Arguments OpenedFile : clear implicits.

(** ** Copying the body *)
Inductive ReadError := EOF | ReadFailed.
Global Instance ReadError_eq_dec : EqDecision ReadError.
Proof. solve_decision. Defined.
Inductive DeliveryError := errDeliveryRead | errDeliveryWrite | errDeliveryCancelled.

(** One call of [Read]: the bytes it put in the buffer and the error it returned. *)
Record Read := MkRead { data : list Z; readError : option ReadError }.

(** What the client side does: how many bytes a write takes, whether it fails, and
    whether the request is cancelled when it is looked at before a read and after a
    failed one. *)
Record Client := MkClient {
  takes : nat -> list Z -> nat; writeFails : nat -> bool; cancelledBefore : nat -> bool; cancelledAfter : nat -> bool
}.

(** After the reads of the list the reader returns [io.EOF].  The result is what has
    been written, whose length is the count the code returns, and the error. *)
Fixpoint copyLoop (c : Client) (reads : list Read) (turn empty : nat) (written : list Z) : list Z * option DeliveryError :=
  if cancelledBefore c turn then (written, Some errDeliveryCancelled)
  else match reads with
  | [] => (written, None)
  | MkRead b err :: rest =>
      let n := takes c turn b in
      let written' := if bool_decide (b = []) then written else written ++ take n b in
      let empty' := if bool_decide (b = []) then S empty else O in
      if negb (bool_decide (b = [])) && (writeFails c turn || negb (n =? length b)%nat) then (written', Some errDeliveryWrite)
      else match err with
      | Some EOF => (written', None)
      | Some ReadFailed => (written', Some (if cancelledAfter c turn then errDeliveryCancelled else errDeliveryRead))
      | None => if (100 <=? empty')%nat then (written', Some errDeliveryRead) else copyLoop c rest (S turn) empty' written'
      end
  end.

Definition copyDeliveryContext (c : Client) (reads : list Read) : list Z * option DeliveryError := copyLoop c reads 0 0 [].

Section Delivery.
Context {S O : Type} (readsOf : Objects.Reader -> list Read).

Definition failureReason (e : DeliveryError) (cancelled : bool) : string :=
  match e with
  | errDeliveryCancelled => "cancelled"
  | errDeliveryWrite => if cancelled then "cancelled" else "stream_write"
  | errDeliveryRead => if cancelled then "cancelled" else "stream_read"
  end.

(** [cancelled]: whether the request is cancelled by the time the copy has failed. *)
Definition deliverOpenedFile (c : Client) (cancelled closeFails : bool) (opened : OpenedFile S O) :
  DB (S * O) Error (list Z * option string) :=
  (let '(written, err) := copyDeliveryContext c (readsOf (Body opened)) in
   match err with
   | Some e =>
     do _ <- attempt (E' := Error) (ReportFailure opened (failureReason e cancelled));
     dret (written, Some (failureReason e cancelled))
   | None =>
     if closeFails : bool then
       do _ <- attempt (E' := Error) (ReportFailure opened "stream_close");
       dret (written, Some "stream_close"%string)
     else dret (written, None)
   end)%db.

(** ** The response *)
Record Response := MkResponse { Code : Z; Headers : list (string * string) }.

Definition rangeHeader (values : list string) : string :=
  match values with [] => EmptyString | [v] => v | _ => "invalid-multiple" end.

(** [disposition] is [mime.FormatMediaType] of the file name. *)
Definition respond (disposition : string -> string -> string) (action : AccessAction) (opened : OpenedFile S O) : Response :=
  let kind := if bool_decide (action = ActionDownload) then "attachment"%string else "inline"%string in
  let cd := disposition kind (DisplayName opened) in
  let r := Range opened in
  MkResponse (if Partial opened then 206 else 200)
    ([("Content-Disposition", if bool_decide (cd = EmptyString) then kind else cd);
      ("Content-Type", ContentType opened);
      ("Content-Length", FormatInt (Size opened));
      ("Cache-Control", "no-store, private");
      ("X-Content-Type-Options", "nosniff")]%string
     ++ (if Playable opened then [("Accept-Ranges", "bytes")]%string else [])
     ++ (if Partial opened
         then [("Content-Range", "bytes " ++ FormatInt (Start r) ++ "-" ++ FormatInt (End_ r) ++ "/" ++ FormatInt (Total r))]%string
         else [])).

Definition fileError (e : Error) : Response :=
  match e with
  | Files.ErrNotFound => MkResponse 404 []
  | Files.ErrRange size =>
      MkResponse 416 [("Content-Range"%string, if 0 <? size then ("bytes */" ++ FormatInt size)%string else "bytes */*"%string)]
  | _ => MkResponse 500 []
  end.

End Delivery.
End Access.

(** * Files of published lessons, and the log of accesses

    Models [ResolveAccess] and [WriteAccessLog] of [internal/files/postgres_store.go]
    over the tables of lessons, and makes them the store that [FileAccess] asks for.
    Where a query has several rows and says no order, which comes first is a parameter:
    [pick] among the lessons that bind a version, [tie] among previews of the same rank. *)

Import Files.

Module LessonAccess.
Import Lessons Access.

Section Store.
Context `{PgTime} (pick : nat) (tie : string -> Z).

(** ** Resolving *)
Definition previewRank (kind : string) : Z :=
  if bool_decide (kind = "pdf"%string) then 1
  else if bool_decide (kind = "page"%string) then 2
  else if bool_decide (kind = "poster"%string) then 3
  else 4.

(** The preview that stands for a version. *)
Definition bestPreview (db : FilesDB) (version : UUID) : option PreviewRow :=
  head (snd <$> orderBy (fun '((_, kind), _) => [previewRank kind; tie kind])
    (List.filter (fun '((v, _), _) => (v =? version)%N) (map_to_list (previews db)))).

Definition nonEmptyText (o : option string) (default : string) : string :=
  match o with Some s => if bool_decide (s = EmptyString) then default else s | None => default end.

Definition isAction (a b : AccessAction) : bool := bool_decide (a = b).

(** What is handed out for a binding of a revision, if anything. *)
Definition delivery (db : FilesDB) (action : AccessAction) (revision : UUID) (b : BindingRow) : option Delivery :=
  match Bindings.bindable db (b_version b) with
  | None => None
  | Some v =>
      let preview := isAction action ActionPreview in
      let fp := bestPreview db (b_version b) in
      if bool_decide (v_state v = "ready"%string)
         && (negb (isAction action ActionDownload) || bool_decide (b_policy b = PolicyDownload))
         && (negb preview || v_playable v || bool_decide (is_Some fp))
      then
        match fp with
        | Some p =>
            if preview && negb (v_playable v)
            then Some (MkDelivery (b_version b) revision (p_key p) (b_name b) (p_type p) (p_size p) (b_policy b) false true)
            else Some (MkDelivery (b_version b) revision (v_key v) (b_name b)
                   (if preview then nonEmptyText (v_detected v) (v_mime v) else "application/octet-stream")
                   (v_size v) (b_policy b) (preview && v_playable v) false)
        | None =>
            Some (MkDelivery (b_version b) revision (v_key v) (b_name b)
                   (if preview then nonEmptyText (v_detected v) (v_mime v) else "application/octet-stream")
                   (v_size v) (b_policy b) (preview && v_playable v) false)
        end
      else None
  end.

(** The rows of the query: a delivery per lesson that lets the student at the version. *)
Definition lessonDeliveries (db : LessonDB) (student requested : UUID) (action : AccessAction) (lesson : UUID) : list Delivery :=
  match authorizedRevision db student lesson with
  | None => []
  | Some (r, _) =>
      omap (delivery (base db) action r)
        (snd <$> List.filter (fun '(_, b) => (b_owner b =? r)%N && (b_version b =? requested)%N)
           (map_to_list (revFiles (revisionT db))))
  end.

Definition deliveries (db : LessonDB) (student requested : UUID) (action : AccessAction) : list Delivery :=
  map_to_list (lessons (catalog db)) ≫= fun '(lesson, _) => lessonDeliveries db student requested action lesson.

Definition ResolveAccess_ (student requested : UUID) (action : AccessAction) : DB LessonDB Error Delivery :=
  (call ErrDatabase;
   do db <- dget;
   let found := deliveries db student requested action in
   match found !! (pick mod length found)%nat with
   | Some d => dret d
   | None => dfail ErrNotFound
   end)%db.

(** ** The log *)
Definition reasonCodes : list string :=
  [""; "not_found"; "policy"; "not_ready"; "invalid_range"; "storage"; "stream_read"; "stream_write"; "stream_close"; "cancelled"]%string.

Definition nullable (id : UUID) : option UUID := if (id =? NilUUID)%N then None else Some id.

Definition present (id : UUID) : nat := match nullable id with Some _ => 1%nat | None => 0%nat end.

(** The constraints of the table; a revision is referred to by its identifier, messages
    are in tables of their own ([messages]). *)
Definition logCheck (messages : gset N) (db : LessonDB) (l : AccessLog) : bool :=
  bool_decide (LogActor l ∈ users (base db))
  && match nullable (LogVersion l) with Some v => bool_decide (is_Some (versions (base db) !! v)) | None => true end
  && match nullable (LogRevision l) with Some r => bool_decide (is_Some (revisions (revisionT db) !! r)) | None => true end
  && match nullable (LogQA l) with Some m => bool_decide (m ∈ messages) | None => true end
  && match nullable (LogAI l) with Some m => bool_decide (m ∈ messages) | None => true end
  && (present (LogRevision l) + present (LogQA l) + present (LogAI l) <=? 1)%nat
  && knownAction (LogAction l)
  && member reasonCodes (LogReason l)
  && charLength 1 128 (LogRequest l)
  && match LogStart l, LogEnd l with
     | Some a, Some b => (0 <=? a) && (a <=? b)
     | Some a, None => 0 <=? a
     | None, _ => true
     end
  && match LogIP l with Some ip => (length ip =? 4)%nat || (length ip =? 16)%nat | None => false end
  && (bool_decide (LogPlayback l = EmptyString) || (RuneCountInString (LogPlayback l) =? 64)).

(** Allowed playback is sampled: one row per actor, version, target, action and key. *)
Definition sameSample (a b : AccessLog) : bool :=
  bool_decide (LogResult a = AccessAllowed) && bool_decide (LogResult b = AccessAllowed)
  && negb (bool_decide (LogPlayback a = EmptyString)) && bool_decide (LogPlayback a = LogPlayback b)
  && (LogActor a =? LogActor b)%N && (LogRequested a =? LogRequested b)%N && bool_decide (LogAction a = LogAction b)
  && ((LogRevision a =? LogRevision b)%N && negb (LogRevision a =? NilUUID)%N
      || (LogQA a =? LogQA b)%N && negb (LogQA a =? NilUUID)%N
      || (LogAI a =? LogAI b)%N && negb (LogAI a =? NilUUID)%N).

Definition WriteAccessLog_ (messages : gset N) (l : AccessLog) : DB LessonDB Error unit :=
  FilesStore.statement ErrDatabase
    (call ErrDatabase;
     do db <- dget;
     fail if negb (logCheck messages db l) with ErrDatabase;
     if existsb (sameSample l) (accessLogs db) then dret tt
     else dput (setLogs (accessLogs db ++ [l]) db))%db.

End Store.

(** The store of lessons as the services ask for it. *)
#[export] Instance PgAccessLogs (messages : gset N) : AccessLogs LessonDB := {| WriteAccessLog := WriteAccessLog_ messages |}.

#[export] Instance PgAccessStore (pick : nat) (tie : string -> Z) (messages : gset N) :
  @AccessStore LessonDB (PgAccessLogs messages) :=
  @Build_AccessStore LessonDB (PgAccessLogs messages) (ResolveAccess_ pick tie).

End LessonAccess.
