(* ===== verification/AccessTheorems.v ===== *)
(** * Theorems on serving files

    Byte ranges are exact, copying hands out what was read, and no file is opened
    without a log. *)

From S2P Require Import Prelude GoTime GoText GoStrings GoStrconv Pg OpsModel FilesModel FilesStore UploadService LessonModel FileAccess.
From stdpp Require Import base tactics list gmap strings.
From Stdlib Require Import Ascii ZArith Lia Decimal DecimalString DecimalZ.
Import Files Lessons Access.

Open Scope Z_scope.

(** ** Decimal digits *)
Lemma digitsValue_acc d acc :
  digitsValue (Z.pos acc) (NilEmpty.string_of_uint d) = Some (Z.pos (Pos.of_uint_acc d acc)).
Proof.
  revert acc. induction d as [|d IH|d IH|d IH|d IH|d IH|d IH|d IH|d IH|d IH|d IH]; intros acc; [done|..].
  all: cbn [NilEmpty.string_of_uint digitsValue Pos.of_uint_acc].
  all: match goal with |- (if ?b then _ else _) = _ => change b with true end; cbv iota.
  all: rewrite <- IH; f_equal.
  all: match goal with |- context [byteZ ?c] => let v := eval vm_compute in (byteZ c) in change (byteZ c) with v end.
  all: lia.
Qed.

Lemma digitsValue_uint d : digitsValue 0 (NilEmpty.string_of_uint d) = Some (Z.of_uint d).
Proof.
  induction d as [|d IH|d IH|d IH|d IH|d IH|d IH|d IH|d IH|d IH|d IH]; [done|..].
  all: cbn [NilEmpty.string_of_uint digitsValue].
  all: match goal with |- (if ?b then _ else _) = _ => change b with true end; cbv iota.
  all: match goal with |- context [byteZ ?c] => let v := eval vm_compute in (byteZ c) in change (byteZ c) with v end.
  all: match goal with |- digitsValue ?x _ = _ => let v := eval vm_compute in x in change x with v end.
  all: first [exact IH | rewrite digitsValue_acc; reflexivity].
Qed.

Lemma FormatInt_uint v : 0 <= v -> FormatInt v = NilZero.string_of_uint (N.to_uint (Z.to_N v)).
Proof. intros Hv. unfold FormatInt. destruct v as [|p|p]; [done|done|lia]. Qed.

Lemma parseASCIIDecimal_FormatInt v : 0 <= v <= maxInt64 -> parseASCIIDecimal (FormatInt v) = Some v.
Proof.
  intros [Hv Hm]. rewrite FormatInt_uint by done.
  assert (Hd : digitsValue 0 (NilZero.string_of_uint (N.to_uint (Z.to_N v))) = Some v).
  { pose proof (DecimalN.Unsigned.of_to (Z.to_N v)) as Ho.
    assert (Hn : Z.of_uint (N.to_uint (Z.to_N v)) = v)
      by (change (Z.of_N (N.of_uint (N.to_uint (Z.to_N v))) = v); rewrite Ho; lia).
    destruct (N.to_uint (Z.to_N v)) as [|d|d|d|d|d|d|d|d|d|d] eqn:E.
    2-11: unfold NilZero.string_of_uint; by rewrite digitsValue_uint, Hn.
    exfalso. destruct v as [|p|p]; [done|cbn in Ho; lia|lia]. }
  unfold parseASCIIDecimal. destruct (NilZero.string_of_uint _) as [|c s] eqn:E.
  - exfalso. unfold NilZero.string_of_uint in E. by destruct (N.to_uint (Z.to_N v)).
  - rewrite Hd. by rewrite (proj2 (Z.leb_le v maxInt64)).
Qed.

Lemma parseASCIIDecimal_bounds s v : parseASCIIDecimal s = Some v -> 0 <= v <= maxInt64.
Proof.
  assert (Hn : forall s acc v, 0 <= acc -> digitsValue acc s = Some v -> 0 <= v).
  { clear. induction s as [|c s IH]; intros acc v Ha; cbn [digitsValue]; [by intros [= <-]|].
    destruct (isDigit (byteZ c)) eqn:Ed; [|done]. apply IH. unfold isDigit in Ed. bool_simpl. lia. }
  unfold parseASCIIDecimal. destruct s as [|c s]; [done|].
  destruct (digitsValue 0 (String c s)) as [x|] eqn:E; [|done].
  destruct (Z.leb_spec x maxInt64); [|done]. intros [= <-]. apply Hn in E; lia.
Qed.

(** ** Byte ranges *)
Lemma countByte_app c (s t : string) : countByte c (s ++ t)%string = (countByte c s + countByte c t)%nat.
Proof.
  induction s as [|x s IH]; [done|]. change (String x s ++ t)%string with (String x (s ++ t)). cbn [countByte].
  rewrite IH. by destruct (Ascii.eqb x c).
Qed.

(** A number is digits only. *)
Lemma countByte_FormatInt c v : 0 <= v -> isDigit (byteZ c) = false -> countByte c (FormatInt v) = 0%nat.
Proof.
  intros Hv Hc. rewrite FormatInt_uint by done.
  assert (Hu : forall d, countByte c (NilEmpty.string_of_uint d) = 0%nat).
  { induction d as [|d IH|d IH|d IH|d IH|d IH|d IH|d IH|d IH|d IH|d IH]; [done|..].
    all: cbn [NilEmpty.string_of_uint countByte]; rewrite IH.
    all: match goal with |- context [Ascii.eqb ?x ?y] => destruct (Ascii.eqb_spec x y) as [Hx|_]; [by rewrite <- Hx in Hc|done] end. }
  pose proof (Hu (N.to_uint (Z.to_N v))) as Hn. pose proof (Hu (D0 Nil)) as H0.
  by destruct (N.to_uint (Z.to_N v)).
Qed.

Lemma cutDash_app s t : countByte "-" s = 0%nat -> cutDash (s ++ String "-" t)%string = Some (s, t).
Proof.
  induction s as [|x s IH]; [done|]. change (String x s ++ String "-" t)%string with (String x (s ++ String "-" t)).
  cbn [countByte cutDash]. destruct (Ascii.eqb x "-"); [done|]. intros Hs. by rewrite IH.
Qed.

Lemma FormatInt_nonempty v : FormatInt v <> EmptyString.
Proof.
  unfold FormatInt, NilZero.string_of_int. destruct (Z.to_int v) as [d|d]; [|done]. by destruct d.
Qed.

(** The parser on a header with one dash and no comma. *)
Lemma parse_cut left_ right_ size : 1 <= size ->
  countByte "," left_ = 0%nat -> countByte "," right_ = 0%nat -> countByte "-" left_ = 0%nat -> countByte "-" right_ = 0%nat ->
  parseByteRange ("bytes=" ++ left_ ++ "-" ++ right_)%string size true =
  match (if bool_decide (left_ = EmptyString) then suffixRange right_ size else boundedRange left_ right_ size) with
  | Some (s, e) => Ok (Some (MkRange s e size))
  | None => Err (ErrRange size)
  end.
Proof.
  intros Hs Hc1 Hc2 Hd1 Hd2. unfold parseByteRange. rewrite (proj2 (Z.ltb_ge size 1)) by lia. cbn [negb orb].
  rewrite bool_decide_eq_false_2 by done.
  change (stripPrefix "bytes=" ("bytes=" ++ left_ ++ "-" ++ right_)%string) with (Some (left_ ++ "-" ++ right_)%string).
  cbv beta iota. rewrite !countByte_app, Hc1, Hc2, Hd1, Hd2.
  change ("-" ++ right_)%string with (String "-" right_). by rewrite cutDash_app.
Qed.

(** C33. Byte ranges are exact.  What the parser accepts lies inside the file, is not
    empty and is at most 64 MiB long unless it runs to the end of the file; and for a
    playable file the three forms of a header mean what they say: [a-b] is the bytes
    from [a] to [b] as far as the file goes, [a-] is everything from [a] on, and [-n]
    is the last [n] bytes, or all of a file that is shorter.  A first byte beyond the
    end, an end before the start and a slice above the cap are refused. *)
Theorem byte_ranges_exact size :
  (forall raw playable r, parseByteRange raw size playable = Ok (Some r) ->
     playable = true /\ 0 <= Start r <= End_ r /\ End_ r < size /\ Total r = size /\
     (End_ r - Start r + 1 <= maxRangeLength \/ End_ r = size - 1)) /\
  (forall a b, 1 <= size -> 0 <= a <= maxInt64 -> 0 <= b <= maxInt64 ->
     parseByteRange ("bytes=" ++ FormatInt a ++ "-" ++ FormatInt b)%string size true =
     if (a <? size) && (a <=? b) && ((Z.min b (size - 1) - a + 1 <=? maxRangeLength) || (size - 1 <=? b))
     then Ok (Some (MkRange a (Z.min b (size - 1)) size)) else Err (ErrRange size)) /\
  (forall a, 1 <= size -> 0 <= a <= maxInt64 ->
     parseByteRange ("bytes=" ++ FormatInt a ++ "-")%string size true =
     if a <? size then Ok (Some (MkRange a (size - 1) size)) else Err (ErrRange size)) /\
  (forall n, 1 <= size -> 0 <= n <= maxInt64 ->
     parseByteRange ("bytes=-" ++ FormatInt n)%string size true =
     if (1 <=? n) && (n <=? maxRangeLength) then Ok (Some (MkRange (Z.max 0 (size - n)) (size - 1) size)) else Err (ErrRange size)).
Proof.
  split_and!.
  - intros raw playable r. unfold parseByteRange. case_bool_decide; [done|].
    destruct (negb playable || (size <? 1)) eqn:Ep; [done|]. bool_simpl.
    destruct (stripPrefix _ raw); [|done]. destruct (_ || _); [done|]. destruct (cutDash _) as [[left_ right_]|]; [|done].
    destruct (if bool_decide (left_ = EmptyString) then _ else _) as [[st e]|] eqn:Er; [|done]. intros [= <-]. cbn.
    split; [done|]. revert Er. case_bool_decide.
    + unfold suffixRange. destruct (parseASCIIDecimal right_) as [n|]; [|done].
      destruct (_ || _) eqn:En; [done|]. bool_simpl. intros [= <- <-]. lia.
    + unfold boundedRange. destruct (parseASCIIDecimal left_) as [a|] eqn:Ea; [|done].
      destruct (_ || _) eqn:En; [done|]. bool_simpl. apply parseASCIIDecimal_bounds in Ea.
      destruct (if bool_decide (right_ = EmptyString) then _ else _) as [e'|] eqn:Ee; [|done].
      assert (a <= e' <= size - 1).
      { revert Ee. case_bool_decide; [intros [= <-]; lia|].
        destruct (parseASCIIDecimal right_) as [b|]; [|done]. destruct (Z.ltb_spec b a); [done|].
        destruct (Z.leb_spec size b); intros [= <-]; lia. }
      destruct (_ && _) eqn:El; [done|]. intros [= <- <-].
      apply andb_false_iff in El as [El|El]; bool_simpl; lia.
  - intros a b Hs Ha Hb.
    rewrite parse_cut by (done || apply countByte_FormatInt; done || lia).
    rewrite bool_decide_eq_false_2 by apply FormatInt_nonempty. unfold boundedRange.
    rewrite !parseASCIIDecimal_FormatInt, (bool_decide_eq_false_2 (FormatInt b = EmptyString)) by (done || apply FormatInt_nonempty).
    destruct (Z.ltb_spec a size), (Z.leb_spec a b), (Z.ltb_spec b a), (Z.ltb_spec a 0), (Z.leb_spec size a); try lia; try done.
    destruct (Z.leb_spec size b); cbn [andb orb].
    + rewrite (proj2 (Z.leb_le (size - 1) b)), Z.eqb_refl, andb_false_r, orb_true_r by lia. do 3 f_equal. lia.
    + replace (Z.min b (size - 1)) with b by lia.
      destruct (Z.ltb_spec maxRangeLength (b - a + 1)), (Z.leb_spec (b - a + 1) maxRangeLength),
        (Z.eqb_spec b (size - 1)), (Z.leb_spec (size - 1) b); cbn; try lia; try done.
  - intros a Hs Ha. change ("bytes=" ++ FormatInt a ++ "-")%string with ("bytes=" ++ FormatInt a ++ "-" ++ "")%string.
    rewrite parse_cut by (done || apply countByte_FormatInt; done || lia).
    rewrite bool_decide_eq_false_2 by apply FormatInt_nonempty. unfold boundedRange.
    rewrite parseASCIIDecimal_FormatInt by done. rewrite bool_decide_eq_true_2 by done.
    destruct (Z.ltb_spec a size), (Z.ltb_spec a 0), (Z.leb_spec size a); try lia; try done.
    cbn [orb]. by rewrite Z.eqb_refl, andb_false_r.
  - intros n Hs Hn. change ("bytes=-" ++ FormatInt n)%string with ("bytes=" ++ "" ++ "-" ++ FormatInt n)%string.
    rewrite parse_cut by (done || apply countByte_FormatInt; done || lia).
    rewrite bool_decide_eq_true_2 by done. unfold suffixRange. rewrite parseASCIIDecimal_FormatInt by done.
    destruct (Z.ltb_spec n 1), (Z.leb_spec 1 n), (Z.ltb_spec maxRangeLength n), (Z.leb_spec n maxRangeLength); try lia; try done.
    cbn. do 3 f_equal. lia.
Qed.

(** ** Copying *)

(** What a reader gives until it ends, well or badly. *)
Fixpoint contentOf (reads : list Read) : list Z :=
  match reads with
  | [] => []
  | MkRead b None :: rest => b ++ contentOf rest
  | MkRead b (Some _) :: _ => b
  end.

(** A writer never takes more than it is given. *)
Definition honest (c : Client) : Prop := forall i b, (takes c i b <= length b)%nat.

(** A client that takes everything and stays. *)
Definition patient (c : Client) : Prop :=
  forall i, cancelledBefore c i = false /\ writeFails c i = false /\ forall b, takes c i b = length b.

(** A reader that does not fail and does not return nothing a hundred times in a row. *)
Fixpoint sound (empty : nat) (reads : list Read) : bool :=
  match reads with
  | [] => true
  | MkRead b err :: rest =>
      let empty' := if bool_decide (b = []) then S empty else O in
      match err with
      | Some EOF => true
      | Some ReadFailed => false
      | None => (empty' <? 100)%nat && sound empty' rest
      end
  end.

Lemma copyLoop_prefix c reads turn empty written w e :
  copyLoop c reads turn empty written = (w, e) ->
  exists p, w = written ++ p /\ (honest c -> p `prefix_of` contentOf reads) /\ (e = None -> p = contentOf reads).
Proof.
  revert turn empty written. induction reads as [|[b err] rest IH]; intros turn empty written; cbn [copyLoop].
  { destruct (cancelledBefore c turn); intros [= <- <-]; exists []; rewrite app_nil_r; split_and!; done. }
  destruct (cancelledBefore c turn).
  { intros [= <- <-]. exists []. rewrite app_nil_r. split_and!; [done|intros; apply prefix_nil|done]. }
  cbv zeta. set (n := takes c turn b).
  assert (Hw : (if bool_decide (b = []) then written else written ++ take n b) = written ++ take n b).
  { case_bool_decide; [subst b; by rewrite take_nil, app_nil_r|done]. }
  rewrite Hw. destruct (negb _ && _) eqn:Ew.
  { intros [= <- <-]. exists (take n b). split_and!; [done| |done]. intros _. destruct err; cbn.
    - apply prefix_take.
    - by apply prefix_app_r, prefix_take. }
  assert (Hn : take n b = b).
  { destruct (decide (b = [])) as [->|Eb]; [apply take_nil|]. rewrite (bool_decide_eq_false_2 _ Eb) in Ew.
    cbn [negb andb] in Ew. apply orb_false_iff in Ew as [_ Ew]. apply negb_false_iff, Nat.eqb_eq in Ew.
    by rewrite Ew, firstn_all. }
  rewrite Hn. destruct err as [[]|].
  - intros [= <- <-]. by exists b.
  - intros [= <- <-]. exists b. split_and!; [done|done|]. by destruct (cancelledAfter c turn).
  - destruct (100 <=? _)%nat.
    + intros [= <- <-]. exists b. split_and!; [done|intros _; by apply prefix_app_r|done].
    + intros Hc. apply IH in Hc as (p & -> & Hp & He). exists (b ++ p). rewrite app_assoc. split_and!; [done| |].
      * intros Hh. by apply prefix_app, Hp.
      * intros H'. cbn. by rewrite He.
Qed.

Lemma copyLoop_patient c reads turn empty written :
  patient c -> sound empty reads = true -> copyLoop c reads turn empty written = (written ++ contentOf reads, None).
Proof.
  intros Hp. revert turn empty written. induction reads as [|[b err] rest IH]; intros turn empty written; cbn [copyLoop sound contentOf].
  all: destruct (Hp turn) as (-> & Hf & Ht).
  { by rewrite app_nil_r. }
  cbv zeta. rewrite Hf, Ht, Nat.eqb_refl, andb_false_r, firstn_all. cbn [negb orb andb].
  assert (Hw : (if bool_decide (b = []) then written else written ++ b) = written ++ b).
  { case_bool_decide; [subst b; by rewrite app_nil_r|done]. }
  rewrite Hw. destruct err as [[]|]; [done|done|].
  intros Hs. apply andb_true_iff in Hs as [He Hs]. apply Nat.ltb_lt in He.
  rewrite (proj2 (Nat.leb_gt 100 _)) by done. rewrite IH by done. by rewrite app_assoc.
Qed.

(** Copying a body to the client is exact: when it reports no error, everything the
    reader gave has been written, in order and once; with an error, what has been
    written is a prefix of it; and a reader that does not fail, to a client that takes
    everything and stays, is copied to the end. *)
Theorem delivery_exact c reads w e :
  copyDeliveryContext c reads = (w, e) -> honest c ->
  w `prefix_of` contentOf reads /\ (e = None -> w = contentOf reads) /\
  (patient c -> sound 0 reads = true -> e = None).
Proof.
  intros Hc Hh. destruct (copyLoop_prefix _ _ _ _ _ _ _ Hc) as (p & -> & Hp & He). split_and!; [by apply Hp|done|].
  intros Hpa Hs. unfold copyDeliveryContext in Hc. rewrite copyLoop_patient in Hc by done. congruence.
Qed.

Definition exampleClient : Client := MkClient (fun _ b => length b) (fun _ => false) (fun _ => false) (fun _ => false).

Lemma delivery_exact_witness :
  copyDeliveryContext exampleClient [MkRead [1; 2] None; MkRead [] None; MkRead [3] (Some EOF); MkRead [4] None] = ([1; 2; 3], None) /\
  [1; 2; 3] `prefix_of` [1; 2; 3].
Proof.
  assert (Hc : copyDeliveryContext exampleClient [MkRead [1; 2] None; MkRead [] None; MkRead [3] (Some EOF); MkRead [4] None]
    = ([1; 2; 3], None)) by (vm_compute; reflexivity).
  split; [exact Hc|]. apply (delivery_exact _ _ _ _ Hc). intros i b. cbn. lia.
Defined.

(** ** Every attempt is logged *)
Section Logged.
Context {S O : Type} `{AccessLogs S} (originals previews : Bucket O).

Lemma onStore_run {A} (m : DB S Error A) env n db (o : O) n' db' o' r :
  onStore m env (n, (db, o)) = ((n', (db', o')), r) -> m env (n, db) = ((n', db'), r) /\ o' = o.
Proof. unfold onStore. destruct (m env (n, db)) as [[n1 db1] r1]. by intros [= <- <- <- <-]. Qed.

(** How an attempt that is turned down ends. *)
Lemma failClosedLog_run {A} (l : AccessLog) (e : Error) env n db (o : O) n' db' o' (r : result Error A) :
  failClosedLog l e env (n, (db, o)) = ((n', (db', o')), r) ->
  exists w, WriteAccessLog l env (n, db) = ((n', db'), w) /\ o' = o /\
    r = Err (match w with Ok _ => e | Err _ => ErrAccessUnavailable end).
Proof.
  unfold failClosedLog, attempt, dbind, onStore. destruct (WriteAccessLog l env (n, db)) as [[n1 db1] [u|e1]].
  all: intros [= <- <- <- <-]; by eexists.
Qed.

(** What a log says of an attempt, and what its caller got. *)
Record describes (actor version : UUID) (action : AccessAction) (l : AccessLog) : Prop := {
  describes_actor : LogActor l = actor; describes_version : LogRequested l = version; describes_action : LogAction l = action
}.

(** The file that is handed out is the delivery [d]: the object under its key in its
    bucket, in the range that was asked for, with its name, type and size; the log that
    was written last says so, with the owner ([revision], [qa] or [ai]) of the file and
    the key its playback is sampled under. *)
Record delivers (actor : Principal) (version : UUID) (action : AccessAction) (raw : string) (capable : bool)
  (revision qa ai : UUID) (sampled : option ResponseRange -> string -> Prop)
  (d : Delivery) (env : Env) (db1 : S) (o : O) (n' : nat) (db' : S) (o' : O) (f : OpenedFile S O) : Prop := {
  delivers_file : exists rng info key n1,
    parseByteRange raw (DSize d) capable = Ok rng /\
    (if DPreview d then previews else originals) (DKey d) (rangeRequest rng) o = (o', Ok (Body f, info)) /\
    Objects.InfoSize info = DSize d /\ sampled rng key /\
    WriteAccessLog (MkAccessLog (User_ID actor) version (DVersion d) revision qa ai action AccessAllowed EmptyString
      (RequestID actor) (PrincipalIP actor) (Start <$> rng) (End_ <$> rng) key) env (n1, db1) = ((n', db'), Ok tt) /\
    Size f = match rng with Some r => End_ r - Start r + 1 | None => DSize d end /\
    Partial f = bool_decide (is_Some rng) /\ Range f = rangeValue rng (DSize d);
  delivers_name : DisplayName f = DName d;
  delivers_type : ContentType f = DContentType d;
  delivers_playable : Playable f = capable
}.

(** An attempt that fails ends with a log of why, unless the log could not be written. *)
Definition turnedDown (actor version : UUID) (action : AccessAction) (env : Env) (n' : nat) (db' : S) (e : Error) : Prop :=
  exists l n1 db1 w, WriteAccessLog l env (n1, db1) = ((n', db'), w) /\ describes actor version action l /\
    ((w = Ok tt /\ LogResult l ∈ [AccessDenied; AccessMalformed; AccessFailed]) \/
     (is_ok w = false /\ e = ErrAccessUnavailable)).

Lemma failClosedLog_turnedDown {A} (l : AccessLog) (e e' : Error) actor version action env n db o n' db' o' :
  failClosedLog (O := O) (A := A) l e env (n, (db, o)) = ((n', (db', o')), Err e') ->
  describes actor version action l -> LogResult l ∈ [AccessDenied; AccessMalformed; AccessFailed] ->
  turnedDown actor version action env n' db' e'.
Proof.
  intros Hr Hd Hl. apply failClosedLog_run in Hr as (w & Hw & -> & [= ->]). exists l, n, db, w. split_and!; [done..|].
  destruct w as [[]|]; [by left|by right].
Qed.

Lemma failClosedLog_never {A} (l : AccessLog) (e : Error) env st st' (f : A) : failClosedLog (O := O) l e env st <> (st', Ok f).
Proof.
  destruct st as [n [db o]], st' as [n' [db' o']]. intros Hr. by apply failClosedLog_run in Hr as (w & _ & _ & ?).
Qed.

(** A run of [serve] that hands out a file: its log is the last thing it did. *)
Lemma serve_delivers actor version action revision qa ai sampled d raw capable playback env n db o n' db' o' f :
  (forall rng st st' key, playback rng env st = (st', Ok key) -> snd st' = snd st /\ sampled rng key) ->
  serve originals previews (logTarget (DVersion d) revision qa ai (openLog actor version action)) d raw capable playback
    env (n, (db, o)) = ((n', (db', o')), Ok f) ->
  delivers actor version action raw capable revision qa ai sampled d env db o n' db' o' f.
Proof.
  intros Hplay. unfold serve. destruct (parseByteRange raw (DSize d) capable) as [rng|e] eqn:Ep.
  2: { intros Hr. by apply failClosedLog_never in Hr. }
  cbv zeta. unfold dbind at 1, getObject. destruct (_ (DKey d) (rangeRequest rng) o) as [o1 [[body info]|e]] eqn:Eg.
  2: { intros Hr. by apply failClosedLog_never in Hr. }
  destruct (Z.eqb_spec (Objects.InfoSize info) (DSize d)) as [Hi|]; cbn [negb].
  2: { intros Hr. by apply failClosedLog_never in Hr. }
  intros Hr. apply dbind_Ok in Hr as ([n1 [db1 o2]] & key & Hk & Hr).
  apply Hplay in Hk as [Hk Hs]. cbn in Hk. injection Hk as -> ->.
  apply dbind_Ok in Hr as ([n2 [db2 o3]] & w & Hw & Hr). unfold attempt in Hw.
  destruct (onStore _ env (n1, (db, o1))) as [[n3 [db3 o4]] w'] eqn:Es. apply onStore_run in Es as [Es ->].
  injection Hw as -> -> -> <-. destruct w' as [[]|e]; [|done]. apply dret_Ok in Hr as [Hst ->].
  injection Hst as -> -> ->. split; [|done..]. exists rng, info, key, n1. by split_and!.
Qed.

Lemma serve_turnedDown l d raw capable playback actor version action env n db o n' db' o' e :
  (forall rng st st' e, playback rng env st <> (st', Err e)) ->
  serve originals previews l d raw capable playback env (n, (db, o)) = ((n', (db', o')), Err e) ->
  describes actor version action l -> turnedDown actor version action env n' db' e.
Proof.
  intros Hnofail Hr Hd. revert Hr. unfold serve. destruct (parseByteRange raw (DSize d) capable) as [rng|e1]; cbv zeta.
  2: { intros Hr. eapply failClosedLog_turnedDown; [exact Hr|by destruct Hd|set_solver]. }
  unfold dbind at 1, getObject. destruct (_ (DKey d) (rangeRequest rng) o) as [o1 [[body info]|e2]].
  2: { intros Hr. eapply failClosedLog_turnedDown; [exact Hr|by destruct Hd|set_solver]. }
  destruct (negb _). { intros Hr. eapply failClosedLog_turnedDown; [exact Hr|by destruct Hd|set_solver]. }
  unfold dbind at 1. destruct (playback rng env (n, (db, o1))) as [[n1 [db1 o2]] [key|e3]] eqn:Ek.
  2: { by apply Hnofail in Ek. }
  unfold dbind at 1, attempt.
  destruct (onStore _ env (n1, (db1, o2))) as [[n3 [db3 o4]] w'] eqn:Es. apply onStore_run in Es as [Es ->].
  destruct w' as [u|e4]; [done|]. intros [= <- <- <- <-].
  eexists _, n1, db1, _. split; [exact Es|]. destruct Hd. split; [by split|]. by right.
Qed.

(** The key an allowed range of a playable file of a lesson is sampled under. *)
Definition lessonPlayback (d : Delivery) (actor : UUID) (action : AccessAction) (rng : option ResponseRange) :
  DB (S * O) Error string :=
  match rng with
  | Some _ => if DPlayable d
              then dbind wallNow (fun now => dret (playbackAggregationKey now actor (DVersion d) (DRevision d) action))
              else dret EmptyString
  | None => dret EmptyString
  end.

Definition lessonSampled (d : Delivery) (actor : UUID) (action : AccessAction) (rng : option ResponseRange) (key : string) : Prop :=
  if bool_decide (is_Some rng) && DPlayable d
  then exists now, key = playbackAggregationKey now actor (DVersion d) (DRevision d) action
  else key = EmptyString.

Lemma lessonPlayback_never_fails d actor action rng env st st' e : lessonPlayback d actor action rng env st <> (st', Err e).
Proof.
  destruct st as [n db]. unfold lessonPlayback. destruct rng; [destruct (DPlayable d)|]; unfold dbind, wallNow, dret; intros Hk.
  all: apply (f_equal snd) in Hk; cbv beta iota delta [snd] in Hk; discriminate Hk.
Qed.

Lemma lessonPlayback_keeps d actor action rng env st st' key : lessonPlayback d actor action rng env st = (st', Ok key) ->
  snd st' = snd st /\ lessonSampled d actor action rng key.
Proof.
  unfold lessonPlayback, lessonSampled. destruct rng as [rng|]; [|intros [-> ->]%dret_Ok; done].
  destruct (DPlayable d); [|intros [-> ->]%dret_Ok; done].
  intros (st1 & now & Hn & [-> ->]%dret_Ok)%dbind_Ok. split; [|by exists now].
  destruct st as [n db]. unfold wallNow in Hn. by injection Hn as <- _.
Qed.

(** An attempt that is refused hands out nothing. *)
Lemma refused_outcome (P : OpenedFile S O -> Prop) actor version action res reason l e env n db o n' db' o' r :
  describes actor version action l -> res ∈ [AccessDenied; AccessMalformed; AccessFailed] ->
  failClosedLog (O := O) (logResult res reason l) e env (n, (db, o)) = ((n', (db', o')), r) ->
  match r with Ok f => P f | Err e => turnedDown actor version action env n' db' e end.
Proof.
  intros Hd Hl Hr. destruct r as [f|e']; [by apply failClosedLog_never in Hr|].
  eapply failClosedLog_turnedDown; [exact Hr|by destruct Hd|done].
Qed.

Ltac refused := intros Hr; eapply refused_outcome; [| |exact Hr]; [by split|set_solver].

Lemma guard_passed (ok : bool) version action :
  negb ok || (version =? NilUUID)%N || negb (knownAction action) = false ->
  ok = true /\ version <> NilUUID /\ (action = ActionPreview \/ action = ActionDownload).
Proof.
  rewrite !orb_false_iff, !negb_false_iff, N.eqb_neq. unfold knownAction.
  rewrite orb_true_iff, !bool_decide_eq_true. tauto.
Qed.

Definition unsampled (rng : option ResponseRange) (key : string) : Prop := key = EmptyString.

(** Who may ask for which file. *)
Definition mayAsk (actor : Principal) (i : OpenInput) : Prop :=
  User_Status actor = StatusActive /\ OpenVersion i <> NilUUID /\ (OpenAction i = ActionPreview \/ OpenAction i = ActionDownload).

(** C34. No byte is handed out without a log.  Whatever the stores and the buckets do,
    an attempt to open a file, of a lesson, of a question or of the assistant, ends with
    writing its log.  A file is handed out only to an active account, after the store
    has resolved the version that was asked for on behalf of the caller (a download of a
    lesson's file only if its policy allows one) and the log of an allowed access has been
    written; and what is handed out is that delivery: the object under its key in its
    bucket, in the range that was asked for and that the log records, with its name, type
    and size.  An attempt that is turned down has logged a denial, a malformed request or
    a failure with the actor, the version and the action, and when the log cannot be
    written the caller only learns that access is unavailable. *)
Theorem opened_files_are_logged `{!AccessStore S} `{!QAAccessStore S} `{!AIAccessStore S} actor i env n db o :
  (forall n' db' o' r, Open originals previews actor i env (n, (db, o)) = ((n', (db', o')), r) ->
     match r with
     | Ok f => mayAsk actor i /\ User_Role actor = RoleStudent /\ exists n1 db1 d,
         ResolveAccess (User_ID actor) (OpenVersion i) (OpenAction i) env (n, db) = ((n1, db1), Ok d) /\
         (OpenAction i = ActionDownload -> DPolicy d = PolicyDownload) /\
         delivers actor (OpenVersion i) (OpenAction i) (OpenRange i) (DPlayable d) (DRevision d) NilUUID NilUUID
           (lessonSampled d (User_ID actor) (OpenAction i)) d env db1 o n' db' o' f
     | Err e => turnedDown (User_ID actor) (OpenVersion i) (OpenAction i) env n' db' e
     end) /\
  (forall n' db' o' r, QAOpen originals previews actor i env (n, (db, o)) = ((n', (db', o')), r) ->
     match r with
     | Ok f => mayAsk actor i /\ (User_Role actor = RoleStudent \/ User_Role actor = RoleAdmin) /\ exists n1 db1 d message,
         ResolveQAAccess actor (OpenVersion i) (OpenAction i) env (n, db) = ((n1, db1), Ok (d, message)) /\
         delivers actor (OpenVersion i) (OpenAction i) (OpenRange i) (DPlayable d || bool_decide (OpenAction i = ActionDownload))
           NilUUID message NilUUID unsampled d env db1 o n' db' o' f
     | Err e => turnedDown (User_ID actor) (OpenVersion i) (OpenAction i) env n' db' e
     end) /\
  (forall n' db' o' r, AIOpen originals previews actor (OpenVersion i) (OpenRange i) env (n, (db, o)) = ((n', (db', o')), r) ->
     match r with
     | Ok f => User_Status actor = StatusActive /\ User_Role actor = RoleStudent /\ OpenVersion i <> NilUUID /\
         exists n1 db1 d message,
         ResolveAIAccess actor (OpenVersion i) env (n, db) = ((n1, db1), Ok (d, message)) /\
         delivers actor (OpenVersion i) ActionPreview (OpenRange i) (DPlayable d) NilUUID NilUUID message unsampled
           d env db1 o n' db' o' f
     | Err e => turnedDown (User_ID actor) (OpenVersion i) ActionPreview env n' db' e
     end).
Proof.
  split_and!; intros n' db' o' r; [unfold Open|unfold QAOpen|unfold AIOpen]; cbv zeta.
  - destruct (_ || _) eqn:Hg; [refused|]. apply guard_passed in Hg as (Hv & Hn & Ha).
    unfold dbind at 1, attempt. destruct (onStore _ env (n, (db, o))) as [[n1 [db1 o1]] w] eqn:Ew.
    apply onStore_run in Ew as [Ew ->]. destruct w as [d|e]; [|refused].
    destruct (_ && _) eqn:Hp; [refused|]. fold (lessonPlayback d (User_ID actor) (OpenAction i)).
    unfold validStudent in Hv. apply andb_true_iff in Hv as [Hrole%bool_decide_eq_true Hst%bool_decide_eq_true].
    destruct r as [f|e]; intros Hr.
    + split; [done|]. split; [done|]. exists n1, db1, d. split; [done|]. split.
      { intros Had. rewrite Had, bool_decide_true in Hp by done. by apply negb_false_iff, bool_decide_eq_true in Hp. }
      eapply serve_delivers; [|exact Hr]. intros. by eapply lessonPlayback_keeps.
    + eapply serve_turnedDown; [|exact Hr|by split]. intros. apply lessonPlayback_never_fails.
  - destruct (_ || _) eqn:Hg; [refused|]. apply guard_passed in Hg as (Hv & Hn & Ha).
    unfold dbind at 1, attempt. destruct (onStore _ env (n, (db, o))) as [[n1 [db1 o1]] w] eqn:Ew.
    apply onStore_run in Ew as [Ew ->]. destruct w as [[d m]|e]; [|refused].
    unfold validQAActor in Hv. rewrite !andb_true_iff, orb_true_iff, !bool_decide_eq_true in Hv. destruct Hv as ((_ & Hst) & Hrole).
    destruct r as [f|e]; intros Hr.
    + split; [done|]. split; [done|]. exists n1, db1, d, m. split; [done|].
      eapply serve_delivers; [|exact Hr]. by intros ? ? ? ? [= <- <-].
    + eapply serve_turnedDown; [|exact Hr|by split]. by intros ? [].
  - destruct (_ || _) eqn:Hg; [refused|].
    apply orb_false_iff in Hg as [Hv%negb_false_iff Hn%N.eqb_neq].
    unfold dbind at 1, attempt. destruct (onStore _ env (n, (db, o))) as [[n1 [db1 o1]] w] eqn:Ew.
    apply onStore_run in Ew as [Ew ->]. destruct w as [[d m]|e]; [|case_bool_decide; refused].
    unfold validAIActor, validStudent in Hv. rewrite !andb_true_iff, !bool_decide_eq_true in Hv. destruct Hv as (_ & Hrole & Hst).
    destruct r as [f|e]; intros Hr.
    + split_and!; [done..|]. exists n1, db1, d, m. split; [done|].
      eapply serve_delivers; [|exact Hr]. by intros ? ? ? ? [= <- <-].
    + eapply serve_turnedDown; [|exact Hr|by split]. by intros ? [].
Qed.

End Logged.
