(* ===== verification/LessonProofs.v ===== *)
(** * Lessons: the invariant of the tables

    Every operation of the teaching services, of the bindings and of the file center,
    and every operation of the file stores, keeps the tables well formed; above all, the
    file versions that published revisions refer to stay settled. *)

From S2P Require Import Prelude GoTime GoText GoStrings GoFloat Pg OpsModel Keyset AuditLog FilesModel FilesStore ProcessingStore FilesCleanup ProcessingProofs ProcessingTheorems ProcessingHistory FilesSettled LessonModel LessonFiles LessonStore Publication LessonService.
From stdpp Require Import base tactics list gmap strings.
From Stdlib Require Import ZArith Lia.
Import Files Lessons.

Open Scope Z_scope.

(** ** Reading operations *)
Definition dreads {S E A} (m : DB S E A) : Prop := forall env n s st r, m env (n, s) = (st, r) -> snd st = s.

Section Reads.
Context {S E : Type}.

Lemma dreads_ret {A} (a : A) : dreads (S := S) (E := E) (dret a).
Proof. by intros env n s st r [= <- <-]. Qed.
Lemma dreads_fail {A} (e : E) : dreads (S := S) (A := A) (dfail e).
Proof. by intros env n s st r [= <- <-]. Qed.
Lemma dreads_get : dreads (S := S) (E := E) dget.
Proof. by intros env n s st r [= <- <-]. Qed.
Lemma dreads_call (e : E) : dreads (S := S) (roundtrip e).
Proof. intros env n s st r. unfold roundtrip. destruct (fault env n); by intros [= <- <-]. Qed.
Lemma dreads_bind {A B} (m : DB S E A) (k : A -> DB S E B) : dreads m -> (forall a, dreads (k a)) -> dreads (dbind m k).
Proof.
  intros Hm Hk env n s st r. unfold dbind. destruct (m env (n, s)) as [[n1 s1] [a|e]] eqn:E1.
  - apply Hm in E1. cbn in E1. subst s1. apply Hk.
  - intros [= <- <-]. by apply Hm in E1.
Qed.
End Reads.

Create HintDb dreads discriminated.
#[export] Hint Resolve dreads_ret dreads_fail dreads_get dreads_call : dreads.

(** Walks through an operation that only reads. *)
Ltac reads_step :=
  lazymatch goal with
  | |- forall _, _ => intros ?
  | |- dreads (dbind _ _) => apply dreads_bind
  | |- dreads (if ?b then _ else _) => destruct b
  | |- dreads (let '(_, _) := ?x in _) => destruct x
  | |- dreads (match ?x with _ => _ end) => destruct x
  | |- dreads _ => solve [eauto with dreads]
  end.

(** ** The invariant *)
Definition bound (db : LessonDB) (version : UUID) : Prop := version ∈ boundVersions db.

Lemma bound_draft db id b : draftFiles (draftT db) !! id = Some b -> bound db (b_version b).
Proof.
  intros Hb. apply elem_of_union_l, elem_of_list_to_set, list_elem_of_fmap. exists (id, b). split; [done|].
  by apply elem_of_map_to_list.
Qed.

Lemma bound_revision db id b : revFiles (revisionT db) !! id = Some b -> bound db (b_version b).
Proof.
  intros Hb. apply elem_of_union_r, elem_of_list_to_set, list_elem_of_fmap. exists (id, b). split; [done|].
  by apply elem_of_map_to_list.
Qed.

(** What a published revision may hand out. *)
Definition servable (db : FilesDB) (b : BindingRow) : Prop :=
  settled db (b_version b) /\ (b_policy b = PolicyPreview -> Bindings.previewReady db (b_version b) = true).

Record lessonWf (db : LessonDB) : Prop := {
  l_files : filesWf (base db);
  l_haveFiles : haveFiles (base db);
  l_refs : lessonRefs (base db) = boundVersions db;
  l_draft : forall id b, draftFiles (draftT db) !! id = Some b -> is_Some (versions (base db) !! b_version b);
  l_published : forall id b, revFiles (revisionT db) !! id = Some b -> servable (base db) b
}.

(** The file tables, the bindings and the revisions as they were. *)
Definition sameBindings (db0 db : LessonDB) : Prop :=
  sameFiles (base db0) (base db) /\ jobs (base db) = jobs (base db0) /\
  draftFiles (draftT db) = draftFiles (draftT db0) /\ revisionT db = revisionT db0.

Lemma sameBindings_refl db : sameBindings db db.
Proof. done. Qed.

Lemma previewReady_same db db' version :
  (forall kind, previews db' !! (version, kind) = previews db !! (version, kind)) ->
  Bindings.previewReady db' version = Bindings.previewReady db version.
Proof.
  assert (Hp : forall d, Bindings.previewReady d version = true <-> exists kind, is_Some (previews d !! (version, kind))).
  { intros d. unfold Bindings.previewReady. rewrite existsb_exists. split.
    - intros ([[v kind] p] & Hin & E%N.eqb_eq). subst v. exists kind. exists p.
      by apply elem_of_map_to_list, list_elem_of_In.
    - intros (kind & p & Hk). exists ((version, kind), p). split; [by apply list_elem_of_In, elem_of_map_to_list|by apply N.eqb_eq]. }
  intros Hs. apply eq_true_iff_eq. rewrite !Hp. split; intros [kind Hk]; exists kind; by rewrite ?Hs, <- ?Hs in *.
Qed.

Lemma servable_same db db' b :
  files db' = files db -> versions db' = versions db -> previews db' = previews db -> servable db b -> servable db' b.
Proof.
  intros Hf Hv Hp [(v & Hx & Hr & f & Hl) Hpol]. split.
  - exists v. rewrite Hv. split_and!; [done|done|]. exists f. by rewrite Hf.
  - intros Hb. rewrite (previewReady_same db); [by apply Hpol|intros; by rewrite Hp].
Qed.

Lemma lessonWf_same db db' : sameBindings db db' -> lessonWf db -> lessonWf db'.
Proof.
  intros ((Hr & Hf & Hv & Hp) & Hj & Hd & Hrev) [H1 H2 H3 H4 H5]. split.
  - by eapply filesWf_same.
  - unfold haveFiles. rewrite Hf, Hv. exact H2.
  - rewrite Hr, H3. unfold boundVersions. by rewrite Hd, Hrev.
  - rewrite Hd, Hv. exact H4.
  - rewrite Hrev. intros id b Hb. eapply servable_same; [done..|by eapply H5].
Qed.

(** Bodies whose successful run keeps the tables well formed. *)
Definition lkeeps {E A} (m : DB LessonDB E A) : Prop := keeps lessonWf m.

Lemma frame_lkeeps {E A} (m : DB LessonDB E A) : (forall db0, keeps (sameBindings db0) m) -> lkeeps m.
Proof. intros Hm env n s st a Hs Hrun. eapply lessonWf_same; [|exact Hs]. eapply Hm; [apply sameBindings_refl|exact Hrun]. Qed.

(** The file tables after they have seen the bindings. *)
Lemma synced_wf db :
  filesWf (base db) -> haveFiles (base db) ->
  (forall id b, draftFiles (draftT db) !! id = Some b -> is_Some (versions (base db) !! b_version b)) ->
  (forall id b, revFiles (revisionT db) !! id = Some b -> servable (base db) b) -> lessonWf (synced db).
Proof.
  intros Hw Hh Hd Hr. split; try done.
Qed.

(** ** Generic steps *)
Section Keeps.
Context {S E : Type} (I : S -> Prop).

Lemma keeps_bind {A B} (m : DB S E A) (k : A -> DB S E B) : keeps I m -> (forall a, keeps I (k a)) -> keeps I (dbind m k).
Proof. intros Hm Hk env n s st b Hs Hrun. apply dbind_Ok in Hrun as ([n1 s1] & a & H1 & H2). eapply Hk; [|exact H2]. by eapply Hm in H1. Qed.
Lemma keeps_ret {A} (a : A) : keeps I (dret (E := E) a).
Proof. intros env n s st b Hs Hrun. by apply dret_Ok in Hrun as [-> _]. Qed.
Lemma keeps_fail {A} (e : E) : keeps I (dfail (A := A) e).
Proof. by intros env n s st b _ [=]. Qed.
Lemma keeps_reads {A} (m : DB S E A) : dreads m -> keeps I m.
Proof. intros Hm env n s st b Hs Hrun. by rewrite (Hm _ _ _ _ _ Hrun). Qed.

Lemma preserves_fail {A} (e : E) : preserves I (dfail (A := A) e).
Proof. by intros env n s st r Hs [= <- _]. Qed.
Lemma preserves_guard {A} (b : bool) (e : E) (m : DB S E A) : preserves I m -> preserves I (if b then dfail e else m).
Proof. intros Hm. destruct b; [apply preserves_fail|done]. Qed.
Lemma preserves_reads {A} (m : DB S E A) : dreads m -> preserves I m.
Proof. intros Hm env n s st b Hs Hrun. by rewrite (Hm _ _ _ _ _ Hrun). Qed.
Lemma preserves_bind_reads {A B} (m : DB S E A) (k : A -> DB S E B) :
  dreads m -> (forall a, preserves I (k a)) -> preserves I (dbind m k).
Proof.
  intros Hm Hk env n s st r Hs. unfold dbind. destruct (m env (n, s)) as [[n1 s1] [a|e]] eqn:E1.
  - apply Hm in E1. cbn in E1. subst s1. by apply Hk.
  - intros [= <- <-]. apply Hm in E1. cbn in *. by rewrite E1.
Qed.
End Keeps.

Create HintDb lkeeps discriminated.
#[export] Hint Resolve keeps_ret keeps_fail : lkeeps.

Section Operations.
Context `{PgTime} `{UUIDText}.

(** ** Operations that leave files and bindings alone *)
Lemma Write_bindings {E} (failed : Audit.Error -> E) ev env n (db : LessonDB) st r :
  Audit.Write failed ev env (n, db) = (st, r) -> sameBindings db (snd st).
Proof.
  unfold Audit.Write. destruct (Audit.validateAndMarshal ev); [|by intros [= <- _]].
  unfold dbind, databaseNow, dget, dput. destruct (fault env n); by intros [= <- _].
Qed.

Lemma sameBindings_trans a b c : sameBindings a b -> sameBindings b c -> sameBindings a c.
Proof. unfold sameBindings, sameFiles. intuition congruence. Qed.

Lemma record_keeps db0 e : keeps (sameBindings db0) (Lesson.record e).
Proof. intros env n s st r Hs Hrun. apply Write_bindings in Hrun. by eapply sameBindings_trans. Qed.

Lemma GetDraft_reads id : dreads (Teaching.GetDraft id).
Proof. unfold Teaching.GetDraft. repeat reads_step. Qed.
#[local] Hint Resolve GetDraft_reads : dreads.

Lemma insertAudience_reads db mode ids row : dreads (Teaching.insertAudience db mode ids row).
Proof.
  revert row. induction ids as [|id ids IH]; intros row; cbn [Teaching.insertAudience]; unfold Teaching.raise; repeat reads_step.
Qed.

Lemma insertVideos_reads owner vs m : dreads (Teaching.insertVideos owner vs m).
Proof.
  revert m. induction vs as [|v vs IH]; intros m; cbn [Teaching.insertVideos]; unfold Teaching.raise; repeat reads_step.
Qed.
#[local] Hint Resolve insertAudience_reads insertVideos_reads : dreads.

(** A reading part of a run leaves its state as it was. *)
Ltac reads_inv :=
  repeat match goal with
  | H : ?m ?env (?n, ?s) = ((_, ?s'), _) |- _ =>
      lazymatch s' with s => fail | _ => idtac end;
      let E := fresh "E" in assert (E : s' = s) by (refine ((_ : dreads m) env n s _ _ H); eauto with dreads); subst s'; clear H
  end.

Ltac lessons_go := unfold Teaching.raise in *; db_go; try subst.

Ltac same_bindings := unfold sameBindings, sameFiles in *; cbn in *; intuition congruence.
Ltac frame_lessons := intros env n s st res Hs Hrun; lessons_go; reads_inv; same_bindings.

Lemma CreateCatalog_frame norm db0 i : keeps (sameBindings db0) (Teaching.CreateCatalog norm i).
Proof. unfold Teaching.CreateCatalog. frame_lessons. Qed.

Lemma RenameCatalog_frame norm db0 k id name : keeps (sameBindings db0) (Teaching.RenameCatalog norm k id name).
Proof. unfold Teaching.RenameCatalog. frame_lessons. Qed.

Lemma updateNode_frame db0 k id f : keeps (sameBindings db0) (Teaching.updateNode k id f).
Proof. unfold Teaching.updateNode. frame_lessons. Qed.

Lemma ArchiveCatalog_frame db0 i : keeps (sameBindings db0) (Teaching.ArchiveCatalog i).
Proof.
  unfold Teaching.ArchiveCatalog. intros env n s st res Hs Hrun. apply dbind_Ok in Hrun as ([n1 s1] & now & H1 & H2).
  eapply updateNode_frame; [|exact H2]. by destruct (Archived i); db_inv.
Qed.

Lemma CreateLesson_frame db0 i : keeps (sameBindings db0) (Teaching.CreateLesson i).
Proof. unfold Teaching.CreateLesson. frame_lessons. Qed.

Lemma SaveDraft_frame db0 i : keeps (sameBindings db0) (Teaching.SaveDraft i).
Proof. unfold Teaching.SaveDraft. frame_lessons. Qed.

Lemma Withdraw_frame db0 id : keeps (sameBindings db0) (Teaching.Withdraw id).
Proof. unfold Teaching.Withdraw. frame_lessons. Qed.

Lemma ArchiveLesson_frame db0 id : keeps (sameBindings db0) (Teaching.ArchiveLesson id).
Proof. unfold Teaching.ArchiveLesson. frame_lessons. Qed.

Definition progressBody (student : UUID) (i : ProgressInput) : DB LessonDB Error unit :=
  (do now <- databaseNow ErrDatabase;
   do db <- dget;
   fail if negb (Teaching.authorizedFor db student (InRevision i)) with ErrNotFound;
   Teaching.raise (negb (Teaching.progressCheck i)) Teaching.CheckViolation
     (dput (setProgress (<[(student, InRevision i) := Teaching.upsertProgress now i (progress db !! (student, InRevision i))]>
              (progress db)) db)))%db.

Lemma progress_frame db0 student i : keeps (sameBindings db0) (progressBody student i).
Proof. unfold progressBody. frame_lessons. Qed.

(** ** Bindings of a draft *)

(** The file tables as they were, published bindings too, and drafts bind what exists. *)
Definition draftsBind (db0 db : LessonDB) : Prop :=
  sameFiles (base db0) (base db) /\ jobs (base db) = jobs (base db0) /\
  revisionT db = revisionT db0 /\
  forall id b, draftFiles (draftT db) !! id = Some b -> is_Some (versions (base db0) !! b_version b).

Lemma draftsBind_start db : lessonWf db -> draftsBind db db.
Proof. intros Hs. split_and!; [done..|apply (l_draft _ Hs)]. Qed.

Lemma draftsBind_files db0 db m :
  draftsBind db0 db -> (forall id b, m !! id = Some b -> is_Some (versions (base db0) !! b_version b)) ->
  draftsBind db0 (setDrafts (setDraftFiles m (draftT db)) db).
Proof. intros (H1 & H2 & H3 & _) Hm. by split_and!. Qed.

Lemma draftsBind_same db0 db db' : draftsBind db0 db -> sameBindings db db' -> draftsBind db0 db'.
Proof.
  intros (H1 & H2 & H3 & H4) (S1 & S2 & S3 & S4). unfold draftsBind, sameFiles in *.
  split_and!; try (intuition congruence). by rewrite S3.
Qed.

Lemma draftsBind_synced db0 db : lessonWf db0 -> draftsBind db0 db -> lessonWf (synced db).
Proof.
  intros [W1 W2 W3 W4 W5] ((_ & Hf & Hv & Hp) & Hj & Hr & Hd). apply synced_wf.
  - by eapply filesWf_same.
  - unfold haveFiles. rewrite Hf, Hv. exact W2.
  - intros id b Hb. rewrite Hv. by eapply Hd.
  - rewrite Hr. intros id b Hb. eapply servable_same; [done..|by eapply W5].
Qed.

Lemma insertBindings_keeps db0 lesson inputs : keeps (draftsBind db0) (Bindings.insertBindings lesson inputs).
Proof.
  induction inputs as [|i inputs IH]; cbn [Bindings.insertBindings]; [apply keeps_ret|].
  intros env n s st res Hs Hrun. db_go. eapply IH; [|eassumption].
  match goal with H : Bindings.insertBinding _ _ _ ?d = Some ?d' |- _ => rename H into Hi; rename d into d0 end.
  unfold Bindings.insertBinding in Hi. destruct (_ || _) eqn:Ec; [done|]. injection Hi as <-.
  apply orb_false_iff in Ec as [_ Ec]. bool_simpl. apply draftsBind_files; [done|].
  intros id b. rewrite lookup_insert_Some. destruct Hs as ((_ & _ & Hv & _) & _ & _ & Hd).
  intros [[_ <-]|[_ Hb]]; [by rewrite <- Hv|by eapply Hd].
Qed.

Lemma checkVersions_reads inputs : dreads (Bindings.checkVersions inputs).
Proof. unfold Bindings.checkVersions. repeat reads_step. Qed.
#[local] Hint Resolve checkVersions_reads : dreads.

Lemma bumpLesson_bindings lesson by_ env n db st u :
  Bindings.bumpLesson lesson by_ env (n, db) = (st, Ok u) -> sameBindings db (snd st).
Proof. unfold Bindings.bumpLesson. intros Hrun. db_go. done. Qed.

Lemma replaceBindings_lkeeps actor lesson expected inputs :
  lkeeps (Bindings.replaceBindingsBody actor lesson expected inputs).
Proof.
  unfold Bindings.replaceBindingsBody. intros env n s st res Hs Hrun. db_go. reads_inv.
  match goal with H : Bindings.insertBindings _ _ _ (_, ?d) = _ |- _ =>
    apply (insertBindings_keeps _ _ _ _ _ _ _ _ (draftsBind_files _ _ _ (draftsBind_start _ Hs)
      (fun id b Hb => l_draft _ Hs id b (proj1 (proj1 (map_lookup_filter_Some _ _ _ _) Hb))))) in H; cbn [snd] in H end.
  match goal with H : Bindings.bumpLesson _ _ _ _ = _ |- _ => apply bumpLesson_bindings in H; cbn [snd] in H end.
  match goal with H : Audit.Write _ _ _ _ = _ |- _ => apply Write_bindings in H; cbn [snd] in H end.
  eapply draftsBind_synced; [exact Hs|]. eapply draftsBind_same; [|eassumption]. by eapply draftsBind_same.
Qed.

Lemma rebindOne_exists db0 (m : gmap N BindingRow) binding version :
  (forall id b, m !! id = Some b -> is_Some (versions (base db0) !! b_version b)) ->
  is_Some (versions (base db0) !! version) ->
  forall id b, Center.rebindOne binding version m !! id = Some b -> is_Some (versions (base db0) !! b_version b).
Proof.
  intros Hm Hv id b. unfold Center.rebindOne. rewrite lookup_alter_Some.
  intros [(<- & c & Hc & ->)|[_ Hb]]; [done|by eapply Hm].
Qed.

Lemma rollback_lkeeps choice actor file lesson version : lkeeps (Center.rollbackBody choice actor file lesson version).
Proof.
  unfold Center.rollbackBody. intros env n s st res Hs Hrun. db_go.
  all: repeat match goal with
    | H : Bindings.bumpLesson _ _ _ _ = _ |- _ => apply bumpLesson_bindings in H; cbn [snd] in H
    | H : Audit.Write _ _ _ _ = _ |- _ => apply Write_bindings in H; cbn [snd] in H
    end.
  all: eapply lessonWf_same; [eassumption|]; eapply draftsBind_synced; [exact Hs|].
  - eapply draftsBind_same; [|eassumption]. apply draftsBind_files; [by apply draftsBind_start|].
    apply rebindOne_exists; [apply (l_draft _ Hs)|by eexists].
  - by apply draftsBind_start.
Qed.

(** ** Replacing a file *)
Lemma liveFile_live db file : Bindings.liveFile db file = true -> live db file.
Proof.
  unfold Bindings.liveFile. destruct (files db !! file) as [f|] eqn:Ef; [|done]. intros Hl.
  apply andb_true_iff in Hl as [Hl%bool_decide_eq_true_1 _]. by exists f.
Qed.

Lemma withRetention_check u v : versionCheck v = true -> versionCheck (Cleanup.withRetention u v) = true.
Proof. intros. check_row. Qed.

Lemma movedVersion_check file n v : versionCheck v = true -> 0 < n -> versionCheck (Center.movedVersion file n v) = true.
Proof. intros Hv Hn. unfold versionCheck in *. cbn [Center.movedVersion v_version v_key v_name v_mime v_size v_sha v_state
  v_detected v_scan v_container v_codec v_duration v_width v_height v_failure v_cleanup v_cleanupOwner v_cleanupUntil v_cleanupAttempts] in *.
  rewrite !andb_true_iff, Z.ltb_lt in *. intuition. Qed.

Lemma withRetention_content u v : sameContent v (Cleanup.withRetention u v).
Proof. by split. Qed.

(** The file tables after the move: [uploaded] is a version of [file], [previous] is
    kept for a while, the file it came from is gone. *)
Definition movedFiles (db : FilesDB) (file source uploaded previous : UUID) (v p : VersionRow) (until : option Time) : FilesDB :=
  setFiles (delete source (files db))
    (setVersions (<[uploaded := Center.movedVersion file (v_version p + 1) v]>
                    (<[previous := Cleanup.withRetention until p]> (versions db))) db).

Section Moved.
Context (db : FilesDB) (file source uploaded previous : UUID) (v p : VersionRow) (until : option Time).
Hypotheses (Hwf : filesWf db) (Hfk : haveFiles db)
  (Hv : versions db !! uploaded = Some v) (Hp : versions db !! previous = Some p)
  (Hsource : v_file v = source) (Hfile : v_file p = file) (Hne : source <> file) (Hlive : live db file)
  (Hlast : forall id w, versions (movedFiles db file source uploaded previous v p until) !! id = Some w -> v_file w <> source).

Lemma moved_lookup id w :
  versions (movedFiles db file source uploaded previous v p until) !! id = Some w ->
  exists x, versions db !! id = Some x /\ v_state w = v_state x /\ versionCheck w = true.
Proof.
  unfold movedFiles. cbn. rewrite lookup_insert_Some. intros [[<- <-]|[Hu Hw]].
  - exists v. split_and!; [done|done|]. apply movedVersion_check; [by eapply (q_row _ _ Hwf)|].
    pose proof (q_row _ _ Hwf _ _ Hp) as Hck. unfold versionCheck in Hck. rewrite !andb_true_iff, Z.ltb_lt in Hck. lia.
  - revert Hw. rewrite lookup_insert_Some. intros [[<- <-]|[_ Hw]].
    + exists p. split_and!; [done|done|]. apply withRetention_check. by eapply (q_row _ _ Hwf).
    + exists w. split_and!; [done|done|]. by eapply (q_row _ _ Hwf).
Qed.

Lemma moved_exists id : is_Some (versions db !! id) -> is_Some (versions (movedFiles db file source uploaded previous v p until) !! id).
Proof.
  intros Hid. unfold movedFiles. cbn. rewrite !lookup_insert_is_Some.
  destruct (decide (uploaded = id)); [by left|right]. split; [done|]. destruct (decide (previous = id)); [by left|by right].
Qed.

(** A version other than the one that moved keeps its content. *)
Lemma moved_other id w : id <> uploaded -> versions db !! id = Some w ->
  exists w', versions (movedFiles db file source uploaded previous v p until) !! id = Some w' /\ sameContent w w'.
Proof.
  intros Hid Hw. unfold movedFiles. cbn. rewrite lookup_insert_ne by done. destruct (decide (previous = id)) as [<-|Hn].
  - rewrite lookup_insert_eq. rewrite Hp in Hw. injection Hw as <-. eexists. split; [done|apply withRetention_content].
  - rewrite lookup_insert_ne by done. exists w. split; [done|apply sameContent_refl].
Qed.

Lemma moved_wf : filesWf (movedFiles db file source uploaded previous v p until).
Proof.
  eapply (queueWf_versions (versions db)); [exact Hwf| |apply moved_exists].
  intros id w Hw. destruct (moved_lookup id w Hw) as (x & Hx & Hs & Hck). exists x. split_and!; [done..|by left].
Qed.

Lemma moved_haveFiles : haveFiles (movedFiles db file source uploaded previous v p until).
Proof.
  intros id w Hw. pose proof (Hlast id w Hw) as Hns. unfold movedFiles in *. cbn in *. rewrite lookup_delete_ne by done.
  revert Hw. rewrite lookup_insert_Some. intros [[_ <-]|[_ Hw]].
  - cbn. destruct Hlive as (f & Hf & _). by eexists.
  - revert Hw. rewrite lookup_insert_Some. intros [[_ <-]|[_ Hw]]; [exact (Hfk _ _ Hp)|exact (Hfk _ _ Hw)].
Qed.

Lemma moved_servable b :
  b_version b <> uploaded -> servable db b -> servable (movedFiles db file source uploaded previous v p until) b.
Proof.
  intros Hu [(w & Hw & Hr & f & Hf & Hdel) Hpol]. split; [|exact Hpol].
  destruct (moved_other _ _ Hu Hw) as (w' & Hw' & Hs). exists w'. split_and!; [done|by eapply sameContent_ready|].
  exists f. split; [|done]. rewrite (same_file _ _ Hs). pose proof (Hlast _ _ Hw') as Hns.
  rewrite (same_file _ _ Hs) in Hns. unfold movedFiles. cbn. by rewrite lookup_delete_ne.
Qed.

End Moved.

Lemma teachingVersions_head db file id p rest :
  Center.teachingVersions db file = (id, p) :: rest -> versions db !! id = Some p /\ v_file p = file.
Proof.
  intros Ht. assert (Hin : (id, p) ∈ Center.teachingVersions db file) by (rewrite Ht; left).
  unfold Center.teachingVersions in Hin. apply orderBy_elem in Hin.
  apply list_elem_of_In, filter_In in Hin as [Hin Hb]. split; [by apply elem_of_map_to_list, list_elem_of_In|].
  apply andb_true_iff in Hb as [Hb%N.eqb_eq _]. done.
Qed.

Lemma rebound_exists vs old new m :
  (forall id b, m !! id = Some b -> is_Some (vs !! b_version b)) -> is_Some (vs !! new) ->
  forall id b, Center.rebound old new m !! id = Some b -> is_Some ((vs : gmap N VersionRow) !! b_version b).
Proof.
  intros Hm Hn id b. unfold Center.rebound. rewrite lookup_fmap, fmap_Some. intros (c & Hc & ->).
  destruct (_ =? _)%N; [done|by eapply Hm].
Qed.

Lemma replaceFile_lkeeps actor file uploaded until : lkeeps (Center.replaceFileBody actor file uploaded until).
Proof.
  unfold Center.replaceFileBody, Center.rebindBody. intros env n s st res Hs Hrun. db_go.
  match goal with H : Audit.Write _ _ _ _ = _ |- _ => apply Write_bindings in H; cbn [snd] in H end.
  eapply lessonWf_same; [eassumption|]. bool_simpl.
  match goal with H : versions (base ?d) !! uploaded = Some ?x |- _ => rename d into db; rename x into v; rename H into Hv end.
  match goal with H : Center.teachingVersions _ file = (?a, ?b) :: _ |- _ =>
    rename a into previous; rename b into p; apply teachingVersions_head in H as [Hp Hpf] end.
  match goal with H : uploaded ∉ boundVersions _ |- _ => rename H into Hu end.
  match goal with H : Bindings.liveFile _ file = true |- _ => apply liveFile_live in H as Hlive end.
  match goal with H : existsb _ _ = false |- _ => rename H into Hx end.
  match goal with H : (v_file v =? file)%N = false |- _ => apply N.eqb_neq in H as Hne end.
  assert (Hlast : forall id w, versions (movedFiles (base db) file (v_file v) uploaded previous v p (Some (pg until))) !! id = Some w ->
    v_file w <> v_file v).
  { intros id w Hw E. apply not_true_iff_false in Hx. apply Hx, existsb_exists. exists (id, w).
    split; [by apply list_elem_of_In, elem_of_map_to_list|by apply N.eqb_eq]. }
  destruct Hs as [W1 W2 W3 W4 W5].
  apply (synced_wf (setBase (movedFiles (base db) file (v_file v) uploaded previous v p (Some (pg until))) _)); cbn [base setBase].
  - eapply moved_wf; eauto.
  - eapply moved_haveFiles; eauto.
  - cbn. intros id b Hb. apply (moved_exists (base db) file (v_file v)). revert id b Hb.
    apply rebound_exists; [exact W4|by eexists].
  - cbn. intros id b Hb. eapply moved_servable; eauto. intros E. apply Hu. rewrite <- E. by eapply bound_revision.
Qed.

(** ** Publishing *)
Lemma LockDraft_reads lesson : dreads (Teaching.LockDraftForPublication lesson).
Proof. unfold Teaching.LockDraftForPublication. repeat reads_step. Qed.
Lemma LockAudience_reads ids : dreads (Teaching.LockAudienceUsersForPublication ids).
Proof. unfold Teaching.LockAudienceUsersForPublication. repeat reads_step. Qed.
Lemma Blockers_reads lesson n : dreads (Teaching.PublicationBlockers lesson n).
Proof. unfold Teaching.PublicationBlockers. repeat reads_step. Qed.
#[local] Hint Resolve LockDraft_reads LockAudience_reads Blockers_reads : dreads.
Lemma readiness_reads d : dreads (Lesson.checkPublication Lesson.ReadinessChecker d).
Proof. unfold Lesson.checkPublication, Lesson.ReadinessChecker, Lesson.readScope. repeat reads_step. Qed.
#[local] Hint Resolve readiness_reads : dreads.

(** A readiness check that passes has found no blocker. *)
Lemma readiness_passes d env n db st u :
  Lesson.checkPublication Lesson.ReadinessChecker d env (n, db) = (st, Ok u) ->
  Teaching.blockersOf db (LessonID d) (LockVersion d) = [].
Proof.
  unfold Lesson.checkPublication, Lesson.ReadinessChecker, Lesson.readScope, Teaching.PublicationBlockers. intros Hrun. db_go.
  match goal with H : (0 <? Z.of_nat (length (remove_dups ?l))) = false |- ?l = [] => rename H into Hb; set (bs := l) in * end.
  apply Z.ltb_ge in Hb. destruct bs as [|x rest] eqn:E; [done|]. exfalso.
  assert (Hin : x ∈ remove_dups (x :: rest)) by (apply elem_of_remove_dups; left).
  destruct (remove_dups (x :: rest)); [by apply elem_of_nil in Hin|]. cbn in Hb. lia.
Qed.

(** What the blockers let through may be handed out. *)
Lemma unblocked db lesson n b :
  lessonWf db -> Teaching.blockersOf db lesson n = [] -> b ∈ Teaching.publishable db lesson -> servable (base db) b.
Proof.
  intros Hw Hno Hb. unfold Teaching.publishable in Hb. apply list_elem_of_fmap in Hb as ([id c] & -> & Hb). cbn [snd].
  apply orderBy_elem, list_elem_of_In, filter_In in Hb as [Hb Hc]. apply andb_true_iff in Hc as [Hl Hp].
  unfold Teaching.blockersOf in Hno. apply app_eq_nil in Hno as [Ho Hno]. apply app_eq_nil in Hno as [Hvb Hpm].
  assert (Hmine : c ∈ snd <$> List.filter (fun '(_, b) => Bindings.ofLesson lesson b) (map_to_list (draftFiles (draftT db)))).
  { apply list_elem_of_fmap. exists (id, c). split; [done|]. by apply list_elem_of_In, filter_In. }
  destruct (versions (base db) !! b_version c) as [v|] eqn:Ev; [|done]. apply bool_decide_eq_true_1 in Hp.
  destruct (l_haveFiles _ Hw _ _ Ev) as [f Hf].
  assert (Hnone : Teaching.versionBlocker (base db) (b_version c) = None).
  { apply eq_None_not_Some. intros [x Hx]. assert (x ∈ (@nil string)) as Hn by (rewrite <- Hvb; apply list_elem_of_omap; by exists c).
    by apply elem_of_nil in Hn. }
  unfold Teaching.versionBlocker in Hnone. rewrite Ev, Hf in Hnone.
  destruct (bool_decide (v_purpose v = UploadPurposeTeaching) && _ && _) eqn:Eok; [|done].
  apply andb_true_iff in Eok as [Eok Hdel]. apply andb_true_iff in Eok as [_ Hst].
  apply bool_decide_eq_true_1 in Hst. apply bool_decide_eq_true_1 in Hdel. split.
  - exists v. split_and!; [done|by split|by exists f].
  - intros Hpol. destruct (existsb _ _) eqn:Ex in Hpm; [done|]. apply not_true_iff_false in Ex.
    apply not_false_iff_true. intros Hpr. apply Ex, existsb_exists. exists c. split; [by apply list_elem_of_In|].
    unfold Teaching.previewMissing. rewrite Ev, !bool_decide_eq_true_2, Hpr by done. done.
Qed.

(** A binding of a draft as a revision has it. *)
Definition copied (revision : UUID) (c : BindingRow) : BindingRow :=
  MkBindingRow revision (b_version c) (b_policy c) (b_position c) (b_name c) (b_description c).

(** The copied bindings: those there were, and one for each of the draft's. *)
Lemma copyBindings_spec revision bs m env n db st m' :
  Teaching.copyBindings revision bs m env (n, db) = (st, Ok m') ->
  snd st = db /\ m ⊆ m' /\
  (forall id b, m' !! id = Some b -> m !! id = Some b \/ exists c, c ∈ bs /\ b = copied revision c) /\
  (forall c, c ∈ bs -> exists id, m' !! id = Some (copied revision c)).
Proof.
  revert m env n db st. induction bs as [|c bs IH]; intros m env n db st; cbn [Teaching.copyBindings]; unfold Teaching.raise; intros Hrun; db_go.
  { split_and!; [done|done|by left|]. intros c Hc. by apply elem_of_nil in Hc. }
  match goal with H : Teaching.copyBindings _ _ _ _ _ = _ |- _ => apply IH in H as (-> & Hsub & Hm & Hall) end.
  match goal with H : Bindings.bindingConflict _ _ _ = false |- _ => apply orb_false_iff in H as [Hnew%bool_decide_eq_false_1 _] end.
  rewrite <- eq_None_not_Some in Hnew. split_and!; [done|by etransitivity; [apply insert_subseteq|]| |].
  - intros id b Hb. destruct (Hm id b Hb) as [Hi|(d & Hd & E)].
    + revert Hi. rewrite lookup_insert_Some. intros [[_ <-]|[_ Hi]]; [|by left].
      right. exists c. split; [left|done].
    + right. exists d. split; [by right|done].
  - intros d Hd. apply elem_of_cons in Hd as [->|Hd]; [|by apply Hall].
    eexists. eapply lookup_weaken; [|exact Hsub]. apply lookup_insert_eq.
Qed.

Lemma insertVideos_spec owner vs m env n db st m' :
  Teaching.insertVideos owner vs m env (n, db) = (st, Ok m') ->
  m ⊆ m' /\ (forall id x, m' !! id = Some x -> m !! id = Some x \/ (fst x = owner /\ snd x ∈ vs)) /\
  (forall v, v ∈ vs -> m' !! VideoID v = Some (owner, v)).
Proof.
  revert m env n db st. induction vs as [|v vs IH]; intros m env n db st; cbn [Teaching.insertVideos]; unfold Teaching.raise; intros Hrun; db_go.
  { split_and!; [done|by left|]. intros v Hv. by apply elem_of_nil in Hv. }
  match goal with H : Teaching.insertVideos _ _ _ _ _ = _ |- _ => apply IH in H as (Hsub & Hm & Hall) end.
  match goal with H : bool_decide _ = false |- _ => apply bool_decide_eq_false_1 in H; rewrite <- eq_None_not_Some in H end.
  split_and!; [by etransitivity; [apply insert_subseteq|]| |].
  - intros id x Hx. destruct (Hm id x Hx) as [Hi|[Ho Hin]]; [|right; split; [done|by right]].
    revert Hi. rewrite lookup_insert_Some. intros [[_ <-]|[_ Hi]]; [|by left]. right. split; [done|left].
  - intros w Hw. apply elem_of_cons in Hw as [->|Hw]; [|by apply Hall].
    eapply lookup_weaken; [|exact Hsub]. apply lookup_insert_eq.
Qed.

(** Every member is inserted, and is an active student. *)
Lemma insertAudience_spec db mode ids row env n s st out :
  Teaching.insertAudience db mode ids row env (n, s) = (st, Ok out) ->
  out = row ++ ids /\ (forall id, id ∈ ids -> activeUser RoleStudent db id = true).
Proof.
  revert row env n s st. induction ids as [|id ids IH]; intros row env n s st; cbn [Teaching.insertAudience]; unfold Teaching.raise; intros Hrun; db_go.
  { rewrite app_nil_r. split; [done|]. intros id Hid. by apply elem_of_nil in Hid. }
  match goal with H : Teaching.insertAudience _ _ _ _ _ _ = _ |- _ => apply IH in H as (-> & Hall) end.
  match goal with H : _ || _ = false |- _ => apply orb_false_iff in H as [Ha%negb_false_iff _] end.
  rewrite <- app_assoc. split; [done|]. intros x Hx. apply elem_of_cons in Hx as [->|Hx]; [done|by apply Hall].
Qed.

(** The snapshot of a video is the video under an identifier of its own. *)
Definition videoContent (v : ExternalVideo) : string * string * string * Z :=
  (URL v, VideoTitle v, VideoDescription v, VideoSortKey v).

Lemma snapshotVideos_spec vs env n s st out :
  Teaching.snapshotVideos vs env (n, s) = (st, Ok out) -> videoContent <$> out = videoContent <$> vs.
Proof.
  revert env n s st out. induction vs as [|v vs IH]; intros env n s st out; cbn [Teaching.snapshotVideos]; intros Hrun; db_go; [done|].
  match goal with H : Teaching.snapshotVideos _ _ _ = _ |- _ => apply IH in H end. cbn. by f_equal.
Qed.

Lemma snapshotVideos_reads vs : dreads (Teaching.snapshotVideos vs).
Proof.
  induction vs as [|v vs IH]; cbn [Teaching.snapshotVideos]; repeat reads_step.
  intros env n s st r Hrun. unfold newUUID in Hrun. by injection Hrun as <- <-.
Qed.
#[local] Hint Resolve snapshotVideos_reads : dreads.

(** What a publication has done. *)
Record publication (i : PublishInput) (d : Draft) (db db' : LessonDB) (r : Revision) : Prop := {
  pub_id : revisions (revisionT db) !! RevID r = None /\ revAudiences (revisionT db) !! RevID r = None /\
    finalized (revisionT db) !! RevID r = None;
  pub_revision : r = MkRevision (RevID r) (PubLesson i) (Teaching.nextVersion db (PubLesson i)) (LockVersion d) (Title d)
    (Summary d) (BodyMarkdown d) (DraftSortKey d) (DraftAudience d) (RevVideos r) (PubActor i) (PublishedAt r);
  pub_row : revisions (revisionT db') = <[RevID r := Teaching.revisionRow i (Teaching.nextVersion db (PubLesson i)) d (PublishedAt r)]>
    (revisions (revisionT db));
  pub_final : finalized (revisionT db') = <[RevID r := PubLesson i]> (finalized (revisionT db));
  pub_audience : revAudiences (revisionT db') =
    <[RevID r := MkAudienceRow (Mode (DraftAudience d)) (UserIDs (DraftAudience d))]> (revAudiences (revisionT db));
  pub_members : forall id, id ∈ UserIDs (DraftAudience d) -> activeUser RoleStudent db id = true;
  pub_contents : videoContent <$> RevVideos r = videoContent <$> ExternalVideos d;
  pub_videos : revVideos (revisionT db) ⊆ revVideos (revisionT db') /\
    (forall id x, revVideos (revisionT db') !! id = Some x ->
       revVideos (revisionT db) !! id = Some x \/ (fst x = RevID r /\ snd x ∈ RevVideos r)) /\
    (forall v, v ∈ RevVideos r -> revVideos (revisionT db') !! VideoID v = Some (RevID r, v));
  pub_files : revFiles (revisionT db) ⊆ revFiles (revisionT db') /\
    (forall id b, revFiles (revisionT db') !! id = Some b ->
       revFiles (revisionT db) !! id = Some b \/ exists c, c ∈ Teaching.publishable db (PubLesson i) /\ b = copied (RevID r) c) /\
    (forall c, c ∈ Teaching.publishable db (PubLesson i) -> exists id, revFiles (revisionT db') !! id = Some (copied (RevID r) c));
  pub_lesson : is_Some (lessons (catalog db) !! PubLesson i) /\
    catalog db' = setLessons (alter (Teaching.publishLesson (RevID r)) (PubLesson i) (lessons (catalog db))) (catalog db);
  pub_draft : draftT db' = draftT db /\ people db' = people db /\ progress db' = progress db;
  pub_logs : accessLogs db' = accessLogs db;
  pub_event : events db' = Teaching.announce (PubLesson i) (RevID r) (events db);
  pub_base : base db' = setLessonRefs (boundVersions db') (base db)
}.

Lemma PublishSnapshot_run i d env n db st r :
  Teaching.PublishSnapshot i d env (n, db) = (st, Ok r) -> publication i d db (snd st) r.
Proof.
  unfold Teaching.PublishSnapshot. intros Hrun. lessons_go.
  match goal with H : Teaching.insertAudience _ _ _ _ _ (_, ?s) = ((_, ?s'), _) |- _ =>
    pose proof (insertAudience_reads _ _ _ _ _ _ _ _ _ H) as E; cbn in E; subst s';
    apply insertAudience_spec in H as [-> Hmem]; cbn [app] in * end.
  match goal with H : Teaching.snapshotVideos _ _ (_, ?s) = ((_, ?s'), _) |- _ =>
    pose proof (snapshotVideos_reads _ _ _ _ _ _ H) as E; cbn in E; subst s'; apply snapshotVideos_spec in H as Hcont; clear H end.
  match goal with H : Teaching.insertVideos _ _ _ _ (_, ?s) = ((_, ?s'), _) |- _ =>
    pose proof (insertVideos_reads _ _ _ _ _ _ _ _ H) as E; cbn in E; subst s'; apply insertVideos_spec in H as Hvid; clear H end.
  match goal with H : Teaching.copyBindings _ _ _ _ _ = _ |- _ => apply copyBindings_spec in H as (E & Hfiles); cbn [snd] in E; subst end.
  repeat match goal with H : _ || _ = false |- _ => apply orb_false_iff in H as [? ?] end. bool_simpl.
  repeat match goal with H : ~ is_Some _ |- _ => rewrite <- eq_None_not_Some in H end.
  split; cbn [snd]; try done; cbn; split_and!; done.
Qed.

(** The draft that is published, as its rows say. *)
Definition draftOf (db : LessonDB) (lesson : UUID) (row : DraftRow) (l : LessonRow) : Draft :=
  MkDraft lesson (l_chapter l) (d_title row) (d_summary row) (d_body row) (d_sort row) (d_lock row)
    (Teaching.audienceOf (draftAudiences (draftT db)) lesson) (Teaching.videosOf lesson (draftVideos (draftT db))) (d_updatedAt row).

Lemma GetDraft_run lesson env n db st d :
  Teaching.GetDraft lesson env (n, db) = (st, Ok d) ->
  exists row l, drafts (draftT db) !! lesson = Some row /\ lessons (catalog db) !! lesson = Some l /\ d = draftOf db lesson row l.
Proof. unfold Teaching.GetDraft. intros Hrun. db_go. do 2 eexists. split_and!; done. Qed.

Lemma LockDraft_run lesson env n db st d :
  Teaching.LockDraftForPublication lesson env (n, db) = (st, Ok d) ->
  exists row l, drafts (draftT db) !! lesson = Some row /\ lessons (catalog db) !! lesson = Some l /\ d = draftOf db lesson row l /\
    pathOpen (catalog db) l = true.
Proof.
  unfold Teaching.LockDraftForPublication. intros Hrun. db_go. bool_simpl.
  match goal with H : Teaching.GetDraft _ _ _ = _ |- _ => apply GetDraft_run in H as (row & l' & ? & ? & ->) end.
  simplify_eq. do 2 eexists. split_and!; done.
Qed.

(** A publication: what its checks found, and what it wrote. *)
Lemma publish_run lower Parse print actor i env n db st r :
  Lesson.publishBody lower Parse print Lesson.ReadinessChecker actor i env (n, db) = (st, Ok r) ->
  exists d row l st1 n1 db2,
    drafts (draftT db) !! PubLesson i = Some row /\ lessons (catalog db) !! PubLesson i = Some l /\
    d = draftOf db (PubLesson i) row l /\ pathOpen (catalog db) l = true /\
    LockVersion d = PubExpected i /\ Lesson.validPersistedDraft lower Parse print (Lesson.persisted actor d) = true /\
    Teaching.blockersOf db (PubLesson i) (LockVersion d) = [] /\
    Teaching.PublishSnapshot i d env (n1, db) = (st1, Ok r) /\ db2 = snd st1 /\ sameBindings db2 (snd st) /\
    exists t, snd st = setBase (Audit.setAudit t (base db2)) db2.
Proof.
  unfold Lesson.publishBody. intros Hrun. apply dbind_Ok in Hrun as ([n1 db1] & d & Hlock & Hrun).
  pose proof (LockDraft_reads _ _ _ _ _ _ Hlock) as E1. cbn in E1. subst db1.
  apply LockDraft_run in Hlock as (row & l & Hrow & Hl & Hd & Hopen).
  destruct (negb (LockVersion d =? PubExpected i)) eqn:Ev; [done|].
  destruct (negb (Lesson.validPersistedDraft _ _ _ _)) eqn:Evalid; [done|].
  apply dbind_Ok in Hrun as ([n2 db2] & u & Haud & Hrun).
  assert (db2 = db) as ->.
  { destruct (bool_decide _); [by apply LockAudience_reads in Haud|by apply dret_Ok in Haud as [[= _ <-] _]]. }
  apply dbind_Ok in Hrun as ([n3 db3] & u' & Hcheck & Hrun).
  pose proof (readiness_reads _ _ _ _ _ _ Hcheck) as E3. cbn in E3. subst db3.
  apply readiness_passes in Hcheck. apply dbind_Ok in Hrun as ([n4 db4] & r' & Hsnap & Hrun).
  apply dbind_Ok in Hrun as ([n5 db5] & u'' & Hwrite & Hrun). apply dret_Ok in Hrun as [-> ->].
  bool_simpl. exists d, row, l, (n4, db4), n3, db4. split_and!; try done.
  - rewrite Hd in Hcheck. by rewrite Hd.
  - by eapply Write_bindings.
  - revert Hwrite. unfold Lesson.record, Audit.Write. destruct (Audit.validateAndMarshal _); [|done].
    unfold dbind, databaseNow, dget, dput. destruct (fault env n4); intros Hw; simplify_eq/=; by eexists.
Qed.

Lemma publish_lkeeps lower Parse print actor i : lkeeps (Lesson.publishBody lower Parse print Lesson.ReadinessChecker actor i).
Proof.
  intros env n db st res Hs Hrun.
  apply publish_run in Hrun as (d & row & l & st1 & n1 & db2 & _ & _ & _ & _ & _ & _ & Hno & Hsnap & -> & Hsame & _).
  eapply lessonWf_same; [exact Hsame|].
  apply PublishSnapshot_run in Hsnap as Hpub. destruct (pub_files _ _ _ _ _ Hpub) as (_ & Hb & _).
  destruct (pub_draft _ _ _ _ _ Hpub) as (Hd & _). split; rewrite ?(pub_base _ _ _ _ _ Hpub).
  - apply Hs.
  - exact (l_haveFiles _ Hs).
  - done.
  - rewrite Hd. exact (l_draft _ Hs).
  - intros bid b Hbid. apply (servable_same (base db)); [done..|].
    destruct (Hb bid b Hbid) as [Hold|(c & Hc & ->)]; [by eapply (l_published _ Hs)|].
    exact (unblocked _ _ _ _ Hs Hno Hc).
Qed.

(** ** What leaves the students' progress alone *)
Definition sameProgress (db0 db : LessonDB) : Prop := progress db = progress db0.

Lemma Write_progress {E} (failed : Audit.Error -> E) ev env n (db : LessonDB) st r :
  Audit.Write failed ev env (n, db) = (st, r) -> progress (snd st) = progress db.
Proof.
  unfold Audit.Write. destruct (Audit.validateAndMarshal ev); [|by intros [= <- _]].
  unfold dbind, databaseNow, dget, dput. destruct (fault env n); by intros [= <- _].
Qed.

Lemma record_progress db0 e : keeps (sameProgress db0) (Lesson.record e).
Proof. intros env n s st r Hs Hrun. apply Write_progress in Hrun. unfold sameProgress in *. congruence. Qed.

Lemma bumpLesson_progress lesson by_ env n db st u :
  Bindings.bumpLesson lesson by_ env (n, db) = (st, Ok u) -> progress (snd st) = progress db.
Proof. unfold Bindings.bumpLesson. intros Hrun. db_go. done. Qed.

Lemma insertBindings_progress lesson inputs env n db st out :
  Bindings.insertBindings lesson inputs env (n, db) = (st, Ok out) -> progress (snd st) = progress db.
Proof.
  revert env n db st out. induction inputs as [|i inputs IH]; intros env n db st out; cbn [Bindings.insertBindings]; intros Hrun; db_go; [done|].
  match goal with H : Bindings.insertBindings _ _ _ _ = _ |- _ => apply IH in H; cbn [snd] in * end.
  match goal with H : Bindings.insertBinding _ _ _ _ = Some _ |- _ =>
    unfold Bindings.insertBinding in H; destruct (_ || _); [done|]; injection H as <- end. done.
Qed.

Ltac frame_progress :=
  intros env n s st res Hs Hrun; lessons_go; reads_inv;
  repeat match goal with
  | H : Bindings.insertBindings _ _ _ _ = _ |- _ => apply insertBindings_progress in H
  | H : Bindings.bumpLesson _ _ _ _ = _ |- _ => apply bumpLesson_progress in H
  | H : Audit.Write _ _ _ _ = _ |- _ => apply Write_progress in H
  end; subst; unfold sameProgress in *; cbn in *; congruence.

Lemma CreateCatalog_progress norm db0 i : keeps (sameProgress db0) (Teaching.CreateCatalog norm i).
Proof. unfold Teaching.CreateCatalog. frame_progress. Qed.
Lemma RenameCatalog_progress norm db0 k id name : keeps (sameProgress db0) (Teaching.RenameCatalog norm k id name).
Proof. unfold Teaching.RenameCatalog. frame_progress. Qed.
Lemma updateNode_progress db0 k id f : keeps (sameProgress db0) (Teaching.updateNode k id f).
Proof. unfold Teaching.updateNode. frame_progress. Qed.
Lemma ArchiveCatalog_progress db0 i : keeps (sameProgress db0) (Teaching.ArchiveCatalog i).
Proof.
  unfold Teaching.ArchiveCatalog. intros env n s st res Hs Hrun. apply dbind_Ok in Hrun as ([n1 s1] & now & H1 & H2).
  eapply updateNode_progress; [|exact H2]. by destruct (Archived i); db_inv.
Qed.
Lemma CreateLesson_progress db0 i : keeps (sameProgress db0) (Teaching.CreateLesson i).
Proof. unfold Teaching.CreateLesson. frame_progress. Qed.
Lemma SaveDraft_progress db0 i : keeps (sameProgress db0) (Teaching.SaveDraft i).
Proof. unfold Teaching.SaveDraft. frame_progress. Qed.
Lemma Withdraw_progress db0 id : keeps (sameProgress db0) (Teaching.Withdraw id).
Proof. unfold Teaching.Withdraw. frame_progress. Qed.
Lemma ArchiveLesson_progress db0 id : keeps (sameProgress db0) (Teaching.ArchiveLesson id).
Proof. unfold Teaching.ArchiveLesson. frame_progress. Qed.
Lemma replaceBindings_progress db0 actor lesson expected inputs :
  keeps (sameProgress db0) (Bindings.replaceBindingsBody actor lesson expected inputs).
Proof. unfold Bindings.replaceBindingsBody. frame_progress. Qed.
Lemma replaceFile_progress db0 actor file uploaded until : keeps (sameProgress db0) (Center.replaceFileBody actor file uploaded until).
Proof. unfold Center.replaceFileBody, Center.rebindBody. frame_progress. Qed.
Lemma rollback_progress db0 choice actor file lesson version : keeps (sameProgress db0) (Center.rollbackBody choice actor file lesson version).
Proof. unfold Center.rollbackBody. frame_progress. Qed.

End Operations.
