(* ===== verification/LessonTheorems.v ===== *)
(** * Theorems on lessons

    The reachable states of the tables; the files of published lessons stay servable;
    published revisions never change; a publication is an exact snapshot; progress only
    moves forward. *)

From S2P Require Import Prelude GoTime GoText GoStrings GoFloat Pg OpsModel Keyset AuditLog FilesModel FilesStore ProcessingStore FilesCleanup ProcessingProofs ProcessingTheorems ProcessingHistory FilesSettled UploadService LessonModel LessonFiles LessonStore Publication LessonService FileAccess LessonProofs.
From stdpp Require Import base tactics list gmap strings relations.
From Stdlib Require Import ZArith Lia.
Import Files Lessons.

Open Scope Z_scope.

Section Theorems.
Context `{PgTime} `{UUIDText} (norm lower : string -> string)
  (Parse : string -> option Lesson.ParsedURL) (print : string -> string -> Lesson.ParsedURL -> string).

(** ** Steps *)
Definition setPeople (p : gmap N UserRow) (db : LessonDB) : LessonDB :=
  MkLessonDB (base db) (catalog db) (draftT db) (revisionT db) p (progress db) (accessLogs db) (events db).

Definition initLessons (db : LessonDB) : Prop :=
  initFiles (base db) /\ files (base db) = ∅ /\ lessonRefs (base db) = ∅ /\
  draftFiles (draftT db) = ∅ /\ revisions (revisionT db) = ∅ /\ finalized (revisionT db) = ∅ /\
  revAudiences (revisionT db) = ∅ /\ revVideos (revisionT db) = ∅ /\ revFiles (revisionT db) = ∅ /\
  lessons (catalog db) = ∅.

(** One operation, in any environment: of the file stores, of the teaching services, of
    the bindings and of the file center; or a change of accounts, of the references of
    other components or of the mode. *)
Inductive lessonStep (db : LessonDB) : LessonDB -> Prop :=
| StepFiles b : storeStep (base db) b -> lessonStep db (setBase b db)
| StepCreateCatalog env actor i : lessonStep db (exec (Lesson.CreateCatalog norm actor i) env db)
| StepRenameCatalog env actor k id name : lessonStep db (exec (Lesson.RenameCatalog norm actor k id name) env db)
| StepReorderCatalog env actor k id key : lessonStep db (exec (Lesson.ReorderCatalog actor k id key) env db)
| StepArchiveCatalog env actor i : lessonStep db (exec (Lesson.ArchiveCatalog actor i) env db)
| StepCreateLesson env actor i : lessonStep db (exec (Lesson.CreateLesson actor i) env db)
| StepSaveDraft env actor i : lessonStep db (exec (Lesson.SaveDraft lower Parse print actor i) env db)
| StepPublish env actor i :
    lessonStep db (exec (Lesson.Publish lower Parse print Lesson.ReadinessChecker actor i) env db)
| StepWithdraw env actor id : lessonStep db (exec (Lesson.Withdraw actor id) env db)
| StepArchiveLesson env actor id : lessonStep db (exec (Lesson.ArchiveLesson actor id) env db)
| StepProgress env actor i : lessonStep db (exec (Lesson.UpdateProgress actor i) env db)
| StepBindings env actor lesson expected inputs : lessonStep db (exec (Bindings.Replace actor lesson expected inputs) env db)
| StepReplaceFile env actor file uploaded until : lessonStep db (exec (Center.ReplaceFile actor file uploaded until) env db)
| StepRollback env choice actor file lesson version :
    lessonStep db (exec (Center.RollbackFile choice actor file lesson version) env db)
| StepPeople p : lessonStep db (setPeople p db)
| StepOthers b : sameFiles (base db) b -> jobs b = jobs (base db) -> lessonStep db (setBase b db)
| StepLogs l : lessonStep db (setLogs l db).

(** An operation of a service is a transaction behind its checks. *)
Lemma exec_preserves {E A} (I : LessonDB -> Prop) (m : DB LessonDB E A) env db : preserves I m -> I db -> I (exec m env db).
Proof. intros Hm Hdb. unfold exec. destruct (m env (0%nat, db)) as [st r] eqn:Hr. by eapply Hm in Hr. Qed.

Lemma authorized_preserves {A} (I : LessonDB -> Prop) check actor (k : DB LessonDB Lessons.Error A) :
  preserves I k -> preserves I (Lesson.authorized check actor k).
Proof. intros Hk. unfold Lesson.authorized. destruct (check actor); [done|apply preserves_fail]. Qed.

Lemma audited_preserves {A} (I : LessonDB -> Prop) (m : DB LessonDB Lessons.Error A) e :
  keeps I m -> (forall ev, keeps I (Lesson.record ev)) -> preserves I (Lesson.audited m e).
Proof.
  intros Hm He. apply transact_preserves. apply keeps_bind; [done|]. intros a. apply keeps_bind; [done|].
  intros _. apply keeps_ret.
Qed.

(** The ways the services are put together: if each body keeps [I], so does each step
    but those of the file stores, the bindings and other components. *)
Ltac service I lemma :=
  apply exec_preserves; [|assumption]; apply (authorized_preserves I); repeat apply preserves_guard;
  apply (audited_preserves I); [apply lemma|].

Lemma record_lkeeps e : lkeeps (Lesson.record e).
Proof. apply frame_lkeeps. intros db0. apply record_keeps. Qed.

Lemma setLessonBase_wf b db : lessonWf db -> filesWf b -> keepsRefs (base db) b -> lessonWf (setBase b db).
Proof.
  intros [W1 W2 W3 W4 W5] Hb [K1 K2 K3 K4]. split; cbn.
  - done.
  - by apply K3.
  - by rewrite K1.
  - intros id c Hc. by eapply K2, W4.
  - intros id c Hc. destruct (W5 id c Hc) as [[v (Hv & Hr & Hl)] Hpol].
    assert (Hin : b_version c ∈ lessonRefs (base db)) by (rewrite W3; by eapply bound_revision).
    destruct (K4 _ v Hin Hv) as (v' & Hv' & Hs & Hlive & Hprev); [by exists v|]. split.
    + exists v'. rewrite (same_file _ _ Hs). split_and!; [done|by eapply sameContent_ready|done].
    + intros Hp. rewrite (previewReady_same (base db)) by done. by apply Hpol.
Qed.

Lemma storeStep_filesStep db b : storeStep db b -> filesWf db -> filesWf b.
Proof. intros Hs Hw. eapply filesStep_keeps; [exact Hw|by apply StepStore]. Qed.

Lemma lessonStep_keeps db db' : lessonWf db -> lessonStep db db' -> lessonWf db'.
Proof.
  intros Hw Hstep. destruct Hstep.
  - apply setLessonBase_wf; [done|eapply storeStep_filesStep; [done|by apply l_files]|].
    apply storeStep_settles; [by apply l_files|done].
  - service lessonWf @frame_lkeeps; [intros; apply CreateCatalog_frame|apply record_lkeeps].
  - service lessonWf @frame_lkeeps; [intros; apply RenameCatalog_frame|apply record_lkeeps].
  - service lessonWf @frame_lkeeps; [intros; apply updateNode_frame|apply record_lkeeps].
  - service lessonWf @frame_lkeeps; [intros; apply ArchiveCatalog_frame|apply record_lkeeps].
  - service lessonWf @frame_lkeeps; [intros; apply CreateLesson_frame|apply record_lkeeps].
  - service lessonWf @frame_lkeeps; [intros; apply SaveDraft_frame|apply record_lkeeps].
  - apply exec_preserves; [|done]. apply authorized_preserves, preserves_guard, transact_preserves, publish_lkeeps.
  - service lessonWf @frame_lkeeps; [intros; apply Withdraw_frame|apply record_lkeeps].
  - service lessonWf @frame_lkeeps; [intros; apply ArchiveLesson_frame|apply record_lkeeps].
  - apply exec_preserves; [|done]. apply authorized_preserves.
    apply preserves_bind_reads; [by intros ? ? ? ? ? [= <- <-]|]. intros now. apply preserves_guard, transact_preserves.
    apply (frame_lkeeps (progressBody _ _)). intros; apply progress_frame.
  - apply exec_preserves; [|done]. repeat apply preserves_guard. apply transact_preserves, replaceBindings_lkeeps.
  - apply exec_preserves; [|done]. apply transact_preserves, replaceFile_lkeeps.
  - apply exec_preserves; [|done]. apply transact_preserves, rollback_lkeeps.
  - by apply (lessonWf_same db).
  - by apply (lessonWf_same db).
  - by apply (lessonWf_same db).
Qed.

Lemma initLessons_wf db : initLessons db -> lessonWf db.
Proof.
  intros (Hf & He & Hr & Hd & _ & _ & _ & _ & Hrev & _). split.
  - by apply initFiles_wf.
  - intros id v. destruct Hf as [-> _]. by rewrite lookup_empty.
  - rewrite Hr. unfold boundVersions. rewrite Hd, Hrev, !map_to_list_empty. set_solver.
  - intros id b. by rewrite Hd, lookup_empty.
  - intros id b. by rewrite Hrev, lookup_empty.
Qed.

Lemma lessons_reachable_wf db : reachable initLessons lessonStep db -> lessonWf db.
Proof. apply reachable_invariant; [apply initLessons_wf|]. intros s s' Hs Hstep. by eapply lessonStep_keeps. Qed.

(** ** What students can open *)
Lemma orderBy_nil {A} (key : A -> list Z) l : orderBy key l = [] <-> l = [].
Proof.
  split; intros E.
  - destruct l as [|x l]; [done|]. assert (Hx : x ∈ orderBy key (x :: l)) by (apply orderBy_elem; left).
    rewrite E in Hx. by apply elem_of_nil in Hx.
  - subst l. destruct (orderBy key []) as [|x l] eqn:Ex; [done|].
    assert (Hx : x ∈ orderBy key []) by (rewrite Ex; left). by apply orderBy_elem, elem_of_nil in Hx.
Qed.

Lemma bestPreview_ready tie db version :
  is_Some (LessonAccess.bestPreview tie db version) <-> Bindings.previewReady db version = true.
Proof.
  unfold LessonAccess.bestPreview, Bindings.previewReady. rewrite existsb_exists. split.
  - intros [p Hp]. destruct (orderBy _ _) as [|[[v kind] q] rest] eqn:E; [done|].
    assert (Hin : ((v, kind), q) ∈ orderBy (fun '((_, kind), _) => [LessonAccess.previewRank kind; tie kind])
      (List.filter (fun '((w, _), _) => (w =? version)%N) (map_to_list (previews db)))) by (rewrite E; left).
    apply orderBy_elem, list_elem_of_In, filter_In in Hin as [Hin Hv]. by exists ((v, kind), q).
  - intros (x & Hin & Hx). destruct (orderBy _ _) as [|y rest] eqn:E; [|by eexists].
    exfalso. apply orderBy_nil in E. assert (Hf : In x (List.filter (fun '((w, _), _) => (w =? version)%N) (map_to_list (previews db)))).
    { apply filter_In. split; [done|]. by destruct x as [[w kind] q]. }
    by rewrite E in Hf.
Qed.

Lemma settled_bindable db version :
  settled db version <-> exists v, Bindings.bindable db version = Some v /\ v_state v = "ready"%string.
Proof.
  unfold Bindings.bindable. split.
  - intros (v & -> & [Hp Hr] & f & -> & Hd). exists v. rewrite Hp, Hd. by split.
  - intros (v & Hb & Hr). destruct (versions db !! version) as [w|] eqn:Ew; [|done].
    destruct (_ && _) eqn:Ec; [|done]. injection Hb as ->. apply andb_true_iff in Ec as [Hp%bool_decide_eq_true_1 Hf].
    destruct (files db !! v_file v) as [f|] eqn:Ef; [|done]. apply bool_decide_eq_true_1 in Hf.
    exists v. split_and!; [done|by split|by exists f].
Qed.

Lemma bindable_lookup db version v : Bindings.bindable db version = Some v -> versions db !! version = Some v.
Proof.
  unfold Bindings.bindable. destruct (versions db !! version) as [w|]; [|done]. destruct (_ && _); [|done]. done.
Qed.

(** What a binding hands out for each action. *)
Lemma delivery_Some tie db action revision b d :
  LessonAccess.delivery tie db action revision b = Some d ->
  settled db (b_version b) /\ Access.DVersion d = b_version b /\ Access.DRevision d = revision /\ Access.DPolicy d = b_policy b /\ Access.DName d = b_name b /\
  (action = ActionDownload -> b_policy b = PolicyDownload).
Proof.
  unfold LessonAccess.delivery. destruct (Bindings.bindable db (b_version b)) as [v|] eqn:Eb; [|done].
  destruct (_ && _ && _) eqn:Ec; [|done]. intros Hd. apply andb_true_iff in Ec as [Ec _]. apply andb_true_iff in Ec as [Hst Hact].
  apply bool_decide_eq_true_1 in Hst. split; [apply settled_bindable; by exists v|].
  assert (Hdown : action = ActionDownload -> b_policy b = PolicyDownload).
  { intros ->. cbn in Hact. by apply bool_decide_eq_true_1 in Hact. }
  destruct (LessonAccess.bestPreview _ _ _); [destruct (_ && _)|]; injection Hd as <-; done.
Qed.

Lemma delivery_preview tie db revision b :
  is_Some (LessonAccess.delivery tie db ActionPreview revision b) <->
  settled db (b_version b) /\ ((exists v, versions db !! b_version b = Some v /\ v_playable v = true) \/ Bindings.previewReady db (b_version b) = true).
Proof.
  rewrite settled_bindable, <- (bestPreview_ready tie). unfold LessonAccess.delivery. split.
  - intros [d Hd]. destruct (Bindings.bindable db (b_version b)) as [v|] eqn:Eb; [|done].
    destruct (_ && _ && _) eqn:Ec; [|done]. apply andb_true_iff in Ec as [Ec Hpl]. apply andb_true_iff in Ec as [Hst _].
    apply bool_decide_eq_true_1 in Hst. split; [by exists v|]. cbn in Hpl.
    destruct (v_playable v) eqn:Ev; [left|right; by apply bool_decide_eq_true_1 in Hpl].
    exists v. split; [by apply bindable_lookup|done].
  - intros [(v & Hb & Hst) Hor]. rewrite Hb, Hst.
    assert (Hor' : v_playable v || bool_decide (is_Some (LessonAccess.bestPreview tie db (b_version b))) = true).
    { apply orb_true_iff. destruct Hor as [(w & Hw & Hpl)|Hpr]; [left|right; by apply bool_decide_eq_true_2].
      apply bindable_lookup in Hb. congruence. }
    change (negb (LessonAccess.isAction ActionPreview ActionPreview)) with false. cbn [orb]. rewrite Hor'.
    rewrite bool_decide_eq_true_2 by done. cbn. repeat case_match; first [discriminate|by eexists].
Qed.

Lemma delivery_download tie db revision b :
  is_Some (LessonAccess.delivery tie db ActionDownload revision b) <-> settled db (b_version b) /\ b_policy b = PolicyDownload.
Proof.
  split.
  - intros [d Hd]. apply delivery_Some in Hd as (Hs & _ & _ & _ & _ & Hp). by split; [|apply Hp].
  - intros [Hs Hp]. apply settled_bindable in Hs as (v & Hb & Hst). unfold LessonAccess.delivery. rewrite Hb, Hst, Hp. cbn.
    repeat case_match; first [discriminate|by eexists].
Qed.

Lemma deliveries_elem tie db student version action d :
  d ∈ LessonAccess.deliveries tie db student version action <->
  exists lesson r row id b, authorizedRevision db student lesson = Some (r, row) /\
    revFiles (revisionT db) !! id = Some b /\ b_owner b = r /\ b_version b = version /\
    LessonAccess.delivery tie (base db) action r b = Some d.
Proof.
  unfold LessonAccess.deliveries. rewrite list_elem_of_bind. split.
  - intros ([lesson l] & Hd & Hl). unfold LessonAccess.lessonDeliveries in Hd.
    destruct (authorizedRevision db student lesson) as [[r row]|] eqn:Ea; [|by apply elem_of_nil in Hd].
    apply list_elem_of_omap in Hd as (b & Hb & Hd). apply list_elem_of_fmap in Hb as ([id c] & -> & Hc).
    apply list_elem_of_In, filter_In in Hc as [Hc Hx]. apply andb_true_iff in Hx as [Ho%N.eqb_eq Hv%N.eqb_eq].
    apply list_elem_of_In, elem_of_map_to_list in Hc. exists lesson, r, row, id, c. by split_and!.
  - intros (lesson & r & row & id & b & Ha & Hb & Ho & Hv & Hd).
    assert (Hl : exists l, lessons (catalog db) !! lesson = Some l).
    { unfold authorizedRevision in Ha. destruct (lessons (catalog db) !! lesson) as [l|]; [by exists l|done]. }
    destruct Hl as [l Hl]. exists (lesson, l). split; [|by apply elem_of_map_to_list].
    unfold LessonAccess.lessonDeliveries. rewrite Ha. apply list_elem_of_omap. exists b. split; [|done].
    apply list_elem_of_fmap. exists (id, b). split; [done|]. apply list_elem_of_In, filter_In.
    split; [by apply list_elem_of_In, elem_of_map_to_list|]. rewrite Ho, Hv, !N.eqb_refl. done.
Qed.

(** Without failures an access is resolved when, and only when, there is a delivery. *)
Lemma ResolveAccess_quiet pick tie student version action env n db :
  quiet env -> LessonAccess.deliveries tie db student version action <> [] ->
  exists d, LessonAccess.ResolveAccess_ pick tie student version action env (n, db) = ((S n, db), Ok d) /\
    d ∈ LessonAccess.deliveries tie db student version action.
Proof.
  intros Hq Hne. unfold LessonAccess.ResolveAccess_. rewrite call_run by apply Hq. rewrite dget_run.
  set (found := LessonAccess.deliveries tie db student version action) in *.
  destruct (lookup_lt_is_Some_2 found (pick mod length found)) as [d Hd].
  { apply Nat.mod_upper_bound. by destruct found. }
  rewrite Hd. exists d. split; [done|]. by eapply list_elem_of_lookup_2.
Qed.

(** C16. The files of published lessons stay servable.  In every state that the file
    stores, the teaching services, the bindings and the file center can reach, whatever
    fails and whatever commits are lost: each file version bound to a published
    revision is a ready teaching version of a file that is not deleted, with a preview
    if it is there to be previewed; so each student that the revision is visible to is
    let at each of its files, to preview it or to download it as its policy says, and
    what is handed out comes from a revision the student may see. *)
Theorem published_files_stay_servable db :
  reachable initLessons lessonStep db ->
  (forall id b, revFiles (revisionT db) !! id = Some b -> servable (base db) b) /\
  (forall student lesson r row id b, authorizedRevision db student lesson = Some (r, row) ->
     revFiles (revisionT db) !! id = Some b -> b_owner b = r ->
     forall action, (action = ActionPreview /\ b_policy b = PolicyPreview \/ action = ActionDownload /\ b_policy b = PolicyDownload) ->
     forall pick tie env n, quiet env ->
     exists d, LessonAccess.ResolveAccess_ pick tie student (b_version b) action env (n, db) = ((S n, db), Ok d) /\
       Access.DVersion d = b_version b /\
       exists lesson' row', authorizedRevision db student lesson' = Some (Access.DRevision d, row')).
Proof.
  intros Hreach. pose proof (lessons_reachable_wf db Hreach) as Hw. split; [apply (LessonProofs.l_published _ Hw)|].
  intros student lesson r row id b Ha Hb Ho action Hpol pick tie env n Hq.
  destruct (LessonProofs.l_published _ Hw id b Hb) as [Hset Hprev].
  assert (His : is_Some (LessonAccess.delivery tie (base db) action r b)).
  { destruct Hpol as [[-> Hp]|[-> Hp]].
    - apply delivery_preview. split; [done|]. right. by apply Hprev.
    - by apply delivery_download. }
  destruct His as [d0 Hd0].
  destruct (ResolveAccess_quiet pick tie student (b_version b) action env n db Hq) as (d & Hrun & Hd).
  { intros E. assert (Hin : d0 ∈ LessonAccess.deliveries tie db student (b_version b) action).
    { apply deliveries_elem. exists lesson, r, row, id, b. by split_and!. }
    rewrite E in Hin. by apply elem_of_nil in Hin. }
  exists d. split; [done|]. apply deliveries_elem in Hd as (l' & r' & row' & id' & b' & Ha' & _ & _ & Hv' & Hd').
  apply delivery_Some in Hd' as (_ & -> & Hr' & _). split; [done|]. exists l', row'. by rewrite Hr'.
Qed.

(** ** Published revisions never change *)
Definition revisionsKept (db0 db : LessonDB) : Prop :=
  forall r row, revisions (revisionT db0) !! r = Some row ->
    revisions (revisionT db) !! r = Some row /\
    finalized (revisionT db) !! r = finalized (revisionT db0) !! r /\
    revAudiences (revisionT db) !! r = revAudiences (revisionT db0) !! r /\
    (forall id b, b_owner b = r -> revFiles (revisionT db) !! id = Some b <-> revFiles (revisionT db0) !! id = Some b) /\
    (forall id v, revVideos (revisionT db) !! id = Some (r, v) <-> revVideos (revisionT db0) !! id = Some (r, v)).

Lemma revisionsKept_same db0 db : revisionT db = revisionT db0 -> revisionsKept db0 db.
Proof. intros E r row Hr. rewrite E. by split_and!. Qed.

Lemma revisionsKept_trans a b c : revisionsKept a b -> revisionsKept b c -> revisionsKept a c.
Proof.
  intros Hab Hbc r row Hr. destruct (Hab r row Hr) as (R & F & A & B & V). destruct (Hbc r row R) as (-> & -> & -> & B' & V').
  split_and!; [done..| |].
  - intros id x Hx. by rewrite B', B.
  - intros id v. by rewrite V', V.
Qed.

Lemma publication_kept i d db db' r : publication i d db db' r -> revisionsKept db db'.
Proof.
  intros Hpub rev row Hrow. destruct (pub_id _ _ _ _ _ Hpub) as (Hid & _ & _).
  assert (Hne : RevID r <> rev) by congruence.
  rewrite (pub_row _ _ _ _ _ Hpub), (pub_final _ _ _ _ _ Hpub), (pub_audience _ _ _ _ _ Hpub), !lookup_insert_ne by done.
  destruct (pub_files _ _ _ _ _ Hpub) as (Hsub & Hb & _). destruct (pub_videos _ _ _ _ _ Hpub) as (Hvsub & Hv & _).
  split_and!; [done..| |].
  - intros id b Ho. split; [|intros Hx; by eapply lookup_weaken]. intros Hx. destruct (Hb id b Hx) as [Hx'|(c & _ & ->)]; [done|].
    by destruct Hne.
  - intros id v. split; [|intros Hx; by eapply lookup_weaken]. intros Hx. destruct (Hv id _ Hx) as [Hx'|[Hx' _]]; [done|].
    by destruct Hne.
Qed.

Lemma frame_kept {E A} db0 (m : DB LessonDB E A) : (forall db1, keeps (sameBindings db1) m) -> keeps (revisionsKept db0) m.
Proof.
  intros Hm env n s st a Hs Hrun. destruct (Hm s env n s st a (sameBindings_refl s) Hrun) as (_ & _ & _ & E1).
  eapply revisionsKept_trans; [exact Hs|]. by apply revisionsKept_same.
Qed.

Lemma record_kept db0 e : keeps (revisionsKept db0) (Lesson.record e).
Proof. apply frame_kept. intros db1. apply record_keeps. Qed.

(** The operations on drafts do not look at revisions. *)
Lemma same_kept {E A} db0 (m : DB LessonDB E A) :
  (forall env n s st a, m env (n, s) = (st, Ok a) -> revisionT (snd st) = revisionT s) -> keeps (revisionsKept db0) m.
Proof. intros Hm env n s st a Hs Hrun. eapply revisionsKept_trans; [exact Hs|]. apply revisionsKept_same. by eapply Hm. Qed.

Lemma insertBindings_revisions lesson inputs env n db st out :
  Bindings.insertBindings lesson inputs env (n, db) = (st, Ok out) -> revisionT (snd st) = revisionT db.
Proof.
  revert env n db st out. induction inputs as [|i inputs IH]; intros env n db st out; cbn [Bindings.insertBindings]; intros Hrun; db_go; [done|].
  match goal with H : Bindings.insertBindings _ _ _ _ = _ |- _ => apply IH in H; cbn [snd] in * end.
  match goal with H : Bindings.insertBinding _ _ _ _ = Some _ |- _ =>
    unfold Bindings.insertBinding in H; destruct (_ || _); [done|]; injection H as <- end. done.
Qed.

Ltac revisions_inv :=
  repeat match goal with
  | H : Bindings.insertBindings _ _ _ _ = _ |- _ => apply insertBindings_revisions in H; cbn [snd] in H
  | H : Bindings.bumpLesson _ _ _ _ = _ |- _ => apply bumpLesson_bindings in H; destruct H as (_ & _ & _ & H); cbn [snd] in H
  | H : Audit.Write _ _ _ _ = _ |- _ => apply Write_bindings in H; destruct H as (_ & _ & _ & H); cbn [snd] in H
  | H : Bindings.checkVersions _ _ _ = _ |- _ => apply checkVersions_reads in H; cbn [snd] in H
  end; subst; cbn in *.

Lemma bindings_kept db0 actor lesson expected inputs :
  keeps (revisionsKept db0) (Bindings.replaceBindingsBody actor lesson expected inputs).
Proof.
  apply same_kept. intros env n s st a Hrun. unfold Bindings.replaceBindingsBody in Hrun. db_go. revisions_inv. congruence.
Qed.

Lemma replaceFile_kept db0 actor file uploaded until :
  keeps (revisionsKept db0) (Center.replaceFileBody actor file uploaded until).
Proof.
  apply same_kept. intros env n s st a Hrun. unfold Center.replaceFileBody, Center.rebindBody in Hrun. db_go. revisions_inv. congruence.
Qed.

Lemma rollback_kept db0 choice actor file lesson version :
  keeps (revisionsKept db0) (Center.rollbackBody choice actor file lesson version).
Proof.
  apply same_kept. intros env n s st a Hrun. unfold Center.rollbackBody in Hrun. db_go; revisions_inv; congruence.
Qed.

Lemma publish_kept db0 actor i :
  keeps (revisionsKept db0) (Lesson.publishBody lower Parse print Lesson.ReadinessChecker actor i).
Proof.
  intros env n s st r Hs Hrun.
  apply publish_run in Hrun as (d & row & l & st1 & n1 & db2 & _ & _ & _ & _ & _ & _ & _ & Hsnap & -> & (_ & _ & _ & E1) & _).
  apply PublishSnapshot_run, publication_kept in Hsnap. eapply revisionsKept_trans; [exact Hs|].
  eapply revisionsKept_trans; [exact Hsnap|]. by apply revisionsKept_same.
Qed.

Lemma lessonStep_kept db db' : lessonStep db db' -> revisionsKept db db'.
Proof.
  intros Hstep. assert (Hrefl : revisionsKept db db) by by apply revisionsKept_same. destruct Hstep; try by apply revisionsKept_same.
  - service (revisionsKept db) @frame_kept; [intros; apply CreateCatalog_frame|apply record_kept].
  - service (revisionsKept db) @frame_kept; [intros; apply RenameCatalog_frame|apply record_kept].
  - service (revisionsKept db) @frame_kept; [intros; apply updateNode_frame|apply record_kept].
  - service (revisionsKept db) @frame_kept; [intros; apply ArchiveCatalog_frame|apply record_kept].
  - service (revisionsKept db) @frame_kept; [intros; apply CreateLesson_frame|apply record_kept].
  - service (revisionsKept db) @frame_kept; [intros; apply SaveDraft_frame|apply record_kept].
  - apply exec_preserves; [|done]. apply authorized_preserves, preserves_guard, transact_preserves, publish_kept.
  - service (revisionsKept db) @frame_kept; [intros; apply Withdraw_frame|apply record_kept].
  - service (revisionsKept db) @frame_kept; [intros; apply ArchiveLesson_frame|apply record_kept].
  - apply exec_preserves; [|done]. apply authorized_preserves.
    apply preserves_bind_reads; [by intros ? ? ? ? ? [= <- <-]|]. intros now. apply preserves_guard, transact_preserves.
    apply (frame_kept db (progressBody _ _)). intros; apply progress_frame.
  - apply exec_preserves; [|done]. repeat apply preserves_guard. apply transact_preserves. apply bindings_kept.
  - apply exec_preserves; [|done]. apply transact_preserves, replaceFile_kept.
  - apply exec_preserves; [|done]. apply transact_preserves, rollback_kept.
Qed.

(** C18. A published revision never changes: over any sequence of operations of the file
    stores, the teaching services, the bindings and the file center, whatever fails,
    its row, its finalization, its audience, its files and its videos stay exactly as
    they were published; later publications only add revisions of their own. *)
Theorem revisions_are_immutable db db' :
  rtc lessonStep db db' -> revisionsKept db db'.
Proof.
  induction 1 as [db|db db1 db' Hstep _ IH]; [by apply revisionsKept_same|].
  eapply revisionsKept_trans; [by apply lessonStep_kept|exact IH].
Qed.






(** ** Progress *)

(** A row of progress and a later one. *)
Definition laterRow (p p' : ProgressRow) : Prop :=
  g_first p' = g_first p /\ (g_viewed p = true -> g_viewed p' = true) /\
  (p' = p \/ ns (g_observed p) < ns (g_observed p')).

Definition progressKept (db0 db : LessonDB) : Prop :=
  forall key p, progress db0 !! key = Some p -> exists p', progress db !! key = Some p' /\ laterRow p p'.

Lemma laterRow_refl p : laterRow p p.
Proof. split_and!; auto. Qed.

Lemma laterRow_trans a b c : laterRow a b -> laterRow b c -> laterRow a c.
Proof.
  intros (F & V & O) (F' & V' & O'). split_and!; [congruence|auto|].
  destruct O as [->|O], O' as [->|O']; [by left|by right|by right|right; lia].
Qed.

Lemma progressKept_same db0 db : progress db = progress db0 -> progressKept db0 db.
Proof. intros E key p Hp. exists p. rewrite E. split; [done|apply laterRow_refl]. Qed.

Lemma progressKept_trans a b c : progressKept a b -> progressKept b c -> progressKept a c.
Proof.
  intros Hab Hbc key p Hp. destruct (Hab key p Hp) as (q & Hq & L1). destruct (Hbc key q Hq) as (r & Hr & L2).
  exists r. split; [done|by eapply laterRow_trans].
Qed.

Lemma upsertProgress_later now i p : laterRow p (Teaching.upsertProgress now i (Some p)).
Proof.
  cbn. destruct (Before _ _) eqn:Eb; [|apply laterRow_refl]. apply Before_spec in Eb.
  split_and!; [done|cbn; by intros ->|by right].
Qed.

Lemma progressBody_kept db0 student i : keeps (progressKept db0) (progressBody student i).
Proof.
  intros env n s st res Hs Hrun. eapply progressKept_trans; [exact Hs|]. unfold progressBody, Teaching.raise in Hrun. db_go.
  subst. intros key p Hp. cbn. destruct (decide ((student, InRevision i) = key)) as [<-|Hne].
  - rewrite lookup_insert_eq, Hp. eexists. split; [done|apply upsertProgress_later].
  - rewrite lookup_insert_ne by done. exists p. split; [done|apply laterRow_refl].
Qed.

Lemma progress_frames {E A} db0 (m : DB LessonDB E A) : (forall db1, keeps (sameProgress db1) m) -> keeps (progressKept db0) m.
Proof.
  intros Hm env n s st a Hs Hrun. eapply progressKept_trans; [exact Hs|]. apply progressKept_same.
  by eapply (Hm s); [|exact Hrun].
Qed.

Lemma record_progressKept db0 e : keeps (progressKept db0) (Lesson.record e).
Proof. apply progress_frames. intros db1. apply record_progress. Qed.

Lemma publish_progress db0 actor i :
  keeps (sameProgress db0) (Lesson.publishBody lower Parse print Lesson.ReadinessChecker actor i).
Proof.
  intros env n s st r Hs Hrun.
  apply publish_run in Hrun as (d & row & l & st1 & n1 & db2 & _ & _ & _ & _ & _ & _ & _ & Hsnap & -> & _ & t & ->).
  apply PublishSnapshot_run in Hsnap as Hpub. destruct (pub_draft _ _ _ _ _ Hpub) as (_ & _ & Hp). unfold sameProgress in *.
  cbn. congruence.
Qed.

Lemma lessonStep_progress db db' : lessonStep db db' -> progressKept db db'.
Proof.
  intros Hstep. assert (Hrefl : progressKept db db) by by apply progressKept_same. destruct Hstep; try by apply progressKept_same.
  - service (progressKept db) @progress_frames; [intros; apply CreateCatalog_progress|apply record_progressKept].
  - service (progressKept db) @progress_frames; [intros; apply RenameCatalog_progress|apply record_progressKept].
  - service (progressKept db) @progress_frames; [intros; apply updateNode_progress|apply record_progressKept].
  - service (progressKept db) @progress_frames; [intros; apply ArchiveCatalog_progress|apply record_progressKept].
  - service (progressKept db) @progress_frames; [intros; apply CreateLesson_progress|apply record_progressKept].
  - service (progressKept db) @progress_frames; [intros; apply SaveDraft_progress|apply record_progressKept].
  - apply exec_preserves; [|done]. apply authorized_preserves, preserves_guard, transact_preserves, progress_frames.
    intros; apply publish_progress.
  - service (progressKept db) @progress_frames; [intros; apply Withdraw_progress|apply record_progressKept].
  - service (progressKept db) @progress_frames; [intros; apply ArchiveLesson_progress|apply record_progressKept].
  - apply exec_preserves; [|done]. apply authorized_preserves.
    apply preserves_bind_reads; [by intros ? ? ? ? ? [= <- <-]|]. intros now. apply preserves_guard, transact_preserves.
    apply (progressBody_kept db).
  - apply exec_preserves; [|done]. repeat apply preserves_guard. apply transact_preserves, progress_frames.
    intros; apply replaceBindings_progress.
  - apply exec_preserves; [|done]. apply transact_preserves, progress_frames. intros; apply replaceFile_progress.
  - apply exec_preserves; [|done]. apply transact_preserves, progress_frames. intros; apply rollback_progress.
Qed.

(** Progress only moves forward: over any sequence of operations, whatever fails,
    no student's progress on a revision is lost; a lesson that was viewed stays viewed,
    the first view keeps its time, and each change was observed later than what it
    replaces. *)
Theorem progress_moves_forward db db' : rtc lessonStep db db' -> progressKept db db'.
Proof.
  induction 1 as [db|db db1 db' Hstep _ IH]; [by apply progressKept_same|].
  eapply progressKept_trans; [by apply lessonStep_progress|exact IH].
Qed.

(** An observation from further ahead than a duration can tell is taken for a current
    one: the difference is the least duration, whose negation is itself. *)
Theorem far_future_is_accepted i now :
  ns (InObserved i) - ns now > 2 ^ 63 ->
  Lesson.validProgress i now =
    negb ((InRevision i =? NilUUID)%N || negb (ValidString (InAnchor i)) || (160 <? RuneCountInString (InAnchor i))
          || IsNaN (InScroll i) || IsInf (InScroll i) || flt (InScroll i) (of_Z 0) || flt (of_Z 1) (InScroll i)
          || IsZero (InObserved i)).
Proof.
  intros Hfar. unfold Lesson.validProgress.
  assert (Sub now (InObserved i) = minDuration) as ->.
  { unfold Sub, maxDuration, minDuration. repeat case_match; lia. }
  change (Lesson.absDuration minDuration <=? 10 * minute) with true. apply andb_true_r.
Qed.

(** And from then on no progress of the present changes the row. *)
Theorem far_future_freezes now now' i later :
  stored (ns (InObserved later)) <= stored (ns (InObserved i)) ->
  let row := Teaching.upsertProgress now i None in Teaching.upsertProgress now' later (Some row) = row.
Proof.
  intros Hle row. unfold row, Teaching.upsertProgress at 1. destruct (Before _ _) eqn:Eb; [|done].
  apply Before_spec in Eb. cbn in Eb. lia.
Qed.

End Theorems.
