(* ===== verification/LessonWitness.v ===== *)
(** * Lessons: a concrete run

    A file is uploaded and processed, a catalog and a lesson are made, the file is bound
    to the lesson, the lesson is published and a student reads it; the theorems at the
    states this goes through. *)

From S2P Require Import Prelude GoTime GoText GoStrings GoFloat Pg OpsModel Keyset AuditLog FilesModel FilesStore ProcessingStore FilesCleanup ProcessingProofs ProcessingTheorems ProcessingHistory FilesSettled UploadService LessonModel LessonFiles LessonStore Publication LessonService FileAccess LessonProofs LessonTheorems.
From stdpp Require Import base tactics list gmap strings relations.
From Stdlib Require Import ZArith Lia.
Import Files Lessons.

Open Scope Z_scope.

#[local] Existing Instance PgTruncate.
#[local] Existing Instance DecimalUUID.

Definition admin : Principal := MkPrincipal 5 RoleAdmin StatusActive "request" (Some [10; 0; 0; 1]).
Definition pupil : Principal := MkPrincipal 9 RoleStudent StatusActive "request" (Some [10; 0; 0; 2]).
Definition noFiles : FilesDB :=
  MkFilesDB ∅ ∅ ∅ ∅ ∅ ∅ ∅ [] (Audit.MkTable [] 1) {[5%N; 9%N]} ∅ ∅ ∅ (Some "normal").
Definition noLessons : LessonDB :=
  MkLessonDB noFiles (MkCatalog ∅ ∅ ∅ ∅ ∅) (MkDrafts ∅ ∅ ∅ ∅) (MkRevisions ∅ ∅ ∅ ∅ ∅)
    {[9%N := MkUserRow RoleStudent StatusActive None]} ∅ [] [].

Definition plainURL (s : string) : option Lesson.ParsedURL := None.
Definition printURL (scheme host : string) (u : Lesson.ParsedURL) : string := scheme.
Definition same (s : string) : string := s.

Definition at_ (t : Z) : Env := calm t (MkTime t None) (fun n => N.of_nat (Z.to_nat (t / minute) * 10 + n)).
Definition someHash : string := fromBytes (repeat 97 64).
Definition upload : UploadSession :=
  MkUploadSession 7 5 UploadPurposeTeaching "originals/a" "m" "notes.pdf" "application/pdf" 10 someHash UploadOpen
    (MkTime (2 * day) None) (MkTime 0 None).

Definition uploaded : FilesDB :=
  exec (FinishCompletion upload admin) (at_ hour) (exec (BeginCompletion 7 5 UploadPurposeTeaching (MkTime hour None)) (at_ hour)
    (exec (CreateSession upload) (at_ minute) noFiles)).
Definition leased : FilesDB :=
  exec (Processing.LeaseNext Locked (fun _ => false) "worker" (MkTime (2 * hour) None) minute) (at_ (2 * hour)) uploaded.
Definition ready : FilesDB :=
  exec (Processing.Complete (Processing.MkJob 607 605 "process_file" "running" 1 "worker" (MkTime (2 * hour + minute) None))
     (Processing.MkResult "application/pdf" "clean" true "" "" None None None
        (Some (Processing.MkPreview "pdf" "previews/a" "application/pdf" 10 someHash)) None)) (at_ (2 * hour)) leased.


(** A grade, a term, a subject and a chapter, one under the other. *)
Definition node (kind : CatalogKind) (parent : UUID) (t : Z) (db : LessonDB) : LessonDB :=
  exec (Lesson.CreateCatalog same admin (MkCatalogCreate kind parent "One" "" 1)) (at_ t) db.

Definition shelved : LessonDB :=
  node CatalogChapter 3002 (6 * hour) (node CatalogSubject 2402 (5 * hour)
    (node CatalogTerm 1802 (4 * hour) (node CatalogGrade NilUUID (3 * hour) (setBase ready noLessons)))).

Definition lesson : LessonDB := exec (Lesson.CreateLesson admin (MkCreateLesson 3602 "Fractions" 5)) (at_ (7 * hour)) shelved.
Definition bound_ : LessonDB :=
  exec (Bindings.Replace admin 4202 1 [Bindings.MkBinding 605 PolicyPreview "notes.pdf" "" 0]) (at_ (8 * hour)) lesson.

Definition publish (db : LessonDB) : (nat * LessonDB) * result Error Revision :=
  Lesson.Publish same plainURL printURL Lesson.ReadinessChecker admin (MkPublish 4202 2 5) (at_ (9 * hour)) (0%nat, db).
Definition published : LessonDB := snd (fst (publish bound_)).

Definition seen (observed : Z) : ProgressInput := MkProgressInput 5413 true "part-1" (of_Z 1) (MkTime observed None).
Definition read_ : LessonDB := exec (Lesson.UpdateProgress pupil (seen (10 * hour))) (at_ (10 * hour)) published.

Notation step := (lessonStep same same plainURL printURL).

Lemma bound_reachable : reachable initLessons step bound_.
Proof.
  assert (Hstart : reachable initLessons step (setBase ready noLessons)).
  { assert (Hfiles : forall b b', reachable initLessons step (setBase b noLessons) -> storeStep b b' ->
      reachable initLessons step (setBase b' noLessons)).
    { intros b b' Hb Hs. exact (reach_step _ _ _ _ Hb (StepFiles _ _ _ _ (setBase b noLessons) b' Hs)). }
    eapply Hfiles; [|apply StepComplete]. eapply Hfiles; [|apply StepLease]. eapply Hfiles; [|apply StepFinish].
    eapply Hfiles; [|apply StepBegin]. eapply Hfiles; [|apply StepCreate]. by apply reach_init. }
  eapply reach_step; [|apply StepBindings]. eapply reach_step; [|apply StepCreateLesson].
  eapply reach_step; [|apply StepCreateCatalog]. eapply reach_step; [|apply StepCreateCatalog].
  eapply reach_step; [|apply StepCreateCatalog]. eapply reach_step; [|apply StepCreateCatalog]. exact Hstart.
Qed.

Lemma published_reachable : reachable initLessons step published.
Proof.
  eapply reach_step; [exact bound_reachable|].
  exact (StepPublish same same plainURL printURL bound_ (at_ (9 * hour)) admin (MkPublish 4202 2 5)).
Qed.

Definition noTie (kind : string) : Z := 0.

(** The student is let at the file of the published lesson. *)
Lemma published_files_stay_servable_witness :
  exists d st, LessonAccess.ResolveAccess_ 0 noTie 9 605 ActionPreview (at_ (10 * hour)) (0%nat, published) = (st, Ok d) /\
    Access.DVersion d = 605%N.
Proof.
  destruct (published_files_stay_servable same same plainURL printURL published published_reachable) as [_ Hserve].
  destruct (authorizedRevision published 9 4202) as [[r row]|] eqn:Ea; [|vm_compute in Ea; discriminate].
  assert (Hr : fst <$> authorizedRevision published 9 4202 = Some 5413%N) by (vm_compute; reflexivity).
  rewrite Ea in Hr. injection Hr as ->.
  assert (Eb : revFiles (revisionT published) !! 5416%N = Some (MkBindingRow 5413 605 PolicyPreview 0 "notes.pdf" ""))
    by (vm_compute; reflexivity).
  destruct (Hserve 9%N 4202%N 5413%N row 5416%N _ Ea Eb eq_refl ActionPreview (or_introl (conj eq_refl eq_refl)) 0%nat noTie
    (at_ (10 * hour)) 0%nat) as (d & Hrun & Hv & _); [intros k; reflexivity|].
  exists d, (1%nat, published). split; [exact Hrun|exact Hv].
Defined.

(** The revision is as it was after the student has read it. *)
Lemma revisions_are_immutable_witness :
  revisions (revisionT published) !! 5413%N <> None /\
  revisions (revisionT read_) !! 5413%N = revisions (revisionT published) !! 5413%N.
Proof.
  destruct (revisions (revisionT published) !! 5413%N) as [row|] eqn:Er; [|vm_compute in Er; discriminate].
  split; [discriminate|]. destruct (revisions_are_immutable same same plainURL printURL published read_) with (r := 5413%N) (row := row) as [E _].
  - apply rtc_once. apply StepProgress.
  - exact Er.
  - exact E.
Defined.


Lemma progress_moves_forward_witness :
  exists p p', progress read_ !! (9%N, 5413%N) = Some p /\
    progress (exec (Lesson.UpdateProgress pupil (seen (11 * hour))) (at_ (11 * hour)) read_) !! (9%N, 5413%N) = Some p' /\
    g_first p' = g_first p.
Proof.
  destruct (progress read_ !! (9%N, 5413%N)) as [p|] eqn:Ep; [|vm_compute in Ep; discriminate].
  destruct (progress_moves_forward same same plainURL printURL read_
    (exec (Lesson.UpdateProgress pupil (seen (11 * hour))) (at_ (11 * hour)) read_)) with (key := (9%N, 5413%N)) (p := p)
    as (p' & Hp' & Hfirst & _).
  - apply rtc_once. apply StepProgress.
  - exact Ep.
  - exists p, p'. split_and!; [reflexivity|exact Hp'|exact Hfirst].
Defined.

(** A clock four centuries ahead: the observation is accepted, and the next, of the
    present, changes nothing. *)
Definition ahead : Z := 400 * 365 * day.
Definition frozen : LessonDB := exec (Lesson.UpdateProgress pupil (seen ahead)) (at_ (10 * hour)) published.

Example a_clock_ahead_stops_progress :
  value (Lesson.UpdateProgress pupil (seen ahead)) (at_ (10 * hour)) published = Ok tt /\
  value (Lesson.UpdateProgress pupil (seen (11 * hour))) (at_ (11 * hour)) frozen = Ok tt /\
  progress (exec (Lesson.UpdateProgress pupil (seen (11 * hour))) (at_ (11 * hour)) frozen) = progress frozen.
Proof. vm_compute. split_and!; reflexivity. Qed.
