(* ===== verification/QuestionModel.v ===== *)
(** * Questions and answers: data, tables and rules

    Models [internal/qanda/model.go], the data of [internal/notifications/model.go] and
    the tables of migrations 00009 to 00014, beside the tables of lessons and files.  A
    student's question is a thread of messages; the kinds and roles of messages, the
    statuses of threads and who may move them are [NextStatus].  Column defaults that
    nothing reads are left out. *)

From S2P Require Import Prelude GoTime GoText GoStrings Pg OpsModel AuditLog FilesModel FilesStore LessonModel.
From stdpp Require Import base tactics list gmap strings.
From Stdlib Require Import ZArith Lia.

Open Scope Z_scope.

Module Questions.
Import Lessons.

(** ** Data *)
Inductive NotifyError := NotifyInvalid | NotifyNotFound | NotifyDatabase.

(** The errors of [model.go]; what the audit writer, the notification writer and the
    driver report. *)
Inductive Error :=
| ErrForbidden | ErrInvalidInput | ErrNotFound | ErrInvalidStatusTransition | ErrIdempotencyConflict
| ErrThreadConflict | ErrAttachmentNotReady | ErrAttachmentLimit
| ErrAudit (e : Audit.Error) | ErrNotify (e : NotifyError) | ErrDatabase.

Global Instance NotifyError_eq_dec : EqDecision NotifyError.
Proof. solve_decision. Defined.

(** A [Status] is any text; the empty one is the status of a thread to be created and,
    in a filter, no restriction. *)
Inductive Status :=
| StatusEmpty | StatusPending | StatusInProgress | StatusWaitingStudent | StatusCompleted | StatusOther (text : string).

Inductive MessageKind := MessageKindInitial | MessageKindStudentFollowUp | MessageKindAdminReply.

Inductive Action := ActionCreate | ActionClaim | ActionAdminReply | ActionStudentFollowUp | ActionComplete | ActionReopen.

Global Instance Status_eq_dec : EqDecision Status.
Proof. solve_decision. Defined.
Global Instance MessageKind_eq_dec : EqDecision MessageKind.
Proof. solve_decision. Defined.
Global Instance Action_eq_dec : EqDecision Action.
Proof. solve_decision. Defined.

Definition statusText (s : Status) : string :=
  match s with
  | StatusEmpty => "" | StatusPending => "pending" | StatusInProgress => "in_progress"
  | StatusWaitingStudent => "waiting_student" | StatusCompleted => "completed" | StatusOther t => t
  end.

Definition oneStatus (l : list Status) (s : Status) : bool := bool_decide (s ∈ l).

Definition NextStatus (current : Status) (action : Action) (actor : Role) : result Error Status :=
  match actor, action with
  | RoleStudent, ActionCreate =>
      if oneStatus [StatusEmpty] current then Ok StatusPending else Err ErrInvalidStatusTransition
  | RoleAdmin, ActionClaim =>
      if oneStatus [StatusPending] current then Ok StatusInProgress else Err ErrInvalidStatusTransition
  | RoleAdmin, ActionAdminReply =>
      if oneStatus [StatusPending; StatusInProgress; StatusWaitingStudent] current then Ok StatusWaitingStudent
      else Err ErrInvalidStatusTransition
  | RoleStudent, ActionStudentFollowUp =>
      if oneStatus [StatusWaitingStudent; StatusInProgress; StatusCompleted] current then Ok StatusPending
      else Err ErrInvalidStatusTransition
  | RoleAdmin, ActionComplete =>
      if oneStatus [StatusPending; StatusInProgress; StatusWaitingStudent] current then Ok StatusCompleted
      else Err ErrInvalidStatusTransition
  | RoleAdmin, ActionReopen =>
      if oneStatus [StatusCompleted] current then Ok StatusInProgress else Err ErrInvalidStatusTransition
  | _, _ => Err ErrInvalidStatusTransition
  end.

Record AttachmentInput := MkAttachmentInput { InVersion : UUID; InPosition : Z }.
Record CreateThreadInput := MkCreateThread {
  NewTitle : string; NewBody : string; NewKey : string; NewAttachments : list AttachmentInput
}.
(** [AddMessageInput] and [AddAdminMessageInput]. *)
Record AddMessageInput := MkAddMessage {
  AddThread : UUID; AddExpected : Z; AddBody : string; AddKey : string; AddAttachments : list AttachmentInput
}.
Record ChangeStatusInput := MkChangeStatus { ChangeThread : UUID; ChangeExpected : Z; ChangeTo : Status }.
Record AddTeacherNoteInput := MkAddNote { NoteOf : UUID; NoteText : string }.
Record AdminThreadFilter := MkThreadFilter { FilterStatus : Status; FilterStudent : UUID; FilterFrom : Time; FilterTo : Time }.
(** [ThreadCursor] and [MessageCursor]: a time, an identifier and a limit. *)
Record Cursor := MkCursor { CursorTime : Time; CursorID : UUID; CursorLimit : Z }.
Definition noCursor : Cursor := MkCursor zeroTime NilUUID 0.

Record Thread := MkThread {
  ThreadID : UUID; StudentID : UUID; Title : string; ThreadStatus : Status; Version : Z;
  LastMessageAt : Time; CreatedAt : Time; UpdatedAt : Time; CompletedAt : option Time
}.
Record Attachment := MkAttachment {
  AttVersion : UUID; AttPosition : Z; AttName : string; PreviewAvailable : bool
}.
Record Message := MkMessage {
  MessageID : UUID; MessageThread : UUID; SenderUserID : UUID; SenderRole : Role; Kind : MessageKind;
  Body : string; MessageCreatedAt : Time; Attachments : list Attachment
}.
Record TeacherNote := MkNote {
  NoteID : UUID; NoteThread : UUID; AuthorUserID : UUID; NoteBody : string; NoteCreatedAt : Time
}.
Record ThreadDetail := MkThreadDetail { DetailThread : Thread; DetailMessages : list Message; DetailNext : Cursor }.
Record AdminThreadDetail := MkAdminThreadDetail {
  AdminThread : Thread; AdminMessages : list Message; AdminNotes : list TeacherNote; AdminNext : Cursor
}.
Record NotificationIntent := MkIntent {
  Recipient : UUID; IntentKind : string; IntentTitle : string; IntentSummary : string;
  TargetType : string; TargetPath : string; DedupeKey : string; TargetID : UUID
}.

(** ** Rules for inputs *)
Definition validText (value : string) (minRunes maxRunes : Z) : bool :=
  ValidString value && (minRunes <=? RuneCountInString value) && (RuneCountInString value <=? maxRunes).

Definition validIdempotencyKey (key : string) : bool :=
  ValidString key && bool_decide (TrimSpace key = key)
  && (16 <=? RuneCountInString key) && (RuneCountInString key <=? 128).

(** The loop with the versions and the positions seen so far. *)
Fixpoint freshAttachments (files_ : list UUID) (positions : list Z) (attachments : list AttachmentInput) : bool :=
  match attachments with
  | [] => true
  | a :: rest =>
      negb ((InVersion a =? NilUUID)%N || (InPosition a <? 0) || (19 <? InPosition a))
      && negb (bool_decide (InVersion a ∈ files_)) && negb (bool_decide (InPosition a ∈ positions))
      && freshAttachments (InVersion a :: files_) (InPosition a :: positions) rest
  end.

Definition validAttachments (attachments : list AttachmentInput) : bool :=
  (length attachments <=? 20)%nat && freshAttachments [] [] attachments.

Definition normalizeCreateInput (i : CreateThreadInput) : result Error CreateThreadInput :=
  (let i := MkCreateThread (TrimSpace (NewTitle i)) (TrimSpace (NewBody i)) (NewKey i) (NewAttachments i) in
   reject negb (validText (NewTitle i) 1 160) || negb (validText (NewBody i) 1 20000)
       || negb (validIdempotencyKey (NewKey i)) || negb (validAttachments (NewAttachments i)) with ErrInvalidInput;
   Ok i)%go.

(** [normalizeAddMessageInput] and [normalizeAddAdminMessageInput] do the same. *)
Definition normalizeAddMessageInput (i : AddMessageInput) : result Error AddMessageInput :=
  (let i := MkAddMessage (AddThread i) (AddExpected i) (TrimSpace (AddBody i)) (AddKey i) (AddAttachments i) in
   reject (AddThread i =? NilUUID)%N || (AddExpected i <? 1) || negb (validText (AddBody i) 1 20000)
       || negb (validIdempotencyKey (AddKey i)) || negb (validAttachments (AddAttachments i)) with ErrInvalidInput;
   Ok i)%go.

Definition normalizeTeacherNoteInput (i : AddTeacherNoteInput) : result Error AddTeacherNoteInput :=
  (let i := MkAddNote (NoteOf i) (TrimSpace (NoteText i)) in
   reject (NoteOf i =? NilUUID)%N || negb (validText (NoteText i) 1 20000) with ErrInvalidInput;
   Ok i)%go.

(** ** Tables *)
Record ThreadRow := MkThreadRow {
  t_student : UUID; t_title : string; t_status : Status; t_version : Z;
  t_last : Time; t_created : Time; t_updated : Time; t_completed : option Time
}.
Record MessageRow := MkMessageRow {
  m_thread : UUID; m_sender : UUID; m_role : Role; m_kind : MessageKind; m_body : string; m_key : string; m_created : Time
}.
(** A row of [qa_message_files], keyed by message and file version. *)
Record LinkRow := MkLinkRow { k_position : Z; k_name : string }.
Record NoteRow := MkNoteRow { o_thread : UUID; o_author : UUID; o_body : string; o_created : Time }.
Record NotificationRow := MkNotificationRow {
  i_recipient : UUID; i_kind : string; i_title : string; i_summary : string; i_targetType : string;
  i_target : UUID; i_path : string; i_dedupe : string; i_read : option Time; i_created : Time
}.

Record QADB := MkQADB {
  lessonDB : LessonDB;
  threads : gmap N ThreadRow;
  messages : gmap N MessageRow;
  links : gmap (N * N) LinkRow;
  notes : gmap N NoteRow;
  inbox : gmap N NotificationRow
}.

Definition setLesson l db := MkQADB l (threads db) (messages db) (links db) (notes db) (inbox db).
Definition setThreads m db := MkQADB (lessonDB db) m (messages db) (links db) (notes db) (inbox db).
Definition setMessages m db := MkQADB (lessonDB db) (threads db) m (links db) (notes db) (inbox db).
Definition setLinks m db := MkQADB (lessonDB db) (threads db) (messages db) m (notes db) (inbox db).
Definition setNotes m db := MkQADB (lessonDB db) (threads db) (messages db) (links db) m (inbox db).
Definition setInbox m db := MkQADB (lessonDB db) (threads db) (messages db) (links db) (notes db) m.

#[export] Instance QADB_audit : Audit.HasAudit QADB :=
  {| Audit.auditOf db := Audit.auditOf (lessonDB db); Audit.setAudit t db := setLesson (Audit.setAudit t (lessonDB db)) db |}.

Definition fileDB (db : QADB) : FilesDB := base (lessonDB db).

(** The versions that messages refer to, as the file tables see them. *)
Definition linkedVersions (db : QADB) : gset N := list_to_set (snd ∘ fst <$> map_to_list (links db)).

Definition setQARefs (refs : gset N) (db : FilesDB) : FilesDB :=
  MkFilesDB (files db) (versions db) (previews db) (sessions db) (parts db) (jobs db)
    (artifacts db) (outbox db) (filesAudit db) (users db) (lessonRefs db) refs (aiRefs db) (mode db).

Definition linked (db : QADB) : QADB :=
  setLesson (setBase (setQARefs (linkedVersions db) (fileDB db)) (lessonDB db)) db.

(** An operation on the tables of lessons. *)
Definition onLessons {E A} (m : DB LessonDB E A) : DB QADB E A :=
  fun env '(n, db) => let '((n', l), r) := m env (n, lessonDB db) in ((n', setLesson l db), r).

(** ** Constraints *)

(** What the server reports, and [mapPostgresError]. *)
Inductive Failure := NoRows | FileTaken | UniqueViolation | ForeignKeyViolation | CheckViolation | OtherFailure.

Definition mapPostgresError (f : Failure) : Error :=
  match f with
  | NoRows => ErrNotFound
  | FileTaken => ErrInvalidInput
  | UniqueViolation => ErrIdempotencyConflict
  | ForeignKeyViolation | CheckViolation => ErrInvalidInput
  | OtherFailure => ErrDatabase
  end.

Definition raise {A} (b : bool) (f : Failure) (k : DB QADB Error A) : DB QADB Error A :=
  if b then dfail (mapPostgresError f) else k.

(** A text column takes no zero byte. *)
Definition storable (s : string) : bool := negb (existsb (Z.eqb 0) (bytes s)).

Definition knownUser (db : QADB) (id : UUID) : bool := bool_decide (is_Some (people (lessonDB db) !! id)).
Definition activeStudent (db : QADB) (id : UUID) : bool := activeUser RoleStudent (lessonDB db) id.
Definition activeAdmin (db : QADB) (id : UUID) : bool := activeUser RoleAdmin (lessonDB db) id.

(** [users u ... AND u.role='student' AND u.deleted_at IS NULL], whatever the status. *)
Definition presentStudent (db : QADB) (id : UUID) : bool :=
  match people (lessonDB db) !! id with
  | Some u => bool_decide (u_role u = RoleStudent) && open_ (u_deleted u)
  | None => false
  end.

End Questions.
