(* ===== verification/Notifications.v ===== *)
(** * Notifications

    Models [internal/notifications/postgres_store.go] and [service.go]: the writer that
    other components call inside their transactions, and the inbox of a user. *)

From S2P Require Import Prelude GoTime GoText GoStrings GoStrconv Pg OpsModel Keyset AuditLog FilesModel FilesStore LessonModel QuestionModel.
From stdpp Require Import base tactics list gmap strings.
From Stdlib Require Import ZArith Lia.

Open Scope Z_scope.

Module Notifications.
Import Lessons Questions.

Definition ErrInvalidInput := NotifyInvalid.
Definition ErrNotFound := NotifyNotFound.

Definition safeTemplates : list (string * (string * string)) := [
  ("qa_created", ("New student question", "A student created a question."));
  ("qa_replied", ("Teacher reply", "Your teacher replied to a question."));
  ("qa_followed_up", ("Student follow-up", "A student followed up on a question."));
  ("qa_status_changed", ("Question status changed", "Your question status changed."));
  ("lesson_published", ("New lesson", "A new lesson is available."))]%string.

(** [strings.CutPrefix]: what [HasPrefix] and [TrimPrefix] say together. *)
Fixpoint cutPrefix (prefix s : string) : option string :=
  match prefix, s with
  | EmptyString, _ => Some s
  | String p prefix', String c s' => if Ascii.eqb p c then cutPrefix prefix' s' else None
  | String _ _, EmptyString => None
  end.
Definition TrimPrefix (s prefix : string) : string := match cutPrefix prefix s with Some rest => rest | None => s end.
Definition HasPrefix (s prefix : string) : bool := bool_decide (is_Some (cutPrefix prefix s)).

Section Writer.
Context `{PgTime} `{UUIDText}.

(** The key of an event about an identifier. *)
Definition dedupeID (prefix : string) (i : NotificationIntent) : bool :=
  let raw := TrimPrefix (DedupeKey i) prefix in
  match uuidParse raw with
  | Some id => HasPrefix (DedupeKey i) prefix && negb (id =? NilUUID)%N && bool_decide (raw = uuidString id)
  | None => false
  end.

(** The key of a change of status is about the thread and its version. *)
Definition dedupeVersion (i : NotificationIntent) : bool :=
  let prefix := ("qa-status:" ++ uuidString (TargetID i) ++ ":")%string in
  match ParseInt (TrimPrefix (DedupeKey i) prefix) with
  | Some version =>
      HasPrefix (DedupeKey i) prefix && (0 <? version) && bool_decide (DedupeKey i = prefix ++ FormatInt version)%string
  | None => false
  end.

Definition validDedupe (i : NotificationIntent) : bool :=
  if bool_decide (IntentKind i = "qa_created"%string) then dedupeID "qa-created:" i
  else if bool_decide (IntentKind i = "qa_replied"%string) then dedupeID "qa-replied:" i
  else if bool_decide (IntentKind i = "qa_followed_up"%string) then dedupeID "qa-followed-up:" i
  else if bool_decide (IntentKind i = "lesson_published"%string) then dedupeID "lesson-published:" i
  else if bool_decide (IntentKind i = "qa_status_changed"%string) then dedupeVersion i
  else false.

Definition targetAt (type path : string) (i : NotificationIntent) : bool :=
  bool_decide (TargetType i = type) && HasPrefix (TargetPath i) path
  && bool_decide (TrimPrefix (TargetPath i) path = uuidString (TargetID i)).

Definition validTarget (i : NotificationIntent) : bool :=
  if member ["qa_created"; "qa_followed_up"]%string (IntentKind i) then targetAt "qa_thread" "/admin/questions/" i
  else if member ["qa_replied"; "qa_status_changed"]%string (IntentKind i) then targetAt "qa_thread" "/student/questions/" i
  else if bool_decide (IntentKind i = "lesson_published"%string) then targetAt "lesson" "/student/learning/" i
  else false.

Definition validIntent (i : NotificationIntent) : bool :=
  match Audit.assoc safeTemplates (IntentKind i) with
  | None => false
  | Some (title, summary) =>
      negb (Recipient i =? NilUUID)%N && negb (TargetID i =? NilUUID)%N
      && bool_decide (IntentTitle i = title) && bool_decide (IntentSummary i = summary)
      && (16 <=? len (DedupeKey i)) && (len (DedupeKey i) <=? 200) && validTarget i && validDedupe i
  end.

(** ** The table *)
Definition notificationCheck (r : NotificationRow) : bool :=
  member ["qa_created"; "qa_replied"; "qa_followed_up"; "qa_status_changed"; "lesson_published"]%string (i_kind r)
  && charLength 1 160 (i_title r) && charLength 1 240 (i_summary r) && member ["qa_thread"; "lesson"]%string (i_targetType r)
  && HasPrefix (i_path r) "/" && charLength 16 200 (i_dedupe r).

Definition delivered (db : QADB) (recipient : UUID) (key : string) : bool :=
  existsb (fun '(_, r) => (i_recipient r =? recipient)%N && bool_decide (i_dedupe r = key)) (map_to_list (inbox db)).

Definition intentRow (i : NotificationIntent) (now : Time) : NotificationRow :=
  MkNotificationRow (Recipient i) (IntentKind i) (IntentTitle i) (IntentSummary i) (TargetType i) (TargetID i)
    (TargetPath i) (DedupeKey i) None now.

(** [Notify] runs in the caller's transaction; a key that the recipient has already is
    skipped. *)
Definition Notify (i : NotificationIntent) : DB QADB NotifyError unit :=
  (fail if negb (validIntent i) with NotifyInvalid;
   do id <- newUUID;
   do now <- databaseNow NotifyDatabase;
   do db <- dget;
   let row := intentRow i now in
   fail if negb (notificationCheck row) with NotifyDatabase;
   if delivered db (Recipient i) (DedupeKey i) then dret tt
   else
     fail if bool_decide (is_Some (inbox db !! id)) || negb (knownUser db (Recipient i)) with NotifyDatabase;
     dput (setInbox (<[id := row]> (inbox db)) db))%db.

(** ** The inbox *)
Record Notification := MkNotification {
  NotificationID : UUID; NotificationKind : string; NotificationTitle : string; NotificationSummary : string;
  NotificationTargetType : string; NotificationTarget : UUID; NotificationPath : string; ReadAt : option Time;
  NotificationCreatedAt : Time
}.

Definition scanNotification (id : UUID) (r : NotificationRow) : Notification :=
  MkNotification id (i_kind r) (i_title r) (i_summary r) (i_targetType r) (i_target r) (i_path r)
    (UTC <$> i_read r) (UTC (i_created r)).

(** [time.Date(9999, 12, 31, 23, 59, 59, 999999000, time.UTC)] and the last identifier. *)
Definition lastTime : Time := MkTime (daysTo10000 * day - microsecond) None.
Definition lastID : UUID := (2 ^ 128 - 1)%N.

Definition newest (c : Cursor) : Z * Z :=
  if IsZero (CursorTime c) then (ns lastTime, Z.of_N lastID) else (ns (CursorTime c), Z.of_N (CursorID c)).

(** [WHERE key < cursor ORDER BY key DESC LIMIT limit]. *)
Definition newestPage {A} (key : A -> Z * Z) (c : Cursor) (rows : list A) : list A :=
  take (Z.to_nat (CursorLimit c)) (List.filter (fun a => pairLt (key a) (newest c)) (orderDesc key rows)).

(** The cursor after a full page. *)
Definition nextCursor {A} (at_ : A -> Time) (id : A -> UUID) (limit : Z) (items : list A) : Cursor :=
  if Z.of_nat (length items) =? limit then
    match last items with Some a => MkCursor (at_ a) (id a) limit | None => noCursor end
  else noCursor.

Definition List_ (recipient : UUID) (c : Cursor) : DB QADB NotifyError (list Notification * Cursor) :=
  (call NotifyDatabase;
   do db <- dget;
   let mine := List.filter (fun '(_, r) => (i_recipient r =? recipient)%N) (map_to_list (inbox db)) in
   let items := (fun '(id, r) => scanNotification id r)
     <$> newestPage (fun '(id, r) => (ns (i_created r), Z.of_N id)) c mine in
   dret (items, nextCursor NotificationCreatedAt NotificationID (CursorLimit c) items))%db.

Definition UnreadCount_ (recipient : UUID) : DB QADB NotifyError Z :=
  (call NotifyDatabase;
   do db <- dget;
   dret (Z.of_nat (length (List.filter (fun '(_, r) => (i_recipient r =? recipient)%N && open_ (i_read r))
     (map_to_list (inbox db))))))%db.

Definition readRow (at_ : Time) (r : NotificationRow) : NotificationRow :=
  MkNotificationRow (i_recipient r) (i_kind r) (i_title r) (i_summary r) (i_targetType r) (i_target r) (i_path r)
    (i_dedupe r) (Some at_) (i_created r).

Definition unreadOf (recipient : UUID) (r : NotificationRow) : bool := (i_recipient r =? recipient)%N && open_ (i_read r).

Definition markReadBody (recipient id : UUID) : DB QADB NotifyError bool :=
  (do now <- databaseNow NotifyDatabase;
   do db <- dget;
   match inbox db !! id with
   | Some r =>
       if unreadOf recipient r then
         do _ <- dput (setInbox (<[id := readRow now r]> (inbox db)) db);
         dret true
       else dret false
   | None => dret false
   end)%db.

Definition MarkRead_ (recipient id : UUID) : DB QADB NotifyError unit :=
  (do changed <- transact NotifyDatabase NotifyDatabase (markReadBody recipient id);
   if changed : bool then dret tt
   else
     call NotifyDatabase;
     do db <- dget;
     match inbox db !! id with
     | Some r => if (i_recipient r =? recipient)%N then dret tt else dfail NotifyNotFound
     | None => dfail NotifyNotFound
     end)%db.

Definition markAllBody (recipient : UUID) : DB QADB NotifyError Z :=
  (do cutoff <- databaseNow NotifyDatabase;
   call NotifyDatabase;
   do db <- dget;
   let due r := unreadOf recipient r && negb (After (i_created r) cutoff) in
   do _ <- dput (setInbox ((fun r => if due r then readRow cutoff r else r) <$> inbox db) db);
   dret (Z.of_nat (length (List.filter (fun '(_, r) => due r) (map_to_list (inbox db))))))%db.

Definition MarkAllRead_ (recipient : UUID) : DB QADB NotifyError Z :=
  transact NotifyDatabase NotifyDatabase (markAllBody recipient).

(** ** The service *)
Definition List (recipient : UUID) (c : Cursor) : DB QADB NotifyError (list Notification * Cursor) :=
  (fail if (recipient =? NilUUID)%N || (CursorLimit c <? 1) || (100 <? CursorLimit c)
      || negb (Bool.eqb (CursorID c =? NilUUID)%N (IsZero (CursorTime c))) with NotifyInvalid;
   List_ recipient c)%db.
Definition UnreadCount (recipient : UUID) : DB QADB NotifyError Z :=
  (fail if (recipient =? NilUUID)%N with NotifyInvalid; UnreadCount_ recipient)%db.
Definition MarkRead (recipient id : UUID) : DB QADB NotifyError unit :=
  (fail if (recipient =? NilUUID)%N || (id =? NilUUID)%N with NotifyInvalid; MarkRead_ recipient id)%db.
Definition MarkAllRead (recipient : UUID) : DB QADB NotifyError Z :=
  (fail if (recipient =? NilUUID)%N with NotifyInvalid; MarkAllRead_ recipient)%db.

End Writer.

End Notifications.
