(* ===== verification/QuestionStore.v ===== *)
(** * The store of questions and answers

    Models [internal/qanda/postgres_store.go]: the operations a service call runs in its
    transaction, attachments, and the listings.  Where a query without order may return
    one of several rows (the active administrator), [pick] says which; the order in which
    Go visits the map of requested attachments is the permutation [visit]. *)

From S2P Require Import Prelude GoTime GoText GoStrings GoStrconv Pg OpsModel Keyset AuditLog FilesModel FilesStore FilesCleanup LessonModel LessonFiles LessonStore QuestionModel Notifications.
From stdpp Require Import base tactics list gmap strings.
From Stdlib Require Import ZArith Lia.

Open Scope Z_scope.

Module QuestionStore.
Import Lessons Questions.

Section Store.
Context `{PgTime} `{UUIDText}.

(** ** Rows as they are scanned *)
Definition scanThread (id : UUID) (r : ThreadRow) : Thread :=
  MkThread id (t_student r) (t_title r) (t_status r) (t_version r) (UTC (t_last r)) (UTC (t_created r))
    (UTC (t_updated r)) (UTC <$> t_completed r).

Definition scanMessage (id : UUID) (r : MessageRow) : Message :=
  MkMessage id (m_thread r) (m_sender r) (m_role r) (m_kind r) (m_body r) (UTC (m_created r)) [].

Definition withAttachments (l : list Attachment) (m : Message) : Message :=
  MkMessage (MessageID m) (MessageThread m) (SenderUserID m) (SenderRole m) (Kind m) (Body m) (MessageCreatedAt m) l.

(** ** Attachments of a message *)

(** A file that hangs on a message: a ready version uploaded for questions, of a file
    that is not deleted and that [owner] uploaded. *)
Definition attachedBy (db : QADB) (owner version : UUID) : bool :=
  match versions (fileDB db) !! version with
  | Some v =>
      bool_decide (v_purpose v = Files.UploadPurposeQA) && bool_decide (v_state v = "ready"%string)
      && match files (fileDB db) !! v_file v with
         | Some f => open_ (file_deletedAt f) && (file_createdBy f =? owner)%N
         | None => false
         end
  | None => false
  end.

Definition scanAttachment (db : QADB) (version : UUID) (k : LinkRow) : Attachment :=
  MkAttachment version (k_position k) (k_name k) (Bindings.previewReady (fileDB db) version).

Definition linksOf (db : QADB) (message : UUID) : list (UUID * LinkRow) :=
  (fun '((_, v), k) => (v, k)) <$> List.filter (fun '((m, _), _) => (m =? message)%N) (map_to_list (links db)).

Definition attachmentsBy (db : QADB) (owner message : UUID) : list Attachment :=
  orderBy (fun a => [AttPosition a; Z.of_N (AttVersion a)])
    ((fun '(v, k) => scanAttachment db v k) <$> List.filter (fun '(v, _) => attachedBy db owner v) (linksOf db message)).

Definition adminAttachments (db : QADB) (message : UUID) : list Attachment :=
  match messages db !! message with Some m => attachmentsBy db (m_sender m) message | None => [] end.

(** The messages of a thread that both sides may see: the student's own and the
    teacher's replies. *)
Definition properSender (student : UUID) (m : MessageRow) : bool :=
  match m_role m, m_kind m with
  | RoleStudent, (MessageKindInitial | MessageKindStudentFollowUp) => (m_sender m =? student)%N
  | RoleAdmin, MessageKindAdminReply => true
  | _, _ => false
  end.

Definition studentAttachments (db : QADB) (student message : UUID) : list Attachment :=
  match messages db !! message with
  | Some m =>
      match threads db !! m_thread m with
      | Some q =>
          if (t_student q =? student)%N && activeStudent db (t_student q) && properSender (t_student q) m
          then attachmentsBy db (m_sender m) message else []
      | None => []
      end
  | None => []
  end.

Definition listAdminMessageAttachments (message : UUID) : DB QADB Error (list Attachment) :=
  (call ErrDatabase; do db <- dget; dret (adminAttachments db message))%db.
Definition listStudentMessageAttachments (student message : UUID) : DB QADB Error (list Attachment) :=
  (call ErrDatabase; do db <- dget; dret (studentAttachments db student message))%db.

(** ** Looking a message up by its idempotency key *)
Definition messageByKey (db : QADB) (sender : UUID) (key : string) : option (N * MessageRow) :=
  List.find (fun '(_, m) => (m_sender m =? sender)%N && bool_decide (m_key m = key)) (map_to_list (messages db)).

Definition FindMessageByIdempotency (sender : UUID) (key : string) : DB QADB Error (Thread * Message) :=
  (call ErrDatabase;
   do db <- dget;
   match messageByKey db sender key with
   | Some (id, m) =>
     match threads db !! m_thread m with
     | Some q =>
       fail if negb ((t_student q =? sender)%N && activeStudent db sender) with mapPostgresError NoRows;
       do l <- listStudentMessageAttachments (t_student q) id;
       dret (scanThread (m_thread m) q, withAttachments l (scanMessage id m))
     | None => dfail (mapPostgresError NoRows)
     end
   | None => dfail (mapPostgresError NoRows)
   end)%db.

Definition FindAdminMessageByIdempotency (admin : UUID) (key : string) : DB QADB Error (Thread * Message) :=
  (call ErrDatabase;
   do db <- dget;
   match messageByKey db admin key with
   | Some (id, m) =>
     match threads db !! m_thread m with
     | Some q =>
       fail if negb (activeAdmin db admin && bool_decide (m_role m = RoleAdmin) && bool_decide (m_kind m = MessageKindAdminReply))
         with mapPostgresError NoRows;
       do l <- listAdminMessageAttachments id;
       dret (scanThread (m_thread m) q, withAttachments l (scanMessage id m))
     | None => dfail (mapPostgresError NoRows)
     end
   | None => dfail (mapPostgresError NoRows)
   end)%db.

(** ** Inserting messages *)

(** The trigger [qa_messages_sender_integrity]. *)
Definition senderAllowed (db : QADB) (m : MessageRow) : bool :=
  match m_role m with
  | RoleStudent =>
      match threads db !! m_thread m with
      | Some q => (t_student q =? m_sender m)%N && activeStudent db (m_sender m)
      | None => false
      end
  | RoleAdmin => activeAdmin db (m_sender m)
  | OtherRole _ => true
  end.

Definition kindOfRole (m : MessageRow) : bool :=
  match m_kind m, m_role m with
  | (MessageKindInitial | MessageKindStudentFollowUp), RoleStudent => true
  | MessageKindAdminReply, RoleAdmin => true
  | _, _ => false
  end.

Definition messageCheck (m : MessageRow) : bool :=
  kindOfRole m && Teaching.btrimLength 1 20000 (m_body m) && charLength 16 128 (m_key m).

Definition hasInitial (db : QADB) (thread : UUID) : bool :=
  existsb (fun '(_, m) => (m_thread m =? thread)%N && bool_decide (m_kind m = MessageKindInitial)) (map_to_list (messages db)).

Definition messageTaken (db : QADB) (id : UUID) (m : MessageRow) : bool :=
  bool_decide (is_Some (messages db !! id)) || bool_decide (is_Some (messageByKey db (m_sender m) (m_key m)))
  || (bool_decide (m_kind m = MessageKindInitial) && hasInitial db (m_thread m)).

Definition insertMessage (m : MessageRow) : DB QADB Error Message :=
  (do id <- newUUID;
   call ErrDatabase;
   do db <- dget;
   raise (negb (storable (m_body m) && storable (m_key m))) OtherFailure
     (raise (negb (senderAllowed db m) || negb (messageCheck m)) CheckViolation
       (raise (messageTaken db id m) UniqueViolation
         (raise (negb (bool_decide (is_Some (threads db !! m_thread m)))) ForeignKeyViolation
           (do _ <- dput (setMessages (<[id := m]> (messages db)) db);
            dret (scanMessage id m))%db))))%db.

(** ** Threads *)
Definition threadCheck (r : ThreadRow) : bool :=
  Teaching.btrimLength 1 160 (t_title r)
  && oneStatus [StatusPending; StatusInProgress; StatusWaitingStudent; StatusCompleted] (t_status r)
  && (0 <? t_version r) && Bool.eqb (bool_decide (t_status r = StatusCompleted)) (bool_decide (is_Some (t_completed r))).

Definition CreateThreadWithFirstMessage (student : UUID) (i : CreateThreadInput) (now : Time) :
  DB QADB Error (Thread * Message * bool) :=
  (call ErrDatabase;
   do found <- attempt (FindMessageByIdempotency student (NewKey i));
   match found with
   | Ok (thread, message) =>
     fail if negb (bool_decide (Kind message = MessageKindInitial)) with ErrIdempotencyConflict;
     dret (thread, message, false)
   | Err ErrNotFound =>
     do threadID <- newUUID;
     call ErrDatabase;
     do db <- dget;
     fail if negb (activeStudent db student) with mapPostgresError NoRows;
     let row := MkThreadRow student (NewTitle i) StatusPending 1 (pg now) (pg now) (pg now) None in
     raise (negb (storable (NewTitle i))) OtherFailure
       (raise (negb (threadCheck row)) CheckViolation
         (raise (bool_decide (is_Some (threads db !! threadID))) UniqueViolation
           (do _ <- dput (setThreads (<[threadID := row]> (threads db)) db);
            do message <- insertMessage
              (MkMessageRow threadID student RoleStudent MessageKindInitial (NewBody i) (NewKey i) (pg now));
            dret (scanThread threadID row, message, true))%db))
   | Err e => dfail e
   end)%db.

(** An update of a thread; the server checks the row and the range of the version. *)
Definition updateThread (id : UUID) (row : ThreadRow) : DB QADB Error Thread :=
  (do db <- dget;
   raise (negb (inInt64 (t_version row))) OtherFailure
     (raise (negb (threadCheck row)) CheckViolation
       (do _ <- dput (setThreads (<[id := row]> (threads db)) db);
        dret (scanThread id row))%db))%db.

Definition completedIf (next : Status) (now : Time) : option Time :=
  if bool_decide (next = StatusCompleted) then Some (pg now) else None.

Definition movedThread (r : ThreadRow) (next : Status) (last_ now : Time) (completed : option Time) : ThreadRow :=
  MkThreadRow (t_student r) (t_title r) next (t_version r + 1) last_ (t_created r) (pg now) completed.

Definition LockStudentThread (student thread : UUID) : DB QADB Error Thread :=
  (call ErrDatabase;
   do db <- dget;
   match threads db !! thread with
   | Some q =>
     fail if negb ((t_student q =? student)%N && activeStudent db (t_student q)) with mapPostgresError NoRows;
     dret (scanThread thread q)
   | None => dfail (mapPostgresError NoRows)
   end)%db.

Definition LockAdminThread (thread : UUID) : DB QADB Error Thread :=
  (call ErrDatabase;
   do db <- dget;
   match threads db !! thread with
   | Some q =>
     fail if negb (presentStudent db (t_student q)) with mapPostgresError NoRows;
     dret (scanThread thread q)
   | None => dfail (mapPostgresError NoRows)
   end)%db.

Definition AppendStudentMessage (thread : Thread) (student : UUID) (i : AddMessageInput) (next : Status) (now : Time) :
  DB QADB Error (Thread * Message) :=
  (do message <- insertMessage
     (MkMessageRow (ThreadID thread) student RoleStudent MessageKindStudentFollowUp (AddBody i) (AddKey i) (pg now));
   call ErrDatabase;
   do db <- dget;
   match threads db !! ThreadID thread with
   | Some r =>
     fail if negb ((t_student r =? student)%N && (t_version r =? Version thread)) with mapPostgresError NoRows;
     do updated <- updateThread (ThreadID thread) (movedThread r next (pg now) now (completedIf next now));
     dret (updated, message)
   | None => dfail (mapPostgresError NoRows)
   end)%db.

Definition AppendAdminMessage (thread : Thread) (admin : UUID) (i : AddMessageInput) (next : Status) (now : Time) :
  DB QADB Error (Thread * Message) :=
  (do db <- dget;
   fail if negb (activeAdmin db admin) with mapPostgresError NoRows;
   do message <- insertMessage
     (MkMessageRow (ThreadID thread) admin RoleAdmin MessageKindAdminReply (AddBody i) (AddKey i) (pg now));
   call ErrDatabase;
   do db <- dget;
   match threads db !! ThreadID thread with
   | Some r =>
     fail if negb (t_version r =? Version thread) with ErrThreadConflict;
     do updated <- updateThread (ThreadID thread) (movedThread r next (pg now) now None);
     dret (updated, message)
   | None => dfail ErrThreadConflict
   end)%db.

Definition UpdateAdminThreadStatus (thread : Thread) (next : Status) (now : Time) : DB QADB Error Thread :=
  (call ErrDatabase;
   do db <- dget;
   match threads db !! ThreadID thread with
   | Some r =>
     fail if negb (t_version r =? Version thread) with ErrThreadConflict;
     updateThread (ThreadID thread) (movedThread r next (t_last r) now (completedIf next now))
   | None => dfail ErrThreadConflict
   end)%db.

Definition InsertTeacherNote (thread admin : UUID) (body : string) (now : Time) : DB QADB Error TeacherNote :=
  (do id <- newUUID;
   call ErrDatabase;
   do db <- dget;
   fail if negb (bool_decide (is_Some (threads db !! thread)) && activeAdmin db admin) with mapPostgresError NoRows;
   raise (negb (storable body)) OtherFailure
     (raise (negb (Teaching.btrimLength 1 20000 body)) CheckViolation
       (raise (bool_decide (is_Some (notes db !! id))) UniqueViolation
         (do _ <- dput (setNotes (<[id := MkNoteRow thread admin body (pg now)]> (notes db)) db);
          dret (MkNote id thread admin body (UTC (pg now))))%db)))%db.

Definition ActiveAdminID (pick : nat) : DB QADB Error UUID :=
  (call ErrDatabase;
   do db <- dget;
   let admins := List.filter (activeAdmin db) (fst <$> map_to_list (people (lessonDB db))) in
   match admins !! (pick mod length admins)%nat with
   | Some id => dret id
   | None => dfail (mapPostgresError NoRows)
   end)%db.

(** ** Attaching files to a message *)
Definition qaAttachmentLimits : list (string * Z) :=
  [("image/jpeg", Files.mib 20); ("image/png", Files.mib 20); ("image/webp", Files.mib 20); ("image/gif", Files.mib 20);
   ("application/pdf", Files.mib 50); (Files.wordMIME, Files.mib 30); (Files.sheetMIME, Files.mib 30);
   (Files.slidesMIME, Files.mib 30); ("text/plain", Files.mib 10); ("text/markdown", Files.mib 10)]%string.

Definition validQAAttachmentName (name : string) : bool :=
  negb (bool_decide (name = EmptyString)) && ValidString name && (RuneCountInString name <=? 255)
  && negb (bool_decide (name = "."%string)) && negb (bool_decide (name = ".."%string))
  && bool_decide (TrimSpace name = name)
  && negb (existsb (fun b => existsb (Z.eqb b) [47; 92; 0; 13; 10]) (bytes name))
  && forallb (fun r => negb (r <? 32) && negb (r =? 127)) (runes name)
  && negb (bool_decide (Ext (bytes name) = [])).

(** A row of the locking query: the version, the uploader of its file, and whether it
    has a preview. *)
Record lockedQAAttachment := MkLocked { LockedRow : VersionRow; LockedOwner : UUID; LockedPreview : bool }.

Definition lockedAttachment (db : FilesDB) (version : UUID) : option lockedQAAttachment :=
  match versions db !! version with
  | Some v =>
      match files db !! v_file v with
      | Some f => if open_ (file_deletedAt f) then Some (MkLocked v (file_createdBy f) (Bindings.previewReady db version)) else None
      | None => None
      end
  | None => None
  end.

(** One turn of the loop, with the images and the bytes counted so far. *)
Definition acceptAttachment (actor : UUID) (a : lockedQAAttachment) (i : AttachmentInput) (images total : Z) :
  result Error (Attachment * Z * Z) :=
  (let v := LockedRow a in
   reject negb (LockedOwner a =? actor)%N || negb (bool_decide (v_purpose v = Files.UploadPurposeQA))
       || bool_decide (v_cleanup v = Some "deleting"%string) || bool_decide (is_Some (v_purged v)) with ErrForbidden;
   reject negb (bool_decide (v_state v = "ready"%string)) with ErrAttachmentNotReady;
   let mime := ToLower (bytes (or_zero EmptyString (v_detected v))) in
   match Files.byExt qaAttachmentLimits mime with
   | None => Err ErrInvalidInput
   | Some limit =>
     reject (v_size v <? 1) || (limit <? v_size v) with ErrAttachmentLimit;
     let total := Files.wrapInt64 (total + v_size v) in
     reject Files.mib 100 <? total with ErrAttachmentLimit;
     let images := if hasPrefix mime (bytes "image/") then images + 1 else images in
     reject hasPrefix mime (bytes "image/") && (10 <? images) with ErrAttachmentLimit;
     let name := TrimSpace (v_name v) in
     reject negb (validQAAttachmentName name) with ErrInvalidInput;
     Ok (MkAttachment (InVersion i) (InPosition i) name (LockedPreview a), images, total)
   end)%go.

Fixpoint acceptAttachments (actor : UUID) (db : FilesDB) (images total : Z) (inputs : list AttachmentInput) :
  result Error (list Attachment) :=
  match inputs with
  | [] => Ok []
  | i :: rest =>
      match lockedAttachment db (InVersion i) with
      | None => Err ErrForbidden
      | Some a =>
          (let* (att, images', total') := acceptAttachment actor a i images total in
           let* l := acceptAttachments actor db images' total' rest in
           Ok (att :: l))%go
      end
  end.

Definition sortAttachments (l : list Attachment) : list Attachment := orderBy (fun a => [AttPosition a]) l.

Definition ValidateForMessage (visit : list AttachmentInput -> list AttachmentInput) (actor : Principal)
  (inputs : list AttachmentInput) : DB QADB Error (list Attachment) :=
  (if bool_decide (inputs = []) then dret []
   else
   fail if (20 <? length inputs)%nat || (User_ID actor =? NilUUID)%N || negb (bool_decide (User_Status actor = StatusActive))
       || negb (bool_decide (User_Role actor = RoleStudent) || bool_decide (User_Role actor = RoleAdmin)) with ErrAttachmentLimit;
   fail if negb (freshAttachments [] [] inputs) with ErrInvalidInput;
   call ErrDatabase;
   do db <- dget;
   fail if negb (forallb (fun i => bool_decide (is_Some (lockedAttachment (fileDB db) (InVersion i)))) inputs) with ErrForbidden;
   call ErrDatabase;
   fail if Cleanup.anyIn (InVersion <$> inputs) (qaRefs (fileDB db)) with ErrInvalidInput;
   match acceptAttachments (User_ID actor) (fileDB db) 0 0 (visit inputs) with
   | Err e => dfail e
   | Ok out => dret (sortAttachments out)
   end)%db.

(** [int16] of an [int]. *)
Definition int16 (x : Z) : Z := (x + 2 ^ 15) mod 2 ^ 16 - 2 ^ 15.

Definition linkCheck (k : LinkRow) : bool := within 0 19 (k_position k) && charLength 1 255 (k_name k).

(** The rows of [qa_message_files], in the order of the arrays; a failure of any row
    fails the statement. *)
Fixpoint insertLinks (db : QADB) (message : UUID) (attachments : list Attachment) : result Failure QADB :=
  match attachments with
  | [] => Ok db
  | a :: rest =>
      (let row := MkLinkRow (int16 (AttPosition a)) (AttName a) in
       reject negb (storable (AttName a)) with OtherFailure;
       reject negb (linkCheck row) with CheckViolation;
       reject bool_decide (is_Some (links db !! (message, AttVersion a)))
           || existsb (fun '((m, _), k) => (m =? message)%N && (k_position k =? k_position row)) (map_to_list (links db))
         with UniqueViolation;
       reject existsb (fun '((_, v), _) => (v =? AttVersion a)%N) (map_to_list (links db)) with FileTaken;
       reject negb (bool_decide (is_Some (versions (fileDB db) !! AttVersion a)))
           || negb (bool_decide (is_Some (messages db !! message))) with ForeignKeyViolation;
       insertLinks (setLinks (<[(message, AttVersion a) := row]> (links db)) db) message rest)%go
  end.

Definition BindMessageAttachments (message : UUID) (attachments : list Attachment) : DB QADB Error unit :=
  (if bool_decide (attachments = []) then dret tt
   else
   call ErrDatabase;
   do db <- dget;
   match insertLinks db message attachments with
   | Err f => dfail (mapPostgresError f)
   | Ok db' => dput (linked db')
   end)%db.

(** ** Listings *)
Definition statusIs (filter : Status) (r : ThreadRow) : bool :=
  bool_decide (filter = StatusEmpty) || bool_decide (t_status r = filter).

Definition threadKey : N * ThreadRow -> Z * Z := fun '(id, r) => (ns (t_last r), Z.of_N id).

Definition threadPage (c : Cursor) (rows : list (N * ThreadRow)) : list Thread * Cursor :=
  let items := (fun '(id, r) => scanThread id r) <$> Notifications.newestPage threadKey c rows in
  (items, Notifications.nextCursor LastMessageAt ThreadID (CursorLimit c) items).

Definition ListStudentThreads (student : UUID) (status : Status) (c : Cursor) : DB QADB Error (list Thread * Cursor) :=
  (call ErrDatabase;
   do db <- dget;
   fail if negb (activeStudent db student) with mapPostgresError NoRows;
   call ErrDatabase;
   dret (threadPage c (List.filter (fun '(_, r) => (t_student r =? student)%N && statusIs status r) (map_to_list (threads db)))))%db.

Definition createdWithin (from_ to_ : Time) (r : ThreadRow) : bool :=
  (IsZero from_ || negb (Before (t_created r) (pg from_))) && (IsZero to_ || negb (After (t_created r) (pg to_))).

Definition ListAdminThreads (f : AdminThreadFilter) (c : Cursor) : DB QADB Error (list Thread * Cursor) :=
  (call ErrDatabase;
   do db <- dget;
   dret (threadPage c
     (List.filter (fun '(_, r) => presentStudent db (t_student r) && statusIs (FilterStatus f) r
                     && ((FilterStudent f =? NilUUID)%N || (t_student r =? FilterStudent f)%N)
                     && createdWithin (FilterFrom f) (FilterTo f) r) (map_to_list (threads db)))))%db.

Definition GetStudentThread (student thread : UUID) : DB QADB Error Thread := LockStudentThread student thread.
Definition GetAdminThread (thread : UUID) : DB QADB Error Thread := LockAdminThread thread.

(** The messages of a thread after a cursor, oldest first.  The zero cursor is before
    every message. *)
Definition messageKey : N * MessageRow -> list Z := fun '(id, m) => [ns (m_created m); Z.of_N id].

Definition afterCursor (c : Cursor) : N * MessageRow -> bool :=
  fun '(id, m) =>
    if IsZero (CursorTime c) then (0 <? ns (m_created m)) || ((ns (m_created m) =? 0) && negb (id =? NilUUID)%N)
    else (ns (CursorTime c) <? ns (m_created m))
         || ((ns (m_created m) =? ns (CursorTime c)) && (Z.of_N (CursorID c) <? Z.of_N id)).

Definition threadMessages (db : QADB) (thread : UUID) : list (N * MessageRow) :=
  match threads db !! thread with
  | Some q =>
      orderBy messageKey
        (List.filter (fun '(_, m) => (m_thread m =? thread)%N && properSender (t_student q) m) (map_to_list (messages db)))
  | None => []
  end.

Definition messagePage (c : Cursor) (rows : list (N * MessageRow)) : list Message :=
  (fun '(id, m) => scanMessage id m) <$> take (Z.to_nat (CursorLimit c)) (List.filter (afterCursor c) rows).

(** The loop that reads the attachments of each message. *)
Fixpoint attachAll (read : UUID -> DB QADB Error (list Attachment)) (l : list Message) : DB QADB Error (list Message) :=
  match l with
  | [] => dret []
  | m :: rest => (do a <- read (MessageID m); do r <- attachAll read rest; dret (withAttachments a m :: r))%db
  end.

Definition nextMessages (c : Cursor) (l : list Message) : Cursor :=
  Notifications.nextCursor MessageCreatedAt MessageID (CursorLimit c) l.

Definition ListStudentMessages (student thread : UUID) (c : Cursor) : DB QADB Error (list Message * Cursor) :=
  (call ErrDatabase;
   do db <- dget;
   let mine := match threads db !! thread with
               | Some q => (t_student q =? student)%N && activeStudent db (t_student q)
               | None => false
               end in
   let page := messagePage c (if mine then threadMessages db thread else []) in
   do _ <- (if bool_decide (page = []) then do _ <- GetStudentThread student thread; dret tt else dret tt);
   do l <- attachAll (listStudentMessageAttachments student) page;
   dret (l, nextMessages c l))%db.

Definition ListAdminMessages (thread : UUID) (c : Cursor) : DB QADB Error (list Message * Cursor) :=
  (call ErrDatabase;
   do db <- dget;
   let page := messagePage c (threadMessages db thread) in
   do _ <- (if bool_decide (page = []) then do _ <- GetAdminThread thread; dret tt else dret tt);
   do l <- attachAll listAdminMessageAttachments page;
   dret (l, nextMessages c l))%db.

Definition isAdmin (db : QADB) (id : UUID) : bool :=
  match people (lessonDB db) !! id with Some u => bool_decide (u_role u = RoleAdmin) | None => false end.

Definition notesOf (db : QADB) (thread : UUID) : list TeacherNote :=
  (fun '(id, n) => MkNote id (o_thread n) (o_author n) (o_body n) (UTC (o_created n)))
  <$> orderBy (fun '(id, n) => [ns (o_created n); Z.of_N id])
        (List.filter (fun '(_, n) => (o_thread n =? thread)%N && isAdmin db (o_author n)) (map_to_list (notes db))).

Definition ListTeacherNotes (thread : UUID) : DB QADB Error (list TeacherNote) :=
  (call ErrDatabase;
   do db <- dget;
   do _ <- (if bool_decide (notesOf db thread = []) then do _ <- GetAdminThread thread; dret tt else dret tt);
   dret (notesOf db thread))%db.

End Store.

End QuestionStore.
