(* ===== verification/QuestionService.v ===== *)
(** * The service of questions and answers

    Models [internal/qanda/service.go] and the [PostgresUnitOfWork] it runs on: each
    change checks its caller and its input, and is one transaction with its audit event
    and its notification.  The guards on a service without a store are not modelled.
    Module [QuestionAccess] serves the files of messages. *)

From S2P Require Import Prelude GoTime GoText GoStrings GoStrconv Pg OpsModel Keyset AuditLog FilesModel FilesStore LessonModel LessonFiles FileAccess QuestionModel Notifications QuestionStore.
From stdpp Require Import base tactics list gmap strings.
From Stdlib Require Import ZArith Lia.

Open Scope Z_scope.

Module QuestionService.
Import Lessons Questions QuestionStore.

(** ** Checks *)
Definition authorizeAs (role : Role) (actor : Principal) : result Error unit :=
  (reject (User_ID actor =? NilUUID)%N || negb (bool_decide (User_Role actor = role))
      || negb (bool_decide (User_Status actor = StatusActive)) || blank (RequestID actor)
      || bool_decide (PrincipalIP actor = None) with ErrForbidden;
   Ok tt)%go.
Definition authorizeStudent (actor : Principal) : result Error unit := authorizeAs RoleStudent actor.
Definition authorizeAdmin (actor : Principal) : result Error unit := authorizeAs RoleAdmin actor.

(** [validThreadCursor] and [validMessageCursor]. *)
Definition validCursor (c : Cursor) : bool := Bool.eqb (IsZero (CursorTime c)) (CursorID c =? NilUUID)%N.

Definition validStatusFilter (s : Status) : bool :=
  oneStatus [StatusEmpty; StatusPending; StatusInProgress; StatusWaitingStudent; StatusCompleted] s.

Definition withLimit (default : Z) (c : Cursor) : Cursor :=
  if CursorLimit c =? 0 then MkCursor (CursorTime c) (CursorID c) default else c.

Definition badCursor (max : Z) (c : Cursor) : bool :=
  (CursorLimit c <? 1) || (max <? CursorLimit c) || negb (validCursor c).

Definition monotonicActivity (now last : Time) : Time :=
  let minimum := addDuration (UTC last) microsecond in
  if Before now minimum then minimum else now.

Definition byOk {A B} (r : result Error A) (k : A -> DB QADB Error B) : DB QADB Error B :=
  match r with Ok a => k a | Err e => dfail e end.

Section Service.
Context `{PgTime} `{UUIDText} (pick : nat) (visit : list AttachmentInput -> list AttachmentInput).

Definition auditEvent (actor : Principal) (action : string) (thread : UUID) (metadata : gmap string Audit.any) : Audit.Event :=
  Audit.MkEvent (User_ID actor) action "qa_thread" (uuidString thread) metadata (RequestID actor) (PrincipalIP actor).

Definition writeAudit (e : Audit.Event) : DB QADB Error unit := Audit.Write ErrAudit e.

(** [notifications.Notify] with its error passed on. *)
Definition notify (i : NotificationIntent) : DB QADB Error unit :=
  (do out <- attempt (Notifications.Notify i);
   match out with Ok _ => dret tt | Err e => dfail (ErrNotify e) end)%db.

Definition WithinTx {A} (body : DB QADB Error A) : DB QADB Error A := transact ErrDatabase ErrDatabase body.

Definition countText (l : list AttachmentInput) : Audit.any := Audit.AnyString (FormatInt (Z.of_nat (length l))).

Definition messageMetadata (l : list AttachmentInput) : gmap string Audit.any :=
  <["messageCount"%string := Audit.AnyString "1"]> {["attachmentCount"%string := countText l]}.

Definition statusMetadata (old next : Status) (m : gmap string Audit.any) : gmap string Audit.any :=
  <["oldStatus"%string := Audit.AnyString (statusText old)]> (<["newStatus"%string := Audit.AnyString (statusText next)]> m).

(** ** Creating a question *)
Definition createdIntent (admin : UUID) (thread : Thread) (message : Message) : NotificationIntent :=
  MkIntent admin "qa_created" "New student question" "A student created a question."
    "qa_thread" ("/admin/questions/" ++ uuidString (ThreadID thread)) ("qa-created:" ++ uuidString (MessageID message))
    (ThreadID thread).

Definition createBody (actor : Principal) (i : CreateThreadInput) : DB QADB Error (Thread * Message) :=
  (do found <- attempt (FindMessageByIdempotency (User_ID actor) (NewKey i));
   match found with
   | Ok (thread, message) =>
     fail if negb (bool_decide (Kind message = MessageKindInitial)) with ErrIdempotencyConflict;
     dret (thread, message)
   | Err ErrNotFound =>
     do attachments <- ValidateForMessage visit actor (NewAttachments i);
     do now <- wallNow;
     do (thread, message, created) <- CreateThreadWithFirstMessage (User_ID actor) i (UTC now);
     if negb created then dret (thread, message)
     else
       do _ <- BindMessageAttachments (MessageID message) attachments;
       do _ <- writeAudit (auditEvent actor "qa.thread_created" (ThreadID thread) (messageMetadata (NewAttachments i)));
       do admin <- ActiveAdminID pick;
       do _ <- notify (createdIntent admin thread message);
       dret (thread, withAttachments attachments message)
   | Err e => dfail e
   end)%db.

Definition CreateThread (actor : Principal) (i : CreateThreadInput) : DB QADB Error (Thread * Message) :=
  byOk (authorizeStudent actor) (fun _ =>
  byOk (normalizeCreateInput i) (fun i => WithinTx (createBody actor i))).

(** ** Following up *)
Definition followedUpIntent (admin : UUID) (thread : Thread) (message : Message) : NotificationIntent :=
  MkIntent admin "qa_followed_up" "Student follow-up" "A student followed up on a question."
    "qa_thread" ("/admin/questions/" ++ uuidString (ThreadID thread)) ("qa-followed-up:" ++ uuidString (MessageID message))
    (ThreadID thread).

Definition followUpBody (actor : Principal) (i : AddMessageInput) : DB QADB Error (Thread * Message) :=
  (do thread <- LockStudentThread (User_ID actor) (AddThread i);
   do found <- attempt (FindMessageByIdempotency (User_ID actor) (AddKey i));
   match found with
   | Ok (existingThread, existingMessage) =>
     fail if negb (bool_decide (Kind existingMessage = MessageKindStudentFollowUp))
         || negb (ThreadID existingThread =? AddThread i)%N with ErrIdempotencyConflict;
     dret (existingThread, existingMessage)
   | Err ErrNotFound =>
     fail if negb (Version thread =? AddExpected i) with ErrThreadConflict;
     byOk (NextStatus (ThreadStatus thread) ActionStudentFollowUp RoleStudent) (fun next =>
     do attachments <- ValidateForMessage visit actor (AddAttachments i);
     do now <- wallNow;
     let activityAt := monotonicActivity (UTC now) (LastMessageAt thread) in
     do (thread, message) <- AppendStudentMessage thread (User_ID actor) i next activityAt;
     do _ <- BindMessageAttachments (MessageID message) attachments;
     do _ <- writeAudit (auditEvent actor "qa.student_followed_up" (ThreadID thread) (messageMetadata (AddAttachments i)));
     do admin <- ActiveAdminID pick;
     do _ <- notify (followedUpIntent admin thread message);
     dret (thread, withAttachments attachments message))
   | Err e => dfail e
   end)%db.

Definition AddStudentMessage (actor : Principal) (i : AddMessageInput) : DB QADB Error (Thread * Message) :=
  byOk (authorizeStudent actor) (fun _ =>
  byOk (normalizeAddMessageInput i) (fun i => WithinTx (followUpBody actor i))).

(** ** Replying *)
Definition repliedIntent (thread : Thread) (message : Message) : NotificationIntent :=
  MkIntent (StudentID thread) "qa_replied" "Teacher reply" "Your teacher replied to a question."
    "qa_thread" ("/student/questions/" ++ uuidString (ThreadID thread)) ("qa-replied:" ++ uuidString (MessageID message))
    (ThreadID thread).

Definition replyBody (actor : Principal) (i : AddMessageInput) : DB QADB Error (Thread * Message) :=
  (do thread <- LockAdminThread (AddThread i);
   do found <- attempt (FindAdminMessageByIdempotency (User_ID actor) (AddKey i));
   match found with
   | Ok (existingThread, existingMessage) =>
     fail if negb (bool_decide (Kind existingMessage = MessageKindAdminReply))
         || negb (ThreadID existingThread =? AddThread i)%N with ErrIdempotencyConflict;
     dret (existingThread, existingMessage)
   | Err ErrNotFound =>
     fail if negb (Version thread =? AddExpected i) with ErrThreadConflict;
     byOk (NextStatus (ThreadStatus thread) ActionAdminReply RoleAdmin) (fun next =>
     do attachments <- ValidateForMessage visit actor (AddAttachments i);
     do now <- wallNow;
     let activityAt := monotonicActivity (UTC now) (LastMessageAt thread) in
     let old := ThreadStatus thread in
     do (thread, message) <- AppendAdminMessage thread (User_ID actor) i next activityAt;
     do _ <- BindMessageAttachments (MessageID message) attachments;
     do _ <- writeAudit (auditEvent actor "qa.admin_replied" (ThreadID thread)
       (statusMetadata old next (messageMetadata (AddAttachments i))));
     do _ <- notify (repliedIntent thread message);
     dret (thread, withAttachments attachments message))
   | Err e => dfail e
   end)%db.

Definition AddAdminMessage (actor : Principal) (i : AddMessageInput) : DB QADB Error (Thread * Message) :=
  byOk (authorizeAdmin actor) (fun _ =>
  byOk (normalizeAddMessageInput i) (fun i => WithinTx (replyBody actor i))).

(** ** Changing the status *)
Definition changeAction (to current : Status) : option Action :=
  if bool_decide (to = StatusInProgress) && bool_decide (current = StatusPending) then Some ActionClaim
  else if bool_decide (to = StatusInProgress) && bool_decide (current = StatusCompleted) then Some ActionReopen
  else if bool_decide (to = StatusCompleted) then Some ActionComplete
  else None.

Definition statusIntent (thread : Thread) : NotificationIntent :=
  MkIntent (StudentID thread) "qa_status_changed" "Question status changed" "Your question status changed."
    "qa_thread" ("/student/questions/" ++ uuidString (ThreadID thread))
    ("qa-status:" ++ uuidString (ThreadID thread) ++ ":" ++ FormatInt (Version thread)) (ThreadID thread).

Definition changeBody (actor : Principal) (i : ChangeStatusInput) : DB QADB Error Thread :=
  (do thread <- LockAdminThread (ChangeThread i);
   fail if negb (Version thread =? ChangeExpected i) with ErrThreadConflict;
   match changeAction (ChangeTo i) (ThreadStatus thread) with
   | None => dfail ErrInvalidStatusTransition
   | Some action =>
     byOk (NextStatus (ThreadStatus thread) action RoleAdmin) (fun next =>
     do now <- wallNow;
     do moved <- UpdateAdminThreadStatus thread next (UTC now);
     do _ <- writeAudit (auditEvent actor "qa.status_changed" (ThreadID moved) (statusMetadata (ThreadStatus thread) next ∅));
     do _ <- notify (statusIntent moved);
     dret moved)
   end)%db.

Definition ChangeStatus (actor : Principal) (i : ChangeStatusInput) : DB QADB Error Thread :=
  byOk (authorizeAdmin actor) (fun _ =>
  if (ChangeThread i =? NilUUID)%N || (ChangeExpected i <? 1) || negb (validStatusFilter (ChangeTo i))
     || bool_decide (ChangeTo i = StatusEmpty) then dfail ErrInvalidInput
  else WithinTx (changeBody actor i)).

(** ** Notes *)
Definition noteBody (actor : Principal) (i : AddTeacherNoteInput) : DB QADB Error TeacherNote :=
  (do _ <- LockAdminThread (NoteOf i);
   do now <- wallNow;
   do note <- InsertTeacherNote (NoteOf i) (User_ID actor) (NoteText i) (UTC now);
   do _ <- writeAudit (auditEvent actor "qa.teacher_note_added" (NoteOf i) {["noteCount"%string := Audit.AnyString "1"]});
   dret note)%db.

Definition AddTeacherNote (actor : Principal) (i : AddTeacherNoteInput) : DB QADB Error TeacherNote :=
  byOk (authorizeAdmin actor) (fun _ =>
  byOk (normalizeTeacherNoteInput i) (fun i => WithinTx (noteBody actor i))).

(** ** Reading *)
Definition ListStudentThreads (actor : Principal) (status : Status) (c : Cursor) : DB QADB Error (list Thread * Cursor) :=
  byOk (authorizeStudent actor) (fun _ =>
  let c := withLimit 20 c in
  if badCursor 50 c || negb (validStatusFilter status) then dfail ErrInvalidInput
  else QuestionStore.ListStudentThreads (User_ID actor) status c).

Definition GetStudentThread (actor : Principal) (thread : UUID) : DB QADB Error ThreadDetail :=
  byOk (authorizeStudent actor) (fun _ =>
  if (thread =? NilUUID)%N then dfail ErrInvalidInput
  else (do q <- QuestionStore.GetStudentThread (User_ID actor) thread;
        do (l, next) <- QuestionStore.ListStudentMessages (User_ID actor) thread (MkCursor zeroTime NilUUID 100);
        dret (MkThreadDetail q l next))%db).

Definition ListStudentMessages (actor : Principal) (thread : UUID) (c : Cursor) : DB QADB Error (list Message * Cursor) :=
  byOk (authorizeStudent actor) (fun _ =>
  let c := withLimit 50 c in
  if (thread =? NilUUID)%N || badCursor 100 c then dfail ErrInvalidInput
  else QuestionStore.ListStudentMessages (User_ID actor) thread c).

Definition badPeriod (f : AdminThreadFilter) : bool :=
  negb (IsZero (FilterFrom f)) && negb (IsZero (FilterTo f)) && After (FilterFrom f) (FilterTo f).

Definition ListAdminThreads (actor : Principal) (f : AdminThreadFilter) (c : Cursor) : DB QADB Error (list Thread * Cursor) :=
  byOk (authorizeAdmin actor) (fun _ =>
  let c := withLimit 20 c in
  if badCursor 50 c || negb (validStatusFilter (FilterStatus f)) || badPeriod f then dfail ErrInvalidInput
  else QuestionStore.ListAdminThreads f c).

Definition GetAdminThread (actor : Principal) (thread : UUID) (c : Cursor) : DB QADB Error AdminThreadDetail :=
  byOk (authorizeAdmin actor) (fun _ =>
  let c := withLimit 100 c in
  if (thread =? NilUUID)%N || badCursor 100 c then dfail ErrInvalidInput
  else (do q <- QuestionStore.GetAdminThread thread;
        do (l, next) <- QuestionStore.ListAdminMessages thread c;
        do n <- QuestionStore.ListTeacherNotes thread;
        dret (MkAdminThreadDetail q l n next))%db).

End Service.

End QuestionService.

(** * Files attached to messages

    Models [ResolveQAStatus] and [ResolveQAAccess] of [internal/files/postgres_store.go]
    and makes the tables of questions a store that [FileAccess] can serve from; the log is
    the one of [LessonAccess]. *)

Import Files.

Module QuestionAccess.
Import Lessons Access Questions QuestionStore.

Notation Error := Files.Error.
Notation ErrNotFound := Files.ErrNotFound.
Notation ErrDatabase := Files.ErrDatabase.

Section Store.
Context `{PgTime} (tie : string -> Z).

(** [users actor ... AND actor.role=$2 AND actor.status='active' AND actor.deleted_at IS NULL]. *)
Definition actorPresent (db : QADB) (actor : Principal) : bool := activeUser (User_Role actor) (lessonDB db) (User_ID actor).

(** Whether the sender of a message is one whose files are shown. *)
Definition shownSender (db : QADB) (q : ThreadRow) (m : MessageRow) : bool :=
  match m_role m, m_kind m with
  | RoleStudent, (MessageKindInitial | MessageKindStudentFollowUp) => (m_sender m =? t_student q)%N
  | RoleAdmin, MessageKindAdminReply => activeAdmin db (m_sender m)
  | _, _ => false
  end.

(** Whether the actor may see the files of a thread. *)
Definition mayView (db : QADB) (actor : Principal) (q : ThreadRow) : bool :=
  bool_decide (User_Role actor = RoleAdmin)
  || (bool_decide (User_Role actor = RoleStudent) && (t_student q =? User_ID actor)%N && activeStudent db (t_student q)).

(** A message of a thread with a student, sent by the owner of the file, that the actor
    may see. *)
Definition visibleMessage (db : QADB) (actor : Principal) (owner message : UUID) : bool :=
  match messages db !! message with
  | Some m =>
      match threads db !! m_thread m with
      | Some q => presentStudent db (t_student q) && (owner =? m_sender m)%N && shownSender db q m && mayView db actor q
      | None => false
      end
  | None => false
  end.

(** The messages a version hangs on. *)
Definition messagesOf (db : QADB) (version : UUID) : list (UUID * LinkRow) :=
  (fun '((m, _), k) => (m, k)) <$> List.filter (fun '((_, v), _) => (v =? version)%N) (map_to_list (links db)).

Definition qaVersion (db : QADB) (version : UUID) : option (VersionRow * FileRow) :=
  match versions (fileDB db) !! version with
  | Some v =>
      match files (fileDB db) !! v_file v with
      | Some f => if bool_decide (v_purpose v = UploadPurposeQA) && open_ (file_deletedAt f) then Some (v, f) else None
      | None => None
      end
  | None => None
  end.

Definition ResolveQAStatus_ (actor : Principal) (requested : UUID) : DB QADB Error FileStatus :=
  (call ErrDatabase;
   do db <- dget;
   match qaVersion db requested with
   | Some (v, f) =>
     fail if negb (actorPresent db actor) with ErrNotFound;
     fail if negb ((bool_decide (messagesOf db requested = []) && (file_createdBy f =? User_ID actor)%N)
                   || existsb (fun '(m, _) => visibleMessage db actor (file_createdBy f) m) (messagesOf db requested))
       with ErrNotFound;
     dret (MkStatus requested NilUUID (v_state v) (or_zero EmptyString (v_failure v)) (or_zero EmptyString (v_detected v))
       (v_size v) (Bindings.previewReady (fileDB db) requested))
   | None => dfail ErrNotFound
   end)%db.

Definition plainTypes : list string :=
  ["image/jpeg"; "image/png"; "image/webp"; "image/gif"; "text/plain"; "text/markdown"]%string.

(** The columns of the row for a message; a column that is NULL cannot be scanned. *)
Definition qaDelivery (db : QADB) (action : AccessAction) (v : VersionRow) (version message : UUID) (k : LinkRow) :
  option (Delivery * UUID) :=
  let fp := LessonAccess.bestPreview tie (fileDB db) version in
  let preview := bool_decide (action = ActionPreview) in
  let download := bool_decide (action = ActionDownload) in
  match fp with
  | Some p =>
      Some (MkDelivery version NilUUID (if preview then p_key p else v_key v) (k_name k)
              (if download then "application/octet-stream"%string else p_type p)
              (if preview then p_size p else v_size v) (PolicyOther "") (negb download && v_playable v) preview, message)
  | None =>
      if download then
        Some (MkDelivery version NilUUID (v_key v) (k_name k) "application/octet-stream" (v_size v) (PolicyOther "") false false, message)
      else
        match v_detected v with
        | Some mime => Some (MkDelivery version NilUUID (v_key v) (k_name k) mime (v_size v) (PolicyOther "") (v_playable v) false, message)
        | None => None
        end
  end.

Definition previewable (db : QADB) (action : AccessAction) (v : VersionRow) (version : UUID) : bool :=
  bool_decide (action = ActionDownload) || bool_decide (is_Some (LessonAccess.bestPreview tie (fileDB db) version))
  || match v_detected v with Some mime => member plainTypes mime | None => false end.

Definition sentAt (db : QADB) (message : UUID) : Z :=
  match messages db !! message with Some m => ns (m_created m) | None => 0 end.

Definition ResolveQAAccess_ (actor : Principal) (requested : UUID) (action : AccessAction) : DB QADB Error (Delivery * UUID) :=
  (call ErrDatabase;
   do db <- dget;
   match qaVersion db requested with
   | Some (v, f) =>
     fail if negb (bool_decide (v_state v = "ready"%string)) || negb (actorPresent db actor)
         || negb (previewable db action v requested) with ErrNotFound;
     match firstBy (fun '(m, _) => [sentAt db m; Z.of_N m])
             (List.filter (fun '(m, _) => visibleMessage db actor (file_createdBy f) m) (messagesOf db requested)) with
     | Some (m, k) => match qaDelivery db action v requested m k with Some d => dret d | None => dfail ErrDatabase end
     | None => dfail ErrNotFound
     end
   | None => dfail ErrNotFound
   end)%db.

End Store.

(** The store as the service asks for it. *)
#[export] Instance PgQALogs : AccessLogs QADB :=
  {| WriteAccessLog l := fun env st => onLessons (LessonAccess.WriteAccessLog_ (dom (messages (snd st))) l) env st |}.

#[export] Instance PgQAStore (tie : string -> Z) : @QAAccessStore QADB PgQALogs :=
  @Build_QAAccessStore QADB PgQALogs (ResolveQAAccess_ tie) ResolveQAStatus_.

End QuestionAccess.
