(* ===== verification/QuestionProofs.v ===== *)
(** * Questions: what the operations do to the tables

    For each operation of the store what its success says, and for each body of the
    service which change of the tables it makes: none, a new thread, a further message,
    a new status or a note ([change]). *)

From S2P Require Import Prelude GoTime GoText GoStrings GoStrconv Pg OpsModel Keyset AuditLog FilesModel FilesStore FilesCleanup ProcessingProofs FilesSettled LessonModel LessonFiles LessonProofs LessonTheorems QuestionModel Notifications QuestionStore QuestionService.
From stdpp Require Import base tactics list gmap strings sorting.
From Stdlib Require Import ZArith Lia.
Import Lessons Questions QuestionStore QuestionService.

Open Scope Z_scope.

Section Operations.
Context `{PgTime} `{UUIDText}.

(** ** Reading *)
Lemma dreads_wall {S E} : dreads (S := S) (E := E) wallNow.
Proof. by intros env n s st r [= <- <-]. Qed.
Lemma dreads_uuid {S E} : dreads (S := S) (E := E) newUUID.
Proof. by intros env n s st r [= <- <-]. Qed.
Lemma dreads_attempt {S E E' A} (m : DB S E A) : dreads m -> dreads (E := E') (attempt m).
Proof. intros Hm env n s st r. unfold attempt. destruct (m env (n, s)) as [st' r'] eqn:E1. intros [= <- _]. by eapply Hm. Qed.
Lemma dreads_byOk {A B} (r : result Error A) (k : A -> DB QADB Error B) : (forall a, dreads (k a)) -> dreads (byOk r k).
Proof. intros Hk. destruct r; [apply Hk|apply dreads_fail]. Qed.

#[local] Hint Resolve dreads_wall dreads_uuid dreads_attempt dreads_byOk : dreads.
Ltac reads_all := repeat reads_step.

Lemma studentAttachments_reads student message : dreads (listStudentMessageAttachments student message).
Proof. unfold listStudentMessageAttachments. reads_all. Qed.
Lemma adminAttachments_reads message : dreads (listAdminMessageAttachments message).
Proof. unfold listAdminMessageAttachments. reads_all. Qed.
#[local] Hint Resolve studentAttachments_reads adminAttachments_reads : dreads.

Lemma find_reads sender key : dreads (FindMessageByIdempotency sender key).
Proof. unfold FindMessageByIdempotency. reads_all. Qed.
Lemma findAdmin_reads sender key : dreads (FindAdminMessageByIdempotency sender key).
Proof. unfold FindAdminMessageByIdempotency. reads_all. Qed.
Lemma lockStudent_reads student thread : dreads (LockStudentThread student thread).
Proof. unfold LockStudentThread. reads_all. Qed.
Lemma lockAdmin_reads thread : dreads (LockAdminThread thread).
Proof. unfold LockAdminThread. reads_all. Qed.
Lemma activeAdmin_reads pick : dreads (ActiveAdminID pick).
Proof. unfold ActiveAdminID. reads_all. Qed.
Lemma validate_reads visit actor inputs : dreads (ValidateForMessage visit actor inputs).
Proof. unfold ValidateForMessage. reads_all. Qed.

(** ** What a success says *)
Lemma LockStudentThread_Ok student thread env n db st a :
  LockStudentThread student thread env (n, db) = (st, Ok a) ->
  snd st = db /\ exists q, threads db !! thread = Some q /\ a = scanThread thread q /\ t_student q = student /\
    activeStudent db student = true.
Proof.
  intros Hrun. split; [by eapply lockStudent_reads|]. unfold LockStudentThread in Hrun. db_go. bool_simpl.
  match goal with E : (_ =? _)%N = true |- _ => apply N.eqb_eq in E end. eexists. split_and!; [done..|]. congruence.
Qed.

Lemma LockAdminThread_Ok thread env n db st a :
  LockAdminThread thread env (n, db) = (st, Ok a) ->
  snd st = db /\ exists q, threads db !! thread = Some q /\ a = scanThread thread q /\ presentStudent db (t_student q) = true.
Proof.
  intros Hrun. split; [by eapply lockAdmin_reads|]. unfold LockAdminThread in Hrun. db_go. bool_simpl. by eexists.
Qed.

Lemma messageByKey_Some db sender key id m :
  messageByKey db sender key = Some (id, m) -> messages db !! id = Some m /\ m_sender m = sender /\ m_key m = key.
Proof.
  intros Hf. apply find_some in Hf as [Hin Hc]. apply andb_true_iff in Hc as [E1%N.eqb_eq E2%bool_decide_eq_true_1].
  apply list_elem_of_In, elem_of_map_to_list in Hin. done.
Qed.

Lemma messageByKey_None db sender key :
  messageByKey db sender key = None -> forall id m, messages db !! id = Some m -> m_sender m = sender -> m_key m <> key.
Proof.
  intros Hf id m Hm <- <-. assert (Hin : In (id, m) (map_to_list (messages db))) by (by apply list_elem_of_In, elem_of_map_to_list).
  apply (find_none _ _ Hf) in Hin. by rewrite N.eqb_refl, bool_decide_eq_true_2 in Hin.
Qed.

Lemma find_Ok sender key env n db st t m :
  FindMessageByIdempotency sender key env (n, db) = (st, Ok (t, m)) ->
  exists id r q l, messageByKey db sender key = Some (id, r) /\ threads db !! m_thread r = Some q /\
    t = scanThread (m_thread r) q /\ m = withAttachments l (scanMessage id r).
Proof.
  unfold FindMessageByIdempotency, listStudentMessageAttachments. intros Hrun. db_go.
  by eexists _, _, _, _.
Qed.

Lemma findAdmin_Ok sender key env n db st t m :
  FindAdminMessageByIdempotency sender key env (n, db) = (st, Ok (t, m)) ->
  exists id r q l, messageByKey db sender key = Some (id, r) /\ threads db !! m_thread r = Some q /\
    t = scanThread (m_thread r) q /\ m = withAttachments l (scanMessage id r).
Proof.
  unfold FindAdminMessageByIdempotency, listAdminMessageAttachments. intros Hrun. db_go.
  by eexists _, _, _, _.
Qed.

(** Without failures a key that was used is found. *)
Lemma find_quiet sender key env n db id r q :
  quiet env -> messageByKey db sender key = Some (id, r) -> threads db !! m_thread r = Some q -> t_student q = sender ->
  activeStudent db sender = true ->
  exists n1 l, FindMessageByIdempotency sender key env (n, db) = ((n1, db), Ok (scanThread (m_thread r) q, withAttachments l (scanMessage id r))).
Proof.
  intros Hq Hk Ht Ho Ha. unfold FindMessageByIdempotency, listStudentMessageAttachments.
  rewrite call_run, dget_run, Hk, Ht, Ho, Ha, N.eqb_refl by apply Hq. cbn [andb negb].
  eexists _, _. erewrite dbind_run; [reflexivity|]. rewrite call_run, dget_run by apply Hq. reflexivity.
Qed.

Lemma findAdmin_quiet sender key env n db id r q :
  quiet env -> messageByKey db sender key = Some (id, r) -> threads db !! m_thread r = Some q -> m_role r = RoleAdmin ->
  m_kind r = MessageKindAdminReply -> activeAdmin db sender = true ->
  exists n1 l, FindAdminMessageByIdempotency sender key env (n, db) = ((n1, db), Ok (scanThread (m_thread r) q, withAttachments l (scanMessage id r))).
Proof.
  intros Hq Hk Ht Hr Hkd Ha. unfold FindAdminMessageByIdempotency, listAdminMessageAttachments.
  rewrite call_run, dget_run, Hk, Ht, Ha, Hr, Hkd by apply Hq. rewrite !bool_decide_eq_true_2 by done. cbn [andb negb].
  eexists _, _. erewrite dbind_run; [reflexivity|]. rewrite call_run, dget_run by apply Hq. reflexivity.
Qed.

Lemma hasInitial_spec db thread :
  hasInitial db thread = true <-> exists id m, messages db !! id = Some m /\ m_thread m = thread /\ m_kind m = MessageKindInitial.
Proof.
  unfold hasInitial. rewrite existsb_exists. split.
  - intros ([id m] & Hin & Hc). apply andb_true_iff in Hc as [E1%N.eqb_eq E2%bool_decide_eq_true_1].
    apply list_elem_of_In, elem_of_map_to_list in Hin. by exists id, m.
  - intros (id & m & Hm & E1 & E2). exists (id, m). split; [by apply list_elem_of_In, elem_of_map_to_list|].
    by rewrite E1, E2, N.eqb_refl, bool_decide_eq_true_2.
Qed.

(** What the server accepts as a new message. *)
Record accepted (db : QADB) (id : UUID) (m : MessageRow) : Prop := {
  acc_id : messages db !! id = None;
  acc_sender : senderAllowed db m = true;
  acc_check : messageCheck m = true;
  acc_key : messageByKey db (m_sender m) (m_key m) = None;
  acc_initial : m_kind m = MessageKindInitial -> hasInitial db (m_thread m) = false;
  acc_thread : is_Some (threads db !! m_thread m)
}.

Lemma insertMessage_Ok m env n db st a :
  insertMessage m env (n, db) = (st, Ok a) ->
  exists id, accepted db id m /\ a = scanMessage id m /\ snd st = setMessages (<[id := m]> (messages db)) db.
Proof.
  unfold insertMessage, raise. intros Hrun. db_go. bool_simpl.
  unfold messageTaken in *. bool_simpl. exists (uuids env n). split; [|by split].
  split; try done.
  - by apply eq_None_not_Some.
  - by apply eq_None_not_Some.
  - intros Hk. by rewrite bool_decide_eq_true_2 in * by done.
Qed.

Lemma updateThread_Ok id row env n db st a :
  updateThread id row env (n, db) = (st, Ok a) ->
  threadCheck row = true /\ inInt64 (t_version row) = true /\ a = scanThread id row /\ snd st = setThreads (<[id := row]> (threads db)) db.
Proof. unfold updateThread, raise. intros Hrun. db_go. bool_simpl. done. Qed.

Lemma CreateThread_Ok student i now env n db st t m c :
  CreateThreadWithFirstMessage student i now env (n, db) = (st, Ok (t, m, c)) ->
  (c = false /\ snd st = db /\ exists n1 st1, FindMessageByIdempotency student (NewKey i) env (n1, db) = (st1, Ok (t, m))) \/
  (c = true /\ exists tid mid,
     let q := MkThreadRow student (NewTitle i) StatusPending 1 (pg now) (pg now) (pg now) None in
     let row := MkMessageRow tid student RoleStudent MessageKindInitial (NewBody i) (NewKey i) (pg now) in
     let db1 := setThreads (<[tid := q]> (threads db)) db in
     threads db !! tid = None /\ threadCheck q = true /\ activeStudent db student = true /\ accepted db1 mid row /\
     t = scanThread tid q /\ m = scanMessage mid row /\ snd st = setMessages (<[mid := row]> (messages db)) db1).
Proof.
  unfold CreateThreadWithFirstMessage, raise, attempt. intros Hrun. apply dbind_Ok in Hrun as ([n1 s1] & u & Hrun1 & Hrun).
  apply roundtrip_Ok in Hrun1 as [[= -> ->] _]. unfold dbind at 1 in Hrun.
  destruct (FindMessageByIdempotency student (NewKey i) env (S n, db)) as [[n2 s2] found] eqn:Hf.
  pose proof (find_reads _ _ _ _ _ _ _ Hf) as E. cbn in E. subst s2.
  destruct found as [[t0 m0]|[]]; [left|try discriminate..]; db_go.
  - split_and!; [done..|]. by eexists _, _.
  - right. split; [done|]. bool_simpl.
    match goal with Hi : insertMessage _ _ _ = _ |- _ => apply insertMessage_Ok in Hi as (mid & Hacc & -> & Hst) end.
    exists (uuids env n2), mid. split_and!; try done. by apply eq_None_not_Some.
Qed.

Lemma AppendStudent_Ok thread student i next now env n db st t m :
  AppendStudentMessage thread student i next now env (n, db) = (st, Ok (t, m)) ->
  exists mid q, let row := MkMessageRow (ThreadID thread) student RoleStudent MessageKindStudentFollowUp (AddBody i) (AddKey i) (pg now) in
    let q' := movedThread q next (pg now) now (completedIf next now) in
    threads db !! ThreadID thread = Some q /\ t_version q = Version thread /\ accepted db mid row /\ threadCheck q' = true /\
    inInt64 (t_version q') = true /\ t = scanThread (ThreadID thread) q' /\ m = scanMessage mid row /\
    snd st = setThreads (<[ThreadID thread := q']> (threads db)) (setMessages (<[mid := row]> (messages db)) db).
Proof.
  unfold AppendStudentMessage. intros Hrun. apply dbind_Ok in Hrun as ([n1 s1] & a & Hi & Hrun).
  apply insertMessage_Ok in Hi as (mid & Hacc & -> & Hst). cbn in Hst. subst s1. db_go.
  match goal with Hu : updateThread _ _ _ _ = _ |- _ => apply updateThread_Ok in Hu as (Hck & Hv & -> & Hst) end.
  bool_simpl. eexists mid, _. split_and!; done.
Qed.

Lemma AppendAdmin_Ok thread admin i next now env n db st t m :
  AppendAdminMessage thread admin i next now env (n, db) = (st, Ok (t, m)) ->
  exists mid q, let row := MkMessageRow (ThreadID thread) admin RoleAdmin MessageKindAdminReply (AddBody i) (AddKey i) (pg now) in
    let q' := movedThread q next (pg now) now None in
    threads db !! ThreadID thread = Some q /\ t_version q = Version thread /\ accepted db mid row /\ threadCheck q' = true /\
    inInt64 (t_version q') = true /\ t = scanThread (ThreadID thread) q' /\ m = scanMessage mid row /\
    snd st = setThreads (<[ThreadID thread := q']> (threads db)) (setMessages (<[mid := row]> (messages db)) db).
Proof.
  unfold AppendAdminMessage. intros Hrun. rewrite dget_run in Hrun. destruct (negb _); [done|].
  apply dbind_Ok in Hrun as ([n1 s1] & a & Hi & Hrun).
  apply insertMessage_Ok in Hi as (mid & Hacc & -> & Hst). cbn in Hst. subst s1. db_go.
  match goal with Hu : updateThread _ _ _ _ = _ |- _ => apply updateThread_Ok in Hu as (Hck & Hv & -> & Hst) end.
  bool_simpl. eexists mid, _. split_and!; done.
Qed.

Lemma UpdateStatus_Ok thread next now env n db st t :
  UpdateAdminThreadStatus thread next now env (n, db) = (st, Ok t) ->
  exists q, let q' := movedThread q next (t_last q) now (completedIf next now) in
    threads db !! ThreadID thread = Some q /\ t_version q = Version thread /\ threadCheck q' = true /\
    inInt64 (t_version q') = true /\ t = scanThread (ThreadID thread) q' /\
    snd st = setThreads (<[ThreadID thread := q']> (threads db)) db.
Proof.
  unfold UpdateAdminThreadStatus. intros Hrun. db_go.
  match goal with Hu : updateThread _ _ _ _ = _ |- _ => apply updateThread_Ok in Hu as (Hck & Hv & -> & Hst) end.
  bool_simpl. eexists. split_and!; done.
Qed.

Lemma InsertNote_Ok thread admin body now env n db st a :
  InsertTeacherNote thread admin body now env (n, db) = (st, Ok a) ->
  exists id, notes db !! id = None /\ is_Some (threads db !! thread) /\ activeAdmin db admin = true /\
    snd st = setNotes (<[id := MkNoteRow thread admin body (pg now)]> (notes db)) db.
Proof.
  unfold InsertTeacherNote, raise. intros Hrun. db_go. bool_simpl. exists (uuids env n). split_and!; try done.
  by apply eq_None_not_Some.
Qed.

(** ** Attachments *)

(** What may be attached: a ready version for questions that the actor uploaded. *)
Definition attachable (db : QADB) (owner version : UUID) : Prop :=
  attachedBy db owner version = true /\
  exists v, versions (fileDB db) !! version = Some v /\ v_cleanup v <> Some "deleting"%string /\ v_purged v = None.

Lemma lockedAttachment_Some db version a :
  lockedAttachment db version = Some a ->
  versions db !! version = Some (LockedRow a) /\ LockedPreview a = Bindings.previewReady db version /\
  exists f, files db !! v_file (LockedRow a) = Some f /\ file_deletedAt f = None /\ file_createdBy f = LockedOwner a.
Proof.
  unfold lockedAttachment. destruct (versions db !! version) as [v|]; [|done].
  destruct (files db !! v_file v) as [f|] eqn:Ef; [|done]. destruct (open_ _) eqn:Eo; [|done]. intros [= <-]. cbn.
  split_and!; [done..|]. exists f. by apply bool_decide_eq_true_1 in Eo.
Qed.

Lemma acceptAttachment_Ok db actor a i images total att images' total' :
  lockedAttachment (fileDB db) (InVersion i) = Some a ->
  acceptAttachment actor a i images total = Ok (att, images', total') ->
  AttVersion att = InVersion i /\ AttPosition att = InPosition i /\ attachable db actor (InVersion i) /\
  AttName att = TrimSpace (v_name (LockedRow a)) /\ validQAAttachmentName (AttName att) = true.
Proof.
  intros Hl Hacc. unfold acceptAttachment in Hacc. cbv zeta in Hacc.
  repeat (case_match; try discriminate Hacc; []). injection Hacc as <- <- <-. cbn.
  apply lockedAttachment_Some in Hl as (Hv & _ & f & Hf & Hd & Ho). bool_simpl.
  match goal with E : (LockedOwner a =? actor)%N = true |- _ => apply N.eqb_eq in E end.
  split_and!; try done. split.
  - unfold attachedBy. rewrite Hv, Hf, Hd. rewrite !bool_decide_eq_true_2 by done.
    unfold open_. rewrite bool_decide_eq_true_2 by done. cbn. apply N.eqb_eq. congruence.
  - exists (LockedRow a). split_and!; [done|done|]. by apply eq_None_not_Some.
Qed.

(** Only the versions asked for come back, each acceptable. *)
Lemma acceptAttachments_Ok db actor images total inputs out :
  acceptAttachments actor (fileDB db) images total inputs = Ok out ->
  (fun a => (AttVersion a, AttPosition a)) <$> out = (fun i => (InVersion i, InPosition i)) <$> inputs /\
  Forall (fun a => attachable db actor (AttVersion a)) out.
Proof.
  revert images total out. induction inputs as [|i inputs IH]; intros images total out; cbn [acceptAttachments]; [by intros [= <-]|].
  destruct (lockedAttachment _ _) as [a|] eqn:El; [|done].
  destruct (acceptAttachment _ _ _ _ _) as [[[att im] tot]|] eqn:Ea; [|done].
  destruct (acceptAttachments _ _ _ _ inputs) as [l|] eqn:Er; [|done]. intros [= <-].
  apply IH in Er as [Er1 Er2]. apply (acceptAttachment_Ok db) in Ea as (E1 & E2 & E3 & _); [|done].
  cbn. rewrite E1, E2, Er1. split; [done|]. constructor; [by rewrite E1|done].
Qed.

Lemma freshAttachments_NoDup fs ps l :
  freshAttachments fs ps l = true -> NoDup (InVersion <$> l) /\ NoDup (InPosition <$> l) /\
  (forall i, i ∈ l -> InVersion i ∉ fs /\ InPosition i ∉ ps /\ InVersion i <> NilUUID /\ 0 <= InPosition i <= 19).
Proof.
  revert fs ps. induction l as [|a l IH]; intros fs ps; cbn [freshAttachments]; intros Hf.
  { split_and!; [constructor..|]. intros i Hi. by apply elem_of_nil in Hi. }
  apply andb_true_iff in Hf as [Hf Hrest]. bool_simpl. apply IH in Hrest as (N1 & N2 & Hall).
  assert (Hfresh : forall i, i ∈ l -> InVersion i <> InVersion a /\ InPosition i <> InPosition a).
  { intros i Hi. destruct (Hall i Hi) as (F1 & F2 & _). split; intros E; [apply F1|apply F2]; rewrite E; left. }
  cbn. split_and!.
  - constructor; [|done]. intros Hin. apply list_elem_of_fmap in Hin as (i & E & Hi). destruct (Hfresh i Hi). congruence.
  - constructor; [|done]. intros Hin. apply list_elem_of_fmap in Hin as (i & E & Hi). destruct (Hfresh i Hi). congruence.
  - intros i Hi. apply elem_of_cons in Hi as [->|Hi].
    + split_and!; try done; try lia. intros E. rewrite E in *. done.
    + destruct (Hall i Hi) as (F1 & F2 & F3). rewrite elem_of_cons in F1. rewrite elem_of_cons in F2. tauto.
Qed.

Definition inputPair (i : AttachmentInput) : UUID * Z := (InVersion i, InPosition i).
Definition attPair (a : Attachment) : UUID * Z := (AttVersion a, AttPosition a).

(** What [ValidateForMessage] gives back. *)
Record validated (db : QADB) (actor : UUID) (inputs : list AttachmentInput) (out : list Attachment) : Prop := {
  va_pairs : attPair <$> out ≡ₚ inputPair <$> inputs;
  va_files : NoDup (AttVersion <$> out);
  va_positions : NoDup (AttPosition <$> out);
  va_range : Forall (fun a => 0 <= AttPosition a <= 19) out;
  va_attachable : Forall (fun a => attachable db actor (AttVersion a)) out;
  va_free : Forall (fun a => AttVersion a ∉ qaRefs (fileDB db)) out
}.

Lemma anyIn_elem ids refs id : Cleanup.anyIn ids refs = false -> id ∈ ids -> id ∉ refs.
Proof.
  unfold Cleanup.anyIn. intros Ha Hid Hin. assert (existsb (fun id => bool_decide (id ∈ refs)) ids = true); [|congruence].
  apply existsb_exists. exists id. split; [by apply list_elem_of_In|by apply bool_decide_eq_true_2].
Qed.

Lemma fmap_pairs out inputs :
  attPair <$> out ≡ₚ inputPair <$> inputs ->
  AttVersion <$> out ≡ₚ InVersion <$> inputs /\ AttPosition <$> out ≡ₚ InPosition <$> inputs.
Proof.
  intros Hp. split.
  - pose proof (fmap_Permutation fst _ _ Hp) as E. by rewrite <- !list_fmap_compose in E.
  - pose proof (fmap_Permutation snd _ _ Hp) as E. by rewrite <- !list_fmap_compose in E.
Qed.

Lemma validated_intro db actor inputs l out :
  freshAttachments [] [] inputs = true -> Cleanup.anyIn (InVersion <$> inputs) (qaRefs (fileDB db)) = false ->
  attPair <$> l ≡ₚ inputPair <$> inputs -> Forall (fun a => attachable db actor (AttVersion a)) l -> out ≡ₚ l ->
  validated db actor inputs out.
Proof.
  intros Hf Ha Hp Hl Ho. apply freshAttachments_NoDup in Hf as (N1 & N2 & Hall).
  assert (Hp' : attPair <$> out ≡ₚ inputPair <$> inputs) by (by rewrite Ho).
  destruct (fmap_pairs _ _ Hp') as [P1 P2]. split.
  - done.
  - by rewrite P1.
  - by rewrite P2.
  - apply Forall_forall. intros a Hin.
    assert (Hx : AttPosition a ∈ InPosition <$> inputs) by (rewrite <- P2; apply list_elem_of_fmap; by exists a).
    apply list_elem_of_fmap in Hx as (i & -> & Hi). by apply Hall.
  - by rewrite Ho.
  - apply Forall_forall. intros a Hin. eapply anyIn_elem; [exact Ha|]. rewrite <- P1. apply list_elem_of_fmap. by exists a.
Qed.

Lemma ValidateForMessage_Ok visit actor inputs env n db st out :
  (forall l, visit l ≡ₚ l) ->
  ValidateForMessage visit actor inputs env (n, db) = (st, Ok out) ->
  snd st = db /\ validated db (User_ID actor) inputs out.
Proof.
  intros Hvisit Hrun. split; [by eapply validate_reads|]. unfold ValidateForMessage in Hrun.
  destruct (bool_decide (inputs = [])) eqn:E0.
  { apply bool_decide_eq_true_1 in E0. apply dret_Ok in Hrun as [_ ->]. subst inputs. split; try done; constructor. }
  db_go. bool_simpl.
  match goal with Ha : acceptAttachments _ _ _ _ _ = Ok ?l |- _ => apply acceptAttachments_Ok in Ha as [Hp Hall]; apply (validated_intro _ _ _ l) end.
  - done.
  - done.
  - change (attPair <$> a2 = inputPair <$> visit inputs) in Hp. by rewrite Hp, Hvisit.
  - done.
  - unfold sortAttachments, orderBy. apply merge_sort_Permutation.
Qed.

(** ** Links *)
Record linksWf (ms : gmap N MessageRow) (ls : gmap (N * N) LinkRow) : Prop := {
  lk_check : forall m v k, ls !! (m, v) = Some k -> linkCheck k = true;
  lk_message : forall m v k, ls !! (m, v) = Some k -> is_Some (ms !! m);
  lk_file : forall m m' v k k', ls !! (m, v) = Some k -> ls !! (m', v) = Some k' -> m = m';
  lk_position : forall m v v' k k', ls !! (m, v) = Some k -> ls !! (m, v') = Some k' -> k_position k = k_position k' -> v = v'
}.

Definition linkRow (a : Attachment) : LinkRow := MkLinkRow (int16 (AttPosition a)) (AttName a).
Definition linksAfter (message : UUID) (atts : list Attachment) (ls : gmap (N * N) LinkRow) : gmap (N * N) LinkRow :=
  foldl (fun l a => <[(message, AttVersion a) := linkRow a]> l) ls atts.

Lemma linksWf_messages ms ms' ls : ms ⊆ ms' -> linksWf ms ls -> linksWf ms' ls.
Proof.
  intros Hsub [L1 L2 L3 L4]. split; try done. intros m v k Hk. destruct (L2 m v k Hk) as [r Hr]. exists r. by eapply lookup_weaken.
Qed.

Lemma setLinks_twice a b db : setLinks a (setLinks b db) = setLinks a db.
Proof. done. Qed.

Lemma insertLinks_Ok db message atts db' :
  insertLinks db message atts = Ok db' ->
  db' = setLinks (linksAfter message atts (links db)) db /\
  (linksWf (messages db) (links db) -> linksWf (messages db) (linksAfter message atts (links db))) /\
  Forall (fun a => is_Some (versions (fileDB db) !! AttVersion a)) atts.
Proof.
  revert db. induction atts as [|a atts IH]; intros db; cbn [insertLinks]; intros Hins.
  { injection Hins as <-. split_and!; [by destruct db|done|constructor]. }
  destruct (negb (storable _)); [done|]. destruct (negb (linkCheck _)) eqn:Ec; [done|].
  destruct (_ || _) eqn:Eu in Hins; [done|]. destruct (existsb _ _) eqn:Ef in Hins; [done|].
  destruct (_ || _) eqn:Ek in Hins; [done|]. apply IH in Hins as (-> & Hwf & Hall). rewrite setLinks_twice. bool_simpl.
  split_and!; [done| |by constructor].
  intros Hw. apply Hwf. cbn. destruct Hw as [L1 L2 L3 L4].
  assert (Hnof : forall m k, links db !! (m, AttVersion a) <> Some k).
  { intros m k Hk. assert (existsb (fun '((_, v), _) => (v =? AttVersion a)%N) (map_to_list (links db)) = true); [|congruence].
    apply existsb_exists. exists ((m, AttVersion a), k). split; [by apply list_elem_of_In, elem_of_map_to_list|by apply N.eqb_eq]. }
  assert (Hnop : forall v k, links db !! (message, v) = Some k -> k_position k <> int16 (AttPosition a)).
  { intros v k Hk E. assert (existsb (fun '((m, _), k0) => (m =? message)%N && (k_position k0 =? int16 (AttPosition a))) (map_to_list (links db)) = true); [|cbn [k_position] in *; congruence].
    apply existsb_exists. exists ((message, v), k). split; [by apply list_elem_of_In, elem_of_map_to_list|].
    by rewrite N.eqb_refl, E, Z.eqb_refl. }
  split.
  - intros m v k. rewrite lookup_insert_Some. intros [[_ <-]|[_ Hk]]; [done|by eapply L1].
  - intros m v k. rewrite lookup_insert_Some. intros [[[= <- <-] _]|[_ Hk]]; [done|by eapply L2].
  - intros m m' v k k'. rewrite !lookup_insert_Some. intros [[E _]|[_ Hk]] [[E' _]|[_ Hk']].
    + congruence.
    + injection E as <- <-. by destruct (Hnof m' k').
    + injection E' as <- <-. by destruct (Hnof m k).
    + by eapply L3.
  - intros m v v' k k'. rewrite !lookup_insert_Some. intros [[E <-]|[_ Hk]] [[E' <-]|[_ Hk']] Epos.
    + congruence.
    + injection E as <- <-. by destruct (Hnop v' k').
    + injection E' as <- <-. by destruct (Hnop v k).
    + by eapply L4.
Qed.

Lemma linksAfter_lookup message atts ls m v k :
  linksAfter message atts ls !! (m, v) = Some k -> ls !! (m, v) = Some k \/ (m = message /\ exists a, a ∈ atts /\ v = AttVersion a).
Proof.
  revert ls. induction atts as [|a atts IH]; intros ls; cbn [linksAfter foldl]; [by left|]. intros Hk.
  apply IH in Hk as [Hk|(-> & b & Hb & ->)].
  - apply lookup_insert_Some in Hk as [[[= <- <-] _]|[_ Hk]]; [right|by left]. split; [done|]. exists a. split; [left|done].
  - right. split; [done|]. exists b. split; [by right|done].
Qed.

Lemma Bind_Ok message atts env n db st u :
  BindMessageAttachments message atts env (n, db) = (st, Ok u) ->
  (atts = [] /\ snd st = db) \/
  (snd st = linked (setLinks (linksAfter message atts (links db)) db) /\
   (linksWf (messages db) (links db) -> linksWf (messages db) (linksAfter message atts (links db)))).
Proof.
  unfold BindMessageAttachments. destruct (bool_decide (atts = [])) eqn:E0; intros Hrun.
  - apply bool_decide_eq_true_1 in E0. left. by apply dret_Ok in Hrun as [-> _].
  - right. db_go. match goal with Hi : insertLinks _ _ _ = _ |- _ => apply insertLinks_Ok in Hi as (-> & Hw & _) end. done.
Qed.

End Operations.

(** * Questions: the changes the service makes

    A committed call of the service changes the tables in one of five ways ([change]):
    not at all, a new thread with its first message, a further message, a new status, a
    note; beside that it extends the audit log, keeps the references of the file tables in
    step with the attachments, and puts at most one notification into an inbox ([sides]). *)

Import Lessons Questions QuestionStore QuestionService.

Section Changes.
Context `{PgTime} `{UUIDText}.

(** ** Beside the tables of questions *)
Definition inboxGrows (db db' : QADB) : Prop :=
  inbox db' = inbox db \/
  exists id row, inbox db !! id = None /\ Notifications.delivered db (i_recipient row) (i_dedupe row) = false /\
    i_read row = None /\ Notifications.notificationCheck row = true /\ inbox db' = <[id := row]> (inbox db).

Record sides (db db' : QADB) : Prop := {
  s_outside : exists t refs, lessonDB db' = setBase (setQARefs refs (Audit.setAudit t (fileDB db))) (lessonDB db);
  s_refs : qaRefs (fileDB db) = linkedVersions db -> qaRefs (fileDB db') = linkedVersions db';
  s_inbox : inboxGrows db db'
}.

Lemma outside_refl db : exists t refs, lessonDB db = setBase (setQARefs refs (Audit.setAudit t (fileDB db))) (lessonDB db).
Proof. exists (filesAudit (fileDB db)), (qaRefs (fileDB db)). by destruct db as [[[]]]. Qed.

Lemma sides_refl db : sides db db.
Proof. split; [apply outside_refl|done|by left]. Qed.

Lemma writeAudit_Ok e env n db st u :
  writeAudit e env (n, db) = (st, Ok u) -> exists t, snd st = Audit.setAudit t db.
Proof.
  unfold writeAudit, Audit.Write. destruct (Audit.validateAndMarshal e); [|done].
  unfold dbind, databaseNow, dget, dput. destruct (fault env n); [done|]. intros [= <- _]. by eexists.
Qed.

Lemma notify_Ok i env n db st u :
  notify i env (n, db) = (st, Ok u) -> exists ib, snd st = setInbox ib db /\ inboxGrows db (setInbox ib db).
Proof.
  unfold notify, attempt. unfold dbind at 1. intros Hrun.
  destruct (Notifications.Notify i env (n, db)) as [[n1 s1] r] eqn:Hn. destruct r as [[]|]; [|done].
  apply dret_Ok in Hrun as [-> _]. unfold Notifications.Notify in Hn. db_go; cbn.
  - exists (inbox a1). split; [by destruct a1|by left].
  - eexists. split; [done|]. right. bool_simpl. eexists _, _. split_and!; [by apply eq_None_not_Some|..|done]; done.
Qed.

(** What attaching and recording make of the tables, once they have been changed. *)
Record attached (db : QADB) (owner : UUID) (db' : QADB) (message : UUID) (atts : list Attachment) : Prop := {
  at_links : links db' = linksAfter message atts (links db);
  at_wf : linksWf (messages db') (links db) -> linksWf (messages db') (links db');
  at_attachable : Forall (fun a => attachable db owner (AttVersion a)) atts
}.

Record finished (db1 db' : QADB) (message : UUID) (atts : list Attachment) : Prop := {
  f_threads : threads db' = threads db1; f_messages : messages db' = messages db1; f_notes : notes db' = notes db1;
  f_links : links db' = linksAfter message atts (links db1);
  f_wf : linksWf (messages db1) (links db1) -> linksWf (messages db1) (linksAfter message atts (links db1));
  f_inbox : inbox db' = inbox db1;
  f_sides : sides db1 db'
}.

Lemma finishing_Ok {A} message atts e (k : DB QADB Error A) env n db1 st r :
  (do _ <- BindMessageAttachments message atts; do _ <- writeAudit e; k)%db env (n, db1) = (st, Ok r) ->
  exists n1 db2, k env (n1, db2) = (st, Ok r) /\ finished db1 db2 message atts.
Proof.
  intros Hrun. apply dbind_Ok in Hrun as ([n2 s2] & u & Hb & Hrun).
  apply dbind_Ok in Hrun as ([n3 s3] & u2 & Hw & Hrun). exists n3, s3. split; [done|].
  apply writeAudit_Ok in Hw as [t Ht]. cbn [snd] in Ht. subst s3.
  apply Bind_Ok in Hb as [[-> Hs]|[Hs Hwf]]; cbn [snd] in Hs; subst s2.
  - split; try done. split; [|done|by left]. exists t, (qaRefs (fileDB db1)). by destruct db1 as [[[]]].
  - split; try done. split; [|done|by left]. eexists t, _. by destruct db1 as [[[]]].
Qed.

Lemma sides_notified db db1 ib : sides db db1 -> inbox db1 = inbox db -> inboxGrows db1 (setInbox ib db1) -> sides db (setInbox ib db1).
Proof.
  intros [O R _] E G. split; [done|done|]. unfold inboxGrows, Notifications.delivered in *. cbn in *. by rewrite <- E.
Qed.

(** ** The change *)
Definition posts (action : Action) (kind : MessageKind) : Prop :=
  action = ActionStudentFollowUp /\ kind = MessageKindStudentFollowUp \/ action = ActionAdminReply /\ kind = MessageKindAdminReply.

Inductive change (db db' : QADB) : Prop :=
| ChangeNone :
    threads db' = threads db -> messages db' = messages db -> links db' = links db -> notes db' = notes db -> change db db'
| ChangeCreate tid mid student title body key at_ atts :
    let q := MkThreadRow student title StatusPending 1 (pg at_) (pg at_) (pg at_) None in
    let m := MkMessageRow tid student RoleStudent MessageKindInitial body key (pg at_) in
    threads db !! tid = None -> threadCheck q = true ->
    accepted (setThreads (<[tid := q]> (threads db)) db) mid m ->
    threads db' = <[tid := q]> (threads db) -> messages db' = <[mid := m]> (messages db) ->
    attached db student db' mid atts -> notes db' = notes db -> change db db'
| ChangePost mid m q next action at_ completed atts :
    let q' := movedThread q next (pg at_) at_ completed in
    threads db !! m_thread m = Some q -> NextStatus (t_status q) action (m_role m) = Ok next -> posts action (m_kind m) ->
    m_created m = pg at_ -> ns (t_last q) + microsecond <= ns at_ -> accepted db mid m -> threadCheck q' = true ->
    inInt64 (t_version q') = true ->
    threads db' = <[m_thread m := q']> (threads db) -> messages db' = <[mid := m]> (messages db) ->
    attached db (m_sender m) db' mid atts -> notes db' = notes db -> change db db'
| ChangeMove tid q next action at_ :
    let q' := movedThread q next (t_last q) at_ (completedIf next at_) in
    threads db !! tid = Some q -> NextStatus (t_status q) action RoleAdmin = Ok next ->
    action ∈ [ActionClaim; ActionReopen; ActionComplete] -> threadCheck q' = true -> inInt64 (t_version q') = true ->
    threads db' = <[tid := q']> (threads db) -> messages db' = messages db -> links db' = links db -> notes db' = notes db ->
    change db db'
| ChangeNote nid thread admin body at_ :
    notes db !! nid = None -> is_Some (threads db !! thread) -> activeAdmin db admin = true ->
    threads db' = threads db -> messages db' = messages db -> links db' = links db ->
    notes db' = <[nid := MkNoteRow thread admin body (pg at_)]> (notes db) -> change db db'.

Lemma change_refl db : change db db.
Proof. by apply ChangeNone. Qed.

Lemma monotonic_after now last : ns (UTC last) + microsecond <= ns (monotonicActivity now last).
Proof.
  unfold monotonicActivity, Before, addDuration, UTC. cbn. destruct (ns now <? _) eqn:E; cbn; bool_simpl; lia.
Qed.

(** *** The bodies *)
Definition changes (db db' : QADB) : Prop := change db db' /\ sides db db'.

Lemma changes_refl db : changes db db.
Proof. split; [apply change_refl|apply sides_refl]. Qed.

(** Reads at the start of a body. *)
Lemma bind_attempt_Ok {S E E' A B} (m : DB S E A) (k : result E A -> DB S E' B) env n s st b :
  dreads m -> dbind (attempt m) k env (n, s) = (st, Ok b) -> exists n1 r, m env (n, s) = ((n1, s), r) /\ k r env (n1, s) = (st, Ok b).
Proof.
  intros Hm. unfold dbind, attempt. destruct (m env (n, s)) as [[n1 s1] r] eqn:E1. pose proof (Hm _ _ _ _ _ E1) as E2. cbn in E2.
  subst s1. by exists n1, r.
Qed.

Lemma bind_reads_Ok {S E A B} (m : DB S E A) (k : A -> DB S E B) env n s st b :
  dreads m -> dbind m k env (n, s) = (st, Ok b) -> exists n1 a, m env (n, s) = ((n1, s), Ok a) /\ k a env (n1, s) = (st, Ok b).
Proof.
  intros Hm Hrun. apply dbind_Ok in Hrun as ([n1 s1] & a & H1 & H2). pose proof (Hm _ _ _ _ _ H1) as E0. cbn in E0. subst s1.
  by exists n1, a.
Qed.

(** Reading the administrator and notifying, at the end. *)
Lemma notified_Ok {A} i (a : A) env n db1 st r :
  (do _ <- notify i; dret a)%db env (n, db1) = (st, Ok r) ->
  r = a /\ exists ib, snd st = setInbox ib db1 /\ inboxGrows db1 (setInbox ib db1).
Proof.
  intros Hrun. apply dbind_Ok in Hrun as ([n1 s1] & u & Hn & Hrun). apply dret_Ok in Hrun as [-> ->]. split; [done|].
  by apply notify_Ok in Hn.
Qed.

Lemma finished_sides db db1 db2 message atts ib :
  finished db1 db2 message atts -> lessonDB db1 = lessonDB db -> links db1 = links db -> inbox db1 = inbox db ->
  inboxGrows db2 (setInbox ib db2) -> sides db (setInbox ib db2).
Proof.
  intros F El Ek Ei. destruct (f_sides _ _ _ _ F) as [O R _]. pose proof (f_inbox _ _ _ _ F) as Ef.
  unfold fileDB, linkedVersions in *. rewrite El, ?Ek in *. unfold inboxGrows, Notifications.delivered. cbn. intros G.
  split; [done|done|]. unfold inboxGrows, Notifications.delivered. cbn. by rewrite <- Ei, <- Ef.
Qed.

Context (pick : nat) (visit : list AttachmentInput -> list AttachmentInput) (Hvisit : forall l, visit l ≡ₚ l).

Lemma attached_intro db db1 db2 owner inputs message atts :
  finished db1 db2 message atts -> validated db owner inputs atts -> links db1 = links db ->
  messages db1 = messages db2 -> attached db owner db2 message atts.
Proof.
  intros F V Ek Em. split.
  - by rewrite (f_links _ _ _ _ F), Ek.
  - rewrite <- Em, (f_links _ _ _ _ F), <- Ek. apply (f_wf _ _ _ _ F).
  - apply (va_attachable _ _ _ _ V).
Qed.

(** A call that posts either finds the message that was sent with its key, or adds one. *)
Definition posted (sender : UUID) (key : string) (db db' : QADB) (message : Message) : Prop :=
  changes db db' /\
  (db' = db /\ (exists m, messageByKey db sender key = Some (MessageID message, m)) \/
   exists m, messageByKey db sender key = None /\ m_sender m = sender /\ m_key m = key /\
     messages db !! MessageID message = None /\ messages db' = <[MessageID message := m]> (messages db)).

Lemma posted_found sender key db id r q l :
  messageByKey db sender key = Some (id, r) -> threads db !! m_thread r = Some q -> posted sender key db db (withAttachments l (scanMessage id r)).
Proof. intros Hk _. split; [apply changes_refl|]. left. split; [done|]. by exists r. Qed.

Lemma posted_new sender key db db' mid m atts :
  changes db db' -> messages db !! mid = None -> messageByKey db sender key = None -> m_sender m = sender -> m_key m = key ->
  messages db' = <[mid := m]> (messages db) -> posted sender key db db' (withAttachments atts (scanMessage mid m)).
Proof. intros Hc Hid Hk Hs Hk' Em. split; [done|]. right. by exists m. Qed.

Lemma createBody_changes actor i env n db st r :
  createBody pick visit actor i env (n, db) = (st, Ok r) -> posted (User_ID actor) (NewKey i) db (snd st) (snd r).
Proof.
  unfold createBody. intros Hrun. apply bind_attempt_Ok in Hrun as (n1 & found & Hfind & Hrun); [|apply find_reads].
  destruct found as [[t0 m0]|[]]; try discriminate Hrun.
  { apply find_Ok in Hfind as (id & row & q & l & Hk & Hq & -> & ->). db_go. by eapply posted_found. }
  apply dbind_Ok in Hrun as ([n2 s2] & atts & Hv & Hrun). apply ValidateForMessage_Ok in Hv as [E Hval]; [|done].
  cbn in E. subst s2. apply bind_reads_Ok in Hrun as (n3 & now & _ & Hrun); [|apply dreads_wall].
  apply dbind_Ok in Hrun as ([n4 s4] & [[t m] c] & Hc & Hrun). apply CreateThread_Ok in Hc as [(-> & E & Hf)|(-> & tid & mid & Hc)].
  { cbn in E. subst s4. apply dret_Ok in Hrun as [-> ->]. destruct Hf as (n5 & st5 & Hf).
    apply find_Ok in Hf as (id & row & q & l & Hk & Hq & -> & ->). by eapply posted_found. }
  destruct Hc as (Hnew & Hck & _ & Hacc & -> & -> & E). cbn in E. subst s4. cbn [negb] in Hrun.
  apply finishing_Ok in Hrun as (n5 & db2 & Hrun & F).
  apply bind_reads_Ok in Hrun as (n6 & admin & _ & Hrun); [|apply activeAdmin_reads].
  apply notified_Ok in Hrun as (-> & ib & -> & Hg). eapply posted_new;
    [|exact (acc_id _ _ _ Hacc)|exact (acc_key _ _ _ Hacc)|done|done|exact (f_messages _ _ _ _ F)].
  split; [|by eapply finished_sides].
  pose proof (attached_intro _ _ _ _ _ _ _ F Hval eq_refl (eq_sym (f_messages _ _ _ _ F))) as [A1 A2 A3].
  eapply (ChangeCreate _ _ tid mid (User_ID actor) (NewTitle i) (NewBody i) (NewKey i) (UTC now) atts); try done.
  - exact (f_threads _ _ _ _ F).
  - exact (f_messages _ _ _ _ F).
  - exact (f_notes _ _ _ _ F).
Qed.

Lemma followUpBody_changes actor i env n db st r :
  followUpBody pick visit actor i env (n, db) = (st, Ok r) -> posted (User_ID actor) (AddKey i) db (snd st) (snd r).
Proof.
  unfold followUpBody. intros Hrun. apply dbind_Ok in Hrun as ([n0 s0] & t0 & Hl & Hrun).
  apply LockStudentThread_Ok in Hl as (E & q & Hq & -> & Ho & _). cbn in E. subst s0.
  apply bind_attempt_Ok in Hrun as (n1 & found & Hfind & Hrun); [|apply find_reads].
  destruct found as [[t1 m1]|[]]; try discriminate Hrun.
  { apply find_Ok in Hfind as (id & row & q1 & l & Hk & Hq1 & -> & ->). db_go. by eapply posted_found. }
  destruct (negb _) in Hrun; [done|]. cbn [byOk ThreadStatus scanThread] in Hrun.
  destruct (NextStatus _ _ _) as [next|] eqn:Hnext; [|done]. cbn [byOk] in Hrun.
  apply dbind_Ok in Hrun as ([n2 s2] & atts & Hv & Hrun). apply ValidateForMessage_Ok in Hv as [E Hval]; [|done].
  cbn in E. subst s2. apply bind_reads_Ok in Hrun as (n3 & now & _ & Hrun); [|apply dreads_wall].
  apply dbind_Ok in Hrun as ([n4 s4] & [t m] & Hc & Hrun).
  apply AppendStudent_Ok in Hc as (mid & q1 & Hq1 & _ & Hacc & Hck & Hint & -> & -> & E). cbn in E, Hq1. subst s4.
  assert (q1 = q) as -> by congruence. cbn [LastMessageAt ThreadID scanThread] in *.
  apply finishing_Ok in Hrun as (n5 & db2 & Hrun & F).
  apply bind_reads_Ok in Hrun as (n6 & admin & _ & Hrun); [|apply activeAdmin_reads].
  apply notified_Ok in Hrun as (-> & ib & -> & Hg). eapply posted_new;
    [|exact (acc_id _ _ _ Hacc)|exact (acc_key _ _ _ Hacc)|done|done|exact (f_messages _ _ _ _ F)].
  split; [|by eapply finished_sides].
  pose proof (attached_intro _ _ _ _ _ _ _ F Hval eq_refl (eq_sym (f_messages _ _ _ _ F))) as [A1 A2 A3].
  match type of Hacc with accepted _ _ ?m =>
    eapply (ChangePost _ _ mid m q next ActionStudentFollowUp (monotonicActivity (UTC now) (UTC (t_last q))) _ atts) end; cbn [m_thread m_role m_kind m_sender]; try done.
  - by left.
  - apply (monotonic_after (UTC now) (UTC (t_last q))).
  - exact (f_threads _ _ _ _ F).
  - exact (f_messages _ _ _ _ F).
  - exact (f_notes _ _ _ _ F).
Qed.

Lemma replyBody_changes actor i env n db st r :
  replyBody visit actor i env (n, db) = (st, Ok r) -> posted (User_ID actor) (AddKey i) db (snd st) (snd r).
Proof.
  unfold replyBody. intros Hrun. apply dbind_Ok in Hrun as ([n0 s0] & t0 & Hl & Hrun).
  apply LockAdminThread_Ok in Hl as (E & q & Hq & -> & _). cbn in E. subst s0.
  apply bind_attempt_Ok in Hrun as (n1 & found & Hfind & Hrun); [|apply findAdmin_reads].
  destruct found as [[t1 m1]|[]]; try discriminate Hrun.
  { apply findAdmin_Ok in Hfind as (id & row & q1 & l & Hk & Hq1 & -> & ->). db_go. by eapply posted_found. }
  destruct (negb _) in Hrun; [done|]. cbn [byOk ThreadStatus scanThread] in Hrun.
  destruct (NextStatus _ _ _) as [next|] eqn:Hnext; [|done]. cbn [byOk] in Hrun.
  apply dbind_Ok in Hrun as ([n2 s2] & atts & Hv & Hrun). apply ValidateForMessage_Ok in Hv as [E Hval]; [|done].
  cbn in E. subst s2. apply bind_reads_Ok in Hrun as (n3 & now & _ & Hrun); [|apply dreads_wall].
  apply dbind_Ok in Hrun as ([n4 s4] & [t m] & Hc & Hrun).
  apply AppendAdmin_Ok in Hc as (mid & q1 & Hq1 & _ & Hacc & Hck & Hint & -> & -> & E). cbn in E, Hq1. subst s4.
  assert (q1 = q) as -> by congruence. cbn [LastMessageAt ThreadID scanThread] in *.
  apply finishing_Ok in Hrun as (n5 & db2 & Hrun & F).
  apply notified_Ok in Hrun as (-> & ib & -> & Hg). eapply posted_new;
    [|exact (acc_id _ _ _ Hacc)|exact (acc_key _ _ _ Hacc)|done|done|exact (f_messages _ _ _ _ F)].
  split; [|by eapply finished_sides].
  pose proof (attached_intro _ _ _ _ _ _ _ F Hval eq_refl (eq_sym (f_messages _ _ _ _ F))) as [A1 A2 A3].
  match type of Hacc with accepted _ _ ?m =>
    eapply (ChangePost _ _ mid m q next ActionAdminReply (monotonicActivity (UTC now) (UTC (t_last q))) _ atts) end; cbn [m_thread m_role m_kind m_sender]; try done.
  - by right.
  - apply (monotonic_after (UTC now) (UTC (t_last q))).
  - exact (f_threads _ _ _ _ F).
  - exact (f_messages _ _ _ _ F).
  - exact (f_notes _ _ _ _ F).
Qed.

Lemma changeAction_moves to current action : changeAction to current = Some action -> action ∈ [ActionClaim; ActionReopen; ActionComplete].
Proof. unfold changeAction. repeat case_match; intros [= <-]; repeat constructor. Qed.

Lemma sides_audited db db1 t ib :
  sides db db1 -> inbox db1 = inbox db -> inboxGrows (Audit.setAudit t db1) (setInbox ib (Audit.setAudit t db1)) ->
  sides db (setInbox ib (Audit.setAudit t db1)).
Proof.
  intros S Ei G. apply sides_notified; [|done|done]. destruct S as [(t0 & refs & E) R _]. split; [|done|by left].
  exists t, refs. cbn. by rewrite E.
Qed.

Lemma changeBody_changes actor i env n db st r :
  changeBody actor i env (n, db) = (st, Ok r) -> changes db (snd st).
Proof.
  unfold changeBody. intros Hrun. apply dbind_Ok in Hrun as ([n0 s0] & t0 & Hl & Hrun).
  apply LockAdminThread_Ok in Hl as (E & q & Hq & -> & _). cbn in E. subst s0. destruct (negb _) in Hrun; [done|].
  destruct (changeAction _ _) as [action|] eqn:Ha; [|done]. apply changeAction_moves in Ha. cbn [ThreadStatus scanThread] in Hrun.
  destruct (NextStatus _ _ _) as [next|] eqn:Hnext; [|done]. cbn [byOk] in Hrun.
  apply bind_reads_Ok in Hrun as (n3 & now & _ & Hrun); [|apply dreads_wall].
  apply dbind_Ok in Hrun as ([n4 s4] & t & Hc & Hrun).
  apply UpdateStatus_Ok in Hc as (q1 & Hq1 & _ & Hck & Hint & -> & E). cbn in E, Hq1. subst s4. assert (q1 = q) as -> by congruence.
  apply dbind_Ok in Hrun as ([n5 s5] & u & Hw & Hrun). apply writeAudit_Ok in Hw as [t Ht]. cbn in Ht. subst s5.
  apply notified_Ok in Hrun as (_ & ib & -> & Hg). split.
  - by apply (ChangeMove _ _ (ChangeThread i) q next action (UTC now)).
  - refine (sides_audited db (setThreads _ db) t ib _ eq_refl Hg). split; [apply (outside_refl db)|done|by left].
Qed.

Lemma noteBody_changes actor i env n db st r :
  noteBody actor i env (n, db) = (st, Ok r) -> changes db (snd st).
Proof.
  unfold noteBody. intros Hrun. apply bind_reads_Ok in Hrun as (n0 & t0 & _ & Hrun); [|apply lockAdmin_reads].
  apply bind_reads_Ok in Hrun as (n3 & now & _ & Hrun); [|apply dreads_wall].
  apply dbind_Ok in Hrun as ([n4 s4] & note & Hc & Hrun). apply InsertNote_Ok in Hc as (id & Hid & Hth & Had & E). cbn in E. subst s4.
  apply dbind_Ok in Hrun as ([n5 s5] & u & Hw & Hrun). apply writeAudit_Ok in Hw as [t Ht]. cbn in Ht. subst s5.
  apply dret_Ok in Hrun as [-> _]. split.
  - by apply (ChangeNote _ _ id (NoteOf i) (User_ID actor) (NoteText i) (UTC now)).
  - split; [|done|by left]. exists t, (qaRefs (fileDB db)). by destruct db as [[[]]].
Qed.

End Changes.
