(* ===== verification/QuestionTheorems.v ===== *)
(** * Theorems on questions

    The reachable states of the tables of questions; what every later state keeps of the
    history; each message is posted once; attachments; replies that go through. *)

From S2P Require Import Prelude GoTime GoText GoStrings GoStrconv Pg OpsModel Keyset AuditLog FilesModel FilesStore FilesCleanup ProcessingProofs FilesSettled LessonModel LessonFiles LessonService LessonProofs LessonTheorems QuestionModel Notifications QuestionStore QuestionService QuestionProofs.
From stdpp Require Import base tactics list gmap strings sorting relations.
From Stdlib Require Import ZArith Lia.
Import Lessons Questions QuestionStore QuestionService.

Open Scope Z_scope.

Section Theorems.
Context `{PgTime} `{UUIDText} (norm lower : string -> string)
  (Parse : string -> option Lesson.ParsedURL) (print : string -> string -> Lesson.ParsedURL -> string).

(** ** Steps *)
Definition initQuestions (db : QADB) : Prop :=
  threads db = ∅ /\ messages db = ∅ /\ links db = ∅ /\ notes db = ∅ /\ inbox db = ∅ /\
  initLessons (lessonDB db) /\ qaRefs (fileDB db) = ∅.

(** One operation, in any environment: of the service of questions, of an inbox, or of
    the rest of the program, which does not write the tables of questions. *)
Inductive qaStep (db : QADB) : QADB -> Prop :=
| StepCreateThread env pick visit actor i :
    (forall l, visit l ≡ₚ l) -> qaStep db (exec (CreateThread pick visit actor i) env db)
| StepFollowUp env pick visit actor i :
    (forall l, visit l ≡ₚ l) -> qaStep db (exec (AddStudentMessage pick visit actor i) env db)
| StepReply env visit actor i :
    (forall l, visit l ≡ₚ l) -> qaStep db (exec (AddAdminMessage visit actor i) env db)
| StepChange env actor i : qaStep db (exec (ChangeStatus actor i) env db)
| StepNote env actor i : qaStep db (exec (AddTeacherNote actor i) env db)
| StepRead env recipient id : qaStep db (exec (Notifications.MarkRead recipient id) env db)
| StepReadAll env recipient : qaStep db (exec (Notifications.MarkAllRead recipient) env db)
| StepRest l :
    lessonStep norm lower Parse print (lessonDB db) l -> qaRefs (base l) = qaRefs (fileDB db) -> qaStep db (setLesson l db).

(** ** Every step of the service is a change *)
Lemma outcome_changes {A} (body : DB QADB Error A) env n db st r :
  (forall n1 st1 a, body env (n1, db) = (st1, Ok a) -> changes db (snd st1)) ->
  WithinTx body env (n, db) = (st, r) -> changes db (snd st).
Proof.
  intros Hb Hrun. apply transact_outcome in Hrun as [->|(n1 & a & Hrun)]; [apply changes_refl|]. exact (Hb _ _ _ Hrun).
Qed.

Lemma byOk_changes {A B} (r : result Error A) (k : A -> DB QADB Error B) env n db st b :
  (forall a, r = Ok a -> k a env (n, db) = (st, b) -> changes db (snd st)) ->
  byOk r k env (n, db) = (st, b) -> changes db (snd st).
Proof. intros Hk. destruct r; cbn [byOk]; [by apply Hk|]. intros [= <- _]. apply changes_refl. Qed.

Section Calls.
Context (pick : nat) (visit : list AttachmentInput -> list AttachmentInput) (Hvisit : forall l, visit l ≡ₚ l).

Lemma CreateThread_changes actor i env n db st r : CreateThread pick visit actor i env (n, db) = (st, r) -> changes db (snd st).
Proof.
  apply byOk_changes. intros _ _. apply byOk_changes. intros j _. apply outcome_changes. intros n1 st1 a Hb. apply (createBody_changes pick visit Hvisit) in Hb. apply Hb.
Qed.
Lemma AddStudentMessage_changes actor i env n db st r :
  AddStudentMessage pick visit actor i env (n, db) = (st, r) -> changes db (snd st).
Proof.
  apply byOk_changes. intros _ _. apply byOk_changes. intros j _. apply outcome_changes. intros n1 st1 a Hb. apply (followUpBody_changes pick visit Hvisit) in Hb. apply Hb.
Qed.
Lemma AddAdminMessage_changes actor i env n db st r : AddAdminMessage visit actor i env (n, db) = (st, r) -> changes db (snd st).
Proof.
  apply byOk_changes. intros _ _. apply byOk_changes. intros j _. apply outcome_changes. intros n1 st1 a Hb. apply (replyBody_changes visit Hvisit) in Hb. apply Hb.
Qed.
End Calls.

Lemma ChangeStatus_changes actor i env n db st r : ChangeStatus actor i env (n, db) = (st, r) -> changes db (snd st).
Proof.
  apply byOk_changes. intros _ _. case_match; [intros [= <- _]; apply changes_refl|]. apply outcome_changes.
  intros. by eapply changeBody_changes.
Qed.
Lemma AddTeacherNote_changes actor i env n db st r : AddTeacherNote actor i env (n, db) = (st, r) -> changes db (snd st).
Proof.
  apply byOk_changes. intros _ _. apply byOk_changes. intros j _. apply outcome_changes. intros. by eapply noteBody_changes.
Qed.

(** Everything but the inboxes. *)
Definition sameQuestions (db db' : QADB) : Prop :=
  lessonDB db' = lessonDB db /\ threads db' = threads db /\ messages db' = messages db /\ links db' = links db /\ notes db' = notes db.

Lemma reading_questions {A} (m : DB QADB NotifyError A) (b : bool) e env db :
  (forall n st r, m env (n, db) = (st, r) -> sameQuestions db (snd st)) -> sameQuestions db (exec (if b then dfail e else m) env db).
Proof.
  intros Hm. unfold exec. destruct b; [done|]. destruct (m env (0%nat, db)) as [st r] eqn:E. by eapply Hm.
Qed.

Lemma MarkRead_same recipient id env db : sameQuestions db (exec (Notifications.MarkRead recipient id) env db).
Proof.
  unfold Notifications.MarkRead. apply reading_questions. intros n st r. unfold Notifications.MarkRead_, dbind at 1.
  destruct (transact _ _ _ env (n, db)) as [[n1 s1] r1] eqn:Ht.
  assert (Hs : sameQuestions db s1).
  { apply transact_outcome in Ht as [E|(n2 & a & Hb)]; [cbn in E; by subst s1|]. unfold Notifications.markReadBody in Hb. db_go; cbn [snd] in *; by try subst s1. }
  assert (Hr : forall e (k : DB QADB NotifyError unit), dreads k -> dreads (do _ <- roundtrip e; k)%db).
  { intros e k Hk. apply dreads_bind; [apply dreads_call|done]. }
  destruct r1 as [[]|e]; [by intros [= <- _]| |by intros [= <- _]]. intros Hrun. apply Hr in Hrun.
  - cbn in Hrun. by rewrite Hrun.
  - apply dreads_bind; [apply dreads_get|]. intros s. repeat case_match; eauto with dreads.
Qed.

Lemma MarkAllRead_same recipient env db : sameQuestions db (exec (Notifications.MarkAllRead recipient) env db).
Proof.
  unfold Notifications.MarkAllRead. apply reading_questions. intros n st r Ht.
  apply transact_outcome in Ht as [->|(n2 & a & Hb)]; [done|]. unfold Notifications.markAllBody in Hb.
  destruct st as [k s1]. cbn [snd] in *. db_go; cbn [snd] in *; by try subst s1.
Qed.

(** Every step makes a change, or leaves the tables of questions to the others. *)
Lemma qaStep_changes db db' : qaStep db db' ->
  changes db db' \/ sameQuestions db db' \/
  exists l, lessonStep norm lower Parse print (lessonDB db) l /\ qaRefs (base l) = qaRefs (fileDB db) /\ db' = setLesson l db.
Proof.
  intros Hstep. destruct Hstep as [env pick visit actor i Hv|env pick visit actor i Hv|env visit actor i Hv|env actor i|env actor i|env r id|env r|l Hl Hr].
  1-5: left; unfold exec.
  - destruct (CreateThread _ _ _ _ env _) as [st x] eqn:E. by eapply CreateThread_changes.
  - destruct (AddStudentMessage _ _ _ _ env _) as [st x] eqn:E. by eapply AddStudentMessage_changes.
  - destruct (AddAdminMessage _ _ _ env _) as [st x] eqn:E. by eapply AddAdminMessage_changes.
  - destruct (ChangeStatus _ _ env _) as [st x] eqn:E. by eapply ChangeStatus_changes.
  - destruct (AddTeacherNote _ _ env _) as [st x] eqn:E. by eapply AddTeacherNote_changes.
  - right; left. apply MarkRead_same.
  - right; left. apply MarkAllRead_same.
  - right; right. by exists l.
Qed.

(** ** The invariant *)
Definition onGrid (t : Time) : Prop := exists k, ns t = k * microsecond.

Record threadWf (q : ThreadRow) : Prop := {
  tw_check : threadCheck q = true;
  tw_grid : onGrid (t_last q)
}.

(** A message belongs to a thread: its student's, or an administrator's reply, sent
    while the thread was open to it. *)
Definition belongs (db : QADB) (m : MessageRow) : Prop :=
  exists q, threads db !! m_thread m = Some q /\ (m_role m = RoleStudent -> m_sender m = t_student q) /\
    ns (t_created q) <= ns (m_created m) <= ns (t_last q).

Record qaWf (db : QADB) : Prop := {
  w_refs : qaRefs (fileDB db) = linkedVersions db;
  w_links : linksWf (messages db) (links db);
  w_thread : forall id q, threads db !! id = Some q -> threadWf q;
  w_check : forall id m, messages db !! id = Some m -> messageCheck m = true;
  w_belongs : forall id m, messages db !! id = Some m -> belongs db m;
  w_initial : forall id q, threads db !! id = Some q ->
    exists mid m, messages db !! mid = Some m /\ m_thread m = id /\ m_kind m = MessageKindInitial /\ m_created m = t_created q;
  w_single : forall i j m m', messages db !! i = Some m -> messages db !! j = Some m' ->
    m_thread m = m_thread m' -> m_kind m = MessageKindInitial -> m_kind m' = MessageKindInitial -> i = j;
  w_latest : forall id q, threads db !! id = Some q ->
    exists mid m, messages db !! mid = Some m /\ m_thread m = id /\ m_created m = t_last q;
  w_times : forall i j m m', messages db !! i = Some m -> messages db !! j = Some m' ->
    m_thread m = m_thread m' -> ns (m_created m) = ns (m_created m') -> i = j;
  w_keys : forall i j m m', messages db !! i = Some m -> messages db !! j = Some m' ->
    m_sender m = m_sender m' -> m_key m = m_key m' -> i = j
}.

Lemma qaWf_same db db' :
  threads db' = threads db -> messages db' = messages db -> links db' = links db ->
  qaRefs (fileDB db') = qaRefs (fileDB db) -> qaWf db -> qaWf db'.
Proof.
  intros Et Em El Er [W1 W2 W3 W4 W5 W6 W7 W8 W9 W10].
  split; unfold belongs, linkedVersions in *; rewrite ?Et, ?Em, ?El, ?Er in *; done.
Qed.

Lemma pg_grid t : onGrid (pg t).
Proof. apply stored_grid. Qed.

(** The next message is stored later than the last one. *)
Lemma pg_later last at_ : onGrid last -> ns last + microsecond <= ns at_ -> ns last < ns (pg at_).
Proof.
  intros [k Hk] Hle. cbn. assert (ns last + microsecond <= stored (ns at_)); [|unfold microsecond in *; lia].
  replace (ns last + microsecond) with (stored ((k + 1) * microsecond)) by (rewrite stored_exact; lia).
  apply stored_mono. lia.
Qed.

(** A message added to the table keeps it well formed if it is later than the others
    of its thread and its key is new. *)
Lemma messages_added db mid m (P : N -> N -> MessageRow -> MessageRow -> Prop) :
  (forall j m', messages db !! j = Some m' -> j <> mid -> P mid j m m') ->
  (forall j m', messages db !! j = Some m' -> j <> mid -> P j mid m' m) -> P mid mid m m ->
  (forall i j m1 m2, messages db !! i = Some m1 -> messages db !! j = Some m2 -> P i j m1 m2) ->
  forall i j m1 m2, <[mid := m]> (messages db) !! i = Some m1 -> <[mid := m]> (messages db) !! j = Some m2 -> P i j m1 m2.
Proof.
  intros H1 H2 H3 H4 i j m1 m2. rewrite !lookup_insert_Some.
  intros [[<- <-]|[Hi Hm1]] [[<- <-]|[Hj Hm2]]; [done|by apply H1|by apply H2|by apply H4].
Qed.

Lemma change_create_wf db db' tid mid student title body key at_ atts :
  let q := MkThreadRow student title StatusPending 1 (pg at_) (pg at_) (pg at_) None in
  let m := MkMessageRow tid student RoleStudent MessageKindInitial body key (pg at_) in
  threads db !! tid = None -> threadCheck q = true -> accepted (setThreads (<[tid := q]> (threads db)) db) mid m ->
  threads db' = <[tid := q]> (threads db) -> messages db' = <[mid := m]> (messages db) ->
  attached db student db' mid atts -> (qaRefs (fileDB db) = linkedVersions db -> qaRefs (fileDB db') = linkedVersions db') ->
  qaWf db -> qaWf db'.
Proof.
  intros q m Hnew Hck Hacc Et Em Hat Hrefs [W1 W2 W3 W4 W5 W6 W7 W8 W9 W10].
  assert (Hno : forall i m', messages db !! i = Some m' -> m_thread m' <> tid).
  { intros i m' Hm E. destruct (W5 i m' Hm) as (q0 & Hq & _). congruence. }
  assert (Hsub : messages db ⊆ messages db') by (rewrite Em; apply insert_subseteq, (acc_id _ _ _ Hacc)).
  split.
  - by apply Hrefs.
  - apply (at_wf _ _ _ _ _ Hat). by eapply linksWf_messages.
  - intros id q0. rewrite Et, lookup_insert_Some. intros [[_ <-]|[_ Hq]]; [|by eapply W3]. split; [done|apply pg_grid].
  - intros id m0. rewrite Em, lookup_insert_Some. intros [[_ <-]|[_ Hm]]; [apply (acc_check _ _ _ Hacc)|by eapply W4].
  - intros id m0. rewrite Em, lookup_insert_Some. unfold belongs. rewrite Et. intros [[_ <-]|[_ Hm]].
    + exists q. cbn. rewrite lookup_insert_eq. split_and!; try done; lia.
    + destruct (W5 id m0 Hm) as (q0 & Hq & Hb). exists q0. by rewrite lookup_insert_ne by (intros E; by eapply Hno in Hm).
  - intros id q0. rewrite Et, Em, lookup_insert_Some. intros [[<- <-]|[_ Hq]].
    + exists mid, m. by rewrite lookup_insert_eq.
    + destruct (W6 id q0 Hq) as (i & m0 & Hm & Hr). exists i, m0. by rewrite <- Em, (lookup_weaken _ _ _ _ Hm Hsub).
  - rewrite Em. apply (messages_added _ _ _ (fun i j m1 m2 => _ -> _ -> _ -> i = j)); try done.
    + intros j m' Hm _ E. by destruct (Hno j m' Hm).
    + intros j m' Hm _ E. by destruct (Hno j m' Hm).
  - intros id q0. rewrite Et, Em, lookup_insert_Some. intros [[<- <-]|[_ Hq]].
    + exists mid, m. by rewrite lookup_insert_eq.
    + destruct (W8 id q0 Hq) as (i & m0 & Hm & Hr). exists i, m0. by rewrite <- Em, (lookup_weaken _ _ _ _ Hm Hsub).
  - rewrite Em. apply (messages_added _ _ _ (fun i j m1 m2 => _ -> _ -> i = j)); try done.
    + intros j m' Hm _ E. by destruct (Hno j m' Hm).
    + intros j m' Hm _ E. by destruct (Hno j m' Hm).
  - pose proof (messageByKey_None _ _ _ (acc_key _ _ _ Hacc)) as Hk. cbn in Hk.
    rewrite Em. apply (messages_added _ _ _ (fun i j m1 m2 => _ -> _ -> i = j)); try done.
    + intros j m' Hm _ E1 E2. by destruct (Hk j m' Hm).
    + intros j m' Hm _ E1 E2. by destruct (Hk j m' Hm).
Qed.

(** A thread that is moved keeps its owner, its messages and its beginning. *)
Lemma belongs_moved db db' tid q next last_ now completed m :
  threads db !! tid = Some q -> threads db' = <[tid := movedThread q next last_ now completed]> (threads db) ->
  ns (t_last q) <= ns last_ -> belongs db m -> belongs db' m.
Proof.
  intros Hq Et Hle (q0 & Hq0 & Ho & Hb). unfold belongs. rewrite Et. destruct (decide (m_thread m = tid)) as [E|E].
  - exists (movedThread q next last_ now completed). rewrite E, lookup_insert_eq. assert (q0 = q) as -> by congruence.
    cbn. split_and!; [done|done|lia..].
  - exists q0. by rewrite lookup_insert_ne.
Qed.

Lemma change_post_wf db db' mid m q next action at_ completed atts :
  let q' := movedThread q next (pg at_) at_ completed in
  threads db !! m_thread m = Some q -> posts action (m_kind m) -> m_created m = pg at_ -> ns (t_last q) + microsecond <= ns at_ ->
  accepted db mid m -> threadCheck q' = true ->
  threads db' = <[m_thread m := q']> (threads db) -> messages db' = <[mid := m]> (messages db) ->
  attached db (m_sender m) db' mid atts -> (qaRefs (fileDB db) = linkedVersions db -> qaRefs (fileDB db') = linkedVersions db') ->
  qaWf db -> qaWf db'.
Proof.
  intros q' Hq Hpost Hcr Hat_ Hacc Hck Et Em Hat Hrefs [W1 W2 W3 W4 W5 W6 W7 W8 W9 W10].
  assert (Hlater : ns (t_last q) < ns (pg at_)) by (apply pg_later; [by eapply tw_grid, W3|done]).
  assert (Hbefore : forall i m', messages db !! i = Some m' -> m_thread m' = m_thread m -> ns (m_created m') < ns (m_created m)).
  { intros i m' Hm E. destruct (W5 i m' Hm) as (q0 & Hq0 & _ & Hb). rewrite Hcr. rewrite E in Hq0. simplify_eq. lia. }
  assert (Hsub : messages db ⊆ messages db') by (rewrite Em; apply insert_subseteq, (acc_id _ _ _ Hacc)).
  assert (Hkind : m_kind m <> MessageKindInitial) by (intros E; destruct Hpost as [[_ E']|[_ E']]; congruence).
  split.
  - by apply Hrefs.
  - apply (at_wf _ _ _ _ _ Hat). by eapply linksWf_messages.
  - intros id q0. rewrite Et, lookup_insert_Some. intros [[_ <-]|[_ Hq0]]; [|by eapply W3]. split; [done|apply pg_grid].
  - intros id m0. rewrite Em, lookup_insert_Some. intros [[_ <-]|[_ Hm]]; [apply (acc_check _ _ _ Hacc)|by eapply W4].
  - intros id m0. rewrite Em, lookup_insert_Some. intros [[_ <-]|[_ Hm]].
    + exists q'. rewrite Et, lookup_insert_eq. split_and!; [done|..].
      * intros Hr. pose proof (acc_sender _ _ _ Hacc) as Hs. unfold senderAllowed in Hs. rewrite Hr, Hq in Hs.
        by apply andb_true_iff in Hs as [Hs%N.eqb_eq _].
      * destruct (W8 _ _ Hq) as (i & m1 & Hm1 & E1 & E2). destruct (W5 i m1 Hm1) as (q1 & Hq1 & _ & Hb).
        rewrite Hcr. rewrite E1 in Hq1. simplify_eq. cbn in *. lia.
      * rewrite Hcr. cbn. lia.
    + apply (belongs_moved db _ _ _ _ _ _ _ _ Hq Et); [lia|by eapply W5].
  - intros id q0. rewrite Et, Em, lookup_insert_Some. intros [[<- <-]|[_ Hq0]]; [destruct (W6 _ _ Hq) as (i & m0 & Hm & Hr)|destruct (W6 id q0 Hq0) as (i & m0 & Hm & Hr)];
      exists i, m0; by rewrite <- Em, (lookup_weaken _ _ _ _ Hm Hsub).
  - rewrite Em. by apply (messages_added _ _ _ (fun i j m1 m2 => _ -> _ -> _ -> i = j)).
  - intros id q0. rewrite Et, Em, lookup_insert_Some. intros [[<- <-]|[_ Hq0]].
    + exists mid, m. by rewrite lookup_insert_eq.
    + destruct (W8 id q0 Hq0) as (i & m0 & Hm & Hr). exists i, m0. by rewrite <- Em, (lookup_weaken _ _ _ _ Hm Hsub).
  - rewrite Em. apply (messages_added _ _ _ (fun i j m1 m2 => _ -> _ -> i = j)); try done.
    + intros j m' Hm _ E E2. pose proof (Hbefore j m' Hm (eq_sym E)). lia.
    + intros j m' Hm _ E E2. pose proof (Hbefore j m' Hm E). lia.
  - pose proof (messageByKey_None _ _ _ (acc_key _ _ _ Hacc)) as Hk.
    rewrite Em. apply (messages_added _ _ _ (fun i j m1 m2 => _ -> _ -> i = j)); try done.
    + intros j m' Hm _ E1 E2. by destruct (Hk j m' Hm).
    + intros j m' Hm _ E1 E2. by destruct (Hk j m' Hm).
Qed.

Lemma change_move_wf db db' tid q next at_ :
  let q' := movedThread q next (t_last q) at_ (completedIf next at_) in
  threads db !! tid = Some q -> threadCheck q' = true -> threads db' = <[tid := q']> (threads db) ->
  messages db' = messages db -> links db' = links db -> (qaRefs (fileDB db) = linkedVersions db -> qaRefs (fileDB db') = linkedVersions db') ->
  qaWf db -> qaWf db'.
Proof.
  intros q' Hq Hck Et Em El Hrefs [W1 W2 W3 W4 W5 W6 W7 W8 W9 W10].
  split; rewrite ?Em, ?El; try done; [by apply Hrefs|..].
  - intros id q0. rewrite Et, lookup_insert_Some. intros [[_ <-]|[_ Hq0]]; [|by eapply W3]. split; [done|].
    by eapply (tw_grid q), W3.
  - intros id m Hm. apply (belongs_moved db _ _ _ _ _ _ _ _ Hq Et); [lia|by eapply W5].
  - intros id q0. rewrite Et, lookup_insert_Some. intros [[<- <-]|[_ Hq0]]; [exact (W6 _ _ Hq)|by apply W6].
  - intros id q0. rewrite Et, lookup_insert_Some. intros [[<- <-]|[_ Hq0]]; [exact (W8 _ _ Hq)|by apply W8].
Qed.

Lemma changes_wf db db' : changes db db' -> qaWf db -> qaWf db'.
Proof.
  intros [Hc [_ Hrefs _]] Hw. destruct Hc.
  - apply (qaWf_same db); try done. rewrite (Hrefs (w_refs _ Hw)), (w_refs _ Hw). unfold linkedVersions.
    by match goal with E : links db' = links db |- _ => rewrite E end.
  - by eapply change_create_wf.
  - by eapply (change_post_wf db db' mid m q next action at_).
  - by eapply change_move_wf.
  - apply (qaWf_same db); try done. rewrite (Hrefs (w_refs _ Hw)), (w_refs _ Hw). unfold linkedVersions.
    by match goal with E : links db' = links db |- _ => rewrite E end.
Qed.

Lemma qaStep_wf db db' : qaWf db -> qaStep db db' -> qaWf db'.
Proof.
  intros Hw Hstep. apply qaStep_changes in Hstep as [Hc|[(El & Et & Em & Ek & _)|(l & _ & Hr & ->)]].
  - by eapply changes_wf.
  - apply (qaWf_same db); try done. unfold fileDB. by rewrite El.
  - by apply (qaWf_same db).
Qed.

Lemma initQuestions_wf db : initQuestions db -> qaWf db.
Proof.
  intros (Et & Em & El & _ & _ & _ & Er). split; unfold linkedVersions; rewrite ?Et, ?Em, ?El, ?Er; try (intros *; by rewrite lookup_empty).
  - by rewrite map_to_list_empty.
  - split; intros *; by rewrite lookup_empty.
Qed.

Lemma qa_reachable_wf db : reachable initQuestions qaStep db -> qaWf db.
Proof. apply reachable_invariant; [apply initQuestions_wf|]. intros s s' Hs Hstep. by eapply qaStep_wf. Qed.

(** C20. The tables of questions stay consistent.  In every state the program can reach,
    whatever fails and whatever commits are lost: the references that keep attached files
    from being purged are exactly the attachments; attachments hang on existing messages,
    a file on at most one, at different positions between 0 and 19; every thread has
    exactly one initial message, sent when it was created, and a last one, sent at its
    last activity; it is completed exactly when it has a completion time; every message
    belongs to an existing thread, a student's only to the student's own; no two messages
    of a thread have the same time, and no sender uses an idempotency key twice. *)
Theorem questions_invariant db : reachable initQuestions qaStep db -> qaWf db.
Proof. apply qa_reachable_wf. Qed.

(** ** History *)
Definition statusMove (s s' : Status) : Prop := exists action role, NextStatus s action role = Ok s'.

(** [q'] is what became of [q] after [n] moves. *)
Record moved (n : nat) (q q' : ThreadRow) : Prop := {
  mv_student : t_student q' = t_student q; mv_title : t_title q' = t_title q; mv_created : t_created q' = t_created q;
  mv_path : nsteps statusMove n (t_status q) (t_status q');
  mv_version : t_version q' = t_version q + Z.of_nat n;
  mv_last : ns (t_last q) <= ns (t_last q');
  mv_none : n = 0%nat -> q' = q
}.

Record historyKept (db db' : QADB) : Prop := {
  h_messages : messages db ⊆ messages db';
  h_links : forall m v, is_Some (messages db !! m) -> links db' !! (m, v) = links db !! (m, v);
  h_notes : notes db ⊆ notes db';
  h_threads : forall id q, threads db !! id = Some q -> exists n q', threads db' !! id = Some q' /\ moved n q q';
  h_new : forall mid m q, messages db' !! mid = Some m -> messages db !! mid = None -> threads db !! m_thread m = Some q ->
    ns (t_last q) < ns (m_created m)
}.

Lemma moved_refl q : moved 0 q q.
Proof. split; try done; [constructor|lia]. Qed.

Lemma moved_trans n n' a b c : moved n a b -> moved n' b c -> moved (n + n') a c.
Proof.
  intros [S1 T1 C1 P1 V1 L1 N1] [S2 T2 C2 P2 V2 L2 N2]. split; try congruence; try lia.
  - by eapply nsteps_trans.
  - intros E. rewrite N2, N1 by lia. done.
Qed.

Lemma history_same db db' :
  threads db' = threads db -> messages db' = messages db -> links db' = links db -> notes db' = notes db -> historyKept db db'.
Proof.
  intros Et Em El En. split; rewrite ?Et, ?Em, ?El, ?En; try done.
  - intros id q Hq. exists 0%nat, q. split; [done|apply moved_refl].
  - intros. congruence.
Qed.

Lemma history_trans a b c : historyKept a b -> historyKept b c -> historyKept a c.
Proof.
  intros [M1 L1 N1 T1 W1] [M2 L2 N2 T2 W2]. split.
  - by etrans.
  - intros m v Hm. rewrite L2, L1; [done..|]. destruct Hm as [r Hr]. exists r. by eapply lookup_weaken.
  - by etrans.
  - intros id q Hq. destruct (T1 id q Hq) as (n & q1 & Hq1 & H1). destruct (T2 id q1 Hq1) as (n' & q2 & Hq2 & H2).
    exists (n + n')%nat, q2. split; [done|by eapply moved_trans].
  - intros mid m q Hm Hno Hq. destruct (messages b !! mid) as [m'|] eqn:Eb.
    + assert (m' = m) as -> by (apply (lookup_weaken _ _ _ _ Eb) in M2; congruence). by eapply W1.
    + destruct (T1 _ q Hq) as (n & q1 & Hq1 & H1). pose proof (W2 mid m q1 Hm Eb Hq1). pose proof (mv_last _ _ _ H1). lia.
Qed.

(** Attaching to a new message leaves the others alone. *)
Lemma linksAfter_other message atts ls m v : m <> message -> linksAfter message atts ls !! (m, v) = ls !! (m, v).
Proof.
  intros Hne. revert ls. induction atts as [|a atts IH]; intros ls; [done|]. cbn [linksAfter foldl].
  change (linksAfter message atts (<[(message, AttVersion a):=linkRow a]> ls) !! (m, v) = ls !! (m, v)).
  rewrite IH, lookup_insert_ne; [done|congruence].
Qed.

(** One move of one thread, with or without a message. *)
Lemma history_moved db db' tid q next last_ now completed action role :
  threads db !! tid = Some q -> NextStatus (t_status q) action role = Ok next -> ns (t_last q) <= ns last_ ->
  threads db' = <[tid := movedThread q next last_ now completed]> (threads db) ->
  forall id q0, threads db !! id = Some q0 -> exists n q1, threads db' !! id = Some q1 /\ moved n q0 q1.
Proof.
  intros Hq Hnext Hle Et id q0 Hq0. rewrite Et. destruct (decide (id = tid)) as [->|Hne].
  - assert (q0 = q) as -> by congruence. exists 1%nat, (movedThread q next last_ now completed). rewrite lookup_insert_eq.
    split; [done|]. split; try done; cbn. apply nsteps_once; by exists action, role.
  - exists 0%nat, q0. rewrite lookup_insert_ne by done. split; [done|apply moved_refl].
Qed.

Lemma change_history db db' : qaWf db -> change db db' -> historyKept db db'.
Proof.
  intros Hw Hc. destruct Hc as [|tid mid student title body key at_ atts q m Hnew Hck Hacc Et Em Hat En
    |mid m q next action at_ completed atts q' Hq Hnext Hpost Hcr Hle Hacc Hck _ Et Em Hat En
    |tid q next action at_ q' Hq Hnext _ _ _ Et Em El En|nid thread admin body at_ Hid _ _ Et Em El En].
  - by apply history_same.
  - pose proof (acc_id _ _ _ Hacc) as Hfree. cbn in Hfree. split.
    + rewrite Em. by apply insert_subseteq.
    + intros i v [r Hr]. rewrite (at_links _ _ _ _ _ Hat). apply linksAfter_other. congruence.
    + by rewrite En.
    + intros id q0 Hq0. exists 0%nat, q0. rewrite Et, lookup_insert_ne by congruence. split; [done|apply moved_refl].
    + intros i m0 q0. rewrite Em, lookup_insert_Some. intros [[<- <-]|[_ Hm]] Hno Hq0; [|congruence]. cbn in Hq0. congruence.
  - pose proof (acc_id _ _ _ Hacc) as Hfree. split.
    + rewrite Em. by apply insert_subseteq.
    + intros i v [r Hr]. rewrite (at_links _ _ _ _ _ Hat). apply linksAfter_other. congruence.
    + by rewrite En.
    + eapply history_moved; [exact Hq|exact Hnext| |exact Et]. apply Z.lt_le_incl, pg_later; [by eapply tw_grid, w_thread|done].
    + intros i m0 q0. rewrite Em, lookup_insert_Some. intros [[<- <-]|[_ Hm]] Hno Hq0; [|congruence].
      assert (q0 = q) as -> by congruence. rewrite Hcr. apply pg_later; [by eapply tw_grid, w_thread|done].
  - split; rewrite ?Em, ?El, ?En; try done.
    + eapply history_moved; [exact Hq|exact Hnext| |exact Et]. lia.
    + intros. congruence.
  - split; rewrite ?Em, ?El; try done.
    + rewrite En. by apply insert_subseteq.
    + intros id q Hq. exists 0%nat, q. rewrite Et. split; [done|apply moved_refl].
    + intros. congruence.
Qed.

Lemma qaStep_history db db' : qaWf db -> qaStep db db' -> historyKept db db'.
Proof.
  intros Hw Hstep. apply qaStep_changes in Hstep as [[Hc _]|[(_ & Et & Em & El & En)|(l & _ & _ & ->)]].
  - by apply change_history.
  - by apply history_same.
  - by apply history_same.
Qed.

(** C21. The history of a question is kept.  Whatever happens after a reachable state:
    messages and notes are never changed or removed, the attachments of a message are
    those it was sent with, and a further message is later than all before it.  A thread
    keeps its student, its title and its creation; its status only moves along
    [NextStatus], and its version counts the moves, so a thread with the same version is
    the same thread. *)
Theorem question_history db db' : reachable initQuestions qaStep db -> rtc qaStep db db' -> historyKept db db'.
Proof.
  intros Hw%qa_reachable_wf Hrtc. induction Hrtc as [db|db db1 db' Hstep _ IH]; [by apply history_same|].
  eapply history_trans; [by apply qaStep_history|]. apply IH. by eapply qaStep_wf.
Qed.

End Theorems.

(** * Each message once

    A client that loses the answer to its call sends it again with the same idempotency
    key.  Over any sequence of calls and failures each key posts at most one message, and
    a repetition gives that message back. *)

Import Lessons Questions QuestionStore QuestionService.

Section Retry.
Context `{PgTime} `{UUIDText} (norm lower : string -> string)
  (Parse : string -> option Lesson.ParsedURL) (print : string -> string -> Lesson.ParsedURL -> string).

(** ** The calls that post *)
Inductive Posting := Asking (i : CreateThreadInput) | FollowingUp (i : AddMessageInput) | Replying (i : AddMessageInput).

Definition keyOf (p : Posting) : string :=
  match p with Asking i => NewKey i | FollowingUp i => AddKey i | Replying i => AddKey i end.

Definition post (pick : nat) (visit : list AttachmentInput -> list AttachmentInput) (actor : Principal) (p : Posting) :
  DB QADB Error (Thread * Message) :=
  match p with
  | Asking i => CreateThread pick visit actor i
  | FollowingUp i => AddStudentMessage pick visit actor i
  | Replying i => AddAdminMessage visit actor i
  end.

(** The caller is still allowed the call, and [row] is a message of its kind. *)
Definition repeats (db : QADB) (actor : Principal) (p : Posting) (row : MessageRow) : Prop :=
  match p with
  | Asking i =>
      is_ok (authorizeStudent actor) = true /\ is_ok (normalizeCreateInput i) = true /\
      activeStudent db (User_ID actor) = true /\ m_kind row = MessageKindInitial
  | FollowingUp i =>
      is_ok (authorizeStudent actor) = true /\ is_ok (normalizeAddMessageInput i) = true /\
      activeStudent db (User_ID actor) = true /\ m_kind row = MessageKindStudentFollowUp /\ m_thread row = AddThread i
  | Replying i =>
      is_ok (authorizeAdmin actor) = true /\ is_ok (normalizeAddMessageInput i) = true /\
      activeAdmin db (User_ID actor) = true /\ m_kind row = MessageKindAdminReply /\ m_thread row = AddThread i /\
      exists q, threads db !! AddThread i = Some q /\ presentStudent db (t_student q) = true
  end.

(** ** A call posts under its key, or not at all *)
Definition callPosted (sender : UUID) (key : string) (db : QADB) (st : nat * QADB) (r : result Error (Thread * Message)) : Prop :=
  (snd st = db /\ is_ok r = false \/ exists message, posted sender key db (snd st) message) /\
  forall t m, r = Ok (t, m) -> posted sender key db (snd st) m.

Lemma failed_callPosted sender key db n e : callPosted sender key db (n, db) (Err e).
Proof. split; [by left|done]. Qed.

Lemma WithinTx_posted sender key (body : DB QADB Error (Thread * Message)) env n db st r :
  (forall n1 st1 a, body env (n1, db) = (st1, Ok a) -> posted sender key db (snd st1) (snd a)) ->
  WithinTx body env (n, db) = (st, r) -> callPosted sender key db st r.
Proof.
  intros Hb Hrun. split.
  - destruct r as [[t m]|e].
    + right. apply transact_Ok in Hrun as [n1 Hrun]. exists m. exact (Hb _ _ _ Hrun).
    + pose proof (transact_outcome _ _ _ _ _ _ _ _ Hrun) as [E|(n1 & a & Hx)]; [by left|]. right. exists (snd a). exact (Hb _ _ _ Hx).
  - intros t m ->. apply transact_Ok in Hrun as [n1 Hrun]. exact (Hb _ _ _ Hrun).
Qed.

Lemma byOk_posted {A} sender key (x : result Error A) (k : A -> DB QADB Error (Thread * Message)) env n db st r :
  (forall a, x = Ok a -> k a env (n, db) = (st, r) -> callPosted sender key db st r) ->
  byOk x k env (n, db) = (st, r) -> callPosted sender key db st r.
Proof. intros Hk. destruct x; cbn [byOk]; [by apply Hk|]. intros [= <- <-]. apply failed_callPosted. Qed.

Lemma normalizeCreate_key i j : normalizeCreateInput i = Ok j -> NewKey j = NewKey i.
Proof. unfold normalizeCreateInput. cbn. destruct (_ || _); [done|]. by intros [= <-]. Qed.
Lemma normalizeAdd_same i j : normalizeAddMessageInput i = Ok j -> AddKey j = AddKey i /\ AddThread j = AddThread i.
Proof. unfold normalizeAddMessageInput. cbn. destruct (_ || _); [done|]. by intros [= <-]. Qed.

Lemma post_posted pick visit actor p env n db st r :
  (forall l, visit l ≡ₚ l) -> post pick visit actor p env (n, db) = (st, r) -> callPosted (User_ID actor) (keyOf p) db st r.
Proof.
  intros Hv. destruct p as [i|i|i]; cbn [post keyOf]; (apply byOk_posted; intros _ _; apply byOk_posted; intros j Hj).
  - rewrite <- (normalizeCreate_key _ _ Hj). apply WithinTx_posted. intros n1 st1 a Hb. by apply createBody_changes in Hb.
  - destruct (normalizeAdd_same _ _ Hj) as [<- _]. apply WithinTx_posted. intros n1 st1 a Hb. by apply followUpBody_changes in Hb.
  - destruct (normalizeAdd_same _ _ Hj) as [<- _]. apply WithinTx_posted. intros n1 st1 a Hb. by apply replyBody_changes in Hb.
Qed.

(** ** A key that was used *)
Lemma messageByKey_found db id m : qaWf db -> messages db !! id = Some m -> messageByKey db (m_sender m) (m_key m) = Some (id, m).
Proof.
  intros Hw Hm. destruct (messageByKey db (m_sender m) (m_key m)) as [[j m']|] eqn:Ek.
  - destruct (messageByKey_Some _ _ _ _ _ Ek) as (Hj & Es & Ey). assert (j = id) as -> by (by eapply (w_keys _ Hw)). by simplify_eq.
  - by destruct (messageByKey_None _ _ _ Ek id m Hm eq_refl).
Qed.

Lemma used_unchanged db st r sender key id m :
  messageByKey db sender key = Some (id, m) -> callPosted sender key db st r ->
  snd st = db /\ forall t x, r = Ok (t, x) -> MessageID x = id.
Proof.
  intros Hk [H1 H2]. split.
  - destruct H1 as [[E _]|(x & _ & [[E _]|(m' & E & _)])]; [done|done|congruence].
  - intros t x Hr. destruct (H2 t x Hr) as [_ [[_ [m' E]]|(m' & E & _)]]; congruence.
Qed.

Lemma lockStudent_quiet env n db thread q :
  quiet env -> threads db !! thread = Some q -> activeStudent db (t_student q) = true ->
  LockStudentThread (t_student q) thread env (n, db) = ((S n, db), Ok (scanThread thread q)).
Proof. intros Hq Ht Ha. unfold LockStudentThread. rewrite call_run, dget_run, Ht, Ha, N.eqb_refl by apply Hq. done. Qed.

Lemma lockAdmin_quiet env n db thread q :
  quiet env -> threads db !! thread = Some q -> presentStudent db (t_student q) = true ->
  LockAdminThread thread env (n, db) = ((S n, db), Ok (scanThread thread q)).
Proof. intros Hq Ht Ha. unfold LockAdminThread. rewrite call_run, dget_run, Ht, Ha by apply Hq. done. Qed.

Lemma attempting {S E E' A} (m : DB S E A) env st st' r : m env st = (st', r) -> attempt (E' := E') m env st = (st', Ok r).
Proof. unfold attempt. by intros ->. Qed.

Lemma is_ok_Ok {E A} (r : result E A) : is_ok r = true -> exists a, r = Ok a.
Proof. destruct r; [|done]. by eexists. Qed.

(** A transaction without failures whose body succeeds. *)
Lemma WithinTx_quiet {A} (body : DB QADB Error A) env n db :
  quiet env -> (exists n1 db1 a, body env (S n, db) = ((n1, db1), Ok a)) -> exists st a, WithinTx body env (n, db) = (st, Ok a).
Proof. intros Hq (n1 & db1 & a & Hb). unfold WithinTx. rewrite transact_quiet, Hb by done. by eexists _, _. Qed.

Lemma student_kind db id m : qaWf db -> messages db !! id = Some m ->
  m_kind m = MessageKindInitial \/ m_kind m = MessageKindStudentFollowUp ->
  exists q, threads db !! m_thread m = Some q /\ t_student q = m_sender m.
Proof.
  intros Hw Hm Hk. destruct (w_belongs _ Hw id m Hm) as (q & Hq & Ho & _). exists q. split; [done|]. symmetry. apply Ho.
  pose proof (w_check _ Hw id m Hm) as Hc. unfold messageCheck in Hc. apply andb_true_iff in Hc as [Hc _].
  apply andb_true_iff in Hc as [Hc _]. unfold kindOfRole in Hc. by destruct Hk as [E|E]; rewrite E in Hc; destruct (m_role m).
Qed.

Lemma admin_kind db id m : qaWf db -> messages db !! id = Some m -> m_kind m = MessageKindAdminReply -> m_role m = RoleAdmin.
Proof.
  intros Hw Hm Hk. pose proof (w_check _ Hw id m Hm) as Hc. unfold messageCheck in Hc. apply andb_true_iff in Hc as [Hc _].
  apply andb_true_iff in Hc as [Hc _]. unfold kindOfRole in Hc. rewrite Hk in Hc. by destruct (m_role m).
Qed.

Lemma repeated_found pick visit actor p env n db id m :
  qaWf db -> quiet env -> messages db !! id = Some m -> m_sender m = User_ID actor -> m_key m = keyOf p -> repeats db actor p m ->
  exists st t x, post pick visit actor p env (n, db) = (st, Ok (t, x)).
Proof.
  intros Hw Hq Hm Hs Hk Hr. pose proof (messageByKey_found _ _ _ Hw Hm) as Hf. rewrite Hs, Hk in Hf.
  destruct p as [i|i|i]; cbn [post keyOf repeats] in *.
  - destruct Hr as ([u Ha]%is_ok_Ok & [j Hj]%is_ok_Ok & Hact & Hkind). unfold CreateThread. rewrite Ha, Hj. cbn [byOk].
    rewrite <- (normalizeCreate_key _ _ Hj) in Hf. destruct (student_kind _ _ _ Hw Hm ltac:(by left)) as (q & Ht & Ho).
    destruct (find_quiet (User_ID actor) (NewKey j) env (S n) db id m q Hq Hf Ht) as (n1 & l & Hrun); [congruence|done|].
    destruct (WithinTx_quiet (createBody pick visit actor j) env n db Hq) as (st & [t x] & Hst); [|by exists st, t, x].
    eexists _, _, _.
    unfold createBody. erewrite dbind_run; [|by apply attempting]. cbn. rewrite Hkind. reflexivity.
  - destruct Hr as ([u Ha]%is_ok_Ok & [j Hj]%is_ok_Ok & Hact & Hkind & Hthread). unfold AddStudentMessage. rewrite Ha, Hj. cbn [byOk].
    destruct (normalizeAdd_same _ _ Hj) as [Ek Et]. rewrite <- Ek in Hf. rewrite <- Et in Hthread.
    destruct (student_kind _ _ _ Hw Hm ltac:(by right)) as (q & Ht & Ho).
    destruct (find_quiet (User_ID actor) (AddKey j) env (S (S n)) db id m q Hq Hf Ht) as (n1 & l & Hrun); [congruence|done|].
    destruct (WithinTx_quiet (followUpBody pick visit actor j) env n db Hq) as (st & [t x] & Hst); [|by exists st, t, x].
    eexists _, _, _.
    unfold followUpBody. erewrite dbind_run.
    2: { rewrite Hthread in Ht. rewrite <- Hs, <- Ho. apply lockStudent_quiet; [done..|]. by rewrite Ho, Hs. }
    erewrite dbind_run; [|by apply attempting]. cbn. rewrite Hkind, Hthread, N.eqb_refl. reflexivity.
  - destruct Hr as ([u Ha]%is_ok_Ok & [j Hj]%is_ok_Ok & Hact & Hkind & Hthread & q & Ht & Hp).
    unfold AddAdminMessage. rewrite Ha, Hj. cbn [byOk]. destruct (normalizeAdd_same _ _ Hj) as [Ek Et].
    rewrite <- Ek in Hf. rewrite <- Et in Hthread, Ht. pose proof Ht as Ht'. rewrite <- Hthread in Ht'.
    destruct (findAdmin_quiet (User_ID actor) (AddKey j) env (S (S n)) db id m q Hq Hf Ht') as (n1 & l & Hrun);
      [by eapply admin_kind|done|done|].
    destruct (WithinTx_quiet (replyBody visit actor j) env n db Hq) as (st & [t x] & Hst); [|by exists st, t, x].
    eexists _, _, _.
    unfold replyBody. erewrite dbind_run; [|by apply lockAdmin_quiet]. erewrite dbind_run; [|by apply attempting].
    cbn. rewrite Hkind, Hthread, N.eqb_refl. reflexivity.
Qed.

(** C19. Each message once.  A question, a follow-up or a reply adds one message, under
    the caller's idempotency key, or none; if it reports success the message is there,
    and it may be there although it reports a failure, when only the report of the commit
    was lost.  Once it is there, then whatever happens in between, the same call again
    never changes anything; if it gives a message back it is that one; and while the
    caller's account is active, the thread's student is not removed and nothing fails, it
    does give it back. *)
Theorem each_message_once pick visit actor p env n db st r :
  reachable initQuestions (qaStep norm lower Parse print) db -> (forall l, visit l ≡ₚ l) ->
  post pick visit actor p env (n, db) = (st, r) ->
  (messages (snd st) = messages db \/
   exists id m, messages db !! id = None /\ m_sender m = User_ID actor /\ m_key m = keyOf p /\ messages (snd st) = <[id := m]> (messages db)) /\
  (forall t x, r = Ok (t, x) -> exists m, messages (snd st) !! MessageID x = Some m /\ m_sender m = User_ID actor /\ m_key m = keyOf p) /\
  (forall id m, messages (snd st) !! id = Some m -> m_sender m = User_ID actor -> m_key m = keyOf p ->
   forall db', rtc (qaStep norm lower Parse print) (snd st) db' ->
   forall pick' visit' env' n' st' r', (forall l, visit' l ≡ₚ l) -> post pick' visit' actor p env' (n', db') = (st', r') ->
     snd st' = db' /\ (forall t x, r' = Ok (t, x) -> MessageID x = id) /\
     (quiet env' -> repeats db' actor p m -> exists t x, r' = Ok (t, x))).
Proof.
  intros Hreach Hv Hrun. pose proof (qa_reachable_wf norm lower Parse print db Hreach) as Hw.
  pose proof (post_posted _ _ _ _ _ _ _ _ _ Hv Hrun) as [Hany Hok]. split_and!.
  - destruct Hany as [[-> _]|(x & _ & [[-> _]|(m & _ & Hs & Hk & Hf & E)])]; [by left..|]. right. by exists (MessageID x), m.
  - intros t x Hr. destruct (Hok t x Hr) as [_ [[E [m Hk]]|(m & _ & Hs & Hk & Hf & E)]]; exists m.
    + apply messageByKey_Some in Hk as (Hm & ? & ?). rewrite E. done.
    + by rewrite E, lookup_insert_eq.
  - intros id m Hm Hs Hk db' Hrtc pick' visit' env' n' st' r' Hv' Hrun'.
    assert (Hw1 : qaWf (snd st)).
    { destruct Hany as [[-> _]|(x & Hc & _)]; [done|by eapply changes_wf]. }
    assert (Hw' : qaWf db' /\ messages db' !! id = Some m).
    { clear -Hrtc Hw1 Hm. induction Hrtc as [|a b c Hstep _ IH]; [done|]. apply IH; [|by eapply qaStep_wf].
      eapply lookup_weaken; [exact Hm|]. by eapply h_messages, qaStep_history. }
    destruct Hw' as [Hw' Hm']. pose proof (messageByKey_found _ _ _ Hw' Hm') as Hf. rewrite Hs, Hk in Hf.
    pose proof (post_posted _ _ _ _ _ _ _ _ _ Hv' Hrun') as Hp. destruct (used_unchanged _ _ _ _ _ _ _ Hf Hp) as [E1 E2].
    split_and!; [done|done|]. intros Hq Hrep.
    destruct (repeated_found pick' visit' actor p env' n' db' id m Hw' Hq Hm' Hs Hk Hrep) as (st2 & t & x & Hx).
    exists t, x. congruence.
Qed.

End Retry.
