(* ===== verification/QuestionWitness.v ===== *)
(** * Questions: a concrete run

    A student asks a question and the answer to the call is lost on the commit; the same
    call again gives the message back; the teacher replies and closes the question.  The
    theorems at the states this goes through. *)

From S2P Require Import Prelude GoTime GoText GoStrings GoStrconv Pg OpsModel Keyset AuditLog FilesModel FilesStore LessonModel LessonFiles LessonService LessonProofs LessonTheorems QuestionModel Notifications QuestionStore QuestionService QuestionProofs QuestionTheorems.
From stdpp Require Import base tactics list gmap strings relations.
From Stdlib Require Import ZArith Lia.
Import Lessons Questions QuestionStore QuestionService.

Open Scope Z_scope.

#[local] Existing Instance PgTruncate.
#[local] Existing Instance DecimalUUID.

Definition teacher : Principal := MkPrincipal 5 RoleAdmin StatusActive "request" (Some [10; 0; 0; 1]).
Definition pupil : Principal := MkPrincipal 9 RoleStudent StatusActive "request" (Some [10; 0; 0; 2]).
Definition noQuestions : QADB :=
  MkQADB
    (MkLessonDB
      (MkFilesDB ∅ ∅ ∅ ∅ ∅ ∅ ∅ [] (Audit.MkTable [] 1) {[5%N; 9%N]} ∅ ∅ ∅ (Some "normal"))
      (MkCatalog ∅ ∅ ∅ ∅ ∅) (MkDrafts ∅ ∅ ∅ ∅) (MkRevisions ∅ ∅ ∅ ∅ ∅)
      {[5%N := MkUserRow RoleAdmin StatusActive None; 9%N := MkUserRow RoleStudent StatusActive None]} ∅ [] [])
    ∅ ∅ ∅ ∅ ∅.

Definition plainURL (s : string) : option Lesson.ParsedURL := None.
Definition printURL (scheme host : string) (u : Lesson.ParsedURL) : string := scheme.
Definition same (s : string) : string := s.
Notation step := (qaStep same same plainURL printURL).

(** A server whose answers at the instants of [lost] do not arrive. *)
Definition at_ (lost : nat -> bool) (t : Z) : Env :=
  MkEnv lost (fun _ => t) (fun _ => MkTime t None) (fun n => N.of_nat (100000 + Z.to_nat (t / minute) * 100 + n)).
Definition reliable : nat -> bool := fun _ => false.

Definition asked : CreateThreadInput := MkCreateThread "Fractions" "Why is 1/2 the same as 2/4?" "key-of-the-question" [].
Definition ask (env : Env) (db : QADB) : (nat * QADB) * result Error (Thread * Message) :=
  post 0 (fun l => l) pupil (Asking asked) env (0%nat, db).

(** The question is there although the student was told that it failed. *)
Definition waiting : QADB := snd (fst (ask (at_ (Nat.leb 13) hour) noQuestions)).

Definition replied : QADB :=
  exec (AddAdminMessage (fun l => l) teacher (MkAddMessage 106005 1 "Cut each half in two." "key-of-the-reply" []))
    (at_ reliable (2 * hour)) waiting.
Definition closed_ : QADB :=
  exec (ChangeStatus teacher (MkChangeStatus 106005 2 StatusCompleted)) (at_ reliable (3 * hour)) replied.

Lemma start_reachable : reachable initQuestions step noQuestions.
Proof. by apply reach_init. Qed.

Lemma waiting_reachable : reachable initQuestions step waiting.
Proof.
  eapply reach_step; [|exact (StepCreateThread same same plainURL printURL noQuestions (at_ (Nat.leb 13) hour) 0 (fun l => l) pupil asked ltac:(done))].
  exact start_reachable.
Qed.

Lemma replied_reachable : reachable initQuestions step replied.
Proof. eapply reach_step; [exact waiting_reachable|]. by apply StepReply. Qed.

Lemma closed_reachable : reachable initQuestions step closed_.
Proof. eapply reach_step; [exact replied_reachable|]. by apply StepChange. Qed.

(** In the end the question is completed, with both messages. *)
Lemma questions_invariant_witness :
  exists q, threads closed_ !! 106005%N = Some q /\ t_status q = StatusCompleted /\ is_Some (t_completed q) /\
    length (map_to_list (messages closed_)) = 2%nat /\ qaWf closed_.
Proof.
  destruct (threads closed_ !! 106005%N) as [q|] eqn:Eq; [|vm_compute in Eq; discriminate]. exists q.
  assert (Hs : t_status <$> threads closed_ !! 106005%N = Some StatusCompleted) by (vm_compute; reflexivity).
  assert (Hc : (fun x => bool_decide (is_Some (t_completed x))) <$> threads closed_ !! 106005%N = Some true) by (vm_compute; reflexivity).
  rewrite Eq in Hs, Hc. cbn [fmap option_fmap option_map] in Hs, Hc. injection Hs as Hs. injection Hc as Hc.
  split_and!; [reflexivity|exact Hs|by eapply bool_decide_eq_true|vm_compute; reflexivity|].
  exact (questions_invariant same same plainURL printURL closed_ closed_reachable).
Defined.

(** The question is kept with its student and its version counts the two moves. *)
Lemma question_history_witness :
  exists q q' n, threads waiting !! 106005%N = Some q /\ threads closed_ !! 106005%N = Some q' /\ moved n q q' /\
    t_version q' = t_version q + 2 /\ messages waiting ⊆ messages closed_.
Proof.
  assert (Hr : rtc step waiting closed_).
  { eapply rtc_l; [|apply rtc_once; by apply StepChange]. by apply StepReply. }
  destruct (threads waiting !! 106005%N) as [q|] eqn:Eq; [|vm_compute in Eq; discriminate].
  pose proof (question_history same same plainURL printURL waiting closed_ waiting_reachable Hr) as Hk.
  destruct (h_threads _ _ Hk _ _ Eq) as (n & q' & Hq' & Hm). exists q, q', n.
  assert (Hv : t_version <$> threads waiting !! 106005%N = Some 1) by (vm_compute; reflexivity).
  assert (Hv' : t_version <$> threads closed_ !! 106005%N = Some 3) by (vm_compute; reflexivity).
  rewrite Eq in Hv. rewrite Hq' in Hv'. injection Hv as Hv. injection Hv' as Hv'.
  split_and!; [reflexivity|exact Hq'|exact Hm|lia|exact (h_messages _ _ Hk)].
Defined.

(** The repeated call gives back the message of the call that failed. *)
Lemma each_message_once_witness :
  snd (ask (at_ (Nat.leb 13) hour) noQuestions) = Err ErrDatabase /\
  exists t x, snd (ask (at_ reliable (4 * hour)) closed_) = Ok (t, x) /\ MessageID x = 106007%N /\
    snd (fst (ask (at_ reliable (4 * hour)) closed_)) = closed_.
Proof.
  destruct (ask (at_ (Nat.leb 13) hour) noQuestions) as [st r] eqn:Ea. split.
  { assert (Hr : snd (ask (at_ (Nat.leb 13) hour) noQuestions) = Err ErrDatabase) by (vm_compute; reflexivity).
    by rewrite Ea in Hr. }
  assert (Hst : snd st = waiting) by (unfold waiting; rewrite Ea; reflexivity).
  unfold ask in Ea.
  destruct (each_message_once same same plainURL printURL 0 (fun l => l) pupil (Asking asked) (at_ (Nat.leb 13) hour) 0
    noQuestions st r start_reachable (fun l => reflexivity l) Ea) as (_ & _ & Hagain).
  destruct (messages waiting !! 106007%N) as [m|] eqn:Em; [|vm_compute in Em; discriminate].
  assert (Hs : m_sender <$> messages waiting !! 106007%N = Some 9%N) by (vm_compute; reflexivity).
  assert (Hk : m_key <$> messages waiting !! 106007%N = Some "key-of-the-question"%string) by (vm_compute; reflexivity).
  assert (Hd : (fun x => bool_decide (m_kind x = MessageKindInitial)) <$> messages waiting !! 106007%N = Some true)
    by (vm_compute; reflexivity).
  rewrite Em in Hs, Hk, Hd. injection Hs as Hs. injection Hk as Hk. injection Hd as Hd%bool_decide_eq_true.
  rewrite Hst in Hagain. destruct (ask (at_ reliable (4 * hour)) closed_) as [st' r'] eqn:Eb.
  destruct (Hagain 106007%N m Em Hs Hk closed_) with (pick' := 0%nat) (visit' := fun l : list AttachmentInput => l)
    (env' := at_ reliable (4 * hour)) (n' := 0%nat) (st' := st') (r' := r') as (E1 & E2 & E3).
  - eapply rtc_l; [|apply rtc_once; by apply StepChange]. by apply StepReply.
  - done.
  - exact Eb.
  - destruct E3 as (t & x & ->).
    + intros n. reflexivity.
    + cbn [repeats]. split_and!; [vm_compute; reflexivity..|exact Hd].
    + exists t, x. split_and!; [reflexivity|by eapply E2|exact E1].
Defined.

(** A text with a zero byte is accepted as input, and the server refuses the row. *)
Example zero_byte_not_stored :
  let body := String Ascii.zero "a" in
  is_ok (normalizeCreateInput (MkCreateThread "Title" body "key-of-the-question" [])) = true /\
  value (CreateThread 0 (fun l => l) pupil (MkCreateThread "Title" body "key-of-the-question" [])) (at_ reliable hour) noQuestions
    = Err ErrDatabase.
Proof. vm_compute. split; reflexivity. Qed.
