(* ===== verification/WorkerWitness.v ===== *)
(** * The worker: a job from upload to completion

    The upload of [FilesWitness] is finished, leased, processed and completed, and the
    theorems on the worker are applied at the states it goes through. *)

From S2P Require Import Prelude GoTime GoText GoStrings GoSha256 Pg OpsModel AuditLog FilesModel FilesStore ProcessingStore UploadService Detect Pipeline Worker WorkerTheorems FilesWitness.
From stdpp Require Import base tactics list gmap strings.
From Stdlib Require Import ZArith Lia.
Import Files Processing Pipeline.

Open Scope Z_scope.

#[local] Existing Instance PgTruncate.
#[local] Existing Instance DecimalUUID.
#[local] Existing Instance MemoryObjects.

Definition finished : FilesDB * Memory :=
  snd (fst (CompleteUpload UploadPurposeAI true student 102 (at_ hour) (1%nat, sent))).

Definition scanned : Programs :=
  MkPrograms (fun _ => Some 0) (fun _ => Some 0) (fun _ => (None, Detect.MkDisk [] false false false false false))
    (fun _ => None) (fun _ => (None, None)).
Definition room : Workspace :=
  MkWorkspace true (fun b => Detect.MkDisk b true true true true true) true true true true scanned None
    (MkTime (2 * hour) None) (fun _ => None) (fun _ => None) (fun _ => None).

Definition working : FilesDB :=
  exec (LeaseNext Locked (fun _ => false) "worker" (MkTime (2 * hour) None) minute) (at_ (2 * hour)) (fst finished).
Definition theVersion : UUID := 112.
Definition myJob : Job := MkJob 114 theVersion "process_file" "running" 1 "worker" (MkTime (2 * hour + minute) None).

(** The lease is the first attempt; processing the text stores a page and a text, and
    completing the job makes the version ready. *)
Definition processed : (nat * (FilesDB * (Memory * Memory))) * result ProcessingError Result :=
  Process room myJob (at_ (2 * hour)) (1%nat, (working, (snd finished, ∅))).

Example leased_first :
  value (LeaseNext Locked (fun _ => false) "worker" (MkTime (2 * hour) None) minute) (at_ (2 * hour)) (fst finished) = Ok myJob.
Proof. vm_compute. reflexivity. Qed.

Example job_completes :
  match processed with
  | ((_, (db, _)), Ok r) =>
      let done_ := exec (Complete myJob r) (at_ (2 * hour + second)) db in
      (PreviewKind <$> Preview r, PreviewKind <$> AIText r, v_state <$> versions done_ !! theVersion, size (artifacts done_)) =
      (Some "page", Some "ai_text", Some "ready", 0%nat)%string
  | _ => False
  end.
Proof. vm_compute. reflexivity. Qed.

(** Without a directory to work in, the first attempt fails and is repeated a minute
    later. *)
Definition noRoom : Workspace :=
  MkWorkspace false (disk room) true true true true scanned None (now_ room) (fun _ => None) (fun _ => None) (fun _ => None).
Definition settings_ : Worker.Worker := Worker.MkWorker true "worker" 0 0 0 (fun _ => 0).
Definition unavailable : ProcessingError := Detect.transient "workspace_unavailable".
Definition reportTime : Z := 2 * hour + second.

Lemma worker_records_failure_witness :
  let '((_, db), r) := @Worker.settleFailure FilesDB (Worker.pgQueue Locked (fun _ => false)) settings_ myJob (Some unavailable)
                         (at_ reportTime) (0%nat, working) in
  r = Ok (Some (true, None)) /\
  (j_state <$> jobs db !! 114%N, j_available <$> jobs db !! 114%N) =
  (Some "queued"%string, Some (MkTime (reportTime + minute) None)).
Proof.
  destruct (worker_records_failure settings_ noRoom myJob (Some unavailable) (at_ reportTime) 0%nat working (O := Memory) (P := Memory))
    as [k E].
  - exists (at_ reportTime), (1%nat, (working, (snd finished, ∅))).
    assert (Hr : snd (Process (O := Memory) (P := Memory) noRoom myJob (at_ reportTime) (1%nat, (working, (snd finished, ∅)))) =
      Err unavailable) by (vm_compute; reflexivity).
    destruct (Process _ _ _ _) as [st' r]. exists st'. cbn [snd] in Hr. by rewrite Hr.
  - apply calm_quiet.
  - vm_compute. discriminate.
  - discriminate.
  - discriminate.
  - discriminate.
  - vm_compute. split; discriminate.
  - cbn zeta in E. rewrite E. clear E.
    assert (Hj : exists j, jobs working !! ID myJob = Some j /\ heldBy (LeaseOwner myJob) (MkTime reportTime None) j = true /\
      (j_version j =? JobFileVersionID myJob)%N = true) by (eexists; split_and!; vm_compute; reflexivity).
    destruct Hj as (j & -> & Hh & Hv).
    assert (Hb : heldBy (LeaseOwner myJob) (MkTime (dbclock (at_ reportTime) (0 + 2)) None) j &&
      (j_version j =? JobFileVersionID myJob)%N = true) by (rewrite Hv, andb_true_r; exact Hh).
    rewrite Hb. split; [reflexivity|]. cbn [jobs setVersions setJobs setJob]. rewrite lookup_insert_eq. vm_compute. reflexivity.
Defined.

(** An hour later the lease has run out: the result is refused, and for no other reason. *)
Lemma pipeline_result_completes_witness :
  exists r e, snd processed = Ok r /\ snd (Complete myJob r (at_ (3 * hour)) (0%nat, fst (snd (fst processed)))) = Err e /\
    (e = ErrLeaseLost \/ e = ErrDatabase \/
     e = ErrText "processing artifact publication conflict").
Proof.
  assert (Hr : match snd processed with
               | Ok r => is_ok (snd (Complete myJob r (at_ (3 * hour)) (0%nat, fst (snd (fst processed))))) = false
               | Err _ => False end) by (vm_compute; reflexivity).
  assert (Hv : v_purpose <$> versions (fst (snd (fst processed))) !! theVersion = Some UploadPurposeAI) by (vm_compute; reflexivity).
  assert (Hw : (fun v => (v_name v, v_mime v, v_size v, v_purpose v)) <$> versions working !! theVersion =
    Some ("notes.txt", "text/plain", 3, UploadPurposeAI)%string) by (vm_compute; reflexivity).
  assert (Hp : policyValidate UploadPurposeAI abcInput = Ok tt) by (vm_compute; reflexivity).
  unfold processed in *.
  destruct (Process room myJob (at_ (2 * hour)) (1%nat, (working, (snd finished, ∅)))) as [st' [r|e]] eqn:Ep; [|destruct Hr].
  cbn [fst snd] in *. destruct (Complete myJob r (at_ (3 * hour)) (0%nat, fst (snd st'))) as [st2 [u|e]] eqn:Ec; [discriminate Hr|].
  destruct (versions working !! theVersion) as [v|] eqn:Ev; [|discriminate Hw]. injection Hw as Hn Hm Hs Hpu.
  destruct (versions (fst (snd st')) !! theVersion) as [v2|] eqn:Ev2; [|discriminate Hv]. injection Hv as Hv.
  exists r, e. split; [reflexivity|]. split; [rewrite Ec; reflexivity|].
  destruct (pipeline_result_completes room myJob r _ 1%nat working (snd finished, ∅) st' v abcInput _ 0%nat (fst (snd st')) v2 st2 e
            Ev Hn Hm Hs ltac:(rewrite Hpu; exact Hp) Ep ltac:(discriminate) ltac:(discriminate) ltac:(discriminate) Ev2 ltac:(congruence) Ec)
    as [He|[He|[_ He]]]; auto.
Defined.
