(* ===== verification/AuthModel.v ===== *)
(** * Authentication: data, passwords and tables

    Models [internal/auth/model.go], [token.go], [password.go] and the data of
    [service.go], the inputs of [internal/students/service.go], and the tables of migration
    00001.  Argon2 is a parameter, the random bytes are given with each call.  The columns
    [updated_at], which nothing reads, are left out. *)

From S2P Require Import Prelude GoTime GoText GoStrings GoSha256 GoStrconv GoEncoding Pg OpsModel AuditLog FilesModel FilesStore.
From stdpp Require Import base tactics list gmap strings.
From Stdlib Require Import ZArith Lia.

Open Scope Z_scope.

Module Auth.

(** [ErrPassword] are the errors of [ValidatePassword] and of the hasher, [ErrDatabase]
    is an error of the driver that is passed on. *)
Inductive Error :=
| ErrNotFound | ErrConflict | ErrUnauthenticated | ErrInvalidCredentials | ErrInvalidConfiguration | ErrPassword
| ErrForbidden | ErrInvalidInput | ErrAudit (e : Audit.Error) | ErrDatabase.

Global Instance Error_eq_dec : EqDecision Error.
Proof. repeat intro; hnf; repeat decide equality. Defined.

(** ** Data *)
Record User := MkUser {
  UserID : UUID; Username : string; DisplayName : string; UserRole : Role; UserStatus : Status; PasswordHash : string;
  MustChangePassword : bool; UserCreated : Time
}.
Record Session := MkSession {
  SessionID : UUID; SessionUser : UUID; TokenHash : list Z; UserAgent : string; SessionIP : IP; CreatedAt : Time; LastSeenAt : Time;
  IdleExpiresAt : Time; AbsoluteExpiresAt : Time; RevokedAt : option Time; RevokeReason : option string
}.
Record CreateUserParams := MkCreateUser {
  ParamUsername : string; ParamDisplayName : string; ParamRole : Role; ParamStatus : Status; ParamPasswordHash : string; ParamMustChange : bool
}.
Record CreateSessionParams := MkCreateSession {
  ParamID : UUID; ParamUser : UUID; ParamToken : list Z; ParamAgent : string; ParamIP : IP; ParamCreated : Time; ParamSeen : Time;
  ParamIdle : Time; ParamAbsolute : Time
}.
Record PasswordRotationParams := MkRotation {
  RotateUser : UUID; ExpectedPasswordHash : string; NewPasswordHash : string; RotateMustChange : bool; ReplacementSession : CreateSessionParams
}.
Record LoginEvent := MkLoginEvent {
  EventUser : option UUID; EventUsername : string; EventSuccess : bool; EventReason : string; LoginIP : IP; LoginAgent : string; EventAt : Time
}.
Record LoginInput := MkLogin { LoginUsername : string; LoginPassword : string; FromIP : IP; FromAgent : string }.
Record ChangePasswordInput := MkChange {
  SessionToken : string; CurrentPassword : string; NewPassword : string; ChangeIP : IP; ChangeAgent : string
}.
Record Authentication := MkAuthentication { AuthUser : User; AuthSession : Session }.

Definition sessionIdleTTL : Z := 7 * 24 * hour.
Definition sessionAbsoluteTTL : Z := 30 * 24 * hour.
Definition sessionTouchPeriod : Z := 5 * minute.

(** ** Passwords *)
Definition ValidatePassword (password : string) : bool :=
  let length := RuneCountInString password in
  ValidString password && (12 <=? length) && (length <=? 128) && trimmed password.

Record Argon2Params := MkArgon2 { MemoryKiB : Z; Iterations : Z; Parallelism : Z; SaltLength : Z; KeyLength : Z }.

Global Instance Argon2Params_eq_dec : EqDecision Argon2Params.
Proof. solve_decision. Defined.

Definition maxPHCEncodedLength : Z := 512.
Definition maxPHCBase64Length : Z := 88.
Definition maxArgon2MemoryKiB : Z := 128 * 1024.
Definition maxArgon2Iterations : Z := 4.
Definition maxArgon2Parallelism : Z := 4.

Definition validateArgon2Work (p : Argon2Params) : bool :=
  negb ((MemoryKiB p <? 8 * Parallelism p) || (maxArgon2MemoryKiB <? MemoryKiB p) || (Iterations p =? 0)
        || (maxArgon2Iterations <? Iterations p) || (Parallelism p =? 0) || (maxArgon2Parallelism <? Parallelism p)).

Definition validateArgon2Params (p : Argon2Params) : bool :=
  validateArgon2Work p
  && negb ((SaltLength p <? 16) || (64 <? SaltLength p) || (KeyLength p <? 16) || (64 <? KeyLength p)).

Definition parseCanonicalUint (value prefix : string) (bitSize : Z) : option Z :=
  if negb (hasPrefix (bytes value) (bytes prefix)) then None
  else
    let digits := fromBytes (drop (length (bytes prefix)) (bytes value)) in
    if bool_decide (digits = EmptyString) || ((1 <? len digits) && (or_zero 0 (head (bytes digits)) =? 48)) then None
    else match ParseUint bitSize digits with
         | Some n => if bool_decide (FormatInt n = digits) then Some n else None
         | None => None
         end.

Definition decodeCanonicalBase64 (value : string) : option (list Z) :=
  if bool_decide (value = EmptyString) || existsb (Z.eqb 61) (bytes value) then None
  else match RawStdDecode value with
       | Some decoded => if bool_decide (RawStdEncode decoded = value) then Some decoded else None
       | None => None
       end.

Definition between16And64 (b : list Z) : bool := (16 <=? Z.of_nat (length b)) && (Z.of_nat (length b) <=? 64).

Definition parseParameters (value : string) : option Argon2Params :=
  match Split value 44 with
  | [p0; p1; p2] =>
      match parseCanonicalUint p0 "m=" 32, parseCanonicalUint p1 "t=" 32, parseCanonicalUint p2 "p=" 8 with
      | Some memory, Some iterations, Some parallelism =>
          let params := MkArgon2 memory iterations parallelism 0 0 in
          if validateArgon2Work params then Some params else None
      | _, _, _ => None
      end
  | _ => None
  end.

Definition parsePHC (encoded : string) : option (Argon2Params * list Z * list Z) :=
  if maxPHCEncodedLength <? len encoded then None
  else
    match Split encoded 36 with
    | [p0; p1; p2; p3; p4; p5] =>
        if negb (bool_decide (p0 = EmptyString)) || negb (bool_decide (p1 = "argon2id"%string)) || negb (bool_decide (p2 = "v=19"%string))
           || (maxPHCBase64Length <? len p4) || (maxPHCBase64Length <? len p5) then None
        else
          match parseParameters p3, decodeCanonicalBase64 p4, decodeCanonicalBase64 p5 with
          | Some params, Some salt, Some hash =>
              if between16And64 salt && between16And64 hash then Some (params, salt, hash) else None
          | _, _, _ => None
          end
    | _ => None
    end.

Definition printPHC (p : Argon2Params) (salt hash : list Z) : string :=
  ("$argon2id$v=19$m=" ++ FormatInt (MemoryKiB p) ++ ",t=" ++ FormatInt (Iterations p) ++ ",p=" ++ FormatInt (Parallelism p)
   ++ "$" ++ RawStdEncode salt ++ "$" ++ RawStdEncode hash)%string.

(** [argon2.IDKey]. *)
Class Argon2 := {
  IDKey : list Z -> list Z -> Z -> Z -> Z -> Z -> list Z;
  IDKey_bytes : forall password salt time memory threads keyLen, Forall isByte (IDKey password salt time memory threads keyLen);
  IDKey_length : forall password salt time memory threads keyLen,
    0 <= keyLen -> Z.of_nat (length (IDKey password salt time memory threads keyLen)) = keyLen
}.

Section Hasher.
Context `{Argon2}.
Variable params : Argon2Params.

Definition hashWithSalt (password : string) (salt : list Z) : option string :=
  if negb (validateArgon2Params params) || negb (Z.of_nat (length salt) =? SaltLength params) then None
  else Some (printPHC params salt (IDKey (bytes password) salt (Iterations params) (MemoryKiB params) (Parallelism params) (KeyLength params))).

(** [random] is what the system's generator gives, if it works. *)
Definition Hash (password : string) (random : option (list Z)) : option string :=
  if negb (ValidatePassword password) || negb (validateArgon2Params params) then None
  else match random with Some salt => hashWithSalt password salt | None => None end.

Definition Compare (encoded password : string) : bool :=
  match parsePHC encoded with
  | Some (p, salt, want) =>
      bool_decide (IDKey (bytes password) salt (Iterations p) (MemoryKiB p) (Parallelism p) (Z.of_nat (length want)) = want)
  | None => false
  end.

End Hasher.

(** ** Tokens *)
Definition NewSessionToken (random : option (list Z)) : result Error (string * list Z) :=
  match random with
  | Some b => let raw := RawURLEncode b in Ok (raw, Sum256 (bytes raw))
  | None => Err ErrDatabase
  end.

(** ** Tables *)
Record AccountRow := MkAccountRow {
  ac_username : string; ac_display : string; ac_role : Role; ac_status : Status; ac_hash : string; ac_mustChange : bool;
  ac_created : Time; ac_deleted : option Time
}.
Record SessionRow := MkSessionRow {
  se_user : UUID; se_token : list Z; se_agent : string; se_ip : IP; se_created : Time; se_seen : Time; se_idle : Time;
  se_absolute : Time; se_revoked : option Time; se_reason : option string
}.
Record LoginRow := MkLoginRow {
  lo_user : option UUID; lo_username : string; lo_success : bool; lo_reason : string; lo_ip : IP; lo_agent : string; lo_at : Time
}.
Record AuthDB := MkAuthDB {
  accounts : gmap N AccountRow; sessions : gmap N SessionRow; loginEvents : list LoginRow; authAudit : Audit.Table
}.

Definition setAccounts m db := MkAuthDB m (sessions db) (loginEvents db) (authAudit db).
Definition setSessions m db := MkAuthDB (accounts db) m (loginEvents db) (authAudit db).
Definition setLogins l db := MkAuthDB (accounts db) (sessions db) l (authAudit db).

#[global] Instance AuthDB_audit : Audit.HasAudit AuthDB :=
  {| Audit.auditOf := authAudit; Audit.setAudit t db := MkAuthDB (accounts db) (sessions db) (loginEvents db) t |}.

(** ** Constraints *)
Definition opened (o : option Time) : bool := negb (bool_decide (is_Some o)).

(** [lower(username)]: the check of the column admits ASCII only. *)
Definition lowerASCII (b : Z) : Z := if isUpper b then b + 32 else b.
Definition pgLower (s : string) : string := fromBytes (lowerASCII <$> bytes s).

Definition roleOK (r : Role) : bool := match r with RoleAdmin | RoleStudent => true | OtherRole _ => false end.
Definition statusOK (s : Status) : bool := match s with StatusActive | StatusDisabled => true | OtherStatus _ => false end.

(** A text column takes valid UTF-8 without zero bytes. *)
Definition storable (s : string) : bool := ValidString s && negb (existsb (Z.eqb 0) (bytes s)).

(** The driver encodes nil as NULL and an address of another length not at all. *)
Definition addressable (ip : IP) : bool := match ip with None => true | Some _ => validIP ip end.

Definition usernameCheck (s : string) : bool := matchClass (fun b => isAlnum b || oneOf "._-" b) 3 64 s.

Definition accountCheck (r : AccountRow) : bool :=
  usernameCheck (ac_username r) && roleOK (ac_role r) && statusOK (ac_status r) && storable (ac_display r) && storable (ac_hash r).

(** Another account that is not deleted with this property. *)
Definition otherAccount (db : AuthDB) (id : UUID) (p : AccountRow -> bool) : bool :=
  existsb (fun '(k, r) => negb (k =? id)%N && opened (ac_deleted r) && p r) (map_to_list (accounts db)).

Definition sameUsername (name : string) (r : AccountRow) : bool := bool_decide (pgLower (ac_username r) = pgLower name).
Definition isAdmin (r : AccountRow) : bool := bool_decide (ac_role r = RoleAdmin).

Inductive Violation := UsernameTaken | SecondAdmin | OtherViolation.

Definition accountViolation (db : AuthDB) (id : UUID) (r : AccountRow) : option Violation :=
  if bool_decide (is_Some (accounts db !! id)) then Some OtherViolation
  else if otherAccount db id (sameUsername (ac_username r)) then Some UsernameTaken
  else if isAdmin r && otherAccount db id isAdmin then Some SecondAdmin
  else None.

(** [mapStoreError] on a unique violation. *)
Definition mapStoreError (v : Violation) : Error :=
  match v with UsernameTaken | SecondAdmin => ErrConflict | OtherViolation => ErrDatabase end.

Definition tokenTaken (db : AuthDB) (token : list Z) : bool :=
  existsb (fun '(_, r) => bool_decide (se_token r = token)) (map_to_list (sessions db)).

Definition sessionAllowed (db : AuthDB) (id : UUID) (r : SessionRow) : bool :=
  negb (bool_decide (is_Some (sessions db !! id))) && negb (tokenTaken db (se_token r))
  && bool_decide (is_Some (accounts db !! se_user r)) && storable (se_agent r) && addressable (se_ip r).

End Auth.
