(* ===== verification/AuthStore.v ===== *)
(** * Accounts and sessions: stores and services

    Models [internal/auth/postgres_store.go] and the stores of
    [internal/students/postgres_uow.go], which run inside a transaction.  A statement on
    its own commits by itself.  [lower] is [strings.ToLower] on all of Unicode.

    Module [AuthService] models [internal/auth/service.go], [internal/students/service.go]
    and the gates of [internal/auth/http.go]. *)

From S2P Require Import Prelude GoTime GoText GoStrings GoSha256 GoEncoding Pg OpsModel Keyset AuditLog FilesStore AuthModel.
From stdpp Require Import base tactics list gmap strings.
From Stdlib Require Import ZArith Lia.

Open Scope Z_scope.

Module AuthStore.
Import Auth.

Section Store.
Context `{PgTime} (lower : string -> string).

Definition normalizeUsername (username : string) : string := lower (TrimSpace username).

(** ** Users *)
Definition scanUser (id : UUID) (r : AccountRow) : User :=
  MkUser id (ac_username r) (ac_display r) (ac_role r) (ac_status r) (ac_hash r) (ac_mustChange r) (UTC (ac_created r)).

Definition liveAccount (db : AuthDB) (id : UUID) : option AccountRow :=
  match accounts db !! id with Some r => if opened (ac_deleted r) then Some r else None | None => None end.

Definition accountNamed (db : AuthDB) (name : string) : option (UUID * AccountRow) :=
  List.find (fun '(_, r) => opened (ac_deleted r) && bool_decide (pgLower (ac_username r) = name)) (map_to_list (accounts db)).

Definition FindByUsername (username : string) : DB AuthDB Error User :=
  (call ErrDatabase;
   fail if negb (storable (normalizeUsername username)) with ErrDatabase;
   do db <- dget;
   match accountNamed db (normalizeUsername username) with
   | Some (id, r) => dret (scanUser id r)
   | None => dfail ErrNotFound
   end)%db.

Definition FindByID (id : UUID) : DB AuthDB Error User :=
  (call ErrDatabase;
   do db <- dget;
   match liveAccount db id with Some r => dret (scanUser id r) | None => dfail ErrNotFound end)%db.

Definition newAccount (p : CreateUserParams) (now : Time) : AccountRow :=
  MkAccountRow (normalizeUsername (ParamUsername p)) (ParamDisplayName p) (ParamRole p) (ParamStatus p) (ParamPasswordHash p)
    (ParamMustChange p) (pg now) None.

(** [Create] inside a transaction ([txUsers]). *)
Definition insertAccount (p : CreateUserParams) : DB AuthDB Error User :=
  (do id <- newUUID;
   do now <- databaseNow ErrDatabase;
   do db <- dget;
   let row := newAccount p now in
   fail if negb (accountCheck row) with ErrDatabase;
   match accountViolation db id row with
   | Some v => dfail (mapStoreError v)
   | None =>
       do _ <- dput (setAccounts (<[id := row]> (accounts db)) db);
       dret (scanUser id row)
   end)%db.

Definition defaultStatus (p : CreateUserParams) : CreateUserParams :=
  MkCreateUser (ParamUsername p) (ParamDisplayName p) (ParamRole p)
    (if bool_decide (ParamStatus p = OtherStatus EmptyString) then StatusActive else ParamStatus p)
    (ParamPasswordHash p) (ParamMustChange p).

Definition CreateUser (p : CreateUserParams) : DB AuthDB Error User :=
  statement ErrDatabase (insertAccount (defaultStatus p)).

Definition withPassword (hash : string) (mustChange : bool) (r : AccountRow) : AccountRow :=
  MkAccountRow (ac_username r) (ac_display r) (ac_role r) (ac_status r) hash mustChange (ac_created r) (ac_deleted r).
Definition withStatus (status : Status) (r : AccountRow) : AccountRow :=
  MkAccountRow (ac_username r) (ac_display r) (ac_role r) status (ac_hash r) (ac_mustChange r) (ac_created r) (ac_deleted r).

(** [UPDATE users SET ... WHERE id = $1 AND deleted_at IS NULL]; [valid] is whether the
    server can read the arguments. *)
Definition updateAccount (id : UUID) (valid : bool) (f : AccountRow -> AccountRow) : DB AuthDB Error unit :=
  (call ErrDatabase;
   fail if negb valid with ErrDatabase;
   do db <- dget;
   match liveAccount db id with
   | Some r => dput (setAccounts (<[id := f r]> (accounts db)) db)
   | None => dfail ErrNotFound
   end)%db.

Definition setPassword (id : UUID) (hash : string) (mustChange : bool) : DB AuthDB Error unit :=
  updateAccount id (storable hash) (withPassword hash mustChange).
Definition setStatus (id : UUID) (status : Status) : DB AuthDB Error unit :=
  updateAccount id (statusOK status) (withStatus status).

Definition UpdatePassword (id : UUID) (hash : string) (mustChange : bool) : DB AuthDB Error unit :=
  statement ErrDatabase (setPassword id hash mustChange).
Definition SetStatus (id : UUID) (status : Status) : DB AuthDB Error unit :=
  statement ErrDatabase (setStatus id status).

(** [ORDER BY id]: students after the cursor, if there is one. *)
Definition studentsAfter (db : AuthDB) (after : UUID) : list (UUID * AccountRow) :=
  orderBy (fun '(id, _) => [Z.of_N id])
    (List.filter (fun '(id, r) => bool_decide (ac_role r = RoleStudent) && opened (ac_deleted r)
                    && ((after =? NilUUID)%N || (after <? id)%N)) (map_to_list (accounts db))).

Definition ListStudents (limit : Z) (after : UUID) : DB AuthDB Error (list User) :=
  let limit := if limit <? 1 then 1 else limit in
  let limit := if 100 <? limit then 100 else limit in
  (call ErrDatabase;
   do db <- dget;
   dret ((fun '(id, r) => scanUser id r) <$> take (Z.to_nat limit) (studentsAfter db after)))%db.

(** ** Sessions *)
Definition sessionRow (p : CreateSessionParams) : SessionRow :=
  MkSessionRow (ParamUser p) (ParamToken p) (ParamAgent p) (ParamIP p) (pg (ParamCreated p)) (pg (ParamSeen p)) (pg (ParamIdle p))
    (pg (ParamAbsolute p)) None None.

Definition insertSession (p : CreateSessionParams) : DB AuthDB Error unit :=
  (call ErrDatabase;
   do db <- dget;
   fail if negb (sessionAllowed db (ParamID p) (sessionRow p)) with ErrDatabase;
   dput (setSessions (<[ParamID p := sessionRow p]> (sessions db)) db))%db.

Definition withID (id : UUID) (p : CreateSessionParams) : CreateSessionParams :=
  MkCreateSession id (ParamUser p) (ParamToken p) (ParamAgent p) (ParamIP p) (ParamCreated p) (ParamSeen p) (ParamIdle p) (ParamAbsolute p).

Definition CreateSession (p : CreateSessionParams) : DB AuthDB Error unit :=
  (do id <- (if (ParamID p =? NilUUID)%N then newUUID else dret (ParamID p));
   statement ErrDatabase (insertSession (withID id p)))%db.

Definition scanSession (id : UUID) (r : SessionRow) : Session :=
  MkSession id (se_user r) (se_token r) (se_agent r) (se_ip r) (UTC (se_created r)) (UTC (se_seen r)) (UTC (se_idle r))
    (UTC (se_absolute r)) (UTC <$> se_revoked r) (se_reason r).

(** Not revoked and not expired; a time is compared as it would be stored. *)
Definition activeAt (now : Time) (r : SessionRow) : bool :=
  opened (se_revoked r) && (stored (ns now) <? ns (se_idle r)) && (stored (ns now) <? ns (se_absolute r)).

Definition sessionOf (db : AuthDB) (token : list Z) : option (UUID * SessionRow) :=
  List.find (fun '(_, r) => bool_decide (se_token r = token)) (map_to_list (sessions db)).

Definition FindActiveByTokenHash (token : list Z) (now : Time) : DB AuthDB Error (Session * User) :=
  (call ErrDatabase;
   do db <- dget;
   match sessionOf db token with
   | Some (id, r) =>
       match liveAccount db (se_user r) with
       | Some u => if activeAt now r then dret (scanSession id r, scanUser (se_user r) u) else dfail ErrNotFound
       | None => dfail ErrNotFound
       end
   | None => dfail ErrNotFound
   end)%db.

Definition touchedRow (seen idle : Time) (r : SessionRow) : SessionRow :=
  if ns (se_seen r) <=? stored (ns seen) - 5 * minute then
    MkSessionRow (se_user r) (se_token r) (se_agent r) (se_ip r) (se_created r) (pg seen)
      (MkTime (Z.min (stored (ns idle)) (ns (se_absolute r))) None) (se_absolute r) (se_revoked r) (se_reason r)
  else r.

Definition touchBody (id : UUID) (seen idle : Time) : DB AuthDB Error unit :=
  (call ErrDatabase;
   do db <- dget;
   match sessions db !! id with
   | Some r => if activeAt seen r then dput (setSessions (<[id := touchedRow seen idle r]> (sessions db)) db) else dfail ErrNotFound
   | None => dfail ErrNotFound
   end)%db.

Definition Touch (id : UUID) (seen idle : Time) : DB AuthDB Error unit := statement ErrDatabase (touchBody id seen idle).

Definition revokedRow (now : Time) (reason : string) (r : SessionRow) : SessionRow :=
  MkSessionRow (se_user r) (se_token r) (se_agent r) (se_ip r) (se_created r) (se_seen r) (se_idle r) (se_absolute r)
    (Some now) (Some reason).

(** [UPDATE sessions SET revoked_at = now(), ... WHERE ... AND revoked_at IS NULL]. *)
Definition revokeWhere (p : UUID -> SessionRow -> bool) (reason : string) : DB AuthDB Error bool :=
  (do now <- databaseNow ErrDatabase;
   do db <- dget;
   let hit id r := opened (se_revoked r) && p id r in
   do _ <- dput (setSessions (map_imap (fun id r => Some (if hit id r then revokedRow (pg now) reason r else r)) (sessions db)) db);
   dret (existsb (fun '(id, r) => hit id r) (map_to_list (sessions db))))%db.

Definition revokeBody (id : UUID) (reason : string) : DB AuthDB Error unit :=
  (do hit <- revokeWhere (fun k _ => (k =? id)%N) reason;
   if hit : bool then dret tt else dfail ErrNotFound)%db.

Definition Revoke (id : UUID) (reason : string) : DB AuthDB Error unit := statement ErrDatabase (revokeBody id reason).

(** [RevokeAllForUser] inside a transaction ([txSessions]). *)
Definition revokeUser (user : UUID) (reason : string) : DB AuthDB Error unit :=
  (do _ <- revokeWhere (fun _ r => (se_user r =? user)%N) reason; dret tt)%db.

Definition RevokeAllForUser (user : UUID) (reason : string) : DB AuthDB Error unit :=
  statement ErrDatabase (revokeUser user reason).

Definition exceptBody (user except : UUID) (now : Time) (reason : string) : DB AuthDB Error unit :=
  (call ErrDatabase;
   do db <- dget;
   match sessions db !! except with
   | Some r =>
       if (se_user r =? user)%N && activeAt now r then
         do _ <- revokeWhere (fun k r => (se_user r =? user)%N && negb (k =? except)%N) reason;
         dret tt
       else dfail ErrNotFound
   | None => dfail ErrNotFound
   end)%db.

Definition RevokeAllExceptForUser (user except : UUID) (now : Time) (reason : string) : DB AuthDB Error unit :=
  transact ErrDatabase ErrDatabase (exceptBody user except now reason).

(** ** Login events *)
Definition loginRow (e : LoginEvent) : LoginRow :=
  MkLoginRow (EventUser e) (normalizeUsername (EventUsername e)) (EventSuccess e) (EventReason e) (LoginIP e) (LoginAgent e) (pg (EventAt e)).

Definition loginCheck (db : AuthDB) (r : LoginRow) : bool :=
  match lo_user r with Some u => bool_decide (is_Some (accounts db !! u)) | None => true end
  && storable (lo_username r) && storable (lo_reason r) && storable (lo_agent r) && addressable (lo_ip r).

Definition loginBody (e : LoginEvent) : DB AuthDB Error unit :=
  (call ErrDatabase;
   do db <- dget;
   fail if negb (loginCheck db (loginRow e)) with ErrDatabase;
   dput (setLogins (loginEvents db ++ [loginRow e]) db))%db.

Definition RecordLoginEvent (e : LoginEvent) : DB AuthDB Error unit := statement ErrDatabase (loginBody e).

(** ** Changing a password *)
Definition rotateBody (p : PasswordRotationParams) : DB AuthDB Error unit :=
  (call ErrDatabase;
   do db <- dget;
   match liveAccount db (RotateUser p) with
   | None => dfail ErrNotFound
   | Some r =>
       fail if negb (bool_decide (ac_status r = StatusActive)) || negb (bool_decide (ac_hash r = ExpectedPasswordHash p)) with ErrConflict;
       do _ <- setPassword (RotateUser p) (NewPasswordHash p) (RotateMustChange p);
       do _ <- revokeUser (RotateUser p) "password changed";
       insertSession (ReplacementSession p)
   end)%db.

Definition RotatePassword (p : PasswordRotationParams) : DB AuthDB Error unit :=
  let s := ReplacementSession p in
  (fail if (RotateUser p =? NilUUID)%N || negb (ParamUser s =? RotateUser p)%N || (ParamID s =? NilUUID)%N with ErrConflict;
   transact ErrDatabase ErrDatabase (rotateBody p))%db.

End Store.

End AuthStore.

(** * Logging in, staying logged in, and the administration of students

    What the system's random generator gives is an argument of the calls that ask for it. *)

Module AuthService.
Import Auth AuthStore.

Section Service.
Context `{PgTime} `{Argon2} (lower : string -> string) (params : Argon2Params).

(** [NewService] computes the hash that the passwords of unknown users are compared with;
    a hasher without parameters is replaced. *)
Definition dummySalt : list Z := seqZ 0 (SaltLength params).
Definition dummyHash : option string := hashWithSalt params "HappyLearn invalid login dummy password" dummySalt.
(** ** Sessions *)
Definition newSession (user : User) (ip : IP) (agent : string) (random : option (list Z)) : DB AuthDB Error (Session * string) :=
  (match NewSessionToken random with
   | Err e => dfail e
   | Ok (raw, hash) =>
       do now <- wallNow;
       let now := UTC now in
       do id <- newUUID;
       dret (MkSession id (UserID user) hash agent ip now now (addDuration now sessionIdleTTL) (addDuration now sessionAbsoluteTTL)
               None None, raw)
   end)%db.

Definition createSessionParams (s : Session) : CreateSessionParams :=
  MkCreateSession (SessionID s) (SessionUser s) (TokenHash s) (UserAgent s) (SessionIP s) (CreatedAt s) (LastSeenAt s)
    (IdleExpiresAt s) (AbsoluteExpiresAt s).

Definition createSession (user : User) (ip : IP) (agent : string) (random : option (list Z)) : DB AuthDB Error (Authentication * string) :=
  (do (session, raw) <- newSession user ip agent random;
   do _ <- CreateSession (createSessionParams session);
   dret (MkAuthentication user session, raw))%db.

Definition recordLoginEvent (user : option UUID) (username : string) (success : bool) (reason : string) (ip : IP) (agent : string) :
  DB AuthDB Error unit :=
  (do now <- wallNow;
   RecordLoginEvent lower (MkLoginEvent user username success reason ip agent (UTC now)))%db.

Definition failedLogin {A} (user : option UUID) (username reason : string) (i : LoginInput) : DB AuthDB Error A :=
  (do _ <- attempt (recordLoginEvent user username false reason (FromIP i) (FromAgent i)) : DB AuthDB Error (result Error unit);
   dfail ErrInvalidCredentials)%db.

(** ** [Login]

    The comparison with the dummy hash only takes time. *)
Definition startSession (user : User) (username : string) (i : LoginInput) (random : option (list Z)) :
  DB AuthDB Error (Authentication * string) :=
  (do (a, raw) <- createSession user (FromIP i) (FromAgent i) random;
   do recorded <- attempt (recordLoginEvent (Some (UserID user)) username true "success" (FromIP i) (FromAgent i));
   match recorded with
   | Ok _ => dret (a, raw)
   | Err _ =>
       do _ <- attempt (Revoke (SessionID (AuthSession a)) "login event failed") : DB AuthDB Error (result Error unit);
       dfail ErrInvalidCredentials
   end)%db.

Definition checkLogin (username : string) (found : result Error User) (i : LoginInput) (random : option (list Z)) :
  DB AuthDB Error (Authentication * string) :=
  match found with
  | Err ErrNotFound => failedLogin None username "unknown_user" i
  | Err _ => dfail ErrInvalidCredentials
  | Ok user =>
      if negb (Compare (PasswordHash user) (LoginPassword i)) then failedLogin (Some (UserID user)) username "invalid_password" i
      else if negb (bool_decide (UserStatus user = StatusActive)) then failedLogin (Some (UserID user)) username "disabled" i
      else startSession user username i random
  end.

Definition Login (i : LoginInput) (random : option (list Z)) : DB AuthDB Error (Authentication * string) :=
  let username := normalizeUsername lower (LoginUsername i) in
  (do found <- attempt (FindByUsername lower username);
   checkLogin username found i random)%db.

(** ** [Authenticate] *)
Definition idleUntil (now : Time) (s : Session) : Time :=
  let idle := addDuration now sessionIdleTTL in
  if After idle (AbsoluteExpiresAt s) then AbsoluteExpiresAt s else idle.

Definition seenAgain (now : Time) (s : Session) : Session :=
  MkSession (SessionID s) (SessionUser s) (TokenHash s) (UserAgent s) (SessionIP s) (CreatedAt s) now (idleUntil now s)
    (AbsoluteExpiresAt s) (RevokedAt s) (RevokeReason s).

Definition touch (now : Time) (s : Session) : DB AuthDB Error unit := Touch (SessionID s) now (idleUntil now s).

Definition Authenticate (raw : string) : DB AuthDB Error Authentication :=
  (fail if bool_decide (raw = EmptyString) with ErrUnauthenticated;
   do now <- wallNow;
   let now := UTC now in
   do found <- attempt (FindActiveByTokenHash (Sum256 (bytes raw)) now);
   match found with
   | Err _ => dfail ErrUnauthenticated
   | Ok (session, user) =>
       fail if negb (bool_decide (UserStatus user = StatusActive)) with ErrUnauthenticated;
       if sessionTouchPeriod <=? Sub now (LastSeenAt session) then
         do touched <- attempt (touch now session);
         match touched with
         | Ok _ => dret (MkAuthentication user (seenAgain now session))
         | Err _ => dfail ErrUnauthenticated
         end
       else dret (MkAuthentication user session)
   end)%db.

(** ** [ChangePassword], [Logout], [LogoutOthers] *)
Definition ChangePassword (i : ChangePasswordInput) (salt random : option (list Z)) : DB AuthDB Error (Authentication * string) :=
  (do current <- Authenticate (SessionToken i);
   let user := AuthUser current in
   fail if negb (Compare (PasswordHash user) (CurrentPassword i)) with ErrInvalidCredentials;
   fail if negb (ValidatePassword (NewPassword i)) with ErrPassword;
   match Hash params (NewPassword i) salt with
   | None => dfail ErrPassword
   | Some newHash =>
       do (session, raw) <- newSession user (ChangeIP i) (ChangeAgent i) random;
       do rotated <- attempt (RotatePassword
         (MkRotation (UserID user) (PasswordHash user) newHash false (createSessionParams session)));
       match rotated with
       | Err _ => dfail ErrInvalidCredentials
       | Ok _ =>
           dret (MkAuthentication
             (MkUser (UserID user) (Username user) (DisplayName user) (UserRole user) (UserStatus user) newHash false (UserCreated user))
             session, raw)
       end
   end)%db.

Definition Logout (raw : string) : DB AuthDB Error unit :=
  (do current <- Authenticate raw;
   do revoked <- attempt (Revoke (SessionID (AuthSession current)) "logout");
   match revoked with
   | Ok _ | Err ErrNotFound => dret tt
   | Err e => dfail e
   end)%db.

Definition LogoutOthers (raw : string) : DB AuthDB Error unit :=
  (do current <- Authenticate raw;
   do now <- wallNow;
   do revoked <- attempt (RevokeAllExceptForUser (UserID (AuthUser current)) (SessionID (AuthSession current)) (UTC now) "logout others");
   match revoked with
   | Ok _ => dret tt
   | Err ErrNotFound => dfail ErrUnauthenticated
   | Err e => dfail e
   end)%db.

End Service.

Definition serviceParams (configured : Argon2Params) : Argon2Params :=
  if bool_decide (configured = MkArgon2 0 0 0 0 0) then MkArgon2 (64 * 1024) 3 2 16 32 else configured.

Definition NewService `{Argon2} (configured : Argon2Params) : result Error (Argon2Params * string) :=
  let params := serviceParams configured in
  if negb (validateArgon2Params params) then Err ErrInvalidConfiguration
  else match dummyHash params with Some hash => Ok (params, hash) | None => Err ErrInvalidConfiguration end.

(** ** Students ([internal/students]) *)
Record Actor := MkActor { ActorUser : User; ActorRequest : string; ActorIP : IP }.
Record CreateInput := MkCreateInput { StudentUsername : string; StudentName : string; TemporaryPassword : string }.

Definition authorized (a : Actor) : bool :=
  bool_decide (UserRole (ActorUser a) = RoleAdmin) && negb (UserID (ActorUser a) =? NilUUID)%N
  && bool_decide (UserStatus (ActorUser a) = StatusActive) && negb (blank (ActorRequest a)) && bool_decide (is_Some (ActorIP a)).

Definition validUsername (s : string) : bool := matchClass (fun b => isLower b || isDigit b || oneOf "._-" b) 3 64 s.

Definition validDisplayName (s : string) : bool :=
  ValidString s && (1 <=? RuneCountInString s) && (RuneCountInString s <=? 64) && negb (blank s).

Section Students.
Context `{PgTime} `{Argon2} `{UUIDText} (lower : string -> string) (params : Argon2Params).

Definition event (a : Actor) (action : string) (target : UUID) (metadata : gmap string Audit.any) : Audit.Event :=
  Audit.MkEvent (UserID (ActorUser a)) action "student" (uuidString target) metadata (ActorRequest a) (ActorIP a).

(** The column of the actor refers to the accounts. *)
Definition writeAudit (e : Audit.Event) : DB AuthDB Error unit :=
  (do _ <- Audit.Write ErrAudit e;
   do db <- dget;
   fail if negb (bool_decide (is_Some (accounts db !! Audit.ActorUserID e))) with ErrAudit Audit.ErrWrite;
   dret tt)%db.

Definition WithinTx {A} (body : DB AuthDB Error A) : DB AuthDB Error A := transact ErrDatabase ErrDatabase body.

Definition createBody (a : Actor) (i : CreateInput) (username hash : string) : DB AuthDB Error User :=
  (do student <- insertAccount lower (MkCreateUser username (StudentName i) RoleStudent StatusActive hash true);
   do _ <- writeAudit (event a "student.created" (UserID student)
     {["username"%string := Audit.AnyString (Username student); "display_name"%string := Audit.AnyString (DisplayName student)]});
   dret student)%db.

Definition CreateStudent (a : Actor) (i : CreateInput) (salt : option (list Z)) : DB AuthDB Error User :=
  let username := normalizeUsername lower (StudentUsername i) in
  (fail if negb (authorized a) with ErrForbidden;
   fail if negb (validUsername username) || negb (validDisplayName (StudentName i)) || negb (ValidatePassword (TemporaryPassword i))
     with ErrInvalidInput;
   match Hash params (TemporaryPassword i) salt with
   | None => dfail ErrPassword
   | Some hash => WithinTx (createBody a i username hash)
   end)%db.

(** The row is locked until the transaction ends. *)
Definition targetStudent (id : UUID) : DB AuthDB Error User :=
  (do student <- FindByID id;
   fail if negb (bool_decide (UserRole student = RoleStudent)) with ErrForbidden;
   dret student)%db.

Definition statusName (s : Status) : string :=
  match s with StatusActive => "active" | StatusDisabled => "disabled" | OtherStatus t => t end.

Definition setStatusBody (a : Actor) (id : UUID) (status : Status) : DB AuthDB Error unit :=
  (do student <- targetStudent id;
   do _ <- setStatus (UserID student) status;
   if bool_decide (status = StatusDisabled) then
     do _ <- revokeUser (UserID student) "student disabled";
     writeAudit (event a "student.disabled" (UserID student) {["status"%string := Audit.AnyString (statusName status)]})
   else
     writeAudit (event a "student.enabled" (UserID student) {["status"%string := Audit.AnyString (statusName status)]}))%db.

Definition SetStudentStatus (a : Actor) (id : UUID) (status : Status) : DB AuthDB Error unit :=
  (fail if negb (authorized a) with ErrForbidden;
   fail if (id =? NilUUID)%N || negb (statusOK status) with ErrInvalidInput;
   WithinTx (setStatusBody a id status))%db.

Definition resetBody (a : Actor) (id : UUID) (hash : string) : DB AuthDB Error unit :=
  (do student <- targetStudent id;
   do _ <- setPassword (UserID student) hash true;
   do _ <- revokeUser (UserID student) "password reset";
   writeAudit (event a "student.password_reset" (UserID student) ∅))%db.

Definition ResetPassword (a : Actor) (id : UUID) (password : string) (salt : option (list Z)) : DB AuthDB Error unit :=
  (fail if negb (authorized a) with ErrForbidden;
   fail if (id =? NilUUID)%N || negb (ValidatePassword password) with ErrInvalidInput;
   match Hash params password salt with
   | None => dfail ErrPassword
   | Some hash => WithinTx (resetBody a id hash)
   end)%db.

(** The cursor for the next page is the last identifier of a full one. *)
Definition ListPage (a : Actor) (limit : Z) (after : UUID) : DB AuthDB Error (list User * UUID) :=
  (fail if negb (authorized a) with ErrForbidden;
   fail if (limit <? 1) || (100 <? limit) with ErrInvalidInput;
   do users <- ListStudents limit after;
   dret (users, if Z.of_nat (length users) =? limit then match last users with Some u => UserID u | None => NilUUID end
                else NilUUID))%db.

End Students.

(** ** The gates in front of the handlers ([internal/auth/http.go]) *)
Inductive Gate := Passed (user : User) (raw : string) (session : UUID) | Unauthenticated | PasswordChangeRequired | Forbidden.

(** One cookie of that name, and not an empty one. *)
Definition sessionCookie (cookies : list (string * string)) : option string :=
  match List.filter (fun '(name, _) => bool_decide (name = "hl_session"%string)) cookies with
  | [(_, value)] => if bool_decide (value = EmptyString) then None else Some value
  | _ => None
  end.

Definition passwordChangeAllowed (path : string) : bool :=
  member ["/api/v1/auth/me"; "/api/v1/auth/change-password"; "/api/v1/auth/logout"]%string path.

Definition AuthenticateGate `{PgTime} (cookies : list (string * string)) (path : string) : DB AuthDB Error Gate :=
  (match sessionCookie cookies with
   | None => dret Unauthenticated
   | Some raw =>
       do found <- attempt (Authenticate raw);
       match found with
       | Err _ => dret Unauthenticated
       | Ok a =>
           if negb (bool_decide (UserStatus (AuthUser a) = StatusActive)) then dret Unauthenticated
           else if MustChangePassword (AuthUser a) && negb (passwordChangeAllowed path) then dret PasswordChangeRequired
           else dret (Passed (AuthUser a) raw (SessionID (AuthSession a)))
       end
   end)%db.

(** [RequireRole] behind it. *)
Definition RequireRole (role : Role) (g : Gate) : Gate :=
  match g with
  | Passed user raw session => if bool_decide (UserRole user = role) then g else Forbidden
  | _ => g
  end.

End AuthService.
