(* ===== verification/AuthTheorems.v ===== *)
(** * Theorems on authentication

    Stored passwords can be read back and nothing else can; the invariant of accounts and
    sessions; how long a session lives and that a revoked one stays so; what ends all
    sessions of a user; when a login succeeds. *)

From S2P Require Import Prelude GoTime GoText GoStrings GoSha256 GoStrconv GoEncoding Pg OpsModel Keyset AuditLog FilesStore AuthModel AuthStore.
From stdpp Require Import base tactics list gmap strings relations.
From Stdlib Require Import ZArith Lia.

Open Scope Z_scope.

Import Auth AuthStore AuthService.

(** ** Passwords *)
Lemma parseUint_printed n prefix bits : 0 <= n < 2 ^ bits ->
  parseCanonicalUint (prefix +:+ FormatInt n)%string prefix bits = Some n.
Proof.
  intros Hn. unfold parseCanonicalUint. rewrite bytes_app.
  assert (Hp : hasPrefix (bytes prefix ++ bytes (FormatInt n)) (bytes prefix) = true) by (apply hasPrefix_app; eauto).
  rewrite Hp. cbn [negb]. rewrite drop_app_length, fromBytes_bytes, ParseUint_FormatInt by done.
  rewrite (bool_decide_eq_true_2 (FormatInt n = FormatInt n)) by done.
  assert (Hne : FormatInt n <> EmptyString).
  { pose proof (ParseUint_FormatInt bits n Hn) as Hf. by intros E; rewrite E in Hf. }
  rewrite bool_decide_eq_false_2 by done. cbn [orb].
  destruct (FormatInt_head n ltac:(lia)) as [Hl|[Hh _]]; [by rewrite (proj2 (Z.ltb_ge _ _)) by lia|].
  rewrite andb_comm. destruct (bytes (FormatInt n)) as [|x b] eqn:Eb.
  { destruct (FormatInt n); [done|discriminate Eb]. }
  cbn [head or_zero] in *. rewrite (proj2 (Z.eqb_neq x 48)) by congruence. done.
Qed.

Lemma parseUint_only value prefix bits n : parseCanonicalUint value prefix bits = Some n -> value = (prefix +:+ FormatInt n)%string.
Proof.
  unfold parseCanonicalUint. destruct (hasPrefix _ _) eqn:Ep; [|done]. cbn [negb]. apply hasPrefix_app in Ep as [rest Er].
  rewrite Er, drop_app_length. destruct (_ || _); [done|]. destruct (ParseUint _ _) as [m|]; [|done].
  case_bool_decide as Em; [|done]. intros [= ->]. rewrite <- (fromBytes_bytes value), Er, fromBytes_app, fromBytes_bytes, Em. done.
Qed.

Lemma RawStd_no_equal b : Forall isByte b -> existsb (Z.eqb 61) (bytes (RawStdEncode b)) = false.
Proof.
  intros Hb. pose proof (encode64_class 43 47 b ltac:(by left) Hb) as Hc. fold (RawStdEncode b) in Hc.
  induction Hc as [|c l Hc _ IH]; [done|]. cbn [existsb]. rewrite IH, orb_false_r. apply Z.eqb_neq.
  intros <-. vm_compute in Hc. discriminate.
Qed.

Lemma decodeBase64_printed b : Forall isByte b -> b <> [] -> decodeCanonicalBase64 (RawStdEncode b) = Some b.
Proof.
  intros Hb Hne. unfold decodeCanonicalBase64. rewrite RawStd_no_equal by done.
  rewrite bool_decide_eq_false_2 by (destruct b; [done|apply encode64_nonempty]). cbn [orb].
  unfold RawStdDecode, RawStdEncode at 1. rewrite decode64_encode64 by auto. by rewrite bool_decide_eq_true_2.
Qed.

Lemma decodeBase64_only value b : decodeCanonicalBase64 value = Some b -> value = RawStdEncode b.
Proof.
  unfold decodeCanonicalBase64. destruct (_ || _); [done|]. destruct (RawStdDecode value) as [d|]; [|done].
  case_bool_decide; [|done]. by intros [= <-].
Qed.

(** The text of the parameters, and the whole text, are joined from their parts. *)
Definition parameterText (p : Argon2Params) : string :=
  joinText (fromBytes [44]) [("m=" +:+ FormatInt (MemoryKiB p))%string; ("t=" +:+ FormatInt (Iterations p))%string;
    ("p=" +:+ FormatInt (Parallelism p))%string].

Lemma string_assoc (a b c : string) : ((a +:+ b) +:+ c)%string = (a +:+ b +:+ c)%string.
Proof. induction a as [|x a IH]; [done|]. exact (f_equal (String x) IH). Qed.

Lemma printPHC_joined p salt hash :
  printPHC p salt hash = joinText (fromBytes [36]) [""%string; "argon2id"%string; "v=19"%string; parameterText p; RawStdEncode salt; RawStdEncode hash].
Proof. unfold printPHC, parameterText. cbn [joinText]. rewrite !string_assoc. done. Qed.

Lemma digits_avoid n sep : 0 <= n -> isDigit sep = false -> sep ∉ bytes (FormatInt n).
Proof.
  intros Hn Hs Hin. pose proof (FormatInt_digits n Hn) as Hd. rewrite Forall_forall in Hd. apply Hd in Hin. congruence.
Qed.

Lemma bytes_avoid s sep : existsb (Z.eqb sep) (bytes s) = false -> sep ∉ bytes s.
Proof.
  intros Hf Hin. rewrite <- not_true_iff_false in Hf. apply Hf, existsb_exists. exists sep. rewrite <- list_elem_of_In. by rewrite Z.eqb_refl.
Qed.

Lemma base64_avoid b : Forall isByte b -> 36 ∉ bytes (RawStdEncode b).
Proof.
  intros Hb Hin. pose proof (encode64_class 43 47 b ltac:(by left) Hb) as Hc. rewrite Forall_forall in Hc.
  specialize (Hc _ Hin). vm_compute in Hc. discriminate.
Qed.

(** The fields of the parameters are unsigned in Go. *)
Definition unsigned (p : Argon2Params) : Prop := 0 <= MemoryKiB p /\ 0 <= Iterations p /\ 0 <= Parallelism p.

(** What is read back of the parameters. *)
Definition workOf (p : Argon2Params) : Argon2Params := MkArgon2 (MemoryKiB p) (Iterations p) (Parallelism p) 0 0.

Lemma validWork_bounds p : validateArgon2Work p = true ->
  MemoryKiB p <= 131072 /\ Iterations p <= 4 /\ Parallelism p <= 4.
Proof. unfold validateArgon2Work, maxArgon2MemoryKiB, maxArgon2Iterations, maxArgon2Parallelism. intros; bool_simpl. lia. Qed.

Lemma parameters_printed p : unsigned p -> validateArgon2Work p = true -> parseParameters (parameterText p) = Some (workOf p).
Proof.
  intros (Hm & Hi & Hp) Hw. pose proof (validWork_bounds p Hw) as Hb. unfold parseParameters, parameterText.
  rewrite Split_Join.
  - rewrite !parseUint_printed by lia. fold (workOf p). change (validateArgon2Work (workOf p)) with (validateArgon2Work p). by rewrite Hw.
  - unfold isByte. lia.
  - repeat constructor; rewrite bytes_app; intros [Hin|Hin]%elem_of_app;
      try (by apply (digits_avoid _ 44) in Hin); revert Hin; apply bytes_avoid; reflexivity.
Qed.

Lemma len_FormatInt v : 0 <= v < 10 ^ 6 -> len (FormatInt v) <= 6.
Proof.
  intros Hv. destruct (FormatInt_head v ltac:(lia)) as [Hl|[_ Hl]]; [lia|]. destruct (decide (len (FormatInt v) <= 6)); [done|].
  pose proof (Z.pow_le_mono_r 10 6 (len (FormatInt v) - 1) ltac:(lia) ltac:(lia)). lia.
Qed.

Lemma printPHC_short p salt hash : unsigned p -> validateArgon2Work p = true ->
  Z.of_nat (length salt) <= 64 -> Z.of_nat (length hash) <= 64 ->
  len (printPHC p salt hash) <= maxPHCEncodedLength /\ len (RawStdEncode salt) <= maxPHCBase64Length /\ len (RawStdEncode hash) <= maxPHCBase64Length.
Proof.
  intros (Hm & Hi & Hp) Hw Hs Hh. pose proof (validWork_bounds p Hw) as Hb.
  pose proof (encode64_length 43 47 salt) as Es. pose proof (encode64_length 43 47 hash) as Eh.
  fold (RawStdEncode salt) in Es. fold (RawStdEncode hash) in Eh.
  pose proof (len_FormatInt (MemoryKiB p) ltac:(lia)). pose proof (len_FormatInt (Iterations p) ltac:(lia)).
  pose proof (len_FormatInt (Parallelism p) ltac:(lia)). unfold maxPHCEncodedLength, maxPHCBase64Length.
  split_and!; [|lia|lia]. unfold printPHC. rewrite !len_app. change (len "$argon2id$v=19$m=") with 17. change (len ",t=") with 3.
  change (len ",p=") with 3. change (len "$") with 1. lia.
Qed.

Definition keyed (b : list Z) : Prop := Forall isByte b /\ between16And64 b = true.

Lemma keyed_nonempty b : keyed b -> b <> [].
Proof. by intros [_ Hb] ->. Qed.

Lemma parsePHC_printed p salt hash : unsigned p -> validateArgon2Work p = true -> keyed salt -> keyed hash ->
  parsePHC (printPHC p salt hash) = Some (workOf p, salt, hash).
Proof.
  intros Hu Hw Hs Hh. destruct (Hs) as [Bs Ls], (Hh) as [Bh Lh].
  assert (Hb : Z.of_nat (length salt) <= 64 /\ Z.of_nat (length hash) <= 64) by (unfold between16And64 in *; bool_simpl; lia).
  destruct (printPHC_short p salt hash Hu Hw ltac:(tauto) ltac:(tauto)) as (Hl & Hls & Hlh).
  unfold parsePHC. rewrite (proj2 (Z.ltb_ge _ _)) by done. rewrite printPHC_joined, Split_Join.
  - rewrite !bool_decide_eq_true_2 by done. cbn [negb orb]. rewrite !(proj2 (Z.ltb_ge _ _)) by done. cbn [orb].
    rewrite parameters_printed, !decodeBase64_printed by eauto using keyed_nonempty. by rewrite Ls, Lh.
  - unfold isByte. lia.
  - repeat constructor; try (by apply base64_avoid); try (apply bytes_avoid; reflexivity).
    unfold parameterText. cbn [joinText]. rewrite !bytes_app. destruct Hu as (Hm & Hi & Hp). intros Hin.
    repeat match goal with H : _ \/ _ |- _ => destruct H | H : 36 ∈ _ ++ _ |- _ => apply elem_of_app in H
      | H : 36 ∈ bytes (FormatInt _) |- _ => by apply digits_avoid in H end;
    match goal with H : 36 ∈ _ |- _ => revert H; apply bytes_avoid; reflexivity end.
Qed.

(** Only the canonical text is read. *)
Lemma parameters_only s p : parseParameters s = Some p -> s = parameterText p /\ validateArgon2Work p = true /\ SaltLength p = 0 /\ KeyLength p = 0.
Proof.
  unfold parseParameters. destruct (Split s 44) as [|a [|b [|c [|]]]] eqn:Es; try done.
  destruct (parseCanonicalUint a _ _) as [m|] eqn:Ea; [|done]. destruct (parseCanonicalUint b _ _) as [i|] eqn:Eb; [|done].
  destruct (parseCanonicalUint c _ _) as [q|] eqn:Ec; [|done]. destruct (validateArgon2Work _) eqn:Ew; [|done]. intros [= <-].
  apply parseUint_only in Ea, Eb, Ec. split_and!; try done. rewrite <- (Join_Split 44 s), Es. unfold parameterText. cbn [MemoryKiB Iterations Parallelism].
  by subst.
Qed.

Lemma parsePHC_only s p salt hash : parsePHC s = Some (p, salt, hash) ->
  s = printPHC p salt hash /\ validateArgon2Work p = true /\ between16And64 salt = true /\ between16And64 hash = true.
Proof.
  unfold parsePHC. destruct (_ <? _); [done|]. destruct (Split s 36) as [|a [|b [|c [|d [|e [|f [|]]]]]]] eqn:Es; try done.
  destruct (negb (bool_decide (a = ""%string)) || negb (bool_decide (b = "argon2id"%string)) || negb (bool_decide (c = "v=19"%string)) || _ || _) eqn:Eg; [done|].
  destruct (parseParameters d) as [p'|] eqn:Ed; [|done]. destruct (decodeCanonicalBase64 e) as [salt'|] eqn:Ee; [|done].
  destruct (decodeCanonicalBase64 f) as [hash'|] eqn:Ef; [|done]. destruct (between16And64 salt' && between16And64 hash') eqn:Ek; [|done].
  intros [= -> -> ->]. bool_simpl. apply parameters_only in Ed as (-> & Hw & _). apply decodeBase64_only in Ee, Ef. subst.
  split_and!; try done. by rewrite printPHC_joined, <- Es, Join_Split.
Qed.

Section Passwords.
Context `{Argon2}.
Variable params : Argon2Params.

Definition keyOf (password : string) (salt : list Z) : list Z :=
  IDKey (bytes password) salt (Iterations params) (MemoryKiB params) (Parallelism params) (KeyLength params).

Lemma hashWithSalt_parsed password salt enc : unsigned params -> Forall isByte salt -> hashWithSalt params password salt = Some enc ->
  validateArgon2Params params = true /\ Z.of_nat (length salt) = SaltLength params
  /\ parsePHC enc = Some (workOf params, salt, keyOf password salt) /\ Z.of_nat (length (keyOf password salt)) = KeyLength params.
Proof.
  intros Hu Hb. unfold hashWithSalt. destruct (validateArgon2Params params) eqn:Hv; [|done].
  destruct (Z.of_nat (length salt) =? SaltLength params) eqn:Hl; [|done]. cbn [negb orb]. fold (keyOf password salt). intros [= <-].
  pose proof Hv as Hv'. unfold validateArgon2Params in Hv'. bool_simpl.
  assert (Hk : Z.of_nat (length (keyOf password salt)) = KeyLength params) by (apply IDKey_length; lia).
  split_and!; try done. apply parsePHC_printed; [done|done|split; [done|]|split; [apply IDKey_bytes|]];
    unfold between16And64; apply andb_true_iff; rewrite !Z.leb_le; lia.
Qed.

Lemma Compare_parsed enc salt password password' : parsePHC enc = Some (workOf params, salt, keyOf password salt) ->
  Z.of_nat (length (keyOf password salt)) = KeyLength params ->
  Compare enc password' = bool_decide (keyOf password' salt = keyOf password salt).
Proof. intros Hp Hl. unfold Compare. rewrite Hp, Hl. reflexivity. Qed.

Lemma dummyHash_made : unsigned params -> validateArgon2Params params = true ->
  exists dummy key, NewService params = Ok (params, dummy) /\ parsePHC dummy = Some (workOf params, dummySalt params, key)
    /\ Z.of_nat (length key) = KeyLength params /\ Z.of_nat (length (dummySalt params)) = SaltLength params.
Proof.
  intros Hu Hv. unfold NewService, serviceParams. rewrite bool_decide_eq_false_2 by (intros E; by rewrite E in Hv). rewrite Hv. cbn [negb].
  unfold dummyHash. assert (Hs : 16 <= SaltLength params <= 64) by (unfold validateArgon2Params in Hv; bool_simpl; lia).
  assert (Hl : Z.of_nat (length (dummySalt params)) = SaltLength params) by (unfold dummySalt; rewrite length_seqZ; lia).
  assert (Hb : Forall isByte (dummySalt params)).
  { apply Forall_forall. intros x Hx. unfold dummySalt in Hx. apply elem_of_seqZ in Hx. unfold isByte. lia. }
  destruct (hashWithSalt _ _ _) as [dummy|] eqn:Eh.
  - destruct (hashWithSalt_parsed _ _ _ Hu Hb Eh) as (_ & _ & Hp & Hk). eexists dummy, _. by split_and!.
  - unfold hashWithSalt in Eh. rewrite Hv, Hl, Z.eqb_refl in Eh. done.
Qed.

(** C30. The text stored for a password gives back the parameters, the salt and the key it
    was made of, and no other text reads back as the same; it is accepted for the password
    it was made of and for another exactly when Argon2 derives the same key from that.
    The text that unknown users are compared with asks for the same work. *)
Theorem password_roundtrip password salt enc : unsigned params -> Forall isByte salt -> Hash params password (Some salt) = Some enc ->
  ValidatePassword password = true
  /\ parsePHC enc = Some (workOf params, salt, keyOf password salt)
  /\ (forall enc', parsePHC enc' = parsePHC enc -> enc' = enc)
  /\ Compare enc password = true
  /\ (forall password', Compare enc password' = true <-> keyOf password' salt = keyOf password salt)
  /\ exists dummy dsalt dkey, NewService params = Ok (params, dummy) /\ parsePHC dummy = Some (workOf params, dsalt, dkey)
       /\ length dsalt = length salt /\ length dkey = length (keyOf password salt).
Proof.
  intros Hu Hb. unfold Hash. destruct (ValidatePassword password) eqn:Hvp; [|done]. destruct (validateArgon2Params params) eqn:Hv; [|done].
  cbn [negb orb]. intros Hh. destruct (hashWithSalt_parsed _ _ _ Hu Hb Hh) as (_ & Hl & Hp & Hk).
  split_and!; try done.
  - intros enc' E. rewrite Hp in E. apply parsePHC_only in E as [-> _]. by apply parsePHC_only in Hp as [-> _].
  - rewrite (Compare_parsed _ _ _ _ Hp Hk). by apply bool_decide_eq_true.
  - intros password'. rewrite (Compare_parsed _ _ _ _ Hp Hk). apply bool_decide_eq_true.
  - destruct (dummyHash_made Hu Hv) as (dummy & key & Hn & Hd & Hkl & Hsl). exists dummy, (dummySalt params), key. split_and!; [done|done|lia|lia].
Qed.

End Passwords.

(** ** What the operations do to the tables *)
Create HintDb auth discriminated.

Section Tables.
Context `{PgTime} `{UUIDText} (lower : string -> string).

(** A session as the service makes it. *)
Definition freshSession (s : CreateSessionParams) : Prop :=
  ParamSeen s = ParamCreated s /\ ParamIdle s = addDuration (ParamCreated s) sessionIdleTTL
  /\ ParamAbsolute s = addDuration (ParamCreated s) sessionAbsoluteTTL.

Definition sameAccount (r r' : AccountRow) : Prop :=
  ac_username r' = ac_username r /\ ac_display r' = ac_display r /\ ac_role r' = ac_role r /\ ac_created r' = ac_created r
  /\ ac_deleted r' = ac_deleted r.

Inductive authChange (db : AuthDB) : AuthDB -> Prop :=
| changed_newAccount id r :
    accountCheck r = true -> accountViolation db id r = None -> ac_deleted r = None ->
    authChange db (setAccounts (<[id := r]> (accounts db)) db)
| changed_account id r r' :
    accounts db !! id = Some r -> sameAccount r r' -> accountCheck r' = true \/ accountCheck r = false ->
    authChange db (setAccounts (<[id := r']> (accounts db)) db)
| changed_newSession s :
    freshSession s -> sessionAllowed db (ParamID s) (sessionRow s) = true ->
    authChange db (setSessions (<[ParamID s := sessionRow s]> (sessions db)) db)
| changed_touched id r seen idle :
    sessions db !! id = Some r -> activeAt seen r = true -> ns idle <= ns seen + sessionIdleTTL ->
    authChange db (setSessions (<[id := touchedRow seen idle r]> (sessions db)) db)
| changed_revoked (p : UUID -> SessionRow -> bool) now reason :
    authChange db (setSessions (map_imap (fun id r => Some (if opened (se_revoked r) && p id r then revokedRow now reason r else r)) (sessions db)) db)
| changed_logins l : authChange db (setLogins (loginEvents db ++ l) db)
| changed_audit e m now : authChange db (Audit.setAudit (Audit.append e m now (Audit.auditOf db)) db).

(** However an operation ends, it has gone through steps of [R]. *)
Definition does {A} (R : AuthDB -> AuthDB -> Prop) (m : DB AuthDB Error A) : Prop :=
  forall env st st' r, m env st = (st', r) -> rtc R (snd st) (snd st').

Section Does.
Context (R : AuthDB -> AuthDB -> Prop).

Lemma does_bind {A B} (m : DB AuthDB Error A) (k : A -> DB AuthDB Error B) : does R m -> (forall a, does R (k a)) -> does R (dbind m k).
Proof.
  intros Hm Hk env st st' r. unfold dbind. destruct (m env st) as [st1 [a|e]] eqn:E1.
  - intros E2. etrans; [by eapply Hm|by eapply Hk].
  - intros [= <- <-]. by eapply Hm.
Qed.

Lemma does_attempt {A} (m : DB AuthDB Error A) : does R m -> does R (attempt m : DB AuthDB Error _).
Proof. intros Hm env st st' r. unfold attempt. destruct (m env st) as [st1 r1] eqn:E1. intros [= <- <-]. by eapply Hm. Qed.

Lemma does_transact {A} e1 e2 (m : DB AuthDB Error A) : does R m -> does R (transact e1 e2 m).
Proof.
  intros Hm env [n s] st' r Hrun. apply transact_outcome in Hrun as [->|(n1 & a & Hb)]; [done|]. by apply Hm in Hb.
Qed.

Lemma does_same {A} (m : DB AuthDB Error A) : (forall env st st' r, m env st = (st', r) -> snd st' = snd st) -> does R m.
Proof. intros Hs env st st' r Hrun. by rewrite (Hs _ _ _ _ Hrun). Qed.

Lemma does_ret {A} (a : A) : does R (dret a). Proof. apply does_same. by intros env st st' r [= <- _]. Qed.
Lemma does_fail {A} e : does R (dfail e : DB AuthDB Error A). Proof. apply does_same. by intros env st st' r [= <- _]. Qed.
Lemma does_call e : does R (roundtrip e).
Proof. apply does_same. intros env [n s] st' r. unfold roundtrip. by destruct (fault env n); intros [= <- _]. Qed.
Lemma does_now e : does R (databaseNow e).
Proof. apply does_same. intros env [n s] st' r. unfold databaseNow. by destruct (fault env n); intros [= <- _]. Qed.
Lemma does_wall : does R wallNow. Proof. apply does_same. by intros env [n s] st' r [= <- _]. Qed.
Lemma does_uuid : does R newUUID. Proof. apply does_same. by intros env [n s] st' r [= <- _]. Qed.

(** A statement that reads the tables and changes them makes the change of what it read. *)
Lemma does_get {A} (k : AuthDB -> DB AuthDB Error A) :
  (forall db env n st' r, k db env (n, db) = (st', r) -> rtc R db (snd st')) -> does R (dbind dget k).
Proof. intros Hk env [n db] st' r. rewrite dget_run. apply Hk. Qed.

Lemma does_dget {A} (k : AuthDB -> DB AuthDB Error A) : (forall db, does R (k db)) -> does R (dbind dget k).
Proof. intros Hk. apply does_get. intros db env n st' r Hr. by apply (Hk db env (n, db) st' r). Qed.

Lemma does_exec {A} (m : DB AuthDB Error A) env db : does R m -> rtc R db (exec m env db).
Proof. intros Hm. apply (Hm env (0%nat, db) _ _ (surjective_pairing _)). Qed.

End Does.

Local Notation makes := (does authChange).

Hint Resolve does_ret does_fail does_call does_now does_wall does_uuid does_attempt does_transact : auth.

Ltac does_step :=
  lazymatch goal with
  | |- forall _, does _ _ => intros ?
  | |- does _ (dbind dget _) => apply does_get
  | |- does _ (dbind _ _) => apply does_bind
  | |- does _ (attempt _) => apply does_attempt
  | |- does _ (statement _ _) => apply does_transact
  | |- does _ (transact _ _ _) => apply does_transact
  | |- does _ (if ?b then _ else _) => destruct b eqn:?
  | |- does _ (match ?x with _ => _ end) => destruct x eqn:?
  | |- does _ _ => solve [eauto 3 with auth]
  end.

Lemma makes_insertAccount p : makes (insertAccount lower p).
Proof.
  unfold insertAccount. repeat does_step. intros db env n st' res. set (row := newAccount _ _ _).
  destruct (accountCheck row) eqn:Hc; [|by intros [= <- <-]]. cbn [negb]. destruct (accountViolation db _ row) eqn:Hv; [by intros [= <- <-]|].
  unfold dbind, dput, dret. intros [= <- <-]. cbn [snd]. apply rtc_once. by constructor.
Qed.

Lemma liveAccount_Some db id r : liveAccount db id = Some r <-> accounts db !! id = Some r /\ ac_deleted r = None.
Proof.
  unfold liveAccount, opened. destruct (accounts db !! id) as [r0|]; [|by split; [|intros [? _]]].
  case_bool_decide as E; cbn [negb]; split; [done|intros [[= ->] Hn]; by rewrite Hn in E; destruct E| |by intros [[= ->] _]].
  intros [= ->]. split; [done|]. by apply eq_None_not_Some.
Qed.

Lemma makes_setPassword id hash must : makes (setPassword id hash must).
Proof.
  unfold setPassword, updateAccount. destruct (storable hash) eqn:Hh; cbn [negb]; repeat does_step.
  intros db env n st' res. destruct (liveAccount db id) as [r|] eqn:El; [|by intros [= <- <-]]. apply liveAccount_Some in El as [Hr Hd].
  unfold dput. intros [= <- <-]. cbn [snd]. apply rtc_once. eapply changed_account; [done|done|].
  destruct (accountCheck r) eqn:Hc; [left|by right]. unfold accountCheck in *. cbn. bool_simpl. by rewrite Hh, !andb_true_iff.
Qed.

Lemma makes_setStatus id status : makes (setStatus id status).
Proof.
  unfold setStatus, updateAccount. destruct (statusOK status) eqn:Hs; cbn [negb]; repeat does_step.
  intros db env n st' res. destruct (liveAccount db id) as [r|] eqn:El; [|by intros [= <- <-]]. apply liveAccount_Some in El as [Hr Hd].
  unfold dput. intros [= <- <-]. cbn [snd]. apply rtc_once. eapply changed_account; [done|done|].
  destruct (accountCheck r) eqn:Hc; [left|by right]. unfold accountCheck in *. cbn. bool_simpl. by rewrite Hs, !andb_true_iff.
Qed.

Lemma makes_insertSession s : freshSession s -> makes (insertSession s).
Proof.
  intros Hf. unfold insertSession. repeat does_step. intros db env n st' res. destruct (sessionAllowed _ _ _) eqn:Ha; [|by intros [= <- <-]].
  unfold dput. intros [= <- <-]. cbn [snd]. apply rtc_once. by constructor.
Qed.

Lemma makes_touchBody id seen idle : ns idle <= ns seen + sessionIdleTTL -> makes (touchBody id seen idle).
Proof.
  intros Hi. unfold touchBody. repeat does_step. intros db env n st' res. destruct (sessions db !! id) as [r|] eqn:Er; [|by intros [= <- <-]].
  destruct (activeAt seen r) eqn:Ea; [|by intros [= <- <-]]. unfold dput. intros [= <- <-]. cbn [snd]. apply rtc_once. by eapply changed_touched.
Qed.

Lemma makes_revokeWhere p reason : makes (revokeWhere p reason).
Proof.
  unfold revokeWhere. repeat does_step. intros db env n st' res. unfold dbind, dput, dret. intros [= <- <-]. cbn [snd]. apply rtc_once. apply changed_revoked.
Qed.

Lemma makes_loginBody e : makes (loginBody lower e).
Proof.
  unfold loginBody. repeat does_step. intros db env n st' res. destruct (loginCheck _ _); [|by intros [= <- <-]].
  unfold dput. intros [= <- <-]. cbn [snd]. apply rtc_once. apply changed_logins.
Qed.

Lemma makes_audit e : makes (writeAudit e).
Proof.
  unfold writeAudit, Audit.Write. apply does_bind; [|intros []; apply does_dget; repeat does_step].
  destruct (Audit.validateAndMarshal e); repeat does_step. intros db env n st' res. unfold dput. intros [= <- <-]. cbn [snd]. apply rtc_once. apply changed_audit.
Qed.

Hint Resolve makes_insertAccount makes_setPassword makes_setStatus makes_insertSession makes_touchBody makes_revokeWhere makes_loginBody makes_audit : auth.

Ltac does_all := repeat first [apply does_dget | does_step].

Lemma makes_revokeUser user reason : makes (revokeUser user reason).
Proof. unfold revokeUser. does_all. Qed.

Lemma makes_rotateBody p : freshSession (ReplacementSession p) -> makes (rotateBody p).
Proof. intros Hf. unfold rotateBody, revokeUser. does_all. Qed.

(** ** Every operation *)
Inductive operation : forall A, DB AuthDB Error A -> Prop :=
| op_CreateUser p : operation _ (CreateUser lower p)
| op_UpdatePassword id hash must : operation _ (UpdatePassword id hash must)
| op_SetStatus id status : operation _ (SetStatus id status)
| op_CreateSession s : freshSession s -> operation _ (CreateSession s)
| op_Touch id now s : operation _ (Touch id now (idleUntil now s))
| op_Revoke id reason : operation _ (Revoke id reason)
| op_RevokeAll user reason : operation _ (RevokeAllForUser user reason)
| op_RevokeOthers user except now reason : operation _ (RevokeAllExceptForUser user except now reason)
| op_LoginEvent e : operation _ (RecordLoginEvent lower e)
| op_Rotate p : freshSession (ReplacementSession p) -> operation _ (RotatePassword p)
| op_CreateStudent a i username hash : operation _ (WithinTx (createBody lower a i username hash))
| op_SetStudentStatus a id status : operation _ (WithinTx (setStatusBody a id status))
| op_ResetPassword a id hash : operation _ (WithinTx (resetBody a id hash)).

Lemma idleUntil_bound now s : ns (idleUntil now s) <= ns now + sessionIdleTTL.
Proof. unfold idleUntil, After, addDuration. destruct (_ <? _) eqn:E; cbn; bool_simpl; cbn in *; lia. Qed.

Lemma withID_fresh id s : freshSession s -> freshSession (withID id s).
Proof. done. Qed.

Lemma operation_makes A m : operation A m -> makes m.
Proof.
  intros Hop. destruct Hop; unfold CreateUser, UpdatePassword, SetStatus, CreateSession, Touch, Revoke, RevokeAllForUser,
    RevokeAllExceptForUser, RecordLoginEvent, RotatePassword, WithinTx, createBody, setStatusBody, resetBody, targetStudent, FindByID,
    revokeBody, revokeUser, exceptBody; does_all.
  all: first [by apply makes_touchBody, idleUntil_bound | by apply makes_insertSession, withID_fresh | by apply makes_rotateBody].
Qed.

(** ** Reachable states *)
Inductive authStep (db : AuthDB) : AuthDB -> Prop :=
| auth_step A (m : DB AuthDB Error A) env n st r : operation A m -> m env (n, db) = (st, r) -> authStep db (snd st).

Definition authInit (db : AuthDB) : Prop := accounts db = ∅ /\ sessions db = ∅.

Lemma operation_steps A (m : DB AuthDB Error A) : operation A m -> does authStep m.
Proof. intros Hop env [n db] st r Hrun. apply rtc_once. by econstructor. Qed.

Lemma step_changes db db' : authStep db db' -> rtc authChange db db'.
Proof. intros [A m env n st r Hop Hrun]. by apply (operation_makes A m Hop) in Hrun. Qed.

Lemma steps_change db db' : rtc authStep db db' -> rtc authChange db db'.
Proof. induction 1 as [|db1 db2 db3 Hs _ IH]; [done|]. etrans; [by apply step_changes|done]. Qed.

(** ** Calls are sequences of operations

    Between two of them other calls may take their turns. *)
Section Calls.
Context `{Argon2} (params : Argon2Params).

Lemma does_newSession {A} user ip agent random (k : Session * string -> DB AuthDB Error A) :
  (forall s raw, freshSession (createSessionParams s) -> does authStep (k (s, raw))) ->
  does authStep (dbind (newSession user ip agent random) k).
Proof.
  intros Hk env [n db] st' r. unfold newSession. destruct (NewSessionToken random) as [[raw hash]|e]; [|by intros [= <- <-]].
  unfold dbind at 1, dbind at 1, wallNow, dbind at 1, newUUID, dret. intros Hrun. by apply Hk in Hrun.
Qed.

Lemma does_operation A (m : DB AuthDB Error A) : operation A m -> does authStep m.
Proof. apply operation_steps. Qed.

Hint Resolve does_operation : auth.
Hint Constructors operation : auth.

Ltac calls_all := repeat first [apply does_newSession; intros | apply does_dget | does_step].

Lemma Authenticate_steps raw : does authStep (Authenticate raw).
Proof.
  unfold Authenticate, FindActiveByTokenHash, touch. does_all.
Qed.

Lemma Login_steps i random : does authStep (Login lower i random).
Proof.
  unfold Login, FindByUsername, checkLogin, failedLogin, startSession, createSession, recordLoginEvent.
  calls_all.
Qed.

Lemma ChangePassword_steps i salt random : does authStep (ChangePassword params i salt random).
Proof.
  unfold ChangePassword. apply does_bind; [apply Authenticate_steps|]. intros current. calls_all.
Qed.

Lemma Logout_steps raw : does authStep (Logout raw).
Proof. unfold Logout. apply does_bind; [apply Authenticate_steps|]. does_all. Qed.

Lemma LogoutOthers_steps raw : does authStep (LogoutOthers raw).
Proof. unfold LogoutOthers. apply does_bind; [apply Authenticate_steps|]. does_all. Qed.

Lemma CreateStudent_steps a i salt : does authStep (CreateStudent lower params a i salt).
Proof. unfold CreateStudent. does_all. Qed.

Lemma SetStudentStatus_steps a id status : does authStep (SetStudentStatus a id status).
Proof. unfold SetStudentStatus. does_all. Qed.

Lemma ResetPassword_steps a id password salt : does authStep (ResetPassword params a id password salt).
Proof. unfold ResetPassword. does_all. Qed.

End Calls.

(** ** The invariant *)
Record sessionWf (db : AuthDB) (r : SessionRow) : Prop := {
  sw_user : is_Some (accounts db !! se_user r);
  sw_absolute : ns (se_absolute r) = ns (se_created r) + sessionAbsoluteTTL;
  sw_idle : ns (se_idle r) <= ns (se_seen r) + sessionIdleTTL;
  sw_capped : ns (se_idle r) <= ns (se_absolute r);
  sw_seen : ns (se_created r) <= ns (se_seen r);
  sw_reason : is_Some (se_revoked r) <-> is_Some (se_reason r)
}.

Record authWf (db : AuthDB) : Prop := {
  aw_accounts : forall id r, accounts db !! id = Some r -> accountCheck r = true;
  aw_names : forall i j r1 r2, accounts db !! i = Some r1 -> accounts db !! j = Some r2 -> ac_deleted r1 = None -> ac_deleted r2 = None ->
    pgLower (ac_username r1) = pgLower (ac_username r2) -> i = j;
  aw_admin : forall i j r1 r2, accounts db !! i = Some r1 -> accounts db !! j = Some r2 -> ac_deleted r1 = None -> ac_deleted r2 = None ->
    ac_role r1 = RoleAdmin -> ac_role r2 = RoleAdmin -> i = j;
  aw_sessions : forall id r, sessions db !! id = Some r -> sessionWf db r;
  aw_tokens : forall i j r1 r2, sessions db !! i = Some r1 -> sessions db !! j = Some r2 -> se_token r1 = se_token r2 -> i = j
}.

Lemma otherAccount_false db id p : otherAccount db id p = false ->
  forall k r, accounts db !! k = Some r -> k <> id -> ac_deleted r = None -> p r = false.
Proof.
  intros Hf k r Hk Hne Hd. apply not_true_iff_false. intros Hp. rewrite <- not_true_iff_false in Hf. apply Hf. apply existsb_exists. exists (k, r).
  rewrite <- list_elem_of_In, elem_of_map_to_list. split; [done|]. unfold opened. rewrite Hd, Hp, (proj2 (N.eqb_neq k id)) by done. done.
Qed.

Lemma tokenTaken_false db token : tokenTaken db token = false -> forall k r, sessions db !! k = Some r -> se_token r <> token.
Proof.
  intros Hf k r Hk Ht. rewrite <- not_true_iff_false in Hf. apply Hf. apply existsb_exists. exists (k, r).
  rewrite <- list_elem_of_In, elem_of_map_to_list. split; [done|]. by apply bool_decide_eq_true.
Qed.

(** Sessions only need the accounts to be there. *)
Lemma sessionWf_accounts db db' r : (forall id, is_Some (accounts db !! id) -> is_Some (accounts db' !! id)) -> sessionWf db r -> sessionWf db' r.
Proof. intros Hs []. constructor; auto. Qed.

Lemma insert_there {A} (m : gmap N A) i x : forall id, is_Some (m !! id) -> is_Some (<[i := x]> m !! id).
Proof. intros id Hs. destruct (decide (i = id)) as [->|]; [rewrite lookup_insert; case_decide; [eauto|done]|by rewrite lookup_insert_ne]. Qed.

Lemma newAccount_wf db id r : authWf db -> accountCheck r = true -> accountViolation db id r = None -> ac_deleted r = None ->
  authWf (setAccounts (<[id := r]> (accounts db)) db).
Proof.
  intros Hwf Hc Hv Hd. unfold accountViolation in Hv. case_bool_decide as Hid; [done|]. apply eq_None_not_Some in Hid.
  destruct (otherAccount db id (sameUsername _)) eqn:Hn; [done|]. destruct (isAdmin r && otherAccount db id isAdmin) eqn:Ha; [done|].
  pose proof (otherAccount_false _ _ _ Hn) as Hnames. constructor; cbn.
  - intros i ri [[<- <-]|[_ Hi]]%lookup_insert_Some; [done|]. by eapply aw_accounts.
  - intros i j r1 r2 [[<- <-]|[Hi H1]]%lookup_insert_Some [[<- <-]|[Hj H2]]%lookup_insert_Some D1 D2 E; [done|..].
    + specialize (Hnames _ _ H2 ltac:(done) D2). unfold sameUsername in Hnames. bool_simpl. congruence.
    + specialize (Hnames _ _ H1 ltac:(done) D1). unfold sameUsername in Hnames. bool_simpl. congruence.
    + by eapply aw_names.
  - assert (Hadm : forall k rk, accounts db !! k = Some rk -> id <> k -> ac_deleted rk = None -> ac_role r = RoleAdmin -> ac_role rk = RoleAdmin -> False).
    { intros k rk Hk Hne Dk Hr Hrk. assert (Hi : isAdmin r = true) by (by apply bool_decide_eq_true). rewrite Hi in Ha. cbn in Ha.
      pose proof (otherAccount_false _ _ _ Ha _ _ Hk ltac:(done) Dk) as Hf. unfold isAdmin in Hf. bool_simpl. done. }
    intros i j r1 r2 [[<- <-]|[Hi H1]]%lookup_insert_Some [[<- <-]|[Hj H2]]%lookup_insert_Some D1 D2 R1 R2; [done|..].
    + exfalso. by eapply Hadm.
    + exfalso. by eapply Hadm.
    + by eapply aw_admin.
  - intros i ri Hi. apply aw_sessions in Hi; [|done]. eapply sessionWf_accounts; [|exact Hi]. apply insert_there.
  - apply (aw_tokens _ Hwf).
Qed.

Lemma account_wf db id r r' : authWf db -> accounts db !! id = Some r -> sameAccount r r' -> accountCheck r' = true ->
  authWf (setAccounts (<[id := r']> (accounts db)) db).
Proof.
  intros Hwf Hr (Hu & _ & Hro & _ & Hde) Hc.
  assert (Hold : forall k rk, <[id := r']> (accounts db) !! k = Some rk ->
    exists rk', accounts db !! k = Some rk' /\ ac_username rk = ac_username rk' /\ ac_role rk = ac_role rk' /\ ac_deleted rk = ac_deleted rk').
  { intros k rk [[<- <-]|[_ Hk]]%lookup_insert_Some; eauto. }
  constructor; cbn.
  - intros i ri [[<- <-]|[_ Hi]]%lookup_insert_Some; [done|]. by eapply aw_accounts.
  - intros i j r1 r2 H1 H2 D1 D2 E. destruct (Hold _ _ H1) as (r1' & ? & ? & ? & ?), (Hold _ _ H2) as (r2' & ? & ? & ? & ?).
    eapply (aw_names _ Hwf i j r1' r2'); congruence.
  - intros i j r1 r2 H1 H2 D1 D2 E1 E2. destruct (Hold _ _ H1) as (r1' & ? & ? & ? & ?), (Hold _ _ H2) as (r2' & ? & ? & ? & ?).
    eapply (aw_admin _ Hwf i j r1' r2'); congruence.
  - intros i ri Hi. apply aw_sessions in Hi; [|done]. eapply sessionWf_accounts; [|exact Hi]. apply insert_there.
  - apply (aw_tokens _ Hwf).
Qed.

(** A change of sessions that keeps users and tokens. *)
Lemma sessions_wf db (m : gmap N SessionRow) : authWf db ->
  (forall id r', m !! id = Some r' -> sessionWf db r' /\ exists r, sessions db !! id = Some r /\ se_token r' = se_token r) ->
  authWf (setSessions m db).
Proof.
  intros Hwf Hm. constructor; cbn; try apply Hwf.
  - intros id r' Hr. destruct (Hm _ _ Hr) as [Hs _]. by eapply sessionWf_accounts; [|exact Hs].
  - intros i j r1 r2 H1 H2 E. destruct (Hm _ _ H1) as (_ & r1' & ? & ?), (Hm _ _ H2) as (_ & r2' & ? & ?).
    eapply (aw_tokens _ Hwf i j r1' r2'); congruence.
Qed.

Lemma stored_ttl t : stored (t + sessionIdleTTL) = stored t + sessionIdleTTL /\ stored (t + sessionAbsoluteTTL) = stored t + sessionAbsoluteTTL.
Proof.
  change sessionIdleTTL with (604800 * second). change sessionAbsoluteTTL with (2592000 * second). by rewrite !stored_seconds.
Qed.

Lemma freshRow_wf db s : freshSession s -> is_Some (accounts db !! ParamUser s) -> sessionWf db (sessionRow s).
Proof.
  intros (Hs & Hi & Ha) Hu. destruct (stored_ttl (ns (ParamCreated s))) as [E1 E2].
  constructor; cbn; rewrite ?Hs, ?Hi, ?Ha; cbn; rewrite ?E1, ?E2; try done; try lia.
  - unfold sessionIdleTTL, sessionAbsoluteTTL, hour, minute, second, millisecond, microsecond. lia.
Qed.

Lemma touchedRow_wf db seen idle r : sessionWf db r -> ns idle <= ns seen + sessionIdleTTL -> sessionWf db (touchedRow seen idle r).
Proof.
  intros [Hu Ha Hi Hc Hs Hr] Hidle. unfold touchedRow. destruct (_ <=? _) eqn:E; [|done]. bool_simpl.
  pose proof (stored_mono _ _ Hidle) as Hm. rewrite (proj1 (stored_ttl (ns seen))) in Hm.
  constructor; cbn; try done; try lia. unfold minute, second, millisecond, microsecond in *. lia.
Qed.

Lemma revokedRow_wf db now reason r : sessionWf db r -> sessionWf db (revokedRow now reason r).
Proof. intros [Hu Ha Hi Hc Hs Hr]. constructor; cbn; done. Qed.

Lemma authChange_wf db db' : authWf db -> authChange db db' -> authWf db'.
Proof.
  intros Hwf Hch. destruct Hch as [id r Hc Hv Hd|id r r' Hr Hs Hc|s Hf Ha|id r seen idle Hr Hact Hi|p now reason|l|e m now].
  - by apply newAccount_wf.
  - eapply account_wf; [done..|]. destruct Hc as [Hc|Hc]; [done|]. by rewrite (aw_accounts _ Hwf _ _ Hr) in Hc.
  - unfold sessionAllowed in Ha. bool_simpl. pose proof (tokenTaken_false db _ ltac:(eassumption)) as Ht.
    constructor; cbn; try apply Hwf.
    + intros i ri Hi. apply (sessionWf_accounts db); [done|].
      apply lookup_insert_Some in Hi as [[<- <-]|[_ Hi]]; [by apply freshRow_wf|by eapply (aw_sessions _ Hwf)].
    + intros i j r1 r2 [[<- <-]|[_ Hk1]]%lookup_insert_Some [[<- <-]|[_ Hk2]]%lookup_insert_Some E; [done|..].
      * by apply Ht in Hk2; rewrite E in Hk2.
      * by apply Ht in Hk1; rewrite E in Hk1.
      * by eapply (aw_tokens _ Hwf).
  - apply sessions_wf; [done|]. intros k r' [[<- <-]|[_ Hk]]%lookup_insert_Some; [|by split; [eapply (aw_sessions _ Hwf)|eauto]].
    split; [apply touchedRow_wf; [by eapply (aw_sessions _ Hwf)|done]|]. exists r. split; [done|]. unfold touchedRow. by destruct (_ <=? _).
  - apply sessions_wf; [done|]. intros k r'. rewrite map_lookup_imap. destruct (sessions db !! k) as [r|] eqn:Er; [|done]. cbn. intros [= <-].
    pose proof (aw_sessions _ Hwf _ _ Er) as Hs. destruct (_ && _); split; try done; [by apply revokedRow_wf|eauto..].
  - destruct Hwf. constructor; cbn; try done. intros k r Hk. apply (sessionWf_accounts db); [done|by eauto].
  - destruct Hwf. constructor; cbn; try done. intros k r Hk. apply (sessionWf_accounts db); [done|by eauto].
Qed.

Lemma authChanges_wf db db' : rtc authChange db db' -> authWf db -> authWf db'.
Proof. induction 1; [done|]. intros. eauto using authChange_wf. Qed.

Lemma authInit_wf db : authInit db -> authWf db.
Proof. intros [Ha Hs]. constructor; rewrite ?Ha, ?Hs; intros *; rewrite ?lookup_empty; done. Qed.

Lemma auth_reachable_wf db : reachable authInit authStep db -> authWf db.
Proof. apply reachable_invariant; [apply authInit_wf|]. intros s s' Hwf Hs. eapply authChanges_wf; [by apply step_changes|done]. Qed.

(** ** What stays *)
Definition sessionKept (r r' : SessionRow) : Prop :=
  se_user r' = se_user r /\ se_token r' = se_token r /\ se_agent r' = se_agent r /\ se_ip r' = se_ip r
  /\ se_created r' = se_created r /\ se_absolute r' = se_absolute r /\ ns (se_seen r) <= ns (se_seen r')
  /\ (is_Some (se_revoked r) -> r' = r).

Record authKept (db db' : AuthDB) : Prop := {
  ak_accounts : forall id r, accounts db !! id = Some r -> exists r', accounts db' !! id = Some r' /\ sameAccount r r';
  ak_sessions : forall id r, sessions db !! id = Some r -> exists r', sessions db' !! id = Some r' /\ sessionKept r r';
  ak_logins : loginEvents db `prefix_of` loginEvents db';
  ak_audit : Audit.rows (authAudit db) `prefix_of` Audit.rows (authAudit db')
}.

Lemma sameAccount_refl r : sameAccount r r. Proof. done. Qed.
Lemma sessionKept_refl r : sessionKept r r. Proof. by split_and!; try lia. Qed.

Lemma authKept_refl db : authKept db db.
Proof. constructor; eauto using sameAccount_refl, sessionKept_refl. Qed.

Lemma authKept_trans a b c : authKept a b -> authKept b c -> authKept a c.
Proof.
  intros [A1 S1 L1 U1] [A2 S2 L2 U2]. constructor.
  - intros id r Hr. destruct (A1 _ _ Hr) as (r1 & Hr1 & (?&?&?&?&?)). destruct (A2 _ _ Hr1) as (r2 & Hr2 & (?&?&?&?&?)).
    exists r2. split; [done|]. split_and!; congruence.
  - intros id r Hr. destruct (S1 _ _ Hr) as (r1 & Hr1 & (?&?&?&?&?&?&?&Hk1)). destruct (S2 _ _ Hr1) as (r2 & Hr2 & (?&?&?&?&?&?&?&Hk2)).
    exists r2. split; [done|]. split_and!; try congruence; [lia|]. intros Hv. specialize (Hk1 Hv). subst r1. by apply Hk2.
  - by etrans.
  - by etrans.
Qed.

(** Only accounts, or only sessions, change. *)
Lemma accounts_kept db (m : gmap N AccountRow) :
  (forall id r, accounts db !! id = Some r -> exists r', m !! id = Some r' /\ sameAccount r r') -> authKept db (setAccounts m db).
Proof. intros Hm. constructor; cbn; eauto using sessionKept_refl. Qed.

Lemma sessions_kept db (m : gmap N SessionRow) :
  (forall id r, sessions db !! id = Some r -> exists r', m !! id = Some r' /\ sessionKept r r') -> authKept db (setSessions m db).
Proof. intros Hm. constructor; cbn; eauto using sameAccount_refl. Qed.

Lemma insert_kept {A} (K : A -> A -> Prop) (m : gmap N A) i x : (forall r, K r r) ->
  (forall r, m !! i = Some r -> K r x) -> forall id r, m !! id = Some r -> exists r', <[i := x]> m !! id = Some r' /\ K r r'.
Proof.
  intros Hrefl Hx id r Hr. destruct (decide (i = id)) as [->|Hne].
  - exists x. split; [rewrite lookup_insert; by case_decide|by apply Hx].
  - exists r. by rewrite lookup_insert_ne.
Qed.

Lemma touchedRow_kept seen idle r : activeAt seen r = true -> sessionKept r (touchedRow seen idle r).
Proof.
  intros Ha. unfold activeAt, opened in Ha. bool_simpl. unfold touchedRow. destruct (_ <=? _) eqn:E; [|apply sessionKept_refl].
  bool_simpl. split_and!; try done; cbn. unfold minute, second, millisecond, microsecond in *. lia.
Qed.

Lemma authChange_kept db db' : authChange db db' -> authKept db db'.
Proof.
  intros [id r Hc Hv Hd|id r r' Hr Hs Hc|s Hf Ha|id r seen idle Hr Hact Hi|p now reason|l|e m now].
  - apply accounts_kept, insert_kept; [done|]. intros r0 Hr0. unfold accountViolation in Hv. rewrite Hr0 in Hv. by rewrite bool_decide_eq_true_2 in Hv by eauto.
  - apply accounts_kept, insert_kept; [done|]. intros r0 Hr0. by simplify_eq.
  - apply sessions_kept, insert_kept; [apply sessionKept_refl|]. intros r0 Hr0. unfold sessionAllowed in Ha. bool_simpl. by destruct H1.
  - apply sessions_kept, insert_kept; [apply sessionKept_refl|]. intros r0 Hr0. simplify_eq. by apply touchedRow_kept.
  - apply sessions_kept. intros id r Hr. eexists. rewrite map_lookup_imap, Hr. cbn. split; [done|].
    destruct (opened (se_revoked r) && p id r) eqn:E; [|apply sessionKept_refl]. unfold opened in E. bool_simpl. by split_and!; try lia.
  - constructor; cbn; eauto using sameAccount_refl, sessionKept_refl. by apply prefix_app_r.
  - constructor; cbn; eauto using sameAccount_refl, sessionKept_refl. by apply prefix_app_r.
Qed.

Lemma authChanges_kept db db' : rtc authChange db db' -> authKept db db'.
Proof. induction 1; [apply authKept_refl|]. eauto using authKept_trans, authChange_kept. Qed.

Lemma steps_kept db db' : rtc authStep db db' -> authKept db db'.
Proof. intros Hs. by apply authChanges_kept, steps_change. Qed.

Lemma reachable_steps db db' : reachable authInit authStep db -> rtc authStep db db' -> reachable authInit authStep db'.
Proof. intros Hr. induction 1; [done|]. eauto using reach_step. Qed.

(** ** Who gets in *)
Lemma find_entry {A} (m : gmap N A) (p : A -> bool) k r : List.find (fun '(_, r) => p r) (map_to_list m) = Some (k, r) -> m !! k = Some r /\ p r = true.
Proof. intros Hf. apply List.find_some in Hf as [Hin Hp]. rewrite <- list_elem_of_In, elem_of_map_to_list in Hin. by split. Qed.

Lemma FindActive_Ok token now env n db st s u : FindActiveByTokenHash token now env (n, db) = (st, Ok (s, u)) ->
  snd st = db /\ exists id r a, sessions db !! id = Some r /\ se_token r = token /\ activeAt now r = true
    /\ liveAccount db (se_user r) = Some a /\ s = scanSession id r /\ u = scanUser (se_user r) a.
Proof.
  unfold FindActiveByTokenHash. intros Hrun. apply dbind_Ok in Hrun as (st1 & [] & Hc & Hrun). apply roundtrip_Ok in Hc as [-> _].
  rewrite dget_run in Hrun. destruct (sessionOf db token) as [[id r]|] eqn:Es; [|done]. destruct (liveAccount db (se_user r)) as [a|] eqn:Ea; [|done].
  destruct (activeAt now r) eqn:Hact; [|done]. injection Hrun as <- <- <-. unfold sessionOf in Es. apply (find_entry _ (fun r => bool_decide (se_token r = token))) in Es as [Hr Ht].
  split; [done|]. exists id, r, a. by split_and!; bool_simpl.
Qed.

Lemma Authenticate_Ok raw env n db st a : Authenticate raw env (n, db) = (st, Ok a) ->
  exists r u, sessions db !! SessionID (AuthSession a) = Some r /\ se_token r = Sum256 (bytes raw) /\ activeAt (UTC (wall env n)) r = true
    /\ liveAccount db (se_user r) = Some u /\ ac_status u = StatusActive /\ AuthUser a = scanUser (se_user r) u
    /\ AbsoluteExpiresAt (AuthSession a) = UTC (se_absolute r).
Proof.
  unfold Authenticate. case_bool_decide; [done|]. intros Hrun. apply dbind_Ok in Hrun as (st1 & now & [= <- <-] & Hrun).
  apply dbind_Ok in Hrun as (st2 & found & Hf & Hrun). unfold attempt in Hf.
  destruct (FindActiveByTokenHash _ _ _ _) as [st3 [[s u]|]] eqn:Ef; injection Hf as <- <-; [|done].
  apply FindActive_Ok in Ef as (_ & id & r & ua & Hr & Ht & Hact & Hl & -> & ->). cbn in Hrun.
  destruct (bool_decide (ac_status ua = StatusActive)) eqn:Ha; [|done]. cbn [negb] in Hrun. bool_simpl. exists r, ua.
  destruct (sessionTouchPeriod <=? _).
  - apply dbind_Ok in Hrun as (st4 & touched & _ & Hrun). destruct touched; [|done]. by injection Hrun as <- <-.
  - by injection Hrun as <- <-.
Qed.

Lemma activeAt_wf db now r : sessionWf db r -> activeAt now r = true ->
  se_revoked r = None /\ stored (ns now) < ns (se_created r) + sessionAbsoluteTTL /\ stored (ns now) < ns (se_seen r) + sessionIdleTTL.
Proof.
  intros [] Ha. unfold activeAt, opened in Ha. bool_simpl. split_and!; [by apply eq_None_not_Some|lia|lia].
Qed.

(** C31. In every reachable state the names of accounts are different regardless of case,
    there is one administrator at most, every account satisfies the checks of its table;
    the tokens of sessions are different, a session has a user, ends thirty days after its
    creation at the latest and seven days after its last use, and has a reason exactly when
    it is revoked. *)
Theorem auth_invariant db : reachable authInit authStep db -> authWf db.
Proof. apply auth_reachable_wf. Qed.

(** C28. A request passes the gate only with one session cookie, whose token is that of a
    session that was not revoked, was created less than thirty days and used less than seven
    days ago, and whose user is active; it is that user who passes; and a user who must change
    the password reaches nothing but the pages for that. *)
Theorem session_lifetime db cookies path env n st user raw id :
  reachable authInit authStep db -> AuthenticateGate cookies path env (n, db) = (st, Ok (Passed user raw id)) ->
  sessionCookie cookies = Some raw /\
  exists r u, sessions db !! id = Some r /\ se_token r = Sum256 (bytes raw) /\ se_revoked r = None
    /\ stored (ns (wall env n)) < ns (se_created r) + 30 * day /\ stored (ns (wall env n)) < ns (se_seen r) + 7 * day
    /\ accounts db !! se_user r = Some u /\ ac_deleted u = None /\ ac_status u = StatusActive /\ user = scanUser (se_user r) u
    /\ (ac_mustChange u = true -> passwordChangeAllowed path = true).
Proof.
  intros Hr. unfold AuthenticateGate. destruct (sessionCookie cookies) as [raw'|] eqn:Ec; [|done]. intros Hrun.
  apply dbind_Ok in Hrun as (st1 & found & Hf & Hrun). unfold attempt in Hf.
  destruct (Authenticate raw' env (n, db)) as [st2 [a|]] eqn:Ea; injection Hf as <- <-; [|done].
  apply Authenticate_Ok in Ea as (r & u & Hs & Ht & Hact & Hl & Hst & Hu & _).
  destruct (negb _); [done|]. destruct (MustChangePassword (AuthUser a) && negb (passwordChangeAllowed path)) eqn:Hm; [done|].
  injection Hrun as <- <- <- <-. split; [done|]. exists r, u.
  destruct (activeAt_wf db _ r ltac:(eapply aw_sessions; [by apply auth_reachable_wf|done]) Hact) as (Hrv & Hc & Hi).
  apply liveAccount_Some in Hl as [Hl Hd]. rewrite Hu in Hm |- *. split_and!; try done.
  intros Hmust. cbn in Hm. rewrite Hmust in Hm. by destruct (passwordChangeAllowed path).
Qed.

(** C26. Once a session is revoked, its token never passes the gate again, whatever happens
    afterwards. *)
Theorem revoked_stays_out db db' id r raw cookies path env n :
  reachable authInit authStep db -> rtc authStep db db' ->
  sessions db !! id = Some r -> is_Some (se_revoked r) -> se_token r = Sum256 (bytes raw) -> sessionCookie cookies = Some raw ->
  snd (AuthenticateGate cookies path env (n, db')) = Ok Unauthenticated.
Proof.
  intros Hr Hs Hid Hrev Ht Hc. pose proof (auth_reachable_wf _ (reachable_steps _ _ Hr Hs)) as Hwf.
  destruct (ak_sessions _ _ (steps_kept _ _ Hs) _ _ Hid) as (r' & Hr' & Hkept). destruct Hkept as (_ & _ & _ & _ & _ & _ & _ & Hsame).
  rewrite (Hsame Hrev) in Hr'. unfold AuthenticateGate. rewrite Hc. unfold dbind, attempt.
  destruct (Authenticate raw env (n, db')) as [st [a|e]] eqn:Ea; [|done]. exfalso.
  apply Authenticate_Ok in Ea as (r1 & u & Hs1 & Ht1 & Hact & _).
  assert (Heq : SessionID (AuthSession a) = id) by (eapply (aw_tokens _ Hwf); [done|done|congruence]). rewrite Heq in Hs1. simplify_eq.
  destruct (activeAt_wf db' _ r ltac:(by eapply aw_sessions) Hact) as [Hn _]. rewrite Hn in Hrev. by destruct Hrev.
Qed.

(** ** What ends all sessions of a user *)
Definition noSession (db : AuthDB) (user : UUID) (except : UUID -> Prop) : Prop :=
  forall id r, sessions db !! id = Some r -> se_user r = user -> except id \/ is_Some (se_revoked r).

Definition recorded (a : Actor) (action : string) (target : UUID) (db db' : AuthDB) : Prop :=
  exists row, Audit.rows (authAudit db') = Audit.rows (authAudit db) ++ [row] /\ Audit.RecordAction row = action
    /\ Audit.RecordTargetID row = uuidString target /\ Audit.RecordRequestID row = ActorRequest a.

Lemma revokeUser_Ok user reason env n db st : revokeUser user reason env (n, db) = (st, Ok tt) ->
  exists m, snd st = setSessions m db /\ noSession (snd st) user (fun _ => False).
Proof.
  unfold revokeUser, revokeWhere. intros Hrun. apply dbind_Ok in Hrun as (st1 & b & Hrun & [= <-]).
  apply dbind_Ok in Hrun as (st2 & now & Hn & Hrun). apply databaseNow_Ok in Hn as (-> & -> & _). rewrite dget_run in Hrun.
  unfold dbind, dput, dret in Hrun. injection Hrun as <- <-. eexists. cbn [snd]. split; [done|].
  intros id r. cbn. rewrite map_lookup_imap. destruct (sessions db !! id) as [r0|]; [|done]. cbn. intros [= <-] Hu. right.
  destruct (opened (se_revoked r0)) eqn:Eo; cbn; [|unfold opened in Eo; by bool_simpl].
  assert (Hsu : se_user r0 = user) by (by destruct (se_user r0 =? user)%N). rewrite Hsu, N.eqb_refl. cbn. eauto.
Qed.

Lemma writeAudit_appends e env n db st : writeAudit e env (n, db) = (st, Ok tt) ->
  exists m now, snd st = Audit.setAudit (Audit.append e m now (authAudit db)) db.
Proof.
  unfold writeAudit. intros Hrun. apply dbind_Ok in Hrun as ([n1 db1] & [] & Hrun & Hok). rewrite dget_run in Hok.
  destruct (negb _); [done|]. injection Hok as <-. unfold Audit.Write in Hrun. destruct (Audit.validateAndMarshal e) as [m|]; [|done].
  apply dbind_Ok in Hrun as (st1 & now & Hn & Hrun). apply databaseNow_Ok in Hn as (-> & -> & _). rewrite dget_run in Hrun.
  unfold dput in Hrun. injection Hrun as _ <-. eexists _, _. by cbn [snd].
Qed.

Lemma updateAccount_Ok id valid f env n db st : updateAccount id valid f env (n, db) = (st, Ok tt) ->
  exists r, liveAccount db id = Some r /\ snd st = setAccounts (<[id := f r]> (accounts db)) db.
Proof.
  unfold updateAccount. intros Hrun. apply dbind_Ok in Hrun as (st1 & [] & Hc & Hrun). apply roundtrip_Ok in Hc as [-> _].
  destruct valid; [|done]. cbn [negb] in Hrun. rewrite dget_run in Hrun. destruct (liveAccount db id) as [r|]; [|done].
  unfold dput in Hrun. injection Hrun as <-. eauto.
Qed.

Lemma targetStudent_Ok id env n db st u : targetStudent id env (n, db) = (st, Ok u) ->
  snd st = db /\ exists r, liveAccount db id = Some r /\ u = scanUser id r /\ ac_role r = RoleStudent.
Proof.
  unfold targetStudent, FindByID. intros Hrun. apply dbind_Ok in Hrun as (st1 & u1 & Hf & Hrun).
  apply dbind_Ok in Hf as (st2 & [] & Hc & Hf). apply roundtrip_Ok in Hc as [-> _]. rewrite dget_run in Hf.
  destruct (liveAccount db id) as [r|] eqn:El; [|done]. injection Hf as <- <-. cbn in Hrun. case_bool_decide; [|done]. injection Hrun as <- <-.
  split; [done|]. eauto.
Qed.

(** An audited change of a student that revokes: the row, the sessions, the audit log. *)
Lemma noSession_same db db' user P : sessions db' = sessions db -> noSession db user P -> noSession db' user P.
Proof. unfold noSession. by intros ->. Qed.

Lemma resetBody_Ok a id hash env n db st : resetBody a id hash env (n, db) = (st, Ok tt) ->
  noSession (snd st) id (fun _ => False) /\ recorded a "student.password_reset" id db (snd st)
  /\ exists u, accounts (snd st) !! id = Some u /\ ac_hash u = hash /\ ac_mustChange u = true /\ ac_role u = RoleStudent.
Proof.
  unfold resetBody, setPassword. intros Hrun. apply dbind_Ok in Hrun as ([n1 db1] & u & Ht & Hrun). apply targetStudent_Ok in Ht as [Ed (r & Hl & -> & Hro)].
  cbn [snd] in Ed. subst db1. cbn [UserID scanUser] in Hrun. apply dbind_Ok in Hrun as ([n2 db2] & [] & Hu & Hrun). apply updateAccount_Ok in Hu as (r' & Hl' & Eu).
  rewrite Hl in Hl'. injection Hl' as <-. cbn [snd] in Eu. apply dbind_Ok in Hrun as ([n3 db3] & [] & Hv & Hrun). apply revokeUser_Ok in Hv as (m & Ev & Hno).
  cbn [snd] in Ev, Hno. apply writeAudit_appends in Hrun as (md & now & Ea). rewrite Ea. subst db3 db2. split_and!.
  - by eapply noSession_same; [|exact Hno].
  - eexists. cbn. by split_and!.
  - eexists. cbn. rewrite lookup_insert. case_decide; [|done]. by split_and!.
Qed.

Lemma disableBody_Ok a id env n db st : setStatusBody a id StatusDisabled env (n, db) = (st, Ok tt) ->
  noSession (snd st) id (fun _ => False) /\ recorded a "student.disabled" id db (snd st)
  /\ exists u, accounts (snd st) !! id = Some u /\ ac_status u = StatusDisabled /\ ac_role u = RoleStudent.
Proof.
  unfold setStatusBody, setStatus. intros Hrun. apply dbind_Ok in Hrun as ([n1 db1] & u & Ht & Hrun). apply targetStudent_Ok in Ht as [Ed (r & Hl & -> & Hro)].
  cbn [snd] in Ed. subst db1. cbn [UserID scanUser] in Hrun. apply dbind_Ok in Hrun as ([n2 db2] & [] & Hu & Hrun). apply updateAccount_Ok in Hu as (r' & Hl' & Eu).
  rewrite Hl in Hl'. injection Hl' as <-. cbn [snd] in Eu. rewrite bool_decide_eq_true_2 in Hrun by done.
  apply dbind_Ok in Hrun as ([n3 db3] & [] & Hv & Hrun). apply revokeUser_Ok in Hv as (m & Ev & Hno).
  cbn [snd] in Ev, Hno. apply writeAudit_appends in Hrun as (md & now & Ea). rewrite Ea. subst db3 db2. split_and!.
  - by eapply noSession_same; [|exact Hno].
  - eexists. cbn. by split_and!.
  - eexists. cbn. rewrite lookup_insert. case_decide; [|done]. by split_and!.
Qed.

Lemma rotate_Ok p env n db st : RotatePassword p env (n, db) = (st, Ok tt) ->
  noSession (snd st) (RotateUser p) (eq (ParamID (ReplacementSession p)))
  /\ sessions (snd st) !! ParamID (ReplacementSession p) = Some (sessionRow (ReplacementSession p))
  /\ exists u, accounts (snd st) !! RotateUser p = Some u /\ ac_hash u = NewPasswordHash p /\ ac_mustChange u = RotateMustChange p.
Proof.
  unfold RotatePassword. destruct (_ || _); [done|]. intros Hrun. apply transact_Ok in Hrun as (n' & Hrun). destruct st as [n0 db']. cbn [snd] in *.
  unfold rotateBody in Hrun. apply dbind_Ok in Hrun as (st1 & [] & Hc & Hrun). apply roundtrip_Ok in Hc as [-> _]. rewrite dget_run in Hrun.
  destruct (liveAccount db (RotateUser p)) as [r|] eqn:El; [|done]. destruct (_ || _); [done|].
  apply dbind_Ok in Hrun as ([n2 db2] & [] & Hu & Hrun). apply updateAccount_Ok in Hu as (r' & Hl' & Eu). rewrite El in Hl'. injection Hl' as <-.
  apply dbind_Ok in Hrun as ([n3 db3] & [] & Hv & Hrun). apply revokeUser_Ok in Hv as (m & Ev & Hno). cbn [snd] in *.
  unfold insertSession in Hrun. apply dbind_Ok in Hrun as (st4 & [] & Hc & Hrun). apply roundtrip_Ok in Hc as [-> _]. rewrite dget_run in Hrun.
  destruct (sessionAllowed _ _ _); [|done]. unfold dput in Hrun. injection Hrun as _ <-. subst db3 db2. cbn in *. split_and!.
  - intros id r0 Hr0 Huser. cbn in Hr0. apply lookup_insert_Some in Hr0 as [[<- <-]|[_ Hr]]; [by left|]. right. destruct (Hno _ _ Hr Huser) as [[]|]; done.
  - rewrite lookup_insert. by case_decide.
  - eexists. rewrite lookup_insert. case_decide; [|done]. by split_and!.
Qed.

Section Endings.
Context `{Argon2} (params : Argon2Params).

(** C27. A reset of a student's password, disabling a student and a change of one's own
    password revoke every session the user has at that moment, the last but for the new one
    it returns; the new password is in force, and the administrator's act is in the audit log once. *)
Theorem revocation_complete env n db st :
  (forall a id password salt, ResetPassword params a id password salt env (n, db) = (st, Ok tt) ->
     noSession (snd st) id (fun _ => False) /\ recorded a "student.password_reset" id db (snd st)
     /\ exists u hash, Hash params password salt = Some hash /\ accounts (snd st) !! id = Some u /\ ac_hash u = hash
          /\ ac_mustChange u = true /\ ac_role u = RoleStudent)
  /\ (forall a id, SetStudentStatus a id StatusDisabled env (n, db) = (st, Ok tt) ->
     noSession (snd st) id (fun _ => False) /\ recorded a "student.disabled" id db (snd st)
     /\ exists u, accounts (snd st) !! id = Some u /\ ac_status u = StatusDisabled /\ ac_role u = RoleStudent)
  /\ (forall i salt random a raw, ChangePassword params i salt random env (n, db) = (st, Ok (a, raw)) ->
     noSession (snd st) (UserID (AuthUser a)) (eq (SessionID (AuthSession a)))
     /\ (exists r, sessions (snd st) !! SessionID (AuthSession a) = Some r /\ se_revoked r = None /\ se_token r = Sum256 (bytes raw)
           /\ se_user r = UserID (AuthUser a))
     /\ exists u hash, Hash params (NewPassword i) salt = Some hash /\ accounts (snd st) !! UserID (AuthUser a) = Some u /\ ac_hash u = hash
          /\ ac_mustChange u = false).
Proof.
  split_and!.
  - intros a id password salt. unfold ResetPassword. destruct (negb (authorized a)); [done|]. destruct (_ || _); [done|].
    destruct (Hash params password salt) as [hash|]; [|done]. intros Hrun. apply transact_Ok in Hrun as (n' & Hrun).
    apply resetBody_Ok in Hrun as (Hno & Hrec & u & Hu). destruct st. cbn [snd] in *. split_and!; [done|done|]. exists u, hash. tauto.
  - intros a id. unfold SetStudentStatus. destruct (negb (authorized a)); [done|]. destruct (_ || _); [done|].
    intros Hrun. apply transact_Ok in Hrun as (n' & Hrun). destruct st. by apply disableBody_Ok in Hrun.
  - intros i salt random a raw. unfold ChangePassword. intros Hrun. apply dbind_Ok in Hrun as ([n1 db1] & cur & _ & Hrun).
    destruct (negb (Compare _ _)); [done|]. destruct (negb (ValidatePassword _)); [done|].
    destruct (Hash params (NewPassword i) salt) as [hash|]; [|done]. unfold newSession in Hrun.
    destruct (NewSessionToken random) as [[raw' token]|] eqn:Et; [|done].
    apply dbind_Ok in Hrun as ([n2 db2] & [s raw2] & Hs & Hrun). cbn in Hs. injection Hs as <- <- <- <-.
    apply dbind_Ok in Hrun as ([n3 db3] & rot & Hrot & Hrun). unfold attempt in Hrot.
    destruct (RotatePassword _ _ _) as [st4 [[]|]] eqn:Er; injection Hrot as -> <-; [|done]. injection Hrun as <- <- <-.
    apply rotate_Ok in Er. cbn in Er |- *. destruct Er as (Hno & Hnew & u & Hu). split_and!; [done| |exists u, hash; tauto].
    eexists. split; [exact Hnew|]. cbn. split_and!; try done. unfold NewSessionToken in Et. destruct random; [|done]. by injection Et as <- <-.
Qed.

End Endings.

(** ** Logging in *)
Lemma statement_quiet {A} (m : DB AuthDB Error A) env n db n' db' a : quiet env -> m env (S n, db) = ((n', db'), Ok a) ->
  statement ErrDatabase m env (n, db) = ((S n', db'), Ok a).
Proof. intros Hq Hm. unfold statement. by rewrite transact_quiet, Hm by done. Qed.

Definition loggedRow (user : option UUID) (username : string) (success : bool) (reason : string) (ip : IP) (agent : string) (at_ : Time) : LoginRow :=
  loginRow lower (MkLoginEvent user username success reason ip agent (UTC at_)).

Lemma recordLoginEvent_quiet user username success reason ip agent env n db : quiet env ->
  loginCheck db (loggedRow user username success reason ip agent (wall env n)) = true ->
  exists n', recordLoginEvent lower user username success reason ip agent env (n, db)
    = ((n', setLogins (loginEvents db ++ [loggedRow user username success reason ip agent (wall env n)]) db), Ok tt).
Proof.
  intros Hq Hc. eexists. unfold recordLoginEvent, dbind at 1, wallNow, RecordLoginEvent. eapply statement_quiet; [done|].
  unfold loginBody. rewrite call_run by apply Hq. rewrite dget_run. fold (loggedRow user username success reason ip agent (wall env n)). by rewrite Hc.
Qed.

Lemma insertSession_quiet s env n db : quiet env -> sessionAllowed db (ParamID s) (sessionRow s) = true ->
  insertSession s env (n, db) = ((S n, setSessions (<[ParamID s := sessionRow s]> (sessions db)) db), Ok tt).
Proof. intros Hq Ha. unfold insertSession. rewrite call_run by apply Hq. rewrite dget_run, Ha. done. Qed.

Lemma CreateSession_quiet s env n db : quiet env -> ParamID s <> NilUUID -> sessionAllowed db (ParamID s) (sessionRow s) = true ->
  exists n', CreateSession s env (n, db) = ((n', setSessions (<[ParamID s := sessionRow s]> (sessions db)) db), Ok tt).
Proof.
  intros Hq Hne Ha. eexists. unfold CreateSession. rewrite (proj2 (N.eqb_neq _ _)) by done. unfold dbind, dret. eapply statement_quiet; [done|].
  replace (withID (ParamID s) s) with s by (by destruct s). by apply insertSession_quiet.
Qed.

(** The account a name and a password are those of, if it may log in. *)
Definition credentials `{Argon2} (db : AuthDB) (name password : string) : option (UUID * AccountRow) :=
  match accountNamed db name with
  | Some (id, u) => if Compare (ac_hash u) password && bool_decide (ac_status u = StatusActive) then Some (id, u) else None
  | None => None
  end.

Lemma accountNamed_Some db name id u : accountNamed db name = Some (id, u) -> liveAccount db id = Some u.
Proof.
  intros Hf. unfold accountNamed in Hf.
  apply (find_entry _ (fun r => opened (ac_deleted r) && bool_decide (pgLower (ac_username r) = name))) in Hf as [Hr Hp].
  unfold liveAccount. rewrite Hr. bool_simpl. by destruct (opened _).
Qed.

Lemma sessionOf_new db token sid r : tokenTaken db token = false -> se_token r = token ->
  forall m, m = <[sid := r]> (sessions db) -> sessionOf (setSessions m db) token = Some (sid, r).
Proof.
  intros Ht Hr m ->. unfold sessionOf. cbn [sessions setSessions]. destruct (List.find _ _) as [[k r']|] eqn:Ef.
  - apply (find_entry _ (fun r => bool_decide (se_token r = token))) in Ef as [Hk Hp]. bool_simpl.
    apply lookup_insert_Some in Hk as [[<- <-]|[_ Hk]]; [done|]. by apply (tokenTaken_false _ _ Ht) in Hk.
  - exfalso. eapply List.find_none in Ef; [|rewrite <- list_elem_of_In; apply (elem_of_map_to_list _ sid r); rewrite lookup_insert; by case_decide].
    cbn in Ef. bool_simpl. done.
Qed.

(** Without failures a session that is active lets its user in. *)
Lemma Authenticate_quiet raw env n db id r u : quiet env -> raw <> EmptyString -> sessionOf db (Sum256 (bytes raw)) = Some (id, r) ->
  liveAccount db (se_user r) = Some u -> ac_status u = StatusActive -> activeAt (UTC (wall env n)) r = true ->
  exists st s, Authenticate raw env (n, db) = (st, Ok (MkAuthentication (scanUser (se_user r) u) s)).
Proof.
  intros Hq Hne Hs Hl Hst Ha. unfold Authenticate. rewrite bool_decide_eq_false_2 by done. unfold dbind at 1, wallNow.
  assert (Hf : FindActiveByTokenHash (Sum256 (bytes raw)) (UTC (wall env n)) env (S n, db) = ((S (S n), db), Ok (scanSession id r, scanUser (se_user r) u))).
  { unfold FindActiveByTokenHash. rewrite call_run by apply Hq. rewrite dget_run, Hs, Hl, Ha. done. }
  unfold dbind at 1, attempt at 1. rewrite Hf. cbn [UserStatus scanUser]. rewrite Hst, bool_decide_eq_true_2 by done. cbn [negb].
  destruct (sessionTouchPeriod <=? _); [|by eexists _, _].
  assert (Ht : exists st, touch (UTC (wall env n)) (scanSession id r) env (S (S n), db) = (st, Ok tt)).
  { eexists. unfold touch, Touch. eapply statement_quiet; [done|]. unfold touchBody. rewrite call_run by apply Hq. rewrite dget_run. cbn [SessionID scanSession].
    unfold sessionOf in Hs. apply (find_entry _ (fun r => bool_decide (se_token r = Sum256 (bytes raw)))) in Hs as [-> _]. rewrite Ha. done. }
  destruct Ht as [st Ht]. unfold dbind, attempt. rewrite Ht. by eexists _, _.
Qed.

Section LogIn.
Context `{Argon2}.

(** A failed attempt changes nothing but the record of attempts. *)
Definition refusedLogin (db db' : AuthDB) : Prop :=
  exists row, db' = setLogins (loginEvents db ++ [row]) db /\ lo_success row = false.

Definition usable (i : LoginInput) (name : string) : Prop :=
  name = normalizeUsername lower (normalizeUsername lower (LoginUsername i)) /\ storable name = true
  /\ storable (FromAgent i) = true /\ addressable (FromIP i) = true.

Lemma loggedRow_check db i name user success reason at_ : usable i name -> storable reason = true ->
  (forall u, user = Some u -> is_Some (accounts db !! u)) ->
  loginCheck db (loggedRow user (normalizeUsername lower (LoginUsername i)) success reason (FromIP i) (FromAgent i) at_) = true.
Proof.
  intros (-> & Hn & Ha & Hi) Hr Hu. unfold loginCheck. cbn. rewrite Hn, Hr, Ha, Hi. destruct user as [u|]; [|done].
  by rewrite bool_decide_eq_true_2 by auto.
Qed.

Lemma failedLogin_quiet {A} i name user reason env n db : quiet env -> usable i name -> storable reason = true ->
  (forall u, user = Some u -> is_Some (accounts db !! u)) ->
  exists st, failedLogin lower user (normalizeUsername lower (LoginUsername i)) reason i env (n, db) = (st, Err ErrInvalidCredentials : result Error A)
    /\ refusedLogin db (snd st).
Proof.
  intros Hq Hus Hr Hu. destruct (recordLoginEvent_quiet user (normalizeUsername lower (LoginUsername i)) false reason (FromIP i) (FromAgent i) env n db Hq) as [n' Hrun].
  { by eapply loggedRow_check. }
  eexists. unfold failedLogin, dbind, attempt. rewrite Hrun. split; [done|]. eexists. by split.
Qed.

Lemma startSession_quiet i name user b env n db : quiet env -> usable i name -> is_Some (accounts db !! UserID user) ->
  tokenTaken db (Sum256 (bytes (RawURLEncode b))) = false -> (forall k, uuids env k <> NilUUID /\ sessions db !! uuids env k = None) ->
  exists n' s row, startSession lower user (normalizeUsername lower (LoginUsername i)) i (Some b) env (n, db)
      = ((n', setLogins (loginEvents db ++ [row]) (setSessions (<[SessionID s := sessionRow (createSessionParams s)]> (sessions db)) db)),
         Ok (MkAuthentication user s, RawURLEncode b))
    /\ lo_success row = true /\ lo_user row = Some (UserID user) /\ freshSession (createSessionParams s)
    /\ SessionUser s = UserID user /\ TokenHash s = Sum256 (bytes (RawURLEncode b)).
Proof.
  intros Hq Hus Hu Ht Hid. set (s := MkSession (uuids env (S n)) (UserID user) (Sum256 (bytes (RawURLEncode b))) (FromAgent i) (FromIP i)
    (UTC (wall env n)) (UTC (wall env n)) (addDuration (UTC (wall env n)) sessionIdleTTL) (addDuration (UTC (wall env n)) sessionAbsoluteTTL) None None).
  destruct (CreateSession_quiet (createSessionParams s) env (S (S n)) db Hq) as [n1 Hc1].
  { apply Hid. }
  { unfold sessionAllowed. destruct Hus as (_ & _ & Ha & Hip). cbn. rewrite Ht, Ha, Hip. destruct (Hid (S n)) as [_ Hnone].
    rewrite Hnone, bool_decide_eq_false_2 by (by intros [? [=]]). by rewrite bool_decide_eq_true_2. }
  set (db1 := setSessions _ db) in Hc1.
  destruct (recordLoginEvent_quiet (Some (UserID user)) (normalizeUsername lower (LoginUsername i)) true "success" (FromIP i) (FromAgent i) env n1 db1 Hq) as [n2 Hc2].
  { eapply loggedRow_check; [done|done|]. by intros u [= <-]. }
  eexists n2, s, (loggedRow (Some (UserID user)) (normalizeUsername lower (LoginUsername i)) true "success" (FromIP i) (FromAgent i) (wall env n1)).
  split; [|by split_and!]. unfold startSession, createSession, newSession. cbn [NewSessionToken].
  unfold dbind at 1, dbind at 1, dbind at 1, wallNow, dbind at 1, newUUID, dret at 1. fold s. unfold dbind at 1. rewrite Hc1.
  unfold dret at 1. unfold dbind, attempt. rewrite Hc2. done.
Qed.

(** C29. When nothing fails, a login succeeds exactly when the name is that of an account
    that is active and whose password it is.  It adds one session, under a token that lets
    this user in for seven days, and records the success; otherwise the attempt is recorded,
    nothing else changes, and the answer is the same whatever the reason. *)
Theorem login_exact i name b env n db : quiet env -> usable i name ->
  tokenTaken db (Sum256 (bytes (RawURLEncode b))) = false -> RawURLEncode b <> EmptyString ->
  (forall k, uuids env k <> NilUUID /\ sessions db !! uuids env k = None) ->
  exists st out, Login lower i (Some b) env (n, db) = (st, out) /\
  match credentials db name (LoginPassword i) with
  | Some (id, u) => exists s row, out = Ok (MkAuthentication (scanUser id u) s, RawURLEncode b)
      /\ snd st = setLogins (loginEvents db ++ [row]) (setSessions (<[SessionID s := sessionRow (createSessionParams s)]> (sessions db)) db)
      /\ lo_success row = true /\ lo_user row = Some id
      /\ forall env' n', quiet env' -> stored (ns (wall env' n')) < stored (ns (CreatedAt s)) + 7 * day ->
           exists st' s', Authenticate (RawURLEncode b) env' (n', snd st) = (st', Ok (MkAuthentication (scanUser id u) s'))
  | None => out = Err ErrInvalidCredentials /\ refusedLogin db (snd st)
  end.
Proof.
  intros Hq Hus Ht Hne Hid. unfold Login. unfold dbind at 1, attempt at 1, FindByUsername. rewrite call_run by apply Hq.
  pose proof Hus as (Hname & Hstore & _). rewrite <- Hname, Hstore. cbn [negb]. rewrite dget_run. unfold credentials.
  destruct (accountNamed db name) as [[id u]|] eqn:En.
  2: { destruct (failedLogin_quiet (A := Authentication * string) i name None "unknown_user" env (S n) db Hq Hus eq_refl ltac:(done)) as (st & Hrun & Hr). by eexists _, _. }
  unfold dret at 1. cbn [checkLogin PasswordHash scanUser UserID UserStatus]. apply accountNamed_Some in En.
  assert (Hex : is_Some (accounts db !! id)) by (apply liveAccount_Some in En as [-> _]; eauto).
  destruct (Compare (ac_hash u) (LoginPassword i)); cbn [negb andb].
  2: { destruct (failedLogin_quiet (A := Authentication * string) i name (Some id) "invalid_password" env (S n) db Hq Hus eq_refl ltac:(by intros ? [= <-])) as (st & Hrun & Hr). by eexists _, _. }
  destruct (bool_decide (ac_status u = StatusActive)) eqn:Hst; cbn [negb].
  2: { destruct (failedLogin_quiet (A := Authentication * string) i name (Some id) "disabled" env (S n) db Hq Hus eq_refl ltac:(by intros ? [= <-])) as (st & Hrun & Hr). by eexists _, _. }
  destruct (startSession_quiet i name (scanUser id u) b env (S n) db Hq Hus Hex Ht Hid) as (n' & s & row & Hrun & Hs1 & Hs2 & Hf & Hsu & Hst').
  eexists _, _. split; [exact Hrun|]. exists s, row. split_and!; try done. intros env' n'' Hq' Hw. bool_simpl.
  cbn [snd]. pose proof (sessionOf_new db _ (SessionID s) (sessionRow (createSessionParams s)) Ht Hst' _ eq_refl) as Hfind.
  replace (scanUser id u) with (scanUser (se_user (sessionRow (createSessionParams s))) u) by (cbn; by rewrite Hsu).
  apply Authenticate_quiet with (id := SessionID s); [done|done|exact Hfind| |done|].
  - cbn. rewrite Hsu. exact En.
  - unfold activeAt. destruct Hf as (_ & Hi & Ha). cbn in *. rewrite Hi, Ha. cbn. destruct (stored_ttl (ns (CreatedAt s))) as [-> ->].
    rewrite !(proj2 (Z.ltb_lt _ _)); [done|..]; unfold sessionIdleTTL, sessionAbsoluteTTL, day, hour, minute, second, millisecond, microsecond in *; lia.
Qed.

End LogIn.

End Tables.
