(* ===== verification/AuthWitness.v ===== *)
(** * Authentication: a concrete run

    An administrator is created, who creates a student; the student logs in and asks for a
    page; the administrator resets the password.  The theorems at the states this goes
    through, and a login that a change of the password does not end. *)

From S2P Require Import Prelude GoTime GoText GoStrings GoSha256 GoStrconv GoEncoding Pg OpsModel Keyset AuditLog FilesStore AuthModel AuthStore AuthTheorems.
From stdpp Require Import base tactics list gmap strings relations.
From Stdlib Require Import ZArith Lia.

Open Scope Z_scope.

Import Auth AuthStore AuthService.

#[local] Existing Instance PgTruncate.
#[local] Existing Instance DecimalUUID.

(** A key that depends on the password, for evaluation. *)
Definition smallKey (password salt : list Z) : Z := foldr (fun x acc => (x + 31 * acc) mod 256) 0 (password ++ salt).

#[local] Program Instance SmallArgon2 : Argon2 :=
  {| IDKey password salt _ _ _ keyLen := replicate (Z.to_nat keyLen) (smallKey password salt) |}.
Next Obligation.
  intros. apply Forall_replicate. unfold smallKey, isByte. destruct (password ++ salt); cbn; [lia|]. apply Z.mod_pos_bound. lia.
Qed.
Next Obligation. intros. cbn. rewrite length_replicate. lia. Qed.

Definition smallParams : Argon2Params := MkArgon2 64 1 1 16 16.
Definition saltOf (n : Z) : list Z := seqZ n 16.
Definition at_ (t : Z) : Env := MkEnv (fun _ => false) (fun _ => t) (fun _ => MkTime t None) (fun n => N.of_nat (1000 + Z.to_nat (t / minute) * 100 + n)).

Definition fromHere : IP := Some [127; 0; 0; 1].
Definition noAccounts : AuthDB := MkAuthDB ∅ ∅ [] (Audit.MkTable [] 1).
Definition adminPassword : string := or_zero "" (Hash smallParams "correct horse battery" (Some (saltOf 0))).
Definition withAdmin : AuthDB := exec (CreateUser pgLower (MkCreateUser "Teacher" "Teacher" RoleAdmin StatusActive adminPassword false)) (at_ minute) noAccounts.
Definition teacher : Actor :=
  MkActor (match accountNamed withAdmin "teacher" with Some (id, r) => scanUser id r | None => MkUser 0 "" "" RoleStudent StatusActive "" false zeroTime end)
    "request-1" fromHere.
Definition newcomer : CreateInput := MkCreateInput " Student-1 " "A student" "temporary password".
Definition withStudent : AuthDB := exec (CreateStudent pgLower smallParams teacher newcomer (Some (saltOf 20))) (at_ (2 * minute)) withAdmin.
Definition attempt1 : LoginInput := MkLogin "STUDENT-1" "temporary password" fromHere "browser".
Definition randomBytes : list Z := seqZ 0 32.
Definition token : string := RawURLEncode randomBytes.
Definition loggedIn : AuthDB := exec (Login pgLower attempt1 (Some randomBytes)) (at_ (3 * minute)) withStudent.
Definition studentID : UUID := match accountNamed withStudent "student-1" with Some (id, _) => id | None => 0%N end.
Definition reset : AuthDB := exec (ResetPassword smallParams teacher studentID "another password" (Some (saltOf 40))) (at_ (4 * minute)) loggedIn.

Notation authReachable := (reachable authInit (authStep pgLower)).

Lemma noAccounts_reachable : authReachable noAccounts.
Proof. apply reach_init. by split. Qed.

Lemma withAdmin_reachable : authReachable withAdmin.
Proof.
  eapply reachable_steps; [exact noAccounts_reachable|]. apply does_exec, operation_steps, op_CreateUser.
Qed.

Lemma withStudent_reachable : authReachable withStudent.
Proof. eapply reachable_steps; [exact withAdmin_reachable|]. apply does_exec, CreateStudent_steps. Qed.

Lemma loggedIn_reachable : authReachable loggedIn.
Proof. eapply reachable_steps; [exact withStudent_reachable|]. apply does_exec, Login_steps. Qed.

Lemma reset_steps : rtc (authStep pgLower) loggedIn reset.
Proof. apply does_exec, ResetPassword_steps. Qed.

Lemma reset_reachable : authReachable reset.
Proof. eapply reachable_steps; [exact loggedIn_reachable|exact reset_steps]. Qed.

(** The stored password is accepted, another is not. *)
Lemma password_roundtrip_witness :
  Compare adminPassword "correct horse battery" = true /\ Compare adminPassword "correct horse staple" = false.
Proof.
  split; [|vm_compute; reflexivity].
  destruct (password_roundtrip smallParams "correct horse battery" (saltOf 0) adminPassword) as (_ & _ & _ & Hc & _).
  - unfold unsigned. cbn. lia.
  - apply Forall_forall. intros x Hx. apply elem_of_seqZ in Hx. unfold isByte. lia.
  - vm_compute. reflexivity.
  - exact Hc.
Defined.

(** The student's account and session are consistent. *)
Lemma auth_invariant_witness : is_Some (sessions loggedIn !! 1302%N) /\ authWf loggedIn.
Proof. split; [vm_compute; eauto|]. exact (auth_invariant pgLower loggedIn loggedIn_reachable). Defined.

Definition cookie : list (string * string) := [("theme"%string, "dark"%string); ("hl_session"%string, token)].

(** A temporary password lets its owner change it, and nothing else. *)
Lemma session_lifetime_witness :
  snd (AuthenticateGate cookie "/api/v1/student/lessons" (at_ (5 * minute)) (0%nat, loggedIn)) = Ok PasswordChangeRequired /\
  exists r, sessions loggedIn !! 1302%N = Some r /\ se_revoked r = None /\ stored (5 * minute) < ns (se_created r) + 30 * day.
Proof.
  split; [vm_compute; reflexivity|].
  destruct (AuthenticateGate cookie "/api/v1/auth/me" (at_ (5 * minute)) (0%nat, loggedIn)) as [st [[user raw id| | |]|]] eqn:Eg;
    try (exfalso; vm_compute in Eg; discriminate).
  assert (Hid : id = 1302%N) by (vm_compute in Eg; congruence). subst id.
  destruct (session_lifetime pgLower loggedIn cookie _ _ 0 st user raw 1302 loggedIn_reachable Eg) as (_ & r & u & Hr & _ & Hv & Hc & _).
  exists r. split; [exact Hr|]. split; [exact Hv|exact Hc].
Defined.

(** After the reset the cookie is worth nothing. *)
Lemma revoked_stays_out_witness :
  snd (AuthenticateGate cookie "/api/v1/auth/me" (at_ (5 * minute)) (0%nat, loggedIn)) <> Ok Unauthenticated /\
  snd (AuthenticateGate cookie "/api/v1/auth/me" (at_ (5 * minute)) (0%nat, reset)) = Ok Unauthenticated.
Proof.
  split; [vm_compute; discriminate|].
  destruct (sessions reset !! 1302%N) as [r|] eqn:Er; [|vm_compute in Er; discriminate].
  assert (Hv : (fun r => bool_decide (is_Some (se_revoked r))) <$> sessions reset !! 1302%N = Some true) by (vm_compute; reflexivity).
  assert (Ht : se_token <$> sessions reset !! 1302%N = Some (Sum256 (bytes token))) by (vm_compute; reflexivity).
  rewrite Er in Hv, Ht. apply Some_inj in Hv, Ht. apply (revoked_stays_out pgLower reset reset 1302 r token cookie).
  - exact reset_reachable.
  - reflexivity.
  - exact Er.
  - by apply bool_decide_eq_true_1 in Hv.
  - exact Ht.
  - vm_compute. reflexivity.
Defined.

(** The reset ends the session and is recorded. *)
Lemma revocation_complete_witness :
  noSession reset studentID (fun _ => False) /\ recorded teacher "student.password_reset" studentID loggedIn reset.
Proof.
  destruct (ResetPassword smallParams teacher studentID "another password" (Some (saltOf 40)) (at_ (4 * minute)) (0%nat, loggedIn)) as [st r] eqn:Er.
  assert (Hok : r = Ok tt) by (vm_compute in Er; congruence). subst r.
  assert (Hst : snd st = reset) by (unfold reset, exec; rewrite Er; reflexivity).
  destruct (proj1 (revocation_complete pgLower smallParams (at_ (4 * minute)) 0 loggedIn st) _ _ _ _ Er) as (Hno & Hrec & _).
  rewrite Hst in Hno, Hrec. by split.
Defined.

(** The login of the student succeeds, and the token works six days later. *)
Lemma login_exact_witness :
  exists st s, Login pgLower attempt1 (Some randomBytes) (at_ (3 * minute)) (0%nat, withStudent) = (st, Ok (s, token)) /\
    exists st' a, Authenticate token (at_ (6 * day)) (0%nat, snd st) = (st', Ok a).
Proof.
  destruct (login_exact pgLower attempt1 "student-1" randomBytes (at_ (3 * minute)) 0 withStudent) as (st & out & Hl & Hc).
  - by intros n.
  - by vm_compute.
  - by vm_compute.
  - by vm_compute.
  - intros k. split; [intros E; apply (f_equal N.to_nat) in E; cbn -[Nat.mul Nat.add] in E; rewrite Nnat.Nat2N.id in E; vm_compute in E; lia|].
    replace (sessions withStudent) with (∅ : gmap N SessionRow) by (vm_compute; reflexivity). apply lookup_empty.
  - destruct (credentials withStudent "student-1" (LoginPassword attempt1)) as [[id u]|] eqn:Ec; [|vm_compute in Ec; discriminate].
    destruct Hc as (s & row & -> & _ & _ & _ & Hin). exists st. eexists. split; [exact Hl|].
    destruct (Hin (at_ (6 * day)) 0%nat) as (st' & s' & Ha).
    + by intros n.
    + assert (Hs : forall a b, Login pgLower attempt1 (Some randomBytes) (at_ (3 * minute)) (0%nat, withStudent) = (a, Ok b) -> ns (CreatedAt (AuthSession (fst b))) = 3 * minute)
        by (intros a b Hb; vm_compute in Hb; injection Hb as _ <-; reflexivity).
      pose proof (Hs _ _ Hl) as Hcr. cbn [fst AuthSession] in Hcr. rewrite Hcr. vm_compute. reflexivity.
    + eauto.
Defined.

(** A login that has read the account before the password changes, and creates its session
    after, leaves a session that the old password opened and no change revoked. *)
Definition oldUser : User := match accountNamed loggedIn "student-1" with Some (id, r) => scanUser id r | None => ActorUser teacher end.
Definition chosen : ChangePasswordInput := MkChange token "temporary password" "chosen by myself" fromHere "browser".
Definition changed : AuthDB := exec (ChangePassword smallParams chosen (Some (saltOf 60)) (Some (seqZ 64 32))) (at_ (4 * minute)) loggedIn.
Definition late : AuthDB := exec (checkLogin pgLower "student-1" (Ok oldUser) attempt1 (Some (seqZ 128 32))) (at_ (5 * minute)) changed.

Lemma late_login_survives :
  snd (FindByUsername pgLower "student-1" (at_ (3 * minute)) (0%nat, loggedIn)) = Ok oldUser
  /\ is_ok (snd (ChangePassword smallParams chosen (Some (saltOf 60)) (Some (seqZ 64 32)) (at_ (4 * minute)) (0%nat, loggedIn))) = true
  /\ match snd (AuthenticateGate [("hl_session"%string, RawURLEncode (seqZ 128 32))] "/api/v1/student/lessons" (at_ (6 * minute)) (0%nat, late)) with
     | Ok (Passed u _ _) => UserID u = studentID /\ Compare (PasswordHash u) (LoginPassword attempt1) = false
     | _ => False
     end.
Proof. vm_compute. by split_and!. Qed.
