(* ===== verification/BackupModel.v ===== *)
(** * Backup runs: data and validation ([internal/backup/model.go])

    The states of a run and their transition graph, the inputs of the store's
    operations with their validation, and the normalisation of scanned rows. *)

From stdpp Require Import base tactics list gmap strings.
From Stdlib Require Import ZArith Lia.
From S2P Require Import Prelude GoTime GoText Pg OpsModel.

Open Scope Z_scope.

Module Backup.

Inductive RunState :=
| StateQueued | StateDraining | StateSnapshotting | StateEncrypting | StateVerifying
| StateSyncing | StateSucceeded | StateDegraded | StateFailed
| OtherState (s : string).

Inductive Trigger :=
| TriggerScheduled | TriggerManual | TriggerPreRelease | OtherTrigger (s : string).

Inductive ArtifactKind :=
| ArtifactDatabaseDump | ArtifactObjectSnapshot | ArtifactManifest | ArtifactRecoveryReport
| OtherArtifact (s : string).

Inductive Repository := RepositoryLocal | RepositoryRemote | OtherRepository (s : string).

Inductive BackupError :=
| ErrForbidden | ErrInvalid | ErrNotFound | ErrAlreadyQueued | ErrUnavailable
| ErrNoClaimableRun | ErrActiveClaim | ErrStaleOwner | ErrInvalidTransition.

#[export] Instance RunState_eq_dec : EqDecision RunState.
Proof. solve_decision. Defined.
#[export] Instance Trigger_eq_dec : EqDecision Trigger.
Proof. solve_decision. Defined.
#[export] Instance ArtifactKind_eq_dec : EqDecision ArtifactKind.
Proof. solve_decision. Defined.
#[export] Instance Repository_eq_dec : EqDecision Repository.
Proof. solve_decision. Defined.
#[export] Instance BackupError_eq_dec : EqDecision BackupError.
Proof. solve_decision. Defined.

(** ** The transition graph *)
Definition nextStates (from : RunState) : list RunState :=
  match from with
  | StateQueued => [StateDraining; StateFailed]
  | StateDraining => [StateSnapshotting; StateFailed]
  | StateSnapshotting => [StateEncrypting; StateFailed]
  | StateEncrypting => [StateVerifying; StateFailed]
  | StateVerifying => [StateSyncing; StateSucceeded; StateFailed]
  | StateSyncing => [StateSucceeded; StateDegraded; StateFailed]
  | _ => []
  end.

Definition ValidTransition (from to : RunState) : bool := bool_decide (to ∈ nextStates from).

Definition terminal (s : RunState) : bool :=
  match s with StateSucceeded | StateDegraded | StateFailed => true | _ => false end.

(** ** Rows and inputs

    A NULL text column is scanned into the empty string and a NULL owner into
    the nil UUID; neither is ever stored, so [None] is both. *)
Record Run := MkRun {
  RunID : UUID;
  IdempotencyKey : string;
  RunTrigger : Trigger;
  RunState_ : RunState;
  RequestedBy : option UUID;
  RequestedAt : Time;
  StartedAt : option Time;
  FinishedAt : option Time;
  DatabaseMigrationVersion : option Z;
  EncryptionKeyID : option string;
  LocalSnapshotID : option string;
  RemoteSnapshotID : option string;
  ManifestSHA256 : option (list Z);
  LogicalBytes : option Z;
  StoredBytes : option Z;
  LocalExpiresAt : option Time;
  RemoteExpiresAt : option Time;
  RunErrorCategory : string;
  ErrorTraceID : string;
  OwnerID : option UUID;
  LeaseExpiresAt : option Time;
  LeaseGeneration : Z
}.

Record RunSummary := MkSummary {
  SumID : UUID;
  SumTrigger : Trigger;
  SumState : RunState;
  SumRequestedAt : Time;
  SumStartedAt : option Time;
  SumFinishedAt : option Time;
  SumLogicalBytes : option Z;
  SumStoredBytes : option Z;
  SumLocalExpiresAt : option Time;
  SumRemoteExpiresAt : option Time;
  SumErrorCategory : string
}.

Record Artifact := MkArtifact {
  BackupRunID : UUID;
  ArtOwnerID : UUID;
  ArtGeneration : Z;
  ArtKind : ArtifactKind;
  ArtRepository : Repository;
  SnapshotID : string;
  SHA256 : list Z;
  SizeBytes : Z;
  VerifiedAt : Time;
  ExpiresAt : Time
}.

Record CreateInput := MkCreate {
  InID : UUID;
  InTrigger : Trigger;
  InKey : string;
  InRequestedBy : UUID;
  InRequestedAt : Time;
  InRequestID : string;
  InIP : IP
}.

Record RecoveryEvidence := MkEvidence {
  EvMigration : Z;
  EvEncryptionKeyID : string;
  EvLocalSnapshotID : string;
  EvRemoteSnapshotID : string;
  EvManifestSHA256 : list Z;
  EvLogicalBytes : option Z;
  EvStoredBytes : option Z;
  EvLocalExpiresAt : Time;
  EvRemoteExpiresAt : option Time
}.

Record TransitionInput := MkTransitionInput {
  TrRunID : UUID;
  TrOwnerID : UUID;
  TrGeneration : Z;
  TrFrom : RunState;
  TrTo : RunState;
  TrAt : Time;
  TrEvidence : option RecoveryEvidence;
  TrErrorCategory : string;
  TrErrorTraceID : string
}.

Record CompletionInput := MkCompletion {
  CoRunID : UUID;
  CoOwnerID : UUID;
  CoGeneration : Z;
  CoFrom : RunState;
  CoEvidence : RecoveryEvidence;
  RemoteConfigured : bool;
  RemoteSucceeded : bool;
  CoErrorCategory : string;
  CoErrorTraceID : string
}.

Inductive RestoreState :=
| RestoreQueued | RestoreRestoring | RestoreChecking | RestoreSucceeded | RestoreFailed
| OtherRestore (s : string).

#[export] Instance RestoreState_eq_dec : EqDecision RestoreState.
Proof. solve_decision. Defined.

(** Go maps from table names to counts. *)
Notation Counts := (gmap string Z) (only parsing).

Record RestoreVerification := MkVerification {
  RvID : UUID;
  RvRunID : UUID;
  RvState : RestoreState;
  RvStartedAt : option Time;
  RvFinishedAt : option Time;
  RestoredMigrationVersion : option Z;
  DatabaseRowCounts : option Counts;
  CheckedObjectCount : Z;
  MissingObjectCount : Z;
  UnexpectedObjectCount : Z;
  SessionRevocationVerified : bool;
  RTOSeconds : option Z;
  ReportSHA256 : option (list Z);
  RvErrorCategory : string;
  RvErrorTraceID : string
}.

Record RestoreSuccessInput := MkRestoreSuccess {
  RsVerificationID : UUID;
  RsRunID : UUID;
  RsManifestSHA256 : list Z;
  RsStartedAt : Time;
  RsFinishedAt : Time;
  RsMigrationVersion : Z;
  RsRowCounts : Counts;
  RsCheckedObjectCount : Z;
  RsSessionRevocationVerified : bool;
  RsRTOSeconds : Z;
  RsReportSHA256 : list Z
}.

Record RunDetail := MkDetail {
  DetailRun : Run;
  DetailArtifacts : list Artifact;
  DetailVerifications : list RestoreVerification
}.

(** The zero cursor is the first page. *)
Record Cursor := MkCursor { CurRequestedAt : Time; CurID : UUID }.

Definition zeroCursor : Cursor := MkCursor zeroTime NilUUID.

Definition CursorIsZero (c : Cursor) : bool := IsZero (CurRequestedAt c) && (CurID c =? NilUUID)%N.

Record Filter := MkFilter { Before_ : Cursor; Limit : Z }.

Record Page := MkPage { Items : list RunSummary; Next : Cursor }.

(** ** Validation *)

(** The pattern [^[A-Za-z0-9._:-]{1,128}$]. *)
Definition safeOpaqueValue (s : string) : bool :=
  matchClass (fun b => isAlnum b || oneOf "._:-" b) 1 128 s.

Definition safeErrorCategories : list string :=
  ["drain_timeout"; "database_dump"; "object_store_stop"; "snapshot"; "object_store_restart";
   "integrity"; "remote_sync"; "remote_unavailable"; "retention"; "lease_lost"; "cancelled";
   "internal"; "repository_integrity"; "restore_database"; "restore_object_store";
   "session_revocation"; "readiness"; "reference_check"; "authorization_check"; "timeout"].

Definition allowedRestoreRowCountTables : list string :=
  ["users"; "sessions"; "subjects"; "grades"; "terms"; "chapters"; "lessons";
   "lesson_revisions"; "files"; "file_versions"; "file_previews"; "qa_threads"; "qa_messages";
   "ai_threads"; "ai_messages"; "ai_runs"].

Definition validTrigger (t : Trigger) : bool :=
  match t with OtherTrigger _ => false | _ => true end.

Definition validState (s : RunState) : bool :=
  match s with OtherState _ => false | _ => true end.

Definition safeIdempotencyKey (v : string) : bool :=
  (8 <=? len v) && (len v <=? 128) && safeOpaqueValue v.

Definition validateCreate (i : CreateInput) : result BackupError unit :=
  (reject (InID i =? NilUUID)%N || negb (validTrigger (InTrigger i))
      || negb (safeIdempotencyKey (InKey i)) || IsZero (InRequestedAt i) with ErrInvalid;
   if bool_decide (InTrigger i = TriggerManual)
   then (reject (InRequestedBy i =? NilUUID)%N || blank (InRequestID i)
            || (64 <? len (InRequestID i)) || negb (validIP (InIP i)) with ErrInvalid;
         Ok tt)
   else (reject negb (InRequestedBy i =? NilUUID)%N || negb (bool_decide (InRequestID i = ""))
            || negb (bool_decide (InIP i = None)) with ErrInvalid;
         Ok tt))%go.

Definition validateEvidence (e : RecoveryEvidence) : result BackupError unit :=
  (reject (EvMigration e <? 1)
      || negb (safeOpaqueValue (EvEncryptionKeyID e))
      || negb (safeOpaqueValue (EvLocalSnapshotID e))
      || negb (Z.of_nat (length (EvManifestSHA256 e)) =? 32)
      || IsZero (EvLocalExpiresAt e)
      || (negb (bool_decide (EvRemoteSnapshotID e = ""))
          && negb (safeOpaqueValue (EvRemoteSnapshotID e)))
      || match EvLogicalBytes e with Some n => n <? 0 | None => false end
      || match EvStoredBytes e with Some n => n <? 0 | None => false end
      || match EvRemoteExpiresAt e with Some t => IsZero t | None => false end
     with ErrInvalid;
   Ok tt)%go.

Definition validArtifactKind (k : ArtifactKind) : bool :=
  match k with OtherArtifact _ => false | _ => true end.

Definition validRepository (r : Repository) : bool :=
  match r with OtherRepository _ => false | _ => true end.

Definition validateArtifact (a : Artifact) : result BackupError unit :=
  (reject (BackupRunID a =? NilUUID)%N || (ArtOwnerID a =? NilUUID)%N || (ArtGeneration a <? 1)
      || negb (validArtifactKind (ArtKind a)) || negb (validRepository (ArtRepository a))
      || negb (safeOpaqueValue (SnapshotID a)) || negb (Z.of_nat (length (SHA256 a)) =? 32)
      || (SizeBytes a <? 0) || IsZero (VerifiedAt a) || IsZero (ExpiresAt a) with ErrInvalid;
   Ok tt)%go.

Definition ValidErrorCategory (category : string) : bool := member safeErrorCategories category.

Definition validSafeError (category traceID : string) : bool :=
  (bool_decide (category = "") || ValidErrorCategory category)
  && (bool_decide (traceID = "") || ((len traceID <=? 64) && safeOpaqueValue traceID)).

Definition normalizeRun (r : Run) : Run :=
  MkRun (RunID r) (IdempotencyKey r) (RunTrigger r) (RunState_ r) (RequestedBy r)
    (UTC (RequestedAt r)) (cloneTime (StartedAt r)) (cloneTime (FinishedAt r))
    (DatabaseMigrationVersion r) (EncryptionKeyID r) (LocalSnapshotID r) (RemoteSnapshotID r)
    (ManifestSHA256 r) (LogicalBytes r) (StoredBytes r) (cloneTime (LocalExpiresAt r))
    (cloneTime (RemoteExpiresAt r)) (RunErrorCategory r) (ErrorTraceID r) (OwnerID r)
    (cloneTime (LeaseExpiresAt r)) (LeaseGeneration r).

Definition Summary (r : Run) : RunSummary :=
  MkSummary (RunID r) (RunTrigger r) (RunState_ r) (RequestedAt r) (cloneTime (StartedAt r))
    (cloneTime (FinishedAt r)) (LogicalBytes r) (StoredBytes r) (cloneTime (LocalExpiresAt r))
    (cloneTime (RemoteExpiresAt r)) (RunErrorCategory r).

(** The loop over a map, with [None] for the nil map. *)
Definition validRestoreRowCounts (counts : option Counts) : bool :=
  match counts with
  | None => false
  | Some m => forallb (fun '(table, count) =>
                negb (negb (member allowedRestoreRowCountTables table) || (count <? 0)))
                (map_to_list m)
  end.

Definition safeRowCounts (counts : Counts) : Counts :=
  filter (fun '(table, count) =>
    member allowedRestoreRowCountTables table = true /\ 0 <= count) counts.

Definition safeText (v : string) : string :=
  if blank v then "" else if member safeErrorCategories v then v else "".

(** ** Facts *)

(** The rank of a state: every transition raises it. *)
Definition rank (s : RunState) : nat :=
  match s with
  | StateQueued => 0
  | StateDraining => 1
  | StateSnapshotting => 2
  | StateEncrypting => 3
  | StateVerifying => 4
  | StateSyncing => 5
  | StateSucceeded | StateDegraded | StateFailed => 6
  | OtherState _ => 7
  end.

Lemma ValidTransition_In from to : ValidTransition from to = true <-> to ∈ nextStates from.
Proof. apply bool_decide_eq_true. Qed.

Lemma ValidTransition_rank from to :
  ValidTransition from to = true -> (rank from < rank to <= 6)%nat.
Proof.
  rewrite ValidTransition_In. destruct from; simpl; rewrite ?elem_of_cons, ?elem_of_nil; try done;
    intros Hx; naive_solver lia.
Qed.

Lemma ValidTransition_from from to :
  ValidTransition from to = true -> terminal from = false /\ validState from = true.
Proof.
  rewrite ValidTransition_In. destruct from; simpl; try done; by rewrite elem_of_nil.
Qed.

Lemma validateCreate_Ok i :
  validateCreate i = Ok tt ->
  InID i <> NilUUID /\ validTrigger (InTrigger i) = true /\ safeIdempotencyKey (InKey i) = true /\
  (InTrigger i = TriggerManual -> InRequestedBy i <> NilUUID) /\
  (InTrigger i <> TriggerManual -> InRequestedBy i = NilUUID).
Proof.
  unfold validateCreate. destruct (_ || _ || _ || _) eqn:G; [done|]. bool_simpl.
  case_bool_decide as Ht.
  - destruct (_ || _ || _ || _) eqn:G2; [done|]. bool_simpl. intros _.
    split_and!; try done; [by apply N.eqb_neq|intros _; by apply N.eqb_neq].
  - destruct (_ || _ || _) eqn:G2; [done|]. bool_simpl. intros _.
    split_and!; try done; [by apply N.eqb_neq|intros _; by apply N.eqb_eq].
Qed.

Lemma safeOpaque_nonempty s : safeOpaqueValue s = true -> s <> "".
Proof. intros Hs. eapply matchClass_nonempty; [|exact Hs]. lia. Qed.

Lemma safeOpaque_runes s : safeOpaqueValue s = true -> 1 <= RuneCountInString s <= 128.
Proof. intros Hs%matchClass_len. apply RuneCount_between; lia. Qed.

End Backup.
