(* ===== verification/BackupStore.v ===== *)
(** * The backup store ([internal/backup/postgres_store.go])

    The tables [backup_runs], [backup_artifacts] and [restore_verifications] with the constraints of
    migration 00020, and the store's operations: idempotent creation, claims
    with leases and generations, fenced transitions and artifacts.  A commit
    whose outcome is unknown is reconciled against the durable row. *)

From stdpp Require Import base tactics list gmap strings.
From Stdlib Require Import ZArith Lia.
From S2P Require Import Prelude GoTime GoText Pg OpsModel BackupModel.
Import Backup.

Open Scope Z_scope.

(** ** Tables *)
Record AuditRow := MkAuditRow {
  ActorUserID : UUID;
  AuditAction : string;
  AuditTargetType : string;
  AuditTargetID : UUID;
  AuditRequestID : string;
  AuditIP : IP
}.

Record BackupDB := MkBackupDB {
  runs : gmap N Run;
  artifacts : list Artifact;
  audits : list AuditRow;
  users : list N;
  restores : gmap N RestoreVerification
}.

Definition setRuns (m : gmap N Run) (db : BackupDB) : BackupDB :=
  MkBackupDB m (artifacts db) (audits db) (users db) (restores db).

(** The CHECK constraints of [backup_runs] and the range of its counters. *)
Definition runRowCheck (r : Run) : bool :=
  (1 <=? RuneCountInString (IdempotencyKey r)) && (RuneCountInString (IdempotencyKey r) <=? 128)
  && validTrigger (RunTrigger r) && validState (RunState_ r)
  && match DatabaseMigrationVersion r with Some v => 1 <=? v | None => true end
  && match ManifestSHA256 r with Some b => Z.of_nat (length b) =? 32 | None => true end
  && match LogicalBytes r with Some v => 0 <=? v | None => true end
  && match StoredBytes r with Some v => 0 <=? v | None => true end
  && (0 <=? LeaseGeneration r) && (LeaseGeneration r <=? 2 ^ 63 - 1)
  && Bool.eqb (bool_decide (OwnerID r = None)) (bool_decide (LeaseExpiresAt r = None))
  && Bool.eqb (terminal (RunState_ r)) (negb (bool_decide (FinishedAt r = None)))
  && (negb (terminal (RunState_ r)) || bool_decide (OwnerID r = None))
  && (negb (bool_decide (RunState_ r = StateSucceeded) || bool_decide (RunState_ r = StateDegraded))
      || (match LocalSnapshotID r with Some s => negb (blank s) | None => false end
          && negb (bool_decide (ManifestSHA256 r = None))
          && negb (bool_decide (DatabaseMigrationVersion r = None))
          && match EncryptionKeyID r with Some s => negb (blank s) | None => false end
          && negb (bool_decide (LocalExpiresAt r = None)))).

(** The unique key on trigger and idempotency key. *)
Definition sameKey (t : Trigger) (key : string) (r : Run) : bool :=
  bool_decide (RunTrigger r = t) && bool_decide (IdempotencyKey r = key).

Definition findKey (db : BackupDB) (t : Trigger) (key : string) : option Run :=
  snd <$> List.find (fun '(_, r) => sameKey t key r) (map_to_list (runs db)).

Definition activeRun (r : Run) : bool := negb (terminal (RunState_ r)).

Definition anyActive (db : BackupDB) : bool :=
  existsb (fun '(_, r) => activeRun r) (map_to_list (runs db)).

(** [now < expiry] of a lease read back from the row. *)
Definition leaseLive (now : Time) (r : Run) : bool :=
  match LeaseExpiresAt r with Some t => After t now | None => false end.

Definition heldBy (owner : UUID) (generation : Z) (r : Run) : bool :=
  bool_decide (OwnerID r = Some owner) && (LeaseGeneration r =? generation).

Definition leaseInRange (lease : Z) : bool := (second <=? lease) && (lease <=? 24 * hour).

Section Store.
Context `{PgTime}.

Definition pgo (t : option Time) : option Time := pg <$> t.

(** ** Create *)
Definition queuedRun (i : CreateInput) : Run :=
  MkRun (InID i) (InKey i) (InTrigger i) StateQueued
    (if (InRequestedBy i =? NilUUID)%N then None else Some (InRequestedBy i))
    (pg (UTC (InRequestedAt i))) None None None None None None None None None None None "" ""
    None None 0.

Definition requestAudit (i : CreateInput) : AuditRow :=
  MkAuditRow (InRequestedBy i) "operations.backup_requested" "backup_run" (InID i)
    (InRequestID i) (InIP i).

Definition createBody (i : CreateInput) : DB BackupDB BackupError Run :=
  (call ErrUnavailable;
   call ErrUnavailable;
   do db <- dget;
   match findKey db (InTrigger i) (InKey i) with
   | Some existing => dret existing
   | None =>
     call ErrUnavailable;
     fail if anyActive db with ErrAlreadyQueued;
     call ErrUnavailable;
     let run := queuedRun i in
     fail if bool_decide (is_Some (runs db !! InID i)) || negb (runRowCheck run)
             || match RequestedBy run with Some u => negb (bool_decide (u ∈ users db)) | None => false end
       with ErrUnavailable;
     do _ <- dput (setRuns (<[InID i := run]> (runs db)) db);
     if bool_decide (InTrigger i = TriggerManual)
     then call ErrUnavailable;
          do db' <- dget;
          do _ <- dput (MkBackupDB (runs db') (artifacts db') (audits db' ++ [requestAudit i]) (users db') (restores db'));
          dret run
     else dret run
   end)%db.

Definition Create (i : CreateInput) : DB BackupDB BackupError Run :=
  match validateCreate i with
  | Err _ => dfail ErrInvalid
  | Ok _ => transact ErrUnavailable ErrUnavailable (createBody i)
  end.

(** ** Ambiguous commits

    Reads of the durable row, up to two, each on a connection of its own. *)
Fixpoint durableRead (attempts : nat) (q : BackupDB -> Time -> option Run) :
  DB BackupDB BackupError Run :=
  match attempts with
  | O => dfail ErrUnavailable
  | S attempts' => fun env st =>
    match (call ErrUnavailable;
           do now <- databaseNow ErrUnavailable;
           do db <- dget;
           match q db now with
           | Some r => dret r
           | None => dfail ErrUnavailable
           end)%db env st with
    | (st', Ok r) => (st', Ok r)
    | (st', Err _) => durableRead attempts' q env st'
    end
  end.

(** Runs a transaction; when its commit is lost the intended row is handed to
    [reconcile]. *)
Definition reconciling (body : DB BackupDB BackupError Run)
    (reconcile : Run -> DB BackupDB BackupError Run) : DB BackupDB BackupError Run :=
  fun env st =>
    match transaction ErrUnavailable body env st with
    | (st', Committed run) => (st', Ok run)
    | (st', CommitLost run) =>
        match reconcile run env st' with
        | (st'', Ok r) => (st'', Ok r)
        | (st'', Err _) => (st'', Err ErrUnavailable)
        end
    | (st', RolledBack e) => (st', Err e)
    end.

Definition equalTimePointer (l r : option Time) : bool :=
  match l, r with
  | None, None => true
  | Some a, Some b => Equal a b
  | _, _ => false
  end.

Definition equalInt64Pointer (l r : option Z) : bool :=
  match l, r with
  | None, None => true
  | Some a, Some b => a =? b
  | _, _ => false
  end.

(** ** Claim *)

(** [ORDER BY (owner_id IS NULL),requested_at,id LIMIT 1] over active runs. *)
Definition claimBefore (a b : Run) : bool :=
  match OwnerID a, OwnerID b with
  | Some _, None => true
  | None, Some _ => false
  | _, _ => (ns (RequestedAt a) <? ns (RequestedAt b))
            || ((ns (RequestedAt a) =? ns (RequestedAt b)) && (RunID a <=? RunID b)%N)
  end.

Fixpoint firstClaim (l : list Run) : option Run :=
  match l with
  | [] => None
  | r :: l' =>
    match firstClaim l' with
    | None => Some r
    | Some b => if claimBefore r b then Some r else Some b
    end
  end.

Definition nextClaim (db : BackupDB) : option Run :=
  firstClaim (List.filter activeRun (snd <$> map_to_list (runs db))).

(** The SET clause of the claim. *)
Definition claimedRun (owner : UUID) (lease : Z) (now : Time) (r : Run) : Run :=
  MkRun (RunID r) (IdempotencyKey r) (RunTrigger r) (RunState_ r) (RequestedBy r) (RequestedAt r)
    (coalesce (StartedAt r) (Some (pg now))) (FinishedAt r) (DatabaseMigrationVersion r)
    (EncryptionKeyID r) (LocalSnapshotID r) (RemoteSnapshotID r) (ManifestSHA256 r)
    (LogicalBytes r) (StoredBytes r) (LocalExpiresAt r) (RemoteExpiresAt r)
    (RunErrorCategory r) (ErrorTraceID r) (Some owner) (Some (pg (addDuration now lease)))
    (LeaseGeneration r + 1).

(** An UPDATE of one row, refused by the constraints when they do not hold. *)
Definition updateRun (r : Run) : DB BackupDB BackupError Run :=
  (do db <- dget;
   fail if negb (runRowCheck r) with ErrUnavailable;
   do _ <- dput (setRuns (<[RunID r := r]> (runs db)) db);
   dret r)%db.

Definition claimBody (runID owner : UUID) (lease : Z) : DB BackupDB BackupError Run :=
  (call ErrUnavailable;
   call ErrUnavailable;
   do db <- dget;
   match (if (runID =? NilUUID)%N then nextClaim db else runs db !! runID) with
   | None => dfail (if (runID =? NilUUID)%N then ErrNoClaimableRun else ErrNotFound)
   | Some current =>
     fail if terminal (RunState_ current) with ErrNoClaimableRun;
     do now <- databaseNow ErrUnavailable;
     fail if negb (bool_decide (OwnerID current = None)) && leaseLive now current
       with ErrActiveClaim;
     call ErrUnavailable;
     updateRun (claimedRun owner lease now current)
   end)%db.

Definition reconcileClaim (owner : UUID) (intended : Run) : DB BackupDB BackupError Run :=
  (do durable <- durableRead 2 (fun db now =>
     match runs db !! RunID intended with
     | Some r => if bool_decide (OwnerID r = Some owner) && leaseLive now r then Some r else None
     | None => None
     end);
   fail if negb (RunID durable =? RunID intended)%N
           || negb (bool_decide (OwnerID durable = Some owner))
           || negb (LeaseGeneration durable =? LeaseGeneration intended)
           || negb (bool_decide (RunState_ durable = RunState_ intended))
           || negb (equalTimePointer (StartedAt durable) (StartedAt intended))
           || negb (equalTimePointer (LeaseExpiresAt durable) (LeaseExpiresAt intended))
     with ErrUnavailable;
   dret durable)%db.

Definition claim (runID owner : UUID) (lease : Z) : DB BackupDB BackupError Run :=
  (fail if (owner =? NilUUID)%N || negb (leaseInRange lease) with ErrInvalid;
   call ErrUnavailable;
   reconciling (claimBody runID owner lease) (reconcileClaim owner))%db.

Definition Claim (owner : UUID) (lease : Z) : DB BackupDB BackupError Run :=
  claim NilUUID owner lease.

Definition ClaimRunByID (runID owner : UUID) (lease : Z) : DB BackupDB BackupError Run :=
  (fail if (runID =? NilUUID)%N with ErrInvalid; claim runID owner lease)%db.

(** ** Renew *)
Definition renewedRun (expiresAt : Time) (r : Run) : Run :=
  MkRun (RunID r) (IdempotencyKey r) (RunTrigger r) (RunState_ r) (RequestedBy r) (RequestedAt r)
    (StartedAt r) (FinishedAt r) (DatabaseMigrationVersion r)
    (EncryptionKeyID r) (LocalSnapshotID r) (RemoteSnapshotID r) (ManifestSHA256 r)
    (LogicalBytes r) (StoredBytes r) (LocalExpiresAt r) (RemoteExpiresAt r)
    (RunErrorCategory r) (ErrorTraceID r) (OwnerID r) (Some (pg expiresAt)) (LeaseGeneration r).

Definition renewBody (runID owner : UUID) (generation lease : Z) : DB BackupDB BackupError Run :=
  (call ErrUnavailable;
   do db <- dget;
   match runs db !! runID with
   | None => dfail ErrNotFound
   | Some current =>
     do now <- databaseNow ErrUnavailable;
     guard heldBy owner generation current && leaseLive now current else ErrStaleOwner;
     call ErrUnavailable;
     fail if terminal (RunState_ current) with ErrStaleOwner;
     updateRun (renewedRun (addDuration now lease) current)
   end)%db.

Definition Renew (runID owner : UUID) (generation lease : Z) : DB BackupDB BackupError Run :=
  (fail if (runID =? NilUUID)%N || (owner =? NilUUID)%N || (generation <? 1)
           || negb (leaseInRange lease) with ErrInvalid;
   transact ErrUnavailable ErrUnavailable (renewBody runID owner generation lease))%db.

(** ** Transition *)
Definition checkTransition (i : TransitionInput) : result BackupError unit :=
  let evidenceBad := match TrEvidence i with
                     | Some e => negb (is_ok (validateEvidence e))
                     | None => false
                     end in
  (reject (TrRunID i =? NilUUID)%N || (TrOwnerID i =? NilUUID)%N || (TrGeneration i <? 1)
      || negb (validState (TrFrom i)) || negb (validState (TrTo i))
      || negb (ValidTransition (TrFrom i) (TrTo i)) || IsZero (TrAt i)
      || negb (validSafeError (TrErrorCategory i) (TrErrorTraceID i)) with ErrInvalidTransition;
   reject (bool_decide (TrTo i = StateSucceeded) || bool_decide (TrTo i = StateDegraded))
          && (bool_decide (TrEvidence i = None) || evidenceBad) with ErrInvalid;
   reject evidenceBad with ErrInvalid;
   reject negb (bool_decide (TrTo i = StateFailed)) && negb (bool_decide (TrTo i = StateDegraded))
          && (negb (bool_decide (TrErrorCategory i = "")) || negb (bool_decide (TrErrorTraceID i = "")))
     with ErrInvalid;
   reject bool_decide (TrTo i = StateDegraded) && bool_decide (TrErrorCategory i = "") with ErrInvalid;
   Ok tt)%go.

(** The SET clause; [transitionEvidence] supplies NULL where there is no
    evidence, and for an empty remote snapshot. *)
Definition transitionedRun (i : TransitionInput) (r : Run) : Run :=
  let e := TrEvidence i in
  let fin := terminal (TrTo i) in
  MkRun (RunID r) (IdempotencyKey r) (RunTrigger r) (TrTo i) (RequestedBy r) (RequestedAt r)
    (StartedAt r)
    (if fin then Some (pg (UTC (TrAt i))) else None)
    (coalesce (EvMigration <$> e) (DatabaseMigrationVersion r))
    (coalesce (EvEncryptionKeyID <$> e) (EncryptionKeyID r))
    (coalesce (EvLocalSnapshotID <$> e) (LocalSnapshotID r))
    (coalesce (match e with
               | Some e => if bool_decide (EvRemoteSnapshotID e = "") then None
                           else Some (EvRemoteSnapshotID e)
               | None => None
               end) (RemoteSnapshotID r))
    (coalesce (EvManifestSHA256 <$> e) (ManifestSHA256 r))
    (coalesce (e ≫= EvLogicalBytes) (LogicalBytes r))
    (coalesce (e ≫= EvStoredBytes) (StoredBytes r))
    (coalesce (pg <$> (UTC <$> (EvLocalExpiresAt <$> e))) (LocalExpiresAt r))
    (coalesce (pg <$> (e ≫= EvRemoteExpiresAt)) (RemoteExpiresAt r))
    (TrErrorCategory i) (TrErrorTraceID i)
    (if fin then None else Some (TrOwnerID i))
    (if fin then None else LeaseExpiresAt r)
    (LeaseGeneration r).

Definition transitionBody (i : TransitionInput) : DB BackupDB BackupError Run :=
  (call ErrUnavailable;
   do db <- dget;
   match runs db !! TrRunID i with
   | None => dfail ErrNotFound
   | Some current =>
     do now <- databaseNow ErrUnavailable;
     guard heldBy (TrOwnerID i) (TrGeneration i) current && leaseLive now current
       else ErrStaleOwner;
     guard bool_decide (RunState_ current = TrFrom i) else ErrInvalidTransition;
     call ErrUnavailable;
     updateRun (transitionedRun i current)
   end)%db.

Definition transitionRunMatches (durable intended : Run) (i : TransitionInput) : bool :=
  (RunID durable =? TrRunID i)%N
  && bool_decide (RunState_ durable = TrTo i)
  && (LeaseGeneration durable =? TrGeneration i)
  && bool_decide (RunErrorCategory durable = RunErrorCategory intended)
  && bool_decide (ErrorTraceID durable = ErrorTraceID intended)
  && equalTimePointer (FinishedAt durable) (FinishedAt intended)
  && equalInt64Pointer (DatabaseMigrationVersion durable) (DatabaseMigrationVersion intended)
  && bool_decide (EncryptionKeyID durable = EncryptionKeyID intended)
  && bool_decide (LocalSnapshotID durable = LocalSnapshotID intended)
  && bool_decide (RemoteSnapshotID durable = RemoteSnapshotID intended)
  && bool_decide (or_zero [] (ManifestSHA256 durable) = or_zero [] (ManifestSHA256 intended))
  && equalInt64Pointer (LogicalBytes durable) (LogicalBytes intended)
  && equalInt64Pointer (StoredBytes durable) (StoredBytes intended)
  && equalTimePointer (LocalExpiresAt durable) (LocalExpiresAt intended)
  && equalTimePointer (RemoteExpiresAt durable) (RemoteExpiresAt intended)
  && (if terminal (TrTo i)
      then bool_decide (OwnerID durable = None) && bool_decide (LeaseExpiresAt durable = None)
      else bool_decide (OwnerID durable = Some (TrOwnerID i))
           && equalTimePointer (LeaseExpiresAt durable) (LeaseExpiresAt intended)).

Definition reconcileTransition (i : TransitionInput) (intended : Run) :
  DB BackupDB BackupError Run :=
  (do durable <- durableRead 2 (fun db now =>
     match runs db !! TrRunID i with
     | Some r => if terminal (TrTo i)
                    || (heldBy (TrOwnerID i) (TrGeneration i) r && leaseLive now r)
                 then Some r else None
     | None => None
     end);
   guard transitionRunMatches durable intended i else ErrUnavailable;
   dret durable)%db.

Definition Transition (i : TransitionInput) : DB BackupDB BackupError Run :=
  match checkTransition i with
  | Err e => dfail e
  | Ok _ =>
    (call ErrUnavailable;
     reconciling (transitionBody i) (reconcileTransition i))%db
  end.

(** ** Artifacts *)
Definition artifactKey (a b : Artifact) : bool :=
  (BackupRunID a =? BackupRunID b)%N && bool_decide (ArtKind a = ArtKind b)
  && bool_decide (ArtRepository a = ArtRepository b).

Definition findArtifact (db : BackupDB) (a : Artifact) : option Artifact :=
  List.find (artifactKey a) (artifacts db).

Definition truncatedArtifact (a : Artifact) : Artifact :=
  MkArtifact (BackupRunID a) (ArtOwnerID a) (ArtGeneration a) (ArtKind a) (ArtRepository a)
    (SnapshotID a) (SHA256 a) (SizeBytes a)
    (Truncate (UTC (VerifiedAt a)) microsecond) (Truncate (UTC (ExpiresAt a)) microsecond).

(** The stored row: owner and generation are not columns. *)
Definition storedArtifact (a : Artifact) : Artifact :=
  MkArtifact (BackupRunID a) NilUUID 0 (ArtKind a) (ArtRepository a) (SnapshotID a) (SHA256 a)
    (SizeBytes a) (pg (UTC (VerifiedAt a))) (pg (UTC (ExpiresAt a))).

Definition sameArtifact (existing a : Artifact) : bool :=
  bool_decide (SnapshotID existing = SnapshotID a) && bool_decide (SHA256 existing = SHA256 a)
  && (SizeBytes existing =? SizeBytes a) && Equal (VerifiedAt existing) (VerifiedAt a)
  && Equal (ExpiresAt existing) (ExpiresAt a).

Definition addArtifactBody (a : Artifact) : DB BackupDB BackupError unit :=
  (call ErrUnavailable;
   do db <- dget;
   match runs db !! BackupRunID a with
   | None => dfail ErrNotFound
   | Some current =>
     do now <- databaseNow ErrUnavailable;
     guard heldBy (ArtOwnerID a) (ArtGeneration a) current && leaseLive now current
       else ErrStaleOwner;
     call ErrUnavailable;
     match findArtifact db a with
     | None =>
       dput (MkBackupDB (runs db) (artifacts db ++ [storedArtifact a]) (audits db)
               (users db) (restores db))
     | Some existing =>
       call ErrUnavailable;
       guard sameArtifact existing a else ErrInvalid;
       dret tt
     end
   end)%db.

Definition AddArtifact (a : Artifact) : DB BackupDB BackupError unit :=
  match validateArtifact a with
  | Err _ => dfail ErrInvalid
  | Ok _ => transact ErrUnavailable ErrUnavailable (addArtifactBody (truncatedArtifact a))
  end.

End Store.
