(* ===== verification/BackupProofs.v ===== *)
(** * The backup store keeps its promises

    The invariant of the backup tables, exactness of claims and transitions even
    when the outcome of a commit is unknown, fencing of stale owners, monotone
    progress of runs, and idempotent creation. *)

From stdpp Require Import base tactics list gmap strings sorting.
From Stdlib Require Import ZArith Lia.
From S2P Require Import Prelude GoTime GoText Pg OpsModel BackupModel BackupStore.
Import Backup.

Open Scope Z_scope.

Section BackupProofs.
Context `{PgTime}.

(** ** Runs of the parts *)
Lemma updateRun_Ok r env n db st r' :
  updateRun r env (n, db) = (st, Ok r') ->
  r' = r /\ st = (n, setRuns (<[RunID r := r]> (runs db)) db) /\ runRowCheck r = true.
Proof.
  unfold updateRun. intros Hrun. db_inv. destruct (runRowCheck r) eqn:Hc; simpl in *; db_inv. done.
Qed.

Lemma durableRead_state k q : forall env n s st r,
  durableRead k q env (n, s) = (st, r) -> snd st = s.
Proof.
  induction k as [|k IH]; intros env n s st r; simpl; [unfold dfail; intros; simplify_eq; done|].
  unfold dbind, roundtrip, databaseNow, dget, dret, dfail.
  repeat case_match; intros; simplify_eq; try done; by eapply IH.
Qed.

Lemma durableRead_Ok k q : forall env n s st r,
  durableRead k q env (n, s) = (st, Ok r) -> snd st = s /\ exists now, q s now = Some r.
Proof.
  induction k as [|k IH]; intros env n s st r; simpl; [done|].
  unfold dbind, roundtrip, databaseNow, dget, dret, dfail.
  repeat case_match; intros; simplify_eq; try (by eapply IH); eauto.
Qed.

Lemma reconciling_Ok body rec env n s st r :
  reconciling body rec env (n, s) = (st, Ok r) ->
  exists n1 s' run, body env (S n, s) = ((n1, s'), Ok run) /\
    ((snd st = s' /\ r = run) \/
     exists m s0, (s0 = s' \/ s0 = s) /\ rec run env (m, s0) = (st, Ok r)).
Proof.
  unfold reconciling, transaction. destruct (fault env n); [done|].
  destruct (body env (S n, s)) as [[n1 s'] [run|e]]; [|done].
  destruct (fault env n1).
  - destruct (rec run env _) as [st'' [x|e]] eqn:Hrec; [|done]. intros; simplify_eq.
    eexists _, _, _. split; [done|]. right. eexists _, _. split; [|exact Hrec].
    destruct (fault env (S n1)); auto.
  - intros; simplify_eq. eexists _, _, _. split; [done|]. by left.
Qed.

Lemma reconciling_preserves (I : BackupDB -> Prop) body rec :
  keeps I body -> (forall run env n s st r, rec run env (n, s) = (st, r) -> snd st = s) ->
  preserves I (reconciling body rec).
Proof.
  intros Hb Hrec env n s st r Hs. unfold reconciling.
  destruct (transaction ErrUnavailable body env (n, s)) as [st1 x] eqn:Ht.
  pose proof (transaction_keeps _ _ _ _ _ _ _ _ Hb Hs Ht) as H1.
  destruct x as [run|run|e]; [intros; simplify_eq; done| |intros; simplify_eq; done].
  destruct st1 as [m s1]. destruct (rec run env (m, s1)) as [st2 y] eqn:Hr.
  apply Hrec in Hr. destruct y; intros; simplify_eq; simpl in *; congruence.
Qed.

Lemma reconcileClaim_state owner run env n s st r :
  reconcileClaim owner run env (n, s) = (st, r) -> snd st = s.
Proof.
  unfold reconcileClaim, dbind. destruct (durableRead _ _ _ _) as [st1 [x|e]] eqn:Hd;
    apply durableRead_state in Hd; [|intros; simplify_eq; done].
  destruct (_ || _); unfold dfail, dret; intros; simplify_eq; done.
Qed.

Lemma reconcileTransition_state i run env n s st r :
  reconcileTransition i run env (n, s) = (st, r) -> snd st = s.
Proof.
  unfold reconcileTransition, dbind. destruct (durableRead _ _ _ _) as [st1 [x|e]] eqn:Hd;
    apply durableRead_state in Hd; [|intros; simplify_eq; done].
  destruct (transitionRunMatches _ _ _); unfold dfail, dret; intros; simplify_eq; done.
Qed.

(** ** Well-formed tables *)
Record backupWf (db : BackupDB) : Prop := {
  bw_row : forall k r, runs db !! k = Some r -> RunID r = k /\ k <> NilUUID /\ runRowCheck r = true;
  bw_key : forall k k' r r', runs db !! k = Some r -> runs db !! k' = Some r' ->
    RunTrigger r = RunTrigger r' -> IdempotencyKey r = IdempotencyKey r' -> k = k';
  bw_active : forall k k' r r', runs db !! k = Some r -> runs db !! k' = Some r' ->
    activeRun r = true -> activeRun r' = true -> k = k';
  bw_artifacts : forall a, a ∈ artifacts db -> is_Some (runs db !! BackupRunID a);
  bw_artifact_key : forall i j a b, artifacts db !! i = Some a -> artifacts db !! j = Some b ->
    artifactKey a b = true -> i = j
}.

Lemma backupWf_update db cur r' :
  backupWf db -> runs db !! RunID cur = Some cur ->
  RunID r' = RunID cur -> RunTrigger r' = RunTrigger cur -> IdempotencyKey r' = IdempotencyKey cur ->
  (activeRun r' = true -> activeRun cur = true) -> runRowCheck r' = true ->
  backupWf (setRuns (<[RunID r' := r']> (runs db)) db).
Proof.
  intros Hwf Hcur Hid Ht Hk Ha Hc. rewrite Hid. constructor; simpl.
  - intros k r. rewrite lookup_insert. case_decide; [|apply (bw_row db Hwf)].
    intros; simplify_eq. split_and!; try done. by destruct (bw_row db Hwf _ _ Hcur) as (_ & ? & _).
  - intros k k' r s. rewrite !lookup_insert.
    repeat case_decide; intros Hr Hs E1 E2; simplify_eq; try done.
    + rewrite Ht in E1. rewrite Hk in E2. by eapply (bw_key db Hwf).
    + rewrite Ht in E1. rewrite Hk in E2. by eapply (bw_key db Hwf).
    + by eapply (bw_key db Hwf).
  - intros k k' r s. rewrite !lookup_insert.
    repeat case_decide; intros Hr Hs E1 E2; simplify_eq; try done;
      by eapply (bw_active db Hwf); eauto.
  - intros a Ha'. rewrite lookup_insert. case_decide; [eauto|by apply (bw_artifacts db Hwf)].
  - apply (bw_artifact_key db Hwf).
Qed.

Lemma firstClaim_In l r : firstClaim l = Some r -> r ∈ l.
Proof.
  revert r. induction l as [|x l IH]; intros r; cbn [firstClaim]; [done|].
  destruct (firstClaim l) as [b|]; [destruct (claimBefore x b)|]; intros [= <-];
    apply elem_of_cons; auto.
Qed.

Lemma nextClaim_Some db r :
  backupWf db -> nextClaim db = Some r -> runs db !! RunID r = Some r /\ activeRun r = true.
Proof.
  intros Hwf Hn%firstClaim_In. apply list_elem_of_In, filter_In in Hn as [Hin Ha].
  apply list_elem_of_In, list_elem_of_fmap in Hin as ([k x] & -> & Hk%elem_of_map_to_list).
  destruct (bw_row db Hwf _ _ Hk) as (<- & _). done.
Qed.

(** ** Claims *)
Lemma backupClaimBody_Ok runID owner lease env n db st r :
  backupWf db -> claimBody runID owner lease env (n, db) = (st, Ok r) ->
  exists cur now, runs db !! RunID cur = Some cur /\ terminal (RunState_ cur) = false /\
    (runID <> NilUUID -> RunID cur = runID) /\
    (runID = NilUUID -> nextClaim db = Some cur) /\
    (OwnerID cur = None \/ leaseLive now cur = false) /\
    r = claimedRun owner lease now cur /\ runRowCheck r = true /\
    snd st = setRuns (<[RunID cur := r]> (runs db)) db.
Proof.
  intros Hwf Hrun. unfold claimBody in Hrun. db_inv.
  destruct (if (runID =? NilUUID)%N then nextClaim _ else _) as [cur|] eqn:Hsel; [|db_inv].
  assert (Hcur : runs a1 !! RunID cur = Some cur /\ (runID <> NilUUID -> RunID cur = runID) /\
    (runID = NilUUID -> nextClaim a1 = Some cur)).
  { destruct (N.eqb_spec runID NilUUID) as [->|Hne].
    - apply nextClaim_Some in Hsel as Hn; [|done]. by destruct Hn.
    - destruct (bw_row _ Hwf _ _ Hsel) as (Hid & _). rewrite Hid. by split_and!. }
  destruct Hcur as (Hc1 & Hc2 & Hc3).
  destruct (terminal _) eqn:Hterm; db_inv. destruct (_ && _) eqn:Hl in *; db_inv.
  match goal with Hu : updateRun _ _ _ = _ |- _ => apply updateRun_Ok in Hu as (-> & ? & Hcheck) end.
  simplify_eq/=. exists cur, (MkTime (dbclock env (S (S n))) None). split_and!; try done.
  destruct (OwnerID cur); [right|by left]. by simpl in Hl.
Qed.

Lemma claimedRun_wf owner lease now db cur :
  backupWf db -> runs db !! RunID cur = Some cur ->
  runRowCheck (claimedRun owner lease now cur) = true ->
  backupWf (setRuns (<[RunID cur := claimedRun owner lease now cur]> (runs db)) db).
Proof. intros. by apply (backupWf_update db cur (claimedRun owner lease now cur)). Qed.

Lemma claim_wf runID owner lease : preserves backupWf (claim runID owner lease).
Proof.
  intros env n db st r Hwf. unfold claim. destruct (_ || _); [unfold dfail; intros; simplify_eq; done|].
  unfold dbind, roundtrip. destruct (fault env n); [intros; simplify_eq; done|].
  refine (reconciling_preserves backupWf _ _ _ (reconcileClaim_state owner) env (S n) db st r Hwf).
  intros env' n' db' st' x Hwf' Hb.
  apply backupClaimBody_Ok in Hb as (cur & now & Hc & _ & _ & _ & _ & -> & Hck & ->); [|done].
  by apply claimedRun_wf.
Qed.

Lemma claim_reconciled owner lease now cur db s0 env m st r :
  runs db !! RunID cur = Some cur ->
  let intended := claimedRun owner lease now cur in
  let db' := setRuns (<[RunID cur := intended]> (runs db)) db in
  s0 = db' \/ s0 = db ->
  reconcileClaim owner intended env (m, s0) = (st, Ok r) -> snd st = db' /\ r = intended.
Proof.
  intros Hcur intended db' Hs0 Hrec. unfold reconcileClaim in Hrec.
  apply dbind_Ok in Hrec as (st1 & d & Hread & Hrec).
  apply durableRead_Ok in Hread as [Hst1 [t Hq]].
  destruct (_ || _) eqn:G in Hrec; [db_inv|]. apply dret_Ok in Hrec as [-> ->]. rewrite Hst1.
  change (RunID intended) with (RunID cur) in Hq.
  destruct (runs s0 !! RunID cur) as [x|] eqn:Hx; [|done].
  destruct (_ && _) in Hq; [|done]. injection Hq as ->. bool_simpl.
  destruct Hs0 as [->| ->].
  - simpl in Hx. rewrite lookup_insert_eq in Hx. injection Hx as <-. done.
  - rewrite Hcur in Hx. injection Hx as <-. unfold intended in *. simpl in *. lia.
Qed.

(** A successful claim wrote exactly the row it returns, also when the outcome
    of its commit was unknown at first. *)
Lemma claim_exact runID owner lease env n db st r :
  backupWf db -> claim runID owner lease env (n, db) = (st, Ok r) ->
  exists cur now, runs db !! RunID cur = Some cur /\ terminal (RunState_ cur) = false /\
    (runID <> NilUUID -> RunID cur = runID) /\ (runID = NilUUID -> nextClaim db = Some cur) /\
    (OwnerID cur = None \/ leaseLive now cur = false) /\
    r = claimedRun owner lease now cur /\
    snd st = setRuns (<[RunID cur := r]> (runs db)) db.
Proof.
  intros Hwf Hrun. unfold claim in Hrun. destruct (_ || _) in Hrun; db_inv.
  match goal with Hr : reconciling _ _ _ _ = _ |- _ =>
    apply reconciling_Ok in Hr as (n1 & s' & run & Hb & Hcase) end.
  apply backupClaimBody_Ok in Hb as (cur & now & Hc & Ht & Hid & Hnext & Hl & -> & _ & Hs'); [|done].
  exists cur, now. simpl in Hs'. subst s'.
  destruct Hcase as [[-> ->]|(m & s0 & Hs0 & Hrec)]; [split_and!; done|].
  apply (claim_reconciled _ _ _ _ _ _ _ _ _ _ Hc Hs0) in Hrec as [-> ->]. split_and!; done.
Qed.

(** ** Transitions *)
Lemma transitionBody_Ok i env n db st r :
  transitionBody i env (n, db) = (st, Ok r) ->
  exists cur now, runs db !! TrRunID i = Some cur /\
    heldBy (TrOwnerID i) (TrGeneration i) cur = true /\ leaseLive now cur = true /\
    RunState_ cur = TrFrom i /\ r = transitionedRun i cur /\ runRowCheck r = true /\
    snd st = setRuns (<[RunID cur := r]> (runs db)) db.
Proof.
  intros Hrun. unfold transitionBody in Hrun. db_inv.
  destruct (runs _ !! TrRunID i) as [cur|] eqn:Hc; db_inv.
  destruct (_ && _) eqn:Hh in *; db_inv. case_bool_decide as Hs; db_inv. bool_simpl.
  match goal with Hu : updateRun _ _ _ = _ |- _ => apply updateRun_Ok in Hu as (-> & ? & Hcheck) end.
  simplify_eq/=. exists cur, (MkTime (dbclock env (S n)) None). split_and!; done.
Qed.

Lemma checkTransition_Ok i :
  checkTransition i = Ok tt -> ValidTransition (TrFrom i) (TrTo i) = true /\
    TrOwnerID i <> NilUUID /\
    (TrTo i = StateSucceeded \/ TrTo i = StateDegraded ->
     exists e, TrEvidence i = Some e /\ validateEvidence e = Ok tt).
Proof.
  unfold checkTransition. cbv zeta. destruct (_ || _ || _ || _ || _ || _ || _ || _) eqn:G; [done|].
  bool_simpl. destruct (_ && _) eqn:G2; [done|]. intros _.
  split_and!; [done|by apply N.eqb_neq|].
  intros Hto. assert (bool_decide (TrTo i = StateSucceeded) || bool_decide (TrTo i = StateDegraded)
    = true) as Hb by (apply orb_true_iff; rewrite !bool_decide_eq_true; done).
  rewrite Hb in G2. simpl in G2. apply orb_false_iff in G2 as [Hn Hv].
  destruct (TrEvidence i) as [e|]; [|done]. exists e. split; [done|].
  by destruct (validateEvidence e) as [[]|].
Qed.

Lemma transitionedRun_wf i db cur :
  backupWf db -> ValidTransition (TrFrom i) (TrTo i) = true -> RunState_ cur = TrFrom i ->
  runs db !! RunID cur = Some cur -> runRowCheck (transitionedRun i cur) = true ->
  backupWf (setRuns (<[RunID cur := transitionedRun i cur]> (runs db)) db).
Proof.
  intros Hwf Hv Hs Hc Hck. apply (backupWf_update db cur (transitionedRun i cur)); try done.
  intros _. unfold activeRun. rewrite Hs. by destruct (ValidTransition_from _ _ Hv) as [-> _].
Qed.

Lemma Transition_wf i : preserves backupWf (Transition i).
Proof.
  intros env n db st r Hwf. unfold Transition.
  destruct (checkTransition i) as [[]|] eqn:Hi; [|unfold dfail; intros; simplify_eq; done].
  apply checkTransition_Ok in Hi as [Hv _].
  unfold dbind, roundtrip. destruct (fault env n); [intros; simplify_eq; done|].
  refine (reconciling_preserves backupWf _ _ _ (reconcileTransition_state i) env (S n) db st r Hwf).
  intros env' n' db' st' x Hwf' Hb.
  apply transitionBody_Ok in Hb as (cur & now & Hc & _ & _ & Hs & -> & Hck & ->).
  destruct (bw_row _ Hwf' _ _ Hc) as (Hid & _). rewrite <- Hid in Hc. by apply transitionedRun_wf.
Qed.

Lemma transition_reconciled i cur db s0 env m st r :
  ValidTransition (TrFrom i) (TrTo i) = true -> RunState_ cur = TrFrom i ->
  runs db !! TrRunID i = Some cur -> RunID cur = TrRunID i ->
  let intended := transitionedRun i cur in
  let db' := setRuns (<[RunID cur := intended]> (runs db)) db in
  s0 = db' \/ s0 = db ->
  reconcileTransition i intended env (m, s0) = (st, Ok r) -> snd st = db' /\ r = intended.
Proof.
  intros Hv Hs Hcur Hid intended db' Hs0 Hrec. unfold reconcileTransition in Hrec.
  apply dbind_Ok in Hrec as (st1 & d & Hread & Hrec).
  apply durableRead_Ok in Hread as [Hst1 [t Hq]].
  destruct (transitionRunMatches _ _ _) eqn:G in Hrec; [|db_inv].
  apply dret_Ok in Hrec as [-> ->]. rewrite Hst1.
  destruct (runs s0 !! TrRunID i) as [x|] eqn:Hx; [|done].
  destruct (_ || _) in Hq; [|done]. injection Hq as ->.
  destruct Hs0 as [->| ->].
  - simpl in Hx. rewrite Hid, lookup_insert_eq in Hx. injection Hx as <-. done.
  - exfalso. rewrite Hcur in Hx. injection Hx as <-.
    assert (RunState_ cur = TrTo i) as Hto.
    { unfold transitionRunMatches in G. bool_simpl. done. }
    apply ValidTransition_rank in Hv. rewrite <- Hto, Hs in Hv. lia.
Qed.

Lemma transition_exact i env n db st r :
  backupWf db -> Transition i env (n, db) = (st, Ok r) ->
  checkTransition i = Ok tt /\
  exists cur now, runs db !! TrRunID i = Some cur /\
    heldBy (TrOwnerID i) (TrGeneration i) cur = true /\ leaseLive now cur = true /\
    RunState_ cur = TrFrom i /\ r = transitionedRun i cur /\ runRowCheck r = true /\
    snd st = setRuns (<[TrRunID i := r]> (runs db)) db.
Proof.
  intros Hwf. unfold Transition. destruct (checkTransition i) as [[]|] eqn:Hi; [|done].
  destruct (checkTransition_Ok _ Hi) as [Hv _]. intros Hrun. db_inv. split; [done|].
  match goal with Hr : reconciling _ _ _ _ = _ |- _ =>
    apply reconciling_Ok in Hr as (n1 & s' & run & Hb & Hcase) end.
  apply transitionBody_Ok in Hb as (cur & now & Hc & Hh & Hl & Hs & -> & Hck & Hs').
  destruct (bw_row _ Hwf _ _ Hc) as (Hid & _). exists cur, now. simpl in Hs'. subst s'.
  destruct Hcase as [[-> ->]|(m & s0 & Hs0 & Hrec)].
  - rewrite Hid. split_and!; done.
  - apply (transition_reconciled _ _ _ _ _ _ _ _ Hv Hs Hc Hid Hs0) in Hrec as [-> ->].
    rewrite Hid. split_and!; done.
Qed.

(** ** Creation *)
Lemma findKey_Some db t key r :
  findKey db t key = Some r ->
  exists k, runs db !! k = Some r /\ RunTrigger r = t /\ IdempotencyKey r = key.
Proof.
  unfold findKey. destruct (List.find _ _) as [[k x]|] eqn:E; [|done]. intros [= <-].
  apply find_some in E as [Hin Hs]. exists k. unfold sameKey in Hs. bool_simpl.
  split; [|done]. by apply elem_of_map_to_list, list_elem_of_In.
Qed.

Lemma findKey_None db t key :
  findKey db t key = None ->
  forall k r, runs db !! k = Some r -> sameKey t key r = false.
Proof.
  unfold findKey. destruct (List.find _ _) as [[k x]|] eqn:E; [done|]. intros _ k r Hk.
  apply elem_of_map_to_list, list_elem_of_In in Hk. exact (find_none _ _ E _ Hk).
Qed.

Lemma anyActive_false db :
  anyActive db = false -> forall k r, runs db !! k = Some r -> activeRun r = false.
Proof.
  unfold anyActive. intros Hn k r Hk. destruct (activeRun r) eqn:Ha; [|done].
  apply not_true_iff_false in Hn. exfalso. apply Hn, existsb_exists. exists (k, r).
  split; [|done]. by apply list_elem_of_In, elem_of_map_to_list.
Qed.

Lemma createBody_Ok i env n db st r :
  createBody i env (n, db) = (st, Ok r) ->
  findKey db (InTrigger i) (InKey i) = Some r /\ snd st = db \/
  findKey db (InTrigger i) (InKey i) = None /\ anyActive db = false /\
  runs db !! InID i = None /\ r = queuedRun i /\ runRowCheck r = true /\
  snd st = MkBackupDB (<[InID i := r]> (runs db)) (artifacts db)
             (audits db ++ (if bool_decide (InTrigger i = TriggerManual) then [requestAudit i] else []))
             (users db) (restores db).
Proof.
  intros Hrun. unfold createBody in Hrun. db_inv.
  destruct (findKey _ _ _) as [x|] eqn:Hf; [left; db_inv; done|right].
  db_inv. destruct (anyActive _) eqn:Ha in *; db_inv. destruct (_ || _ || _) eqn:G in *; db_inv.
  bool_simpl.
  assert (Hn : forall m : gmap N Run, ~ is_Some (m !! InID i) -> m !! InID i = None)
    by (intros m Hm; destruct (m !! InID i); [exfalso; eauto|done]).
  case_bool_decide; db_inv; split_and!; auto.
  destruct a3; simpl. unfold setRuns; simpl. by rewrite app_nil_r.
Qed.

Lemma createBody_wf i :
  validateCreate i = Ok tt -> keeps backupWf (createBody i).
Proof.
  intros Hi env n db st r Hwf Hrun. apply validateCreate_Ok in Hi as (Hid & _).
  apply createBody_Ok in Hrun as [(_ & ->)|(Hf & Ha & Hn & -> & Hck & ->)]; [done|].
  constructor; simpl.
  - intros k r. rewrite lookup_insert. case_decide; [intros; simplify_eq; done|apply (bw_row db Hwf)].
  - intros k k' r s. rewrite !lookup_insert.
    repeat case_decide; intros Hr Hs E1 E2; simplify_eq; try done; simpl in *.
    + pose proof (findKey_None _ _ _ Hf _ _ Hs) as Hx. unfold sameKey in Hx.
      rewrite !bool_decide_eq_true_2 in Hx by done. done.
    + pose proof (findKey_None _ _ _ Hf _ _ Hr) as Hx. unfold sameKey in Hx.
      rewrite !bool_decide_eq_true_2 in Hx by done. done.
    + by eapply (bw_key db Hwf).
  - intros k k' r s. rewrite !lookup_insert.
    repeat case_decide; intros Hr Hs E1 E2; simplify_eq; try done;
      try (rewrite (anyActive_false _ Ha _ _ Hs) in E2; done);
      rewrite (anyActive_false _ Ha _ _ Hr) in E1; done.
  - intros a Ha'. rewrite lookup_insert. case_decide; [eauto|by apply (bw_artifacts db Hwf)].
  - apply (bw_artifact_key db Hwf).
Qed.

Lemma Create_wf i : preserves backupWf (Create i).
Proof.
  intros env n db st r Hwf. unfold Create.
  destruct (validateCreate i) as [[]|] eqn:Hi; [|unfold dfail; intros; simplify_eq; done].
  refine (transact_preserves backupWf _ _ _ (createBody_wf i Hi) env n db st r Hwf).
Qed.

(** ** Renewal and artifacts *)
Lemma renewBody_Ok runID owner generation lease env n db st r :
  renewBody runID owner generation lease env (n, db) = (st, Ok r) ->
  exists cur now, runs db !! runID = Some cur /\ heldBy owner generation cur = true /\
    leaseLive now cur = true /\ terminal (RunState_ cur) = false /\
    r = renewedRun (addDuration now lease) cur /\ runRowCheck r = true /\
    snd st = setRuns (<[RunID cur := r]> (runs db)) db.
Proof.
  intros Hrun. unfold renewBody in Hrun. db_inv.
  destruct (runs _ !! runID) as [cur|] eqn:Hc; db_inv.
  destruct (_ && _) eqn:Hh in *; db_inv. destruct (terminal _) eqn:Ht; db_inv. bool_simpl.
  match goal with Hu : updateRun _ _ _ = _ |- _ => apply updateRun_Ok in Hu as (-> & ? & Hcheck) end.
  simplify_eq/=. exists cur, (MkTime (dbclock env (S n)) None). split_and!; done.
Qed.

Lemma Renew_wf runID owner generation lease : preserves backupWf (Renew runID owner generation lease).
Proof.
  intros env n db st r Hwf. unfold Renew. destruct (_ || _); [unfold dfail; intros; simplify_eq; done|].
  refine (transact_preserves backupWf _ _ _ _ env n db st r Hwf).
  intros env' n' db' st' x Hwf' Hb.
  apply renewBody_Ok in Hb as (cur & now & Hc & _ & _ & Ht & -> & Hck & ->).
  destruct (bw_row _ Hwf' _ _ Hc) as (Hid & _). rewrite <- Hid in Hc.
  by apply (backupWf_update db' cur (renewedRun (addDuration now lease) cur)).
Qed.

Lemma addArtifactBody_Ok a env n db st u :
  addArtifactBody a env (n, db) = (st, Ok u) ->
  exists cur now, runs db !! BackupRunID a = Some cur /\
    heldBy (ArtOwnerID a) (ArtGeneration a) cur = true /\ leaseLive now cur = true /\
    match findArtifact db a with
    | Some existing => sameArtifact existing a = true /\ snd st = db
    | None => snd st = MkBackupDB (runs db) (artifacts db ++ [storedArtifact a]) (audits db)
        (users db) (restores db)
    end.
Proof.
  intros Hrun. unfold addArtifactBody in Hrun. db_inv.
  destruct (runs _ !! BackupRunID a) as [cur|] eqn:Hc; db_inv.
  destruct (_ && _) eqn:Hh in *; db_inv. bool_simpl.
  exists cur, (MkTime (dbclock env (S n)) None). split_and!; try done.
  destruct (findArtifact _ _) as [ex|] eqn:Hf; db_inv; [|done].
  destruct (sameArtifact _ _) eqn:Hs; db_inv. done.
Qed.

Lemma AddArtifact_wf a : preserves backupWf (AddArtifact a).
Proof.
  intros env n db st r Hwf. unfold AddArtifact.
  destruct (validateArtifact a); [|unfold dfail; intros; simplify_eq; done].
  refine (transact_preserves backupWf _ _ _ _ env n db st r Hwf).
  intros env' n' db' st' x Hwf' Hb. generalize (truncatedArtifact a) Hb. clear Hb. intros b Hb.
  apply addArtifactBody_Ok in Hb as (cur & now & Hc & _ & _ & Hcase).
  destruct (findArtifact db' b) as [ex|] eqn:Hf; [by destruct Hcase as [_ ->]|]. rewrite Hcase.
  assert (Hnew : forall x, x ∈ artifacts db' -> artifactKey b x = false).
  { intros y Hy. by apply (find_none _ _ Hf), list_elem_of_In. }
  constructor; simpl; try apply Hwf'.
  - intros y. rewrite elem_of_app, list_elem_of_singleton. intros [Hy| ->]; simpl; [|eauto].
    by apply (bw_artifacts db' Hwf').
  - assert (Hsym : forall x y, artifactKey x y = artifactKey y x).
    { intros y z. unfold artifactKey. rewrite N.eqb_sym. f_equal; [f_equal|];
        apply bool_decide_ext; split; done. }
    assert (Hb' : forall y, artifactKey (storedArtifact b) y = artifactKey b y) by done.
    intros i j y z Hy Hz Hkey.
    apply lookup_app_Some in Hy as [Hy|[Hi Hy]], Hz as [Hz|[Hj Hz]].
    + by eapply (bw_artifact_key db' Hwf').
    + apply list_lookup_singleton_Some in Hz as [? <-]. rewrite Hsym, Hb', Hnew in Hkey; [done|].
      by eapply list_elem_of_lookup_2.
    + apply list_lookup_singleton_Some in Hy as [? <-]. rewrite Hb', Hnew in Hkey; [done|].
      by eapply list_elem_of_lookup_2.
    + apply list_lookup_singleton_Some in Hy as [? _], Hz as [? _]. lia.
Qed.

(** ** Steps *)
Inductive backupStep (db db' : BackupDB) : Prop :=
| StepCreate i env n n' r : Create i env (n, db) = ((n', db'), r) -> backupStep db db'
| StepClaim runID owner lease env n n' r :
    claim runID owner lease env (n, db) = ((n', db'), r) -> backupStep db db'
| StepRenew runID owner generation lease env n n' r :
    Renew runID owner generation lease env (n, db) = ((n', db'), r) -> backupStep db db'
| StepTransition i env n n' r : Transition i env (n, db) = ((n', db'), r) -> backupStep db db'
| StepArtifact a env n n' r : AddArtifact a env (n, db) = ((n', db'), r) -> backupStep db db'.

Definition freshBackup (db : BackupDB) : Prop := runs db = ∅ /\ artifacts db = [].

Lemma freshBackup_wf db : freshBackup db -> backupWf db.
Proof.
  intros [Hr Ha]. constructor; rewrite ?Hr, ?Ha; try (intros *; by rewrite lookup_empty).
  - intros a Hin. by apply elem_of_nil in Hin.
  - intros i j a b Hi. by rewrite lookup_nil in Hi.
Qed.

Lemma backupStep_wf db db' : backupWf db -> backupStep db db' -> backupWf db'.
Proof.
  intros Hwf [i env n n' r Hs|runID owner lease env n n' r Hs|runID owner g lease env n n' r Hs
             |i env n n' r Hs|a env n n' r Hs].
  - exact (Create_wf i env n db _ r Hwf Hs).
  - exact (claim_wf runID owner lease env n db _ r Hwf Hs).
  - exact (Renew_wf runID owner g lease env n db _ r Hwf Hs).
  - exact (Transition_wf i env n db _ r Hwf Hs).
  - exact (AddArtifact_wf a env n db _ r Hwf Hs).
Qed.

(** How a run may change in one step. *)
Record advances (r r' : Run) : Prop := {
  adv_identity : RunID r' = RunID r /\ RunTrigger r' = RunTrigger r /\
    IdempotencyKey r' = IdempotencyKey r /\ RequestedAt r' = RequestedAt r;
  adv_generation : LeaseGeneration r <= LeaseGeneration r';
  adv_state : RunState_ r' = RunState_ r \/ ValidTransition (RunState_ r) (RunState_ r') = true;
  adv_owner : LeaseGeneration r' = LeaseGeneration r -> OwnerID r' = OwnerID r \/ OwnerID r' = None;
  adv_terminal : terminal (RunState_ r) = true -> r' = r
}.

Lemma advances_refl r : advances r r.
Proof. constructor; auto; lia. Qed.

Lemma reconciling_outcome body rec env n s st r :
  (forall run env n s st r, rec run env (n, s) = (st, r) -> snd st = s) ->
  reconciling body rec env (n, s) = (st, r) ->
  snd st = s \/ exists n1 run, body env (S n, s) = ((n1, snd st), Ok run).
Proof.
  intros Hrec. unfold reconciling.
  destruct (transaction ErrUnavailable body env (n, s)) as [[m s1] x] eqn:Ht.
  apply transaction_outcome in Ht. destruct x as [run|run|e]; [intros; simplify_eq; done| |].
  - destruct (rec run env (m, s1)) as [st2 y] eqn:Hr. apply Hrec in Hr.
    destruct y; intros Heq; injection Heq as <- _; rewrite Hr; done.
  - intros; simplify_eq; done.
Qed.

(** The runs after a step: one new queued run, one advanced run, or none. *)
Lemma backupStep_runs db db' :
  backupWf db -> backupStep db db' ->
  runs db' = runs db \/
  (exists i, runs db !! InID i = None /\ runs db' = <[InID i := queuedRun i]> (runs db)) \/
  (exists cur r', runs db !! RunID cur = Some cur /\ advances cur r' /\
     runs db' = <[RunID cur := r']> (runs db)).
Proof.
  intros Hwf [i env n n' r Hs|runID owner lease env n n' r Hs|runID owner g lease env n n' r Hs
             |i env n n' r Hs|a env n n' r Hs].
  - unfold Create in Hs. destruct (validateCreate i); [|by injection Hs as <- <-; left].
    apply transact_outcome in Hs as [E|(n1 & x & Hb)]; [by left; simpl in E; rewrite E|]. simpl in Hb.
    apply createBody_Ok in Hb as [(_ & E)|(_ & _ & Hn & -> & _ & E)]; simpl in E; rewrite E; [by left|].
    right; left. by exists i.
  - unfold claim in Hs. destruct (_ || _) in Hs; [by injection Hs as <- <-; left|].
    unfold dbind, roundtrip in Hs. destruct (fault env n); [by injection Hs as <- <-; left|].
    apply reconciling_outcome in Hs as [E|(n1 & x & Hb)];
      [by left; simpl in E; rewrite E| |apply reconcileClaim_state].
    simpl in Hb. apply backupClaimBody_Ok in Hb as (cur & now & Hc & Ht & _ & _ & _ & -> & _ & E); [|done].
    simpl in E. rewrite E.
    right; right. exists cur, (claimedRun owner lease now cur). split_and!; try done.
    constructor; simpl; try done; try lia; [by left|congruence].
  - unfold Renew in Hs. destruct (_ || _) in Hs; [by injection Hs as <- <-; left|].
    apply transact_outcome in Hs as [E|(n1 & x & Hb)]; [by left; simpl in E; rewrite E|]. simpl in Hb.
    apply renewBody_Ok in Hb as (cur & now & Hc & _ & _ & Ht & -> & _ & E).
    simpl in E. rewrite E.
    destruct (bw_row _ Hwf _ _ Hc) as (Hid & _). rewrite <- Hid in Hc. right; right.
    exists cur, (renewedRun (addDuration now lease) cur). split_and!; try done.
    constructor; simpl; try done; try lia; [by left|by left|congruence].
  - unfold Transition in Hs. destruct (checkTransition i) as [[]|] eqn:Hi;
      [|by injection Hs as <- <-; left].
    apply checkTransition_Ok in Hi as [Hv _].
    unfold dbind, roundtrip in Hs. destruct (fault env n); [by injection Hs as <- <-; left|].
    apply reconciling_outcome in Hs as [E|(n1 & x & Hb)];
      [by left; simpl in E; rewrite E| |apply reconcileTransition_state].
    simpl in Hb. apply transitionBody_Ok in Hb as (cur & now & Hc & Hh & _ & Hst & -> & _ & E).
    simpl in E. rewrite E.
    destruct (bw_row _ Hwf _ _ Hc) as (Hid & _). rewrite <- Hid in Hc. right; right.
    exists cur, (transitionedRun i cur). split_and!; try done.
    unfold heldBy in Hh. bool_simpl. constructor; simpl; try done; try lia.
    + right. by rewrite Hst.
    + intros _. destruct (terminal (TrTo i)); [by right|left]. done.
    + rewrite Hst. by destruct (ValidTransition_from _ _ Hv) as [-> _].
  - unfold AddArtifact in Hs. destruct (validateArtifact a); [|by injection Hs as <- <-; left].
    apply transact_outcome in Hs as [E|(n1 & x & Hb)]; [by left; simpl in E; rewrite E|]. simpl in Hb. left.
    apply addArtifactBody_Ok in Hb as (cur & now & _ & _ & _ & Hcase).
    simpl in Hcase. destruct (findArtifact db _); [by destruct Hcase as [_ ->]|by rewrite Hcase].
Qed.

(** C37. The invariant of the backup tables, in every state reachable from empty
    ones whatever round trips fail and whatever commits are lost: rows satisfy
    the schema's checks, so a terminal run has no owner and a succeeded or
    degraded one its recovery evidence; at most one run is active; a trigger and
    idempotency key name one run; artifacts belong to runs and are unique. *)
Theorem backup_store_invariant (db : BackupDB) :
  reachable freshBackup backupStep db ->
  backupWf db /\
  (forall k r, runs db !! k = Some r ->
     (terminal (RunState_ r) = true -> OwnerID r = None /\ LeaseExpiresAt r = None /\
        is_Some (FinishedAt r)) /\
     (RunState_ r = StateSucceeded \/ RunState_ r = StateDegraded ->
        is_Some (ManifestSHA256 r) /\ is_Some (LocalSnapshotID r) /\
        is_Some (DatabaseMigrationVersion r) /\ is_Some (EncryptionKeyID r))).
Proof.
  intros Hr. assert (Hwf : backupWf db).
  { revert db Hr. apply reachable_invariant; [apply freshBackup_wf|apply backupStep_wf]. }
  split; [done|]. intros k r Hk. destruct (bw_row db Hwf k r Hk) as (_ & _ & Hc).
  unfold runRowCheck in Hc. bool_simpl. split.
  - intros Ht. rewrite Ht in *. simpl in *. bool_simpl.
    repeat match goal with Hx : Bool.eqb _ _ = true |- _ => apply Bool.eqb_prop in Hx end.
    match goal with Ho : OwnerID r = None |- _ => rewrite Ho in * end.
    split_and!; [done| |].
    + destruct (LeaseExpiresAt r); done.
    + destruct (FinishedAt r); [eauto|done].
  - intros Hs. match goal with Hx : _ || _ = true |- _ => apply orb_true_iff in Hx as [Hx|Hx] end.
    + exfalso. bool_simpl. naive_solver.
    + bool_simpl. destruct (LocalSnapshotID r), (ManifestSHA256 r), (DatabaseMigrationVersion r),
        (EncryptionKeyID r); done.
Qed.

(** Runs only move forward: a step keeps every run, its identity and its
    request time; its lease generation never decreases; its state stays or takes
    one valid transition; its owner changes only together with the generation,
    or is cleared; and a terminal run never changes again. *)
Theorem runs_advance (db db' : BackupDB) (k : UUID) (r : Run) :
  backupWf db -> backupStep db db' -> runs db !! k = Some r ->
  exists r', runs db' !! k = Some r' /\ advances r r'.
Proof.
  intros Hwf Hs Hk. destruct (backupStep_runs _ _ Hwf Hs)
    as [->|[(i & Hn & ->)|(cur & r' & Hc & Hadv & ->)]].
  - exists r. split; [done|apply advances_refl].
  - exists r. rewrite lookup_insert_ne by congruence. split; [done|apply advances_refl].
  - rewrite lookup_insert. case_decide as Hid.
    + subst k. exists r'. split; [done|]. congruence.
    + exists r. split; [done|apply advances_refl].
Qed.

(** Claims are exact and exclusive.  A successful claim, of a given run or
    of the next one in line, found it active and either unowned or with a lease
    that had run out on the database clock, and its only effect is the row it
    returns: the new owner, the next generation, the new lease.  This holds even
    when the commit's outcome was unknown and had to be reconciled: success is
    never reported for a claim that is not durable. *)
Theorem backup_claim_exact runID owner lease env n db st r :
  backupWf db -> claim runID owner lease env (n, db) = (st, Ok r) ->
  exists cur now, runs db !! RunID cur = Some cur /\ terminal (RunState_ cur) = false /\
    (runID <> NilUUID -> RunID cur = runID) /\ (runID = NilUUID -> nextClaim db = Some cur) /\
    (OwnerID cur = None \/ leaseLive now cur = false) /\
    r = claimedRun owner lease now cur /\
    OwnerID r = Some owner /\ LeaseGeneration r = LeaseGeneration cur + 1 /\
    snd st = setRuns (<[RunID r := r]> (runs db)) db.
Proof.
  intros Hwf Hrun. destruct (claim_exact _ _ _ _ _ _ _ _ Hwf Hrun)
    as (cur & now & ? & ? & ? & ? & ? & -> & ?). exists cur, now. split_and!; done.
Qed.

(** C38. Transitions are exact and fenced.  A successful transition found the
    run in the state it names, owned by the caller under the caller's generation
    with a live lease, takes one valid step of the graph, and its only effect is
    the row it returns, also after an unknown commit.  A terminal step clears the
    owner and the lease and records when it finished; success and degradation
    leave the recovery evidence of the input in the row. *)
Theorem backup_transition_exact i env n db st r :
  backupWf db -> Transition i env (n, db) = (st, Ok r) ->
  ValidTransition (TrFrom i) (TrTo i) = true /\
  exists cur now, runs db !! TrRunID i = Some cur /\
    OwnerID cur = Some (TrOwnerID i) /\ LeaseGeneration cur = TrGeneration i /\
    leaseLive now cur = true /\ RunState_ cur = TrFrom i /\
    r = transitionedRun i cur /\ snd st = setRuns (<[TrRunID i := r]> (runs db)) db /\
    (terminal (TrTo i) = true -> OwnerID r = None /\ LeaseExpiresAt r = None /\
       FinishedAt r = Some (pg (UTC (TrAt i)))) /\
    (TrTo i = StateSucceeded \/ TrTo i = StateDegraded ->
       exists e, TrEvidence i = Some e /\ ManifestSHA256 r = Some (EvManifestSHA256 e) /\
         LocalSnapshotID r = Some (EvLocalSnapshotID e) /\
         DatabaseMigrationVersion r = Some (EvMigration e) /\
         EncryptionKeyID r = Some (EvEncryptionKeyID e)).
Proof.
  intros Hwf Hrun. destruct (transition_exact _ _ _ _ _ _ Hwf Hrun)
    as (Hi & cur & now & Hc & Hh & Hl & Hs & -> & _ & Hst).
  destruct (checkTransition_Ok _ Hi) as (Hv & _ & Hev). split; [done|].
  unfold heldBy in Hh. bool_simpl. exists cur, now. split_and!; try done.
  - simpl. by intros ->.
  - intros Hto. destruct (Hev Hto) as (e & He & _). exists e. simpl. by rewrite He.
Qed.

Lemma reconciling_stuck body rec env n s st r :
  is_ok (snd (body env (S n, s))) = false ->
  reconciling body rec env (n, s) = (st, r) -> snd st = s /\ is_ok r = false.
Proof.
  intros Hb. unfold reconciling, transaction. destruct (fault env n); [by intros [= <- <-]|].
  destruct (body env (S n, s)) as [[n' s'] [b|e]]; [done|]. by intros [= <- <-].
Qed.

(** A superseded owner is fenced out: when the run is not held by an owner
    under a generation, that owner's renewals, transitions and artifacts under
    that generation change nothing and fail, whatever happens to their round
    trips. *)
Theorem stale_owner_fenced runID owner generation env n db :
  (forall r, runs db !! runID = Some r -> heldBy owner generation r = false) ->
  (forall lease st x, Renew runID owner generation lease env (n, db) = (st, x) ->
     snd st = db /\ is_ok x = false) /\
  (forall i st x, TrRunID i = runID -> TrOwnerID i = owner -> TrGeneration i = generation ->
     Transition i env (n, db) = (st, x) -> snd st = db /\ is_ok x = false) /\
  (forall a st x, BackupRunID a = runID -> ArtOwnerID a = owner -> ArtGeneration a = generation ->
     AddArtifact a env (n, db) = (st, x) -> snd st = db /\ is_ok x = false).
Proof.
  intros Hst. split_and!.
  - intros lease st x. unfold Renew. destruct (_ || _); [by intros [= <- <-]|].
    apply transact_stuck. unfold renewBody, dbind at 1, roundtrip at 1.
    destruct (fault env (S n)); [done|]. rewrite dget_run.
    destruct (runs db !! runID) as [r|] eqn:Hr; [|done]. unfold dbind at 1, databaseNow.
    destruct (fault env _); [done|]. by rewrite (Hst r eq_refl).
  - intros i st x <- <- <-. unfold Transition.
    destruct (checkTransition i) as [[]|]; [|by intros [= <- <-]].
    unfold dbind at 1, roundtrip at 1. destruct (fault env n); [by intros [= <- <-]|].
    apply reconciling_stuck. unfold transitionBody, dbind at 1, roundtrip at 1.
    destruct (fault env (S (S n))); [done|]. rewrite dget_run.
    destruct (runs db !! TrRunID i) as [r|] eqn:Hr; [|done]. unfold dbind at 1, databaseNow.
    destruct (fault env _); [done|]. by rewrite (Hst r eq_refl).
  - intros a st x <- <- <-. unfold AddArtifact.
    destruct (validateArtifact a); [|by intros [= <- <-]].
    apply transact_stuck. unfold addArtifactBody, dbind at 1, roundtrip at 1.
    destruct (fault env (S n)); [done|]. rewrite dget_run.
    change (BackupRunID (truncatedArtifact a)) with (BackupRunID a).
    change (ArtOwnerID (truncatedArtifact a)) with (ArtOwnerID a).
    change (ArtGeneration (truncatedArtifact a)) with (ArtGeneration a).
    destruct (runs db !! BackupRunID a) as [r|] eqn:Hr; [|done]. unfold dbind at 1, databaseNow.
    destruct (fault env _); [done|]. by rewrite (Hst r eq_refl).
Qed.

(** A successful [Create] and the run it leaves under its trigger and key. *)
Lemma Create_effect i env n db st r :
  backupWf db -> Create i env (n, db) = (st, Ok r) ->
  (findKey db (InTrigger i) (InKey i) = Some r /\ snd st = db \/
   anyActive db = false /\ runs db !! InID i = None /\ r = queuedRun i /\
   snd st = MkBackupDB (<[InID i := r]> (runs db)) (artifacts db)
              (audits db ++ (if bool_decide (InTrigger i = TriggerManual)
                             then [requestAudit i] else [])) (users db) (restores db)) /\
  findKey (snd st) (InTrigger i) (InKey i) = Some r.
Proof.
  intros Hwf Hrun. pose proof (Create_wf i env n db st _ Hwf Hrun) as Hwf'.
  unfold Create in Hrun. destruct (validateCreate i) as [[]|]; [|done].
  apply transact_Ok in Hrun as [n1 Hb]. apply createBody_Ok in Hb. simpl in Hb.
  split; [naive_solver|]. destruct Hb as [[Hf ->]|(_ & _ & _ & Hr & _ & Hs)]; [done|].
  assert (Hi : runs (snd st) !! InID i = Some r) by (rewrite Hs; simpl; by rewrite lookup_insert_eq).
  destruct (findKey (snd st) (InTrigger i) (InKey i)) as [x|] eqn:Hf.
  - apply findKey_Some in Hf as (k & Hk' & Htx & Hkx).
    assert (k = InID i) as ->; [|congruence].
    eapply (bw_key _ Hwf'); [exact Hk'|exact Hi| |]; subst r; simpl; done.
  - exfalso. pose proof (findKey_None _ _ _ Hf _ _ Hi) as Hx. unfold sameKey in Hx.
    subst r. simpl in Hx. by rewrite !bool_decide_eq_true_2 in Hx by done.
Qed.

(** A request whose trigger and key have a run returns that run. *)
Lemma Create_existing i env n db r :
  findKey db (InTrigger i) (InKey i) = Some r -> validateCreate i = Ok tt -> quiet env ->
  exists st, Create i env (n, db) = (st, Ok r) /\ snd st = db.
Proof.
  intros Hfind Hv Hq. unfold Create. rewrite Hv, transact_quiet by done. unfold createBody.
  rewrite !call_run, dget_run, Hfind by apply Hq. eexists. split; [done|]. done.
Qed.

(** Requests are idempotent.  A successful [Create] either returns the run
    that already has the trigger and key, writing nothing, or adds one queued run
    while no run is active, with one audit event exactly for a manual request; a
    repeat with the same trigger and key, by anyone and with any new identifier,
    returns the same run and changes nothing. *)
Theorem Create_idempotent i env n db st r :
  backupWf db -> Create i env (n, db) = (st, Ok r) ->
  (findKey db (InTrigger i) (InKey i) = Some r /\ snd st = db \/
   anyActive db = false /\ runs db !! InID i = None /\ r = queuedRun i /\
   snd st = MkBackupDB (<[InID i := r]> (runs db)) (artifacts db)
              (audits db ++ (if bool_decide (InTrigger i = TriggerManual)
                             then [requestAudit i] else [])) (users db) (restores db)) /\
  (forall i' env' n', InTrigger i' = InTrigger i -> InKey i' = InKey i ->
     validateCreate i' = Ok tt -> quiet env' ->
     exists st', Create i' env' (n', snd st) = (st', Ok r) /\ snd st' = snd st).
Proof.
  intros Hwf Hrun. destruct (Create_effect _ _ _ _ _ _ Hwf Hrun) as [Heff Hfind].
  split; [done|]. intros i' env' n' Ht Hk. apply Create_existing. by rewrite Ht, Hk.
Qed.

(** ** Progress *)
Lemma claimedRun_check owner lease now cur :
  runRowCheck cur = true -> terminal (RunState_ cur) = false -> LeaseGeneration cur < 2 ^ 63 - 1 ->
  runRowCheck (claimedRun owner lease now cur) = true.
Proof.
  unfold runRowCheck. intros Hc Ht Hg. bool_simpl. unfold claimedRun.
  cbn [IdempotencyKey RunTrigger RunState_ DatabaseMigrationVersion ManifestSHA256 LogicalBytes
    StoredBytes LeaseGeneration OwnerID LeaseExpiresAt FinishedAt LocalSnapshotID EncryptionKeyID
    LocalExpiresAt].
  rewrite Ht in *. repeat (apply andb_true_iff; split); try done; apply Z.leb_le; lia.
Qed.

Lemma firstClaim_None l : firstClaim l = None -> l = [].
Proof.
  destruct l as [|x l]; [done|]. cbn [firstClaim].
  destruct (firstClaim l) as [b|]; [destruct (claimBefore x b)|]; done.
Qed.

(** An active run that nobody holds can be claimed: when no round trip
    fails, on well-formed tables with an active run whose lease, if any, has run
    out on the database clock, [Claim] succeeds. *)
Theorem backup_claim_progress owner lease env n db k cur :
  backupWf db -> quiet env -> owner <> NilUUID -> leaseInRange lease = true ->
  runs db !! k = Some cur -> activeRun cur = true -> LeaseGeneration cur < 2 ^ 63 - 1 ->
  (OwnerID cur = None \/ forall m, leaseLive (MkTime (dbclock env m) None) cur = false) ->
  exists st r, Claim owner lease env (n, db) = (st, Ok r) /\ RunID r = k /\ OwnerID r = Some owner.
Proof.
  intros Hwf Hq Ho Hl Hk Ha Hg Hlease. unfold Claim, claim.
  assert ((owner =? NilUUID)%N || negb (leaseInRange lease) = false) as ->
    by (by rewrite (proj2 (N.eqb_neq _ _) Ho), Hl).
  rewrite call_run by apply Hq.
  destruct (bw_row _ Hwf _ _ Hk) as (Hid & _ & Hck).
  assert (Hnext : nextClaim db = Some cur).
  { destruct (nextClaim db) as [x|] eqn:Hn.
    - destruct (nextClaim_Some _ _ Hwf Hn) as [Hx Hax].
      assert (RunID x = k) by (by eapply (bw_active _ Hwf)). congruence.
    - apply firstClaim_None in Hn. exfalso.
      assert (Hin : In cur (List.filter activeRun (snd <$> map_to_list (runs db)))).
      { apply filter_In. split; [|done]. apply list_elem_of_In, list_elem_of_fmap.
        exists (k, cur). split; [done|]. by apply elem_of_map_to_list. }
      by rewrite Hn in Hin. }
  assert (Ht : terminal (RunState_ cur) = false) by (unfold activeRun in Ha; by bool_simpl).
  assert (Hb : exists n1 s1 now, claimBody NilUUID owner lease env (S (S n), db)
    = ((n1, s1), Ok (claimedRun owner lease now cur))).
  { unfold claimBody. rewrite !call_run, dget_run by apply Hq. simpl. rewrite Hnext, Ht.
    unfold dbind at 1, databaseNow. rewrite Hq.
    assert (negb (bool_decide (OwnerID cur = None)) && leaseLive (MkTime (dbclock env (S (S (S (S n))))) None) cur
      = false) as ->.
    { destruct Hlease as [->|Hd]; [done|]. by rewrite Hd, andb_false_r. }
    rewrite call_run by apply Hq. unfold updateRun. rewrite dget_run.
    rewrite claimedRun_check by done. eexists _, _, _. done. }
  destruct Hb as (n1 & s1 & now & Hb). unfold reconciling, transaction. rewrite Hq, Hb, Hq.
  eexists _, _. split; [done|]. done.
Qed.

(** The transition graph: only the three terminal states have no successor,
    every other state can fail, and each transition raises the rank, so a run
    takes at most six transitions. *)
Theorem transition_graph (path : list RunState) (from : RunState) :
  (forall s, validState s = true -> (terminal s = true <-> nextStates s = [])) /\
  (forall s, validState s = true -> terminal s = false -> ValidTransition s StateFailed = true) /\
  (forall s t, ValidTransition s t = true -> ValidTransition t s = false) /\
  (Sorted (fun a b => ValidTransition a b = true) (from :: path) -> (length path <= 6)%nat).
Proof.
  split_and!.
  - intros []; done.
  - intros []; done.
  - intros s t Hst%ValidTransition_rank. destruct (ValidTransition t s) eqn:E; [|done].
    apply ValidTransition_rank in E. lia.
  - intros Hs. enough (rank from + length path <= Nat.max 6 (rank from))%nat by lia.
    revert from Hs. induction path as [|t path IH]; intros from Hs; simpl; [lia|].
    apply Sorted_inv in Hs as [Hs Hhd]. apply HdRel_inv in Hhd.
    apply ValidTransition_rank in Hhd. specialize (IH t Hs). lia.
Qed.

End BackupProofs.

(** ** Evaluated instances *)
Section BackupExamples.
#[local] Existing Instance PgTruncate.

Definition midnight : Time := MkTime (739824 * day) None.
Definition steadyEnv : Env := calm (739824 * day) midnight (fun n => N.of_nat n).

Definition emptyBackup : BackupDB := MkBackupDB ∅ [] [] [7%N] ∅.

Definition nightly : CreateInput :=
  MkCreate 11%N TriggerScheduled "2026-07-28" NilUUID midnight "" None.

Definition queued : BackupDB := exec (Create nightly) steadyEnv emptyBackup.
Definition claimed : BackupDB := exec (Claim 21%N hour) steadyEnv queued.

Definition drain : TransitionInput :=
  MkTransitionInput 11%N 21%N 1 StateQueued StateDraining midnight None "" "".

Lemma queued_step : backupStep emptyBackup queued.
Proof.
  unfold queued, exec. destruct (Create nightly steadyEnv (0%nat, emptyBackup)) as [[n db] r] eqn:E.
  by eapply StepCreate.
Qed.

Lemma claimed_step : backupStep queued claimed.
Proof.
  unfold claimed, exec. destruct (Claim 21%N hour steadyEnv (0%nat, queued)) as [[n db] r] eqn:E.
  by eapply StepClaim.
Qed.

Lemma emptyBackup_wf : backupWf emptyBackup.
Proof. by apply freshBackup_wf. Qed.

Lemma queued_wf : backupWf queued.
Proof. exact (backupStep_wf _ _ emptyBackup_wf queued_step). Qed.

Lemma claimed_wf : backupWf claimed.
Proof. exact (backupStep_wf _ _ queued_wf claimed_step). Qed.

Lemma backup_store_invariant_witness :
  backupWf claimed /\ size (runs claimed) = 1%nat.
Proof.
  split; [|vm_compute; reflexivity]. apply (backup_store_invariant claimed).
  eapply reach_step; [|exact claimed_step]. eapply reach_step; [|exact queued_step].
  apply reach_init. split; reflexivity.
Defined.

Lemma runs_advance_witness :
  exists r r', runs queued !! 11%N = Some r /\ runs claimed !! 11%N = Some r' /\ advances r r'.
Proof.
  destruct (runs queued !! 11%N) as [r|] eqn:E; [|vm_compute in E; discriminate E].
  destruct (runs_advance queued claimed 11%N r queued_wf claimed_step E) as (r' & Hr & Ha).
  exists r, r'. split_and!; [reflexivity|exact Hr|exact Ha].
Defined.

Lemma backup_claim_exact_witness :
  exists st r, claim NilUUID 21%N hour steadyEnv (0%nat, queued) = (st, Ok r) /\
    OwnerID r = Some 21%N /\ snd st = setRuns (<[RunID r := r]> (runs queued)) queued.
Proof.
  destruct (claim NilUUID 21%N hour steadyEnv (0%nat, queued)) as [st x] eqn:E.
  destruct x as [r|]; [|vm_compute in E; discriminate E].
  exists st, r. split; [reflexivity|].
  destruct (backup_claim_exact NilUUID 21%N hour steadyEnv 0 queued st r queued_wf E)
    as (cur & now & _ & _ & _ & _ & _ & _ & Ho & _ & Hs). split; [exact Ho|exact Hs].
Defined.

Lemma backup_transition_exact_witness :
  exists st r, Transition drain steadyEnv (0%nat, claimed) = (st, Ok r) /\
    snd st = setRuns (<[11%N := r]> (runs claimed)) claimed.
Proof.
  destruct (Transition drain steadyEnv (0%nat, claimed)) as [st x] eqn:E.
  destruct x as [r|]; [|vm_compute in E; discriminate E].
  exists st, r. split; [reflexivity|].
  destruct (backup_transition_exact drain steadyEnv 0 claimed st r claimed_wf E)
    as (_ & cur & now & _ & _ & _ & _ & _ & _ & Hs & _). exact Hs.
Defined.

Lemma stale_owner_fenced_witness :
  snd (fst (Renew 11%N 22%N 1 hour steadyEnv (0%nat, claimed))) = claimed.
Proof.
  destruct (Renew 11%N 22%N 1 hour steadyEnv (0%nat, claimed)) as [st x] eqn:E.
  refine (proj1 (proj1 (stale_owner_fenced 11%N 22%N 1 steadyEnv 0 claimed _) hour st x E)).
  intros r Hr.
  assert (Hh : (heldBy 22%N 1 <$> runs claimed !! 11%N) = Some false) by (vm_compute; reflexivity).
  rewrite Hr in Hh. simpl in Hh. by injection Hh.
Defined.

Lemma Create_idempotent_witness :
  exists st r, Create nightly steadyEnv (0%nat, emptyBackup) = (st, Ok r) /\
    exists st', Create (MkCreate 12%N TriggerScheduled "2026-07-28" NilUUID midnight "" None)
      steadyEnv (0%nat, snd st) = (st', Ok r) /\ snd st' = snd st.
Proof.
  destruct (Create nightly steadyEnv (0%nat, emptyBackup)) as [st x] eqn:E.
  destruct x as [r|]; [|vm_compute in E; discriminate E].
  exists st, r. split; [reflexivity|].
  apply (proj2 (Create_idempotent nightly steadyEnv 0 emptyBackup st r emptyBackup_wf E));
    [reflexivity|reflexivity|vm_compute; reflexivity|intros n; reflexivity].
Defined.

Lemma backup_claim_progress_witness :
  exists st r, Claim 21%N hour steadyEnv (0%nat, queued) = (st, Ok r) /\
    RunID r = 11%N /\ OwnerID r = Some 21%N.
Proof.
  destruct (runs queued !! 11%N) as [cur|] eqn:E; [|vm_compute in E; discriminate E].
  assert (Hcur : activeRun cur = true /\ LeaseGeneration cur = 0 /\ OwnerID cur = None).
  { vm_compute in E. injection E as <-. split_and!; reflexivity. }
  destruct Hcur as (Ha & Hg & Ho).
  apply (backup_claim_progress 21%N hour steadyEnv 0 queued 11%N cur).
  - exact queued_wf.
  - intros n. reflexivity.
  - discriminate.
  - vm_compute; reflexivity.
  - exact E.
  - exact Ha.
  - rewrite Hg. lia.
  - left. exact Ho.
Defined.

End BackupExamples.
