(* ===== verification/BackupRetention.v ===== *)
(** * Retention of backups ([RetentionCandidates] and
      [selectRetentionCandidates] of [internal/backup/postgres_store.go])

    Which artifacts of which runs may be deleted: grouping by run and
    repository, the newest point, the daily and monthly buckets, and protected
    pre-release points.  The loops are related to a declarative rule, and a
    second selection after a deletion finds nothing more to delete. *)

From stdpp Require Import base tactics list gmap strings sorting.
From Stdlib Require Import ZArith Lia.
From S2P Require Import Prelude GoTime GoText Pg OpsModel Keyset BackupModel BackupStore.
Import Backup.

Open Scope Z_scope.

Record retentionArtifactPoint := MkPoint {
  ptRunID : UUID;
  ptTrigger : Trigger;
  ptState : RunState;
  ptRequestedAt : Time;
  artifactPresent : bool;
  ptArtifact : Artifact
}.

Record retentionRun := MkRetentionRun {
  rrRunID : UUID;
  rrTrigger : Trigger;
  rrRequestedAt : Time;
  rrRepository : Repository;
  rrArtifacts : list Artifact
}.

(** Locations are fixed offsets from UTC, in seconds; [None] is nil. *)
Record RetentionPolicy := MkPolicy {
  PolNow : Time;
  PolLocation : option Z;
  LocalDaily : Z;
  RemoteDaily : Z;
  RemoteMonthly : Z;
  PreReleaseProtectFor : Z;
  CurrentRunID : UUID
}.

Definition retentionDay (at_ : Time) (location : Z) : string :=
  FormatDay (inLocation at_ (Some location)).
Definition retentionMonth (at_ : Time) (location : Z) : string :=
  FormatMonth (inLocation at_ (Some location)).

(** ** Grouping

    The Go map from run and repository, in order of first occurrence; nothing
    below depends on that order. *)
Definition inGroup (id : UUID) (repo : Repository) (g : retentionRun) : bool :=
  (rrRunID g =? id)%N && bool_decide (rrRepository g = repo).

Definition addArtifactTo (a : Artifact) (g : retentionRun) : retentionRun :=
  MkRetentionRun (rrRunID g) (rrTrigger g) (rrRequestedAt g) (rrRepository g) (rrArtifacts g ++ [a]).

Fixpoint addPoint (p : retentionArtifactPoint) (groups : list retentionRun) : list retentionRun :=
  match groups with
  | [] => [MkRetentionRun (ptRunID p) (ptTrigger p) (ptRequestedAt p)
             (ArtRepository (ptArtifact p)) [ptArtifact p]]
  | g :: rest =>
    if inGroup (ptRunID p) (ArtRepository (ptArtifact p)) g
    then addArtifactTo (ptArtifact p) g :: rest
    else g :: addPoint p rest
  end.

Definition groupPoints (points : list retentionArtifactPoint) : list retentionRun :=
  fold_left (fun groups p => addPoint p groups) points [].

(** ** Keeping *)
Definition runKey (g : retentionRun) : Z * Z := (ns (rrRequestedAt g), Z.of_N (rrRunID g)).

(** The daily and monthly loops: one run per bucket, for the first [limit]
    buckets. *)
Fixpoint keepBuckets (bucket : retentionRun -> string) (limit kept : Z) (seen : gset string)
    (groups : list retentionRun) : list UUID :=
  match groups with
  | [] => []
  | g :: rest =>
    if bool_decide (bucket g ∈ seen) then keepBuckets bucket limit kept seen rest
    else if kept <? limit
    then rrRunID g :: keepBuckets bucket limit (kept + 1) ({[bucket g]} ∪ seen) rest
    else keepBuckets bucket limit kept ({[bucket g]} ∪ seen) rest
  end.

Definition dayOf (pol : RetentionPolicy) (g : retentionRun) : string :=
  retentionDay (rrRequestedAt g) (or_zero 0 (PolLocation pol)).
Definition monthOf (pol : RetentionPolicy) (g : retentionRun) : string :=
  retentionMonth (rrRequestedAt g) (or_zero 0 (PolLocation pol)).

Definition dailyLimit (pol : RetentionPolicy) (repo : Repository) : Z :=
  if bool_decide (repo = RepositoryRemote) then RemoteDaily pol else LocalDaily pol.

Definition protected (pol : RetentionPolicy) (g : retentionRun) : bool :=
  bool_decide (rrTrigger g = TriggerPreRelease)
  && negb (Before (rrRequestedAt g) (addDuration (PolNow pol) (- PreReleaseProtectFor pol))).

(** The runs of one repository, newest first, that are kept. *)
Definition keepFor (pol : RetentionPolicy) (repo : Repository) (groups : list retentionRun) :
  list UUID :=
  let sorted := orderDesc runKey (List.filter (fun g => bool_decide (rrRepository g = repo)) groups) in
  match sorted with [] => [] | g :: _ => [rrRunID g] end
  ++ keepBuckets (dayOf pol) (dailyLimit pol repo) 0 ∅ sorted
  ++ (if bool_decide (repo = RepositoryRemote)
      then keepBuckets (monthOf pol) (RemoteMonthly pol) 0 ∅ sorted else [])
  ++ (rrRunID <$> List.filter (protected pol) sorted).

(** [byRepository] has the local and the remote repository; other values of the
    column add entries of their own, treated like the local one. *)
Definition kept (pol : RetentionPolicy) (groups : list retentionRun) (g : retentionRun) : bool :=
  bool_decide (rrRunID g ∈ keepFor pol (rrRepository g) groups).

(** ** Ordering of candidates *)
Definition repositoryText (r : Repository) : string :=
  match r with RepositoryLocal => "local" | RepositoryRemote => "remote" | OtherRepository s => s end.
Definition kindText (k : ArtifactKind) : string :=
  match k with
  | ArtifactDatabaseDump => "database_dump"
  | ArtifactObjectSnapshot => "object_snapshot"
  | ArtifactManifest => "manifest"
  | ArtifactRecoveryReport => "recovery_report"
  | OtherArtifact s => s
  end.

Definition compareArtifacts (a b : Artifact) : comparison :=
  match String.compare (repositoryText (ArtRepository a)) (repositoryText (ArtRepository b)) with
  | Eq => match N.compare (BackupRunID a) (BackupRunID b) with
          | Eq => String.compare (kindText (ArtKind a)) (kindText (ArtKind b))
          | c => c
          end
  | c => c
  end.

Definition artifactLe (a b : Artifact) : Prop := compareArtifacts a b <> Gt.

#[export] Instance artifactLe_dec a b : Decision (artifactLe a b).
Proof. unfold artifactLe. apply _. Defined.

Definition sortArtifacts (l : list Artifact) : list Artifact := merge_sort artifactLe l.

Definition selectRetentionCandidates (points : list retentionArtifactPoint) (pol : RetentionPolicy) :
  result BackupError (list Artifact) :=
  (reject negb (forallb artifactPresent points) with ErrUnavailable;
   let groups := groupPoints points in
   Ok (sortArtifacts (List.concat
         (rrArtifacts <$> List.filter (fun g => negb (kept pol groups g)) groups))))%go.

(** ** The query *)
Definition artifactsOf (db : BackupDB) (r : Run) (repo : Repository) : list Artifact :=
  List.filter (fun a => (BackupRunID a =? RunID r)%N && bool_decide (ArtRepository a = repo))
    (artifacts db).

(** The three parts of [eligible_runs]. *)
Definition eligible (db : BackupDB) (current : UUID) (repo : Repository) (r : Run) : bool :=
  let present := negb (bool_decide (artifactsOf db r repo = [])) in
  let s := RunState_ r in
  let done_ := bool_decide (s = StateSucceeded) || bool_decide (s = StateDegraded) in
  let local := bool_decide (repo = RepositoryLocal) in
  let remote := bool_decide (repo = RepositoryRemote) in
  (present && ((local && done_) || (remote && bool_decide (s = StateSucceeded))
               || ((RunID r =? current)%N
                   && (bool_decide (s = StateVerifying) || bool_decide (s = StateSyncing))
                   && (local || (remote && bool_decide (s = StateSyncing))))))
  || (negb present && local && done_ && negb (bool_decide (LocalSnapshotID r = None)))
  || (negb present && remote && bool_decide (s = StateSucceeded)
      && negb (bool_decide (RemoteSnapshotID r = None))).

Definition runOrder (r : Run) : Z * Z := (ns (RequestedAt r), Z.of_N (RunID r)).

(** The row of a run without artifacts: the columns are coalesced. *)
Definition missingArtifact (r : Run) (repo : Repository) : Artifact :=
  MkArtifact (RunID r) NilUUID 0 (OtherArtifact "") repo "" [] 0 (RequestedAt r) (RequestedAt r).

Definition pointsOf (db : BackupDB) (repo : Repository) (r : Run) : list retentionArtifactPoint :=
  match sortArtifacts (artifactsOf db r repo) with
  | [] => [MkPoint (RunID r) (RunTrigger r) (RunState_ r) (UTC (RequestedAt r)) false
             (missingArtifact r repo)]
  | l => MkPoint (RunID r) (RunTrigger r) (RunState_ r) (UTC (RequestedAt r)) true <$> l
  end.

Definition retentionPoints (db : BackupDB) (current : UUID) : list retentionArtifactPoint :=
  List.concat ((fun repo => List.concat (pointsOf db repo <$>
    orderDesc runOrder (List.filter (eligible db current repo) (snd <$> map_to_list (runs db)))))
    <$> [RepositoryLocal; RepositoryRemote]).

Definition validPolicy (pol : RetentionPolicy) : bool :=
  negb (IsZero (PolNow pol) || bool_decide (PolLocation pol = None) || (LocalDaily pol <? 1)
        || (RemoteDaily pol <? 1) || (RemoteMonthly pol <? 1) || (PreReleaseProtectFor pol <? 0)).

Definition RetentionCandidates (pol : RetentionPolicy) : DB BackupDB BackupError (list Artifact) :=
  (guard validPolicy pol else ErrInvalid;
   call ErrUnavailable;
   do db <- dget;
   match selectRetentionCandidates (retentionPoints db (CurrentRunID pol)) pol with
   | Ok l => dret l
   | Err e => dfail e
   end)%db.

(** ** Facts about grouping *)
Definition gkey (g : retentionRun) : UUID * Repository := (rrRunID g, rrRepository g).
Definition pkey (p : retentionArtifactPoint) : UUID * Repository :=
  (ptRunID p, ArtRepository (ptArtifact p)).

Lemma inGroup_spec id repo g : inGroup id repo g = true <-> gkey g = (id, repo).
Proof.
  unfold inGroup, gkey. rewrite andb_true_iff, N.eqb_eq, bool_decide_eq_true.
  split; [intros [-> ->]; done|by intros [= -> ->]].
Qed.

Lemma addPoint_filter (P : UUID * Repository -> bool) p groups :
  List.filter (fun g => P (gkey g)) (addPoint p groups) =
  if P (pkey p) then addPoint p (List.filter (fun g => P (gkey g)) groups)
  else List.filter (fun g => P (gkey g)) groups.
Proof.
  induction groups as [|g groups IH].
  - simpl. change (gkey (MkRetentionRun (ptRunID p) (ptTrigger p) (ptRequestedAt p)
      (ArtRepository (ptArtifact p)) [ptArtifact p])) with (pkey p). by destruct (P (pkey p)).
  - cbn [addPoint]. destruct (inGroup _ _ g) eqn:E.
    + apply inGroup_spec in E as Hk. cbn [List.filter].
      change (gkey (addArtifactTo (ptArtifact p) g)) with (gkey g). rewrite Hk.
      change (ptRunID p, ArtRepository (ptArtifact p)) with (pkey p).
      destruct (P (pkey p)); [|done]. cbn [addPoint]. by rewrite E.
    + cbn [List.filter]. rewrite IH. destruct (P (gkey g)), (P (pkey p)); try done.
      cbn [addPoint]. by rewrite E.
Qed.

Lemma groupPoints_filter (P : UUID * Repository -> bool) points :
  groupPoints (List.filter (fun p => P (pkey p)) points) =
  List.filter (fun g => P (gkey g)) (groupPoints points).
Proof.
  unfold groupPoints. change (@nil retentionRun) with (List.filter (fun g => P (gkey g)) []) at 1.
  generalize (@nil retentionRun). induction points as [|p points IH]; intros gs; simpl; [done|].
  rewrite <- IH, addPoint_filter. by destruct (P (pkey p)).
Qed.

Lemma addPoint_keys p groups :
  NoDup (gkey <$> groups) ->
  NoDup (gkey <$> addPoint p groups) /\
  (forall k, k ∈ gkey <$> addPoint p groups <-> k = pkey p \/ k ∈ gkey <$> groups) /\
  List.concat (rrArtifacts <$> addPoint p groups) ≡ₚ
    ptArtifact p :: List.concat (rrArtifacts <$> groups).
Proof.
  induction groups as [|g groups IH]; intros Hnd.
  - simpl. split_and!; [apply NoDup_singleton| |done].
    intros k. change (gkey _) with (pkey p). rewrite list_elem_of_singleton, elem_of_nil. tauto.
  - simpl in Hnd. apply NoDup_cons in Hnd as [Hg Hnd]. destruct (IH Hnd) as (IH1 & IH2 & IH3).
    cbn [addPoint]. destruct (inGroup _ _ g) eqn:E.
    + apply inGroup_spec in E. simpl. change (gkey (addArtifactTo _ g)) with (gkey g).
      split_and!; [by apply NoDup_cons| |].
      * intros k. rewrite elem_of_cons. change (gkey g = pkey p) in E. rewrite E. tauto.
      * rewrite <- app_assoc. simpl. rewrite Permutation_middle. done.
    + simpl. split_and!.
      * apply NoDup_cons. split; [|done]. rewrite IH2. intros [Heq|Hin]; [|done].
        apply (inGroup_spec (ptRunID p) (ArtRepository (ptArtifact p))) in Heq. congruence.
      * intros k. rewrite !elem_of_cons, IH2. tauto.
      * rewrite IH3. by rewrite Permutation_middle.
Qed.

Lemma groupPoints_spec points :
  NoDup (gkey <$> groupPoints points) /\
  (forall k, k ∈ gkey <$> groupPoints points <-> k ∈ pkey <$> points) /\
  List.concat (rrArtifacts <$> groupPoints points) ≡ₚ ptArtifact <$> points.
Proof.
  unfold groupPoints.
  assert (Hgen : forall gs, NoDup (gkey <$> gs) ->
    let r := fold_left (fun groups p => addPoint p groups) points gs in
    NoDup (gkey <$> r) /\ (forall k, k ∈ gkey <$> r <-> k ∈ gkey <$> gs \/ k ∈ pkey <$> points) /\
    List.concat (rrArtifacts <$> r) ≡ₚ
      List.concat (rrArtifacts <$> gs) ++ (ptArtifact <$> points)).
  { induction points as [|p points IH]; intros gs Hgs; simpl.
    - split_and!; [done| |by rewrite app_nil_r]. intros k. rewrite elem_of_nil. tauto.
    - destruct (addPoint_keys p gs Hgs) as (H1 & H2 & H3).
      destruct (IH _ H1) as (I1 & I2 & I3). split_and!; [done| |].
      + intros k. rewrite I2, H2, elem_of_cons. tauto.
      + rewrite I3, H3. simpl. by rewrite Permutation_middle. }
  destruct (Hgen [] (NoDup_nil_2)) as (H1 & H2 & H3). split_and!; [done| |done].
  intros k. rewrite H2. simpl. rewrite elem_of_nil. tauto.
Qed.

(** ** The bucket loops *)
Definition buckets (bucket : retentionRun -> string) (l : list retentionRun) : gset string :=
  list_to_set (bucket <$> l).

Lemma keepBuckets_split bucket limit l : forall kept seen id,
  (kept < limit <-> Z.of_nat (size seen) < limit) -> (kept < limit -> kept = Z.of_nat (size seen)) ->
  id ∈ keepBuckets bucket limit kept seen l <->
  exists l1 g l2, l = l1 ++ g :: l2 /\ rrRunID g = id /\
    bucket g ∉ seen ∪ buckets bucket l1 /\ Z.of_nat (size (seen ∪ buckets bucket l1)) < limit.
Proof.
  induction l as [|x l IH]; intros kept seen id Hlim Hkept; cbn [keepBuckets].
  { rewrite elem_of_nil. split; [done|]. intros ([|] & ? & ? & ? & _); discriminate. }
  assert (Hcons : forall seen', {[bucket x]} ∪ seen = seen' ->
    (exists l1 g l2, l = l1 ++ g :: l2 /\ rrRunID g = id /\
       bucket g ∉ seen' ∪ buckets bucket l1 /\ Z.of_nat (size (seen' ∪ buckets bucket l1)) < limit) <->
    (exists l1 g l2, x :: l = (x :: l1) ++ g :: l2 /\ rrRunID g = id /\
       bucket g ∉ seen ∪ buckets bucket (x :: l1) /\
       Z.of_nat (size (seen ∪ buckets bucket (x :: l1))) < limit)).
  { intros seen' <-. assert (Hset : forall l1, {[bucket x]} ∪ seen ∪ buckets bucket l1 =
      seen ∪ buckets bucket (x :: l1)) by (intros l1; unfold buckets; simpl; set_solver).
    split; intros (l1 & g & l2 & Hl & Hrest); exists l1, g, l2.
    - rewrite Hset in Hrest. split; [simpl; by rewrite Hl|done].
    - rewrite Hset. simpl in Hl. injection Hl as ->. done. }
  assert (Hhead : (exists l1 g l2, x :: l = l1 ++ g :: l2 /\ rrRunID g = id /\
      bucket g ∉ seen ∪ buckets bucket l1 /\ Z.of_nat (size (seen ∪ buckets bucket l1)) < limit) <->
    (rrRunID x = id /\ bucket x ∉ seen /\ Z.of_nat (size seen) < limit) \/
    (exists l1 g l2, x :: l = (x :: l1) ++ g :: l2 /\ rrRunID g = id /\
       bucket g ∉ seen ∪ buckets bucket (x :: l1) /\
       Z.of_nat (size (seen ∪ buckets bucket (x :: l1))) < limit)).
  { assert (He : seen ∪ buckets bucket [] = seen) by (unfold buckets; simpl; set_solver).
    split.
    - intros ([|y l1] & g & l2 & Hl & Hid & Hn & Hs).
      + injection Hl as <- <-. rewrite He in *. by left.
      + injection Hl as <- ->. right. by exists l1, g, l2.
    - intros [(Hid & Hn & Hs)|(l1 & g & l2 & Hl & Hrest)].
      + exists [], x, l. by rewrite He.
      + by exists (x :: l1), g, l2. }
  rewrite Hhead. case_bool_decide as Hseen.
  - rewrite IH by done. rewrite Hcons; [|set_solver]. tauto.
  - assert (Hsz : Z.of_nat (size ({[bucket x]} ∪ seen)) = Z.of_nat (size seen) + 1).
    { rewrite size_union by set_solver. rewrite size_singleton. lia. }
    destruct (kept <? limit) eqn:El; bool_simpl.
    + rewrite elem_of_cons, IH by (rewrite Hsz; lia). rewrite Hcons by done.
      specialize (Hkept El). naive_solver lia.
    + rewrite IH by (rewrite Hsz; lia). rewrite Hcons by done. naive_solver lia.
Qed.

(** ** The declarative rule *)
Definition newer (h g : retentionRun) : bool := pairLt (runKey g) (runKey h).

(** The run is the first of its bucket, and fewer than [limit] buckets have a
    newer first run. *)
Definition bucketRule (bucket : retentionRun -> string) (limit : Z) (l : list retentionRun)
    (g : retentionRun) : Prop :=
  let newerBuckets := buckets bucket (List.filter (fun h => newer h g) l) in
  bucket g ∉ newerBuckets /\ Z.of_nat (size newerBuckets) < limit.

Definition keepRule (pol : RetentionPolicy) (l : list retentionRun) (g : retentionRun) : Prop :=
  (forall h, h ∈ l -> newer h g = false) \/
  bucketRule (dayOf pol) (dailyLimit pol (rrRepository g)) l g \/
  (rrRepository g = RepositoryRemote /\ bucketRule (monthOf pol) (RemoteMonthly pol) l g) \/
  protected pol g = true.

Definition inRepository (repo : Repository) (groups : list retentionRun) : list retentionRun :=
  List.filter (fun g => bool_decide (rrRepository g = repo)) groups.

Lemma newer_prefix l1 g l2 :
  strictlyDescending runKey (l1 ++ g :: l2) ->
  List.filter (fun h => newer h g) (l1 ++ g :: l2) = l1.
Proof.
  unfold strictlyDescending. induction l1 as [|x l1 IH]; simpl; intros Hs.
  - apply StronglySorted_inv in Hs as [_ Hall].
    assert (newer g g = false) as -> by (unfold newer; apply pairLt_false; lia).
    induction l2 as [|y l2 IH2]; [done|]. apply List.Forall_cons_iff in Hall as [Hy Hall]. simpl.
    assert (newer y g = false) as -> by (unfold newer; apply pairLt_spec in Hy; apply pairLt_false; lia).
    by apply IH2.
  - apply StronglySorted_inv in Hs as [Hs Hall]. rewrite List.Forall_forall in Hall.
    assert (newer x g = true) as -> by (apply Hall, in_or_app; right; by left). f_equal. by apply IH.
Qed.

Lemma buckets_perm bucket l l' g :
  l ≡ₚ l' ->
  buckets bucket (List.filter (fun h => newer h g) l) = buckets bucket (List.filter (fun h => newer h g) l').
Proof.
  intros Hp. unfold buckets. apply set_eq. intros b. rewrite !elem_of_list_to_set, !list_elem_of_fmap.
  assert (Hin : forall h, h ∈ List.filter (fun h => newer h g) l <-> h ∈ List.filter (fun h => newer h g) l').
  { intros h. rewrite !list_elem_of_In, !filter_In, <- !list_elem_of_In, Hp. done. }
  split; intros (h & -> & Hh); exists h; (split; [done|by apply Hin]).
Qed.

(** The loops on the ordered runs implement the rule. *)
Lemma keepBuckets_rule bucket limit (l : list retentionRun) g :
  NoDup (rrRunID <$> l) -> g ∈ l ->
  rrRunID g ∈ keepBuckets bucket limit 0 ∅ (orderDesc runKey l) <-> bucketRule bucket limit l g.
Proof.
  intros Hnd Hg.
  assert (Hkeys : NoDup (runKey <$> l)).
  { apply (NoDup_fmap_1 snd). rewrite <- list_fmap_compose. apply (NoDup_fmap_1 Z.to_N).
    rewrite <- list_fmap_compose. erewrite list_fmap_ext; [exact Hnd|].
    intros i x _. simpl. by rewrite N2Z.id. }
  pose proof (orderDesc_strict runKey l Hkeys) as Hs. pose proof (orderDesc_perm runKey l) as Hp.
  rewrite keepBuckets_split by (rewrite size_empty; lia). unfold bucketRule.
  rewrite <- (buckets_perm bucket _ _ g Hp).
  assert (Hnd' : NoDup (rrRunID <$> orderDesc runKey l)) by (by rewrite Hp).
  assert (Hemp : forall s : gset string, ∅ ∪ s = s) by (intros s; set_solver). split.
  - intros (l1 & x & l2 & Hl & Hid & Hn & Hsz). rewrite Hemp in *.
    assert (x = g) as ->.
    { assert (Hx : x ∈ orderDesc runKey l) by (rewrite Hl, elem_of_app, elem_of_cons; auto).
      assert (Hg' : g ∈ orderDesc runKey l) by (by rewrite Hp).
      apply list_elem_of_lookup_1 in Hx as [i Hi]. apply list_elem_of_lookup_1 in Hg' as [j Hj].
      assert (i = j) as ->; [|congruence].
      eapply (NoDup_lookup _ i j (rrRunID g) Hnd'); rewrite list_lookup_fmap;
        [rewrite Hi; simpl; congruence|by rewrite Hj]. }
    rewrite Hl in Hs |- *. by rewrite newer_prefix.
  - assert (Hg' : g ∈ orderDesc runKey l) by (by rewrite Hp).
    apply list_elem_of_split in Hg' as (l1 & l2 & Hl). rewrite Hl in Hs |- *.
    rewrite newer_prefix by done. intros [Hn Hsz]. exists l1, g, l2. by rewrite Hemp.
Qed.

Lemma orderDesc_head (l : list retentionRun) g :
  NoDup (rrRunID <$> l) -> g ∈ l ->
  rrRunID g ∈ (match orderDesc runKey l with [] => [] | h :: _ => [rrRunID h] end) <->
  forall h, h ∈ l -> newer h g = false.
Proof.
  intros Hnd Hg.
  assert (Hs : StronglySorted (newerFirst runKey) (orderDesc runKey l))
    by (apply StronglySorted_merge_sort; apply _).
  pose proof (orderDesc_perm runKey l) as Hp.
  destruct (orderDesc runKey l) as [|x l'] eqn:E.
  { apply Permutation_nil in Hp. subst. by apply elem_of_nil in Hg. }
  apply StronglySorted_inv in Hs as [_ Hall]. rewrite List.Forall_forall in Hall.
  rewrite list_elem_of_singleton. split.
  - intros Hid h Hh.
    assert (g = x) as ->.
    { assert (Hx : x ∈ l) by (rewrite <- Hp; apply elem_of_cons; by left).
      apply list_elem_of_lookup_1 in Hx as [i Hi]. apply list_elem_of_lookup_1 in Hg as [j Hj].
      assert (i = j) as ->; [|congruence].
      eapply (NoDup_lookup _ i j (rrRunID g) Hnd); rewrite list_lookup_fmap;
        [rewrite Hi; simpl; congruence|by rewrite Hj]. }
    rewrite <- Hp in Hh. apply elem_of_cons in Hh as [->|Hh].
    + unfold newer. apply pairLt_false. lia.
    + apply Hall. by apply list_elem_of_In.
  - intros Hnew. assert (Hx : newer x g = false)
      by (apply Hnew; rewrite <- Hp; apply elem_of_cons; by left).
    rewrite <- Hp in Hg. apply elem_of_cons in Hg as [->|Hg]; [done|].
    specialize (Hall g ltac:(by apply list_elem_of_In)).
    unfold newer, newerFirst in *. apply pairLt_false in Hx, Hall. unfold runKey in *. simpl in *. lia.
Qed.

Definition keptKey (pol : RetentionPolicy) (groups : list retentionRun) (k : UUID * Repository) : bool :=
  bool_decide (fst k ∈ keepFor pol (snd k) groups).

Lemma inRepository_ids repo groups :
  NoDup (gkey <$> groups) -> NoDup (rrRunID <$> inRepository repo groups).
Proof.
  unfold inRepository. induction groups as [|g groups IH]; simpl; [constructor|].
  rewrite NoDup_cons. intros [Hg Hnd]. case_bool_decide as Hr; [|by apply IH].
  simpl. apply NoDup_cons. split; [|by apply IH]. intros Hin. apply Hg.
  apply list_elem_of_fmap in Hin as (h & Hid & Hh).
  apply list_elem_of_In, filter_In in Hh as [Hh Hrh]. bool_simpl.
  apply list_elem_of_fmap. exists h. split; [|by apply list_elem_of_In]. unfold gkey. congruence.
Qed.

Lemma inRepository_In repo groups g :
  g ∈ inRepository repo groups <-> g ∈ groups /\ rrRepository g = repo.
Proof. unfold inRepository. rewrite !list_elem_of_In, filter_In, bool_decide_eq_true. done. Qed.

(** What the selection keeps is what the rule says. *)
Lemma kept_rule pol groups g :
  NoDup (gkey <$> groups) -> g ∈ groups ->
  keptKey pol groups (gkey g) = true <-> keepRule pol (inRepository (rrRepository g) groups) g.
Proof.
  intros Hnd Hg. unfold keptKey, keepFor. cbn [gkey fst snd].
  rewrite bool_decide_eq_true, !elem_of_app.
  pose proof (inRepository_ids (rrRepository g) groups Hnd) as Hids.
  assert (Hin : g ∈ inRepository (rrRepository g) groups) by (by apply inRepository_In).
  fold (inRepository (rrRepository g) groups).
  rewrite (orderDesc_head _ g Hids Hin), (keepBuckets_rule _ _ _ g Hids Hin).
  assert (Hmonth : rrRunID g ∈ (if bool_decide (rrRepository g = RepositoryRemote)
      then keepBuckets (monthOf pol) (RemoteMonthly pol) 0 ∅
             (orderDesc runKey (inRepository (rrRepository g) groups)) else []) <->
    rrRepository g = RepositoryRemote /\
    bucketRule (monthOf pol) (RemoteMonthly pol) (inRepository (rrRepository g) groups) g).
  { case_bool_decide; [|rewrite elem_of_nil; tauto].
    rewrite (keepBuckets_rule _ _ _ g Hids Hin). tauto. }
  assert (Hprot : rrRunID g ∈ (rrRunID <$> List.filter (protected pol)
      (orderDesc runKey (inRepository (rrRepository g) groups))) <-> protected pol g = true).
  { rewrite list_elem_of_fmap. split.
    - intros (h & Hid & Hh). apply list_elem_of_In, filter_In in Hh as [Hh Hp].
      apply list_elem_of_In in Hh. rewrite orderDesc_perm in Hh.
      apply list_elem_of_lookup_1 in Hh as [i Hi]. apply list_elem_of_lookup_1 in Hin as [j Hj].
      assert (i = j) as ->; [|congruence].
      eapply (NoDup_lookup _ i j (rrRunID g) Hids); rewrite list_lookup_fmap;
        [rewrite Hi; simpl; congruence|by rewrite Hj].
    - intros Hp. exists g. split; [done|]. apply list_elem_of_In, filter_In. split; [|done].
      apply list_elem_of_In. by rewrite orderDesc_perm. }
  rewrite Hmonth, Hprot. unfold keepRule. done.
Qed.

(** The rule is kept by dropping other runs. *)
Lemma keepRule_subset pol l l' g :
  (forall h, h ∈ l' -> h ∈ l) -> keepRule pol l g -> keepRule pol l' g.
Proof.
  intros Hsub. assert (Hb : forall bucket limit, bucketRule bucket limit l g -> bucketRule bucket limit l' g).
  { intros bucket limit [Hn Hsz].
    assert (Hle : buckets bucket (List.filter (fun h => newer h g) l') ⊆
                  buckets bucket (List.filter (fun h => newer h g) l)).
    { intros b. unfold buckets. rewrite !elem_of_list_to_set, !list_elem_of_fmap.
      intros (h & -> & Hh). exists h. split; [done|].
      apply list_elem_of_In, filter_In in Hh as [Hh Hnew]. apply list_elem_of_In, filter_In.
      split; [|done]. by apply list_elem_of_In, Hsub, list_elem_of_In. }
    split; [set_solver|]. pose proof (subseteq_size _ _ Hle). lia. }
  intros [Hnew|[Hd|[[Hr Hm]|Hp]]].
  - left. intros h Hh. by apply Hnew, Hsub.
  - right; left. by apply Hb.
  - right; right; left. split; [done|by apply Hb].
  - by right; right; right.
Qed.

(** *** Order of candidates *)
Lemma compareArtifacts_antisym a b : compareArtifacts b a = CompOpp (compareArtifacts a b).
Proof.
  unfold compareArtifacts.
  rewrite (String.compare_antisym (repositoryText (ArtRepository b))).
  destruct (String.compare _ _); simpl; try done.
  rewrite (N.compare_antisym (BackupRunID a)). destruct (N.compare _ _); simpl; try done.
  apply String.compare_antisym.
Qed.

#[export] Instance artifactLe_total : Total artifactLe.
Proof.
  intros a b. unfold artifactLe. rewrite (compareArtifacts_antisym a b).
  destruct (compareArtifacts a b); simpl; auto; left; discriminate.
Qed.

Definition keptPoint (pol : RetentionPolicy) (points : list retentionArtifactPoint)
    (p : retentionArtifactPoint) : bool :=
  keptKey pol (groupPoints points) (pkey p).

Lemma candidates_perm pol points :
  List.concat (rrArtifacts <$>
    List.filter (fun g => negb (kept pol (groupPoints points) g)) (groupPoints points)) ≡ₚ
  ptArtifact <$> List.filter (fun p => negb (keptPoint pol points p)) points.
Proof.
  pose proof (groupPoints_filter (fun k => negb (keptKey pol (groupPoints points) k)) points) as Hf.
  change (fun g => negb (kept pol (groupPoints points) g))
    with (fun g => negb (keptKey pol (groupPoints points) (gkey g))).
  rewrite <- Hf. apply groupPoints_spec.
Qed.

(** C39. The retention selection is exactly the rule.  A point without artifacts
    makes it fail rather than guess.  Otherwise the candidates are, in order, all
    and only the artifacts of the runs the rule does not keep; the rule keeps, in
    each repository, the newest run, the first run of each of the newest
    [dailyLimit] days, for the remote repository the first of each of the newest
    months, and protected pre-release runs.  A run's artifacts are never split. *)
Theorem retention_selects_rule points pol :
  match selectRetentionCandidates points pol with
  | Err e => e = ErrUnavailable /\ exists p, p ∈ points /\ artifactPresent p = false
  | Ok cands =>
    (forall p, p ∈ points -> artifactPresent p = true) /\ Sorted artifactLe cands /\
    cands ≡ₚ ptArtifact <$> List.filter (fun p => negb (keptPoint pol points p)) points /\
    forall g, g ∈ groupPoints points ->
      (keptKey pol (groupPoints points) (gkey g) = true <->
       keepRule pol (inRepository (rrRepository g) (groupPoints points)) g)
  end.
Proof.
  unfold selectRetentionCandidates. destruct (forallb artifactPresent points) eqn:Hp; simpl.
  - split_and!.
    + intros p Hin. rewrite forallb_forall in Hp. by apply Hp, list_elem_of_In.
    + apply Sorted_merge_sort. apply _.
    + unfold sortArtifacts. rewrite merge_sort_Permutation. apply candidates_perm.
    + intros g Hg. apply kept_rule; [apply groupPoints_spec|done].
  - split; [done|]. apply not_true_iff_false in Hp. rewrite forallb_forall in Hp.
    destruct (List.find (fun p => negb (artifactPresent p)) points) as [p|] eqn:Hf.
    + apply find_some in Hf as [Hin Hn]. exists p. bool_simpl. split; [by apply list_elem_of_In|done].
    + exfalso. apply Hp. intros p Hin. pose proof (find_none _ _ Hf p Hin) as Hn.
      simpl in Hn. by bool_simpl.
Qed.

(** Retention is stable: after the candidates have been deleted, a second
    selection with the same policy over what is left selects nothing. *)
Theorem retention_idempotent points pol cands :
  selectRetentionCandidates points pol = Ok cands ->
  selectRetentionCandidates (List.filter (keptPoint pol points) points) pol = Ok [].
Proof.
  unfold selectRetentionCandidates. destruct (forallb artifactPresent points) eqn:Hp; [|done].
  intros _. assert (Hp' : forallb artifactPresent (List.filter (keptPoint pol points) points) = true).
  { rewrite forallb_forall in *. intros p Hin. apply filter_In in Hin as [Hin _]. by apply Hp. }
  rewrite Hp'. simpl. set (G := groupPoints points).
  assert (HG : groupPoints (List.filter (keptPoint pol points) points) =
    List.filter (fun g => keptKey pol G (gkey g)) G)
    by (apply (groupPoints_filter (keptKey pol G))).
  destruct (groupPoints_spec (List.filter (keptPoint pol points) points)) as (Hnd' & _).
  rewrite HG in Hnd' |- *. set (G' := List.filter (fun g => keptKey pol G (gkey g)) G) in *.
  destruct (groupPoints_spec points) as (Hnd & _).
  assert (Hall : List.filter (fun g => negb (kept pol G' g)) G' = []).
  { destruct (List.filter _ G') as [|g l] eqn:E; [done|]. exfalso.
    assert (Hin : In g (List.filter (fun g => negb (kept pol G' g)) G')) by (rewrite E; by left).
    apply filter_In in Hin as [Hin Hk]. bool_simpl.
    change (kept pol G' g) with (keptKey pol G' (gkey g)) in Hk.
    assert (Hin' := Hin). apply filter_In in Hin' as [HinG HkG]. apply list_elem_of_In in Hin, HinG.
    apply (kept_rule pol G g Hnd HinG) in HkG.
    apply not_true_iff_false in Hk. apply Hk, (kept_rule pol G' g Hnd' Hin).
    eapply keepRule_subset; [|exact HkG]. intros h. rewrite !inRepository_In. intros [Hh Hr].
    split; [|done]. apply list_elem_of_In, filter_In in Hh as [Hh _]. by apply list_elem_of_In. }
  by rewrite Hall.
Qed.

(** ** Evaluated instances *)
Definition exampleArtifact (id : UUID) : Artifact :=
  MkArtifact id NilUUID 0 ArtifactManifest RepositoryLocal "snapshot" [] 0 zeroTime zeroTime.

(** One scheduled run a day. *)
Definition dailyPoint (id : UUID) (days : Z) : retentionArtifactPoint :=
  MkPoint id TriggerScheduled StateSucceeded (MkTime ((739824 - days) * day) None) true
    (exampleArtifact id).

Definition twoDays : RetentionPolicy :=
  MkPolicy (MkTime (739824 * day) None) (Some (8 * 3600)) 2 2 1 (30 * day) NilUUID.

Definition examplePoints : list retentionArtifactPoint :=
  [dailyPoint 1%N 0; dailyPoint 2%N 1; dailyPoint 3%N 2].

Lemma retention_idempotent_witness :
  selectRetentionCandidates examplePoints twoDays = Ok [exampleArtifact 3%N] /\
  selectRetentionCandidates (List.filter (keptPoint twoDays examplePoints) examplePoints) twoDays = Ok [].
Proof.
  assert (Hs : selectRetentionCandidates examplePoints twoDays = Ok [exampleArtifact 3%N])
    by (vm_compute; reflexivity).
  split; [exact Hs|]. exact (retention_idempotent examplePoints twoDays _ Hs).
Defined.
