(* ===== verification/BackupRestore.v ===== *)
(** * Listing, details and restore evidence ([internal/backup/postgres_store.go])

    The read side of the backup store, [List] and [Get], and
    [RecordRestoreSuccess], which records that a backup was restored and checked
    ([validateRestoreExerciseRowCounts] is in [restore_exercise_report.go], the
    table list in [restore_verifier.go]).  The JSON column of row counts is the
    map it encodes. *)

From stdpp Require Import base tactics list gmap strings sorting.
From Stdlib Require Import ZArith Lia.
From S2P Require Import Prelude GoTime GoText Pg OpsModel Keyset BackupModel BackupStore BackupProofs BackupRetention.
Import Backup.

Open Scope Z_scope.

(** ** Validation *)
Definition restoreRowCountAllowlist : list string :=
  ["users"; "sessions"; "subjects"; "grades"; "terms"; "chapters"; "lessons";
   "lesson_revisions"; "files"; "file_versions"; "file_previews"; "qa_threads"; "qa_messages";
   "ai_threads"; "ai_messages"; "ai_runs"].

Definition restoreExerciseRTOLimit : Z := 14400.
Definition maxInt64 : Z := 2 ^ 63 - 1.

(** The loop over the allow list: the counts met and their total. *)
Fixpoint collectRowCounts (input : Counts) (tables : list string) (counts : Counts) (total : Z) :
  option (Counts * Z) :=
  match tables with
  | [] => Some (counts, total)
  | table :: rest =>
    match input !! table with
    | None => None
    | Some value =>
      if (value <? 0) || (maxInt64 - value <? total) then None
      else collectRowCounts input rest (<[table := value]> counts) (total + value)
    end
  end.

Definition validateRestoreExerciseRowCounts (input : Counts) : option (Counts * Z) :=
  if negb (size input =? length restoreRowCountAllowlist)%nat then None
  else collectRowCounts input restoreRowCountAllowlist ∅ 0.

Definition validateRestoreSuccessInput (i : RestoreSuccessInput) : result BackupError unit :=
  let duration := Sub (RsFinishedAt i) (RsStartedAt i) in
  match validateRestoreExerciseRowCounts (RsRowCounts i) with
  | None => Err ErrInvalid
  | Some (counts, _) =>
    (reject (RsVerificationID i =? NilUUID)%N
        || negb (uuidVersion (RsVerificationID i) =? 4)%N
        || negb (uuidRFC4122 (RsVerificationID i))
        || (RsRunID i =? NilUUID)%N
        || IsZero (RsStartedAt i) || IsZero (RsFinishedAt i)
        || negb (bool_decide (loc (RsStartedAt i) = None))
        || negb (bool_decide (loc (RsFinishedAt i) = None))
        || (duration <? 0)
        || (RsMigrationVersion i <? 1)
        || negb (size counts =? length restoreRowCountAllowlist)%nat
        || (RsCheckedObjectCount i <? 0)
        || negb (RsSessionRevocationVerified i)
        || (RsRTOSeconds i <? 0) || (restoreExerciseRTOLimit <=? RsRTOSeconds i)
        || negb (Z.of_nat (length (RsManifestSHA256 i)) =? 32)
        || negb (Z.of_nat (length (RsReportSHA256 i)) =? 32) with ErrInvalid;
     reject negb (duration =? RsRTOSeconds i * second) with ErrInvalid;
     Ok tt)%go
  end.

Definition restoreVerificationFromSuccessInput (i : RestoreSuccessInput) : RestoreVerification :=
  MkVerification (RsVerificationID i) (RsRunID i) RestoreSucceeded
    (Some (UTC (RsStartedAt i))) (Some (UTC (RsFinishedAt i))) (Some (RsMigrationVersion i))
    (Some (RsRowCounts i)) (RsCheckedObjectCount i) 0 0 true (Some (RsRTOSeconds i))
    (Some (RsReportSHA256 i)) "" "".

(** ** The table *)

(** The function [happylearn_valid_restore_row_counts]. *)
Definition validStoredRowCounts (counts : Counts) : bool :=
  forallb (fun '(table, count) =>
    member allowedRestoreRowCountTables table && (0 <=? count) && (count <=? maxInt64))
    (map_to_list counts).

(** The CHECK constraints of [restore_verifications]. *)
Definition restoreRowCheck (v : RestoreVerification) : bool :=
  let ended := bool_decide (RvState v = RestoreSucceeded) || bool_decide (RvState v = RestoreFailed) in
  negb (match RvState v with OtherRestore _ => true | _ => false end)
  && (0 <=? CheckedObjectCount v) && (0 <=? MissingObjectCount v) && (0 <=? UnexpectedObjectCount v)
  && match RTOSeconds v with Some s => 0 <=? s | None => true end
  && match RestoredMigrationVersion v with Some s => 1 <=? s | None => true end
  && match ReportSHA256 v with Some b => Z.of_nat (length b) =? 32 | None => true end
  && match DatabaseRowCounts v with Some c => validStoredRowCounts c | None => false end
  && Bool.eqb ended (negb (bool_decide (RvFinishedAt v = None)))
  && Bool.eqb (bool_decide (RvState v = RestoreQueued)) (bool_decide (RvStartedAt v = None))
  && match RvStartedAt v, RvFinishedAt v with
     | Some s, Some f => negb (Before f s)
     | _, _ => true
     end
  && (negb (bool_decide (RvState v = RestoreSucceeded))
      || (SessionRevocationVerified v && (MissingObjectCount v =? 0)
          && negb (bool_decide (RestoredMigrationVersion v = None))
          && negb (bool_decide (ReportSHA256 v = None))
          && negb (bool_decide (RTOSeconds v = None))
          && negb (bool_decide (DatabaseRowCounts v = Some ∅)))).

(** [decodeRestoreRowCounts] on the stored column. *)
Definition decodeRestoreRowCounts (raw : option Counts) : option Counts :=
  match raw with
  | None => None
  | Some m => if forallb (fun '(table, count) =>
                   member allowedRestoreRowCountTables table && (0 <=? count)) (map_to_list m)
              then Some m else None
  end.

Definition sameRestoreVerification (l r : RestoreVerification) : bool :=
  (RvID l =? RvID r)%N && (RvRunID l =? RvRunID r)%N && bool_decide (RvState l = RvState r)
  && match RvStartedAt l, RvStartedAt r, RvFinishedAt l, RvFinishedAt r with
     | Some ls, Some rs, Some lf, Some rf => Sub lf ls =? Sub rf rs
     | _, _, _, _ => false
     end
  && match RestoredMigrationVersion l, RestoredMigrationVersion r with
     | Some a, Some b => a =? b
     | _, _ => false
     end
  && bool_decide (or_zero ∅ (DatabaseRowCounts l) = or_zero ∅ (DatabaseRowCounts r))
  && (CheckedObjectCount l =? CheckedObjectCount r)
  && (MissingObjectCount l =? MissingObjectCount r)
  && (UnexpectedObjectCount l =? UnexpectedObjectCount r)
  && Bool.eqb (SessionRevocationVerified l) (SessionRevocationVerified r)
  && match RTOSeconds l, RTOSeconds r with Some a, Some b => a =? b | _, _ => false end
  && bool_decide (or_zero [] (ReportSHA256 l) = or_zero [] (ReportSHA256 r))
  && bool_decide (RvErrorCategory l = RvErrorCategory r)
  && bool_decide (RvErrorTraceID l = RvErrorTraceID r).

Definition setRestores (m : gmap N RestoreVerification) (db : BackupDB) : BackupDB :=
  MkBackupDB (runs db) (artifacts db) (audits db) (users db) m.

Section Restore.
Context `{PgTime}.

(** The row of an insert, as it is scanned back. *)
Definition storedVerification (i : RestoreSuccessInput) : RestoreVerification :=
  let v := restoreVerificationFromSuccessInput i in
  MkVerification (RvID v) (RvRunID v) (RvState v) (pgo (RvStartedAt v)) (pgo (RvFinishedAt v))
    (RestoredMigrationVersion v) (DatabaseRowCounts v) (CheckedObjectCount v)
    (MissingObjectCount v) (UnexpectedObjectCount v) (SessionRevocationVerified v)
    (RTOSeconds v) (ReportSHA256 v) (RvErrorCategory v) (RvErrorTraceID v).

Definition scanRestoreVerification (v : RestoreVerification) : option RestoreVerification :=
  match decodeRestoreRowCounts (DatabaseRowCounts v) with
  | None => None
  | Some counts =>
    Some (MkVerification (RvID v) (RvRunID v) (RvState v) (cloneTime (RvStartedAt v))
            (cloneTime (RvFinishedAt v)) (RestoredMigrationVersion v) (Some counts)
            (CheckedObjectCount v) (MissingObjectCount v) (UnexpectedObjectCount v)
            (SessionRevocationVerified v) (RTOSeconds v) (ReportSHA256 v) (RvErrorCategory v)
            (RvErrorTraceID v))
  end.

(** The checks of the row precede the conflict on its key. *)
Definition recordRestoreBody (i : RestoreSuccessInput) : DB BackupDB BackupError RestoreVerification :=
  (call ErrUnavailable;
   do db <- dget;
   match runs db !! RsRunID i with
   | None => dfail ErrInvalid
   | Some run =>
     guard (bool_decide (RunState_ run = StateSucceeded) || bool_decide (RunState_ run = StateDegraded))
           && bool_decide (or_zero [] (ManifestSHA256 run) = RsManifestSHA256 i) else ErrInvalid;
     call ErrUnavailable;
     guard restoreRowCheck (storedVerification i) else ErrUnavailable;
     let expected := restoreVerificationFromSuccessInput i in
     match restores db !! RsVerificationID i with
     | None =>
       do _ <- dput (setRestores (<[RsVerificationID i := storedVerification i]> (restores db)) db);
       dret expected
     | Some row =>
       call ErrUnavailable;
       match scanRestoreVerification row with
       | None => dfail ErrUnavailable
       | Some existing =>
         guard sameRestoreVerification existing expected else ErrInvalid;
         dret existing
       end
     end
   end)%db.

Definition RecordRestoreSuccess (i : RestoreSuccessInput) :
  DB BackupDB BackupError RestoreVerification :=
  match validateRestoreSuccessInput i with
  | Err _ => dfail ErrInvalid
  | Ok _ => transact ErrUnavailable ErrUnavailable (recordRestoreBody i)
  end.

(** ** Get *)

(** [ORDER BY started_at DESC NULLS LAST,id DESC]. *)
Definition orderVerifications (l : list RestoreVerification) : list RestoreVerification :=
  let started v := negb (bool_decide (RvStartedAt v = None)) in
  orderDesc (fun v => (or_zero 0 (ns <$> RvStartedAt v), Z.of_N (RvID v))) (List.filter started l)
  ++ orderDesc (fun v => (0, Z.of_N (RvID v))) (List.filter (fun v => negb (started v)) l).

Definition verificationsOf (db : BackupDB) (id : UUID) : list RestoreVerification :=
  orderVerifications (List.filter (fun v => (RvRunID v =? id)%N) (snd <$> map_to_list (restores db))).

Definition scannedArtifact (a : Artifact) : Artifact :=
  MkArtifact (BackupRunID a) NilUUID 0 (ArtKind a) (ArtRepository a) (SnapshotID a) (SHA256 a)
    (SizeBytes a) (UTC (VerifiedAt a)) (UTC (ExpiresAt a)).

Definition Get (id : UUID) : DB BackupDB BackupError RunDetail :=
  (fail if (id =? NilUUID)%N with ErrNotFound;
   call ErrUnavailable;
   do db <- dget;
   match runs db !! id with
   | None => dfail ErrNotFound
   | Some run =>
     call ErrUnavailable;
     do db <- dget;
     let arts := scannedArtifact <$> sortArtifacts
       (List.filter (fun a => (BackupRunID a =? id)%N) (artifacts db)) in
     call ErrUnavailable;
     do db <- dget;
     match mapM scanRestoreVerification (verificationsOf db id) with
     | None => dfail ErrUnavailable
     | Some vs => dret (MkDetail run arts vs)
     end
   end)%db.

(** ** List *)
Definition runCursor (c : Cursor) : option (Z * Z) :=
  if CursorIsZero c then None
  else Some (stored (ns (CurRequestedAt c)), Z.of_N (CurID c)).

Definition invalidFilter (f : Filter) : bool :=
  (Limit f <? 1) || (100 <? Limit f)
  || negb (Bool.eqb (IsZero (CurRequestedAt (Before_ f))) (CurID (Before_ f) =? NilUUID)%N).

Definition List_ (f : Filter) : DB BackupDB BackupError (list RunSummary * Cursor) :=
  (fail if invalidFilter f with ErrInvalid;
   call ErrUnavailable;
   do db <- dget;
   let limit := Z.to_nat (Limit f) in
   let items := take (S limit)
     (List.filter (beforeCursor runOrder (runCursor (Before_ f)))
        (orderDesc runOrder (snd <$> map_to_list (runs db)))) in
   if (limit <? length items)%nat
   then let items := take limit items in
        dret (Summary <$> items,
              match last items with
              | Some r => MkCursor (RequestedAt r) (RunID r)
              | None => zeroCursor
              end)
   else dret (Summary <$> items, zeroCursor))%db.

(** ** Facts *)
Lemma collectRowCounts_Some input tables counts total out :
  collectRowCounts input tables counts total = Some out ->
  Forall (fun table => exists v, input !! table = Some v /\ 0 <= v) tables /\
  (0 <= total <= maxInt64 -> total <= snd out <= maxInt64 /\
     Forall (fun table => forall v, input !! table = Some v -> v <= snd out) tables).
Proof.
  revert counts total. induction tables as [|t tables IH]; intros counts total; simpl.
  { intros [= <-]. simpl. split; [constructor|]. intros ?. split; [lia|constructor]. }
  destruct (input !! t) as [v|] eqn:Hv; [|done].
  destruct (_ || _) eqn:G; [done|]. bool_simpl. intros Hc. apply IH in Hc as [Hall Htot].
  split; [constructor; [exists v; split; [done|lia]|done]|]. intros Ht.
  destruct Htot as [Hr Hle]; [lia|]. split; [lia|]. constructor; [|done].
  intros w Hw. assert (w = v) by congruence. lia.
Qed.

Lemma allowlist_NoDup : NoDup restoreRowCountAllowlist.
Proof. apply (bool_decide_unpack _). vm_compute. exact I. Qed.

(** Accepted row counts are for exactly the listed tables. *)
Lemma rowCounts_domain input out :
  validateRestoreExerciseRowCounts input = Some out ->
  (forall t, is_Some (input !! t) <-> t ∈ restoreRowCountAllowlist) /\
  forall t v, input !! t = Some v -> 0 <= v <= maxInt64.
Proof.
  unfold validateRestoreExerciseRowCounts. destruct (size input =? _)%nat eqn:Hsz; [|done].
  apply Nat.eqb_eq in Hsz. simpl negb. intros Hc. apply collectRowCounts_Some in Hc as [Hall Htot].
  destruct Htot as [Hr Hle]; [unfold maxInt64; lia|]. rewrite !Forall_forall in *.
  assert (Hdom : dom input = list_to_set (C := gset string) restoreRowCountAllowlist).
  { symmetry. apply leibniz_equiv, set_subseteq_size_equiv.
    - intros t. rewrite elem_of_list_to_set. intros Ht. apply elem_of_dom.
      destruct (Hall t Ht) as (v & Hv & _). eauto.
    - rewrite size_dom, size_list_to_set, Hsz by apply allowlist_NoDup. done. }
  assert (Hin : forall t, is_Some (input !! t) <-> t ∈ restoreRowCountAllowlist).
  { intros t. by rewrite <- elem_of_dom, Hdom, elem_of_list_to_set. }
  split; [done|]. intros t v Hv.
  assert (Ht : t ∈ restoreRowCountAllowlist) by (apply Hin; eauto).
  destruct (Hall t Ht) as (w & Hw & ?). specialize (Hle t Ht v Hv). simplify_eq. lia.
Qed.

Lemma validateRestore_Ok i :
  validateRestoreSuccessInput i = Ok tt ->
  (forall t, is_Some (RsRowCounts i !! t) <-> t ∈ restoreRowCountAllowlist) /\
  (forall t v, RsRowCounts i !! t = Some v -> 0 <= v <= maxInt64) /\
  RsVerificationID i <> NilUUID /\ RsRunID i <> NilUUID /\
  0 <= RsRTOSeconds i < restoreExerciseRTOLimit /\
  ns (RsFinishedAt i) = ns (RsStartedAt i) + RsRTOSeconds i * second /\
  1 <= RsMigrationVersion i /\ 0 <= RsCheckedObjectCount i /\
  Z.of_nat (length (RsReportSHA256 i)) = 32.
Proof.
  unfold validateRestoreSuccessInput.
  destruct (validateRestoreExerciseRowCounts _) as [[counts total]|] eqn:Hc; [|done].
  apply rowCounts_domain in Hc as [Hdom Hval].
  destruct (_ || _) eqn:G; [done|].
  destruct (Sub _ _ =? _) eqn:Hd; cbn [negb]; [|discriminate]. intros _. bool_simpl.
  split_and!; try done; try lia; try (by apply N.eqb_neq).
  enough (ns (RsFinishedAt i) - ns (RsStartedAt i) = RsRTOSeconds i * second) by lia.
  apply Sub_eq_iff; [|lia]. unfold minDuration, maxDuration, second, millisecond, microsecond,
    restoreExerciseRTOLimit in *. lia.
Qed.

Lemma allowlist_member t : member allowedRestoreRowCountTables t = true <-> t ∈ restoreRowCountAllowlist.
Proof. apply member_In. Qed.

Lemma storedVerification_check i :
  validateRestoreSuccessInput i = Ok tt -> restoreRowCheck (storedVerification i) = true.
Proof.
  intros Hi. destruct (validateRestore_Ok _ Hi) as (Hdom & Hval & _ & _ & Hrto & Hfin & Hm & Hc & Hr).
  unfold restoreRowCheck, storedVerification. simpl.
  assert (Hne : RsRowCounts i <> ∅).
  { intros E. assert (Hu : is_Some (RsRowCounts i !! "users")) by (apply Hdom; left).
    rewrite E, lookup_empty in Hu. by destruct Hu. }
  rewrite Hr, bool_decide_eq_false_2 by congruence. simpl.
  assert (validStoredRowCounts (RsRowCounts i) = true) as ->.
  { unfold validStoredRowCounts. apply forallb_forall. intros [t v] Hin.
    apply list_elem_of_In, elem_of_map_to_list in Hin. specialize (Hval _ _ Hin).
    assert (t ∈ restoreRowCountAllowlist) as Ht by (apply Hdom; eauto).
    apply allowlist_member in Ht. rewrite Ht. simpl. apply andb_true_iff.
    split; apply Z.leb_le; lia. }
  assert (Before (pg (UTC (RsFinishedAt i))) (pg (UTC (RsStartedAt i))) = false) as ->.
  { apply Before_false. simpl. apply stored_mono. rewrite Hfin. unfold second, millisecond, microsecond.
    lia. }
  repeat (apply andb_true_iff; split); try done; apply Z.leb_le; lia.
Qed.

Lemma recordRestoreBody_Ok i env n db st v :
  recordRestoreBody i env (n, db) = (st, Ok v) ->
  exists run, runs db !! RsRunID i = Some run /\
    (RunState_ run = StateSucceeded \/ RunState_ run = StateDegraded) /\
    or_zero [] (ManifestSHA256 run) = RsManifestSHA256 i /\
    match restores db !! RsVerificationID i with
    | None => snd st = setRestores (<[RsVerificationID i := storedVerification i]> (restores db)) db
    | Some row => snd st = db /\ scanRestoreVerification row = Some v /\
        sameRestoreVerification v (restoreVerificationFromSuccessInput i) = true
    end.
Proof.
  intros Hrun. unfold recordRestoreBody in Hrun. db_inv.
  destruct (runs _ !! RsRunID i) as [run|] eqn:Hr; db_inv.
  destruct (_ && _) eqn:G in *; db_inv. bool_simpl.
  destruct (restoreRowCheck _) in *; db_inv.
  match goal with Ho : _ || _ = true |- _ => apply orb_true_iff in Ho end. exists run.
  split; [done|]. split; [by rewrite !bool_decide_eq_true in *|]. split; [done|].
  destruct (restores _ !! _) as [row|] eqn:Hv; db_inv; [|done].
  destruct (scanRestoreVerification row) as [ex|] eqn:Hs; db_inv.
  destruct (sameRestoreVerification _ _) eqn:Hsame in *; db_inv. done.
Qed.

(** ** The evidence invariant *)

(** What a recorded verification vouches for. *)
Record evidence (db : BackupDB) (v : RestoreVerification) : Prop := {
  ev_state : RvState v = RestoreSucceeded;
  ev_run : exists run, runs db !! RvRunID v = Some run /\
    (RunState_ run = StateSucceeded \/ RunState_ run = StateDegraded);
  ev_check : restoreRowCheck v = true;
  ev_clean : MissingObjectCount v = 0 /\ UnexpectedObjectCount v = 0 /\
    SessionRevocationVerified v = true;
  ev_counts : exists counts, DatabaseRowCounts v = Some counts /\
    forall t, is_Some (counts !! t) <-> t ∈ restoreRowCountAllowlist;
  ev_rto : exists rto started finished, RTOSeconds v = Some rto /\
    0 <= rto < restoreExerciseRTOLimit /\ RvStartedAt v = Some started /\
    RvFinishedAt v = Some finished /\ ns finished - ns started = rto * second
}.

Definition evidenceWf (db : BackupDB) : Prop :=
  forall k v, restores db !! k = Some v -> RvID v = k /\ evidence db v.

Inductive restoreStep (db db' : BackupDB) : Prop :=
| StepBackup : backupStep db db' -> restoreStep db db'
| StepRecord i env n n' r :
    RecordRestoreSuccess i env (n, db) = ((n', db'), r) -> restoreStep db db'.

Lemma backupStep_restores db db' : backupStep db db' -> restores db' = restores db.
Proof.
  intros [i env n n' r Hs|runID owner lease env n n' r Hs|runID owner g lease env n n' r Hs
         |i env n n' r Hs|a env n n' r Hs].
  - unfold Create in Hs. destruct (validateCreate i); [|by injection Hs as <- <-].
    apply transact_outcome in Hs as [E|(n1 & x & Hb)]; [by simpl in E; rewrite E|].
    apply createBody_Ok in Hb as [(_ & E)|(_ & _ & _ & _ & _ & E)]; simpl in E; by rewrite E.
  - unfold claim in Hs. destruct (_ || _) in Hs; [by injection Hs as <- <-|].
    unfold dbind, roundtrip in Hs. destruct (fault env n); [by injection Hs as <- <-|].
    apply reconciling_outcome in Hs as [E|(n1 & x & Hb)];
      [by simpl in E; rewrite E| |apply reconcileClaim_state].
    unfold claimBody in Hb. db_inv. repeat (case_match; db_inv);
      match goal with Hu : updateRun _ _ _ = _ |- _ => apply updateRun_Ok in Hu as (_ & E & _) end;
      by injection E as -> ->.
  - unfold Renew in Hs. destruct (_ || _) in Hs; [by injection Hs as <- <-|].
    apply transact_outcome in Hs as [E|(n1 & x & Hb)]; [by simpl in E; rewrite E|].
    apply renewBody_Ok in Hb as (cur & now & _ & _ & _ & _ & _ & _ & E). simpl in E. by rewrite E.
  - unfold Transition in Hs. destruct (checkTransition i); [|by injection Hs as <- <-].
    unfold dbind, roundtrip in Hs. destruct (fault env n); [by injection Hs as <- <-|].
    apply reconciling_outcome in Hs as [E|(n1 & x & Hb)];
      [by simpl in E; rewrite E| |apply reconcileTransition_state].
    apply transitionBody_Ok in Hb as (cur & now & _ & _ & _ & _ & _ & _ & E). simpl in E. by rewrite E.
  - unfold AddArtifact in Hs. destruct (validateArtifact a); [|by injection Hs as <- <-].
    apply transact_outcome in Hs as [E|(n1 & x & Hb)]; [by simpl in E; rewrite E|].
    apply addArtifactBody_Ok in Hb as (cur & now & _ & _ & _ & Hcase). simpl in Hcase.
    destruct (findArtifact db _); [by destruct Hcase as [_ ->]|by rewrite Hcase].
Qed.

(** A terminal run stays as it is. *)
Lemma backupStep_terminal db db' k r :
  backupWf db -> backupStep db db' -> runs db !! k = Some r -> terminal (RunState_ r) = true ->
  runs db' !! k = Some r.
Proof.
  intros Hwf Hs Hk Ht. destruct (backupStep_runs _ _ Hwf Hs)
    as [->|[(i & Hn & ->)|(cur & r' & Hc & Hadv & ->)]]; [done| |].
  - rewrite lookup_insert_ne by congruence. done.
  - rewrite lookup_insert. case_decide as Hid; [|done]. subst k.
    rewrite Hc in Hk. injection Hk as ->. by rewrite (adv_terminal _ _ Hadv Ht).
Qed.

Lemma storedVerification_evidence db i run :
  validateRestoreSuccessInput i = Ok tt -> runs db !! RsRunID i = Some run ->
  RunState_ run = StateSucceeded \/ RunState_ run = StateDegraded ->
  evidence db (storedVerification i).
Proof.
  intros Hi Hr Hs. pose proof (storedVerification_check _ Hi) as Hck.
  destruct (validateRestore_Ok _ Hi) as (Hdom & _ & _ & _ & Hrto & Hfin & _).
  constructor; simpl; eauto.
  exists (RsRTOSeconds i), (pg (UTC (RsStartedAt i))), (pg (UTC (RsFinishedAt i))).
  split_and!; try done; try lia. simpl. rewrite Hfin, stored_seconds. lia.
Qed.

Lemma RecordRestore_state i env n db st r :
  RecordRestoreSuccess i env (n, db) = (st, r) ->
  snd st = db \/ exists run, runs db !! RsRunID i = Some run /\
    (RunState_ run = StateSucceeded \/ RunState_ run = StateDegraded) /\
    validateRestoreSuccessInput i = Ok tt /\ restores db !! RsVerificationID i = None /\
    snd st = setRestores (<[RsVerificationID i := storedVerification i]> (restores db)) db.
Proof.
  unfold RecordRestoreSuccess. destruct (validateRestoreSuccessInput i) as [[]|] eqn:Hi;
    [|unfold dfail; intros [= <- <-]; by left].
  intros Hs. apply transact_outcome in Hs as [E|(n1 & x & Hb)]; [by left|].
  apply recordRestoreBody_Ok in Hb as (run & Hr & Hst & _ & Hcase). simpl in Hcase.
  destruct (restores db !! _) as [row|] eqn:Hv; [left; by destruct Hcase|right; eauto 10].
Qed.

Lemma restoreStep_wf db db' :
  backupWf db -> evidenceWf db -> restoreStep db db' -> backupWf db' /\ evidenceWf db'.
Proof.
  intros Hwf Hev [Hs|i env n n' r Hs].
  - split; [by eapply backupStep_wf|]. intros k v Hv. rewrite (backupStep_restores _ _ Hs) in Hv.
    destruct (Hev k v Hv) as [Hid [Hst (run & Hr & Hok) ? ? ? ?]]. split; [done|].
    constructor; try done. exists run. split; [|done].
    eapply backupStep_terminal; try done. by destruct Hok as [-> | ->].
  - apply RecordRestore_state in Hs as [E|(run & Hr & Hst & Hi & Hn & E)]; simpl in E; subst db'; [done|].
    split; [destruct Hwf; constructor; done|]. intros k v. simpl. rewrite lookup_insert.
    case_decide; [intros [= <-]; subst|].
    + split; [done|]. by eapply storedVerification_evidence.
    + intros Hv. destruct (Hev k v Hv) as [Hid [? ? ? ? ? ?]]. split; [done|]. by constructor.
Qed.

(** Restore evidence can be trusted, in every reachable state and whatever
    fails: a recorded verification belongs to a run that succeeded or degraded
    and stays so; it counts exactly the allow-listed tables, found no missing or
    unexpected object, verified the session revocation, and took from its start
    to its end exactly the recorded number of seconds, below four hours. *)
Theorem restore_evidence_invariant (db : BackupDB) :
  reachable (fun db => freshBackup db /\ restores db = ∅) restoreStep db ->
  backupWf db /\ evidenceWf db.
Proof.
  revert db. apply reachable_invariant.
  - intros db [Hf Hr]. split; [by apply freshBackup_wf|]. intros k v. by rewrite Hr, lookup_empty.
  - intros db db' [Hwf Hev] Hs. by apply (restoreStep_wf db).
Qed.

(** ** Reading the evidence back *)
Lemma validateRestore_manifest i :
  validateRestoreSuccessInput i = Ok tt -> Z.of_nat (length (RsManifestSHA256 i)) = 32.
Proof.
  unfold validateRestoreSuccessInput. destruct (validateRestoreExerciseRowCounts _) as [[]|]; [|done].
  destruct (_ || _) eqn:G; [done|]. intros _. bool_simpl. lia.
Qed.

Lemma decode_check v :
  restoreRowCheck v = true -> decodeRestoreRowCounts (DatabaseRowCounts v) = DatabaseRowCounts v.
Proof.
  unfold restoreRowCheck. intros Hc. bool_simpl. unfold decodeRestoreRowCounts.
  destruct (DatabaseRowCounts v) as [c|]; [|done].
  assert (forallb (fun '(t, n) => member allowedRestoreRowCountTables t && (0 <=? n))
            (map_to_list c) = true) as ->; [|done].
  match goal with Hv : validStoredRowCounts c = true |- _ =>
    unfold validStoredRowCounts in Hv; rewrite forallb_forall in Hv; rename Hv into Hall end.
  apply forallb_forall. intros [t n] Hin. specialize (Hall _ Hin). simpl in Hall. bool_simpl.
  apply andb_true_iff. split; [done|by apply Z.leb_le].
Qed.

Lemma scan_evidence db v :
  evidence db v -> exists w, scanRestoreVerification v = Some w /\ RvID w = RvID v.
Proof.
  intros Hev. unfold scanRestoreVerification. rewrite (decode_check _ (ev_check _ _ Hev)).
  destruct (ev_counts _ _ Hev) as (c & -> & _). eauto.
Qed.

Lemma stored_same i :
  validateRestoreSuccessInput i = Ok tt ->
  exists w, scanRestoreVerification (storedVerification i) = Some w /\
    sameRestoreVerification w (restoreVerificationFromSuccessInput i) = true.
Proof.
  intros Hi. unfold scanRestoreVerification. rewrite (decode_check _ (storedVerification_check _ Hi)).
  eexists. split; [done|]. unfold sameRestoreVerification. simpl.
  destruct (validateRestore_Ok _ Hi) as (_ & _ & _ & _ & Hrto & Hfin & _).
  assert (Hsub : forall a b, ns a - ns b = RsRTOSeconds i * second -> Sub a b = RsRTOSeconds i * second).
  { intros a b Hab. apply Sub_eq_iff; [|done]. unfold minDuration, maxDuration, second, millisecond,
      microsecond, restoreExerciseRTOLimit in *. lia. }
  rewrite !Hsub; [|simpl; lia|simpl; rewrite Hfin, stored_seconds; lia].
  rewrite !N.eqb_refl, !Z.eqb_refl, !bool_decide_eq_true_2 by done. done.
Qed.

Lemma record_again i env n db run row w :
  validateRestoreSuccessInput i = Ok tt -> runs db !! RsRunID i = Some run ->
  RunState_ run = StateSucceeded \/ RunState_ run = StateDegraded ->
  or_zero [] (ManifestSHA256 run) = RsManifestSHA256 i ->
  restores db !! RsVerificationID i = Some row -> scanRestoreVerification row = Some w ->
  sameRestoreVerification w (restoreVerificationFromSuccessInput i) = true -> quiet env ->
  exists st, RecordRestoreSuccess i env (n, db) = (st, Ok w) /\ snd st = db.
Proof.
  intros Hi Hr Hs Hm Hrow Hw Hsame Hq. unfold RecordRestoreSuccess.
  rewrite Hi, transact_quiet by done. unfold recordRestoreBody.
  rewrite call_run, dget_run, Hr by apply Hq.
  assert (bool_decide (RunState_ run = StateSucceeded) || bool_decide (RunState_ run = StateDegraded)
    = true) as -> by (apply orb_true_iff; by rewrite !bool_decide_eq_true).
  rewrite bool_decide_eq_true_2 by done. cbn [andb].
  rewrite call_run by apply Hq. rewrite storedVerification_check by done.
  rewrite Hrow, call_run, Hw, Hsame by apply Hq. eexists. split; [done|]. done.
Qed.

Lemma orderVerifications_perm l : orderVerifications l ≡ₚ l.
Proof.
  unfold orderVerifications. rewrite !orderDesc_perm.
  induction l as [|v l IH]; [done|]. simpl.
  destruct (bool_decide (RvStartedAt v = None)); simpl.
  - by rewrite <- Permutation_middle, IH.
  - by rewrite IH.
Qed.

Lemma Get_evidence db id env n row k run :
  evidenceWf db -> runs db !! id = Some run -> id <> NilUUID -> quiet env ->
  restores db !! k = Some row -> RvRunID row = id ->
  exists st d w, Get id env (n, db) = (st, Ok d) /\ snd st = db /\
    w ∈ DetailVerifications d /\ scanRestoreVerification row = Some w.
Proof.
  intros Hev Hr Hid Hq Hk Hrun. unfold Get. rewrite (proj2 (N.eqb_neq _ _) Hid).
  rewrite call_run, dget_run, Hr, call_run, dget_run, call_run, dget_run by apply Hq.
  assert (Hin : forall v, v ∈ verificationsOf db id <-> exists k, restores db !! k = Some v /\ RvRunID v = id).
  { intros v. unfold verificationsOf. rewrite orderVerifications_perm.
    rewrite list_elem_of_In, filter_In, <- list_elem_of_In, list_elem_of_fmap, N.eqb_eq. split.
    - intros [([k' v'] & -> & Hv%elem_of_map_to_list) E]. eauto.
    - intros (k' & Hv & E). split; [|done]. exists (k', v). split; [done|]. by apply elem_of_map_to_list. }
  destruct (mapM scanRestoreVerification (verificationsOf db id)) as [vs|] eqn:Hm.
  - apply mapM_Some in Hm. assert (Hrow : row ∈ verificationsOf db id) by (apply Hin; eauto).
    apply list_elem_of_lookup in Hrow as [j Hj].
    destruct (Forall2_lookup_l _ _ _ _ _ Hm Hj) as (w & Hw & Hscan).
    eexists _, _, w. split_and!; [done|done| |done]. simpl. by eapply list_elem_of_lookup_2.
  - exfalso. apply eq_None_not_Some in Hm. apply Hm, mapM_is_Some, Forall_forall.
    intros v Hv. apply Hin in Hv as (k' & Hv & _). destruct (Hev _ _ Hv) as [_ He].
    destruct (scan_evidence _ _ He) as (w & Hw & _). simpl. eauto.
Qed.

(** Recording a restore is exact and idempotent.  A successful record is
    for a succeeded or degraded run with the very manifest that was restored; it
    adds one row, or finds an equal one under the same identifier and writes
    nothing.  Repeating the request then succeeds without a further change, and
    [Get] of the run reads the evidence back. *)
Theorem RecordRestoreSuccess_exact i env n db st v :
  backupWf db -> evidenceWf db -> RecordRestoreSuccess i env (n, db) = (st, Ok v) ->
  (exists run, runs db !! RsRunID i = Some run /\
     (RunState_ run = StateSucceeded \/ RunState_ run = StateDegraded) /\
     ManifestSHA256 run = Some (RsManifestSHA256 i)) /\
  (snd st = db /\ is_Some (restores db !! RsVerificationID i) \/
   restores db !! RsVerificationID i = None /\
   snd st = setRestores (<[RsVerificationID i := storedVerification i]> (restores db)) db) /\
  (forall env' n', quiet env' ->
     exists st' v', RecordRestoreSuccess i env' (n', snd st) = (st', Ok v') /\ snd st' = snd st) /\
  (forall env' n', quiet env' ->
     exists st' d w, Get (RsRunID i) env' (n', snd st) = (st', Ok d) /\
       w ∈ DetailVerifications d /\ RvID w = RsVerificationID i /\
       sameRestoreVerification w (restoreVerificationFromSuccessInput i) = true).
Proof.
  intros Hwf Hev Hrun.
  assert (Hwf' : evidenceWf (snd st)).
  { destruct st as [n' db']. eapply restoreStep_wf; [exact Hwf|exact Hev|by eapply StepRecord]. }
  unfold RecordRestoreSuccess in Hrun. destruct (validateRestoreSuccessInput i) as [[]|] eqn:Hi; [|done].
  apply transact_Ok in Hrun as [n1 Hb].
  apply recordRestoreBody_Ok in Hb as (run & Hr & Hst & Hm & Hcase). simpl in Hcase.
  assert (Hrow : exists row w, restores (snd st) !! RsVerificationID i = Some row /\
    runs (snd st) = runs db /\ scanRestoreVerification row = Some w /\ RvRunID row = RsRunID i /\
    RvID w = RsVerificationID i /\
    sameRestoreVerification w (restoreVerificationFromSuccessInput i) = true).
  { destruct (restores db !! RsVerificationID i) as [row|] eqn:Hrow.
    - destruct Hcase as (-> & Hscan & Hsame). exists row, v.
      pose proof Hscan as Hscan'. unfold scanRestoreVerification in Hscan'.
      destruct (decodeRestoreRowCounts _); [|done]. injection Hscan' as Hv.
      assert (Hids : RvID row = RvID v /\ RvRunID row = RvRunID v) by (by subst v).
      pose proof Hsame as Hs. unfold sameRestoreVerification in Hs. bool_simpl.
      repeat match goal with Hx : (_ =? _)%N = true |- _ => apply N.eqb_eq in Hx end. simpl in *.
      split_and!; try done; destruct Hids; congruence.
    - rewrite Hcase. destruct (stored_same _ Hi) as (w & Hw & Hsame).
      exists (storedVerification i), w. simpl. rewrite lookup_insert_eq. split_and!; try done.
      unfold sameRestoreVerification in Hsame. bool_simpl. by apply N.eqb_eq. }
  destruct Hrow as (row & w & Hrow & Hruns & Hw & Hrid & Hwid & Hsame). split_and!.
  - exists run. split_and!; try done. destruct (ManifestSHA256 run) as [m|]; simpl in Hm; [by subst|].
    apply validateRestore_manifest in Hi. by rewrite <- Hm in Hi.
  - destruct (restores db !! RsVerificationID i); [left|right]; naive_solver.
  - intros env' n' Hq. destruct (record_again i env' n' (snd st) run row w) as (st' & Hst' & ?);
      rewrite ?Hruns; eauto.
  - intros env' n' Hq. destruct (validateRestore_Ok _ Hi) as (_ & _ & _ & Hnil & _).
    destruct (Get_evidence (snd st) (RsRunID i) env' n' row (RsVerificationID i) run)
      as (st' & d & w' & Hget & _ & Hin & Hw'); rewrite ?Hruns; try done.
    assert (w' = w) as -> by congruence. eauto 10.
Qed.

(** ** Walking the list *)
Definition allRuns (db : BackupDB) : list Run := snd <$> map_to_list (runs db).

(** A client that follows the cursors until it gets the zero one. *)
Fixpoint followRuns (fuel : nat) (f : Filter) (env : Env) (db : BackupDB) :
  result BackupError (list RunSummary) :=
  match fuel with
  | O => Ok []
  | S fuel' =>
    (let* page := value (List_ f) env db in
     if CursorIsZero (snd page) then Ok (fst page)
     else let* rest := followRuns fuel' (MkFilter (snd page) (Limit f)) env db in
          Ok (fst page ++ rest))%go
  end.

(** Request times as the column keeps them. *)
Definition datedRuns (db : BackupDB) : Prop :=
  forall k r, runs db !! k = Some r -> RunID r = k /\ k <> NilUUID /\
    IsZero (RequestedAt r) = false /\ stored (ns (RequestedAt r)) = ns (RequestedAt r).

Lemma allRuns_In db r : r ∈ allRuns db <-> exists k, runs db !! k = Some r.
Proof.
  unfold allRuns. rewrite list_elem_of_fmap. split.
  - intros ([k r'] & -> & Hk%elem_of_map_to_list). eauto.
  - intros (k & Hk). exists (k, r). split; [done|]. by apply elem_of_map_to_list.
Qed.

Lemma allRuns_keys db : datedRuns db -> NoDup (runOrder <$> allRuns db).
Proof.
  intros Hd. apply (NoDup_fmap_1 snd). rewrite <- list_fmap_compose.
  apply (NoDup_fmap_1 Z.to_N). rewrite <- list_fmap_compose. unfold allRuns.
  rewrite <- list_fmap_compose. rewrite (list_fmap_ext _ fst (map_to_list (runs db)));
    [apply NoDup_fst_map_to_list|]. intros j [k r] Hj. simpl. rewrite N2Z.id.
  apply list_elem_of_lookup_2, elem_of_map_to_list in Hj. by destruct (Hd k r Hj).
Qed.

Lemma page_In limit cursor (l : list Run) r :
  r ∈ fst (Keyset.page runOrder limit cursor l) -> r ∈ l.
Proof.
  assert (Hsub : forall n, r ∈ take n (List.filter (beforeCursor runOrder cursor) l) -> r ∈ l).
  { intros n Hin. apply list_elem_of_In. apply elem_of_take in Hin as (j & Hj & _).
    apply list_elem_of_lookup_2, list_elem_of_In, filter_In in Hj. by destruct Hj. }
  unfold Keyset.page. destruct (_ <? _)%nat; simpl; [|apply Hsub]. rewrite take_take. apply Hsub.
Qed.

Lemma List_page f env db :
  invalidFilter f = false -> quiet env -> datedRuns db ->
  exists next, value (List_ f) env db =
      Ok (Summary <$> fst (Keyset.page runOrder (Z.to_nat (Limit f)) (runCursor (Before_ f))
                             (orderDesc runOrder (allRuns db))), next) /\
    runCursor next = snd (Keyset.page runOrder (Z.to_nat (Limit f)) (runCursor (Before_ f))
                            (orderDesc runOrder (allRuns db))) /\
    (CursorIsZero next = false -> invalidFilter (MkFilter next (Limit f)) = false).
Proof.
  intros Hv Hq Hd. unfold value, List_. rewrite Hv, call_run, dget_run by apply Hq.
  fold (allRuns db). unfold Keyset.page.
  set (items := take (S (Z.to_nat (Limit f))) _). cbn zeta.
  destruct (_ <? length items)%nat eqn:Hlt; simpl; [|exists zeroCursor; done].
  eexists. split; [done|]. apply Nat.ltb_lt in Hlt.
  assert (Hlim : 1 <= Limit f /\ Limit f <= 100).
  { unfold invalidFilter in Hv. bool_simpl. lia. }
  destruct (last (take (Z.to_nat (Limit f)) items)) as [r|] eqn:Hlast.
  2: { apply last_None in Hlast. apply (f_equal length) in Hlast. rewrite length_take in Hlast.
       simpl in Hlast. lia. }
  assert (Hr : r ∈ allRuns db).
  { rewrite <- (orderDesc_perm runOrder). eapply (page_In (Z.to_nat (Limit f)) (runCursor (Before_ f))).
    unfold Keyset.page. fold items. apply Nat.ltb_lt in Hlt. rewrite Hlt. simpl.
    by apply last_Some_elem_of. }
  apply allRuns_In in Hr as (k & Hk). destruct (Hd _ _ Hk) as (Hid & Hnil & Hz & Hst).
  unfold runCursor, CursorIsZero, invalidFilter. simpl. rewrite Hid, Hz, Hst.
  rewrite (proj2 (N.eqb_neq _ _) Hnil). simpl. split; [unfold runOrder; by rewrite Hid|].
  intros _. destruct (Z.ltb_spec (Limit f) 1), (Z.ltb_spec 100 (Limit f)); (lia || done).
Qed.

Lemma followRuns_walk fuel f env db :
  invalidFilter f = false -> quiet env -> datedRuns db ->
  followRuns fuel f env db =
    Ok (Summary <$> walk runOrder fuel (Z.to_nat (Limit f)) (runCursor (Before_ f))
                      (orderDesc runOrder (allRuns db))).
Proof.
  revert f. induction fuel as [|fuel IH]; intros f Hv Hq Hd; [done|]. simpl.
  destruct (List_page f env db Hv Hq Hd) as (next & -> & Hnext & Hvalid). simpl.
  destruct (Keyset.page _ _ _ _) as [items c] eqn:Hpage. simpl in *. subst c.
  unfold runCursor at 1. destruct (CursorIsZero next) eqn:Hz; [done|].
  rewrite IH by auto. simpl. unfold runCursor at 1. rewrite Hz. by rewrite fmap_app.
Qed.

(** Following the cursors of [List] from the first page lists the summary
    of every run exactly once, newest request first, until the zero cursor; the
    number of pages is at most one more than the number of runs. *)
Theorem List_complete limit env db :
  1 <= limit <= 100 -> quiet env -> datedRuns db ->
  exists all, followRuns (S (length (allRuns db))) (MkFilter zeroCursor limit) env db
                = Ok (Summary <$> all) /\
    all ≡ₚ allRuns db /\ strictlyDescending runOrder all.
Proof.
  intros Hlim Hq Hd.
  assert (Hv : invalidFilter (MkFilter zeroCursor limit) = false).
  { unfold invalidFilter. simpl. destruct (Z.ltb_spec limit 1), (Z.ltb_spec 100 limit); (lia || done). }
  exists (orderDesc runOrder (allRuns db)). rewrite followRuns_walk by done. cbn [Limit Before_].
  change (runCursor zeroCursor) with (@None (Z * Z)).
  rewrite walk_complete; [|lia|by apply allRuns_keys]. split_and!; [done|apply orderDesc_perm|].
  by apply orderDesc_strict, allRuns_keys.
Qed.

End Restore.

(** ** Evaluated instances *)
Section RestoreExamples.
#[local] Existing Instance PgTruncate.

Definition exampleEvidence : RecoveryEvidence :=
  MkEvidence 27 "key-1" "snapshot-1" "" (replicate 32 7) (Some 1024) (Some 512)
    (addDuration midnight (7 * day)) None.

Definition exampleMove (from to : RunState) (evidence : option RecoveryEvidence) (db : BackupDB) :
  BackupDB :=
  exec (Transition (MkTransitionInput 11%N 21%N 1 from to midnight evidence "" "")) steadyEnv db.

Definition verifying : BackupDB :=
  exampleMove StateEncrypting StateVerifying None
    (exampleMove StateSnapshotting StateEncrypting None
       (exampleMove StateDraining StateSnapshotting None
          (exampleMove StateQueued StateDraining None claimed))).

Definition finished : BackupDB :=
  exampleMove StateVerifying StateSucceeded (Some exampleEvidence) verifying.

Definition exampleRestore : RestoreSuccessInput :=
  MkRestoreSuccess (N.shiftl 4 76 + N.shiftl 2 62 + 5)%N 11%N (replicate 32 7) midnight
    (addDuration midnight (900 * second)) 27
    (list_to_map ((fun t => (t, 10)) <$> restoreRowCountAllowlist)) 40 true 900 (replicate 32 9).

Definition restored : BackupDB := exec (RecordRestoreSuccess exampleRestore) steadyEnv finished.

Lemma exampleMove_step from to evidence db : backupStep db (exampleMove from to evidence db).
Proof.
  unfold exampleMove, exec. destruct (Transition _ steadyEnv (0%nat, db)) as [[n db'] r] eqn:E.
  by eapply StepTransition.
Qed.

Lemma record_step i db : restoreStep db (exec (RecordRestoreSuccess i) steadyEnv db).
Proof.
  unfold exec. destruct (RecordRestoreSuccess i steadyEnv (0%nat, db)) as [[n db'] r] eqn:E.
  by eapply StepRecord.
Qed.

Lemma finished_reachable : reachable (fun db => freshBackup db /\ restores db = ∅) restoreStep finished.
Proof.
  unfold finished, verifying.
  repeat (eapply reach_step; [|apply StepBackup, exampleMove_step]).
  eapply reach_step; [|apply StepBackup, claimed_step].
  eapply reach_step; [|apply StepBackup, queued_step].
  apply reach_init. split; [split; reflexivity|reflexivity].
Qed.

Lemma restored_reachable : reachable (fun db => freshBackup db /\ restores db = ∅) restoreStep restored.
Proof. eapply reach_step; [apply finished_reachable|apply record_step]. Qed.

Lemma finished_wf : backupWf finished /\ evidenceWf finished.
Proof.
  assert (Hf : restores finished = ∅) by (vm_compute; reflexivity).
  split; [|intros k v; by rewrite Hf, lookup_empty]. unfold finished, verifying.
  repeat (eapply backupStep_wf; [|apply exampleMove_step]). apply claimed_wf.
Qed.

Lemma restore_evidence_invariant_witness :
  evidenceWf restored /\ size (restores restored) = 1%nat.
Proof.
  split; [|vm_compute; reflexivity]. exact (proj2 (restore_evidence_invariant restored restored_reachable)).
Defined.

Lemma RecordRestoreSuccess_exact_witness :
  exists st v, RecordRestoreSuccess exampleRestore steadyEnv (0%nat, finished) = (st, Ok v) /\
    exists st' d w, Get 11%N steadyEnv (0%nat, snd st) = (st', Ok d) /\
      w ∈ DetailVerifications d /\ RvID w = RsVerificationID exampleRestore.
Proof.
  destruct (RecordRestoreSuccess exampleRestore steadyEnv (0%nat, finished)) as [st x] eqn:E.
  destruct x as [v|]; [|vm_compute in E; discriminate E].
  exists st, v. split; [reflexivity|].
  destruct (RecordRestoreSuccess_exact exampleRestore steadyEnv 0 finished st v
    (proj1 finished_wf) (proj2 finished_wf) E) as (_ & _ & _ & Hget).
  destruct (Hget steadyEnv 0%nat (fun n => eq_refl)) as (st' & d & w & Hg & Hin & Hid & _).
  exists st', d, w. split_and!; [exact Hg|exact Hin|exact Hid].
Defined.

Lemma List_complete_witness :
  exists all, followRuns 2 (MkFilter zeroCursor 1) steadyEnv finished = Ok (Summary <$> all) /\
    all ≡ₚ allRuns finished.
Proof.
  assert (Hlen : length (allRuns finished) = 1%nat) by (vm_compute; reflexivity).
  destruct (List_complete 1 steadyEnv finished) as (all & Hall & Hp & _).
  - lia.
  - intros n. reflexivity.
  - intros k r Hk.
    assert (Hall : forallb (fun '(k, r) => (RunID r =? k)%N && negb (k =? NilUUID)%N
      && negb (IsZero (RequestedAt r)) && (stored (ns (RequestedAt r)) =? ns (RequestedAt r)))
      (map_to_list (runs finished)) = true) by (vm_compute; reflexivity).
    rewrite forallb_forall in Hall. specialize (Hall (k, r) (proj1 (list_elem_of_In _ _)
      (proj2 (elem_of_map_to_list _ _ _) Hk))). simpl in Hall. bool_simpl.
    split_and!; [by apply N.eqb_eq|by apply N.eqb_neq|done|done].
  - rewrite Hlen in Hall. exists all. split; [exact Hall|exact Hp].
Defined.

End RestoreExamples.
