(* ===== verification/BackupService.v ===== *)
(** * The backup service ([internal/backup/service.go])

    The service validates its inputs, fills in defaults and hands them to a
    store.  The store is an interface, [BackupOps], as it is in the code; what
    the service's theorems need of it is [BackupLaws], which the PostgreSQL store
    of [BackupStore] and [BackupRestore] satisfies. *)

From stdpp Require Import base tactics list gmap strings.
From Stdlib Require Import ZArith Lia.
From S2P Require Import Prelude GoTime GoText Pg OpsModel BackupModel BackupStore BackupProofs BackupRetention BackupRestore.
Import Backup.

Open Scope Z_scope.

(** ** The store interface ([store.go]) *)

(** An error of a store: one the package names, or any other. *)
Inductive StoreError := Known (e : BackupError) | Foreign.

Class BackupOps (S : Type) := MkBackupOps {
  opCreate : CreateInput -> DB S StoreError Run;
  opClaim : UUID -> Z -> DB S StoreError Run;
  opClaimRunByID : UUID -> UUID -> Z -> DB S StoreError Run;
  opRenew : UUID -> UUID -> Z -> Z -> DB S StoreError Run;
  opTransition : TransitionInput -> DB S StoreError Run;
  opAddArtifact : Artifact -> DB S StoreError unit;
  opList : Filter -> DB S StoreError (list RunSummary * Cursor);
  opGet : UUID -> DB S StoreError RunDetail;
  opRetentionCandidates : RetentionPolicy -> DB S StoreError (list Artifact)
}.

Definition mapStoreError (e : StoreError) : BackupError :=
  match e with Known e => e | Foreign => ErrUnavailable end.

(** [err != nil] of a store call, mapped. *)
Definition fromStore {S A} (m : DB S StoreError A) : DB S BackupError A :=
  fun env st => match m env st with
                | (st', Ok a) => (st', Ok a)
                | (st', Err e) => (st', Err (mapStoreError e))
                end.

Definition authorize (p : Principal) : result BackupError unit :=
  (reject (User_ID p =? NilUUID)%N
      || negb (bool_decide (User_Role p = RoleAdmin))
      || negb (bool_decide (User_Status p = StatusActive))
      || blank (RequestID p)
      || (64 <? len (RequestID p))
      || negb (validIP (PrincipalIP p)) with ErrForbidden;
   Ok tt)%go.

(** [time.FixedZone("Asia/Shanghai", 8*60*60)]. *)
Definition shanghai : Z := 8 * 60 * 60.

(** The service's check of a transition, before the store's own. *)
Definition checkServiceTransition (i : TransitionInput) : result BackupError unit :=
  (reject (TrRunID i =? NilUUID)%N || (TrOwnerID i =? NilUUID)%N || (TrGeneration i <? 1)
      || negb (validState (TrFrom i)) || negb (validState (TrTo i))
      || negb (ValidTransition (TrFrom i) (TrTo i))
      || negb (validSafeError (TrErrorCategory i) (TrErrorTraceID i)) with ErrInvalidTransition;
   Ok tt)%go.

Definition checkServiceEvidence (i : TransitionInput) : result BackupError unit :=
  let bad := match TrEvidence i with
             | Some e => negb (is_ok (validateEvidence e))
             | None => false
             end in
  (reject (if bool_decide (TrTo i = StateSucceeded) || bool_decide (TrTo i = StateDegraded)
           then bool_decide (TrEvidence i = None) || bad else bad) with ErrInvalid;
   reject negb (bool_decide (TrTo i = StateFailed)) && negb (bool_decide (TrTo i = StateDegraded))
          && (negb (bool_decide (TrErrorCategory i = "")) || negb (bool_decide (TrErrorTraceID i = "")))
     with ErrInvalid;
   Ok tt)%go.

Definition stamped (at_ : Time) (i : TransitionInput) : TransitionInput :=
  MkTransitionInput (TrRunID i) (TrOwnerID i) (TrGeneration i) (TrFrom i) (TrTo i) at_
    (TrEvidence i) (TrErrorCategory i) (TrErrorTraceID i).

(** The state a completion ends in. *)
Definition completionState (c : CompletionInput) : option RunState :=
  if negb (RemoteConfigured c) && bool_decide (CoFrom c = StateVerifying) then Some StateSucceeded
  else if RemoteConfigured c && bool_decide (CoFrom c = StateSyncing) && RemoteSucceeded c
  then Some StateSucceeded
  else if RemoteConfigured c && bool_decide (CoFrom c = StateSyncing) && negb (RemoteSucceeded c)
  then Some StateDegraded
  else None.

Definition normalizeSummary (s : RunSummary) : RunSummary :=
  MkSummary (SumID s) (SumTrigger s) (SumState s) (UTC (SumRequestedAt s))
    (cloneTime (SumStartedAt s)) (cloneTime (SumFinishedAt s)) (SumLogicalBytes s)
    (SumStoredBytes s) (cloneTime (SumLocalExpiresAt s)) (cloneTime (SumRemoteExpiresAt s))
    (safeText (SumErrorCategory s)).

Definition normalizeVerification (v : RestoreVerification) : RestoreVerification :=
  MkVerification (RvID v) (RvRunID v) (RvState v) (cloneTime (RvStartedAt v))
    (cloneTime (RvFinishedAt v)) (RestoredMigrationVersion v)
    (safeRowCounts <$> DatabaseRowCounts v) (CheckedObjectCount v) (MissingObjectCount v)
    (UnexpectedObjectCount v) (SessionRevocationVerified v) (RTOSeconds v) (ReportSHA256 v)
    (safeText (RvErrorCategory v)) "".

Definition normalizeArtifact (a : Artifact) : Artifact :=
  MkArtifact (BackupRunID a) (ArtOwnerID a) (ArtGeneration a) (ArtKind a) (ArtRepository a)
    (SnapshotID a) (SHA256 a) (SizeBytes a) (UTC (VerifiedAt a)) (UTC (ExpiresAt a)).

(** [if x == 0 { x = d }]. *)
Definition defaultZ (d x : Z) : Z := if x =? 0 then d else x.

Definition defaultedPolicy (now : Time) (p : RetentionPolicy) : RetentionPolicy :=
  MkPolicy (if IsZero (PolNow p) then UTC now else PolNow p)
    (match PolLocation p with None => Some shanghai | l => l end)
    (defaultZ 7 (LocalDaily p)) (defaultZ 30 (RemoteDaily p)) (defaultZ 12 (RemoteMonthly p))
    (defaultZ (30 * 24 * hour) (PreReleaseProtectFor p)) (CurrentRunID p).

(** ** The service *)
Module Service.
Section Service.
Context {S : Type} `{BackupOps S}.

Definition create (i : CreateInput) : DB S BackupError Run :=
  match validateCreate i with
  | Err _ => dfail ErrInvalid
  | Ok _ => (do run <- fromStore (opCreate i); dret (normalizeRun run))%db
  end.

Definition RequestScheduled : DB S BackupError Run :=
  (do now <- wallNow;
   do id <- newUUID;
   create (MkCreate id TriggerScheduled (FormatDay (inLocation (UTC now) (Some shanghai))) NilUUID
             (UTC now) "" None))%db.

Definition RequestPreRelease (idempotencyKey : string) : DB S BackupError Run :=
  (do id <- newUUID;
   do now <- wallNow;
   create (MkCreate id TriggerPreRelease idempotencyKey NilUUID (UTC now) "" None))%db.

Definition RequestManual (p : Principal) (idempotencyKey : string) : DB S BackupError Run :=
  match authorize p with
  | Err e => dfail e
  | Ok _ =>
    (do id <- newUUID;
     do now <- wallNow;
     create (MkCreate id TriggerManual idempotencyKey (User_ID p) (UTC now) (RequestID p)
               (PrincipalIP p)))%db
  end.

Definition Claim (owner : UUID) (lease : Z) : DB S BackupError Run :=
  (fail if (owner =? NilUUID)%N || negb (leaseInRange lease) with ErrInvalid;
   do run <- fromStore (opClaim owner lease);
   dret (normalizeRun run))%db.

Definition ClaimRunByID (runID owner : UUID) (lease : Z) : DB S BackupError Run :=
  (fail if (runID =? NilUUID)%N || (owner =? NilUUID)%N || negb (leaseInRange lease) with ErrInvalid;
   do run <- fromStore (opClaimRunByID runID owner lease);
   dret (normalizeRun run))%db.

Definition WorkflowRun (runID : UUID) : DB S BackupError Run :=
  (fail if (runID =? NilUUID)%N with ErrInvalid;
   do detail <- fromStore (opGet runID);
   guard (RunID (DetailRun detail) =? runID)%N else ErrUnavailable;
   dret (normalizeRun (DetailRun detail)))%db.

Definition Renew (runID owner : UUID) (generation lease : Z) : DB S BackupError Run :=
  (fail if (runID =? NilUUID)%N || (owner =? NilUUID)%N || (generation <? 1)
           || negb (leaseInRange lease) with ErrInvalid;
   do run <- fromStore (opRenew runID owner generation lease);
   dret (normalizeRun run))%db.

Definition Transition (i : TransitionInput) : DB S BackupError Run :=
  match checkServiceTransition i with
  | Err e => dfail e
  | Ok _ =>
    (do at_ <- (if IsZero (TrAt i) then do now <- wallNow; dret (UTC now) else dret (UTC (TrAt i)));
     let i := stamped at_ i in
     match checkServiceEvidence i with
     | Err e => dfail e
     | Ok _ => do run <- fromStore (opTransition i); dret (normalizeRun run)
     end)%db
  end.

Definition Complete (c : CompletionInput) : DB S BackupError Run :=
  (fail if negb (is_ok (validateEvidence (CoEvidence c)))
           || (CoRunID c =? NilUUID)%N || (CoOwnerID c =? NilUUID)%N || (CoGeneration c <? 1)
           || negb (validSafeError (CoErrorCategory c) (CoErrorTraceID c)) with ErrInvalid;
   match completionState c with
   | None => dfail ErrInvalidTransition
   | Some to =>
     fail if (bool_decide (to = StateDegraded) && bool_decide (CoErrorCategory c = ""))
             || (bool_decide (to = StateSucceeded)
                 && (negb (bool_decide (CoErrorCategory c = "")) || negb (bool_decide (CoErrorTraceID c = ""))))
       with ErrInvalid;
     do now <- wallNow;
     Transition (MkTransitionInput (CoRunID c) (CoOwnerID c) (CoGeneration c) (CoFrom c) to
       (UTC now) (Some (CoEvidence c)) (CoErrorCategory c) (CoErrorTraceID c))
   end)%db.

Definition AddArtifact (a : Artifact) : DB S BackupError unit :=
  match validateArtifact a with
  | Err _ => dfail ErrInvalid
  | Ok _ => fromStore (opAddArtifact a)
  end.

Definition List_ (p : Principal) (f : Filter) : DB S BackupError Page :=
  match authorize p with
  | Err e => dfail e
  | Ok _ =>
    (fail if invalidFilter f with ErrInvalid;
     do page <- fromStore (opList f);
     let next := snd page in
     dret (MkPage (normalizeSummary <$> fst page)
             (if IsZero (CurRequestedAt next) then next
              else MkCursor (UTC (CurRequestedAt next)) (CurID next))))%db
  end.

Definition Get (p : Principal) (id : UUID) : DB S BackupError RunDetail :=
  match authorize p with
  | Err e => dfail e
  | Ok _ =>
    (fail if (id =? NilUUID)%N with ErrNotFound;
     do detail <- fromStore (opGet id);
     guard forallb (fun v => validRestoreRowCounts (DatabaseRowCounts v)) (DetailVerifications detail)
       else ErrUnavailable;
     dret (MkDetail (normalizeRun (DetailRun detail)) (normalizeArtifact <$> DetailArtifacts detail)
             (normalizeVerification <$> DetailVerifications detail)))%db
  end.

Definition RetentionCandidates (p : RetentionPolicy) : DB S BackupError (list Artifact) :=
  (do now <- (if IsZero (PolNow p) then wallNow else dret zeroTime);
   let p := defaultedPolicy now p in
   fail if (LocalDaily p <? 1) || (RemoteDaily p <? 1) || (RemoteMonthly p <? 1)
           || (PreReleaseProtectFor p <? 0) with ErrInvalid;
   fromStore (opRetentionCandidates p))%db.

End Service.
End Service.

(** ** What the service needs of the store *)
Class BackupLaws (S : Type) `{BackupOps S} := {
  storeInv : S -> Prop;
  (** The run a trigger and key name. *)
  holds : S -> Trigger -> string -> option Run;
  holds_key : forall s t k r, holds s t k = Some r -> RunTrigger r = t /\ IdempotencyKey r = k;
  create_law : forall i env n s st r, storeInv s -> opCreate i env (n, s) = (st, Ok r) ->
    storeInv (snd st) /\ holds (snd st) (InTrigger i) (InKey i) = Some r;
  again_law : forall i env n s r, storeInv s -> holds s (InTrigger i) (InKey i) = Some r ->
    validateCreate i = Ok tt -> quiet env ->
    exists st, opCreate i env (n, s) = (st, Ok r) /\ snd st = s;
  transition_law : forall i env n s st r, storeInv s -> opTransition i env (n, s) = (st, Ok r) ->
    RunState_ r = TrTo i /\ RunErrorCategory r = TrErrorCategory i /\
    (terminal (TrTo i) = true -> OwnerID r = None /\ is_Some (FinishedAt r)) /\
    (forall e, TrEvidence i = Some e -> ManifestSHA256 r = Some (EvManifestSHA256 e) /\
       LocalSnapshotID r = Some (EvLocalSnapshotID e))
}.

Lemma fromStore_Ok {S A} (m : DB S StoreError A) env st st' a :
  fromStore m env st = (st', Ok a) -> m env st = (st', Ok a).
Proof. unfold fromStore. destruct (m env st) as [? [?|?]]; intros; by simplify_eq. Qed.

(** Dates are safe idempotency keys. *)
Lemma digit_class n : isDigit (byteZ (digit n)) = true.
Proof.
  unfold isDigit, byteZ, digit. pose proof (Z.mod_pos_bound n 10 ltac:(lia)).
  unfold Ascii.ascii_of_nat. rewrite Ascii.N_ascii_embedding by lia. apply andb_true_iff. split; apply Z.leb_le; lia.
Qed.

Lemma FormatDay_safe t : safeIdempotencyKey (FormatDay t) = true.
Proof.
  unfold FormatDay. destruct (civil (localDay t)) as [[y m] d].
  set (class := fun b => isAlnum b || oneOf "._:-" b).
  assert (Hc : forall n, forallb class (bytes (pad2 n)) = true).
  { intros n. cbn [bytes pad2 forallb]. unfold class, isAlnum.
    by rewrite !digit_class, !orb_true_r. }
  unfold safeIdempotencyKey, safeOpaqueValue, matchClass, pad4. fold class.
  rewrite !bytes_app, !forallb_app, !Hc, !len_app. reflexivity.
Qed.

Section ServiceFacts.
Context {S : Type} `{BackupLaws S}.

(** The Shanghai calendar day of an instant. *)
Definition shanghaiDay (t : Time) : Z := localDay (inLocation t (Some shanghai)).

Lemma create_Ok i env n s st r :
  storeInv s -> Service.create i env (n, s) = (st, Ok r) ->
  exists run, r = normalizeRun run /\ storeInv (snd st) /\
    holds (snd st) (InTrigger i) (InKey i) = Some run.
Proof.
  unfold Service.create. intros Hi. destruct (validateCreate i) as [[]|] eqn:Hv; [|done].
  intros Hrun. db_inv. match goal with Hc : fromStore _ _ _ = _ |- _ => apply fromStore_Ok in Hc;
    destruct (create_law _ _ _ _ _ _ Hi Hc) as [??] end. eauto.
Qed.

Lemma create_again i env n s run :
  storeInv s -> holds s (InTrigger i) (InKey i) = Some run -> validateCreate i = Ok tt -> quiet env ->
  exists st, Service.create i env (n, s) = (st, Ok (normalizeRun run)) /\ snd st = s.
Proof.
  intros Hi Hh Hv Hq. unfold Service.create. rewrite Hv.
  destruct (again_law i env n s run Hi Hh Hv Hq) as (st & Hc & Hst).
  exists st. split; [|done]. unfold dbind, fromStore. by rewrite Hc.
Qed.

Lemma scheduled_valid id now :
  id <> NilUUID -> IsZero now = false ->
  validateCreate (MkCreate id TriggerScheduled (FormatDay (inLocation (UTC now) (Some shanghai)))
    NilUUID (UTC now) "" None) = Ok tt.
Proof.
  intros Hid Hz. unfold validateCreate. cbn [InID InTrigger InKey InRequestedAt InRequestedBy InRequestID InIP].
  rewrite (proj2 (N.eqb_neq _ _) Hid), FormatDay_safe. change (IsZero (UTC now)) with (IsZero now).
  rewrite Hz. done.
Qed.

(** Scheduled backups are requested once per calendar day in Shanghai,
    whatever store satisfies the interface: after a successful request, a second
    one on the same day, at any time of it, returns the same run and leaves the
    store as it is; and the runs of two requests carry the same key exactly when
    they were made on the same day. *)
Theorem scheduled_once_a_day env n (s : S) st r :
  storeInv s -> Service.RequestScheduled env (n, s) = (st, Ok r) ->
  (forall env' n', quiet env' -> uuids env' (Datatypes.S n') <> NilUUID ->
     IsZero (wall env' n') = false -> shanghaiDay (wall env n) = shanghaiDay (wall env' n') ->
     exists st', Service.RequestScheduled env' (n', snd st) = (st', Ok r) /\ snd st' = snd st) /\
  (forall env' n' s' st' r', storeInv s' ->
     Service.RequestScheduled env' (n', s') = (st', Ok r') ->
     yearIn1To9999 (inLocation (wall env n) (Some shanghai)) = true ->
     yearIn1To9999 (inLocation (wall env' n') (Some shanghai)) = true ->
     IdempotencyKey r = IdempotencyKey r' <-> shanghaiDay (wall env n) = shanghaiDay (wall env' n')).
Proof.
  intros Hi Hrun. unfold Service.RequestScheduled in Hrun. db_inv.
  match goal with Hc : Service.create _ _ _ = _ |- _ =>
    destruct (create_Ok _ _ _ _ _ _ Hi Hc) as (run & -> & Hi' & Hh) end. simpl in Hh.
  destruct (holds_key _ _ _ _ Hh) as [_ Hkey]. split.
  - intros env' n' Hq Hid Hz Hday. unfold Service.RequestScheduled.
    unfold dbind at 1, wallNow. unfold dbind at 1, newUUID.
    apply create_again; try done; [|by apply scheduled_valid]. simpl.
    rewrite <- Hh. f_equal. unfold FormatDay. unfold shanghaiDay in Hday.
    change (inLocation (UTC (wall env' n')) (Some shanghai))
      with (inLocation (wall env' n') (Some shanghai)).
    change (inLocation (UTC (wall env n)) (Some shanghai)) with (inLocation (wall env n) (Some shanghai)).
    by rewrite Hday.
  - intros env' n' s' st' r' Hs' Hrun' Hy Hy'. unfold Service.RequestScheduled in Hrun'. db_inv.
    match goal with Hc : Service.create _ _ (_, s') = _ |- _ =>
      destruct (create_Ok _ _ _ _ _ _ Hs' Hc) as (run' & -> & _ & Hh') end. simpl in Hh'.
    destruct (holds_key _ _ _ _ Hh') as [_ Hkey']. simpl. rewrite Hkey, Hkey'.
    by apply FormatDay_inj.
Qed.

Lemma serviceTransition_Ok i env n s st r :
  storeInv s -> Service.Transition i env (n, s) = (st, Ok r) ->
  exists run, r = normalizeRun run /\
    RunState_ run = TrTo i /\ RunErrorCategory run = TrErrorCategory i /\
    (terminal (TrTo i) = true -> OwnerID run = None /\ is_Some (FinishedAt run)) /\
    (forall e, TrEvidence i = Some e -> ManifestSHA256 run = Some (EvManifestSHA256 e) /\
       LocalSnapshotID run = Some (EvLocalSnapshotID e)).
Proof.
  intros Hi. unfold Service.Transition. destruct (checkServiceTransition i); [|done].
  intros Hrun. apply dbind_Ok in Hrun as ([m s1] & at_ & Hat & Hrun).
  assert (s1 = s) as -> by (destruct (IsZero (TrAt i)); db_inv; done).
  destruct (checkServiceEvidence _); [|done]. db_inv.
  match goal with Hc : fromStore _ _ _ = _ |- _ => apply fromStore_Ok in Hc;
    apply (transition_law _ _ _ _ _ _ Hi) in Hc end. eauto.
Qed.

(** A completion ends the run in the state the replication outcome calls
    for, whatever store satisfies the interface: with no remote repository it
    leaves verification as succeeded, with one it leaves syncing as succeeded or,
    when the copy failed, as degraded.  Only a degraded run carries an error
    category, the run has no owner and a finishing time, and it carries the
    evidence of the local snapshot. *)
Theorem Complete_outcome c env n (s : S) st r :
  storeInv s -> Service.Complete c env (n, s) = (st, Ok r) ->
  CoFrom c = (if RemoteConfigured c then StateSyncing else StateVerifying) /\
  RunState_ r = (if RemoteConfigured c && negb (RemoteSucceeded c)
                 then StateDegraded else StateSucceeded) /\
  (RunErrorCategory r <> "" <-> RunState_ r = StateDegraded) /\
  OwnerID r = None /\ is_Some (FinishedAt r) /\
  ManifestSHA256 r = Some (EvManifestSHA256 (CoEvidence c)) /\
  LocalSnapshotID r = Some (EvLocalSnapshotID (CoEvidence c)).
Proof.
  intros Hi. unfold Service.Complete. destruct (negb _ || _ || _ || _ || _); [done|].
  destruct (completionState c) as [to|] eqn:Hto; [|done].
  destruct (_ && _ || _ && _) eqn:G; [done|]. intros Hrun. db_inv.
  match goal with Hc : Service.Transition _ _ _ = _ |- _ =>
    apply (serviceTransition_Ok _ _ _ _ _ _ Hi) in Hc as (run & -> & Hs & He & Hterm & Hev) end.
  simpl in *. destruct (Hev _ eq_refl) as [Hman Hloc]. unfold completionState in Hto.
  assert (Hfin : terminal to = true).
  { clear - Hto. destruct (RemoteConfigured c), (RemoteSucceeded c),
      (bool_decide (CoFrom c = StateVerifying)), (bool_decide (CoFrom c = StateSyncing));
      simpl in Hto; by inversion Hto. }
  destruct (Hterm Hfin) as [Ho Hf]. rewrite Hs, He, Hman, Hloc, Ho.
  assert (Hf' : is_Some (cloneTime (FinishedAt run))) by (by apply fmap_is_Some).
  destruct (RemoteConfigured c), (RemoteSucceeded c), (bool_decide (CoFrom c = StateVerifying)) eqn:Hv,
    (bool_decide (CoFrom c = StateSyncing)) eqn:Hy; simpl in Hto; try done; injection Hto as <-;
    bool_simpl; simpl in *; bool_simpl; naive_solver.
Qed.

End ServiceFacts.

(** ** The PostgreSQL store *)
Definition named {S A} (m : DB S BackupError A) : DB S StoreError A :=
  fun env st => match m env st with
                | (st', Ok a) => (st', Ok a)
                | (st', Err e) => (st', Err (Known e))
                end.

Lemma fromStore_named {S A} (m : DB S BackupError A) env st : fromStore (named m) env st = m env st.
Proof. unfold fromStore, named. by destruct (m env st) as [? [?|?]]. Qed.

Lemma named_Ok {S A} (m : DB S BackupError A) env st st' a :
  named m env st = (st', Ok a) -> m env st = (st', Ok a).
Proof. unfold named. destruct (m env st) as [? [?|?]]; intros; by simplify_eq. Qed.

Section PgService.
Context `{PgTime}.

#[export] Instance PgBackupOps : BackupOps BackupDB := {
  opCreate i := named (BackupStore.Create i);
  opClaim owner lease := named (BackupStore.Claim owner lease);
  opClaimRunByID runID owner lease := named (BackupStore.ClaimRunByID runID owner lease);
  opRenew runID owner generation lease := named (BackupStore.Renew runID owner generation lease);
  opTransition i := named (BackupStore.Transition i);
  opAddArtifact a := named (BackupStore.AddArtifact a);
  opList f := named (BackupRestore.List_ f);
  opGet id := named (BackupRestore.Get id);
  opRetentionCandidates p := named (BackupRetention.RetentionCandidates p)
}.

#[export] Program Instance PgBackupLaws : BackupLaws BackupDB := {|
  storeInv := backupWf;
  holds := findKey
|}.
Next Obligation.
  intros s t k r Hf. apply findKey_Some in Hf as (id & _ & ? & ?). done.
Qed.
Next Obligation.
  intros i env n s st r Hwf Hc%named_Ok. split; [exact (Create_wf i env n s st _ Hwf Hc)|].
  by apply (Create_effect _ _ _ _ _ _ Hwf Hc).
Qed.
Next Obligation.
  intros i env n s r _ Hf Hv Hq. destruct (Create_existing i env n s r Hf Hv Hq) as (st & Hc & Hst).
  exists st. split; [|done]. simpl. unfold named. by rewrite Hc.
Qed.
Next Obligation.
  intros i env n s st r Hwf Htr%named_Ok.
  destruct (transition_exact _ _ _ _ _ _ Hwf Htr) as (_ & cur & now & _ & _ & _ & _ & -> & _).
  split_and!; [done|done| |].
  - intros Ht. simpl. rewrite Ht. eauto.
  - intros e He. simpl. by rewrite He.
Qed.

(** The service's validation agrees with the store's: whatever the input, a
    transition through the service has the result and the effect of the store's
    own transition on the same input, with the time filled in when it is missing
    and the returned run normalised.  Neither layer accepts or refuses an input
    that the other would treat differently. *)
Theorem service_transition_agrees i env n db :
  let at_ := if IsZero (TrAt i) then UTC (wall env n) else UTC (TrAt i) in
  let m := if IsZero (TrAt i) then S n else n in
  IsZero at_ = false ->
  snd (fst (Service.Transition i env (n, db))) =
    snd (fst (BackupStore.Transition (stamped at_ i) env (m, db))) /\
  snd (Service.Transition i env (n, db)) =
    match snd (BackupStore.Transition (stamped at_ i) env (m, db)) with
    | Ok r => Ok (normalizeRun r)
    | Err e => Err e
    end.
Proof.
  cbv zeta. set (at_ := if IsZero (TrAt i) then _ else _). set (m := if IsZero (TrAt i) then _ else _).
  intros Hat. unfold Service.Transition.
  assert (Hcheck : checkTransition (stamped at_ i) =
    match checkServiceTransition i with
    | Err e => Err e
    | Ok _ => match checkServiceEvidence (stamped at_ i) with
              | Err e => Err e
              | Ok _ => if bool_decide (TrTo i = StateDegraded) && bool_decide (TrErrorCategory i = "")
                        then Err ErrInvalid else Ok tt
              end
    end).
  { unfold checkTransition, checkServiceTransition, checkServiceEvidence. simpl. rewrite Hat, orb_false_r.
    repeat match goal with
    | |- context [if ?b then _ else _] => lazymatch b with
        | context [if _ then _ else _] => fail
        | _ => destruct b eqn:?
        end
    end; try done; bool_simpl; try done; simpl in *; congruence. }
  assert (Hstamp : forall k : Time -> DB BackupDB BackupError Run,
    dbind (if IsZero (TrAt i) then (do now <- wallNow; dret (UTC now))%db else dret (UTC (TrAt i)))
      k env (n, db) = k at_ env (m, db)).
  { intros k. subst at_ m. by destruct (IsZero (TrAt i)). }
  destruct (checkServiceTransition i) as [[]|e] eqn:Hs;
    [|unfold BackupStore.Transition; by rewrite Hcheck].
  rewrite Hstamp. cbv zeta. destruct (checkServiceEvidence _) as [[]|e] eqn:He;
    [|unfold BackupStore.Transition; by rewrite Hcheck].
  unfold dbind at 1 2. simpl opTransition. rewrite fromStore_named.
  by destruct (BackupStore.Transition _ _ _) as [? [?|?]].
Qed.

End PgService.

(** ** Evaluated instances *)
Section ServiceExamples.
#[local] Existing Instance PgTruncate.

(** A second request, eleven hours later on the same day in Shanghai. *)
Definition laterEnv : Env :=
  calm (739824 * day) (addDuration midnight (11 * hour)) (fun n => N.of_nat (n + 40)).

Lemma scheduled_once_a_day_witness :
  exists st r, Service.RequestScheduled steadyEnv (0%nat, emptyBackup) = (st, Ok r) /\
    exists st', Service.RequestScheduled laterEnv (0%nat, snd st) = (st', Ok r) /\ snd st' = snd st.
Proof.
  destruct (Service.RequestScheduled steadyEnv (0%nat, emptyBackup)) as [st x] eqn:E.
  destruct x as [r|]; [|vm_compute in E; discriminate E].
  exists st, r. split; [reflexivity|].
  apply (proj1 (scheduled_once_a_day (H0 := PgBackupLaws) steadyEnv 0 emptyBackup st r emptyBackup_wf E));
    [intros n; reflexivity|vm_compute; discriminate|vm_compute; reflexivity|vm_compute; reflexivity].
Defined.

Definition exampleCompletion : CompletionInput :=
  MkCompletion 11%N 21%N 1 StateVerifying exampleEvidence false false "" "".

Lemma verifying_wf : backupWf verifying.
Proof.
  unfold verifying. repeat (eapply backupStep_wf; [|apply exampleMove_step]). apply claimed_wf.
Qed.

Lemma Complete_outcome_witness :
  exists st r, Service.Complete exampleCompletion steadyEnv (0%nat, verifying) = (st, Ok r) /\
    RunState_ r = StateSucceeded.
Proof.
  destruct (Service.Complete exampleCompletion steadyEnv (0%nat, verifying)) as [st x] eqn:E.
  destruct x as [r|]; [|vm_compute in E; discriminate E].
  exists st, r. split; [reflexivity|].
  exact (proj1 (proj2 (Complete_outcome (H0 := PgBackupLaws) exampleCompletion steadyEnv 0 verifying st r verifying_wf E))).
Defined.

Lemma service_transition_agrees_witness :
  exists r, snd (Service.Transition drain steadyEnv (0%nat, claimed)) = Ok (normalizeRun r).
Proof.
  pose proof (proj2 (service_transition_agrees drain steadyEnv 0 claimed eq_refl)) as Hx.
  destruct (snd (BackupStore.Transition _ steadyEnv _)) as [r|e] eqn:E in Hx;
    [|vm_compute in E; discriminate E].
  exists r. exact Hx.
Defined.

End ServiceExamples.
