(* ===== verification/AIModel.v ===== *)
(** * The assistant: data, tables and rules

    Models [internal/aiqa/runtime_model.go], [quota.go], the data of [config_model.go],
    [attachments.go], [gateway.go] and [runner.go], the pure functions of [service.go] and
    [runner.go], and the tables of migrations 00015, 00016 and 00018, beside the tables of
    lessons and files.  A student's message starts a run; a run reserves part of the
    student's quota, waits for a runner, streams an answer and ends.  Columns that nothing
    reads ([heartbeat_at], and who created a row of the configuration) are left out. *)

From S2P Require Import Prelude GoTime GoText GoStrings GoSha256 GoStrconv Pg OpsModel Keyset AuditLog FilesModel FilesStore LessonModel LessonStore.
From stdpp Require Import base tactics list gmap strings.
From Stdlib Require Import ZArith Lia.

Open Scope Z_scope.

Module AI.
Import Lessons.

(** ** Data *)
Inductive Error :=
| ErrForbidden | ErrInvalidInput | ErrNotFound | ErrConfigConflict | ErrAIDisabled | ErrProviderUnavailable
| ErrQuotaExceeded | ErrAIBusy | ErrContextTooLarge | ErrRunConflict | ErrAttachmentNotReady
| ErrNoRunnableRun | ErrRunnerLeaseLost | ErrCancelRequested | ErrContextEnded | ErrDatabase.

Inductive RunStatus := RunQueued | RunStreaming | RunSucceeded | RunFailed | RunCancelled.
Inductive Modality := ModalityText | ModalityVision | ModalityOther (text : string).
Inductive Subject := SubjectMath | SubjectPhysics | SubjectOther (text : string).
Inductive ProtocolMode := ProtocolChatCompletions | ProtocolResponses | ProtocolOther (text : string).
(** The [role] of a message. *)
Inductive Speaker := SpeakerStudent | SpeakerAssistant.

Global Instance Error_eq_dec : EqDecision Error.
Proof. solve_decision. Defined.
Global Instance RunStatus_eq_dec : EqDecision RunStatus.
Proof. solve_decision. Defined.
Global Instance Modality_eq_dec : EqDecision Modality.
Proof. solve_decision. Defined.
Global Instance Subject_eq_dec : EqDecision Subject.
Proof. solve_decision. Defined.
Global Instance ProtocolMode_eq_dec : EqDecision ProtocolMode.
Proof. solve_decision. Defined.
Global Instance Speaker_eq_dec : EqDecision Speaker.
Proof. solve_decision. Defined.

Definition subjectOK (s : Subject) : bool := match s with SubjectMath | SubjectPhysics => true | SubjectOther _ => false end.
Definition modalityOK (m : Modality) : bool := match m with ModalityText | ModalityVision => true | ModalityOther _ => false end.

Definition protocolOK (p : ProtocolMode) : bool :=
  match p with ProtocolChatCompletions | ProtocolResponses => true | ProtocolOther _ => false end.

(** A [*url.URL]: its scheme, its host and its [String()]. *)
Record BaseURL := MkBaseURL { URLScheme : string; URLHost : string; URLText : string }.

Record AttachmentInput := MkAttachmentInput { InVersion : UUID; InPosition : Z }.
Record AttachmentMetadata := MkMetadata {
  MetaVersion : UUID; MetaName : string; MetaMIME : string; MetaModality : Modality; MetaSize : Z
}.

Record Thread := MkThread {
  ThreadID : UUID; ThreadStudent : UUID; ThreadTitle : string; ThreadSubject : Subject; LastMessageAt : Time; ThreadCreated : Time
}.
Record Message := MkMessage {
  MessageID : UUID; MessageThread : UUID; MessageRole : Speaker; MessageBody : string; MessageRun : UUID;
  MessageFiles : list AttachmentMetadata; MessageCreated : Time
}.
Record Run := MkRun {
  RunID : UUID; RunThread : UUID; TriggerMessage : UUID; TriggerBody : string; TriggerFiles : list AttachmentMetadata;
  Status : RunStatus; AttemptNo : Z; LastSequence : Z; ErrorCode : string; RunModality : Modality; ReservedTokenCount : Z;
  RunInput : Z; RunOutput : Z; RunCost : Z; RunSource : string; RunCreated : Time; RunUpdated : Time
}.
(** [ThreadCursor] and [MessageCursor]. *)
Record Cursor := MkCursor { CursorTime : Time; CursorID : UUID; CursorLimit : Z }.
Definition noCursor : Cursor := MkCursor zeroTime NilUUID 0.
Record ThreadDetail := MkDetail {
  DetailThread : Thread; DetailMessages : list Message; ActiveRun : option Run; DetailNext : Cursor
}.
Record CreateThreadInput := MkCreateThread {
  NewTitle : string; NewBody : string; NewKey : string; NewSubject : Subject; NewFiles : list AttachmentInput
}.
Record AddMessageInput := MkAddMessage { AddThread : UUID; AddBody : string; AddKey : string; AddFiles : list AttachmentInput }.
Record ContextTurn := MkTurn { TurnRole : Speaker; TurnText : string }.

(** [GatewayTimeouts], in nanoseconds. *)
Record Timeouts := MkTimeouts { Connect : Z; ResponseHeader : Z; IdleStream : Z; Total : Z }.
Record ModelView := MkModel {
  ModelID : UUID; ModelProvider : UUID; Upstream : string; ModelModality : Modality; ContextTokens : Z; MaxOutputTokens : Z;
  ImageQuotaTokens : Z; InputPrice : Z; OutputPrice : Z; Enabled : bool; QuotaBlockedAt : option Time
}.
Record PromptView := MkPrompt { PromptID : UUID; PromptSubject : Subject; PromptVersion : Z; PromptBody : string; PromptActive : bool }.
Record RuntimeProviderConfig := MkConfig {
  ProviderID : UUID; KeyVersion : Z; ProviderURL : option BaseURL; Protocol : ProtocolMode; APIKey : list Z;
  Model : ModelView; Prompt : PromptView; ConfigTimeouts : Timeouts
}.
Record RuntimeSnapshot := MkSnapshot { Provider : RuntimeProviderConfig; PromptSHA256 : string }.

Record QuotaLimits := MkLimits { DailyRequests : Z; MonthlyRequests : Z; DailyTokens : Z; MonthlyTokens : Z }.
Record StudentQuotaLimits := MkStudentLimits {
  OwnDailyRequests : option Z; OwnMonthlyRequests : option Z; OwnDailyTokens : option Z; OwnMonthlyTokens : option Z
}.
Record QuotaUsage := MkUsage { UsedDailyRequests : Z; UsedMonthlyRequests : Z; UsedDailyTokens : Z; UsedMonthlyTokens : Z }.
Record QuotaReservation := MkReservation {
  RequestCount : Z; TokenCount : Z; DayKey : string; MonthKey : string; EstimatorVersion : Z
}.

Record RuntimeAdmission := MkAdmission {
  AdmStudent : UUID; AdmThread : UUID; AdmCreate : bool; AdmTitle : string; AdmSubject : Subject; AdmMessage : UUID;
  AdmBody : string; AdmKey : string; AdmFiles : list AttachmentMetadata; AdmAttempt : Z;
  AdmSnapshot : RuntimeSnapshot; AdmReservation : QuotaReservation; AdmNow : Time
}.
Record RetryAdmission := MkRetry {
  RetryStudent : UUID; SourceRun : UUID; RetryRunID : UUID; RetryKey : string; RetrySnapshot : RuntimeSnapshot;
  RetryReservation : QuotaReservation; RetryNow : Time
}.
Record TerminalUsage := MkTerminal {
  TermInput : Z; TermOutput : Z; TermCost : Z; TermSource : string; TermFinish : string
}.

(** ** Quotas *)
Definition ResolveQuotaLimits (global : QuotaLimits) (student : StudentQuotaLimits) : result Error QuotaLimits :=
  (let out := MkLimits (or_zero (DailyRequests global) (OwnDailyRequests student))
                (or_zero (MonthlyRequests global) (OwnMonthlyRequests student))
                (or_zero (DailyTokens global) (OwnDailyTokens student))
                (or_zero (MonthlyTokens global) (OwnMonthlyTokens student)) in
   reject (DailyRequests out <=? 0) || (MonthlyRequests out <=? 0) || (DailyTokens out <=? 0) || (MonthlyTokens out <=? 0)
     with ErrAIDisabled;
   Ok out)%go.

(** The zone has been eight hours ahead since 1991. *)
Definition shanghai : option Z := Some (8 * 60 * 60).
Definition ShanghaiQuotaKeys (now : Time) : string * string :=
  let local := inLocation now shanghai in (FormatDay local, FormatMonth local).

Definition CurrentEstimatorVersion : Z := 1.

(** Sums of [int64]s. *)
Definition add64 (a b : Z) : Z := Files.wrapInt64 (a + b).
Definition sum64 (l : list Z) : Z := fold_left add64 l 0.

Definition EstimateQuotaReservation (systemPrompt : string) (selectedTextTurns : list string) (extractedText : string)
  (imageCount imageQuotaTokens maxOutputTokens : Z) (now : Time) : QuotaReservation :=
  let n := sum64 ((len systemPrompt + len extractedText) :: (len <$> selectedTextTurns)
                  ++ [add64 (Files.wrapInt64 (imageCount * imageQuotaTokens)) maxOutputTokens]) in
  let '(day, month) := ShanghaiQuotaKeys now in
  MkReservation 1 n day month CurrentEstimatorVersion.

Definition CheckQuota (limits : QuotaLimits) (used : QuotaUsage) (r : QuotaReservation) : result Error unit :=
  (reject (RequestCount r <? 1) || (TokenCount r <? 0)
       || (DailyRequests limits <? add64 (UsedDailyRequests used) (RequestCount r))
       || (MonthlyRequests limits <? add64 (UsedMonthlyRequests used) (RequestCount r))
       || (DailyTokens limits <? add64 (UsedDailyTokens used) (TokenCount r))
       || (MonthlyTokens limits <? add64 (UsedMonthlyTokens used) (TokenCount r)) with ErrQuotaExceeded;
   Ok tt)%go.

(** ** Rules for inputs *)
Definition trimmedBetween (lo hi : Z) (s : string) : bool :=
  let n := RuneCountInString (TrimSpace s) in (lo <=? n) && (n <=? hi).
Definition validTitle (s : string) : bool := trimmedBetween 1 160 s.
Definition validBody (s : string) : bool := trimmedBetween 1 100000 s.
Definition validIdempotency (s : string) : bool := (16 <=? len s) && (len s <=? 128).

Fixpoint freshInputs (ids : list UUID) (positions : list Z) (inputs : list AttachmentInput) : bool :=
  match inputs with
  | [] => true
  | i :: rest =>
      negb ((InVersion i =? NilUUID)%N || (InPosition i <? 0) || (20 <=? InPosition i))
      && negb (bool_decide (InVersion i ∈ ids)) && negb (bool_decide (InPosition i ∈ positions))
      && freshInputs (InVersion i :: ids) (InPosition i :: positions) rest
  end.
Definition validateAttachmentInputs (inputs : list AttachmentInput) : bool :=
  (length inputs <=? 20)%nat && freshInputs [] [] inputs.

Definition sameAttachmentBindings (inputs : list AttachmentInput) (persisted : list AttachmentMetadata) : bool :=
  bool_decide (InVersion <$> orderBy (fun i => [InPosition i]) inputs = MetaVersion <$> persisted).
Definition sameMetadataBindings (left right : list AttachmentMetadata) : bool :=
  bool_decide (MetaVersion <$> left = MetaVersion <$> right).

Definition studentOK (p : Principal) : bool :=
  negb (User_ID p =? NilUUID)%N && bool_decide (User_Role p = RoleStudent) && bool_decide (User_Status p = StatusActive).

(** ** What goes into the context *)

(** The pairs of a question and its answer, oldest first. *)
Fixpoint exchanges (history : list Message) : list (Message * Message) :=
  match history with
  | user :: ((answer :: rest) as tail) =>
      if bool_decide (MessageRole user = SpeakerStudent) && bool_decide (MessageRole answer = SpeakerAssistant)
      then (user, answer) :: exchanges rest else exchanges tail
  | _ => []
  end.

Definition exchangeSize (p : Message * Message) : Z := len (MessageBody (fst p)) + len (MessageBody (snd p)).

(** The loop from the newest pair backwards, with what remains; the newest comes first. *)
Fixpoint newestFitting (remaining : Z) (newestFirst : list (Message * Message)) : list (Message * Message) :=
  match newestFirst with
  | [] => []
  | p :: rest => if remaining <? exchangeSize p then [] else p :: newestFitting (remaining - exchangeSize p) rest
  end.

Definition turnsOf (p : Message * Message) : list ContextTurn :=
  [MkTurn SpeakerStudent (MessageBody (fst p)); MkTurn SpeakerAssistant (MessageBody (snd p))].

Definition mandatoryContext (system current extracted : string) (imageCount imageQuotaTokens maxOutput : Z) : Z :=
  add64 (add64 (len system + len current + len extracted) (Files.wrapInt64 (imageCount * imageQuotaTokens))) maxOutput.

Definition selectContext (system : string) (history : list Message) (current extracted : string)
  (imageCount imageQuotaTokens contextLimit maxOutput : Z) : result Error (list ContextTurn) :=
  (let mandatory := mandatoryContext system current extracted imageCount imageQuotaTokens maxOutput in
   reject (contextLimit <=? 0) || (maxOutput <=? 0) || (contextLimit <? mandatory) with ErrContextTooLarge;
   Ok (concat (turnsOf <$> rev (newestFitting (contextLimit - mandatory) (rev (exchanges history))))))%go.

(** ** Costs *)
Definition million : Z := 1000000.
Definition addCost (cost part : Z) : Z := if maxInt64 - cost <? part then maxInt64 else cost + part.

(** Whole millions of tokens, then the rest, with a limit at each addition. *)
Definition tokenCost (tokens price : Z) : Z :=
  if (tokens <=? 0) || (price <=? 0) then 0
  else
    let wholeTokens := Z.quot tokens million in
    let remainingTokens := Z.rem tokens million in
    if Z.quot maxInt64 price <? wholeTokens then maxInt64
    else
      let cost := Files.wrapInt64 (wholeTokens * price) in
      let priceMillions := Z.quot price million in
      let priceRemainder := Z.rem price million in
      let part1 := Files.wrapInt64 (remainingTokens * priceMillions) in
      let part2 := Z.quot (Files.wrapInt64 (remainingTokens * priceRemainder + million - 1)) million in
      if maxInt64 - cost <? part1 then maxInt64
      else let cost := cost + part1 in if maxInt64 - cost <? part2 then maxInt64 else cost + part2.

(** ** The runner's data *)
Record RunEvent := MkEvent { EventSequence : Z; EventKind : string; EventDelta : string; EventError : string; EventAt : Time }.
Record Completion := MkCompletion {
  Answer : string; DoneInput : Z; DoneOutput : Z; DoneCost : Z; DoneSource : string; DoneFinish : string;
  FirstByteMS : Z; TotalMS : Z
}.
Record Failure := MkFailure {
  FailStatus : RunStatus; FailCode : string; FailSource : string; FailInput : Z; FailOutput : Z; FailCost : Z; FailTotalMS : Z
}.
(** Images are opened by the gateway; what the model keeps of one is its type and size. *)
Record GatewayImage := MkImage { ImageType : string; ImageSize : Z }.
Record GatewayRequest := MkRequest {
  RequestRun : UUID; RequestModel : string; SystemPrompt : string; Turns : list ContextTurn; Images : list GatewayImage;
  RequestMaxOutput : Z
}.
Record LeasedRun := MkLeased { LeasedRunOf : Run; LeasedConfig : RuntimeProviderConfig; LeasedRequest : GatewayRequest; LeaseOwner : string }.
Inductive GatewayEventKind := KindDelta | KindUsage | KindCompleted | KindOther.
Record GatewayEvent := MkGatewayEvent {
  GatewayKind : GatewayEventKind; Delta : string; EventInput : Z; EventOutput : Z; FinishReason : string
}.
Definition MaxGatewayEventBytes : Z := Z.shiftl 16 10.

(** ** Tables *)
Record ThreadRow := MkThreadRow { th_student : UUID; th_title : string; th_subject : Subject; th_last : Time; th_created : Time }.
Record MessageRow := MkMessageRow {
  ms_thread : UUID; ms_role : Speaker; ms_sender : option UUID; ms_body : string; ms_run : option UUID;
  ms_key : option string; ms_created : Time
}.
(** A row of [ai_message_files], keyed by message and file version. *)
Record LinkRow := MkLinkRow { lk_position : Z; lk_name : string }.

(** What a run remembers of the configuration it was admitted under. *)
Record RunSnapshot := MkRunSnapshot {
  sn_provider : UUID; sn_keyVersion : Z; sn_url : string; sn_protocol : ProtocolMode;
  sn_model : UUID; sn_upstream : string; sn_modality : Modality; sn_context : Z; sn_maxOutput : Z; sn_image : Z;
  sn_inputPrice : Z; sn_outputPrice : Z; sn_prompt : UUID; sn_subject : Subject; sn_version : Z; sn_sha : string;
  sn_connect : Z; sn_header : Z; sn_idle : Z; sn_total : Z
}.
(** The columns that never change. *)
Record RunIdentity := MkRunIdentity {
  rn_thread : UUID; rn_student : UUID; rn_trigger : UUID; rn_attempt : Z; rn_key : string; rn_snapshot : RunSnapshot;
  rn_requests : Z; rn_tokens : Z; rn_day : string; rn_month : string; rn_estimator : Z; rn_created : Time
}.
Record RunUsage := MkRunUsage { us_source : option string; us_input : option Z; us_output : option Z; us_cost : option Z }.
Record RunRow := MkRunRow {
  rn_identity : RunIdentity; rn_status : RunStatus; rn_owner : option string; rn_until : option Time; rn_cancel : option Time;
  rn_usage : RunUsage; rn_firstByte : option Z; rn_totalMS : option Z; rn_finish : option string; rn_error : option string;
  rn_sequence : Z; rn_updated : Time; rn_started : option Time; rn_completed : option Time
}.
(** A row of [ai_run_events], keyed by run and sequence. *)
Record EventRow := MkEventRow { ev_kind : string; ev_payload : string; ev_error : option string; ev_created : Time }.
(** A row of [ai_usage_ledger], keyed by run, kind of period and action. *)
Record LedgerRow := MkLedgerRow { lg_student : UUID; lg_key : string; lg_requests : Z; lg_tokens : Z; lg_created : Time }.

Record ModelRow := MkModelRow {
  md_provider : UUID; md_upstream : string; md_modality : Modality; md_context : Z; md_maxOutput : Z; md_image : Z;
  md_inputPrice : Z; md_outputPrice : Z; md_enabled : bool; md_blocked : option Time; md_version : Z;
  md_connect : Z; md_header : Z; md_idle : Z; md_total : Z
}.
Record ProviderRow := MkProviderRow {
  pv_url : string; pv_protocol : ProtocolMode; pv_secret : list Z; pv_keyVersion : Z; pv_active : bool
}.
Record PromptRow := MkPromptRow { pt_subject : Subject; pt_version : Z; pt_body : string; pt_active : bool }.
Record ConfigTables := MkConfigTables {
  globalLimits : QuotaLimits; studentLimits : gmap N StudentQuotaLimits;
  models : gmap N ModelRow; providers : gmap N ProviderRow; prompts : gmap N PromptRow
}.

Record AIDB := MkAIDB {
  lessonDB : LessonDB;
  config : ConfigTables;
  threads : gmap N ThreadRow;
  messages : gmap N MessageRow;
  links : gmap (N * N) LinkRow;
  runs : gmap N RunRow;
  runEvents : gmap (N * Z) EventRow;
  ledger : gmap (N * string * string) LedgerRow
}.

Definition setLesson l db := MkAIDB l (config db) (threads db) (messages db) (links db) (runs db) (runEvents db) (ledger db).
Definition setConfig c db := MkAIDB (lessonDB db) c (threads db) (messages db) (links db) (runs db) (runEvents db) (ledger db).
Definition setThreads m db := MkAIDB (lessonDB db) (config db) m (messages db) (links db) (runs db) (runEvents db) (ledger db).
Definition setMessages m db := MkAIDB (lessonDB db) (config db) (threads db) m (links db) (runs db) (runEvents db) (ledger db).
Definition setLinks m db := MkAIDB (lessonDB db) (config db) (threads db) (messages db) m (runs db) (runEvents db) (ledger db).
Definition setRuns m db := MkAIDB (lessonDB db) (config db) (threads db) (messages db) (links db) m (runEvents db) (ledger db).
Definition setEvents m db := MkAIDB (lessonDB db) (config db) (threads db) (messages db) (links db) (runs db) m (ledger db).
Definition setLedger m db := MkAIDB (lessonDB db) (config db) (threads db) (messages db) (links db) (runs db) (runEvents db) m.

Definition fileDB (db : AIDB) : FilesDB := base (lessonDB db).

(** The versions that messages refer to, as the file tables see them. *)
Definition linkedVersions (db : AIDB) : gset N := list_to_set (snd ∘ fst <$> map_to_list (links db)).
Definition setAIRefs (refs : gset N) (db : FilesDB) : FilesDB :=
  MkFilesDB (files db) (versions db) (previews db) (sessions db) (parts db) (jobs db)
    (artifacts db) (outbox db) (filesAudit db) (users db) (lessonRefs db) (qaRefs db) refs (mode db).
Definition linked (db : AIDB) : AIDB :=
  setLesson (setBase (setAIRefs (linkedVersions db) (fileDB db)) (lessonDB db)) db.

Definition studentOf (r : RunRow) : UUID := rn_student (rn_identity r).
Definition activeStudent (db : AIDB) (id : UUID) : bool := activeUser RoleStudent (lessonDB db) id.

(** ** Constraints *)
Inductive Violation := ActiveStudent | KeyTaken | OtherViolation.

(** [runtimeDBError]. *)
Definition runtimeDBError (v : Violation) : Error :=
  match v with ActiveStudent => ErrAIBusy | KeyTaken => ErrRunConflict | OtherViolation => ErrDatabase end.

Definition active (s : RunStatus) : bool := match s with RunQueued | RunStreaming => true | _ => false end.
Definition terminal (s : RunStatus) : bool := negb (active s).

(** A text column takes no zero byte. *)
Definition storable (s : string) : bool := negb (existsb (Z.eqb 0) (bytes s)).

Definition threadCheck (r : ThreadRow) : bool :=
  Teaching.btrimLength 1 160 (th_title r) && subjectOK (th_subject r) && storable (th_title r).

Definition messageCheck (m : MessageRow) : bool :=
  Teaching.btrimLength 1 100000 (ms_body m) && storable (ms_body m)
  && Bool.eqb (bool_decide (ms_role m = SpeakerStudent)) (bool_decide (is_Some (ms_sender m)))
  && Bool.eqb (bool_decide (ms_role m = SpeakerStudent)) (bool_decide (is_Some (ms_key m)))
  && nullOr (charLength 16 128) (ms_key m) && nullOr storable (ms_key m).

Definition linkCheck (k : LinkRow) : bool :=
  (0 <=? lk_position k) && Teaching.btrimLength 1 255 (lk_name k) && storable (lk_name k).

Definition nonNegative (o : option Z) : bool := nullOr (Z.leb 0) o.

Definition usageCheck (u : RunUsage) : bool :=
  nonNegative (us_input u) && nonNegative (us_output u) && nonNegative (us_cost u)
  && nullOr (member ["upstream"; "estimated"; "unknown"]%string) (us_source u)
  && (let complete := bool_decide (us_source u = Some "upstream"%string) || bool_decide (us_source u = Some "estimated"%string) in
      let has o := Bool.eqb complete (bool_decide (is_Some (A := Z) o)) in
      has (us_input u) && has (us_output u) && has (us_cost u)).

(** The constraint that ties the status to the other columns. *)
Definition statusCheck (r : RunRow) : bool :=
  let some {A} (o : option A) := bool_decide (is_Some o) in
  match rn_status r with
  | RunQueued => negb (some (rn_started r)) && negb (some (rn_completed r)) && negb (some (rn_owner r)) && negb (some (rn_error r))
  | RunStreaming => some (rn_started r) && negb (some (rn_completed r)) && some (rn_owner r) && negb (some (rn_error r))
  | RunSucceeded => some (rn_completed r) && negb (some (rn_owner r)) && some (us_source (rn_usage r)) && negb (some (rn_error r))
  | RunFailed | RunCancelled =>
      some (rn_completed r) && negb (some (rn_owner r)) && some (us_source (rn_usage r)) && some (rn_error r)
  end.

Definition snapshotCheck (s : RunSnapshot) : bool :=
  protocolOK (sn_protocol s) && modalityOK (sn_modality s) && subjectOK (sn_subject s)
  && Teaching.btrimLength 1 200 (sn_upstream s) && charLength 8 2048 (sn_url s) && negb (existsb (Z.eqb 63) (bytes (sn_url s)))
  && (0 <? sn_context s) && (0 <? sn_maxOutput s) && (sn_maxOutput s <=? sn_context s) && (0 <? sn_image s)
  && (0 <=? sn_inputPrice s) && (0 <=? sn_outputPrice s) && (0 <? sn_version s) && validHash (sn_sha s)
  && within 100 30000 (sn_connect s) && within 1000 120000 (sn_header s) && within 1000 120000 (sn_idle s)
  && (sn_header s <=? sn_total s) && (sn_idle s <=? sn_total s) && (sn_total s <=? 600000) && (0 <? sn_keyVersion s).

(** [~ '^\d{4}-\d{2}-\d{2}$'] and [~ '^\d{4}-\d{2}$']. *)
Fixpoint shaped (shape : string) (s : string) : bool :=
  match shape, s with
  | EmptyString, EmptyString => true
  | String p shape', String c s' => (if byteZ p =? 100 then isDigit (byteZ c) else Ascii.eqb p c) && shaped shape' s'
  | _, _ => false
  end.
Definition dayShape : string := "dddd-dd-dd".
Definition monthShape : string := "dddd-dd".

Definition identityCheck (i : RunIdentity) : bool :=
  (0 <? rn_attempt i) && charLength 16 128 (rn_key i) && storable (rn_key i) && snapshotCheck (rn_snapshot i)
  && (0 <? rn_requests i) && (0 <=? rn_tokens i) && shaped dayShape (rn_day i) && shaped monthShape (rn_month i)
  && (0 <? rn_estimator i).

Definition runCheck (r : RunRow) : bool :=
  identityCheck (rn_identity r) && nullOr (charLength 1 128) (rn_owner r)
  && Bool.eqb (bool_decide (is_Some (rn_owner r))) (bool_decide (is_Some (rn_until r)))
  && usageCheck (rn_usage r) && nonNegative (rn_firstByte r) && nonNegative (rn_totalMS r)
  && nullOr (charLength 1 128) (rn_finish r) && nullOr (charLength 1 128) (rn_error r) && (0 <=? rn_sequence r) && inInt64 (rn_sequence r) && statusCheck r.

Definition eventCheck (sequence : Z) (e : EventRow) : bool :=
  (0 <? sequence) && member ["delta"; "usage"; "completed"; "failed"; "cancelled"]%string (ev_kind e)
  && (len (ev_payload e) <=? 16384) && storable (ev_payload e) && nullOr (charLength 1 128) (ev_error e).

(** The checks of a ledger row and its trigger. *)
Definition ledgerAllowed (db : AIDB) (run : UUID) (period : string) (g : LedgerRow) : bool :=
  negb ((lg_requests g =? 0) && (lg_tokens g =? 0))
  && match runs db !! run with
     | Some r =>
         (studentOf r =? lg_student g)%N
         && ((bool_decide (period = "day"%string) && bool_decide (lg_key g = rn_day (rn_identity r)))
             || (bool_decide (period = "month"%string) && bool_decide (lg_key g = rn_month (rn_identity r))))
     | None => false
     end.

(** [enforce_ai_message_integrity]. *)
Definition messageAllowed (db : AIDB) (m : MessageRow) : bool :=
  match ms_role m with
  | SpeakerStudent =>
      negb (bool_decide (is_Some (ms_run m)))
      && match ms_sender m, threads db !! ms_thread m with
         | Some s, Some t => activeStudent db s && (th_student t =? s)%N
         | _, _ => false
         end
  | SpeakerAssistant =>
      negb (bool_decide (is_Some (ms_sender m))) && negb (bool_decide (is_Some (ms_key m)))
      && match ms_run m with
         | Some id => match runs db !! id with
                      | Some r => (rn_thread (rn_identity r) =? ms_thread m)%N && bool_decide (rn_status r = RunSucceeded)
                      | None => false
                      end
         | None => false
         end
  end.

(** [enforce_ai_message_file_integrity]. *)
Definition linkAllowed (db : AIDB) (message version : UUID) : bool :=
  match messages db !! message with
  | Some m =>
      bool_decide (ms_role m = SpeakerStudent)
      && match threads db !! ms_thread m, versions (fileDB db) !! version with
         | Some t, Some v =>
             activeStudent db (th_student t) && bool_decide (v_purpose v = Files.UploadPurposeAI)
             && bool_decide (v_state v = "ready"%string) && (v_createdBy v =? th_student t)%N
             && match files (fileDB db) !! v_file v with
                | Some f => (file_createdBy f =? th_student t)%N && open_ (file_deletedAt f)
                | None => false
                end
         | _, _ => false
         end
  | None => false
  end.

(** [enforce_ai_run_integrity] and [enforce_ai_run_provider_key_version]. *)
Definition promptMatches (p : PromptRow) (s : RunSnapshot) : bool :=
  bool_decide (pt_subject p = sn_subject s) && (pt_version p =? sn_version s)
  && bool_decide (hexSum256 (bytes (pt_body p)) = sn_sha s).

Definition modelMatches (m : ModelRow) (s : RunSnapshot) : bool :=
  (md_provider m =? sn_provider s)%N && bool_decide (md_upstream m = sn_upstream s) && bool_decide (md_modality m = sn_modality s)
  && (md_context m =? sn_context s) && (md_maxOutput m =? sn_maxOutput s) && (md_image m =? sn_image s)
  && (md_inputPrice m =? sn_inputPrice s) && (md_outputPrice m =? sn_outputPrice s)
  && (md_connect m =? sn_connect s) && (md_header m =? sn_header s) && (md_idle m =? sn_idle s) && (md_total m =? sn_total s).

Definition runAllowed (db : AIDB) (i : RunIdentity) : bool :=
  let s := rn_snapshot i in
  match threads db !! rn_thread i, messages db !! rn_trigger i with
  | Some t, Some m =>
      (th_student t =? rn_student i)%N && (ms_thread m =? rn_thread i)%N && bool_decide (ms_role m = SpeakerStudent)
      && bool_decide (ms_sender m = Some (rn_student i))
  | _, _ => false
  end
  && match providers (config db) !! sn_provider s with
     | Some p => bool_decide (pv_url p = sn_url s) && bool_decide (pv_protocol p = sn_protocol s) && (pv_keyVersion p =? sn_keyVersion s)
     | None => false
     end
  && match prompts (config db) !! sn_prompt s with Some p => promptMatches p s | None => false end
  && match models (config db) !! sn_model s with Some m => modelMatches m s | None => false end.

(** [enforce_ai_run_transition]: what an update may change. *)
Definition updateAllowed (old new : RunRow) : bool :=
  active (rn_status old)
  && match rn_status old, rn_status new with
     | RunQueued, RunSucceeded | RunStreaming, RunQueued => false
     | _, _ => true
     end.

(** The deferred trigger: the run has an answer exactly when it succeeded. *)
Definition answersOf (db : AIDB) (run : UUID) : list (N * MessageRow) :=
  List.filter (fun '(_, m) => bool_decide (ms_run m = Some run) && bool_decide (ms_role m = SpeakerAssistant)) (map_to_list (messages db)).

Definition answered (db : AIDB) (run : UUID) : bool :=
  match runs db !! run with
  | Some r => (length (answersOf db run) =? (if bool_decide (rn_status r = RunSucceeded) then 1 else 0))%nat
  | None => true
  end.

End AI.
