(* ===== verification/AIStore.v ===== *)
(** * The store of the assistant's runs

    Models [internal/aiqa/postgres_runtime.go]: admission of a run with its quota, retries,
    cancellation, the two ways a run ends outside the runner, and what a student reads; and
    [postgres_attachments.go] (module [AIAttachments]): the images and texts of a run. *)

From S2P Require Import Prelude GoTime GoText GoStrings GoSha256 GoStrconv Pg OpsModel Keyset AuditLog FilesModel FilesStore UploadService LessonModel LessonFiles AIModel.
From stdpp Require Import base tactics list gmap strings.
From Stdlib Require Import ZArith Lia.

Open Scope Z_scope.

Module AIStore.
Import Lessons AI.

(** A check of the server that fails the statement. *)
Definition demand (b : bool) : DB AIDB Error unit := if b then dret tt else dfail ErrDatabase.

Section Store.
Context `{PgTime}.

(** ** Reading *)
Definition imageTypes : list string := ["image/jpeg"; "image/png"; "image/webp"; "image/gif"]%string.
Definition detected (v : VersionRow) : string := or_zero EmptyString (v_detected v).

Definition metadataOf (db : AIDB) (version : UUID) (k : LinkRow) : option AttachmentMetadata :=
  match versions (fileDB db) !! version with
  | Some v => Some (MkMetadata version (lk_name k) (detected v)
                      (if member imageTypes (detected v) then ModalityVision else ModalityText) (v_size v))
  | None => None
  end.

Definition linksOf (db : AIDB) (message : UUID) : list (UUID * LinkRow) :=
  (fun '((_, v), k) => (v, k)) <$> List.filter (fun '((m, _), _) => (m =? message)%N) (map_to_list (links db)).

Definition ownedBy (db : AIDB) (student message : UUID) : bool :=
  match messages db !! message with
  | Some m => match threads db !! ms_thread m with Some t => (th_student t =? student)%N | None => false end
  | None => false
  end.

Definition messageFiles (db : AIDB) (student message : UUID) : list AttachmentMetadata :=
  if ownedBy db student message
  then omap (fun '(v, k) => metadataOf db v k) (orderBy (fun '(_, k) => [lk_position k]) (linksOf db message))
  else [].

Definition loadMessageAttachments (student message : UUID) : DB AIDB Error (list AttachmentMetadata) :=
  (call ErrDatabase; do db <- dget; dret (messageFiles db student message))%db.

Definition scanRun (db : AIDB) (id : UUID) (r : RunRow) : option Run :=
  let i := rn_identity r in let u := rn_usage r in
  match messages db !! rn_trigger i with
  | Some m =>
      Some (MkRun id (rn_thread i) (rn_trigger i) (ms_body m) [] (rn_status r) (rn_attempt i) (rn_sequence r)
              (or_zero EmptyString (rn_error r)) (sn_modality (rn_snapshot i)) (rn_tokens i) (or_zero 0 (us_input u))
              (or_zero 0 (us_output u)) (or_zero 0 (us_cost u)) (or_zero EmptyString (us_source u)) (rn_created i) (rn_updated r))
  | None => None
  end.

Definition withFiles (l : list AttachmentMetadata) (r : Run) : Run :=
  MkRun (RunID r) (RunThread r) (TriggerMessage r) (TriggerBody r) l (Status r) (AttemptNo r) (LastSequence r) (ErrorCode r)
    (RunModality r) (ReservedTokenCount r) (RunInput r) (RunOutput r) (RunCost r) (RunSource r) (RunCreated r) (RunUpdated r).

Definition runOf (db : AIDB) (student id : UUID) : option RunRow :=
  match runs db !! id with Some r => if (studentOf r =? student)%N then Some r else None | None => None end.

(** [runSelect ... WHERE r.id=$1 AND r.student_id=$2]. *)
Definition selectRun (student id : UUID) : DB AIDB Error Run :=
  (call ErrDatabase;
   do db <- dget;
   match runOf db student id with
   | Some r => match scanRun db id r with Some v => dret v | None => dfail ErrDatabase end
   | None => dfail ErrDatabase
   end)%db.

Definition runByKey (db : AIDB) (student : UUID) (key : string) : option (N * RunRow) :=
  List.find (fun '(_, r) => (studentOf r =? student)%N && bool_decide (rn_key (rn_identity r) = key)) (map_to_list (runs db)).

Definition findRunByKey (student : UUID) (key : string) : DB AIDB Error (option Run) :=
  (call ErrDatabase;
   do db <- dget;
   dret (match runByKey db student key with Some (id, r) => scanRun db id r | None => None end))%db.

Definition scanThread (id : UUID) (t : ThreadRow) : Thread :=
  MkThread id (th_student t) (th_title t) (th_subject t) (th_last t) (th_created t).
Definition scanMessage (id : UUID) (m : MessageRow) : Message :=
  MkMessage id (ms_thread m) (ms_role m) (ms_body m) (or_zero NilUUID (ms_run m)) [] (ms_created m).
Definition withMessageFiles (l : list AttachmentMetadata) (m : Message) : Message :=
  MkMessage (MessageID m) (MessageThread m) (MessageRole m) (MessageBody m) (MessageRun m) l (MessageCreated m).

Definition threadOf (db : AIDB) (student thread : UUID) : option ThreadRow :=
  match threads db !! thread with Some t => if (th_student t =? student)%N then Some t else None | None => None end.

Definition messageKey : N * MessageRow -> list Z := fun '(id, m) => [ns (ms_created m); Z.of_N id].

Definition afterCursor (c : Cursor) : N * MessageRow -> bool :=
  fun '(id, m) => IsZero (CursorTime c) || (ns (CursorTime c) <? ns (ms_created m))
    || ((ns (ms_created m) =? ns (CursorTime c)) && (Z.of_N (CursorID c) <? Z.of_N id)).

Definition threadMessages (db : AIDB) (thread : UUID) : list (N * MessageRow) :=
  orderBy messageKey (List.filter (fun '(_, m) => (ms_thread m =? thread)%N) (map_to_list (messages db))).

Definition pageLimit (default : Z) (c : Cursor) : Z :=
  let limit := if CursorLimit c <=? 0 then default else CursorLimit c in if 100 <? limit then 100 else limit.

(** The page is read with one row more, which tells whether there is a next page. *)
Definition cutPage {A} (at_ : A -> Time) (id : A -> UUID) (limit : Z) (rows : list A) : list A * Cursor :=
  if limit <? Z.of_nat (length rows) then
    let out := take (Z.to_nat limit) rows in
    (out, match last out with Some a => MkCursor (at_ a) (id a) limit | None => noCursor end)
  else (rows, noCursor).

Fixpoint attachAll (student : UUID) (l : list Message) : DB AIDB Error (list Message) :=
  match l with
  | [] => dret []
  | m :: rest =>
      (do a <- loadMessageAttachments student (MessageID m); do r <- attachAll student rest; dret (withMessageFiles a m :: r))%db
  end.

(** The run with the highest attempt, then the newest. *)
Definition latestRun (db : AIDB) (student thread : UUID) : option (N * RunRow) :=
  firstBy (fun '(id, r) => [- rn_attempt (rn_identity r); - ns (rn_created (rn_identity r)); - Z.of_N id])
    (List.filter (fun '(_, r) => (rn_thread (rn_identity r) =? thread)%N && (studentOf r =? student)%N) (map_to_list (runs db))).

Definition GetThread (student thread : UUID) (c : Cursor) : DB AIDB Error ThreadDetail :=
  (call ErrDatabase;
   do db <- dget;
   match threadOf db student thread with
   | None => dfail ErrNotFound
   | Some t =>
     let limit := pageLimit 50 c in
     call ErrDatabase;
     do db <- dget;
     let rows := take (Z.to_nat (limit + 1)) (List.filter (afterCursor c) (threadMessages db thread)) in
     let '(out, next) := cutPage MessageCreated MessageID limit ((fun '(id, m) => scanMessage id m) <$> rows) in
     do l <- attachAll student out;
     call ErrDatabase;
     do db <- dget;
     dret (MkDetail (scanThread thread t) l
             (match latestRun db student thread with Some (id, r) => scanRun db id r | None => None end) next)
   end)%db.

Definition threadKey : N * ThreadRow -> Z * Z := fun '(id, t) => (ns (th_last t), Z.of_N id).

Definition ListThreads (student : UUID) (c : Cursor) : DB AIDB Error (list Thread * Cursor) :=
  (call ErrDatabase;
   do db <- dget;
   let limit := pageLimit 20 c in
   let cursor := if IsZero (CursorTime c) then None else Some (ns (CursorTime c), Z.of_N (CursorID c)) in
   let mine := List.filter (fun '(_, t) => (th_student t =? student)%N) (map_to_list (threads db)) in
   let rows := take (Z.to_nat (limit + 1)) (List.filter (beforeCursor threadKey cursor) (orderDesc threadKey mine)) in
   dret (cutPage LastMessageAt ThreadID limit ((fun '(id, t) => scanThread id t) <$> rows)))%db.

Definition LoadContext (student thread : UUID) : DB AIDB Error (list Message) :=
  (call ErrDatabase;
   do db <- dget;
   let out := (fun '(id, m) => scanMessage id m) <$> (if bool_decide (is_Some (threadOf db student thread)) then threadMessages db thread else []) in
   if bool_decide (out = []) then
     call ErrDatabase;
     do db <- dget;
     fail if negb (bool_decide (is_Some (threadOf db student thread))) with ErrNotFound;
     dret []
   else dret out)%db.

Definition GetRun (student id : UUID) : DB AIDB Error Run :=
  (call ErrDatabase;
   do db <- dget;
   match runOf db student id with
   | None => dfail ErrNotFound
   | Some r =>
     match scanRun db id r with
     | None => dfail ErrNotFound
     | Some v => do l <- loadMessageAttachments student (TriggerMessage v); dret (withFiles l v)
     end
   end)%db.

Definition GetRunByIdempotency (student : UUID) (key : string) : DB AIDB Error (ThreadDetail * Run) :=
  (fail if (student =? NilUUID)%N || negb (validIdempotency key) with ErrNotFound;
   do found <- findRunByKey student key;
   match found with
   | None => dfail ErrNotFound
   | Some v =>
     do l <- loadMessageAttachments student (TriggerMessage v);
     do detail <- GetThread student (RunThread v) noCursor;
     dret (detail, withFiles l v)
   end)%db.

(** ** The quota *)
Definition usedRows (db : AIDB) (student : UUID) (period key : string) : list LedgerRow :=
  snd <$> List.filter (fun '((_, p, _), g) => bool_decide (p = period) && (lg_student g =? student)%N && bool_decide (lg_key g = key))
            (map_to_list (ledger db)).

Definition usedQuota (db : AIDB) (student : UUID) (day month : string) : QuotaUsage :=
  let d := usedRows db student "day" day in let m := usedRows db student "month" month in
  MkUsage (sum64 (lg_requests <$> d)) (sum64 (lg_requests <$> m)) (sum64 (lg_tokens <$> d)) (sum64 (lg_tokens <$> m)).

Definition ownLimits (db : AIDB) (student : UUID) : StudentQuotaLimits :=
  or_zero (MkStudentLimits None None None None) (studentLimits (config db) !! student).

Definition reserveQuota (student : UUID) (r : QuotaReservation) : DB AIDB Error unit :=
  (call ErrDatabase;
   call ErrDatabase;
   do db <- dget;
   match ResolveQuotaLimits (globalLimits (config db)) (ownLimits db student) with
   | Err e => dfail e
   | Ok limits =>
     call ErrDatabase;
     do db <- dget;
     match CheckQuota limits (usedQuota db student (DayKey r) (MonthKey r)) r with Err e => dfail e | Ok _ => dret tt end
   end)%db.

Definition Milliseconds (d : Z) : Z := Z.quot d 1000000.

Definition modelCurrent (m : ModelRow) (p : RuntimeProviderConfig) : bool :=
  let v := Model p in let t := ConfigTimeouts p in
  (md_provider m =? ProviderID p)%N && bool_decide (md_upstream m = Upstream v) && bool_decide (md_modality m = ModelModality v)
  && (md_context m =? ContextTokens v) && (md_maxOutput m =? MaxOutputTokens v) && (md_image m =? ImageQuotaTokens v)
  && (md_inputPrice m =? InputPrice v) && (md_outputPrice m =? OutputPrice v)
  && Bool.eqb (md_enabled m) (Enabled v) && md_enabled m && open_ (md_blocked m) && open_ (QuotaBlockedAt v)
  && (md_connect m =? Milliseconds (Connect t)) && (md_header m =? Milliseconds (ResponseHeader t))
  && (md_idle m =? Milliseconds (IdleStream t)) && (md_total m =? Milliseconds (Total t)).

Definition providerCurrent (r : ProviderRow) (p : RuntimeProviderConfig) : bool :=
  pv_active r && bool_decide (Some (pv_url r) = (URLText <$> ProviderURL p)) && bool_decide (pv_protocol r = Protocol p)
  && (pv_keyVersion r =? KeyVersion p).

Definition promptCurrent (r : PromptRow) (s : RuntimeSnapshot) : bool :=
  let v := Prompt (Provider s) in
  pt_active r && bool_decide (pt_subject r = PromptSubject v) && (pt_version r =? PromptVersion v)
  && bool_decide (hexSum256 (bytes (pt_body r)) = PromptSHA256 s)
  && bool_decide (PromptSHA256 s = hexSum256 (bytes (PromptBody v))).

Definition validateAndLockSnapshot (s : RuntimeSnapshot) : DB AIDB Error unit :=
  let p := Provider s in
  let current {A} (row : option A) (ok : A -> bool) : bool := match row with Some r => ok r | None => false end in
  (fail if (ProviderID p =? NilUUID)%N || negb (bool_decide (is_Some (ProviderURL p))) || (ModelID (Model p) =? NilUUID)%N
        || (PromptID (Prompt p) =? NilUUID)%N || negb (len (PromptSHA256 s) =? 64) with ErrAIDisabled;
   call ErrDatabase;
   do db <- dget;
   fail if negb (current (models (config db) !! ModelID (Model p)) (fun m => modelCurrent m p)) with ErrAIDisabled;
   call ErrDatabase;
   do db <- dget;
   fail if negb (current (providers (config db) !! ProviderID p) (fun r => providerCurrent r p)) with ErrAIDisabled;
   call ErrDatabase;
   do db <- dget;
   fail if negb (current (prompts (config db) !! PromptID (Prompt p)) (fun r => promptCurrent r s)) with ErrAIDisabled;
   dret tt)%db.

(** ** Inserts and updates *)
Definition runIdentity (student thread message : UUID) (attempt : Z) (key : string) (s : RuntimeSnapshot) (r : QuotaReservation)
  (now : Time) : RunIdentity :=
  let p := Provider s in let v := Model p in let t := ConfigTimeouts p in
  MkRunIdentity thread student message attempt key
    (MkRunSnapshot (ProviderID p) (KeyVersion p) (from_option URLText EmptyString (ProviderURL p)) (Protocol p)
       (ModelID v) (Upstream v) (ModelModality v) (ContextTokens v) (MaxOutputTokens v) (ImageQuotaTokens v)
       (InputPrice v) (OutputPrice v) (PromptID (Prompt p)) (PromptSubject (Prompt p)) (PromptVersion (Prompt p)) (PromptSHA256 s)
       (Milliseconds (Connect t)) (Milliseconds (ResponseHeader t)) (Milliseconds (IdleStream t)) (Milliseconds (Total t)))
    (RequestCount r) (TokenCount r) (DayKey r) (MonthKey r) (EstimatorVersion r) (pg now).

Definition noUsage : RunUsage := MkRunUsage None None None None.

Definition queuedRow (i : RunIdentity) (now : Time) : RunRow :=
  MkRunRow i RunQueued None None None noUsage None None None None 0 (pg now) None None.

Definition hasActiveRun (db : AIDB) (student : UUID) : bool :=
  existsb (fun '(_, r) => (studentOf r =? student)%N && active (rn_status r)) (map_to_list (runs db)).

Definition attemptTaken (db : AIDB) (message : UUID) (attempt : Z) : bool :=
  existsb (fun '(_, r) => (rn_trigger (rn_identity r) =? message)%N && (rn_attempt (rn_identity r) =? attempt)) (map_to_list (runs db)).

(** The unique indexes in the order in which the server looks at them. *)
Definition runViolation (db : AIDB) (id : UUID) (i : RunIdentity) : option Violation :=
  if bool_decide (is_Some (runs db !! id)) then Some OtherViolation
  else if bool_decide (is_Some (runByKey db (rn_student i) (rn_key i))) then Some KeyTaken
  else if attemptTaken db (rn_trigger i) (rn_attempt i) then Some OtherViolation
  else if hasActiveRun db (rn_student i) then Some ActiveStudent
  else None.

Definition insertRun (id : UUID) (i : RunIdentity) (now : Time) : DB AIDB Error unit :=
  (call ErrDatabase;
   do db <- dget;
   do _ <- demand (runAllowed db i && runCheck (queuedRow i now));
   match runViolation db id i with
   | Some v => dfail (runtimeDBError v)
   | None => dput (setRuns (<[id := queuedRow i now]> (runs db)) db)
   end)%db.

Definition messageByKey (db : AIDB) (sender : UUID) (key : string) : option (N * MessageRow) :=
  List.find (fun '(_, m) => bool_decide (ms_sender m = Some sender) && bool_decide (ms_key m = Some key)) (map_to_list (messages db)).

Definition messageViolation (db : AIDB) (id : UUID) (m : MessageRow) : option Violation :=
  if bool_decide (is_Some (messages db !! id)) then Some OtherViolation
  else match ms_sender m, ms_key m with
       | Some s, Some k => if bool_decide (is_Some (messageByKey db s k)) then Some KeyTaken else None
       | _, _ =>
           match ms_run m with
           | Some run => if bool_decide (answersOf db run = []) then None else Some OtherViolation
           | None => None
           end
       end.

Definition insertMessage (id : UUID) (m : MessageRow) : DB AIDB Error unit :=
  (call ErrDatabase;
   do db <- dget;
   do _ <- demand (messageAllowed db m && messageCheck m);
   match messageViolation db id m with
   | Some v => dfail (runtimeDBError v)
   | None =>
     do _ <- demand (bool_decide (is_Some (threads db !! ms_thread m)));
     dput (setMessages (<[id := m]> (messages db)) db)
   end)%db.

Definition linkTaken (db : AIDB) (message version : UUID) (position : Z) : bool :=
  existsb (fun '((m, v), k) => (v =? version)%N || ((m =? message)%N && (lk_position k =? position))) (map_to_list (links db)).

(** One row per attachment, in order. *)
Fixpoint insertLinks (message : UUID) (position : Z) (l : list AttachmentMetadata) : DB AIDB Error unit :=
  match l with
  | [] => dret tt
  | a :: rest =>
      (call ErrDatabase;
       do db <- dget;
       let row := MkLinkRow position (MetaName a) in
       do _ <- demand (linkAllowed db message (MetaVersion a) && linkCheck row
                       && negb (linkTaken db message (MetaVersion a) position));
       do _ <- dput (linked (setLinks (<[(message, MetaVersion a) := row]> (links db)) db));
       insertLinks message (position + 1) rest)%db
  end.

(** A ledger row; [onConflict] says whether an existing one is left as it is. *)
Definition insertLedger (onConflict : bool) (run : UUID) (period action : string) (g : LedgerRow) : DB AIDB Error unit :=
  (call ErrDatabase;
   do db <- dget;
   do _ <- demand (ledgerAllowed db run period g);
   match ledger db !! (run, period, action) with
   | Some _ => demand onConflict
   | None => dput (setLedger (<[(run, period, action) := g]> (ledger db)) db)
   end)%db.

Definition insertReserveRows (student run : UUID) (r : QuotaReservation) (now : Time) : DB AIDB Error unit :=
  (do _ <- insertLedger false run "day" "reserve" (MkLedgerRow student (DayKey r) (RequestCount r) (TokenCount r) (pg now));
   insertLedger false run "month" "reserve" (MkLedgerRow student (MonthKey r) (RequestCount r) (TokenCount r) (pg now)))%db.

Definition insertEvent (run : UUID) (sequence : Z) (e : EventRow) : DB AIDB Error unit :=
  (call ErrDatabase;
   do db <- dget;
   do _ <- demand (eventCheck sequence e && bool_decide (is_Some (runs db !! run)) && negb (bool_decide (is_Some (runEvents db !! (run, sequence)))));
   dput (setEvents (<[(run, sequence) := e]> (runEvents db)) db))%db.

Definition updateRun (id : UUID) (old new : RunRow) : DB AIDB Error unit :=
  (call ErrDatabase;
   do db <- dget;
   do _ <- demand (updateAllowed old new && runCheck new);
   dput (setRuns (<[id := new]> (runs db)) db))%db.

(** What is checked when the transaction commits. *)
Definition deferred (run : UUID) : DB AIDB Error unit := (do db <- dget; demand (answered db run))%db.

Definition touchThread (thread : UUID) (now : Time) : DB AIDB Error unit :=
  (call ErrDatabase;
   do db <- dget;
   match threads db !! thread with
   | Some t => dput (setThreads (<[thread := MkThreadRow (th_student t) (th_title t) (th_subject t) (pg now) (th_created t)]> (threads db)) db)
   | None => dret tt
   end)%db.

Definition insertThread (id : UUID) (t : ThreadRow) : DB AIDB Error unit :=
  (call ErrDatabase;
   do db <- dget;
   do _ <- demand (threadCheck t && negb (bool_decide (is_Some (threads db !! id)))
                   && bool_decide (is_Some (people (lessonDB db) !! th_student t)));
   dput (setThreads (<[id := t]> (threads db)) db))%db.

(** ** Admission *)
Definition validAdmission (a : RuntimeAdmission) : bool :=
  let r := AdmReservation a in
  negb (AdmStudent a =? NilUUID)%N && negb (AdmThread a =? NilUUID)%N && negb (AdmMessage a =? NilUUID)%N && validBody (AdmBody a)
  && validIdempotency (AdmKey a) && (0 <? AdmAttempt a)
  && (negb (AdmCreate a) || (validTitle (AdmTitle a) && subjectOK (AdmSubject a)))
  && (0 <? RequestCount r) && (0 <=? TokenCount r) && negb (bool_decide (DayKey r = EmptyString))
  && negb (bool_decide (MonthKey r = EmptyString)).

(** The admission asks for what the run with its key was admitted for. *)
Definition sameAdmission (a : RuntimeAdmission) (detail : ThreadDetail) (v : Run) : bool :=
  let t := DetailThread detail in
  ((negb (AdmCreate a) && (RunThread v =? AdmThread a)%N)
   || (AdmCreate a && bool_decide (ThreadTitle t = AdmTitle a) && bool_decide (ThreadSubject t = AdmSubject a)))
  && bool_decide (TriggerBody v = AdmBody a) && sameMetadataBindings (AdmFiles a) (TriggerFiles v).

Definition newMessage (a : RuntimeAdmission) : MessageRow :=
  MkMessageRow (AdmThread a) SpeakerStudent (Some (AdmStudent a)) (AdmBody a) None (Some (AdmKey a)) (pg (AdmNow a)).

Definition admitNew (a : RuntimeAdmission) : DB AIDB Error (ThreadDetail * Run) :=
  (call ErrDatabase;
   do db <- dget;
   fail if negb (activeStudent db (AdmStudent a)) with ErrNotFound;
   do _ <- (if AdmCreate a then dret tt
            else call ErrDatabase;
                 do db <- dget;
                 match threadOf db (AdmStudent a) (AdmThread a) with
                 | Some t => if bool_decide (th_subject t = AdmSubject a) then dret tt else dfail ErrNotFound
                 | None => dfail ErrNotFound
                 end);
   do _ <- validateAndLockSnapshot (AdmSnapshot a);
   do _ <- reserveQuota (AdmStudent a) (AdmReservation a);
   do _ <- (if AdmCreate a
            then insertThread (AdmThread a) (MkThreadRow (AdmStudent a) (AdmTitle a) (AdmSubject a) (pg (AdmNow a)) (pg (AdmNow a)))
            else dret tt);
   do _ <- insertMessage (AdmMessage a) (newMessage a);
   do _ <- insertLinks (AdmMessage a) 0 (AdmFiles a);
   do id <- newUUID;
   do _ <- insertRun id (runIdentity (AdmStudent a) (AdmThread a) (AdmMessage a) (AdmAttempt a) (AdmKey a) (AdmSnapshot a)
                           (AdmReservation a) (AdmNow a)) (AdmNow a);
   do _ <- insertReserveRows (AdmStudent a) id (AdmReservation a) (AdmNow a);
   do _ <- touchThread (AdmThread a) (AdmNow a);
   do v <- selectRun (AdmStudent a) id;
   do detail <- GetThread (AdmStudent a) (AdmThread a) noCursor;
   do _ <- deferred id;
   dret (detail, v))%db.

Definition admitBody (a : RuntimeAdmission) : DB AIDB Error (ThreadDetail * Run) :=
  (call ErrDatabase;
   do found <- findRunByKey (AdmStudent a) (AdmKey a);
   match found with
   | Some v =>
     do detail <- GetThread (AdmStudent a) (RunThread v) noCursor;
     do l <- loadMessageAttachments (AdmStudent a) (TriggerMessage v);
     let v := withFiles l v in
     fail if negb (sameAdmission a detail v) with ErrRunConflict;
     dret (detail, v)
   | None => admitNew a
   end)%db.

Definition AdmitRun (a : RuntimeAdmission) : DB AIDB Error (ThreadDetail * Run) :=
  (fail if negb (validAdmission a) with ErrInvalidInput;
   transact ErrDatabase ErrDatabase (admitBody a))%db.

(** ** Retries *)
Definition nextAttempt (db : AIDB) (message : UUID) : Z :=
  fold_left Z.max (rn_attempt ∘ rn_identity ∘ snd <$>
    List.filter (fun '(_, r) => (rn_trigger (rn_identity r) =? message)%N) (map_to_list (runs db))) 0 + 1.

Definition retryNew (a : RetryAdmission) (thread message : UUID) : DB AIDB Error (ThreadDetail * Run) :=
  (call ErrDatabase;
   do db <- dget;
   let attempt := nextAttempt db message in
   do _ <- validateAndLockSnapshot (RetrySnapshot a);
   do _ <- reserveQuota (RetryStudent a) (RetryReservation a);
   do _ <- insertRun (RetryRunID a) (runIdentity (RetryStudent a) thread message attempt (RetryKey a) (RetrySnapshot a)
                                       (RetryReservation a) (RetryNow a)) (RetryNow a);
   do _ <- insertReserveRows (RetryStudent a) (RetryRunID a) (RetryReservation a) (RetryNow a);
   do v <- selectRun (RetryStudent a) (RetryRunID a);
   do detail <- GetThread (RetryStudent a) thread noCursor;
   do _ <- deferred (RetryRunID a);
   dret (detail, v))%db.

Definition retryBody (a : RetryAdmission) : DB AIDB Error (ThreadDetail * Run) :=
  (call ErrDatabase;
   call ErrDatabase;
   do db <- dget;
   match runOf db (RetryStudent a) (SourceRun a) with
   | None => dfail ErrNotFound
   | Some source =>
     let message := rn_trigger (rn_identity source) in
     fail if negb (bool_decide (rn_status source = RunFailed) || bool_decide (rn_status source = RunCancelled)) with ErrRunConflict;
     do found <- findRunByKey (RetryStudent a) (RetryKey a);
     match found with
     | Some v =>
       fail if negb (TriggerMessage v =? message)%N with ErrRunConflict;
       do detail <- GetThread (RetryStudent a) (RunThread v) noCursor;
       dret (detail, v)
     | None => retryNew a (rn_thread (rn_identity source)) message
     end
   end)%db.

Definition RetryRun (a : RetryAdmission) : DB AIDB Error (ThreadDetail * Run) :=
  (fail if (RetryStudent a =? NilUUID)%N || (SourceRun a =? NilUUID)%N || (RetryRunID a =? NilUUID)%N
        || negb (validIdempotency (RetryKey a)) with ErrInvalidInput;
   transact ErrDatabase ErrDatabase (retryBody a))%db.

(** ** Ends outside the runner *)
Definition statusText (s : RunStatus) : string :=
  match s with
  | RunQueued => "queued" | RunStreaming => "streaming" | RunSucceeded => "succeeded" | RunFailed => "failed" | RunCancelled => "cancelled"
  end.

(** The entries that take a reservation back. *)
Definition releaseRow (r : RunRow) (key : string) (now : Time) : LedgerRow :=
  MkLedgerRow (studentOf r) key (- rn_requests (rn_identity r)) (- rn_tokens (rn_identity r)) (pg now).
Definition settleRow (r : RunRow) (key : string) (charged : Z) (now : Time) : LedgerRow :=
  MkLedgerRow (studentOf r) key (rn_requests (rn_identity r)) charged (pg now).

Definition releaseQuota (id : UUID) (r : RunRow) (now : Time) : DB AIDB Error unit :=
  let i := rn_identity r in
  (do _ <- insertLedger true id "day" "release" (releaseRow r (rn_day i) now);
   insertLedger true id "month" "release" (releaseRow r (rn_month i) now))%db.

Definition settlePeriod (id : UUID) (r : RunRow) (period key : string) (charged : Z) (now : Time) : DB AIDB Error unit :=
  (do _ <- insertLedger true id period "settle" (settleRow r key charged now);
   insertLedger true id period "release" (releaseRow r key now))%db.

Definition settleQuota (id : UUID) (r : RunRow) (charged : Z) (now : Time) : DB AIDB Error unit :=
  (do _ <- settlePeriod id r "day" (rn_day (rn_identity r)) charged now;
   settlePeriod id r "month" (rn_month (rn_identity r)) charged now)%db.

(** A row that ends: the lease goes, the rest is given. *)
Definition endedRow (r : RunRow) (s : RunStatus) (u : RunUsage) (first total : option Z) (finish error : option string)
  (sequence : Z) (now : Time) : RunRow :=
  MkRunRow (rn_identity r) s None None (rn_cancel r) u first total finish error sequence (pg now) (rn_started r) (Some (pg now)).

Definition unknownUsage (u : RunUsage) : RunUsage := MkRunUsage (Some "unknown"%string) (us_input u) (us_output u) (us_cost u).

Definition nilIfEmpty (s : string) : option string := if bool_decide (s = EmptyString) then None else Some s.

Definition requestedRow (r : RunRow) (now : Time) : RunRow :=
  MkRunRow (rn_identity r) (rn_status r) (rn_owner r) (rn_until r) (coalesce (rn_cancel r) (Some (pg now))) (rn_usage r)
    (rn_firstByte r) (rn_totalMS r) (rn_finish r) (rn_error r) (rn_sequence r) (pg now) (rn_started r) (rn_completed r).

Definition releaseBody (student id : UUID) (target : RunStatus) (code : string) (now : Time) : DB AIDB Error Run :=
  (call ErrDatabase;
   call ErrDatabase;
   do db <- dget;
   match runOf db student id with
   | None => dfail ErrNotFound
   | Some r =>
     if bool_decide (rn_status r = target) then selectRun student id
     else
       fail if terminal (rn_status r) with ErrRunConflict;
       if bool_decide (target = RunCancelled) && bool_decide (rn_status r = RunStreaming) then
         do _ <- updateRun id r (requestedRow r now);
         do v <- selectRun student id;
         do _ <- deferred id;
         dret v
       else
         call ErrDatabase;
         let sequence := rn_sequence r + 1 in
         do _ <- demand (inInt64 sequence);
         do _ <- insertEvent id sequence (MkEventRow (statusText target) "" (Some code) (pg now));
         do _ <- updateRun id r (endedRow r target (unknownUsage (rn_usage r)) (rn_firstByte r) (rn_totalMS r) (rn_finish r)
                                  (Some code) sequence now);
         do _ <- releaseQuota id r now;
         do v <- selectRun student id;
         do _ <- deferred id;
         dret v
   end)%db.

Definition releaseTerminal (student id : UUID) (target : RunStatus) (code : string) (now : Time) : DB AIDB Error Run :=
  transact ErrDatabase ErrDatabase (releaseBody student id target code now).

Definition CancelRun (student id : UUID) (now : Time) : DB AIDB Error Run := releaseTerminal student id RunCancelled "cancelled" now.
Definition FailRun (student id : UUID) (code : string) (now : Time) : DB AIDB Error Run :=
  releaseTerminal student id RunFailed (if bool_decide (code = EmptyString) then "run_failed" else code) now.

(** A charge above the reservation blocks the model until an administrator looks at it. *)
Definition blockModel (model : UUID) (now : Time) : DB AIDB Error unit :=
  (call ErrDatabase;
   do db <- dget;
   let c := config db in
   match models c !! model with
   | Some m =>
     if open_ (md_blocked m) then
       let m' := MkModelRow (md_provider m) (md_upstream m) (md_modality m) (md_context m) (md_maxOutput m) (md_image m) (md_inputPrice m)
                   (md_outputPrice m) (md_enabled m) (Some (pg now)) (md_version m + 1) (md_connect m) (md_header m) (md_idle m) (md_total m) in
       dput (setConfig (MkConfigTables (globalLimits c) (studentLimits c) (<[model := m']> (models c)) (providers c) (prompts c)) db)
     else dret tt
   | None => dret tt
   end)%db.

Definition answerRow (r : RunRow) (id : UUID) (body : string) (now : Time) : MessageRow :=
  MkMessageRow (rn_thread (rn_identity r)) SpeakerAssistant None body (Some id) None (pg now).

Definition givenUsage (source : string) (input output cost : Z) : RunUsage :=
  MkRunUsage (Some source) (Some input) (Some output) (Some cost).

Definition usageReported (source : string) : bool := member ["upstream"; "estimated"]%string source.

Definition succeedBody (student id : UUID) (body : string) (u : TerminalUsage) (now : Time) : DB AIDB Error Run :=
  (call ErrDatabase;
   call ErrDatabase;
   do db <- dget;
   match runOf db student id with
   | None => dfail ErrNotFound
   | Some r =>
     if bool_decide (rn_status r = RunSucceeded) then selectRun student id
     else
       fail if negb (bool_decide (rn_status r = RunStreaming)) with ErrRunConflict;
       let reserved := rn_tokens (rn_identity r) in
       let actual := add64 (TermInput u) (TermOutput u) in
       do _ <- (if reserved <? actual then blockModel (sn_model (rn_snapshot (rn_identity r))) now else dret tt);
       let charged := Z.min actual reserved in
       do _ <- updateRun id r (endedRow r RunSucceeded (givenUsage (TermSource u) (TermInput u) (TermOutput u) (TermCost u))
                                (rn_firstByte r) (rn_totalMS r) (nilIfEmpty (TermFinish u)) None (rn_sequence r) now);
       do answer <- newUUID;
       do _ <- insertMessage answer (answerRow r id body now);
       do _ <- settleQuota id r charged now;
       do v <- selectRun student id;
       do _ <- deferred id;
       dret v
   end)%db.

Definition SucceedRun (student id : UUID) (body : string) (u : TerminalUsage) (now : Time) : DB AIDB Error Run :=
  (fail if negb (validBody body) || (TermInput u <? 0) || (TermOutput u <? 0) || (TermCost u <? 0)
        || negb (usageReported (TermSource u)) with ErrInvalidInput;
   transact ErrDatabase ErrDatabase (succeedBody student id body u now))%db.

End Store.

End AIStore.

(** * Files attached to the assistant's messages

    Models [internal/aiqa/postgres_attachments.go] over the file tables.  [fetch] is the
    object store: what a key holds and the size it is announced with, as long as a call
    lasts. *)

Module AIAttachments.
Import Lessons AI AIStore.

Definition Fetch : Type := string -> option (Objects.Reader * Objects.ObjectInfo).

Definition MaxAttachmentTextBytes : Z := Z.shiftl 2 20.

Definition isAIImageMIME (mime : string) : bool := member imageTypes mime.
Definition isAITextMIME (mime : string) : bool :=
  member ["application/pdf"; "application/vnd.openxmlformats-officedocument.wordprocessingml.document"; "text/plain"; "text/markdown"]%string mime.

Section Attachments.
Variables (previewObjects originalObjects : Fetch).

(** A version of a file that an active student uploaded for the assistant, whatever its
    state. *)
Definition ownVersion (db : AIDB) (student version : UUID) : option VersionRow :=
  match versions (fileDB db) !! version with
  | Some v =>
      match files (fileDB db) !! v_file v with
      | Some f =>
          if activeStudent db student && (file_createdBy f =? student)%N && open_ (file_deletedAt f) && (v_createdBy v =? student)%N
             && bool_decide (v_purpose v = Files.UploadPurposeAI) && open_ (v_purged v)
          then Some v else None
      | None => None
      end
  | None => None
  end.

Definition textPreview (db : AIDB) (version : UUID) : option PreviewRow := previews (fileDB db) !! (version, "ai_text"%string).

Definition readyAndClean (v : VersionRow) : bool :=
  bool_decide (v_state v = "ready"%string) && bool_decide (v_scan v = Some "clean"%string).

(** One turn of the loop over the inputs. *)
Definition attachmentFor (db : AIDB) (student : UUID) (i : AttachmentInput) : result Error AttachmentMetadata :=
  match ownVersion db student (InVersion i) with
  | None => Err ErrNotFound
  | Some v =>
      (reject negb (readyAndClean v) || bool_decide (detected v = EmptyString) with ErrAttachmentNotReady;
       if isAIImageMIME (detected v) then Ok (MkMetadata (InVersion i) (v_name v) (detected v) ModalityVision (v_size v))
       else
         reject negb (isAITextMIME (detected v)) || negb (bool_decide (is_Some (textPreview db (InVersion i)))) with ErrAttachmentNotReady;
         Ok (MkMetadata (InVersion i) (v_name v) (detected v) ModalityText (v_size v)))%go
  end.

Fixpoint attachments (student : UUID) (inputs : list AttachmentInput) : DB AIDB Error (list (Z * AttachmentMetadata)) :=
  match inputs with
  | [] => dret []
  | i :: rest =>
      (call ErrDatabase;
       do db <- dget;
       match attachmentFor db student i with
       | Err e => dfail e
       | Ok a => do l <- attachments student rest; dret ((InPosition i, a) :: l)
       end)%db
  end.

Definition ValidateForAI (student thread : UUID) (inputs : list AttachmentInput) : DB AIDB Error (list AttachmentMetadata) :=
  (fail if (student =? NilUUID)%N || negb (validateAttachmentInputs inputs) with ErrInvalidInput;
   do _ <- (if (thread =? NilUUID)%N then dret tt
            else call ErrDatabase;
                 do db <- dget;
                 if bool_decide (is_Some (threadOf db student thread)) then dret tt else dfail ErrNotFound);
   do l <- attachments student inputs;
   dret (snd <$> orderBy (fun '(p, _) => [p]) l))%db.

(** [io.ReadAll] of a limited reader, and the checks on what it returns. *)
Definition readTextObject (key : string) (size : Z) (sha : string) : result Error string :=
  (reject bool_decide (key = EmptyString) || (size <? 1) || (MaxAttachmentTextBytes <? size) || negb (len sha =? 64)
     with ErrAttachmentNotReady;
   match previewObjects key with
   | None => Err ErrAttachmentNotReady
   | Some (body, info) =>
     reject negb (Objects.InfoSize info =? size) with ErrAttachmentNotReady;
     let r := Objects.limitReader (MaxAttachmentTextBytes + 1) body in
     let raw := Objects.content r in
     reject Objects.broken r || negb (Z.of_nat (length raw) =? size) || (MaxAttachmentTextBytes <? Z.of_nat (length raw))
         || negb (bool_decide (hexSum256 raw = sha)) || negb (ValidString (fromBytes raw)) || existsb (Z.eqb 0) raw
       with ErrAttachmentNotReady;
     Ok (fromBytes raw)
   end)%go.

Definition LoadAIText (student version : UUID) : DB AIDB Error string :=
  (fail if (student =? NilUUID)%N || (version =? NilUUID)%N with ErrInvalidInput;
   call ErrDatabase;
   do db <- dget;
   match ownVersion db student version with
   | None => dfail ErrNotFound
   | Some v =>
     match textPreview db version with
     | Some p =>
       fail if negb (readyAndClean v) || negb (isAITextMIME (detected v)) with ErrAttachmentNotReady;
       match readTextObject (p_key p) (p_size p) (p_sha p) with Ok text => dret text | Err e => dfail e end
     | None => dfail ErrAttachmentNotReady
     end
   end)%db.

(** The body of an image is handed to the gateway as it comes. *)
Definition openVerifiedImage (key : string) (size : Z) : result Error Objects.Reader :=
  (reject bool_decide (key = EmptyString) || (size <? 1) with ErrAttachmentNotReady;
   match originalObjects key with
   | None => Err ErrAttachmentNotReady
   | Some (body, info) =>
     reject negb (Objects.InfoSize info =? size) with ErrAttachmentNotReady;
     Ok body
   end)%go.

Definition OpenAIImage (student version : UUID) : DB AIDB Error (Objects.Reader * string * Z) :=
  (fail if (student =? NilUUID)%N || (version =? NilUUID)%N with ErrInvalidInput;
   call ErrDatabase;
   do db <- dget;
   match ownVersion db student version with
   | None => dfail ErrNotFound
   | Some v =>
     fail if negb (readyAndClean v) || negb (isAIImageMIME (detected v)) || (v_size v <? 1) with ErrAttachmentNotReady;
     match openVerifiedImage (v_key v) (v_size v) with
     | Ok body => dret (body, detected v, v_size v)
     | Err e => dfail e
     end
   end)%db.

End Attachments.

End AIAttachments.
