(* ===== verification/AIRunnerStore.v ===== *)
(** * The runner's store

    Models [internal/aiqa/postgres_runner.go]: leasing a queued run and preparing its
    request, heartbeats, the events of the stream, the two ways a run ends, and the
    reconciliation of runs whose runner is gone.  Rows locked by other transactions are the
    parameter [locked]; the secret box and [url.Parse] are parameters.  While a request is
    prepared a goroutine renews the lease; its ticks touch nothing that the preparation
    reads, so they are taken together at its beginning ([ticks]). *)

From S2P Require Import Prelude GoTime GoText GoStrings GoSha256 GoStrconv Pg OpsModel Keyset FilesModel FilesStore LessonModel AIModel AIStore.
From stdpp Require Import base tactics list gmap strings.
From Stdlib Require Import ZArith Lia.

Open Scope Z_scope.

Module AIRunnerStore.
Import Lessons AI AIStore AIAttachments.

(** The row of a run that [owner] streams. *)
Definition streamedBy (db : AIDB) (id : UUID) (owner : string) : option RunRow :=
  match runs db !! id with
  | Some r => if bool_decide (rn_status r = RunStreaming) && bool_decide (rn_owner r = Some owner) then Some r else None
  | None => None
  end.

Definition cancelRequested (r : RunRow) : bool := bool_decide (is_Some (rn_cancel r)).

Definition usageFor (source : string) (input output cost : Z) : RunUsage :=
  if usageReported source then givenUsage source input output cost else MkRunUsage (Some source) None None None.

(** The claim of a run, taken with the row of [operational_modes]. *)
Definition admittedRun {A} (lock : LockOutcome) (k : DB AIDB Error A) : DB AIDB Error A :=
  fun env '(n, db) =>
    match AdmitClaim lock env (n, mode (fileDB db)) with
    | ((n', _), Ok _) => k env (n', db)
    | ((n', _), Err ErrLeaseHeld) => ((n', db), Err ErrNoRunnableRun)
    | ((n', _), Err _) => ((n', db), Err ErrDatabase)
    end.

(** A call whose error is dropped. *)
Definition quietly (m : DB AIDB Error unit) : DB AIDB Error unit := (do _ <- attempt (E' := Error) m; dret tt)%db.

Section Store.
Context `{PgTime}.

(** ** Rows as they change *)
Definition leasedRow (r : RunRow) (owner : string) (until now : Time) : RunRow :=
  MkRunRow (rn_identity r) RunStreaming (Some owner) (Some (pg until)) (rn_cancel r) (rn_usage r) (rn_firstByte r) (rn_totalMS r)
    (rn_finish r) (rn_error r) (rn_sequence r) (pg now) (Some (pg now)) (rn_completed r).

Definition renewedRow (r : RunRow) (until now : Time) : RunRow :=
  MkRunRow (rn_identity r) (rn_status r) (rn_owner r) (Some (pg until)) (rn_cancel r) (rn_usage r) (rn_firstByte r) (rn_totalMS r)
    (rn_finish r) (rn_error r) (rn_sequence r) now (rn_started r) (rn_completed r).

Definition appendedRow (r : RunRow) (sequence : Z) (now : Time) : RunRow :=
  MkRunRow (rn_identity r) (rn_status r) (rn_owner r) (rn_until r) (rn_cancel r) (rn_usage r) (rn_firstByte r) (rn_totalMS r)
    (rn_finish r) (rn_error r) sequence now (rn_started r) (rn_completed r).

(** ** Heartbeats *)
Definition heartbeatBody (id : UUID) (owner : string) (until : Time) : DB AIDB Error bool :=
  (do now <- databaseNow ErrDatabase;
   do db <- dget;
   match streamedBy db id owner with
   | None => dfail ErrRunnerLeaseLost
   | Some r => do _ <- updateRun id r (renewedRow r until now); dret (cancelRequested r)
   end)%db.

Definition Heartbeat (id : UUID) (owner : string) (until : Time) : DB AIDB Error unit :=
  (fail if (id =? NilUUID)%N || bool_decide (owner = EmptyString) with ErrInvalidInput;
   do cancel <- statement ErrDatabase (heartbeatBody id owner until);
   if cancel : bool then dfail ErrCancelRequested else dret tt)%db.

(** [time.Now().Add(duration).UTC()]. *)
Definition beat (id : UUID) (owner : string) (duration : Z) : DB AIDB Error unit :=
  (do now <- wallNow; Heartbeat id owner (UTC (addDuration now duration)))%db.

Fixpoint heartbeatOnTicks (ticks : nat) (id : UUID) (owner : string) (duration : Z) : DB AIDB Error unit :=
  match ticks with
  | O => dret tt
  | S rest => (do _ <- beat id owner duration; heartbeatOnTicks rest id owner duration)%db
  end.

(** ** Events *)
Fixpoint appendLoop (id : UUID) (sequence : Z) (events : list RunEvent) : DB AIDB Error Z :=
  match events with
  | [] => dret sequence
  | e :: rest =>
      (fail if negb (EventSequence e =? Files.wrapInt64 (sequence + 1)) || negb (member ["delta"; "usage"]%string (EventKind e))
           || (MaxGatewayEventBytes <? len (EventDelta e)) with ErrInvalidInput;
       do now <- (if IsZero (EventAt e) then wallNow else dret (EventAt e));
       do _ <- insertEvent id (EventSequence e) (MkEventRow (EventKind e) (EventDelta e) (nilIfEmpty (EventError e)) (pg now));
       appendLoop id (EventSequence e) rest)%db
  end.

Definition appendBody (id : UUID) (owner : string) (events : list RunEvent) : DB AIDB Error bool :=
  (call ErrDatabase;
   do db <- dget;
   match streamedBy db id owner with
   | None => dfail ErrRunnerLeaseLost
   | Some r =>
     do sequence <- appendLoop id (rn_sequence r) events;
     do now <- databaseNow ErrDatabase;
     do _ <- updateRun id r (appendedRow r sequence now);
     do _ <- deferred id;
     dret (cancelRequested r)
   end)%db.

Definition AppendEvents (id : UUID) (owner : string) (events : list RunEvent) : DB AIDB Error unit :=
  (fail if (id =? NilUUID)%N || bool_decide (owner = EmptyString) || bool_decide (events = []) with ErrInvalidInput;
   do cancel <- transact ErrDatabase ErrDatabase (appendBody id owner events);
   if cancel : bool then dfail ErrCancelRequested else dret tt)%db.

(** ** Ends *)

(** The student of the run is looked up before anything is locked. *)
Definition lockTerminal (id : UUID) : DB AIDB Error unit :=
  (call ErrDatabase;
   do db <- dget;
   fail if negb (bool_decide (is_Some (runs db !! id))) with ErrRunnerLeaseLost;
   call ErrDatabase;
   dret tt)%db.

Definition completeBody (id : UUID) (owner : string) (c : Completion) : DB AIDB Error unit :=
  (do _ <- lockTerminal id;
   call ErrDatabase;
   do db <- dget;
   match streamedBy db id owner with
   | None => dfail ErrRunnerLeaseLost
   | Some r =>
     fail if cancelRequested r with ErrCancelRequested;
     do now <- wallNow;
     let reserved := rn_tokens (rn_identity r) in
     let actual := addCost (DoneInput c) (DoneOutput c) in
     do _ <- (if reserved <? actual then blockModel (sn_model (rn_snapshot (rn_identity r))) now else dret tt);
     let charged := Z.min actual reserved in
     let sequence := rn_sequence r + 1 in
     do _ <- demand (inInt64 sequence);
     do _ <- insertEvent id sequence (MkEventRow "completed" "" None (pg now));
     do _ <- updateRun id r (endedRow r RunSucceeded (givenUsage (DoneSource c) (DoneInput c) (DoneOutput c) (DoneCost c))
                              (Some (FirstByteMS c)) (Some (TotalMS c)) (nilIfEmpty (DoneFinish c)) None sequence now);
     do answer <- newUUID;
     do _ <- insertMessage answer (answerRow r id (Answer c) now);
     do _ <- settleQuota id r charged now;
     deferred id
   end)%db.

Definition Complete (leased : LeasedRun) (c : Completion) : DB AIDB Error unit :=
  let id := RunID (LeasedRunOf leased) in
  (fail if (id =? NilUUID)%N || bool_decide (LeaseOwner leased = EmptyString) || negb (validBody (Answer c))
        || (DoneInput c <? 0) || (DoneOutput c <? 0) || (DoneCost c <? 0) || negb (usageReported (DoneSource c)) with ErrInvalidInput;
   transact ErrDatabase ErrDatabase (completeBody id (LeaseOwner leased) c))%db.

Definition failBody (id : UUID) (owner : string) (f : Failure) : DB AIDB Error unit :=
  (do _ <- lockTerminal id;
   call ErrDatabase;
   do db <- dget;
   match streamedBy db id owner with
   | None => dfail ErrRunnerLeaseLost
   | Some r =>
     do now <- wallNow;
     let sequence := rn_sequence r + 1 in
     do _ <- demand (inInt64 sequence);
     do _ <- insertEvent id sequence (MkEventRow (statusText (FailStatus f)) "" (Some (FailCode f)) (pg now));
     let source := if bool_decide (FailSource f = EmptyString) then "unknown"%string else FailSource f in
     fail if negb (usageReported source || bool_decide (source = "unknown"%string)) with ErrInvalidInput;
     do _ <- updateRun id r (endedRow r (FailStatus f) (usageFor source (FailInput f) (FailOutput f) (FailCost f)) (rn_firstByte r)
                              (Some (FailTotalMS f)) (rn_finish r) (Some (FailCode f)) sequence now);
     do _ <- releaseQuota id r now;
     deferred id
   end)%db.

Definition Fail (leased : LeasedRun) (f : Failure) : DB AIDB Error unit :=
  let id := RunID (LeasedRunOf leased) in
  (fail if (id =? NilUUID)%N || bool_decide (LeaseOwner leased = EmptyString)
        || negb (bool_decide (FailStatus f = RunFailed) || bool_decide (FailStatus f = RunCancelled))
        || bool_decide (FailCode f = EmptyString) || (FailInput f <? 0) || (FailOutput f <? 0) || (FailCost f <? 0) with ErrInvalidInput;
   transact ErrDatabase ErrDatabase (failBody id (LeaseOwner leased) f))%db.

(** ** Reconciliation *)
Definition expiredBefore (now : Time) (r : RunRow) : bool :=
  bool_decide (rn_status r = RunStreaming) && match rn_until r with Some t => Before t (pg now) | None => false end.

(** The milliseconds since the start, rounded as [numeric] is. *)
Definition elapsedMS (r : RunRow) (now : Time) : option Z :=
  (fun started => Z.max 0 ((ns (pg now) - ns started + 500000) / 1000000)) <$> rn_started r.

Definition firstExpired (db : AIDB) (now : Time) : option (N * RunRow) :=
  firstBy (fun '(id, r) => [from_option ns 0 (rn_until r); Z.of_N id])
    (List.filter (fun '(_, r) => expiredBefore now r) (map_to_list (runs db))).

Definition reconcileBody (locked : UUID -> bool) (now : Time) : DB AIDB Error bool :=
  (call ErrDatabase;
   do db <- dget;
   match firstExpired db now with
   | None => dret false
   | Some (id, r) =>
     call ErrDatabase;
     call ErrDatabase;
     if locked id then dret true
     else
       let sequence := rn_sequence r + 1 in
       do _ <- demand (inInt64 sequence);
       do _ <- insertEvent id sequence (MkEventRow "failed" "" (Some "runner_lost"%string) (pg now));
       do _ <- updateRun id r (endedRow r RunFailed (unknownUsage (rn_usage r)) (rn_firstByte r) (elapsedMS r now) (rn_finish r)
                                (Some "runner_lost"%string) sequence now);
       do _ <- releaseQuota id r now;
       do _ <- deferred id;
       dret true
   end)%db.

Definition reconcileOneExpired (locked : UUID -> bool) (now : Time) : DB AIDB Error bool :=
  transact ErrDatabase ErrDatabase (reconcileBody locked now).

(** A queued run has no lease; should one have, it is taken away. *)
Definition unleased (now : Time) (r : RunRow) : RunRow :=
  if bool_decide (rn_status r = RunQueued) && match rn_until r with Some t => Before t (pg now) | None => false end
  then MkRunRow (rn_identity r) (rn_status r) None None (rn_cancel r) (rn_usage r) (rn_firstByte r) (rn_totalMS r)
         (rn_finish r) (rn_error r) (rn_sequence r) (pg now) (rn_started r) (rn_completed r)
  else r.

Definition clearQueued (now : Time) : DB AIDB Error unit :=
  statement ErrDatabase (call ErrDatabase; do db <- dget; dput (setRuns (unleased now <$> runs db) db))%db.

Fixpoint reconcileLoop (locked : UUID -> bool) (now : Time) (limit : nat) : DB AIDB Error unit :=
  match limit with
  | O => dret tt
  | S rest => (do found <- reconcileOneExpired locked now; if found : bool then reconcileLoop locked now rest else dret tt)%db
  end.

Definition ReconcileExpired (locked : UUID -> bool) (now : Time) (limit : Z) : DB AIDB Error unit :=
  (do _ <- clearQueued now;
   reconcileLoop locked now (Z.to_nat (if limit <=? 0 then 100 else limit)))%db.

(** ** Leasing *)
Definition oldestFirst : N * RunRow -> list Z := fun '(id, r) => [ns (rn_created (rn_identity r)); Z.of_N id].

(** A queued run admitted under a key that the provider no longer has. *)
Definition rotatedKey (db : AIDB) (r : RunRow) : bool :=
  let s := rn_snapshot (rn_identity r) in
  bool_decide (rn_status r = RunQueued)
  && match providers (config db) !! sn_provider s with
     | Some p => negb (pv_keyVersion p =? sn_keyVersion s)
     | None => false
     end.

Definition failQueuedRunWithRotatedKey (locked : UUID -> bool) (now : Time) : DB AIDB Error bool :=
  (call ErrDatabase;
   do db <- dget;
   match firstBy oldestFirst (List.filter (fun '(id, r) => rotatedKey db r && negb (locked id)) (map_to_list (runs db))) with
   | None => dret false
   | Some (id, r) =>
     let sequence := rn_sequence r + 1 in
     do _ <- demand (inInt64 sequence);
     do _ <- insertEvent id sequence (MkEventRow "failed" "" (Some "provider_key_rotated"%string) (pg now));
     do _ <- updateRun id r (endedRow r RunFailed (unknownUsage (rn_usage r)) (rn_firstByte r) (rn_totalMS r) (rn_finish r)
                              (Some "provider_key_rotated"%string) sequence now);
     do _ <- releaseQuota id r now;
     do _ <- deferred id;
     dret true
   end)%db.

Definition candidate (locked : UUID -> bool) (db : AIDB) : option (N * RunRow) :=
  firstBy oldestFirst (List.filter (fun '(id, r) => bool_decide (rn_status r = RunQueued) && negb (locked id)) (map_to_list (runs db))).

Definition ofMillis (ms : Z) : Z := ms * 1000000.

(** The run as [RETURNING] and the scan leave it. *)
Definition leasedOf (id : UUID) (r : RunRow) (owner : string) : LeasedRun :=
  let i := rn_identity r in let s := rn_snapshot i in
  MkLeased
    (MkRun id (rn_thread i) (rn_trigger i) "" [] (rn_status r) (rn_attempt i) (rn_sequence r) "" (sn_modality s) (rn_tokens i)
       0 0 0 "" (rn_created i) (rn_updated r))
    (MkConfig (sn_provider s) (sn_keyVersion s) None (sn_protocol s) []
       (MkModel (sn_model s) (sn_provider s) (sn_upstream s) (sn_modality s) (sn_context s) (sn_maxOutput s) (sn_image s)
          (sn_inputPrice s) (sn_outputPrice s) true None)
       (MkPrompt (sn_prompt s) (sn_subject s) (sn_version s) "" true)
       (MkTimeouts (ofMillis (sn_connect s)) (ofMillis (sn_header s)) (ofMillis (sn_idle s)) (ofMillis (sn_total s))))
    (MkRequest NilUUID "" "" [] [] 0) owner.

Definition withConfig (url : BaseURL) (prompt : string) (l : LeasedRun) : LeasedRun :=
  let c := LeasedConfig l in let p := Prompt c in
  MkLeased (LeasedRunOf l)
    (MkConfig (ProviderID c) (KeyVersion c) (Some url) (Protocol c) (APIKey c) (Model c)
       (MkPrompt (PromptID p) (PromptSubject p) (PromptVersion p) prompt (PromptActive p)) (ConfigTimeouts c))
    (LeasedRequest l) (LeaseOwner l).

Definition withKey (key : list Z) (l : LeasedRun) : LeasedRun :=
  let c := LeasedConfig l in
  MkLeased (LeasedRunOf l)
    (MkConfig (ProviderID c) (KeyVersion c) (ProviderURL c) (Protocol c) key (Model c) (Prompt c) (ConfigTimeouts c))
    (LeasedRequest l) (LeaseOwner l).

Definition withTrigger (body : string) (l : LeasedRun) : LeasedRun :=
  let r := LeasedRunOf l in
  MkLeased (MkRun (RunID r) (RunThread r) (TriggerMessage r) body (TriggerFiles r) (Status r) (AttemptNo r) (LastSequence r)
              (ErrorCode r) (RunModality r) (ReservedTokenCount r) (RunInput r) (RunOutput r) (RunCost r) (RunSource r)
              (RunCreated r) (RunUpdated r))
    (LeasedConfig l) (LeasedRequest l) (LeaseOwner l).

Definition withRequest (q : GatewayRequest) (l : LeasedRun) : LeasedRun :=
  MkLeased (LeasedRunOf l) (LeasedConfig l) q (LeaseOwner l).

(** What the first transaction of [LeaseNext] reads: the run, its student, the encrypted
    key, and the messages before the one that started the run. *)
Record Taken := MkTaken { TakenRun : LeasedRun; TakenStudent : UUID; Encrypted : list Z; History : list Message }.

(** The rows before the trigger carry their role and their text only. *)
Definition bare (m : MessageRow) : Message := MkMessage NilUUID NilUUID (ms_role m) (ms_body m) NilUUID [] zeroTime.

Definition earlierMessages (db : AIDB) (thread trigger : UUID) : list Message :=
  match messages db !! trigger with
  | Some t =>
      (bare ∘ snd) <$> List.filter (fun '(id, m) => (ns (ms_created m) <? ns (ms_created t))
                                     || ((ns (ms_created m) =? ns (ms_created t)) && (id <? trigger)%N))
                         (threadMessages db thread)
  | None => []
  end.

Definition promptOf (db : AIDB) (s : RunSnapshot) : option PromptRow :=
  match prompts (config db) !! sn_prompt s with
  | Some p => if promptMatches p s then Some p else None
  | None => None
  end.

Definition providerOf (db : AIDB) (s : RunSnapshot) : option ProviderRow :=
  match providers (config db) !! sn_provider s with
  | Some p => if pv_keyVersion p =? sn_keyVersion s then Some p else None
  | None => None
  end.

Definition bodyIn (db : AIDB) (message thread : UUID) : option string :=
  match messages db !! message with
  | Some m => if (ms_thread m =? thread)%N then Some (ms_body m) else None
  | None => None
  end.

Section Lease.
Variable parseURL : string -> option BaseURL.

Definition usableURL (raw : string) : option BaseURL :=
  match parseURL raw with
  | Some u => if bool_decide (URLScheme u = EmptyString) || bool_decide (URLHost u = EmptyString) then None else Some u
  | None => None
  end.

(** The run is leased, then what its request needs is read. *)
Definition takeRun (locked : UUID -> bool) (owner : string) (now : Time) (duration : Z) : DB AIDB Error Taken :=
  (call ErrDatabase;
   do db <- dget;
   match candidate locked db with
   | None => dfail ErrNoRunnableRun
   | Some (id, r) =>
     let row := leasedRow r owner (addDuration now duration) now in
     let i := rn_identity r in let s := rn_snapshot i in
     do _ <- demand (updateAllowed r row && runCheck row);
     do _ <- dput (setRuns (<[id := row]> (runs db)) db);
     match usableURL (sn_url s) with
     | None => dfail ErrProviderUnavailable
     | Some url =>
       call ErrDatabase;
       do db <- dget;
       match providerOf db s with
       | None => dfail ErrProviderUnavailable
       | Some provider =>
         call ErrDatabase;
         do db <- dget;
         match promptOf db s with
         | None => dfail ErrProviderUnavailable
         | Some prompt =>
           call ErrDatabase;
           do db <- dget;
           match bodyIn db (rn_trigger i) (rn_thread i) with
           | None => dfail ErrDatabase
           | Some body =>
             call ErrDatabase;
             do db <- dget;
             do _ <- deferred id;
             dret (MkTaken (withTrigger body (withConfig url (pt_body prompt) (leasedOf id row owner))) (rn_student i)
                     (pv_secret provider) (earlierMessages db (rn_thread i) (rn_trigger i)))
           end
         end
       end
     end
   end)%db.

(** A failed run with a rotated key is committed, but nothing is leased. *)
Definition leaseBody (lock : LockOutcome) (locked : UUID -> bool) (owner : string) (now : Time) (duration : Z) :
  DB AIDB Error (option Taken) :=
  admittedRun lock
    (do rotated <- failQueuedRunWithRotatedKey locked now;
     if rotated : bool then dret None
     else do taken <- takeRun locked owner now duration; dret (Some taken))%db.

Definition leaseRun (lock : LockOutcome) (locked : UUID -> bool) (owner : string) (now : Time) (duration : Z) : DB AIDB Error Taken :=
  (fail if bool_decide (owner = EmptyString) || (128 <? len owner) || (duration <=? 0) with ErrInvalidInput;
   do taken <- transact ErrDatabase ErrDatabase (leaseBody lock locked owner now duration);
   match taken with Some t => dret t | None => dfail ErrNoRunnableRun end)%db.

End Lease.

(** ** Preparation *)
Section Preparation.
Variables (parseURL : string -> option BaseURL) (openBox : UUID -> Z -> list Z -> option (list Z)).
Variables (previewObjects : Fetch).

Definition verifyPreparedLease (l : LeasedRun) (now : Time) : DB AIDB Error unit :=
  (call ErrDatabase;
   do db <- dget;
   match streamedBy db (RunID (LeasedRunOf l)) (LeaseOwner l) with
   | Some r =>
     fail if negb (match rn_until r with Some t => Before (pg now) t | None => false end) with ErrRunnerLeaseLost;
     fail if cancelRequested r with ErrCancelRequested;
     dret tt
   | None => dfail ErrRunnerLeaseLost
   end)%db.

Definition failureOf (status : RunStatus) (code : string) : Failure := MkFailure status code "unknown" 0 0 0 0.

Definition failPreparation (l : LeasedRun) (code : string) : DB AIDB Error unit := quietly (Fail l (failureOf RunFailed code)).

(** [ended] says whether the caller's context has ended. *)
Definition finishLostPreparation (ended : bool) (l : LeasedRun) (e : Error) : DB AIDB Error unit :=
  (if ended || bool_decide (e = ErrRunnerLeaseLost) then dret tt
   else quietly (Fail l (if bool_decide (e = ErrCancelRequested) then failureOf RunCancelled "cancelled"
                         else failureOf RunFailed "preparation_store_failure")))%db.

Definition paragraph : string := fromBytes [10; 10].
Definition attachmentHeading : string := (paragraph ++ "Attachment text:" ++ fromBytes [10])%string.

(** The loop over the attachments: the texts so far and the images so far. *)
Fixpoint gatherAttachments (student : UUID) (extracted : string) (images : list GatewayImage) (l : list AttachmentMetadata) :
  DB AIDB Error (string * list GatewayImage) :=
  match l with
  | [] => dret (extracted, images)
  | a :: rest =>
      if bool_decide (MetaModality a = ModalityVision)
      then gatherAttachments student extracted (images ++ [MkImage (MetaMIME a) (MetaSize a)]) rest
      else
        (do text <- LoadAIText previewObjects student (MetaVersion a);
         let separator := if bool_decide (extracted = EmptyString) then EmptyString else paragraph in
         gatherAttachments student (extracted ++ separator ++ text)%string images rest)%db
  end.

Definition gather (t : Taken) : DB AIDB Error (string * list GatewayImage) :=
  (do l <- loadMessageAttachments (TakenStudent t) (TriggerMessage (LeasedRunOf (TakenRun t)));
   gatherAttachments (TakenStudent t) EmptyString [] l)%db.

Definition requestFor (l : LeasedRun) (turns : list ContextTurn) (extracted : string) (images : list GatewayImage) : GatewayRequest :=
  let c := LeasedConfig l in let body := TriggerBody (LeasedRunOf l) in
  let current := if bool_decide (extracted = EmptyString) then body else (body ++ attachmentHeading ++ extracted)%string in
  MkRequest (RunID (LeasedRunOf l)) (Upstream (Model c)) (PromptBody (Prompt c)) (turns ++ [MkTurn SpeakerStudent current]) images
    (MaxOutputTokens (Model c)).

(** How the time of the preparation passes: the ticks of the heartbeat, whether the
    caller's context ends meanwhile, and whether the heartbeat is what notices it. *)
Record Meanwhile := MkMeanwhile { Ticks : nat; CtxEnded : bool; CtxNoticed : bool }.

(** The end of the heartbeat, which stops at its first error. *)
Definition heartbeats (w : Meanwhile) (l : LeasedRun) (duration : Z) : DB AIDB Error (result Error unit) :=
  attempt (do _ <- heartbeatOnTicks (Ticks w) (RunID (LeasedRunOf l)) (LeaseOwner l) duration;
           if CtxEnded w && CtxNoticed w then dfail ErrContextEnded else dret tt)%db.

(** A preparation that fails: a lost lease first, then the caller's context. *)
Definition abandoned {A} (w : Meanwhile) (l : LeasedRun) (beats : result Error unit) (onError : DB AIDB Error A) : DB AIDB Error A :=
  match beats with
  | Err e => (do _ <- finishLostPreparation (CtxEnded w) l e; dfail ErrNoRunnableRun)%db
  | Ok _ => onError
  end.

Definition prepared (w : Meanwhile) (t : Taken) (l : LeasedRun) (beats : result Error unit) : DB AIDB Error LeasedRun :=
  let c := LeasedConfig l in
  (do got <- attempt (gather t);
   match got with
   | Err _ =>
     abandoned w l beats
       (if CtxEnded w then dfail ErrContextEnded
        else do _ <- failPreparation l "attachment_unavailable"; dfail ErrNoRunnableRun)
   | Ok (extracted, images) =>
     match selectContext (PromptBody (Prompt c)) (History t) (TriggerBody (LeasedRunOf l)) extracted (Z.of_nat (length images))
             (ImageQuotaTokens (Model c)) (ContextTokens (Model c)) (MaxOutputTokens (Model c)) with
     | Err _ => abandoned w l beats (do _ <- failPreparation l "context_too_large"; dfail ErrNoRunnableRun)
     | Ok turns =>
       abandoned w l beats
         (do now <- wallNow;
          do verified <- attempt (verifyPreparedLease l (UTC now));
          match verified with
          | Err e => do _ <- finishLostPreparation (CtxEnded w) l e; dfail ErrNoRunnableRun
          | Ok _ => dret (withRequest (requestFor l turns extracted images) l)
          end)
     end
   end)%db.

Definition prepare (w : Meanwhile) (t : Taken) (duration : Z) : DB AIDB Error LeasedRun :=
  let l := TakenRun t in
  (do first <- attempt (beat (RunID (LeasedRunOf l)) (LeaseOwner l) duration);
   match first with
   | Err e => do _ <- finishLostPreparation (CtxEnded w) l e; dfail ErrNoRunnableRun
   | Ok _ =>
     do beats <- heartbeats w l duration;
     match openBox (ProviderID (LeasedConfig l)) (KeyVersion (LeasedConfig l)) (Encrypted t) with
     | None =>
       match beats with
       | Err _ => dfail ErrNoRunnableRun
       | Ok _ => do _ <- failPreparation l "provider_secret_unavailable"; dfail ErrNoRunnableRun
       end
     | Some key => prepared w t (withKey key l) beats
     end
   end)%db.

Definition LeaseNext (lock : LockOutcome) (locked : UUID -> bool) (w : Meanwhile) (owner : string) (now : Time) (duration : Z) :
  DB AIDB Error LeasedRun :=
  (do taken <- leaseRun parseURL lock locked owner now duration; prepare w taken duration)%db.

End Preparation.

End Store.

End AIRunnerStore.
