(* ===== verification/AIService.v ===== *)
(** * The assistant as a student meets it

    Models [internal/aiqa/service.go] over the stores of runs and of attachments, and
    [ForRun] of [postgres_config.go], which picks the configuration a run is admitted
    under.  The policy for provider addresses and the secret box are parameters. *)

From S2P Require Import Prelude GoTime GoText GoStrings GoSha256 GoStrconv Pg OpsModel Keyset FilesModel FilesStore LessonModel AIModel AIStore AIRunnerStore.
From stdpp Require Import base tactics list gmap strings.
From Stdlib Require Import ZArith Lia.

Open Scope Z_scope.

Module AIService.
Import Lessons AI AIStore AIAttachments AIRunnerStore.

(** The result of [GetRunByIdempotency] as the service reads it: nothing when there is no
    such run. *)
Definition found {A} (m : DB AIDB Error A) : DB AIDB Error (option A) :=
  (do r <- attempt (E' := Error) m;
   match r with
   | Ok a => dret (Some a)
   | Err e => if bool_decide (e = ErrNotFound) then dret None else dfail e
   end)%db.

(** ** The configuration *)
Definition usableModel (modality : Modality) (provider : UUID) : N * ModelRow -> bool :=
  fun '(_, m) => (md_provider m =? provider)%N && bool_decide (md_modality m = modality) && md_enabled m && open_ (md_blocked m).

Definition usableModels (c : ConfigTables) (modality : Modality) (provider : UUID) : list (N * ModelRow) :=
  List.filter (usableModel modality provider) (map_to_list (models c)).

(** A unique index keeps one provider active, another one prompt for each subject: the
    row that the server returns is the only one. *)
Definition activeProvider (c : ConfigTables) (modality : Modality) : option (N * ProviderRow) :=
  List.find (fun '(id, p) => pv_active p && (length (usableModels c modality id) =? 1)%nat) (map_to_list (providers c)).
Definition activePrompt (c : ConfigTables) (subject : Subject) : option (N * PromptRow) :=
  List.find (fun '(_, t) => bool_decide (pt_subject t = subject) && pt_active t) (map_to_list (prompts c)).

Definition viewModel (id : UUID) (m : ModelRow) : ModelView :=
  MkModel id (md_provider m) (md_upstream m) (md_modality m) (md_context m) (md_maxOutput m) (md_image m) (md_inputPrice m)
    (md_outputPrice m) (md_enabled m) (md_blocked m).
Definition viewPrompt (id : UUID) (t : PromptRow) : PromptView := MkPrompt id (pt_subject t) (pt_version t) (pt_body t) (pt_active t).

Section Service.
Context `{PgTime}.
Variables (normalizeURL : string -> option BaseURL) (openBox : UUID -> Z -> list Z -> option (list Z)).
Variable previewObjects : Fetch.

Definition ForRun (subject : Subject) (modality : Modality) : DB AIDB Error RuntimeProviderConfig :=
  (fail if negb (subjectOK subject) || negb (modalityOK modality) with ErrAIDisabled;
   call ErrDatabase;
   do db <- dget;
   let c := config db in
   match activeProvider c modality, activePrompt c subject with
   | Some (provider, p), Some (prompt, t) =>
     match usableModels c modality provider with
     | (model, m) :: _ =>
       match normalizeURL (pv_url p), openBox provider (pv_keyVersion p) (pv_secret p) with
       | Some u, Some key =>
         dret (MkConfig provider (pv_keyVersion p) (Some u) (pv_protocol p) key (viewModel model m) (viewPrompt prompt t)
                 (MkTimeouts (ofMillis (md_connect m)) (ofMillis (md_header m)) (ofMillis (md_idle m)) (ofMillis (md_total m))))
       | _, _ => dfail ErrAIDisabled
       end
     | [] => dfail ErrAIDisabled
     end
   | _, _ => dfail ErrAIDisabled
   end)%db.

(** ** Admission *)

(** The texts of the attachments one after another, and how many are images. *)
Fixpoint extractTexts (student : UUID) (l : list AttachmentMetadata) : DB AIDB Error (string * Z) :=
  match l with
  | [] => dret (EmptyString, 0)
  | a :: rest =>
      if bool_decide (MetaModality a = ModalityVision)
      then (do r <- extractTexts student rest; dret (fst r, snd r + 1))%db
      else (do here <- LoadAIText previewObjects student (MetaVersion a);
            do r <- extractTexts student rest;
            dret ((here ++ fst r)%string, snd r))%db
  end.

Definition modalityFor (l : list AttachmentMetadata) : Modality :=
  if existsb (fun a => bool_decide (MetaModality a = ModalityVision)) l then ModalityVision else ModalityText.

Definition reservationFor (c : RuntimeProviderConfig) (turns : list ContextTurn) (current extracted : string) (images : Z) (now : Time) :
  QuotaReservation :=
  EstimateQuotaReservation (PromptBody (Prompt c)) ((TurnText <$> turns) ++ [current]) extracted images (ImageQuotaTokens (Model c))
    (MaxOutputTokens (Model c)) now.

Definition contextFor (c : RuntimeProviderConfig) (history : list Message) (current extracted : string) (images : Z) :
  result Error (list ContextTurn) :=
  selectContext (PromptBody (Prompt c)) history current extracted images (ImageQuotaTokens (Model c)) (ContextTokens (Model c))
    (MaxOutputTokens (Model c)).

Definition snapshotFor (c : RuntimeProviderConfig) : RuntimeSnapshot := MkSnapshot c (hexSum256 (bytes (PromptBody (Prompt c)))).

Definition admit_ (student thread : UUID) (create : bool) (title : string) (subject : Subject) (body key : string)
  (inputs : list AttachmentInput) : DB AIDB Error (ThreadDetail * Run) :=
  (do metadata <- ValidateForAI student (if create then NilUUID else thread) inputs;
   do texts <- extractTexts student metadata;
   let '(extracted, images) := texts in
   do c <- ForRun subject (modalityFor metadata);
   do history <- (if create then dret [] else LoadContext student thread);
   match contextFor c history body extracted images with
   | Err e => dfail e
   | Ok turns =>
     do now <- wallNow;
     do message <- newUUID;
     AdmitRun (MkAdmission student thread create (TrimSpace title) subject message (TrimSpace body) key metadata 1 (snapshotFor c)
                 (reservationFor c turns body extracted images now) now)
   end)%db.

Definition CreateThread (p : Principal) (i : CreateThreadInput) : DB AIDB Error (ThreadDetail * Run) :=
  let student := User_ID p in
  (fail if negb (studentOK p) with ErrNotFound;
   fail if negb (subjectOK (NewSubject i)) || negb (validTitle (NewTitle i)) || negb (validBody (NewBody i))
        || negb (validIdempotency (NewKey i)) || negb (validateAttachmentInputs (NewFiles i)) with ErrInvalidInput;
   do earlier <- found (GetRunByIdempotency student (NewKey i));
   match earlier with
   | Some (detail, v) =>
     let t := DetailThread detail in
     fail if negb (bool_decide (ThreadTitle t = TrimSpace (NewTitle i))) || negb (bool_decide (ThreadSubject t = NewSubject i))
          || negb (bool_decide (TriggerBody v = TrimSpace (NewBody i))) || negb (sameAttachmentBindings (NewFiles i) (TriggerFiles v))
       with ErrRunConflict;
     dret (detail, v)
   | None => do thread <- newUUID; admit_ student thread true (NewTitle i) (NewSubject i) (NewBody i) (NewKey i) (NewFiles i)
   end)%db.

Definition AddMessage (p : Principal) (i : AddMessageInput) : DB AIDB Error (ThreadDetail * Run) :=
  let student := User_ID p in
  (fail if negb (studentOK p) with ErrNotFound;
   fail if (AddThread i =? NilUUID)%N || negb (validBody (AddBody i)) || negb (validIdempotency (AddKey i))
        || negb (validateAttachmentInputs (AddFiles i)) with ErrInvalidInput;
   do earlier <- found (GetRunByIdempotency student (AddKey i));
   match earlier with
   | Some (detail, v) =>
     fail if negb (RunThread v =? AddThread i)%N || negb (bool_decide (TriggerBody v = TrimSpace (AddBody i)))
          || negb (sameAttachmentBindings (AddFiles i) (TriggerFiles v)) with ErrRunConflict;
     dret (detail, v)
   | None =>
     do detail <- GetThread student (AddThread i) (MkCursor zeroTime NilUUID 1);
     admit_ student (AddThread i) false EmptyString (ThreadSubject (DetailThread detail)) (AddBody i) (AddKey i) (AddFiles i)
   end)%db.

Definition ServiceListThreads (p : Principal) (c : Cursor) : DB AIDB Error (list Thread * Cursor) :=
  (fail if negb (studentOK p) with ErrNotFound; ListThreads (User_ID p) c)%db.

Definition ServiceGetThread (p : Principal) (thread : UUID) (c : Cursor) : DB AIDB Error ThreadDetail :=
  (fail if negb (studentOK p) || (thread =? NilUUID)%N with ErrNotFound; GetThread (User_ID p) thread c)%db.

Definition ServiceCancelRun (p : Principal) (run : UUID) : DB AIDB Error Run :=
  (fail if negb (studentOK p) || (run =? NilUUID)%N with ErrNotFound;
   do now <- wallNow;
   CancelRun (User_ID p) run now)%db.

(** ** Retries *)
Fixpoint inputsOf (position : Z) (l : list AttachmentMetadata) : list AttachmentInput :=
  match l with [] => [] | a :: rest => MkAttachmentInput (MetaVersion a) position :: inputsOf (position + 1) rest end.

(** The messages before the trigger, and the trigger. *)
Fixpoint splitAt (trigger : UUID) (history : list Message) : option (list Message * Message) :=
  match history with
  | [] => None
  | m :: rest =>
      if (MessageID m =? trigger)%N then Some ([], m)
      else match splitAt trigger rest with Some (before, t) => Some (m :: before, t) | None => None end
  end.

Definition retryAdmit (student source : UUID) (run : Run) (key : string) : DB AIDB Error Run :=
  (do current <- ValidateForAI student (RunThread run) (inputsOf 0 (TriggerFiles run));
   do detail <- GetThread student (RunThread run) (MkCursor zeroTime NilUUID 1);
   do texts <- extractTexts student current;
   let '(extracted, images) := texts in
   do history <- LoadContext student (RunThread run);
   match splitAt (TriggerMessage run) history with
   | None => dfail ErrNotFound
   | Some (before, trigger) =>
     fail if negb (bool_decide (MessageRole trigger = SpeakerStudent)) with ErrNotFound;
     do c <- ForRun (ThreadSubject (DetailThread detail)) (modalityFor current);
     match contextFor c before (MessageBody trigger) extracted images with
     | Err e => dfail e
     | Ok turns =>
       do now <- wallNow;
       do id <- newUUID;
       do r <- RetryRun (MkRetry student source id key (snapshotFor c)
                                 (reservationFor c turns (MessageBody trigger) extracted images now) now);
       dret (snd r)
     end
   end)%db.

Definition ServiceRetryRun (p : Principal) (source : UUID) (key : string) : DB AIDB Error Run :=
  let student := User_ID p in
  (fail if negb (studentOK p) || (source =? NilUUID)%N with ErrNotFound;
   fail if negb (validIdempotency key) with ErrInvalidInput;
   do run <- GetRun student source;
   fail if negb (bool_decide (Status run = RunFailed) || bool_decide (Status run = RunCancelled)) with ErrRunConflict;
   do earlier <- found (GetRunByIdempotency student key);
   match earlier with
   | Some (_, v) =>
     fail if negb (TriggerMessage v =? TriggerMessage run)%N with ErrRunConflict;
     dret v
   | None => retryAdmit student source run key
   end)%db.

End Service.

End AIService.
