(* ===== verification/AIRunner.v ===== *)
(** * The runner of the assistant

    Models [internal/aiqa/runner.go]: executing a leased run, one turn of a worker and of
    the reconciler, over the interface [RunnerStore] with the PostgreSQL store as an
    instance.  The gateway, the ticker of the flushes and the heartbeats run beside one
    another under the lock of the buffer: an execution is the sequence of their turns. *)

From S2P Require Import Prelude GoTime GoText GoStrings GoSha256 GoStrconv Pg OpsModel Keyset FilesModel FilesStore LessonModel AIModel AIStore AIRunnerStore.
From stdpp Require Import base tactics list gmap strings.
From Stdlib Require Import ZArith Lia.

Open Scope Z_scope.

Module AIRunner.
Import Lessons AI.

(** ** The interface *)
Class RunnerStore (S : Type) := {
  StoreLeaseNext : string -> Time -> Z -> DB S Error LeasedRun;
  StoreHeartbeat : UUID -> string -> Time -> DB S Error unit;
  StoreAppendEvents : UUID -> string -> list RunEvent -> DB S Error unit;
  StoreComplete : LeasedRun -> Completion -> DB S Error unit;
  StoreFail : LeasedRun -> Failure -> DB S Error unit;
  StoreReconcileExpired : Time -> Z -> DB S Error unit
}.

Section Postgres.
Context `{PgTime}.
Variables (parseURL : string -> option BaseURL) (openBox : UUID -> Z -> list Z -> option (list Z)).
Variables (previewObjects : AIAttachments.Fetch).
Variables (lock : LockOutcome) (locked : UUID -> bool) (w : AIRunnerStore.Meanwhile).

(** The store over PostgreSQL, with what the database locks do during an operation. *)
Definition PostgresRunnerStore : RunnerStore AIDB := {|
  StoreLeaseNext := AIRunnerStore.LeaseNext parseURL openBox previewObjects lock locked w;
  StoreHeartbeat := AIRunnerStore.Heartbeat;
  StoreAppendEvents := AIRunnerStore.AppendEvents;
  StoreComplete := AIRunnerStore.Complete;
  StoreFail := AIRunnerStore.Fail;
  StoreReconcileExpired := AIRunnerStore.ReconcileExpired locked
|}.

End Postgres.

(** ** Tokens *)
Fixpoint turnBytes (total : Z) (turns : list ContextTurn) : option Z :=
  match turns with
  | [] => Some total
  | t :: rest => if maxInt64 - total <? len (TurnText t) then None else turnBytes (total + len (TurnText t)) rest
  end.

Definition estimateGatewayInput (q : GatewayRequest) (imageQuotaTokens : Z) : Z :=
  match turnBytes (len (SystemPrompt q)) (Turns q) with
  | None => maxInt64
  | Some total =>
      let images := Z.of_nat (length (Images q)) in
      if (imageQuotaTokens <=? 0) || (images =? 0) then total
      else if Z.quot (maxInt64 - total) imageQuotaTokens <? images then maxInt64 else total + images * imageQuotaTokens
  end.

(** ** Errors of the stream *)
(** A [GatewayError] has a category and, under it, a cause that may be a passed deadline. *)
Inductive StreamError := GatewayError (category : string) (deadline : bool) | DeadlineExceeded | OtherStreamError.

Definition stableCategories : list string :=
  ["auth"; "rate_limited"; "upstream_4xx"; "upstream_5xx"; "malformed_stream"; "response_too_large"; "stream_interrupted";
   "timeout"; "cancelled"]%string.

Definition stableGatewayCategory (e : StreamError) : string :=
  match e with
  | GatewayError category deadline =>
      if member stableCategories category then category
      else if deadline then "timeout_total"%string else "stream_interrupted"%string
  | DeadlineExceeded => "timeout_total"%string
  | OtherStreamError => "stream_interrupted"%string
  end.

(** ** The buffer of an execution *)
Record Buffer := MkBuffer {
  Pending : list RunEvent; PendingBytes : Z; AnswerSoFar : string; NextSequence : Z; SeenInput : Z; SeenOutput : Z;
  SeenFinish : string; UsageSeen : bool; FirstByteAt : Time; StoreErr : option Error; Beating : bool
}.

Definition newBuffer (l : LeasedRun) : Buffer :=
  MkBuffer [] 0 "" (Files.wrapInt64 (LastSequence (LeasedRunOf l) + 1)) 0 0 "" false zeroTime None true.

Definition failedWith (e : Error) (b : Buffer) : Buffer :=
  MkBuffer (Pending b) (PendingBytes b) (AnswerSoFar b) (NextSequence b) (SeenInput b) (SeenOutput b) (SeenFinish b) (UsageSeen b)
    (FirstByteAt b) (Some e) (Beating b).

Definition emptied (b : Buffer) : Buffer :=
  MkBuffer [] 0 (AnswerSoFar b) (NextSequence b) (SeenInput b) (SeenOutput b) (SeenFinish b) (UsageSeen b) (FirstByteAt b)
    (StoreErr b) (Beating b).

Definition silent (b : Buffer) : Buffer :=
  MkBuffer (Pending b) (PendingBytes b) (AnswerSoFar b) (NextSequence b) (SeenInput b) (SeenOutput b) (SeenFinish b) (UsageSeen b)
    (FirstByteAt b) (StoreErr b) false.

Definition withFinish (reason : string) (b : Buffer) : Buffer :=
  MkBuffer (Pending b) (PendingBytes b) (AnswerSoFar b) (NextSequence b) (SeenInput b) (SeenOutput b) reason (UsageSeen b)
    (FirstByteAt b) (StoreErr b) (Beating b).

Definition kindText (k : GatewayEventKind) : string :=
  match k with KindDelta => "delta" | KindUsage => "usage" | KindCompleted => "completed" | KindOther => "" end.

(** The event goes behind the pending ones, with the next number. *)
Definition queued (e : GatewayEvent) (now : Time) (b : Buffer) : Buffer :=
  MkBuffer (Pending b ++ [MkEvent (NextSequence b) (kindText (GatewayKind e)) (Delta e) "" (UTC now)])
    (Files.wrapInt64 (PendingBytes b + len (Delta e))) (AnswerSoFar b) (Files.wrapInt64 (NextSequence b + 1)) (SeenInput b)
    (SeenOutput b) (SeenFinish b) (UsageSeen b) (FirstByteAt b) (StoreErr b) (Beating b).

Definition withDelta (text : string) (now : Time) (b : Buffer) : Buffer :=
  MkBuffer (Pending b) (PendingBytes b) (AnswerSoFar b ++ text)%string (NextSequence b) (SeenInput b) (SeenOutput b) (SeenFinish b)
    (UsageSeen b) (if IsZero (FirstByteAt b) then now else FirstByteAt b) (StoreErr b) (Beating b).

Definition withUsage (input output : Z) (b : Buffer) : Buffer :=
  MkBuffer (Pending b) (PendingBytes b) (AnswerSoFar b) (NextSequence b) input output (SeenFinish b) true (FirstByteAt b) (StoreErr b)
    (Beating b).

Record Settings := MkSettings {
  Owner : string; GlobalConcurrency : Z; PollInterval : Z; LeaseDuration : Z; FlushInterval : Z; FlushBytes : Z
}.

(** The defaults of [StartRunner]. *)
Definition defaulted (r : Settings) : Settings :=
  let or_ (v default : Z) := if v <=? 0 then default else v in
  MkSettings (Owner r) (or_ (GlobalConcurrency r) 1) (or_ (PollInterval r) second) (or_ (LeaseDuration r) (30 * second))
    (or_ (FlushInterval r) (250 * millisecond)) (or_ (FlushBytes r) (Z.shiftl 4 10)).

(** What happens to an execution, one thing at a time. *)
Inductive Happening := Streamed (e : GatewayEvent) | FlushTick | HeartbeatTick.

Section Runner.
Context {S : Type} `{RunnerStore S}.
Variable r : Settings.

Definition runID (l : LeasedRun) : UUID := RunID (LeasedRunOf l).

(** [flush], with the buffer after it and whether it is in error. *)
Definition flush (l : LeasedRun) (b : Buffer) : DB S Error Buffer :=
  (match StoreErr b with
   | Some _ => dret b
   | None =>
     if bool_decide (Pending b = []) then dret b
     else
       do written <- attempt (StoreAppendEvents (runID l) (LeaseOwner l) (Pending b));
       dret (match written with Ok _ => emptied b | Err e => failedWith e b end)
   end)%db.

(** The callback of the stream. *)
Definition received (l : LeasedRun) (e : GatewayEvent) (b : Buffer) : DB S Error Buffer :=
  (do now <- wallNow;
   if bool_decide (is_Some (StoreErr b)) then dret b
   else
     let appended b :=
       let b := queued e now b in if FlushBytes r <=? PendingBytes b then flush l b else dret b in
     match GatewayKind e with
     | KindDelta => if bool_decide (Delta e = EmptyString) then dret b else appended (withDelta (Delta e) now b)
     | KindUsage => appended (withUsage (EventInput e) (EventOutput e) b)
     | KindCompleted => dret (withFinish (FinishReason e) b)
     | KindOther => dret b
     end)%db.

(** A heartbeat; the first one that fails is the last. *)
Definition heartbeat (l : LeasedRun) (b : Buffer) : DB S Error Buffer :=
  (if negb (Beating b) then dret b
   else
     do now <- wallNow;
     do beaten <- attempt (StoreHeartbeat (runID l) (LeaseOwner l) (UTC (addDuration now (LeaseDuration r))));
     dret (match beaten with
           | Ok _ => b
           | Err ErrContextEnded => silent b
           | Err e => silent (if bool_decide (is_Some (StoreErr b)) then b else failedWith e b)
           end))%db.

Definition happen (l : LeasedRun) (h : Happening) (b : Buffer) : DB S Error Buffer :=
  match h with Streamed e => received l e b | FlushTick => flush l b | HeartbeatTick => heartbeat l b end.

Fixpoint stream (l : LeasedRun) (hs : list Happening) (b : Buffer) : DB S Error Buffer :=
  match hs with
  | [] => dret b
  | h :: rest => (do b <- happen l h b; stream l rest b)%db
  end.

Definition failWith (l : LeasedRun) (status : RunStatus) (code : string) (totalMS : Z) : DB S Error unit :=
  (do _ <- attempt (E' := Error) (StoreFail l (MkFailure status code "unknown" 0 0 0 totalMS)); dret tt)%db.

Definition endForStore (l : LeasedRun) (e : Error) (totalMS : Z) : DB S Error unit :=
  match e with
  | ErrCancelRequested => failWith l RunCancelled "cancelled" totalMS
  | ErrRunnerLeaseLost => failWith l RunFailed "lease_lost" totalMS
  | _ => failWith l RunFailed "callback_store_failure" totalMS
  end.

Definition milliseconds (d : Z) : Z := Z.max (Z.quot d millisecond) 0.

Definition completionFor (l : LeasedRun) (b : Buffer) (started : Time) (totalMS : Z) : Completion :=
  let model := Model (LeasedConfig l) in
  let input := if UsageSeen b then SeenInput b else estimateGatewayInput (LeasedRequest l) (ImageQuotaTokens model) in
  let output := if UsageSeen b then SeenOutput b else len (AnswerSoFar b) in
  MkCompletion (AnswerSoFar b) input output (addCost (tokenCost input (InputPrice model)) (tokenCost output (OutputPrice model)))
    (if UsageSeen b then "upstream" else "estimated") (SeenFinish b)
    (if IsZero (FirstByteAt b) then totalMS else milliseconds (Sub (FirstByteAt b) started)) totalMS.

Definition conclude (l : LeasedRun) (b : Buffer) (streamErr : option StreamError) (started : Time) (totalMS : Z) : DB S Error unit :=
  match StoreErr b, streamErr with
  | Some e, _ => endForStore l e totalMS
  | None, Some e => failWith l RunFailed (stableGatewayCategory e) totalMS
  | None, None =>
      (do completed <- attempt (StoreComplete l (completionFor l b started totalMS));
       match completed with
       | Ok _ => dret tt
       | Err ErrCancelRequested => failWith l RunCancelled "cancelled" totalMS
       | Err _ => failWith l RunFailed "terminal_store_failure" totalMS
       end)%db
  end.

(** [hs] is what happens until the stream is over, [streamErr] how it ends, [parentEnded]
    whether the runner is being stopped. *)
Definition execute (hs : list Happening) (streamErr : option StreamError) (parentEnded : bool) (l : LeasedRun) : DB S Error unit :=
  (do started <- wallNow;
   do b <- stream l hs (newBuffer l);
   do b <- flush l b;
   do now <- wallNow;
   if parentEnded then dret tt
   else conclude l b streamErr started (milliseconds (Sub now started)))%db.

(** ** The loops *)

(** What the claim gate answers, when there is one. *)
Inductive GateAnswer := NoGate | ClaimsAllowed (allowed : bool) | GateFailed.
Inductive Turn := WaitFor (d : Z) | StopWorker.

Definition worker (gate : GateAnswer) (ctxEnded : bool) (hs : list Happening) (streamErr : option StreamError) (parentEnded : bool) :
  DB S Error Turn :=
  match gate with
  | GateFailed | ClaimsAllowed false => dret (WaitFor (PollInterval r))
  | NoGate | ClaimsAllowed true =>
      (do now <- wallNow;
       do leased <- attempt (StoreLeaseNext (Owner r) (UTC now) (LeaseDuration r));
       match leased with
       | Ok l => do _ <- execute hs streamErr parentEnded l; dret (WaitFor 0)
       | Err ErrNoRunnableRun => dret (WaitFor (PollInterval r))
       | Err _ => dret (if ctxEnded then StopWorker else WaitFor (PollInterval r))
       end)%db
  end.

Definition reconciler : DB S Error unit :=
  (do now <- wallNow;
   do _ <- attempt (E' := Error) (StoreReconcileExpired (UTC now) (GlobalConcurrency r * 4));
   dret tt)%db.

End Runner.

Definition runnerTerminalTimeout (leaseDuration : Z) : Z :=
  let timeout := Z.quot leaseDuration 3 in
  if (timeout <=? 0) || (2 * second <? timeout) then 2 * second else timeout.

End AIRunner.
