(* ===== verification/AIInvariant.v ===== *)
(** * The assistant: the invariant and the changes that keep it

    [aiWf] says what the tables of the assistant are in every reachable state: the ledger
    has for each run exactly the entries its status calls for, events are numbered without
    gaps and end with the run, a run has an answer exactly when it succeeded, and a
    student has one active run at most.  [aiChange] lists the changes that transactions
    commit; each keeps it. *)

From S2P Require Import Prelude GoTime GoText GoStrings GoSha256 GoStrconv Pg OpsModel Keyset AuditLog FilesModel FilesStore ProcessingProofs LessonModel LessonFiles LessonProofs QuestionProofs AIModel AIStore AIRunnerStore.
From stdpp Require Import base tactics list gmap strings relations.
From Stdlib Require Import ZArith Lia.

Import Lessons AI AIStore AIAttachments AIRunnerStore.

Open Scope Z_scope.

Section Changes.
Context `{PgTime}.

(** ** Reading *)
Lemma demand_reads b : dreads (demand b).
Proof. unfold demand. repeat reads_step. Qed.
#[local] Hint Resolve demand_reads dreads_wall dreads_uuid dreads_attempt : dreads.

Lemma loadAttachments_reads student message : dreads (loadMessageAttachments student message).
Proof. unfold loadMessageAttachments. repeat reads_step. Qed.
Lemma selectRun_reads student id : dreads (selectRun student id).
Proof. unfold selectRun. repeat reads_step. Qed.
Lemma findRun_reads student key : dreads (findRunByKey student key).
Proof. unfold findRunByKey. repeat reads_step. Qed.
#[local] Hint Resolve loadAttachments_reads selectRun_reads findRun_reads : dreads.
Lemma attachAll_reads student l : dreads (attachAll student l).
Proof. induction l; cbn [attachAll]; repeat reads_step. Qed.
#[local] Hint Resolve attachAll_reads : dreads.
Lemma getThread_reads student thread c : dreads (GetThread student thread c).
Proof. unfold GetThread. repeat reads_step. Qed.
Lemma reserveQuota_reads student r : dreads (reserveQuota student r).
Proof. unfold reserveQuota. repeat reads_step. Qed.
Lemma validateSnapshot_reads s : dreads (validateAndLockSnapshot s).
Proof. unfold validateAndLockSnapshot. repeat reads_step. Qed.
Lemma deferred_reads id : dreads (deferred id).
Proof. unfold deferred. repeat reads_step. Qed.
Lemma lockTerminal_reads id : dreads (lockTerminal id).
Proof. unfold lockTerminal. repeat reads_step. Qed.
Lemma getRun_reads student id : dreads (GetRun student id).
Proof. unfold GetRun. repeat reads_step. Qed.
#[local] Hint Resolve getThread_reads reserveQuota_reads validateSnapshot_reads deferred_reads lockTerminal_reads getRun_reads : dreads.
Lemma getByKey_reads student key : dreads (GetRunByIdempotency student key).
Proof. unfold GetRunByIdempotency. repeat reads_step. Qed.
Lemma listThreads_reads student c : dreads (ListThreads student c).
Proof. unfold ListThreads. repeat reads_step. Qed.
Lemma loadContext_reads student thread : dreads (LoadContext student thread).
Proof. unfold LoadContext. repeat reads_step. Qed.

(** ** What a success says *)
Lemma demand_Ok b env n db st u : demand b env (n, db) = (st, Ok u) -> st = (n, db) /\ b = true.
Proof. unfold demand. destruct b; [intros [= <- _]; done|done]. Qed.

Lemma deferred_Ok id env n db st u : deferred id env (n, db) = (st, Ok u) -> answered db id = true.
Proof. unfold deferred. intros Hrun. db_go. by match goal with Hd : demand _ _ _ = _ |- _ => apply demand_Ok in Hd as [_ Hd] end. Qed.

Ltac ai_go :=
  repeat (db_go; try match goal with Hd : demand _ _ (_, _) = (_, Ok _) |- _ => apply demand_Ok in Hd as [[= -> ->] Hd] end);
  bool_simpl.

Lemma insertRun_Ok id i now env n db st u :
  insertRun id i now env (n, db) = (st, Ok u) ->
  snd st = setRuns (<[id := queuedRow i now]> (runs db)) db /\ runAllowed db i = true /\ runCheck (queuedRow i now) = true /\
  runViolation db id i = None.
Proof. unfold insertRun. intros Hrun. ai_go. done. Qed.

Lemma ai_insertMessage_Ok id m env n db st u :
  insertMessage id m env (n, db) = (st, Ok u) ->
  snd st = setMessages (<[id := m]> (messages db)) db /\ messageAllowed db m = true /\ messageCheck m = true /\
  messageViolation db id m = None /\ is_Some (threads db !! ms_thread m).
Proof. unfold insertMessage. intros Hrun. ai_go. done. Qed.

Lemma insertEvent_Ok run sequence e env n db st u :
  insertEvent run sequence e env (n, db) = (st, Ok u) ->
  snd st = setEvents (<[(run, sequence) := e]> (runEvents db)) db /\ eventCheck sequence e = true /\
  runEvents db !! (run, sequence) = None.
Proof. unfold insertEvent. intros Hrun. ai_go. split_and!; [done..|]. by apply eq_None_not_Some. Qed.

Lemma ai_updateRun_Ok id old new env n db st u :
  updateRun id old new env (n, db) = (st, Ok u) ->
  snd st = setRuns (<[id := new]> (runs db)) db /\ updateAllowed old new = true /\ runCheck new = true.
Proof. unfold updateRun. intros Hrun. ai_go. done. Qed.

Lemma insertLedger_Ok c run p a g env n db st u :
  insertLedger c run p a g env (n, db) = (st, Ok u) -> ledger db !! (run, p, a) = None ->
  snd st = setLedger (<[(run, p, a) := g]> (ledger db)) db.
Proof.
  unfold insertLedger. intros Hrun Hno. ai_go; [congruence|done].
Qed.

Lemma insertThread_Ok id t env n db st u :
  insertThread id t env (n, db) = (st, Ok u) ->
  snd st = setThreads (<[id := t]> (threads db)) db /\ threads db !! id = None /\ threadCheck t = true.
Proof. unfold insertThread. intros Hrun. ai_go. split_and!; [done| |done]. by apply eq_None_not_Some. Qed.

Definition touched (t : ThreadRow) (now : Time) : ThreadRow :=
  MkThreadRow (th_student t) (th_title t) (th_subject t) (pg now) (th_created t).

Lemma touchThread_Ok id now env n db st u :
  touchThread id now env (n, db) = (st, Ok u) -> is_Some (threads db !! id) ->
  exists t, threads db !! id = Some t /\ snd st = setThreads (<[id := touched t now]> (threads db)) db.
Proof. unfold touchThread. intros Hrun [t Ht]. ai_go; simplify_eq. eauto. Qed.

(** *** The ledger *)
Definition reserveRow (i : RunIdentity) (key : string) (now : Time) : LedgerRow :=
  MkLedgerRow (rn_student i) key (rn_requests i) (rn_tokens i) (pg now).

Definition withReserve (id : UUID) (i : RunIdentity) (now : Time) (g : gmap (N * string * string) LedgerRow) :=
  <[(id, "month", "reserve")%string := reserveRow i (rn_month i) now]>
    (<[(id, "day", "reserve")%string := reserveRow i (rn_day i) now]> g).
Definition withRelease (id : UUID) (r : RunRow) (now : Time) (g : gmap (N * string * string) LedgerRow) :=
  <[(id, "month", "release")%string := releaseRow r (rn_month (rn_identity r)) now]>
    (<[(id, "day", "release")%string := releaseRow r (rn_day (rn_identity r)) now]> g).
Definition withSettle (id : UUID) (r : RunRow) (charged : Z) (now : Time) (g : gmap (N * string * string) LedgerRow) :=
  <[(id, "month", "release")%string := releaseRow r (rn_month (rn_identity r)) now]>
    (<[(id, "month", "settle")%string := settleRow r (rn_month (rn_identity r)) charged now]>
      (<[(id, "day", "release")%string := releaseRow r (rn_day (rn_identity r)) now]>
        (<[(id, "day", "settle")%string := settleRow r (rn_day (rn_identity r)) charged now]> g))).

Definition unsettled (db : AIDB) (id : UUID) : Prop :=
  forall period action, action <> "reserve"%string -> ledger db !! (id, period, action) = None.

Lemma insertReserve_Ok student id r now env n db st u i :
  insertReserveRows student id r now env (n, db) = (st, Ok u) -> (forall p a, ledger db !! (id, p, a) = None) ->
  rn_student i = student -> rn_requests i = RequestCount r -> rn_tokens i = TokenCount r -> rn_day i = DayKey r -> rn_month i = MonthKey r ->
  snd st = setLedger (withReserve id i now (ledger db)) db.
Proof.
  unfold insertReserveRows, withReserve, reserveRow. intros Hrun Hno -> -> -> -> ->. apply dbind_Ok in Hrun as ([n1 s1] & a & H1 & H2).
  apply insertLedger_Ok in H1; [|apply Hno]. cbn in H1. subst s1. apply insertLedger_Ok in H2; [by rewrite H2|].
  cbn. by rewrite lookup_insert_ne.
Qed.

Lemma releaseQuota_Ok id r now env n db st u :
  releaseQuota id r now env (n, db) = (st, Ok u) -> unsettled db id ->
  snd st = setLedger (withRelease id r now (ledger db)) db.
Proof.
  unfold releaseQuota, withRelease. intros Hrun Hno. apply dbind_Ok in Hrun as ([n1 s1] & a & H1 & H2).
  apply insertLedger_Ok in H1; [|by apply Hno]. cbn in H1. subst s1. apply insertLedger_Ok in H2; [by rewrite H2|].
  cbn. rewrite lookup_insert_ne by done. by apply Hno.
Qed.

Lemma settleQuota_Ok id r charged now env n db st u :
  settleQuota id r charged now env (n, db) = (st, Ok u) -> unsettled db id ->
  snd st = setLedger (withSettle id r charged now (ledger db)) db.
Proof.
  unfold settleQuota, settlePeriod, withSettle. intros Hrun Hno. apply dbind_Ok in Hrun as ([n1 s1] & a & H1 & H2).
  apply dbind_Ok in H1 as ([n2 s2] & b & H1 & H3). apply dbind_Ok in H2 as ([n3 s3] & c & H2 & H4).
  apply insertLedger_Ok in H1; [|by apply Hno]. cbn in H1. subst s2.
  apply insertLedger_Ok in H3; [|cbn; rewrite lookup_insert_ne by done; by apply Hno]. cbn in H3. subst s1.
  apply insertLedger_Ok in H2; [|cbn; rewrite !lookup_insert_ne by done; by apply Hno]. cbn in H2. subst s3.
  apply insertLedger_Ok in H4; [by rewrite H4|cbn; rewrite !lookup_insert_ne by done; by apply Hno].
Qed.

(** Whatever entries are there already, only the ledger is written. *)
Lemma insertLedger_frame c run p a g env n db st u :
  insertLedger c run p a g env (n, db) = (st, Ok u) -> exists g', snd st = setLedger g' db.
Proof.
  unfold insertLedger. intros Hrun. ai_go; eexists; [|done]. cbn. by match goal with |- ?d = _ => instantiate (1 := ledger d); destruct d end.
Qed.

Lemma settleQuota_frame id r charged now env n db st u :
  settleQuota id r charged now env (n, db) = (st, Ok u) -> exists g, snd st = setLedger g db.
Proof.
  unfold settleQuota, settlePeriod. intros Hrun. apply dbind_Ok in Hrun as ([n1 s1] & a & H1 & H2).
  apply dbind_Ok in H1 as ([n2 s2] & b & H1 & H3). apply dbind_Ok in H2 as ([n3 s3] & c & H2 & H4).
  apply insertLedger_frame in H1 as [g1 E1], H2 as [g2 E2], H3 as [g3 E3], H4 as [g4 E4]. cbn [snd] in *. subst.
  rewrite E4. by eexists.
Qed.

(** *** Attachments *)
Fixpoint linksAfter (message : UUID) (position : Z) (l : list AttachmentMetadata) (ls : gmap (N * N) LinkRow) : gmap (N * N) LinkRow :=
  match l with
  | [] => ls
  | a :: rest => linksAfter message (position + 1) rest (<[(message, MetaVersion a) := MkLinkRow position (MetaName a)]> ls)
  end.

(** Positions of a message are the first ones, each version is attached once. *)
Record linksWf (ls : gmap (N * N) LinkRow) : Prop := {
  lw_version : forall m1 m2 v k1 k2, ls !! (m1, v) = Some k1 -> ls !! (m2, v) = Some k2 -> m1 = m2;
  lw_position : forall m v1 v2 k1 k2, ls !! (m, v1) = Some k1 -> ls !! (m, v2) = Some k2 -> lk_position k1 = lk_position k2 -> v1 = v2;
  lw_nonneg : forall m v k, ls !! (m, v) = Some k -> 0 <= lk_position k
}.

Lemma linkTaken_false db message version position :
  linkTaken db message version position = false ->
  (forall m k, links db !! (m, version) = Some k -> False) /\ (forall v k, links db !! (message, v) = Some k -> lk_position k <> position).
Proof.
  unfold linkTaken. intros Hf. assert (Hall : forall m v k, links db !! (m, v) = Some k ->
    (v =? version)%N || ((m =? message)%N && (lk_position k =? position)) = false).
  { intros m v k Hk. destruct (_ || _) eqn:E; [|done]. exfalso. apply not_true_iff_false in Hf. apply Hf, existsb_exists.
    exists (m, v, k). split; [|done]. by apply list_elem_of_In, elem_of_map_to_list. }
  split.
  - intros m k Hk. apply Hall in Hk. by rewrite N.eqb_refl in Hk.
  - intros v k Hk. apply Hall in Hk. rewrite N.eqb_refl in Hk. bool_simpl. lia.
Qed.

Lemma linksWf_insert db message version position name :
  linkTaken db message version position = false -> 0 <= position -> linksWf (links db) ->
  linksWf (<[(message, version) := MkLinkRow position name]> (links db)).
Proof.
  intros [Hv Hp]%linkTaken_false Hpos [W1 W2 W3]. split.
  - intros m1 m2 v k1 k2. rewrite !lookup_insert_Some. intros [[E1 _]|[_ H1]] [[E2 _]|[_ H2]]; simplify_eq; try done.
    + by apply Hv in H2.
    + by apply Hv in H1.
    + by eapply W1.
  - intros m v1 v2 k1 k2. rewrite !lookup_insert_Some. intros [[E1 <-]|[_ H1]] [[E2 <-]|[_ H2]]; simplify_eq; try done.
    + intros E. by apply Hp in H2.
    + intros E. by apply Hp in H1.
    + by eapply W2.
  - intros m v k. rewrite lookup_insert_Some. intros [[_ <-]|[_ H1]]; [done|by eapply W3].
Qed.

(** What [linked] keeps in step. *)
Definition linkedIn (db : AIDB) : Prop := aiRefs (fileDB db) = linkedVersions db.

(** A state with other links, and the references that go with them. *)
Definition relinked (db : AIDB) (ls : gmap (N * N) LinkRow) (db' : AIDB) : Prop :=
  exists refs, db' = setLinks ls (setLesson (setBase (setAIRefs refs (fileDB db)) (lessonDB db)) db) /\
               (linkedIn db -> linkedIn db').

Lemma relinked_refl db : relinked db (links db) db.
Proof. exists (aiRefs (fileDB db)). split; [|done]. by destruct db as [[[]]]. Qed.

Lemma ai_insertLinks_Ok message position l env n db st u :
  insertLinks message position l env (n, db) = (st, Ok u) -> 0 <= position ->
  relinked db (linksAfter message position l (links db)) (snd st) /\
  (linksWf (links db) -> linksWf (links (snd st))) /\
  (forall m v k, links (snd st) !! (m, v) = Some k -> links db !! (m, v) = Some k \/ m = message) /\
  links db ⊆ links (snd st).
Proof.
  revert position n db. induction l as [|a l IH]; intros position n db; cbn [insertLinks].
  - intros [-> _]%dret_Ok _. split_and!; [apply relinked_refl|done| |done]. intros *. by left.
  - intros Hrun Hpos. ai_go.
    match goal with Hi : insertLinks _ _ _ _ _ = _ |- _ => apply IH in Hi as (Hr & Hw & Hs & Hsub); [|lia] end. split_and!.
    + destruct Hr as (refs & -> & Hl). exists refs. split; [done|]. intros _. by apply Hl.
    + intros Hwf. apply Hw. cbn. apply linksWf_insert; [done|lia|done].
    + intros m v k Hk. apply Hs in Hk as [Hk| ->]; [|by right]. cbn in Hk. apply lookup_insert_Some in Hk as [[E _]|[_ Hk]]; simplify_eq; auto.
    + etrans; [|exact Hsub]. cbn. apply insert_subseteq. apply eq_None_not_Some. intros [k Hk].
      match goal with Ht : linkTaken _ _ _ _ = false |- _ => apply linkTaken_false in Ht as [Hv _] end. by apply Hv in Hk.
Qed.

End Changes.

Import Lessons AI AIStore AIRunnerStore.


(** ** What the ledger has for a run *)
Definition periodKey (i : RunIdentity) (period : string) : option string :=
  if bool_decide (period = "day"%string) then Some (rn_day i)
  else if bool_decide (period = "month"%string) then Some (rn_month i) else None.

(** What a run that succeeded is charged: what it used, but not more than it reserved. *)
Definition chargedTokens (r : RunRow) : Z :=
  let u := rn_usage r in
  Z.min (addCost (or_zero 0 (us_input u)) (or_zero 0 (us_output u))) (rn_tokens (rn_identity r)).

Definition succeeded (r : RunRow) : bool := bool_decide (rn_status r = RunSucceeded).

Definition expected (r : RunRow) (period action : string) : option (UUID * string * Z * Z) :=
  let i := rn_identity r in
  match periodKey i period with
  | None => None
  | Some key =>
      if bool_decide (action = "reserve"%string) then Some (rn_student i, key, rn_requests i, rn_tokens i)
      else if bool_decide (action = "release"%string)
           then (if active (rn_status r) then None else Some (rn_student i, key, - rn_requests i, - rn_tokens i))
      else if bool_decide (action = "settle"%string)
           then (if succeeded r then Some (rn_student i, key, rn_requests i, chargedTokens r) else None)
      else None
  end.

Definition ledgerView (g : LedgerRow) : UUID * string * Z * Z := (lg_student g, lg_key g, lg_requests g, lg_tokens g).

(** ** The invariant *)
Definition streamKind (kind : string) : Prop := kind = "delta"%string \/ kind = "usage"%string.

(** The event a run ends with. *)
Definition endKind (s : RunStatus) : string := match s with RunSucceeded => "completed" | _ => statusText s end.

(** A run starts from a message of its student, in a thread of its student. *)
Definition startsFrom (db : AIDB) (i : RunIdentity) : Prop :=
  exists t m, threads db !! rn_thread i = Some t /\ th_student t = rn_student i /\ messages db !! rn_trigger i = Some m /\
    ms_thread m = rn_thread i /\ ms_role m = SpeakerStudent /\ ms_sender m = Some (rn_student i).

(** A student writes in threads of his own; the assistant answers for a run that
    succeeded, in the thread of that run. *)
Definition spoken (db : AIDB) (m : MessageRow) : Prop :=
  match ms_role m with
  | SpeakerStudent => ms_run m = None /\ exists t, threads db !! ms_thread m = Some t /\ ms_sender m = Some (th_student t)
  | SpeakerAssistant =>
      exists id r, ms_run m = Some id /\ runs db !! id = Some r /\ rn_status r = RunSucceeded /\ rn_thread (rn_identity r) = ms_thread m
  end.

Record aiWf (db : AIDB) : Prop := {
  a_check : forall id r, runs db !! id = Some r -> runCheck r = true;
  a_starts : forall id r, runs db !! id = Some r -> startsFrom db (rn_identity r);
  a_active : forall i j r r', runs db !! i = Some r -> runs db !! j = Some r' -> studentOf r = studentOf r' ->
    active (rn_status r) = true -> active (rn_status r') = true -> i = j;
  a_keys : forall i j r r', runs db !! i = Some r -> runs db !! j = Some r' -> studentOf r = studentOf r' ->
    rn_key (rn_identity r) = rn_key (rn_identity r') -> i = j;
  a_attempts : forall i j r r', runs db !! i = Some r -> runs db !! j = Some r' ->
    rn_trigger (rn_identity r) = rn_trigger (rn_identity r') -> rn_attempt (rn_identity r) = rn_attempt (rn_identity r') -> i = j;
  a_ledger : forall id p a, ledgerView <$> ledger db !! (id, p, a) = runs db !! id ≫= fun r => expected r p a;
  a_events : forall id s, is_Some (runEvents db !! (id, s)) <-> exists r, runs db !! id = Some r /\ 1 <= s <= rn_sequence r;
  a_kinds : forall id s e r, runEvents db !! (id, s) = Some e -> runs db !! id = Some r ->
    streamKind (ev_kind e) \/ s = rn_sequence r /\ active (rn_status r) = false /\ ev_kind e = endKind (rn_status r);
  a_ended : forall id r, runs db !! id = Some r -> rn_status r = RunFailed \/ rn_status r = RunCancelled ->
    exists e, runEvents db !! (id, rn_sequence r) = Some e /\ ev_kind e = endKind (rn_status r) /\ ev_error e = rn_error r;
  a_spoken : forall id m, messages db !! id = Some m -> messageCheck m = true /\ spoken db m;
  a_answered : forall id r, runs db !! id = Some r -> rn_status r = RunSucceeded ->
    exists mid m, messages db !! mid = Some m /\ ms_run m = Some id;
  a_single : forall i j m m' id, messages db !! i = Some m -> messages db !! j = Some m' ->
    ms_run m = Some id -> ms_run m' = Some id -> i = j;
  a_mkeys : forall i j m m' s k, messages db !! i = Some m -> messages db !! j = Some m' ->
    ms_sender m = Some s -> ms_sender m' = Some s -> ms_key m = Some k -> ms_key m' = Some k -> i = j;
  a_links : linksWf (links db);
  a_linked : forall m v k, links db !! (m, v) = Some k -> exists r, messages db !! m = Some r /\ ms_role r = SpeakerStudent;
  a_refs : linkedIn db
}.

(** ** The changes *)

(** Beside the tables of the assistant only the references of the file tables change. *)
Definition outside (db db' : AIDB) : Prop :=
  (exists refs, lessonDB db' = setBase (setAIRefs refs (fileDB db)) (lessonDB db)) /\ (linkedIn db -> linkedIn db').

Fixpoint addEvents (id : UUID) (sequence : Z) (es : list EventRow) (m : gmap (N * Z) EventRow) : gmap (N * Z) EventRow :=
  match es with [] => m | e :: rest => addEvents id (sequence + 1) rest (<[(id, sequence + 1) := e]> m) end.

(** The models may be blocked, the limits stay. *)
Definition sameLimits (c c' : ConfigTables) : Prop := globalLimits c' = globalLimits c /\ studentLimits c' = studentLimits c.

Definition checkedQuota (db : AIDB) (i : RunIdentity) : Prop :=
  exists limits, ResolveQuotaLimits (globalLimits (config db)) (ownLimits db (rn_student i)) = Ok limits /\
    CheckQuota limits (usedQuota db (rn_student i) (rn_day i) (rn_month i))
      (MkReservation (rn_requests i) (rn_tokens i) (rn_day i) (rn_month i) (rn_estimator i)) = Ok tt.

(** How a run moves while it is active. *)
Definition movesTo (r r' : RunRow) : Prop :=
  rn_identity r' = rn_identity r /\ (rn_status r' = rn_status r \/ rn_status r = RunQueued /\ rn_status r' = RunStreaming) /\
  (is_Some (rn_cancel r) -> is_Some (rn_cancel r')).

Section Changes.
Context `{PgTime}.

Inductive aiChange (db db' : AIDB) : Prop :=
| ChPost tid t at_ mid m :
    threads db !! tid = Some t \/ threads db !! tid = None ->
    threads db' = <[tid := touched t at_]> (threads db) ->
    ms_thread m = tid -> ms_role m = SpeakerStudent -> ms_run m = None -> ms_sender m = Some (th_student t) -> messageCheck m = true ->
    messageViolation db mid m = None -> messages db' = <[mid := m]> (messages db) ->
    (linksWf (links db) -> linksWf (links db')) ->
    (forall m' v k, links db' !! (m', v) = Some k -> links db !! (m', v) = Some k \/ m' = mid) -> links db ⊆ links db' ->
    runs db' = runs db -> runEvents db' = runEvents db -> ledger db' = ledger db -> config db' = config db -> outside db db' ->
    aiChange db db'
| ChMove id r r' es :
    runs db !! id = Some r -> active (rn_status r) = true -> movesTo r r' -> runCheck r' = true ->
    rn_sequence r' = rn_sequence r + Z.of_nat (length es) -> Forall (fun e => streamKind (ev_kind e)) es ->
    runs db' = <[id := r']> (runs db) -> runEvents db' = addEvents id (rn_sequence r) es (runEvents db) ->
    threads db' = threads db -> messages db' = messages db -> links db' = links db -> ledger db' = ledger db ->
    config db' = config db -> lessonDB db' = lessonDB db -> aiChange db db'
| ChEnd id r s u first total finish code at_ :
    let sequence := rn_sequence r + 1 in let r' := endedRow r s u first total finish (Some code) sequence at_ in
    runs db !! id = Some r -> active (rn_status r) = true -> s = RunFailed \/ s = RunCancelled -> runCheck r' = true ->
    runs db' = <[id := r']> (runs db) ->
    runEvents db' = <[(id, sequence) := MkEventRow (statusText s) "" (Some code) (pg at_)]> (runEvents db) ->
    ledger db' = withRelease id r at_ (ledger db) ->
    threads db' = threads db -> messages db' = messages db -> links db' = links db ->
    config db' = config db -> lessonDB db' = lessonDB db -> aiChange db db'
| ChSucceed id r source input output cost first total finish es mid body at_ :
    let sequence := rn_sequence r + Z.of_nat (length es) in
    let r' := endedRow r RunSucceeded (givenUsage source input output cost) first total finish None sequence at_ in
    runs db !! id = Some r -> rn_status r = RunStreaming -> runCheck r' = true ->
    es = [] \/ es = [MkEventRow "completed" "" None (pg at_)] ->
    runs db' = <[id := r']> (runs db) -> runEvents db' = addEvents id (rn_sequence r) es (runEvents db) ->
    ledger db' = withSettle id r (chargedTokens r') at_ (ledger db) ->
    messages db !! mid = None -> messageCheck (answerRow r id body at_) = true ->
    messages db' = <[mid := answerRow r id body at_]> (messages db) ->
    threads db' = threads db -> links db' = links db -> sameLimits (config db) (config db') -> lessonDB db' = lessonDB db ->
    aiChange db db'.

(** A run is admitted: within the quota as it is read then. *)
Inductive admits (db db' : AIDB) : Prop :=
| Admits id i at_ :
    startsFrom db i -> runCheck (queuedRow i at_) = true -> runViolation db id i = None -> checkedQuota db i ->
    runs db' = <[id := queuedRow i at_]> (runs db) -> ledger db' = withReserve id i at_ (ledger db) ->
    threads db' = threads db -> messages db' = messages db -> links db' = links db -> runEvents db' = runEvents db ->
    config db' = config db -> lessonDB db' = lessonDB db -> admits db db'.

(** What a transaction commits: changes, of which an admission is the last. *)
Definition aiTx (db db' : AIDB) : Prop := exists m, rtc aiChange db m /\ (db' = m \/ admits m db').

(** ** Lookups *)
Lemma addEvents_lookup id sequence es m k s :
  addEvents id sequence es m !! (k, s) =
    if bool_decide (k = id) && (sequence <? s) && (s <=? sequence + Z.of_nat (length es))
    then es !! Z.to_nat (s - sequence - 1) else m !! (k, s).
Proof.
  revert sequence m. induction es as [|e es IH]; intros sequence m; cbn [addEvents length].
  - destruct (bool_decide (k = id)), (sequence <? s) eqn:E1, (s <=? sequence + Z.of_nat 0) eqn:E2; try done. bool_simpl. lia.
  - rewrite IH. destruct (decide (k = id)) as [->|Hne].
    + rewrite bool_decide_eq_true_2 by done. cbn [andb]. destruct (decide (s = sequence + 1)) as [->|Hs].
      * rewrite lookup_insert_eq, Z.ltb_irrefl, (proj2 (Z.ltb_lt _ _)), !(proj2 (Z.leb_le _ _)) by lia. cbn [andb].
        by replace (Z.to_nat (sequence + 1 - sequence - 1)) with 0%nat by lia.
      * rewrite lookup_insert_ne by congruence. destruct (decide (sequence < s <= sequence + Z.of_nat (S (length es)))) as [Hin|Hout].
        -- rewrite !(proj2 (Z.ltb_lt _ _)), !(proj2 (Z.leb_le _ _)) by lia. cbn [andb].
           by replace (Z.to_nat (s - sequence - 1)) with (S (Z.to_nat (s - (sequence + 1) - 1))) by lia.
        -- assert (Ho : forall a b, a = sequence \/ a = sequence + 1 -> b = sequence + Z.of_nat (S (length es)) \/ b = sequence + 1 + Z.of_nat (length es) ->
             (a <? s) && (s <=? b) = false).
           { intros a b Ha Hb. apply andb_false_iff. rewrite Z.ltb_ge, Z.leb_gt. lia. }
           rewrite !Ho by lia. done.
    + rewrite bool_decide_eq_false_2 by done. cbn [andb]. rewrite lookup_insert_ne by congruence. done.
Qed.

(** *** The ledger *)
Lemma expected_other r p a : p <> "day"%string -> p <> "month"%string -> expected r p a = None.
Proof. intros H1 H2. unfold expected, periodKey. by rewrite !bool_decide_eq_false_2. Qed.

Lemma lookup_other {A} (m : gmap (N * string * string) A) id k p a q b x : k <> id -> <[(id, q, b) := x]> m !! (k, p, a) = m !! (k, p, a).
Proof. intros Hne. apply lookup_insert_ne. congruence. Qed.

(** Looking up in a ledger with new entries of one run. *)
Ltac ledger_cases p a :=
  destruct (decide (p = "day"%string)) as [->|]; [|destruct (decide (p = "month"%string)) as [->|]];
  (destruct (decide (a = "reserve"%string)) as [->|]; [|destruct (decide (a = "release"%string)) as [->|];
    [|destruct (decide (a = "settle"%string)) as [->|]]]);
  repeat first [rewrite lookup_insert_eq | rewrite lookup_insert_ne by congruence].

Ltac decide_all := repeat (case_bool_decide; try congruence); try done.

Lemma withReserve_view id i at_ g p a :
  (forall p a, g !! (id, p, a) = None) ->
  ledgerView <$> withReserve id i at_ g !! (id, p, a) = expected (queuedRow i at_) p a.
Proof. intros Hno. unfold withReserve. ledger_cases p a; rewrite ?Hno; unfold expected, periodKey, succeeded; decide_all. Qed.

Lemma withRelease_view id r s u first total finish error sequence at_ g p a :
  (forall p a, ledgerView <$> g !! (id, p, a) = expected r p a) -> active (rn_status r) = true ->
  s = RunFailed \/ s = RunCancelled ->
  ledgerView <$> withRelease id r at_ g !! (id, p, a) = expected (endedRow r s u first total finish error sequence at_) p a.
Proof.
  intros Hg Ha Hs. assert (Es : active s = false /\ s <> RunSucceeded) by (by destruct Hs as [-> | ->]). destruct Es as [Es Es'].
  assert (Er : rn_status r <> RunSucceeded) by (by intros E; rewrite E in Ha).
  unfold withRelease. ledger_cases p a; rewrite ?Hg; unfold expected, periodKey, succeeded; cbn [endedRow rn_identity rn_status];
    rewrite ?Es, ?Ha; decide_all.
Qed.

Lemma withSettle_view id r u first total finish error sequence at_ g p a :
  let r' := endedRow r RunSucceeded u first total finish error sequence at_ in
  (forall p a, ledgerView <$> g !! (id, p, a) = expected r p a) -> active (rn_status r) = true ->
  ledgerView <$> withSettle id r (chargedTokens r') at_ g !! (id, p, a) = expected r' p a.
Proof.
  intros r' Hg Ha. assert (Er : rn_status r <> RunSucceeded) by (by intros E; rewrite E in Ha).
  unfold withSettle. ledger_cases p a; rewrite ?Hg; unfold expected, periodKey, succeeded, r'; cbn [endedRow rn_identity rn_status];
    rewrite ?Ha; decide_all.
Qed.

(** Without a settlement there is no more than the reservation. *)
Lemma wf_unsettled db id r : aiWf db -> runs db !! id = Some r -> active (rn_status r) = true -> unsettled db id.
Proof.
  intros Hw Hr Ha p a Hne. apply (fmap_None ledgerView). rewrite (a_ledger _ Hw), Hr. cbn. unfold expected, succeeded.
  destruct (periodKey _ p); [|done]. rewrite (bool_decide_eq_false_2 _ Hne), Ha.
  rewrite (bool_decide_eq_false_2 (rn_status r = _)) by (by intros E; rewrite E in Ha). by repeat case_bool_decide.
Qed.

Lemma wf_no_ledger db id : aiWf db -> runs db !! id = None -> forall p a, ledger db !! (id, p, a) = None.
Proof. intros Hw Hr p a. apply (fmap_None ledgerView). by rewrite (a_ledger _ Hw), Hr. Qed.

(** *** A run that changes *)
Record advanced (db db' : AIDB) (id : UUID) (r r' : RunRow) (es : list EventRow) : Prop := {
  v_row : runs db !! id = Some r;
  v_active : active (rn_status r) = true;
  v_identity : rn_identity r' = rn_identity r;
  v_check : runCheck r' = true;
  v_sequence : rn_sequence r' = rn_sequence r + Z.of_nat (length es);
  v_kinds : forall j e, es !! j = Some e ->
    streamKind (ev_kind e) \/ S j = length es /\ active (rn_status r') = false /\ ev_kind e = endKind (rn_status r');
  v_runs : runs db' = <[id := r']> (runs db);
  v_events : runEvents db' = addEvents id (rn_sequence r) es (runEvents db);
  v_threads : threads db' = threads db;
  v_links : links db' = links db;
  v_lesson : lessonDB db' = lessonDB db
}.

(** A row of the new state, as it was. *)
Lemma advanced_row db db' id r r' es k x : advanced db db' id r r' es -> runs db' !! k = Some x ->
  exists y, runs db !! k = Some y /\ rn_identity x = rn_identity y /\ (active (rn_status x) = true -> active (rn_status y) = true).
Proof.
  intros Hv. rewrite (v_runs _ _ _ _ _ _ Hv), lookup_insert_Some. intros [[<- <-]|[_ Hx]].
  - exists r. split_and!; [by apply Hv..|]. intros _. apply Hv.
  - by exists x.
Qed.

Lemma advanced_other db db' id r r' es k x : advanced db db' id r r' es -> runs db' !! k = Some x -> k <> id -> runs db !! k = Some x.
Proof. intros Hv Hx Hne. by rewrite (v_runs _ _ _ _ _ _ Hv), lookup_insert_ne in Hx. Qed.

Lemma runCheck_sequence r : runCheck r = true -> 0 <= rn_sequence r <= maxInt64.
Proof. unfold runCheck, inInt64. intros. bool_simpl. lia. Qed.

Lemma advanced_events db db' id r r' es : advanced db db' id r r' es -> aiWf db ->
  forall k s, is_Some (runEvents db' !! (k, s)) <-> exists x, runs db' !! k = Some x /\ 1 <= s <= rn_sequence x.
Proof.
  intros Hv Hw k s. destruct Hv as [V1 V2 _ _ V5 _ V7 V8 _ _ _]. rewrite V8, V7, addEvents_lookup.
  pose proof (runCheck_sequence _ (a_check _ Hw _ _ V1)) as Hseq.
  destruct (decide (k = id)) as [->|Hne].
  - rewrite bool_decide_eq_true_2, lookup_insert_eq by done. cbn [andb].
    destruct (decide (rn_sequence r < s <= rn_sequence r + Z.of_nat (length es))) as [Hin|Hout].
    + rewrite (proj2 (Z.ltb_lt _ _)), (proj2 (Z.leb_le _ _)) by lia. cbn [andb]. split.
      * intros _. exists r'. split; [done|]. lia.
      * intros _. apply lookup_lt_is_Some. lia.
    + assert (((rn_sequence r <? s) && (s <=? rn_sequence r + Z.of_nat (length es))) = false) as ->.
      { apply andb_false_iff. rewrite Z.ltb_ge, Z.leb_gt. lia. }
      rewrite (a_events _ Hw). split.
      * intros (x & Hx & Hs). exists r'. split; [done|]. simplify_eq. lia.
      * intros (x & [= <-] & Hs). exists r. split; [done|]. lia.
  - rewrite bool_decide_eq_false_2, lookup_insert_ne by done. apply (a_events _ Hw).
Qed.

Lemma advanced_kinds db db' id r r' es : advanced db db' id r r' es -> aiWf db ->
  forall k s e x, runEvents db' !! (k, s) = Some e -> runs db' !! k = Some x ->
    streamKind (ev_kind e) \/ s = rn_sequence x /\ active (rn_status x) = false /\ ev_kind e = endKind (rn_status x).
Proof.
  intros Hv Hw k s e x He Hx. destruct (decide (k = id)) as [->|Hne].
  - pose proof (v_runs _ _ _ _ _ _ Hv) as Er. rewrite Er, lookup_insert_eq in Hx. injection Hx as <-.
    rewrite (v_events _ _ _ _ _ _ Hv), addEvents_lookup, bool_decide_eq_true_2 in He by done. cbn [andb] in He.
    destruct ((rn_sequence r <? s) && (s <=? rn_sequence r + Z.of_nat (length es))) eqn:Es.
    + apply andb_true_iff in Es as [Es1%Z.ltb_lt Es2%Z.leb_le]. apply (v_kinds _ _ _ _ _ _ Hv) in He as [He|(Hj & Ha & Hk)]; [by left|].
      right. split_and!; try done. rewrite (v_sequence _ _ _ _ _ _ Hv). lia.
    + destruct (a_kinds _ Hw _ _ _ _ He (v_row _ _ _ _ _ _ Hv)) as [Hk|(_ & Ha & _)]; [by left|].
      by rewrite (v_active _ _ _ _ _ _ Hv) in Ha.
  - apply (a_kinds _ Hw k s e x); [|by eapply advanced_other].
    by rewrite (v_events _ _ _ _ _ _ Hv), addEvents_lookup, bool_decide_eq_false_2 in He.
Qed.

(** Messages of a run that is not over have nothing to do with it. *)
Lemma spoken_other db db' id r : runs db !! id = Some r -> active (rn_status r) = true ->
  threads db' = threads db -> (forall k, k <> id -> runs db' !! k = runs db !! k) -> forall m, spoken db m -> spoken db' m.
Proof.
  intros Hr Ha Et Eo m. unfold spoken. rewrite Et. destruct (ms_role m); [done|]. intros (k & x & H1 & H2 & H3 & H4).
  exists k, x. split_and!; try done. rewrite Eo; [done|]. intros ->. simplify_eq. by rewrite H3 in Ha.
Qed.

(** What is left to check: the ledger, how the run ends, and the answers. *)
Lemma advanced_wf db db' id r r' es : advanced db db' id r r' es -> aiWf db ->
  (forall p a, ledgerView <$> ledger db' !! (id, p, a) = expected r' p a) ->
  (forall k p a, k <> id -> ledger db' !! (k, p, a) = ledger db !! (k, p, a)) ->
  (rn_status r' = RunFailed \/ rn_status r' = RunCancelled ->
    exists e, runEvents db' !! (id, rn_sequence r') = Some e /\ ev_kind e = endKind (rn_status r') /\ ev_error e = rn_error r') ->
  (forall k m, messages db' !! k = Some m -> messageCheck m = true /\ spoken db' m) ->
  (rn_status r' = RunSucceeded -> exists mid m, messages db' !! mid = Some m /\ ms_run m = Some id) ->
  (forall i j m m' k, messages db' !! i = Some m -> messages db' !! j = Some m' -> ms_run m = Some k -> ms_run m' = Some k -> i = j) ->
  (forall i j m m' s k, messages db' !! i = Some m -> messages db' !! j = Some m' ->
    ms_sender m = Some s -> ms_sender m' = Some s -> ms_key m = Some k -> ms_key m' = Some k -> i = j) ->
  messages db ⊆ messages db' -> aiWf db'.
Proof.
  intros Hv Hw Hl Hlo He Hsp Han Hsi Hmk Hsub. pose proof (v_threads _ _ _ _ _ _ Hv) as Et. pose proof (v_runs _ _ _ _ _ _ Hv) as Er. split.
  - intros k x. rewrite Er, lookup_insert_Some. intros [[_ <-]|[_ Hx]]; [by apply Hv|by eapply a_check].
  - intros k x Hx. destruct (advanced_row _ _ _ _ _ _ _ _ Hv Hx) as (y & Hy & Ei & _). rewrite Ei.
    destruct (a_starts _ Hw _ _ Hy) as (t & m & H1 & H2 & H3 & H4). exists t, m. rewrite Et. split_and!; try done; [|by apply H4..].
    by eapply lookup_weaken.
  - intros i j x x' Hx Hx' Es Ha Ha'. apply (advanced_row _ _ _ _ _ _ _ _ Hv) in Hx as (y & Hy & Ei & Hay).
    apply (advanced_row _ _ _ _ _ _ _ _ Hv) in Hx' as (y' & Hy' & Ei' & Hay'). unfold studentOf in Es. rewrite Ei, Ei' in Es.
    eapply (a_active _ Hw i j y y'); eauto.
  - intros i j x x' Hx Hx' Es Ek. apply (advanced_row _ _ _ _ _ _ _ _ Hv) in Hx as (y & Hy & Ei & _).
    apply (advanced_row _ _ _ _ _ _ _ _ Hv) in Hx' as (y' & Hy' & Ei' & _). unfold studentOf in Es. rewrite Ei, Ei' in *.
    eapply (a_keys _ Hw i j y y'); eauto.
  - intros i j x x' Hx Hx' Es Ek. apply (advanced_row _ _ _ _ _ _ _ _ Hv) in Hx as (y & Hy & Ei & _).
    apply (advanced_row _ _ _ _ _ _ _ _ Hv) in Hx' as (y' & Hy' & Ei' & _). rewrite Ei, Ei' in *.
    eapply (a_attempts _ Hw i j y y'); eauto.
  - intros k p a. destruct (decide (k = id)) as [->|Hne]; [by rewrite Hl, Er, lookup_insert_eq|].
    rewrite Hlo, Er, lookup_insert_ne by done. apply (a_ledger _ Hw).
  - by eapply advanced_events.
  - by eapply advanced_kinds.
  - intros k x Hx Hs. destruct (decide (k = id)) as [->|Hne].
    + rewrite Er, lookup_insert_eq in Hx. injection Hx as <-. by apply He.
    + apply (advanced_other _ _ _ _ _ _ _ _ Hv) in Hx; [|done]. destruct (a_ended _ Hw _ _ Hx Hs) as (e & H1 & H2). exists e.
      by rewrite (v_events _ _ _ _ _ _ Hv), addEvents_lookup, bool_decide_eq_false_2.
  - done.
  - intros k x Hx Hs. destruct (decide (k = id)) as [->|Hne].
    + rewrite Er, lookup_insert_eq in Hx. injection Hx as <-. by apply Han.
    + apply (advanced_other _ _ _ _ _ _ _ _ Hv) in Hx; [|done]. destruct (a_answered _ Hw _ _ Hx Hs) as (mid & m & H1 & H2).
      exists mid, m. split; [by eapply lookup_weaken|done].
  - done.
  - done.
  - rewrite (v_links _ _ _ _ _ _ Hv). apply Hw.
  - intros m v k. rewrite (v_links _ _ _ _ _ _ Hv). intros Hk. destruct (a_linked _ Hw _ _ _ Hk) as (x & H1 & H2). exists x.
    split; [by eapply lookup_weaken|done].
  - pose proof (a_refs _ Hw) as Hr. unfold linkedIn, linkedVersions, fileDB in *. by rewrite (v_links _ _ _ _ _ _ Hv), (v_lesson _ _ _ _ _ _ Hv).
Qed.

(** *** The changes keep the invariant *)
Lemma ai_messageByKey_None db sender key :
  messageByKey db sender key = None -> forall id m, messages db !! id = Some m -> ms_sender m = Some sender -> ms_key m <> Some key.
Proof.
  intros Hf id m Hm E1 E2. assert (Hin : In (id, m) (map_to_list (messages db))) by (by apply list_elem_of_In, elem_of_map_to_list).
  apply (find_none _ _ Hf) in Hin. by rewrite !bool_decide_eq_true_2 in Hin.
Qed.

Lemma messageViolation_None db id m : messageViolation db id m = None ->
  messages db !! id = None /\ forall s k, ms_sender m = Some s -> ms_key m = Some k -> messageByKey db s k = None.
Proof.
  unfold messageViolation. case_bool_decide as E; [done|]. apply eq_None_not_Some in E. intros Hv. split; [done|].
  intros s k Es Ek. rewrite Es, Ek in Hv. case_bool_decide as E2; [done|]. by apply eq_None_not_Some.
Qed.

Lemma spoken_message db db' : runs db' = runs db -> (forall k t, threads db !! k = Some t -> exists t', threads db' !! k = Some t' /\ th_student t' = th_student t) ->
  forall m, spoken db m -> spoken db' m.
Proof.
  intros Er Ht m. unfold spoken. rewrite Er. destruct (ms_role m); [|done].
  intros (E & t & H1 & H2). split; [done|]. destruct (Ht _ _ H1) as (t' & H3 & H4). exists t'. by rewrite H4.
Qed.

Lemma ai_change_post_wf db db' tid t at_ mid m :
  threads db !! tid = Some t \/ threads db !! tid = None ->
  threads db' = <[tid := touched t at_]> (threads db) ->
  ms_thread m = tid -> ms_role m = SpeakerStudent -> ms_run m = None -> ms_sender m = Some (th_student t) -> messageCheck m = true ->
  messageViolation db mid m = None -> messages db' = <[mid := m]> (messages db) ->
  (linksWf (links db) -> linksWf (links db')) ->
  (forall m' v k, links db' !! (m', v) = Some k -> links db !! (m', v) = Some k \/ m' = mid) ->
  runs db' = runs db -> runEvents db' = runEvents db -> ledger db' = ledger db -> outside db db' ->
  aiWf db -> aiWf db'.
Proof.
  intros Ht Et Em1 Em2 Em3 Em4 Hck Hvi Em Hl Hln Er Ee Eg [_ Hrefs] Hw. apply messageViolation_None in Hvi as [Hnew Hkey].
  assert (Hth : forall k x, threads db !! k = Some x -> exists x', threads db' !! k = Some x' /\ th_student x' = th_student x).
  { intros k x Hx. rewrite Et. destruct (decide (k = tid)) as [->|Hne].
    - rewrite lookup_insert_eq. exists (touched t at_). split; [done|]. by destruct Ht; simplify_eq.
    - rewrite lookup_insert_ne by done. eauto. }
  assert (Hsub : messages db ⊆ messages db') by (rewrite Em; by apply insert_subseteq).
  split; rewrite ?Er, ?Ee, ?Eg; try by apply Hw.
  - intros id r Hr. destruct (a_starts _ Hw _ _ Hr) as (t0 & m0 & H1 & H2 & H3 & H4). destruct (Hth _ _ H1) as (t1 & H5 & H6).
    exists t1, m0. rewrite H6. split_and!; try done; [by eapply lookup_weaken|by apply H4..].
  - intros id m0. rewrite Em, lookup_insert_Some. intros [[_ <-]|[_ Hm]].
    + split; [done|]. unfold spoken. rewrite Em2. split; [done|]. exists (touched t at_). by rewrite Em1, Et, lookup_insert_eq.
    + destruct (a_spoken _ Hw _ _ Hm) as [H1 H2]. split; [done|]. eapply spoken_message; [done|exact Hth|done].
  - intros id r Hr Hs. destruct (a_answered _ Hw _ _ Hr Hs) as (i & m0 & H1 & H2). exists i, m0. split; [by eapply lookup_weaken|done].
  - intros i j m0 m1 id. rewrite Em, !lookup_insert_Some. intros [[<- <-]|[Hi H1]] [[<- <-]|[Hj H2]]; try congruence. by eapply (a_single _ Hw).
  - intros i j m0 m1 s0 k0. rewrite Em, !lookup_insert_Some. intros [[<- <-]|[Hi H1]] [[<- <-]|[Hj H2]] E1 E2 E3 E4; try done.
    + exfalso. by eapply (ai_messageByKey_None _ _ _ (Hkey _ _ E1 E3) j m1).
    + exfalso. by eapply (ai_messageByKey_None _ _ _ (Hkey _ _ E2 E4) i m0).
    + by eapply (a_mkeys _ Hw i j m0 m1).
  - by apply Hl, Hw.
  - intros m0 v k Hk. apply Hln in Hk as [Hk| ->].
    + destruct (a_linked _ Hw _ _ _ Hk) as (x & H1 & H2). exists x. split; [by eapply lookup_weaken|done].
    + exists m. by rewrite Em, lookup_insert_eq.
  - by apply Hrefs, Hw.
Qed.

Lemma runViolation_None db id i : runViolation db id i = None ->
  runs db !! id = None /\
  (forall k r, runs db !! k = Some r -> studentOf r = rn_student i -> rn_key (rn_identity r) <> rn_key i /\ active (rn_status r) = false) /\
  (forall k r, runs db !! k = Some r -> rn_trigger (rn_identity r) = rn_trigger i -> rn_attempt (rn_identity r) <> rn_attempt i).
Proof.
  unfold runViolation. case_bool_decide as E; [done|]. apply eq_None_not_Some in E. case_bool_decide as E1; [done|]. apply eq_None_not_Some in E1.
  destruct (attemptTaken _ _ _) eqn:E2; [done|]. destruct (hasActiveRun _ _) eqn:E3; [done|]. intros _. split_and!; [done|..]; intros k r Hr Hs.
  - assert (Hin : In (k, r) (map_to_list (runs db))) by (by apply list_elem_of_In, elem_of_map_to_list). split.
    + intros Ek. apply (find_none _ _ E1) in Hin. by rewrite Hs, N.eqb_refl, bool_decide_eq_true_2 in Hin.
    + apply not_true_iff_false. intros Ha. apply not_true_iff_false in E3. apply E3, existsb_exists. exists (k, r). split; [done|].
      by rewrite Hs, N.eqb_refl, Ha.
  - intros Ea. apply not_true_iff_false in E2. apply E2, existsb_exists. exists (k, r). split; [by apply list_elem_of_In, elem_of_map_to_list|].
    by rewrite Hs, Ea, N.eqb_refl, Z.eqb_refl.
Qed.

Lemma change_admit_wf db db' id i at_ :
  startsFrom db i -> runCheck (queuedRow i at_) = true -> runViolation db id i = None ->
  runs db' = <[id := queuedRow i at_]> (runs db) -> ledger db' = withReserve id i at_ (ledger db) ->
  threads db' = threads db -> messages db' = messages db -> links db' = links db -> runEvents db' = runEvents db ->
  lessonDB db' = lessonDB db -> aiWf db -> aiWf db'.
Proof.
  intros Hst Hck Hvi Er Eg Et Em El Ee Ed Hw. apply runViolation_None in Hvi as (Hnew & Hst2 & Hat).
  assert (Hother : forall k x, runs db !! k = Some x -> runs db' !! k = Some x).
  { intros k x Hx. rewrite Er, lookup_insert_ne by congruence. done. }
  split; unfold startsFrom; rewrite ?Et, ?Em, ?El; try by apply Hw.
  - intros k x. rewrite Er, lookup_insert_Some. intros [[_ <-]|[_ Hx]]; [done|by eapply a_check].
  - intros k x. rewrite Er, lookup_insert_Some. intros [[_ <-]|[_ Hx]]; [done|by eapply (a_starts _ Hw)].
  - intros k j x x'. rewrite Er, !lookup_insert_Some. intros [[<- <-]|[_ H1]] [[<- <-]|[_ H2]] E1 E2 E3; try done.
    + destruct (Hst2 _ _ H2) as [_ Ha]; [by rewrite <- E1|congruence].
    + destruct (Hst2 _ _ H1) as [_ Ha]; [by rewrite E1|congruence].
    + by eapply (a_active _ Hw k j x x').
  - intros k j x x'. rewrite Er, !lookup_insert_Some. intros [[<- <-]|[_ H1]] [[<- <-]|[_ H2]] E1 E2; try done.
    + destruct (Hst2 _ _ H2) as [Ha _]; [by rewrite <- E1|]. by rewrite <- E2 in Ha.
    + destruct (Hst2 _ _ H1) as [Ha _]; [by rewrite E1|]. by rewrite E2 in Ha.
    + by eapply (a_keys _ Hw k j x x').
  - intros k j x x'. rewrite Er, !lookup_insert_Some. intros [[<- <-]|[_ H1]] [[<- <-]|[_ H2]] E1 E2; try done.
    + by destruct (Hat _ _ H2 (eq_sym E1)).
    + by destruct (Hat _ _ H1 E1).
    + by eapply (a_attempts _ Hw k j x x').
  - intros k p a. rewrite Er, Eg. destruct (decide (k = id)) as [->|Hne].
    + rewrite lookup_insert_eq. cbn. apply withReserve_view. by apply wf_no_ledger.
    + unfold withReserve. rewrite !lookup_other, lookup_insert_ne by done. apply (a_ledger _ Hw).
  - intros k q. rewrite Ee, Er, (a_events _ Hw). split; intros (x & Hx & Hq); exists x.
    + split; [|done]. by rewrite lookup_insert_ne by congruence.
    + apply lookup_insert_Some in Hx as [[_ <-]|[_ Hx]]; [cbn in Hq; lia|done].
  - intros k q e x. rewrite Ee, Er, lookup_insert_Some. intros He [[<- <-]|[_ Hx]]; [|by eapply (a_kinds _ Hw)].
    assert (Hs : is_Some (runEvents db !! (id, q))) by done. apply (a_events _ Hw) in Hs as (y & Hy & _). congruence.
  - intros k x. rewrite Ee, Er, lookup_insert_Some. intros [[_ <-]|[_ Hx]]; [by intros [[=]|[=]]|by eapply (a_ended _ Hw)].
  - intros k m Hm. destruct (a_spoken _ Hw _ _ Hm) as [H1 H2]. split; [done|]. unfold spoken in *. rewrite Et. destruct (ms_role m); [done|].
    destruct H2 as (j & x & H2 & H3 & H4). exists j, x. split_and!; [done|by apply Hother|apply H4..].
  - intros k x. rewrite Er, lookup_insert_Some. intros [[_ <-]|[_ Hx]]; [done|by eapply (a_answered _ Hw)].
  - pose proof (a_refs _ Hw) as Hr. unfold linkedIn, linkedVersions, fileDB in *. by rewrite El, Ed.
Qed.

(** The messages stay while a run moves or ends without an answer. *)
Lemma advanced_silent db db' id r r' es : advanced db db' id r r' es -> messages db' = messages db -> rn_status r' <> RunSucceeded -> aiWf db ->
  (forall p a, ledgerView <$> ledger db' !! (id, p, a) = expected r' p a) ->
  (forall k p a, k <> id -> ledger db' !! (k, p, a) = ledger db !! (k, p, a)) ->
  (rn_status r' = RunFailed \/ rn_status r' = RunCancelled ->
    exists e, runEvents db' !! (id, rn_sequence r') = Some e /\ ev_kind e = endKind (rn_status r') /\ ev_error e = rn_error r') -> aiWf db'.
Proof.
  intros Hv Em Hne Hw Hl Hlo He. eapply advanced_wf; try done; rewrite ?Em; try done.
  - intros k m Hm. destruct (a_spoken _ Hw _ _ Hm) as [H1 H2]. split; [done|].
    eapply spoken_other; [by apply Hv..| |done]. intros j Hj. by rewrite (v_runs _ _ _ _ _ _ Hv), lookup_insert_ne.
  - apply (a_single _ Hw).
  - apply (a_mkeys _ Hw).
Qed.

Lemma ledger_own db id r : aiWf db -> runs db !! id = Some r -> forall p a, ledgerView <$> ledger db !! (id, p, a) = expected r p a.
Proof. intros Hw Hr p a. by rewrite (a_ledger _ Hw), Hr. Qed.

Lemma movesTo_active r r' : active (rn_status r) = true -> movesTo r r' -> active (rn_status r') = true.
Proof. intros Ha (_ & [-> |[_ ->]] & _); done. Qed.

Lemma expected_moved r r' p a : active (rn_status r) = true -> movesTo r r' -> expected r' p a = expected r p a.
Proof.
  intros Ha Hm. pose proof (movesTo_active _ _ Ha Hm) as Ha'. destruct Hm as (Ei & _).
  assert (E1 : rn_status r <> RunSucceeded) by (by intros E; rewrite E in Ha).
  assert (E2 : rn_status r' <> RunSucceeded) by (by intros E; rewrite E in Ha').
  unfold expected, succeeded. rewrite Ei, Ha, Ha', !(bool_decide_eq_false_2 (_ = RunSucceeded)) by done. done.
Qed.

Lemma ai_change_move_wf db db' id r r' es : advanced db db' id r r' es -> movesTo r r' -> messages db' = messages db -> ledger db' = ledger db ->
  aiWf db -> aiWf db'.
Proof.
  intros Hv Hm Em Eg Hw. pose proof (movesTo_active _ _ (v_active _ _ _ _ _ _ Hv) Hm) as Ha.
  eapply advanced_silent; try done; rewrite ?Eg; try done.
  - intros E. by rewrite E in Ha.
  - intros p a. rewrite (expected_moved r r') by (by try apply Hv). by eapply ledger_own, Hv.
  - intros [E|E]; by rewrite E in Ha.
Qed.

Lemma ended_identity r s u first total finish error sequence at_ : rn_identity (endedRow r s u first total finish error sequence at_) = rn_identity r.
Proof. done. Qed.

Lemma change_end_wf db db' id r s u first total finish code at_ :
  let sequence := rn_sequence r + 1 in let r' := endedRow r s u first total finish (Some code) sequence at_ in
  let e := MkEventRow (statusText s) "" (Some code) (pg at_) in
  s = RunFailed \/ s = RunCancelled -> advanced db db' id r r' [e] -> messages db' = messages db ->
  ledger db' = withRelease id r at_ (ledger db) -> aiWf db -> aiWf db'.
Proof.
  intros sequence r' e Hs Hv Em Eg Hw. eapply advanced_silent; try done; rewrite ?Eg.
  - cbn. by destruct Hs as [-> | ->].
  - intros p a. apply withRelease_view; [|apply Hv|done]. by eapply ledger_own, Hv.
  - intros k p a Hne. unfold withRelease. by rewrite !lookup_other.
  - intros _. exists e. rewrite (v_events _ _ _ _ _ _ Hv). cbn. rewrite lookup_insert_eq. split_and!; try done.
    by destruct Hs as [-> | ->].
Qed.

Lemma change_succeed_wf db db' id r source input output cost first total finish es mid body at_ :
  let sequence := rn_sequence r + Z.of_nat (length es) in
  let r' := endedRow r RunSucceeded (givenUsage source input output cost) first total finish None sequence at_ in
  advanced db db' id r r' es -> ledger db' = withSettle id r (chargedTokens r') at_ (ledger db) ->
  messages db !! mid = None -> messageCheck (answerRow r id body at_) = true ->
  messages db' = <[mid := answerRow r id body at_]> (messages db) -> aiWf db -> aiWf db'.
Proof.
  intros sequence r' Hv Eg Hnew Hck Em Hw. assert (Hsub : messages db ⊆ messages db') by (rewrite Em; by apply insert_subseteq).
  assert (Hno : forall k m, messages db !! k = Some m -> ms_run m <> Some id).
  { intros k m Hm E. destruct (a_spoken _ Hw _ _ Hm) as [_ Hs]. unfold spoken in Hs. destruct (ms_role m); [by destruct Hs; congruence|].
    destruct Hs as (j & x & H1 & H2 & H3 & _). pose proof (v_active _ _ _ _ _ _ Hv) as Ha. pose proof (v_row _ _ _ _ _ _ Hv) as Hr.
    assert (j = id) as -> by congruence. assert (x = r) as -> by congruence. by rewrite H3 in Ha. }
  eapply advanced_wf; try done; rewrite ?Eg, ?Em.
  - intros p a. apply withSettle_view; [|apply Hv]. by eapply ledger_own, Hv.
  - intros k p a Hne. unfold withSettle. by rewrite !lookup_other.
  - by intros [E|E].
  - intros k m. rewrite lookup_insert_Some. intros [[_ <-]|[_ Hm]].
    + split; [done|]. exists id, r'. by rewrite (v_runs _ _ _ _ _ _ Hv), lookup_insert_eq.
    + destruct (a_spoken _ Hw _ _ Hm) as [H1 H2]. split; [done|].
      eapply spoken_other; [by apply Hv..| |done]. intros j Hj. by rewrite (v_runs _ _ _ _ _ _ Hv), lookup_insert_ne.
  - intros _. exists mid, (answerRow r id body at_). by rewrite lookup_insert_eq.
  - intros i j m m' k. rewrite !lookup_insert_Some. intros [[<- <-]|[_ H1]] [[<- <-]|[_ H2]] E1 E2; try done.
    + exfalso. apply (Hno _ _ H2). cbn in E1. congruence.
    + exfalso. apply (Hno _ _ H1). cbn in E2. congruence.
    + by eapply (a_single _ Hw).
  - intros i j m m' s k. rewrite !lookup_insert_Some. intros [[<- <-]|[_ H1]] [[<- <-]|[_ H2]] E1 E2 E3 E4; try done. by eapply (a_mkeys _ Hw i j m m').
Qed.

Lemma aiChange_wf db db' : aiChange db db' -> aiWf db -> aiWf db'.
Proof.
  intros Hc Hw. destruct Hc.
  - by eapply ai_change_post_wf.
  - eapply (ai_change_move_wf db db' id r r' es); try done. split; try done; [by match goal with Hm : movesTo _ _ |- _ => destruct Hm end|].
    intros j e He. left. match goal with Hk : Forall _ es |- _ => apply (Forall_lookup_1 _ _ _ _ Hk He) end.
  - eapply (change_end_wf db db' id r s u first total finish code at_); try done. split; try done.
    intros j e He. right. destruct j as [|j]; [|done]. cbn in He. injection He as <-. cbn. split; [done|].
    match goal with Hs : s = _ \/ _ |- _ => by destruct Hs as [-> | ->] end.
  - eapply (change_succeed_wf db db' id r); try done. split; try done.
    + match goal with Hs : rn_status r = _ |- _ => by rewrite Hs end.
    + intros j e He. right. match goal with Hs : es = _ \/ _ |- _ => destruct Hs as [-> | ->] end; [done|].
      destruct j as [|j]; [|done]. cbn in He. by injection He as <-.
Qed.

Lemma admits_wf db db' : admits db db' -> aiWf db -> aiWf db'.
Proof. intros [] Hw. by eapply change_admit_wf. Qed.

Lemma aiChanges_wf db db' : rtc aiChange db db' -> aiWf db -> aiWf db'.
Proof. induction 1 as [|a b c H1 _ IH]; [done|]. intros Hw. by apply IH, (aiChange_wf a). Qed.

Lemma aiTx_wf db db' : aiTx db db' -> aiWf db -> aiWf db'.
Proof. intros (m & H1 & [-> |H2]) Hw; [by eapply aiChanges_wf|]. eapply admits_wf; [done|]. by eapply aiChanges_wf. Qed.

Lemma aiTx_changes db db' : rtc aiChange db db' -> aiTx db db'.
Proof. intros Hc. exists db'. auto. Qed.

Lemma aiTx_refl db : aiTx db db.
Proof. by apply aiTx_changes. Qed.

End Changes.
