(* ===== verification/AITheorems.v ===== *)
(** * Theorems on the assistant

    One step of the program ([aiStep]), the reachable states, and what every later state
    keeps of an earlier one. *)

From S2P Require Import Prelude GoTime GoText GoStrings GoSha256 GoStrconv Pg OpsModel Keyset AuditLog FilesModel UploadParts FilesStore ProcessingProofs LessonModel LessonFiles LessonService LessonProofs LessonTheorems QuestionProofs AIModel AIStore AIRunnerStore AIInvariant.
From stdpp Require Import base tactics list gmap strings relations.
From Stdlib Require Import ZArith Lia.

Import Lessons AI AIStore AIAttachments AIRunnerStore.

Open Scope Z_scope.

Section Bodies.
Context `{PgTime}.

#[local] Hint Resolve demand_reads dreads_wall dreads_uuid dreads_attempt loadAttachments_reads selectRun_reads findRun_reads
  attachAll_reads getThread_reads reserveQuota_reads validateSnapshot_reads deferred_reads lockTerminal_reads getRun_reads : dreads.

(** ** Admission *)
Lemma reserveQuota_Ok student r env n db st u i :
  reserveQuota student r env (n, db) = (st, Ok u) -> rn_student i = student -> rn_requests i = RequestCount r -> rn_tokens i = TokenCount r ->
  rn_day i = DayKey r -> rn_month i = MonthKey r -> rn_estimator i = EstimatorVersion r -> checkedQuota db i.
Proof.
  unfold reserveQuota, checkedQuota. intros Hrun -> -> -> -> -> ->. db_go. eexists. split; [done|]. match goal with Hq : CheckQuota _ _ _ = Ok ?v |- _ => by destruct r, v end.
Qed.

Lemma runAllowed_starts db i : runAllowed db i = true -> startsFrom db i.
Proof.
  unfold runAllowed, startsFrom. intros Ha. bool_simpl. repeat case_match; try done; bool_simpl. eexists _, _. split_and!; try done; by apply N.eqb_eq.
Qed.

Lemma threadOf_Some db student thread t : threadOf db student thread = Some t -> threads db !! thread = Some t /\ th_student t = student.
Proof. unfold threadOf. intros Ht. repeat case_match; simplify_eq. split; [done|]. by apply N.eqb_eq. Qed.

(** What the beginning of [admitNew] says, and where it leads. *)
Definition threadStage (a : RuntimeAdmission) : DB AIDB Error unit :=
  if AdmCreate a
  then insertThread (AdmThread a) (MkThreadRow (AdmStudent a) (AdmTitle a) (AdmSubject a) (pg (AdmNow a)) (pg (AdmNow a)))
  else dret tt.

Lemma threadStage_Ok a env n db st u : threadStage a env (n, db) = (st, Ok u) ->
  (AdmCreate a = false -> exists t, threadOf db (AdmStudent a) (AdmThread a) = Some t) ->
  exists t, (threads db !! AdmThread a = Some t \/ threads db !! AdmThread a = None) /\ th_student t = AdmStudent a /\
    snd st = setThreads (<[AdmThread a := t]> (threads db)) db.
Proof.
  unfold threadStage. intros Hrun He. destruct (AdmCreate a) eqn:Ec.
  - apply insertThread_Ok in Hrun as (E & Hno & _). exists (MkThreadRow (AdmStudent a) (AdmTitle a) (AdmSubject a) (pg (AdmNow a)) (pg (AdmNow a))).
    split; [by right|]. by split.
  - destruct (He eq_refl) as (t & [H1 H2]%threadOf_Some). exists t. injection Hrun as <- _. cbn. split; [by left|]. split; [done|].
    rewrite insert_id by done. by destruct db.
Qed.

(** The message, its attachments and the run, one after the other. *)
Lemma admitted_changes a t id i env n1 n2 n3 n4 n6 db d3 d5 u1 u2 u3 u4 st1 st4 st6 :
  let d1 := setThreads (<[AdmThread a := t]> (threads db)) db in
  let d2 := setMessages (<[AdmMessage a := newMessage a]> (messages d1)) d1 in
  let d4 := setRuns (<[id := queuedRow i (AdmNow a)]> (runs d3)) d3 in
  aiWf db -> (threads db !! AdmThread a = Some t \/ threads db !! AdmThread a = None) -> th_student t = AdmStudent a ->
  checkedQuota db i -> insertMessage (AdmMessage a) (newMessage a) env (n1, d1) = (st1, Ok u1) ->
  insertLinks (AdmMessage a) 0 (AdmFiles a) env (n2, d2) = ((n3, d3), Ok u2) ->
  insertRun id i (AdmNow a) env (n4, d3) = (st4, Ok u3) -> d5 = setLedger (withReserve id i (AdmNow a) (ledger d4)) d4 ->
  touchThread (AdmThread a) (AdmNow a) env (n6, d5) = (st6, Ok u4) ->
  aiTx db (snd st6).
Proof.
  intros d1 d2 d4 Hw Ht Hs Hq Hmsg Hlinks Hrun -> Htouch.
  apply ai_insertMessage_Ok in Hmsg as (_ & Hma & Hck & Hvi & _).
  apply ai_insertLinks_Ok in Hlinks as ((refs & Ed3 & Hrefs) & Hlw & Hln & Hsub); [|lia]. cbn [snd] in *.
  apply insertRun_Ok in Hrun as (_ & Hra & Hrc & Hrv). apply runAllowed_starts in Hra.
  assert (Eth : threads d3 = <[AdmThread a := t]> (threads db)) by (by rewrite Ed3).
  apply touchThread_Ok in Htouch as (t' & Ht' & ->); [|cbn; rewrite Eth, lookup_insert_eq; done]. cbn in Ht'. rewrite Eth, lookup_insert_eq in Ht'.
  injection Ht' as <-. set (m := setThreads (<[AdmThread a := touched t (AdmNow a)]> (threads db)) d3).
  exists m. split; [apply rtc_once|right].
  - apply (ChPost _ m (AdmThread a) t (AdmNow a) (AdmMessage a) (newMessage a)); try done; try (unfold m; rewrite Ed3; done).
    + cbn. by rewrite Hs.
    + split; [exists refs; unfold m; by rewrite Ed3|]. unfold m. intros Hl. apply Hrefs in Hl. exact Hl.
  - apply (Admits m _ id i (AdmNow a)); try done; try (unfold m; rewrite Ed3; done).
    + destruct Hra as (t0 & m0 & H1 & H2 & H3). rewrite Eth in H1. unfold m, startsFrom. cbn.
      apply lookup_insert_Some in H1 as [[E <-]|[Hne H1]].
      * exists (touched t (AdmNow a)), m0. split_and!; [by rewrite <- E, lookup_insert_eq|done|apply H3..].
      * exists t0, m0. split_and!; [by rewrite lookup_insert_ne|done|apply H3..].
    + unfold m. cbn. rewrite Ed3. cbn. by rewrite insert_insert_eq.
Qed.

Lemma admitNew_changes a env n db st r : aiWf db -> admitNew a env (n, db) = (st, Ok r) -> aiTx db (snd st).
Proof.
  intros Hw Hrun. unfold admitNew in Hrun. fold (threadStage a) in Hrun.
  apply bind_reads_Ok in Hrun as (n1 & u1 & _ & Hrun); [|auto with dreads].
  apply bind_reads_Ok in Hrun as (n2 & db2 & Hd & Hrun); [|auto with dreads]. injection Hd as <- <-.
  destruct (activeStudent db (AdmStudent a)); [|done].
  apply bind_reads_Ok in Hrun as (n3 & u3 & Hex & Hrun); [|repeat reads_step].
  apply bind_reads_Ok in Hrun as (n4 & u4 & _ & Hrun); [|auto with dreads].
  apply bind_reads_Ok in Hrun as (n5 & u5 & Hq & Hrun); [|auto with dreads].
  apply dbind_Ok in Hrun as ([n6 d1] & u6 & Hth & Hrun). apply dbind_Ok in Hrun as ([n7 d2] & u7 & Hmsg & Hrun).
  apply dbind_Ok in Hrun as ([n8 d3] & u8 & Hlk & Hrun). apply bind_reads_Ok in Hrun as (n9 & id & Hid & Hrun); [|auto with dreads].
  apply dbind_Ok in Hrun as ([n10 d4] & u10 & Hir & Hrun). apply dbind_Ok in Hrun as ([n11 d5] & u11 & Hrs & Hrun).
  apply dbind_Ok in Hrun as ([n12 d6] & u12 & Htc & Hrun).
  set (i := runIdentity _ _ _ _ _ _ _ _) in Hir.
  assert (Est : snd st = d6) by (refine ((_ : dreads _) _ _ _ _ _ Hrun); repeat reads_step). rewrite Est. change d6 with (snd (n12, d6)).
  apply (threadStage_Ok a env n5 db) in Hth as (t & Ht & Hs & Ed1).
  2: { intros Ec. rewrite Ec in Hex. clear -Hex. db_go. eauto. }
  cbn [snd] in Ed1. subst d1. pose proof Hmsg as Hmsg'. apply ai_insertMessage_Ok in Hmsg' as (Ed2 & _). cbn [snd] in Ed2. subst d2.
  pose proof Hir as Hir'. apply insertRun_Ok in Hir' as (Ed4 & _ & _ & Hrv). cbn [snd] in Ed4. subst d4.
  pose proof Hlk as Hlk'. apply ai_insertLinks_Ok in Hlk' as ((refs & Ed3 & _) & _); [|lia]. cbn [snd] in Ed3.
  pose proof Hrs as Hrs'. eapply (insertReserve_Ok _ _ _ _ _ _ _ _ _ i) in Hrs' as Ed5; try done.
  - cbn [snd] in Ed5. subst d5. eapply (admitted_changes a t id i); try done. by eapply (reserveQuota_Ok _ _ _ _ _ _ _ i).
  - intros p q. apply runViolation_None in Hrv as (Hno & _). rewrite Ed3 in *. cbn in *. by apply wf_no_ledger.
Qed.

Lemma admitBody_changes a env n db st r : aiWf db -> admitBody a env (n, db) = (st, Ok r) -> aiTx db (snd st).
Proof.
  intros Hw Hrun. unfold admitBody in Hrun. apply bind_reads_Ok in Hrun as (n1 & u1 & _ & Hrun); [|auto with dreads].
  apply bind_reads_Ok in Hrun as (n2 & [v|] & _ & Hrun); [| |auto with dreads]; [|by eapply admitNew_changes].
  assert (snd st = db) as ->; [|apply aiTx_refl]. refine ((_ : dreads _) _ _ _ _ _ Hrun). repeat reads_step.
Qed.

(** ** Retries *)
Lemma retryNew_changes a thread message env n db st r : aiWf db -> retryNew a thread message env (n, db) = (st, Ok r) -> aiTx db (snd st).
Proof.
  intros Hw Hrun. unfold retryNew in Hrun. apply bind_reads_Ok in Hrun as (n1 & u1 & _ & Hrun); [|auto with dreads].
  apply bind_reads_Ok in Hrun as (n2 & db2 & Hd & Hrun); [|auto with dreads]. injection Hd as <- <-.
  apply bind_reads_Ok in Hrun as (n4 & u4 & _ & Hrun); [|auto with dreads].
  apply bind_reads_Ok in Hrun as (n5 & u5 & Hq & Hrun); [|auto with dreads].
  apply dbind_Ok in Hrun as ([n10 d4] & u10 & Hir & Hrun). apply dbind_Ok in Hrun as ([n11 d5] & u11 & Hrs & Hrun).
  set (i := runIdentity _ _ _ _ _ _ _ _) in Hir. set (id := RetryRunID a) in *.
  assert (Est : snd st = d5) by (refine ((_ : dreads _) _ _ _ _ _ Hrun); repeat reads_step). rewrite Est.
  apply insertRun_Ok in Hir as (Ed4 & Hra & Hrc & Hrv). cbn [snd] in Ed4. subst d4. apply runAllowed_starts in Hra.
  pose proof Hrv as Hrv'. apply runViolation_None in Hrv' as (Hno & _).
  eapply (insertReserve_Ok _ _ _ _ _ _ _ _ _ i) in Hrs as Ed5; try done; [|intros p q; cbn; by apply wf_no_ledger]. cbn [snd] in Ed5. subst d5.
  exists db. split; [done|right]. apply (Admits _ _ id i (RetryNow a)); try done; try (by rewrite Ed5). by eapply (reserveQuota_Ok _ _ _ _ _ _ _ i).
Qed.

Lemma retryBody_changes a env n db st r : aiWf db -> retryBody a env (n, db) = (st, Ok r) -> aiTx db (snd st).
Proof.
  intros Hw Hrun. unfold retryBody in Hrun. apply bind_reads_Ok in Hrun as (n1 & u1 & _ & Hrun); [|auto with dreads].
  apply bind_reads_Ok in Hrun as (n2 & u2 & _ & Hrun); [|auto with dreads].
  apply bind_reads_Ok in Hrun as (n3 & db2 & Hd & Hrun); [|auto with dreads]. injection Hd as <- <-.
  destruct (runOf db _ _); [|done]. destruct (negb _); [done|].
  apply bind_reads_Ok in Hrun as (n4 & [v|] & _ & Hrun); [| |auto with dreads]; [|by eapply retryNew_changes].
  destruct (negb _); [done|]. assert (snd st = db) as ->; [|apply aiTx_refl]. refine ((_ : dreads _) _ _ _ _ _ Hrun). repeat reads_step.
Qed.

(** ** Ends *)
Lemma ending_changes id r s u first total finish code at_ env n1 n2 n3 db st1 st2 st3 u1 u2 u3 :
  let sequence := rn_sequence r + 1 in let r' := endedRow r s u first total finish (Some code) sequence at_ in
  aiWf db -> runs db !! id = Some r -> active (rn_status r) = true -> s = RunFailed \/ s = RunCancelled ->
  insertEvent id sequence (MkEventRow (statusText s) "" (Some code) (pg at_)) env (n1, db) = (st1, Ok u1) ->
  updateRun id r r' env (n2, snd st1) = (st2, Ok u2) -> releaseQuota id r at_ env (n3, snd st2) = (st3, Ok u3) ->
  rtc aiChange db (snd st3).
Proof.
  intros sequence r' Hw Hr Ha Hs He Hu Hq. apply insertEvent_Ok in He as (Ee & _ & _). apply ai_updateRun_Ok in Hu as (Eu & _ & Hck).
  apply releaseQuota_Ok in Hq as Eq.
  - rewrite Eq, Eu, Ee. apply rtc_once. by apply (ChEnd _ _ id r s u first total finish code at_).
  - pose proof (wf_unsettled _ _ _ Hw Hr Ha) as Hun. intros p a Hne. rewrite Eu, Ee. by apply Hun.
Qed.

Lemma runOf_Some db student id r : runOf db student id = Some r -> runs db !! id = Some r /\ studentOf r = student.
Proof. unfold runOf. intros Hr. repeat case_match; simplify_eq. split; [done|]. by apply N.eqb_eq. Qed.

Lemma moving_changes id r r' env n db st u :
  aiWf db -> runs db !! id = Some r -> active (rn_status r) = true -> movesTo r r' -> rn_sequence r' = rn_sequence r ->
  updateRun id r r' env (n, db) = (st, Ok u) -> rtc aiChange db (snd st).
Proof.
  intros Hw Hr Ha Hm Hs Hu. apply ai_updateRun_Ok in Hu as (-> & _ & Hck). apply rtc_once.
  apply (ChMove _ _ id r r' []); try done. cbn. lia.
Qed.

Lemma requested_moves r at_ : movesTo r (requestedRow r at_).
Proof. split_and!; [done|by left|]. cbn. by destruct (rn_cancel r). Qed.

Lemma releaseBody_changes student id s code at_ env n db st r : s = RunFailed \/ s = RunCancelled ->
  aiWf db -> releaseBody student id s code at_ env (n, db) = (st, Ok r) -> rtc aiChange db (snd st).
Proof.
  intros Hs Hw Hrun. unfold releaseBody in Hrun. apply bind_reads_Ok in Hrun as (n1 & u1 & _ & Hrun); [|auto with dreads].
  apply bind_reads_Ok in Hrun as (n2 & u2 & _ & Hrun); [|auto with dreads].
  apply bind_reads_Ok in Hrun as (n3 & db2 & Hd & Hrun); [|auto with dreads]. injection Hd as <- <-.
  destruct (runOf db _ _) as [x|] eqn:Hx; [|done]. apply runOf_Some in Hx as [Hx Hst].
  case_bool_decide as E1; [apply selectRun_reads in Hrun; by rewrite Hrun|].
  destruct (terminal _) eqn:E2; [done|]. apply negb_false_iff in E2. destruct (_ && _) eqn:E3.
  - apply dbind_Ok in Hrun as ([n4 d4] & u4 & Hu & Hrun).
    assert (Est : snd st = d4) by (refine ((_ : dreads _) _ _ _ _ _ Hrun); repeat reads_step). rewrite Est.
    by eapply (moving_changes _ x _ _ _ _ (n4, d4)) in Hu; [|done..|apply requested_moves|done].
  - apply bind_reads_Ok in Hrun as (n4 & u4 & _ & Hrun); [|auto with dreads].
    apply bind_reads_Ok in Hrun as (n5 & u5 & _ & Hrun); [|auto with dreads].
    apply dbind_Ok in Hrun as ([n6 d6] & u6 & He & Hrun). apply dbind_Ok in Hrun as ([n7 d7] & u7 & Hu & Hrun).
    apply dbind_Ok in Hrun as ([n8 d8] & u8 & Hq & Hrun).
    assert (Est : snd st = d8) by (refine ((_ : dreads _) _ _ _ _ _ Hrun); repeat reads_step). rewrite Est.
    exact (ending_changes id x s _ _ _ _ code at_ env _ _ _ db (n6, d6) (n7, d7) (n8, d8) _ _ _ Hw Hx E2 Hs He Hu Hq).
Qed.

Lemma blockModel_Ok model at_ env n db st u :
  blockModel model at_ env (n, db) = (st, Ok u) -> exists c, snd st = setConfig c db /\ sameLimits (config db) c.
Proof.
  unfold blockModel. intros Hrun. db_go.
  - eexists. by split.
  - exists (config a0). split; [by destruct a0|done].
  - exists (config a0). split; [by destruct a0|done].
Qed.

Lemma maybeBlock_Ok (b : bool) model at_ env n db st u :
  (if b then blockModel model at_ else dret tt) env (n, db) = (st, Ok u) -> exists c, snd st = setConfig c db /\ sameLimits (config db) c.
Proof. destruct b; [apply blockModel_Ok|]. intros [= <- _]. exists (config db). split; [by destruct db|done]. Qed.

Lemma succeeding_changes id r source input output cost first total finish es mid body at_ c env n1 n2 n3 db st1 st2 st3 u1 u2 u3 :
  let sequence := rn_sequence r + Z.of_nat (length es) in
  let r' := endedRow r RunSucceeded (givenUsage source input output cost) first total finish None sequence at_ in
  let d1 := setEvents (addEvents id (rn_sequence r) es (runEvents db)) (setConfig c db) in
  aiWf db -> runs db !! id = Some r -> rn_status r = RunStreaming -> sameLimits (config db) c ->
  es = [] \/ es = [MkEventRow "completed" "" None (pg at_)] ->
  updateRun id r r' env (n1, d1) = (st1, Ok u1) ->
  insertMessage mid (answerRow r id body at_) env (n2, snd st1) = (st2, Ok u2) ->
  settleQuota id r (chargedTokens r') at_ env (n3, snd st2) = (st3, Ok u3) -> rtc aiChange db (snd st3).
Proof.
  intros sequence r' d1 Hw Hr Hs Hc Hes Hu Hm Hq. apply ai_updateRun_Ok in Hu as (Eu & _ & Hck). rewrite Eu in Hm.
  apply ai_insertMessage_Ok in Hm as (Em & _ & Hmc & Hvi & _). apply messageViolation_None in Hvi as [Hno _].
  apply settleQuota_Ok in Hq as Eq.
  - rewrite Eq, Em. apply rtc_once.
    by apply (ChSucceed _ _ id r source input output cost first total finish es mid body at_).
  - assert (Ha : active (rn_status r) = true) by (by rewrite Hs).
    pose proof (wf_unsettled _ _ _ Hw Hr Ha) as Hun. intros p a Hne. rewrite Em. by apply Hun.
Qed.

Lemma addCost_small a b : inInt64 (a + b) = true -> addCost a b = add64 a b.
Proof.
  unfold addCost, add64, inInt64. intros Hi. destruct (_ <? _) eqn:E.
  - apply Z.ltb_lt in E. unfold maxInt64, minInt64 in *. bool_simpl. lia.
  - rewrite UploadParts.wrapInt64_id; [done|]. unfold inInt64, minInt64, maxInt64 in *. bool_simpl. lia.
Qed.

Lemma succeedBody_changes student id body (u : TerminalUsage) at_ env n db st r : inInt64 (TermInput u + TermOutput u) = true ->
  aiWf db -> succeedBody student id body u at_ env (n, db) = (st, Ok r) -> rtc aiChange db (snd st).
Proof.
  intros Hsm Hw Hrun. unfold succeedBody in Hrun. apply bind_reads_Ok in Hrun as (n1 & u1 & _ & Hrun); [|auto with dreads].
  apply bind_reads_Ok in Hrun as (n2 & u2 & _ & Hrun); [|auto with dreads].
  apply bind_reads_Ok in Hrun as (n3 & db2 & Hd & Hrun); [|auto with dreads]. injection Hd as <- <-.
  destruct (runOf db _ _) as [x|] eqn:Hx; [|done]. apply runOf_Some in Hx as [Hx Hst].
  case_bool_decide as E1; [apply selectRun_reads in Hrun; by rewrite Hrun|].
  case_bool_decide as E2; [|done]. cbn [negb] in Hrun.
  apply dbind_Ok in Hrun as ([n4 d4] & u4 & Hb & Hrun). apply dbind_Ok in Hrun as ([n5 d5] & u5 & Hu & Hrun).
  apply bind_reads_Ok in Hrun as (n6 & answer & _ & Hrun); [|auto with dreads].
  apply dbind_Ok in Hrun as ([n7 d7] & u7 & Hm & Hrun). apply dbind_Ok in Hrun as ([n8 d8] & u8 & Hq & Hrun).
  assert (Est : snd st = d8) by (refine ((_ : dreads _) _ _ _ _ _ Hrun); repeat reads_step). rewrite Est.
  apply maybeBlock_Ok in Hb as (c & E4 & Hc). cbn [snd] in E4. subst d4.
  replace (rn_sequence x) with (rn_sequence x + Z.of_nat (length (@nil EventRow))) in Hu by (cbn; lia).
  rewrite <- (addCost_small _ _ Hsm) in Hq.
  eapply (succeeding_changes id x _ _ _ _ _ _ _ [] answer body at_ c env _ _ _ db (n5, d5) (n7, d7) (n8, d8)); try done. by left.
Qed.

(** ** The runner's store *)
Lemma streamedBy_Some db id owner r : streamedBy db id owner = Some r ->
  runs db !! id = Some r /\ rn_status r = RunStreaming /\ rn_owner r = Some owner.
Proof. unfold streamedBy. intros Hr. repeat case_match; simplify_eq. bool_simpl. done. Qed.

Lemma streaming_active r : rn_status r = RunStreaming -> active (rn_status r) = true.
Proof. by intros ->. Qed.

Lemma renewed_moves r until at_ : movesTo r (renewedRow r until at_).
Proof. split_and!; [done|by left|done]. Qed.

Lemma heartbeatBody_changes id owner until env n db st r : aiWf db -> heartbeatBody id owner until env (n, db) = (st, Ok r) -> rtc aiChange db (snd st).
Proof.
  intros Hw Hrun. unfold heartbeatBody in Hrun. apply dbind_Ok in Hrun as ([n1 d1] & now & Hn & Hrun).
  apply databaseNow_Ok in Hn as ([= -> ->] & _).
  apply bind_reads_Ok in Hrun as (n3 & db2 & Hd & Hrun); [|auto with dreads]. injection Hd as <- <-.
  destruct (streamedBy db id owner) as [x|] eqn:Hx; [|done]. apply streamedBy_Some in Hx as (Hx & Hs & _).
  apply dbind_Ok in Hrun as ([n4 d4] & u4 & Hu & Hrun). apply dret_Ok in Hrun as [-> _].
  by eapply (moving_changes _ x _ _ _ _ (n4, d4)) in Hu; [|done|done|by apply streaming_active|apply renewed_moves|done].
Qed.

(** The next number of an event that the table takes. *)
Lemma eventCheck_next sequence next row : eventCheck next row = true -> next = Files.wrapInt64 (sequence + 1) -> 0 <= sequence <= maxInt64 ->
  sequence < maxInt64 /\ next = sequence + 1.
Proof.
  intros Hck E1 Hpos. assert (Hnew : 0 < next) by (unfold eventCheck in Hck; bool_simpl; lia).
  destruct (decide (sequence = maxInt64)) as [E|E].
  - exfalso. rewrite E1, E in Hnew. by vm_compute in Hnew.
  - rewrite E1. unfold maxInt64 in *. rewrite UploadParts.wrapInt64_id; lia.
Qed.

(** What the loop of [AppendEvents] writes. *)
Definition becomes (e : RunEvent) (row : EventRow) : Prop := ev_kind row = EventKind e /\ ev_payload row = EventDelta e.

Lemma appendLoop_Ok id sequence events env n db st last :
  appendLoop id sequence events env (n, db) = (st, Ok last) -> 0 <= sequence <= maxInt64 ->
  exists es, snd st = setEvents (addEvents id sequence es (runEvents db)) db /\ last = sequence + Z.of_nat (length es) /\
    Forall (fun e => streamKind (ev_kind e)) es /\ Forall2 becomes events es.
Proof.
  revert sequence n db. induction events as [|e events IH]; intros sequence n db; cbn [appendLoop].
  - intros [-> ->]%dret_Ok _. exists []. cbn. split_and!; [by destruct db|lia|done|done].
  - intros Hrun Hpos. destruct (_ || _ || _) eqn:Eg; [done|]. apply orb_false_iff in Eg as [Eg _]. apply orb_false_iff in Eg as [E1 E2].
    apply negb_false_iff, Z.eqb_eq in E1. apply negb_false_iff in E2.
    apply bind_reads_Ok in Hrun as (n1 & now & _ & Hrun); [|destruct (IsZero _); auto with dreads].
    apply dbind_Ok in Hrun as ([n2 d2] & u2 & He & Hrun). apply insertEvent_Ok in He as (E3 & Hck & _). cbn [snd] in E3. subst d2.
    apply (eventCheck_next sequence) in Hck as [Hlt Es]; [|done|done]. rewrite Es in Hrun. apply IH in Hrun as (es & Hst & Hl & Hk & Hb); [|lia].
    eexists (_ :: es). split_and!; [exact Hst|cbn [length]; lia| |by constructor]. constructor; [|done]. cbn.
    unfold member in E2. apply bool_decide_eq_true_1 in E2. unfold streamKind. set_solver.
Qed.

Lemma appended_moves r sequence at_ : movesTo r (appendedRow r sequence at_).
Proof. split_and!; [done|by left|done]. Qed.

Lemma appendBody_changes id owner events env n db st r : aiWf db -> appendBody id owner events env (n, db) = (st, Ok r) -> rtc aiChange db (snd st).
Proof.
  intros Hw Hrun. unfold appendBody in Hrun. apply bind_reads_Ok in Hrun as (n1 & u1 & _ & Hrun); [|auto with dreads].
  apply bind_reads_Ok in Hrun as (n3 & db2 & Hd & Hrun); [|auto with dreads]. injection Hd as <- <-.
  destruct (streamedBy db id owner) as [x|] eqn:Hx; [|done]. apply streamedBy_Some in Hx as (Hx & Hs & _).
  apply dbind_Ok in Hrun as ([n4 d4] & last & Hl & Hrun). apply dbind_Ok in Hrun as ([n5 d5] & now & Hn & Hrun).
  apply databaseNow_Ok in Hn as ([= -> ->] & _). apply dbind_Ok in Hrun as ([n6 d6] & u6 & Hu & Hrun).
  assert (Est : snd st = d6) by (refine ((_ : dreads _) _ _ _ _ _ Hrun); repeat reads_step). rewrite Est.
  apply appendLoop_Ok in Hl as (es & E4 & -> & Hk & _); [|by eapply runCheck_sequence, a_check]. cbn [snd] in E4. subst d4.
  apply ai_updateRun_Ok in Hu as (E6 & _ & Hck). cbn [snd] in E6. subst d6. apply rtc_once.
  by apply (ChMove _ _ id x _ es Hx (streaming_active _ Hs) (appended_moves _ _ _) Hck).
Qed.

Lemma completeBody_changes id owner c env n db st r : aiWf db -> completeBody id owner c env (n, db) = (st, Ok r) -> rtc aiChange db (snd st).
Proof.
  intros Hw Hrun. unfold completeBody in Hrun. apply bind_reads_Ok in Hrun as (n1 & u1 & _ & Hrun); [|auto with dreads].
  apply bind_reads_Ok in Hrun as (n2 & u2 & _ & Hrun); [|auto with dreads].
  apply bind_reads_Ok in Hrun as (n3 & db2 & Hd & Hrun); [|auto with dreads]. injection Hd as <- <-.
  destruct (streamedBy db id owner) as [x|] eqn:Hx; [|done]. apply streamedBy_Some in Hx as (Hx & Hs & _).
  destruct (cancelRequested x); [done|]. apply bind_reads_Ok in Hrun as (n4 & now & _ & Hrun); [|auto with dreads].
  apply dbind_Ok in Hrun as ([n5 d5] & u5 & Hb & Hrun). apply bind_reads_Ok in Hrun as (n6 & u6 & _ & Hrun); [|auto with dreads].
  apply dbind_Ok in Hrun as ([n7 d7] & u7 & He & Hrun). apply dbind_Ok in Hrun as ([n8 d8] & u8 & Hu & Hrun).
  apply bind_reads_Ok in Hrun as (n9 & answer & _ & Hrun); [|auto with dreads].
  apply dbind_Ok in Hrun as ([n10 d10] & u10 & Hm & Hrun). apply dbind_Ok in Hrun as ([n11 d11] & u11 & Hq & Hrun).
  assert (Est : snd st = d11) by (by eapply deferred_reads in Hrun). rewrite Est.
  apply maybeBlock_Ok in Hb as (cfg & E5 & Hc). cbn [snd] in E5. subst d5.
  apply insertEvent_Ok in He as (E7 & _). cbn [snd] in E7. subst d7.
  apply (succeeding_changes id x (DoneSource c) (DoneInput c) (DoneOutput c) (DoneCost c) (Some (FirstByteMS c)) (Some (TotalMS c))
    (nilIfEmpty (DoneFinish c)) [MkEventRow "completed" "" None (pg now)] answer (Answer c) now cfg env n7 n9 n10 db (n8, d8) (n10, d10) (n11, d11) u8 u10 u11);
    try done. by right.
Qed.

Lemma failBody_changes id owner f env n db st r : FailStatus f = RunFailed \/ FailStatus f = RunCancelled ->
  aiWf db -> failBody id owner f env (n, db) = (st, Ok r) -> rtc aiChange db (snd st).
Proof.
  intros Hs Hw Hrun. unfold failBody in Hrun. apply bind_reads_Ok in Hrun as (n1 & u1 & _ & Hrun); [|auto with dreads].
  apply bind_reads_Ok in Hrun as (n2 & u2 & _ & Hrun); [|auto with dreads].
  apply bind_reads_Ok in Hrun as (n3 & db2 & Hd & Hrun); [|auto with dreads]. injection Hd as <- <-.
  destruct (streamedBy db id owner) as [x|] eqn:Hx; [|done]. apply streamedBy_Some in Hx as (Hx & Hst & _).
  apply bind_reads_Ok in Hrun as (n4 & now & _ & Hrun); [|auto with dreads].
  apply bind_reads_Ok in Hrun as (n6 & u6 & _ & Hrun); [|auto with dreads].
  apply dbind_Ok in Hrun as ([n7 d7] & u7 & He & Hrun). cbn zeta in Hrun. destruct (negb _) eqn:Eg; [done|].
  apply dbind_Ok in Hrun as ([n8 d8] & u8 & Hu & Hrun). apply dbind_Ok in Hrun as ([n9 d9] & u9 & Hq & Hrun).
  assert (Est : snd st = d9) by (by eapply deferred_reads in Hrun). rewrite Est.
  exact (ending_changes id x (FailStatus f) _ _ _ _ (FailCode f) now env _ _ _ db (n7, d7) (n8, d8) (n9, d9) _ _ _ Hw Hx
    (streaming_active _ Hst) Hs He Hu Hq).
Qed.

(** A run that another transaction does not hold is ended by the code given. *)
Lemma endRun_changes id r s u first total finish code at_ env n db st a :
  let sequence := rn_sequence r + 1 in let r' := endedRow r s u first total finish (Some code) sequence at_ in
  aiWf db -> runs db !! id = Some r -> active (rn_status r) = true -> s = RunFailed \/ s = RunCancelled ->
  (do _ <- demand (inInt64 sequence);
   do _ <- insertEvent id sequence (MkEventRow (statusText s) "" (Some code) (pg at_));
   do _ <- updateRun id r r';
   do _ <- releaseQuota id r at_;
   do _ <- deferred id;
   dret true)%db env (n, db) = (st, Ok a) -> rtc aiChange db (snd st).
Proof.
  intros sequence r' Hw Hr Ha Hs Hrun. apply bind_reads_Ok in Hrun as (n6 & u6 & _ & Hrun); [|auto with dreads].
  apply dbind_Ok in Hrun as ([n7 d7] & u7 & He & Hrun).
  apply dbind_Ok in Hrun as ([n8 d8] & u8 & Hu & Hrun). apply dbind_Ok in Hrun as ([n9 d9] & u9 & Hq & Hrun).
  assert (Est : snd st = d9) by (refine ((_ : dreads _) _ _ _ _ _ Hrun); repeat reads_step). rewrite Est.
  exact (ending_changes id r s u first total finish code at_ env _ _ _ db (n7, d7) (n8, d8) (n9, d9) _ _ _ Hw Hr Ha Hs He Hu Hq).
Qed.

Lemma firstBy_filter {A} (key : A -> list Z) (p : A -> bool) (l : list A) x :
  firstBy key (List.filter p l) = Some x -> In x l /\ p x = true.
Proof. intros Hf. apply firstBy_Some in Hf as [Hf _]. apply list_elem_of_In in Hf. by apply filter_In. Qed.

Lemma reconcileBody_changes locked now env n db st r : aiWf db -> reconcileBody locked now env (n, db) = (st, Ok r) -> rtc aiChange db (snd st).
Proof.
  intros Hw Hrun. unfold reconcileBody in Hrun. apply bind_reads_Ok in Hrun as (n1 & u1 & _ & Hrun); [|auto with dreads].
  apply bind_reads_Ok in Hrun as (n3 & db2 & Hd & Hrun); [|auto with dreads]. injection Hd as <- <-.
  destruct (firstExpired db now) as [[id x]|] eqn:Hf; [|by apply dret_Ok in Hrun as [-> _]].
  apply firstBy_filter in Hf as [Hin He]. apply list_elem_of_In, elem_of_map_to_list in Hin.
  unfold expiredBefore in He. apply andb_true_iff in He as [Hs _]. apply bool_decide_eq_true_1 in Hs.
  apply bind_reads_Ok in Hrun as (n4 & u4 & _ & Hrun); [|auto with dreads].
  apply bind_reads_Ok in Hrun as (n5 & u5 & _ & Hrun); [|auto with dreads]. destruct (locked id); [by apply dret_Ok in Hrun as [-> _]|].
  eapply (endRun_changes id x RunFailed); try done; [by apply streaming_active|by left].
Qed.

Lemma rotated_changes locked now env n db st r : aiWf db -> failQueuedRunWithRotatedKey locked now env (n, db) = (st, Ok r) -> rtc aiChange db (snd st).
Proof.
  intros Hw Hrun. unfold failQueuedRunWithRotatedKey in Hrun. apply bind_reads_Ok in Hrun as (n1 & u1 & _ & Hrun); [|auto with dreads].
  apply bind_reads_Ok in Hrun as (n3 & db2 & Hd & Hrun); [|auto with dreads]. injection Hd as <- <-.
  destruct (firstBy _ _) as [[id x]|] eqn:Hf; [|by apply dret_Ok in Hrun as [-> _]].
  apply firstBy_filter in Hf as [Hin He]. apply list_elem_of_In, elem_of_map_to_list in Hin.
  apply andb_true_iff in He as [He _]. unfold rotatedKey in He. apply andb_true_iff in He as [Hs _]. apply bool_decide_eq_true_1 in Hs.
  eapply (endRun_changes id x RunFailed); try done; [by rewrite Hs|by left].
Qed.

Section Lease.
Variable parseURL : string -> option BaseURL.

Lemma leased_moves r owner until at_ : rn_status r = RunQueued -> movesTo r (leasedRow r owner until at_).
Proof. intros Hs. split_and!; [done|by right|done]. Qed.

Lemma takeRun_changes locked owner now duration env n db st r :
  aiWf db -> takeRun parseURL locked owner now duration env (n, db) = (st, Ok r) -> rtc aiChange db (snd st).
Proof.
  intros Hw Hrun. unfold takeRun in Hrun. apply bind_reads_Ok in Hrun as (n1 & u1 & _ & Hrun); [|auto with dreads].
  apply bind_reads_Ok in Hrun as (n3 & db2 & Hd & Hrun); [|auto with dreads]. injection Hd as <- <-.
  destruct (candidate locked db) as [[id x]|] eqn:Hf; [|done].
  apply firstBy_filter in Hf as [Hin He]. apply list_elem_of_In, elem_of_map_to_list in Hin.
  apply andb_true_iff in He as [He _]. apply bool_decide_eq_true_1 in He.
  apply dbind_Ok in Hrun as ([n4 d4] & u4 & Hdm & Hrun). apply demand_Ok in Hdm as [[= -> ->] Hck]. apply andb_true_iff in Hck as [_ Hck].
  apply dbind_Ok in Hrun as ([n5 d5] & u5 & Hput & Hrun). unfold dput in Hput. injection Hput as <- <- _.
  match type of Hrun with ?m env _ = _ => assert (Hr : dreads m) by (repeat reads_step) end. apply Hr in Hrun. rewrite Hrun.
  apply rtc_once. apply (ChMove _ _ id x (leasedRow x owner (addDuration now duration) now) []); try done.
  - by rewrite He.
  - by apply leased_moves.
  - cbn. lia.
Qed.

Lemma admittedRun_changes {A} lock (k : DB AIDB Error A) env n db st r :
  (forall n st r, k env (n, db) = (st, Ok r) -> rtc aiChange db (snd st)) -> admittedRun lock k env (n, db) = (st, Ok r) -> rtc aiChange db (snd st).
Proof.
  intros Hk. unfold admittedRun. destruct (AdmitClaim _ _ _) as [[n1 m1] [a|e]]; [apply Hk|]. by destruct e.
Qed.

Lemma leaseBody_changes lock locked owner now duration env n db st r :
  aiWf db -> leaseBody parseURL lock locked owner now duration env (n, db) = (st, Ok r) -> rtc aiChange db (snd st).
Proof.
  intros Hw. apply admittedRun_changes. clear n st r. intros n st r Hrun. apply dbind_Ok in Hrun as ([n1 d1] & rotated & H1 & Hrun).
  apply rotated_changes in H1 as H1'; [|done]. destruct rotated; [by apply dret_Ok in Hrun as [-> _]|].
  apply dbind_Ok in Hrun as ([n2 d2] & t & H2 & Hrun). apply dret_Ok in Hrun as [-> _].
  etrans; [exact H1'|]. eapply takeRun_changes; [|exact H2]. by eapply aiChanges_wf in H1'.
Qed.

End Lease.

End Bodies.

Import Lessons AI AIStore AIAttachments AIRunnerStore.


Section Steps.
Context `{PgTime}.

(** ** Operations and the changes they make *)
Definition makes {A} (R : AIDB -> AIDB -> Prop) (m : DB AIDB Error A) : Prop :=
  forall env n db st r, aiWf db -> m env (n, db) = (st, r) -> R db (snd st).

Lemma transact_makes {A} (R : AIDB -> AIDB -> Prop) e1 e2 (body : DB AIDB Error A) : (forall db, R db db) ->
  (forall env n db st a, aiWf db -> body env (n, db) = (st, Ok a) -> R db (snd st)) -> makes R (transact e1 e2 body).
Proof.
  intros Hrefl Hb env n db st r Hw Hrun. apply transact_outcome in Hrun as [->|(n1 & a & Hrun)]; [apply Hrefl|].
  apply Hb in Hrun; [|done]. exact Hrun.
Qed.

Lemma makes_reads {A} (R : AIDB -> AIDB -> Prop) (m : DB AIDB Error A) : (forall db, R db db) -> dreads m -> makes R m.
Proof. intros Hrefl Hm env n db st r _ Hrun. apply Hm in Hrun. by rewrite Hrun. Qed.

Lemma makes_fail {A} (R : AIDB -> AIDB -> Prop) e : (forall db, R db db) -> makes R (dfail (A := A) e).
Proof. intros Hrefl env n db st r _ [= <- _]. apply Hrefl. Qed.

Lemma makes_bind {A B} (m : DB AIDB Error A) (k : A -> DB AIDB Error B) :
  makes (rtc aiChange) m -> (forall a, makes (rtc aiChange) (k a)) -> makes (rtc aiChange) (dbind m k).
Proof.
  intros Hm Hk env n db st r Hw. unfold dbind. destruct (m env (n, db)) as [[n1 d1] [a|e]] eqn:E1; pose proof (Hm _ _ _ _ _ Hw E1) as Hc.
  - intros Hrun. etrans; [exact Hc|]. eapply Hk; [|exact Hrun]. by eapply aiChanges_wf in Hc.
  - by intros [= <- _].
Qed.

Lemma bind_reads_makes {A B} (R : AIDB -> AIDB -> Prop) (m : DB AIDB Error A) (k : A -> DB AIDB Error B) :
  makes R m -> (forall a, dreads (k a)) -> makes R (dbind m k).
Proof.
  intros Hm Hk env n db st r Hw. unfold dbind. destruct (m env (n, db)) as [[n1 d1] [a|e]] eqn:E1; pose proof (Hm _ _ _ _ _ Hw E1) as Hc.
  - intros Hrun. apply Hk in Hrun. by rewrite Hrun.
  - by intros [= <- _].
Qed.

Lemma AdmitRun_makes a : makes aiTx (AdmitRun a).
Proof.
  unfold AdmitRun. destruct (negb _); [apply makes_fail, aiTx_refl|]. apply transact_makes; [apply aiTx_refl|]. intros. by eapply admitBody_changes.
Qed.
Lemma RetryRun_makes a : makes aiTx (RetryRun a).
Proof.
  unfold RetryRun. destruct (_ || _); [apply makes_fail, aiTx_refl|]. apply transact_makes; [apply aiTx_refl|]. intros. by eapply retryBody_changes.
Qed.
Lemma releaseTerminal_makes student id s code at_ : s = RunFailed \/ s = RunCancelled -> makes (rtc aiChange) (releaseTerminal student id s code at_).
Proof. intros Hs. apply transact_makes; [done|]. intros. by eapply releaseBody_changes. Qed.
Lemma SucceedRun_makes student id body u at_ : inInt64 (TermInput u + TermOutput u) = true -> makes (rtc aiChange) (SucceedRun student id body u at_).
Proof.
  intros Hu. unfold SucceedRun. destruct (_ || _); [by apply makes_fail|]. apply transact_makes; [done|]. intros. by eapply succeedBody_changes.
Qed.
Lemma Heartbeat_makes id owner until : makes (rtc aiChange) (Heartbeat id owner until).
Proof.
  unfold Heartbeat. destruct (_ || _); [by apply makes_fail|]. apply bind_reads_makes; [|intros []; repeat reads_step].
  apply transact_makes; [done|]. intros. by eapply heartbeatBody_changes.
Qed.
Lemma AppendEvents_makes id owner events : makes (rtc aiChange) (AppendEvents id owner events).
Proof.
  unfold AppendEvents. destruct (_ || _); [by apply makes_fail|]. apply bind_reads_makes; [|intros []; repeat reads_step].
  apply transact_makes; [done|]. intros. by eapply appendBody_changes.
Qed.
Lemma Complete_makes l c : makes (rtc aiChange) (Complete l c).
Proof. unfold Complete. destruct (_ || _); [by apply makes_fail|]. apply transact_makes; [done|]. intros. by eapply completeBody_changes. Qed.
Lemma Fail_makes l f : makes (rtc aiChange) (Fail l f).
Proof.
  unfold Fail. destruct (_ || _) eqn:E; [by apply makes_fail|]. apply transact_makes; [done|]. intros. eapply failBody_changes; [|done..].
  destruct (FailStatus f) eqn:Es; auto; rewrite (bool_decide_eq_false_2 (_ = RunFailed)), (bool_decide_eq_false_2 (_ = RunCancelled)) in E by done;
    cbn in E; by rewrite orb_true_r in E.
Qed.
Lemma leaseRun_makes parseURL lock locked owner now duration : makes (rtc aiChange) (leaseRun parseURL lock locked owner now duration).
Proof.
  unfold leaseRun. destruct (_ || _); [by apply makes_fail|]. apply bind_reads_makes; [|intros []; repeat reads_step].
  apply transact_makes; [done|]. intros. by eapply leaseBody_changes.
Qed.

(** A queued run has no lease. *)
Lemma unleased_wf now db : aiWf db -> unleased now <$> runs db = runs db.
Proof.
  intros Hw. apply map_eq. intros id. rewrite lookup_fmap. destruct (runs db !! id) as [r|] eqn:Hr; [|done]. cbn. f_equal.
  unfold unleased. destruct (_ && _) eqn:E; [|done]. exfalso. apply andb_true_iff in E as [E1%bool_decide_eq_true_1 E2].
  apply (a_check _ Hw) in Hr. unfold runCheck, statusCheck in Hr. rewrite E1 in Hr. bool_simpl.
  destruct (rn_until r), (rn_owner r) as [o|]; try done. by match goal with Ho : ~ is_Some (Some o) |- _ => apply Ho end.
Qed.

Lemma clearQueued_makes now : makes (rtc aiChange) (clearQueued now).
Proof.
  apply transact_makes; [done|]. intros env n db st r Hw Hrun. db_go. cbn [snd].
  match goal with |- rtc _ ?d (setRuns _ _) => rewrite unleased_wf by done; by destruct d end.
Qed.

Lemma reconcileOne_makes locked now : makes (rtc aiChange) (reconcileOneExpired locked now).
Proof. apply transact_makes; [done|]. intros. by eapply reconcileBody_changes. Qed.

Lemma ReconcileExpired_makes locked now limit : makes (rtc aiChange) (ReconcileExpired locked now limit).
Proof.
  apply makes_bind; [apply clearQueued_makes|]. intros _. generalize (Z.to_nat (if limit <=? 0 then 100 else limit)). intros k.
  induction k as [|k IH]; cbn [reconcileLoop]; [apply makes_reads; [done|apply dreads_ret]|].
  apply makes_bind; [apply reconcileOne_makes|]. intros []; [exact IH|]. apply makes_reads; [done|apply dreads_ret].
Qed.

(** ** What is kept *)
Definition runKept (r r' : RunRow) : Prop :=
  rn_identity r' = rn_identity r /\ (terminal (rn_status r) = true -> r' = r) /\
  (rn_status r = RunStreaming -> rn_status r' <> RunQueued) /\ rn_sequence r <= rn_sequence r' /\
  (is_Some (rn_cancel r) -> is_Some (rn_cancel r')).

Definition threadKept (t t' : ThreadRow) : Prop :=
  th_student t' = th_student t /\ th_title t' = th_title t /\ th_subject t' = th_subject t /\ th_created t' = th_created t.

Record aiKept (db db' : AIDB) : Prop := {
  k_threads : forall id t, threads db !! id = Some t -> exists t', threads db' !! id = Some t' /\ threadKept t t';
  k_messages : messages db ⊆ messages db';
  k_links : links db ⊆ links db';
  k_events : runEvents db ⊆ runEvents db';
  k_ledger : ledger db ⊆ ledger db';
  k_runs : forall id r, runs db !! id = Some r -> exists r', runs db' !! id = Some r' /\ runKept r r'
}.

Lemma runKept_refl r : runKept r r.
Proof. split_and!; try done. by intros ->. Qed.

Lemma runKept_trans a b c : runKept a b -> runKept b c -> runKept a c.
Proof.
  intros (I1 & T1 & S1 & Q1 & C1) (I2 & T2 & S2 & Q2 & C2). split_and!; [congruence| | |lia|by auto].
  - intros Ht. pose proof (T1 Ht) as ->. by apply T2.
  - intros Hs. pose proof (S1 Hs) as Hb. destruct (rn_status b) eqn:Eb; try done; [by apply S2|..];
      rewrite T2 by done; by rewrite Eb.
Qed.

Lemma aiKept_refl db : aiKept db db.
Proof. split; try done; intros id x Hx; exists x; split; try done. apply runKept_refl. Qed.

Lemma aiKept_trans a b c : aiKept a b -> aiKept b c -> aiKept a c.
Proof.
  intros [T1 M1 L1 E1 G1 R1] [T2 M2 L2 E2 G2 R2]. split; [|by etrans..|].
  - intros id t Ht. apply T1 in Ht as (t1 & Ht & K1). apply T2 in Ht as (t2 & Ht & K2). exists t2. split; [done|].
    unfold threadKept in *. intuition congruence.
  - intros id r Hr. apply R1 in Hr as (r1 & Hr & K1). apply R2 in Hr as (r2 & Hr & K2). exists r2. split; [done|]. by eapply runKept_trans.
Qed.

Lemma runs_kept db db' id r r' : runs db !! id = Some r -> runs db' = <[id := r']> (runs db) -> runKept r r' ->
  forall k x, runs db !! k = Some x -> exists x', runs db' !! k = Some x' /\ runKept x x'.
Proof.
  intros Hr Er Hk k x Hx. rewrite Er. destruct (decide (k = id)) as [->|Hne].
  - rewrite lookup_insert_eq. exists r'. simplify_eq. done.
  - rewrite lookup_insert_ne by done. exists x. split; [done|]. apply runKept_refl.
Qed.

Lemma addEvents_kept db id r es : aiWf db -> runs db !! id = Some r -> runEvents db ⊆ addEvents id (rn_sequence r) es (runEvents db).
Proof.
  intros Hw Hr. apply map_subseteq_spec. intros [k s] e He. rewrite addEvents_lookup. destruct (_ && _ && _) eqn:E; [|done]. exfalso.
  apply andb_true_iff in E as [[E1%bool_decide_eq_true_1 E2%Z.ltb_lt]%andb_true_iff _]. subst k.
  assert (Hs : is_Some (runEvents db !! (id, s))) by done. apply (a_events _ Hw) in Hs as (x & Hx & Hs). simplify_eq. lia.
Qed.

Lemma same_threads_kept db db' : threads db' = threads db ->
  forall id t, threads db !! id = Some t -> exists t', threads db' !! id = Some t' /\ threadKept t t'.
Proof. intros -> id t Ht. exists t. by split. Qed.

Lemma moved_kept r r' (es : list EventRow) : active (rn_status r) = true -> movesTo r r' -> rn_sequence r' = rn_sequence r + Z.of_nat (length es) -> runKept r r'.
Proof.
  intros Ha (Ei & Hs & Hc) Hq. split_and!; try done.
  - unfold terminal. by rewrite Ha.
  - intros E. destruct Hs as [-> |[E' ->]]; congruence.
  - lia.
Qed.

Lemma ended_kept r s u first total finish error sequence at_ : active (rn_status r) = true -> active s = false -> rn_sequence r <= sequence ->
  runKept r (endedRow r s u first total finish error sequence at_).
Proof. intros Ha Hs Hq. split_and!; try done; unfold terminal; [by rewrite Ha|]. cbn. by intros _ ->. Qed.

Lemma insert_new_kept {K A} `{Countable K} (m m' : gmap K A) k x : m' = <[k := x]> m -> m !! k = None -> m ⊆ m'.
Proof. intros -> Hno. by apply insert_subseteq. Qed.

Lemma withRelease_kept db id r at_ : unsettled db id -> ledger db ⊆ withRelease id r at_ (ledger db).
Proof.
  intros Hun. unfold withRelease. etrans; [|apply insert_subseteq]; [apply insert_subseteq|]; rewrite ?lookup_insert_ne by done; by apply Hun.
Qed.
Lemma withSettle_kept db id r charged at_ : unsettled db id -> ledger db ⊆ withSettle id r charged at_ (ledger db).
Proof.
  intros Hun. unfold withSettle. repeat (etrans; [|apply insert_subseteq; rewrite ?lookup_insert_ne by done; by apply Hun]). done.
Qed.
Lemma withReserve_kept db id i at_ : (forall p a, ledger db !! (id, p, a) = None) -> ledger db ⊆ withReserve id i at_ (ledger db).
Proof.
  intros Hno. unfold withReserve. repeat (etrans; [|apply insert_subseteq; rewrite ?lookup_insert_ne by done; by apply Hno]). done.
Qed.

Lemma aiChange_kept db db' : aiWf db -> aiChange db db' -> aiKept db db'.
Proof.
  intros Hw Hc. destruct Hc as [tid t at_ mid m Ht Et Em1 Em2 Em3 Em4 Hck Hvi Em Hl Hln Hsub Er Ee Eg Ecf Ho
    |id r r' es Hr Ha Hm Hck Hq Hk Er Ee Et Em El Eg Ecf Ed|id r s u first total finish code at_ sequence r' Hr Ha Hs Hck Er Ee Eg Et Em El Ecf Ed
    |id r source input output cost first total finish es mid body at_ sequence r' Hr Hs Hck Hes Er Ee Eg Hno Hmc Em Et El Ecf Ed].
  - apply messageViolation_None in Hvi as [Hno _]. split; rewrite ?Er, ?Ee, ?Eg; try done.
    + intros k x Hx. rewrite Et. destruct (decide (k = tid)) as [->|Hne].
      * rewrite lookup_insert_eq. eexists. split; [done|]. by destruct Ht; simplify_eq.
      * rewrite lookup_insert_ne by done. exists x. by split.
    + rewrite Em. by apply insert_subseteq.
    + intros k x Hx. exists x. split; [done|]. apply runKept_refl.
  - split; rewrite ?Em, ?El, ?Ee, ?Eg; try done; [by apply same_threads_kept|by apply addEvents_kept|].
    eapply runs_kept; [done..|]. by eapply moved_kept.
  - pose proof (wf_unsettled _ _ _ Hw Hr Ha) as Hun. split; rewrite ?Em, ?El, ?Ee, ?Eg; try done; [by apply same_threads_kept|..].
    + exact (addEvents_kept _ _ _ [_] Hw Hr).
    + by apply withRelease_kept.
    + eapply runs_kept; [done..|]. apply ended_kept; [done|by destruct Hs as [-> | ->]|unfold sequence; lia].
  - assert (Ha : active (rn_status r) = true) by (by rewrite Hs). pose proof (wf_unsettled _ _ _ Hw Hr Ha) as Hun.
    split; rewrite ?Em, ?El, ?Ee, ?Eg; try done; [by apply same_threads_kept|by apply insert_subseteq|by apply addEvents_kept|by apply withSettle_kept|].
    eapply runs_kept; [done..|]. apply ended_kept; [done|done|unfold sequence; lia].
Qed.

Lemma aiChanges_kept db db' : aiWf db -> rtc aiChange db db' -> aiKept db db'.
Proof.
  intros Hw Hc. induction Hc as [|a b c H1 _ IH]; [apply aiKept_refl|]. eapply aiKept_trans; [by apply aiChange_kept|].
  apply IH. by eapply aiChange_wf.
Qed.

Lemma admits_kept db db' : aiWf db -> admits db db' -> aiKept db db'.
Proof.
  intros Hw [id i at_ Hst Hck Hvi Hq Er Eg Et Em El Ee Ecf Ed]. apply runViolation_None in Hvi as (Hno & _).
  split; rewrite ?Em, ?El, ?Ee, ?Eg; try done; [by apply same_threads_kept|apply withReserve_kept; by apply wf_no_ledger|].
  intros k x Hx. rewrite Er, lookup_insert_ne by congruence. exists x. split; [done|]. apply runKept_refl.
Qed.

Lemma aiTx_kept db db' : aiWf db -> aiTx db db' -> aiKept db db'.
Proof.
  intros Hw (m & H1 & [-> |H2]); [by apply aiChanges_kept|]. eapply aiKept_trans; [by apply aiChanges_kept|].
  apply admits_kept; [|done]. by eapply aiChanges_wf.
Qed.

End Steps.

Section Reachable.
Context `{PgTime} `{UUIDText} (norm lower : string -> string)
  (Parse : string -> option Lesson.ParsedURL) (print : string -> string -> Lesson.ParsedURL -> string).

(** ** Steps *)
Definition initAI (db : AIDB) : Prop :=
  threads db = ∅ /\ messages db = ∅ /\ links db = ∅ /\ runs db = ∅ /\ runEvents db = ∅ /\ ledger db = ∅ /\
  initLessons (lessonDB db) /\ aiRefs (fileDB db) = ∅.

(** One transaction of one of the stores, in any environment and with any arguments, a
    change of the configuration, or a step of the rest of the program, which does not
    write the tables of the assistant.  The sum of the tokens that [SucceedRun] is given
    has to be an [int64]. *)
Inductive aiStep (db : AIDB) : AIDB -> Prop :=
| StepAdmit env a : aiStep db (exec (AdmitRun a) env db)
| StepRetry env a : aiStep db (exec (RetryRun a) env db)
| StepCancelRun env student id at_ : aiStep db (exec (CancelRun student id at_) env db)
| StepFailRun env student id code at_ : aiStep db (exec (FailRun student id code at_) env db)
| StepSucceedRun env student id body u at_ :
    inInt64 (TermInput u + TermOutput u) = true -> aiStep db (exec (SucceedRun student id body u at_) env db)
| StepLease env parseURL lock locked owner now duration : aiStep db (exec (leaseRun parseURL lock locked owner now duration) env db)
| StepHeartbeat env id owner until : aiStep db (exec (Heartbeat id owner until) env db)
| StepAppendEvents env id owner events : aiStep db (exec (AppendEvents id owner events) env db)
| StepComplete env l c : aiStep db (exec (Complete l c) env db)
| StepFail env l f : aiStep db (exec (Fail l f) env db)
| StepReconcile env locked now limit : aiStep db (exec (ReconcileExpired locked now limit) env db)
| StepConfig c : aiStep db (setConfig c db)
| StepRest l :
    lessonStep norm lower Parse print (lessonDB db) l -> aiRefs (base l) = aiRefs (fileDB db) -> aiStep db (setLesson l db).

Lemma exec_makes {A} R (m : DB AIDB Error A) env db : makes R m -> aiWf db -> R db (exec m env db).
Proof. intros Hm Hw. unfold exec. destruct (m env (0%nat, db)) as [st r] eqn:E. by eapply Hm. Qed.

(** A step is a transaction, or it leaves the tables of the assistant alone. *)
Lemma aiStep_cases db db' : aiWf db -> aiStep db db' ->
  aiTx db db' \/ (exists c, db' = setConfig c db) \/ (exists l, aiRefs (base l) = aiRefs (fileDB db) /\ db' = setLesson l db).
Proof.
  intros Hw Hs. destruct Hs as [env a|env a|env student id at_|env student id code at_|env student id body u at_ Hu
    |env parseURL lock locked owner now duration|env id owner until|env id owner events|env l c|env l f|env locked now limit|c|l Hl Hr];
    [left..|right; left|right; right]; [| |apply aiTx_changes..| |]; try (apply exec_makes; [|done]).
  - apply AdmitRun_makes.
  - apply RetryRun_makes.
  - apply releaseTerminal_makes. by right.
  - apply releaseTerminal_makes. by left.
  - by apply SucceedRun_makes.
  - apply leaseRun_makes.
  - apply Heartbeat_makes.
  - apply AppendEvents_makes.
  - apply Complete_makes.
  - apply Fail_makes.
  - apply ReconcileExpired_makes.
  - by exists c.
  - by exists l.
Qed.

Lemma aiWf_config db c : aiWf db -> aiWf (setConfig c db).
Proof. by intros []. Qed.
Lemma aiWf_lesson db l : aiRefs (base l) = aiRefs (fileDB db) -> aiWf db -> aiWf (setLesson l db).
Proof. intros Hr Hw. destruct Hw. split; try done. etrans; [exact Hr|assumption]. Qed.

Lemma aiStep_wf db db' : aiWf db -> aiStep db db' -> aiWf db'.
Proof.
  intros Hw Hs. apply aiStep_cases in Hs as [Hs|[[c ->]|(l & Hr & ->)]]; [by eapply aiTx_wf|by apply aiWf_config|by apply aiWf_lesson|done].
Qed.

Lemma aiStep_kept db db' : aiWf db -> aiStep db db' -> aiKept db db'.
Proof.
  intros Hw Hs. apply aiStep_cases in Hs as [Hs|[[c ->]|(l & Hr & ->)]]; [by eapply aiTx_kept|by destruct (aiKept_refl db)..|done].
Qed.

Lemma initAI_wf db : initAI db -> aiWf db.
Proof.
  intros (E1 & E2 & E3 & E4 & E5 & E6 & _ & E7). split; unfold linkedIn, linkedVersions; rewrite ?E1, ?E2, ?E3, ?E4, ?E5, ?E6, ?E7;
    try (intros *; by rewrite lookup_empty).
  - intros id s. rewrite lookup_empty. split; [by intros []|]. intros (r & Hr & _). by rewrite lookup_empty in Hr.
  - split; intros *; by rewrite lookup_empty.
  - by rewrite map_to_list_empty.
Qed.

Lemma ai_reachable_wf db : reachable initAI aiStep db -> aiWf db.
Proof. apply reachable_invariant; [apply initAI_wf|]. intros s s' Hs Hstep. by eapply aiStep_wf. Qed.

(** C22. The tables of the assistant stay consistent.  In every state the program can
    reach, whatever fails and whatever commits are lost: the ledger has for each run
    exactly the entries its status calls for - a reservation for the day and the month; a
    release once the run is over, and beside it, if it succeeded, a settlement of what it
    used but at most of what was reserved.  A student has one active run at most, and no
    idempotency key or attempt twice.  The events of a run are numbered from 1 to its last
    sequence without a gap; all but the last are deltas and usage reports, and a run that
    failed or was cancelled ends with the event that says so.  A run has an answer exactly
    when it succeeded, one answer at most, in the thread of the message it started from.
    A file is attached to one message at most, and the references that keep attached files
    from being purged are exactly the attachments. *)
Theorem ai_invariant db : reachable initAI aiStep db -> aiWf db.
Proof. apply ai_reachable_wf. Qed.

Lemma ai_later_kept db db' : reachable initAI aiStep db -> rtc aiStep db db' -> aiKept db db'.
Proof.
  intros Hr Hc. induction Hc as [db|a b c H1 _ IH]; [apply aiKept_refl|]. pose proof (ai_reachable_wf _ Hr) as Hw.
  eapply aiKept_trans; [by apply aiStep_kept|]. apply IH. by eapply reach_step.
Qed.

(** C25. The assistant keeps its history.  Whatever happens after a reachable state:
    messages, attachments, the events of runs and the entries of the ledger are never
    changed or removed, and a thread keeps its owner, title and subject.  A run keeps what
    it was admitted with; its events are only added to, a request to cancel it stands, it
    never returns to the queue, and once it is over it does not change. *)
Theorem ai_history db db' : reachable initAI aiStep db -> rtc aiStep db db' -> aiKept db db'.
Proof. apply ai_later_kept. Qed.

End Reachable.
