(* ===== verification/AIExecution.v ===== *)
(** * Executing a run

    The runner over the PostgreSQL store, in an environment without failures: what each
    operation of the store does to a run that is streamed, what the buffer and the events
    in the database have to do with one another, and how an execution ends. *)

From S2P Require Import Prelude GoTime GoText GoStrings GoSha256 GoStrconv Pg OpsModel Keyset AuditLog FilesModel UploadParts FilesStore ProcessingProofs LessonModel LessonFiles LessonService LessonProofs LessonTheorems QuestionProofs AIModel AIStore AIRunnerStore AIRunner AIInvariant AITheorems.
From stdpp Require Import base tactics list gmap strings relations.
From Stdlib Require Import ZArith Lia.
Import Lessons AI AIStore AIAttachments AIRunnerStore AIRunner.

Open Scope Z_scope.

(** ** Texts *)

(** The deltas among events, one after the other. *)
Fixpoint deltaText (es : list EventRow) : string :=
  match es with [] => EmptyString | e :: rest => ((if bool_decide (ev_kind e = "delta"%string) then ev_payload e else EmptyString) ++ deltaText rest)%string end.

(** The events of a run after [start], as many as [k]. *)
Fixpoint eventsFrom (m : gmap (N * Z) EventRow) (id : UUID) (start : Z) (k : nat) : list EventRow :=
  match k with
  | O => []
  | S k' => option_list (m !! (id, start + 1)) ++ eventsFrom m id (start + 1) k'
  end.

(** The deltas that a stream brings. *)
Fixpoint streamText (hs : list Happening) : string :=
  match hs with
  | [] => EmptyString
  | Streamed e :: rest => ((match GatewayKind e with KindDelta => Delta e | _ => EmptyString end) ++ streamText rest)%string
  | _ :: rest => streamText rest
  end.

Lemma string_app_assoc (a b c : string) : ((a ++ b) ++ c = a ++ b ++ c)%string.
Proof. induction a as [|x a IH]; [done|]. change (String x ((a ++ b) ++ c) = String x (a ++ b ++ c))%string. by rewrite IH. Qed.
Lemma string_app_nil (a : string) : (a ++ "" = a)%string.
Proof. induction a as [|x a IH]; [done|]. change (String x (a ++ "") = String x a)%string. by rewrite IH. Qed.

Lemma deltaText_app l1 l2 : deltaText (l1 ++ l2) = (deltaText l1 ++ deltaText l2)%string.
Proof. induction l1 as [|e l1 IH]; cbn; [done|]. by rewrite IH, string_app_assoc. Qed.

Lemma streamText_app l1 l2 : streamText (l1 ++ l2) = (streamText l1 ++ streamText l2)%string.
Proof. induction l1 as [|[e| |] l1 IH]; cbn; [done|..|done|done]. by rewrite IH, string_app_assoc. Qed.

Lemma eventsFrom_same m m' id start k : (forall s, start < s <= start + Z.of_nat k -> m' !! (id, s) = m !! (id, s)) ->
  eventsFrom m' id start k = eventsFrom m id start k.
Proof.
  revert start. induction k as [|k IH]; intros start Hm; cbn [eventsFrom]; [done|]. rewrite Hm by lia. f_equal. apply IH. intros s Hs. apply Hm. lia.
Qed.

Lemma eventsFrom_added m id start k es : eventsFrom (addEvents id (start + Z.of_nat k) es m) id start (k + length es) = eventsFrom m id start k ++ es.
Proof.
  revert start. induction k as [|k IH]; intros start.
  - rewrite Z.add_0_r. cbn [Nat.add eventsFrom app]. revert start m. induction es as [|e es IH]; intros start m; cbn [length eventsFrom addEvents]; [done|].
    rewrite addEvents_lookup, Z.ltb_irrefl, andb_false_r, andb_false_l, lookup_insert_eq. cbn [option_list app]. f_equal. apply IH.
  - cbn [Nat.add eventsFrom]. rewrite <- app_assoc. f_equal.
    + rewrite addEvents_lookup. replace (start + Z.of_nat (S k) <? start + 1) with false by (symmetry; apply Z.ltb_ge; lia).
      by rewrite andb_false_r, andb_false_l.
    + replace (start + Z.of_nat (S k)) with ((start + 1) + Z.of_nat k) by lia. apply IH.
Qed.

(** ** The store without failures *)
Section Quiet.
Context `{PgTime}.

#[local] Hint Resolve demand_reads dreads_wall dreads_uuid dreads_attempt loadAttachments_reads selectRun_reads findRun_reads
  attachAll_reads getThread_reads reserveQuota_reads validateSnapshot_reads deferred_reads lockTerminal_reads getRun_reads : dreads.

(** *** What happens to a streamed run *)

(** The run is streamed by [owner], under the identity it was admitted with. *)
Definition streams (db : AIDB) (id : UUID) (owner : string) (i : RunIdentity) (r : RunRow) : Prop :=
  runs db !! id = Some r /\ rn_status r = RunStreaming /\ rn_owner r = Some owner /\ rn_identity r = i.

Lemma streams_streamedBy db id owner i r : streams db id owner i r -> streamedBy db id owner = Some r.
Proof. intros (Hr & Hs & Ho & _). unfold streamedBy. rewrite Hr, Hs, Ho. by rewrite !bool_decide_eq_true_2. Qed.

Lemma streamedBy_streams db id owner r : streamedBy db id owner = Some r -> streams db id owner (rn_identity r) r.
Proof. intros (Hr & Hs & Ho)%streamedBy_Some. done. Qed.

(** A heartbeat renews the lease or leaves everything as it was. *)
Lemma Heartbeat_streams id owner until i r env n db st res : streams db id owner i r -> Heartbeat id owner until env (n, db) = (st, res) ->
  snd st = db \/ exists r', streams (snd st) id owner i r' /\ rn_sequence r' = rn_sequence r /\ runEvents (snd st) = runEvents db.
Proof.
  intros Hst Hrun. unfold Heartbeat in Hrun. destruct (_ || _); [injection Hrun as <- _; by left|].
  unfold dbind at 1 in Hrun. destruct (statement _ _ env (n, db)) as [[n1 d1] r1] eqn:E1.
  assert (Ed : snd st = d1) by (destruct r1 as [[]|e]; by injection Hrun as <- _). rewrite Ed.
  apply transact_outcome in E1 as [E1|(n2 & a & E1)]; cbn [snd] in E1; [by left|].
  unfold heartbeatBody in E1. apply dbind_Ok in E1 as ([n3 d3] & now & Hn & E1). apply databaseNow_Ok in Hn as ([= -> ->] & _).
  apply bind_reads_Ok in E1 as (n4 & db2 & Hd & E1); [|auto with dreads]. injection Hd as <- <-.
  rewrite (streams_streamedBy _ _ _ _ _ Hst) in E1. apply dbind_Ok in E1 as ([n5 d5] & u & Hu & E1). apply dret_Ok in E1 as [[= -> ->] _].
  apply ai_updateRun_Ok in Hu as (E5 & _). cbn [snd] in E5. subst d5. right. destruct Hst as (H1 & H2 & H3 & H4).
  exists (renewedRow r until now). unfold streams. cbn. rewrite lookup_insert_eq. done.
Qed.

(** Pending events are written all or none; when none are, an error is returned. *)
Lemma AppendEvents_streams id owner events i r env n db st res : aiWf db -> streams db id owner i r ->
  AppendEvents id owner events env (n, db) = (st, res) -> quiet env ->
  (snd st = db /\ is_ok res = false) \/
  exists es r', Forall2 becomes events es /\ streams (snd st) id owner i r' /\ rn_sequence r' = rn_sequence r + Z.of_nat (length es) /\
    runEvents (snd st) = addEvents id (rn_sequence r) es (runEvents db).
Proof.
  intros Hw Hst Hrun Hq. unfold AppendEvents in Hrun. destruct (_ || _); [injection Hrun as <- <-; by left|].
  unfold dbind at 1 in Hrun. rewrite transact_quiet in Hrun by done.
  destruct (appendBody id owner events env _) as [[n1 d1] [a|e]] eqn:E1; [|injection Hrun as <- <-; by left]. right.
  assert (Ed : snd st = d1) by (destruct a; by injection Hrun as <- _). rewrite Ed. clear Hrun Ed.
  unfold appendBody in E1. apply bind_reads_Ok in E1 as (n2 & u2 & _ & E1); [|auto with dreads].
  apply bind_reads_Ok in E1 as (n3 & db2 & Hd & E1); [|auto with dreads]. injection Hd as <- <-.
  rewrite (streams_streamedBy _ _ _ _ _ Hst) in E1.
  apply dbind_Ok in E1 as ([n4 d4] & last & Hl & E1). apply dbind_Ok in E1 as ([n5 d5] & now & Hn & E1).
  apply databaseNow_Ok in Hn as ([= -> ->] & _). apply dbind_Ok in E1 as ([n6 d6] & u6 & Hu & E1).
  assert (Est : d1 = d6) by (refine ((_ : dreads _) _ _ _ _ _ E1); repeat reads_step). subst d6.
  destruct Hst as (H1 & H2 & H3 & H4).
  apply appendLoop_Ok in Hl as (es & E4 & -> & _ & Hb); [|by eapply runCheck_sequence, a_check]. cbn [snd] in E4. subst d4.
  apply ai_updateRun_Ok in Hu as (E6 & _). cbn [snd] in E6. subst d1. eexists es, _. split_and!; [done|split_and!|..].
  - cbn. by rewrite lookup_insert_eq.
  - done.
  - done.
  - done.
  - done.
  - done.
Qed.

(** [Complete] either changes nothing and fails, or the run has its answer. *)
Lemma Complete_streams l c i r env n db st res : streams db (RunID (LeasedRunOf l)) (LeaseOwner l) i r ->
  Complete l c env (n, db) = (st, res) -> quiet env ->
  (snd st = db /\ is_ok res = false) \/
  exists r' mid m, is_ok res = true /\ runs (snd st) !! RunID (LeasedRunOf l) = Some r' /\ rn_status r' = RunSucceeded /\ rn_identity r' = i /\
    rn_sequence r' = rn_sequence r + 1 /\ messages (snd st) !! mid = Some m /\ ms_run m = Some (RunID (LeasedRunOf l)) /\ ms_body m = Answer c /\
    rn_usage r' = givenUsage (DoneSource c) (DoneInput c) (DoneOutput c) (DoneCost c) /\
    exists e, runEvents (snd st) = <[(RunID (LeasedRunOf l), rn_sequence r + 1) := e]> (runEvents db).
Proof.
  intros Hst Hrun Hq. unfold Complete in Hrun. destruct (_ || _); [injection Hrun as <- <-; by left|].
  rewrite transact_quiet in Hrun by done. set (id := RunID (LeasedRunOf l)) in *.
  destruct (completeBody _ _ _ env _) as [[n0 d0] [a|e]] eqn:E1; [|injection Hrun as <- <-; by left]. right. injection Hrun as <- <-. cbn [snd].
  unfold completeBody in E1. apply bind_reads_Ok in E1 as (n1 & u1 & _ & E1); [|auto with dreads].
  apply bind_reads_Ok in E1 as (n2 & u2 & _ & E1); [|auto with dreads].
  apply bind_reads_Ok in E1 as (n3 & db2 & Hd & E1); [|auto with dreads]. injection Hd as <- <-.
  rewrite (streams_streamedBy _ _ _ _ _ Hst) in E1. destruct Hst as (H1 & H2 & H3 & H4).
  destruct (cancelRequested r); [done|]. apply bind_reads_Ok in E1 as (n4 & now & _ & E1); [|auto with dreads].
  apply dbind_Ok in E1 as ([n5 d5] & u5 & Hb & E1). apply bind_reads_Ok in E1 as (n6 & u6 & _ & E1); [|auto with dreads].
  apply dbind_Ok in E1 as ([n7 d7] & u7 & He & E1). apply dbind_Ok in E1 as ([n8 d8] & u8 & Hu & E1).
  apply bind_reads_Ok in E1 as (n9 & answer & _ & E1); [|auto with dreads].
  apply dbind_Ok in E1 as ([n10 d10] & u10 & Hm & E1). apply dbind_Ok in E1 as ([n11 d11] & u11 & Hqu & E1).
  assert (Est : d0 = d11) by (by eapply deferred_reads in E1). subst d0.
  apply maybeBlock_Ok in Hb as (cfg & E5 & Hc). cbn [snd] in E5. subst d5.
  apply insertEvent_Ok in He as (E7 & _). cbn [snd] in E7. subst d7.
  apply ai_updateRun_Ok in Hu as (E8 & _). cbn [snd] in E8. subst d8. apply ai_insertMessage_Ok in Hm as (E10 & _). cbn [snd] in E10. subst d10.
  apply settleQuota_frame in Hqu as (g & E11). cbn [snd] in E11. subst d11.
  eexists _, answer, (answerRow r id (Answer c) now). cbn. rewrite !lookup_insert_eq. split_and!; try done. by eexists.
Qed.

(** *** Ending a run goes through *)
Lemma lockTerminal_run id r env n db : quiet env -> runs db !! id = Some r -> lockTerminal id env (n, db) = ((S (S n), db), Ok tt).
Proof.
  intros Hq Hr. unfold lockTerminal. rewrite call_run, dget_run, Hr by apply Hq. cbn [negb bool_decide].
  rewrite bool_decide_eq_true_2 by done. cbn [negb]. by rewrite call_run by apply Hq.
Qed.

Lemma demand_run {B} b (k : unit -> DB AIDB Error B) env n db : b = true -> dbind (demand b) k env (n, db) = k tt env (n, db).
Proof. by intros ->. Qed.

Lemma insertEvent_run id sequence e env n db : quiet env -> eventCheck sequence e = true -> is_Some (runs db !! id) ->
  runEvents db !! (id, sequence) = None ->
  insertEvent id sequence e env (n, db) = ((S n, setEvents (<[(id, sequence) := e]> (runEvents db)) db), Ok tt).
Proof.
  intros Hq Hc Hr Hno. unfold insertEvent. rewrite call_run, dget_run, demand_run; [done| |apply Hq].
  rewrite Hc, Hno. by rewrite bool_decide_eq_true_2.
Qed.

Lemma updateRun_run id old new env n db : quiet env -> updateAllowed old new = true -> runCheck new = true ->
  updateRun id old new env (n, db) = ((S n, setRuns (<[id := new]> (runs db)) db), Ok tt).
Proof. intros Hq Ha Hc. unfold updateRun. rewrite call_run, dget_run, demand_run; [done| |apply Hq]. by rewrite Ha, Hc. Qed.

Lemma insertLedger_run c id p a g env n db : quiet env -> ledgerAllowed db id p g = true -> ledger db !! (id, p, a) = None ->
  insertLedger c id p a g env (n, db) = ((S n, setLedger (<[(id, p, a) := g]> (ledger db)) db), Ok tt).
Proof. intros Hq Ha Hno. unfold insertLedger. rewrite call_run, dget_run, demand_run; [by rewrite Hno|done|apply Hq]. Qed.

Lemma release_allowed db id r r' p key at_ : runs db !! id = Some r' -> rn_identity r' = rn_identity r -> 0 < rn_requests (rn_identity r) ->
  periodKey (rn_identity r) p = Some key -> ledgerAllowed db id p (releaseRow r key at_) = true.
Proof.
  intros Hr Ei Hn Hp. unfold ledgerAllowed, releaseRow, studentOf. cbn. rewrite Hr, Ei, N.eqb_refl.
  replace (- rn_requests (rn_identity r) =? 0) with false by (symmetry; apply Z.eqb_neq; lia). cbn [andb negb].
  unfold periodKey in Hp. destruct (bool_decide (p = "day"%string)); [injection Hp as <-; by rewrite bool_decide_eq_true_2|].
  destruct (bool_decide (p = "month"%string)); [|done]. injection Hp as <-.  cbn. by apply bool_decide_eq_true_2.
Qed.

Lemma releaseQuota_run id r r' at_ env n db : quiet env -> unsettled db id -> runs db !! id = Some r' -> rn_identity r' = rn_identity r ->
  0 < rn_requests (rn_identity r) -> releaseQuota id r at_ env (n, db) = ((S (S n), setLedger (withRelease id r at_ (ledger db)) db), Ok tt).
Proof.
  intros Hq Hun Hr Ei Hn. unfold releaseQuota. erewrite dbind_run; [|apply insertLedger_run; [done|by eapply release_allowed|by apply Hun]].
  rewrite insertLedger_run; [done|done| |].
  - by eapply (release_allowed _ _ _ r').
  - cbn. rewrite lookup_insert_ne by done. by apply Hun.
Qed.

(** A run that did not succeed has no answer. *)
Lemma unanswered db db' id r : aiWf db -> runs db !! id = Some r -> rn_status r <> RunSucceeded -> messages db' = messages db -> answersOf db' id = [].
Proof.
  intros Hw Hr Hs Em. unfold answersOf. rewrite Em.
  assert (Hno : forall k m, (k, m) ∈ map_to_list (messages db) -> bool_decide (ms_run m = Some id) && bool_decide (ms_role m = SpeakerAssistant) = false).
  { intros k m Hin. apply elem_of_map_to_list in Hin. apply andb_false_iff. destruct (decide (ms_run m = Some id)) as [E|E]; [|left; by apply bool_decide_eq_false_2].
    right. apply bool_decide_eq_false_2. intros E2. destruct (a_spoken _ Hw _ _ Hin) as [_ Hsp]. unfold spoken in Hsp. rewrite E2 in Hsp.
    destruct Hsp as (j & x & H1 & H2 & H3 & _). congruence. }
  induction (map_to_list (messages db)) as [|[k m] l IH]; [done|]. cbn. rewrite (Hno k m) by left. apply IH. intros k' m' Hin. apply (Hno k' m'). by right.
Qed.

Lemma ended_check r s code total finish sequence at_ : runCheck r = true -> finish = rn_finish r -> s = RunFailed \/ s = RunCancelled ->
  charLength 1 128 code = true -> 0 <= total -> 0 <= sequence <= maxInt64 ->
  runCheck (endedRow r s (MkRunUsage (Some "unknown"%string) None None None) (rn_firstByte r) (Some total) finish (Some code) sequence at_) = true.
Proof.
  intros Hr -> Hs Hc Ht Hq. unfold runCheck in *. bool_simpl. unfold statusCheck, inInt64, minInt64, maxInt64 in *. cbn.
  repeat match goal with Hb : ?b = true |- _ => progress rewrite Hb end.
  rewrite (proj2 (Z.leb_le 0 total)), !(proj2 (Z.leb_le _ _)) by lia. destruct Hs as [-> | ->]; by rewrite ?bool_decide_eq_true_2.
Qed.

Lemma Fail_streams l status code total i r env n db : quiet env -> aiWf db ->
  streams db (RunID (LeasedRunOf l)) (LeaseOwner l) i r -> RunID (LeasedRunOf l) <> NilUUID -> rn_sequence r < maxInt64 ->
  status = RunFailed \/ status = RunCancelled -> charLength 1 128 code = true -> 0 <= total ->
  exists st r', Fail l (MkFailure status code "unknown" 0 0 0 total) env (n, db) = (st, Ok tt) /\
    runs (snd st) !! RunID (LeasedRunOf l) = Some r' /\ rn_status r' = status /\ rn_identity r' = i.
Proof.
  intros Hq Hw Hst Hid Hseq Hs Hc Ht. set (id := RunID (LeasedRunOf l)) in *. pose proof Hst as (Hr & Hstat & Hown & Hi).
  pose proof (a_check _ Hw _ _ Hr) as Hck. pose proof (runCheck_sequence _ Hck) as Hpos.
  assert (Hcode : code <> EmptyString) by (intros ->; by vm_compute in Hc).
  assert (Howner : LeaseOwner l <> EmptyString).
  { intros E. unfold runCheck in Hck. rewrite Hown, E in Hck. bool_simpl. by match goal with Hn : nullOr _ (Some EmptyString) = true |- _ => vm_compute in Hn end. }
  assert (Hreq : 0 < rn_requests (rn_identity r)) by (clear -Hck; unfold runCheck, identityCheck in Hck; bool_simpl; lia).
  unfold Fail. fold id. cbn [FailStatus FailCode FailInput FailOutput FailCost]. rewrite (proj2 (N.eqb_neq id NilUUID) Hid).
  rewrite (bool_decide_eq_false_2 (LeaseOwner l = _)), (bool_decide_eq_false_2 (code = _)) by done.
  assert (negb (bool_decide (status = RunFailed) || bool_decide (status = RunCancelled)) = false) as -> by (by destruct Hs as [-> | ->]).
  cbn [orb Z.ltb Z.compare]. rewrite transact_quiet by done.
  unfold failBody. cbn [FailStatus FailCode FailSource FailInput FailOutput FailCost FailTotalMS].
  erewrite dbind_run by (by eapply lockTerminal_run). rewrite call_run, dget_run by apply Hq. rewrite (streams_streamedBy _ _ _ _ _ Hst).
  erewrite dbind_run by reflexivity. rewrite demand_run by (unfold inInt64, minInt64, maxInt64 in *; apply andb_true_iff; rewrite !Z.leb_le; lia).
  erewrite dbind_run.
  2: { apply insertEvent_run; [done| |by eexists|].
    - unfold eventCheck. cbn. rewrite (proj2 (Z.ltb_lt _ _)), Hc by lia. by destruct Hs as [-> | ->].
    - apply eq_None_not_Some. intros Hev. apply (a_events _ Hw) in Hev as (x & Hx & Hle). simplify_eq. lia. }
  rewrite (bool_decide_eq_false_2 ("unknown"%string = EmptyString)) by done.
  assert (negb (usageReported "unknown" || bool_decide ("unknown"%string = "unknown"%string)) = false) as -> by reflexivity.
  erewrite dbind_run.
  2: { apply updateRun_run; [done|unfold updateAllowed; rewrite Hstat; by destruct Hs as [-> | ->]|].
    apply ended_check; try done. lia. }
  erewrite dbind_run.
  2: { eapply (releaseQuota_run id r); [done|intros p a Hne; by apply (wf_unsettled db id r Hw Hr (streaming_active _ Hstat))|cbn; apply lookup_insert_eq|done|done]. }
  match goal with |- context [deferred id env (?k, ?d)] => set (d' := d) end.
  assert (Hdef : forall k, deferred id env (k, d') = ((k, d'), Ok tt)).
  { intros k. unfold deferred. rewrite dget_run. unfold demand, answered, d'. cbn. rewrite lookup_insert_eq. cbn.
    rewrite (unanswered db _ id r Hw Hr) by (by try rewrite Hstat). by destruct Hs as [-> | ->]. }
  rewrite Hdef. eexists (_, d'), _. split_and!; [reflexivity|apply lookup_insert_eq|done|exact Hi].
Qed.

End Quiet.

(** ** The buffer and the database *)
Fixpoint pendingText (es : list RunEvent) : string :=
  match es with
  | [] => EmptyString
  | e :: rest => ((if bool_decide (EventKind e = "delta"%string) then EventDelta e else EmptyString) ++ pendingText rest)%string
  end.

Lemma pendingText_app l1 l2 : pendingText (l1 ++ l2) = (pendingText l1 ++ pendingText l2)%string.
Proof. induction l1 as [|e l1 IH]; cbn [pendingText app]; [done|]. by rewrite IH, string_app_assoc. Qed.

Lemma becomes_text events es : Forall2 becomes events es -> deltaText es = pendingText events.
Proof. induction 1 as [|e row events es [E1 E2] _ IH]; cbn [deltaText pendingText]; [done|]. by rewrite E1, E2, IH. Qed.

Section Execution.
Context `{PgTime}.
Variables (parseURL : string -> option BaseURL) (openBox : UUID -> Z -> list Z -> option (list Z)) (previewObjects : Fetch).
Variables (lock : LockOutcome) (locked : UUID -> bool) (w : Meanwhile) (cfg : Settings).

#[local] Instance store : RunnerStore AIDB := PostgresRunnerStore parseURL openBox previewObjects lock locked w.

Variables (l : LeasedRun) (i : RunIdentity) (start : Z).
Notation id := (RunID (LeasedRunOf l)).
Notation owner := (LeaseOwner l).

(** What an execution has done so far: [count] things have happened, which brought
    [text].  Unless the store has refused something, the text is what the database holds
    and what is pending, and the next number is free. *)
Record streaming (text : string) (count : Z) (b : Buffer) (db : AIDB) (r : RunRow) : Prop := {
  st_wf : aiWf db;
  st_row : streams db id owner i r;
  st_start : start <= rn_sequence r;
  st_bound : rn_sequence r <= start + count;
  st_pending : StoreErr b = None ->
    rn_sequence r + Z.of_nat (length (Pending b)) <= start + count /\
    NextSequence b = rn_sequence r + Z.of_nat (length (Pending b)) + 1 /\ AnswerSoFar b = text /\
    text = (deltaText (eventsFrom (runEvents db) id start (Z.to_nat (rn_sequence r - start))) ++ pendingText (Pending b))%string
}.

Lemma streaming_later text text' count b db r : StoreErr b <> None -> streaming text count b db r -> streaming text' (count + 1) b db r.
Proof. intros Hne [S1 S2 S3 S4 S5]. split; try done. lia. Qed.

Lemma streaming_failed text count e b db r : streaming text count b db r -> streaming text count (failedWith e b) db r.
Proof. intros [S1 S2 S3 S4 S5]. by split. Qed.

Lemma makes_wf {A} (m : DB AIDB Error A) env n db st res : makes (rtc aiChange) m -> aiWf db -> m env (n, db) = (st, res) -> aiWf (snd st).
Proof. intros Hm Hw Hrun. eapply aiChanges_wf; [|exact Hw]. by eapply Hm. Qed.

(** An operation of the store whose error is kept. *)
Lemma ai_attempt_run {A B} (m : DB AIDB Error A) (k : result Error A -> DB AIDB Error B) env n db :
  dbind (attempt m) k env (n, db) = k (snd (m env (n, db))) env (fst (m env (n, db))).
Proof. unfold dbind, attempt. by destruct (m env (n, db)). Qed.

Lemma flush_streaming text count b db r env n : quiet env -> streaming text count b db r ->
  exists n' db' b' r', flush l b env (n, db) = ((n', db'), Ok b') /\ streaming text count b' db' r' /\ (StoreErr b' = None -> Pending b' = []).
Proof.
  intros Hq Hs. pose proof Hs as [S1 S2 S3 S4 S5]. unfold flush. destruct (StoreErr b) as [e|] eqn:Ee; [exists n, db, b, r; rewrite Ee; by split_and!|].
  case_bool_decide as Ep; [by exists n, db, b, r|]. destruct (S5 eq_refl) as (B1 & B2 & B3 & B4). rewrite ai_attempt_run.
  change (StoreAppendEvents (runID l) owner (Pending b)) with (AppendEvents id owner (Pending b)).
  destruct (AppendEvents id owner (Pending b) env (n, db)) as [[n1 d1] res] eqn:E1. cbn [fst snd].
  pose proof (makes_wf _ _ _ _ _ _ (AppendEvents_makes id owner (Pending b)) S1 E1) as Hw1.
  apply (AppendEvents_streams _ _ _ _ _ _ _ _ _ _ S1 S2) in E1 as [[Ed Er]|(es & r' & Hb & Hr' & Hsq & Hev)]; [..|done]; cbn [snd] in *.
  - subst d1. destruct res as [a|e]; [done|]. eexists _, _, _, r. split; [done|]. split; [by apply streaming_failed|done].
  - pose proof (Forall2_length _ _ _ Hb) as Hlen.
    assert (Hnew : streaming text count (emptied b) d1 r').
    { split; try done; [lia|lia|]. intros _. cbn [Pending emptied length NextSequence AnswerSoFar pendingText]. split_and!; [lia|lia|done|].
      rewrite string_app_nil, B4, Hev. replace (Z.to_nat (rn_sequence r' - start)) with (Z.to_nat (rn_sequence r - start) + length es)%nat by lia.
      replace (rn_sequence r) with (start + Z.of_nat (Z.to_nat (rn_sequence r - start))) at 2 by lia.
      by rewrite eventsFrom_added, deltaText_app, (becomes_text _ _ Hb). }
    destruct res as [[]|e].
    + eexists _, _, _, r'. split; [done|]. by split.
    + eexists _, _, _, r'. split; [done|]. split; [|done]. destruct Hnew as [T1 T2 T3 T4 _]. by split.
Qed.

(** What an event brings to the answer. *)
Definition eventText (e : GatewayEvent) : string := match GatewayKind e with KindDelta => Delta e | _ => EmptyString end.

Lemma streamText_one h : streamText [h] = match h with Streamed e => eventText e | _ => EmptyString end.
Proof. destruct h as [e| |]; cbn; [|done..]. unfold eventText. by rewrite string_app_nil. Qed.

(** The database is in step with a buffer that differs in what is not compared. *)
Lemma streaming_same text count b b' db r : Pending b' = Pending b -> NextSequence b' = NextSequence b -> AnswerSoFar b' = AnswerSoFar b ->
  (StoreErr b' = None -> StoreErr b = None) -> streaming text count b db r -> streaming text count b' db r.
Proof. intros E1 E2 E3 E4 [S1 S2 S3 S4 S5]. split; try done. intros He. rewrite E1, E2, E3. by apply S5, E4. Qed.

Lemma streaming_idle text count b db r : streaming text count b db r -> streaming text (count + 1) b db r.
Proof. intros [S1 S2 S3 S4 S5]. split; try done; [lia|]. intros He. destruct (S5 He) as (B1 & B2 & B3 & B4). split_and!; [lia|done..]. Qed.

Lemma queued_streaming text count e now b b' db r : StoreErr b = None -> streaming text count b db r -> 0 <= start -> start + count + 2 <= maxInt64 ->
  Pending b' = Pending b -> NextSequence b' = NextSequence b -> AnswerSoFar b' = (AnswerSoFar b ++ eventText e)%string -> StoreErr b' = None ->
  streaming (text ++ eventText e) (count + 1) (queued e now b') db r.
Proof.
  intros He [S1 S2 S3 S4 S5] H0 Hmax E1 E2 E3 E4. destruct (S5 He) as (B1 & B2 & B3 & B4). split; try done; [lia|].
  intros _. cbn [Pending NextSequence AnswerSoFar queued]. rewrite E1, E2, E3, B2, B3, length_app. cbn [length].
  unfold maxInt64 in Hmax. rewrite UploadParts.wrapInt64_id by lia. split_and!; [lia|lia|done|].
  rewrite B4, pendingText_app, <- string_app_assoc. f_equal. cbn [pendingText EventKind EventDelta].
  rewrite string_app_nil. unfold eventText. by destruct (GatewayKind e).
Qed.

(** One thing happens. *)
Lemma happen_streaming text count h b db r env n : quiet env -> streaming text count b db r -> 0 <= start -> start + count + 2 <= maxInt64 ->
  exists n' db' b' r', happen cfg l h b env (n, db) = ((n', db'), Ok b') /\ streaming (text ++ streamText [h]) (count + 1) b' db' r'.
Proof.
  intros Hq Hs H0 Hmax. rewrite streamText_one. destruct h as [e| |]; cbn [happen].
  - unfold received. erewrite dbind_run by reflexivity. set (now := wall env n). case_bool_decide as He.
    { eexists _, _, _, r. split; [done|]. apply streaming_later with text; [|done]. destruct He as [x ->]. done. }
    assert (Ee : StoreErr b = None) by (destruct (StoreErr b); [destruct He; by eexists|done]).
    assert (Happ : forall b', Pending b' = Pending b -> NextSequence b' = NextSequence b ->
      AnswerSoFar b' = (AnswerSoFar b ++ eventText e)%string -> StoreErr b' = None ->
      exists n' db' b2 r', (let b0 := queued e now b' in if FlushBytes cfg <=? PendingBytes b0 then flush l b0 else dret b0) env (S n, db)
        = ((n', db'), Ok b2) /\ streaming (text ++ eventText e) (count + 1) b2 db' r').
    { intros b' E1 E2 E3 E4. pose proof (queued_streaming _ _ e now _ b' _ _ Ee Hs H0 Hmax E1 E2 E3 E4) as Hnew.
      cbv zeta. destruct (FlushBytes cfg <=? _); [|by eexists _, _, _, _].
      destruct (flush_streaming _ _ _ _ _ env (S n) Hq Hnew) as (n' & db' & b2 & r' & H1 & H2 & _). by eexists _, _, _, _. }
    assert (Hnone : GatewayKind e <> KindDelta \/ Delta e = EmptyString -> streaming (text ++ eventText e) (count + 1) b db r).
    { intros Hk. assert (eventText e = EmptyString) as -> by (unfold eventText; destruct (GatewayKind e), Hk; done).
      rewrite string_app_nil. by apply streaming_idle. }
    unfold eventText in *. destruct (GatewayKind e) eqn:Ek.
    + case_bool_decide as Ed; [eexists _, _, _, _; split; [done|apply Hnone; by right]|]. by apply Happ.
    + apply Happ; try done. by rewrite string_app_nil.
    + eexists _, _, _, _. split; [done|]. eapply streaming_same; [..|apply Hnone; by left]; done.
    + eexists _, _, _, _. split; [done|]. apply Hnone. by left.
  - rewrite string_app_nil. destruct (flush_streaming _ _ _ _ _ env n Hq Hs) as (n' & db' & b2 & r' & H1 & H2 & _).
    eexists _, _, _, _. split; [done|]. by apply streaming_idle.
  - rewrite string_app_nil. unfold heartbeat. destruct (Beating b); cbn [negb].
    2: { eexists _, _, _, _. split; [done|]. by apply streaming_idle. }
    erewrite dbind_run by reflexivity. rewrite ai_attempt_run. pose proof Hs as [S1 S2 S3 S4 S5].
    set (m := StoreHeartbeat _ _ _). change m with (Heartbeat id owner (UTC (addDuration (wall env n) (LeaseDuration cfg)))). clear m.
    destruct (Heartbeat _ _ _ env (S n, db)) as [[n1 d1] res] eqn:E1. cbn [fst snd].
    pose proof (makes_wf _ _ _ _ _ _ (Heartbeat_makes _ _ _) S1 E1) as Hw1.
    assert (Hbeat : exists r', streaming text count b d1 r').
    { apply (Heartbeat_streams _ _ _ _ _ _ _ _ _ _ S2) in E1 as [Ed|(r' & Hr' & Esq & Eev)]; cbn [snd] in *; [subst d1; by exists r|].
      exists r'. split; try done; rewrite ?Esq, ?Eev; done. }
    destruct Hbeat as [r' Hbeat].
    assert (Hout : forall b', Pending b' = Pending b -> NextSequence b' = NextSequence b -> AnswerSoFar b' = AnswerSoFar b ->
      (StoreErr b' = None -> StoreErr b = None) -> exists n' db' b2 r', dret (E := Error) b' env (n1, d1) = ((n', db'), Ok b2) /\ streaming text (count + 1) b2 db' r').
    { intros b' E2 E3 E4 E5. eexists _, _, _, _. split; [done|]. apply streaming_idle. by eapply streaming_same. }
    destruct res as [[]|e]; [by apply Hout|]. destruct e; apply Hout; try done; cbn; by case_bool_decide.
Qed.

(** The whole stream. *)
Lemma stream_streaming hs : forall text count b db r env n, quiet env -> streaming text count b db r -> 0 <= start ->
  start + count + Z.of_nat (length hs) + 1 <= maxInt64 ->
  exists n' db' b' r', stream cfg l hs b env (n, db) = ((n', db'), Ok b') /\ streaming (text ++ streamText hs) (count + Z.of_nat (length hs)) b' db' r'.
Proof.
  induction hs as [|h hs IH]; intros text count b db r env n Hq Hs H0 Hmax; cbn [stream length] in *.
  - rewrite string_app_nil, Z.add_0_r. by eexists _, _, _, _.
  - destruct (happen_streaming _ _ h _ _ _ env n Hq Hs H0 ltac:(lia)) as (n1 & d1 & b1 & r1 & E1 & S1). erewrite dbind_run by done.
    destruct (IH _ _ _ _ _ env n1 Hq S1 H0 ltac:(lia)) as (n2 & d2 & b2 & r2 & E2 & S2). eexists _, _, _, _. split; [done|].
    change (h :: hs) with ([h] ++ hs). rewrite streamText_app, <- string_app_assoc. by replace (count + Z.of_nat (S (length hs))) with (count + 1 + Z.of_nat (length hs)) by lia.
Qed.

(** *** The end *)

(** How a run that was executed ends: with the answer the stream brought, which is also
    what its deltas in the database spell, or without one. *)
Definition settled (text : string) (db : AIDB) : Prop := exists r,
  runs db !! id = Some r /\ rn_identity r = i /\
  match rn_status r with
  | RunSucceeded =>
      (exists mid m, messages db !! mid = Some m /\ ms_run m = Some id /\ ms_body m = text) /\
      deltaText (eventsFrom (runEvents db) id start (Z.to_nat (rn_sequence r - 1 - start))) = text
  | RunFailed | RunCancelled => True
  | RunQueued | RunStreaming => False
  end.

Lemma stable_code e : charLength 1 128 (stableGatewayCategory e) = true.
Proof.
  destruct e as [c deadline| |]; cbn [stableGatewayCategory]; [|by vm_compute..]. destruct (member stableCategories c) eqn:E; [|by destruct deadline; vm_compute].
  apply bool_decide_eq_true in E. unfold stableCategories in E. rewrite !elem_of_cons, elem_of_nil in E.
  repeat (destruct E as [->|E]; [by vm_compute|]). done.
Qed.

Lemma failWith_settled text count b db r status code total env n : quiet env -> streaming text count b db r -> start + count < maxInt64 ->
  id <> NilUUID -> status = RunFailed \/ status = RunCancelled -> charLength 1 128 code = true -> 0 <= total ->
  exists st, failWith l status code total env (n, db) = (st, Ok tt) /\ settled text (snd st).
Proof.
  intros Hq [S1 S2 S3 S4 _] Hmax Hid Hs Hc Ht. unfold failWith. rewrite ai_attempt_run.
  change (StoreFail l (MkFailure status code "unknown" 0 0 0 total)) with (Fail l (MkFailure status code "unknown" 0 0 0 total)).
  destruct (Fail_streams l status code total i r env n db Hq S1 S2 Hid ltac:(lia) Hs Hc Ht) as (st & r' & -> & Hr & Hst & Hi).
  eexists. split; [done|]. exists r'. split_and!; [done|done|]. rewrite Hst. by destruct Hs as [-> | ->].
Qed.

Lemma conclude_settled text count b db r streamErr started total env n : quiet env -> streaming text count b db r -> start + count < maxInt64 ->
  (StoreErr b = None -> Pending b = []) -> id <> NilUUID -> 0 <= total ->
  exists st, conclude l b streamErr started total env (n, db) = (st, Ok tt) /\ settled text (snd st).
Proof.
  intros Hq Hs Hmax Hp Hid Ht. unfold conclude. destruct (StoreErr b) as [e|] eqn:Ee.
  { unfold endForStore. destruct e; by eapply failWith_settled; eauto. }
  destruct streamErr as [e|]; [eapply failWith_settled; eauto using stable_code|].
  pose proof Hs as [S1 S2 S3 S4 S5]. destruct (S5 Ee) as (B1 & B2 & B3 & B4). rewrite (Hp eq_refl) in B4. cbn [pendingText] in B4. rewrite string_app_nil in B4.
  rewrite ai_attempt_run. set (c := completionFor l b started total). change (StoreComplete l c) with (Complete l c).
  destruct (Complete l c env (n, db)) as [[n1 d1] res] eqn:E1. cbn [fst snd].
  apply (Complete_streams _ _ _ _ _ _ _ _ _ S2) in E1 as [[Ed Er]|(r' & mid & m & H0 & H1 & H2 & H3 & H4 & H5 & H6 & H7 & _ & e & H8)]; [..|done]; cbn [snd] in *.
  - subst d1. destruct res as [a|e]; [done|]. destruct e; by eapply failWith_settled; eauto.
  - assert (Hdone : settled text d1).
    { exists r'. split_and!; [done|done|]. rewrite H2. split; [exists mid, m; split_and!; [done|done|by rewrite H7]|].
      rewrite H4, H8. replace (rn_sequence r + 1 - 1 - start) with (rn_sequence r - start) by lia. rewrite B4. f_equal.
      apply eventsFrom_same. intros s Hs'. apply lookup_insert_ne. intros [= <-]. lia. }
    destruct res as [[]|e']; [by eexists|done].
Qed.

(** A run that is streamed and of which nothing has been written is in step with a new
    buffer. *)
Lemma newBuffer_streaming db r : aiWf db -> streams db id owner i r -> start = LastSequence (LeasedRunOf l) -> start = rn_sequence r ->
  0 <= start < maxInt64 -> streaming EmptyString 0 (newBuffer l) db r.
Proof.
  intros Hw Hr El Er Hmax. split; try done; [lia|lia|]. intros _. cbn [Pending newBuffer length NextSequence AnswerSoFar pendingText]. unfold maxInt64 in *.
  rewrite UploadParts.wrapInt64_id by lia. split_and!; [lia|lia|done|]. by replace (rn_sequence r - start) with 0 by lia.
Qed.

(** How an executed run is left when the runner is being stopped: still streamed by
    the same worker. *)
Definition leftStreaming (db : AIDB) : Prop := exists r, streams db id owner i r.

Lemma execute_settled db r hs streamErr parentEnded env n : quiet env -> aiWf db -> streams db id owner i r -> start = LastSequence (LeasedRunOf l) ->
  start = rn_sequence r -> start + Z.of_nat (length hs) < maxInt64 -> id <> NilUUID ->
  exists st, execute cfg hs streamErr parentEnded l env (n, db) = (st, Ok tt) /\
    if parentEnded then leftStreaming (snd st) else settled (streamText hs) (snd st).
Proof.
  intros Hq Hw Hr El Er Hmax Hid. pose proof (runCheck_sequence _ (a_check _ Hw _ _ (proj1 Hr))) as Hpos.
  assert (H0 : streaming EmptyString 0 (newBuffer l) db r) by (apply newBuffer_streaming; try done; lia).
  unfold execute. erewrite dbind_run by reflexivity.
  destruct (stream_streaming hs _ _ _ _ _ env (S n) Hq H0 ltac:(lia) ltac:(lia)) as (n1 & d1 & b1 & r1 & E1 & S1). erewrite dbind_run by done.
  destruct (flush_streaming _ _ _ _ _ env n1 Hq S1) as (n2 & d2 & b2 & r2 & E2 & S2 & Hp). erewrite dbind_run by done.
  erewrite dbind_run by reflexivity. destruct parentEnded.
  - eexists. split; [done|]. exists r2. apply (st_row _ _ _ _ _ S2).
  - eapply conclude_settled; [done|exact S2|lia|done|done|apply Z.le_max_r].
Qed.

End Execution.

(** C24. A leased run ends, and it ends with what was streamed.  When the runner executes a
    run it holds, in a state the program can reach and without failures of the database,
    then for every stream - whatever events arrive in whatever order with ticks of the
    flushes and the heartbeats between them, and however the stream ends - the run is over
    afterwards, unless the runner itself is being stopped: it failed or was cancelled, or
    it succeeded, and then the body of its answer is what the deltas of the stream spell
    one after the other, and the deltas among the events that were stored, in the order of
    their numbers, spell the same.  When the runner is being stopped, and only then, the
    run is left as it is, streaming under the lease of the same worker, for another one to
    reconcile. *)
Theorem execution_settles `{PgTime} `{UUIDText} norm lower Parse print parseURL openBox previewObjects lock locked w cfg l r db hs streamErr
    parentEnded env :
  quiet env -> reachable initAI (aiStep norm lower Parse print) db -> streamedBy db (RunID (LeasedRunOf l)) (LeaseOwner l) = Some r ->
  LastSequence (LeasedRunOf l) = rn_sequence r -> rn_sequence r + Z.of_nat (length hs) < maxInt64 -> RunID (LeasedRunOf l) <> NilUUID ->
  exists r',
    let db' := exec (execute (H := PostgresRunnerStore parseURL openBox previewObjects lock locked w) cfg hs streamErr parentEnded l) env db in
    runs db' !! RunID (LeasedRunOf l) = Some r' /\ rn_identity r' = rn_identity r /\
    match rn_status r' with
    | RunSucceeded =>
        parentEnded = false /\
        (exists mid m, messages db' !! mid = Some m /\ ms_run m = Some (RunID (LeasedRunOf l)) /\ ms_body m = streamText hs) /\
        deltaText (eventsFrom (runEvents db') (RunID (LeasedRunOf l)) (rn_sequence r) (Z.to_nat (rn_sequence r' - 1 - rn_sequence r))) = streamText hs
    | RunFailed | RunCancelled => parentEnded = false
    | RunStreaming => parentEnded = true /\ rn_owner r' = Some (LeaseOwner l)
    | RunQueued => False
    end.
Proof.
  intros Hq Hdb Hr El Hmax Hid. apply ai_reachable_wf in Hdb. apply streamedBy_streams in Hr.
  destruct (execute_settled parseURL openBox previewObjects lock locked w cfg l _ (rn_sequence r) db r hs streamErr parentEnded env 0 Hq Hdb Hr
    ltac:(done) eq_refl Hmax Hid) as (st & E & Hend).
  unfold exec. unfold store in E. destruct parentEnded.
  - destruct Hend as (r' & H1 & H2 & H3 & H4). exists r'. cbv zeta. rewrite E, H2. by split_and!.
  - destruct Hend as (r' & H1 & H2 & H3). exists r'. cbv zeta. rewrite E. split_and!; [done..|]. by destruct (rn_status r').
Qed.
