(* ===== verification/AIQuota.v ===== *)
(** * The quota of the assistant

    What a student's runs hold of a quota ([held]), that the ledger adds up to it, and
    that only an admission raises it, within the limits that are in force. *)

From S2P Require Import Prelude GoTime GoText GoStrings GoSha256 GoStrconv Pg OpsModel Keyset AuditLog FilesModel UploadParts FilesStore LessonModel LessonFiles LessonService LessonTheorems AIModel AIStore AIRunnerStore AIRunner AIInvariant AITheorems.
From stdpp Require Import base tactics list gmap strings relations.
From Stdlib Require Import ZArith Lia.
Import Lessons AI AIStore AIRunnerStore.

Open Scope Z_scope.

(** ** Sums over tables *)
Section Sums.
Context {K A : Type} `{Countable K}.

Definition total (f : K * A -> Z) (l : list (K * A)) : Z := foldr (fun x acc => f x + acc) 0 l.
Definition sumOver (f : K * A -> Z) (m : gmap K A) : Z := total f (map_to_list m).

Lemma total_perm f l1 l2 : l1 ≡ₚ l2 -> total f l1 = total f l2.
Proof. unfold total. induction 1; cbn; lia. Qed.

Lemma sumOver_new f m k x : m !! k = None -> sumOver f (<[k := x]> m) = f (k, x) + sumOver f m.
Proof. intros Hno. unfold sumOver. by rewrite (total_perm _ _ _ (map_to_list_insert m k x Hno)). Qed.

Lemma sumOver_replaced f m k x y : m !! k = Some y -> sumOver f (<[k := x]> m) = f (k, x) - f (k, y) + sumOver f m.
Proof.
  intros Hy. rewrite <- (insert_delete_eq m), sumOver_new by apply lookup_delete_eq.
  rewrite <- (insert_delete_id m k y Hy) at 2. rewrite sumOver_new by apply lookup_delete_eq. lia.
Qed.

Lemma sumOver_empty f : sumOver f ∅ = 0.
Proof. unfold sumOver. by rewrite map_to_list_empty. Qed.

Lemma sumOver_nonneg f m : (forall k x, m !! k = Some x -> 0 <= f (k, x)) -> 0 <= sumOver f m.
Proof.
  intros Hf. unfold sumOver. assert (Hall : forall y, y ∈ map_to_list m -> 0 <= f y).
  { intros [k x] Hin. apply elem_of_map_to_list in Hin. by apply Hf. }
  induction (map_to_list m) as [|y l IH]; cbn [total foldr]; [done|]. pose proof (Hall y ltac:(left)).
  assert (0 <= total f l) by (apply IH; intros z Hz; apply Hall; by right). unfold total in *. lia.
Qed.

End Sums.

(** ** What is held of a quota *)

(** An active run holds what it reserved, a run that succeeded what it is charged. *)
Definition heldRequests (r : RunRow) : Z :=
  match rn_status r with RunFailed | RunCancelled => 0 | _ => rn_requests (rn_identity r) end.
Definition heldTokens (r : RunRow) : Z :=
  match rn_status r with
  | RunFailed | RunCancelled => 0
  | RunSucceeded => chargedTokens r
  | _ => rn_tokens (rn_identity r)
  end.

(** The run counts for the student in the period with this key. *)
Definition counts (student : UUID) (period key : string) (i : RunIdentity) : bool :=
  (rn_student i =? student)%N && bool_decide (periodKey i period = Some key).

Definition held (f : RunRow -> Z) (db : AIDB) (student : UUID) (period key : string) : Z :=
  sumOver (fun '(_, r) => if counts student period key (rn_identity r) then f r else 0) (runs db).

(** What the ledger says. *)
Definition listed (f : LedgerRow -> Z) (db : AIDB) (student : UUID) (period key : string) : Z :=
  sumOver (fun '((_, p, _), g) =>
             if bool_decide (p = period) && (lg_student g =? student)%N && bool_decide (lg_key g = key) then f g else 0) (ledger db).

Definition balanced (db : AIDB) : Prop := forall student period key,
  listed lg_requests db student period key = held heldRequests db student period key /\
  listed lg_tokens db student period key = held heldTokens db student period key.

Section Quota.
Context `{PgTime}.

(** *** The balance *)
Definition entryOf (f : LedgerRow -> Z) (student : UUID) (period key : string) : N * string * string * LedgerRow -> Z :=
  fun '((_, p, _), g) => if bool_decide (p = period) && (lg_student g =? student)%N && bool_decide (lg_key g = key) then f g else 0.

(** The entries of a run for the day and the month count where the run counts. *)
Lemma entries_both f student period key id r a rowD rowM :
  lg_student rowD = rn_student (rn_identity r) -> lg_student rowM = rn_student (rn_identity r) ->
  lg_key rowD = rn_day (rn_identity r) -> lg_key rowM = rn_month (rn_identity r) -> f rowD = f rowM ->
  entryOf f student period key (id, "month"%string, a, rowM) + entryOf f student period key (id, "day"%string, a, rowD) =
  if counts student period key (rn_identity r) then f rowD else 0.
Proof.
  intros E1 E2 E3 E4 E5. unfold entryOf, counts, periodKey. rewrite E1, E2, E3, E4, E5.
  destruct (rn_student (rn_identity r) =? student)%N; [|by rewrite !andb_false_r].
  rewrite !andb_true_r. cbn [andb]. repeat (case_bool_decide; simplify_eq; try congruence); cbn [andb]; lia.
Qed.

Lemma sum_withReserve f student period key id i at_ g :
  (forall p a, g !! (id, p, a) = None) -> (forall k, f (reserveRow i k at_) = f (reserveRow i EmptyString at_)) ->
  sumOver (entryOf f student period key) (withReserve id i at_ g) =
  (if counts student period key i then f (reserveRow i EmptyString at_) else 0) + sumOver (entryOf f student period key) g.
Proof.
  intros Hno Hf. unfold withReserve. rewrite !sumOver_new by (rewrite ?lookup_insert_ne by done; apply Hno).
  rewrite Z.add_assoc. rewrite (entries_both _ _ _ _ _ (queuedRow i at_)) by (try done; by rewrite !Hf). cbn. by rewrite Hf.
Qed.

Lemma sum_withRelease f student period key id r at_ g :
  (forall p a, a <> "reserve"%string -> g !! (id, p, a) = None) -> (forall k, f (releaseRow r k at_) = f (releaseRow r EmptyString at_)) ->
  sumOver (entryOf f student period key) (withRelease id r at_ g) =
  (if counts student period key (rn_identity r) then f (releaseRow r EmptyString at_) else 0) + sumOver (entryOf f student period key) g.
Proof.
  intros Hno Hf. unfold withRelease. rewrite !sumOver_new by (rewrite ?lookup_insert_ne by done; by apply Hno).
  rewrite Z.add_assoc. rewrite (entries_both _ _ _ _ _ r) by (try done; by rewrite !Hf). by rewrite Hf.
Qed.

Lemma sum_withSettle f student period key id r charged at_ g :
  (forall p a, a <> "reserve"%string -> g !! (id, p, a) = None) -> (forall k, f (releaseRow r k at_) = f (releaseRow r EmptyString at_)) ->
  (forall k, f (settleRow r k charged at_) = f (settleRow r EmptyString charged at_)) ->
  sumOver (entryOf f student period key) (withSettle id r charged at_ g) =
  (if counts student period key (rn_identity r) then f (settleRow r EmptyString charged at_) + f (releaseRow r EmptyString at_) else 0)
  + sumOver (entryOf f student period key) g.
Proof.
  intros Hno Hf1 Hf2. unfold withSettle. rewrite !sumOver_new by (rewrite ?lookup_insert_ne by done; by apply Hno).
  pose proof (entries_both f student period key id r "release" (releaseRow r (rn_day (rn_identity r)) at_) (releaseRow r (rn_month (rn_identity r)) at_)) as E1.
  pose proof (entries_both f student period key id r "settle" (settleRow r (rn_day (rn_identity r)) charged at_) (settleRow r (rn_month (rn_identity r)) charged at_)) as E2.
  specialize (E1 eq_refl eq_refl eq_refl eq_refl ltac:(by rewrite !Hf1)). specialize (E2 eq_refl eq_refl eq_refl eq_refl ltac:(by rewrite !Hf2)).
  rewrite Hf1 in E1. rewrite Hf2 in E2. destruct (counts _ _ _ _); lia.
Qed.

Lemma held_replaced f db id r r' student period key : runs db !! id = Some r -> rn_identity r' = rn_identity r ->
  held f (setRuns (<[id := r']> (runs db)) db) student period key =
  (if counts student period key (rn_identity r) then f r' - f r else 0) + held f db student period key.
Proof.
  intros Hr Ei. unfold held. cbn [runs setRuns]. rewrite (sumOver_replaced _ _ _ _ _ Hr), Ei. destruct (counts _ _ _ _); lia.
Qed.

Lemma balanced_same db db' : runs db' = runs db -> ledger db' = ledger db -> balanced db -> balanced db'.
Proof. intros Er Eg Hb s p k. unfold listed, held. rewrite Er, Eg. apply Hb. Qed.

(** A replaced row and the entries that go with it keep the balance. *)
Lemma balanced_run db db' id r r' : runs db !! id = Some r -> rn_identity r' = rn_identity r -> runs db' = <[id := r']> (runs db) ->
  (forall s p k, let d f h := listed f db' s p k - listed f db s p k =
     if counts s p k (rn_identity r) then h r' - h r else 0 in d lg_requests heldRequests /\ d lg_tokens heldTokens) ->
  balanced db -> balanced db'.
Proof.
  intros Hr Ei Er Hd Hb s p k. specialize (Hd s p k). cbn zeta in Hd. destruct Hd as [D1 D2], (Hb s p k) as [B1 B2].
  pose proof (held_replaced heldRequests _ _ _ _ s p k Hr Ei) as E1. pose proof (held_replaced heldTokens _ _ _ _ s p k Hr Ei) as E2.
  unfold held in *. cbn [runs setRuns] in E1, E2. rewrite Er. lia.
Qed.

Lemma moved_held r r' : active (rn_status r) = true -> movesTo r r' -> heldRequests r' = heldRequests r /\ heldTokens r' = heldTokens r.
Proof.
  intros Ha Hm. pose proof (movesTo_active _ _ Ha Hm) as Ha'. destruct Hm as (Ei & _). unfold heldRequests, heldTokens. rewrite Ei.
  destruct (rn_status r), (rn_status r'); done.
Qed.

Lemma aiChange_balanced db db' : aiWf db -> aiChange db db' -> balanced db -> balanced db'.
Proof.
  intros Hw Hc. destruct Hc as [tid t at_ mid m Ht Et Em1 Em2 Em3 Em4 Hck Hvi Em Hl Hln Hsub Er Ee Eg Ecf Ho
    |id r r' es Hr Ha Hm Hck Hq Hk Er Ee Et Em El Eg Ecf Ed|id r s u first total_ finish code at_ sequence r' Hr Ha Hs Hck Er Ee Eg Et Em El Ecf Ed
    |id r source input output cost first total_ finish es mid body at_ sequence r' Hr Hs Hck Hes Er Ee Eg Hno Hmc Em Et El Ecf Ed].
  - by apply balanced_same.
  - destruct (moved_held _ _ Ha Hm) as [E1 E2]. apply (balanced_run _ _ id r r' Hr); [apply Hm|done|].
    intros s p k. unfold listed. rewrite Eg, E1, E2. destruct (counts _ _ _ _); split; lia.
  - pose proof (wf_unsettled _ _ _ Hw Hr Ha) as Hun. apply (balanced_run _ _ id r r' Hr); [done..|].
    intros s0 p k. unfold listed. rewrite Eg. fold (entryOf lg_requests s0 p k) (entryOf lg_tokens s0 p k).
    rewrite !sum_withRelease by (intros; by try apply Hun). unfold heldRequests, heldTokens, r'. cbn.
    destruct (counts _ _ _ _), (rn_status r), Hs as [-> | ->]; try done; split; lia.
  - assert (Ha : active (rn_status r) = true) by (by rewrite Hs). pose proof (wf_unsettled _ _ _ Hw Hr Ha) as Hun.
    apply (balanced_run _ _ id r r' Hr); [done..|]. intros s0 p k. unfold listed. rewrite Eg.
    fold (entryOf lg_requests s0 p k) (entryOf lg_tokens s0 p k).
    rewrite !sum_withSettle by (intros; by try apply Hun). unfold heldRequests, heldTokens. rewrite Hs. cbn [rn_status endedRow r'].
    destruct (counts _ _ _ _); split; cbn; lia.
Qed.

(** An admission adds what the run reserves, for the student and the two periods. *)
Lemma held_admitted f db db' id i at_ : runs db !! id = None -> runs db' = <[id := queuedRow i at_]> (runs db) ->
  forall s p k, held f db' s p k = (if counts s p k i then f (queuedRow i at_) else 0) + held f db s p k.
Proof. intros Hno Er s p k. unfold held. rewrite Er, sumOver_new by done. cbn. lia. Qed.

Lemma admits_balanced db db' : aiWf db -> admits db db' -> balanced db -> balanced db'.
Proof.
  intros Hw [id i at_ Hst Hck Hvi Hq Er Eg Et Em El Ee Ecf Ed] Hb s p k. apply runViolation_None in Hvi as (Hno & _).
  rewrite !(held_admitted _ _ _ _ _ _ Hno Er). unfold listed. rewrite Eg. fold (entryOf lg_requests s p k) (entryOf lg_tokens s p k).
  rewrite !sum_withReserve by (intros; by try apply wf_no_ledger). destruct (Hb s p k) as [B1 B2]. unfold listed in B1, B2.
  fold (entryOf lg_requests s p k) (entryOf lg_tokens s p k) in B1, B2. rewrite B1, B2. done.
Qed.

Lemma aiTx_balanced db db' : aiWf db -> aiTx db db' -> balanced db -> balanced db'.
Proof.
  intros Hw (m & Hc & Hm) Hb. assert (Hwb : aiWf m /\ balanced m) by (clear Hm; revert Hw Hb; induction Hc as [|a b c H1 _ IH]; [by split|];
    intros Hw Hb; apply IH; [by eapply aiChange_wf|by eapply aiChange_balanced]).
  destruct Hwb as [Hwm Hbm], Hm as [-> |Hm]; [done|by eapply admits_balanced].
Qed.

(** *** What the code reads *)
Lemma add64_wrap a b : add64 (Files.wrapInt64 a) b = Files.wrapInt64 (a + b).
Proof.
  unfold add64, Files.wrapInt64. f_equal. replace ((a + 2 ^ 63) mod 2 ^ 64 - 2 ^ 63 + b + 2 ^ 63) with ((a + 2 ^ 63) mod 2 ^ 64 + b) by lia.
  rewrite Zplus_mod_idemp_l. f_equal. lia.
Qed.

Lemma sum64_wrap l : sum64 l = Files.wrapInt64 (foldr Z.add 0 l).
Proof.
  unfold sum64. assert (Hg : forall a, fold_left add64 l (Files.wrapInt64 a) = Files.wrapInt64 (a + foldr Z.add 0 l)).
  { induction l as [|x l IH]; intros a; cbn [fold_left foldr]; [by rewrite Z.add_0_r|]. rewrite add64_wrap, IH. f_equal. lia. }
  exact (Hg 0).
Qed.

Lemma sum64_used f db student period key :
  sum64 (f <$> usedRows db student period key) = Files.wrapInt64 (listed f db student period key).
Proof.
  rewrite sum64_wrap. f_equal. unfold usedRows, listed, sumOver, total. induction (map_to_list (ledger db)) as [|[[[r p] a] g] l IH]; [done|].
  cbn. destruct (_ && _ && _); cbn; by rewrite <- IH.
Qed.

Lemma held_nonneg f db student period key : (forall id r, runs db !! id = Some r -> 0 <= f r) -> 0 <= held f db student period key.
Proof. intros Hf. apply sumOver_nonneg. intros id r Hr. destruct (counts _ _ _ _); [by eapply Hf|done]. Qed.

Lemma charged_nonneg r : runCheck r = true -> 0 <= chargedTokens r.
Proof.
  unfold runCheck, usageCheck, identityCheck, chargedTokens, nonNegative, addCost. intros Hr. bool_simpl.
  assert (0 <= or_zero 0 (us_input (rn_usage r))) by (destruct (us_input (rn_usage r)); cbn in *; bool_simpl; lia).
  assert (0 <= or_zero 0 (us_output (rn_usage r))) by (destruct (us_output (rn_usage r)); cbn in *; bool_simpl; lia).
  unfold maxInt64. destruct (_ <? _); lia.
Qed.

Lemma requests_nonneg db id r : aiWf db -> runs db !! id = Some r -> 0 <= heldRequests r.
Proof.
  intros Hw Hr. apply (a_check _ Hw) in Hr. unfold runCheck, identityCheck in Hr. unfold heldRequests. bool_simpl. destruct (rn_status r); lia.
Qed.
Lemma tokens_nonneg db id r : aiWf db -> runs db !! id = Some r -> 0 <= heldTokens r.
Proof.
  intros Hw Hr. apply (a_check _ Hw) in Hr as Hck. pose proof (charged_nonneg _ Hck). unfold runCheck, identityCheck in Hck. unfold heldTokens.
  bool_simpl. destruct (rn_status r); lia.
Qed.

End Quota.

(** ** Admission raises, nothing else does *)
Section Limits.
Context `{PgTime}.

(** The limits in force for a student. *)
Definition limitsFor (db : AIDB) (student : UUID) : result Error QuotaLimits :=
  ResolveQuotaLimits (globalLimits (config db)) (ownLimits db student).
Definition requestLimit (l : QuotaLimits) (period : string) : Z :=
  if bool_decide (period = "day"%string) then DailyRequests l else MonthlyRequests l.
Definition tokenLimit (l : QuotaLimits) (period : string) : Z :=
  if bool_decide (period = "day"%string) then DailyTokens l else MonthlyTokens l.

(** Not more is held, except within a limit in force. *)
Definition risesWithin (f : RunRow -> Z) (limit : QuotaLimits -> string -> Z) (db db' : AIDB) (student : UUID) (period key : string) : Prop :=
  held f db' student period key <= held f db student period key \/
  exists l, limitsFor db student = Ok l /\ held f db' student period key <= limit l period.

Lemma aiChange_lowers db db' s p k : aiWf db -> aiChange db db' ->
  held heldRequests db' s p k <= held heldRequests db s p k /\ held heldTokens db' s p k <= held heldTokens db s p k /\
  sameLimits (config db) (config db').
Proof.
  intros Hw Hc.
  assert (Hrow : forall id r r', runs db !! id = Some r -> rn_identity r' = rn_identity r -> runs db' = <[id := r']> (runs db) ->
    heldRequests r' <= heldRequests r -> heldTokens r' <= heldTokens r ->
    held heldRequests db' s p k <= held heldRequests db s p k /\ held heldTokens db' s p k <= held heldTokens db s p k).
  { intros id r r' Hr Ei Er H1 H2. pose proof (held_replaced heldRequests _ _ _ _ s p k Hr Ei) as E1.
    pose proof (held_replaced heldTokens _ _ _ _ s p k Hr Ei) as E2. unfold held in *. cbn [runs setRuns] in E1, E2. rewrite Er, E1, E2.
    destruct (counts _ _ _ _); lia. }
  destruct Hc as [tid t at_ mid m Ht Et Em1 Em2 Em3 Em4 Hck Hvi Em Hl Hln Hsub Er Ee Eg Ecf Ho
    |id r r' es Hr Ha Hm Hck Hq Hk Er Ee Et Em El Eg Ecf Ed|id r st u first total_ finish code at_ sequence r' Hr Ha Hs Hck Er Ee Eg Et Em El Ecf Ed
    |id r source input output cost first total_ finish es mid body at_ sequence r' Hr Hs Hck Hes Er Ee Eg Hno Hmc Em Et El Ecf Ed].
  - unfold held. rewrite Er, Ecf. split_and!; done.
  - destruct (moved_held _ _ Ha Hm) as [E1 E2]. rewrite Ecf. destruct (Hrow id r r' Hr (proj1 Hm) Er) as [H1 H2]; [lia|lia|done].
  - pose proof (requests_nonneg _ _ _ Hw Hr). pose proof (tokens_nonneg _ _ _ Hw Hr). rewrite Ecf.
    assert (E0 : heldRequests r' = 0 /\ heldTokens r' = 0) by (unfold heldRequests, heldTokens, r'; cbn; by destruct Hs as [-> | ->]).
    destruct (Hrow id r r' Hr eq_refl Er) as [H3 H4]; [lia|lia|done].
  - destruct (Hrow id r r' Hr eq_refl Er) as [H3 H4]; [..|done]; unfold heldRequests, heldTokens; rewrite Hs; cbn [rn_status endedRow r']; [done|].
    unfold chargedTokens. cbn. lia.
Qed.

Lemma aiChanges_lower db db' s p k : aiWf db -> rtc aiChange db db' ->
  held heldRequests db' s p k <= held heldRequests db s p k /\ held heldTokens db' s p k <= held heldTokens db s p k /\
  sameLimits (config db) (config db').
Proof.
  intros Hw Hc. induction Hc as [db|a b c H1 _ IH]; [by split_and!|]. destruct (aiChange_lowers _ _ s p k Hw H1) as (L1 & L2 & L3).
  destruct IH as (L4 & L5 & L6); [by eapply aiChange_wf|]. unfold sameLimits in *. split_and!; [lia|lia| |]; intuition congruence.
Qed.

(** What [CheckQuota] lets pass, when the sums fit. *)
Lemma CheckQuota_Ok l u r : CheckQuota l u r = Ok tt ->
  add64 (UsedDailyRequests u) (RequestCount r) <= DailyRequests l /\ add64 (UsedMonthlyRequests u) (RequestCount r) <= MonthlyRequests l /\
  add64 (UsedDailyTokens u) (TokenCount r) <= DailyTokens l /\ add64 (UsedMonthlyTokens u) (TokenCount r) <= MonthlyTokens l.
Proof. unfold CheckQuota. intros Hc. go_run. bool_simpl. lia. Qed.

Lemma admits_within db db' s p k : aiWf db -> balanced db -> admits db db' ->
  held heldRequests db' s p k <= maxInt64 -> held heldTokens db' s p k <= maxInt64 ->
  risesWithin heldRequests requestLimit db db' s p k /\ risesWithin heldTokens tokenLimit db db' s p k.
Proof.
  intros Hw Hb [id i at_ Hst Hck Hvi (l & Hl & Hq) Er Eg Et Em El Ee Ecf Ed] F1 F2. apply runViolation_None in Hvi as (Hno & _).
  pose proof (held_admitted heldRequests db db' id i at_ Hno Er s p k) as E1. pose proof (held_admitted heldTokens db db' id i at_ Hno Er s p k) as E2.
  unfold risesWithin. rewrite E1, E2 in *. destruct (counts s p k i) eqn:Ec; [|split; left; lia].
  unfold counts in Ec. apply andb_true_iff in Ec as [Es%N.eqb_eq Ep%bool_decide_eq_true_1]. subst s.
  pose proof (held_nonneg heldRequests db (rn_student i) p k (fun id r => requests_nonneg db id r Hw)) as P1.
  pose proof (held_nonneg heldTokens db (rn_student i) p k (fun id r => tokens_nonneg db id r Hw)) as P2.
  destruct (Hb (rn_student i) p k) as [B1 B2].
  assert (Hc : heldRequests (queuedRow i at_) = rn_requests i /\ heldTokens (queuedRow i at_) = rn_tokens i) by done. destruct Hc as [-> ->].
  assert (Hi : 0 < rn_requests i /\ 0 <= rn_tokens i) by (unfold runCheck, identityCheck in Hck; cbn in Hck; bool_simpl; lia).
  apply CheckQuota_Ok in Hq. unfold usedQuota in Hq. cbn [UsedDailyRequests UsedMonthlyRequests UsedDailyTokens UsedMonthlyTokens RequestCount TokenCount] in Hq.
  rewrite !sum64_used, !add64_wrap in Hq. unfold maxInt64 in *.
  unfold heldRequests at 1 in F1. unfold heldTokens at 1 in F2. cbn in F1, F2.
  unfold periodKey in Ep. unfold requestLimit, tokenLimit. case_bool_decide as Eday.
  - subst p. injection Ep as <-. rewrite B1, B2, !(UploadParts.wrapInt64_id (held _ _ _ "day" _ + _)) in Hq by lia. split; right; exists l; split; try done; lia.
  - case_bool_decide as Emonth; [|done]. subst p. injection Ep as <-.
    rewrite B1, B2, !(UploadParts.wrapInt64_id (held _ _ _ "month" _ + _)) in Hq by lia. split; right; exists l; split; try done; lia.
Qed.

Lemma aiTx_within db db' s p k : aiWf db -> balanced db -> aiTx db db' ->
  held heldRequests db' s p k <= maxInt64 -> held heldTokens db' s p k <= maxInt64 ->
  risesWithin heldRequests requestLimit db db' s p k /\ risesWithin heldTokens tokenLimit db db' s p k.
Proof.
  intros Hw Hb (m & Hc & Hm) F1 F2. destruct (aiChanges_lower _ _ s p k Hw Hc) as (L1 & L2 & [G1 G2]).
  destruct Hm as [-> |Hm]; [split; by left|].
  assert (Hwm : aiWf m) by (by eapply aiChanges_wf). assert (Hbm : balanced m) by (eapply aiTx_balanced; [exact Hw|by apply aiTx_changes|done]).
  destruct (admits_within _ _ s p k Hwm Hbm Hm F1 F2) as [R1 R2].
  assert (El : limitsFor m s = limitsFor db s) by (unfold limitsFor, ownLimits; by rewrite G1, G2).
  unfold risesWithin in *. rewrite El in R1, R2. destruct R1 as [R1|R1], R2 as [R2|R2]; split; try (by right); left; lia.
Qed.

End Limits.

Section Reachable.
Context `{PgTime} `{UUIDText} (norm lower : string -> string)
  (Parse : string -> option Lesson.ParsedURL) (print : string -> string -> Lesson.ParsedURL -> string).

Notation aiStep := (aiStep norm lower Parse print).

Lemma ai_reachable_balanced db : reachable initAI aiStep db -> aiWf db /\ balanced db.
Proof.
  apply (reachable_invariant initAI aiStep (fun db => aiWf db /\ balanced db)).
  - intros s Hs. split; [by apply initAI_wf|]. destruct Hs as (_ & _ & _ & E4 & _ & E6 & _). intros student period key.
    unfold listed, held. rewrite E4, E6. by rewrite !sumOver_empty.
  - intros s s' [Hw Hb] Hs. split; [by eapply aiStep_wf|]. apply aiStep_cases in Hs as [Hs|[[c ->]|(l & Hr & ->)]]; [by eapply aiTx_balanced| | |done];
      by apply (balanced_same s).
Qed.

(** C23. Quotas hold.  In a reachable state, what the ledger adds up to for a student in a
    day or a month is what the student's runs of that period hold - an active run what it
    reserved, a run that succeeded what it is charged, any other nothing - and a step
    raises it, for requests and for tokens, only to within the limits that are in force
    for the student; everything but an admission leaves it or lowers it.  (The sums have
    to fit in 64 bits: the addition of [CheckQuota] would wrap.) *)
Theorem quotas_hold db db' student period key :
  reachable initAI aiStep db -> aiStep db db' ->
  held heldRequests db' student period key <= maxInt64 -> held heldTokens db' student period key <= maxInt64 ->
  (listed lg_requests db student period key = held heldRequests db student period key /\
   listed lg_tokens db student period key = held heldTokens db student period key) /\
  risesWithin heldRequests requestLimit db db' student period key /\ risesWithin heldTokens tokenLimit db db' student period key.
Proof.
  intros Hr Hs F1 F2. destruct (ai_reachable_balanced _ Hr) as [Hw Hb]. split; [apply Hb|].
  apply aiStep_cases in Hs as [Hs|[[c ->]|(l & Hl & ->)]]; [by apply aiTx_within| | |done]; split; left; done.
Qed.

End Reachable.

(** * What a run costs

    [tokenCost] and [addCost] of [internal/aiqa/runner.go] compute with limits at each
    step.  They compute what one would write down without machine integers. *)

Import AI.

(** The price of so many tokens, a price being for a million of them: rounded up, and at
    most the largest [int64]. *)
Definition exactCost (tokens price : Z) : Z := Z.min maxInt64 ((tokens * price + 999999) / million).

(** A product of a whole part and a rest. *)
Lemma split_price q r price P R : price = million * P + R ->
  ((million * q + r) * price + 999999) / million = q * price + (r * P + (r * R + 999999) / million).
Proof.
  intros Hp. replace ((million * q + r) * price + 999999) with ((q * price + r * P) * million + (r * R + 999999)) by (rewrite Hp; ring).
  rewrite Z.div_add_l by done. lia.
Qed.

Lemma quot_rem_nonneg a b : 0 <= a -> 0 < b -> a = b * Z.quot a b + Z.rem a b /\ 0 <= Z.quot a b /\ 0 <= Z.rem a b < b.
Proof.
  intros Ha Hb. pose proof (Z.quot_rem' a b). pose proof (Z.rem_bound_pos a b Ha Hb). pose proof (Z.quot_pos a b Ha Hb). lia.
Qed.

Lemma capped_sum a b : (if maxInt64 - a <? b then maxInt64 else a + b) = Z.min maxInt64 (a + b).
Proof. destruct (maxInt64 - a <? b) eqn:E; [apply Z.ltb_lt in E|apply Z.ltb_ge in E]; lia. Qed.

Lemma tokenCost_exact tokens price : 0 <= tokens <= maxInt64 -> 0 <= price <= maxInt64 -> tokenCost tokens price = exactCost tokens price.
Proof.
  intros Ht Hp. unfold tokenCost, exactCost. destruct (_ || _) eqn:E0.
  { apply orb_true_iff in E0. rewrite !Z.leb_le in E0. assert (tokens * price = 0) as -> by nia. done. }
  apply orb_false_iff in E0. rewrite !Z.leb_gt in E0.
  destruct (quot_rem_nonneg tokens million ltac:(lia) ltac:(done)) as (E1 & Q1 & R1).
  destruct (quot_rem_nonneg price million ltac:(lia) ltac:(done)) as (E2 & Q2 & R2).
  destruct (quot_rem_nonneg maxInt64 price ltac:(done) ltac:(lia)) as (E3 & Q3 & R3).
  set (q := Z.quot tokens million) in *. set (r := Z.rem tokens million) in *. set (P := Z.quot price million) in *. set (R := Z.rem price million) in *.
  set (k := Z.quot maxInt64 price) in *. rewrite E1. rewrite (split_price _ _ _ _ _ E2).
  assert (Hrest : 0 <= (r * R + 999999) / million) by (apply Z.div_pos; [nia|done]).
  assert (HrP : 0 <= r * P) by nia.
  destruct (k <? q) eqn:Ek; [apply Z.ltb_lt in Ek|apply Z.ltb_ge in Ek].
  { symmetry. apply Z.min_l. assert (q * price >= (k + 1) * price) by nia. nia. }
  assert (Hcost : 0 <= q * price <= maxInt64) by (assert (q * price <= k * price) by nia; nia).
  assert (HP : P <= 9223372036854) by (unfold million, maxInt64 in *; lia).
  assert (HrP' : r * P <= 999999 * 9223372036854) by (unfold million in *; apply Z.mul_le_mono_nonneg; lia).
  assert (HrR : 0 <= r * R <= 999999 * 999999) by (unfold million in *; split; [nia|apply Z.mul_le_mono_nonneg; lia]).
  rewrite (wrapInt64_id (q * price)), (wrapInt64_id (r * P)), (wrapInt64_id (r * R + million - 1)) by (unfold million, maxInt64 in *; lia).
  replace (r * R + million - 1) with (r * R + 999999) by (unfold million; lia). rewrite Z.quot_div_nonneg by (done || lia).
  cbv zeta. rewrite capped_sum. destruct (maxInt64 - q * price <? r * P) eqn:E4; [apply Z.ltb_lt in E4|apply Z.ltb_ge in E4]; lia.
Qed.

(** Costs are exact.  For token counts and prices that are [int64]s, the cost of a
    run - the price of its input and that of its output, each a price for a million
    tokens, rounded up - is the mathematical sum of the two, or the largest [int64] when
    that is smaller: no product and no sum on the way wraps around, although the product
    of tokens and price itself need not fit. *)
Theorem costs_exact input output inputPrice outputPrice :
  0 <= input <= maxInt64 -> 0 <= output <= maxInt64 -> 0 <= inputPrice <= maxInt64 -> 0 <= outputPrice <= maxInt64 ->
  addCost (tokenCost input inputPrice) (tokenCost output outputPrice) =
    Z.min maxInt64 ((input * inputPrice + 999999) / million + (output * outputPrice + 999999) / million).
Proof.
  intros H1 H2 H3 H4. rewrite !tokenCost_exact by done. unfold addCost, exactCost. rewrite capped_sum.
  assert (Hpos : forall a b, 0 <= a -> 0 <= b -> 0 <= (a * b + 999999) / million) by (intros; apply Z.div_pos; [nia|done]).
  pose proof (Hpos input inputPrice ltac:(lia) ltac:(lia)). pose proof (Hpos output outputPrice ltac:(lia) ltac:(lia)). lia.
Qed.
