(* ===== verification/AIWitness.v ===== *)
(** * The assistant: a concrete run

    A student asks, the run is admitted and leased, and an execution streams the answer.
    The theorems at the states this goes through. *)

From S2P Require Import Prelude GoTime GoText GoStrings GoSha256 GoStrconv Pg OpsModel Keyset AuditLog FilesModel FilesStore LessonModel LessonFiles LessonService LessonProofs LessonTheorems AIModel AIStore AIRunnerStore AIRunner AIInvariant AITheorems AIExecution AIQuota.
From stdpp Require Import base tactics list gmap strings relations.
From Stdlib Require Import ZArith Lia.
Import Lessons AI AIStore AIRunnerStore AIRunner.

Open Scope Z_scope.

#[local] Existing Instance PgTruncate.
#[local] Existing Instance DecimalUUID.

Definition instruction : string := "Explain each step.".
Definition instructionHash : string := hexSum256 (bytes instruction).
Definition address : BaseURL := MkBaseURL "https" "ai.example" "https://ai.example".
Definition millis (n : Z) : Z := n * 1000000.

(** One model of one provider, with one prompt. *)
Definition configured : ConfigTables :=
  MkConfigTables (MkLimits 10 100 10000 100000) ∅
    {[21%N := MkModelRow 20 "small" ModalityText 4000 500 1 3000000 9000000 true None 1 1000 10000 10000 60000]}
    {[20%N := MkProviderRow "https://ai.example" ProtocolResponses [1; 2; 3] 1 true]}
    {[22%N := MkPromptRow SubjectMath 1 instruction true]}.

Definition noRuns : AIDB :=
  MkAIDB
    (MkLessonDB
      (MkFilesDB ∅ ∅ ∅ ∅ ∅ ∅ ∅ [] (Audit.MkTable [] 1) {[5%N; 9%N]} ∅ ∅ ∅ (Some "normal"))
      (MkCatalog ∅ ∅ ∅ ∅ ∅) (MkDrafts ∅ ∅ ∅ ∅) (MkRevisions ∅ ∅ ∅ ∅ ∅)
      {[5%N := MkUserRow RoleAdmin StatusActive None; 9%N := MkUserRow RoleStudent StatusActive None]} ∅ [] [])
    configured ∅ ∅ ∅ ∅ ∅ ∅.

Definition plainURL (s : string) : option Lesson.ParsedURL := None.
Definition printURL (scheme host : string) (u : Lesson.ParsedURL) : string := scheme.
Definition same (s : string) : string := s.
Notation step := (aiStep same same plainURL printURL).

Definition at_ (t : Z) : Env :=
  MkEnv (fun _ => false) (fun _ => t) (fun n => MkTime (t + Z.of_nat n * second) None) (fun n => N.of_nat (100000 + Z.to_nat (t / minute) * 100 + n)).

Definition snapshot : RuntimeSnapshot :=
  MkSnapshot
    (MkConfig 20 1 (Some address) ProtocolResponses []
       (MkModel 21 20 "small" ModalityText 4000 500 1 3000000 9000000 true None) (MkPrompt 22 SubjectMath 1 instruction true)
       (MkTimeouts (millis 1000) (millis 10000) (millis 10000) (millis 60000)))
    instructionHash.

Definition reservation : QuotaReservation := EstimateQuotaReservation instruction ["Why is it so?"%string] "" 0 1 500 (MkTime hour None).
Definition admission : RuntimeAdmission :=
  MkAdmission 9 31 true "Fractions" SubjectMath 32 "Why is it so?" "key-of-the-question" [] 1 snapshot reservation (MkTime hour None).

Definition asked : AIDB := exec (AdmitRun admission) (at_ hour) noRuns.
Definition parse (s : string) : option BaseURL := Some address.
Definition open_box (p : UUID) (version : Z) (sealed : list Z) : option (list Z) := Some sealed.
Definition noPreviews : AIAttachments.Fetch := fun _ => None.
Definition unlocked (id : UUID) : bool := false.
Definition nothingElse : Meanwhile := MkMeanwhile 0 false false.
Definition settings : Settings := defaulted (MkSettings "runner-1" 0 0 0 0 8).

Definition taken : AIDB := exec (leaseRun parse Locked unlocked "runner-1" (MkTime (2 * hour) None) (30 * second)) (at_ (2 * hour)) asked.
Definition leased : LeasedRun :=
  match runs taken !! 106012%N with
  | Some r => withConfig address instruction (leasedOf 106012 r "runner-1")
  | None => MkLeased (MkRun 0 0 0 "" [] RunFailed 0 0 "" ModalityText 0 0 0 0 "" zeroTime zeroTime) (Provider snapshot) (MkRequest 0 "" "" [] [] 0) ""
  end.

Definition delta (s : string) : Happening := Streamed (MkGatewayEvent KindDelta s 0 0 "").
Definition chunks : list Happening :=
  [delta "Because "; HeartbeatTick; delta "it is "; FlushTick; Streamed (MkGatewayEvent KindUsage "" 40 12 ""); delta "so.";
   Streamed (MkGatewayEvent KindCompleted "" 0 0 "stop")].
Definition executed : AIDB :=
  exec (execute (H := PostgresRunnerStore parse open_box noPreviews Locked unlocked nothingElse) settings chunks None false leased)
    (at_ (2 * hour + minute)) taken.

Lemma ai_start_reachable : reachable initAI step noRuns.
Proof. apply reach_init. unfold initAI. split_and!; try reflexivity. vm_compute. by split_and!. Qed.

Lemma asked_reachable : reachable initAI step asked.
Proof. eapply reach_step; [exact ai_start_reachable|]. by apply StepAdmit. Qed.

Lemma taken_reachable : reachable initAI step taken.
Proof. eapply reach_step; [exact asked_reachable|]. by apply StepLease. Qed.

(** Reads a field of a row that is there. *)
Ltac field_of E f := let Hx := fresh "F" in
  match type of E with
  | ?m !! ?k = Some ?x => let v := eval vm_compute in (f <$> m !! k) in assert (Hx : f <$> m !! k = v) by (vm_compute; reflexivity);
      rewrite E in Hx; cbn [fmap option_fmap option_map] in Hx; injection Hx as Hx
  end.

(** The run is leased, and the tables are consistent. *)
Lemma ai_invariant_witness :
  exists r, runs taken !! 106012%N = Some r /\ rn_status r = RunStreaming /\ is_Some (ledger taken !! (106012%N, "day"%string, "reserve"%string)) /\ aiWf taken.
Proof.
  destruct (runs taken !! 106012%N) as [r|] eqn:Er; [|vm_compute in Er; discriminate]. field_of Er rn_status.
  destruct (ledger taken !! (106012%N, "day"%string, "reserve"%string)) as [g|] eqn:Eg; [|vm_compute in Eg; discriminate].
  exists r. split; [reflexivity|]. split; [exact F|]. split; [exists g; reflexivity|].
  exact (ai_invariant same same plainURL printURL taken taken_reachable).
Defined.

(** The lease leaves the question and the identity of the run as they were. *)
Lemma ai_history_witness :
  exists r r', runs asked !! 106012%N = Some r /\ runs taken !! 106012%N = Some r' /\ rn_status r = RunQueued /\ runKept r r' /\
    messages asked ⊆ messages taken.
Proof.
  destruct (runs asked !! 106012%N) as [r|] eqn:Er; [|vm_compute in Er; discriminate]. field_of Er rn_status.
  pose proof (ai_history same same plainURL printURL asked taken asked_reachable ltac:(apply rtc_once; by apply StepLease)) as Hk.
  destruct (k_runs _ _ Hk _ _ Er) as (r' & Hr' & Hkept). exists r, r'.
  split_and!; [reflexivity|exact Hr'|exact F|exact Hkept|exact (k_messages _ _ Hk)].
Defined.

(** The admission raises what the student holds of the day's quota, within the limits. *)
Lemma quotas_hold_witness :
  held heldTokens asked 9 "day" "0001-01-01" = 531 /\ risesWithin heldTokens tokenLimit noRuns asked 9 "day" "0001-01-01".
Proof.
  assert (Ht : held heldTokens asked 9 "day" "0001-01-01" = 531) by (vm_compute; reflexivity).
  assert (Hr : held heldRequests asked 9 "day" "0001-01-01" = 1) by (vm_compute; reflexivity).
  assert (Hs : step noRuns asked) by apply StepAdmit. split; [exact Ht|].
  refine (proj2 (proj2 (quotas_hold same same plainURL printURL noRuns asked 9 "day" "0001-01-01" ai_start_reachable Hs _ _))).
  - rewrite Hr. by vm_compute.
  - rewrite Ht. by vm_compute.
Defined.

(** The answer is what was streamed. *)
Lemma execution_settles_witness :
  exists r', runs executed !! 106012%N = Some r' /\ rn_status r' = RunSucceeded /\
    exists mid m, messages executed !! mid = Some m /\ ms_run m = Some 106012%N /\ ms_body m = "Because it is so."%string.
Proof.
  destruct (streamedBy taken 106012 "runner-1") as [r|] eqn:Er; [|vm_compute in Er; discriminate].
  assert (Hseq : rn_sequence <$> streamedBy taken 106012 "runner-1" = Some 0) by (vm_compute; reflexivity).
  rewrite Er in Hseq. injection Hseq as Hseq.
  assert (Hid : RunID (LeasedRunOf leased) = 106012%N) by (vm_compute; reflexivity).
  assert (Hown : LeaseOwner leased = "runner-1"%string) by (vm_compute; reflexivity).
  assert (Hlast : LastSequence (LeasedRunOf leased) = 0) by (vm_compute; reflexivity).
  assert (Htext : streamText chunks = "Because it is so."%string) by reflexivity.
  assert (Hlen : Z.of_nat (length chunks) = 7) by reflexivity.
  destruct (execution_settles same same plainURL printURL parse open_box noPreviews Locked unlocked nothingElse settings leased r taken chunks None false
    (at_ (2 * hour + minute))) as (r' & H1 & _ & H3).
  - intros n. reflexivity.
  - exact taken_reachable.
  - by rewrite Hid, Hown.
  - by rewrite Hseq.
  - rewrite Hseq, Hlen. by vm_compute.
  - by rewrite Hid.
  - fold executed in H1, H3. rewrite Hid in H1, H3. exists r'.
    assert (Hs : rn_status <$> runs executed !! 106012%N = Some RunSucceeded) by (vm_compute; reflexivity).
    rewrite H1 in Hs. injection Hs as Hs. rewrite Hs in H3. rewrite Htext in H3. destruct H3 as (_ & H3 & _).
    split_and!; [exact H1|exact Hs|exact H3].
Defined.

(** Tokens and a price whose product is no [int64]. *)
Lemma costs_exact_witness :
  addCost (tokenCost 4000000000000 3000000) (tokenCost 1 1) = 12000000000001.
Proof. rewrite costs_exact; [reflexivity|by vm_compute..]. Defined.
